(* ===== verification/_CoqProject ===== *)
-Q . S2P
Prelude.v
StateOp.v
MinHeap.v
EvChain.v
Evbuffer.v
EvbufferSpec.v
EvbufferProps.v
EvExpand.v
EvIO.v
EvSearch.v
EvSearchSpec.v
EvLines.v
EvSpace.v
EvSocket.v
ByteQueue.v
Tagging.v
TaggingSpec.v
EventData.v
Evmap.v
EventCore.v
EventLoop.v
EventQueue.v
TokenBucket.v
Bev.v
RateLimit.v
BevSocket.v
BevInv.v
BevWorld.v
BevGroups.v
BevLimits.v
BevTimers.v
BevGroupOps.v
BevActs.v
BevTransfer.v
BevLife.v
BevRun.v
BevProps.v
EvmapSpec.v
EventSpec.v
EventAdd.v
EventTimeout.v
EventAddSpec.v
EventProcess.v
EventSample.v
EventProps.v
Cstring.v
Textbuf.v
Inet.v
Uri.v
UriSpec.v
UriProps.v
HttpHeaders.v
UriCoding.v
HttpServer.v
HttpMessage.v
ChunkedSpec.v
HttpReply.v
HttpReplyProps.v
Dns.v
DnsSpec.v
DnsPacket.v
DnsServer.v
DnsWire.v
DnsExchange.v
DnsPort.v
DnsProps.v
DnsBase.v
DnsResolver.v
DnsResolverSpec.v
DnsLists.v
DnsInv.v
DnsFinish.v
DnsSubmit.v
DnsReply.v
DnsHandle.v
DnsLookup.v
DnsConfig.v
DnsEvents.v
DnsResolverProps.v
