(* ===== verification/Prelude.v ===== *)
(** * Verification of the libevent sources kept in this repository

    The repository collects network programming experiments.  Its one large
    program in C is the copy of libevent 2.0 in [src/libevent_server/libevent/],
    built there for Windows; this development models the parts of it that carry
    its logic, and proves what they promise.  Unless another directory is named,
    a file [x.c] or [x.h] below is in that directory or its [include/event2/].

    ** The program and its parts

    An event base ([event.c]) keeps user events: each waits for a descriptor, a
    signal, a time, or is made active by hand.  Descriptors and signals are looked
    up in maps ([evmap.c]) that tell a backend, a table of functions for one
    system call, what to watch; times wait in a heap ([minheap-internal.h]) or, when
    many events share a duration, in sorted lists with one heap entry each.  The
    loop asks the backend, activates elapsed events, and runs the callbacks of
    active events by priority.  On top of events, byte queues ([buffer.c]) hold data
    on its way; they are lists of chunks with callbacks of their own.  A bufferevent
    ([bufferevent.c]) joins two such queues and two events: data that arrives on a socket
    goes into its input, data in its output leaves through the socket
    ([bufferevent_sock.c]), and either direction is suspended while the input is full, a
    token bucket of its own or of a group is empty ([bufferevent_ratelim.c]), or a name is
    being looked up.  The tagging
    code ([event_tagging.c]) and the HTTP code ([http.c]) read and write their
    formats through these queues, and the HTTP code uses the address and string
    helpers of [evutil.c].  The DNS code ([evdns.c]) has a resolver, which sends the
    requests of an application to name servers, repeats, moves and searches, and a
    server side, which answers requests that come in on a port.

    ** The files

    Prelude (this file): record updates, machine integers with their wrap-around,
    lists indexed by [Z], memory blocks, and the tactics shared by all files.
    [StateOp]: operations on an explicit state as a monad, and weakest preconditions.

    Timeout heap.  [MinHeap]: all of [minheap-internal.h], the array and the
    back-pointers in the events, and the heap invariant under push, pop, erase.

    Byte queues.  [EvChain]: the chunks ([struct evbuffer_chain]) with allocation
    sizes of 32 and 64 bits.  [Evbuffer]: [struct evbuffer] and the operations that
    add, prepend, drain, copy, move and linearise, with the callbacks they cause.
    [EvExpand], [EvIO]: space at the end, scattered reads and gathered writes,
    formatted output.  [EvSearch]: positions, searches, ends of lines.
    [EvbufferSpec] has the invariant ([packed]) and the abstraction ([contents], the
    bytes), [EvbufferProps] the contract and the refinement of an abstract queue,
    [EvSearchSpec] and [EvLines] searches and lines, [EvSpace] what operations leave
    alone, reserving and committing, [Textbuf] text that is put together, [EvSocket] what a socket puts in and takes out.

    Tagging.  [ByteQueue] is the interface (a class with laws) that the tagging
    code needs and that an evbuffer implements; [Tagging] the code, [TaggingSpec]
    its round trips over any implementation of the interface.

    Events.  [EventData]: the structs of [event_struct.h] and [event-internal.h].
    [Evmap]: [evmap.c].  [EventCore]: assigning, adding, deleting, activating,
    timeouts, the clock, common timeouts, deferred callbacks.  [EventLoop]: closures
    and [event_base_loop].  [EventQueue], [EvmapSpec], [EventSpec], [EventTimeout]:
    the invariants of queues and counters, maps, base, and common lists.
    [EventAdd], [EventAddSpec], [EventProcess]: that operations keep
    them.  [EventSample] has concrete bases, [EventProps] the properties.

    Bufferevents.  [TokenBucket]: buckets, their configurations and how they fill up.
    [Bev]: [struct bufferevent], groups and configurations in a store ([world]), and
    [bufferevent.c] over the class [bufferevent_ops] of what the kinds implement.
    [RateLimit]: [bufferevent_ratelim.c], each pair of functions for reading and writing
    once, with the direction as an argument.  [BevSocket]: [bufferevent_sock.c], the
    instance for sockets.  [BevInv]: the small steps, and the invariant ([world_ok]),
    relative to the references held and the connections that failed ([view]).
    [BevWorld], [BevGroups]: changes of one bufferevent, of its queues, of references and
    of members.  [BevLimits], [BevTimers], [BevGroupOps]: that the rate limits keep the
    invariant.  [BevActs], [BevTransfer], [BevLife]: that the calls of the application and
    the callbacks of the socket do.  [BevRun]: the actions that can happen and runs of
    them; [BevProps]: the properties.

    Strings and addresses.  [Cstring]: the character tables and string functions of
    [evutil.c] and [strlcpy.c], and the C library calls the parsers make.  [Inet]:
    addresses as text.

    HTTP.  [Uri]: the URI parser, printer and accessors; [UriSpec] writes the grammar
    as a predicate, [UriProps] proves the parser equivalent to it.  [HttpHeaders]:
    header lists.  [UriCoding]: escapes and query strings.  [HttpServer]: callbacks by
    path, aliases and virtual hosts.  [HttpMessage]: lines of a stream that is only partly
    there, first lines, header blocks, bodies and the state machine that reads them.
    [ChunkedSpec]: chunked bodies.  [HttpReply], [HttpReplyProps]: what is written,
    and that it is read back.

    DNS messages.  [Dns]: names in packets, written with compression and parsed.
    [DnsPacket]: queries, replies and requests, written and parsed.  [DnsServer]: server
    ports, their requests, replies and reference counts.  [DnsSpec] has the relation of
    a name and its bytes, [DnsWire] and [DnsExchange] what is written and that the other
    side reads it, [DnsPort] the invariant of a port, [DnsProps] the properties.

    DNS resolver.  [DnsBase]: [struct evdns_base] and what it owns (requests, handles,
    name servers, search states, queued callbacks) as a state with its store, a monad
    of operations on it, the class [ResolverEnv] of what the outside gives (random
    numbers, results of [sendto], sizes of structs), the request lists, the choice of ids
    and servers, and sending.  [DnsResolver]: everything from a lookup to its answer:
    submitting, replies, timeouts, retries, failing and probing of servers, searches,
    cancelling, settings.  [DnsResolverSpec]: a weakest precondition for the monad, the
    invariant of lists, counters and servers ([core]), what sending keeps; [DnsLists]: lists, ids, the waiting queue; [DnsInv]: the whole invariant ([inv]) and
    the counts of answers; [DnsFinish], [DnsSubmit], [DnsReply], [DnsHandle],
    [DnsLookup], [DnsConfig]: that operations keep it;
    [DnsEvents]: the events that can happen and runs of them; [DnsResolverProps]: the
    properties.

    ** How code becomes definitions

    A function of the source is a definition of the same name; a struct a record, an
    enum an inductive type.  Functions that change a struct return it.  Pointers to
    structs are numbers into a store where sharing matters (events), positions in a
    list where it does not (chunks).  The result is wrapped in [option], and [None] is
    what the C program must not do: read or write outside a block, overflow a signed
    integer, fail an assertion, call [event_errx].  So a theorem that a run is [Some]
    also says that the code is safe there.  Integers wrap at their width ([wrap],
    [swrap]); the width of [size_t] is a field of the class [Arch].  Allocation is the
    class [Allocator], which may fail; properties either cover failure or assume
    [mem_ok].  The backend, the clock, the callbacks of the application and the results
    of system calls are arguments.

    Loops are recursive over the data they walk, or over fuel.  The fuel chosen is
    enough by a theorem each time: the doubling loops run at most 64 times, searches
    and readers of a buffer at most once per byte and once more, the heap at most
    its size, the lists of timeouts their length; each such theorem states that the
    result is [Some].

    ** What the theorems show

    - The heap keeps its order and the back-pointers (C1 to C3).
    - An evbuffer is a queue of bytes, for every sequence of operations (C4), and
      moving data and reserving space keep bytes and invariant (C17, C20).
    - Searches and line reading find the first occurrence whatever the chunks are
      (C18, C19).
    - Adding, deleting and activating events keep all structures of a base
      consistent, errors included (C5, C6); the backend always knows the union
      of the interests (C7); elapsed events become active in order and common lists
      are always served again (C8, C24); what is pending is reported (C25).
    - URIs are parsed by their grammar and survive printing (C9, C26); encoded bytes
      read back (C27); tagged streams too, and truncated messages are refused (C21 to C23).
    - Chunked bodies are put together however they arrive (C10); replies are read as
      they were written (C11); patterns of virtual hosts match as a relation says
      (C28).
    - DNS queries and responses are read by the other side (C29), names survive
      compression (C30), the parser of names ends on every packet (C31), and a server
      port counts its references right and sends what waits (C32, C33).
    - Every event of a resolver keeps its structures (C12) and every lookup is answered
      once (C13); ids in flight are different, servers take turns, the waiting queue
      moves on, probes become rarer up to an hour (C34 to C37).  These hold while memory
      lasts ([mem_ok]), for a base with at least one server ([good]), random numbers that
      meet an unused id within [rand_gap] draws, at most 65000 requests in flight, and
      packets the parser can read; [possible] says so event by event.
    - Every call and event of a run keeps the bufferevents, limits and groups well-formed
      (C14); nothing stalls (C15), and without tokens nothing is transferred (C16).  What
      arrives is appended, what leaves is taken from the front, within watermark and
      limits, and paid for (C38, C39); buckets fill up to their maximum (C40).  These hold
      when the backend accepts every event ([events_ok]) and, for C14 to C16, while memory
      lasts, for limits that fit an [int], ticks of a millisecond at least, and minimal
      shares of 1 at least; the callbacks of the application are recorded, not run, so what
      they do is a further action.
    - Further theorems show where the code fails, on a concrete run or for all inputs of
      a kind: [evbuffer_prepend_prepends], [evbuffer_chain_new_overflow],
      [evbuffer_add_after_reserve_reorders], [evtag_decode_tag_overlong],
      [event_add_loses_timeout], [signal_delete_dangles], [dnsname_to_labels_overflow],
      [respond_queues_on_wrong_error].

    ** Not modelled

    System calls and what surrounds them: sockets, [getaddrinfo], the backends, the
    Windows completion ports, listeners, signals, files and memory maps as chunk
    memory.  Threads: locks are not modelled, every operation runs alone; what
    [event_del] waits for is a wait of the model ([None]).  Debug mode, logging, random
    numbers.  Bufferevent filters and pairs, RPC, the settings of evdns (files and
    options), [evdns_getaddrinfo], and the life of HTTP connections (connecting, retrying, queues of requests) are not modelled
    yet; calls into them are recorded by the HTTP files.  The runs of a resolver leave out
    [evdns_base_clear_nameservers_and_suspend] and [evdns_base_free], which are modelled
    but free servers that a queued callback may still use.  Other programs of the
    repository are small examples around Windows calls.

    ** Plan

    Next: bufferevent pairs and filters over the class of kinds; [resolv.conf], hosts files and
    [evdns_getaddrinfo]; that a search tries the names of a reference list in order; IPv6
    addresses printed and parsed; requests written and parsed; the loop over many
    iterations; releasing and merging bases. *)

From Stdlib Require Import String Ascii.
From Stdlib Require Export ZArith Lia Bool.
Export String.StringSyntax.
From stdpp Require Export base tactics numbers list option.

(** stdpp's [last], which returns an option. *)
Abbreviation last := list.last.

#[global] Open Scope Z_scope.

(** ** Record updates

    [r <| field := v |>] is [r] with one field replaced.  A record type gives
    its fields once, as an instance of [Settable] that rebuilds the record; the
    setter of a field abstracts the field from it. *)

Class Settable (R : Type) := rebuild : R -> R.

Class Setter {R T : Type} (field : R -> T) := assign : T -> R -> R.

Ltac find_setter R field :=
  let s := constr:(_ : Settable R) in
  let s := eval hnf in s in
  lazymatch eval pattern field in s with
  | ?f _ => let g := constr:(fun v r => f (fun _ => v) r) in
            let g := eval cbv beta in g in exact g
  end.

#[export] Hint Extern 1 (@Setter ?R _ ?field) => find_setter R field : typeclass_instances.

Notation "r <| field := v |>" := (assign (field := field) v r)
  (at level 1, left associativity, format "r  <| field  :=  v  |>").

(** ** Machine integers *)

(** Reduction of a mathematical integer to an unsigned [w]-bit value. *)
Definition wrap (w z : Z) : Z := z mod 2 ^ w.

Definition UINT32_MAX : Z := 4294967295.
Definition INT_MAX : Z := 2147483647.

(** Reduction to a signed [w]-bit value (two's complement). *)
Definition swrap (w z : Z) : Z := (z + 2 ^ (w - 1)) mod 2 ^ w - 2 ^ (w - 1).

(** A value that fits an unsigned [w]-bit object. *)
Definition fits (w z : Z) : Prop := 0 <= z < 2 ^ w.

Lemma wrap_range w z : 0 <= w -> fits w (wrap w z).
Proof. intros. apply Z.mod_pos_bound, Z.pow_pos_nonneg; lia. Qed.

Lemma wrap_small w z : fits w z -> wrap w z = z.
Proof. apply Z.mod_small. Qed.

Lemma wrap_idemp w z : 0 <= w -> wrap w (wrap w z) = wrap w z.
Proof. intros. by apply wrap_small, wrap_range. Qed.

(** Bits that do not overlap add up. *)
Lemma lor_shiftl_add a v k : 0 <= k -> 0 <= v < 2 ^ k -> Z.lor (Z.shiftl a k) v = a * 2 ^ k + v.
Proof.
  intros Hk Hv. rewrite <- Z.shiftl_mul_pow2 by lia.
  assert (Hd : Z.land (Z.shiftl a k) v = 0).
  { apply Z.bits_inj'. intros i Hi. rewrite Z.land_spec, Z.bits_0.
    destruct (Z.ltb_spec i k); [by rewrite Z.shiftl_spec_low|].
    replace v with (v mod 2 ^ k) by (apply Z.mod_small; lia).
    by rewrite Z.mod_pow2_bits_high, andb_false_r by lia. }
  rewrite Z.add_nocarry_lxor by done. symmetry. by apply Z.lxor_lor.
Qed.

(** Facts about small numbers by running through them. *)
Lemma forall_below (n : nat) (P : Z -> bool) :
  forallb (fun i => P (Z.of_nat i)) (seq 0 n) = true -> forall x, 0 <= x < Z.of_nat n -> P x = true.
Proof.
  intros H x Hx. rewrite forallb_forall in H.
  rewrite <- (Z2Nat.id x) by lia. apply H, in_seq. lia.
Qed.

Lemma swrap_small w z : 0 < w -> - 2 ^ (w - 1) <= z < 2 ^ (w - 1) -> swrap w z = z.
Proof.
  intros Hw Hz. unfold swrap.
  assert (2 ^ w = 2 * 2 ^ (w - 1)) by (rewrite <- Z.pow_succ_r by lia; f_equal; lia).
  rewrite Z.mod_small; lia.
Qed.

Lemma swrap_range w z : 0 < w -> - 2 ^ (w - 1) <= swrap w z < 2 ^ (w - 1).
Proof.
  intros Hw. unfold swrap.
  assert (2 ^ w = 2 * 2 ^ (w - 1)) by (rewrite <- Z.pow_succ_r by lia; f_equal; lia).
  assert (0 < 2 ^ (w - 1)) by (apply Z.pow_pos_nonneg; lia).
  pose proof (Z.mod_pos_bound (z + 2 ^ (w - 1)) (2 ^ w)). lia.
Qed.

(** ** Byte strings

    C buffers are lists of byte values; a NUL-terminated string is the list of
    the bytes before its terminator. *)

Definition is_byte (b : Z) : Prop := 0 <= b < 256.

Definition zlen {A} (l : list A) : Z := Z.of_nat (length l).

Fixpoint bytes_of (s : string) : list Z :=
  match s with
  | EmptyString => []
  | String c s' => Z.of_nat (nat_of_ascii c) :: bytes_of s'
  end.

Arguments bytes_of s%_string.

Lemma zlen_app {A} (l k : list A) : zlen (l ++ k) = zlen l + zlen k.
Proof. unfold zlen. rewrite length_app. lia. Qed.

Lemma zlen_nil {A} : zlen (@nil A) = 0.
Proof. done. Qed.

Lemma zlen_cons {A} (x : A) l : zlen (x :: l) = 1 + zlen l.
Proof. unfold zlen. cbn [length]. lia. Qed.

Lemma zlen_nonneg {A} (l : list A) : 0 <= zlen l.
Proof. unfold zlen. lia. Qed.

Lemma zlen_nil_iff {A} (l : list A) : zlen l = 0 <-> l = [].
Proof. unfold zlen. destruct l; cbn [length]; split; intros; try done; lia. Qed.

Lemma Forall_cons_split {A} (P : A -> Prop) x l : Forall P (x :: l) -> P x /\ Forall P l.
Proof. by inversion 1. Qed.

Lemma Forall_app_split {A} (P : A -> Prop) l k : Forall P (l ++ k) -> Forall P l /\ Forall P k.
Proof. apply Forall_app. Qed.

(** Access to a C array: reading or writing outside it is no defined
    behaviour of the program, and the models fail there. *)
Definition array_set {A} (l : list A) (i : nat) (x : A) : option (list A) :=
  if decide (i < length l)%nat then Some (<[i:=x]> l) else None.

Lemma array_set_Some {A} (l : list A) i x :
  (i < length l)%nat -> array_set l i x = Some (<[i:=x]> l).
Proof. intros. unfold array_set. by rewrite decide_True. Qed.

(** ** Blocks of memory

    A block is the list of its bytes; [memcpy] reads and writes ranges of it
    and is defined only when the range lies inside the block. *)

Definition ztake {A} (k : Z) (l : list A) : list A := take (Z.to_nat k) l.
Definition zdrop {A} (k : Z) (l : list A) : list A := drop (Z.to_nat k) l.

Definition mem_read (m : list Z) (pos len : Z) : option (list Z) :=
  if (0 <=? pos) && (0 <=? len) && (pos + len <=? zlen m)
  then Some (ztake len (zdrop pos m)) else None.

Definition mem_write (m : list Z) (pos : Z) (d : list Z) : option (list Z) :=
  if (0 <=? pos) && (pos + zlen d <=? zlen m)
  then Some (ztake pos m ++ d ++ zdrop (pos + zlen d) m) else None.

Lemma zlen_ztake {A} (l : list A) k : 0 <= k <= zlen l -> zlen (ztake k l) = k.
Proof. unfold zlen, ztake. rewrite length_take. lia. Qed.

Lemma ztake_lookup {A} (l : list A) k (i : nat) : Z.of_nat i < k -> ztake k l !! i = l !! i.
Proof. intros. unfold ztake. apply lookup_take_lt. lia. Qed.

Lemma zdrop_lookup {A} (l : list A) k (i : nat) : zdrop k l !! i = l !! (Z.to_nat k + i)%nat.
Proof. apply lookup_drop. Qed.

Lemma zlen_zdrop {A} (l : list A) k : 0 <= k <= zlen l -> zlen (zdrop k l) = zlen l - k.
Proof. unfold zlen, zdrop. rewrite length_drop. lia. Qed.

Lemma zlen_zdrop_max {A} (l : list A) k : 0 <= k -> zlen (zdrop k l) = Z.max 0 (zlen l - k).
Proof. unfold zlen, zdrop. rewrite length_drop. lia. Qed.

Lemma ztake_zdrop {A} (l : list A) k : ztake k l ++ zdrop k l = l.
Proof. apply take_drop. Qed.

Lemma ztake_0 {A} (l : list A) k : k <= 0 -> ztake k l = [].
Proof. intros. unfold ztake. by replace (Z.to_nat k) with 0%nat by lia. Qed.

Lemma zdrop_0 {A} (l : list A) k : k <= 0 -> zdrop k l = l.
Proof. intros. unfold zdrop. by replace (Z.to_nat k) with 0%nat by lia. Qed.

Lemma ztake_ge {A} (l : list A) k : zlen l <= k -> ztake k l = l.
Proof. unfold zlen, ztake. intros. apply take_ge. lia. Qed.

Lemma zdrop_ge {A} (l : list A) k : zlen l <= k -> zdrop k l = [].
Proof. unfold zlen, zdrop. intros. apply drop_ge. lia. Qed.

Lemma ztake_app_le {A} (l r : list A) k : k <= zlen l -> ztake k (l ++ r) = ztake k l.
Proof. unfold zlen, ztake. intros. apply take_app_le. lia. Qed.

Lemma zdrop_app_le {A} (l r : list A) k : k <= zlen l -> zdrop k (l ++ r) = zdrop k l ++ r.
Proof. unfold zlen, zdrop. intros. apply drop_app_le. lia. Qed.

Lemma ztake_app_ge {A} (l r : list A) k :
  zlen l <= k -> ztake k (l ++ r) = l ++ ztake (k - zlen l) r.
Proof.
  unfold zlen, ztake. intros. rewrite take_app_ge by lia. f_equal. f_equal. lia.
Qed.

Lemma zdrop_app_ge {A} (l r : list A) k :
  zlen l <= k -> zdrop k (l ++ r) = zdrop (k - zlen l) r.
Proof. unfold zlen, zdrop. intros. rewrite drop_app_ge by lia. f_equal. lia. Qed.

Lemma ztake_exact {A} (l r : list A) k : k = zlen l -> ztake k (l ++ r) = l.
Proof. intros ->. rewrite ztake_app_le by lia. apply ztake_ge. lia. Qed.

Lemma zdrop_exact {A} (l r : list A) k : k = zlen l -> zdrop k (l ++ r) = r.
Proof. intros ->. rewrite zdrop_app_le by lia. by rewrite zdrop_ge by lia. Qed.

Lemma ztake_ztake {A} (l : list A) i k : i <= k -> ztake i (ztake k l) = ztake i l.
Proof. intros. unfold ztake. rewrite take_take. f_equal. lia. Qed.

Lemma zdrop_zdrop {A} (l : list A) i k :
  0 <= i -> 0 <= k -> zdrop i (zdrop k l) = zdrop (k + i) l.
Proof. intros. unfold zdrop. rewrite drop_drop. f_equal. lia. Qed.

Lemma zdrop_ztake {A} (l : list A) i k :
  0 <= i <= k -> zdrop i (ztake k l) = ztake (k - i) (zdrop i l).
Proof.
  intros. unfold zdrop, ztake. rewrite skipn_firstn_comm. f_equal. lia.
Qed.

Lemma mem_read_Some m pos len :
  0 <= pos -> 0 <= len -> pos + len <= zlen m ->
  mem_read m pos len = Some (ztake len (zdrop pos m)).
Proof.
  intros. unfold mem_read.
  by rewrite !(proj2 (Z.leb_le _ _)) by lia.
Qed.

Lemma mem_write_Some m pos d :
  0 <= pos -> pos + zlen d <= zlen m ->
  mem_write m pos d = Some (ztake pos m ++ d ++ zdrop (pos + zlen d) m).
Proof. intros. unfold mem_write. by rewrite !(proj2 (Z.leb_le _ _)) by lia. Qed.

(** ** Searching in byte strings *)

(** The index of the first byte that satisfies [P]. *)
Fixpoint memfind (P : Z -> bool) (l : list Z) : option Z :=
  match l with
  | [] => None
  | y :: l' => if P y then Some 0 else Z.succ <$> memfind P l'
  end.

(** [memchr] of the C library, as an index. *)
Definition memchr (x : Z) (l : list Z) : option Z := memfind (Z.eqb x) l.

(** Does [l] start with [what]? *)
Definition starts_with (what l : list Z) : bool := bool_decide (ztake (zlen what) l = what).

(** The index of the first occurrence of [what]. *)
Fixpoint find_sub (what l : list Z) : option Z :=
  match l with
  | [] => None
  | _ :: l' => if starts_with what l then Some 0 else Z.succ <$> find_sub what l'
  end.

Lemma memfind_range P l k : memfind P l = Some k -> 0 <= k < zlen l.
Proof.
  revert k. induction l as [|y l IH]; intros k; cbn [memfind]; [done|].
  rewrite zlen_cons. pose proof (zlen_nonneg l). destruct (P y); [intros [= <-]; lia|].
  destruct (memfind P l) as [j|]; [|done]. intros [= <-]. specialize (IH j eq_refl). lia.
Qed.

Lemma memfind_app P l r :
  memfind P (l ++ r) =
    match memfind P l with Some k => Some k | None => Z.add (zlen l) <$> memfind P r end.
Proof.
  induction l as [|y l IH]; cbn [app memfind].
  - destruct (memfind P r); cbn; [f_equal; rewrite zlen_nil; lia | done].
  - destruct (P y); [done|]. rewrite IH. destruct (memfind P l); cbn; [done|].
    destruct (memfind P r); cbn; [f_equal; rewrite zlen_cons; lia | done].
Qed.

(** The byte found, and the ones before it. *)
Lemma memfind_Some P l k :
  memfind P l = Some k ->
  exists x r, zdrop k l = x :: r /\ P x = true /\ forallb (fun y => negb (P y)) (ztake k l) = true.
Proof.
  revert k. induction l as [|y l IH]; intros k; cbn [memfind]; [done|].
  destruct (P y) eqn:Hy; [intros [= <-]; by exists y, l|].
  destruct (memfind P l) as [j|] eqn:E; [|done]. intros [= <-].
  pose proof (memfind_range _ _ _ E). destruct (IH j eq_refl) as (x & r & Hd & Hx & Ht).
  exists x, r. unfold zdrop, ztake in *. replace (Z.to_nat (Z.succ j)) with (S (Z.to_nat j)) by lia.
  cbn [skipn firstn forallb]. by rewrite Hy.
Qed.

Lemma memfind_ext P Q l : (forall x, P x = Q x) -> memfind P l = memfind Q l.
Proof. intros H. induction l as [|y l IH]; cbn; [done|]. by rewrite H, IH. Qed.

Lemma memfind_None P l : memfind P l = None <-> forallb (fun y => negb (P y)) l = true.
Proof.
  induction l as [|y l IH]; cbn; [done|]. destruct (P y); cbn; [done|].
  rewrite <- IH. by destruct (memfind P l).
Qed.

Lemma starts_with_cons x w y l : starts_with (x :: w) (y :: l) = (x =? y) && starts_with w l.
Proof.
  unfold starts_with. assert (ztake (zlen (x :: w)) (y :: l) = y :: ztake (zlen w) l) as ->.
  { unfold ztake. pose proof (zlen_nonneg w). rewrite zlen_cons.
    by replace (Z.to_nat (1 + zlen w)) with (S (Z.to_nat (zlen w))) by lia. }
  destruct (Z.eqb_spec x y) as [->|Hne]; cbn [andb].
  - apply bool_decide_ext. split; [intros [= E]; by rewrite E | intros E; by rewrite E].
  - apply bool_decide_eq_false. by intros [= -> _].
Qed.

Lemma find_sub_nonneg what l k : find_sub what l = Some k -> 0 <= k.
Proof.
  revert k. induction l as [|y l IH]; intros k; cbn [find_sub]; [done|].
  destruct (starts_with _ _); [intros [= <-]; lia|].
  destruct (find_sub what l) as [j|]; [|done]. intros [= <-]. specialize (IH j eq_refl). lia.
Qed.

(** An occurrence starts with the first byte of the pattern. *)
Lemma find_sub_memchr x w l :
  find_sub (x :: w) l =
    match memchr x l with
    | None => None
    | Some k => Z.add k <$> find_sub (x :: w) (zdrop k l)
    end.
Proof.
  unfold memchr. induction l as [|y l IH]; [done|].
  cbn [memfind]. destruct (x =? y) eqn:E.
  - rewrite zdrop_0 by lia. destruct (find_sub (x :: w) (y :: l)) as [j|]; done.
  - cbn [find_sub]. rewrite starts_with_cons, E. cbn [andb]. rewrite IH.
    destruct (memfind (Z.eqb x) l) as [k|] eqn:Ek; [|done]. cbn [fmap option_fmap option_map].
    pose proof (memfind_range _ _ _ Ek). unfold zdrop.
    replace (Z.to_nat (Z.succ k)) with (S (Z.to_nat k)) by lia. cbn [skipn].
    destruct (find_sub (x :: w) (drop (Z.to_nat k) l)) as [j|]; [|done].
    cbn [fmap option_fmap option_map]. f_equal. lia.
Qed.

Lemma starts_with_long what l : starts_with what l = true -> zlen what <= zlen l.
Proof.
  unfold starts_with. intros H%bool_decide_eq_true.
  assert (zlen (ztake (zlen what) l) = zlen what) as E by (by rewrite H).
  unfold zlen, ztake in *. rewrite length_take in E. lia.
Qed.

(** Inversion of the option monad and of boolean tests, used throughout. *)
Ltac inv_opt :=
  repeat match goal with
  | H : Some _ = Some _ |- _ => injection H as H; subst
  | H : None = Some _ |- _ => discriminate H
  | H : Some _ = None |- _ => discriminate H
  | H : (_, _) = (_, _) |- _ => injection H as; subst
  | H : (_ ≫= _) = Some _ |- _ =>
      apply bind_Some in H; let x := fresh "x" in destruct H as (x & ? & H)
  end.

(** Splits a conjunction, leaving equivalences alone. *)
Ltac splits := repeat match goal with |- _ /\ _ => split end.

Ltac bool_to_prop :=
  repeat match goal with
  | H : (_ && _) = true |- _ => apply andb_prop in H; destruct H
  | H : (_ || _) = false |- _ => apply orb_false_elim in H; destruct H
  | H : negb _ = true |- _ => apply negb_true_iff in H
  | H : negb _ = false |- _ => apply negb_false_iff in H
  | H : (_ =? _) = true |- _ => apply Z.eqb_eq in H
  | H : (_ =? _) = false |- _ => apply Z.eqb_neq in H
  | H : (_ <? _) = true |- _ => apply Z.ltb_lt in H
  | H : (_ <? _) = false |- _ => apply Z.ltb_ge in H
  | H : (_ <=? _) = true |- _ => apply Z.leb_le in H
  | H : (_ <=? _) = false |- _ => apply Z.leb_gt in H
  | H : (_ <? _)%nat = true |- _ => apply Nat.ltb_lt in H
  | H : (_ <? _)%nat = false |- _ => apply Nat.ltb_ge in H
  | H : (_ <=? _)%nat = true |- _ => apply Nat.leb_le in H
  | H : (_ <=? _)%nat = false |- _ => apply Nat.leb_gt in H
  | H : (_ =? _)%nat = true |- _ => apply Nat.eqb_eq in H
  | H : (_ =? _)%nat = false |- _ => apply Nat.eqb_neq in H
  end.

Create HintDb ev.
Create Rewrite HintDb ev.
#[export] Hint Resolve zlen_nonneg wrap_range : ev.
#[export] Hint Rewrite @zlen_app @zlen_cons @zlen_nil : ev.

(** ** Lists of lists *)

Lemma elem_of_concat {A} (ls : list (list A)) x :
  x ∈ concat ls <-> exists i q, ls !! i = Some q /\ x ∈ q.
Proof.
  induction ls as [|l ls IH]; cbn [concat].
  - rewrite elem_of_nil. split; [done|]. by intros (i & q & Hi & _).
  - rewrite elem_of_app, IH. split.
    + intros [Hx | (i & q & Hi & Hx)]; [by exists 0%nat, l | by exists (S i), q].
    + intros ([|i] & q & Hi & Hx); [left | right; by exists i, q].
      by injection Hi as ->.
Qed.

Lemma concat_insert {A} (ls : list (list A)) i q q' :
  ls !! i = Some q ->
  exists r, concat ls ≡ₚ q ++ r /\ concat (<[i := q']> ls) ≡ₚ q' ++ r.
Proof.
  revert i. induction ls as [|l ls IH]; [done|]. intros [|i] Hi; cbn in *.
  - injection Hi as ->. by exists (concat ls).
  - destruct (IH i Hi) as (r & H1 & H2). exists (l ++ r). rewrite H1, H2.
    split; apply Permutation_app_swap_app.
Qed.
