(* ===== verification/StateOp.v ===== *)
(** Operations on an explicit state, for the components that keep their objects in a store:
    a state monad whose [None] is undefined behaviour or a failed assertion, its notation,
    and weakest preconditions for it. *)

From S2P Require Import Prelude.

Definition state_op (S T : Type) : Type := S -> option (T * S).

Section ops.
Context {S : Type}.

Definition ret {T} (x : T) : state_op S T := fun s => Some (x, s).
Definition bind {T U} (m : state_op S T) (k : T -> state_op S U) : state_op S U :=
  fun s => match m s with Some (x, s') => k x s' | None => None end.
Definition undefined {T} : state_op S T := fun _ => None.
Definition asks {T} (f : S -> T) : state_op S T := fun s => Some (f s, s).
Definition modify (f : S -> S) : state_op S unit := fun s => Some (tt, f s).
Definition lift {T} (o : option T) : state_op S T := fun s => match o with Some x => Some (x, s) | None => None end.
Definition assert (c : bool) : state_op S unit := if c then ret tt else undefined.
Definition when (c : bool) (m : state_op S unit) : state_op S unit := if c then m else ret tt.
End ops.

Declare Scope state_op_scope.
Notation "'let!' p := m 'in' k" := (bind m (fun p => k)) (at level 200, p strict pattern, m at level 100, k at level 200,
  format "'[v' 'let!'  p  :=  m  'in' '/' k ']'") : state_op_scope.
Notation "m ;; k" := (bind m (fun _ => k)) (at level 100, k at level 200, right associativity) : state_op_scope.
Delimit Scope state_op_scope with state_op.
#[global] Open Scope state_op_scope.

(** ** Weakest preconditions *)

(** The operation is defined on [s] and ends in a result and a state that satisfy [Q]. *)
Definition wp {S T} (m : state_op S T) (Q : T -> S -> Prop) (s : S) : Prop :=
  match m s with Some (x, s') => Q x s' | None => False end.

Section wp.
Context {S T U : Type}.
Implicit Types (m : state_op S T) (k : T -> state_op S U) (s : S).

Lemma wp_bind m k Q s : wp m (fun x => wp (k x) Q) s -> wp (bind m k) Q s.
Proof. unfold wp, bind. by destruct (m s) as [[x s']|]. Qed.

Lemma wp_mono m (P Q : T -> S -> Prop) s : wp m P s -> (forall x s', P x s' -> Q x s') -> wp m Q s.
Proof. unfold wp. destruct (m s) as [[x s']|]; auto. Qed.

Lemma wp_ret (x : T) (Q : T -> S -> Prop) s : Q x s -> wp (ret x) Q s.
Proof. done. Qed.

Lemma wp_asks (f : S -> T) Q s : Q (f s) s -> wp (asks f) Q s.
Proof. done. Qed.

Lemma wp_lift (o : option T) x (Q : T -> S -> Prop) s : o = Some x -> Q x s -> wp (lift o) Q s.
Proof. intros -> H. done. Qed.

Lemma wp_modify f (Q : unit -> S -> Prop) s : Q tt (f s) -> wp (modify f) Q s.
Proof. done. Qed.

Lemma wp_assert c (Q : unit -> S -> Prop) s : c = true -> Q tt s -> wp (assert c) Q s.
Proof. by intros ->. Qed.

Lemma wp_when (c : bool) (m : state_op S unit) (Q : unit -> S -> Prop) s :
  (c = true -> wp m Q s) -> (c = false -> Q tt s) -> wp (when c m) Q s.
Proof. intros H1 H2. destruct c; [by apply H1 | by apply H2]. Qed.

(** A weakest precondition as a statement about the run. *)
Lemma wp_run m Q s : wp m Q s -> exists x s', m s = Some (x, s') /\ Q x s'.
Proof. unfold wp. destruct (m s) as [[x s']|]; [|done]. intros HQ. by exists x, s'. Qed.
End wp.
