(* ===== verification/MinHeap.v ===== *)
(** The binary min-heap of timeouts ([minheap-internal.h]).  The heap is an
    array of event pointers; every event records its own position in
    [ev_timeout_pos.min_heap_idx], which is how [min_heap_erase] finds it. *)

From S2P Require Import Prelude.

Record timeval := { tv_sec : Z; tv_usec : Z }.

(** An event pointer is a name; the structs they point to form a store. *)
Abbreviation evid := nat.

Record heap_event := { ev_timeout : timeval; min_heap_idx : Z }.

Abbreviation event_store := (evid -> heap_event).

(** [p] holds the [a] allocated slots; a slot never written is [None]. *)
Record min_heap := { p : list (option evid); n : nat; a : nat }.

(** [evutil_timercmp(tvp, uvp, >)]. *)
Definition timercmp_gt (t u : timeval) : bool :=
  if tv_sec t =? tv_sec u then tv_usec u <? tv_usec t else tv_sec u <? tv_sec t.

Definition min_heap_elem_greater (st : event_store) (x y : evid) : bool :=
  timercmp_gt (ev_timeout (st x)) (ev_timeout (st y)).

(** [e->ev_timeout_pos.min_heap_idx = i]. *)
Definition set_min_heap_idx (st : event_store) (e : evid) (i : Z) : event_store :=
  fun x => if decide (x = e)
           then {| ev_timeout := ev_timeout (st x); min_heap_idx := i |}
           else st x.

Definition min_heap_ctor : min_heap := {| p := []; n := 0; a := 0 |}.

Definition min_heap_elem_init (st : event_store) (e : evid) : event_store :=
  set_min_heap_idx st e (-1).

Definition min_heap_elt_is_top (st : event_store) (e : evid) : bool :=
  min_heap_idx (st e) =? 0.

Definition min_heap_empty (s : min_heap) : bool := (0 =? n s)%nat.

Definition min_heap_size (s : min_heap) : nat := n s.

(** [s->p[i]]: reading past the array or an unwritten slot is an error. *)
Definition slot (q : list (option evid)) (i : nat) : option evid := mjoin (q !! i).

(** [s->n ? *s->p : 0]; the outer option is the error, the inner one NULL. *)
Definition min_heap_top (s : min_heap) : option (option evid) :=
  if decide (n s = 0%nat) then Some None else Some <$> slot (p s) 0.

(** The doubling of the array; [realloc_ok] says whether [mm_realloc]
    succeeds for the requested number of slots. *)
Definition min_heap_reserve (realloc_ok : nat -> bool) (s : min_heap) (m : nat)
  : Z * min_heap :=
  if (a s <? m)%nat then
    let a0 := if decide (a s = 0%nat) then 8%nat else (a s * 2)%nat in
    let a1 := if (a0 <? m)%nat then m else a0 in
    if realloc_ok a1
    then (0, {| p := p s ++ replicate (a1 - a s) None; n := n s; a := a1 |})
    else (-1, s)
  else (0, s).

(** The loop of [min_heap_shift_up_], with the final store into the hole. *)
Fixpoint shift_up_loop (fuel : nat) (st : event_store) (q : list (option evid))
    (hole : nat) (e : evid) : option (event_store * list (option evid)) :=
  match fuel with
  | O => None
  | S fuel' =>
    let finish :=
      q' ← array_set q hole (Some e);
      Some (set_min_heap_idx st e (Z.of_nat hole), q') in
    if decide (hole = 0%nat) then finish else
    let parent := ((hole - 1) / 2)%nat in
    x ← slot q parent;
    if min_heap_elem_greater st x e then
      q' ← array_set q hole (Some x);
      shift_up_loop fuel' (set_min_heap_idx st x (Z.of_nat hole)) q' parent e
    else finish
  end.

Definition min_heap_shift_up_ (st : event_store) (s : min_heap) (hole : nat) (e : evid)
  : option (event_store * min_heap) :=
  '(st', q) ← shift_up_loop (S hole) st (p s) hole e;
  Some (st', {| p := q; n := n s; a := a s |}).

(** The loop of [min_heap_shift_down_]: [c] is the smaller child. *)
Fixpoint shift_down_loop (fuel : nat) (st : event_store) (sn : nat)
    (q : list (option evid)) (hole : nat) (e : evid)
  : option (event_store * list (option evid)) :=
  match fuel with
  | O => None
  | S fuel' =>
    let finish :=
      q' ← array_set q hole (Some e);
      Some (set_min_heap_idx st e (Z.of_nat hole), q') in
    let min_child := (2 * (hole + 1))%nat in
    if (min_child <=? sn)%nat then
      c ← (if (min_child =? sn)%nat then Some (min_child - 1)%nat else
             x ← slot q min_child;
             y ← slot q (min_child - 1);
             Some (if min_heap_elem_greater st x y then (min_child - 1)%nat
                   else min_child));
      x ← slot q c;
      if min_heap_elem_greater st e x then
        q' ← array_set q hole (Some x);
        shift_down_loop fuel' (set_min_heap_idx st x (Z.of_nat hole)) sn q' c e
      else finish
    else finish
  end.

Definition min_heap_shift_down_ (st : event_store) (s : min_heap) (hole : nat) (e : evid)
  : option (event_store * min_heap) :=
  '(st', q) ← shift_down_loop (S (n s - hole)) st (n s) (p s) hole e;
  Some (st', {| p := q; n := n s; a := a s |}).

Definition min_heap_push (realloc_ok : nat -> bool) (st : event_store) (s : min_heap)
    (e : evid) : option (Z * event_store * min_heap) :=
  let '(r, s1) := min_heap_reserve realloc_ok s (n s + 1) in
  if negb (r =? 0) then Some (-1, st, s1) else
  let s2 := {| p := p s1; n := n s1 + 1; a := a s1 |} in
  '(st', s') ← min_heap_shift_up_ st s2 (n s1) e;
  Some (0, st', s').

Definition min_heap_pop (st : event_store) (s : min_heap)
  : option (option evid * event_store * min_heap) :=
  if decide (n s = 0%nat) then Some (None, st, s) else
  e ← slot (p s) 0;
  let s1 := {| p := p s; n := n s - 1; a := a s |} in
  last ← slot (p s1) (n s1);
  '(st', s') ← min_heap_shift_down_ st s1 0 last;
  Some (Some e, set_min_heap_idx st' e (-1), s').

Definition min_heap_erase (st : event_store) (s : min_heap) (e : evid)
  : option (Z * event_store * min_heap) :=
  if negb (min_heap_idx (st e) =? -1) then
    let s1 := {| p := p s; n := n s - 1; a := a s |} in
    last ← slot (p s1) (n s1);
    let idx := Z.to_nat (min_heap_idx (st e)) in
    let parent := ((idx - 1) / 2)%nat in
    up ← (if 0 <? min_heap_idx (st e) then
            x ← slot (p s1) parent; Some (min_heap_elem_greater st x last)
          else Some false);
    '(st', s') ← (if (up : bool) then min_heap_shift_up_ st s1 idx last
                  else min_heap_shift_down_ st s1 idx last);
    Some (0, set_min_heap_idx st' e (-1), s')
  else Some (-1, st, s).

(** ** Specification *)

(** Chronological order of timeouts. *)
Definition time_le (t u : timeval) : Prop :=
  tv_sec t < tv_sec u \/ (tv_sec t = tv_sec u /\ tv_usec t <= tv_usec u).

Abbreviation parent_of i := ((i - 1) / 2)%nat.

(** Event [x] occupies one of the first [m] slots. *)
Definition occupies (q : list (option evid)) (m : nat) (x : evid) : Prop :=
  exists i, (i < m)%nat /\ slot q i = Some x.

Definition in_heap (s : min_heap) (x : evid) : Prop := occupies (p s) (n s) x.

(** The heap invariant: the array is allocated, every used slot points to an
    event that knows its position, an event that records a position is stored
    there, and no child is earlier than its parent. *)
Record heap_core (st : event_store) (s : min_heap) : Prop := {
  hi_alloc : length (p s) = a s;
  hi_size : (n s <= a s)%nat;
  hi_pos : forall i, (i < n s)%nat ->
    exists x, slot (p s) i = Some x /\ min_heap_idx (st x) = Z.of_nat i;
  hi_order : forall i x y, (0 < i < n s)%nat ->
    slot (p s) (parent_of i) = Some x -> slot (p s) i = Some y ->
    time_le (ev_timeout (st x)) (ev_timeout (st y)) }.

Record heap_inv (st : event_store) (s : min_heap) : Prop := {
  hi_core :> heap_core st s;
  hi_idx : forall x, in_heap s x \/ min_heap_idx (st x) = -1 }.

(** ** Order and array lemmas *)

Lemma timercmp_gt_false t u : timercmp_gt t u = false <-> time_le t u.
Proof.
  unfold timercmp_gt, time_le. destruct (Z.eqb_spec (tv_sec t) (tv_sec u));
    rewrite Z.ltb_ge; lia.
Qed.

Lemma timercmp_gt_true t u : timercmp_gt t u = true -> time_le u t.
Proof.
  unfold timercmp_gt, time_le. destruct (Z.eqb_spec (tv_sec t) (tv_sec u));
    rewrite Z.ltb_lt; lia.
Qed.

#[export] Instance time_le_refl : Reflexive time_le.
Proof. intros t. unfold time_le. lia. Qed.

#[export] Instance time_le_trans : Transitive time_le.
Proof. intros t u v. unfold time_le. lia. Qed.

Lemma parent_lt i : (0 < i)%nat -> (parent_of i < i)%nat.
Proof. intros. pose proof (Nat.div_mod_eq (i - 1) 2). lia. Qed.

Lemma children_of i k : (0 < i)%nat -> parent_of i = k -> (i = 2 * k + 1 \/ i = 2 * k + 2)%nat.
Proof. intros. pose proof (Nat.div_mod_eq (i - 1) 2). pose proof (Nat.mod_upper_bound (i - 1) 2). lia. Qed.

Lemma parent_of_left k : parent_of (2 * k + 1) = k.
Proof. replace (2 * k + 1 - 1)%nat with (k * 2)%nat by lia. by rewrite Nat.div_mul. Qed.

Lemma parent_of_right k : parent_of (2 * k + 2) = k.
Proof.
  replace (2 * k + 2 - 1)%nat with (1 + k * 2)%nat by lia.
  rewrite Nat.div_add by lia. done.
Qed.

Lemma slot_insert_eq q i x : (i < length q)%nat -> slot (<[i:=Some x]> q) i = Some x.
Proof. intros. unfold slot. by rewrite list_lookup_insert_eq. Qed.

Lemma slot_insert_ne q i j x : i <> j -> slot (<[i:=x]> q) j = slot q j.
Proof. intros. unfold slot. by rewrite list_lookup_insert_ne. Qed.

Lemma slot_lt q i x : slot q i = Some x -> (i < length q)%nat.
Proof.
  unfold slot. destruct (q !! i) eqn:E; cbn; [|done].
  intros _. by apply lookup_lt_Some in E.
Qed.

Lemma set_idx_timeout st e i x :
  ev_timeout (set_min_heap_idx st e i x) = ev_timeout (st x).
Proof. unfold set_min_heap_idx. by case_decide; subst. Qed.

Lemma set_idx_eq st e i : min_heap_idx (set_min_heap_idx st e i e) = i.
Proof. unfold set_min_heap_idx. by case_decide. Qed.

Lemma set_idx_ne st e i x : x <> e -> set_min_heap_idx st e i x = st x.
Proof. intros. unfold set_min_heap_idx. by case_decide. Qed.

(** ** The hole

    While an element sifts, the array has a hole; [view] is the array with
    the travelling element [e] put there. *)
Definition view (q : list (option evid)) (hole : nat) (e : evid) (i : nat) : option evid :=
  if decide (i = hole) then Some e else slot q i.

Definition view_member q m hole e (x : evid) : Prop :=
  exists i, (i < m)%nat /\ view q hole e i = Some x.

(** The edge from [i] to its parent is ordered, for the timeouts [tm]. *)
Definition edge (tm : evid -> timeval) (v : nat -> option evid) (i : nat) : Prop :=
  forall x y, v (parent_of i) = Some x -> v i = Some y -> time_le (tm x) (tm y).

(** No grandchild through the hole is earlier than the hole's parent. *)
Definition grand (tm : evid -> timeval) (v : nat -> option evid) (m hole : nat) : Prop :=
  (0 < hole)%nat -> forall c x y, (0 < c < m)%nat -> parent_of c = hole ->
  v (parent_of hole) = Some x -> v c = Some y -> time_le (tm x) (tm y).

Record hole_inv (tm : evid -> timeval) (st : event_store) q m hole e : Prop := {
  ho_bound : (hole < m <= length q)%nat;
  ho_tm : forall x, ev_timeout (st x) = tm x;
  ho_pos : forall i, (i < m)%nat -> i <> hole ->
    exists x, slot q i = Some x /\ min_heap_idx (st x) = Z.of_nat i /\ x <> e }.

(** What a completed sift guarantees. *)
Record sifted (tm : evid -> timeval) (st : event_store) q m hole e
    (st' : event_store) (q' : list (option evid)) : Prop := {
  sf_length : length q' = length q;
  sf_tm : forall x, ev_timeout (st' x) = tm x;
  sf_pos : forall i, (i < m)%nat ->
    exists x, slot q' i = Some x /\ min_heap_idx (st' x) = Z.of_nat i;
  sf_order : forall i, (0 < i < m)%nat -> edge tm (slot q') i;
  sf_members : forall x, occupies q' m x <-> view_member q m hole e x;
  sf_frame : forall x, ~ view_member q m hole e x -> st' x = st x }.

Lemma view_hole q hole e : view q hole e hole = Some e.
Proof. unfold view. by rewrite decide_True. Qed.

Lemma view_ne q hole e i : i <> hole -> view q hole e i = slot q i.
Proof. intros. unfold view. by rewrite decide_False. Qed.

(** Storing the travelling element in the hole ends the sift. *)
Lemma finish_sifted tm st q m hole e :
  hole_inv tm st q m hole e ->
  (forall i, (0 < i < m)%nat -> edge tm (view q hole e) i) ->
  sifted tm st q m hole e (set_min_heap_idx st e (Z.of_nat hole)) (<[hole:=Some e]> q).
Proof.
  intros [Hb Ht Hp] He.
  assert (Hv : forall i, slot (<[hole:=Some e]> q) i = view q hole e i).
  { intros i. unfold view. case_decide; subst;
      [apply slot_insert_eq; lia | apply slot_insert_ne; done]. }
  split.
  - apply length_insert.
  - intros x. by rewrite set_idx_timeout.
  - intros i Hi. rewrite Hv. destruct (decide (i = hole)) as [->|Hne].
    + exists e. by rewrite view_hole, set_idx_eq.
    + destruct (Hp i Hi Hne) as (x & Hx & Hxi & Hxe). exists x.
      rewrite view_ne, set_idx_ne; done.
  - intros i Hi x y Hx Hy. rewrite Hv in Hx, Hy. by eapply He.
  - intros x. unfold occupies, view_member. by setoid_rewrite Hv.
  - intros x Hx. apply set_idx_ne. intros ->. apply Hx. exists hole.
    split; [lia | apply view_hole].
Qed.

(** One move of a sift: [x] at index [k] drops into the hole, the hole moves
    to [k]. *)
Section move.
Context (tm : evid -> timeval) (st : event_store) (q : list (option evid)).
Context (m hole k : nat) (e x : evid).
Context (Hinv : hole_inv tm st q m hole e) (Hk : (k < m)%nat) (Hkh : k <> hole).
Context (Hx : slot q k = Some x).

Let q' := <[hole:=Some x]> q.
Let st' := set_min_heap_idx st x (Z.of_nat hole).

Lemma move_view i :
  view q' k e i = if decide (i = k) then Some e else
                  if decide (i = hole) then Some x else view q hole e i.
Proof using Hinv Hk Hkh Hx.
  destruct Hinv as [Hb _ _]. unfold view, q'. case_decide; [done|].
  case_decide; subst; [apply slot_insert_eq; lia | apply slot_insert_ne; done].
Qed.

Lemma move_hole_inv : hole_inv tm st' q' m k e.
Proof using Hinv Hk Hkh Hx.
  destruct Hinv as [Hb Ht Hp]. split.
  - unfold q'. rewrite length_insert. lia.
  - intros y. unfold st'. by rewrite set_idx_timeout.
  - intros i Hi Hik. destruct (Hp k Hk Hkh) as (x' & Hx' & Hxi & Hxe).
    assert (x' = x) as -> by congruence. clear Hx'.
    destruct (decide (i = hole)) as [->|Hih].
    + exists x. unfold q', st'. rewrite slot_insert_eq, set_idx_eq by lia. done.
    + destruct (Hp i Hi Hih) as (y & Hy & Hyi & Hye). exists y.
      unfold q', st'. rewrite slot_insert_ne by done. rewrite set_idx_ne; [done|].
      intros ->. lia.
Qed.

Lemma move_members y : view_member q' m k e y <-> view_member q m hole e y.
Proof using Hinv Hk Hkh Hx.
  unfold view_member. setoid_rewrite move_view. destruct Hinv as [Hb _ _]. split.
  - intros (i & Hi & Hy). case_decide; [|case_decide].
    + exists hole. rewrite view_hole. split; [lia | done].
    + exists k. rewrite view_ne by done. split; [lia | congruence].
    + eauto.
  - intros (i & Hi & Hy). destruct (decide (i = hole)) as [->|Hih].
    + exists k. rewrite decide_True by done. by rewrite view_hole in Hy.
    + destruct (decide (i = k)) as [->|Hik].
      * exists hole. rewrite decide_False, decide_True by done.
        rewrite view_ne in Hy by done. split; [lia | congruence].
      * exists i. by rewrite !decide_False.
Qed.

Lemma move_sifted st2 q2 :
  sifted tm st' q' m k e st2 q2 -> sifted tm st q m hole e st2 q2.
Proof using Hinv Hk Hkh Hx.
  intros [H1 H2 H3 H4 H5 H6]. split; try done.
  - by rewrite H1; unfold q'; rewrite length_insert.
  - intros y. by rewrite H5, move_members.
  - intros y Hy. rewrite H6 by (by rewrite move_members).
    apply set_idx_ne. intros ->. apply Hy. exists k. by rewrite view_ne.
Qed.
End move.

(** ** The two sifts *)

Section sifts.
Context (tm : evid -> timeval) (e : evid).

(** An edge of the array after a move, from the edges before it. *)
Ltac move_edges Hinv :=
  intros ? ?; rewrite !(move_view tm _ _ _ _ _ _ _ Hinv) by done.

Lemma shift_up_step st q m hole x :
  hole_inv tm st q m hole e -> (0 < hole)%nat ->
  slot q (parent_of hole) = Some x -> time_le (tm e) (tm x) ->
  (forall i, (0 < i < m)%nat -> i <> hole -> edge tm (view q hole e) i) ->
  grand tm (view q hole e) m hole ->
  (forall i, (0 < i < m)%nat -> i <> parent_of hole ->
     edge tm (view (<[hole:=Some x]> q) (parent_of hole) e) i) /\
  grand tm (view (<[hole:=Some x]> q) (parent_of hole) e) m (parent_of hole).
Proof.
  intros Hinv Hh Hx Hex He Hg. pose proof (parent_lt hole Hh) as Hlt.
  assert (Hb := ho_bound _ _ _ _ _ _ Hinv).
  assert (Hxv : view q hole e (parent_of hole) = Some x) by (rewrite view_ne; [done | lia]).
  split.
  - intros i Hi Hik y z. rewrite !(move_view tm _ _ _ _ _ _ _ Hinv) by (done || lia).
    pose proof (parent_lt i ltac:(lia)).
    rewrite (decide_False (P := i = parent_of hole)) by done.
    destruct (decide (i = hole)) as [->|Hih].
    + rewrite decide_True by done. congruence.
    + destruct (decide (parent_of i = parent_of hole)) as [Hpp|Hpp].
      * intros [= <-] Hz. transitivity (tm x); [done|].
        apply (He i Hi Hih x z); congruence.
      * destruct (decide (parent_of i = hole)) as [Hph|Hph].
        -- intros [= <-] Hz. apply (Hg Hh i x z); done.
        -- apply He; done.
  - intros Hpos c y z Hc Hpc. rewrite !(move_view tm _ _ _ _ _ _ _ Hinv) by (done || lia).
    pose proof (parent_lt (parent_of hole) Hpos).
    rewrite decide_False by lia. rewrite decide_False by lia.
    intros Hy. rewrite decide_False by (pose proof (parent_lt c); lia).
    assert (Hyx : time_le (tm y) (tm x)).
    { apply (He (parent_of hole)); [lia | lia | done | done]. }
    destruct (decide (c = hole)) as [->|Hch]; [congruence|].
    intros Hz. transitivity (tm x); [done|].
    apply (He c ltac:(lia) Hch x z); [congruence | done].
Qed.

Lemma shift_up_loop_spec m fuel : forall st q hole,
  (hole < fuel)%nat -> hole_inv tm st q m hole e ->
  (forall i, (0 < i < m)%nat -> i <> hole -> edge tm (view q hole e) i) ->
  grand tm (view q hole e) m hole ->
  exists st' q', shift_up_loop fuel st q hole e = Some (st', q') /\
                 sifted tm st q m hole e st' q'.
Proof.
  induction fuel as [|fuel IH]; [lia|]. intros st q hole Hf Hinv He Hg.
  cbn [shift_up_loop].
  assert (Hb := ho_bound _ _ _ _ _ _ Hinv). assert (Htm := ho_tm _ _ _ _ _ _ Hinv).
  rewrite !array_set_Some by lia. cbn [mbind option_bind].
  case_decide as Hh.
  { do 2 eexists. split; [done|]. subst. apply finish_sifted; [done|].
    intros i Hi. apply He; lia. }
  pose proof (parent_lt hole ltac:(lia)).
  destruct (ho_pos _ _ _ _ _ _ Hinv (parent_of hole)) as (x & Hx & Hxi & Hxe); [lia..|].
  rewrite Hx. cbn [mbind option_bind]. unfold min_heap_elem_greater. rewrite !Htm.
  destruct (timercmp_gt (tm x) (tm e)) eqn:Hgt.
  - apply timercmp_gt_true in Hgt.
    destruct (shift_up_step st q m hole x) as [He' Hg']; try done; try lia.
    destruct (IH (set_min_heap_idx st x (Z.of_nat hole)) (<[hole:=Some x]> q)
                (parent_of hole)) as (st' & q' & Hrun & Hs);
      [lia | eapply move_hole_inv; try done; lia | done | done |].
    exists st', q'. rewrite ?array_set_Some by lia. split; [done|].
    apply (move_sifted tm st q m hole (parent_of hole) e x); try done; lia.
  - apply timercmp_gt_false in Hgt.
    do 2 eexists. split; [done|]. apply finish_sifted; [done|].
    intros i Hi. destruct (decide (i = hole)) as [->|]; [|by apply He].
    intros y z. rewrite view_hole, view_ne by lia. congruence.
Qed.

Lemma shift_down_step st q m hole c x :
  hole_inv tm st q m hole e -> (c < m)%nat -> (0 < c)%nat -> parent_of c = hole ->
  slot q c = Some x -> time_le (tm x) (tm e) ->
  (forall i y, (0 < i < m)%nat -> parent_of i = hole -> view q hole e i = Some y ->
     time_le (tm x) (tm y)) ->
  (forall i, (0 < i < m)%nat -> parent_of i <> hole -> edge tm (view q hole e) i) ->
  grand tm (view q hole e) m hole ->
  (forall i, (0 < i < m)%nat -> parent_of i <> c ->
     edge tm (view (<[hole:=Some x]> q) c e) i) /\
  grand tm (view (<[hole:=Some x]> q) c e) m c.
Proof.
  intros Hinv Hc Hc0 Hpc Hx Hxe Hmin He Hg. pose proof (parent_lt c Hc0).
  assert (Hxv : view q hole e c = Some x) by (rewrite view_ne; [done | lia]).
  split.
  - intros i Hi Hpi y z. rewrite !(move_view tm _ _ _ _ _ _ _ Hinv) by (done || lia).
    rewrite (decide_False (P := parent_of i = c)) by done.
    destruct (decide (i = c)) as [->|Hic].
    + rewrite decide_True by done. congruence.
    + destruct (decide (parent_of i = hole)) as [Hph|Hph].
      * pose proof (parent_lt i). rewrite decide_False by lia.
        intros [= <-] Hz. by apply (Hmin i).
      * destruct (decide (i = hole)) as [->|Hih].
        -- intros Hy [= <-]. by apply (Hg ltac:(lia) c y x).
        -- by apply He.
  - intros _ d y z Hd Hpd. rewrite !(move_view tm _ _ _ _ _ _ _ Hinv) by (done || lia).
    pose proof (parent_lt d ltac:(lia)).
    rewrite Hpc, (decide_True (P := hole = hole)), !decide_False by lia.
    intros [= <-] Hz.
    apply (He d Hd ltac:(lia) x z); congruence.
Qed.

Lemma shift_down_loop_spec m fuel : forall st q hole,
  (m < fuel + hole)%nat -> hole_inv tm st q m hole e ->
  (forall i, (0 < i < m)%nat -> parent_of i <> hole -> edge tm (view q hole e) i) ->
  grand tm (view q hole e) m hole ->
  exists st' q', shift_down_loop fuel st m q hole e = Some (st', q') /\
                 sifted tm st q m hole e st' q'.
Proof.
  induction fuel as [|fuel IH]; intros st q hole Hf Hinv He Hg.
  { assert (Hb := ho_bound _ _ _ _ _ _ Hinv). lia. }
  assert (Hb := ho_bound _ _ _ _ _ _ Hinv). assert (Htm := ho_tm _ _ _ _ _ _ Hinv).
  assert (Hp := ho_pos _ _ _ _ _ _ Hinv).
  cbn [shift_down_loop]. rewrite !array_set_Some by lia. cbn [mbind option_bind].
  assert (Hdone : (forall i, (0 < i < m)%nat -> parent_of i = hole ->
                     edge tm (view q hole e) i) ->
    exists st' q', Some (set_min_heap_idx st e (Z.of_nat hole), <[hole:=Some e]> q)
                   = Some (st', q') /\ sifted tm st q m hole e st' q').
  { intros Hedge. do 2 eexists. split; [done|]. apply finish_sifted; [done|].
    intros i Hi. destruct (decide (parent_of i = hole)); [by apply Hedge | by apply He]. }
  destruct (Nat.leb_spec (2 * (hole + 1)) m) as [Hle|Hgt].
  2: { apply Hdone. intros i Hi Hpi. apply children_of in Hpi; lia. }
  set (c := if (2 * (hole + 1) =? m)%nat then _ else _).
  assert (Hsel : exists k x, c = Some k /\ (0 < k < m)%nat /\ parent_of k = hole /\
     slot q k = Some x /\ forall i y, (0 < i < m)%nat -> parent_of i = hole ->
       slot q i = Some y -> time_le (tm x) (tm y)).
  { destruct (Hp (2 * hole + 1)%nat ltac:(lia) ltac:(lia)) as (l & Hl & _ & _).
    unfold c. destruct (Nat.eqb_spec (2 * (hole + 1)) m) as [Heq|Hneq].
    - exists (2 * (hole + 1) - 1)%nat, l.
      replace (2 * (hole + 1) - 1)%nat with (2 * hole + 1)%nat by lia.
      repeat split; [lia | lia | apply parent_of_left | done |].
      intros i y Hi Hpi Hy. apply children_of in Hpi; [|lia].
      assert (i = (2 * hole + 1)%nat) as -> by lia. simplify_eq. done.
    - destruct (Hp (2 * hole + 2)%nat ltac:(lia) ltac:(lia)) as (r & Hr & _ & _).
      replace (2 * (hole + 1) - 1)%nat with (2 * hole + 1)%nat by lia.
      replace (2 * (hole + 1))%nat with (2 * hole + 2)%nat by lia.
      rewrite Hl, Hr. cbn [mbind option_bind]. unfold min_heap_elem_greater. rewrite !Htm.
      destruct (timercmp_gt (tm r) (tm l)) eqn:Hcmp;
        [apply timercmp_gt_true in Hcmp | apply timercmp_gt_false in Hcmp].
      + exists (2 * hole + 1)%nat, l. repeat split; [lia | lia | apply parent_of_left | done |].
        intros i y Hi Hpi Hy. apply children_of in Hpi as [-> | ->]; [| |lia]; simplify_eq; done.
      + exists (2 * hole + 2)%nat, r. repeat split; [lia | lia | apply parent_of_right | done |].
        intros i y Hi Hpi Hy. apply children_of in Hpi as [-> | ->]; [| |lia]; simplify_eq; done. }
  destruct Hsel as (k & x & -> & Hk & Hpk & Hx & Hmin). cbn [mbind option_bind].
  rewrite Hx. cbn [mbind option_bind]. unfold min_heap_elem_greater. rewrite !Htm.
  pose proof (parent_lt k ltac:(lia)).
  destruct (timercmp_gt (tm e) (tm x)) eqn:Hcmp.
  - apply timercmp_gt_true in Hcmp.
    destruct (shift_down_step st q m hole k x) as [He' Hg']; try done; try lia.
    { intros i y Hi Hpi. rewrite view_ne by (pose proof (parent_lt i); lia). eauto. }
    destruct (IH (set_min_heap_idx st x (Z.of_nat hole)) (<[hole:=Some x]> q) k)
      as (st' & q' & Hrun & Hs);
      [lia | eapply move_hole_inv; try done; lia | done | done |].
    exists st', q'. rewrite ?array_set_Some by lia. split; [done|].
    apply (move_sifted tm st q m hole k e x); try done; lia.
  - apply timercmp_gt_false in Hcmp. apply Hdone. intros i Hi Hpi y z.
    rewrite Hpi, view_hole. rewrite view_ne by (pose proof (parent_lt i); lia).
    intros [= <-] Hz. transitivity (tm x); [done|]. by eapply Hmin.
Qed.
End sifts.

(** ** The invariant and the operations *)

Lemma heap_pos_idx st s i x :
  heap_core st s -> (i < n s)%nat -> slot (p s) i = Some x -> min_heap_idx (st x) = Z.of_nat i.
Proof.
  intros H Hi Hx. destruct (hi_pos _ _ H i Hi) as (y & Hy & Hyi). congruence.
Qed.

Lemma heap_pos_inj st s i j x :
  heap_core st s -> (i < n s)%nat -> (j < n s)%nat ->
  slot (p s) i = Some x -> slot (p s) j = Some x -> i = j.
Proof.
  intros H Hi Hj Hx Hy. apply (heap_pos_idx _ _ _ _ H Hi) in Hx.
  apply (heap_pos_idx _ _ _ _ H Hj) in Hy. lia.
Qed.

Lemma in_heap_idx st s x : heap_inv st s -> in_heap s x <-> min_heap_idx (st x) <> -1.
Proof.
  intros H. split.
  - intros (i & Hi & Hx). apply (heap_pos_idx _ _ _ _ H Hi) in Hx. lia.
  - by destruct (hi_idx _ _ H x).
Qed.

Lemma heap_root_le st s x r :
  heap_core st s -> slot (p s) 0 = Some r -> in_heap s x ->
  time_le (ev_timeout (st r)) (ev_timeout (st x)).
Proof.
  intros H Hr (i & Hi & Hx). revert x Hx. induction (lt_wf i) as [i _ IH]. intros x Hx.
  destruct (decide (i = 0%nat)) as [->|Hi0]; [by simplify_eq|].
  pose proof (parent_lt i ltac:(lia)).
  destruct (hi_pos _ _ H (parent_of i)) as (y & Hy & _); [lia|].
  transitivity (ev_timeout (st y)); [apply (IH (parent_of i)); (done || lia)|].
  apply (hi_order _ _ H i); (done || lia).
Qed.


#[export] Instance occupies_dec q m x : Decision (occupies q m x).
Proof.
  induction m as [|m IH]; [right; intros (? & ? & _); lia|].
  destruct IH as [IH|IH].
  - left. destruct IH as (i & ? & ?). exists i. split; [lia | done].
  - destruct (decide (slot q m = Some x)) as [|Hn].
    + left. exists m. split; [lia | done].
    + right. intros (i & Hi & Hs). destruct (decide (i = m)) as [->|]; [done|].
      apply IH. exists i. split; [lia | done].
Defined.

(** A completed sift leaves a well-formed heap in the first [m] slots. *)
Lemma sifted_core tm st q m hole e st' q' sz :
  sifted tm st q m hole e st' q' -> length q = sz -> (m <= sz)%nat ->
  heap_core st' {| p := q'; n := m; a := sz |}.
Proof.
  intros [H1 H2 H3 H4 H5 H6] Hlen Hm. split; cbn; try done.
  - lia.
  - intros i x y Hi Hx Hy. rewrite !H2. by apply (H4 i Hi).
Qed.

(** Writing to the position of an event that is not stored. *)
Lemma forget_core st s x k :
  heap_core st s -> ~ in_heap s x -> heap_core (set_min_heap_idx st x k) s.
Proof.
  intros [H1 H2 H3 H4] Hx. split; try done.
  - intros i Hi. destruct (H3 i Hi) as (y & Hy & Hyi). exists y. split; [done|].
    rewrite set_idx_ne; [done|]. intros ->. apply Hx. by exists i.
  - intros i y z. rewrite !set_idx_timeout. apply H4.
Qed.

Lemma heap_hole_inv st s hole e m :
  heap_core st s -> (hole < m <= n s)%nat ->
  (forall i, (i < m)%nat -> i <> hole -> slot (p s) i <> Some e) ->
  hole_inv (fun x => ev_timeout (st x)) st (p s) m hole e.
Proof.
  intros [H1 H2 H3 H4] Hm He. split; [lia | done |].
  intros i Hi Hih. destruct (H3 i) as (x & Hx & Hxi); [lia|].
  exists x. repeat split; try done. intros ->. by apply (He i).
Qed.

(** What [min_heap_pop] and [min_heap_erase] share: taking the event at index
    [k] out by sifting the last one into its place. *)
Definition refill (st : event_store) (s : min_heap) (k : nat) (last : evid)
  : option (event_store * min_heap) :=
  let s1 := {| p := p s; n := n s - 1; a := a s |} in
  up ← (if (0 <? k)%nat then
          x ← slot (p s) (parent_of k); Some (min_heap_elem_greater st x last)
        else Some false);
  if (up : bool) then min_heap_shift_up_ st s1 k last
  else min_heap_shift_down_ st s1 k last.

(** Refilling the last slot puts the same event back. *)
Lemma refill_last st s e :
  heap_core st s -> (0 < n s)%nat -> slot (p s) (n s - 1) = Some e ->
  refill st s (n s - 1) e =
    Some (set_min_heap_idx st e (Z.of_nat (n s - 1)),
          {| p := <[(n s - 1)%nat:=Some e]> (p s); n := n s - 1; a := a s |}).
Proof.
  intros H Hn He. unfold refill.
  assert (Hlt := slot_lt _ _ _ He).
  assert (Hup : (if (0 <? n s - 1)%nat then
      x ← slot (p s) (parent_of (n s - 1)); Some (min_heap_elem_greater st x e)
      else Some false) = Some false).
  { destruct (Nat.ltb_spec 0 (n s - 1)); [|done].
    pose proof (parent_lt (n s - 1) ltac:(lia)).
    destruct (hi_pos _ _ H (parent_of (n s - 1))) as (x & Hx & _); [lia|].
    rewrite Hx. cbn. f_equal. apply timercmp_gt_false.
    apply (hi_order _ _ H (n s - 1)%nat); (done || lia). }
  rewrite Hup. cbn [mbind option_bind]. unfold min_heap_shift_down_. cbn [n p a].
  rewrite Nat.sub_diag. cbn [shift_down_loop].
  rewrite (proj2 (Nat.leb_gt _ _)) by lia. by rewrite array_set_Some.
Qed.

(** Refilling another slot is a completed sift of the last event. *)
Lemma refill_sifted st s k e last :
  heap_core st s -> (k < n s - 1)%nat -> slot (p s) k = Some e ->
  slot (p s) (n s - 1) = Some last ->
  exists st' q', refill st s k last = Some (st', {| p := q'; n := n s - 1; a := a s |}) /\
    sifted (fun x => ev_timeout (st x)) st (p s) (n s - 1) k last st' q'.
Proof.
  intros H Hk He Hl. set (tm := fun x => ev_timeout (st x)).
  assert (Hinv : hole_inv tm st (p s) (n s - 1) k last).
  { apply heap_hole_inv; [done | lia |]. intros i Hi Hik Hs.
    assert (i = (n s - 1)%nat) by (eapply heap_pos_inj; eauto; lia). lia. }
  assert (Hedge : forall i x y, (0 < i < n s - 1)%nat -> slot (p s) (parent_of i) = Some x ->
            slot (p s) i = Some y -> time_le (tm x) (tm y)).
  { intros i x y Hi. apply (hi_order _ _ H); lia. }
  assert (Hkid : forall c y, (0 < c < n s - 1)%nat -> parent_of c = k ->
            view (p s) k last c = Some y -> time_le (tm e) (tm y)).
  { intros c y Hc Hpc. pose proof (parent_lt c). rewrite view_ne by lia.
    apply (Hedge c); [done | congruence]. }
  assert (Hgrand : grand tm (view (p s) k last) (n s - 1) k).
  { intros Hk0 c x y Hc Hpc. pose proof (parent_lt k Hk0). rewrite view_ne by lia.
    intros Hx Hy. transitivity (tm e); [by apply (Hedge k); [lia | ..]|].
    by apply (Hkid c). }
  unfold refill.
  assert (Hdec : exists up : bool, (if (0 <? k)%nat then
      x ← slot (p s) (parent_of k); Some (min_heap_elem_greater st x last)
      else Some false) = Some up /\
      if up then (0 < k)%nat /\ time_le (tm last) (tm e) else edge tm (view (p s) k last) k).
  { destruct (Nat.ltb_spec 0 k) as [Hk0|Hk0].
    - pose proof (parent_lt k Hk0).
      destruct (hi_pos _ _ H (parent_of k)) as (x & Hx & _); [lia|]. rewrite Hx. cbn.
      eexists. split; [done|]. unfold min_heap_elem_greater.
      destruct (timercmp_gt _ _) eqn:Hg.
      + split; [done|]. apply timercmp_gt_true in Hg. transitivity (tm x); [done|].
        apply (Hedge k); [lia | done | done].
      + apply timercmp_gt_false in Hg. intros y z.
        rewrite view_hole, view_ne by lia. by intros ? [= <-]; simplify_eq.
    - eexists. split; [done|]. intros y z. replace k with 0%nat by lia. cbn.
      rewrite view_hole. by intros [= <-] [= <-]. }
  destruct Hdec as (up & -> & Hup). cbn [mbind option_bind].
  unfold min_heap_shift_up_, min_heap_shift_down_. cbn [p n a]. destruct up.
  - destruct Hup as [Hk0 Hle].
    destruct (shift_up_loop_spec tm last (n s - 1) (S k) st (p s) k)
      as (st' & q' & -> & Hs); try done; [lia | |by exists st', q'].
    intros i Hi Hik y z. destruct (decide (parent_of i = k)) as [Hp|Hp].
    + rewrite Hp, view_hole. intros [= <-] Hz. transitivity (tm e); [done|].
      by apply (Hkid i).
    + rewrite !view_ne by done. by apply Hedge.
  - destruct (shift_down_loop_spec tm last (n s - 1) (S (n s - 1 - k)) st (p s) k)
      as (st' & q' & -> & Hs); try done; [lia | |by exists st', q'].
    intros i Hi Hp. destruct (decide (i = k)) as [->|Hik]; [done|].
    intros y z. rewrite !view_ne by done. by apply Hedge.
Qed.

(** What taking [e] out of the heap leaves: the heap is well formed, exactly
    [e] is gone and records that it is in no heap, no timeout changes and no
    event outside the heap is touched. *)
Record taken_out (st : event_store) (s : min_heap) (e : evid) (st' : event_store)
    (s' : min_heap) : Prop := {
  to_core : heap_core st' s';
  to_idx : min_heap_idx (st' e) = -1;
  to_mem : forall x, in_heap s' x <-> in_heap s x /\ x <> e;
  to_time : forall x, ev_timeout (st' x) = ev_timeout (st x);
  to_frame : forall x, ~ in_heap s x -> st' x = st x;
  to_size : n s' = (n s - 1)%nat /\ a s' = a s }.

Lemma taken_out_inv st s e st' s' :
  heap_inv st s -> taken_out st s e st' s' -> heap_inv st' s'.
Proof.
  intros [_ H] [Hc He Hm _ Hf _]. split; [done|]. intros x. rewrite Hm.
  destruct (decide (x = e)) as [->|Hxe]; [by right|].
  destruct (H x) as [Hx|Hx]; [by left|].
  destruct (decide (in_heap s x)); [by left | right]. by rewrite Hf.
Qed.

Section TakenOut.
Context (st : event_store) (s : min_heap) (k : nat) (e : evid).
Hypotheses (H : heap_core st s) (Hk : (k < n s)%nat) (He : slot (p s) k = Some e).

Lemma taken_other i x : (i < n s)%nat -> slot (p s) i = Some x -> i <> k -> x <> e.
Proof. intros Hi Hx Hik ->. apply Hik. by apply (heap_pos_inj st s i k e H). Qed.

Lemma taken_frame (st' : event_store) :
  (forall x, ~ in_heap s x -> st' x = st x) ->
  forall x, ~ in_heap s x -> set_min_heap_idx st' e (-1) x = st x.
Proof.
  intros Hf x Hx. rewrite set_idx_ne; [by apply Hf|]. intros ->. apply Hx. by exists k.
Qed.

(** The event taken out is in the last slot. *)
Lemma refill_spec_last :
  k = (n s - 1)%nat ->
  exists st' s', refill st s k e = Some (st', s') /\
    taken_out st s e (set_min_heap_idx st' e (-1)) s'.
Proof.
  intros Hkl. rewrite Hkl, (refill_last st s e H) by (lia || congruence).
  assert (Hlt := slot_lt _ _ _ He). rewrite Hkl in Hlt.
  assert (Hmem : forall x, occupies (<[(n s - 1)%nat:=Some e]> (p s)) (n s - 1) x
                   <-> in_heap s x /\ x <> e).
  { intros x. split.
    - intros (i & Hi & Hx). rewrite slot_insert_ne in Hx by lia. split.
      + exists i. split; [lia | done].
      + apply (taken_other i); (done || lia).
    - intros ((i & Hi & Hx) & Hxe). exists i.
      destruct (decide (i = (n s - 1)%nat)) as [->|]; [congruence|].
      rewrite slot_insert_ne by done. split; [lia | done]. }
  do 2 eexists. split; [done|]. destruct H as [H1 H2 H3 H4]. split.
  - apply forget_core; [|unfold in_heap; cbn; rewrite Hmem; tauto].
    split; cbn [p n a]; [by rewrite length_insert | lia | |].
    + intros i Hi. destruct (H3 i) as (x & Hx & Hxi); [lia|]. exists x.
      rewrite slot_insert_ne by lia. split; [done|].
      rewrite set_idx_ne; [done|]. apply (taken_other i); (done || lia).
    + intros i x y Hi. pose proof (parent_lt i ltac:(lia)).
      rewrite !slot_insert_ne by lia. rewrite !set_idx_timeout. apply H4; lia.
  - apply set_idx_eq.
  - exact Hmem.
  - intros x. by rewrite !set_idx_timeout.
  - apply taken_frame. intros x Hx. apply set_idx_ne. intros ->. apply Hx. by exists k.
  - done.
Qed.

(** Another event moves into the freed slot. *)
Lemma refill_spec_inner last :
  (k < n s - 1)%nat -> slot (p s) (n s - 1) = Some last ->
  exists st' s', refill st s k last = Some (st', s') /\
    taken_out st s e (set_min_heap_idx st' e (-1)) s'.
Proof.
  intros Hkl Hl.
  destruct (refill_sifted st s k e last) as (st' & q' & Hr & Hs); try done.
  assert (Hmem : forall x, occupies q' (n s - 1) x <-> in_heap s x /\ x <> e).
  { intros x. rewrite (sf_members _ _ _ _ _ _ _ _ Hs). split.
    - intros (i & Hi & Hx). unfold view in Hx. case_decide.
      + simplify_eq. split; [exists (n s - 1)%nat; split; [lia|done]|].
        apply (taken_other (n s - 1)%nat); (done || lia).
      + split; [exists i; split; [lia|done]|]. apply (taken_other i); (done || lia).
    - intros ((i & Hi & Hx) & Hxe). destruct (decide (i = (n s - 1)%nat)) as [->|Hil].
      + exists k. rewrite view_hole. split; [lia | congruence].
      + exists i. rewrite view_ne by congruence. split; [lia | done]. }
  exists st', {| p := q'; n := n s - 1; a := a s |}. split; [done|].
  destruct H as [H1 H2 _ _]. split.
  - apply forget_core; [|unfold in_heap; cbn; rewrite Hmem; tauto].
    eapply sifted_core; [done | done | lia].
  - apply set_idx_eq.
  - exact Hmem.
  - intros x. rewrite set_idx_timeout. apply (sf_tm _ _ _ _ _ _ _ _ Hs).
  - apply taken_frame. intros x Hx. apply (sf_frame _ _ _ _ _ _ _ _ Hs). intros (i & Hi & Hv).
    apply Hx. unfold view in Hv. case_decide.
    + simplify_eq. exists (n s - 1)%nat. split; [lia | done].
    + exists i. split; [lia | done].
  - done.
Qed.

Lemma refill_spec last :
  slot (p s) (n s - 1) = Some last ->
  exists st' s', refill st s k last = Some (st', s') /\
    taken_out st s e (set_min_heap_idx st' e (-1)) s'.
Proof.
  intros Hl. destruct (decide (k = (n s - 1)%nat)) as [Hkl|Hkl].
  - assert (last = e) as -> by congruence. by apply refill_spec_last.
  - apply refill_spec_inner; [lia | done].
Qed.
End TakenOut.

Lemma pop_refill st s last :
  n s <> 0%nat -> slot (p s) (n s - 1) = Some last ->
  min_heap_pop st s =
    (e ← slot (p s) 0; '(st', s') ← refill st s 0 last;
     Some (Some e, set_min_heap_idx st' e (-1), s')).
Proof.
  intros Hn Hl. unfold min_heap_pop, refill. rewrite decide_False by done. cbn [p n].
  destruct (slot (p s) 0); [|done]. cbn. by rewrite Hl.
Qed.

Lemma erase_refill st s e last :
  0 <= min_heap_idx (st e) -> slot (p s) (n s - 1) = Some last ->
  min_heap_erase st s e =
    ('(st', s') ← refill st s (Z.to_nat (min_heap_idx (st e))) last;
     Some (0, set_min_heap_idx st' e (-1), s')).
Proof.
  intros Hi Hl. unfold min_heap_erase, refill. cbn [p n].
  destruct (Z.eqb_spec (min_heap_idx (st e)) (-1)) as [Hm|Hm]; [lia|].
  cbn [negb]. rewrite Hl. cbn [mbind option_bind].
  assert ((0 <? Z.to_nat (min_heap_idx (st e)))%nat = (0 <? min_heap_idx (st e))) as ->.
  { destruct (Nat.ltb_spec 0 (Z.to_nat (min_heap_idx (st e))));
      destruct (Z.ltb_spec 0 (min_heap_idx (st e))); (done || lia). }
  destruct (0 <? min_heap_idx (st e)); [|done].
  by destruct (slot (p s) (parent_of (Z.to_nat (min_heap_idx (st e))))).
Qed.

Lemma heap_last st s : heap_core st s -> n s <> 0%nat ->
  exists last, slot (p s) (n s - 1) = Some last.
Proof. intros H Hn. destruct (hi_pos _ _ H (n s - 1)) as (x & Hx & _); [lia | eauto]. Qed.

Lemma reserve_spec realloc_ok st s m r s' :
  heap_core st s -> (n s <= m)%nat -> min_heap_reserve realloc_ok s m = (r, s') ->
  heap_core st s' /\ n s' = n s /\ (forall i, (i < a s)%nat -> slot (p s') i = slot (p s) i) /\
  (r = 0 /\ (m <= a s')%nat \/ r = -1 /\ s' = s).
Proof.
  intros [H1 H2 H3 H4] Hm. unfold min_heap_reserve.
  destruct (Nat.ltb_spec (a s) m) as [Ha|Ha]; [|intros [= <- <-]; split; [by split | auto]].
  set (a0 := if decide (a s = 0%nat) then _ else _).
  set (a1 := if (a0 <? m)%nat then m else a0).
  assert (Ha1 : (m <= a1)%nat) by (unfold a1; destruct (Nat.ltb_spec a0 m); lia).
  destruct (realloc_ok a1); intros [= <- <-]; [|split; [by split|auto]].
  assert (Hs : forall i, (i < a s)%nat ->
            slot (p s ++ replicate (a1 - a s) None) i = slot (p s) i).
  { intros i Hi. unfold slot. by rewrite lookup_app_l by lia. }
  split; [|split; [done | split; [done|]]]; cbn [p n a]; [|left; done].
  split; cbn [p n a].
  - rewrite length_app, length_replicate. lia.
  - lia.
  - intros i Hi. rewrite Hs by lia. by apply H3.
  - intros i x y Hi. pose proof (parent_lt i ltac:(lia)). rewrite !Hs by lia. by apply H4.
Qed.

(** A slot is free, or the array can grow. *)
Definition roomy (realloc_ok : nat -> bool) (s : min_heap) : Prop :=
  (n s < a s)%nat \/ forall k, realloc_ok k = true.

(** Adding an event that is not stored, whatever its position field holds. *)
Lemma push_core realloc_ok st s e :
  heap_core st s -> ~ in_heap s e ->
  exists r st' s', min_heap_push realloc_ok st s e = Some (r, st', s') /\
    heap_core st' s' /\ (forall x, ev_timeout (st' x) = ev_timeout (st x)) /\
    (forall x, x <> e -> ~ in_heap s x -> st' x = st x) /\
    (roomy realloc_ok s -> r = 0) /\
    (r = 0 /\ (forall x, in_heap s' x <-> x = e \/ in_heap s x) \/
     r = -1 /\ st' = st /\ s' = s).
Proof.
  intros H He. unfold min_heap_push.
  destruct (min_heap_reserve realloc_ok s (n s + 1)) as [r s1] eqn:Hr.
  destruct (reserve_spec _ _ _ (n s + 1) _ _ H ltac:(lia) Hr) as (H1 & Hn1 & Hs1 & Hres).
  destruct Hres as [[-> Ha] | [-> ->]]; cbn [negb Z.eqb Z.opp].
  2: { exists (-1), st, s. do 4 (split; [done|]). split; [intros Hroom | by right].
       revert Hr. unfold min_heap_reserve.
       destruct Hroom as [Hroom|Hgrow]; [by destruct (Nat.ltb_spec (a s) (n s + 1)); [lia|]|].
       rewrite Hgrow. by destruct (_ <? _)%nat. }
  destruct (H1) as [Hc1 Hc2 Hc3 Hc4]. destruct (H) as [Hb1 Hb2 _ _].
  set (tm := fun x => ev_timeout (st x)).
  assert (Hout : forall i, (i < n s1)%nat -> slot (p s1) i <> Some e).
  { intros i Hi Hs. apply He. exists i. rewrite Hs1 in Hs by lia. split; [lia | done]. }
  assert (Hinv : hole_inv tm st (p s1) (n s1 + 1) (n s1) e).
  { split; [lia | done |]. intros i Hi Hih. destruct (Hc3 i) as (x & Hx & Hxi); [lia|].
    exists x. repeat split; try done. intros ->. apply (Hout i); (done || lia). }
  destruct (shift_up_loop_spec tm e (n s1 + 1) (S (n s1)) st (p s1) (n s1))
    as (st' & q' & Hrun & Hs); try done; [lia | | |].
  { intros i Hi Hih. pose proof (parent_lt i ltac:(lia)). intros x y.
    rewrite !view_ne by lia. apply Hc4. lia. }
  { intros _ c x y Hc Hpc. apply children_of in Hpc; lia. }
  unfold min_heap_shift_up_. cbn [p n a]. rewrite Hrun. cbn [mbind option_bind].
  assert (Hmem : forall x, view_member (p s1) (n s1 + 1) (n s1) e x <-> x = e \/ in_heap s x).
  { intros x. split.
    - intros (i & Hi & Hx). unfold view in Hx. case_decide; [left; congruence|].
      right. exists i. split; [lia|]. by rewrite <- Hs1 by lia.
    - intros [-> | (i & Hi & Hx)]; [exists (n s1); split; [lia | apply view_hole]|].
      exists i. split; [lia|]. rewrite view_ne by lia. by rewrite Hs1 by lia. }
  do 3 eexists. split; [done|]. split; [|split; [|split; [|split; [done|left; split; [done|]]]]].
  - eapply sifted_core; [done | done | lia].
  - apply (sf_tm _ _ _ _ _ _ _ _ Hs).
  - intros x Hxe Hx. apply (sf_frame _ _ _ _ _ _ _ _ Hs). rewrite Hmem. tauto.
  - intros x. rewrite <- Hmem. apply (sf_members _ _ _ _ _ _ _ _ Hs).
Qed.

Lemma erase_core st s e :
  heap_core st s -> in_heap s e ->
  exists st' s', min_heap_erase st s e = Some (0, st', s') /\ taken_out st s e st' s'.
Proof.
  intros H (i & Hi & He). pose proof (heap_pos_idx _ _ _ _ H Hi He) as Hp.
  destruct (heap_last st s) as [l Hl]; [done | lia |].
  rewrite (erase_refill _ _ _ l), Hp, Nat2Z.id by (done || lia).
  destruct (refill_spec st s i e H Hi He l Hl) as (st' & s' & -> & Ht). eauto.
Qed.

(** ** Properties *)


(** C2: on a non-empty heap [min_heap_pop] returns an event no later than every
    event of the heap, removes exactly that event, marks it as being in no heap,
    and keeps the invariant; on an empty heap it returns NULL. *)
Theorem min_heap_pop_spec st s :
  heap_inv st s ->
  (n s = 0%nat /\ min_heap_pop st s = Some (None, st, s)) \/
  exists e st' s', min_heap_pop st s = Some (Some e, st', s') /\
    in_heap s e /\
    (forall x, in_heap s x -> time_le (ev_timeout (st e)) (ev_timeout (st x))) /\
    heap_inv st' s' /\ min_heap_idx (st' e) = -1 /\
    (forall x, in_heap s' x <-> in_heap s x /\ x <> e) /\
    (forall x, ev_timeout (st' x) = ev_timeout (st x)).
Proof.
  intros H. destruct (decide (n s = 0%nat)) as [Hn|Hn].
  { left. split; [done|]. unfold min_heap_pop. by rewrite decide_True. }
  right. destruct (heap_last st s) as [l Hl]; [apply H | done |].
  destruct (hi_pos _ _ (hi_core _ _ H) 0%nat) as (e & He & _); [lia|].
  rewrite (pop_refill _ _ l) by done. rewrite He.
  destruct (refill_spec st s 0 e H ltac:(lia) He l Hl) as (st' & s' & Hr & Ht).
  cbn [mbind option_bind]. rewrite Hr. do 3 eexists. split; [done|].
  split; [exists 0%nat; split; [lia | done]|].
  split; [intros x Hx; eapply heap_root_le; [apply H | done | done]|].
  split; [eapply taken_out_inv; [exact H | exact Ht]|].
  split; [apply Ht|]. split; apply Ht.
Qed.

(** C3: [min_heap_erase] of a stored event, at whatever position it is, removes
    exactly that event and keeps the heap invariant; of an event that is in no
    heap it returns -1 and changes nothing. *)
Theorem min_heap_erase_spec st s e :
  heap_inv st s ->
  (~ in_heap s e /\ min_heap_erase st s e = Some (-1, st, s)) \/
  (in_heap s e /\ exists st' s', min_heap_erase st s e = Some (0, st', s') /\
    heap_inv st' s' /\ min_heap_idx (st' e) = -1 /\
    (forall x, in_heap s' x <-> in_heap s x /\ x <> e) /\
    (forall x, ev_timeout (st' x) = ev_timeout (st x))).
Proof.
  intros H. destruct (decide (in_heap s e)) as [He|He]; [right | left]; split; try done.
  - destruct (erase_core st s e (hi_core _ _ H) He) as (st' & s' & Hrun & Ht).
    exists st', s'. split; [done|]. split; [eapply taken_out_inv; [exact H | exact Ht]|].
    split; [apply Ht|]. split; apply Ht.
  - assert (min_heap_idx (st e) = -1) as Hi by (by destruct (hi_idx _ _ H e)).
    unfold min_heap_erase. by rewrite Hi.
Qed.

(** The constructor gives the empty heap, for events that are in no heap. *)
Lemma min_heap_ctor_inv st :
  (forall x, min_heap_idx (st x) = -1) -> heap_inv st min_heap_ctor.
Proof.
  intros Hst. split; [split; cbn; intros; lia|]. intros x. by right.
Qed.

(** A store of three events, none in a heap, for the witnesses. *)
Definition sample_store : event_store := fun x =>
  {| ev_timeout := {| tv_sec := match x with O => 5 | S O => 3 | _ => 4 end; tv_usec := 0 |};
     min_heap_idx := -1 |}.

Definition sample_heap : event_store * min_heap :=
  match min_heap_push (fun _ => true) sample_store min_heap_ctor 0 with
  | Some (_, st1, s1) =>
    match min_heap_push (fun _ => true) st1 s1 1 with
    | Some (_, st2, s2) => (st2, s2)
    | None => (st1, s1)
    end
  | None => (sample_store, min_heap_ctor)
  end.

Lemma sample_heap_inv : heap_inv sample_heap.1 sample_heap.2.
Proof.
  split; [split|].
  - reflexivity.
  - vm_compute. lia.
  - intros [|[|i]] Hi; [exists 1%nat; done | exists 0%nat; done | vm_compute in Hi; lia].
  - intros [|[|i]] x y Hi; [vm_compute in Hi; lia | | vm_compute in Hi; lia].
    intros [= <-] [= <-]. left. vm_compute. done.
  - intros [|[|x]]; [left; exists 1%nat | left; exists 0%nat | right; done];
      (split; [vm_compute; lia | done]).
Qed.


Lemma min_heap_pop_witness :
  heap_inv sample_heap.1 sample_heap.2 /\
  exists st' s', min_heap_pop sample_heap.1 sample_heap.2 = Some (Some 1%nat, st', s') /\
    heap_inv st' s' /\ (forall x, in_heap s' x <-> in_heap sample_heap.2 x /\ x <> 1%nat).
Proof.
  split; [exact sample_heap_inv|].
  destruct (min_heap_pop_spec _ _ sample_heap_inv)
    as [[Hn _] | (e & st' & s' & Hp & _ & _ & Hi & _ & Hm & _)]; [discriminate Hn|].
  exists st', s'. assert (e = 1%nat) as -> by (vm_compute in Hp; congruence). done.
Defined.

Lemma min_heap_erase_witness :
  heap_inv sample_heap.1 sample_heap.2 /\
  exists st' s', min_heap_erase sample_heap.1 sample_heap.2 0 = Some (0, st', s') /\
    heap_inv st' s'.
Proof.
  split; [exact sample_heap_inv|].
  destruct (min_heap_erase_spec _ _ 0 sample_heap_inv)
    as [[Hn _] | (_ & st' & s' & Hp & Hi & _)].
  - exfalso. apply Hn. exists 1%nat. split; [vm_compute; lia | reflexivity].
  - by exists st', s'.
Defined.
