(* ===== verification/EvChain.v ===== *)
(** The memory chunks of an evbuffer ([struct evbuffer_chain] of
    [evbuffer-internal.h], and the [evbuffer_chain_*] helpers of [buffer.c]):
    allocation with its width-dependent rounding, alignment, pinning. *)

From S2P Require Import Prelude.

(** ** The platform

    [size_t], [sizeof(struct evbuffer_chain)] and [MIN_BUFFER_SIZE] depend on the
    target; the sources are built for 32- and 64-bit Windows. *)
Class Arch := {
  size_bits : Z;
  EVBUFFER_CHAIN_SIZE : Z;
  MIN_BUFFER_SIZE : Z;
  arch_cases :
    (size_bits = 32 /\ EVBUFFER_CHAIN_SIZE = 32 /\ MIN_BUFFER_SIZE = 512) \/
    (size_bits = 64 /\ EVBUFFER_CHAIN_SIZE = 48 /\ MIN_BUFFER_SIZE = 1024) }.

#[refine] Definition win32 : Arch := {|
  size_bits := 32; EVBUFFER_CHAIN_SIZE := 32; MIN_BUFFER_SIZE := 512 |}.
Proof. auto. Defined.

#[refine] Definition win64 : Arch := {|
  size_bits := 64; EVBUFFER_CHAIN_SIZE := 48; MIN_BUFFER_SIZE := 1024 |}.
Proof. auto. Defined.

(** [EV_SSIZE_MAX]. *)
Definition EV_SSIZE_MAX `{Arch} : Z := 2 ^ (size_bits - 1) - 1.

(** The allocator is not part of the sources' logic: [mm_malloc] gives NULL or a
    block of the requested size with unspecified contents. *)
Class Allocator := {
  mm_malloc : Z -> option (list Z);
  mm_malloc_length : forall sz blk, mm_malloc sz = Some blk -> 0 <= sz -> zlen blk = sz }.

(** ** Chains *)

Definition EVBUFFER_MMAP : Z := 0x1.
Definition EVBUFFER_SENDFILE : Z := 0x2.
Definition EVBUFFER_REFERENCE : Z := 0x4.
Definition EVBUFFER_IMMUTABLE : Z := 0x8.
Definition EVBUFFER_MEM_PINNED_R : Z := 0x10.
Definition EVBUFFER_MEM_PINNED_W : Z := 0x20.
Definition EVBUFFER_MEM_PINNED_ANY : Z := Z.lor EVBUFFER_MEM_PINNED_R EVBUFFER_MEM_PINNED_W.
Definition EVBUFFER_DANGLING : Z := 0x40.

(** The [next] pointer is the position in the buffer's list of chains. *)
Record evbuffer_chain := {
  buffer_len : Z;
  misalign : Z;
  off : Z;
  flags : Z;
  buffer : list Z }.

Definition has_flag (c : evbuffer_chain) (f : Z) : bool := negb (Z.land (flags c) f =? 0).

Definition CHAIN_PINNED (c : evbuffer_chain) : bool := has_flag c EVBUFFER_MEM_PINNED_ANY.
Definition CHAIN_PINNED_R (c : evbuffer_chain) : bool := has_flag c EVBUFFER_MEM_PINNED_R.

(** [CHAIN_SPACE_PTR] as an index into [buffer], and [CHAIN_SPACE_LEN]. *)
Definition CHAIN_SPACE_PTR (c : evbuffer_chain) : Z := misalign c + off c.
Definition CHAIN_SPACE_LEN (c : evbuffer_chain) : Z :=
  if has_flag c EVBUFFER_IMMUTABLE then 0 else buffer_len c - (misalign c + off c).

(** The same chain with other [misalign], [off] and memory. *)
Definition set_data (c : evbuffer_chain) (m o : Z) (b : list Z) : evbuffer_chain :=
  {| buffer_len := buffer_len c; misalign := m; off := o; flags := flags c; buffer := b |}.

Definition set_window (c : evbuffer_chain) (m o : Z) : evbuffer_chain :=
  set_data c m o (buffer c).

(** The bytes stored in a chain. *)
Definition chain_data (c : evbuffer_chain) : list Z :=
  ztake (off c) (zdrop (misalign c) (buffer c)).

(** [while (to_alloc < size) to_alloc <<= 1], on [size_t]; [None] when the
    fuel ends first. *)
Fixpoint alloc_loop {A : Arch} (fuel : nat) (to_alloc size : Z) : option Z :=
  if to_alloc <? size then
    match fuel with
    | O => None
    | S fuel' => alloc_loop fuel' (wrap size_bits (Z.shiftl to_alloc 1)) size
    end
  else Some to_alloc.

(** [evbuffer_chain_new]: [Some None] is the NULL of a failed allocation. *)
Definition evbuffer_chain_new {A : Arch} {M : Allocator} (size : Z)
  : option (option evbuffer_chain) :=
  to_alloc ← alloc_loop 64 MIN_BUFFER_SIZE (wrap size_bits (size + EVBUFFER_CHAIN_SIZE));
  match mm_malloc to_alloc with
  | None => Some None
  | Some blk =>
    Some (Some {| buffer_len := to_alloc - EVBUFFER_CHAIN_SIZE;
                  misalign := 0; off := 0; flags := 0;
                  buffer := zdrop EVBUFFER_CHAIN_SIZE blk |})
  end.

Definition _evbuffer_chain_pin (c : evbuffer_chain) (flag : Z) : option evbuffer_chain :=
  if Z.land (flags c) flag =? 0 then
    Some {| buffer_len := buffer_len c; misalign := misalign c; off := off c;
            flags := Z.lor (flags c) flag; buffer := buffer c |}
  else None.

(** The pinned case of [evbuffer_chain_free] marks the chain for a later
    [_evbuffer_chain_unpin]; any other chain is released. *)
Definition evbuffer_chain_free (c : evbuffer_chain) : option evbuffer_chain :=
  if CHAIN_PINNED c then
    Some {| buffer_len := buffer_len c; misalign := misalign c; off := off c;
            flags := Z.lor (flags c) EVBUFFER_DANGLING; buffer := buffer c |}
  else None.

(** [None] is the failed assertion; [Some None] says that the unpinned chain
    was dangling and is now released. *)
Definition _evbuffer_chain_unpin (c : evbuffer_chain) (flag : Z)
  : option (option evbuffer_chain) :=
  if Z.land (flags c) flag =? 0 then None else
  let c' := {| buffer_len := buffer_len c; misalign := misalign c; off := off c;
               flags := Z.ldiff (flags c) flag; buffer := buffer c |} in
  Some (if has_flag c' EVBUFFER_DANGLING then evbuffer_chain_free c' else Some c').

Definition MAX_TO_COPY_IN_EXPAND : Z := 4096.
Definition MAX_TO_REALIGN_IN_EXPAND : Z := 2048.

(** [memmove] of the data to the start of the memory. *)
Definition evbuffer_chain_align (c : evbuffer_chain) : option evbuffer_chain :=
  if has_flag c EVBUFFER_IMMUTABLE || CHAIN_PINNED c then None else
  d ← mem_read (buffer c) (misalign c) (off c);
  b ← mem_write (buffer c) 0 d;
  Some (set_data c 0 (off c) b).

Definition evbuffer_chain_should_realign (c : evbuffer_chain) (datlen : Z) : bool :=
  (datlen <=? buffer_len c - off c) &&
  (off c <? buffer_len c / 2) &&
  (off c <=? MAX_TO_REALIGN_IN_EXPAND).

(** [memcpy] to a place of the chain's memory, then [off] grows by the length
    ([append]) or the window is set to [m], [o]. *)
Definition chain_store (c : evbuffer_chain) (pos : Z) (d : list Z) (m o : Z)
  : option evbuffer_chain :=
  b ← mem_write (buffer c) pos d; Some (set_data c m o b).

Definition chain_append (c : evbuffer_chain) (d : list Z) : option evbuffer_chain :=
  chain_store c (misalign c + off c) d (misalign c) (off c + zlen d).

(** ** Well-formed chains *)

Record chain_ok (c : evbuffer_chain) : Prop := {
  ck_misalign : 0 <= misalign c;
  ck_off : 0 <= off c;
  ck_fit : misalign c + off c <= buffer_len c;
  ck_buffer : zlen (buffer c) = buffer_len c }.

#[export] Instance chain_ok_dec c : Decision (chain_ok c).
Proof.
  destruct (decide (0 <= misalign c /\ 0 <= off c /\ misalign c + off c <= buffer_len c /\
                    zlen (buffer c) = buffer_len c)) as [(?&?&?&?)|Hn].
  - left. by split.
  - right. intros []. apply Hn. auto.
Defined.

Lemma chain_data_len c : chain_ok c -> zlen (chain_data c) = off c.
Proof.
  intros []. unfold chain_data. rewrite zlen_ztake; [done|].
  rewrite zlen_zdrop; lia.
Qed.

Lemma chain_data_read c : chain_ok c -> mem_read (buffer c) (misalign c) (off c) = Some (chain_data c).
Proof. intros []. apply mem_read_Some; lia. Qed.

(** Dropping the first [k] bytes of a chain by moving its window. *)
Lemma window_drop c k :
  chain_ok c -> 0 <= k <= off c ->
  chain_ok (set_window c (misalign c + k) (off c - k)) /\
  chain_data (set_window c (misalign c + k) (off c - k)) = zdrop k (chain_data c).
Proof.
  intros [] Hk. split; [split; cbn; lia|]. unfold chain_data. cbn.
  rewrite zdrop_ztake by lia. by rewrite zdrop_zdrop by lia.
Qed.

(** Storing [d] right after the data, where it fits. *)
Lemma chain_append_spec c d :
  chain_ok c -> misalign c + off c + zlen d <= buffer_len c ->
  exists c', chain_append c d = Some c' /\ chain_ok c' /\
    chain_data c' = chain_data c ++ d /\ off c' = off c + zlen d /\
    flags c' = flags c /\ misalign c' = misalign c /\ buffer_len c' = buffer_len c.
Proof.
  intros Hc Hfit. pose proof (zlen_nonneg d). destruct (Hc) as [Hm Ho Hf Hb].
  unfold chain_append, chain_store. rewrite mem_write_Some by lia. cbn.
  eexists. split; [done|]. split; [|split; [|done]].
  - split; cbn; try lia. rewrite !zlen_app, zlen_ztake, zlen_zdrop by lia. lia.
  - unfold chain_data. cbn.
    rewrite zdrop_app_le by (rewrite zlen_ztake; lia).
    rewrite zdrop_ztake by lia.
    replace (misalign c + off c - misalign c) with (off c) by lia.
    fold (chain_data c).
    rewrite ztake_app_ge by (rewrite chain_data_len by done; lia).
    f_equal. rewrite chain_data_len by done.
    replace (off c + zlen d - off c) with (zlen d) by lia. by apply ztake_exact.
Qed.

(** Storing [d] right before the data, in the misalignment. *)
Lemma chain_prepend_spec c d :
  chain_ok c -> zlen d <= misalign c ->
  exists c', chain_store c (misalign c - zlen d) d (misalign c - zlen d) (off c + zlen d) = Some c' /\
    chain_ok c' /\ chain_data c' = d ++ chain_data c /\ off c' = off c + zlen d /\
    flags c' = flags c /\ misalign c' = misalign c - zlen d /\ buffer_len c' = buffer_len c.
Proof.
  intros Hc Hfit. pose proof (zlen_nonneg d). destruct (Hc) as [Hm Ho Hf Hb].
  unfold chain_store. rewrite mem_write_Some by lia. cbn.
  eexists. split; [done|]. split; [|split; [|done]].
  - split; cbn; try lia. rewrite !zlen_app, zlen_ztake, zlen_zdrop by lia. lia.
  - unfold chain_data. cbn.
    rewrite zdrop_exact by (rewrite zlen_ztake; lia).
    rewrite ztake_app_ge by lia. f_equal.
    replace (misalign c - zlen d + zlen d) with (misalign c) by lia. f_equal. lia.
Qed.

Lemma chain_align_spec c :
  chain_ok c -> has_flag c EVBUFFER_IMMUTABLE = false -> CHAIN_PINNED c = false ->
  exists c', evbuffer_chain_align c = Some c' /\ chain_ok c' /\
    chain_data c' = chain_data c /\ misalign c' = 0 /\ off c' = off c /\
    flags c' = flags c /\ buffer_len c' = buffer_len c.
Proof.
  intros Hc Hi Hp. unfold evbuffer_chain_align. rewrite Hi, Hp. cbn [orb].
  destruct (Hc) as [Hm Ho Hf Hb].
  rewrite chain_data_read by done. cbn [mbind option_bind].
  assert (Hl := chain_data_len c Hc).
  rewrite mem_write_Some by lia. cbn [mbind option_bind].
  eexists. split; [done|]. rewrite ztake_0 by lia. cbn [app].
  split; [|split; [|done]].
  - split; cbn; try lia. rewrite zlen_app, zlen_zdrop by lia. lia.
  - unfold chain_data at 1. cbn. rewrite zdrop_0 by lia. by apply ztake_exact.
Qed.

(** ** Allocation sizes *)

Section chain_new.
Context {A : Arch}.

Lemma size_bits_cases : size_bits = 32 \/ size_bits = 64.
Proof. destruct arch_cases as [(->&_&_)|(->&_&_)]; auto. Qed.

Lemma min_buffer_pow : exists j, 0 <= j /\ MIN_BUFFER_SIZE = 2 ^ j /\ size_bits - 1 - j <= 53 /\ j < size_bits - 1.
Proof.
  destruct arch_cases as [(->&_&->)|(->&_&->)]; [exists 9 | exists 10]; repeat split; lia.
Qed.

Lemma chain_size_lt_min : 0 < EVBUFFER_CHAIN_SIZE < MIN_BUFFER_SIZE.
Proof. destruct arch_cases as [(_&->&->)|(_&->&->)]; lia. Qed.

Lemma shiftl_pow2 j : 0 <= j -> Z.shiftl (2 ^ j) 1 = 2 ^ (j + 1).
Proof. intros. rewrite Z.shiftl_mul_pow2 by lia. rewrite Z.pow_add_r by lia. lia. Qed.

Lemma pow2_step j : 0 <= j -> 2 ^ (j + 1) = 2 * 2 ^ j.
Proof. intros. rewrite Z.pow_add_r by lia. lia. Qed.

Lemma alloc_loop_stop fuel t size : size <= t -> alloc_loop fuel t size = Some t.
Proof using Type. intros. destruct fuel; cbn; by destruct (Z.ltb_spec t size); [lia|]. Qed.

Lemma alloc_loop_pow2 fuel : forall j size,
  0 <= j < size_bits -> size <= 2 ^ (size_bits - 1) -> size_bits - 1 - j <= Z.of_nat fuel ->
  exists j', alloc_loop fuel (2 ^ j) size = Some (2 ^ j') /\ j <= j' < size_bits /\
    size <= 2 ^ j' /\ (j' = j \/ 2 ^ j' < 2 * size).
Proof using Type.
  induction fuel as [|fuel IH]; intros j size Hj Hs Hf; cbn [alloc_loop];
    destruct (Z.ltb_spec (2 ^ j) size) as [Hlt|Hge];
    try (exists j; split; [done|lia]).
  - assert (2 ^ j = 2 ^ (size_bits - 1)) by (f_equal; lia). lia.
  - assert (j < size_bits - 1) as Hj1.
    { destruct (Z.lt_ge_cases j (size_bits - 1)); [done|].
      assert (2 ^ j = 2 ^ (size_bits - 1)) by (f_equal; lia). lia. }
    rewrite shiftl_pow2, wrap_small by
      (try (split; [apply Z.pow_nonneg | apply Z.pow_lt_mono_r]); lia).
    destruct (IH (j + 1) size) as (j' & -> & Hj' & Hsz & Hor); [lia..|].
    exists j'. split; [done|]. split; [lia|]. split; [done|].
    destruct Hor as [->|]; [right | by right]. rewrite pow2_step by lia. lia.
Qed.

(** A request above half the address space is never satisfied: the doubling
    wraps to 0 and stays there. *)
Lemma alloc_loop_diverges fuel : forall t size,
  2 ^ (size_bits - 1) < size ->
  (t = 0 \/ exists j, 0 <= j < size_bits /\ t = 2 ^ j) ->
  alloc_loop fuel t size = None.
Proof using Type.
  induction fuel as [|fuel IH]; intros t size Hs Ht; cbn [alloc_loop].
  all: assert (t < size) as Hlt.
  1,3: destruct Ht as [->|(j & Hj & ->)]; [pose proof (Z.pow_pos_nonneg 2 (size_bits - 1)); lia|];
    assert (2 ^ j <= 2 ^ (size_bits - 1)) by (apply Z.pow_le_mono_r; lia); lia.
  all: rewrite (proj2 (Z.ltb_lt _ _) Hlt).
  { done. }
  apply IH; [done|]. destruct Ht as [->|(j & Hj & ->)]; [left; done|].
  rewrite shiftl_pow2 by lia. destruct (decide (j + 1 < size_bits)).
  - right. exists (j + 1). split; [lia|].
    apply wrap_small. split; [apply Z.pow_nonneg | apply Z.pow_lt_mono_r]; lia.
  - left. replace (j + 1) with size_bits by lia. unfold wrap. apply Z.mod_same.
    apply Z.pow_nonzero; lia.
Qed.

Context {M : Allocator}.

(** The empty, unflagged chain that a successful allocation gives. *)
Definition fresh_chain (c : evbuffer_chain) (size : Z) : Prop :=
  chain_ok c /\ off c = 0 /\ misalign c = 0 /\ flags c = 0 /\ size <= buffer_len c /\ 0 < buffer_len c.

Lemma chain_new_cases size :
  0 <= size -> size + EVBUFFER_CHAIN_SIZE <= 2 ^ (size_bits - 1) ->
  exists oc, evbuffer_chain_new size = Some oc /\
    match oc with
    | None => exists n, mm_malloc n = None
    | Some c => fresh_chain c size /\
                buffer_len c + EVBUFFER_CHAIN_SIZE <=
                  Z.max MIN_BUFFER_SIZE (2 * (size + EVBUFFER_CHAIN_SIZE)) /\
                buffer_len c + EVBUFFER_CHAIN_SIZE <= 2 ^ (size_bits - 1)
    end.
Proof using Type.
  intros Hs Hb. pose proof chain_size_lt_min. pose proof min_buffer_pow as (j & Hj & Hm & Hf & Hjb).
  unfold evbuffer_chain_new.
  assert (2 ^ (size_bits - 1) < 2 ^ size_bits) by (apply Z.pow_lt_mono_r; lia).
  rewrite (wrap_small _ (size + EVBUFFER_CHAIN_SIZE)) by (split; lia). rewrite Hm.
  destruct (alloc_loop_pow2 64 j (size + EVBUFFER_CHAIN_SIZE)) as (j' & -> & Hj' & Hsz & Hor);
    [lia.. |]. cbn [mbind option_bind].
  assert (2 ^ j <= 2 ^ j') by (apply Z.pow_le_mono_r; lia).
  assert (2 ^ j' <= 2 ^ (size_bits - 1)) by (apply Z.pow_le_mono_r; lia).
  destruct (mm_malloc (2 ^ j')) as [blk|] eqn:Hblk; [|exists None; eauto].
  apply mm_malloc_length in Hblk; [|lia]. eexists. split; [done|]. cbn.
  split; [|destruct Hor as [->|]; lia]. split; [|cbn; lia].
  split; cbn; try lia. rewrite zlen_zdrop by lia. lia.
Qed.
End chain_new.

(** for every request that leaves room for the header below half the
    address space, the doubling loop of [evbuffer_chain_new] terminates; the
    chain it gives is empty, unflagged, holds at least [size] bytes of real
    memory, and the allocation is at most twice what was needed (or the
    minimum). *)
Theorem evbuffer_chain_new_spec {A : Arch} {M : Allocator} size :
  0 <= size -> size + EVBUFFER_CHAIN_SIZE <= 2 ^ (size_bits - 1) ->
  evbuffer_chain_new size = Some None \/
  exists c, evbuffer_chain_new size = Some (Some c) /\ chain_ok c /\
    chain_data c = [] /\ flags c = 0 /\ size <= buffer_len c /\ CHAIN_SPACE_LEN c = buffer_len c /\
    buffer_len c + EVBUFFER_CHAIN_SIZE <=
      Z.max MIN_BUFFER_SIZE (2 * (size + EVBUFFER_CHAIN_SIZE)).
Proof.
  intros Hs Hb. destruct (chain_new_cases size Hs Hb) as ([c|] & -> & Hc); [right | by left].
  destruct Hc as [(Hok & Ho & Hm & Hf & Hl & _) [Hmax _]]. exists c.
  repeat split; try done; try apply Hok.
  - apply zlen_nil_iff. by rewrite chain_data_len.
  - unfold CHAIN_SPACE_LEN, has_flag. rewrite Hf, Ho, Hm, Z.land_0_l. cbn [negb Z.eqb]. lia.
Qed.

(** Outside that range the code does not do what it means to.  A request
    between half the address space and its end makes the doubling loop run for
    ever, and one so large that adding the header size wraps around gives a
    chain of the minimum size, smaller than what was asked for, into which the
    callers then copy [size] bytes. *)
Theorem evbuffer_chain_new_overflow {A : Arch} {M : Allocator} size :
  (2 ^ (size_bits - 1) < size + EVBUFFER_CHAIN_SIZE < 2 ^ size_bits ->
     forall fuel, alloc_loop fuel MIN_BUFFER_SIZE (wrap size_bits (size + EVBUFFER_CHAIN_SIZE)) = None) /\
  (2 ^ size_bits - EVBUFFER_CHAIN_SIZE <= size < 2 ^ size_bits ->
     forall c, evbuffer_chain_new size = Some (Some c) ->
       buffer_len c = MIN_BUFFER_SIZE - EVBUFFER_CHAIN_SIZE /\ buffer_len c < size).
Proof.
  pose proof chain_size_lt_min. pose proof min_buffer_pow as (j & Hj & Hm & Hf & Hjb).
  assert (0 < 2 ^ (size_bits - 1)) by (apply Z.pow_pos_nonneg; lia).
  assert (2 ^ size_bits = 2 * 2 ^ (size_bits - 1)) as Hpow.
  { rewrite <- pow2_step by lia. f_equal. lia. }
  assert (MIN_BUFFER_SIZE <= 2 ^ (size_bits - 1)) by (rewrite Hm; apply Z.pow_le_mono_r; lia).
  split; intros Hs.
  - intros fuel. apply alloc_loop_diverges; [rewrite wrap_small by (split; lia); lia|].
    right. exists j. split; [lia | done].
  - intros c. unfold evbuffer_chain_new.
    assert (wrap size_bits (size + EVBUFFER_CHAIN_SIZE) = size + EVBUFFER_CHAIN_SIZE - 2 ^ size_bits) as ->.
    { unfold wrap. symmetry. apply (Z.mod_unique _ _ 1); lia. }
    rewrite alloc_loop_stop by lia. cbn [mbind option_bind].
    destruct (mm_malloc MIN_BUFFER_SIZE); [|done]. intros [= <-]. cbn. split; [done|].
    lia.
Qed.

(** An allocator that always succeeds, for the witnesses. *)
#[refine] Definition zero_allocator : Allocator := {|
  mm_malloc := fun sz => Some (replicate (Z.to_nat sz) 0) |}.
Proof.
  intros sz blk [= <-] Hs. unfold zlen. rewrite length_replicate. lia.
Defined.

Lemma evbuffer_chain_new_witness :
  (0 <= 2000 /\ 2000 + EVBUFFER_CHAIN_SIZE (Arch := win64) <= 2 ^ (size_bits (Arch := win64) - 1)) /\
  exists c, evbuffer_chain_new (A := win64) (M := zero_allocator) 2000 = Some (Some c) /\
    buffer_len c = 2000.
Proof.
  assert (H2000 : 0 <= 2000 /\ 2000 + EVBUFFER_CHAIN_SIZE (Arch := win64)
                    <= 2 ^ (size_bits (Arch := win64) - 1)) by (cbn; lia).
  split; [exact H2000|].
  destruct (evbuffer_chain_new_spec (A := win64) (M := zero_allocator) 2000
              (proj1 H2000) (proj2 H2000)) as [Hn | (c & Hc & _)].
  - vm_compute in Hn. discriminate.
  - exists c. split; [exact Hc|]. vm_compute in Hc. injection Hc as <-. reflexivity.
Defined.

Lemma evbuffer_chain_new_overflow_witness :
  (2 ^ size_bits (Arch := win32) - EVBUFFER_CHAIN_SIZE (Arch := win32) <= 4294967290
     < 2 ^ size_bits (Arch := win32)) /\
  (2 ^ (size_bits (Arch := win32) - 1) < 3000000000 + EVBUFFER_CHAIN_SIZE (Arch := win32)
     < 2 ^ size_bits (Arch := win32)) /\
  (forall c, evbuffer_chain_new (A := win32) (M := zero_allocator) 4294967290 = Some (Some c) ->
     buffer_len c < 4294967290) /\
  (forall fuel, alloc_loop (A := win32) fuel 512 (wrap 32 3000000032) = None).
Proof.
  assert (H1 : 2 ^ size_bits (Arch := win32) - EVBUFFER_CHAIN_SIZE (Arch := win32) <= 4294967290
     < 2 ^ size_bits (Arch := win32)) by (cbn; lia).
  assert (H2 : 2 ^ (size_bits (Arch := win32) - 1) < 3000000000 + EVBUFFER_CHAIN_SIZE (Arch := win32)
     < 2 ^ size_bits (Arch := win32)) by (cbn; lia).
  split; [exact H1|]. split; [exact H2|]. split.
  - intros c Hc. exact (proj2 (proj2 (evbuffer_chain_new_overflow (A := win32)
                                       (M := zero_allocator) 4294967290) H1 c Hc)).
  - exact (proj1 (evbuffer_chain_new_overflow (A := win32) (M := zero_allocator) 3000000000) H2).
Defined.
