(* ===== verification/Evbuffer.v ===== *)
(** The evbuffer byte queue ([buffer.c], [struct evbuffer]): the chain list,
    its bookkeeping and callbacks, and the operations that add, remove, move and
    linearise data. *)

From S2P Require Import Prelude EvChain.

(** ** State *)

Definition EVBUFFER_CB_ENABLED : Z := 1.
Definition EVBUFFER_CB_NODEFER : Z := 2.
Definition EVBUFFER_CB_OBSOLETE : Z := 0x40000.

(** A registered callback, named by [cb_id] (function and argument). *)
Record evbuffer_cb_entry := { cb_id : nat; cb_flags : Z }.

(** One call made to a callback, with what it is told. *)
Record cb_call := { call_id : nat; call_orig_size : Z; call_new_size : Z;
                    call_n_added : Z; call_n_deleted : Z }.

(** The linked list of chains is a list; [last] is its last element, and
    [last_with_datap], a pointer to the [next] field that points to a chain (or
    to [first]), is the index of that chain.  [cb_calls] records the calls made
    to callbacks, [deferred_queued] is [deferred.queued]. *)
Record evbuffer := {
  chains : list evbuffer_chain;
  last_with_datap : nat;
  total_len : Z;
  n_add_for_cb : Z;
  n_del_for_cb : Z;
  freeze_start : bool;
  freeze_end : bool;
  deferred_cbs : bool;
  deferred_queued : bool;
  refcnt : Z;
  callbacks : list evbuffer_cb_entry;
  cb_calls : list cb_call }.

Definition evbuffer_new : evbuffer :=
  {| chains := []; last_with_datap := 0; total_len := 0; n_add_for_cb := 0; n_del_for_cb := 0;
     freeze_start := false; freeze_end := false; deferred_cbs := false;
     deferred_queued := false; refcnt := 1; callbacks := []; cb_calls := [] |}.

(** The chain list, its data pointer and the length, updated together. *)
Definition set_chains (b : evbuffer) (cs : list evbuffer_chain) (lwd : nat) (tl : Z) : evbuffer :=
  {| chains := cs; last_with_datap := lwd; total_len := tl;
     n_add_for_cb := n_add_for_cb b; n_del_for_cb := n_del_for_cb b;
     freeze_start := freeze_start b; freeze_end := freeze_end b;
     deferred_cbs := deferred_cbs b; deferred_queued := deferred_queued b; refcnt := refcnt b;
     callbacks := callbacks b; cb_calls := cb_calls b |}.

(** The two counters for the callbacks. *)
Definition set_counts (b : evbuffer) (na nd : Z) : evbuffer :=
  {| chains := chains b; last_with_datap := last_with_datap b; total_len := total_len b;
     n_add_for_cb := na; n_del_for_cb := nd;
     freeze_start := freeze_start b; freeze_end := freeze_end b;
     deferred_cbs := deferred_cbs b; deferred_queued := deferred_queued b; refcnt := refcnt b;
     callbacks := callbacks b; cb_calls := cb_calls b |}.

Definition add_count (b : evbuffer) (k : Z) : evbuffer :=
  set_counts b (n_add_for_cb b + k) (n_del_for_cb b).
Definition del_count (b : evbuffer) (k : Z) : evbuffer :=
  set_counts b (n_add_for_cb b) (n_del_for_cb b + k).

(** The callback side: calls made, deferral, reference count. *)
Definition set_cbs (b : evbuffer) (queued : bool) (rc : Z) (cbs : list evbuffer_cb_entry)
    (calls : list cb_call) : evbuffer :=
  {| chains := chains b; last_with_datap := last_with_datap b; total_len := total_len b;
     n_add_for_cb := n_add_for_cb b; n_del_for_cb := n_del_for_cb b;
     freeze_start := freeze_start b; freeze_end := freeze_end b;
     deferred_cbs := deferred_cbs b; deferred_queued := queued; refcnt := rc;
     callbacks := cbs; cb_calls := calls |}.

Definition set_freeze (b : evbuffer) (fs fe : bool) : evbuffer :=
  {| chains := chains b; last_with_datap := last_with_datap b; total_len := total_len b;
     n_add_for_cb := n_add_for_cb b; n_del_for_cb := n_del_for_cb b;
     freeze_start := fs; freeze_end := fe;
     deferred_cbs := deferred_cbs b; deferred_queued := deferred_queued b; refcnt := refcnt b;
     callbacks := callbacks b; cb_calls := cb_calls b |}.

(** ** Callbacks *)

(** The mask and the value a callback's flags must have under it. *)
Definition cb_mask (b : evbuffer) (running_deferred : bool) : Z * Z * bool :=
  if running_deferred then
    (Z.lor EVBUFFER_CB_NODEFER EVBUFFER_CB_ENABLED, EVBUFFER_CB_ENABLED, true)
  else if deferred_cbs b then
    (Z.lor EVBUFFER_CB_NODEFER EVBUFFER_CB_ENABLED,
     Z.lor EVBUFFER_CB_NODEFER EVBUFFER_CB_ENABLED, false)
  else (EVBUFFER_CB_ENABLED, EVBUFFER_CB_ENABLED, true).

Definition evbuffer_run_callbacks (b : evbuffer) (running_deferred : bool) : evbuffer :=
  let '(mask, masked_val, clear) := cb_mask b running_deferred in
  match callbacks b with
  | [] => set_counts b 0 0
  | _ :: _ =>
    if (n_add_for_cb b =? 0) && (n_del_for_cb b =? 0) then b else
    let new_size := total_len b in
    let orig := new_size + n_del_for_cb b - n_add_for_cb b in
    let call e := {| call_id := cb_id e; call_orig_size := orig; call_new_size := new_size;
                     call_n_added := n_add_for_cb b; call_n_deleted := n_del_for_cb b |} in
    let ran := List.filter (fun e => Z.land (cb_flags e) mask =? masked_val) (callbacks b) in
    let b1 := if (clear : bool) then set_counts b 0 0 else b in
    set_cbs b1 (deferred_queued b1) (refcnt b1) (callbacks b1) (cb_calls b1 ++ map call ran)
  end.

Definition evbuffer_invoke_callbacks (b : evbuffer) : evbuffer :=
  match callbacks b with
  | [] => set_counts b 0 0
  | _ :: _ =>
    if deferred_cbs b then
      if deferred_queued b then b
      else evbuffer_run_callbacks
             (set_cbs b true (refcnt b + 1) (callbacks b) (cb_calls b)) false
    else evbuffer_run_callbacks b false
  end.

Definition evbuffer_add_cb (b : evbuffer) (id : nat) : evbuffer :=
  set_cbs b (deferred_queued b) (refcnt b)
    ({| cb_id := id; cb_flags := EVBUFFER_CB_ENABLED |} :: callbacks b) (cb_calls b).

(** [evbuffer_remove_cb]: the first entry with that function and argument. *)
Fixpoint remove_first_cb (id : nat) (l : list evbuffer_cb_entry)
  : option (list evbuffer_cb_entry) :=
  match l with
  | [] => None
  | e :: l' => if decide (cb_id e = id) then Some l'
               else cons e <$> remove_first_cb id l'
  end.

Definition evbuffer_remove_cb (b : evbuffer) (id : nat) : Z * evbuffer :=
  match remove_first_cb id (callbacks b) with
  | Some l => (0, set_cbs b (deferred_queued b) (refcnt b) l (cb_calls b))
  | None => (-1, b)
  end.

(** ** Chain list primitives *)

Definition evbuffer_get_length (b : evbuffer) : Z := total_len b.

Definition evbuffer_get_contiguous_space (b : evbuffer) : Z :=
  match chains b with c :: _ => off c | [] => 0 end.

Definition evbuffer_chains_all_empty (cs : list evbuffer_chain) : bool :=
  forallb (fun c => off c =? 0) cs.

(** The first chain from index [i] on that is empty and not pinned. *)
Fixpoint find_victim (cs : list evbuffer_chain) (i : nat) : option nat :=
  match cs with
  | [] => None
  | c :: cs' =>
    match i with
    | O => if negb (off c =? 0) || CHAIN_PINNED c then S <$> find_victim cs' 0 else Some 0%nat
    | S i' => S <$> find_victim cs' i'
    end
  end.

(** The chains left and the place where a new chain goes. *)
Definition evbuffer_free_trailing_empty_chains (b : evbuffer)
  : option (list evbuffer_chain) :=
  match find_victim (chains b) (last_with_datap b) with
  | Some k => if evbuffer_chains_all_empty (drop k (chains b))
              then Some (take k (chains b)) else None
  | None => Some (chains b)
  end.

Definition evbuffer_chain_insert (b : evbuffer) (c : evbuffer_chain) : option evbuffer :=
  match chains b !! last_with_datap b with
  | None =>
    match chains b, last_with_datap b with
    | [], O => Some (set_chains b [c] 0 (total_len b + off c))
    | _, _ => None
    end
  | Some _ =>
    match find_victim (chains b) (last_with_datap b) with
    | None =>
      let lwd := if negb (off c =? 0) then length (chains b) else last_with_datap b in
      Some (set_chains b (chains b ++ [c]) lwd (total_len b + off c))
    | Some k =>
      if evbuffer_chains_all_empty (drop k (chains b)) then
        Some (set_chains b (take k (chains b) ++ [c]) (last_with_datap b)
                (total_len b + off c))
      else None
    end
  end.

(** [advance_last_with_data]: [cs] are the chains after the current one. *)
Fixpoint count_nonempty (cs : list evbuffer_chain) : nat :=
  match cs with
  | c :: cs' => if off c =? 0 then 0 else S (count_nonempty cs')
  | [] => 0
  end.

Definition advance_last_with_data (b : evbuffer) : evbuffer :=
  match chains b !! last_with_datap b with
  | None => b
  | Some _ =>
    set_chains b (chains b)
      (last_with_datap b + count_nonempty (drop (S (last_with_datap b)) (chains b)))
      (total_len b)
  end.

Definition HAS_PINNED_R (b : evbuffer) : bool :=
  match last (chains b) with Some c => CHAIN_PINNED_R c | None => false end.

Definition ZERO_CHAIN (b : evbuffer) : evbuffer := set_chains b [] 0 0.

Section ops.
Context {A : Arch} {M : Allocator}.

Definition evbuffer_chain_insert_new (b : evbuffer) (datlen : Z) : option (option evbuffer) :=
  oc ← evbuffer_chain_new datlen;
  match oc with
  | None => Some None
  | Some c => Some <$> evbuffer_chain_insert b c
  end.

(** ** Adding data *)

Definition EVBUFFER_CHAIN_MAX_AUTO_SIZE : Z := 4096.

(** [evbuffer_add] once the buffer has a last chain [c], at index [i]. *)
Definition evbuffer_add_to_last (b : evbuffer) (i : nat) (c : evbuffer_chain) (data : list Z)
  : option (Z * evbuffer) :=
  let datlen := zlen data in
  let writable := negb (has_flag c EVBUFFER_IMMUTABLE) in
  let remain := if writable then buffer_len c - misalign c - off c else 0 in
  if writable && (datlen <=? remain) then
    c' ← chain_append c data;
    Some (0, evbuffer_invoke_callbacks (add_count
      (set_chains b (<[i:=c']> (chains b)) (last_with_datap b) (total_len b + datlen)) datlen))
  else if writable && (negb (CHAIN_PINNED c) && evbuffer_chain_should_realign c datlen) then
    c1 ← evbuffer_chain_align c;
    c' ← chain_store c1 (off c1) data (misalign c1) (off c1 + datlen);
    Some (0, evbuffer_invoke_callbacks (add_count
      (set_chains b (<[i:=c']> (chains b)) (last_with_datap b) (total_len b + datlen)) datlen))
  else
    let to_alloc0 := buffer_len c in
    let to_alloc1 := if to_alloc0 <=? EVBUFFER_CHAIN_MAX_AUTO_SIZE / 2
                     then Z.shiftl to_alloc0 1 else to_alloc0 in
    let to_alloc := if to_alloc1 <? datlen then datlen else to_alloc1 in
    oc ← evbuffer_chain_new to_alloc;
    match oc with
    | None => Some (-1, b)
    | Some tmp =>
      b1 ← (if negb (remain =? 0) then
              c' ← chain_append c (ztake remain data);
              Some (add_count
                (set_chains b (<[i:=c']> (chains b)) (last_with_datap b) (total_len b + remain))
                remain)
            else Some b);
      let rest := zdrop remain data in
      tmp' ← chain_store tmp 0 rest 0 (zlen rest);
      b2 ← evbuffer_chain_insert b1 tmp';
      Some (0, evbuffer_invoke_callbacks (add_count b2 (zlen rest)))
    end.

Definition evbuffer_add (b : evbuffer) (data : list Z) : option (Z * evbuffer) :=
  if freeze_end b then Some (-1, b) else
  match last (chains b) with
  | Some c => evbuffer_add_to_last b (length (chains b) - 1) c data
  | None =>
    oc ← evbuffer_chain_new (zlen data);
    match oc with
    | None => Some (-1, b)
    | Some c =>
      b1 ← evbuffer_chain_insert b c;
      evbuffer_add_to_last b1 (length (chains b1) - 1) c data
    end
  end.

(** [evbuffer_prepend] once the buffer has a first chain [c], [cs] being the
    chains after it.  The counter for the callbacks grows by [misalign] of
    the old first chain on the path that adds a chain. *)
Definition evbuffer_prepend_to_first (b : evbuffer) (c : evbuffer_chain)
    (cs : list evbuffer_chain) (data : list Z) : option (Z * evbuffer) :=
  let datlen := zlen data in
  let add_chain (b : evbuffer) (c : evbuffer_chain) (rest : list Z) :=
    oc ← evbuffer_chain_new (zlen rest);
    match oc with
    | None => Some (-1, b)
    | Some tmp =>
      tmp' ← chain_store tmp (buffer_len tmp - zlen rest) rest
               (buffer_len tmp - zlen rest) (zlen rest);
      Some (0, evbuffer_invoke_callbacks (add_count
        (set_chains b (tmp' :: chains b) (last_with_datap b + 1) (total_len b + zlen rest))
        (misalign c)))
    end in
  if has_flag c EVBUFFER_IMMUTABLE then add_chain b c data else
  let c1 := if off c =? 0 then set_window c (buffer_len c) (off c) else c in
  if datlen <=? misalign c1 then
    c' ← chain_store c1 (misalign c1 - datlen) data (misalign c1 - datlen) (off c1 + datlen);
    Some (0, evbuffer_invoke_callbacks (add_count
      (set_chains b (c' :: cs) (last_with_datap b) (total_len b + datlen)) datlen))
  else if negb (misalign c1 =? 0) then
    let k := misalign c1 in
    c' ← chain_store c1 0 (zdrop (datlen - k) data) 0 (off c1 + k);
    let b1 := add_count (set_chains b (c' :: cs) (last_with_datap b) (total_len b + k)) k in
    add_chain b1 c' (ztake (datlen - k) data)
  else add_chain (set_chains b (c1 :: cs) (last_with_datap b) (total_len b)) c1 data.

Definition evbuffer_prepend (b : evbuffer) (data : list Z) : option (Z * evbuffer) :=
  if freeze_start b then Some (-1, b) else
  match chains b with
  | c :: cs => evbuffer_prepend_to_first b c cs data
  | [] =>
    oc ← evbuffer_chain_new (zlen data);
    match oc with
    | None => Some (-1, b)
    | Some c =>
      b1 ← evbuffer_chain_insert b c;
      match chains b1 with
      | c0 :: cs => evbuffer_prepend_to_first b1 c0 cs data
      | [] => None
      end
    end
  end.

(** [evbuffer_add_reference]: the caller's memory becomes a read-only chain. *)
Definition sizeof_chain_reference : Z := 2 * (size_bits / 8).

Definition evbuffer_add_reference (b : evbuffer) (data : list Z) : option (Z * evbuffer) :=
  oc ← evbuffer_chain_new sizeof_chain_reference;
  match oc with
  | None => Some (-1, b)
  | Some c =>
    let c' := {| buffer_len := zlen data; misalign := misalign c; off := zlen data;
                 flags := Z.lor (flags c) (Z.lor EVBUFFER_REFERENCE EVBUFFER_IMMUTABLE);
                 buffer := data |} in
    if freeze_end b then Some (-1, b) else
    b1 ← evbuffer_chain_insert b c';
    Some (0, evbuffer_invoke_callbacks (add_count b1 (zlen data)))
  end.

(** ** Removing data *)

(** The loop of [evbuffer_drain], at the chain with original index [i]; it
    returns the remaining chains, the index it stopped at, the bytes still to
    drop and the data pointer, all in terms of the original indices. *)
Fixpoint drain_loop (cs : list evbuffer_chain) (i : nat) (remaining : Z) (lwd : nat)
  : option (list evbuffer_chain * nat * Z * nat) :=
  match cs with
  | [] => None
  | c :: cs' =>
    if off c <=? remaining then
      let remaining := remaining - off c in
      let lwd := if (i =? lwd)%nat then 0%nat else lwd in
      let lwd := if (S i =? lwd)%nat then 0%nat else lwd in
      if CHAIN_PINNED_R c then
        if remaining =? 0
        then Some (set_window c (misalign c + off c) 0 :: cs', i, remaining, lwd)
        else None
      else drain_loop cs' (S i) remaining lwd
    else Some (cs, i, remaining, lwd)
  end.

Definition evbuffer_drain (b : evbuffer) (len : Z) : option (Z * evbuffer) :=
  let old_len := total_len b in
  if old_len =? 0 then Some (0, b) else
  if freeze_start b then Some (-1, b) else
  if (old_len <=? len) && negb (HAS_PINNED_R b) then
    Some (0, evbuffer_invoke_callbacks (del_count (ZERO_CHAIN b) old_len))
  else
    let len := if old_len <=? len then old_len else len in
    '(cs, i, remaining, lwd) ← drain_loop (chains b) 0 len (last_with_datap b);
    let cs' := match cs with
               | c :: r => set_window c (misalign c + remaining) (off c - remaining) :: r
               | [] => []
               end in
    let lwd' := if (lwd =? 0)%nat then 0%nat else (lwd - i)%nat in
    Some (0, evbuffer_invoke_callbacks (del_count
      (set_chains b cs' lwd' (total_len b - len)) len)).

(** The loop of [evbuffer_copyout]: [None] when it runs past the last chain. *)
Fixpoint copyout_loop (cs : list evbuffer_chain) (datlen : Z) : option (list Z) :=
  if datlen =? 0 then Some [] else
  match cs with
  | [] => None
  | c :: cs' =>
    if off c <=? datlen then
      d ← mem_read (buffer c) (misalign c) (off c);
      r ← copyout_loop cs' (datlen - off c);
      Some (d ++ r)
    else mem_read (buffer c) (misalign c) datlen
  end.

(** The result is the count, or -1, and the bytes written to [data_out]. *)
Definition evbuffer_copyout (b : evbuffer) (datlen : Z) : option (Z * list Z) :=
  let datlen := if total_len b <=? datlen then total_len b else datlen in
  if datlen =? 0 then Some (0, []) else
  if freeze_start b then Some (-1, []) else
  d ← copyout_loop (chains b) datlen;
  Some (datlen, d).

Definition evbuffer_remove (b : evbuffer) (datlen : Z) : option (Z * list Z * evbuffer) :=
  '(n, d) ← evbuffer_copyout b datlen;
  if 0 <? n then
    '(r, b') ← evbuffer_drain b n;
    Some (swrap 32 (if r <? 0 then -1 else n), d, b')
  else Some (swrap 32 n, d, b).

(** ** Linearising *)

(** The check that no chain to be copied is pinned; [false] is [goto done]. *)
Fixpoint pullup_unpinned (cs : list evbuffer_chain) (remaining : Z) : bool :=
  match cs with
  | [] => true
  | c :: cs' =>
    if CHAIN_PINNED c then false
    else if remaining <=? off c then true
    else pullup_unpinned cs' (remaining - off c)
  end.

(** The copying loop of [evbuffer_pullup], at the chain with original index
    [i].  It accumulates the bytes copied, and the two flags; [lwdata] is the
    index of the last chain with data (if it is one of the old chains) and
    [lwd] the data pointer. *)
Fixpoint pullup_loop (cs : list evbuffer_chain) (i : nat) (size : Z) (acc : list Z)
    (lwdata : option nat) (lwd : nat) (rd rdp : bool)
  : option (list evbuffer_chain * nat * list Z * Z * bool * bool) :=
  match cs with
  | [] => Some ([], i, acc, size, rd, rdp)
  | c :: cs' =>
    if off c <=? size then
      d ← mem_read (buffer c) (misalign c) (off c);
      pullup_loop cs' (S i) (size - off c) (acc ++ d) lwdata lwd
        (rd || bool_decide (lwdata = Some i)) (rdp || (S i =? lwd)%nat)
    else Some (cs, i, acc, size, rd, rdp)
  end.

(** The end of [evbuffer_pullup]: the loop from index [i] over [cs], with the
    destination [tmp], whose data the copied bytes extend to [size0] bytes. *)
Definition pullup_finish (b : evbuffer) (tmp : evbuffer_chain) (cs : list evbuffer_chain)
    (i : nat) (size size0 : Z) (lwdata : option nat)
  : option (option (list Z) * evbuffer) :=
  let lwd := last_with_datap b in
  '(cs1, j, acc, rem, rd, rdp) ← pullup_loop cs i size [] lwdata lwd false false;
  '(copied, tail) ← (match cs1 with
                     | c :: r =>
                       d ← mem_read (buffer c) (misalign c) rem;
                       Some (acc ++ d, set_window c (misalign c + rem) (off c - rem) :: r)
                     | [] => Some (acc, [])
                     end);
  tmp' ← chain_store tmp (misalign tmp + off tmp) copied (misalign tmp) size0;
  let cs' := tmp' :: tail in
  let lwd' :=
    if (rd : bool) then 0%nat
    else if (rdp : bool) then
      match tail with
      | c :: _ => if negb (off c =? 0) then 1%nat else 0%nat
      | [] => 0%nat
      end
    else if (lwd =? 0)%nat then 0%nat else (lwd - j + 1)%nat in
  Some (Some (chain_data tmp'), set_chains b cs' lwd' (total_len b)).

(** The result is NULL or the bytes the returned pointer gives access to. *)
Definition evbuffer_pullup (b : evbuffer) (size : Z) : option (option (list Z) * evbuffer) :=
  let size := if size <? 0 then total_len b else size in
  if (size =? 0) || (total_len b <? size) then Some (None, b) else
  match chains b with
  | [] => None
  | c :: cs =>
    if size <=? off c then Some (Some (chain_data c), b) else
    if negb (pullup_unpinned cs (size - off c)) then Some (None, b) else
    let lwdata := if (last_with_datap b =? 0)%nat then None else Some (last_with_datap b) in
    if CHAIN_PINNED c then
      if CHAIN_SPACE_LEN c <? size - off c then Some (None, b)
      else pullup_finish b c cs 1 (size - off c) size lwdata
    else if size <=? buffer_len c - misalign c then
      pullup_finish b c cs 1 (size - off c) size lwdata
    else
      oc ← evbuffer_chain_new size;
      match oc with
      | None => Some (None, b)
      | Some tmp => pullup_finish b tmp (c :: cs) 0 size size lwdata
      end
  end.

(** ** Moving data between buffers *)

(** The source without its read-pinned chains, which are the third result;
    [None] inside is the failed allocation. *)
Definition PRESERVE_PINNED (src : evbuffer)
  : option (option (evbuffer * list evbuffer_chain)) :=
  if negb (HAS_PINNED_R src) then Some (Some (src, [])) else
  let lwd := last_with_datap src in
  c0 ← chains src !! lwd;
  let k := if CHAIN_PINNED_R c0 then lwd else S lwd in
  c ← chains src !! k;
  if negb (CHAIN_PINNED_R c) then None else
  if negb (off c =? 0) then
    if negb (k =? lwd)%nat then None else
    oc ← evbuffer_chain_new (off c);
    match oc with
    | None => Some None
    | Some tmp =>
      d ← mem_read (buffer c) (misalign c) (off c);
      tmp' ← chain_store tmp 0 d (misalign tmp) (off c);
      Some (Some (set_chains src (take k (chains src) ++ [tmp']) lwd (total_len src),
                  set_window c (misalign c + off c) 0 :: drop (S k) (chains src)))
    end
  else
    Some (Some (set_chains src (take k (chains src)) lwd (total_len src),
                drop k (chains src))).

Definition RESTORE_PINNED (src : evbuffer) (pinned : list evbuffer_chain) : evbuffer :=
  match pinned with
  | [] => ZERO_CHAIN src
  | _ :: _ => set_chains src pinned 0 0
  end.

Definition COPY_CHAIN (dst src : evbuffer) : evbuffer :=
  set_chains dst (chains src) (last_with_datap src) (total_len src).

Definition APPEND_CHAIN (dst src : evbuffer) : evbuffer :=
  set_chains dst (chains dst ++ chains src) (length (chains dst) + last_with_datap src)
    (total_len dst + total_len src).

Definition PREPEND_CHAIN (dst src : evbuffer) : evbuffer :=
  set_chains dst (chains src ++ chains dst)
    (length (chains src) + last_with_datap dst) (total_len dst + total_len src).

(** [same] says that both arguments are the same buffer. *)
Definition move_buffer (frozen : bool) (join : evbuffer -> evbuffer -> evbuffer)
    (same : bool) (outbuf inbuf : evbuffer) : option (Z * evbuffer * evbuffer) :=
  let in_total_len := total_len inbuf in
  if (in_total_len =? 0) || same then Some (0, outbuf, inbuf) else
  if frozen || freeze_start inbuf then Some (-1, outbuf, inbuf) else
  r ← PRESERVE_PINNED inbuf;
  match r with
  | None => Some (-1, outbuf, inbuf)
  | Some (src, pinned) =>
    let out1 := if total_len outbuf =? 0 then COPY_CHAIN outbuf src else join outbuf src in
    let in1 := RESTORE_PINNED src pinned in
    Some (0, evbuffer_invoke_callbacks (add_count out1 in_total_len),
             evbuffer_invoke_callbacks (del_count in1 in_total_len))
  end.

Definition evbuffer_add_buffer (same : bool) (outbuf inbuf : evbuffer)
  : option (Z * evbuffer * evbuffer) :=
  move_buffer (freeze_end outbuf) APPEND_CHAIN same outbuf inbuf.

Definition evbuffer_prepend_buffer (same : bool) (outbuf inbuf : evbuffer)
  : option (Z * evbuffer * evbuffer) :=
  move_buffer (freeze_start outbuf) PREPEND_CHAIN same outbuf inbuf.

(** The loop of [evbuffer_remove_buffer], at the chain with original index
    [i]: the chains taken, the chains left, the index it stopped at, the bytes
    still wanted, the bytes taken and the data pointer. *)
Fixpoint remove_loop (cs : list evbuffer_chain) (i : nat) (datlen nread : Z) (lwd : nat)
  : option (list evbuffer_chain * list evbuffer_chain * nat * Z * Z * nat) :=
  match cs with
  | [] => None
  | c :: cs' =>
    if off c <=? datlen then
      if (i =? lwd)%nat then None else
      let lwd' := if (S i =? lwd)%nat then 0%nat else lwd in
      '(taken, rest, j, d, nr, l) ←
        remove_loop cs' (S i) (datlen - off c) (nread + off c) lwd';
      Some (c :: taken, rest, j, d, nr, l)
    else Some ([], cs, i, datlen, nread, lwd)
  end.

Definition evbuffer_remove_buffer (same : bool) (src dst : evbuffer) (datlen : Z)
  : option (Z * evbuffer * evbuffer) :=
  if (datlen =? 0) || same then Some (0, src, dst) else
  if freeze_end dst || freeze_start src then Some (-1, src, dst) else
  if total_len src <=? datlen then
    '(_, dst', src') ← evbuffer_add_buffer same dst src;
    Some (swrap 32 (total_len src), src', dst')
  else
    '(taken, rest, j, d, nread, lwd) ←
      remove_loop (chains src) 0 datlen 0 (last_with_datap src);
    dst1 ← (if negb (nread =? 0) then
              kept ← evbuffer_free_trailing_empty_chains dst;
              Some (add_count (advance_last_with_data
                (set_chains dst (kept ++ taken) (last_with_datap dst) (total_len dst)))
                nread)
            else Some dst);
    let dst2 := set_chains dst1 (chains dst1) (last_with_datap dst1) (total_len dst1 + nread) in
    match rest with
    | [] => None
    | c :: r =>
      bytes ← mem_read (buffer c) (misalign c) d;
      '(_, dst3) ← evbuffer_add dst2 bytes;
      let nread' := nread + d in
      let src1 := del_count
        (set_chains src (set_window c (misalign c + d) (off c - d) :: r)
           (if (lwd =? 0)%nat then 0%nat else (lwd - j)%nat) (total_len src - nread'))
        nread' in
      let fin b := if negb (nread' =? 0) then evbuffer_invoke_callbacks b else b in
      Some (swrap 32 nread', fin src1, fin dst3)
    end.
End ops.
