(* ===== verification/EvbufferSpec.v ===== *)
(** The evbuffer as a byte queue: the invariant of its chain list, the bytes it
    holds, and what every operation of [Evbuffer] does to them. *)

From S2P Require Import Prelude EvChain Evbuffer.

(** ** The abstraction: the bytes of a chain list *)

Definition data_of (cs : list evbuffer_chain) : list Z := concat (map chain_data cs).

Definition contents (b : evbuffer) : list Z := data_of (chains b).

Lemma data_of_app cs ds : data_of (cs ++ ds) = data_of cs ++ data_of ds.
Proof. unfold data_of. by rewrite map_app, concat_app. Qed.

Lemma data_of_cons c cs : data_of (c :: cs) = chain_data c ++ data_of cs.
Proof. done. Qed.

Lemma data_of_single c : data_of [c] = chain_data c.
Proof. unfold data_of. cbn. apply app_nil_r. Qed.

Section spec.
Context {A : Arch} {M : Allocator}.

(** ** The invariant *)

(** A chain that operations may copy from and free, no larger than half the
    address space. *)
Record good_chain (c : evbuffer_chain) : Prop := {
  gc_ok :> chain_ok c;
  gc_unpinned : CHAIN_PINNED c = false;
  gc_room : buffer_len c + EVBUFFER_CHAIN_SIZE <= 2 ^ (size_bits - 1) }.

(** No chain is empty, except a single writable one. *)
Definition full_or_single (cs : list evbuffer_chain) : Prop :=
  Forall (fun c => 0 < off c) cs \/
  exists c, cs = [c] /\ off c = 0 /\ has_flag c EVBUFFER_IMMUTABLE = false /\ 0 < buffer_len c.

(** The buffer between operations, when no space has been reserved at its
    end: the length is that of the data, and the last chain is the last one
    with data. *)
Record packed (b : evbuffer) : Prop := {
  pk_chains : Forall good_chain (chains b);
  pk_total : total_len b = zlen (contents b);
  pk_lwd : last_with_datap b = (length (chains b) - 1)%nat;
  pk_shape : full_or_single (chains b) }.

(** The weaker invariant that libevent's own consistency check asserts:
    [last_with_datap] points to a chain with data, or to the first chain of
    a buffer without data, and every chain after it is empty. *)
Record valid (b : evbuffer) : Prop := {
  vd_chains : Forall chain_ok (chains b);
  vd_total : total_len b = zlen (contents b);
  vd_lwd : match chains b with
           | [] => last_with_datap b = 0%nat
           | _ :: _ => exists c, chains b !! last_with_datap b = Some c /\
               (off c = 0 -> last_with_datap b = 0%nat /\ total_len b = 0)
           end;
  vd_tail : Forall (fun c => off c = 0) (drop (S (last_with_datap b)) (chains b)) }.

Lemma packed_new : packed evbuffer_new.
Proof. split; cbn; try done. left. constructor. Qed.

(** ** Frames *)

Lemma run_callbacks_frame b d :
  let b' := evbuffer_run_callbacks b d in
  chains b' = chains b /\ last_with_datap b' = last_with_datap b /\
  total_len b' = total_len b /\ freeze_start b' = freeze_start b /\
  freeze_end b' = freeze_end b /\ callbacks b' = callbacks b.
Proof.
  unfold evbuffer_run_callbacks, cb_mask.
  destruct d; [|destruct (deferred_cbs b)];
    (destruct (callbacks b) eqn:E; [by rewrite <- E|]);
    (destruct (_ && _); [by rewrite <- E|]); cbn; by rewrite ?E.
Qed.

Lemma invoke_frame b :
  let b' := evbuffer_invoke_callbacks b in
  chains b' = chains b /\ last_with_datap b' = last_with_datap b /\
  total_len b' = total_len b /\ freeze_start b' = freeze_start b /\
  freeze_end b' = freeze_end b /\ callbacks b' = callbacks b.
Proof.
  unfold evbuffer_invoke_callbacks. destruct (callbacks b) eqn:E; [by rewrite <- E|].
  destruct (deferred_cbs b); [destruct (deferred_queued b); [by rewrite <- E|]|].
  - rewrite <- E.
    destruct (run_callbacks_frame (set_cbs b true (refcnt b + 1) (callbacks b) (cb_calls b)) false)
      as (-> & -> & -> & -> & -> & ->). done.
  - rewrite <- E. apply run_callbacks_frame.
Qed.

Lemma invoke_chains b : chains (evbuffer_invoke_callbacks b) = chains b.
Proof. apply invoke_frame. Qed.
Lemma invoke_contents b : contents (evbuffer_invoke_callbacks b) = contents b.
Proof. unfold contents. by rewrite invoke_chains. Qed.

Lemma packed_invoke b : packed b -> packed (evbuffer_invoke_callbacks b).
Proof.
  intros [H1 H2 H3 H4]. destruct (invoke_frame b) as (Hc & Hl & Ht & _).
  split; unfold contents; rewrite ?Hc, ?Hl, ?Ht; done.
Qed.

(** ** Facts about packed chain lists *)

Lemma find_victim_full cs i : Forall (fun c => 0 < off c) cs -> find_victim cs i = None.
Proof.
  intros H. revert i. induction H as [|c cs Hc _ IH]; intros i; [done|].
  destruct i; cbn; [|by rewrite IH].
  destruct (Z.eqb_spec (off c) 0); [lia|]. cbn. by rewrite IH.
Qed.

Lemma good_sum_off cs : Forall good_chain cs -> Forall (fun c => 0 < off c) cs ->
  data_of cs = [] -> cs = [].
Proof.
  intros Hg Hf. destruct cs as [|c cs]; [done|]. rewrite data_of_cons. intros He.
  apply app_eq_nil in He as [He _]. apply Forall_cons_split in Hg as [Hg _], Hf as [Hf _].
  pose proof (chain_data_len c Hg) as Hl. rewrite He in Hl. change (zlen []) with 0 in Hl. lia.
Qed.

(** Appending a non-empty chain to a packed buffer. *)
Lemma insert_packed b c :
  packed b -> good_chain c -> 0 < off c ->
  exists cs lwd, evbuffer_chain_insert b c = Some (set_chains b cs lwd (total_len b + off c)) /\
    packed (set_chains b cs lwd (total_len b + off c)) /\
    data_of cs = contents b ++ chain_data c.
Proof.
  intros [Hg Ht Hl Hs] Hc Ho.
  assert (Hlen := chain_data_len c Hc).
  unfold evbuffer_chain_insert. unfold contents in Ht |- *. rewrite Hl.
  destruct Hs as [Hf | (c0 & Hcs & Ho0 & Him & _)].
  - destruct (chains b !! (length (chains b) - 1)%nat) as [l|] eqn:Hlast.
    + rewrite find_victim_full by done.
      rewrite (proj2 (Z.eqb_neq (off c) 0)) by lia. cbn [negb].
      do 2 eexists. split; [done|].
      assert (Hd : data_of (chains b ++ [c]) = data_of (chains b) ++ chain_data c)
        by (by rewrite data_of_app, data_of_single).
      split; [|done]. split; cbn [chains last_with_datap total_len set_chains]; unfold contents; cbn [chains set_chains].
      * apply Forall_app. by split; [|constructor].
      * rewrite Hd, zlen_app. lia.
      * rewrite length_app. cbn. lia.
      * left. apply Forall_app. by split; [|constructor].
    + apply lookup_ge_None in Hlast. destruct (chains b) as [|c1 cs] eqn:E; [|cbn in Hlast; lia].
      cbn [length Nat.sub]. do 2 eexists. split; [done|]. split; [|by rewrite data_of_single].
      split; cbn [chains last_with_datap total_len set_chains]; unfold contents; cbn [chains set_chains].
      * by constructor.
      * rewrite data_of_single. change (zlen (data_of [])) with 0 in Ht. lia.
      * done.
      * left. by constructor.
  - rewrite Hcs in *. apply Forall_cons_split in Hg as [Hg0 _].
    assert (Hd0 : data_of [c0] = []).
    { apply zlen_nil_iff. rewrite data_of_single, chain_data_len; [done | apply Hg0]. }
    rewrite Hd0 in Ht |- *. change (zlen []) with 0 in Ht.
    cbn [length Nat.sub lookup list_lookup find_victim].
    rewrite Ho0, (gc_unpinned _ Hg0). cbn [Z.eqb negb orb drop evbuffer_chains_all_empty forallb].
    rewrite Ho0. cbn [Z.eqb andb take app].
    do 2 eexists. split; [done|]. rewrite data_of_single. split; [|done].
    split; cbn [chains last_with_datap total_len set_chains]; unfold contents; cbn [chains set_chains].
    + by constructor.
    + rewrite data_of_single. lia.
    + done.
    + left. by constructor.
Qed.

(** ** [evbuffer_add] *)

(** [b'] is [b] with [d] appended, one notification of [zlen d] new bytes
    having been given to the callback machinery. *)
Definition appended (b b' : evbuffer) (d : list Z) : Prop :=
  exists cs lwd,
    b' = evbuffer_invoke_callbacks
           (add_count (set_chains b cs lwd (total_len b + zlen d)) (zlen d)) /\
    packed (set_chains b cs lwd (total_len b + zlen d)) /\
    data_of cs = contents b ++ d.

Definition small (k : Z) : Prop := k + EVBUFFER_CHAIN_SIZE <= 2 ^ (size_bits - 1).

Lemma half_space : 8192 <= 2 ^ (size_bits - 1).
Proof. destruct size_bits_cases as [-> | ->]; lia. Qed.

Lemma full_or_single_last cs c c' :
  full_or_single (cs ++ [c]) -> off c <= off c' ->
  (off c' = 0 -> has_flag c' EVBUFFER_IMMUTABLE = has_flag c EVBUFFER_IMMUTABLE /\
                 buffer_len c' = buffer_len c) ->
  full_or_single (cs ++ [c']).
Proof.
  intros [Hf | (c0 & Hcs & Ho & Hi & Hb)] Hoff Hsame.
  - left. apply Forall_app_split in Hf as [H1 H2]. apply Forall_cons_split in H2 as [H2 _].
    apply Forall_app. split; [done|]. constructor; [lia | done].
  - destruct cs as [|? [|? ?]]; try discriminate. injection Hcs as ->.
    destruct (decide (off c' = 0)) as [H0|H0].
    + right. exists c'. destruct (Hsame H0) as [-> ->]. done.
    + left. constructor; [lia | done].
Qed.

(** Replacing the last chain by one with [d] appended. *)
Lemma packed_update_last b cs c c' d :
  packed b -> chains b = cs ++ [c] -> good_chain c' ->
  chain_data c' = chain_data c ++ d -> off c' = off c + zlen d ->
  has_flag c' EVBUFFER_IMMUTABLE = has_flag c EVBUFFER_IMMUTABLE ->
  buffer_len c' = buffer_len c ->
  packed (set_chains b (<[length cs:=c']> (chains b)) (last_with_datap b) (total_len b + zlen d)) /\
  data_of (<[length cs:=c']> (chains b)) = contents b ++ d.
Proof.
  intros [Hg Ht Hl Hs] Hcs Hc' Hd Ho Hi Hb. unfold contents in *. rewrite Hcs in *.
  rewrite insert_app_r_alt by lia. rewrite Nat.sub_diag. cbn [list_insert insert].
  assert (Hdd : data_of (cs ++ [c']) = data_of (cs ++ [c]) ++ d).
  { by rewrite !data_of_app, !data_of_single, Hd, app_assoc. }
  split; [|done].
  split; cbn [chains last_with_datap total_len set_chains]; unfold contents;
    cbn [chains set_chains].
  - apply Forall_app_split in Hg as [Hg _]. apply Forall_app. by split; [|constructor].
  - rewrite Hdd, zlen_app. lia.
  - rewrite length_app in *. cbn in *. lia.
  - eapply full_or_single_last; [done | pose proof (zlen_nonneg d); lia | done].
Qed.

Lemma set_counts_compose b cs lwd tl k1 k2 cs2 lwd2 tl2 :
  add_count (set_chains (add_count (set_chains b cs lwd tl) k1) cs2 lwd2 tl2) k2 =
  add_count (set_chains b cs2 lwd2 tl2) (k1 + k2).
Proof. unfold add_count, set_counts, set_chains. cbn. f_equal. lia. Qed.

Lemma good_same c c' :
  good_chain c -> chain_ok c' -> flags c' = flags c -> buffer_len c' = buffer_len c ->
  good_chain c' /\ has_flag c' EVBUFFER_IMMUTABLE = has_flag c EVBUFFER_IMMUTABLE.
Proof.
  intros [Ho Hp Hr] Hok Hf Hb. split; [|by unfold has_flag; rewrite Hf].
  split; [done | | by rewrite Hb]. unfold CHAIN_PINNED, has_flag in *. by rewrite Hf.
Qed.

Lemma fresh_good c size : fresh_chain c size ->
  buffer_len c + EVBUFFER_CHAIN_SIZE <= 2 ^ (size_bits - 1) -> good_chain c.
Proof.
  intros (Hok & Ho & Hm & Hf & _) Hr. split; [done | | done].
  unfold CHAIN_PINNED, has_flag. by rewrite Hf, Z.land_0_l.
Qed.

(** A fresh chain filled with [d] at position [m]. *)
Lemma fresh_store c size d m :
  fresh_chain c size -> buffer_len c + EVBUFFER_CHAIN_SIZE <= 2 ^ (size_bits - 1) ->
  0 <= m -> m + zlen d <= buffer_len c ->
  exists c', chain_store c m d m (zlen d) = Some c' /\ good_chain c' /\
    chain_data c' = d /\ off c' = zlen d /\ flags c' = 0 /\ misalign c' = m /\
    buffer_len c' = buffer_len c.
Proof.
  intros Hfr Hr Hm Hd. destruct (Hfr) as (Hok & Ho & Hmis & Hf & Hsz & Hpos).
  pose proof (zlen_nonneg d). set (c0 := set_window c m 0).
  assert (Hc0 : chain_ok c0) by (destruct Hok; split; cbn; lia).
  destruct (chain_append_spec c0 d Hc0) as (c' & Ha & Hok' & Hd' & Ho' & Hf' & Hm' & Hb').
  { cbn. lia. }
  exists c'. unfold chain_append in Ha. cbn in Ha. rewrite Z.add_0_r in Ha.
  split; [exact Ha|].
  assert (Hcd : chain_data c0 = []) by (apply zlen_nil_iff; by rewrite chain_data_len).
  rewrite Hcd in Hd'. cbn in Hf', Hm', Ho', Hb'.
  split; [|repeat split; try done; congruence].
  split; [done | | by rewrite Hb'].
  unfold CHAIN_PINNED, has_flag. by rewrite Hf', Hf, Z.land_0_l.
Qed.

Lemma chain_new_small k : 0 <= k -> small k ->
  exists oc, evbuffer_chain_new k = Some oc /\
    match oc with
    | None => exists n, mm_malloc n = None
    | Some c => fresh_chain c k /\ buffer_len c + EVBUFFER_CHAIN_SIZE <= 2 ^ (size_bits - 1)
    end.
Proof.
  intros Hk Hs. destruct (chain_new_cases k Hk Hs) as ([c|] & H1 & H2);
    [exists (Some c) | exists None]; split; try done. destruct H2 as (? & _ & ?). done.
Qed.
(** Writing [d] after the data of the last chain [c] is an append. *)
Lemma add_in_place b cs c c' d :
  packed b -> chains b = cs ++ [c] -> good_chain c -> chain_ok c' ->
  chain_data c' = chain_data c ++ d -> off c' = off c + zlen d ->
  flags c' = flags c -> buffer_len c' = buffer_len c ->
  appended b (evbuffer_invoke_callbacks (add_count (set_chains b (<[length cs:=c']> (chains b))
    (last_with_datap b) (total_len b + zlen d)) (zlen d))) d.
Proof.
  intros Hp Hcs Hg Hok Hd Hoff Hfl Hbl. destruct (good_same c c' Hg Hok Hfl Hbl) as [Hg' Hi'].
  destruct (packed_update_last b cs c c' d) as [Hp' Hd']; try done.
  by exists (<[length cs:=c']> (chains b)), (last_with_datap b).
Qed.

Lemma packed_last_good b cs c : packed b -> chains b = cs ++ [c] -> good_chain c.
Proof.
  intros Hp Hcs. pose proof (pk_chains _ Hp) as Hg. rewrite Hcs in Hg.
  apply Forall_app_split in Hg as [_ Hg]. by apply Forall_cons_split in Hg as [Hg _].
Qed.

(** The size chosen for an additional chain holds the data and can be
    allocated. *)
Definition next_alloc (c : evbuffer_chain) (datlen : Z) : Z :=
  let to0 := if buffer_len c <=? EVBUFFER_CHAIN_MAX_AUTO_SIZE / 2
             then Z.shiftl (buffer_len c) 1 else buffer_len c in
  if to0 <? datlen then datlen else to0.

Lemma next_alloc_ok c k : good_chain c -> 0 <= k -> small k ->
  k <= next_alloc c k /\ 0 <= next_alloc c k /\ small (next_alloc c k).
Proof.
  intros [[Hm Ho Hf Hb] _ Hr] Hk Hsm. pose proof half_space. pose proof chain_size_lt_min.
  assert (MIN_BUFFER_SIZE <= 1024) by (destruct arch_cases as [(_&_&->)|(_&_&->)]; lia).
  unfold next_alloc, small in *. cbn zeta.
  destruct (Z.leb_spec (buffer_len c) (EVBUFFER_CHAIN_MAX_AUTO_SIZE / 2)) as [Hle|Hle].
  - change (EVBUFFER_CHAIN_MAX_AUTO_SIZE / 2) with 2048 in Hle.
    rewrite Z.shiftl_mul_pow2 by lia. destruct (Z.ltb_spec (buffer_len c * 2 ^ 1) k); lia.
  - destruct (Z.ltb_spec (buffer_len c) k); lia.
Qed.

(** The part that still fits the last chain, before a chain is added. *)
Lemma add_part b cs c d k :
  packed b -> chains b = cs ++ [c] -> 0 <= k <= zlen d ->
  misalign c + off c + k <= buffer_len c ->
  exists b1, (if negb (k =? 0) then
      c' ← chain_append c (ztake k d);
      Some (add_count (set_chains b (<[length cs:=c']> (chains b)) (last_with_datap b)
              (total_len b + k)) k) else Some b) = Some b1 /\
    packed b1 /\ contents b1 = contents b ++ ztake k d /\ total_len b1 = total_len b + k /\
    forall cs2 lwd2 tl, add_count (set_chains b1 cs2 lwd2 tl) (zlen d - k) =
                        add_count (set_chains b cs2 lwd2 tl) (zlen d).
Proof.
  intros Hp Hcs Hk Hfit. pose proof (packed_last_good _ _ _ Hp Hcs) as Hg.
  destruct (Z.eqb_spec k 0) as [H0|H0]; cbn [negb].
  - exists b. split; [done|]. split; [done|]. rewrite ztake_0, app_nil_r by lia.
    split; [done|]. split; [lia|]. intros. f_equal. lia.
  - assert (Hkl : zlen (ztake k d) = k) by (rewrite zlen_ztake; lia).
    destruct (chain_append_spec c (ztake k d) Hg) as (c' & -> & Hok & Hd & Hoff & Hfl & _ & Hbl);
      [lia|].
    destruct (good_same c c' Hg Hok Hfl Hbl) as [Hg' Hi'].
    destruct (packed_update_last b cs c c' (ztake k d)) as [Hp' Hd']; try done.
    rewrite Hkl in Hp'. cbn [mbind option_bind]. eexists. split; [done|].
    split; [destruct Hp'; by split|]. split; [exact Hd'|]. split; [done|].
    intros. rewrite set_counts_compose. f_equal. lia.
Qed.

(** The path of [evbuffer_add] that allocates a chain: [k] bytes still fit
    the last one. *)
Lemma add_new_chain b cs c d k :
  packed b -> chains b = cs ++ [c] -> small (zlen d) -> 0 <= k < zlen d ->
  misalign c + off c + k <= buffer_len c ->
  exists r b', (oc ← evbuffer_chain_new (next_alloc c (zlen d));
    match oc with
    | None => Some (-1, b)
    | Some tmp =>
      b1 ← (if negb (k =? 0) then
              c' ← chain_append c (ztake k d);
              Some (add_count (set_chains b (<[length cs:=c']> (chains b))
                      (last_with_datap b) (total_len b + k)) k)
            else Some b);
      tmp' ← chain_store tmp 0 (zdrop k d) 0 (zlen (zdrop k d));
      b2 ← evbuffer_chain_insert b1 tmp';
      Some (0, evbuffer_invoke_callbacks (add_count b2 (zlen (zdrop k d))))
    end) = Some (r, b') /\
    (r = 0 /\ appended b b' d \/ r = -1 /\ b' = b /\ exists n, mm_malloc n = None).
Proof.
  intros Hp Hcs Hsm Hk Hfit.
  destruct (next_alloc_ok c (zlen d) (packed_last_good _ _ _ Hp Hcs)) as (Hto & Hto0 & Hts);
    [lia | done |].
  destruct (chain_new_small _ Hto0 Hts) as ([tmp|] & -> & Hnew); cbn [mbind option_bind].
  2: { do 2 eexists. split; [done|]. right. done. }
  destruct Hnew as [Hfr Hroom].
  assert (Hrl : zlen (zdrop k d) = zlen d - k) by (rewrite zlen_zdrop; lia).
  destruct (fresh_store tmp _ (zdrop k d) 0 Hfr Hroom) as (tmp' & Hst & Hgt & Hdt & Hot & _);
    [lia | destruct Hfr as (_&_&_&_&?&_); lia |].
  destruct (add_part b cs c d k Hp Hcs ltac:(lia) Hfit) as (b1 & -> & Hp1 & Hc1 & Ht1 & Hcnt).
  cbn [mbind option_bind]. rewrite Hst. cbn [mbind option_bind].
  destruct (insert_packed b1 tmp' Hp1 Hgt) as (cs2 & lwd2 & -> & Hp2 & Hd2); [lia|].
  cbn [mbind option_bind]. do 2 eexists. split; [done|]. left. split; [done|].
  assert (Htl : total_len b1 + off tmp' = total_len b + zlen d) by lia.
  exists cs2, lwd2. rewrite Hrl, Hcnt, Htl in *. split; [done|]. split.
  - destruct Hp2. by split.
  - rewrite Hd2, Hc1, Hdt, <- app_assoc. by rewrite ztake_zdrop.
Qed.

Lemma add_to_last_spec b cs c d :
  packed b -> chains b = cs ++ [c] -> small (zlen d) ->
  (d <> [] \/ has_flag c EVBUFFER_IMMUTABLE = false) ->
  exists r b', evbuffer_add_to_last b (length cs) c d = Some (r, b') /\
    (r = 0 /\ appended b b' d \/ r = -1 /\ b' = b /\ exists n, mm_malloc n = None).
Proof.
  intros Hp Hcs Hsm Hne. pose proof (zlen_nonneg d).
  assert (Hg := packed_last_good _ _ _ Hp Hcs). destruct (gc_ok _ Hg) as [Hm Ho Hf Hb].
  unfold evbuffer_add_to_last.
  set (writable := negb (has_flag c EVBUFFER_IMMUTABLE)).
  set (remain := if writable then _ else _).
  assert (Hrem : 0 <= remain /\ misalign c + off c + remain <= buffer_len c).
  { unfold remain. destruct writable; lia. }
  destruct (writable && (zlen d <=? remain)) eqn:Hfit.
  { bool_to_prop.
    destruct (chain_append_spec c d Hg) as (c' & -> & Hok & Hd & Hoff & Hfl & _ & Hbl); [lia|].
    do 2 eexists. split; [done|]. left. split; [done|]. by eapply add_in_place. }
  rewrite (gc_unpinned _ Hg). cbn [negb andb].
  destruct (writable && evbuffer_chain_should_realign c (zlen d)) eqn:Hre.
  { bool_to_prop. unfold evbuffer_chain_should_realign in *. bool_to_prop.
    destruct (chain_align_spec c Hg) as (c1 & -> & Hok1 & Hd1 & Hm1 & Ho1 & Hf1 & Hb1);
      [by unfold writable in *; apply negb_true_iff | apply Hg |].
    destruct (chain_append_spec c1 d Hok1) as (c' & Ha & Hok & Hd & Hoff & Hfl & _ & Hbl); [lia|].
    unfold chain_append in Ha. rewrite Hm1, Z.add_0_l in Ha.
    cbn [mbind option_bind]. rewrite Hm1, Ha. cbn [mbind option_bind].
    do 2 eexists. split; [done|]. left. split; [done|].
    eapply add_in_place; try done; try congruence; lia. }
  apply (add_new_chain b cs c d remain); try done; [|lia].
  unfold remain, writable in *. destruct (has_flag c EVBUFFER_IMMUTABLE); cbn [negb andb] in *.
  - destruct Hne as [Hne|]; [|done]. destruct d; [done|]. rewrite zlen_cons.
    pose proof (zlen_nonneg d). lia.
  - bool_to_prop. lia.
Qed.

(** The chain that an empty buffer is given first. *)
Lemma first_chain b c k :
  packed b -> chains b = [] -> fresh_chain c k ->
  buffer_len c + EVBUFFER_CHAIN_SIZE <= 2 ^ (size_bits - 1) ->
  evbuffer_chain_insert b c = Some (set_chains b [c] 0 (total_len b)) /\
  packed (set_chains b [c] 0 (total_len b)) /\ data_of [c] = [].
Proof.
  intros [Hg Ht Hl _] Hcs Hfr Hr. pose proof (fresh_good _ _ Hfr Hr) as Hgc.
  destruct Hfr as (Hok & Ho & Hm & Hf & _ & Hpos).
  assert (Hd : data_of [c] = []).
  { apply zlen_nil_iff. rewrite data_of_single. by rewrite chain_data_len. }
  unfold evbuffer_chain_insert. unfold contents in *. rewrite Hcs in *. cbn in Hl. rewrite Hl.
  cbn [lookup list_lookup]. rewrite Ho, Z.add_0_r. split; [done|]. split; [|done].
  split; cbn [chains last_with_datap total_len set_chains]; unfold contents; cbn [chains set_chains].
  - by constructor.
  - rewrite Hd. by rewrite Ht.
  - done.
  - right. exists c. repeat split; try done. unfold has_flag. by rewrite Hf, Z.land_0_l.
Qed.

Lemma set_chains_set_chains b cs lwd tl cs2 lwd2 tl2 :
  set_chains (set_chains b cs lwd tl) cs2 lwd2 tl2 = set_chains b cs2 lwd2 tl2.
Proof. done. Qed.

(** The functional contract of [evbuffer_add], in terms of the helper
    relation [appended]. *)
Lemma add_spec b d :
  packed b -> freeze_end b = false -> small (zlen d) ->
  (d <> [] \/ forall c, last (chains b) = Some c -> has_flag c EVBUFFER_IMMUTABLE = false) ->
  exists r b', evbuffer_add b d = Some (r, b') /\
    (r = 0 /\ appended b b' d \/
     r = -1 /\ packed b' /\ contents b' = contents b /\ exists n, mm_malloc n = None).
Proof.
  intros Hp Hfz Hsm Hne. unfold evbuffer_add. rewrite Hfz.
  destruct (last (chains b)) as [c|] eqn:Hlast.
  - apply last_Some in Hlast as [cs Hcs]. rewrite Hcs, length_app. cbn [length].
    replace (length cs + 1 - 1)%nat with (length cs) by lia.
    destruct (add_to_last_spec b cs c d Hp Hcs Hsm) as (r & b' & Hr & Hres);
      [destruct Hne; eauto|].
    exists r, b'. split; [done|]. destruct Hres as [?|(-> & -> & ?)]; [by left | by right].
  - apply last_None in Hlast.
    destruct (chain_new_small (zlen d)) as ([c|] & -> & Hnew); [apply zlen_nonneg | done | |];
      cbn [mbind option_bind].
    2: { do 2 eexists. split; [done|]. right. done. }
    destruct Hnew as [Hfr Hr].
    destruct (first_chain b c _ Hp Hlast Hfr Hr) as (-> & Hp1 & Hd1). cbn [mbind option_bind].
    destruct (add_to_last_spec (set_chains b [c] 0 (total_len b)) [] c d)
      as (r & b' & Hrun & Hres); try done.
    { right. destruct Hfr as (_&_&_&Hf&_). unfold has_flag. by rewrite Hf, Z.land_0_l. }
    exists r, b'. split; [exact Hrun|].
    assert (Hb0 : contents b = []) by (unfold contents; by rewrite Hlast).
    destruct Hres as [[-> (cs & lwd & -> & Hp2 & Hd2)] | (-> & -> & Hn)]; [left | right].
    + split; [done|]. exists cs, lwd. rewrite set_chains_set_chains in Hp2. split; [done|].
      split; [done|]. rewrite Hd2, Hb0. unfold contents. cbn [chains set_chains]. by rewrite Hd1.
    + split; [done|]. split; [done|]. split; [|done].
      rewrite Hb0. unfold contents. cbn [chains set_chains]. by rewrite Hd1.
Qed.

(** ** [evbuffer_prepend] *)

(** Putting a chain with [d] in front of a buffer without empty chains. *)
Lemma packed_cons b c0 d :
  packed b -> Forall (fun c => 0 < off c) (chains b) -> chains b <> [] ->
  good_chain c0 -> 0 < off c0 -> chain_data c0 = d ->
  packed (set_chains b (c0 :: chains b) (last_with_datap b + 1) (total_len b + off c0)) /\
  data_of (c0 :: chains b) = d ++ contents b.
Proof.
  intros [Hg Ht Hl Hs] Hf Hne Hg0 Ho Hd. pose proof (chain_data_len c0 Hg0) as Hlen.
  split; [|by rewrite data_of_cons, Hd].
  split; cbn [chains last_with_datap total_len set_chains]; unfold contents; cbn [chains set_chains].
  - by constructor.
  - rewrite data_of_cons, zlen_app. unfold contents in Ht. lia.
  - rewrite Hl. cbn [length]. destruct (chains b); [done|]. cbn [length]. lia.
  - left. by constructor.
Qed.

(** Replacing the first chain by one with [d] put before its data. *)
Lemma packed_update_first b c cs c' d :
  packed b -> chains b = c :: cs -> good_chain c' ->
  chain_data c' = d ++ chain_data c -> off c' = off c + zlen d ->
  (off c' = 0 -> has_flag c' EVBUFFER_IMMUTABLE = false /\ 0 < buffer_len c') ->
  packed (set_chains b (c' :: cs) (last_with_datap b) (total_len b + zlen d)) /\
  data_of (c' :: cs) = d ++ contents b.
Proof.
  intros [Hg Ht Hl Hs] Hcs Hg' Hd Ho Hemp. pose proof (zlen_nonneg d).
  assert (Hdd : data_of (c' :: cs) = d ++ contents b).
  { unfold contents. by rewrite Hcs, !data_of_cons, Hd, app_assoc. }
  split; [|done].
  split; cbn [chains last_with_datap total_len set_chains]; unfold contents; cbn [chains set_chains].
  - rewrite Hcs in Hg. apply Forall_cons_split in Hg as [_ Hg]. by constructor.
  - rewrite Hdd, zlen_app. lia.
  - rewrite Hl, Hcs. done.
  - rewrite Hcs in Hs. destruct Hs as [Hf | (c0 & [= -> ->] & Ho0 & Hi & Hb)].
    + left. apply Forall_cons_split in Hf as [Hf1 Hf2]. constructor; [lia | done].
    + destruct (decide (off c' = 0)) as [H0|H0].
      * right. exists c'. destruct (Hemp H0). done.
      * left. constructor; [lia | done].
Qed.

Definition prepended (b' : evbuffer) (b : evbuffer) (d : list Z) : Prop :=
  packed b' /\ contents b' = d ++ contents b /\
  freeze_start b' = freeze_start b /\ freeze_end b' = freeze_end b.

Lemma prepended_invoke b' b d k :
  packed b' -> data_of (chains b') = d ++ contents b ->
  freeze_start b' = freeze_start b -> freeze_end b' = freeze_end b ->
  prepended (evbuffer_invoke_callbacks (add_count b' k)) b d.
Proof.
  intros Hp Hd H1 H2. split; [apply packed_invoke; destruct Hp; by split|].
  split; [by rewrite invoke_contents|].
  destruct (invoke_frame (add_count b' k)) as (_&_&_&->&->&_). done.
Qed.

(** The failure of [evbuffer_prepend] may leave a tail of the data prepended. *)
Definition prepend_failed (b' b : evbuffer) (d : list Z) : Prop :=
  exists k, 0 <= k <= zlen d /\ prepended b' b (zdrop k d) /\ exists n, mm_malloc n = None.

(** The last part of [evbuffer_prepend]: a new first chain for [rest]. *)
Lemma prepend_chain b c rest :
  packed b -> Forall (fun c => 0 < off c) (chains b) -> chains b <> [] ->
  small (zlen rest) -> rest <> [] ->
  exists r b', (oc ← evbuffer_chain_new (zlen rest);
    match oc with
    | None => Some (-1, b)
    | Some tmp =>
      tmp' ← chain_store tmp (buffer_len tmp - zlen rest) rest
               (buffer_len tmp - zlen rest) (zlen rest);
      Some (0, evbuffer_invoke_callbacks (add_count
        (set_chains b (tmp' :: chains b) (last_with_datap b + 1) (total_len b + zlen rest))
        (misalign c)))
    end) = Some (r, b') /\
    (r = 0 /\ prepended b' b rest \/ r = -1 /\ b' = b /\ exists n, mm_malloc n = None).
Proof.
  intros Hp Hf Hne Hsm Hr. pose proof (zlen_nonneg rest).
  assert (0 < zlen rest) by (destruct rest; [done|]; rewrite zlen_cons; pose proof (zlen_nonneg rest); lia).
  destruct (chain_new_small (zlen rest)) as ([tmp|] & -> & Hnew); [done | done | |];
    cbn [mbind option_bind].
  2: { do 2 eexists. split; [done|]. by right. }
  destruct Hnew as [Hfr Hroom]. assert (zlen rest <= buffer_len tmp) by apply Hfr.
  destruct (fresh_store tmp _ rest (buffer_len tmp - zlen rest) Hfr Hroom)
    as (tmp' & -> & Hg & Hd & Ho & _); [lia | lia |]. cbn [mbind option_bind].
  destruct (packed_cons b tmp' rest) as [Hp' Hd']; try done; [lia|].
  do 2 eexists. split; [done|]. left. split; [done|].
  rewrite Ho in Hp'. by apply prepended_invoke.
Qed.

Lemma full_of_head b c cs :
  packed b -> chains b = c :: cs ->
  off c <> 0 \/ has_flag c EVBUFFER_IMMUTABLE = true ->
  Forall (fun c => 0 < off c) (chains b).
Proof.
  intros Hp Hcs Hc. destruct (pk_shape _ Hp) as [?|(c0 & Heq & H0 & Hi & _)]; [done|].
  rewrite Hcs in Heq. injection Heq as -> ->. destruct Hc; congruence.
Qed.

(** The window of an empty first chain moves to its end: nothing else does. *)
Lemma prepend_window c : good_chain c ->
  let c1 := if off c =? 0 then set_window c (buffer_len c) (off c) else c in
  good_chain c1 /\ chain_data c1 = chain_data c /\ off c1 = off c /\
  flags c1 = flags c /\ buffer_len c1 = buffer_len c.
Proof.
  intros Hg. cbn zeta. destruct (Z.eqb_spec (off c) 0) as [H0|H0]; [|done].
  destruct (gc_ok _ Hg) as [Hm Ho Hfit Hb].
  assert (Hok1 : chain_ok (set_window c (buffer_len c) (off c))) by (split; cbn; lia).
  split; [by apply (good_same c)|]. split; [|done].
  assert (chain_data c = []) as ->.
  { apply zlen_nil_iff. by rewrite chain_data_len by apply Hg. }
  apply zlen_nil_iff. by rewrite chain_data_len by apply Hok1.
Qed.

Lemma zlen_pos {B} (l : list B) : l <> [] -> 0 < zlen l.
Proof. destruct l; [done|]. rewrite zlen_cons. pose proof (zlen_nonneg l). lia. Qed.

(** All of [d] fits the misalignment of the first chain. *)
Lemma prepend_fits b c c1 cs d :
  packed b -> chains b = c :: cs -> good_chain c1 -> chain_data c1 = chain_data c ->
  off c1 = off c -> zlen d <= misalign c1 -> d <> [] ->
  exists b', (c' ← chain_store c1 (misalign c1 - zlen d) d (misalign c1 - zlen d) (off c1 + zlen d);
    Some (0, evbuffer_invoke_callbacks (add_count
      (set_chains b (c' :: cs) (last_with_datap b) (total_len b + zlen d)) (zlen d))))
    = Some (0, b') /\ prepended b' b d.
Proof.
  intros Hp Hcs Hg1 Hd1 Ho1 Hle Hne. apply zlen_pos in Hne.
  destruct (chain_prepend_spec c1 d Hg1 Hle) as (c' & -> & Hok & Hd & Hoff & Hfl & _ & Hbl).
  destruct (good_same c1 c' Hg1 Hok Hfl Hbl) as [Hg' Hi'].
  pose proof (ck_off _ (gc_ok _ Hg1)).
  destruct (packed_update_first b c cs c' d) as [Hp' Hd']; try done; [congruence | lia | lia |].
  cbn [mbind option_bind]. eexists. split; [done|]. by apply prepended_invoke.
Qed.

(** Only the tail of [d] fits the misalignment. *)
Lemma prepend_tail b c c1 cs d :
  packed b -> chains b = c :: cs -> good_chain c1 -> chain_data c1 = chain_data c ->
  off c1 = off c -> 0 < misalign c1 < zlen d ->
  exists c', chain_store c1 0 (zdrop (zlen d - misalign c1) d) 0 (off c1 + misalign c1) = Some c' /\
    prepended (add_count (set_chains b (c' :: cs) (last_with_datap b) (total_len b + misalign c1))
                 (misalign c1)) b (zdrop (zlen d - misalign c1) d) /\
    Forall (fun c => 0 < off c) (c' :: cs).
Proof.
  intros Hp Hcs Hg1 Hd1 Ho1 Hm.
  assert (Hk : zlen (zdrop (zlen d - misalign c1) d) = misalign c1) by (rewrite zlen_zdrop; lia).
  destruct (chain_prepend_spec c1 (zdrop (zlen d - misalign c1) d) Hg1)
    as (c' & Hst & Hok & Hd & Hoff & Hfl & Hmis & Hbl); [lia|].
  rewrite Hk, Z.sub_diag in Hst. exists c'. split; [done|].
  destruct (good_same c1 c' Hg1 Hok Hfl Hbl) as [Hg' Hi'].
  pose proof (ck_off _ (gc_ok _ Hg1)).
  destruct (packed_update_first b c cs c' (zdrop (zlen d - misalign c1) d)) as [Hp' Hd'];
    try done; [congruence | lia | lia |].
  rewrite Hk in Hp'. split; [split; [destruct Hp'; by split | done]|].
  apply (full_of_head _ c' cs Hp'); [done | left; lia].
Qed.

Lemma prepend_to_first_spec b c cs d :
  packed b -> chains b = c :: cs -> small (zlen d) -> d <> [] ->
  exists r b', evbuffer_prepend_to_first b c cs d = Some (r, b') /\
    (r = 0 /\ prepended b' b d \/ r = -1 /\ prepend_failed b' b d).
Proof.
  intros Hp Hcs Hsm Hne. pose proof (zlen_nonneg d).
  assert (Hcne : chains b <> []) by (by rewrite Hcs).
  assert (Hg : good_chain c).
  { pose proof (pk_chains _ Hp) as Hg. rewrite Hcs in Hg. by apply Forall_cons_split in Hg as [Hg _]. }
  (* a new chain in front of the unchanged buffer *)
  assert (Hnew : forall r b', r = 0 /\ prepended b' b d \/ r = -1 /\ b' = b /\ (exists n, mm_malloc n = None) ->
            r = 0 /\ prepended b' b d \/ r = -1 /\ prepend_failed b' b d).
  { intros r b' [?|(-> & -> & Hn)]; [by left | right]. split; [done|]. exists (zlen d).
    split; [lia|]. split; [|done]. split; [done|]. by rewrite zdrop_ge by lia. }
  unfold evbuffer_prepend_to_first.
  destruct (has_flag c EVBUFFER_IMMUTABLE) eqn:Him.
  { destruct (prepend_chain b c d) as (r & b' & -> & Hres); try done;
      [eapply full_of_head; eauto|]. exists r, b'. auto. }
  destruct (prepend_window c Hg) as (Hg1 & Hd1 & Ho1 & Hf1 & Hb1).
  set (c1 := if off c =? 0 then _ else c) in *.
  destruct (Z.leb_spec (zlen d) (misalign c1)) as [Hle|Hgt].
  { destruct (prepend_fits b c c1 cs d) as (b' & -> & Hb'); try done. exists 0, b'. auto. }
  destruct (Z.eqb_spec (misalign c1) 0) as [Hm0|Hm0]; cbn [negb].
  - assert (Hoff : off c <> 0).
    { intros H0. unfold c1 in Hm0. rewrite H0 in Hm0. cbn in Hm0.
      destruct (pk_shape _ Hp) as [Hf|(c0 & Heq & _ & _ & Hpos)].
      - rewrite Hcs in Hf. apply Forall_cons_split in Hf as [Hf _]. lia.
      - rewrite Hcs in Heq. injection Heq as -> ->. lia. }
    assert (c1 = c) as -> by (unfold c1; by rewrite (proj2 (Z.eqb_neq _ _) Hoff)).
    assert (set_chains b (c :: cs) (last_with_datap b) (total_len b) = b) as ->
      by (rewrite <- Hcs; by destruct b).
    destruct (prepend_chain b c d) as (r & b' & -> & Hres); try done;
      [eapply full_of_head; eauto|]. exists r, b'. auto.
  - pose proof (ck_misalign _ (gc_ok _ Hg1)).
    destruct (prepend_tail b c c1 cs d) as (c' & -> & Hpre & Hful); try done; [lia|].
    cbn [mbind option_bind]. set (b1 := add_count _ _) in *.
    assert (Htl : zlen (ztake (zlen d - misalign c1) d) = zlen d - misalign c1)
      by (rewrite zlen_ztake; lia).
    destruct (prepend_chain b1 c' (ztake (zlen d - misalign c1) d)) as (r & b' & -> & Hres);
      try done; [apply Hpre | unfold small in *; lia | intros E; rewrite E, zlen_nil in Htl; lia |].
    do 2 eexists. split; [done|]. destruct Hpre as (Hp1 & Hc1 & Hs1 & He1).
    destruct Hres as [[-> (Hp2 & Hc2 & Hs2 & He2)] | (-> & -> & Hn)]; [left | right]; (split; [done|]).
    + split; [done|]. rewrite Hc2, Hc1, app_assoc, ztake_zdrop. split; [done|]. split; congruence.
    + exists (zlen d - misalign c1). split; [lia|]. by split.
Qed.

Lemma prepend_spec b d :
  packed b -> freeze_start b = false -> small (zlen d) -> d <> [] ->
  exists r b', evbuffer_prepend b d = Some (r, b') /\
    (r = 0 /\ prepended b' b d \/ r = -1 /\ prepend_failed b' b d).
Proof.
  intros Hp Hfz Hsm Hne. unfold evbuffer_prepend. rewrite Hfz.
  destruct (chains b) as [|c cs] eqn:Hcs; [|by apply prepend_to_first_spec].
  destruct (chain_new_small (zlen d)) as ([c|] & -> & Hnew); [apply zlen_nonneg | done | |];
    cbn [mbind option_bind].
  2: { do 2 eexists. split; [done|]. right. split; [done|]. pose proof (zlen_nonneg d).
       exists (zlen d). split; [lia|]. split; [|done]. split; [done|]. by rewrite zdrop_ge by lia. }
  destruct Hnew as [Hfr Hr].
  destruct (first_chain b c _ Hp Hcs Hfr Hr) as (-> & Hp1 & Hd1). cbn [mbind option_bind chains set_chains].
  destruct (prepend_to_first_spec _ c [] d Hp1) as (r & b' & Hrun & Hres); try done.
  exists r, b'. split; [done|].
  assert (Hc : contents (set_chains b [c] 0 (total_len b)) = contents b).
  { unfold contents. by rewrite Hcs. }
  unfold prepended, prepend_failed, prepended in *. rewrite Hc in Hres. exact Hres.
Qed.

(** ** [evbuffer_drain], [evbuffer_copyout], [evbuffer_remove] *)

Lemma unpinned_r c : CHAIN_PINNED c = false -> CHAIN_PINNED_R c = false.
Proof.
  unfold CHAIN_PINNED, CHAIN_PINNED_R, has_flag, EVBUFFER_MEM_PINNED_ANY. intros H.
  apply negb_false_iff, Z.eqb_eq in H. rewrite Z.land_lor_distr_r in H.
  apply Z.lor_eq_0_iff in H as [-> _]. done.
Qed.

Lemma packed_no_pinned_r b : packed b -> HAS_PINNED_R b = false.
Proof.
  intros Hp. unfold HAS_PINNED_R. destruct (last (chains b)) as [c|] eqn:Hl; [|done].
  apply last_Some in Hl as [cs Hcs]. apply unpinned_r.
  by destruct (packed_last_good _ _ _ Hp Hcs).
Qed.

(** The loop removes whole chains up to the one in which the cut falls. *)
Lemma drain_loop_spec cs : forall i k lwd,
  Forall good_chain cs -> Forall (fun c => 0 < off c) cs ->
  0 <= k < zlen (data_of cs) -> lwd = (i + length cs - 1)%nat ->
  exists c r j rem lwd', drain_loop cs i k lwd = Some (c :: r, j, rem, lwd') /\
    Forall good_chain (c :: r) /\ Forall (fun c => 0 < off c) (c :: r) /\
    0 <= rem < off c /\ zdrop k (data_of cs) = zdrop rem (chain_data c) ++ data_of r /\
    (lwd' = (j + length r)%nat \/ (i < j)%nat /\ r = [] /\ lwd' = 0%nat) /\ (i <= j)%nat.
Proof.
  induction cs as [|c cs IH]; intros i k lwd Hg Hf Hk Hl.
  { change (zlen (data_of [])) with 0 in Hk. lia. }
  apply Forall_cons_split in Hg as [Hgc Hg], Hf as [Hfc Hf].
  pose proof (chain_data_len c Hgc) as Hlen. rewrite data_of_cons, zlen_app in Hk.
  cbn [drain_loop]. destruct (Z.leb_spec (off c) k) as [Hle|Hgt].
  - assert (Hcs : cs <> []) by (intros ->; change (zlen (data_of [])) with 0 in Hk; lia).
    assert (0 < length cs)%nat by (destruct cs; cbn; [done | lia]).
    rewrite (proj2 (Nat.eqb_neq i lwd)) by (cbn in Hl; lia).
    rewrite (unpinned_r c) by apply Hgc.
    destruct (Nat.eqb_spec (S i) lwd) as [Heq|Hne].
    + (* the next chain is the last one: the data pointer is reset *)
      assert (exists c2, cs = [c2]) as [c2 ->].
      { destruct cs as [|c2 [|]]; [done | by exists c2 | cbn in Hl; lia]. }
      apply Forall_cons_split in Hg as [Hg2 _], Hf as [Hf2 _].
      rewrite data_of_single in Hk. pose proof (chain_data_len c2 Hg2).
      cbn [drain_loop]. destruct (Z.leb_spec (off c2) (k - off c)); [lia|].
      exists c2, [], (S i), (k - off c), 0%nat. split; [done|].
      repeat split; try (by constructor); try lia.
      * rewrite data_of_cons, data_of_single. change (data_of []) with (@nil Z). rewrite app_nil_r.
        rewrite zdrop_app_ge by lia. by rewrite Hlen.
      * right. repeat split; lia.
    + destruct (IH (S i) (k - off c) lwd) as (c' & r & j & rem & lwd' & -> & H1 & H2 & H3 & H4 & H5 & H6);
        try done; [lia | cbn in Hl; lia |].
      exists c', r, j, rem, lwd'. split; [done|]. repeat split; try done; try lia.
      * rewrite data_of_cons, zdrop_app_ge by lia. by rewrite Hlen.
      * destruct H5 as [?|(?&?&?)]; [by left | right; repeat split; (done || lia)].
  - exists c, cs, i, k, lwd. split; [done|]. repeat split; try (by constructor); try lia.
    + rewrite data_of_cons, zdrop_app_le by lia. done.
    + left. cbn in Hl. lia.
Qed.

(** The bytes dropped and the notification given. *)
Definition drained (b' b : evbuffer) (k : Z) : Prop :=
  packed b' /\ contents b' = zdrop k (contents b) /\
  freeze_start b' = freeze_start b /\ freeze_end b' = freeze_end b /\
  exists cs lwd, b' = evbuffer_invoke_callbacks
                        (del_count (set_chains b cs lwd (total_len b - k)) k).

Lemma drained_invoke b cs lwd k :
  packed (set_chains b cs lwd (total_len b - k)) -> data_of cs = zdrop k (contents b) ->
  drained (evbuffer_invoke_callbacks (del_count (set_chains b cs lwd (total_len b - k)) k)) b k.
Proof.
  intros Hp Hd. split; [apply packed_invoke; destruct Hp; by split|].
  split; [by rewrite invoke_contents|].
  destruct (invoke_frame (del_count (set_chains b cs lwd (total_len b - k)) k)) as (_&_&_&->&->&_).
  eauto.
Qed.

Lemma packed_full b : packed b -> total_len b <> 0 -> Forall (fun c => 0 < off c) (chains b).
Proof.
  intros Hp Ht. destruct (pk_shape _ Hp) as [?|(c & Hcs & Ho & _)]; [done|]. exfalso. apply Ht.
  rewrite (pk_total _ Hp). unfold contents. rewrite Hcs, data_of_single, chain_data_len; [done|].
  apply (packed_last_good b [] c Hp Hcs).
Qed.

Lemma drain_spec b len :
  packed b -> freeze_start b = false -> 0 <= len -> total_len b <> 0 ->
  exists b', evbuffer_drain b len = Some (0, b') /\ drained b' b (Z.min len (total_len b)).
Proof.
  intros Hp Hfz Hl Ht. pose proof (packed_full b Hp Ht) as Hf.
  pose proof (pk_total _ Hp) as Htl. pose proof (zlen_nonneg (contents b)).
  unfold evbuffer_drain. rewrite (proj2 (Z.eqb_neq _ _) Ht), Hfz, packed_no_pinned_r by done.
  cbn [negb]. rewrite andb_true_r.
  destruct (Z.leb_spec (total_len b) len) as [Hge|Hlt].
  - eexists. split; [done|]. rewrite Z.min_r by lia. unfold ZERO_CHAIN.
    replace (set_chains b [] 0 0) with (set_chains b [] 0 (total_len b - total_len b))
      by (f_equal; lia).
    apply drained_invoke; [|by rewrite zdrop_ge by lia].
    split; cbn [chains last_with_datap total_len set_chains]; try done; [|left; constructor].
    change (contents _) with (@nil Z). rewrite zlen_nil. lia.
  - rewrite Z.min_l by lia.
    assert (chains b <> []) as Hne.
    { intros E. apply Ht. rewrite Htl. unfold contents. by rewrite E. }
    assert (0 < length (chains b))%nat by (destruct (chains b); cbn; [done | lia]).
    destruct (drain_loop_spec (chains b) 0 len (last_with_datap b))
      as (c & r & j & rem & lwd' & -> & Hg & Hfr & Hrem & Hd & Hlwd & _);
      try done; [apply Hp | unfold contents in Htl; lia | rewrite (pk_lwd _ Hp); lia |].
    cbn [mbind option_bind]. apply Forall_cons_split in Hg as [Hgc Hg], Hfr as [Hfc Hfr].
    destruct (window_drop c rem (gc_ok _ Hgc)) as [Hok' Hd']; [lia|].
    set (c' := set_window c (misalign c + rem) (off c - rem)) in *.
    destruct (good_same c c' Hgc Hok') as [Hgc' _]; [done..|].
    eexists. split; [done|].
    assert (Hdd : data_of (c' :: r) = zdrop len (contents b)).
    { rewrite data_of_cons, Hd'. unfold contents. by rewrite Hd. }
    apply drained_invoke; [|done].
    split; cbn [chains last_with_datap total_len set_chains]; unfold contents; cbn [chains set_chains].
    + by constructor.
    + rewrite Hdd, zlen_zdrop by lia. lia.
    + cbn [length]. destruct Hlwd as [->|(_ & -> & ->)]; [|done].
      destruct (Nat.eqb_spec (j + length r) 0); lia.
    + left. constructor; [cbn; lia | done].
Qed.

Lemma copyout_loop_spec cs : forall k,
  Forall chain_ok cs -> 0 <= k <= zlen (data_of cs) ->
  copyout_loop cs k = Some (ztake k (data_of cs)).
Proof.
  induction cs as [|c cs IH]; intros k Hg Hk.
  - change (zlen (data_of [])) with 0 in Hk. replace k with 0 by lia. done.
  - apply Forall_cons_split in Hg as [Hgc Hg]. pose proof (chain_data_len c Hgc) as Hlen.
    rewrite data_of_cons, zlen_app in Hk. cbn [copyout_loop].
    destruct (Z.eqb_spec k 0) as [->|Hk0]; [by rewrite ztake_0|].
    destruct (Z.leb_spec (off c) k) as [Hle|Hgt].
    + rewrite chain_data_read by done. cbn [mbind option_bind].
      rewrite IH by (done || lia). cbn [mbind option_bind].
      rewrite data_of_cons, ztake_app_ge by lia. by rewrite Hlen.
    + destruct Hgc. rewrite mem_read_Some by lia. f_equal.
      rewrite data_of_cons, ztake_app_le by lia. unfold chain_data. rewrite ztake_ztake by lia. done.
Qed.

Lemma copyout_spec b k :
  valid b -> freeze_start b = false -> 0 <= k ->
  evbuffer_copyout b k = Some (Z.min k (total_len b), ztake k (contents b)).
Proof.
  intros Hv Hfz Hk. pose proof (vd_total _ Hv) as Ht. pose proof (zlen_nonneg (contents b)).
  unfold evbuffer_copyout.
  assert (Hmin : (if total_len b <=? k then total_len b else k) = Z.min k (total_len b)).
  { destruct (Z.leb_spec (total_len b) k); lia. }
  rewrite Hmin.
  assert (Htake : ztake k (contents b) = ztake (Z.min k (total_len b)) (contents b)).
  { destruct (Z.leb_spec (total_len b) k); [|by rewrite Z.min_l by lia].
    rewrite Z.min_r by lia. by rewrite !ztake_ge by lia. }
  rewrite Htake. destruct (Z.eqb_spec (Z.min k (total_len b)) 0) as [->|H0]; [by rewrite ztake_0|].
  rewrite Hfz. rewrite copyout_loop_spec; [done | apply Hv | unfold contents in *; lia].
Qed.

Lemma packed_valid b : packed b -> valid b.
Proof.
  intros Hp. destruct (Hp) as [Hg Ht Hl Hs]. split.
  - by eapply Forall_impl; [|exact Hg]; intros ? [].
  - done.
  - destruct (chains b) as [|c cs] eqn:Hcs; [by rewrite Hl|].
    assert (is_Some ((c :: cs) !! last_with_datap b)) as [l Hlk].
    { apply lookup_lt_is_Some_2. rewrite Hl. cbn. lia. }
    exists l. split; [done|]. intros Ho. destruct Hs as [Hf|(c0 & [= -> ->] & Ho0 & _)].
    + rewrite Forall_lookup in Hf. specialize (Hf _ _ Hlk). cbn in Hf. lia.
    + split; [by rewrite Hl|]. rewrite Ht. unfold contents. rewrite Hcs, data_of_single.
      rewrite chain_data_len; [done|]. apply Forall_cons_split in Hg as [Hg _]. apply Hg.
  - rewrite Hl, drop_ge by lia. constructor.
Qed.

(** ** [evbuffer_pullup] *)

Lemma pullup_loop_spec cs : forall i size acc lwdata lwd rd rdp,
  Forall chain_ok cs -> 0 <= size <= zlen (data_of cs) ->
  exists pre rest size' rd' rdp', cs = pre ++ rest /\
    pullup_loop cs i size acc lwdata lwd rd rdp =
      Some (rest, (i + length pre)%nat, acc ++ data_of pre, size', rd', rdp') /\
    size = zlen (data_of pre) + size' /\
    (rest = [] /\ size' = 0 \/ exists c r, rest = c :: r /\ 0 <= size' < off c) /\
    (rd' = true <-> rd = true \/ exists k, lwdata = Some k /\ (i <= k < i + length pre)%nat) /\
    (rdp' = true <-> rdp = true \/ (i < lwd <= i + length pre)%nat).
Proof.
  induction cs as [|c cs IH]; intros i size acc lwdata lwd rd rdp Hg Hs.
  { change (zlen (data_of [])) with 0 in Hs. exists [], [], size, rd, rdp. cbn [pullup_loop length].
    change (data_of []) with (@nil Z). rewrite Nat.add_0_r, !app_nil_r, zlen_nil.
    splits; try done; try lia.
    - left. split; [done | lia].
    - split; [by left|]. intros [?|(k & _ & ?)]; [done | lia].
    - split; [by left|]. intros [?|?]; [done | lia]. }
  apply Forall_cons_split in Hg as [Hgc Hg]. pose proof (chain_data_len c Hgc) as Hlen.
  rewrite data_of_cons, zlen_app in Hs. cbn [pullup_loop].
  destruct (Z.leb_spec (off c) size) as [Hle|Hgt].
  - rewrite chain_data_read by done. cbn [mbind option_bind].
    destruct (IH (S i) (size - off c) (acc ++ chain_data c) lwdata lwd
                (rd || bool_decide (lwdata = Some i)) (rdp || (S i =? lwd)%nat))
      as (pre & rest & size' & rd' & rdp' & -> & -> & Hsz & Hrest & Hrd & Hrdp); [done | lia |].
    exists (c :: pre), rest, size', rd', rdp'. rewrite data_of_cons, zlen_app, <- app_assoc.
    cbn [length]. splits; try done; try lia.
    + by replace (i + S (length pre))%nat with (S i + length pre)%nat by lia.
    + rewrite Hrd, orb_true_iff, bool_decide_eq_true. split.
      * intros [[?| ->]|(k & -> & ?)]; [by left | right; exists i; split; [done|lia] | right; exists k; split; [done|lia]].
      * intros [?|(k & -> & ?)]; [by left; left|]. destruct (decide (k = i)) as [->|];
          [by left; right | right; exists k; split; [done|lia]].
    + rewrite Hrdp, orb_true_iff, Nat.eqb_eq. split.
      * intros [[?|?]|?]; [by left | right; lia | right; lia].
      * intros [?|?]; [by left; left|].
        destruct (decide (S i = lwd)); [by left; right | right; lia].
  - exists [], (c :: cs), size, rd, rdp. cbn [length].
    change (data_of []) with (@nil Z). rewrite Nat.add_0_r, app_nil_r, zlen_nil. splits; try done; try lia.
    + right. exists c, cs. split; [done | lia].
    + split; [by left|]. intros [?|(k & _ & ?)]; [done | lia].
    + split; [by left|]. intros [?|?]; [done | lia].
Qed.

(** The first chain now holds the first [size] bytes; the queue is the same. *)
Definition pulled_up (b' b : evbuffer) (size : Z) (bytes : list Z) : Prop :=
  packed b' /\ contents b' = contents b /\ total_len b' = total_len b /\
  freeze_start b' = freeze_start b /\ freeze_end b' = freeze_end b /\
  ztake size bytes = ztake size (contents b) /\ size <= zlen bytes /\
  exists c cs, chains b' = c :: cs /\ chain_data c = bytes.

Lemma pullup_finish_spec b tmp cs i size :
  packed b -> good_chain tmp -> Forall good_chain cs -> Forall (fun c => 0 < off c) cs ->
  0 < size <= zlen (data_of cs) -> misalign tmp + off tmp + size <= buffer_len tmp ->
  chain_data tmp ++ data_of cs = contents b ->
  last_with_datap b = (i + length cs - 1)%nat -> (0 < last_with_datap b)%nat ->
  exists b' bytes, pullup_finish b tmp cs i size (off tmp + size) (Some (last_with_datap b))
                   = Some (Some bytes, b') /\ pulled_up b' b (off tmp + size) bytes.
Proof.
  intros Hp Hgt Hg Hf Hs Hroom Hcon Hl Hl0.
  assert (Hok : Forall chain_ok cs) by (by eapply Forall_impl; [|exact Hg]; intros ? []).
  pose proof (chain_data_len tmp Hgt) as Htlen.
  unfold pullup_finish.
  destruct (pullup_loop_spec cs i size [] (Some (last_with_datap b)) (last_with_datap b) false false)
    as (pre & rest & size' & rd & rdp & -> & -> & Hsz & Hrest & Hrd & Hrdp); [done | lia |].
  cbn [mbind option_bind app].
  apply Forall_app_split in Hg as [Hgp Hgr], Hf as [Hfp Hfr].
  rewrite data_of_app in *. rewrite length_app in Hl.
  (* what is copied, and the chains left behind the destination *)
  assert (Htail : exists copied tail,
    (match rest with
     | c :: r => d ← mem_read (buffer c) (misalign c) size';
                 Some (data_of pre ++ d, set_window c (misalign c + size') (off c - size') :: r)
     | [] => Some (data_of pre, [])
     end) = Some (copied, tail) /\ zlen copied = size /\
    copied ++ data_of tail = data_of pre ++ data_of rest /\ length tail = length rest /\
    Forall good_chain tail /\ Forall (fun c => 0 < off c) tail).
  { destruct Hrest as [[-> ->]|(c & r & -> & Hsz')].
    - do 2 eexists. split; [done|]. splits; try done. lia.
    - apply Forall_cons_split in Hgr as [Hgc Hgr], Hfr as [Hfc Hfr].
      destruct (gc_ok _ Hgc). rewrite mem_read_Some by lia. cbn [mbind option_bind].
      destruct (window_drop c size' (gc_ok _ Hgc)) as [Hok' Hd']; [lia|].
      set (c' := set_window _ _ _) in *.
      do 2 eexists. split; [done|]. splits; try done.
      + rewrite zlen_app, zlen_ztake by (rewrite zlen_zdrop; lia). lia.
      + rewrite !data_of_cons, Hd', <- app_assoc. f_equal. rewrite app_assoc. f_equal.
        rewrite <- (ztake_zdrop (chain_data c) size') at 2. f_equal.
        unfold chain_data. by rewrite ztake_ztake by lia.
      + constructor; [|done]. by apply (good_same c).
      + constructor; [cbn; lia | done]. }
  destruct Htail as (copied & tail & -> & Hcl & Hcd & Htl & Hgta & Hfta). cbn [mbind option_bind].
  destruct (chain_append_spec tmp copied Hgt) as (tmp' & Hst & Hok' & Hd' & Ho' & Hf' & _ & Hb'); [lia|].
  unfold chain_append in Hst. rewrite Hcl in Hst, Ho'. rewrite Hst. cbn [mbind option_bind].
  destruct (good_same tmp tmp' Hgt Hok' Hf' Hb') as [Hgt' _].
  do 2 eexists. split; [done|].
  assert (Hdd : data_of (tmp' :: tail) = contents b).
  { by rewrite data_of_cons, Hd', <- app_assoc, Hcd. }
  assert (Hbl : zlen (chain_data tmp') = off tmp + size) by (rewrite chain_data_len by apply Hgt'; lia).
  unfold pulled_up. splits; try done.
  - split; cbn [chains last_with_datap total_len set_chains]; unfold contents; cbn [chains set_chains].
    + by constructor.
    + rewrite Hdd. apply Hp.
    + (* the data pointer *)
      cbn [length]. rewrite Htl. destruct rd.
      * destruct (proj1 Hrd eq_refl) as [|(k & [= <-] & ?)]; [done|].
        destruct Hrest as [[-> _]|(c & r & -> & _)]; cbn [length] in *; lia.
      * destruct Hrest as [[-> ->]|(c & r & -> & _)]; cbn [length] in *.
        { exfalso. assert (false = true); [|done]. apply Hrd. right.
          eexists. split; [done|].
          assert (0 < length pre)%nat; [|lia].
          destruct pre; [|cbn; lia]. change (zlen (data_of [])) with 0 in Hsz. lia. }
        destruct rdp.
        -- destruct (proj1 Hrdp eq_refl) as [|?]; [done|].
           destruct tail as [|c2 tail]; [cbn in Htl; lia|].
           apply Forall_cons_split in Hfta as [Hf2 _].
           rewrite (proj2 (Z.eqb_neq _ _)) by lia. cbn. lia.
        -- rewrite (proj2 (Nat.eqb_neq _ _)) by lia.
           assert (~ (i < last_with_datap b <= i + length pre)%nat); [|lia].
           intros ?. assert (false = true); [|done]. apply Hrdp. by right.
    + left. constructor; [|done]. pose proof (ck_off _ (gc_ok _ Hgt)). lia.
  - rewrite <- Hdd, data_of_cons, ztake_app_le by lia. done.
  - lia.
  - by exists tmp', tail.
Qed.

Lemma unpinned_all cs k : Forall good_chain cs -> pullup_unpinned cs k = true.
Proof.
  intros H. revert k. induction H as [|c cs Hc _ IH]; intros k; [done|]. cbn.
  rewrite (gc_unpinned _ Hc). by destruct (k <=? off c).
Qed.

Lemma pullup_spec b size :
  packed b -> 0 < size <= total_len b -> small size ->
  exists b' r, evbuffer_pullup b size = Some (r, b') /\
    match r with
    | Some bytes => pulled_up b' b size bytes
    | None => b' = b /\ exists n, mm_malloc n = None
    end.
Proof.
  intros Hp Hs Hsm. pose proof (packed_full b Hp ltac:(lia)) as Hf.
  pose proof (pk_chains _ Hp) as Hg. pose proof (pk_total _ Hp) as Ht.
  unfold evbuffer_pullup. rewrite (proj2 (Z.ltb_ge size 0)) by lia.
  rewrite (proj2 (Z.eqb_neq size 0)), (proj2 (Z.ltb_ge (total_len b) size)) by lia. cbn [orb].
  pose proof (pk_lwd _ Hp) as Hl. unfold contents in Ht.
  destruct (chains b) as [|c cs] eqn:Hcs; [change (zlen (data_of [])) with 0 in Ht; lia|].
  apply Forall_cons_split in Hg as [Hgc Hg], Hf as [Hfc Hf].
  pose proof (chain_data_len c Hgc) as Hlen. rewrite data_of_cons, zlen_app in Ht.
  assert (Hcon : chain_data c ++ data_of cs = contents b) by (unfold contents; by rewrite Hcs).
  destruct (Z.leb_spec size (off c)) as [Hle|Hgt].
  { exists b, (Some (chain_data c)). split; [done|]. unfold pulled_up. splits; try done; [|lia | by exists c, cs].
    rewrite <- Hcon, ztake_app_le by lia. done. }
  rewrite unpinned_all by done. rewrite (gc_unpinned _ Hgc). cbn [negb].
  assert (Hcs0 : (0 < length cs)%nat).
  { destruct cs; [|cbn; lia]. change (zlen (data_of [])) with 0 in Ht. lia. }
  cbn [length] in Hl. rewrite (proj2 (Nat.eqb_neq (last_with_datap b) 0)) by lia.
  destruct (Z.leb_spec size (buffer_len c - misalign c)) as [Hfit|Hfit].
  - destruct (pullup_finish_spec b c cs 1 (size - off c)) as (b' & bytes & Hr & Hb');
      try done; [lia | lia | lia |].
    replace (off c + (size - off c)) with size in * by lia.
    by exists b', (Some bytes).
  - destruct (chain_new_small size) as ([tmp|] & -> & Hnew); [lia | done | |]; cbn [mbind option_bind].
    2: { by exists b, None. }
    destruct Hnew as [Hfr Hroom]. pose proof (fresh_good _ _ Hfr Hroom) as Hgt2.
    destruct Hfr as (Hok2 & Ho2 & Hm2 & _ & Hsz2 & _).
    destruct (pullup_finish_spec b tmp (c :: cs) 0 size) as (b' & bytes & Hr & Hb'); try done.
    + by constructor.
    + by constructor.
    + rewrite data_of_cons, zlen_app. lia.
    + lia.
    + assert (chain_data tmp = []) as -> by (apply zlen_nil_iff; by rewrite chain_data_len). done.
    + lia.
    + rewrite Ho2, Z.add_0_l in *. by exists b', (Some bytes).
Qed.

(** ** Moving buffers *)

Definition moved (out' in' outb inb : evbuffer) (d : list Z) : Prop :=
  packed out' /\ packed in' /\ contents out' = d /\ contents in' = [] /\
  freeze_start out' = freeze_start outb /\ freeze_end out' = freeze_end outb /\
  freeze_start in' = freeze_start inb /\ freeze_end in' = freeze_end inb.

Lemma packed_zero b : packed (ZERO_CHAIN b).
Proof. split; cbn; try done. left. constructor. Qed.

Lemma packed_join b b1 b2 :
  packed b1 -> packed b2 -> total_len b1 <> 0 -> total_len b2 <> 0 ->
  packed (set_chains b (chains b1 ++ chains b2) (length (chains b1) + last_with_datap b2)
            (total_len b1 + total_len b2)) /\
  data_of (chains b1 ++ chains b2) = contents b1 ++ contents b2.
Proof.
  intros Hp1 Hp2 Ht1 Ht2. pose proof (packed_full _ Hp1 Ht1) as Hf1.
  pose proof (packed_full _ Hp2 Ht2) as Hf2. rewrite data_of_app. split; [|done].
  assert (chains b2 <> []).
  { intros E. apply Ht2. rewrite (pk_total _ Hp2). unfold contents. by rewrite E. }
  split; cbn [chains last_with_datap total_len set_chains]; unfold contents; cbn [chains set_chains].
  - apply Forall_app. split; [apply Hp1 | apply Hp2].
  - rewrite data_of_app, zlen_app, (pk_total _ Hp1), (pk_total _ Hp2). done.
  - rewrite length_app, (pk_lwd _ Hp2). destruct (chains b2); [done|]. cbn. lia.
  - left. by apply Forall_app.
Qed.

Lemma move_buffer_spec frozen join outb inb d :
  packed outb -> packed inb -> frozen = false -> freeze_start inb = false ->
  total_len inb <> 0 ->
  (total_len outb = 0 -> d = contents inb) ->
  (total_len outb <> 0 -> packed (join outb inb) /\ contents (join outb inb) = d /\
     freeze_start (join outb inb) = freeze_start outb /\ freeze_end (join outb inb) = freeze_end outb) ->
  exists out' in', move_buffer frozen join false outb inb = Some (0, out', in') /\
    moved out' in' outb inb d.
Proof.
  intros Hpo Hpi -> Hfi Hti Hd0 Hd1. unfold move_buffer.
  rewrite (proj2 (Z.eqb_neq _ _) Hti), Hfi. cbn [orb]. unfold PRESERVE_PINNED.
  rewrite packed_no_pinned_r by done. cbn [negb mbind option_bind RESTORE_PINNED].
  do 2 eexists. split; [done|].
  set (o1 := if total_len outb =? 0 then _ else _).
  assert (Ho : packed o1 /\ contents o1 = d /\ freeze_start o1 = freeze_start outb /\
            freeze_end o1 = freeze_end outb).
  { unfold o1. destruct (Z.eqb_spec (total_len outb) 0) as [H0|H0]; [|by apply Hd1].
    rewrite Hd0 by done. split; [destruct Hpi; by split | done]. }
  destruct Ho as (Hp1 & Hc1 & Hs1 & He1).
  destruct (invoke_frame (add_count o1 (total_len inb))) as (_&_&_&Ha&Hb&_).
  destruct (invoke_frame (del_count (ZERO_CHAIN inb) (total_len inb))) as (_&_&_&Hc&Hd&_).
  unfold moved. splits; rewrite ?invoke_contents; try done; try congruence.
  - apply packed_invoke. destruct Hp1; by split.
  - apply packed_invoke. destruct (packed_zero inb); by split.
  - by rewrite Ha.
  - by rewrite Hb.
Qed.

(** ** [evbuffer_remove_buffer] *)

Lemma remove_loop_spec cs : forall i k n lwd,
  Forall good_chain cs -> Forall (fun c => 0 < off c) cs ->
  0 <= k < zlen (data_of cs) -> lwd = (i + length cs - 1)%nat ->
  exists taken c r d lwd', cs = taken ++ c :: r /\
    remove_loop cs i k n lwd =
      Some (taken, c :: r, (i + length taken)%nat, d, n + zlen (data_of taken), lwd') /\
    0 <= d < off c /\ k = zlen (data_of taken) + d /\
    (lwd' = (i + length taken + length r)%nat \/ taken <> [] /\ r = [] /\ lwd' = 0%nat).
Proof.
  induction cs as [|c cs IH]; intros i k n lwd Hg Hf Hk Hl.
  { change (zlen (data_of [])) with 0 in Hk. lia. }
  apply Forall_cons_split in Hg as [Hgc Hg], Hf as [Hfc Hf].
  pose proof (chain_data_len c Hgc) as Hlen. rewrite data_of_cons, zlen_app in Hk.
  cbn [remove_loop]. destruct (Z.leb_spec (off c) k) as [Hle|Hgt].
  - assert (Hcs : cs <> []) by (intros ->; change (zlen (data_of [])) with 0 in Hk; lia).
    assert (0 < length cs)%nat by (destruct cs; cbn; [done | lia]).
    cbn [length] in Hl. rewrite (proj2 (Nat.eqb_neq i lwd)) by lia.
    destruct (Nat.eqb_spec (S i) lwd) as [Heq|Hne].
    + assert (exists c2, cs = [c2]) as [c2 ->].
      { destruct cs as [|c2 [|]]; [done | by exists c2 | cbn in *; lia]. }
      apply Forall_cons_split in Hg as [Hg2 _], Hf as [Hf2 _].
      rewrite data_of_single in Hk. pose proof (chain_data_len c2 Hg2).
      cbn [remove_loop]. rewrite (proj2 (Z.leb_gt (off c2) (k - off c))) by lia.
      cbn [mbind option_bind]. exists [c], c2, [], (k - off c), 0%nat.
      rewrite data_of_single, Hlen. cbn [length].
      replace (i + 1)%nat with (S i) by lia. splits; try done; try lia. right. splits; done.
    + destruct (IH (S i) (k - off c) (n + off c) lwd)
        as (taken & c2 & r & d & lwd' & -> & -> & Hd & Hk' & Hlwd); try done; [lia..|].
      cbn [mbind option_bind]. exists (c :: taken), c2, r, d, lwd'.
      rewrite data_of_cons, zlen_app, Hlen. cbn [length].
      replace (i + S (length taken))%nat with (S i + length taken)%nat by lia.
      splits; try done; try lia.
      * by replace (n + off c + zlen (data_of taken)) with (n + (off c + zlen (data_of taken))) by lia.
      * destruct Hlwd as [->|(_ & -> & ->)]; [by left | right; splits; done].
  - exists [], c, cs, k, lwd. cbn [length] in *. change (zlen (data_of [])) with 0.
    rewrite Nat.add_0_r, Z.add_0_r. splits; try done; lia || (left; lia).
Qed.

Lemma count_nonempty_full cs : Forall (fun c => 0 < off c) cs -> count_nonempty cs = length cs.
Proof.
  induction 1 as [|c cs Hc _ IH]; [done|]. cbn. rewrite (proj2 (Z.eqb_neq _ _)) by lia. by rewrite IH.
Qed.

(** Splicing whole chains onto the end of a packed buffer. *)
Lemma splice_packed b taken :
  packed b -> Forall good_chain taken -> Forall (fun c => 0 < off c) taken -> taken <> [] ->
  exists kept, evbuffer_free_trailing_empty_chains b = Some kept /\
    let b' := advance_last_with_data
                (set_chains b (kept ++ taken) (last_with_datap b) (total_len b)) in
    chains b' = kept ++ taken /\ freeze_end b' = freeze_end b /\ freeze_start b' = freeze_start b /\
    total_len b' = total_len b /\
    data_of (kept ++ taken) = contents b ++ data_of taken /\
    packed (set_chains b' (chains b') (last_with_datap b') (total_len b' + zlen (data_of taken))).
Proof.
  intros Hp Hg Hf Hne. unfold evbuffer_free_trailing_empty_chains.
  assert (exists kept, (match find_victim (chains b) (last_with_datap b) with
      | Some k => if evbuffer_chains_all_empty (drop k (chains b))
                  then Some (take k (chains b)) else None
      | None => Some (chains b)
      end) = Some kept /\ Forall good_chain kept /\ Forall (fun c => 0 < off c) kept /\
      data_of kept = contents b /\ last_with_datap b = (length kept - 1)%nat)
    as (kept & -> & Hgk & Hfk & Hdk & Hlk).
  { destruct (pk_shape _ Hp) as [Hfull|(c & Hcs & Ho & _)].
    - rewrite find_victim_full by done. exists (chains b). splits; try done; apply Hp.
    - pose proof (packed_last_good b [] c Hp Hcs) as Hgc. rewrite Hcs. exists [].
      rewrite (pk_lwd _ Hp), Hcs. cbn [length Nat.sub find_victim].
      rewrite Ho, (gc_unpinned _ Hgc). cbn. rewrite Ho. splits; try done.
      unfold contents. rewrite Hcs, data_of_single. symmetry. apply zlen_nil_iff.
      by rewrite chain_data_len by apply Hgc. }
  exists kept. split; [done|]. cbn zeta.
  assert (Hadv : last_with_datap (advance_last_with_data
      (set_chains b (kept ++ taken) (last_with_datap b) (total_len b))) =
      (length (kept ++ taken) - 1)%nat /\
    chains (advance_last_with_data (set_chains b (kept ++ taken) (last_with_datap b) (total_len b)))
      = kept ++ taken /\
    total_len (advance_last_with_data (set_chains b (kept ++ taken) (last_with_datap b) (total_len b)))
      = total_len b /\
    freeze_end (advance_last_with_data (set_chains b (kept ++ taken) (last_with_datap b) (total_len b)))
      = freeze_end b /\
    freeze_start (advance_last_with_data (set_chains b (kept ++ taken) (last_with_datap b) (total_len b)))
      = freeze_start b).
  { unfold advance_last_with_data. cbn [chains last_with_datap total_len set_chains].
    assert (0 < length taken)%nat by (destruct taken; [done | cbn; lia]).
    assert (is_Some ((kept ++ taken) !! last_with_datap b)) as [x Hx].
    { apply lookup_lt_is_Some_2. rewrite length_app. lia. }
    rewrite Hx. cbn [chains last_with_datap total_len freeze_end freeze_start set_chains].
    splits; try done.
    rewrite count_nonempty_full by (apply Forall_drop; by apply Forall_app).
    rewrite length_drop, length_app. lia. }
  destruct Hadv as (Hl & Hc & Ht & Hfe & Hfs). rewrite Hc, Hl, Ht, Hfe, Hfs.
  assert (Hdd : data_of (kept ++ taken) = contents b ++ data_of taken) by (by rewrite data_of_app, Hdk).
  splits; try done.
  split; cbn [chains last_with_datap total_len set_chains]; unfold contents; cbn [chains set_chains].
  - by apply Forall_app.
  - rewrite Hdd, zlen_app, (pk_total _ Hp). done.
  - done.
  - left. by apply Forall_app.
Qed.

Lemma set_chains_id b : set_chains b (chains b) (last_with_datap b) (total_len b) = b.
Proof. by destruct b. Qed.

Lemma remove_buffer_spec src dst k :
  packed src -> packed dst -> freeze_start src = false -> freeze_end dst = false ->
  Forall (fun c => has_flag c EVBUFFER_IMMUTABLE = false) (chains src) ->
  (forall n, mm_malloc n <> None) -> 0 < k < total_len src -> small k ->
  exists src' dst', evbuffer_remove_buffer false src dst k = Some (swrap 32 k, src', dst') /\
    packed src' /\ packed dst' /\
    contents src' = zdrop k (contents src) /\ contents dst' = contents dst ++ ztake k (contents src).
Proof.
  intros Hps Hpd Hfs Hfd Him Hmem Hk Hsm.
  pose proof (packed_full src Hps ltac:(lia)) as Hf. pose proof (pk_chains _ Hps) as Hg.
  pose proof (pk_total _ Hps) as Ht. unfold contents in Ht.
  unfold evbuffer_remove_buffer. rewrite (proj2 (Z.eqb_neq k 0)) by lia. rewrite Hfs, Hfd. cbn [orb].
  rewrite (proj2 (Z.leb_gt _ _)) by lia.
  destruct (remove_loop_spec (chains src) 0 k 0 (last_with_datap src))
    as (taken & c & r & d & lwd' & Hcs & -> & Hd & Hkd & Hlwd); try done;
    [lia | rewrite (pk_lwd _ Hps); lia |].
  cbn [mbind option_bind]. rewrite Hcs in Hg, Hf, Him, Ht.
  apply Forall_app_split in Hg as [Hgt Hg], Hf as [Hft Hf], Him as [Hit _].
  apply Forall_cons_split in Hg as [Hgc Hgr], Hf as [Hfc Hfr].
  rewrite data_of_app, data_of_cons, !zlen_app in Ht. rewrite Z.add_0_l.
  pose proof (chain_data_len c Hgc) as Hlen. destruct (gc_ok _ Hgc) as [Hm Ho Hfit Hbl].
  (* the destination after the whole chains *)
  set (dst1 := if negb (zlen (data_of taken) =? 0) then _ else _).
  assert (exists b1, dst1 = Some b1 /\ freeze_end b1 = freeze_end dst /\
      let b2 := set_chains b1 (chains b1) (last_with_datap b1) (total_len b1 + zlen (data_of taken)) in
      packed b2 /\ contents b2 = contents dst ++ data_of taken /\
      (d = 0 -> forall x, last (chains b2) = Some x -> has_flag x EVBUFFER_IMMUTABLE = false))
    as (b1 & -> & Hfe1 & Hp2 & Hc2 & Himm2).
  { unfold dst1. destruct (Z.eqb_spec (zlen (data_of taken)) 0) as [H0|H0]; cbn [negb].
    - exists dst. split; [done|]. split; [done|]. cbn zeta. rewrite H0, Z.add_0_r.
      apply zlen_nil_iff in H0. rewrite H0, app_nil_r, set_chains_id.
      split; [exact Hpd|]. split; [done|]. intros ->. rewrite H0, (zlen_nil (A:=Z)) in Hkd. lia.
    - destruct (splice_packed dst taken Hpd Hgt Hft) as (kept & -> & Hck & Hfe & _ & Htk & Hdk & Hpk).
      { intros ->. apply H0. done. }
      cbn [mbind option_bind]. eexists. split; [done|]. split; [done|]. cbn zeta.
      split; [destruct Hpk; by split|].
      split; [unfold contents; cbn [chains set_chains add_count set_counts]; by rewrite Hck, Hdk|].
      intros _ x. cbn [chains set_chains add_count set_counts]. rewrite Hck.
      destruct (exists_last (l := taken)) as (t & y & ->); [intros ->; by apply H0|].
      rewrite app_assoc, last_snoc. intros [= <-].
      apply Forall_app_split in Hit as [_ Hit]. by apply Forall_cons_split in Hit as [Hit _]. }
  cbn [mbind option_bind]. set (b2 := set_chains b1 _ _ _) in *.
  rewrite mem_read_Some by lia. cbn [mbind option_bind].
  set (bytes := ztake d (zdrop (misalign c) (buffer c))).
  assert (Hby : bytes = ztake d (chain_data c)) by (unfold bytes, chain_data; by rewrite ztake_ztake by lia).
  assert (Hbyl : zlen bytes = d) by (rewrite Hby, zlen_ztake; lia).
  destruct (add_spec b2 bytes Hp2) as (rr & dst3 & -> & Hres); [cbn; congruence | unfold small in *; pose proof (zlen_nonneg (data_of taken)); lia | |].
  { destruct (decide (d = 0)) as [H0|H0]; [right; by apply Himm2|].
    left. intros E. rewrite E, zlen_nil in Hbyl. lia. }
  destruct Hres as [[-> (cs3 & lwd3 & -> & Hp3 & Hc3)]|(_ & _ & _ & n & Hn)]; [|by destruct (Hmem n)].
  cbn [mbind option_bind]. rewrite <- Hkd. rewrite (proj2 (Z.eqb_neq k 0)) by lia. cbn [negb].
  destruct (window_drop c d (gc_ok _ Hgc)) as [Hok' Hd']; [lia|].
  set (c' := set_window c (misalign c + d) (off c - d)) in *.
  destruct (good_same c c' Hgc Hok') as [Hgc' _]; [done..|].
  assert (Hcon : contents src = data_of taken ++ chain_data c ++ data_of r).
  { unfold contents. by rewrite Hcs, data_of_app, data_of_cons. }
  assert (Hsrc : data_of (c' :: r) = zdrop k (contents src)).
  { rewrite data_of_cons, Hd', Hcon, zdrop_app_ge by lia.
    replace (k - zlen (data_of taken)) with d by lia. by rewrite zdrop_app_le by lia. }
  do 2 eexists. split; [done|]. split; [|split; [|split]].
  - apply packed_invoke.
    split; cbn [chains last_with_datap total_len set_chains del_count set_counts]; unfold contents;
      cbn [chains set_chains del_count set_counts].
    + by constructor.
    + rewrite Hsrc, zlen_zdrop; rewrite (pk_total _ Hps) in *; lia.
    + cbn [length]. destruct Hlwd as [->|(_ & -> & ->)]; [|done].
      destruct (Nat.eqb_spec (0 + length taken + length r) 0); lia.
    + left. constructor; [cbn; lia | done].
  - apply packed_invoke, packed_invoke. destruct Hp3; by split.
  - rewrite invoke_contents. exact Hsrc.
  - rewrite !invoke_contents. change (contents (add_count _ _)) with (data_of cs3).
    rewrite Hc3, Hc2, Hby, Hcon, ztake_app_ge by lia.
    replace (k - zlen (data_of taken)) with d by lia. rewrite ztake_app_le by lia.
    by rewrite app_assoc.
Qed.
End spec.
