(* ===== verification/EvbufferProps.v ===== *)
(** The byte queue's contract: the operations of [Evbuffer] against the abstract
    queue of bytes they implement, the notifications their callbacks get, and
    the refinement of every sequence of operations. *)

From S2P Require Import Prelude EvChain Evbuffer EvbufferSpec.

Section notifications.
Context {A : Arch} {M : Allocator}.

Definition cb_enabled (e : evbuffer_cb_entry) : bool :=
  Z.land (cb_flags e) EVBUFFER_CB_ENABLED =? EVBUFFER_CB_ENABLED.

(** The calls every enabled callback of [b] gets for a change of the length
    from [orig] to [new], by [added] and [deleted] bytes. *)
Definition notify_all (b : evbuffer) (orig new added deleted : Z) : list cb_call :=
  map (fun e => {| call_id := cb_id e; call_orig_size := orig; call_new_size := new;
                   call_n_added := added; call_n_deleted := deleted |})
      (List.filter cb_enabled (callbacks b)).

Lemma invoke_notifies b :
  deferred_cbs b = false -> n_add_for_cb b <> 0 \/ n_del_for_cb b <> 0 ->
  let b' := evbuffer_invoke_callbacks b in
  cb_calls b' = cb_calls b ++
    notify_all b (total_len b + n_del_for_cb b - n_add_for_cb b) (total_len b)
               (n_add_for_cb b) (n_del_for_cb b) /\
  n_add_for_cb b' = 0 /\ n_del_for_cb b' = 0.
Proof.
  intros Hd Hn. unfold evbuffer_invoke_callbacks, evbuffer_run_callbacks, cb_mask, notify_all.
  rewrite Hd. destruct (callbacks b) as [|e l] eqn:E; [by rewrite app_nil_r|].
  assert ((n_add_for_cb b =? 0) && (n_del_for_cb b =? 0) = false) as ->.
  { apply andb_false_iff. rewrite !Z.eqb_neq. done. }
  cbn [cb_calls set_cbs set_counts n_add_for_cb n_del_for_cb]. by rewrite <- E.
Qed.

Lemma invoke_silent b :
  n_add_for_cb b = 0 -> n_del_for_cb b = 0 -> deferred_cbs b = false ->
  cb_calls (evbuffer_invoke_callbacks b) = cb_calls b.
Proof.
  intros Ha Hd Hf. unfold evbuffer_invoke_callbacks, evbuffer_run_callbacks, cb_mask.
  rewrite Hf, Ha, Hd. by destruct (callbacks b).
Qed.
End notifications.

Section props.
Context {A : Arch} {M : Allocator}.

(** The allocator never fails. *)
Definition mem_ok : Prop := forall n, mm_malloc n <> None.

Implicit Types b : evbuffer.

Lemma add_ok b d :
  mem_ok -> packed b -> freeze_end b = false -> small (zlen d) -> d <> [] ->
  exists b', evbuffer_add b d = Some (0, b') /\ appended b b' d.
Proof.
  intros Hm Hp Hf Hs Hd.
  destruct (add_spec b d Hp Hf Hs (or_introl Hd)) as (r & b' & Hr & [[-> Ha]|(_&_&_&n&Hn)]);
    [by exists b' | by destruct (Hm n)].
Qed.

Lemma appended_facts b b' d :
  appended b b' d ->
  packed b' /\ contents b' = contents b ++ d /\ freeze_start b' = freeze_start b /\
  freeze_end b' = freeze_end b /\ total_len b' = total_len b + zlen d.
Proof.
  intros (cs & lwd & -> & Hp & Hd).
  destruct (invoke_frame (add_count (set_chains b cs lwd (total_len b + zlen d)) (zlen d)))
    as (_ & _ & -> & -> & -> & _).
  split; [apply packed_invoke; destruct Hp; by split|]. by rewrite invoke_contents.
Qed.

Lemma prepend_ok b d :
  mem_ok -> packed b -> freeze_start b = false -> small (zlen d) -> d <> [] ->
  exists b', evbuffer_prepend b d = Some (0, b') /\ prepended b' b d.
Proof.
  intros Hm Hp Hf Hs Hd.
  destruct (prepend_spec b d Hp Hf Hs Hd) as (r & b' & Hr & [[-> Ha]|(_&_&_&_&n&Hn)]);
    [by exists b' | by destruct (Hm n)].
Qed.

(** [evbuffer_drain] on any packed buffer. *)
Lemma drain_ok b n :
  packed b -> freeze_start b = false -> 0 <= n ->
  exists b', evbuffer_drain b n = Some (0, b') /\ packed b' /\
    contents b' = zdrop n (contents b) /\ freeze_start b' = false /\ freeze_end b' = freeze_end b.
Proof.
  intros Hp Hf Hn. pose proof (pk_total _ Hp) as Ht. pose proof (zlen_nonneg (contents b)).
  destruct (Z.eq_dec (total_len b) 0) as [H0|H0].
  - exists b. unfold evbuffer_drain. rewrite H0. cbn. splits; try done.
    by rewrite zdrop_ge, (proj1 (zlen_nil_iff (contents b))) by lia.
  - destruct (drain_spec b n Hp Hf Hn H0) as (b' & Hr & Hp' & Hc & Hs & He & _).
    exists b'. rewrite Hs, Hf. splits; try done. rewrite Hc.
    destruct (Z.leb_spec n (total_len b)); [by rewrite Z.min_l by lia|].
    by rewrite Z.min_r, !zdrop_ge by lia.
Qed.

(** [evbuffer_add] on a buffer with no reserved space: it always
    terminates without touching memory outside a chain, and either returns 0
    with exactly the new bytes appended and the invariant kept, or returns -1
    because an allocation failed, with the buffer's data unchanged. *)
Theorem evbuffer_add_appends b d :
  packed b -> freeze_end b = false -> small (zlen d) -> d <> [] ->
  exists r b', evbuffer_add b d = Some (r, b') /\ packed b' /\
    (r = 0 /\ contents b' = contents b ++ d /\ total_len b' = total_len b + zlen d \/
     r = -1 /\ contents b' = contents b /\ exists n, mm_malloc n = None).
Proof.
  intros Hp Hf Hs Hd.
  destruct (add_spec b d Hp Hf Hs (or_introl Hd)) as (r & b' & Hr & Hres).
  exists r, b'. split; [done|]. destruct Hres as [[-> Ha]|(-> & ? & ? & ?)].
  - destruct (appended_facts _ _ _ Ha) as (? & ? & _ & _ & ?). split; [done|]. by left.
  - split; [done|]. by right.
Qed.

(** [evbuffer_prepend] either returns 0 with exactly the new bytes in
    front, or returns -1 after a failed allocation, in which case a tail of
    the new bytes may have stayed in front of the data; the invariant holds
    in both cases. *)
Theorem evbuffer_prepend_prepends b d :
  packed b -> freeze_start b = false -> small (zlen d) -> d <> [] ->
  exists r b', evbuffer_prepend b d = Some (r, b') /\ packed b' /\
    (r = 0 /\ contents b' = d ++ contents b \/
     r = -1 /\ (exists n, mm_malloc n = None) /\
     exists k, 0 <= k <= zlen d /\ contents b' = zdrop k d ++ contents b).
Proof.
  intros Hp Hf Hs Hd.
  destruct (prepend_spec b d Hp Hf Hs Hd) as (r & b' & Hr & Hres).
  exists r, b'. split; [done|].
  destruct Hres as [[-> (? & ? & _)]|(-> & k & Hk & (? & ? & _) & ?)].
  - split; [done|]. by left.
  - split; [done|]. right. split; [done|]. split; [done|]. by exists k.
Qed.

Lemma remove_ok b n :
  packed b -> freeze_start b = false -> 0 <= n -> Z.min n (total_len b) <= INT_MAX ->
  exists b', evbuffer_remove b n =
      Some (Z.min n (total_len b), ztake n (contents b), b') /\
    packed b' /\ contents b' = zdrop n (contents b) /\
    freeze_start b' = false /\ freeze_end b' = freeze_end b.
Proof.
  intros Hp Hf Hn Hmax. pose proof (pk_total _ Hp) as Ht. pose proof (zlen_nonneg (contents b)).
  unfold evbuffer_remove. rewrite copyout_spec by (try done; by apply packed_valid).
  cbn [mbind option_bind].
  assert (Hsw : swrap 32 (Z.min n (total_len b)) = Z.min n (total_len b)).
  { apply swrap_small; unfold INT_MAX in *; lia. }
  destruct (Z.ltb_spec 0 (Z.min n (total_len b))) as [Hpos|Hz].
  - destruct (drain_ok b (Z.min n (total_len b)) Hp Hf ltac:(lia)) as (b' & -> & Hp' & Hc & Hs' & He').
    cbn [mbind option_bind Z.ltb Z.compare]. rewrite Hsw. exists b'. rewrite Hc. splits; try done.
    destruct (Z.leb_spec n (total_len b)); [by rewrite Z.min_l by lia|].
    by rewrite Z.min_r, !zdrop_ge by lia.
  - rewrite Hsw. exists b. splits; try done.
    destruct (Z.eq_dec n 0) as [->|]; [by rewrite zdrop_0|].
    assert (contents b = []) as -> by (apply zlen_nil_iff; lia). by rewrite zdrop_ge by (rewrite zlen_nil; lia).
Qed.

(** [evbuffer_remove] returns the number of bytes it could take, copies
    exactly those bytes from the front and removes them, whatever the chain
    structure, for counts that fit the int it returns. *)
Theorem evbuffer_remove_takes b n :
  packed b -> freeze_start b = false -> 0 <= n -> Z.min n (total_len b) <= INT_MAX ->
  exists b', evbuffer_remove b n =
      Some (Z.min n (total_len b), ztake n (contents b), b') /\
    packed b' /\ contents b' = zdrop n (contents b).
Proof.
  intros Hp Hf Hn Hmax. destruct (remove_ok b n Hp Hf Hn Hmax) as (b' & ? & ? & ? & _). by exists b'.
Qed.

(** [evbuffer_pullup] of up to the whole length gives access to at least
    the bytes asked for, which are the first bytes of the buffer, and changes
    neither the data nor the length; it gives NULL only when an allocation
    failed, the buffer being then untouched. *)
Theorem evbuffer_pullup_linearizes b n :
  packed b -> 0 < n <= total_len b -> small n ->
  exists b' r, evbuffer_pullup b n = Some (r, b') /\ packed b' /\
    contents b' = contents b /\ total_len b' = total_len b /\
    match r with
    | Some bytes => n <= zlen bytes /\ ztake n bytes = ztake n (contents b) /\
                    exists c cs, chains b' = c :: cs /\ bytes = chain_data c
    | None => b' = b /\ exists k, mm_malloc k = None
    end.
Proof.
  intros Hp Hn Hs. destruct (pullup_spec b n Hp Hn Hs) as (b' & r & Hr & Hres).
  exists b', r. split; [done|]. destruct r as [bytes|].
  - destruct Hres as (? & ? & ? & _ & _ & ? & ? & c & cs & ? & <-). splits; try done. by exists c, cs.
  - destruct Hres as [-> ?]. done.
Qed.

Lemma add_buffer_spec outb inb :
  packed outb -> packed inb -> freeze_end outb = false -> freeze_start inb = false ->
  total_len inb <> 0 ->
  exists out' in', evbuffer_add_buffer false outb inb = Some (0, out', in') /\
    moved out' in' outb inb (contents outb ++ contents inb).
Proof.
  intros Hpo Hpi Hfo Hfi Ht. pose proof (pk_total _ Hpo) as Hto.
  apply move_buffer_spec; try done.
  - intros H0. by rewrite (proj1 (zlen_nil_iff (contents outb))) by lia.
  - intros H0. destruct (packed_join outb outb inb Hpo Hpi H0 Ht) as [Hj Hd]. done.
Qed.

Lemma prepend_buffer_spec outb inb :
  packed outb -> packed inb -> freeze_start outb = false -> freeze_start inb = false ->
  total_len inb <> 0 ->
  exists out' in', evbuffer_prepend_buffer false outb inb = Some (0, out', in') /\
    moved out' in' outb inb (contents inb ++ contents outb).
Proof.
  intros Hpo Hpi Hfo Hfi Ht. pose proof (pk_total _ Hpo) as Hto.
  apply move_buffer_spec; try done.
  - intros H0. by rewrite (proj1 (zlen_nil_iff (contents outb))), app_nil_r by lia.
  - intros H0. destruct (packed_join outb inb outb Hpi Hpo Ht H0) as [Hj Hd].
    unfold PREPEND_CHAIN. rewrite (Z.add_comm (total_len outb) (total_len inb)). done.
Qed.


Lemma remove_buffer_ok src dst n :
  packed src -> packed dst -> freeze_start src = false -> freeze_end dst = false ->
  Forall (fun c => has_flag c EVBUFFER_IMMUTABLE = false) (chains src) ->
  mem_ok -> 0 < n -> small n ->
  exists src' dst',
    evbuffer_remove_buffer false src dst n = Some (swrap 32 (Z.min n (total_len src)), src', dst') /\
    packed src' /\ packed dst' /\ contents src' = zdrop n (contents src) /\
    contents dst' = contents dst ++ ztake n (contents src).
Proof.
  intros Hps Hpd Hfs Hfd Him Hm Hn Hs. pose proof (pk_total _ Hps) as Ht.
  destruct (Z.leb_spec (total_len src) n) as [Hle|Hgt].
  - rewrite Z.min_r by lia. unfold evbuffer_remove_buffer.
    rewrite (proj2 (Z.eqb_neq n 0)), Hfs, Hfd, (proj2 (Z.leb_le _ _) Hle) by lia. cbn [orb].
    rewrite ztake_ge, zdrop_ge by lia.
    destruct (Z.eq_dec (total_len src) 0) as [H0|H0].
    + unfold evbuffer_add_buffer, move_buffer. rewrite H0. cbn.
      assert (He : contents src = []) by (apply zlen_nil_iff; lia).
      exists src, dst. by rewrite He, app_nil_r.
    + destruct (add_buffer_spec dst src) as (o & i & -> & ? & ? & ? & ? & _); try done.
      cbn. by exists i, o.
  - rewrite Z.min_l by lia. apply remove_buffer_spec; try done; lia.
Qed.

(** [evbuffer_remove_buffer] moves exactly the first [n] bytes of the
    source to the end of the destination, across chain boundaries, and
    returns [n] reduced to int. *)
Theorem evbuffer_remove_buffer_moves src dst n :
  packed src -> packed dst -> freeze_start src = false -> freeze_end dst = false ->
  Forall (fun c => has_flag c EVBUFFER_IMMUTABLE = false) (chains src) ->
  mem_ok -> 0 < n -> small n ->
  exists src' dst',
    evbuffer_remove_buffer false src dst n = Some (swrap 32 (Z.min n (total_len src)), src', dst') /\
    packed src' /\ packed dst' /\ contents src' = zdrop n (contents src) /\
    contents dst' = contents dst ++ ztake n (contents src).
Proof. apply remove_buffer_ok. Qed.

(** What callbacks are told: a successful [evbuffer_add] of data to a
    buffer without deferred callbacks and without pending changes calls every
    enabled callback once, with the length before and after and the number of
    bytes added; [evbuffer_drain] does the same with the number deleted. *)
Theorem evbuffer_callbacks_notified b d n :
  packed b -> deferred_cbs b = false -> n_add_for_cb b = 0 -> n_del_for_cb b = 0 ->
  (forall b', freeze_end b = false -> small (zlen d) -> d <> [] ->
     evbuffer_add b d = Some (0, b') ->
     cb_calls b' = cb_calls b ++ notify_all b (total_len b) (total_len b + zlen d) (zlen d) 0 /\
     n_add_for_cb b' = 0 /\ n_del_for_cb b' = 0) /\
  (forall b', freeze_start b = false -> 0 < n -> total_len b <> 0 ->
     evbuffer_drain b n = Some (0, b') ->
     let k := Z.min n (total_len b) in
     cb_calls b' = cb_calls b ++ notify_all b (total_len b) (total_len b - k) 0 k /\
     n_add_for_cb b' = 0 /\ n_del_for_cb b' = 0).
Proof.
  intros Hp Hdef Ha0 Hd0. split.
  - intros b' Hf Hs Hd Hrun.
    destruct (add_spec b d Hp Hf Hs (or_introl Hd)) as (r & b2 & Hr & Hres).
    rewrite Hrun in Hr. injection Hr as <- <-. destruct Hres as [[_ Ha]|[Hx _]]; [|lia].
    destruct Ha as (cs & lwd & -> & _).
    assert (zlen d <> 0) by (intros H; by apply zlen_nil_iff in H).
    destruct (invoke_notifies (add_count (set_chains b cs lwd (total_len b + zlen d)) (zlen d)) Hdef)
      as (-> & -> & ->); [cbn; lia|].
    cbn [cb_calls add_count set_counts set_chains n_add_for_cb n_del_for_cb total_len].
    rewrite Ha0, Hd0. replace (total_len b + zlen d + 0 - (0 + zlen d)) with (total_len b) by lia. done.
  - intros b' Hf Hn Ht Hrun k. pose proof (zlen_nonneg (contents b)). pose proof (pk_total _ Hp).
    destruct (drain_spec b n Hp Hf ltac:(lia) Ht) as (b2 & Hr & _ & _ & _ & _ & cs & lwd & ->).
    rewrite Hrun in Hr. injection Hr as ->. fold k.
    destruct (invoke_notifies (del_count (set_chains b cs lwd (total_len b - k)) k) Hdef)
      as (-> & -> & ->); [cbn; lia|].
    cbn [cb_calls del_count set_counts set_chains n_add_for_cb n_del_for_cb total_len].
    rewrite Ha0, Hd0. replace (total_len b - k + (0 + k) - 0) with (total_len b) by lia. done.
Qed.
End props.

(** ** Refinement to an abstract queue of bytes *)

Inductive qop :=
  | QAdd (d : list Z) | QPrepend (d : list Z) | QDrain (n : Z) | QRemove (n : Z)
  | QCopyout (n : Z) | QPullup (n : Z) | QLength.

Inductive qres := RInt (r : Z) | RBytes (r : Z) (d : list Z) | RPtr (o : option (list Z)).

(** What each operation does to a queue of bytes. *)
Definition abstract_step (q : list Z) (op : qop) : qres * list Z :=
  match op with
  | QAdd d => (RInt 0, q ++ d)
  | QPrepend d => (RInt 0, d ++ q)
  | QDrain n => (RInt 0, zdrop n q)
  | QRemove n => (RBytes (Z.min n (zlen q)) (ztake n q), zdrop n q)
  | QCopyout n => (RBytes (Z.min n (zlen q)) (ztake n q), q)
  | QPullup n =>
    let n := if n <? 0 then zlen q else n in
    (RPtr (if (n =? 0) || (zlen q <? n) then None else Some (ztake n q)), q)
  | QLength => (RInt (zlen q), q)
  end.

Fixpoint abstract_run (q : list Z) (ops : list qop) : list qres * list Z :=
  match ops with
  | [] => ([], q)
  | op :: ops =>
    let '(r, q) := abstract_step q op in
    let '(rs, q) := abstract_run q ops in (r :: rs, q)
  end.

Section refinement.
Context {A : Arch} {M : Allocator}.

Definition concrete_step (b : evbuffer) (op : qop) : option (qres * evbuffer) :=
  match op with
  | QAdd d => '(r, b) ← evbuffer_add b d; Some (RInt r, b)
  | QPrepend d => '(r, b) ← evbuffer_prepend b d; Some (RInt r, b)
  | QDrain n => '(r, b) ← evbuffer_drain b n; Some (RInt r, b)
  | QRemove n => '(r, d, b) ← evbuffer_remove b n; Some (RBytes r d, b)
  | QCopyout n => '(r, d) ← evbuffer_copyout b n; Some (RBytes r d, b)
  | QPullup n =>
    '(o, b') ← evbuffer_pullup b n;
    Some (RPtr (ztake (if n <? 0 then total_len b else n) <$> o), b')
  | QLength => Some (RInt (evbuffer_get_length b), b)
  end.

Fixpoint concrete_run (b : evbuffer) (ops : list qop) : option (list qres * evbuffer) :=
  match ops with
  | [] => Some ([], b)
  | op :: ops =>
    '(r, b) ← concrete_step b op;
    '(rs, b) ← concrete_run b ops;
    Some (r :: rs, b)
  end.

(** Arguments a caller may pass: data is not empty, counts are not negative
    (but for [evbuffer_pullup]), and the queue stays below half the address
    space and below [INT_MAX]. *)
Definition op_ok (q : list Z) (op : qop) : Prop :=
  match op with
  | QAdd d | QPrepend d => d <> []
  | QDrain n | QRemove n | QCopyout n => 0 <= n
  | QPullup _ | QLength => True
  end.

Definition queue_ok (q : list Z) : Prop := small (zlen q) /\ zlen q <= INT_MAX.

Fixpoint ops_ok (q : list Z) (ops : list qop) : Prop :=
  match ops with
  | [] => True
  | op :: ops =>
    op_ok q op /\ queue_ok (snd (abstract_step q op)) /\ ops_ok (snd (abstract_step q op)) ops
  end.

(** The simulation relation. *)
Record represents (b : evbuffer) (q : list Z) : Prop := {
  rep_packed : packed b;
  rep_contents : contents b = q;
  rep_start : freeze_start b = false;
  rep_end : freeze_end b = false }.

Lemma small_le j k : j <= k -> small k -> small j.
Proof. unfold small. lia. Qed.

Lemma step_refines b q op :
  mem_ok -> represents b q -> queue_ok q -> op_ok q op -> queue_ok (snd (abstract_step q op)) ->
  exists b', concrete_step b op = Some (fst (abstract_step q op), b') /\
    represents b' (snd (abstract_step q op)).
Proof.
  intros Hm [Hp Hc Hs He] Hq Hok Hq'. pose proof (pk_total _ Hp) as Ht. rewrite Hc in Ht.
  destruct Hq as [Hsm Hmax], Hq' as [Hsm' _]. pose proof (zlen_nonneg q).
  destruct op as [d|d|n|n|n|n|]; cbn [op_ok concrete_step abstract_step fst snd] in *.
  - rewrite zlen_app in Hsm'.
    destruct (add_ok b d Hm Hp He) as (b' & -> & Ha);
      [eapply small_le; [|exact Hsm']; lia | done |].
    apply appended_facts in Ha as (? & Hc' & ? & ? & _). exists b'. split; [done|].
    split; congruence.
  - rewrite zlen_app in Hsm'.
    destruct (prepend_ok b d Hm Hp Hs) as (b' & -> & ? & Hc' & ? & ?);
      [eapply small_le; [|exact Hsm']; lia | done |].
    exists b'. split; [done|]. split; congruence.
  - destruct (drain_ok b n Hp Hs Hok) as (b' & -> & ? & Hc' & ? & ?).
    exists b'. split; [done|]. split; congruence.
  - destruct (remove_ok b n Hp Hs Hok ltac:(lia)) as (b' & -> & ? & Hc' & ? & ?).
    exists b'. rewrite Ht, Hc. split; [done|]. split; congruence.
  - rewrite copyout_spec by (try done; by apply packed_valid). exists b. by rewrite Ht, Hc.
  - rewrite Ht. set (k := if n <? 0 then zlen q else n).
    assert (Hk : 0 <= k) by (unfold k; destruct (Z.ltb_spec n 0); lia).
    destruct ((k =? 0) || (zlen q <? k)) eqn:E.
    + exists b. unfold evbuffer_pullup. rewrite Ht. fold k. by rewrite E.
    + apply orb_false_elim in E as [E1 E2]. apply Z.eqb_neq in E1. apply Z.ltb_ge in E2.
      assert (evbuffer_pullup b n = evbuffer_pullup b k) as ->.
      { unfold evbuffer_pullup. rewrite Ht. fold k. by rewrite (proj2 (Z.ltb_ge k 0)) by lia. }
      destruct (pullup_spec b k Hp) as (b' & r & -> & Hr);
        [lia | eapply small_le; [|exact Hsm]; lia |].
      destruct r as [bytes|]; [|destruct Hr as (_ & j & Hj); by destruct (Hm j)].
      destruct Hr as (? & ? & _ & ? & ? & Hby & _). exists b'. cbn [mbind option_bind fmap option_fmap option_map].
      rewrite Hby, Hc. split; [done|]. split; congruence.
  - exists b. unfold evbuffer_get_length. by rewrite Ht.
Qed.

(** C4: Refinement: every sequence of queue operations on a buffer that
    represents a queue of bytes runs to completion and gives exactly the
    results the abstract queue gives, and the buffer represents the abstract
    queue at the end. *)
Theorem evbuffer_refines_queue ops : forall b q,
  mem_ok -> represents b q -> queue_ok q -> ops_ok q ops ->
  exists b', concrete_run b ops = Some (fst (abstract_run q ops), b') /\
    represents b' (snd (abstract_run q ops)).
Proof.
  induction ops as [|op ops IH]; intros b q Hm Hr Hq Hok; [by exists b|].
  destruct Hok as (Hop & Hq' & Hok). cbn [concrete_run abstract_run].
  destruct (step_refines b q op Hm Hr Hq Hop Hq') as (b1 & -> & Hr1).
  destruct (abstract_step q op) as [r q1]. cbn [fst snd mbind option_bind] in *.
  destruct (IH b1 q1 Hm Hr1 Hq' Hok) as (b2 & -> & Hr2).
  destruct (abstract_run q1 ops) as [rs q2]. cbn [fst snd mbind option_bind] in *. by exists b2.
Qed.

Lemma represents_new : represents evbuffer_new [].
Proof. by split; [apply packed_new|..]. Qed.
End refinement.

(** ** A lost notification *)

Section lost.
Context {A : Arch} {M : Allocator}.

(** When [evbuffer_prepend] has to add a chain in front of a writable,
    non-empty first chain with no space before its data, the data is added
    but the counter for the callbacks grows by that chain's [misalign], which
    is 0: no callback is called at all. *)
Theorem evbuffer_prepend_not_notified b c cs d :
  mem_ok -> packed b -> freeze_start b = false -> small (zlen d) -> d <> [] ->
  chains b = c :: cs -> misalign c = 0 -> has_flag c EVBUFFER_IMMUTABLE = false -> off c <> 0 ->
  deferred_cbs b = false -> n_add_for_cb b = 0 -> n_del_for_cb b = 0 ->
  exists b', evbuffer_prepend b d = Some (0, b') /\ contents b' = d ++ contents b /\
    cb_calls b' = cb_calls b.
Proof.
  intros Hm Hp Hf Hs Hd Hcs Hmis Him Ho Hdef Ha Hdel.
  destruct (prepend_ok b d Hm Hp Hf Hs Hd) as (b' & Hrun & _ & Hc & _).
  exists b'. split; [done|]. split; [done|].
  unfold evbuffer_prepend, evbuffer_prepend_to_first in Hrun. rewrite Hf, Hcs, Him in Hrun.
  rewrite (proj2 (Z.eqb_neq _ _) Ho), Hmis in Hrun. cbn [Z.eqb negb] in Hrun.
  assert (0 < zlen d).
  { pose proof (zlen_nonneg d). destruct (Z.eq_dec (zlen d) 0) as [E|]; [|lia].
    by apply zlen_nil_iff in E. }
  rewrite (proj2 (Z.leb_gt (zlen d) 0)) in Hrun by lia.
  destruct (evbuffer_chain_new (zlen d)) as [[tmp|]|]; cbn [mbind option_bind] in Hrun; [|by inv_opt..].
  destruct (chain_store tmp _ _ _ _) as [t|]; cbn [mbind option_bind] in Hrun; [|done].
  injection Hrun as <-. rewrite invoke_silent; [done | | done | done]. cbn. lia.
Qed.
End lost.

(** ** Witnesses *)

(** The data of two adds, in one chain, with a callback registered. *)
Definition sample_buffer : evbuffer :=
  match evbuffer_add (A := win64) (M := zero_allocator) (evbuffer_add_cb evbuffer_new 7) (bytes_of "hello") with
  | Some (_, b) => b
  | None => evbuffer_new
  end.

Definition zero_mem_ok : mem_ok (M := zero_allocator).
Proof. intros n. discriminate. Defined.

Lemma small_win64 k : k <= 1000000 -> small (A := win64) k.
Proof. intros H. unfold small. cbn. lia. Defined.

Lemma packed_sample : packed (A := win64) sample_buffer.
Proof.
  destruct (add_ok (A := win64) (M := zero_allocator) (evbuffer_add_cb evbuffer_new 7) (bytes_of "hello"))
    as (b' & Hr & Ha); [apply zero_mem_ok | | done | by apply small_win64 | done |].
  - split; cbn; try done. left. constructor.
  - apply appended_facts in Ha as (Hp & _).
    assert (sample_buffer = b') as -> by (unfold sample_buffer; by rewrite Hr). done.
Defined.

#[local] Existing Instance win64.
#[local] Existing Instance zero_allocator.

Lemma evbuffer_add_appends_witness :
  exists b', evbuffer_add sample_buffer [1; 2] = Some (0, b') /\
    contents b' = bytes_of "hello" ++ [1; 2].
Proof.
  destruct (evbuffer_add_appends sample_buffer [1; 2] packed_sample)
    as (r & b' & Hr & _ & [(-> & Hc & _)|(_ & _ & n & Hn)]);
    [reflexivity | apply small_win64; vm_compute; discriminate | discriminate
    | exists b'; split; [exact Hr | exact Hc] | discriminate Hn].
Defined.

Lemma evbuffer_prepend_prepends_witness :
  exists b', evbuffer_prepend sample_buffer [1; 2] = Some (0, b') /\
    contents b' = [1; 2] ++ bytes_of "hello".
Proof.
  destruct (evbuffer_prepend_prepends sample_buffer [1; 2] packed_sample)
    as (r & b' & Hr & _ & [(-> & Hc)|(_ & (n & Hn) & _)]);
    [reflexivity | apply small_win64; vm_compute; discriminate | discriminate
    | exists b'; split; [exact Hr | exact Hc] | discriminate Hn].
Defined.

Lemma evbuffer_remove_takes_witness :
  exists b', evbuffer_remove sample_buffer 2 = Some (2, bytes_of "he", b') /\
    contents b' = bytes_of "llo".
Proof.
  destruct (evbuffer_remove_takes sample_buffer 2 packed_sample) as (b' & Hr & _ & Hc);
    [reflexivity | lia | vm_compute; discriminate | exists b'; split; [exact Hr | exact Hc]].
Defined.

(** Two chains: what is prepended does not fit in front of the data. *)
Definition split_buffer : evbuffer :=
  match evbuffer_prepend sample_buffer (bytes_of "ab") with
  | Some (_, b) => b
  | None => evbuffer_new
  end.

Lemma packed_split : packed split_buffer.
Proof.
  destruct (prepend_ok sample_buffer (bytes_of "ab"))
    as (b' & Hr & Ha); [apply zero_mem_ok | apply packed_sample | done | by apply small_win64 | done |].
  destruct Ha as (Hp & _).
  assert (split_buffer = b') as -> by (unfold split_buffer; by rewrite Hr). done.
Defined.

Lemma evbuffer_pullup_linearizes_witness :
  length (chains split_buffer) = 2%nat /\
  exists b', evbuffer_pullup split_buffer 4 = Some (Some (bytes_of "abhe"), b') /\
    contents b' = bytes_of "abhello".
Proof.
  split; [reflexivity|].
  destruct (evbuffer_pullup_linearizes split_buffer 4 packed_split) as (b' & r & Hr & _ & Hc & _ & _);
    [vm_compute; split; congruence | apply small_win64; lia |].
  exists b'. split; [|exact Hc]. rewrite Hr. f_equal. f_equal.
  destruct r as [bytes|]; vm_compute in Hr; [|discriminate Hr]. injection Hr as <- _. reflexivity.
Defined.


Lemma evbuffer_remove_buffer_moves_witness :
  exists src' dst', evbuffer_remove_buffer false split_buffer sample_buffer 3 = Some (3, src', dst') /\
    contents src' = bytes_of "ello" /\ contents dst' = bytes_of "helloabh".
Proof.
  destruct (evbuffer_remove_buffer_moves split_buffer sample_buffer 3 packed_split packed_sample)
    as (s & d & Hr & _ & _ & Hs & Hd);
    [reflexivity | reflexivity | repeat constructor | apply zero_mem_ok | lia | apply small_win64; lia |].
  exists s, d. split; [exact Hr|]. split; [exact Hs | exact Hd].
Defined.

Lemma evbuffer_callbacks_notified_witness :
  exists b', evbuffer_add sample_buffer [1; 2] = Some (0, b') /\
    cb_calls b' = cb_calls sample_buffer ++
      [{| call_id := 7; call_orig_size := 5; call_new_size := 7; call_n_added := 2; call_n_deleted := 0 |}].
Proof.
  destruct (evbuffer_callbacks_notified sample_buffer [1; 2] 1 packed_sample) as [H _]; [reflexivity..|].
  destruct (add_ok sample_buffer [1; 2]) as (b' & Hr & _);
    [apply zero_mem_ok | apply packed_sample | done | apply small_win64; vm_compute; discriminate | done |].
  exists b'. split; [exact Hr|].
  destruct (H b' eq_refl (small_win64 2 ltac:(lia)) ltac:(discriminate) Hr) as [Hc _]. exact Hc.
Defined.

Lemma evbuffer_refines_queue_witness :
  exists b', concrete_run evbuffer_new
      [QAdd (bytes_of "world"); QPrepend (bytes_of "hello "); QPullup 8; QRemove 7; QLength; QDrain 9]
    = Some ([RInt 0; RInt 0; RPtr (Some (bytes_of "hello wo")); RBytes 7 (bytes_of "hello w"); RInt 4; RInt 0], b')
    /\ contents b' = [].
Proof.
  destruct (evbuffer_refines_queue
      [QAdd (bytes_of "world"); QPrepend (bytes_of "hello "); QPullup 8; QRemove 7; QLength; QDrain 9]
      evbuffer_new []) as (b' & Hr & Hrep).
  - apply zero_mem_ok.
  - apply represents_new.
  - split; [apply small_win64|]; vm_compute; discriminate.
  - vm_compute. repeat split; discriminate.
  - exists b'. split; [exact Hr | exact (rep_contents _ _ Hrep)].
Defined.

Lemma evbuffer_prepend_not_notified_witness :
  exists b', evbuffer_prepend sample_buffer (bytes_of "ab") = Some (0, b') /\
    contents b' = bytes_of "abhello" /\ cb_calls b' = cb_calls sample_buffer.
Proof.
  destruct (chains sample_buffer) as [|c cs] eqn:E; [discriminate E|].
  destruct (evbuffer_prepend_not_notified sample_buffer c cs (bytes_of "ab") zero_mem_ok packed_sample)
    as (b' & Hr & Hc & Hcb); [done | apply small_win64; vm_compute; discriminate | done | exact E | ..].
  1-3: vm_compute in E; injection E as <- _; vm_compute; congruence.
  1-3: reflexivity.
  exists b'. split; [exact Hr|]. split; [exact Hc | exact Hcb].
Defined.
