(* ===== verification/EvExpand.v ===== *)
(** Space at the end of an evbuffer ([buffer.c]): expanding, reserving and
    committing space, scattered reads, gathered writes, formatted output, and
    looking at data in place. *)

From S2P Require Import Prelude EvChain Evbuffer.

(** [struct evbuffer_iovec]: a pointer into a buffer is the index of the chain
    it points into and the position there. *)
Record evbuffer_iovec := { iov_chain : nat; iov_pos : Z; iov_len : Z }.

Definition vec_at (i : nat) (c : evbuffer_chain) (len : Z) : evbuffer_iovec :=
  {| iov_chain := i; iov_pos := CHAIN_SPACE_PTR c; iov_len := len |}.

(** Comparison of [iov_base] with [CHAIN_SPACE_PTR] of the chain at index [i]. *)
Definition vec_is_space (v : evbuffer_iovec) (i : nat) (c : evbuffer_chain) : bool :=
  (iov_chain v =? i)%nat && (iov_pos v =? CHAIN_SPACE_PTR c).

(** The application's writes through a vector. *)
Definition vec_write (b : evbuffer) (v : evbuffer_iovec) (d : list Z) : option evbuffer :=
  c ← chains b !! iov_chain v;
  m ← mem_write (buffer c) (iov_pos v) d;
  Some (set_chains b (<[iov_chain v := set_data c (misalign c) (off c) m]> (chains b))
          (last_with_datap b) (total_len b)).

(** The first chain with space in it: [*last_with_datap], or the one after. *)
Definition first_with_space (b : evbuffer) : nat :=
  match chains b !! last_with_datap b with
  | Some c => if CHAIN_SPACE_LEN c =? 0 then S (last_with_datap b) else last_with_datap b
  | None => last_with_datap b
  end.

Section expand.
Context {A : Arch} {M : Allocator}.

(** The [ok:] label: the index of the chain with the space. *)
Definition expand_ok (b : evbuffer) (i : nat) (datlen : Z) : option (option nat * evbuffer) :=
  c ← chains b !! i;
  if datlen <=? CHAIN_SPACE_LEN c then Some (Some i, b) else None.

(** The [insert_new:] label. *)
Definition expand_insert_new (b : evbuffer) (datlen : Z) : option (option nat * evbuffer) :=
  ob ← evbuffer_chain_insert_new b datlen;
  match ob with
  | None => Some (None, b)
  | Some b' => expand_ok b' (length (chains b') - 1) datlen
  end.

(** The chain returned, or NULL, and the buffer. *)
Definition evbuffer_expand_singlechain (b : evbuffer) (datlen : Z)
  : option (option nat * evbuffer) :=
  let i := first_with_space b in
  let update c := set_chains b (<[i := c]> (chains b)) (last_with_datap b) (total_len b) in
  match chains b !! i with
  | None => expand_insert_new b datlen
  | Some c =>
    if has_flag c (Z.lor EVBUFFER_IMMUTABLE EVBUFFER_MEM_PINNED_ANY) then expand_insert_new b datlen
    else if datlen <=? CHAIN_SPACE_LEN c then expand_ok b i datlen
    else if off c =? 0 then expand_insert_new b datlen
    else if evbuffer_chain_should_realign c datlen then
      c1 ← evbuffer_chain_align c;
      expand_ok (update c1) i datlen
    else if (CHAIN_SPACE_LEN c <? buffer_len c / 8) || (MAX_TO_COPY_IN_EXPAND <? off c) then
      match chains b !! S i with
      | Some c2 => if datlen <=? CHAIN_SPACE_LEN c2 then expand_ok b (S i) datlen
                   else expand_insert_new b datlen
      | None => expand_insert_new b datlen
      end
    else
      oc ← evbuffer_chain_new (wrap size_bits (off c + datlen));
      match oc with
      | None => Some (None, b)
      | Some tmp =>
        d ← mem_read (buffer c) (misalign c) (off c);
        tmp' ← chain_store tmp 0 d (misalign tmp) (off c);
        expand_ok (update tmp') i datlen
      end
  end.

Definition evbuffer_expand (b : evbuffer) (datlen : Z) : option (Z * evbuffer) :=
  '(r, b) ← evbuffer_expand_singlechain b datlen;
  Some (match r with Some _ => 0 | None => -1 end, b).

(** How the loop of [_evbuffer_expand_fast] ends. *)
Inductive fast_end := FastEnough | FastStopped | FastRanOff.

(** The loop, over the chains from [*last_with_datap] on; [at_lwd] says that
    the first of them is that chain.  The chains come back with the empty ones
    realigned, with [avail] and [used]. *)
Fixpoint expand_fast_loop (cs : list evbuffer_chain) (at_lwd : bool) (datlen : Z) (m : nat)
    (avail : Z) (used : nat) : option (list evbuffer_chain * Z * nat * fast_end) :=
  match cs with
  | [] => Some ([], avail, used, FastRanOff)
  | c :: cs' =>
    '(c', avail, used) ← (if negb (off c =? 0) then
        let space := CHAIN_SPACE_LEN c in
        if negb at_lwd then None
        else if negb (space =? 0) then Some (c, avail + space, S used) else Some (c, avail, used)
      else Some (set_window c 0 (off c), avail + buffer_len c, S used));
    if datlen <=? avail then Some (c' :: cs', avail, used, FastEnough)
    else if (used =? m)%nat then Some (c' :: cs', avail, used, FastStopped)
    else
      '(r, avail, used, e) ← expand_fast_loop cs' false datlen m avail used;
      Some (c' :: r, avail, used, e)
  end.

(** Replacing all the empty chains by a new one. *)
Definition expand_fast_nuke (b : evbuffer) (datlen : Z) : option (Z * evbuffer) :=
  let k := last_with_datap b in
  c ← chains b !! k;
  let rmv_all := off c =? 0 in
  if rmv_all && negb (k =? 0)%nat then None else
  let avail := if rmv_all then 0 else CHAIN_SPACE_LEN c in
  let keep := if rmv_all then 0%nat else S k in
  if negb (evbuffer_chains_all_empty (drop keep (chains b))) then None else
  oc ← evbuffer_chain_new (datlen - avail);
  match oc with
  | None => Some (-1, if rmv_all then ZERO_CHAIN b
                      else set_chains b (take keep (chains b)) k (total_len b))
  | Some tmp => Some (0, set_chains b (take keep (chains b) ++ [tmp]) k (total_len b))
  end.

(** [m] is the parameter [n] of the source. *)
Definition _evbuffer_expand_fast (b : evbuffer) (datlen : Z) (m : nat) : option (Z * evbuffer) :=
  if (m <? 2)%nat then None else
  let fresh :=
    oc ← evbuffer_chain_new datlen;
    match oc with
    | None => Some (-1, b)
    | Some c => b' ← evbuffer_chain_insert b c; Some (0, b')
    end in
  match last (chains b) with
  | None => fresh
  | Some l =>
    if has_flag l EVBUFFER_IMMUTABLE then fresh else
    let k := last_with_datap b in
    '(cs, avail, used, e) ← expand_fast_loop (drop k (chains b)) true datlen m 0 0;
    let b1 := set_chains b (take k (chains b) ++ cs) k (total_len b) in
    match e with
    | FastEnough => Some (0, b1)
    | _ =>
      if (used <? m)%nat then
        match e with
        | FastRanOff =>
          oc ← evbuffer_chain_new (datlen - avail);
          match oc with
          | None => Some (-1, b1)
          | Some tmp => Some (0, set_chains b1 (chains b1 ++ [tmp]) k (total_len b))
          end
        | _ => None
        end
      else expand_fast_nuke b1 datlen
    end
  end.

(** ** Vectors over the space *)

(** The loop of [_evbuffer_read_setup_vecs], over the chains from index [i]. *)
Fixpoint setup_vecs_loop (cs : list evbuffer_chain) (i : nat) (howmuch : Z) (room : nat)
    (so_far : Z) (exact : bool) : option (list evbuffer_iovec) :=
  match room with
  | O => Some []
  | S room' =>
    if so_far <? howmuch then
      match cs with
      | [] => None
      | c :: cs' =>
        let avail := CHAIN_SPACE_LEN c in
        let avail := if (howmuch - so_far <? avail) && exact then howmuch - so_far else avail in
        vs ← setup_vecs_loop cs' (S i) howmuch room' (so_far + avail) exact;
        Some (vec_at i c avail :: vs)
      end
    else Some []
  end.

(** The vectors and the index [*chainp] points to; [None] inside is -1. *)
Definition _evbuffer_read_setup_vecs (b : evbuffer) (howmuch : Z) (n_vecs : nat) (exact : bool)
  : option (option (list evbuffer_iovec * nat)) :=
  if howmuch <? 0 then Some None else
  _ ← chains b !! last_with_datap b;
  let i := first_with_space b in
  vs ← setup_vecs_loop (drop i (chains b)) i howmuch n_vecs 0 exact;
  Some (Some (vs, i)).

(** The number of vectors (or -1), the vectors, the buffer. *)
Definition evbuffer_reserve_space (b : evbuffer) (size : Z) (n_vecs : Z)
  : option (Z * list evbuffer_iovec * evbuffer) :=
  if freeze_end b then Some (-1, [], b) else
  if n_vecs <? 1 then Some (-1, [], b) else
  if n_vecs =? 1 then
    '(r, b') ← evbuffer_expand_singlechain b (wrap size_bits size);
    match r with
    | None => Some (-1, [], b')
    | Some i =>
      c ← chains b' !! i;
      if (size <? 0) || (size <=? CHAIN_SPACE_LEN c)
      then Some (1, [vec_at i c (CHAIN_SPACE_LEN c)], b') else None
    end
  else
    '(r, b') ← _evbuffer_expand_fast b (wrap size_bits size) (Z.to_nat n_vecs);
    if r <? 0 then Some (-1, [], b') else
    o ← _evbuffer_read_setup_vecs b' size (Z.to_nat n_vecs) false;
    match o with
    | None => Some (-1, [], b')
    | Some (vs, _) => Some (Z.of_nat (length vs), vs, b')
    end.

(** Pass 1 of [evbuffer_commit_space]: are all vectors in bounds? *)
Fixpoint commit_check (cs : list evbuffer_chain) (i : nat) (vs : list evbuffer_iovec) : bool :=
  match vs with
  | [] => true
  | v :: vs' =>
    match cs with
    | [] => false
    | c :: cs' =>
      if negb (vec_is_space v i c) || (CHAIN_SPACE_LEN c <? iov_len v) then false
      else commit_check cs' (S i) vs'
    end
  end.

(** Pass 2: the chains with their new lengths, and the data pointer. *)
Fixpoint commit_apply (cs : list evbuffer_chain) (i : nat) (vs : list evbuffer_iovec) (lwd : nat)
  : list evbuffer_chain * nat :=
  match cs, vs with
  | c :: cs', v :: vs' =>
    let '(r, lwd') := commit_apply cs' (S i) vs' (if negb (iov_len v =? 0) then i else lwd) in
    (set_window c (misalign c) (off c + iov_len v) :: r, lwd')
  | _, _ => (cs, lwd)
  end.

Definition commit_okay (b : evbuffer) (added : Z) : Z * evbuffer :=
  (0, evbuffer_invoke_callbacks (add_count
        (set_chains b (chains b) (last_with_datap b) (total_len b + added)) added)).

Definition sum_len (vs : list evbuffer_iovec) : Z := foldr (fun v s => iov_len v + s) 0 vs.

Definition evbuffer_commit_space (b : evbuffer) (vs : list evbuffer_iovec) : Z * evbuffer :=
  if freeze_end b then (-1, b) else
  let several :=
    match chains b !! last_with_datap b with
    | None => (-1, b)
    | Some _ =>
      let i := first_with_space b in
      if commit_check (drop i (chains b)) i vs then
        let '(cs, lwd) := commit_apply (drop i (chains b)) i vs (last_with_datap b) in
        commit_okay (set_chains b (take i (chains b) ++ cs) lwd (total_len b)) (sum_len vs)
      else (-1, b)
    end in
  match vs with
  | [] => (0, b)
  | [v] =>
    let k := (length (chains b) - 1)%nat in
    match chains b !! k with
    | Some l =>
      if vec_is_space v k l then
        if CHAIN_SPACE_LEN l <? iov_len v then (-1, b) else
        let b1 := set_chains b (<[k := set_window l (misalign l) (off l + iov_len v)]> (chains b))
                    (last_with_datap b) (total_len b) in
        commit_okay (if negb (iov_len v =? 0) then advance_last_with_data b1 else b1) (iov_len v)
      else several
    | None => several
    end
  | _ => several
  end.
End expand.
