(* ===== verification/EvIO.v ===== *)
(** The input and output of an evbuffer ([buffer.c], the Windows branches):
    scattered reads, gathered writes, formatted output.  What the system calls
    give is an argument. *)

From S2P Require Import Prelude EvChain Evbuffer EvExpand.

Definition EVBUFFER_MAX_READ : Z := 4096.
Definition NUM_READ_IOVEC : nat := 4.
Definition NUM_WRITE_IOVEC : nat := 16.

(** What [WSARecv] reports. *)
Inductive recv_result := RecvBytes (d : list Z) | RecvAborted | RecvFailed.

(** The bytes received go into the vectors in order. *)
Fixpoint scatter (b : evbuffer) (vs : list evbuffer_iovec) (d : list Z) : option evbuffer :=
  match vs with
  | [] => if zlen d =? 0 then Some b else None
  | v :: vs' =>
    b' ← vec_write b v (ztake (iov_len v) d);
    scatter b' vs' (zdrop (iov_len v) d)
  end.

(** The loop that accounts for [remaining] bytes over at most [nvecs] chains
    from index [i] on, and sets the data pointer. *)
Fixpoint read_commit (cs : list evbuffer_chain) (i nvecs : nat) (remaining : Z) (lwd : nat)
  : option (list evbuffer_chain * nat) :=
  match nvecs with
  | O => Some (cs, lwd)
  | S nvecs' =>
    match cs with
    | [] => None
    | c :: cs' =>
      let space := CHAIN_SPACE_LEN c in
      if space <? remaining then
        '(r, lwd') ← read_commit cs' (S i) nvecs' (remaining - space) lwd;
        Some (set_window c (misalign c) (off c + space) :: r, lwd')
      else Some (set_window c (misalign c) (off c + remaining) :: cs', i)
    end
  end.

Section io.
Context {A : Arch} {M : Allocator}.

(** [readable] is what [get_n_bytes_readable_on_socket] gives. *)
Definition evbuffer_read (b : evbuffer) (readable : Z) (recv : list Z -> recv_result)
    (howmuch : Z) : option (Z * evbuffer) :=
  if freeze_end b then Some (-1, b) else
  let n := if (readable <=? 0) || (EVBUFFER_MAX_READ <? readable)
           then EVBUFFER_MAX_READ else readable in
  let howmuch := if (howmuch <? 0) || (n <? howmuch) then n else howmuch in
  '(r, b1) ← _evbuffer_expand_fast b howmuch NUM_READ_IOVEC;
  if r =? -1 then Some (-1, b1) else
  o ← _evbuffer_read_setup_vecs b1 howmuch 2 true;
  '(vs, i) ← o;
  match recv (map iov_len vs) with
  | RecvFailed => Some (-1, b1)
  | RecvAborted => Some (0, b1)
  | RecvBytes d =>
    let n := zlen d in
    if n =? 0 then Some (0, b1) else
    b2 ← scatter b1 vs d;
    '(cs, lwd) ← read_commit (drop i (chains b2)) i (length vs) n (last_with_datap b2);
    Some (n, evbuffer_invoke_callbacks (add_count
      (set_chains b2 (take i (chains b2) ++ cs) lwd (total_len b2 + n)) n))
  end.

(** One [read] of a file: an error or end of file (at most 0), or bytes. *)
Definition file_read := Z -> Z + list Z.

Definition evbuffer_readfile (b : evbuffer) (read1 read2 : file_read) (howmuch : Z)
  : option (Z * evbuffer) :=
  if freeze_end b then Some (-1, b) else
  let howmuch := if howmuch <? 0 then 16384 else howmuch in
  '(nchains, vs, b1) ← evbuffer_reserve_space b howmuch 2;
  if (nchains <? 1) || (2 <? nchains) then Some (-1, b1) else
  v0 ← head vs;
  let short v d := {| iov_chain := iov_chain v; iov_pos := iov_pos v; iov_len := zlen d |} in
  match read1 (iov_len v0) with
  | inl n => Some (n, b1)
  | inr d0 =>
    b2 ← vec_write b1 v0 d0;
    match vs with
    | [_; v1] =>
      match read2 (iov_len v1) with
      | inl _ => Some (zlen d0, snd (evbuffer_commit_space b2 [short v0 d0]))
      | inr d1 =>
        b3 ← vec_write b2 v1 d1;
        Some (zlen d1, snd (evbuffer_commit_space b3 [short v0 d0; short v1 d1]))
      end
    | _ => Some (zlen d0, snd (evbuffer_commit_space b2 [short v0 d0]))
    end
  end.

(** The extents [evbuffer_write_iovec] hands to [WSASend]. *)
Fixpoint write_vecs (cs : list evbuffer_chain) (room : nat) (howmuch : Z)
  : option (list (list Z)) :=
  match cs, room with
  | c :: cs', S room' =>
    if howmuch =? 0 then Some []
    else if off c <=? howmuch then
      d ← mem_read (buffer c) (misalign c) (off c);
      r ← write_vecs cs' room' (howmuch - off c);
      Some (d :: r)
    else
      d ← mem_read (buffer c) (misalign c) howmuch;
      Some [d]
  | _, _ => Some []
  end.

(** [send] gives the number of bytes sent, or -1. *)
Definition evbuffer_write_iovec (b : evbuffer) (send : list (list Z) -> Z) (howmuch : Z)
  : option Z :=
  if howmuch <? 0 then Some (-1) else
  vs ← write_vecs (chains b) NUM_WRITE_IOVEC howmuch;
  match vs with
  | [] => Some 0
  | _ => Some (send vs)
  end.

Definition evbuffer_write_atmost (b : evbuffer) (send : list (list Z) -> Z) (howmuch : Z)
  : option (Z * evbuffer) :=
  if freeze_start b then Some (-1, b) else
  let howmuch := if (howmuch <? 0) || (total_len b <? howmuch) then total_len b else howmuch in
  n ← (if 0 <? howmuch then evbuffer_write_iovec b send howmuch else Some (-1));
  if 0 <? n then
    '(_, b') ← evbuffer_drain b n;
    Some (n, b')
  else Some (n, b).

Definition evbuffer_write (b : evbuffer) (send : list (list Z) -> Z) : option (Z * evbuffer) :=
  evbuffer_write_atmost b send (-1).

(** [evbuffer_add_vprintf]: [d] is the text the format gives, [None] an error.
    [evutil_vsnprintf] writes the text cut to the space and a NUL and gives its
    whole length, but 0 when there is no space. *)
Fixpoint vprintf_loop (fuel : nat) (b : evbuffer) (i : nat) (d : option (list Z))
  : option (Z * evbuffer) :=
  match fuel with
  | O => None
  | S fuel' =>
    c ← chains b !! i;
    let space := CHAIN_SPACE_LEN c in
    match d with
    | None => Some (-1, b)
    | Some d =>
      b1 ← (if 0 <? space
            then vec_write b (vec_at i c space) (ztake (space - 1) d ++ [0]) else Some b);
      let sz := if space =? 0 then 0 else zlen d in
      if sz <? space then
        c1 ← chains b1 !! i;
        let b2 := add_count (set_chains b1 (<[i := set_window c1 (misalign c1) (off c1 + sz)]> (chains b1))
                               (last_with_datap b1) (total_len b1 + sz)) sz in
        Some (sz, evbuffer_invoke_callbacks (advance_last_with_data b2))
      else
        '(r, b2) ← evbuffer_expand_singlechain b1 (wrap size_bits (sz + 1));
        match r with
        | None => Some (-1, b2)
        | Some j => vprintf_loop fuel' b2 j (Some d)
        end
    end
  end.

Definition evbuffer_add_vprintf (b : evbuffer) (d : option (list Z)) : option (Z * evbuffer) :=
  if freeze_end b then Some (-1, b) else
  '(r, b1) ← evbuffer_expand_singlechain b 64;
  match r with
  | None => Some (-1, b1)
  | Some i => vprintf_loop 2 b1 i d
  end.
End io.
