(* ===== verification/EvSearch.v ===== *)
(** Positions in an evbuffer and searches ([buffer.c]): [evbuffer_ptr_set],
    [evbuffer_search_range], the end-of-line searches and [evbuffer_readln],
    [evbuffer_find], [evbuffer_peek]. *)

From S2P Require Import Prelude EvChain Evbuffer EvExpand.

(** [struct evbuffer_ptr]; [ptr_chain] is the index of [_internal.chain]. *)
Record evbuffer_ptr := { pos : Z; ptr_chain : option nat; pos_in_chain : Z }.

Inductive evbuffer_ptr_how := EVBUFFER_PTR_SET | EVBUFFER_PTR_ADD.

Inductive evbuffer_eol_style :=
  EVBUFFER_EOL_ANY | EVBUFFER_EOL_CRLF | EVBUFFER_EOL_CRLF_STRICT | EVBUFFER_EOL_LF.

Definition CR : Z := 13.
Definition LF : Z := 10.

(** The chains from the one a pointer names on. *)
Definition chains_from (b : evbuffer) (o : option nat) : list evbuffer_chain :=
  match o with Some k => drop k (chains b) | None => [] end.

Definition ptr_start (b : evbuffer) : evbuffer_ptr :=
  {| pos := 0; ptr_chain := match chains b with [] => None | _ => Some 0%nat end; pos_in_chain := 0 |}.

(** The data of a chain from its byte [i] on; reading past the data is an error. *)
Definition chain_from (c : evbuffer_chain) (i : Z) : option (list Z) :=
  if off c <? i then None else mem_read (buffer c) (misalign c + i) (off c - i).

(** [memcmp], up to the size of its result. *)
Fixpoint memcmp (l k : list Z) : Z :=
  match l, k with
  | x :: l', y :: k' => if x <? y then -1 else if y <? x then 1 else memcmp l' k'
  | _, _ => 0
  end.

(** ** Setting a position *)

Fixpoint ptr_set_loop (cs : list evbuffer_chain) (k : nat) (position lft : Z)
  : option (nat * Z) :=
  match cs with
  | [] => None
  | c :: cs' =>
    if off c <=? position + lft
    then ptr_set_loop cs' (S k) 0 (lft - (off c - position))
    else Some (k, position + lft)
  end.

Definition evbuffer_ptr_set (b : evbuffer) (p : evbuffer_ptr) (position : Z)
    (how : evbuffer_ptr_how) : Z * evbuffer_ptr :=
  let '(cs, k, newpos, position', lft) :=
    match how with
    | EVBUFFER_PTR_SET => (chains b, 0%nat, position, 0, position)
    | EVBUFFER_PTR_ADD => (chains_from b (ptr_chain p), default 0%nat (ptr_chain p),
                           pos p + position, pos_in_chain p, position)
    end in
  match ptr_set_loop cs k position' lft with
  | Some (k', i) => (0, {| pos := newpos; ptr_chain := Some k'; pos_in_chain := i |})
  | None => (-1, {| pos := -1; ptr_chain := None; pos_in_chain := pos_in_chain p |})
  end.

(** ** Searching for a string *)

Fixpoint ptr_memcmp_loop (cs : list evbuffer_chain) (position : Z) (mem : list Z) : option Z :=
  match mem, cs with
  | [], _ => Some 0
  | _, [] => Some 0
  | _, c :: cs' =>
    let n_comparable := if off c <? zlen mem + position then off c - position else zlen mem in
    d ← mem_read (buffer c) (misalign c + position) n_comparable;
    let r := memcmp d (ztake n_comparable mem) in
    if negb (r =? 0) then Some r
    else ptr_memcmp_loop cs' 0 (zdrop n_comparable mem)
  end.

Definition evbuffer_ptr_memcmp (b : evbuffer) (p : evbuffer_ptr) (mem : list Z) : option Z :=
  if total_len b <? pos p + zlen mem then Some (-1)
  else ptr_memcmp_loop (chains_from b (ptr_chain p)) (pos_in_chain p) mem.

Definition ptr_not_found (p : evbuffer_ptr) : evbuffer_ptr :=
  {| pos := -1; ptr_chain := None; pos_in_chain := pos_in_chain p |}.

(** [chain == last_chain], where [last_chain] is NULL without an [end]. *)
Definition is_last_chain (end_ : option evbuffer_ptr) (k : nat) : bool :=
  match end_ with Some e => bool_decide (ptr_chain e = Some k) | None => false end.

(** The loop of [evbuffer_search_range]; [cs] are the chains from index [k] on,
    [last_chain] and [end_pos] describe [end]. *)
Fixpoint search_loop (fuel : nat) (b : evbuffer) (cs : list evbuffer_chain) (k : nat) (ps i : Z)
    (what : list Z) (first : Z) (end_ : option evbuffer_ptr) : option evbuffer_ptr :=
  match fuel with
  | O => None
  | S fuel' =>
    match cs with
    | [] => Some {| pos := -1; ptr_chain := None; pos_in_chain := i |}
    | c :: cs' =>
      d ← chain_from c i;
      let here q j := {| pos := q; ptr_chain := Some k; pos_in_chain := j |} in
      match memchr first d with
      | Some n =>
        let p := here (ps + n) (i + n) in
        r ← evbuffer_ptr_memcmp b p what;
        if r =? 0 then
          match end_ with
          | Some e => if pos e <? ps + n + zlen what then Some (ptr_not_found p) else Some p
          | None => Some p
          end
        else if i + n + 1 =? off c
        then search_loop fuel' b cs' (S k) (ps + n + 1) 0 what first end_
        else search_loop fuel' b cs k (ps + n + 1) (i + n + 1) what first end_
      | None =>
        if is_last_chain end_ k then Some (ptr_not_found (here ps i))
        else search_loop fuel' b cs' (S k) (ps + (off c - i)) 0 what first end_
      end
    end
  end.

(** Enough rounds: every one passes a byte or a chain. *)
Definition search_fuel (cs : list evbuffer_chain) : nat :=
  S (foldr (fun c s => Z.to_nat (off c) + 1 + s) 0 cs)%nat.

Section search.
Context {A : Arch} {M : Allocator}.

Definition evbuffer_search_range (b : evbuffer) (what : list Z)
    (start end_ : option evbuffer_ptr) : option evbuffer_ptr :=
  let p := default (ptr_start b) start in
  match what with
  | [] => Some p
  | first :: _ =>
    if 2 ^ (size_bits - 1) - 1 <? zlen what then Some p else
    search_loop (search_fuel (chains b)) b (chains_from b (ptr_chain p))
      (default 0%nat (ptr_chain p)) (pos p) (pos_in_chain p) what first end_
  end.

Definition evbuffer_search (b : evbuffer) (what : list Z) (start : option evbuffer_ptr)
  : option evbuffer_ptr :=
  evbuffer_search_range b what start None.

(** The pointer returned: the bytes from the match on, or NULL. *)
Definition evbuffer_find (b : evbuffer) (what : list Z) : option (option (list Z) * evbuffer) :=
  p ← evbuffer_search b what None;
  if pos p <? 0 then Some (None, b)
  else
    x ← evbuffer_pullup b (pos p + zlen what);
    Some (option_map (zdrop (pos p)) (fst x), snd x).

(** ** Ends of lines *)

(** The scan both character searches make over the chains, with [f] the search
    in one block; the pointer found, or NULL. *)
Fixpoint find_loop (f : list Z -> option Z) (cs : list evbuffer_chain) (k : nat) (ps i : Z)
  : option (option evbuffer_ptr) :=
  match cs with
  | [] => Some None
  | c :: cs' =>
    d ← chain_from c i;
    match f d with
    | Some n => Some (Some {| pos := ps + n; ptr_chain := Some k; pos_in_chain := i + n |})
    | None => find_loop f cs' (S k) (ps + (off c - i)) 0
    end
  end.

Definition evbuffer_strchr (b : evbuffer) (it : evbuffer_ptr) (chr : Z)
  : option (option evbuffer_ptr) :=
  find_loop (memchr chr) (chains_from b (ptr_chain it)) (default 0%nat (ptr_chain it))
    (pos it) (pos_in_chain it).

Definition CHUNK_SZ : Z := 128.

(** [find_eol_char]: the first CR or LF, chunk by chunk. *)
Fixpoint find_eol_loop (fuel : nat) (s : list Z) (base : Z) : option Z :=
  match fuel with
  | O => None
  | S fuel' =>
    if 0 <? zlen s then
      let chunk := if CHUNK_SZ <? zlen s then CHUNK_SZ else zlen s in
      let cr := memchr CR (ztake chunk s) in
      let lf := memchr LF (ztake chunk s) in
      match cr, lf with
      | Some c, Some l => if l <? c then Some (base + l) else Some (base + c)
      | Some c, None => Some (base + c)
      | None, Some l => Some (base + l)
      | None, None => find_eol_loop fuel' (zdrop CHUNK_SZ s) (base + CHUNK_SZ)
      end
    else None
  end.

Definition find_eol_char (s : list Z) : option Z := find_eol_loop (S (length s)) s 0.

Definition evbuffer_find_eol_char (b : evbuffer) (it : evbuffer_ptr) : option (option evbuffer_ptr) :=
  find_loop find_eol_char (chains_from b (ptr_chain it)) (default 0%nat (ptr_chain it))
    (pos it) (pos_in_chain it).

(** The number of leading bytes of a block that are in the set. *)
Fixpoint span_len (chrset l : list Z) : Z :=
  match l with
  | x :: l' => if existsb (Z.eqb x) chrset then 1 + span_len chrset l' else 0
  | [] => 0
  end.

Fixpoint strspn_loop (chrset : list Z) (cs : list evbuffer_chain) (k : nat) (i count : Z)
  : option (Z * nat * Z) :=
  match cs with
  | [] => None
  | c :: cs' =>
    d ← (if off c <? i then Some [] else chain_from c i);
    let n := span_len chrset d in
    if n <? zlen d then Some (count + n, k, i + n)
    else match cs' with
         | [] => Some (count + n, k, 0)
         | _ => strspn_loop chrset cs' (S k) 0 (count + n)
         end
  end.

Definition evbuffer_strspn (b : evbuffer) (p : evbuffer_ptr) (chrset : list Z)
  : option (Z * evbuffer_ptr) :=
  match ptr_chain p with
  | None => Some (-1, p)
  | Some k0 =>
    '(count, k, i) ← strspn_loop chrset (chains_from b (ptr_chain p)) k0 (pos_in_chain p) 0;
    Some (count, {| pos := pos p + count; ptr_chain := Some k; pos_in_chain := i |})
  end.

Definition evbuffer_getchr (b : evbuffer) (it : evbuffer_ptr) : option Z :=
  k ← ptr_chain it;
  c ← chains b !! k;
  d ← mem_read (buffer c) (misalign c + pos_in_chain it) 1;
  head d.

(** The loop of [EVBUFFER_EOL_CRLF]: the pointer and the length of the end of
    line, [None] when there is none. *)
Fixpoint eol_crlf_loop (fuel : nat) (b : evbuffer) (it : evbuffer_ptr)
  : option (option (evbuffer_ptr * Z)) :=
  match fuel with
  | O => None
  | S fuel' =>
    o ← evbuffer_find_eol_char b it;
    match o with
    | None => Some None
    | Some it =>
      ch ← evbuffer_getchr b it;
      if ch =? LF then Some (Some (it, 1))
      else
        r ← evbuffer_ptr_memcmp b it [CR; LF];
        if r =? 0 then Some (Some (it, 2))
        else
          let '(r, it') := evbuffer_ptr_set b it 1 EVBUFFER_PTR_ADD in
          if r <? 0 then Some None else eol_crlf_loop fuel' b it'
    end
  end.

(** The position of the end of line and its length; the position is negative
    when there is none. *)
Definition evbuffer_search_eol (b : evbuffer) (start : option evbuffer_ptr)
    (eol_style : evbuffer_eol_style) : option (option evbuffer_ptr * Z) :=
  let it := default (ptr_start b) start in
  match eol_style with
  | EVBUFFER_EOL_ANY =>
    o ← evbuffer_find_eol_char b it;
    match o with
    | None => Some (None, 0)
    | Some it =>
      '(extra_drain, _) ← evbuffer_strspn b it [CR; LF];
      Some (Some it, extra_drain)
    end
  | EVBUFFER_EOL_CRLF_STRICT =>
    it ← evbuffer_search b [CR; LF] (Some it);
    if pos it <? 0 then Some (None, 0) else Some (Some it, 2)
  | EVBUFFER_EOL_CRLF =>
    o ← eol_crlf_loop (search_fuel (chains b)) b it;
    match o with
    | None => Some (None, 0)
    | Some (it, extra_drain) => Some (Some it, extra_drain)
    end
  | EVBUFFER_EOL_LF =>
    o ← evbuffer_strchr b it LF;
    match o with
    | None => Some (None, 0)
    | Some it => Some (Some it, 1)
    end
  end.

(** The line, or NULL, the count stored in [n_read_out], and the buffer. *)
Definition evbuffer_readln (b : evbuffer) (eol_style : evbuffer_eol_style)
  : option (option (list Z) * Z * evbuffer) :=
  if freeze_start b then Some (None, 0, b) else
  '(o, extra_drain) ← evbuffer_search_eol b None eol_style;
  match o with
  | None => Some (None, 0, b)
  | Some it =>
    let n_to_copy := pos it in
    match mm_malloc (n_to_copy + 1) with
    | None => Some (None, 0, b)
    | Some _ =>
      '(_, line, b1) ← evbuffer_remove b n_to_copy;
      '(_, b2) ← evbuffer_drain b1 extra_drain;
      Some (Some line, n_to_copy, b2)
    end
  end.

(** ** Looking at data in place *)

(** The loop of [evbuffer_peek]: the vectors filled and the final [idx]. *)
Fixpoint peek_loop (cs : list evbuffer_chain) (k : nat) (len so_far : Z) (idx n_vec : nat)
  : list evbuffer_iovec * nat :=
  match cs with
  | [] => ([], idx)
  | c :: cs' =>
    if (0 <=? len) && (len <=? so_far) then ([], idx)
    else if (idx <? n_vec)%nat then
      let '(vs, j) := peek_loop cs' (S k) len (so_far + off c) (S idx) n_vec in
      ({| iov_chain := k; iov_pos := misalign c; iov_len := off c |} :: vs, j)
    else if len <? 0 then ([], idx)
    else peek_loop cs' (S k) len (so_far + off c) (S idx) n_vec
  end.

(** The vectors filled and the number of extents needed. *)
Definition evbuffer_peek (b : evbuffer) (len : Z) (start_at : option evbuffer_ptr) (n_vec : nat)
  : option (list evbuffer_iovec * nat) :=
  '(cs, k, v0, so_far, idx) ← (match start_at with
      | Some p =>
        k ← ptr_chain p;
        c ← chains b !! k;
        let so_far := off c - pos_in_chain p in
        Some (drop (S k) (chains b), S k,
              if (0 <? n_vec)%nat
              then [{| iov_chain := k; iov_pos := misalign c + pos_in_chain p; iov_len := so_far |}]
              else [], so_far, 1%nat)
      | None => Some (chains b, 0%nat, [], 0, 0%nat)
      end);
  let len := if (n_vec =? 0)%nat && (len <? 0) then total_len b - so_far else len in
  let '(vs, j) := peek_loop cs k len so_far idx n_vec in
  Some (v0 ++ vs, j).
End search.
