(* ===== verification/EvSearchSpec.v ===== *)
(** The searches of [EvSearch] find what a search of the bytes finds: first
    occurrence of a string, ends of lines in every style, lines read. *)

From S2P Require Import Prelude EvChain Evbuffer EvExpand EvSearch EvbufferSpec EvbufferProps.

(** ** Positions *)

(** Position [q] is byte [i] of the chain at index [k]. *)
Record located (b : evbuffer) (k : nat) (i q : Z) : Prop := {
  lo_pos : q = zlen (data_of (take k (chains b))) + i;
  lo_in : 0 <= i <= match drop k (chains b) with c :: _ => off c | [] => 0 end }.

Definition ptr_located (b : evbuffer) (p : evbuffer_ptr) : Prop :=
  exists k, ptr_chain p = Some k /\ located b k (pos_in_chain p) (pos p).

Section positions.
Context (b : evbuffer) (Hok : Forall chain_ok (chains b)).

Lemma drop_ok k c cs : drop k (chains b) = c :: cs ->
  chain_ok c /\ Forall chain_ok cs /\ drop (S k) (chains b) = cs.
Proof using Hok.
  intros H. assert (Hf : Forall chain_ok (drop k (chains b))) by by apply Forall_drop.
  rewrite H in Hf. apply Forall_cons_split in Hf as [Hc Hf].
  split; [done|]. split; [done|].
  by rewrite <- Nat.add_1_r, Nat.add_comm, Nat.add_comm, <- drop_drop, H.
Qed.

Lemma chain_from_ok c i : chain_ok c -> 0 <= i <= off c ->
  chain_from c i = Some (zdrop i (chain_data c)).
Proof.
  intros [] Hi. unfold chain_from, chain_data. rewrite (proj2 (Z.ltb_ge _ _)) by lia.
  rewrite mem_read_Some by lia. rewrite zdrop_ztake by lia. by rewrite zdrop_zdrop by lia.
Qed.

Lemma located_data k i q : located b k i q ->
  0 <= q /\ zdrop q (contents b) = zdrop i (data_of (drop k (chains b))).
Proof.
  intros [-> Hi]. pose proof (zlen_nonneg (data_of (take k (chains b)))). split; [lia|].
  unfold contents. rewrite <- (take_drop k (chains b)) at 2. rewrite data_of_app, zdrop_app_ge by lia.
  f_equal. lia.
Qed.

(** What [located] says at a chain. *)
Lemma located_cons k i q c cs :
  located b k i q -> drop k (chains b) = c :: cs ->
  chain_ok c /\ 0 <= i <= off c /\ chain_from c i = Some (zdrop i (chain_data c)) /\
  zlen (zdrop i (chain_data c)) = off c - i /\
  zdrop q (contents b) = zdrop i (chain_data c) ++ data_of cs.
Proof using Hok.
  intros Hl Hk. destruct (located_data k i q Hl) as [_ Hd]. destruct Hl as [_ Hi].
  rewrite Hk in Hi, Hd. destruct (drop_ok k c cs Hk) as (Hc & _ & _).
  pose proof (chain_data_len c Hc). split; [done|]. split; [lia|]. split; [by apply chain_from_ok|].
  split; [rewrite zlen_zdrop; lia|].
  by rewrite Hd, data_of_cons, zdrop_app_le by lia.
Qed.

Lemma located_advance k i q j c cs :
  located b k i q -> drop k (chains b) = c :: cs -> 0 <= j -> i + j <= off c ->
  located b k (i + j) (q + j).
Proof.
  intros [Hq Hi] Hk Hj Hij. split; [lia|]. rewrite Hk in *. lia.
Qed.

Lemma located_next k i q c cs :
  located b k i q -> drop k (chains b) = c :: cs -> located b (S k) 0 (q + (off c - i)).
Proof using Hok.
  intros [Hq Hi] Hk. destruct (drop_ok k c cs Hk) as (Hc & Hcs & Hdr).
  assert (chains b !! k = Some c) as Hlk.
  { rewrite <- (Nat.add_0_r k), <- lookup_drop, Hk. done. }
  split; [|rewrite Hdr; destruct cs as [|c2 cs2]; [lia|]; apply Forall_cons_split in Hcs as [[] _]; lia].
  rewrite (take_S_r _ _ _ Hlk), data_of_app, zlen_app, data_of_single, (chain_data_len c Hc). lia.
Qed.

Lemma located_start : located b 0 0 0.
Proof using Hok.
  split; [done|]. rewrite drop_0. destruct (chains b); [lia|].
  apply Forall_cons_split in Hok as [[] _]. lia.
Qed.

(** ** The scan for a character *)

(** The result of a scan from position [q]: the first byte that satisfies [P]. *)
Definition scan_result (P : Z -> bool) (q : Z) (o : option evbuffer_ptr) : Prop :=
  match memfind P (zdrop q (contents b)) with
  | Some n => exists p k c cs, o = Some p /\ pos p = q + n /\ ptr_chain p = Some k /\
      located b k (pos_in_chain p) (pos p) /\ drop k (chains b) = c :: cs /\ pos_in_chain p < off c
  | None => o = None
  end.

Lemma find_loop_spec f P cs : forall k i q,
  (forall l, f l = memfind P l) -> located b k i q -> drop k (chains b) = cs ->
  exists o, find_loop f cs k q i = Some o /\ scan_result P q o.
Proof using Hok.
  induction cs as [|c cs IH]; intros k i q Hf Hl Hk; cbn [find_loop].
  - exists None. split; [done|]. unfold scan_result.
    destruct (located_data k i q Hl) as [_ Hd]. destruct Hl as [_ Hi].
    rewrite Hd, Hk. rewrite Hk in Hi. by rewrite zdrop_ge by (change (zlen (data_of [])) with 0; lia).
  - destruct (located_cons k i q c cs Hl Hk) as (Hc & Hi & -> & Hlen & Hdat).
    cbn [mbind option_bind]. rewrite Hf. unfold scan_result. rewrite Hdat, memfind_app.
    destruct (memfind P (zdrop i (chain_data c))) as [n|] eqn:En.
    + pose proof (memfind_range _ _ _ En). eexists. split; [done|].
      exists {| pos := q + n; ptr_chain := Some k; pos_in_chain := i + n |}, k, c, cs.
      cbn [pos ptr_chain pos_in_chain].
      split; [done|]. split; [done|]. split; [done|].
      split; [apply (located_advance k i q n c cs); try done; lia|]. split; [done|]. lia.
    + destruct (IH (S k) 0 (q + (off c - i)) Hf) as (o & -> & Ho);
        [by eapply located_next | by apply (drop_ok k c cs) |].
      exists o. split; [done|]. unfold scan_result in Ho.
      destruct (located_data k i q Hl) as [Hq _]. rewrite <- (zdrop_zdrop _ (off c - i) q) in Ho by lia.
      rewrite Hdat, zdrop_exact in Ho by lia.
      destruct (memfind P (data_of cs)) as [n|]; cbn [fmap option_fmap option_map]; [|done].
      destruct Ho as (p & k' & c' & cs' & ? & ? & ?). exists p, k', c', cs'. split; [done|].
      split; [lia | done].
Qed.
(** ** Comparing at a position *)

Lemma memcmp_eq l : forall r, length l = length r -> (memcmp l r =? 0) = bool_decide (l = r).
Proof.
  induction l as [|x l IH]; intros [|y r]; cbn [memcmp length]; try done. intros [= Hl].
  destruct (Z.ltb_spec x y); [by rewrite bool_decide_eq_false_2 by (intros [= -> _]; lia)|].
  destruct (Z.ltb_spec y x); [by rewrite bool_decide_eq_false_2 by (intros [= -> _]; lia)|].
  rewrite IH by done. assert (x = y) as -> by lia.
  apply bool_decide_ext. split; [by intros -> | by intros [= ->]].
Qed.

(** Comparing a prefix in two parts. *)
Lemma starts_with_split n what l :
  0 <= n <= zlen what -> zlen what <= zlen l ->
  starts_with what l =
    bool_decide (ztake n l = ztake n what) && starts_with (zdrop n what) (zdrop n l).
Proof.
  intros Hn Hl. unfold starts_with. rewrite zlen_zdrop by lia.
  assert (Hd : zdrop n (ztake (zlen what) l) = ztake (zlen what - n) (zdrop n l))
    by (by apply zdrop_ztake).
  assert (Ht : ztake n (ztake (zlen what) l) = ztake n l) by (apply ztake_ztake; lia).
  destruct (decide (ztake n l = ztake n what)) as [E|E].
  - rewrite (bool_decide_eq_true_2 (ztake n l = _)) by done. cbn [andb].
    apply bool_decide_ext. split; intros Ha; [by rewrite <- Hd, Ha|].
    rewrite <- (ztake_zdrop (ztake (zlen what) l) n), Hd, Ht, Ha, E. apply ztake_zdrop.
  - rewrite (bool_decide_eq_false_2 (ztake n l = _)) by done. apply bool_decide_eq_false_2.
    intros Ha. apply E. by rewrite <- Ht, Ha.
Qed.

Lemma ptr_memcmp_loop_nil cs i : ptr_memcmp_loop cs i [] = Some 0.
Proof. by destruct cs. Qed.

Lemma ptr_memcmp_loop_spec cs : forall k i q mem,
  located b k i q -> drop k (chains b) = cs -> zlen mem <= zlen (zdrop q (contents b)) ->
  exists r, ptr_memcmp_loop cs i mem = Some r /\
    (r =? 0) = starts_with mem (zdrop q (contents b)).
Proof using Hok.
  induction cs as [|c cs IH]; intros k i q mem Hl Hk Hlen.
  - destruct (located_data k i q Hl) as [_ Hd]. destruct Hl as [_ Hi]. rewrite Hk in Hi, Hd.
    rewrite Hd, zdrop_ge in Hlen by (change (zlen (data_of [])) with 0; lia).
    assert (mem = []) as -> by (apply zlen_nil_iff; pose proof (zlen_nonneg mem); rewrite zlen_nil in Hlen; lia).
    by exists 0.
  - destruct (located_cons k i q c cs Hl Hk) as (Hc & Hi & _ & Hdl & Hdat).
    destruct (decide (mem = [])) as [->|Hne]; [by exists 0|].
    pose proof (zlen_nonneg mem). destruct Hc as [Hm Ho Hf Hb].
    destruct mem as [|m0 mem0] eqn:Hmem; [done|]. rewrite <- Hmem in *. cbn [ptr_memcmp_loop]. rewrite Hmem.
    cbn [ptr_memcmp_loop]. rewrite <- Hmem. clear Hmem m0 mem0.
    set (n := if off c <? zlen mem + i then _ else _).
    assert (Hn : 0 <= n <= zlen mem /\ n <= off c - i /\ (n = zlen mem \/ n = off c - i))
      by (unfold n; destruct (Z.ltb_spec (off c) (zlen mem + i)); lia).
    rewrite mem_read_Some by lia. cbn [mbind option_bind].
    assert (Hd : ztake n (zdrop (misalign c + i) (buffer c)) = ztake n (zdrop q (contents b))).
    { rewrite Hdat, ztake_app_le by lia. unfold chain_data.
      rewrite zdrop_ztake by lia. rewrite ztake_ztake by lia. by rewrite zdrop_zdrop by lia. }
    rewrite Hd, (starts_with_split n mem (zdrop q (contents b))) by lia.
    rewrite memcmp_eq.
    2: { assert (E : zlen (ztake n (zdrop q (contents b))) = zlen (ztake n mem)) by (rewrite !zlen_ztake; lia).
         unfold zlen in E. lia. }
    destruct (bool_decide _) eqn:E; cbn [negb andb].
    2: { eexists. split; [done|]. rewrite memcmp_eq; [done|].
         assert (E2 : zlen (ztake n (zdrop q (contents b))) = zlen (ztake n mem)) by (rewrite !zlen_ztake; lia).
         unfold zlen in E2. lia. }
    destruct Hn as (Hn0 & Hn1 & [Hn2|Hn2]).
    + rewrite (zdrop_ge mem) by lia. rewrite ptr_memcmp_loop_nil. exists 0. split; [done|].
      unfold starts_with. by rewrite bool_decide_eq_true_2.
    + destruct (IH (S k) 0 (q + (off c - i)) (zdrop n mem)) as (r & -> & Hr);
        [by eapply located_next | by apply (drop_ok k c cs) | |].
      * destruct (located_data k i q Hl) as [Hq _].
        rewrite <- zdrop_zdrop by lia. rewrite <- Hn2, (zlen_zdrop mem), (zlen_zdrop (zdrop q (contents b))) by lia. lia.
      * exists r. split; [done|]. rewrite Hr, <- Hn2. destruct (located_data k i q Hl) as [Hq _].
        by rewrite zdrop_zdrop by lia.
Qed.
(** ** Searching *)

Lemma find_sub_hit x w l n :
  memchr x l = Some n -> starts_with (x :: w) (zdrop n l) = true -> find_sub (x :: w) l = Some n.
Proof.
  intros Hn Hs. rewrite find_sub_memchr, Hn. destruct (memfind_Some _ _ _ Hn) as (y & r & Hd & _).
  rewrite Hd in *. cbn [find_sub]. rewrite Hs. cbn. f_equal. lia.
Qed.

Lemma find_sub_miss x w l n :
  memchr x l = Some n -> starts_with (x :: w) (zdrop n l) = false ->
  find_sub (x :: w) l = Z.add (n + 1) <$> find_sub (x :: w) (zdrop (n + 1) l).
Proof.
  intros Hn Hs. rewrite find_sub_memchr, Hn. destruct (memfind_Some _ _ _ Hn) as (y & r & Hd & _).
  pose proof (memfind_range _ _ _ Hn). rewrite <- zdrop_zdrop by lia.
  rewrite Hd in *. cbn [find_sub]. rewrite Hs. change (zdrop 1 (y :: r)) with r.
  destruct (find_sub _ r); cbn [fmap option_fmap option_map]; [f_equal; lia | done].
Qed.

Lemma find_sub_skip x w d r :
  memchr x d = None -> find_sub (x :: w) (d ++ r) = Z.add (zlen d) <$> find_sub (x :: w) r.
Proof.
  intros Hn. rewrite (find_sub_memchr x w (d ++ r)). unfold memchr in *. rewrite memfind_app, Hn.
  rewrite (find_sub_memchr x w r). unfold memchr.
  destruct (memfind (Z.eqb x) r) as [j|] eqn:E; cbn [fmap option_fmap option_map]; [|done].
  pose proof (memfind_range _ _ _ E). rewrite zdrop_app_ge by lia.
  replace (zlen d + j - zlen d) with j by lia.
  destruct (find_sub _ (zdrop j r)); cbn [fmap option_fmap option_map]; [f_equal; lia | done].
Qed.

Lemma ptr_memcmp_spec p mem :
  total_len b = zlen (contents b) -> ptr_located b p -> pos p <= zlen (contents b) ->
  exists r, evbuffer_ptr_memcmp b p mem = Some r /\
    (r =? 0) = starts_with mem (zdrop (pos p) (contents b)).
Proof using Hok.
  intros Ht (k & Hk & Hl) Hp. destruct (located_data _ _ _ Hl) as [Hq _].
  unfold evbuffer_ptr_memcmp. rewrite Ht, Hk. cbn [chains_from].
  destruct (Z.ltb_spec (zlen (contents b)) (pos p + zlen mem)) as [Hlt|Hge].
  - exists (-1). split; [done|]. symmetry. apply not_true_is_false.
    intros Hs%starts_with_long. rewrite zlen_zdrop in Hs; lia.
  - apply (ptr_memcmp_loop_spec _ k); try done. rewrite zlen_zdrop; lia.
Qed.

(** What a search for [what] from position [q] must give. *)
Definition past_end (end_ : option evbuffer_ptr) (q : Z) : bool :=
  match end_ with Some e => pos e <? q | None => false end.

Definition search_result (what : list Z) (end_ : option evbuffer_ptr) (q : Z) (p : evbuffer_ptr)
  : Prop :=
  match find_sub what (zdrop q (contents b)) with
  | Some n => if past_end end_ (q + n + zlen what) then pos p = -1
              else pos p = q + n /\ ptr_located b p
  | None => pos p = -1
  end.

Lemma search_result_shift what end_ q n p :
  0 <= q -> 0 <= n ->
  find_sub what (zdrop q (contents b)) = Z.add n <$> find_sub what (zdrop (q + n) (contents b)) ->
  search_result what end_ (q + n) p -> search_result what end_ q p.
Proof.
  intros Hq Hn Hf. unfold search_result. rewrite Hf.
  destruct (find_sub what (zdrop (q + n) (contents b))) as [m|]; cbn [fmap option_fmap option_map]; [|done].
  replace (q + (n + m)) with (q + n + m) by lia. done.
Qed.

Lemma end_of_chain e k c cs (x : Z) w q i n :
  ptr_located b e -> ptr_chain e = Some k -> drop k (chains b) = c :: cs -> located b k i q ->
  off c - i <= n -> pos e < q + n + zlen (x :: w).
Proof.
  intros (k' & Hk' & [He Hin]) Hk Hd [Hq Hi] Hn. rewrite Hk in Hk'. injection Hk' as <-.
  rewrite Hd in *. rewrite zlen_cons. pose proof (zlen_nonneg w). lia.
Qed.

Lemma search_loop_spec x w end_ fuel : forall cs k i q,
  total_len b = zlen (contents b) ->
  match end_ with Some e => ptr_located b e | None => True end ->
  located b k i q -> drop k (chains b) = cs ->
  (Z.to_nat (zlen (zdrop q (contents b))) + length cs < fuel)%nat ->
  exists p, search_loop fuel b cs k q i (x :: w) x end_ = Some p /\ search_result (x :: w) end_ q p.
Proof using Hok.
  induction fuel as [|fuel IH]; intros cs k i q Ht He Hl Hk Hf; [lia|].
  cbn [search_loop]. destruct cs as [|c cs].
  - eexists. split; [done|]. destruct (located_data k i q Hl) as [_ Hd]. destruct Hl as [_ Hi].
    unfold search_result. rewrite Hd, Hk. rewrite Hk in Hi.
    by rewrite zdrop_ge by (change (zlen (data_of [])) with 0; lia).
  - destruct (located_cons k i q c cs Hl Hk) as (Hc & Hi & -> & Hlen & Hdat).
    destruct (located_data k i q Hl) as [Hq _]. cbn [mbind option_bind length] in *.
    assert (Hln : zlen (zdrop q (contents b)) = off c - i + zlen (data_of cs)) by (rewrite Hdat, zlen_app; lia).
    pose proof (zlen_nonneg (data_of cs)).
    destruct (memchr x (zdrop i (chain_data c))) as [n|] eqn:En.
    + pose proof (memfind_range _ _ _ En) as Hn.
      assert (En' : memchr x (zdrop q (contents b)) = Some n)
        by (unfold memchr in *; by rewrite Hdat, memfind_app, En).
      assert (Hln' : located b k (i + n) (q + n)) by (apply (located_advance k i q n c cs); try done; lia).
      assert (Hqn : q + n <= zlen (contents b)).
      { rewrite zlen_zdrop_max in Hln by lia. lia. }
      destruct (ptr_memcmp_spec {| pos := q + n; ptr_chain := Some k; pos_in_chain := i + n |} (x :: w))
        as (r & -> & Hr); [done | by exists k | done |].
      cbn [mbind option_bind pos] in *. rewrite Hr. rewrite <- zdrop_zdrop by lia.
      destruct (starts_with (x :: w) (zdrop n (zdrop q (contents b)))) eqn:Hs.
      * unfold search_result. rewrite (find_sub_hit x w _ n En' Hs). unfold past_end.
        destruct end_ as [e|]; [destruct (pos e <? q + n + zlen (x :: w))|]; eexists; (split; [done|]);
          try done; (split; [done|]); by exists k.
      * assert (Hshift : forall p, search_result (x :: w) end_ (q + (n + 1)) p -> search_result (x :: w) end_ q p).
        { intros p. apply search_result_shift; [lia..|].
          rewrite (find_sub_miss x w _ n En' Hs). by rewrite zdrop_zdrop by lia. }
        assert (Hz : zlen (zdrop (q + (n + 1)) (contents b)) = zlen (zdrop q (contents b)) - (n + 1))
          by (rewrite <- zdrop_zdrop, zlen_zdrop by lia; lia).
        replace (q + n + 1) with (q + (n + 1)) by lia.
        destruct (Z.eqb_spec (i + n + 1) (off c)) as [Hend|Hne].
        -- destruct (IH cs (S k) 0 (q + (n + 1)) Ht He) as (p & -> & Hp);
             [replace (q + (n + 1)) with (q + (off c - i)) by lia; by eapply located_next
             | by apply (drop_ok k c cs) | lia |]. exists p. split; [done|]. by apply Hshift.
        -- destruct (IH (c :: cs) k (i + (n + 1)) (q + (n + 1)) Ht He) as (p & Hp1 & Hp);
             [apply (located_advance k i q _ c cs); try done; lia | done | cbn [length]; lia |].
           replace (i + n + 1) with (i + (n + 1)) by lia. exists p. split; [done|]. by apply Hshift.
    + rewrite <- Hlen.
      assert (Hf0 : find_sub (x :: w) (zdrop q (contents b)) =
                Z.add (off c - i) <$> find_sub (x :: w) (zdrop (q + (off c - i)) (contents b))).
      { rewrite <- zdrop_zdrop by lia. rewrite Hdat, (zdrop_exact _ _ (off c - i)) by lia.
        by rewrite find_sub_skip, Hlen. }
      destruct (is_last_chain end_ k) eqn:El.
      * eexists. split; [done|]. unfold search_result. rewrite Hf0.
        destruct (find_sub _ (zdrop (q + _) _)) as [m|] eqn:Em; cbn [fmap option_fmap option_map]; [|done].
        destruct end_ as [e|]; [|done]. cbn [is_last_chain] in El. apply bool_decide_eq_true in El.
        assert (0 <= m) by (by eapply find_sub_nonneg).
        cbn [past_end]. rewrite (proj2 (Z.ltb_lt _ _)); [done|].
        eapply end_of_chain; try done. lia.
      * rewrite Hlen. destruct (IH cs (S k) 0 (q + (off c - i)) Ht He) as (p & -> & Hp);
          [by eapply located_next | by apply (drop_ok k c cs) | | ].
        -- rewrite <- zdrop_zdrop by lia. rewrite Hdat, (zdrop_exact _ _ (off c - i)) by lia. lia.
        -- exists p. split; [done|]. apply (search_result_shift _ _ q (off c - i)); [lia | lia | exact Hf0 | done].
Qed.
End positions.

Lemma search_fuel_eq cs : Forall chain_ok cs ->
  search_fuel cs = S (Z.to_nat (zlen (data_of cs)) + length cs).
Proof.
  unfold search_fuel. induction 1 as [|c cs Hc _ IH]; [done|]. cbn [foldr length].
  rewrite data_of_cons, zlen_app, (chain_data_len c Hc). destruct Hc as [_ Ho _ _].
  pose proof (zlen_nonneg (data_of cs)). lia.
Qed.

Lemma search_fuel_drop b k : Forall chain_ok (chains b) ->
  (Z.to_nat (zlen (data_of (drop k (chains b)))) + length (drop k (chains b)) < search_fuel (chains b))%nat.
Proof.
  intros Hok. rewrite search_fuel_eq by done.
  rewrite <- (take_drop k (chains b)) at 3 4. rewrite data_of_app, zlen_app, length_app.
  pose proof (zlen_nonneg (data_of (take k (chains b)))).
  pose proof (zlen_nonneg (data_of (drop k (chains b)))). lia.
Qed.

Section theorems.
Context {A : Arch} {M : Allocator}.

(** Where a search starts: at the given pointer, or at the beginning. *)
Definition start_pos (start : option evbuffer_ptr) : Z :=
  match start with Some p => pos p | None => 0 end.

Definition ptr_ok (b : evbuffer) (o : option evbuffer_ptr) : Prop :=
  match o with Some p => ptr_located b p | None => True end.

Definition pattern_ok (what : list Z) : Prop := what <> [] /\ zlen what < 2 ^ (size_bits - 1).

Lemma search_range_ok b what start end_ :
  Forall chain_ok (chains b) -> total_len b = zlen (contents b) ->
  ptr_ok b start -> ptr_ok b end_ -> pattern_ok what ->
  exists p, evbuffer_search_range b what start end_ = Some p /\
    search_result b what end_ (start_pos start) p.
Proof.
  intros Hok Ht Hs He [Hw Hl]. unfold evbuffer_search_range.
  destruct what as [|x w]; [done|]. rewrite (proj2 (Z.ltb_ge _ _)) by lia.
  destruct start as [p|]; cbn [from_option start_pos ptr_ok] in *; unfold id.
  - destruct Hs as (k & Hk & Hl'). rewrite Hk. cbn [chains_from from_option].
    apply search_loop_spec; try done.
    destruct (located_data b k _ _ Hl') as [_ Hd]. rewrite Hd.
    pose proof (search_fuel_drop b k Hok). destruct Hl' as [_ Hi].
    rewrite zlen_zdrop_max by lia. pose proof (zlen_nonneg (data_of (drop k (chains b)))). lia.
  - unfold ptr_start. cbn [pos pos_in_chain ptr_chain]. destruct (chains b) as [|c cs] eqn:Hcs.
    + cbn. eexists. split; [done|]. unfold search_result, contents. by rewrite Hcs.
    + rewrite <- Hcs in *. cbn [chains_from from_option]. rewrite drop_0.
      apply (search_loop_spec b Hok x w end_ _ (chains b) 0 0 0); try done; [by apply located_start|].
      change (zdrop 0 (contents b)) with (contents b). pose proof (search_fuel_drop b 0 Hok).
      by rewrite drop_0 in *.
Qed.

End theorems.
