(* ===== verification/EvLines.v ===== *)
(** Lines: what the end-of-line searches of [EvSearch] find in every style, and
    what [evbuffer_readln] reads. *)

From S2P Require Import Prelude EvChain Evbuffer EvExpand EvSearch EvbufferSpec EvbufferProps EvSearchSpec.

(** ** Ends of lines in a list of bytes *)

Definition is_eol (x : Z) : bool := (CR =? x) || (LF =? x).

(** The length of the end of line at the beginning of [l], if there is one. *)
Definition eol_len (style : evbuffer_eol_style) (l : list Z) : option Z :=
  match style, l with
  | _, [] => None
  | EVBUFFER_EOL_ANY, x :: _ => if is_eol x then Some (span_len [CR; LF] l) else None
  | EVBUFFER_EOL_LF, x :: _ => if LF =? x then Some 1 else None
  | EVBUFFER_EOL_CRLF_STRICT, _ => if starts_with [CR; LF] l then Some 2 else None
  | EVBUFFER_EOL_CRLF, x :: _ =>
    if LF =? x then Some 1 else if starts_with [CR; LF] l then Some 2 else None
  end.

(** The first end of line: where it starts, and its length. *)
Fixpoint first_eol (style : evbuffer_eol_style) (l : list Z) : option (Z * Z) :=
  match l with
  | [] => None
  | _ :: l' =>
    match eol_len style l with
    | Some n => Some (0, n)
    | None => (fun '(q, n) => (Z.succ q, n)) <$> first_eol style l'
    end
  end.

Definition shift_eol (k : Z) (o : option (Z * Z)) : option (Z * Z) :=
  (fun '(q, n) => (k + q, n)) <$> o.

(** Bytes that start no end of line may be skipped. *)
Lemma first_eol_skip style P l :
  (forall x r, P x = false -> eol_len style (x :: r) = None) ->
  first_eol style l =
    match memfind P l with
    | Some k => shift_eol k (first_eol style (zdrop k l))
    | None => None
    end.
Proof.
  intros HP. induction l as [|x l IH]; [done|]. cbn [memfind]. destruct (P x) eqn:Hx.
  - rewrite zdrop_0 by lia. unfold shift_eol. by destruct (first_eol style (x :: l)) as [[q n]|].
  - cbn [first_eol]. rewrite HP by done. rewrite IH.
    destruct (memfind P l) as [k|] eqn:Ek; [|done]. cbn [fmap option_fmap option_map].
    pose proof (memfind_range _ _ _ Ek). unfold zdrop.
    replace (Z.to_nat (Z.succ k)) with (S (Z.to_nat k)) by lia. cbn [skipn].
    unfold shift_eol. destruct (first_eol style (drop (Z.to_nat k) l)) as [[q n]|]; [|done].
    cbn [fmap option_fmap option_map]. f_equal. f_equal. lia.
Qed.

Lemma first_eol_step style x l :
  eol_len style (x :: l) = None -> first_eol style (x :: l) = shift_eol 1 (first_eol style l).
Proof.
  intros H. cbn [first_eol]. rewrite H. unfold shift_eol.
  destruct (first_eol style l) as [[q n]|]; [|done]. cbn. f_equal. f_equal. lia.
Qed.

Lemma shift_shift j k o : shift_eol j (shift_eol k o) = shift_eol (j + k) o.
Proof. destruct o as [[q n]|]; [|done]. cbn. f_equal. f_equal. lia. Qed.

(** [find_eol_char] finds the first CR or LF, in chunks or not. *)
Lemma memfind_or l :
  memfind is_eol l =
    match memchr CR l, memchr LF l with
    | Some c, Some f => if f <? c then Some f else Some c
    | Some c, None => Some c
    | None, o => o
    end.
Proof.
  unfold memchr, is_eol. induction l as [|x l IH]; [done|]. cbn [memfind].
  destruct (CR =? x) eqn:Ec, (LF =? x) eqn:Ef; cbn [orb].
  - apply Z.eqb_eq in Ec, Ef. subst. discriminate.
  - destruct (memfind (Z.eqb LF) l) as [f|] eqn:E; cbn [fmap option_fmap option_map]; [|done].
    pose proof (memfind_range _ _ _ E). by rewrite (proj2 (Z.ltb_ge _ _)) by lia.
  - destruct (memfind (Z.eqb CR) l) as [c|] eqn:E; cbn [fmap option_fmap option_map]; [|done].
    pose proof (memfind_range _ _ _ E). by rewrite (proj2 (Z.ltb_lt _ _)) by lia.
  - rewrite IH. destruct (memfind (Z.eqb CR) l) as [c|], (memfind (Z.eqb LF) l) as [f|];
      cbn [fmap option_fmap option_map]; try done.
    destruct (Z.ltb_spec f c), (Z.ltb_spec (Z.succ f) (Z.succ c)); try done; lia.
Qed.

Lemma find_eol_loop_spec fuel : forall s base,
  (length s < fuel)%nat -> find_eol_loop fuel s base = Z.add base <$> memfind is_eol s.
Proof.
  induction fuel as [|fuel IH]; intros s base Hf; [lia|]. cbn [find_eol_loop].
  destruct (Z.ltb_spec 0 (zlen s)) as [Hs|Hs].
  2: { assert (s = []) as -> by (apply zlen_nil_iff; pose proof (zlen_nonneg s); lia). done. }
  set (chunk := if CHUNK_SZ <? zlen s then _ else _).
  assert (Hc : (chunk = CHUNK_SZ /\ CHUNK_SZ <= zlen s) \/ (chunk = zlen s /\ zlen s <= CHUNK_SZ))
    by (unfold chunk; destruct (Z.ltb_spec CHUNK_SZ (zlen s)); lia).
  assert (Hm := memfind_or (ztake chunk s)).
  assert (Happ : memfind is_eol s = match memfind is_eol (ztake chunk s) with
      | Some k => Some k | None => Z.add CHUNK_SZ <$> memfind is_eol (zdrop CHUNK_SZ s) end).
  { rewrite <- (ztake_zdrop s chunk) at 1. rewrite memfind_app. destruct (memfind is_eol (ztake chunk s)); [done|].
    unfold CHUNK_SZ in *. destruct Hc as [[-> Hc]|[-> Hc]]; [by rewrite zlen_ztake by lia|].
    by rewrite !zdrop_ge by lia. }
  assert (Hrec : find_eol_loop fuel (zdrop CHUNK_SZ s) (base + CHUNK_SZ) =
                 Z.add (base + CHUNK_SZ) <$> memfind is_eol (zdrop CHUNK_SZ s)).
  { apply IH. unfold zlen, zdrop, CHUNK_SZ in *. rewrite length_drop. lia. }
  rewrite Happ, Hm, Hrec.
  destruct (memchr CR (ztake chunk s)) as [c|], (memchr LF (ztake chunk s)) as [f|];
    [destruct (Z.ltb_spec f c)|..]; try done.
  destruct (memfind is_eol (zdrop CHUNK_SZ s)); [|done]. cbn. f_equal. lia.
Qed.

Lemma find_eol_char_spec s : find_eol_char s = memfind is_eol s.
Proof.
  unfold find_eol_char. rewrite find_eol_loop_spec by lia. by destruct (memfind is_eol s).
Qed.

(** ** Counting and moving over the chains *)

Lemma span_len_range set l : 0 <= span_len set l <= zlen l.
Proof.
  induction l as [|x l IH]; cbn [span_len]; [change (zlen []) with 0; lia|]. rewrite zlen_cons.
  destruct (existsb _ set); lia.
Qed.

Lemma span_len_app set l r :
  span_len set (l ++ r) = if span_len set l <? zlen l then span_len set l else zlen l + span_len set r.
Proof.
  induction l as [|x l IH]; cbn [app span_len]; [done|].
  rewrite zlen_cons. pose proof (zlen_nonneg l). destruct (existsb _ set); [|destruct (Z.ltb_spec 0 (1 + zlen l)); lia].
  rewrite IH. destruct (Z.ltb_spec (span_len set l) (zlen l)), (Z.ltb_spec (1 + span_len set l) (1 + zlen l)); lia.
Qed.

Section chains.
Context (b : evbuffer) (Hok : Forall chain_ok (chains b)).

Lemma strspn_loop_spec set cs : forall k i q count,
  located b k i q -> drop k (chains b) = cs -> cs <> [] ->
  exists k' i', strspn_loop set cs k i count =
    Some (count + span_len set (zdrop q (contents b)), k', i').
Proof using Hok.
  induction cs as [|c cs IH]; intros k i q count Hl Hk Hne; [done|]. cbn [strspn_loop].
  destruct (located_cons b Hok k i q c cs Hl Hk) as (Hc & Hi & Hfr & Hlen & Hdat).
  rewrite (proj2 (Z.ltb_ge _ _)), Hfr by lia. cbn [mbind option_bind].
  rewrite Hdat, span_len_app. pose proof (span_len_range set (zdrop i (chain_data c))).
  destruct (Z.ltb_spec (span_len set (zdrop i (chain_data c))) (zlen (zdrop i (chain_data c)))) as [Hlt|Hge];
    [by do 2 eexists|].
  destruct cs as [|c2 cs2] eqn:Hcs.
  - do 2 eexists. f_equal. f_equal. f_equal. cbn. lia.
  - rewrite <- Hcs in *.
    destruct (IH (S k) 0 (q + (off c - i)) (count + span_len set (zdrop i (chain_data c)))) as (k' & i' & ->);
      [by eapply located_next | by apply (drop_ok b Hok k c cs) | by rewrite Hcs |].
    exists k', i'. f_equal. f_equal. f_equal. destruct (located_data b k i q Hl) as [Hq _].
    rewrite <- zdrop_zdrop by lia. rewrite Hdat, zdrop_exact by lia. lia.
Qed.

Lemma getchr_spec p k c cs :
  ptr_chain p = Some k -> located b k (pos_in_chain p) (pos p) -> drop k (chains b) = c :: cs ->
  pos_in_chain p < off c ->
  evbuffer_getchr b p = head (zdrop (pos p) (contents b)).
Proof using Hok.
  intros Hk Hl Hd Hlt. destruct (located_cons b Hok _ _ _ _ _ Hl Hd) as (Hc & Hi & _ & Hlen & Hdat).
  unfold evbuffer_getchr. rewrite Hk. cbn [mbind option_bind].
  assert (chains b !! k = Some c) as ->.
  { rewrite <- (Nat.add_0_r k), <- lookup_drop, Hd. done. }
  cbn [mbind option_bind].
  destruct Hc as [Hm Ho Hf Hb]. rewrite mem_read_Some by lia. cbn [mbind option_bind].
  rewrite Hdat. assert (Hcd : zdrop (pos_in_chain p) (chain_data c) =
    ztake (off c - pos_in_chain p) (zdrop (misalign c + pos_in_chain p) (buffer c))).
  { unfold chain_data. rewrite zdrop_ztake by lia. by rewrite zdrop_zdrop by lia. }
  rewrite Hcd in Hlen |- *. unfold ztake in *.
  destruct (zdrop (misalign c + pos_in_chain p) (buffer c)) as [|x r].
  { unfold zlen in Hlen. rewrite length_take in Hlen. cbn in Hlen. lia. }
  replace (Z.to_nat (off c - pos_in_chain p)) with (S (Z.to_nat (off c - pos_in_chain p - 1))) by lia. done.
Qed.

Lemma ptr_set_loop_spec cs : forall k i q n,
  located b k i q -> drop k (chains b) = cs -> 0 <= n ->
  match ptr_set_loop cs k i n with
  | Some (k', i') => located b k' i' (q + n) /\ q + n < zlen (contents b) /\
                     exists c r, drop k' (chains b) = c :: r /\ i' < off c
  | None => zlen (contents b) <= q + n
  end.
Proof using Hok.
  induction cs as [|c cs IH]; intros k i q n Hl Hk Hn; cbn [ptr_set_loop].
  - destruct (located_data b k i q Hl) as [Hq Hd]. destruct Hl as [_ Hi].
    rewrite Hk in Hi, Hd. rewrite (zdrop_ge (data_of [])) in Hd by (change (zlen (data_of [])) with 0; lia).
    apply (f_equal zlen) in Hd. rewrite zlen_zdrop_max in Hd by lia. change (zlen []) with 0 in Hd. lia.
  - destruct (located_cons b Hok k i q c cs Hl Hk) as (Hc & Hi & _ & Hlen & Hdat).
    destruct (located_data b k i q Hl) as [Hq _].
    destruct (Z.leb_spec (off c) (i + n)) as [Hle|Hgt].
    + specialize (IH (S k) 0 (q + (off c - i)) (n - (off c - i))).
      replace (q + (off c - i) + (n - (off c - i))) with (q + n) in IH by lia.
      apply IH; [by eapply located_next | by apply (drop_ok b Hok k c cs) | lia].
    + split; [apply (located_advance b k i q n c cs); try done; lia|].
      split; [|by exists c, cs].
      apply (f_equal zlen) in Hdat. rewrite zlen_app, zlen_zdrop_max in Hdat by lia.
      pose proof (zlen_nonneg (data_of cs)). lia.
Qed.
End chains.

(** ** The searches *)

Section eol.
Context {A : Arch} {M : Allocator}.
Context (b : evbuffer) (Hok : Forall chain_ok (chains b)) (Ht : total_len b = zlen (contents b)).

(** The result of a search in the given style from position [q]. *)
Definition eol_result (style : evbuffer_eol_style) (q : Z) (o : option evbuffer_ptr) (n : Z) : Prop :=
  match first_eol style (zdrop q (contents b)) with
  | Some (k, n') => exists p, o = Some p /\ pos p = q + k /\ n = n'
  | None => o = None /\ n = 0
  end.

Lemma scan_spec P f it :
  (forall l, f l = memfind P l) -> ptr_located b it ->
  exists o, find_loop f (chains_from b (ptr_chain it)) (default 0%nat (ptr_chain it))
              (pos it) (pos_in_chain it) = Some o /\ scan_result b P (pos it) o.
Proof using Hok.
  intros Hf (k & Hk & Hl). rewrite Hk. cbn [chains_from from_option]. by apply find_loop_spec.
Qed.

(** What a scan that succeeds says of the bytes at the pointer. *)
Lemma scan_found P q o n :
  0 <= q -> memfind P (zdrop q (contents b)) = Some n -> scan_result b P q o ->
  exists p x r k c cs, o = Some p /\ pos p = q + n /\ ptr_chain p = Some k /\
    located b k (pos_in_chain p) (pos p) /\ drop k (chains b) = c :: cs /\ pos_in_chain p < off c /\
    0 <= n /\ zdrop (pos p) (contents b) = x :: r /\ P x = true /\
    zdrop n (zdrop q (contents b)) = x :: r.
Proof.
  intros Hq Hn. unfold scan_result. rewrite Hn. intros (p & k & c & cs & -> & Hp & Hk & Hl & Hd & Hlt).
  destruct (memfind_Some _ _ _ Hn) as (x & r & Hx & HP & _). pose proof (memfind_range _ _ _ Hn).
  exists p, x, r, k, c, cs. splits; try done; try lia.
  rewrite Hp. by rewrite zdrop_zdrop in Hx by lia.
Qed.

Lemma eol_lf_spec it : ptr_located b it ->
  exists o n, evbuffer_search_eol b (Some it) EVBUFFER_EOL_LF = Some (o, n) /\
    eol_result EVBUFFER_EOL_LF (pos it) o n.
Proof using Hok.
  intros Hl. cbn [evbuffer_search_eol from_option]. change (id it) with it. unfold evbuffer_strchr.
  destruct (scan_spec (Z.eqb LF) (memchr LF) it (fun _ => eq_refl) Hl) as (o & -> & Ho).
  cbn [mbind option_bind]. destruct Hl as (k & Hk & Hl). destruct (located_data b _ _ _ Hl) as [Hq _].
  unfold eol_result. rewrite (first_eol_skip _ (Z.eqb LF)) by (intros x r Hx; cbn [eol_len]; by rewrite Hx).
  destruct (memfind (Z.eqb LF) (zdrop (pos it) (contents b))) as [n|] eqn:En.
  - destruct (scan_found _ _ _ _ Hq En Ho) as (p & x & r & k' & c & cs & -> & Hp & _ & _ & _ & _ & _ & _ & Hx & ->).
    exists (Some p), 1. split; [done|]. cbn [first_eol eol_len]. rewrite Hx. exists p. splits; [done|lia|done].
  - unfold scan_result in Ho. rewrite En in Ho. subst o. by exists None, 0.
Qed.

Lemma eol_any_spec it : ptr_located b it ->
  exists o n, evbuffer_search_eol b (Some it) EVBUFFER_EOL_ANY = Some (o, n) /\
    eol_result EVBUFFER_EOL_ANY (pos it) o n.
Proof using Hok.
  intros Hl. cbn [evbuffer_search_eol from_option]. change (id it) with it. unfold evbuffer_find_eol_char.
  destruct (scan_spec is_eol find_eol_char it find_eol_char_spec Hl) as (o & -> & Ho).
  cbn [mbind option_bind]. destruct Hl as (k & Hk & Hl). destruct (located_data b _ _ _ Hl) as [Hq _].
  unfold eol_result. rewrite (first_eol_skip _ is_eol) by (intros x r Hx; cbn [eol_len]; by rewrite Hx).
  destruct (memfind is_eol (zdrop (pos it) (contents b))) as [n|] eqn:En.
  - destruct (scan_found _ _ _ _ Hq En Ho)
      as (p & x & r & k' & c & cs & -> & Hp & Hk' & Hl' & Hd & _ & _ & Hz & Hx & Hzz).
    unfold evbuffer_strspn. rewrite Hk'. cbn [chains_from].
    destruct (strspn_loop_spec b Hok [CR; LF] (c :: cs) k' (pos_in_chain p) (pos p) 0) as (k2 & i2 & Hr); try done.
    rewrite Hd, Hr. cbn [mbind option_bind]. rewrite Hz, Hzz. do 2 eexists. split; [done|].
    cbn [first_eol]. unfold eol_len. rewrite Hx. exists p. splits; [done|lia|lia].
  - unfold scan_result in Ho. rewrite En in Ho. subst o. by exists None, 0.
Qed.

Lemma first_eol_strict l :
  first_eol EVBUFFER_EOL_CRLF_STRICT l = (fun q => (q, 2)) <$> find_sub [CR; LF] l.
Proof.
  induction l as [|x l IH]; [done|]. cbn [first_eol eol_len find_sub].
  destruct (starts_with [CR; LF] (x :: l)); [done|]. rewrite IH. by destruct (find_sub [CR; LF] l).
Qed.

Lemma eol_strict_spec it : ptr_located b it ->
  exists o n, evbuffer_search_eol b (Some it) EVBUFFER_EOL_CRLF_STRICT = Some (o, n) /\
    eol_result EVBUFFER_EOL_CRLF_STRICT (pos it) o n.
Proof using Hok Ht.
  intros Hl. cbn [evbuffer_search_eol from_option]. change (id it) with it. unfold evbuffer_search.
  destruct (search_range_ok b [CR; LF] (Some it) None) as (p & -> & Hp); try done.
  { split; [done|]. change (zlen [CR; LF]) with 2. pose proof half_space. lia. }
  cbn [mbind option_bind start_pos] in *. unfold search_result, past_end in Hp. unfold eol_result.
  rewrite first_eol_strict. destruct Hl as (k & Hk & Hl). destruct (located_data b _ _ _ Hl) as [Hq _].
  destruct (find_sub [CR; LF] (zdrop (pos it) (contents b))) as [n|] eqn:En; cbn [fmap option_fmap option_map].
  - destruct Hp as [Hp _]. pose proof (find_sub_nonneg _ _ _ En). rewrite (proj2 (Z.ltb_ge _ _)) by lia.
    exists (Some p), 2. split; [done|]. by exists p.
  - rewrite Hp. by exists None, 0.
Qed.
Lemma eol_len_crlf x r : is_eol x = true ->
  eol_len EVBUFFER_EOL_CRLF (x :: r) =
    if x =? LF then Some 1 else if starts_with [CR; LF] (x :: r) then Some 2 else None.
Proof. intros _. cbn [eol_len]. by rewrite Z.eqb_sym. Qed.

(** One round of the CRLF loop: the byte the scan stops at ends the search or
    is passed. *)
Lemma eol_crlf_step fuel it p x r k c cs :
  ptr_chain p = Some k -> located b k (pos_in_chain p) (pos p) -> drop k (chains b) = c :: cs ->
  pos_in_chain p < off c -> zdrop (pos p) (contents b) = x :: r -> is_eol x = true ->
  evbuffer_find_eol_char b it = Some (Some p) ->
  (forall it', ptr_located b it' -> pos it' = pos p + 1 -> exists o,
     eol_crlf_loop fuel b it' = Some o /\
     shift_eol (pos it') (first_eol EVBUFFER_EOL_CRLF r) = (fun '(p, n) => (pos p, n)) <$> o) ->
  exists o, eol_crlf_loop (S fuel) b it = Some o /\
    shift_eol (pos p) (first_eol EVBUFFER_EOL_CRLF (x :: r)) = (fun '(p, n) => (pos p, n)) <$> o.
Proof using Hok Ht.
  intros Hk Hl Hd Hlt Hz Hx Hf IH. cbn [eol_crlf_loop]. rewrite Hf. cbn [mbind option_bind].
  rewrite (getchr_spec b Hok p k c cs Hk Hl Hd Hlt), Hz. cbn [head mbind option_bind].
  destruct (located_data b _ _ _ Hl) as [Hq _].
  assert (Hp1 : pos p < zlen (contents b)).
  { apply (f_equal zlen) in Hz. rewrite zlen_zdrop_max, zlen_cons in Hz by lia.
    pose proof (zlen_nonneg r). lia. }
  pose proof (eol_len_crlf x r Hx) as He. destruct (x =? LF) eqn:Ex.
  { eexists. split; [done|]. cbn [first_eol]. rewrite He. cbn. by rewrite Z.add_0_r. }
  destruct (ptr_memcmp_spec b Hok p [CR; LF] Ht) as (m & -> & Hm); [by exists k | lia |].
  cbn [mbind option_bind]. rewrite Hm, Hz. destruct (starts_with [CR; LF] (x :: r)).
  { eexists. split; [done|]. cbn [first_eol]. rewrite He. cbn. by rewrite Z.add_0_r. }
  rewrite (first_eol_step _ _ _ He), shift_shift. unfold evbuffer_ptr_set. rewrite Hk.
  cbn [chains_from from_option]. unfold id.
  pose proof (ptr_set_loop_spec b Hok (drop k (chains b)) k (pos_in_chain p) (pos p) 1 Hl eq_refl ltac:(lia)) as Hset.
  destruct (ptr_set_loop _ k (pos_in_chain p) 1) as [[k' i']|]; cbn [Z.ltb Z.compare].
  - destruct Hset as (Hl' & _).
    destruct (IH {| pos := pos p + 1; ptr_chain := Some k'; pos_in_chain := i' |}) as (o & -> & Ho);
      [by exists k' | done |]. by exists o.
  - exists None. split; [done|].
    assert (r = []) as ->; [|done]. apply zlen_nil_iff.
    apply (f_equal zlen) in Hz. rewrite zlen_zdrop_max, zlen_cons in Hz by lia. lia.
Qed.

Lemma eol_crlf_loop_spec fuel : forall it,
  ptr_located b it -> zlen (zdrop (pos it) (contents b)) < Z.of_nat fuel ->
  exists o, eol_crlf_loop fuel b it = Some o /\
    shift_eol (pos it) (first_eol EVBUFFER_EOL_CRLF (zdrop (pos it) (contents b))) =
      (fun '(p, n) => (pos p, n)) <$> o.
Proof using Hok Ht.
  induction fuel as [|fuel IH]; intros it Hl Hf;
    [pose proof (zlen_nonneg (zdrop (pos it) (contents b))); lia|].
  destruct (scan_spec is_eol find_eol_char it find_eol_char_spec Hl) as (o & Hscan & Ho).
  destruct Hl as (k & Hk & Hl). destruct (located_data b _ _ _ Hl) as [Hq _].
  rewrite (first_eol_skip _ is_eol).
  2: { intros x r Hx. unfold is_eol in Hx. apply orb_false_elim in Hx as [H1 H2].
       cbn [eol_len]. by rewrite H2, starts_with_cons, H1. }
  destruct (memfind is_eol (zdrop (pos it) (contents b))) as [n|] eqn:En.
  - destruct (scan_found _ _ _ _ Hq En Ho)
      as (p & x & r & k' & c & cs & -> & Hp & Hk' & Hl' & Hd & Hlt & Hn & Hz & Hx & Hzz).
    rewrite Hzz, shift_shift, <- Hp.
    apply (eol_crlf_step fuel it p x r k' c cs); try done.
    intros it' Hit' Hpos. assert (Hr : zdrop (pos it') (contents b) = r).
    { rewrite Hpos. rewrite <- zdrop_zdrop by lia. by rewrite Hz. }
    destruct (IH it' Hit') as (o & Hrun & Hres); [|rewrite Hr in Hres; by exists o].
    rewrite Hr. apply (f_equal zlen) in Hzz. rewrite zlen_zdrop_max, zlen_cons in Hzz by lia.
    pose proof (zlen_nonneg r). lia.
  - unfold scan_result in Ho. rewrite En in Ho. subst o. exists None. split; [|done].
    cbn [eol_crlf_loop]. unfold evbuffer_find_eol_char. by rewrite Hscan.
Qed.

Lemma eol_crlf_spec it : ptr_located b it ->
  exists o n, evbuffer_search_eol b (Some it) EVBUFFER_EOL_CRLF = Some (o, n) /\
    eol_result EVBUFFER_EOL_CRLF (pos it) o n.
Proof using Hok Ht.
  intros Hl. cbn [evbuffer_search_eol from_option]. change (id it) with it.
  destruct (eol_crlf_loop_spec (search_fuel (chains b)) it Hl) as (o & -> & Ho).
  { destruct Hl as (k & _ & Hl). destruct (located_data b _ _ _ Hl) as [Hq _].
    rewrite search_fuel_eq, zlen_zdrop_max by (done || lia). change (data_of (chains b)) with (contents b).
    pose proof (zlen_nonneg (contents b)). lia. }
  cbn [mbind option_bind]. unfold eol_result, shift_eol in *.
  destruct (first_eol _ _) as [[q n]|], o as [[p m]|]; cbn in Ho; try done.
  - injection Ho as Hq Hn. exists (Some p), m. split; [done|]. by exists p.
  - by exists None, 0.
Qed.

Lemma search_eol_ok start style :
  ptr_ok b start ->
  exists o n, evbuffer_search_eol b start style = Some (o, n) /\
    eol_result style (start_pos start) o n.
Proof using Hok Ht.
  intros Hs.
  assert (Hall : forall it, ptr_located b it -> exists o n,
    evbuffer_search_eol b (Some it) style = Some (o, n) /\ eol_result style (pos it) o n).
  { intros it Hit. destruct style;
      [by apply eol_any_spec | by apply eol_crlf_spec | by apply eol_strict_spec | by apply eol_lf_spec]. }
  destruct start as [it|]; [by apply Hall|]. destruct (chains b) as [|c cs] eqn:Hcs.
  - assert (Hc : contents b = []) by (unfold contents; by rewrite Hcs).
    unfold eol_result. rewrite Hc. exists None, 0. split; [|done].
    destruct style; unfold evbuffer_search_eol, evbuffer_find_eol_char, evbuffer_strchr, ptr_start;
      rewrite ?Hcs; try done.
    cbn [from_option]. destruct (search_range_ok b [CR; LF] None None) as (p & Hr & Hp); try done.
    { by rewrite Hcs. }
    { split; [done|]. change (zlen [CR; LF]) with 2. pose proof half_space. lia. }
    unfold evbuffer_search_range, ptr_start in Hr. rewrite Hcs in Hr.
    unfold evbuffer_search, evbuffer_search_range. cbn [from_option] in *. rewrite Hcs. unfold id in *.
    rewrite Hr. cbn [mbind option_bind]. unfold search_result in Hp. rewrite Hc in Hp. cbn in Hp. by rewrite Hp.
  - change (evbuffer_search_eol b None style) with (evbuffer_search_eol b (Some (ptr_start b)) style).
    unfold ptr_start. rewrite Hcs. apply Hall. exists 0%nat. split; [done|].
    apply located_start. by rewrite Hcs.
Qed.

(** [evbuffer_search_eol], in each of the four styles, from any position:
    it terminates and gives the position and the length of the first end of
    line, as found by looking at the bytes one after the other, wherever the
    chains are cut. *)
Theorem evbuffer_search_eol_spec start style :
  ptr_ok b start ->
  exists o n, evbuffer_search_eol b start style = Some (o, n) /\
    eol_result style (start_pos start) o n.
Proof using Hok Ht. apply search_eol_ok. Qed.
End eol.

(** ** Reading lines *)

Section readln.
Context {A : Arch} {M : Allocator}.

Lemma eol_len_range style l n : eol_len style l = Some n -> 0 < n <= zlen l.
Proof.
  assert (Hsw : starts_with [CR; LF] l = true -> 2 <= zlen l) by exact (starts_with_long [CR; LF] l).
  destruct l as [|x r]; [by destruct style|]. pose proof (zlen_nonneg r).
  pose proof (span_len_range [CR; LF] r). destruct style; unfold eol_len.
  - destruct (is_eol x) eqn:Ex; [|done]. intros [= <-]. cbn [span_len]. rewrite zlen_cons.
    unfold is_eol in Ex. rewrite orb_false_r, !(Z.eqb_sym x), Ex. lia.
  - destruct (LF =? x); [intros [= <-]; rewrite zlen_cons; lia|].
    destruct (starts_with _ _); [|done]. intros [= <-]. specialize (Hsw eq_refl). lia.
  - destruct (starts_with _ _); [|done]. intros [= <-]. specialize (Hsw eq_refl). lia.
  - destruct (LF =? x); [intros [= <-]; rewrite zlen_cons; lia | done].
Qed.

Lemma first_eol_range style l : forall q n,
  first_eol style l = Some (q, n) -> 0 <= q /\ 0 < n /\ q + n <= zlen l.
Proof.
  induction l as [|x l IH]; intros q n; [done|]. cbn [first_eol].
  destruct (eol_len style (x :: l)) as [m|] eqn:Em.
  - intros [= <- <-]. apply eol_len_range in Em. lia.
  - destruct (first_eol style l) as [[q' n']|]; [|done]. intros [= <- <-].
    rewrite zlen_cons. destruct (IH q' n' eq_refl) as (? & ? & ?). lia.
Qed.

Lemma readln_ok b style :
  packed b -> freeze_start b = false -> total_len b <= INT_MAX ->
  match first_eol style (contents b) with
  | None => evbuffer_readln b style = Some (None, 0, b)
  | Some (q, n) =>
    match mm_malloc (q + 1) with
    | None => evbuffer_readln b style = Some (None, 0, b)
    | Some _ => exists b', evbuffer_readln b style = Some (Some (ztake q (contents b)), q, b') /\
                  packed b' /\ contents b' = zdrop (q + n) (contents b)
    end
  end.
Proof.
  intros Hp Hf Hmax. pose proof (pk_total _ Hp) as Ht.
  assert (Hok : Forall chain_ok (chains b)) by apply (vd_chains _ (packed_valid b Hp)).
  destruct (search_eol_ok b Hok Ht None style I) as (o & n' & Hs & Hr).
  unfold eol_result in Hr. change (zdrop (start_pos None) (contents b)) with (contents b) in Hr.
  unfold evbuffer_readln. rewrite Hf, Hs. cbn [mbind option_bind].
  destruct (first_eol style (contents b)) as [[q n]|] eqn:E.
  - destruct Hr as (p & -> & Hq & ->). destruct (first_eol_range _ _ _ _ E) as (Hq0 & Hn0 & Hqn).
    rewrite Hq. cbn [start_pos]. rewrite Z.add_0_l. destruct (mm_malloc (q + 1)); [|done].
    destruct (remove_ok b q Hp Hf Hq0 ltac:(lia)) as (b1 & -> & Hp1 & Hc1 & Hf1 & _).
    cbn [mbind option_bind].
    destruct (drain_ok b1 n Hp1 Hf1 ltac:(lia)) as (b2 & -> & Hp2 & Hc2 & _).
    exists b2. split; [done|]. split; [done|]. rewrite Hc2, Hc1. by rewrite zdrop_zdrop by lia.
  - destruct Hr as [-> ->]. done.
Qed.

(** C19: [evbuffer_readln], in every style: when the buffer holds an end of line
    it returns exactly the bytes before the first one and removes them and the
    end of line; otherwise, or when the line cannot be allocated, it returns
    NULL and leaves the buffer alone. *)
Theorem evbuffer_readln_spec b style :
  packed b -> freeze_start b = false -> total_len b <= INT_MAX ->
  match first_eol style (contents b) with
  | None => evbuffer_readln b style = Some (None, 0, b)
  | Some (q, n) =>
    match mm_malloc (q + 1) with
    | None => evbuffer_readln b style = Some (None, 0, b)
    | Some _ => exists b', evbuffer_readln b style = Some (Some (ztake q (contents b)), q, b') /\
                  packed b' /\ contents b' = zdrop (q + n) (contents b)
    end
  end.
Proof. apply readln_ok. Qed.
End readln.

(** ** Witnesses: a CRLF cut by a chain boundary *)

#[local] Existing Instance win64.
#[local] Existing Instance zero_allocator.

Definition tail_buffer : evbuffer :=
  match evbuffer_add evbuffer_new (LF :: bytes_of "cd") with Some (_, b) => b | None => evbuffer_new end.

Definition line_buffer : evbuffer :=
  match evbuffer_prepend tail_buffer (bytes_of "ab" ++ [CR]) with Some (_, b) => b | None => evbuffer_new end.

Lemma packed_tail : packed tail_buffer.
Proof.
  destruct (add_ok evbuffer_new (LF :: bytes_of "cd")) as (b' & Hr & Ha);
    [apply zero_mem_ok | apply packed_new | done | by apply small_win64 | done |].
  apply appended_facts in Ha as (Hp & _).
  assert (tail_buffer = b') as -> by (unfold tail_buffer; by rewrite Hr). done.
Defined.

Lemma packed_line : packed line_buffer.
Proof.
  destruct (prepend_ok tail_buffer (bytes_of "ab" ++ [CR])) as (b' & Hr & Ha);
    [apply zero_mem_ok | apply packed_tail | done | by apply small_win64 | done |].
  destruct Ha as (Hp & _).
  assert (line_buffer = b') as -> by (unfold line_buffer; by rewrite Hr). done.
Defined.


Lemma evbuffer_search_eol_spec_witness :
  exists p, evbuffer_search_eol line_buffer None EVBUFFER_EOL_CRLF = Some (Some p, 2) /\ pos p = 2.
Proof.
  destruct (evbuffer_search_eol_spec line_buffer (vd_chains _ (packed_valid _ packed_line)) eq_refl
              None EVBUFFER_EOL_CRLF I) as (o & n & Hr & (p & -> & Hp & ->)).
  exists p. split; [exact Hr | exact Hp].
Defined.

Lemma evbuffer_readln_spec_witness :
  exists b', evbuffer_readln line_buffer EVBUFFER_EOL_CRLF = Some (Some (bytes_of "ab"), 2, b') /\
    contents b' = bytes_of "cd".
Proof.
  destruct (evbuffer_readln_spec line_buffer EVBUFFER_EOL_CRLF packed_line) as (b' & Hr & _ & Hc);
    [reflexivity | vm_compute; discriminate | exists b'; split; [exact Hr | exact Hc]].
Defined.
