(* ===== verification/EvSpace.v ===== *)
(** What the operations leave alone: whether a buffer is frozen, and that none of
    its chains is read-only.  Then what [EvExpand] and [EvIO] do to a buffer: space that is
    expanded or reserved holds what was asked for and changes no data; what is written
    there and committed is appended.  The last section shows two sequences of calls that
    go wrong. *)

From S2P Require Import Prelude EvChain Evbuffer EvbufferSpec EvbufferProps EvExpand EvIO EvSearch EvSearchSpec EvLines.

(** No chain is read-only. *)
Definition plain_chains (cs : list evbuffer_chain) : Prop :=
  Forall (fun c => has_flag c EVBUFFER_IMMUTABLE = false) cs.
Definition plain (b : evbuffer) : Prop := plain_chains (chains b).

(** [b'] is frozen as [b] is, and plain if [b] is. *)
Record keeps (b b' : evbuffer) : Prop := {
  kp_start : freeze_start b' = freeze_start b;
  kp_end : freeze_end b' = freeze_end b;
  kp_plain : plain b -> plain b' }.

#[export] Instance keeps_preorder : PreOrder keeps.
Proof.
  split; [by split|]. intros a b c [] []. split; [congruence | congruence | auto].
Qed.

Lemma keeps_invoke b b' : keeps b b' -> keeps b (evbuffer_invoke_callbacks b').
Proof.
  intros [Hs He Hp]. destruct (invoke_frame b') as (Hc & _ & _ & Hfs & Hfe & _).
  split; [by rewrite Hfs | by rewrite Hfe |]. intros H. unfold plain. rewrite Hc. by apply Hp.
Qed.

Lemma keeps_set b b' cs lwd tl na nd :
  freeze_start b' = freeze_start b -> freeze_end b' = freeze_end b ->
  (plain_chains (chains b) -> plain_chains cs) ->
  keeps b (set_counts (set_chains b' cs lwd tl) na nd).
Proof. by intros Hs He Hc. Qed.

Lemma plain_window c m o cs : plain_chains (c :: cs) -> plain_chains (set_window c m o :: cs).
Proof. intros H. apply Forall_cons_split in H as [Hc H]. by constructor. Qed.

Lemma drain_loop_plain cs : forall i k lwd cs' j r l,
  drain_loop cs i k lwd = Some (cs', j, r, l) -> plain_chains cs -> plain_chains cs'.
Proof.
  induction cs as [|c cs IH]; intros i k lwd cs' j r l; [done|]. cbn [drain_loop].
  destruct (off c <=? k); [|by intros [= <- _ _ _]].
  destruct (CHAIN_PINNED_R c); [destruct (_ =? 0); [|done]|].
  - intros [= <- _ _ _]. apply plain_window.
  - intros H [_ Hp]%Forall_cons_split. by eapply IH.
Qed.

Lemma drain_keeps b n r b' : evbuffer_drain b n = Some (r, b') -> keeps b b'.
Proof.
  unfold evbuffer_drain. destruct (total_len b =? 0); [by intros [= _ <-]|].
  destruct (freeze_start b) eqn:Hf; [by intros [= _ <-]|].
  destruct (_ && _).
  - intros [= _ <-]. apply keeps_invoke. apply keeps_set; [done | done |]. intros _. constructor.
  - intros H. apply bind_Some in H as ([[[cs i] rem] lwd] & Hd & [= _ <-]).
    apply keeps_invoke, keeps_set; [done | done |]. intros Hp. eapply drain_loop_plain in Hd; [|exact Hp].
    destruct cs; [done | by apply plain_window].
Qed.

Lemma remove_keeps b n k d b' : evbuffer_remove b n = Some (k, d, b') -> keeps b b'.
Proof.
  unfold evbuffer_remove. intros H. apply bind_Some in H as ([m x] & _ & H).
  destruct (0 <? m); [|by injection H as _ _ <-].
  apply bind_Some in H as ([r b1] & Hd & [= _ _ <-]). by eapply drain_keeps.
Qed.

Section ops.
Context {A : Arch} {M : Allocator}.

Lemma readln_keeps b style l n b' : evbuffer_readln b style = Some (l, n, b') -> keeps b b'.
Proof.
  unfold evbuffer_readln. destruct (freeze_start b); [by intros [= _ _ <-]|].
  intros H. apply bind_Some in H as ([o x] & _ & H). destruct o as [it|]; [|by injection H as _ _ <-].
  destruct (mm_malloc _); [|by injection H as _ _ <-].
  apply bind_Some in H as ([[k d] b1] & Hr & H). apply bind_Some in H as ([r b2] & Hd & [= _ _ <-]).
  etrans; [by eapply remove_keeps | by eapply drain_keeps].
Qed.

(** ** Adding data *)

Lemma chain_new_plain n c : evbuffer_chain_new n = Some (Some c) -> has_flag c EVBUFFER_IMMUTABLE = false.
Proof.
  unfold evbuffer_chain_new. intros H. apply bind_Some in H as (k & _ & H). destruct (mm_malloc k); [|done].
  by injection H as <-.
Qed.

Lemma chain_store_flags c p d m o c' : chain_store c p d m o = Some c' -> flags c' = flags c.
Proof. unfold chain_store. intros H. apply bind_Some in H as (x & _ & [= <-]). done. Qed.

Lemma same_flags c c' f : flags c' = flags c -> has_flag c' f = has_flag c f.
Proof. unfold has_flag. by intros ->. Qed.

Lemma plain_insert cs i c : plain_chains cs -> has_flag c EVBUFFER_IMMUTABLE = false -> plain_chains (<[i := c]> cs).
Proof. intros Hcs Hc. by apply Forall_insert. Qed.

Lemma plain_take k cs : plain_chains cs -> plain_chains (take k cs).
Proof. apply Forall_take. Qed.

Lemma chain_insert_keeps b c b' :
  evbuffer_chain_insert b c = Some b' -> has_flag c EVBUFFER_IMMUTABLE = false -> keeps b b'.
Proof.
  intros H Hc. assert (Hsnoc : forall cs lwd tl, (plain b -> plain_chains cs) -> keeps b (set_chains b (cs ++ [c]) lwd tl)).
  { intros cs lwd tl Hcs. split; [done | done |]. intros Hp. apply Forall_app. split; [by apply Hcs | by constructor]. }
  unfold evbuffer_chain_insert in H. destruct (chains b !! last_with_datap b).
  - destruct (find_victim _ _) as [k|]; [destruct (evbuffer_chains_all_empty _); [|done]|]; injection H as <-.
    + apply Hsnoc. apply plain_take.
    + by apply Hsnoc.
  - destruct (chains b) eqn:E; [|done]. destruct (last_with_datap b); [|done]. injection H as <-.
    apply (Hsnoc []). intros _. constructor.
Qed.

Lemma add_to_last_keeps b i c d r b' :
  chains b !! i = Some c -> evbuffer_add_to_last b i c d = Some (r, b') -> keeps b b'.
Proof.
  intros Hi. assert (Hset : forall c' lwd tl k, flags c' = flags c ->
    keeps b (add_count (set_chains b (<[i := c']> (chains b)) lwd tl) k)).
  { intros c' lwd tl k Hf. split; [done | done |]. intros Hp. apply plain_insert; [done|].
    rewrite (same_flags c c') by done. by apply (Forall_lookup_1 _ _ _ _ Hp Hi). }
  unfold evbuffer_add_to_last. destruct (negb _ && _).
  { intros H. apply bind_Some in H as (c' & Hc & [= _ <-]). apply chain_store_flags in Hc.
    by apply keeps_invoke, Hset. }
  destruct (negb _ && _).
  { intros H. apply bind_Some in H as (c1 & H1 & H). apply bind_Some in H as (c' & Hc & [= _ <-]).
    apply chain_store_flags in Hc. unfold evbuffer_chain_align in H1. destruct (_ || _); [done|].
    apply bind_Some in H1 as (x & _ & H1). apply bind_Some in H1 as (y & _ & [= <-]).
    by apply keeps_invoke, Hset. }
  intros H. apply bind_Some in H as ([tmp|] & Ht & H); [|by injection H as _ <-].
  apply chain_new_plain in Ht. apply bind_Some in H as (b1 & Hb1 & H). apply bind_Some in H as (tmp' & Ht' & H).
  apply chain_store_flags in Ht'. apply bind_Some in H as (b2 & Hb2 & [= _ <-]). apply keeps_invoke.
  transitivity b1; [|transitivity b2; [|by split]].
  - destruct (negb _) in Hb1; [|by injection Hb1 as <-]. apply bind_Some in Hb1 as (c' & Hc & [= <-]).
    apply chain_store_flags in Hc. by apply Hset.
  - eapply chain_insert_keeps; [exact Hb2|]. by rewrite (same_flags tmp tmp').
Qed.

Lemma add_keeps b d r b' : evbuffer_add b d = Some (r, b') -> keeps b b'.
Proof.
  unfold evbuffer_add. destruct (freeze_end b); [by intros [= _ <-]|].
  destruct (last (chains b)) as [c|] eqn:El.
  - apply add_to_last_keeps. by rewrite <- El, last_lookup, Nat.sub_1_r.
  - intros H. apply bind_Some in H as ([c|] & Hc & H); [|by injection H as _ <-]. apply chain_new_plain in Hc.
    apply bind_Some in H as (b1 & Hb1 & H). transitivity b1; [by eapply chain_insert_keeps|].
    eapply add_to_last_keeps; [|exact H]. apply last_None in El. unfold evbuffer_chain_insert in Hb1.
    rewrite El in Hb1. cbn in Hb1. destruct (last_with_datap b); [|done]. by injection Hb1 as <-.
Qed.

(** ** Moving data *)

Lemma remove_loop_plain cs : forall i d k lwd t rest j d' k' l,
  remove_loop cs i d k lwd = Some (t, rest, j, d', k', l) -> plain_chains cs -> plain_chains rest.
Proof.
  induction cs as [|c cs IH]; intros i d k lwd t rest j d' k' l; [done|]. cbn [remove_loop].
  destruct (off c <=? d); [|by intros [= _ <- _ _ _ _]]. destruct (i =? lwd)%nat; [done|].
  intros H [_ Hp]%Forall_cons_split. apply bind_Some in H as ([[[[[t1 r1] j1] d1] k1] l1] & H & [= _ <- _ _ _ _]).
  by eapply IH.
Qed.

(** [evbuffer_remove_buffer]: the source is kept in this sense, the destination
    stays as frozen as it was. *)
Lemma remove_buffer_keeps src dst n r src' dst' :
  packed src -> evbuffer_remove_buffer false src dst n = Some (r, src', dst') ->
  keeps src src' /\ freeze_start dst' = freeze_start dst /\ freeze_end dst' = freeze_end dst.
Proof.
  intros Hps. unfold evbuffer_remove_buffer. destruct (_ || _); [by intros [= _ <- <-]|].
  destruct (freeze_end dst || freeze_start src); [by intros [= _ <- <-]|].
  destruct (total_len src <=? n); intros H.
  - apply bind_Some in H as ([[q o] s] & Hm & [= _ <- <-]). unfold evbuffer_add_buffer, move_buffer in Hm.
    destruct (_ || _); [by injection Hm as _ <- <-|].
    destruct (freeze_end dst || freeze_start src); [by injection Hm as _ <- <-|].
    unfold PRESERVE_PINNED in Hm. rewrite packed_no_pinned_r in Hm by done. cbn [negb mbind option_bind] in Hm.
    injection Hm as _ <- <-. split.
    + apply keeps_invoke. split; [done | done |]. intros _. constructor.
    + match goal with |- context [evbuffer_invoke_callbacks ?x] => destruct (invoke_frame x) as (_ & _ & _ & -> & -> & _) end.
      by destruct (total_len dst =? 0).
  - apply bind_Some in H as ([[[[[t rest] j] d] k] l] & Hl & H). apply bind_Some in H as (dst1 & H1 & H).
    destruct rest as [|c rest]; [done|]. apply bind_Some in H as (bytes & _ & H).
    apply bind_Some in H as ([q dst3] & Ha & H). apply add_keeps in Ha as [Hs3 He3 _].
    assert (Hd1 : freeze_start dst1 = freeze_start dst /\ freeze_end dst1 = freeze_end dst).
    { destruct (negb (k =? 0)); [|by injection H1 as <-]. apply bind_Some in H1 as (kept & _ & [= <-]).
      unfold advance_last_with_data. by destruct (_ !! _). }
    destruct Hd1 as [Hs1 He1]. cbn [freeze_start freeze_end set_chains] in Hs3, He3.
    rewrite Hs1 in Hs3. rewrite He1 in He3. injection H as _ <- <-.
    assert (Hk : keeps src (del_count (set_chains src (set_window c (misalign c + d) (off c - d) :: rest)
      (if (l =? 0)%nat then 0%nat else (l - j)%nat) (total_len src - (k + d))) (k + d))).
    { split; [done | done |]. intros Hp. eapply plain_window, remove_loop_plain; [exact Hl | exact Hp]. }
    destruct (negb (k + d =? 0)); [|by split]. split; [by apply keeps_invoke|].
    destruct (invoke_frame dst3) as (_ & _ & _ & -> & -> & _). done.
Qed.
End ops.

Section space.
Context {A : Arch} {M : Allocator}.

(** [b1] is [b] with at least [n] bytes of writable space in its last chain,
    which is at index [i] and may be empty. *)
Definition has_space (b b1 : evbuffer) (i : nat) (n : Z) : Prop :=
  exists cs c,
    b1 = set_chains b (cs ++ [c]) (if off c =? 0 then (length cs - 1)%nat else length cs) (total_len b) /\
    i = length cs /\ n <= CHAIN_SPACE_LEN c /\ has_flag c EVBUFFER_IMMUTABLE = false /\
    Forall good_chain cs /\ Forall (fun c => 0 < off c) cs /\ good_chain c /\
    data_of (cs ++ [c]) = contents b.

Lemma has_flag_or c f g : has_flag c (Z.lor f g) = has_flag c f || has_flag c g.
Proof.
  unfold has_flag. rewrite Z.land_lor_distr_r, <- negb_andb. f_equal.
  destruct (Z.eqb_spec (Z.lor (Z.land (flags c) f) (Z.land (flags c) g)) 0) as [E|E].
  - apply Z.lor_eq_0_iff in E as [-> ->]. done.
  - symmetry. apply andb_false_iff. rewrite !Z.eqb_neq.
    destruct (Z.eq_dec (Z.land (flags c) f) 0) as [E1|]; [|by left]. right. intros E2.
    apply E. by rewrite E1, E2.
Qed.

Lemma chains_split b : chains b = [] \/ exists cs c, chains b = cs ++ [c].
Proof. destruct (chains b) as [|c l _] using rev_ind; [by left|]. right. by exists l, c. Qed.

Lemma expand_insert_spec b n :
  packed b -> 0 <= n -> small n ->
  exists r b1, expand_insert_new b n = Some (r, b1) /\
    match r with Some i => has_space b b1 i n | None => b1 = b /\ exists k, mm_malloc k = None end.
Proof.
  intros Hp Hn Hs. unfold expand_insert_new, evbuffer_chain_insert_new.
  destruct (chain_new_small n Hn Hs) as ([c|] & -> & Hc); cbn [mbind option_bind];
    [|by exists None, b].
  destruct Hc as [Hfr Hr]. pose proof (fresh_good c n Hfr Hr) as Hg.
  destruct Hfr as (Hok & Ho & Hm & Hf & Hsz & _).
  assert (Hins : exists kept, evbuffer_chain_insert b c =
      Some (set_chains b (kept ++ [c]) (length kept - 1) (total_len b)) /\
      Forall good_chain kept /\ Forall (fun c => 0 < off c) kept /\ data_of kept = contents b).
  { unfold evbuffer_chain_insert. rewrite Ho, Z.add_0_r. cbn [Z.eqb negb].
    destruct (pk_shape _ Hp) as [Hfull|(c0 & Hcs & Ho0 & _)].
    - exists (chains b). rewrite (pk_lwd _ Hp). split; [|split; [apply Hp | done]].
      destruct (chains b !! (length (chains b) - 1)%nat) eqn:El.
      + by rewrite find_victim_full.
      + apply lookup_ge_None in El. destruct (chains b) as [|? ?]; [done | cbn in El; lia].
    - pose proof (packed_last_good b [] c0 Hp Hcs) as Hg0. exists [].
      unfold contents. rewrite (pk_lwd _ Hp), Hcs. cbn [length Nat.sub lookup list_lookup find_victim].
      rewrite Ho0, (gc_unpinned _ Hg0). cbn [Z.eqb negb orb drop evbuffer_chains_all_empty forallb].
      rewrite Ho0. cbn. splits; try done. symmetry. apply zlen_nil_iff. rewrite app_nil_r.
      by rewrite chain_data_len by apply Hg0. }
  destruct Hins as (kept & -> & Hgk & Hfk & Hdk). cbn [fmap option_fmap option_map mbind option_bind].
  assert (Hsp : n <= CHAIN_SPACE_LEN c).
  { unfold CHAIN_SPACE_LEN, has_flag. rewrite Hf, Z.land_0_l. cbn. lia. }
  unfold expand_ok. cbn [chains set_chains].
  rewrite length_app. cbn [length]. replace (length kept + 1 - 1)%nat with (length kept) by lia.
  rewrite lookup_app_r, Nat.sub_diag by lia. cbn [lookup list_lookup mbind option_bind].
  rewrite (proj2 (Z.leb_le _ _) Hsp). do 2 eexists. split; [done|].
  exists kept, c. rewrite Ho. splits; try done.
  - unfold has_flag. by rewrite Hf, Z.land_0_l.
  - rewrite data_of_app, data_of_single, Hdk.
    assert (chain_data c = []) as -> by (apply zlen_nil_iff; by rewrite chain_data_len). apply app_nil_r.
Qed.

(** The result when the last chain is used, perhaps realigned or resized. *)
Lemma expand_last_spec b cs c c' n :
  packed b -> chains b = cs ++ [c] -> good_chain c' -> off c' = off c -> off c <> 0 ->
  chain_data c' = chain_data c -> has_flag c' EVBUFFER_IMMUTABLE = false -> n <= CHAIN_SPACE_LEN c' ->
  exists b1, expand_ok (set_chains b (cs ++ [c']) (last_with_datap b) (total_len b)) (length cs) n
               = Some (Some (length cs), b1) /\ has_space b b1 (length cs) n.
Proof.
  intros Hp Hcs Hg Ho H0 Hd Hi Hn. unfold expand_ok. cbn [chains set_chains].
  rewrite lookup_app_r, Nat.sub_diag by lia. cbn [lookup list_lookup mbind option_bind].
  rewrite (proj2 (Z.leb_le _ _) Hn). eexists. split; [done|].
  pose proof (pk_chains _ Hp) as Hgs. rewrite Hcs in Hgs. apply Forall_app_split in Hgs as [Hgs _].
  exists cs, c'. rewrite Ho, (proj2 (Z.eqb_neq _ _) H0), (pk_lwd _ Hp), Hcs, length_app. cbn [length].
  splits; try done.
  - by replace (length cs + 1 - 1)%nat with (length cs) by lia.
  - destruct (pk_shape _ Hp) as [Hf|(c0 & Hc0 & Ho0 & _)].
    + rewrite Hcs in Hf. by apply Forall_app_split in Hf as [Hf _].
    + rewrite Hcs in Hc0. destruct cs as [|? [|]]; try discriminate. constructor.
  - unfold contents. by rewrite Hcs, !data_of_app, !data_of_single, Hd.
Qed.

Lemma packed_pinned_none b cs c : packed b -> chains b = cs ++ [c] ->
  has_flag c (Z.lor EVBUFFER_IMMUTABLE EVBUFFER_MEM_PINNED_ANY) = has_flag c EVBUFFER_IMMUTABLE.
Proof.
  intros Hp Hcs. rewrite has_flag_or. pose proof (gc_unpinned _ (packed_last_good _ _ _ Hp Hcs)) as Hu.
  unfold CHAIN_PINNED in Hu. by rewrite Hu, orb_false_r.
Qed.

(** Resizing the last chain: its data moves to a larger one. *)
Lemma expand_resize_spec b cs c n :
  packed b -> chains b = cs ++ [c] -> off c <> 0 -> 0 <= n -> small (off c + n) ->
  exists r b1, (oc ← evbuffer_chain_new (wrap size_bits (off c + n));
      match oc with
      | None => Some (None, b)
      | Some tmp =>
        d ← mem_read (buffer c) (misalign c) (off c);
        tmp' ← chain_store tmp 0 d (misalign tmp) (off c);
        expand_ok (set_chains b (<[length cs := tmp']> (chains b)) (last_with_datap b) (total_len b))
          (length cs) n
      end) = Some (r, b1) /\
    match r with Some i => has_space b b1 i n | None => b1 = b /\ exists k, mm_malloc k = None end.
Proof.
  intros Hp Hcs H0 Hn Hs. pose proof (packed_last_good _ _ _ Hp Hcs) as Hg.
  destruct (gc_ok _ Hg) as [Hm Ho Hf Hb]. pose proof chain_size_lt_min.
  assert (Hw : wrap size_bits (off c + n) = off c + n).
  { apply wrap_small. unfold small in Hs. split; [lia|].
    assert (2 ^ size_bits = 2 * 2 ^ (size_bits - 1)) by (destruct size_bits_cases as [-> | ->]; lia). lia. }
  rewrite Hw. destruct (chain_new_small (off c + n) ltac:(lia) Hs) as ([tmp|] & -> & Ht);
    cbn [mbind option_bind]; [|by exists None, b].
  destruct Ht as [Hfr Hr]. destruct (Hfr) as (_ & _ & Hm2 & _ & Hsz & _).
  rewrite chain_data_read by apply Hg. cbn [mbind option_bind]. rewrite Hm2.
  pose proof (chain_data_len c Hg) as Hl.
  destruct (fresh_store tmp (off c + n) (chain_data c) 0 Hfr Hr) as (t & Hst & Hgt & Hdt & Hot & Hft & Hmt & Hbt);
    [lia | lia |].
  rewrite Hl in Hst. rewrite Hst. cbn [mbind option_bind]. rewrite Hcs, insert_app_r_alt, Nat.sub_diag by lia.
  cbn [insert list_insert].
  destruct (expand_last_spec b cs c t n) as (b1 & -> & Hsp); try done; try lia.
  - unfold has_flag. by rewrite Hft, Z.land_0_l.
  - unfold CHAIN_SPACE_LEN, has_flag. rewrite Hft, Z.land_0_l. cbn. lia.
  - by exists (Some (length cs)), b1.
Qed.

(** The last chain has the space already; it may be the single empty one. *)
Lemma expand_fits b cs c n :
  packed b -> chains b = cs ++ [c] -> has_flag c EVBUFFER_IMMUTABLE = false -> n <= CHAIN_SPACE_LEN c ->
  exists r b1, expand_ok b (length cs) n = Some (r, b1) /\
    match r with Some i => has_space b b1 i n | None => b1 = b /\ exists k, mm_malloc k = None end.
Proof.
  intros Hp Hcs Hi Hn. pose proof (packed_last_good _ _ _ Hp Hcs) as Hg. unfold expand_ok.
  rewrite Hcs, lookup_app_r, Nat.sub_diag by lia. cbn [lookup list_lookup mbind option_bind].
  rewrite (proj2 (Z.leb_le _ _) Hn). do 2 eexists. split; [done|]. cbn beta iota.
  pose proof (pk_chains _ Hp) as Hgs. rewrite Hcs in Hgs. apply Forall_app_split in Hgs as [Hgs _].
  exists cs, c. assert (Hlc : contents b = data_of (cs ++ [c])) by (unfold contents; by rewrite Hcs).
  assert (Hb : b = set_chains b (cs ++ [c]) (length cs) (total_len b)).
  { rewrite <- Hcs at 1. rewrite <- (set_chains_id b) at 1. f_equal. rewrite (pk_lwd _ Hp), Hcs, length_app. cbn. lia. }
  destruct (pk_shape _ Hp) as [Hf|(c0 & Hc0 & Ho0 & _)].
  - rewrite Hcs in Hf. apply Forall_app_split in Hf as [Hf Hfc]. apply Forall_cons_split in Hfc as [Hfc _].
    rewrite (proj2 (Z.eqb_neq _ _)) by lia. splits; done.
  - rewrite Hcs in Hc0. destruct cs as [|? [|]]; try discriminate. cbn [length Nat.sub app] in *.
    destruct (off c =? 0); splits; done.
Qed.

(** [evbuffer_expand_singlechain] on a buffer with no reserved space. *)
Lemma expand_singlechain_spec b n :
  packed b -> 0 <= n -> small (total_len b + n) ->
  exists r b1, evbuffer_expand_singlechain b n = Some (r, b1) /\
    match r with Some i => has_space b b1 i n | None => b1 = b /\ exists k, mm_malloc k = None end.
Proof.
  intros Hp Hn Hs. pose proof (pk_total _ Hp) as Ht. pose proof (zlen_nonneg (contents b)).
  assert (Hsn : small n) by (eapply small_le; [|exact Hs]; lia).
  pose proof (expand_insert_spec b n Hp Hn Hsn) as Hins.
  unfold evbuffer_expand_singlechain, first_with_space. rewrite (pk_lwd _ Hp).
  destruct (chains_split b) as [Hcs|(cs & c & Hcs)].
  { rewrite Hcs. exact Hins. }
  pose proof (packed_last_good _ _ _ Hp Hcs) as Hg. destruct (gc_ok _ Hg) as [Hm Ho Hf Hb].
  rewrite Hcs, length_app. cbn [length]. replace (length cs + 1 - 1)%nat with (length cs) by lia.
  assert (Hlk : (cs ++ [c]) !! length cs = Some c) by (by apply list_lookup_middle).
  rewrite Hlk.
  destruct (Z.eqb_spec (CHAIN_SPACE_LEN c) 0) as [Hz|Hz].
  { rewrite lookup_ge_None_2 by (rewrite length_app; cbn; lia). exact Hins. }
  rewrite Hlk.
  rewrite (packed_pinned_none b cs c Hp Hcs).
  destruct (has_flag c EVBUFFER_IMMUTABLE) eqn:Him; [exact Hins|].
  assert (Hlast : forall c', good_chain c' -> off c' = off c -> off c <> 0 -> chain_data c' = chain_data c ->
    has_flag c' EVBUFFER_IMMUTABLE = false -> n <= CHAIN_SPACE_LEN c' ->
    exists r b1, expand_ok (set_chains b (<[length cs:=c']> (cs ++ [c])) (length cs) (total_len b)) (length cs) n
      = Some (r, b1) /\ match r with Some i => has_space b b1 i n | None => b1 = b /\ exists k, mm_malloc k = None end).
  { intros c' Hg' Ho' H0 Hd' Hi' Hn'. rewrite insert_app_r_alt, Nat.sub_diag by lia. cbn [insert list_insert].
    destruct (expand_last_spec b cs c c' n) as (b1 & He & Hsp); try done.
    rewrite (pk_lwd _ Hp), Hcs, length_app in He. cbn [length] in He.
    replace (length cs + 1 - 1)%nat with (length cs) in He by lia. by exists (Some (length cs)), b1. }
  destruct (Z.leb_spec n (CHAIN_SPACE_LEN c)) as [Hfit|Hfit].
  { by apply (expand_fits b cs c). }
  destruct (Z.eqb_spec (off c) 0) as [H0|H0]; [exact Hins|].
  destruct (evbuffer_chain_should_realign c n) eqn:Hre.
  { destruct (chain_align_spec c Hg Him (gc_unpinned _ Hg)) as (c' & -> & Hok & Hd & Hm' & Ho' & Hf' & Hb').
    cbn [mbind option_bind]. destruct (good_same c c' Hg Hok Hf' Hb') as [Hg' Hi'].
    apply Hlast; try done; [by rewrite Hi'|]. unfold evbuffer_chain_should_realign in Hre. bool_to_prop.
    unfold CHAIN_SPACE_LEN. rewrite Hi', Him. lia. }
  destruct (_ || _).
  { rewrite lookup_ge_None_2 by (rewrite length_app; cbn; lia). exact Hins. }
  assert (Hsr : small (off c + n)).
  { eapply small_le; [|exact Hs].
    rewrite Ht. unfold contents. rewrite Hcs, data_of_app, data_of_single, zlen_app, (chain_data_len c Hg).
    pose proof (zlen_nonneg (data_of cs)). lia. }
  pose proof (expand_resize_spec b cs c n Hp Hcs H0 Hn Hsr) as Hrs.
  rewrite (pk_lwd _ Hp), Hcs, length_app in Hrs. cbn [length] in Hrs.
  replace (length cs + 1 - 1)%nat with (length cs) in Hrs by lia. exact Hrs.
Qed.

(** ** Writing into the space *)

(** Memory whose first bytes after the data are [d]: the chain that has taken
    them in. *)
Lemma write_space c d rest :
  good_chain c -> has_flag c EVBUFFER_IMMUTABLE = false -> zlen (d ++ rest) <= CHAIN_SPACE_LEN c ->
  exists m, mem_write (buffer c) (CHAIN_SPACE_PTR c) (d ++ rest) = Some m /\
    let c' := set_data c (misalign c) (off c + zlen d) m in
    good_chain c' /\ chain_data c' = chain_data c ++ d.
Proof.
  intros Hg Hi Hl. unfold CHAIN_SPACE_LEN in Hl. rewrite Hi in Hl.
  destruct (chain_append_spec c (d ++ rest) Hg) as (c1 & Ha & Hok & Hd & Ho & Hf & Hm & Hb); [lia|].
  unfold chain_append, chain_store in Ha. fold (CHAIN_SPACE_PTR c) in Ha.
  destruct (mem_write (buffer c) (CHAIN_SPACE_PTR c) (d ++ rest)) as [m|]; [|done].
  cbn [mbind option_bind] in Ha. injection Ha as Ha. exists m. split; [done|]. cbn zeta.
  pose proof (zlen_nonneg d). pose proof (zlen_nonneg rest). rewrite zlen_app in *.
  destruct (gc_ok _ Hg) as [Hm0 Ho0 Hf0 Hb0].
  assert (Hok' : chain_ok (set_data c (misalign c) (off c + zlen d) m)).
  { destruct Hok as [H1 H2 H3 H4]. rewrite <- Ha in *. cbn in *. split; cbn; lia. }
  split; [by apply (good_same c) | ].
  assert (chain_data (set_data c (misalign c) (off c + zlen d) m) = ztake (off c + zlen d) (chain_data c1)) as ->.
  { rewrite <- Ha. unfold chain_data. cbn. by rewrite ztake_ztake by lia. }
  rewrite Hd, app_assoc, ztake_exact; [done|]. by rewrite zlen_app, (chain_data_len c Hg).
Qed.

Lemma advance_full b :
  Forall (fun c => 0 < off c) (chains b) -> (last_with_datap b < length (chains b))%nat ->
  advance_last_with_data b = set_chains b (chains b) (length (chains b) - 1) (total_len b).
Proof.
  intros Hf Hl. unfold advance_last_with_data. apply lookup_lt_is_Some_2 in Hl as Hs. destruct Hs as [x ->].
  f_equal. rewrite count_nonempty_full by by apply Forall_drop. rewrite length_drop. lia.
Qed.

(** Taking [d] into the last chain and accounting for it is an append. *)
Lemma space_taken b cs c d m :
  packed b -> Forall good_chain cs -> Forall (fun c => 0 < off c) cs ->
  data_of (cs ++ [c]) = contents b -> 0 <= off c -> d <> [] ->
  let c' := set_data c (misalign c) (off c + zlen d) m in
  good_chain c' -> chain_data c' = chain_data c ++ d ->
  let lwd := if off c =? 0 then (length cs - 1)%nat else length cs in
  appended b (snd (commit_okay (advance_last_with_data (set_chains b (cs ++ [c']) lwd (total_len b))) (zlen d))) d.
Proof.
  intros Hp Hg Hf Hdat Ho Hd c' Hg' Hd' lwd. pose proof (zlen_pos d Hd).
  assert (Hf' : Forall (fun c => 0 < off c) (cs ++ [c'])).
  { apply Forall_app. split; [done|]. constructor; [cbn; lia | done]. }
  rewrite advance_full; cbn [chains set_chains last_with_datap total_len]; [|done|].
  2: { rewrite length_app. cbn. unfold lwd. destruct (off c =? 0); lia. }
  unfold commit_okay. cbn [snd chains last_with_datap total_len set_chains].
  eexists _, _. split; [reflexivity|].
  assert (Hcon : data_of (cs ++ [c']) = contents b ++ d).
  { by rewrite <- Hdat, !data_of_app, !data_of_single, Hd', app_assoc. }
  split; [|done]. split; cbn [chains last_with_datap total_len set_chains]; unfold contents; cbn [chains set_chains].
  - apply Forall_app. split; [done|]. by constructor.
  - rewrite Hcon, zlen_app, (pk_total _ Hp). done.
  - done.
  - by left.
Qed.

(** C20: Direct access: on a buffer with no reserved space, [evbuffer_reserve_space]
    with one vector either fails for lack of memory and changes nothing, or
    gives at least the space asked for without changing the data; whatever the
    caller then writes at the start of that space and commits with
    [evbuffer_commit_space] is appended to the data, and the callbacks are told
    as by [evbuffer_add]. *)
Theorem evbuffer_reserve_commit b n d :
  packed b -> freeze_end b = false -> 0 <= n -> small (total_len b + n) ->
  d <> [] -> zlen d <= n ->
  exists r vs b1, evbuffer_reserve_space b n 1 = Some (r, vs, b1) /\ contents b1 = contents b /\
    (r = -1 /\ b1 = b /\ (exists k, mm_malloc k = None) \/
     r = 1 /\ exists v b2 b3, vs = [v] /\ n <= iov_len v /\ vec_write b1 v d = Some b2 /\
       evbuffer_commit_space b2 [{| iov_chain := iov_chain v; iov_pos := iov_pos v; iov_len := zlen d |}]
         = (0, b3) /\ appended b b3 d).
Proof.
  intros Hp Hfz Hn Hs Hd Hdn. unfold evbuffer_reserve_space. rewrite Hfz. cbn [Z.ltb Z.eqb Z.compare Pos.compare Pos.compare_cont Pos.eqb].
  assert (Hw : wrap size_bits n = n).
  { apply wrap_small. pose proof chain_size_lt_min. pose proof (pk_total _ Hp). pose proof (zlen_nonneg (contents b)).
    unfold small in Hs. split; [lia|].
    assert (2 ^ size_bits = 2 * 2 ^ (size_bits - 1)) by (destruct size_bits_cases as [-> | ->]; lia). lia. }
  rewrite Hw. destruct (expand_singlechain_spec b n Hp Hn Hs) as (r & b1 & -> & Hr). cbn [mbind option_bind].
  destruct r as [i|]; [|destruct Hr as [-> Hm]; exists (-1), [], b; split; [done|]; split; [done|]; by left].
  destruct Hr as (cs & c & -> & -> & Hsp & Hi & Hgs & Hfs & Hg & Hdat).
  cbn [chains set_chains]. assert (Hlk : (cs ++ [c]) !! length cs = Some c) by (by apply list_lookup_middle).
  rewrite Hlk. cbn [mbind option_bind]. rewrite (proj2 (Z.leb_le _ _) Hsp), orb_true_r.
  do 3 eexists. split; [done|]. split; [exact Hdat|]. right. split; [done|].
  destruct (write_space c d [] Hg Hi) as (m & Hm & Hg' & Hd'); [rewrite app_nil_r; lia|]. rewrite app_nil_r in Hm.
  eexists _, _, _. split; [done|]. split; [done|]. unfold vec_write, vec_at. cbn [iov_chain iov_pos iov_len chains set_chains].
  rewrite Hlk. cbn [mbind option_bind]. rewrite Hm. cbn [mbind option_bind]. split; [done|].
  rewrite insert_app_r_alt, Nat.sub_diag by lia. cbn [insert list_insert].
  split; [|exact (space_taken b cs c d m Hp Hgs Hfs Hdat (ck_off _ Hg) Hd Hg' Hd')].
  unfold evbuffer_commit_space. cbn [freeze_end chains set_chains]. rewrite Hfz, length_app. cbn [length].
  replace (length cs + 1 - 1)%nat with (length cs) by lia.
  rewrite list_lookup_middle by done. unfold vec_is_space. cbn [iov_chain iov_pos iov_len].
  change (CHAIN_SPACE_PTR (set_data c (misalign c) (off c) m)) with (CHAIN_SPACE_PTR c).
  rewrite Nat.eqb_refl, Z.eqb_refl. cbn [andb].
  change (CHAIN_SPACE_LEN (set_data c (misalign c) (off c) m)) with (CHAIN_SPACE_LEN c).
  rewrite (proj2 (Z.ltb_ge _ _)) by lia. pose proof (zlen_pos d Hd).
  rewrite (proj2 (Z.eqb_neq (zlen d) 0)) by lia. cbn [negb].
  rewrite insert_app_r_alt, Nat.sub_diag by lia. cbn [insert list_insert]. reflexivity.
Qed.
End space.

(** ** Witness, and two sequences of calls that go wrong *)

#[local] Existing Instance win64.
#[local] Existing Instance zero_allocator.

Lemma evbuffer_reserve_commit_witness :
  exists v b1 b2 b3, evbuffer_reserve_space sample_buffer 100 1 = Some (1, [v], b1) /\
    vec_write b1 v (bytes_of "!") = Some b2 /\
    evbuffer_commit_space b2 [{| iov_chain := iov_chain v; iov_pos := iov_pos v; iov_len := 1 |}] = (0, b3) /\
    contents b3 = bytes_of "hello!".
Proof.
  destruct (evbuffer_reserve_commit sample_buffer 100 (bytes_of "!") packed_sample)
    as (r & vs & b1 & Hr & _ & [(_ & _ & k & Hk)|(-> & v & b2 & b3 & -> & _ & Hw & Hc & Ha)]);
    [reflexivity | lia | apply small_win64; vm_compute; discriminate | discriminate | vm_compute; discriminate
    | discriminate Hk |].
  exists v, b1, b2, b3. split; [exact Hr|]. split; [exact Hw|]. split; [exact Hc|].
  destruct (appended_facts _ _ _ Ha) as (_ & Hcon & _). exact Hcon.
Defined.

(** Runs of calls, for the examples. *)
Inductive space_call :=
  | CAdd (d : list Z)
  | CReserve (n n_vecs : Z)
  (** Reserves [n] bytes in one vector, writes [d] there and commits. *)
  | CAppend (n : Z) (d : list Z).

(** The result is the last call's. *)
Fixpoint space_run (b : evbuffer) (l : list space_call) : option (Z * evbuffer) :=
  match l with
  | [] => Some (0, b)
  | op :: l' =>
    '(r, b') ← match op with
    | CAdd d => evbuffer_add b d
    | CReserve n m => '(r, _, b') ← evbuffer_reserve_space b n m; Some (r, b')
    | CAppend n d =>
      '(_, vs, b') ← evbuffer_reserve_space b n 1;
      v ← head vs;
      b2 ← vec_write b' v d;
      Some (evbuffer_commit_space b2 [{| iov_chain := iov_chain v; iov_pos := iov_pos v; iov_len := zlen d |}])
    end;
    match l' with [] => Some (r, b') | _ => space_run b' l' end
  end.

(** [evbuffer_add] after a reservation that added a chain writes into the
    last chain without moving [last_with_datap] there: later data committed to
    the first chain with space ends up before it.  Appending "a", "b" and "c" in
    this order, each call succeeding, leaves "acb". *)
Theorem evbuffer_add_after_reserve_reorders :
  exists b, space_run evbuffer_new
      [CAdd (bytes_of "a"); CReserve 2000 2; CAdd (bytes_of "b"); CAppend 10 (bytes_of "c")] = Some (0, b) /\
    contents b = bytes_of "acb".
Proof. eexists. split; [vm_compute; reflexivity | vm_compute; reflexivity]. Qed.

(** [evbuffer_reserve_space] can offer a chain that [evbuffer_commit_space]
    does not accept: when it skips a nearly full chain and the next one is not
    the last, the commit of exactly the vector reserved returns -1, and the data
    written is not added. *)
Theorem evbuffer_commit_rejects_reserved :
  exists b, space_run evbuffer_new
      [CAdd (replicate 900 120); CReserve 500 2; CReserve 2000 3; CAppend 500 (bytes_of "lost")] = Some (-1, b) /\
    total_len b = 900 /\ contents b = replicate 900 120.
Proof. eexists. split; [vm_compute; reflexivity | split; vm_compute; reflexivity]. Qed.
