(* ===== verification/EvSocket.v ===== *)
(** Byte queues at a socket ([evbuffer_read] and [evbuffer_write_atmost] of [EvIO]): what is
    received is appended to the data, what is sent is taken from its front, whatever space
    the chains have; and taking data out of a buffer that is read into. *)

From S2P Require Import Prelude EvChain Evbuffer EvbufferSpec EvbufferProps EvExpand EvIO EvSpace.

(** ** Buffers that are read into *)

Definition sum_space (cs : list evbuffer_chain) : Z := foldr (fun c s => CHAIN_SPACE_LEN c + s) 0 cs.

(** The space after the data of the last chain with data. *)
Definition last_space (full : list evbuffer_chain) : Z :=
  match last full with Some c => CHAIN_SPACE_LEN c | None => 0 end.

Lemma sum_space_app cs ds : sum_space (cs ++ ds) = sum_space cs + sum_space ds.
Proof. unfold sum_space. induction cs as [|c cs IH]; [done|]. cbn. rewrite IH. lia. Qed.

Section read.
Context {A : Arch} {M : Allocator}.

Definition filled (c : evbuffer_chain) : Prop := 0 < off c.
Definition vacant (c : evbuffer_chain) : Prop := off c = 0 /\ misalign c = 0.

(** A chain that data may be received into. *)
Record space_chain (c : evbuffer_chain) : Prop := {
  sc_good : good_chain c;
  sc_writable : has_flag c EVBUFFER_IMMUTABLE = false;
  sc_room : 0 < buffer_len c }.

(** Between reads: the chains with data, then chains without; the data pointer is the
    last chain with data. *)
Record spread (b : evbuffer) (full rest : list evbuffer_chain) : Prop := {
  sp_chains : chains b = full ++ rest;
  sp_space : Forall space_chain (chains b);
  sp_full : Forall filled full;
  sp_rest : Forall vacant rest;
  sp_lwd : last_with_datap b = (length full - 1)%nat;
  sp_total : total_len b = zlen (contents b) }.

Definition input_ok (b : evbuffer) : Prop := exists full rest, spread b full rest.

Lemma input_ok_new : input_ok evbuffer_new.
Proof. by exists [], []. Qed.

Lemma space_len c : space_chain c -> CHAIN_SPACE_LEN c = buffer_len c - (misalign c + off c) /\ 0 <= CHAIN_SPACE_LEN c.
Proof. intros [[[Hm Ho Hf Hb] _ _] Hw _]. unfold CHAIN_SPACE_LEN. rewrite Hw. lia. Qed.

Lemma sum_space_nonneg cs : Forall space_chain cs -> 0 <= sum_space cs.
Proof. induction 1 as [|c cs Hc _ IH]; cbn; [lia|]. destruct (space_len c Hc). unfold sum_space in IH. lia. Qed.

Lemma fresh_space c n : fresh_chain c n -> buffer_len c + EVBUFFER_CHAIN_SIZE <= 2 ^ (size_bits - 1) ->
  space_chain c /\ vacant c /\ n <= CHAIN_SPACE_LEN c.
Proof.
  intros Hfr Hr. pose proof (fresh_good _ _ Hfr Hr) as Hg. destruct Hfr as (_ & Ho & Hm & Hf & Hs & Hp).
  assert (Hw : has_flag c EVBUFFER_IMMUTABLE = false) by (unfold has_flag; by rewrite Hf, Z.land_0_l).
  split; [by split|]. split; [done|]. unfold CHAIN_SPACE_LEN. rewrite Hw. lia.
Qed.

(** An empty chain is moved to the start of its memory. *)
Lemma vacant_realigned c : space_chain c -> vacant c ->
  let c' := set_window c 0 (off c) in space_chain c' /\ vacant c' /\ CHAIN_SPACE_LEN c' = buffer_len c.
Proof.
  intros Hs Ho c'. destruct Hs as [Hg Hw Hr]. destruct (gc_ok _ Hg) as [Hm Ho' Hf Hb]. destruct Ho as [Ho _].
  assert (Hok : chain_ok c') by (split; cbn; lia).
  destruct (good_same c c' Hg Hok) as [Hg' Hw']; [done..|]. split; [|split; [done|]].
  - split; [done | by rewrite Hw' | done].
  - unfold CHAIN_SPACE_LEN. rewrite Hw', Hw. cbn. rewrite Ho. lia.
Qed.

Lemma data_of_vacant cs : Forall space_chain cs -> Forall vacant cs -> data_of cs = [].
Proof.
  induction 1 as [|c cs Hc _ IH]; intros Hv; [done|]. apply Forall_cons_split in Hv as [Hv Hvs].
  rewrite data_of_cons, IH by done. rewrite app_nil_r. apply zlen_nil_iff. destruct Hv as [<- _]. by apply chain_data_len, Hc.
Qed.

Lemma contents_full b full rest : spread b full rest -> contents b = data_of full.
Proof.
  intros [Hc Hs Hf Hv _ _]. rewrite Hc in Hs. apply Forall_app_split in Hs as [_ Hs].
  unfold contents. rewrite Hc, data_of_app, (data_of_vacant rest) by done. apply app_nil_r.
Qed.

(** ** Making space *)

(** The loop over empty chains. *)
Lemma fast_loop_vacant es : forall at_lwd n m avail used,
  Forall space_chain es -> Forall vacant es -> avail < n -> (used < m)%nat ->
  exists es' avail' used' e, expand_fast_loop es at_lwd n m avail used = Some (es', avail', used', e) /\
    Forall space_chain es' /\ Forall vacant es' /\ length es' = length es /\
    match e with
    | FastEnough => n <= avail + sum_space es'
    | FastStopped => used' = m
    | FastRanOff => (used' < m)%nat /\ avail' = avail + sum_space es' /\ avail' < n
    end.
Proof.
  induction es as [|c es IH]; intros at_lwd n m avail used Hs Hv Ha Hu; cbn [expand_fast_loop].
  { exists [], avail, used, FastRanOff. splits; try done. cbn. lia. }
  apply Forall_cons_split in Hs as [Hc Hs], Hv as [Hvc Hv]. destruct (vacant_realigned c Hc Hvc) as (Hc' & Hv' & Hl).
  destruct Hvc as [Hvc _]. rewrite (proj2 (Z.eqb_eq _ _) Hvc). cbn [negb mbind option_bind].
  rewrite Hvc in Hc', Hv', Hl. assert (Hpos := sc_room _ Hc).
  destruct (Z.leb_spec n (avail + buffer_len c)).
  { pose proof (sum_space_nonneg es Hs). eexists _, _, _, FastEnough. splits; [by rewrite Hvc | by constructor.. | done |]. cbn. unfold sum_space in *. lia. }
  destruct (Nat.eqb_spec (S used) m) as [He|He].
  { eexists _, _, _, FastStopped. splits; [by rewrite Hvc | by constructor.. | done | done]. }
  destruct (IH false n m (avail + buffer_len c) (S used)) as (es' & avail' & used' & e & -> & Hs' & Hvs' & Hlen & Hend); try done; [lia|].
  cbn [mbind option_bind]. exists (set_window c 0 0 :: es'), avail', used', e. rewrite Hvc.
  splits; [done | by constructor | by constructor | by cbn; rewrite Hlen |]. destruct e; cbn; unfold sum_space in *; lia || done.
Qed.

(** What expanding gives: the same data, and room for [n] bytes in a row, or no memory. *)
Definition expanded (b : evbuffer) (n r : Z) (b1 : evbuffer) : Prop :=
  (exists cs, b1 = set_chains b cs (last_with_datap b1) (total_len b)) /\ contents b1 = contents b /\
  exists full rest, spread b1 full rest /\
    (r = 0 /\ n <= last_space full + sum_space rest \/ r = -1 /\ exists k, mm_malloc k = None).

Lemma spread_other b full rest rest' lwd : spread b full rest -> lwd = (length full - 1)%nat ->
  Forall space_chain rest' -> Forall vacant rest' ->
  let b1 := set_chains b (full ++ rest') lwd (total_len b) in spread b1 full rest' /\ contents b1 = contents b.
Proof.
  intros Hb -> Hs Hv b1. pose proof (contents_full _ _ _ Hb) as Hc. pose proof (sp_space _ _ _ Hb) as Hsp.
  rewrite (sp_chains _ _ _ Hb) in Hsp. apply Forall_app_split in Hsp as [Hsf _].
  assert (Hd : contents b1 = contents b) by (unfold contents at 1; cbn [b1 chains set_chains]; by rewrite data_of_app, (data_of_vacant rest'), app_nil_r).
  split; [|done]. split; try done; cbn [b1 chains set_chains]; [by apply Forall_app | apply Hb | rewrite Hd; apply Hb].
Qed.

Lemma spread_expanded b full rest rest' cs lwd n r :
  spread b full rest -> cs = full ++ rest' -> lwd = (length full - 1)%nat -> Forall space_chain rest' -> Forall vacant rest' ->
  (r = 0 /\ n <= last_space full + sum_space rest' \/ r = -1 /\ exists k, mm_malloc k = None) ->
  expanded b n r (set_chains b cs lwd (total_len b)).
Proof.
  intros Hb -> -> Hs Hv Hr. destruct (spread_other b full rest rest' _ Hb eq_refl Hs Hv) as [H1 H2].
  split; [by exists (full ++ rest')|]. split; [done|]. by exists full, rest'.
Qed.

Lemma rest_space b full rest : spread b full rest -> Forall space_chain full /\ Forall space_chain rest.
Proof. intros Hb. pose proof (sp_space _ _ _ Hb) as Hs. rewrite (sp_chains _ _ _ Hb) in Hs. by apply Forall_app in Hs. Qed.

Lemma last_space_range full : Forall space_chain full -> 0 <= last_space full.
Proof.
  intros Hf. unfold last_space. destruct (last full) as [l|] eqn:El; [|lia]. apply last_Some in El as [l' ->].
  apply Forall_app in Hf as [_ Hf]. apply Forall_cons_split in Hf as [Hf _]. by apply space_len.
Qed.

Lemma last_space_snoc full l : last_space (full ++ [l]) = CHAIN_SPACE_LEN l.
Proof. unfold last_space. by rewrite last_snoc. Qed.

(** The data pointer is the last chain with data, or the first one. *)
Lemma spread_drop b full rest : spread b full rest ->
  full = [] /\ drop (last_with_datap b) (chains b) = rest /\ take (last_with_datap b) (chains b) = [] \/
  exists f l, full = f ++ [l] /\ drop (last_with_datap b) (chains b) = l :: rest /\ take (last_with_datap b) (chains b) = f /\
    chains b !! last_with_datap b = Some l.
Proof.
  intros Hb. rewrite (sp_chains _ _ _ Hb), (sp_lwd _ _ _ Hb). destruct full as [|l f _] using rev_ind; [by left|]. right.
  exists f, l. rewrite length_app. cbn [length]. replace (length f + 1 - 1)%nat with (length f) by lia.
  rewrite <- app_assoc. cbn [app]. splits; [done | by rewrite drop_app_length | by rewrite take_app_length | by rewrite list_lookup_middle].
Qed.

(** A new chain behind the data when the empty chains do not do. *)
Lemma nuke_expanded b full rest n : spread b full rest -> chains b <> [] -> 0 <= n - last_space full -> small n ->
  exists r b1, expand_fast_nuke b n = Some (r, b1) /\ expanded b n r b1.
Proof.
  intros Hb Hne Hn Hsm. destruct (rest_space _ _ _ Hb) as [Hsf Hsr]. pose proof (last_space_range _ Hsf) as Hls.
  pose proof (sp_rest _ _ _ Hb) as Hv. unfold expand_fast_nuke.
  assert (Hall : evbuffer_chains_all_empty rest = true).
  { apply forallb_forall. intros c Hc. rewrite List.Forall_forall in Hv. by apply Z.eqb_eq, (Hv c Hc). }
  destruct (chain_new_small (n - last_space full) Hn) as (oc & Hnew & Hoc); [eapply small_le; [|exact Hsm]; lia|].
  assert (Hlwd := sp_lwd _ _ _ Hb). destruct (spread_drop _ _ _ Hb) as [(-> & Hd & Ht)|(f & l & -> & Hd & Ht & Hl)].
  - cbn [length Nat.sub] in Hlwd. rewrite Hlwd in *. rewrite (sp_chains _ _ _ Hb) in *. cbn [app] in *.
    destruct rest as [|c rest]; [done|]. cbn [lookup list_lookup mbind option_bind]. apply Forall_cons_split in Hv as [[Hvc _] _].
    rewrite Hvc in *. cbn [Z.eqb negb Nat.eqb andb]. rewrite drop_0, Hall. cbn [negb].
    change (last_space []) with 0 in *. rewrite Hnew. cbn [mbind option_bind]. destruct oc as [tmp|].
    + destruct Hoc as [Hfr Hr]. destruct (fresh_space _ _ Hfr Hr) as (Hst & Hot & Hlt). do 2 eexists. split; [done|]. cbn [take app].
      apply (spread_expanded b [] (c :: rest) [tmp]); try done; [by constructor | by constructor|]. left. split; [done|]. cbn. change (last_space []) with 0. lia.
    + do 2 eexists. split; [done|]. unfold ZERO_CHAIN. assert (Ht0 : total_len b = 0).
      { rewrite (sp_total _ _ _ Hb), (contents_full _ _ _ Hb). done. }
      assert (set_chains b [] 0 0 = set_chains b [] 0 (total_len b)) as -> by (by rewrite Ht0).
      apply (spread_expanded b [] (c :: rest) []); try done. by right.
  - rewrite Hl. cbn [mbind option_bind]. rewrite length_app in Hlwd. cbn [length] in Hlwd.
    assert (Hfl : 0 < off l) by (pose proof (sp_full _ _ _ Hb) as Hf; apply Forall_app in Hf as [_ Hf]; by apply Forall_cons_split in Hf as [Hf _]).
    rewrite (proj2 (Z.eqb_neq (off l) 0)) by lia. cbn [negb andb]. rewrite last_space_snoc in *.
    assert (Hdk : drop (S (last_with_datap b)) (chains b) = rest).
    { replace (S (last_with_datap b)) with (last_with_datap b + 1)%nat by lia. rewrite <- drop_drop, Hd. done. }
    assert (Htk : take (S (last_with_datap b)) (chains b) = f ++ [l]) by (by rewrite (take_S_r _ _ l), Ht).
    rewrite Hdk, Hall, Htk. cbn [negb]. rewrite Hnew. cbn [mbind option_bind]. destruct oc as [tmp|].
    + destruct Hoc as [Hfr Hr]. destruct (fresh_space _ _ Hfr Hr) as (Hst & Hot & Hlt). do 2 eexists. split; [done|].
      apply (spread_expanded b (f ++ [l]) rest [tmp]); try done; [rewrite length_app; cbn; lia | by constructor | by constructor|].
      left. split; [done|]. rewrite last_space_snoc. cbn. lia.
    + do 2 eexists. split; [done|]. apply (spread_expanded b (f ++ [l]) rest []); try done; [by rewrite app_nil_r | rewrite length_app; cbn; lia|]. by right.
Qed.

Lemma expanded_trans b b1 n r b2 : (exists cs, b1 = set_chains b cs (last_with_datap b1) (total_len b)) -> contents b1 = contents b ->
  expanded b1 n r b2 -> expanded b n r b2.
Proof.
  intros [cs Hb1] Hc [[cs2 Hb2] [Hc2 H]]. split; [|split; [by rewrite Hc2 | done]].
  exists cs2. rewrite Hb2 at 1. rewrite Hb1. reflexivity.
Qed.

Lemma fast_finish b full rest rest' avail used e n m :
  spread b full rest -> chains b <> [] -> 0 < n -> small n -> Forall space_chain rest' -> Forall vacant rest' -> length rest' = length rest ->
  match e with
  | FastEnough => n <= last_space full + sum_space rest'
  | FastStopped => used = m /\ last_space full <= n
  | FastRanOff => (used < m)%nat /\ avail = last_space full + sum_space rest' /\ avail < n
  end ->
  let b1 := set_chains b (full ++ rest') (last_with_datap b) (total_len b) in
  exists r b2, match e with
    | FastEnough => Some (0, b1)
    | _ =>
      if (used <? m)%nat then
        match e with
        | FastRanOff =>
          oc ← evbuffer_chain_new (n - avail);
          match oc with
          | None => Some (-1, b1)
          | Some tmp => Some (0, set_chains b1 (chains b1 ++ [tmp]) (last_with_datap b) (total_len b))
          end
        | _ => None
        end
      else expand_fast_nuke b1 n
    end = Some (r, b2) /\ expanded b n r b2.
Proof.
  intros Hb Hne Hn Hsm Hs Hv Hlen He b1. assert (Hlwd := sp_lwd _ _ _ Hb).
  assert (Hexp : forall r, (r = 0 /\ n <= last_space full + sum_space rest' \/ r = -1 /\ exists k, mm_malloc k = None) -> expanded b n r b1).
  { intros r Hr. by apply (spread_expanded b full rest rest'). }
  assert (Hst : chains b1 <> []).
  { cbn. rewrite (sp_chains _ _ _ Hb) in Hne. destruct full; [|done]. by destruct rest', rest. }
  destruct e.
  - do 2 eexists. split; [done|]. apply Hexp. by left.
  - destruct He as [-> Hls]. rewrite Nat.ltb_irrefl.
    destruct (spread_other b full rest rest' _ Hb Hlwd Hs Hv) as [Hsp1 Hc].
    destruct (nuke_expanded b1 full rest' n) as (r & b2 & -> & H2); try done; [lia|].
    exists r, b2. split; [done|]. apply (expanded_trans b b1); [by exists (full ++ rest') | done | done].
  - destruct He as (Hu & -> & Ha). rewrite (proj2 (Nat.ltb_lt _ _)) by done.
    pose proof (sum_space_nonneg rest' Hs). pose proof (last_space_range full (proj1 (rest_space _ _ _ Hb))).
    destruct (chain_new_small (n - (last_space full + sum_space rest'))) as (oc & -> & Hoc); [lia | eapply small_le; [|exact Hsm]; lia|].
    cbn [mbind option_bind]. destruct oc as [tmp|].
    + destruct Hoc as [Hfr Hr]. destruct (fresh_space _ _ Hfr Hr) as (Hstm & Hot & Hlt). do 2 eexists. split; [done|].
      subst b1. cbn [chains set_chains]. rewrite set_chains_set_chains.
      apply (spread_expanded b full rest (rest' ++ [tmp])); try done; [by rewrite app_assoc | apply Forall_app; split; [done | by constructor].. |].
      left. split; [done|]. rewrite sum_space_app. cbn. lia.
    + do 2 eexists. split; [done|]. apply Hexp. by right.
Qed.

(** [_evbuffer_expand_fast] on the input of a connection. *)
Lemma expand_fast_spec b n m : input_ok b -> 0 < n -> small n -> (2 <= m)%nat ->
  exists r b1, _evbuffer_expand_fast b n m = Some (r, b1) /\ expanded b n r b1.
Proof.
  intros (full & rest & Hb) Hn Hsm Hm. unfold _evbuffer_expand_fast. rewrite (proj2 (Nat.ltb_ge m 2)) by done.
  destruct (last (chains b)) as [l|] eqn:El.
  2: { apply last_None in El. pose proof (sp_chains _ _ _ Hb) as Hc. rewrite El in Hc. symmetry in Hc. apply app_nil in Hc as [-> ->].
    destruct (chain_new_small n ltac:(lia) Hsm) as ([c|] & -> & Hoc); cbn [mbind option_bind].
    - destruct Hoc as [Hfr Hr]. destruct (fresh_space _ _ Hfr Hr) as (Hst & Hot & Hlt).
      unfold evbuffer_chain_insert. rewrite El, (sp_lwd _ _ _ Hb). cbn. rewrite (proj1 Hot), Z.add_0_r. do 2 eexists. split; [done|].
      apply (spread_expanded b [] [] [c]); try done; [by constructor..|]. left. split; [done|]. cbn. change (last_space []) with 0. lia.
    - do 2 eexists. split; [done|]. assert (expanded b n (-1) (set_chains b [] 0 (total_len b))) as Hx by (apply (spread_expanded b [] [] []); try done; by right).
      assert (set_chains b [] 0 (total_len b) = b) as E by (rewrite <- El, <- (sp_lwd _ _ _ Hb : _ = 0%nat); apply set_chains_id). by rewrite E in Hx. }
  assert (Hne : chains b <> []) by (by intros Hc; rewrite Hc in El).
  assert (Hw : has_flag l EVBUFFER_IMMUTABLE = false).
  { pose proof (sp_space _ _ _ Hb) as Hs. apply last_Some in El as [l' Hl]. rewrite Hl in Hs. apply Forall_app in Hs as [_ Hs].
    apply Forall_cons_split in Hs as [Hs _]. apply Hs. }
  rewrite Hw. clear El Hw l. destruct (rest_space _ _ _ Hb) as [Hsf Hsr]. pose proof (sp_rest _ _ _ Hb) as Hv.
  destruct (spread_drop _ _ _ Hb) as [(-> & -> & ->)|(f & l & -> & -> & -> & Hl)].
  - destruct (fast_loop_vacant rest true n m 0 0 Hsr Hv Hn ltac:(lia)) as (rest' & avail & used & e & -> & Hs' & Hv' & Hlen & He).
    cbn [mbind option_bind]. apply (fast_finish b [] rest rest' avail used e n m); try done.
    destruct e; change (last_space []) with 0; [done | split; [done | lia] | done].
  - pose proof (last_space_range _ Hsf) as Hls. rewrite last_space_snoc in Hls.
    assert (Hfl : 0 < off l) by (pose proof (sp_full _ _ _ Hb) as Hf; apply Forall_app in Hf as [_ Hf]; by apply Forall_cons_split in Hf as [Hf _]).
    cbn [expand_fast_loop]. rewrite (proj2 (Z.eqb_neq (off l) 0)) by lia. cbn [negb].
    set (u := if negb (CHAIN_SPACE_LEN l =? 0) then 1%nat else 0%nat).
    assert ((if negb (CHAIN_SPACE_LEN l =? 0) then Some (l, 0 + CHAIN_SPACE_LEN l, 1%nat) else Some (l, 0, 0%nat)) = Some (l, CHAIN_SPACE_LEN l, u)) as ->.
    { subst u. by destruct (Z.eqb_spec (CHAIN_SPACE_LEN l) 0) as [->|]. }
    cbn [mbind option_bind]. assert (Hu : (u < m)%nat) by (subst u; destruct (negb _); lia).
    pose proof (sum_space_nonneg rest Hsr). rewrite <- (last_space_snoc f l) in *.
    destruct (Z.leb_spec n (last_space (f ++ [l]))).
    { pose proof (fast_finish b (f ++ [l]) rest rest 0 0 FastEnough n m) as Hfin. cbn zeta in Hfin.
      rewrite <- app_assoc in Hfin. cbn [app] in Hfin. cbn [mbind option_bind]. apply Hfin; try done. lia. }
    rewrite (proj2 (Nat.eqb_neq u m)) by lia.
    destruct (fast_loop_vacant rest false n m (last_space (f ++ [l])) u) as (rest' & avail & used & e & -> & Hs' & Hv' & Hlen & He); try done.
    cbn [mbind option_bind].
    pose proof (fast_finish b (f ++ [l]) rest rest' avail used e n m) as Hfin. cbn zeta in Hfin. rewrite <- app_assoc in Hfin. cbn [app] in Hfin.
    apply Hfin; try done. destruct e; [done | split; [done | lia] | done].
Qed.

(** ** Receiving into the space *)

(** The chain that is received into first is behind [pre]. *)
Record room (b : evbuffer) (n : Z) (pre : list evbuffer_chain) (c : evbuffer_chain) (rest : list evbuffer_chain) : Prop := {
  rm_chains : chains b = pre ++ c :: rest;
  rm_space : Forall space_chain (pre ++ c :: rest);
  rm_pre : Forall filled pre;
  rm_rest : Forall vacant rest;
  rm_pos : 0 < CHAIN_SPACE_LEN c;
  rm_first : first_with_space b = length pre;
  rm_lwd : is_Some (chains b !! last_with_datap b);
  rm_total : total_len b = zlen (contents b);
  rm_enough : n <= CHAIN_SPACE_LEN c + sum_space rest }.

Lemma vacant_space c : space_chain c -> vacant c -> 0 < CHAIN_SPACE_LEN c.
Proof. intros Hs [Ho Hm]. destruct (space_len c Hs) as [-> _]. pose proof (sc_room _ Hs). lia. Qed.

Lemma room_found b full rest n : spread b full rest -> 0 < n <= last_space full + sum_space rest ->
  exists pre c rest', room b n pre c rest'.
Proof.
  intros Hb Hn. destruct (rest_space _ _ _ Hb) as [Hsf Hsr]. pose proof (sp_rest _ _ _ Hb) as Hv. pose proof (sp_full _ _ _ Hb) as Hf.
  pose proof (sp_space _ _ _ Hb) as Hs. pose proof (sp_chains _ _ _ Hb) as Hc. rewrite Hc in Hs. pose proof (sp_lwd _ _ _ Hb) as Hlwd.
  assert (Hrest : rest = [] -> n <= last_space full) by (intros ->; cbn in Hn; lia).
  destruct full as [|l f _] using rev_ind.
  - change (last_space []) with 0 in *. destruct rest as [|c rest]; [specialize (Hrest eq_refl); lia|].
    cbn [length Nat.sub] in Hlwd. apply Forall_cons_split in Hsr as [Hsc Hsr], Hv as [Hvc Hv]. pose proof (vacant_space c Hsc Hvc).
    exists [], c, rest. split; try done; unfold first_with_space; rewrite ?Hlwd, ?Hc; cbn.
    + by rewrite (proj2 (Z.eqb_neq _ _)) by lia.
    + done.
    + apply Hb.
    + cbn in Hn. unfold sum_space. lia.
  - rewrite last_space_snoc in *. apply Forall_app in Hf as [Hf Hfl]. rewrite length_app in Hlwd. cbn [length] in Hlwd.
    replace (length f + 1 - 1)%nat with (length f) in Hlwd by lia.
    assert (Hlk : chains b !! last_with_datap b = Some l) by (rewrite Hc, Hlwd, <- app_assoc; by apply list_lookup_middle).
    apply Forall_app in Hsf as [Hsf [Hsl _]%Forall_cons_split]. destruct (space_len l Hsl) as [_ Hl0].
    destruct (Z.eqb_spec (CHAIN_SPACE_LEN l) 0) as [Hl|Hl].
    + destruct rest as [|c rest]; [specialize (Hrest eq_refl); lia|]. apply Forall_cons_split in Hsr as [Hsc Hsr], Hv as [Hvc Hv].
      exists (f ++ [l]), c, rest. split; try done; [by apply Forall_app | by apply vacant_space | | apply Hb | cbn in Hn; unfold sum_space; lia].
      unfold first_with_space. rewrite Hlk, Hl, length_app, Hlwd. cbn. lia.
    + exists f, l, rest. rewrite <- app_assoc in Hc, Hs. split; try done; [lia | | apply Hb | lia].
      unfold first_with_space. by rewrite Hlk, (proj2 (Z.eqb_neq _ _)).
Qed.

(** The vectors for [n] bytes: in the first chain, and in the next one if there are more. *)
Definition vectors (i : nat) (c : evbuffer_chain) (rest : list evbuffer_chain) (n : Z) : list evbuffer_iovec :=
  if n <=? CHAIN_SPACE_LEN c then [vec_at i c n] else
  match rest with
  | c2 :: _ => [vec_at i c (CHAIN_SPACE_LEN c); vec_at (S i) c2 (Z.min (n - CHAIN_SPACE_LEN c) (CHAIN_SPACE_LEN c2))]
  | [] => []
  end.

Lemma setup_vecs_stop cs i n room so_far exact : n <= so_far -> setup_vecs_loop cs i n room so_far exact = Some [].
Proof. intros H. destruct cs, room; cbn; by rewrite ?(proj2 (Z.ltb_ge so_far n)) by lia. Qed.

Lemma setup_vecs_none cs i n so_far exact : setup_vecs_loop cs i n 0 so_far exact = Some [].
Proof. by destruct cs. Qed.

Lemma setup_vecs_room b n pre c rest : room b n pre c rest -> 0 < n ->
  _evbuffer_read_setup_vecs b n 2 true = Some (Some (vectors (length pre) c rest n, length pre)).
Proof.
  intros Hr Hn. unfold _evbuffer_read_setup_vecs. rewrite (proj2 (Z.ltb_ge n 0)) by lia. destruct (rm_lwd _ _ _ _ _ Hr) as [x ->].
  cbn [mbind option_bind]. rewrite (rm_first _ _ _ _ _ Hr), (rm_chains _ _ _ _ _ Hr), drop_app_length.
  pose proof (rm_enough _ _ _ _ _ Hr) as He. pose proof (rm_pos _ _ _ _ _ Hr) as Hp.
  assert (Hsp : Forall space_chain rest) by (pose proof (rm_space _ _ _ _ _ Hr) as Hs; apply Forall_app in Hs as [_ Hs]; by apply Forall_cons_split in Hs as [_ Hs]).
  cbn [setup_vecs_loop]. rewrite (proj2 (Z.ltb_lt 0 n)) by lia. rewrite Z.sub_0_r, andb_true_r. unfold vectors.
  destruct (Z.leb_spec n (CHAIN_SPACE_LEN c)) as [Hle|Hgt].
  - assert ((if n <? CHAIN_SPACE_LEN c then n else CHAIN_SPACE_LEN c) = n) as -> by (destruct (Z.ltb_spec n (CHAIN_SPACE_LEN c)); lia).
    by rewrite setup_vecs_stop by lia.
  - rewrite (proj2 (Z.ltb_ge n (CHAIN_SPACE_LEN c))), Z.add_0_l by lia.
    destruct rest as [|c2 rest]; [cbn in He; lia|]. cbn [setup_vecs_loop]. rewrite (proj2 (Z.ltb_lt _ n)) by lia.
    rewrite andb_true_r, setup_vecs_none. cbn [mbind option_bind].
    assert ((if n - CHAIN_SPACE_LEN c <? CHAIN_SPACE_LEN c2 then n - CHAIN_SPACE_LEN c else CHAIN_SPACE_LEN c2) = Z.min (n - CHAIN_SPACE_LEN c) (CHAIN_SPACE_LEN c2)) as ->
      by (destruct (Z.ltb_spec (n - CHAIN_SPACE_LEN c) (CHAIN_SPACE_LEN c2)); lia).
    done.
Qed.

(** What is received in a chain: the chain afterwards. *)
Lemma receive_chain c d : space_chain c -> zlen d <= CHAIN_SPACE_LEN c ->
  exists m, mem_write (buffer c) (CHAIN_SPACE_PTR c) d = Some m /\
    let c' := set_data c (misalign c) (off c + zlen d) m in space_chain c' /\ chain_data c' = chain_data c ++ d.
Proof.
  intros [Hg Hw Hr] Hd. destruct (write_space c d [] Hg Hw) as (m & Hm & Hg' & Hd'); [by rewrite app_nil_r|].
  rewrite app_nil_r in Hm. by exists m.
Qed.

Lemma space_len_set c o m : CHAIN_SPACE_LEN (set_data c (misalign c) (off c) m) = CHAIN_SPACE_LEN c /\
  set_window (set_data c (misalign c) (off c) m) (misalign c) o = set_data c (misalign c) o m.
Proof. done. Qed.

(** The buffer after [d] has been received and accounted for. *)
Definition received (b : evbuffer) (d : list Z) (cs : list evbuffer_chain) (lwd : nat) : Prop :=
  exists full rest, spread (set_chains b cs lwd (total_len b + zlen d)) full rest /\ data_of cs = contents b ++ d.

Lemma received_spread b d pre rest : Forall space_chain (pre ++ rest) -> Forall filled pre -> Forall vacant rest ->
  data_of pre = contents b ++ d -> total_len b = zlen (contents b) ->
  received b d (pre ++ rest) (length pre - 1).
Proof.
  intros Hs Hf Hv Hd Ht. apply Forall_app in Hs as Hs2. assert (Hdd : data_of (pre ++ rest) = contents b ++ d).
  { rewrite data_of_app, (data_of_vacant rest), app_nil_r by apply Hs2 || done. done. }
  exists pre, rest. split; [|done]. split; try done. cbn [total_len set_chains]. unfold contents at 1. cbn [chains set_chains].
  rewrite Hdd, zlen_app, Ht. done.
Qed.

Lemma receive_room b n pre c rest d : room b n pre c rest -> 0 < n -> 0 < zlen d <= sum_len (vectors (length pre) c rest n) ->
  exists b2 cs lwd, scatter b (vectors (length pre) c rest n) d = Some b2 /\
    read_commit (drop (length pre) (chains b2)) (length pre) (length (vectors (length pre) c rest n)) (zlen d) (last_with_datap b2) = Some (cs, lwd) /\
    (exists cs2, b2 = set_chains b cs2 (last_with_datap b) (total_len b)) /\
    take (length pre) (chains b2) = pre /\ received b d (pre ++ cs) lwd.
Proof.
  intros Hr Hn Hd. pose proof (rm_chains _ _ _ _ _ Hr) as Hc. pose proof (rm_space _ _ _ _ _ Hr) as Hs. pose proof (rm_enough _ _ _ _ _ Hr) as He.
  apply Forall_app in Hs as [Hsp [Hsc Hsr]%Forall_cons_split]. pose proof (rm_rest _ _ _ _ _ Hr) as Hv. pose proof (rm_pos _ _ _ _ _ Hr) as Hpos.
  assert (Hcon : contents b = data_of pre ++ chain_data c).
  { unfold contents. rewrite Hc, data_of_app, data_of_cons, (data_of_vacant rest), app_nil_r by done. done. }
  pose proof (ck_off c (gc_ok _ (sc_good _ Hsc))) as Hoc.
  assert (Hone : zlen d <= CHAIN_SPACE_LEN c -> exists m, mem_write (buffer c) (CHAIN_SPACE_PTR c) d = Some m /\
    received b d (pre ++ set_data c (misalign c) (off c + zlen d) m :: rest) (length pre)).
  { intros Hle. destruct (receive_chain c d Hsc Hle) as (m & Hm & Hs' & Hdat). exists m. split; [done|].
    pose proof (received_spread b d (pre ++ [set_data c (misalign c) (off c + zlen d) m]) rest) as Hrs.
    rewrite <- app_assoc, length_app in Hrs. cbn [app length] in Hrs. replace (length pre + 1 - 1)%nat with (length pre) in Hrs by lia. apply Hrs; try done.
    - apply Forall_app. split; [done|]. by constructor.
    - apply Forall_app. split; [apply Hr|]. constructor; [|done]. unfold filled. cbn. lia.
    - by rewrite data_of_app, data_of_single, Hdat, Hcon, app_assoc.
    - apply Hr. }
  unfold vectors in *. destruct (Z.leb_spec n (CHAIN_SPACE_LEN c)) as [Hle|Hgt].
  - cbn in Hd. destruct Hone as (m & Hm & Hrec); [lia|]. cbn [scatter iov_len vec_at]. rewrite ztake_ge, zdrop_ge by lia.
    unfold vec_write, vec_at. cbn [iov_chain iov_pos]. rewrite Hc, list_lookup_middle by done. cbn [mbind option_bind]. rewrite Hm. cbn [mbind option_bind].
    rewrite insert_app_r_alt, Nat.sub_diag by lia. cbn [insert list_insert zlen length Z.of_nat Z.eqb].
    do 3 eexists. split; [done|]. cbn [chains set_chains]. rewrite drop_app_length, take_app_length. cbn [read_commit].
    rewrite (proj1 (space_len_set c 0 m)), (proj2 (Z.ltb_ge _ _)) by lia. split; [done|]. split; [by eexists|]. split; [done | exact Hrec].
  - destruct rest as [|c2 rest]; [cbn in He; lia|]. cbn in Hd. rewrite Z.add_0_r in Hd.
    apply Forall_cons_split in Hsr as [Hs2 Hsr], Hv as [Hv2 Hv]. pose proof (vacant_space c2 Hs2 Hv2) as Hp2.
    set (s1 := CHAIN_SPACE_LEN c) in *. cbn [scatter iov_len vec_at].
    destruct (receive_chain c (ztake s1 d) Hsc) as (m1 & Hm1 & Hs1' & Hd1).
    { unfold zlen, ztake. rewrite length_take. lia. }
    destruct (receive_chain c2 (zdrop s1 d) Hs2) as (m2 & Hm2 & Hs2' & Hd2); [rewrite zlen_zdrop_max by lia; lia|].
    rewrite (ztake_ge (zdrop s1 d)), zdrop_zdrop, (zdrop_ge d) by (rewrite ?zlen_zdrop_max by lia; lia).
    unfold vec_write, vec_at. cbn [iov_chain iov_pos]. rewrite Hc, list_lookup_middle by done. cbn [mbind option_bind]. rewrite Hm1. cbn [mbind option_bind].
    rewrite insert_app_r_alt, Nat.sub_diag by lia. cbn [insert list_insert chains set_chains].
    rewrite lookup_app_r by lia. replace (S (length pre) - length pre)%nat with 1%nat by lia. cbn [lookup list_lookup mbind option_bind]. rewrite Hm2.
    cbn [mbind option_bind]. rewrite insert_app_r_alt by lia. replace (S (length pre) - length pre)%nat with 1%nat by lia. cbn [insert list_insert zlen length Z.of_nat Z.eqb].
    destruct (Z.lt_ge_cases s1 (zlen d)) as [Hlong|Hshort];
      (do 3 eexists; split; [done|]; cbn [chains set_chains]; rewrite drop_app_length, take_app_length; cbn [read_commit];
       rewrite !(proj1 (space_len_set _ 0 _)); fold s1).
    + rewrite (proj2 (Z.ltb_lt s1 _)), (proj2 (Z.ltb_ge (CHAIN_SPACE_LEN c2) _)) by lia. cbn [mbind option_bind]. split; [done|]. split; [by eexists|]. split; [done|].
      rewrite zlen_ztake in Hs1', Hd1 by lia. rewrite zlen_zdrop in Hs2', Hd2 by lia.
      pose proof (received_spread b d (pre ++ [set_data c (misalign c) (off c + s1) m1; set_data c2 (misalign c2) (off c2 + (zlen d - s1)) m2]) rest) as Hrs.
      rewrite <- app_assoc, length_app in Hrs. cbn [app length] in Hrs. replace (length pre + 2 - 1)%nat with (S (length pre)) in Hrs by lia. apply Hrs; try done.
      * apply Forall_app. split; [done|]. constructor; [done|]. by constructor.
      * apply Forall_app. split; [apply Hr|]. pose proof (ck_off c2 (gc_ok _ (sc_good _ Hs2))). repeat constructor; unfold filled; cbn; lia.
      * rewrite data_of_app, !data_of_cons, Hd1, Hd2, Hcon. change (data_of []) with (@nil Z). rewrite app_nil_r, <- !app_assoc. do 2 f_equal.
        destruct Hv2 as [Hv2 _]. assert (chain_data c2 = []) as -> by (apply zlen_nil_iff; by rewrite chain_data_len by apply Hs2). cbn [app]. apply ztake_zdrop.
      * apply Hr.
    + rewrite (proj2 (Z.ltb_ge s1 _)) by lia. split; [done|]. split; [by eexists|]. split; [done|].
      assert (Ed : zdrop s1 d = []) by (apply zdrop_ge; lia). rewrite Ed in *. destruct (Hone ltac:(lia)) as (m & Hm & Hrec).
      rewrite (ztake_ge d s1) in Hm1 by lia. rewrite Hm in Hm1. injection Hm1 as <-.
      (* nothing was written into the second chain *)
      assert (set_data c2 (misalign c2) (off c2) m2 = c2) as ->; [|exact Hrec].
      unfold mem_write in Hm2. destruct (_ && _); [|done]. rewrite Z.add_0_r in Hm2. cbn [app] in Hm2. rewrite ztake_zdrop in Hm2.
      injection Hm2 as <-. by destruct c2.
Qed.
End read.

Section socket.
Context {A : Arch} {M : Allocator}.

(** What [WSARecv] promises: no more bytes than the vectors hold. *)
Definition recv_ok (recv : list Z -> recv_result) : Prop :=
  forall lens d, recv lens = RecvBytes d -> zlen d <= foldr Z.add 0 lens.

(** What [WSASend] promises: no more bytes than it was given. *)
Definition send_ok (send : list (list Z) -> Z) : Prop := forall vs, send vs <= zlen (concat vs).

(** The bytes that one call reads at most. *)
Definition read_amount (readable howmuch : Z) : Z :=
  let n := if (readable <=? 0) || (EVBUFFER_MAX_READ <? readable) then EVBUFFER_MAX_READ else readable in
  if (howmuch <? 0) || (n <? howmuch) then n else howmuch.

Lemma read_amount_cases readable howmuch : exists n, 0 < n <= EVBUFFER_MAX_READ /\
  read_amount readable howmuch = if (howmuch <? 0) || (n <? howmuch) then n else howmuch.
Proof.
  eexists. split; [|reflexivity]. unfold EVBUFFER_MAX_READ.
  destruct (Z.leb_spec readable 0), (Z.ltb_spec 4096 readable); cbn [orb]; lia.
Qed.

Lemma read_amount_range readable howmuch : howmuch <> 0 -> 0 < read_amount readable howmuch <= EVBUFFER_MAX_READ.
Proof.
  intros Hh. destruct (read_amount_cases readable howmuch) as (n & Hn & ->).
  destruct (Z.ltb_spec howmuch 0), (Z.ltb_spec n howmuch); cbn [orb]; lia.
Qed.

Lemma read_amount_le readable howmuch : 0 <= howmuch -> read_amount readable howmuch <= howmuch.
Proof.
  intros Hh. destruct (read_amount_cases readable howmuch) as (n & Hn & ->).
  destruct (Z.ltb_spec howmuch 0), (Z.ltb_spec n howmuch); cbn [orb]; lia.
Qed.

Lemma spread_same b b' full rest : spread b full rest -> chains b' = chains b -> last_with_datap b' = last_with_datap b ->
  total_len b' = total_len b -> spread b' full rest.
Proof. intros [H1 H2 H3 H4 H5 H6] E1 E2 E3. split; unfold contents; rewrite ?E1, ?E2, ?E3; done. Qed.

Lemma input_invoke b k : input_ok b -> input_ok (evbuffer_invoke_callbacks (add_count b k)).
Proof.
  intros (full & rest & Hb). destruct (invoke_frame (add_count b k)) as (E1 & E2 & E3 & _). exists full, rest. by apply (spread_same b).
Qed.

(** The vectors have room for what they should, and no more. *)
Lemma sum_vectors i c rest n : 0 < n -> n <= CHAIN_SPACE_LEN c + sum_space rest -> sum_len (vectors i c rest n) <= n.
Proof.
  intros Hn He. unfold vectors. destruct (Z.leb_spec n (CHAIN_SPACE_LEN c)); [cbn; lia|].
  destruct rest as [|c2 rest]; cbn; lia.
Qed.

Lemma sum_lens vs : foldr Z.add 0 (map iov_len vs) = sum_len vs.
Proof. induction vs as [|v vs IH]; [done|]. cbn. by rewrite IH. Qed.

(** The data is as before; only the space has changed. *)
Definition unread (b b' : evbuffer) : Prop :=
  input_ok b' /\ contents b' = contents b /\ exists cs, b' = set_chains b cs (last_with_datap b') (total_len b).

(** [d] has been appended, and the callbacks know of it. *)
Definition read_in (b b' : evbuffer) (d : list Z) : Prop :=
  input_ok b' /\ contents b' = contents b ++ d /\
  exists cs lwd, b' = evbuffer_invoke_callbacks (add_count (set_chains b cs lwd (total_len b + zlen d)) (zlen d)).

(** What a socket has delivered: nothing at the end of file and after an error. *)
Definition delivered (r : recv_result) : list Z := match r with RecvBytes d => d | _ => [] end.
Definition heard (recv : list Z -> recv_result) (d : list Z) : Prop := exists lens, delivered (recv lens) = d.

(** What arrives at a socket is appended to the input: [evbuffer_read] takes no more than
    it is allowed to and than the socket has, and gives their number, or leaves the data
    alone and gives 0 (end of file) or -1 (an error, or no memory). *)
Theorem evbuffer_read_appends b readable recv howmuch :
  input_ok b -> freeze_end b = false -> recv_ok recv -> howmuch <> 0 ->
  exists r b', evbuffer_read b readable recv howmuch = Some (r, b') /\
    ((r = 0 \/ r = -1) /\ unread b b' /\ (mem_ok -> heard recv []) \/
     exists d, heard recv d /\ r = zlen d /\ 0 < r <= read_amount readable howmuch /\ read_in b b' d).
Proof.
  intros Hb Hf Hrecv Hh. unfold evbuffer_read. rewrite Hf. fold (read_amount readable howmuch).
  pose proof (read_amount_range readable howmuch Hh) as Hn. set (n := read_amount readable howmuch) in *. unfold EVBUFFER_MAX_READ in Hn.
  assert (Hsm : small n) by (unfold small; pose proof half_space; pose proof chain_size_lt_min; destruct arch_cases as [(_&?&?)|(_&?&?)]; lia).
  destruct (expand_fast_spec b n NUM_READ_IOVEC Hb ltac:(lia) Hsm ltac:(unfold NUM_READ_IOVEC; lia)) as (r & b1 & -> & Hexp).
  destruct Hexp as (Hset & Hc & full & rest & Hb1 & Hr). cbn [mbind option_bind].
  assert (Hun : unread b b1) by (split; [by exists full, rest|]; done).
  destruct Hr as [[-> He]|[-> [k Hk]]]; [|exists (-1), b1; split; [done|]; left; splits; [by right | done | by intros Hm; destruct (Hm k)]].
  cbn [Z.eqb]. destruct (room_found b1 full rest n Hb1 ltac:(lia)) as (pre & c & rest' & Hroom).
  rewrite (setup_vecs_room b1 n pre c rest' Hroom) by lia. cbn [mbind option_bind].
  set (lens := map iov_len _). assert (Hheard : heard recv (delivered (recv lens))) by by exists lens. destruct (recv lens) as [d| |] eqn:Er; cbn [delivered] in Hheard.
  2: { exists 0, b1. split; [done|]. left. splits; [by left | done | done]. }
  2: { exists (-1), b1. split; [done|]. left. splits; [by right | done | done]. }
  apply Hrecv in Er. unfold lens in Er. rewrite sum_lens in Er. destruct (Z.eqb_spec (zlen d) 0) as [Hz|Hz].
  { exists 0, b1. split; [done|]. left. splits; [by left | done |]. by rewrite (proj1 (zlen_nil_iff d) Hz) in Hheard. }
  pose proof (zlen_nonneg d). destruct (receive_room b1 n pre c rest' d Hroom) as (b2 & cs & lwd & -> & Hcommit & (cs2 & Hb2) & Ht & Hrec); [lia.. |].
  cbn [mbind option_bind]. rewrite Hcommit. cbn [mbind option_bind].
  eexists _, _. split; [done|]. right. exists d. split; [done|]. split; [done|].
  pose proof (sum_vectors (length pre) c rest' n ltac:(lia) (rm_enough _ _ _ _ _ Hroom)). split; [lia|].
  rewrite Ht. destruct Hrec as (full' & rest2 & Hsp & Hdat). destruct Hset as (cs1 & Hset).
  assert (Eb : set_chains b2 (pre ++ cs) lwd (total_len b2 + zlen d) = set_chains b (pre ++ cs) lwd (total_len b + zlen d)).
  { rewrite Hb2, Hset. reflexivity. }
  assert (Eb1 : set_chains b1 (pre ++ cs) lwd (total_len b1 + zlen d) = set_chains b (pre ++ cs) lwd (total_len b + zlen d)).
  { rewrite Hset. reflexivity. }
  rewrite Eb. rewrite Eb1 in Hsp. split; [apply input_invoke; by exists full', rest2|]. split; [|by exists (pre ++ cs), lwd].
  rewrite invoke_contents. unfold contents at 1. cbn [chains add_count set_counts set_chains]. by rewrite Hdat, Hc.
Qed.

(** ** Taking data out of the input *)

Lemma drain_loop_more cs es : forall i k lwd c r j rem lwd',
  drain_loop cs i k lwd = Some (c :: r, j, rem, lwd') -> drain_loop (cs ++ es) i k lwd = Some (c :: r ++ es, j, rem, lwd').
Proof.
  induction cs as [|x cs IH]; intros i k lwd c r j rem lwd'; cbn [drain_loop app]; [done|].
  destruct (off x <=? k); [|by intros [= <- <- <- <- <-]].
  destruct (CHAIN_PINNED_R x); [destruct (_ =? 0); [|done]; by intros [= <- <- <- <- <-] | apply IH].
Qed.

Lemma drain_loop_suffix cs : forall i k lwd r j rem lwd', Forall space_chain cs ->
  drain_loop cs i k lwd = Some (r, j, rem, lwd') -> r `suffix_of` cs.
Proof.
  induction cs as [|x cs IH]; intros i k lwd r j rem lwd' Hs; cbn [drain_loop]; [done|].
  apply Forall_cons_split in Hs as [Hx Hs]. rewrite (unpinned_r x) by apply Hx.
  destruct (off x <=? k); [intros H; apply suffix_cons_r; by apply (IH _ _ _ _ _ _ _ Hs H) | by intros [= <- _ _ _]].
Qed.

Definition drained_in (b b' : evbuffer) (k : Z) : Prop :=
  input_ok b' /\ contents b' = zdrop k (contents b) /\
  exists cs lwd, b' = evbuffer_invoke_callbacks (del_count (set_chains b cs lwd (total_len b - k)) k).

Lemma drained_in_intro b full rest cs lwd k : chains (set_chains b cs lwd 0) = full ++ rest ->
  Forall space_chain (full ++ rest) -> Forall filled full -> Forall vacant rest -> lwd = (length full - 1)%nat ->
  data_of full = zdrop k (contents b) -> total_len b = zlen (contents b) -> 0 <= k <= total_len b ->
  drained_in b (evbuffer_invoke_callbacks (del_count (set_chains b cs lwd (total_len b - k)) k)) k.
Proof.
  cbn [chains set_chains]. intros -> Hs Hf Hv -> Hd Ht Hk. pose proof (Forall_app_split _ _ _ Hs) as [_ Hsr].
  assert (Hdd : data_of (full ++ rest) = zdrop k (contents b)) by (by rewrite data_of_app, (data_of_vacant rest), app_nil_r).
  split; [|split; [by rewrite invoke_contents | by do 2 eexists]].
  set (b1 := set_chains b (full ++ rest) (length full - 1) (total_len b - k)).
  destruct (invoke_frame (del_count b1 k)) as (E1 & E2 & E3 & _). exists full, rest. apply (spread_same b1); [|done..].
  split; try done; cbn [b1 total_len set_chains]. unfold contents at 1. cbn [chains set_chains b1]. rewrite Hdd, zlen_zdrop by lia. lia.
Qed.

Lemma input_drain b len : input_ok b -> freeze_start b = false -> 0 <= len -> total_len b <> 0 ->
  exists b', evbuffer_drain b len = Some (0, b') /\ drained_in b b' (Z.min len (total_len b)).
Proof.
  intros (full & rest & Hb) Hf Hl Ht. destruct (rest_space _ _ _ Hb) as [Hsf Hsr]. pose proof (contents_full _ _ _ Hb) as Hc.
  pose proof (sp_total _ _ _ Hb) as Htl. pose proof (zlen_nonneg (contents b)).
  unfold evbuffer_drain. rewrite (proj2 (Z.eqb_neq _ _) Ht), Hf.
  assert (Hpin : HAS_PINNED_R b = false).
  { unfold HAS_PINNED_R. destruct (last (chains b)) as [c|] eqn:El; [|done]. apply last_Some in El as [cs Hcs].
    pose proof (sp_space _ _ _ Hb) as Hs. rewrite Hcs in Hs. apply Forall_app in Hs as [_ [Hs _]%Forall_cons_split]. apply unpinned_r, Hs. }
  rewrite Hpin. cbn [negb]. rewrite andb_true_r. destruct (Z.leb_spec (total_len b) len) as [Hge|Hlt].
  - eexists. split; [done|]. rewrite Z.min_r by lia. unfold ZERO_CHAIN.
    replace (set_chains b [] 0 0) with (set_chains b [] 0 (total_len b - total_len b)) by (f_equal; lia).
    apply (drained_in_intro b [] []); try done; [by rewrite zdrop_ge by lia | lia].
  - rewrite Z.min_l by lia. assert (Hne : full <> []) by (intros ->; cbn in Hc; rewrite Hc in Htl; done).
    destruct (drain_loop_spec full 0 len (last_with_datap b)) as (c & r & j & rem & lwd' & Hloop & Hg & Hfr & Hrem & Hd & Hlwd & _).
    { eapply List.Forall_impl; [|exact Hsf]; by intros ? []. }
    { apply Hb. }
    { rewrite <- Hc. lia. }
    { rewrite (sp_lwd _ _ _ Hb). destruct full; [done|]. cbn. lia. }
    assert (Hsr' : Forall space_chain (c :: r)).
    { assert (Hsuf : c :: r `suffix_of` full) by (by apply (drain_loop_suffix full 0 len (last_with_datap b) _ j rem lwd' Hsf)).
      destruct Hsuf as [x ->]. by apply Forall_app in Hsf as [_ ?]. }
    apply (drain_loop_more full rest) in Hloop. rewrite (sp_chains _ _ _ Hb), Hloop. cbn [mbind option_bind].
    apply Forall_cons_split in Hsr' as [Hsc Hsr'], Hfr as [Hfc Hfr], Hg as [Hgc _].
    pose proof (sp_rest _ _ _ Hb) as Hv.
    destruct (window_drop c rem (gc_ok _ Hgc)) as [Hok' Hd']; [lia|]. set (c' := set_window c (misalign c + rem) (off c - rem)) in *.
    destruct (good_same c c' Hgc Hok') as [Hgc' Hw']; [done..|]. eexists. split; [done|].
    apply (drained_in_intro b (c' :: r) rest); try done; cbn [length].
    + cbn. constructor; [|by apply Forall_app]. split; [done | rewrite Hw'; apply Hsc | apply Hsc].
    + constructor; [unfold filled; cbn; lia | done].
    + destruct Hlwd as [->|(_ & -> & ->)]; [|done]. destruct (Nat.eqb_spec (j + length r) 0); lia.
    + rewrite data_of_cons, Hd', Hc. by rewrite Hd.
    + lia.
Qed.

Lemma input_valid b : input_ok b -> valid b.
Proof.
  intros (full & rest & Hb). pose proof (sp_space _ _ _ Hb) as Hs. pose proof (sp_chains _ _ _ Hb) as Hc. split.
  - eapply List.Forall_impl; [|exact Hs]. by intros ? [[] _ _].
  - apply Hb.
  - pose proof (sp_lwd _ _ _ Hb) as Hl. destruct (spread_drop _ _ _ Hb) as [(-> & _)|(f & l & -> & _ & _ & Hlk)].
    + cbn [length Nat.sub app] in *. rewrite Hc, Hl. destruct rest as [|c rest]; [done|]. exists c. split; [done|]. intros _. split; [done|].
      rewrite (sp_total _ _ _ Hb), (contents_full _ _ _ Hb). done.
    + pose proof (sp_full _ _ _ Hb) as Hf. apply Forall_app in Hf as [_ [Hf _]%Forall_cons_split].
      destruct (chains b); [done|]. exists l. split; [done|]. unfold filled in Hf. lia.
  - rewrite Hc, (sp_lwd _ _ _ Hb). pose proof (sp_rest _ _ _ Hb) as Hv.
    assert (Hr : Forall (fun c => off c = 0) rest) by (eapply List.Forall_impl; [|exact Hv]; by intros ? []).
    destruct full as [|x full]; [by apply Forall_drop|].
    replace (S (length (x :: full) - 1)) with (length (x :: full)) by (cbn; lia). by rewrite drop_app_length.
Qed.

Lemma input_remove b n : input_ok b -> freeze_start b = false -> 0 <= n -> Z.min n (total_len b) <= INT_MAX ->
  exists b', evbuffer_remove b n = Some (Z.min n (total_len b), ztake n (contents b), b') /\
    (b' = b /\ Z.min n (total_len b) = 0 \/ 0 < Z.min n (total_len b) /\ drained_in b b' (Z.min n (total_len b))).
Proof.
  intros Hb Hf Hn Hmax. pose proof (vd_total _ (input_valid b Hb)) as Ht. pose proof (zlen_nonneg (contents b)).
  unfold evbuffer_remove. rewrite copyout_spec by (try done; by apply input_valid). cbn [mbind option_bind].
  assert (Hsw : swrap 32 (Z.min n (total_len b)) = Z.min n (total_len b)) by (apply swrap_small; unfold INT_MAX in *; lia).
  destruct (Z.ltb_spec 0 (Z.min n (total_len b))) as [Hpos|Hz].
  - destruct (input_drain b (Z.min n (total_len b)) Hb Hf) as (b' & -> & Hd); [lia..|]. cbn [mbind option_bind Z.ltb Z.compare]. rewrite Hsw.
    exists b'. split; [done|]. right. by rewrite Z.min_l in Hd by lia.
  - rewrite Hsw. exists b. split; [done|]. left. split; [done | lia].
Qed.

(** ** Writing *)

Lemma write_vecs_prefix cs : forall room n, Forall good_chain cs -> 0 <= n <= zlen (data_of cs) ->
  exists vs k, write_vecs cs room n = Some vs /\ concat vs = ztake k (data_of cs) /\ 0 <= k <= n /\
    ((0 < room)%nat -> 0 < n -> vs <> []).
Proof.
  induction cs as [|c cs IH]; intros room n Hg Hn.
  { exists [], 0. change (zlen (data_of [])) with 0 in Hn. splits; try done; lia. }
  apply Forall_cons_split in Hg as [Hc Hg]. pose proof (chain_data_len c Hc) as Hl. pose proof (ck_off c Hc).
  rewrite data_of_cons, zlen_app, Hl in Hn. destruct room as [|room]; cbn [write_vecs]; [exists [], 0; splits; try done; lia|].
  destruct (Z.eqb_spec n 0) as [->|Hnz]; [exists [], 0; splits; (done || lia)|].
  destruct (Z.leb_spec (off c) n) as [Hle|Hgt].
  - destruct (IH room (n - off c) Hg) as (vs & k & Hvs & Hcat & Hk & _); [lia|]. rewrite chain_data_read by apply Hc. cbn [mbind option_bind].
    rewrite Hvs. cbn [mbind option_bind]. exists (chain_data c :: vs), (off c + k). split; [done|]. split; [|split; [lia | done]].
    cbn [concat]. rewrite Hcat, data_of_cons, ztake_app_ge by lia. do 2 f_equal. lia.
  - destruct Hc as [[Hm Ho Hf Hb] _ _]. rewrite mem_read_Some by lia. cbn [mbind option_bind].
    exists [ztake n (zdrop (misalign c) (buffer c))], n. split; [done|]. split; [|split; [lia | done]].
    cbn [concat]. rewrite app_nil_r, data_of_cons, ztake_app_le by lia. unfold chain_data. by rewrite ztake_ztake by lia.
Qed.

(** The amount one call may send. *)
Definition write_amount (b : evbuffer) (howmuch : Z) : Z :=
  if (howmuch <? 0) || (total_len b <? howmuch) then total_len b else howmuch.

(** What leaves through a socket is taken from the front of the output:
    [evbuffer_write_atmost] offers a prefix of the data, no longer than it may be; what the
    socket accepts is removed, and its number returned; otherwise nothing changes. *)
Theorem evbuffer_write_atmost_sends b send howmuch :
  packed b -> freeze_start b = false -> send_ok send -> howmuch <> 0 -> total_len b <> 0 ->
  exists vs k r b', vs <> [] /\ concat vs = ztake k (contents b) /\ 0 <= k <= write_amount b howmuch /\ r = send vs /\
    evbuffer_write_atmost b send howmuch = Some (r, b') /\
    (r <= 0 /\ b' = b \/ 0 < r <= k /\ drained b' b r).
Proof.
  intros Hp Hf Hsend Hh Ht. pose proof (pk_total _ Hp) as Htl. pose proof (zlen_nonneg (contents b)).
  unfold evbuffer_write_atmost. rewrite Hf. fold (write_amount b howmuch). set (n := write_amount b howmuch).
  assert (Hn : 0 < n <= total_len b).
  { subst n. unfold write_amount. destruct (Z.ltb_spec howmuch 0), (Z.ltb_spec (total_len b) howmuch); cbn [orb]; lia. }
  rewrite (proj2 (Z.ltb_lt 0 n)) by lia. unfold evbuffer_write_iovec. rewrite (proj2 (Z.ltb_ge n 0)) by lia.
  destruct (write_vecs_prefix (chains b) NUM_WRITE_IOVEC n (pk_chains _ Hp)) as (vs & k & -> & Hcat & Hk & Hne); [unfold contents in Htl; lia|].
  cbn [mbind option_bind]. specialize (Hne ltac:(unfold NUM_WRITE_IOVEC; lia) ltac:(lia)).
  assert (Hm : match vs with [] => Some 0 | _ :: _ => Some (send vs) end = Some (send vs)) by by destruct vs.
  rewrite Hm. cbn [mbind option_bind]. pose proof (Hsend vs) as Hs. rewrite Hcat in Hs. unfold contents in Htl. rewrite zlen_ztake in Hs by lia.
  destruct (Z.ltb_spec 0 (send vs)) as [Hpos|Hneg].
  - destruct (drain_spec b (send vs) Hp Hf) as (b' & -> & Hd); [lia..|]. rewrite Z.min_l in Hd by (unfold contents in *; lia).
    exists vs, k, (send vs), b'. split; [done|]. split; [done|]. split; [done|]. split; [done|]. split; [done|]. right. split; [lia | done].
  - exists vs, k, (send vs), b. split; [done|]. split; [done|]. split; [done|]. split; [done|]. split; [done|]. left. split; [lia | done].
Qed.
End socket.
