(* ===== verification/ByteQueue.v ===== *)
(** What a byte queue promises to its clients: the operations the tagging code
    uses, their laws over the list of bytes a queue represents, and the proof
    that an evbuffer keeps the promise when memory does not run out. *)

From S2P Require Import Prelude EvChain Evbuffer EvbufferSpec EvbufferProps.

Class ByteQueue (Q : Type) := {
  bq_length : Q -> Z;
  bq_add : Q -> list Z -> option (Z * Q);
  bq_drain : Q -> Z -> option (Z * Q);
  bq_remove : Q -> Z -> option (Z * list Z * Q);
  bq_pullup : Q -> Z -> option (option (list Z) * Q);
  bq_add_buffer : Q -> Q -> option (Z * Q * Q) }.

(** [bq_rep q l]: the queue [q] holds the bytes [l]; [bq_fits l]: a queue can
    hold as many. *)
Class ByteQueueLaws (Q : Type) `{ByteQueue Q} := {
  bq_rep : Q -> list Z -> Prop;
  bq_fits : list Z -> Prop;
  bq_fits_int : forall l, bq_fits l -> zlen l <= INT_MAX;
  bq_fits_tail : forall l k, bq_fits (l ++ k) -> bq_fits k;
  bq_fits_head : forall l k, bq_fits (l ++ k) -> bq_fits l;
  bq_rep_fits : forall q l, bq_rep q l -> bq_fits l;
  bq_length_law : forall q l, bq_rep q l -> bq_length q = zlen l;
  bq_add_law : forall q l d, bq_rep q l -> d <> [] -> bq_fits (l ++ d) ->
    exists q', bq_add q d = Some (0, q') /\ bq_rep q' (l ++ d);
  bq_drain_law : forall q l n, bq_rep q l -> 0 <= n ->
    exists q', bq_drain q n = Some (0, q') /\ bq_rep q' (zdrop n l);
  bq_remove_law : forall q l n, bq_rep q l -> 0 <= n ->
    exists q', bq_remove q n = Some (Z.min n (zlen l), ztake n l, q') /\ bq_rep q' (zdrop n l);
  bq_pullup_law : forall q l n, bq_rep q l -> 0 < n <= zlen l ->
    exists bytes q', bq_pullup q n = Some (Some bytes, q') /\ bq_rep q' l /\
      ztake n bytes = ztake n l /\ n <= zlen bytes;
  bq_pullup_none : forall q l, bq_rep q l -> bq_pullup q 0 = Some (None, q);
  bq_add_buffer_law : forall q l r k, bq_rep q l -> bq_rep r k -> k <> [] -> bq_fits (l ++ k) ->
    exists q' r', bq_add_buffer q r = Some (0, q', r') /\ bq_rep q' (l ++ k) /\ bq_rep r' [] }.

#[export] Instance evbuffer_queue {A : Arch} {M : Allocator} : ByteQueue evbuffer := {|
  bq_length := evbuffer_get_length;
  bq_add := evbuffer_add;
  bq_drain := evbuffer_drain;
  bq_remove := evbuffer_remove;
  bq_pullup := evbuffer_pullup;
  bq_add_buffer := evbuffer_add_buffer false |}.

Section laws.
Context {A : Arch} {M : Allocator} (Hmem : mem_ok).

(** An evbuffer within its size bounds. *)
Definition held (b : evbuffer) (l : list Z) : Prop := represents b l /\ queue_ok l.

Lemma queue_ok_le l k : zlen l <= zlen k -> queue_ok k -> queue_ok l.
Proof. intros Hl [Hs Hm]. split; [by eapply small_le | lia]. Qed.

Lemma held_step b l op :
  held b l -> op_ok l op -> queue_ok (snd (abstract_step l op)) ->
  exists b', concrete_step b op = Some (fst (abstract_step l op), b') /\ held b' (snd (abstract_step l op)).
Proof.
  intros [Hr Hq] Hok Hq'. destruct (step_refines b l op Hmem Hr Hq Hok Hq') as (b' & ? & ?). by exists b'.
Qed.

Lemma held_drop b l n op :
  held b l -> 0 <= n -> op_ok l op -> snd (abstract_step l op) = zdrop n l ->
  exists b', concrete_step b op = Some (fst (abstract_step l op), b') /\ held b' (zdrop n l).
Proof.
  intros Hh Hn Hok Hs. rewrite <- Hs. apply held_step; try done. rewrite Hs.
  eapply queue_ok_le; [|apply Hh]. rewrite zlen_zdrop_max by done. pose proof (zlen_nonneg l). lia.
Qed.

(** An evbuffer keeps the laws. *)
#[refine] Definition evbuffer_laws : ByteQueueLaws evbuffer := {|
  bq_rep := held; bq_fits := queue_ok |}.
Proof.
  - by intros l [_ Hm].
  - intros l k. apply queue_ok_le. rewrite zlen_app. pose proof (zlen_nonneg l). lia.
  - intros l k. apply queue_ok_le. rewrite zlen_app. pose proof (zlen_nonneg k). lia.
  - by intros q l [_ Hq].
  - intros q l [[Hp Hc _ _] _]. cbn. unfold evbuffer_get_length. by rewrite (pk_total _ Hp), Hc.
  - intros q l d Hh Hd Hf. destruct (held_step q l (QAdd d) Hh Hd Hf) as (b' & Hs & Hb'). exists b'.
    split; [|done]. cbn in *. destruct (evbuffer_add q d) as [[r x]|]; [|done]. cbn in Hs. congruence.
  - intros q l n Hh Hn. destruct (held_drop q l n (QDrain n) Hh Hn Hn eq_refl) as (b' & Hs & Hb'). exists b'.
    split; [|done]. cbn in *. destruct (evbuffer_drain q n) as [[r x]|]; [|done]. cbn in Hs. congruence.
  - intros q l n Hh Hn. destruct (held_drop q l n (QRemove n) Hh Hn Hn eq_refl) as (b' & Hs & Hb'). exists b'.
    split; [|done]. cbn in *. destruct (evbuffer_remove q n) as [[[r x] y]|]; [|done]. cbn in Hs. congruence.
  - intros q l n [[Hp Hc Hfs Hfe] Hq] Hn. cbn. pose proof (pk_total _ Hp) as Ht. rewrite Hc in Ht.
    destruct (pullup_spec q n Hp) as (b' & r & Hr & Hres);
      [lia | destruct Hq as [Hs _]; eapply small_le; [|exact Hs]; lia |].
    destruct r as [bytes|]; [|destruct Hres as (_ & k & Hk); by destruct (Hmem k)].
    destruct Hres as (? & ? & _ & ? & ? & ? & ? & _). exists bytes, b'. rewrite Hc in *.
    split; [done|]. split; [|done]. split; [|done]. split; congruence.
  - intros q l [[Hp _ _ _] _]. cbn. unfold evbuffer_pullup. done.
  - intros q l r k [[Hp Hc Hfs Hfe] _] [[Hp2 Hc2 Hfs2 Hfe2] _] Hk Hf. cbn.
    destruct (add_buffer_spec q r Hp Hp2 Hfe Hfs2) as (q' & r' & Hr & ? & ? & ? & ? & ? & ? & ? & ?).
    { rewrite (pk_total _ Hp2), Hc2. intros E. by apply zlen_nil_iff in E. }
    exists q', r'. split; [done|]. rewrite Hc, Hc2 in *. split; (split; [split; congruence|]); [done|].
    eapply queue_ok_le; [|exact Hf]. change (zlen []) with 0. apply zlen_nonneg.
Defined.
End laws.
