(* ===== verification/Tagging.v ===== *)
(** Tagged data ([event_tagging.c]): the encoding of integers by nibbles and of
    tags by groups of seven bits, and the functions that marshal values into a
    byte queue and read them back.

    The functions return [None] where the code has no defined behaviour.  A
    function with an output parameter returns [Some] of its value where the code
    stores it. *)

From S2P Require Import Prelude EvChain MinHeap ByteQueue.

(** ** Integers by nibbles *)

(** The loop of [ENCODE_INT_INTERNAL]; [off] counts nibbles from 1, nibble 0
    being the count. *)
Fixpoint encode_int_loop (fuel : nat) (data : list Z) (off : nat) (number : Z)
  : option (list Z * nat) :=
  if number =? 0 then Some (data, off) else
  match fuel with
  | O => None
  | S fuel' =>
    let i := (off / 2)%nat in
    x ← data !! i;
    let x' := if Nat.odd off then Z.lor (Z.land x 0xf0) (Z.land number 0x0f)
              else Z.lor (Z.land x 0x0f) (Z.shiftl (Z.land number 0x0f) 4) in
    data' ← array_set data i x';
    encode_int_loop fuel' data' (S off) (Z.shiftr number 4)
  end.

(** [ENCODE_INT_INTERNAL] for a number of [size] bytes: the bytes written. *)
Definition encode_int (size : nat) (number : Z) : option (list Z) :=
  '(data, off) ← encode_int_loop (2 * size) (replicate (S size) 0) 1 number;
  let nibbles := if (2 <? off)%nat then (off - 2)%nat else 0%nat in
  x ← data !! 0%nat;
  data ← array_set data 0 (Z.lor (Z.land x 0x0f) (Z.shiftl (Z.land (Z.of_nat nibbles) 0x0f) 4));
  Some (take ((off + 1) / 2) data).

Definition encode_int_internal (number : Z) : option (list Z) := encode_int 4 number.
Definition encode_int64_internal (number : Z) : option (list Z) := encode_int 8 number.

(** The loop of [DECODE_INT_INTERNAL], for a number of [w] bits. *)
Fixpoint decode_int_loop (w : Z) (data : list Z) (nibbles : nat) (number : Z) : option Z :=
  match nibbles with
  | O => Some number
  | S nibbles' =>
    x ← data !! (nibbles / 2)%nat;
    let number := wrap w (Z.shiftl number 4) in
    decode_int_loop w data nibbles'
      (Z.lor number (if Nat.odd nibbles then Z.land x 0x0f else Z.shiftr (Z.land x 0xf0) 4))
  end.

(** ** Tags *)

(** The loop of [evtag_encode_tag]; [data] holds the bytes written so far. *)
Fixpoint encode_tag_loop (fuel : nat) (data : list Z) (tag : Z) : option (list Z) :=
  match fuel with
  | O => None
  | S fuel' =>
    let lower := Z.land tag 0x7f in
    let tag := Z.shiftr tag 7 in
    let lower := if negb (tag =? 0) then Z.lor lower 0x80 else lower in
    let data := data ++ [lower] in
    if negb (tag =? 0) then encode_tag_loop fuel' data tag else Some data
  end.

(** The array [data] has five bytes. *)
Definition encode_tag (tag : Z) : option (list Z) := encode_tag_loop 5 [] tag.

(** The loop of [decode_tag_internal] over the bytes at [data], with [len] the
    length of the buffer.  A shift by 32 or more and a read past the bytes
    pulled up have no defined behaviour.  The result is the number, if the loop
    ended by a last byte, and the count. *)
Fixpoint decode_tag_loop (data : list Z) (count len number shift : Z) : option (option Z * Z) :=
  if count <? len then
    match data with
    | [] => None
    | lower :: data' =>
      if 32 <=? shift then None else
      let number := Z.lor number (wrap 32 (Z.shiftl (Z.land lower 0x7f) shift)) in
      if Z.land lower 0x80 =? 0 then Some (Some number, count + 1)
      else decode_tag_loop data' (count + 1) len number (shift + 7)
    end
  else Some (None, count + 1).

Section queue.
Context {Q : Type} `{ByteQueue Q}.

Definition evtag_encode_int (q : Q) (number : Z) : option Q :=
  d ← encode_int_internal number;
  '(_, q) ← bq_add q d;
  Some q.

Definition evtag_encode_int64 (q : Q) (number : Z) : option Q :=
  d ← encode_int64_internal number;
  '(_, q) ← bq_add q d;
  Some q.

Definition evtag_encode_tag (q : option Q) (tag : Z) : option (Z * option Q) :=
  d ← encode_tag tag;
  match q with
  | None => Some (zlen d, None)
  | Some q => '(_, q) ← bq_add q d; Some (zlen d, Some q)
  end.

(** [evtag_encode_tag] with a buffer, its result not used. *)
Definition put_tag (q : Q) (tag : Z) : option Q :=
  '(_, o) ← evtag_encode_tag (Some q) tag; o.

(** The count or -1, the tag stored, the queue. *)
Definition decode_tag_internal (q : Q) (dodrain : bool) : option (Z * option Z * Q) :=
  let len := bq_length q in
  '(data, q) ← bq_pullup q (if len <? 5 then len else 5);
  '(number, count) ← decode_tag_loop (default [] data) 0 len 0 0;
  match number with
  | None => Some (-1, None, q)
  | Some number =>
    q ← (if dodrain then '(_, q) ← bq_drain q count; Some q else Some q);
    Some (if INT_MAX <? count then INT_MAX else count, Some number, q)
  end.

Definition evtag_decode_tag (q : Q) : option (Z * option Z * Q) := decode_tag_internal q true.

(** [DECODE_INT_INTERNAL]: the length or -1, the number stored, the queue. *)
Definition decode_int_at (w : Z) (maxnibbles : nat) (q : Q) (offset : Z)
  : option (Z * option Z * Q) :=
  let len := bq_length q - offset in
  if len <=? 0 then Some (-1, None, q) else
  '(p, q) ← bq_pullup q (offset + 1);
  data ← p;
  x ← head (zdrop offset data);
  let nibbles := (Z.to_nat (Z.shiftr (Z.land x 0xf0) 4) + 1)%nat in
  if (maxnibbles <? nibbles)%nat || (len <? Z.of_nat (nibbles / 2) + 1) then Some (-1, None, q) else
  let len := Z.of_nat (nibbles / 2) + 1 in
  '(p, q) ← bq_pullup q (offset + len);
  data ← p;
  number ← decode_int_loop w (zdrop offset data) nibbles 0;
  Some (len, Some number, q).

Definition decode_int_internal (q : Q) (offset : Z) : option (Z * option Z * Q) :=
  decode_int_at 32 8 q offset.
Definition decode_int64_internal (q : Q) (offset : Z) : option (Z * option Z * Q) :=
  decode_int_at 64 16 q offset.

Definition decode_and_drain (internal : Q -> Z -> option (Z * option Z * Q)) (q : Q)
  : option (Z * option Z * Q) :=
  '(res, number, q) ← internal q 0;
  if res =? -1 then Some (-1, number, q)
  else '(_, q) ← bq_drain q res; Some (0, number, q).

Definition evtag_decode_int (q : Q) : option (Z * option Z * Q) :=
  decode_and_drain decode_int_internal q.
Definition evtag_decode_int64 (q : Q) : option (Z * option Z * Q) :=
  decode_and_drain decode_int64_internal q.

(** ** Marshaling *)

Definition evtag_marshal (q : Q) (tag : Z) (data : list Z) : option Q :=
  q ← put_tag q tag;
  q ← evtag_encode_int q (wrap 32 (zlen data));
  '(_, q) ← bq_add q data;
  Some q.

(** Both queues: the destination, and the data moved out of. *)
Definition evtag_marshal_buffer (q : Q) (tag : Z) (data : Q) : option (Q * Q) :=
  q ← put_tag q tag;
  q ← evtag_encode_int q (wrap 32 (bq_length data));
  '(_, q, data) ← bq_add_buffer q data;
  Some (q, data).

(** The common part of the integer marshalers. *)
Definition marshal_encoded (q : Q) (tag : Z) (encoded : option (list Z)) : option Q :=
  data ← encoded;
  q ← put_tag q tag;
  q ← evtag_encode_int q (zlen data);
  '(_, q) ← bq_add q data;
  Some q.

Definition evtag_marshal_int (q : Q) (tag integer : Z) : option Q :=
  marshal_encoded q tag (encode_int_internal integer).
Definition evtag_marshal_int64 (q : Q) (tag integer : Z) : option Q :=
  marshal_encoded q tag (encode_int64_internal integer).

(** The string is its bytes before the terminator. *)
Definition evtag_marshal_string (q : Q) (tag : Z) (string : list Z) : option Q :=
  evtag_marshal q tag string.

Definition evtag_marshal_timeval (q : Q) (tag : Z) (tv : timeval) : option Q :=
  d1 ← encode_int_internal (wrap 32 (tv_sec tv));
  d2 ← encode_int_internal (wrap 32 (tv_usec tv));
  evtag_marshal q tag (d1 ++ d2).

(** ** Reading back *)

Definition evtag_peek (q : Q) : option (Z * option Z * Q) := decode_tag_internal q false.

Definition evtag_peek_length (q : Q) : option (Z * option Z * Q) :=
  '(len, _, q) ← decode_tag_internal q false;
  if len =? -1 then Some (-1, None, q) else
  '(res, number, q) ← decode_int_internal q len;
  if res =? -1 then Some (-1, number, q)
  else n ← number; Some (0, Some (wrap 32 (n + (res + len))), q).

Definition evtag_payload_length (q : Q) : option (Z * option Z * Q) :=
  '(len, _, q) ← decode_tag_internal q false;
  if len =? -1 then Some (-1, None, q) else
  '(res, number, q) ← decode_int_internal q len;
  Some (if res =? -1 then -1 else 0, number, q).

(** The length of the payload as an int, or -1; the tag; the queue. *)
Definition evtag_unmarshal_header (q : Q) : option (Z * option Z * Q) :=
  '(r, tag, q) ← decode_tag_internal q true;
  if r =? -1 then Some (-1, tag, q) else
  '(r, len, q) ← evtag_decode_int q;
  if r =? -1 then Some (-1, tag, q) else
  len ← len;
  if bq_length q <? len then Some (-1, tag, q) else
  Some (swrap 32 len, tag, q).

Definition evtag_consume (q : Q) : option (Z * Q) :=
  '(len, _, q) ← evtag_unmarshal_header q;
  if len =? -1 then Some (-1, q) else
  '(_, q) ← bq_drain q (wrap 64 len);
  Some (0, q).

(** The result, the tag, the source and the destination. *)
Definition evtag_unmarshal (src dst : Q) : option (Z * option Z * Q * Q) :=
  '(len, tag, src) ← evtag_unmarshal_header src;
  if len =? -1 then Some (-1, tag, src, dst) else
  '(p, src) ← bq_pullup src len;
  let data := default [] p in
  if (len <? 0) || (zlen data <? len) then None else
  '(r, dst) ← bq_add dst (ztake len data);
  if r =? -1 then Some (-1, tag, src, dst) else
  '(_, src) ← bq_drain src (wrap 64 len);
  Some (len, tag, src, dst).

(** The common body of the two integer readers. *)
Definition unmarshal_number (internal : Q -> Z -> option (Z * option Z * Q)) (q : Q) (need_tag : Z)
  : option (Z * option Z * Q) :=
  '(r, tag, q) ← decode_tag_internal q true;
  if r =? -1 then Some (-1, None, q) else
  tag ← tag;
  if negb (need_tag =? tag) then Some (-1, None, q) else
  '(r, len, q) ← evtag_decode_int q;
  if r =? -1 then Some (-1, None, q) else
  len ← len;
  if bq_length q <? len then Some (-1, None, q) else
  '(result, integer, q) ← internal q 0;
  '(_, q) ← bq_drain q len;
  Some (if (result <? 0) || (len <? result) then -1 else result, integer, q).

Definition evtag_unmarshal_int (q : Q) (need_tag : Z) : option (Z * option Z * Q) :=
  unmarshal_number decode_int_internal q need_tag.
Definition evtag_unmarshal_int64 (q : Q) (need_tag : Z) : option (Z * option Z * Q) :=
  unmarshal_number decode_int64_internal q need_tag.

(** The result, the bytes stored at [data], the queue. *)
Definition evtag_unmarshal_fixed (src : Q) (need_tag len : Z) : option (Z * list Z * Q) :=
  '(tag_len, tag, src) ← evtag_unmarshal_header src;
  if (tag_len <? 0) || negb (bool_decide (tag = Some need_tag)) then Some (-1, [], src) else
  if negb (tag_len =? len) then Some (-1, [], src) else
  '(_, d, src) ← bq_remove src len;
  Some (0, d, src).

(** The result, the string without its terminator, the queue. *)
Definition evtag_unmarshal_string {M : Allocator} (q : Q) (need_tag : Z)
  : option (Z * option (list Z) * Q) :=
  '(tag_len, tag, q) ← evtag_unmarshal_header q;
  if (tag_len =? -1) || negb (bool_decide (tag = Some need_tag)) then Some (-1, None, q) else
  match mm_malloc (wrap 64 (tag_len + 1)) with
  | None => Some (-1, None, q)
  | Some _ => '(_, d, q) ← bq_remove q (wrap 64 tag_len); Some (0, Some d, q)
  end.

(** The result, the fields stored, the queue. *)
Definition evtag_unmarshal_timeval (q : Q) (need_tag : Z) : option (Z * (option Z * option Z) * Q) :=
  '(len, tag, q) ← evtag_unmarshal_header q;
  if len =? -1 then Some (-1, (None, None), q) else
  '(result, tv, q) ← (
    if negb (bool_decide (tag = Some need_tag)) then Some (-1, (None, None), q) else
    '(offset, sec, q) ← decode_int_internal q 0;
    if offset =? -1 then Some (-1, (None, None), q) else
    '(offset2, usec, q) ← decode_int_internal q offset;
    if offset2 =? -1 then Some (-1, (sec, None), q) else
    Some (if len <? offset + offset2 then -1 else 0, (sec, usec), q));
  '(_, q) ← bq_drain q (wrap 64 len);
  Some (result, tv, q).
End queue.
