(* ===== verification/TaggingSpec.v ===== *)
(** What [Tagging] guarantees over any byte queue that keeps its laws: integers,
    tags, whole messages and streams of messages read back as they were
    written, and an incomplete message is reported as such. *)

From S2P Require Import Prelude EvChain MinHeap Evbuffer EvbufferProps ByteQueue Tagging.

(** ** Nibbles *)

(** Nibble [j] of the encoding: 0 is the high half of the first byte. *)
Definition nib (data : list Z) (j : nat) : Z :=
  let x := default 0 (data !! (j / 2)%nat) in
  if Nat.odd j then Z.land x 0x0f else Z.shiftr (Z.land x 0xf0) 4.

Definition put_nib (j : nat) (x v : Z) : Z :=
  if Nat.odd j then Z.lor (Z.land x 0xf0) v else Z.lor (Z.land x 0x0f) (Z.shiftl v 4).

Definition half (odd : bool) (x : Z) : Z :=
  if odd then Z.land x 0x0f else Z.shiftr (Z.land x 0xf0) 4.

(** Setting one half of a byte. *)
Lemma byte_halves x v :
  0 <= x < 256 -> 0 <= v < 16 ->
  let lo := Z.lor (Z.land x 0xf0) v in let hi := Z.lor (Z.land x 0x0f) (Z.shiftl v 4) in
  half true lo = v /\ half false lo = half false x /\ 0 <= lo < 256 /\
  half false hi = v /\ half true hi = half true x /\ 0 <= hi < 256.
Proof.
  intros Hx Hv lo hi.
  set (P := fun x => forallb (fun i => let v := Z.of_nat i in
    let lo := Z.lor (Z.land x 0xf0) v in let hi := Z.lor (Z.land x 0x0f) (Z.shiftl v 4) in
    (half true lo =? v) && (half false lo =? half false x) && (0 <=? lo) && (lo <? 256) &&
    (half false hi =? v) && (half true hi =? half true x) && (0 <=? hi) && (hi <? 256)) (seq 0 16)).
  assert (HP : P x = true) by (apply (forall_below 256); [vm_compute; reflexivity | lia]).
  unfold P in HP. rewrite forallb_forall in HP. specialize (HP (Z.to_nat v)).
  rewrite Z2Nat.id in HP by lia. fold lo hi in HP. cbn zeta in HP.
  assert (In (Z.to_nat v) (seq 0 16)) as Hin by (apply in_seq; lia). apply HP in Hin.
  bool_to_prop. lia.
Qed.

Lemma nib_half data j x : data !! (j / 2)%nat = Some x -> nib data j = half (Nat.odd j) x.
Proof. intros H. unfold nib. by rewrite H. Qed.

Lemma nib_range data j : Forall is_byte data -> 0 <= nib data j < 16.
Proof.
  intros Hb. unfold nib.
  assert (Hx : is_byte (default 0 (data !! (j / 2)%nat))).
  { destruct (data !! (j / 2)%nat) as [x|] eqn:E; cbn; [|unfold is_byte; lia].
    by eapply Forall_lookup_1. }
  assert (Hh : forall b x, is_byte x -> 0 <= half b x < 16).
  { intros b x0 Hx0. pose proof (forall_below 256 (fun x => (0 <=? half b x) && (half b x <? 16))) as H.
    destruct b; specialize (H ltac:(vm_compute; reflexivity) x0 Hx0); bool_to_prop; lia. }
  exact (Hh (Nat.odd j) _ Hx).
Qed.

Lemma div2_odd_eq i j : (i / 2 = j / 2)%nat -> Nat.odd i = Nat.odd j -> i = j.
Proof.
  intros Hd Ho. rewrite (Nat.div_mod_eq i 2), (Nat.div_mod_eq j 2), Hd. f_equal.
  rewrite <- !Nat.bit0_mod, !Nat.bit0_odd. by rewrite Ho.
Qed.

(** Setting nibble [i] of an array leaves the others. *)
Lemma nib_put data i x v :
  data !! (i / 2)%nat = Some x -> 0 <= v < 16 -> Forall is_byte data ->
  Forall is_byte (<[(i / 2)%nat := put_nib i x v]> data) /\
  forall j, nib (<[(i / 2)%nat := put_nib i x v]> data) j = if (j =? i)%nat then v else nib data j.
Proof.
  intros Hi Hv Hb. assert (Hx : is_byte x) by (by eapply Forall_lookup_1).
  destruct (byte_halves x v Hx Hv) as (H1 & H2 & H3 & H4 & H5 & H6).
  split; [apply Forall_insert; [done|]; unfold put_nib; by destruct (Nat.odd i)|].
  intros j. pose proof (lookup_lt_Some _ _ _ Hi).
  destruct (decide (j / 2 = i / 2)%nat) as [E|E].
  - rewrite (nib_half _ j (put_nib i x v)) by (rewrite E; by apply list_lookup_insert_eq).
    rewrite (nib_half data j x) by (by rewrite E). unfold put_nib.
    destruct (Nat.eqb_spec j i) as [->|Hne]; [by destruct (Nat.odd i)|].
    assert (Nat.odd j <> Nat.odd i) by (intros Ho; by apply Hne, div2_odd_eq).
    by destruct (Nat.odd j), (Nat.odd i).
  - destruct (Nat.eqb_spec j i) as [->|_]; [done|]. unfold nib. by rewrite list_lookup_insert_ne by done.
Qed.

(** ** Encoding and decoding integers *)

Definition digit (number : Z) (k : nat) : Z := number / 16 ^ Z.of_nat k mod 16.

Lemma digit_shift number k : 0 <= number -> digit (Z.shiftr number 4) k = digit number (S k).
Proof.
  intros Hn. unfold digit. rewrite Z.shiftr_div_pow2 by lia. change (2 ^ 4) with 16.
  rewrite Z.div_div by lia. f_equal. f_equal. rewrite <- Z.pow_succ_r by lia. f_equal. lia.
Qed.

Lemma land_15 n : Z.land n 0x0f = n mod 16.
Proof. change 0x0f with (Z.ones 4). by rewrite Z.land_ones by lia. Qed.

Lemma encode_int_loop_spec fuel : forall data off number,
  0 <= number < 16 ^ Z.of_nat fuel -> Forall is_byte data -> (off + fuel <= 2 * length data)%nat ->
  exists data' k, encode_int_loop fuel data off number = Some (data', (off + k)%nat) /\
    (k <= fuel)%nat /\ length data' = length data /\ Forall is_byte data' /\
    number < 16 ^ Z.of_nat k /\
    forall j, nib data' j =
      if (off <=? j)%nat && (j <? off + k)%nat then digit number (j - off) else nib data j.
Proof.
  induction fuel as [|fuel IH]; intros data off number Hn Hb Hl; cbn [encode_int_loop].
  { assert (number = 0) as -> by lia. exists data, 0%nat. rewrite Nat.add_0_r. splits; try done; try lia.
    intros j. destruct (Nat.leb_spec off j), (Nat.ltb_spec j off); done || lia. }
  destruct (Z.eqb_spec number 0) as [->|H0].
  { exists data, 0%nat. rewrite Nat.add_0_r. splits; try done; try lia.
    intros j. destruct (Nat.leb_spec off j), (Nat.ltb_spec j off); done || lia. }
  assert (Hi : (off / 2 < length data)%nat) by (apply Nat.Div0.div_lt_upper_bound; lia).
  destruct (lookup_lt_is_Some_2 _ _ Hi) as [x Hx]. rewrite Hx. cbn [mbind option_bind].
  rewrite array_set_Some by done. cbn [option_bind mbind].
  set (v := Z.land number 15). assert (Hv : v = number mod 16) by apply land_15.
  assert (Hvr : 0 <= v < 16) by (rewrite Hv; apply Z.mod_pos_bound; lia).
  destruct (nib_put data off x v Hx Hvr Hb) as [Hb' Hnib]. unfold put_nib in Hb', Hnib.
  rewrite Nat2Z.inj_succ, Z.pow_succ_r in Hn by lia.
  destruct (IH (<[(off / 2)%nat := if Nat.odd off then Z.lor (Z.land x 240) v else Z.lor (Z.land x 15) (Z.shiftl v 4)]> data)
    (S off) (Z.shiftr number 4)) as (data' & k & -> & Hk & Hlen & Hby & Hlt & Hj); [| done | rewrite length_insert; lia |].
  { rewrite Z.shiftr_div_pow2 by lia. change (2 ^ 4) with 16. split; [apply Z.div_pos; lia|].
    apply Z.div_lt_upper_bound; lia. }
  rewrite length_insert in Hlen.
  exists data', (S k). replace (off + S k)%nat with (S off + k)%nat by lia. splits; try done; try lia.
  { rewrite Nat2Z.inj_succ, Z.pow_succ_r by lia.
    rewrite Z.shiftr_div_pow2 in Hlt by lia. change (2 ^ 4) with 16 in Hlt.
    pose proof (Z.div_mod number 16 ltac:(lia)). pose proof (Z.mod_pos_bound number 16 ltac:(lia)). lia. }
  intros j. rewrite Hj, Hnib.
  destruct (Nat.leb_spec (S off) j), (Nat.ltb_spec j (S off + k)), (Nat.leb_spec off j), (Nat.eqb_spec j off);
    cbn [andb]; try lia; try done.
  - rewrite digit_shift by lia. f_equal. lia.
  - subst j. rewrite Nat.sub_diag, Hv. unfold digit. cbn. by rewrite Z.div_1_r.
Qed.

(** [bs] is an encoding of [number] with [m] nibbles. *)
Record int_encoding (bs : list Z) (m : nat) (number : Z) : Prop := {
  ie_bytes : Forall is_byte bs;
  ie_len : length bs = (m / 2 + 1)%nat;
  ie_pos : (1 <= m)%nat;
  ie_count : nib bs 0 = Z.of_nat (m - 1);
  ie_num : 0 <= number < 16 ^ Z.of_nat m;
  ie_nib : forall j, (1 <= j <= m)%nat -> nib bs j = digit number (j - 1) }.

Lemma nib_take data k j : (j / 2 < k)%nat -> nib (take k data) j = nib data j.
Proof. intros H. unfold nib. by rewrite lookup_take_lt. Qed.

Lemma nib_zeros k j : nib (replicate k 0) j = 0.
Proof.
  unfold nib. assert (default 0 (replicate k 0 !! (j / 2)%nat) = 0) as ->.
  { destruct (replicate k 0 !! (j / 2)%nat) eqn:E; [|done]. by apply lookup_replicate in E as [-> _]. }
  by destruct (Nat.odd j).
Qed.

Lemma encode_int_spec size number :
  (1 <= size <= 8)%nat -> 0 <= number < 16 ^ Z.of_nat (2 * size) ->
  exists bs m, encode_int size number = Some bs /\ int_encoding bs m number /\ (m <= 2 * size)%nat.
Proof.
  intros Hs Hn. unfold encode_int.
  assert (Hz : Forall is_byte (replicate (S size) 0)) by (apply Forall_replicate; unfold is_byte; lia).
  destruct (encode_int_loop_spec (2 * size) (replicate (S size) 0) 1 number Hn Hz)
    as (data & k & -> & Hk & Hlen & Hb & Hlt & Hnib); [rewrite length_replicate; lia|].
  rewrite length_replicate in Hlen. cbn [mbind option_bind].
  set (n := if (2 <? 1 + k)%nat then (1 + k - 2)%nat else 0%nat).
  assert (Hnk : n = (Nat.max k 1 - 1)%nat) by (unfold n; destruct (Nat.ltb_spec 2 (1 + k)); lia).
  assert (H0 : (0 < length data)%nat) by lia. destruct (lookup_lt_is_Some_2 _ _ H0) as [x Hx].
  rewrite Hx. cbn [mbind option_bind]. rewrite array_set_Some by done. cbn [mbind option_bind].
  assert (Hland : Z.land (Z.of_nat n) 15 = Z.of_nat n) by (rewrite land_15; apply Z.mod_small; lia).
  destruct (nib_put data 0 x (Z.of_nat n) Hx ltac:(lia) Hb) as [Hb' Hnib'].
  unfold put_nib in Hb', Hnib'. cbn [Nat.odd Nat.even negb] in Hb', Hnib'. change (0 / 2)%nat with 0%nat in *.
  rewrite Hland. set (data' := <[0%nat := _]> data) in *.
  assert (Hdiv : ((1 + k + 1) / 2 = Nat.max k 1 / 2 + 1)%nat).
  { replace (1 + k + 1)%nat with (k + 1 * 2)%nat by lia. rewrite Nat.div_add by lia.
    destruct k; [done|]. f_equal. f_equal. lia. }
  assert (Hm : (Nat.max k 1 / 2 <= size)%nat) by (apply Nat.Div0.div_le_upper_bound; lia).
  exists (take ((1 + k + 1) / 2) data'), (Nat.max k 1). split; [done|]. split; [|lia].
  rewrite Hdiv. split.
  - by apply Forall_take.
  - rewrite length_take. unfold data'. rewrite length_insert. lia.
  - lia.
  - rewrite nib_take, Hnib' by (cbn; lia). cbn [Nat.eqb]. lia.
  - split; [lia|]. eapply Z.lt_le_trans; [exact Hlt|]. apply Z.pow_le_mono_r; lia.
  - intros j Hj. assert (j / 2 <= Nat.max k 1 / 2)%nat by (apply Nat.Div0.div_le_mono; lia).
    rewrite nib_take, Hnib', Hnib by lia. rewrite (proj2 (Nat.eqb_neq j 0)), (proj2 (Nat.leb_le 1 j)) by lia.
    destruct (Nat.ltb_spec j (1 + k)); cbn [andb]; [done|].
    assert (k = 0%nat) as -> by lia. assert (number = 0) as -> by (cbn in Hlt; lia).
    rewrite nib_zeros. unfold digit. by rewrite Z.div_0_l by (apply Z.pow_nonzero; lia).
Qed.

(** The nibbles read back, from the most significant one. *)
Lemma decode_int_loop_spec w data number : forall j acc,
  0 <= w -> 0 <= acc -> (acc + 1) * 16 ^ Z.of_nat j <= 2 ^ w -> 0 <= number ->
  (j / 2 < length data)%nat ->
  (forall i, (1 <= i <= j)%nat -> nib data i = digit number (i - 1)) ->
  decode_int_loop w data j acc = Some (acc * 16 ^ Z.of_nat j + number mod 16 ^ Z.of_nat j).
Proof.
  induction j as [|j IH]; intros acc Hw Ha Hfit Hn Hl Hnib; cbn [decode_int_loop].
  - cbn. by rewrite Z.mod_1_r, Z.mul_1_r, Z.add_0_r.
  - destruct (lookup_lt_is_Some_2 _ _ Hl) as [x Hx]. rewrite Hx. cbn [mbind option_bind].
    assert (Hd : (if Nat.odd (S j) then Z.land x 15 else Z.shiftr (Z.land x 240) 4) = digit number j).
    { change (half (Nat.odd (S j)) x = digit number j). rewrite <- (nib_half data (S j) x Hx), Hnib by lia.
      f_equal. lia. }
    rewrite Hd. assert (Hdr : 0 <= digit number j < 16) by (apply Z.mod_pos_bound; lia).
    rewrite Nat2Z.inj_succ, Z.pow_succ_r in Hfit |- * by lia.
    assert (Hp : 0 < 16 ^ Z.of_nat j) by (apply Z.pow_pos_nonneg; lia).
    assert (Hw4 : wrap w (Z.shiftl acc 4) = Z.shiftl acc 4).
    { apply wrap_small. rewrite Z.shiftl_mul_pow2 by lia. change (2 ^ 4) with 16. split; [lia|]. nia. }
    rewrite Hw4, lor_shiftl_add by lia. change (2 ^ 4) with 16.
    rewrite IH; try done; try lia.
    + f_equal. rewrite (Z.mul_comm 16 (16 ^ _)), Z.rem_mul_r by lia. unfold digit. lia.
    + nia.
    + pose proof (Nat.Div0.div_le_mono j (S j) 2 ltac:(lia)). lia.
    + intros i Hi. apply Hnib. lia.
Qed.

(** ** Encoding and decoding tags *)

Lemma tag_byte v :
  0 <= v < 128 ->
  Z.land (Z.lor v 0x80) 0x7f = v /\ (Z.land (Z.lor v 0x80) 0x80 =? 0) = false /\ is_byte (Z.lor v 0x80) /\
  Z.land v 0x7f = v /\ (Z.land v 0x80 =? 0) = true.
Proof.
  intros Hv.
  pose proof (forall_below 128 (fun v => (Z.land (Z.lor v 0x80) 0x7f =? v) && negb (Z.land (Z.lor v 0x80) 0x80 =? 0) &&
    (0 <=? Z.lor v 128) && (Z.lor v 128 <? 256) && (Z.land v 0x7f =? v) && (Z.land v 0x80 =? 0))
    ltac:(vm_compute; reflexivity) v ltac:(lia)) as H.
  cbv beta in H. unfold is_byte. bool_to_prop. rewrite Z.eqb_neq, Z.eqb_eq. lia.
Qed.

Lemma land_127 n : Z.land n 0x7f = n mod 128.
Proof. change 0x7f with (Z.ones 7). by rewrite Z.land_ones by lia. Qed.

(** Every byte but the last has its high bit set. *)
Definition continued (x : Z) : bool := negb (Z.land x 0x80 =? 0).

Record tag_encoding (e : list Z) (tag : Z) : Prop := {
  te_tail : exists front x, e = front ++ [x] /\ forallb continued front = true /\ continued x = false;
  te_decode : forall r count len acc shift,
    0 <= acc < 2 ^ shift -> 0 <= shift < 32 -> tag * 2 ^ shift < 2 ^ 32 -> count + zlen e <= len ->
    decode_tag_loop (e ++ r) count len acc shift = Some (Some (acc + tag * 2 ^ shift), count + zlen e) }.

Lemma decode_tag_step x r count len acc shift v tag :
  count < len -> 0 <= acc < 2 ^ shift -> 0 <= shift < 32 -> Z.land x 0x7f = v -> v = tag mod 128 ->
  0 <= tag -> tag * 2 ^ shift < 2 ^ 32 ->
  decode_tag_loop (x :: r) count len acc shift =
    if Z.land x 0x80 =? 0 then Some (Some (acc + v * 2 ^ shift), count + 1)
    else decode_tag_loop r (count + 1) len (acc + v * 2 ^ shift) (shift + 7).
Proof.
  intros Hc Ha Hs Hx Hv Ht Hb. cbn [decode_tag_loop].
  rewrite (proj2 (Z.ltb_lt _ _) Hc), (proj2 (Z.leb_gt 32 shift)) by lia. rewrite Hx.
  assert (Hv2 : 0 <= v <= tag).
  { rewrite Hv. pose proof (Z.mod_pos_bound tag 128 ltac:(lia)). pose proof (Z.mod_le tag 128 Ht ltac:(lia)). lia. }
  assert (Hw : wrap 32 (Z.shiftl v shift) = Z.shiftl v shift).
  { apply wrap_small. rewrite Z.shiftl_mul_pow2 by lia. split; [apply Z.mul_nonneg_nonneg; lia|].
    pose proof (Z.mul_le_mono_nonneg_r v tag (2 ^ shift) ltac:(lia) ltac:(lia)). lia. }
  rewrite Hw, Z.lor_comm, lor_shiftl_add, Z.add_comm by lia. done.
Qed.

Lemma encode_tag_loop_spec fuel : forall data tag,
  0 <= tag < 128 ^ Z.of_nat fuel -> (0 < fuel)%nat ->
  exists e, encode_tag_loop fuel data tag = Some (data ++ e) /\ (length e <= fuel)%nat /\ tag_encoding e tag.
Proof.
  induction fuel as [|fuel IH]; intros data tag Ht Hf; [lia|]. cbn [encode_tag_loop].
  rewrite land_127, Z.shiftr_div_pow2 by lia. change (2 ^ 7) with 128.
  pose proof (Z.mod_pos_bound tag 128 ltac:(lia)) as Hm. pose proof (Z.div_mod tag 128 ltac:(lia)) as Hdm.
  destruct (tag_byte (tag mod 128) Hm) as (H1 & H2 & H3 & H4 & H5).
  destruct (Z.eqb_spec (tag / 128) 0) as [H0|H0]; cbn [negb].
  - exists [tag mod 128]. split; [done|]. split; [cbn; lia|]. split.
    + exists [], (tag mod 128). splits; try done. unfold continued. by rewrite H5.
    + intros r count len acc shift Ha Hs Hb Hl. change (zlen [tag mod 128]) with 1 in *. cbn [app].
      rewrite (decode_tag_step _ r count len acc shift (tag mod 128) tag) by (done || lia).
      rewrite H5. repeat f_equal. lia.
  - assert (Hdpos : 0 <= tag / 128) by (apply Z.div_pos; lia).
    rewrite Nat2Z.inj_succ, Z.pow_succ_r in Ht by lia.
    assert (Hd2 : tag / 128 < 128 ^ Z.of_nat fuel) by (apply Z.div_lt_upper_bound; lia).
    assert (Hf2 : (0 < fuel)%nat) by (destruct fuel; [cbn in Hd2; lia | lia]).
    destruct (IH (data ++ [Z.lor (tag mod 128) 128]) (tag / 128) ltac:(lia) Hf2) as (e & -> & Hle & [Ht' Hde]).
    exists (Z.lor (tag mod 128) 128 :: e). rewrite <- app_assoc. split; [done|]. split; [cbn; lia|]. split.
    + destruct Ht' as (front & x & -> & Hfr & Hx). exists (Z.lor (tag mod 128) 128 :: front), x.
      splits; try done. cbn [forallb]. unfold continued at 1. by rewrite H2, Hfr.
    + intros r count len acc shift Ha Hs Hb Hl. rewrite zlen_cons in *. pose proof (zlen_nonneg e). cbn [app].
      rewrite (decode_tag_step _ _ count len acc shift (tag mod 128) tag) by (done || lia).
      rewrite H2. assert (Hpow : 2 ^ (shift + 7) = 128 * 2 ^ shift) by (rewrite Z.pow_add_r by lia; lia).
      assert (0 < 2 ^ shift) by (apply Z.pow_pos_nonneg; lia).
      assert (tag / 128 * 2 ^ (shift + 7) <= tag * 2 ^ shift) by (rewrite Hpow; nia).
      assert (shift + 7 < 32).
      { apply (Z.pow_lt_mono_r_iff 2); [lia | lia |]. nia. }
      rewrite Hde; [f_equal; f_equal; [f_equal; rewrite Hpow; nia | lia] | rewrite Hpow; nia | lia | lia | lia].
Qed.

Lemma encode_tag_spec tag : 0 <= tag <= UINT32_MAX ->
  exists e, encode_tag tag = Some e /\ (length e <= 5)%nat /\ tag_encoding e tag.
Proof.
  intros Ht. unfold UINT32_MAX in Ht. apply (encode_tag_loop_spec 5 [] tag); cbn; lia.
Qed.

(** ** Messages in a queue *)

Section queue.
Context {Q : Type} `{LQ : ByteQueueLaws Q}.
Implicit Types q : Q.

(** The first byte of an integer gives the number of nibbles. *)
Lemma int_encoding_head bs m number : int_encoding bs m number -> (m <= 16)%nat ->
  exists x r, bs = x :: r /\ (Z.to_nat (Z.shiftr (Z.land x 0xf0) 4) + 1)%nat = m.
Proof.
  intros He Hm. destruct bs as [|x r]; [pose proof (ie_len _ _ _ He); cbn in *; lia|].
  exists x, r. split; [done|]. pose proof (ie_count _ _ _ He) as Hc. pose proof (ie_pos _ _ _ He).
  rewrite (nib_half _ _ x) in Hc by done. change (Nat.odd 0) with false in Hc. unfold half in Hc. lia.
Qed.

(** Reading at an offset what a prefix of the queue determines. *)
Lemma pullup_at q l pre r n :
  bq_rep q l -> l = pre ++ r -> 0 < n <= zlen r ->
  exists bytes q', bq_pullup q (zlen pre + n) = Some (Some bytes, q') /\ bq_rep q' l /\
    ztake n (zdrop (zlen pre) bytes) = ztake n r.
Proof.
  intros Hr -> Hn. pose proof (zlen_nonneg pre).
  destruct (bq_pullup_law q _ (zlen pre + n) Hr) as (bytes & q' & Hp & Hr' & Ht & Hl);
    [rewrite zlen_app; lia|].
  exists bytes, q'. split; [done|]. split; [done|].
  replace n with (zlen pre + n - zlen pre) by lia. rewrite <- !zdrop_ztake, Ht by lia.
  rewrite ztake_app_ge, zdrop_exact by lia. done.
Qed.

Lemma nib_prefix n data bs j : ztake n data = ztake n bs -> Z.of_nat (j / 2) < n -> nib data j = nib bs j.
Proof.
  intros Ht Hj. unfold nib. by rewrite <- (ztake_lookup data n), <- (ztake_lookup bs n), Ht by done.
Qed.

Lemma decode_int_at_spec w maxn q pre bs m number r :
  bq_rep q (pre ++ bs ++ r) -> int_encoding bs m number -> (m <= maxn <= 16)%nat -> w = 4 * Z.of_nat maxn ->
  exists q', decode_int_at w maxn q (zlen pre) = Some (zlen bs, Some number, q') /\
    bq_rep q' (pre ++ bs ++ r).
Proof.
  intros Hr He Hm ->. pose proof (ie_len _ _ _ He) as Hl. unfold decode_int_at.
  assert (Hzl : zlen bs = Z.of_nat (m / 2) + 1) by (unfold zlen; lia).
  rewrite (bq_length_law _ _ Hr), !zlen_app. pose proof (zlen_nonneg r).
  rewrite (proj2 (Z.leb_gt _ 0)) by lia.
  destruct (int_encoding_head bs m number He) as (x & bs' & Hbs & Hx); [lia|].
  destruct (pullup_at q _ pre (bs ++ r) 1 Hr eq_refl) as (d1 & q1 & -> & Hr1 & Ht1); [rewrite zlen_app; lia|].
  cbn [mbind option_bind].
  assert (Hhd : head (zdrop (zlen pre) d1) = Some x).
  { rewrite Hbs in Ht1. destruct (zdrop (zlen pre) d1); [discriminate | by injection Ht1 as ->]. }
  rewrite Hhd. cbn [mbind option_bind]. rewrite Hx.
  rewrite (proj2 (Nat.ltb_ge maxn m)), (proj2 (Z.ltb_ge _ (Z.of_nat (m / 2) + 1))) by lia. cbn [orb].
  rewrite <- Hzl.
  destruct (pullup_at q1 _ pre (bs ++ r) (zlen bs) Hr1 eq_refl) as (d2 & q2 & -> & Hr2 & Ht2); [rewrite zlen_app; lia|].
  cbn [mbind option_bind]. rewrite (ztake_exact bs r) in Ht2 by done.
  pose proof (ie_num _ _ _ He) as Hn.
  rewrite (decode_int_loop_spec (4 * Z.of_nat maxn) (zdrop (zlen pre) d2) number m 0).
  - cbn [mbind option_bind]. rewrite Z.mul_0_l, Z.add_0_l, Z.mod_small by done. by exists q2.
  - lia.
  - lia.
  - rewrite Z.add_0_l, Z.mul_1_l. change 16 with (2 ^ 4). rewrite <- Z.pow_mul_r by lia.
    apply Z.pow_le_mono_r; lia.
  - lia.
  - apply (f_equal zlen) in Ht2. unfold zlen, ztake in *. rewrite length_take in Ht2. lia.
  - intros j Hj. rewrite (nib_prefix (zlen bs) _ bs).
    + by apply (ie_nib _ _ _ He).
    + by rewrite Ht2, ztake_ge by lia.
    + pose proof (Nat.Div0.div_le_mono j m 2 ltac:(lia)). lia.
Qed.

Lemma evtag_decode_int_spec q bs m number r :
  bq_rep q (bs ++ r) -> int_encoding bs m number -> (m <= 8)%nat ->
  exists q', evtag_decode_int q = Some (0, Some number, q') /\ bq_rep q' r.
Proof.
  intros Hr He Hm. unfold evtag_decode_int, decode_and_drain, decode_int_internal.
  destruct (decode_int_at_spec 32 8 q [] bs m number r Hr He ltac:(lia) eq_refl) as (q1 & Hd & Hr1).
  change (zlen []) with 0 in Hd. rewrite Hd. cbn [mbind option_bind]. pose proof (zlen_nonneg bs).
  rewrite (proj2 (Z.eqb_neq (zlen bs) (-1))) by lia.
  destruct (bq_drain_law q1 _ (zlen bs) Hr1 ltac:(lia)) as (q2 & -> & Hr2).
  exists q2. split; [done|]. cbn [app] in Hr2. by rewrite zdrop_exact in Hr2.
Qed.

Lemma decode_tag_internal_spec q e tag r dodrain :
  bq_rep q (e ++ r) -> tag_encoding e tag -> 0 <= tag <= UINT32_MAX -> zlen e <= 5 ->
  exists q', decode_tag_internal q dodrain = Some (zlen e, Some tag, q') /\
    bq_rep q' (if dodrain then r else e ++ r).
Proof.
  intros Hr [Ht Hd] Hb He. unfold decode_tag_internal. unfold UINT32_MAX in Hb.
  rewrite (bq_length_law _ _ Hr). pose proof (zlen_nonneg r). pose proof (zlen_nonneg e).
  assert (Hpos : 0 < zlen e).
  { destruct Ht as (f & x & -> & _). rewrite zlen_app. change (zlen [x]) with 1. pose proof (zlen_nonneg f). lia. }
  set (n := if zlen (e ++ r) <? 5 then zlen (e ++ r) else 5).
  assert (Hn : zlen e <= n <= zlen (e ++ r))
    by (unfold n; rewrite zlen_app in *; destruct (Z.ltb_spec (zlen e + zlen r) 5); lia).
  destruct (bq_pullup_law q _ n Hr ltac:(lia)) as (bytes & q1 & -> & Hr1 & Hp & Hln). cbn [mbind option_bind].
  change (default [] (Some bytes)) with bytes.
  assert (Hbytes : bytes = e ++ zdrop (zlen e) bytes).
  { rewrite <- (ztake_zdrop bytes (zlen e)) at 1. f_equal.
    rewrite <- (ztake_ztake bytes (zlen e) n), Hp, ztake_ztake by lia. by apply ztake_exact. }
  rewrite Hbytes, Hd; [| lia | lia | lia | rewrite zlen_app; lia].
  cbn [mbind option_bind]. rewrite !Z.add_0_l, Z.mul_1_r.
  rewrite (proj2 (Z.ltb_ge INT_MAX (zlen e))) by (unfold INT_MAX; lia).
  destruct dodrain; cbn [mbind option_bind]; [|by exists q1].
  destruct (bq_drain_law q1 _ (zlen e) Hr1 ltac:(lia)) as (q2 & -> & Hr2).
  exists q2. split; [done|]. by rewrite zdrop_exact in Hr2.
Qed.

(** ** Messages *)

Definition tag_bytes (tag : Z) : list Z := default [] (encode_tag tag).
Definition int_bytes (number : Z) : list Z := default [] (encode_int_internal number).

(** A message on the wire. *)
Definition message (tag : Z) (data : list Z) : list Z :=
  tag_bytes tag ++ int_bytes (zlen data) ++ data.

Definition is_u32 (n : Z) : Prop := 0 <= n <= UINT32_MAX.

Lemma tag_bytes_spec tag : is_u32 tag ->
  encode_tag tag = Some (tag_bytes tag) /\ zlen (tag_bytes tag) <= 5 /\ tag_encoding (tag_bytes tag) tag.
Proof.
  intros Ht. destruct (encode_tag_spec tag Ht) as (e & He & Hl & Hte). unfold tag_bytes. rewrite He.
  cbn [from_option]. unfold id, zlen. split; [done|]. split; [lia | done].
Qed.

Lemma int_bytes_spec n : is_u32 n ->
  encode_int_internal n = Some (int_bytes n) /\ exists m, int_encoding (int_bytes n) m n /\ (m <= 8)%nat.
Proof.
  intros Hn. unfold is_u32, UINT32_MAX in Hn.
  destruct (encode_int_spec 4 n) as (bs & m & Hb & He & Hm); [lia | cbn; lia |].
  unfold int_bytes, encode_int_internal. rewrite Hb. split; [done|]. by exists m.
Qed.

Lemma tag_bytes_ne tag : is_u32 tag -> tag_bytes tag <> [].
Proof. intros Ht E. destruct (tag_bytes_spec tag Ht) as (_ & _ & [(f & x & Hx & _) _]). rewrite E in Hx. by destruct f. Qed.

Lemma int_bytes_ne n : is_u32 n -> int_bytes n <> [].
Proof.
  intros Hn E. destruct (int_bytes_spec n Hn) as (_ & m & He & _). pose proof (ie_len _ _ _ He) as Hl.
  rewrite E in Hl. cbn in Hl. lia.
Qed.

Lemma put_tag_spec q l tag :
  bq_rep q l -> is_u32 tag -> bq_fits (l ++ tag_bytes tag) ->
  exists q', put_tag q tag = Some q' /\ bq_rep q' (l ++ tag_bytes tag).
Proof.
  intros Hr Ht Hf. unfold put_tag, evtag_encode_tag. destruct (tag_bytes_spec tag Ht) as (-> & _).
  cbn [mbind option_bind].
  destruct (bq_add_law q l _ Hr (tag_bytes_ne tag Ht) Hf) as (q' & -> & Hr'). by exists q'.
Qed.

Lemma evtag_encode_int_spec q l n :
  bq_rep q l -> is_u32 n -> bq_fits (l ++ int_bytes n) ->
  exists q', evtag_encode_int q n = Some q' /\ bq_rep q' (l ++ int_bytes n).
Proof.
  intros Hr Hn Hf. unfold evtag_encode_int. destruct (int_bytes_spec n Hn) as (-> & _).
  cbn [mbind option_bind].
  destruct (bq_add_law q l _ Hr (int_bytes_ne n Hn) Hf) as (q' & -> & Hr'). by exists q'.
Qed.

Lemma fits_u32 (l k : list Z) : bq_fits (l ++ k) -> is_u32 (zlen k).
Proof.
  intros Hf. apply bq_fits_int in Hf. rewrite zlen_app in Hf. pose proof (zlen_nonneg l).
  pose proof (zlen_nonneg k). unfold is_u32, INT_MAX, UINT32_MAX in *. lia.
Qed.

Lemma evtag_marshal_spec q l tag data :
  bq_rep q l -> is_u32 tag -> data <> [] -> bq_fits (l ++ message tag data) ->
  exists q', evtag_marshal q tag data = Some q' /\ bq_rep q' (l ++ message tag data).
Proof.
  intros Hr Ht Hd Hf. unfold message in *. rewrite !app_assoc in *.
  assert (Hu : is_u32 (zlen data)) by by eapply fits_u32.
  pose proof (bq_fits_head _ _ Hf) as Hf2. pose proof (bq_fits_head _ _ Hf2) as Hf1.
  unfold evtag_marshal. destruct (put_tag_spec q l tag Hr Ht Hf1) as (q1 & -> & Hr1). cbn [mbind option_bind].
  rewrite wrap_small by (unfold is_u32, UINT32_MAX, fits in *; lia).
  destruct (evtag_encode_int_spec q1 _ _ Hr1 Hu Hf2) as (q2 & -> & Hr2). cbn [mbind option_bind].
  destruct (bq_add_law q2 _ data Hr2 Hd Hf) as (q3 & -> & Hr3). by exists q3.
Qed.

(** The header of a message: its tag, then the length of its payload. *)
Lemma header_parts q tag data r :
  bq_rep q (message tag data ++ r) -> is_u32 tag ->
  exists k q1 q2, decode_tag_internal q true = Some (k, Some tag, q1) /\ (k =? -1) = false /\
    evtag_decode_int q1 = Some (0, Some (zlen data), q2) /\ bq_rep q2 (data ++ r) /\
    (bq_length q2 <? zlen data) = false /\ zlen data <= INT_MAX.
Proof.
  intros Hr Ht. unfold message in Hr. rewrite <- !app_assoc in Hr.
  pose proof (bq_fits_int _ (bq_rep_fits _ _ Hr)) as Hi. rewrite !zlen_app in Hi.
  pose proof (zlen_nonneg (tag_bytes tag)). pose proof (zlen_nonneg (int_bytes (zlen data))).
  pose proof (zlen_nonneg data). pose proof (zlen_nonneg r).
  assert (Hu : is_u32 (zlen data)) by (unfold is_u32, INT_MAX, UINT32_MAX in *; lia).
  destruct (tag_bytes_spec tag Ht) as (_ & Hl & Hte). destruct (int_bytes_spec _ Hu) as (_ & m & Hie & Hm).
  destruct (decode_tag_internal_spec q _ tag _ true Hr Hte Ht Hl) as (q1 & Hd & Hr1).
  destruct (evtag_decode_int_spec q1 _ m _ _ Hr1 Hie Hm) as (q2 & Hd2 & Hr2).
  exists (zlen (tag_bytes tag)), q1, q2. splits; try done; [by apply Z.eqb_neq; lia | | lia].
  rewrite (bq_length_law _ _ Hr2), zlen_app. by apply Z.ltb_ge; lia.
Qed.

Lemma evtag_unmarshal_header_spec q tag data r :
  bq_rep q (message tag data ++ r) -> is_u32 tag ->
  exists q', evtag_unmarshal_header q = Some (zlen data, Some tag, q') /\ bq_rep q' (data ++ r).
Proof.
  intros Hr Ht. destruct (header_parts q tag data r Hr Ht) as (k & q1 & q2 & H1 & H2 & H3 & H4 & H5 & H6).
  unfold evtag_unmarshal_header. rewrite H1. cbn [mbind option_bind]. rewrite H2, H3. cbn [mbind option_bind Z.eqb].
  rewrite H5. pose proof (zlen_nonneg data). rewrite swrap_small by (unfold INT_MAX in *; lia). by exists q2.
Qed.

Lemma evtag_unmarshal_spec src dst m tag data r :
  bq_rep src (message tag data ++ r) -> bq_rep dst m -> is_u32 tag -> data <> [] -> bq_fits (m ++ data) ->
  exists src' dst', evtag_unmarshal src dst = Some (zlen data, Some tag, src', dst') /\
    bq_rep src' r /\ bq_rep dst' (m ++ data).
Proof.
  intros Hr Hm Ht Hd Hf. unfold evtag_unmarshal.
  destruct (evtag_unmarshal_header_spec src tag data r Hr Ht) as (s1 & -> & Hr1). cbn [mbind option_bind].
  assert (Hpos : 0 < zlen data) by (destruct data; [done | rewrite zlen_cons; pose proof (zlen_nonneg data); lia]).
  rewrite (proj2 (Z.eqb_neq _ (-1))) by lia. pose proof (zlen_nonneg r).
  destruct (bq_pullup_law s1 _ (zlen data) Hr1) as (bytes & s2 & -> & Hr2 & Hp & Hlb); [rewrite zlen_app; lia|].
  cbn [mbind option_bind]. change (default [] (Some bytes)) with bytes.
  rewrite (proj2 (Z.ltb_ge (zlen data) 0)), (proj2 (Z.ltb_ge (zlen bytes) _)) by lia. cbn [orb].
  rewrite Hp, ztake_exact by done.
  destruct (bq_add_law dst m data Hm Hd Hf) as (d1 & -> & Hrd). cbn [mbind option_bind Z.eqb].
  assert (Hw : wrap 64 (zlen data) = zlen data).
  { apply wrap_small. pose proof (bq_fits_int _ (bq_rep_fits _ _ Hr2)) as Hi. rewrite zlen_app in Hi.
    unfold INT_MAX, fits in *. lia. }
  rewrite Hw. destruct (bq_drain_law s2 _ (zlen data) Hr2 ltac:(lia)) as (s3 & -> & Hr3).
  exists s3, d1. split; [done|]. split; [|done]. by rewrite zdrop_exact in Hr3.
Qed.

(** ** Streams *)

Fixpoint marshal_all (q : Q) (msgs : list (Z * list Z)) : option Q :=
  match msgs with
  | [] => Some q
  | (tag, data) :: msgs' => q ← evtag_marshal q tag data; marshal_all q msgs'
  end.

(** Reads [n] messages; every payload is taken out of [dst] again. *)
Fixpoint unmarshal_all (n : nat) (src dst : Q) : option (list (Z * list Z) * Q * Q) :=
  match n with
  | O => Some ([], src, dst)
  | S n' =>
    '(len, tag, src, dst) ← evtag_unmarshal src dst;
    tag ← tag;
    '(_, data, dst) ← bq_remove dst len;
    '(msgs, src, dst) ← unmarshal_all n' src dst;
    Some ((tag, data) :: msgs, src, dst)
  end.

Definition stream (msgs : list (Z * list Z)) : list Z := concat (map (fun '(t, d) => message t d) msgs).

Definition messages_ok (msgs : list (Z * list Z)) : Prop :=
  Forall (fun '(t, d) => is_u32 t /\ d <> []) msgs.

Lemma marshal_all_spec msgs : forall q l,
  bq_rep q l -> messages_ok msgs -> bq_fits (l ++ stream msgs) ->
  exists q', marshal_all q msgs = Some q' /\ bq_rep q' (l ++ stream msgs).
Proof.
  induction msgs as [|[t d] msgs IH]; intros q l Hr Hok Hf.
  { exists q. by rewrite app_nil_r. }
  apply Forall_cons_split in Hok as [[Ht Hd] Hok]. change (stream ((t, d) :: msgs)) with (message t d ++ stream msgs) in *.
  rewrite app_assoc in *. cbn [marshal_all].
  destruct (evtag_marshal_spec q l t d Hr Ht Hd (bq_fits_head _ _ Hf)) as (q1 & -> & Hr1).
  cbn [mbind option_bind]. by apply IH.
Qed.

Lemma unmarshal_all_spec msgs : forall src dst,
  bq_rep src (stream msgs) -> bq_rep dst [] -> messages_ok msgs ->
  exists src' dst', unmarshal_all (length msgs) src dst = Some (msgs, src', dst') /\
    bq_rep src' [] /\ bq_rep dst' [].
Proof.
  induction msgs as [|[t d] msgs IH]; intros src dst Hr Hd Hok; [by exists src, dst|].
  apply Forall_cons_split in Hok as [[Ht Hne] Hok]. change (stream ((t, d) :: msgs)) with (message t d ++ stream msgs) in *.
  cbn [length unmarshal_all].
  assert (Hf : bq_fits d).
  { apply bq_rep_fits in Hr. unfold message in Hr. rewrite <- !app_assoc in Hr.
    by apply bq_fits_tail, bq_fits_tail, bq_fits_head in Hr. }
  destruct (evtag_unmarshal_spec src dst [] t d _ Hr Hd Ht Hne Hf) as (s1 & d1 & -> & Hr1 & Hd1).
  cbn [mbind option_bind app] in *. pose proof (zlen_nonneg d).
  destruct (bq_remove_law d1 d (zlen d) Hd1 ltac:(lia)) as (d2 & -> & Hd2). cbn [mbind option_bind].
  rewrite ztake_ge by lia. rewrite zdrop_ge in Hd2 by lia.
  destruct (IH s1 d2 Hr1 Hd2 Hok) as (s3 & d3 & -> & ? & ?). by exists s3, d3.
Qed.

(** C21: Round trip of tagged streams, over any byte queue that keeps the laws:
    any sequence of messages with 32-bit tags and non-empty payloads, marshaled
    one after the other into an empty queue with room for them, is read back
    message by message, tags and payloads intact, leaving nothing behind. *)
Theorem evtag_stream_roundtrip q dst msgs :
  bq_rep q [] -> bq_rep dst [] -> messages_ok msgs -> bq_fits (stream msgs) ->
  exists q1 src' dst', marshal_all q msgs = Some q1 /\
    unmarshal_all (length msgs) q1 dst = Some (msgs, src', dst') /\ bq_rep src' [].
Proof.
  intros Hr Hd Hok Hf. destruct (marshal_all_spec msgs q [] Hr Hok Hf) as (q1 & Hm & Hr1).
  destruct (unmarshal_all_spec msgs q1 dst Hr1 Hd Hok) as (s & d & Hu & Hs & _). by exists q1, s, d.
Qed.

(** ** Numbers *)

Lemma marshal_encoded_spec q l tag bs :
  bq_rep q l -> is_u32 tag -> bs <> [] -> bq_fits (l ++ message tag bs) ->
  exists q', marshal_encoded q tag (Some bs) = Some q' /\ bq_rep q' (l ++ message tag bs).
Proof.
  intros Hr Ht Hb Hf. destruct (evtag_marshal_spec q l tag bs Hr Ht Hb Hf) as (q' & Hm & Hr').
  exists q'. split; [|done]. rewrite <- Hm. unfold marshal_encoded, evtag_marshal. cbn [mbind option_bind].
  unfold message in Hf. rewrite !app_assoc in Hf. pose proof (fits_u32 _ _ Hf) as Hu.
  unfold is_u32, UINT32_MAX in Hu. by rewrite wrap_small by (unfold fits; lia).
Qed.

Lemma unmarshal_number_spec internal q tag bs n r :
  bq_rep q (message tag bs ++ r) -> is_u32 tag ->
  (forall q, bq_rep q (bs ++ r) -> exists q', internal q 0 = Some (zlen bs, Some n, q') /\ bq_rep q' (bs ++ r)) ->
  exists q', unmarshal_number internal q tag = Some (zlen bs, Some n, q') /\ bq_rep q' r.
Proof.
  intros Hr Ht Hint. destruct (header_parts q tag bs r Hr Ht) as (k & q1 & q2 & H1 & H2 & H3 & H4 & H5 & H6).
  unfold unmarshal_number. rewrite H1. cbn [mbind option_bind]. rewrite H2, Z.eqb_refl. cbn [mbind option_bind negb].
  rewrite H3. cbn [mbind option_bind Z.eqb]. rewrite H5.
  destruct (Hint q2 H4) as (q3 & -> & Hr3). cbn [mbind option_bind]. pose proof (zlen_nonneg bs).
  destruct (bq_drain_law q3 _ (zlen bs) Hr3 ltac:(lia)) as (q4 & -> & Hr4). cbn [mbind option_bind].
  rewrite (proj2 (Z.ltb_ge (zlen bs) 0)), Z.ltb_irrefl by lia. cbn [orb].
  exists q4. split; [done|]. by rewrite zdrop_exact in Hr4.
Qed.

(** One number, written and read back. *)
Lemma number_roundtrip w size q r tag n :
  bq_rep q r -> is_u32 tag -> (size = 4 \/ size = 8)%nat -> 0 <= n < 16 ^ Z.of_nat (2 * size) ->
  (forall bs, zlen bs <= 32 -> bq_fits (r ++ bs)) -> r = [] -> w = 8 * Z.of_nat size ->
  exists q1 len q2, marshal_encoded q tag (encode_int size n) = Some q1 /\
    unmarshal_number (fun q offset => decode_int_at w (2 * size) q offset) q1 tag = Some (len, Some n, q2) /\
    bq_rep q2 [].
Proof.
  intros Hr Ht Hs Hn Hf -> ->.
  destruct (encode_int_spec size n) as (bs & m & He & Hie & Hm); [lia | done |].
  assert (Hbl : 1 <= zlen bs <= 9).
  { unfold zlen. rewrite (ie_len _ _ _ Hie). pose proof (Nat.Div0.div_le_mono m 16 2 ltac:(lia)) as Hd.
    change (16 / 2)%nat with 8%nat in Hd. lia. }
  assert (Hne : bs <> []) by (intros ->; change (zlen []) with 0 in Hbl; lia).
  assert (Hml : zlen (message tag bs) <= 32).
  { unfold message. rewrite !zlen_app. destruct (tag_bytes_spec tag Ht) as (_ & Htl & _).
    assert (Hu : is_u32 (zlen bs)) by (unfold is_u32, UINT32_MAX; lia).
    destruct (int_bytes_spec _ Hu) as (_ & m2 & Hie2 & Hm2). unfold zlen at 2. rewrite (ie_len _ _ _ Hie2).
    pose proof (Nat.Div0.div_le_mono m2 8 2 Hm2) as Hd. change (8 / 2)%nat with 4%nat in Hd. lia. }
  destruct (marshal_encoded_spec q [] tag bs Hr Ht Hne (Hf _ Hml)) as (q1 & Hm1 & Hr1).
  rewrite He. cbn [app] in Hr1. rewrite <- (app_nil_r (message tag bs)) in Hr1.
  destruct (unmarshal_number_spec (fun q offset => decode_int_at (8 * Z.of_nat size) (2 * size) q offset)
    q1 tag bs n [] Hr1 Ht) as (q2 & Hu & Hr2); [|by exists q1, (zlen bs), q2].
  intros q3 Hr3. apply (decode_int_at_spec _ (2 * size) q3 [] bs m n []); try done; lia.
Qed.


(** ** Incomplete and malformed input *)

Lemma decode_tag_loop_cont p : forall r count acc shift,
  forallb continued p = true -> 0 <= shift -> shift + 7 * zlen p <= 35 ->
  decode_tag_loop (p ++ r) count (count + zlen p) acc shift = Some (None, count + zlen p + 1).
Proof.
  induction p as [|x p IH]; intros r count acc shift Hc Hs Hb; cbn [app].
  - change (zlen []) with 0. rewrite Z.add_0_r. destruct r; cbn [decode_tag_loop]; by rewrite Z.ltb_irrefl.
  - rewrite zlen_cons in *. pose proof (zlen_nonneg p). cbn [forallb] in Hc. bool_to_prop.
    cbn [decode_tag_loop]. rewrite (proj2 (Z.ltb_lt _ _)), (proj2 (Z.leb_gt 32 shift)) by lia.
    match goal with H : continued x = true |- _ => unfold continued in H; apply negb_true_iff in H; rewrite H end.
    replace (count + (1 + zlen p)) with (count + 1 + zlen p) by lia. apply IH; try done; lia.
Qed.

Lemma decode_tag_truncated q p dodrain :
  bq_rep q p -> forallb continued p = true -> zlen p < 5 ->
  exists q', decode_tag_internal q dodrain = Some (-1, None, q').
Proof.
  intros Hr Hc Hl. unfold decode_tag_internal. rewrite (bq_length_law _ _ Hr).
  rewrite (proj2 (Z.ltb_lt _ _) Hl). pose proof (zlen_nonneg p).
  destruct (decide (p = [])) as [->|Hne].
  - change (zlen []) with 0. rewrite (bq_pullup_none _ _ Hr). cbn. by exists q.
  - assert (0 < zlen p) by (destruct p; [done | rewrite zlen_cons in *; pose proof (zlen_nonneg p); lia]).
    destruct (bq_pullup_law q p (zlen p) Hr ltac:(lia)) as (bytes & q1 & -> & _ & Hp & _). cbn [mbind option_bind].
    change (default [] (Some bytes)) with bytes. rewrite (ztake_ge p) in Hp by lia.
    rewrite <- (ztake_zdrop bytes (zlen p)), Hp.
    pose proof (decode_tag_loop_cont p (zdrop (zlen p) bytes) 0 0 0 Hc ltac:(lia) ltac:(lia)) as Hd.
    rewrite Z.add_0_l in Hd. rewrite Hd. cbn [mbind option_bind]. by exists q1.
Qed.

Lemma evtag_decode_int_truncated q bs m n p p' :
  bq_rep q p -> int_encoding bs m n -> (m <= 8)%nat -> bs = p ++ p' -> p' <> [] ->
  exists o q', evtag_decode_int q = Some (-1, o, q').
Proof.
  intros Hr He Hm Hb Hne. unfold evtag_decode_int, decode_and_drain, decode_int_internal, decode_int_at.
  rewrite (bq_length_law _ _ Hr), Z.sub_0_r. pose proof (zlen_nonneg p).
  destruct (Z.leb_spec (zlen p) 0) as [Hz|Hz]; [cbn; by exists None, q|].
  change (0 + 1) with 1. destruct (bq_pullup_law q p 1 Hr ltac:(lia)) as (bytes & q1 & -> & Hr1 & Hp & _). cbn [mbind option_bind].
  change (zdrop 0 bytes) with bytes.
  destruct (int_encoding_head bs m n He) as (x & bs' & Hbs & Hx); [lia|].
  assert (Hhd : head bytes = Some x).
  { destruct p as [|y p]; [done|]. rewrite Hbs in Hb. injection Hb as <- _.
    destruct bytes; [discriminate | by injection Hp as ->]. }
  rewrite Hhd. cbn [mbind option_bind]. rewrite Hx.
  assert (Hlt : zlen p < Z.of_nat (m / 2) + 1).
  { pose proof (ie_len _ _ _ He) as Hl. apply (f_equal zlen) in Hb. rewrite zlen_app in Hb.
    assert (0 < zlen p') by (destruct p'; [done | rewrite zlen_cons; pose proof (zlen_nonneg p'); lia]).
    unfold zlen in *. lia. }
  rewrite (proj2 (Z.ltb_lt _ _) Hlt), orb_true_r. cbn. by exists None, q1.
Qed.

(** C23: Incomplete messages: when the source holds only a proper prefix of a
    message, cut anywhere, [evtag_unmarshal] returns -1 and leaves the
    destination alone. *)
Theorem evtag_unmarshal_truncated src dst tag data p p' :
  bq_rep src p -> is_u32 tag -> is_u32 (zlen data) -> message tag data = p ++ p' -> p' <> [] ->
  exists o src', evtag_unmarshal src dst = Some (-1, o, src', dst).
Proof.
  intros Hr Ht Hu Hmsg Hne. unfold evtag_unmarshal, evtag_unmarshal_header.
  destruct (tag_bytes_spec tag Ht) as (_ & Hl & Hte). destruct (int_bytes_spec _ Hu) as (_ & m & Hie & Hm).
  unfold message in Hmsg. symmetry in Hmsg. apply app_eq_inv in Hmsg as [(p2 & -> & Hp2)|(k & Htag & Hp')].
  - (* past the tag *)
    destruct (decode_tag_internal_spec src _ tag p2 true Hr Hte Ht Hl) as (q1 & -> & Hr1). cbn [mbind option_bind].
    pose proof (zlen_nonneg (tag_bytes tag)). rewrite (proj2 (Z.eqb_neq _ (-1))) by lia.
    symmetry in Hp2. apply app_eq_inv in Hp2 as [(p3 & -> & Hp3)|(k & Hint & Hp')].
    + destruct (evtag_decode_int_spec q1 _ m _ p3 Hr1 Hie Hm) as (q2 & -> & Hr2). cbn [mbind option_bind Z.eqb].
      rewrite (bq_length_law _ _ Hr2). apply (f_equal zlen) in Hp3. rewrite zlen_app in Hp3.
      assert (0 < zlen p') by (destruct p'; [done | rewrite zlen_cons; pose proof (zlen_nonneg p'); lia]).
      rewrite (proj2 (Z.ltb_lt _ _)) by lia. cbn. by exists (Some tag), q2.
    + destruct (decide (k = [])) as [->|Hk].
      * rewrite app_nil_r in Hint. rewrite <- Hint, <- (app_nil_r (int_bytes _)) in Hr1.
        destruct (evtag_decode_int_spec q1 _ m _ [] Hr1 Hie Hm) as (q2 & -> & Hr2). cbn [mbind option_bind Z.eqb].
        rewrite (bq_length_law _ _ Hr2). cbn [app] in Hp'. rewrite <- Hp'. change (zlen []) with 0.
        assert (0 < zlen p') by (destruct p'; [done | rewrite zlen_cons; pose proof (zlen_nonneg p'); lia]).
        rewrite (proj2 (Z.ltb_lt _ _)) by lia. cbn. by exists (Some tag), q2.
      * destruct (evtag_decode_int_truncated q1 _ m _ p2 k Hr1 Hie Hm Hint Hk) as (o & q2 & ->).
        cbn. by exists (Some tag), q2.
  - destruct (decide (k = [])) as [->|Hk].
    + rewrite app_nil_r in Htag. rewrite <- Htag, <- (app_nil_r (tag_bytes tag)) in Hr.
      destruct (decode_tag_internal_spec src _ tag [] true Hr Hte Ht Hl) as (q1 & -> & Hr1). cbn [mbind option_bind].
      pose proof (zlen_nonneg (tag_bytes tag)). rewrite (proj2 (Z.eqb_neq _ (-1))) by lia.
      destruct (evtag_decode_int_truncated q1 _ m _ [] (int_bytes (zlen data)) Hr1 Hie Hm eq_refl) as (o & q2 & ->);
        [by apply int_bytes_ne|]. cbn. by exists (Some tag), q2.
    + destruct Hte as [(front & x & He & Hfr & _) _]. rewrite He in Htag.
      destruct (exists_last Hk) as (k' & y & ->). rewrite app_assoc in Htag. apply app_inj_tail in Htag as [Hf _].
      rewrite Hf, forallb_app in Hfr. bool_to_prop.
      destruct (decode_tag_truncated src p true Hr) as (q1 & ->); [done | | cbn; by exists None, q1].
      rewrite He, Hf, !zlen_app in Hl. change (zlen [x]) with 1 in Hl. pose proof (zlen_nonneg k'). lia.
Qed.

(** A tag of more than five bytes: when the queue starts with six bytes that
    all have the high bit set, [decode_tag_internal] has no defined behaviour:
    it shifts a 32-bit value by 35, or reads past the five bytes it pulled up. *)
Theorem evtag_decode_tag_overlong q p r dodrain :
  bq_rep q (p ++ r) -> forallb continued p = true -> zlen p = 6 ->
  decode_tag_internal q dodrain = None.
Proof.
  intros Hr Hc Hl. unfold decode_tag_internal. rewrite (bq_length_law _ _ Hr), zlen_app. pose proof (zlen_nonneg r).
  rewrite (proj2 (Z.ltb_ge _ 5)) by lia.
  destruct (bq_pullup_law q _ 5 Hr) as (bytes & q1 & -> & _ & Hp & _); [rewrite zlen_app; lia|].
  cbn [mbind option_bind]. change (default [] (Some bytes)) with bytes.
  rewrite ztake_app_le in Hp by lia.
  rewrite <- (ztake_zdrop bytes 5), Hp. generalize (zdrop 5 bytes). intros rest.
  destruct p as [|a [|b [|c [|d [|e [|f [|]]]]]]]; try (unfold zlen in Hl; cbn in Hl; lia).
  cbn [forallb] in Hc. unfold continued in Hc. bool_to_prop. change (ztake 5 _) with [a; b; c; d; e].
  cbn [app]. rewrite Hl.
  do 5 (cbn [decode_tag_loop]; rewrite (proj2 (Z.ltb_lt _ _)) by lia; cbn [Z.leb Z.compare Pos.compare Pos.compare_cont Z.add Pos.add Pos.succ];
    match goal with H : (Z.land ?x 128 =? 0) = false |- context [Z.land ?x 128 =? 0] => rewrite H; clear H
     | H : Z.land ?x 128 <> 0 |- context [Z.land ?x 128 =? 0] => rewrite (proj2 (Z.eqb_neq _ _) H); clear H end).
  destruct rest; cbn [decode_tag_loop]; by rewrite (proj2 (Z.ltb_lt _ _)) by lia.
Qed.
End queue.

(** ** Witnesses, over evbuffers *)

#[local] Existing Instance win64.
#[local] Existing Instance zero_allocator.

Definition laws64 : ByteQueueLaws evbuffer := evbuffer_laws zero_mem_ok.
#[local] Existing Instance laws64.

Lemma queue_ok_64 (l : list Z) : zlen l <= 1000000 -> queue_ok l.
Proof. intros Hl. split; [by apply small_win64 | unfold INT_MAX; lia]. Defined.

Lemma held_new : bq_rep evbuffer_new [].
Proof. split; [apply represents_new | apply queue_ok_64; vm_compute; discriminate]. Defined.

Lemma evtag_stream_roundtrip_witness :
  exists q1 src' dst', marshal_all evbuffer_new [(1, bytes_of "one"); (300, bytes_of "three hundred")] = Some q1 /\
    unmarshal_all 2 q1 evbuffer_new = Some ([(1, bytes_of "one"); (300, bytes_of "three hundred")], src', dst').
Proof.
  destruct (evtag_stream_roundtrip evbuffer_new evbuffer_new [(1, bytes_of "one"); (300, bytes_of "three hundred")]
    held_new held_new) as (q1 & s & d & Hm & Hu & _).
  - repeat constructor; unfold is_u32, UINT32_MAX; (lia || discriminate).
  - apply queue_ok_64. vm_compute. discriminate.
  - exists q1, s, d. split; [exact Hm | exact Hu].
Defined.


(** A buffer with the given bytes. *)
Lemma held_bytes (d : list Z) : d <> [] -> zlen d <= 1000000 -> exists b, bq_rep b d.
Proof.
  intros Hd Hl. destruct (bq_add_law evbuffer_new [] d held_new Hd) as (b & _ & Hb);
    [apply queue_ok_64; exact Hl | exists b; exact Hb].
Defined.

Lemma evtag_unmarshal_truncated_witness :
  exists src dst, bq_rep src (removelast (message 300 (bytes_of "payload"))) /\
  exists o src', evtag_unmarshal src dst = Some (-1, o, src', dst).
Proof.
  destruct (held_bytes (removelast (message 300 (bytes_of "payload")))) as (b & Hb);
    [vm_compute; discriminate | vm_compute; discriminate |].
  exists b, evbuffer_new. split; [exact Hb|].
  apply (evtag_unmarshal_truncated b evbuffer_new 300 (bytes_of "payload") _ [100] Hb).
  - unfold is_u32, UINT32_MAX. lia.
  - split; vm_compute; discriminate.
  - vm_compute. reflexivity.
  - discriminate.
Defined.

Lemma evtag_decode_tag_overlong_witness :
  exists q, bq_rep q [255; 255; 255; 255; 255; 255; 1] /\ decode_tag_internal q true = None.
Proof.
  destruct (held_bytes [255; 255; 255; 255; 255; 255; 1]) as (b & Hb); [discriminate | vm_compute; discriminate |].
  exists b. split; [exact Hb|].
  apply (evtag_decode_tag_overlong b [255; 255; 255; 255; 255; 255] [1] true Hb); reflexivity.
Defined.

(** The tag 0x166 goes out with its low seven bits first. *)
Lemma evtag_tag_byte_order : encode_tag 0x66 = Some [0x66] /\ encode_tag 0x166 = Some [0xe6; 0x02].
Proof. split; reflexivity. Qed.
