(* ===== verification/EventData.v ===== *)
(** The data of the event core ([event2/event_struct.h], [event-internal.h]):
    event structs, the event base, its queues and the environment the
    operations run in. *)

From S2P Require Import Prelude MinHeap.

(** ** Flags *)

Definition EVLIST_TIMEOUT : Z := 1.
Definition EVLIST_INSERTED : Z := 2.
Definition EVLIST_ACTIVE : Z := 8.
Definition EVLIST_INTERNAL : Z := 16.
Definition EVLIST_INIT : Z := 128.

(** [0xf000 | 0x9f]. *)
Definition EVLIST_ALL : Z := Z.lor 61440 159.

Definition EV_TIMEOUT : Z := 1.
Definition EV_READ : Z := 2.
Definition EV_WRITE : Z := 4.
Definition EV_SIGNAL : Z := 8.
Definition EV_PERSIST : Z := 16.
Definition EV_ET : Z := 32.

Definition EV_CLOSURE_NONE : Z := 0.
Definition EV_CLOSURE_SIGNAL : Z := 1.
Definition EV_CLOSURE_PERSIST : Z := 2.

(** [flags & mask], as a condition. *)
Definition has (flags mask : Z) : bool := negb (Z.land flags mask =? 0).

(** ** Times *)

Definition timercmp_ge (t u : timeval) : bool := negb (timercmp_gt u t).

Definition evutil_timerclear : timeval := {| tv_sec := 0; tv_usec := 0 |}.

Definition evutil_timerisset (t : timeval) : bool :=
  negb (tv_sec t =? 0) || negb (tv_usec t =? 0).

Definition evutil_timeradd (t u : timeval) : timeval :=
  let sec := tv_sec t + tv_sec u in
  let usec := tv_usec t + tv_usec u in
  if 1000000 <=? usec then {| tv_sec := sec + 1; tv_usec := usec - 1000000 |}
  else {| tv_sec := sec; tv_usec := usec |}.

Definition evutil_timersub (t u : timeval) : timeval :=
  let sec := tv_sec t - tv_sec u in
  let usec := tv_usec t - tv_usec u in
  if usec <? 0 then {| tv_sec := sec - 1; tv_usec := usec + 1000000 |}
  else {| tv_sec := sec; tv_usec := usec |}.

(** ** Events *)

(** [struct event], less the two fields kept in the heap's [event_store].
    [ev_base] says that it is not NULL (there is one base), [ev_pncalls] is NULL
    or points to the counter of a signal closure, by number.  The queue links
    are the lists below; the C union of [ev_io_timeout] with [ev_ncalls] and
    [ev_pncalls] is two sets of fields, each used for its kind of event only. *)
Record event := {
  ev_fd : Z;
  ev_base : bool;
  ev_ncalls : Z;
  ev_pncalls : option nat;
  ev_io_timeout : timeval;
  ev_events : Z;
  ev_res : Z;
  ev_flags : Z;
  ev_pri : Z;
  ev_closure : Z;
  ev_callback : nat;
  ev_arg : nat }.

(** ** Queues *)

(** [TAILQ_REMOVE]: undefined for an element that is not on the list. *)
Fixpoint tailq_remove (x : evid) (q : list evid) : option (list evid) :=
  match q with
  | [] => None
  | y :: q' => if decide (y = x) then Some q' else cons y <$> tailq_remove x q'
  end.

Record common_timeout_list := {
  ctl_events : list evid;
  ctl_duration : timeval;
  ctl_timeout_event : evid }.

(** The callbacks of a [deferred_cb_queue] by number; [cb_queued] is the
    [queued] bit of each. *)
Record deferred_cb_queue := {
  active_count : Z;
  deferred_cb_list : list nat;
  cb_queued : nat -> bool }.

Record evmap_io := { io_events : list evid; nread : Z; nwrite : Z }.

(** The maps are arrays of pointers; [nentries] is their length. *)
Definition event_io_map : Type := list (option evmap_io).

Definition event_signal_map : Type := list (option (list evid)).

(** ** The backend

    A backend is reached through the function pointers of [struct eventop];
    the base keeps the calls it made. *)
Inductive backend_op := BackendAdd | BackendDel.

Record backend_call := {
  bc_op : backend_op;
  bc_signal : bool;
  bc_fd : Z;
  bc_old : Z;
  bc_events : Z }.

(** ** The event base *)

Record event_base := {
  structs : evid -> event;  (* the event structs, by address (their timer part is in [timers]) *)
  timers : event_store;  (* [ev_timeout] and [ev_timeout_pos.min_heap_idx] of every event *)
  virtual_event_count : Z;
  event_count : Z;
  event_count_active : Z;
  event_gotterm : bool;
  event_break : bool;
  event_continue : bool;
  event_running_priority : Z;
  running_loop : bool;
  activequeues : list (list evid);  (* [nactivequeues] is its length *)
  common_timeout_queues : list common_timeout_list;  (* [n_common_timeouts] is its length *)
  n_common_timeouts_allocated : Z;
  defer_queue : deferred_cb_queue;
  io : event_io_map;
  sigmap : event_signal_map;
  eventqueue : list evid;
  event_tv : timeval;
  timeheap : min_heap;
  tv_cache : timeval;
  tv_clock_diff : timeval;
  last_updated_clock_diff : Z;
  current_event : option evid;
  current_event_waiters : Z;
  no_cache_time : bool;  (* [flags & EVENT_BASE_FLAG_NO_CACHE_TIME] *)
  is_notify_pending : bool;
  th_notify_fn : bool;  (* whether a wake-up function is installed *)
  wakeups : nat;  (* how often it was called *)
  signal_closure : option (nat * Z);  (* the running [event_signal_closure], by number, and its local [ncalls] *)
  closures_run : nat;  (* how many ran before *)
  backend_log : list (backend_call * bool)  (* the calls made to the backend, oldest first, and whether each succeeded *) }.

(** The fields of the two records, for the updates [r <| field := v |>]. *)
#[export] Instance event_settable : Settable event :=
  fun ev => {| ev_fd := ev_fd ev; ev_base := ev_base ev; ev_ncalls := ev_ncalls ev;
    ev_pncalls := ev_pncalls ev; ev_io_timeout := ev_io_timeout ev;
    ev_events := ev_events ev; ev_res := ev_res ev;
    ev_flags := ev_flags ev; ev_pri := ev_pri ev;
    ev_closure := ev_closure ev; ev_callback := ev_callback ev;
    ev_arg := ev_arg ev |}.

#[export] Instance event_base_settable : Settable event_base :=
  fun b => {| structs := structs b; timers := timers b;
    virtual_event_count := virtual_event_count b;
    event_count := event_count b;
    event_count_active := event_count_active b;
    event_gotterm := event_gotterm b; event_break := event_break b;
    event_continue := event_continue b;
    event_running_priority := event_running_priority b;
    running_loop := running_loop b; activequeues := activequeues b;
    common_timeout_queues := common_timeout_queues b;
    n_common_timeouts_allocated := n_common_timeouts_allocated b;
    defer_queue := defer_queue b; io := io b; sigmap := sigmap b;
    eventqueue := eventqueue b; event_tv := event_tv b;
    timeheap := timeheap b; tv_cache := tv_cache b;
    tv_clock_diff := tv_clock_diff b;
    last_updated_clock_diff := last_updated_clock_diff b;
    current_event := current_event b;
    current_event_waiters := current_event_waiters b;
    no_cache_time := no_cache_time b;
    is_notify_pending := is_notify_pending b;
    th_notify_fn := th_notify_fn b; wakeups := wakeups b;
    signal_closure := signal_closure b; closures_run := closures_run b; backend_log := backend_log b |}.

(** Write to one struct. *)
Definition upd_event (e : evid) (f : event -> event) (b : event_base) : event_base :=
  b <| structs := fun x => if decide (x = e) then f (structs b x) else structs b x |>.

Definition set_ev_timeout (e : evid) (t : timeval) (b : event_base) : event_base :=
  b <| timers := fun x => if decide (x = e)
                       then {| ev_timeout := t; min_heap_idx := min_heap_idx (timers b x) |}
                       else timers b x |>.

(** ** The environment

    What the operations ask of the allocator, the clock, the threads and the
    backend: the answers they get while one operation runs. *)
Record env := {
  heap_realloc : nat -> bool;            (* room for that many heap slots *)
  map_realloc : Z -> bool;               (* room for a map of that many bytes *)
  map_calloc : bool;                     (* a new map entry *)
  have_clock_gettime : bool;             (* how the library was built *)
  use_monotonic : bool;
  clock_monotonic : option (Z * Z);      (* seconds and nanoseconds *)
  gettimeofday : option timeval;
  in_thread : bool;                      (* [EVBASE_IN_THREAD]: the caller runs the loop *)
  debug_mode : bool;
  ev_address : evid -> Z;
  backend_ok : list (backend_call * bool) -> backend_call -> bool }.

Definition EVBASE_NEED_NOTIFY (E : env) (b : event_base) : bool :=
  running_loop b && negb (in_thread E).

(** One call through [evsel->add], [evsel->del] or their signal versions. *)
Definition backend (E : env) (b : event_base) (c : backend_call) : bool * event_base :=
  let ok := backend_ok E (backend_log b) c in
  (ok, b <| backend_log := backend_log b ++ [(c, ok)] |>).
