(* ===== verification/Evmap.v ===== *)
(** The maps from file descriptors and signals to events ([evmap.c]), in the
    array representation used where descriptors are small integers. *)

From S2P Require Import Prelude MinHeap EventData.

Section Evmap.
Context (E : env).

(** ** Slots *)

(** The doubling of the number of entries; past [INT_MAX] the shift and the
    product with the entry size overflow. *)
Fixpoint make_space_loop (fuel : nat) (nentries slot msize : Z) : option Z :=
  match fuel with
  | O => None
  | S fuel' =>
    if nentries <=? slot then
      if INT_MAX <? 2 * nentries then None
      else make_space_loop fuel' (Z.shiftl nentries 1) slot msize
    else if INT_MAX <? nentries * msize then None else Some nentries
  end.

Definition evmap_make_space {A} (map : list (option A)) (slot msize : Z)
  : option (Z * list (option A)) :=
  if zlen map <=? slot then
    let nentries := if zlen map =? 0 then 32 else zlen map in
    nentries' ← make_space_loop 32 nentries slot msize;
    if map_realloc E (nentries' * msize)
    then Some (0, map ++ replicate (Z.to_nat (nentries' - zlen map)) None)
    else Some (-1, map)
  else Some (0, map).

(** [map->entries[slot]], for a slot inside the array. *)
Definition get_slot {A} (map : list (option A)) (slot : Z) : option (option A) :=
  if slot <? 0 then None else map !! Z.to_nat slot.

Definition put_slot {A} (map : list (option A)) (slot : Z) (x : A) : list (option A) :=
  <[Z.to_nat slot := Some x]> map.

(** [GET_SIGNAL_SLOT_AND_CTOR]: the entry of the slot, made when it is empty;
    the inner option is the failed allocation. *)
Definition get_slot_and_ctor {A} (ctor : A) (map : list (option A)) (slot : Z)
  : option (option A * list (option A)) :=
  x ← get_slot map slot;
  match x with
  | Some y => Some (Some y, map)
  | None => if map_calloc E then Some (Some ctor, put_slot map slot ctor)
            else Some (None, map)
  end.

Definition evmap_signal_initmap {A} : list (option A) := [].

Definition evmap_io_initmap : event_io_map := evmap_signal_initmap.

Definition evmap_signal_clear {A} (map : list (option A)) : list (option A) := [].

Definition evmap_io_clear (map : event_io_map) : event_io_map := evmap_signal_clear map.

Definition evmap_io_init : evmap_io := {| io_events := []; nread := 0; nwrite := 0 |}.

Definition evmap_signal_init : list evid := [].

(** The size of a pointer, which is what an entry holds. *)
Definition ENTRY_SIZE : Z := 8.

(** ** File descriptors *)

(** The backend's view of an entry: the kinds of events someone waits for. *)
Definition old_events (ctx : evmap_io) : Z :=
  Z.lor (if nread ctx =? 0 then 0 else EV_READ) (if nwrite ctx =? 0 then 0 else EV_WRITE).

(** The result is -1 on error, 1 when the backend was told something new, 0
    otherwise. *)
Definition evmap_io_add (b : event_base) (fd : Z) (e : evid) : option (Z * event_base) :=
  let ev := structs b e in
  if negb (fd =? ev_fd ev) then None else
  if fd <? 0 then Some (0, b) else
  '(r, map1) ← evmap_make_space (io b) fd ENTRY_SIZE;
  if r =? -1 then Some (-1, b) else
  '(x, map2) ← get_slot_and_ctor evmap_io_init map1 fd;
  let b2 := b <| io := map2 |> in
  match x with
  | None => Some (-1, b2)
  | Some ctx =>
    let old := old_events ctx in
    let nread' := nread ctx + (if has (ev_events ev) EV_READ then 1 else 0) in
    let nwrite' := nwrite ctx + (if has (ev_events ev) EV_WRITE then 1 else 0) in
    let res := Z.lor
      (if has (ev_events ev) EV_READ && (nread' =? 1) then EV_READ else 0)
      (if has (ev_events ev) EV_WRITE && (nwrite' =? 1) then EV_WRITE else 0) in
    if (65535 <? nread') || (65535 <? nwrite') then Some (-1, b2) else
    let mixed := match io_events ctx with
      | [] => false
      | old_ev :: _ => negb (Z.land (ev_events (structs b old_ev)) EV_ET
                             =? Z.land (ev_events ev) EV_ET)
      end in
    if debug_mode E && mixed then Some (-1, b2) else
    let '(ok, b3) :=
      if res =? 0 then (true, b2) else
      backend E b2 {| bc_op := BackendAdd; bc_signal := false; bc_fd := ev_fd ev;
                      bc_old := old;
                      bc_events := Z.lor (Z.land (ev_events ev) EV_ET) res |} in
    if negb ok then Some (-1, b3) else
    Some (if res =? 0 then 0 else 1,
          b3 <| io := put_slot (io b3) fd
                  {| io_events := io_events ctx ++ [e]; nread := nread'; nwrite := nwrite' |} |>)
  end.

Definition evmap_io_del (b : event_base) (fd : Z) (e : evid) : option (Z * event_base) :=
  let ev := structs b e in
  if fd <? 0 then Some (0, b) else
  if negb (fd =? ev_fd ev) then None else
  if zlen (io b) <=? fd then Some (-1, b) else
  ctx ← mjoin (get_slot (io b) fd);
  let old := old_events ctx in
  let nread' := nread ctx - (if has (ev_events ev) EV_READ then 1 else 0) in
  let nwrite' := nwrite ctx - (if has (ev_events ev) EV_WRITE then 1 else 0) in
  if (nread' <? 0) || (nwrite' <? 0) then None else
  let res := Z.lor
    (if has (ev_events ev) EV_READ && (nread' =? 0) then EV_READ else 0)
    (if has (ev_events ev) EV_WRITE && (nwrite' =? 0) then EV_WRITE else 0) in
  let '(ok, b3) :=
    if res =? 0 then (true, b) else
    backend E b {| bc_op := BackendDel; bc_signal := false; bc_fd := ev_fd ev;
                   bc_old := old; bc_events := res |} in
  if negb ok then Some (-1, b3) else
  events ← tailq_remove e (io_events ctx);
  Some (if res =? 0 then 0 else 1,
        b3 <| io := put_slot (io b3) fd
                {| io_events := events; nread := nread'; nwrite := nwrite' |} |>).

(** ** Signals *)

(** A negative signal number would index before the array. *)
Definition evmap_signal_add (b : event_base) (sig : Z) (e : evid) : option (Z * event_base) :=
  let ev := structs b e in
  '(r, map1) ← evmap_make_space (sigmap b) sig ENTRY_SIZE;
  if r =? -1 then Some (-1, b) else
  '(x, map2) ← get_slot_and_ctor evmap_signal_init map1 sig;
  let b2 := b <| sigmap := map2 |> in
  match x with
  | None => Some (-1, b2)
  | Some ctx =>
    let '(ok, b3) :=
      match ctx with
      | [] => backend E b2 {| bc_op := BackendAdd; bc_signal := true; bc_fd := ev_fd ev;
                              bc_old := 0; bc_events := EV_SIGNAL |}
      | _ => (true, b2)
      end in
    if negb ok then Some (-1, b3) else
    Some (1, b3 <| sigmap := put_slot (sigmap b3) sig (ctx ++ [e]) |>)
  end.

Definition evmap_signal_del (b : event_base) (sig : Z) (e : evid) : option (Z * event_base) :=
  let ev := structs b e in
  if zlen (sigmap b) <=? sig then Some (-1, b) else
  ctx ← mjoin (get_slot (sigmap b) sig);
  let '(ok, b3) :=
    if decide (head ctx = last ctx) then
      backend E b {| bc_op := BackendDel; bc_signal := true; bc_fd := ev_fd ev;
                     bc_old := 0; bc_events := EV_SIGNAL |}
    else (true, b) in
  if negb ok then Some (-1, b3) else
  ctx' ← tailq_remove e ctx;
  Some (1, b3 <| sigmap := put_slot (sigmap b3) sig ctx' |>).
End Evmap.
