(* ===== verification/EventCore.v ===== *)
(** The event core ([event.c]): setting up events, adding, deleting and
    activating them, their queues, the common timeouts and the processing of
    elapsed timeouts.

    An operation returns [None] where the C program exits through
    [event_errx], fails an assertion, has no defined behaviour, or waits on
    [current_event_cond] for the thread that runs the loop. *)

From S2P Require Import Prelude MinHeap EventData Evmap.

Section EventCore.
Context (E : env).

Definition flag (b : event_base) (e : evid) (mask : Z) : bool :=
  has (ev_flags (structs b e)) mask.

Definition timeout_of (b : event_base) (e : evid) : timeval := ev_timeout (timers b e).

(** ** The clock *)

Definition CLOCK_SYNC_INTERVAL : Z := -1.

(** The time and the base, whose record of the clock difference may change;
    the inner option is the result -1.  The result of [evutil_gettimeofday] is
    not looked at: should it fail, the C program computes the difference from an
    indeterminate time; here the old one stays. *)
Definition gettime (b : event_base) : option timeval * event_base :=
  if negb (tv_sec (tv_cache b) =? 0) then (Some (tv_cache b), b) else
  if have_clock_gettime E && use_monotonic E then
    match clock_monotonic E with
    | None => (None, b)
    | Some (sec, nsec) =>
      let tp := {| tv_sec := sec; tv_usec := nsec / 1000 |} in
      if last_updated_clock_diff b + CLOCK_SYNC_INTERVAL <? sec then
        match gettimeofday E with
        | Some tv =>
          (Some tp, b <| tv_clock_diff := evutil_timersub tv tp |>
                      <| last_updated_clock_diff := sec |>)
        | None => (Some tp, b <| last_updated_clock_diff := sec |>)
        end
      else (Some tp, b)
    end
  else (gettimeofday E, b).

Definition clear_time_cache (b : event_base) : event_base :=
  b <| tv_cache := {| tv_sec := 0; tv_usec := tv_usec (tv_cache b) |} |>.

Definition update_time_cache (b : event_base) : event_base :=
  let b := clear_time_cache b in
  if no_cache_time b then b else
  match gettime b with
  | (Some now, b') => b' <| tv_cache := now |>
  | (None, b') => b'
  end.

(** ** Common timeouts *)

Definition MICROSECONDS_MASK : Z := 1048575.
Definition COMMON_TIMEOUT_IDX_MASK : Z := 267386880.
Definition COMMON_TIMEOUT_IDX_SHIFT : Z := 20.
Definition COMMON_TIMEOUT_MASK : Z := 4026531840.
Definition COMMON_TIMEOUT_MAGIC : Z := 1342177280.
Definition MAX_COMMON_TIMEOUTS : Z := 256.

Definition COMMON_TIMEOUT_IDX (tv : timeval) : Z :=
  Z.shiftr (Z.land (tv_usec tv) COMMON_TIMEOUT_IDX_MASK) COMMON_TIMEOUT_IDX_SHIFT.

Definition n_common_timeouts (b : event_base) : Z := zlen (common_timeout_queues b).

Definition is_common_timeout (tv : timeval) (b : event_base) : bool :=
  if negb (Z.land (tv_usec tv) COMMON_TIMEOUT_MASK =? COMMON_TIMEOUT_MAGIC) then false
  else COMMON_TIMEOUT_IDX tv <? n_common_timeouts b.

Definition is_same_common_timeout (tv1 tv2 : timeval) : bool :=
  Z.land (tv_usec tv1) (Z.lnot MICROSECONDS_MASK)
  =? Z.land (tv_usec tv2) (Z.lnot MICROSECONDS_MASK).

Definition common_idx (tv : timeval) : nat := Z.to_nat (COMMON_TIMEOUT_IDX tv).

Definition get_common_timeout_list (b : event_base) (tv : timeval)
  : option common_timeout_list :=
  common_timeout_queues b !! common_idx tv.

Definition set_common_events (b : event_base) (i : nat) (q : list evid) : event_base :=
  b <| common_timeout_queues :=
         alter (fun c => {| ctl_events := q; ctl_duration := ctl_duration c;
                            ctl_timeout_event := ctl_timeout_event c |})
               i (common_timeout_queues b) |>.

(** The timeout with its microseconds unmarked. *)
Definition mask_usec (tv : timeval) : timeval :=
  {| tv_sec := tv_sec tv; tv_usec := Z.land (tv_usec tv) MICROSECONDS_MASK |}.

(** The list is searched from its end: here it is reversed. *)
Fixpoint insert_from_end (st : event_store) (rq : list evid) (e : evid)
  : option (list evid) :=
  match rq with
  | [] => Some [e]
  | x :: rq' =>
    if negb (is_same_common_timeout (ev_timeout (st x)) (ev_timeout (st e))) then None else
    if timercmp_ge (ev_timeout (st e)) (ev_timeout (st x)) then Some (e :: x :: rq')
    else cons x <$> insert_from_end st rq' e
  end.

Definition insert_common_timeout_inorder (st : event_store) (q : list evid) (e : evid)
  : option (list evid) :=
  reverse <$> insert_from_end st (reverse q) e.

(** The word [min_heap_idx] overlays while the event is on a common timeout
    list: the low half of the pointer to the next event of the list. *)
Fixpoint tqe_next (q : list evid) (e : evid) : option evid :=
  match q with
  | [] => None
  | x :: q' => if decide (x = e) then head q' else tqe_next q' e
  end.

Definition link_word (q : list evid) (e : evid) : Z :=
  match tqe_next q e with
  | None => 0
  | Some x => swrap 32 (ev_address E x)
  end.

(** [min_heap_elt_is_top(ev)] on an event that has a timeout. *)
Definition elt_is_top (b : event_base) (e : evid) : bool :=
  if is_common_timeout (timeout_of b e) b then
    match get_common_timeout_list b (timeout_of b e) with
    | Some ctl => link_word (ctl_events ctl) e =? 0
    | None => false
    end
  else min_heap_elt_is_top (timers b) e.

(** ** Queues *)

Definition internal (b : event_base) (e : evid) : bool := flag b e EVLIST_INTERNAL.

Definition event_queue_remove (b : event_base) (e : evid) (queue : Z) : option event_base :=
  if negb (flag b e queue) then None else
  let b1 := if has (Z.lnot (ev_flags (structs b e))) EVLIST_INTERNAL
            then b <| event_count := event_count b - 1 |> else b in
  let b2 := upd_event e (fun ev =>
              ev <| ev_flags := Z.land (ev_flags ev) (Z.lnot queue) |>) b1 in
  if queue =? EVLIST_INSERTED then
    q ← tailq_remove e (eventqueue b2);
    Some (b2 <| eventqueue := q |>)
  else if queue =? EVLIST_ACTIVE then
    let b3 := b2 <| event_count_active := event_count_active b2 - 1 |> in
    let i := Z.to_nat (ev_pri (structs b3 e)) in
    q ← activequeues b3 !! i;
    q' ← tailq_remove e q;
    Some (b3 <| activequeues := <[i := q']> (activequeues b3) |>)
  else if queue =? EVLIST_TIMEOUT then
    let tv := timeout_of b2 e in
    if is_common_timeout tv b2 then
      ctl ← get_common_timeout_list b2 tv;
      q ← tailq_remove e (ctl_events ctl);
      let b3 := set_common_events b2 (common_idx tv) q in
      Some (b3 <| timers :=
        set_min_heap_idx (timers b3) e (link_word (ctl_events ctl) e) |>)
    else
      '(_, st, h) ← min_heap_erase (timers b2) (timeheap b2) e;
      Some (b2 <| timers := st |> <| timeheap := h |>)
  else None.

(** The result of [min_heap_push] is not looked at. *)
Definition event_queue_insert (b : event_base) (e : evid) (queue : Z) : option event_base :=
  if flag b e queue then
    if has queue EVLIST_ACTIVE then Some b else None
  else
  let b1 := if has (Z.lnot (ev_flags (structs b e))) EVLIST_INTERNAL
            then b <| event_count := event_count b + 1 |> else b in
  let b2 := upd_event e (fun ev => ev <| ev_flags := Z.lor (ev_flags ev) queue |>) b1 in
  if queue =? EVLIST_INSERTED then
    Some (b2 <| eventqueue := eventqueue b2 ++ [e] |>)
  else if queue =? EVLIST_ACTIVE then
    let b3 := b2 <| event_count_active := event_count_active b2 + 1 |> in
    let i := Z.to_nat (ev_pri (structs b3 e)) in
    q ← activequeues b3 !! i;
    Some (b3 <| activequeues := <[i := q ++ [e]]> (activequeues b3) |>)
  else if queue =? EVLIST_TIMEOUT then
    let tv := timeout_of b2 e in
    if is_common_timeout tv b2 then
      ctl ← get_common_timeout_list b2 tv;
      q ← insert_common_timeout_inorder (timers b2) (ctl_events ctl) e;
      Some (set_common_events b2 (common_idx tv) q)
    else
      '(_, st, h) ← min_heap_push (heap_realloc E) (timers b2) (timeheap b2) e;
      Some (b2 <| timers := st |> <| timeheap := h |>)
  else None.

(** ** Waking the loop *)

Definition evthread_notify_base (b : event_base) : event_base :=
  if negb (th_notify_fn b) then b else
  if is_notify_pending b then b else
  b <| is_notify_pending := true |> <| wakeups := S (wakeups b) |>.

Definition notify_if (c : bool) (b : event_base) : event_base :=
  if c && EVBASE_NEED_NOTIFY E b then evthread_notify_base b else b.

(** The caller has to wait while the loop's thread runs the event's callback. *)
Definition must_wait (b : event_base) (e : evid) : bool :=
  bool_decide (current_event b = Some e) && negb (in_thread E).

(** [if (ev->ev_ncalls && ev->ev_pncalls) *ev->ev_pncalls = 0], for a signal:
    the pointer is only good while its closure runs. *)
Definition abort_signal_loop (b : event_base) (e : evid) : option event_base :=
  let ev := structs b e in
  if has (ev_events ev) EV_SIGNAL && negb (ev_ncalls ev =? 0) then
    match ev_pncalls ev with
    | None => Some b
    | Some f =>
      '(g, _) ← signal_closure b;
      if decide (f = g) then Some (b <| signal_closure := Some (g, 0) |>) else None
    end
  else Some b.

(** ** Activating *)

Definition event_active_nolock (b : event_base) (e : evid) (res ncalls : Z)
  : option event_base :=
  if flag b e EVLIST_ACTIVE then
    Some (upd_event e (fun ev => ev <| ev_res := Z.lor (ev_res ev) res |>) b)
  else
  let b1 := upd_event e (fun ev => ev <| ev_res := res |>) b in
  let ev := structs b1 e in
  let b2 := if ev_pri ev <? event_running_priority b1
            then b1 <| event_continue := true |> else b1 in
  let signal := has (ev_events ev) EV_SIGNAL in
  if signal && must_wait b2 e then None else
  let b3 := if signal
            then upd_event e (fun ev => ev <| ev_ncalls := ncalls |> <| ev_pncalls := None |>) b2
            else b2 in
  b4 ← event_queue_insert b3 e EVLIST_ACTIVE;
  Some (notify_if true b4).

Definition event_active (b : event_base) (e : evid) (res ncalls : Z) : option event_base :=
  if negb (ev_base (structs b e)) then Some b else event_active_nolock b e res ncalls.

(** [evmap_io_active] and [evmap_signal_active]: what a backend calls. *)
Fixpoint active_each (b : event_base) (q : list evid) (f : event -> Z) (ncalls : Z)
  : option event_base :=
  match q with
  | [] => Some b
  | e :: q' =>
    b' ← (let res := f (structs b e) in
          if res =? 0 then Some b else event_active_nolock b e res ncalls);
    active_each b' q' f ncalls
  end.

Definition evmap_io_active (b : event_base) (fd events : Z) : option event_base :=
  if negb (fd <? zlen (io b)) then None else
  ctx ← mjoin (get_slot (io b) fd);
  active_each b (io_events ctx) (fun ev => Z.land (ev_events ev) events) 1.

Definition evmap_signal_active (b : event_base) (sig ncalls : Z) : option event_base :=
  if negb (sig <? zlen (sigmap b)) then None else
  ctx ← mjoin (get_slot (sigmap b) sig);
  active_each b ctx (fun _ => EV_SIGNAL) ncalls.

(** ** Deleting *)

Definition event_del_internal (b : event_base) (e : evid) : option (Z * event_base) :=
  if negb (ev_base (structs b e)) then Some (-1, b) else
  if must_wait b e then None else
  if has (ev_flags (structs b e)) (Z.lnot EVLIST_ALL) then None else
  b1 ← abort_signal_loop b e;
  b2 ← (if flag b1 e EVLIST_TIMEOUT then event_queue_remove b1 e EVLIST_TIMEOUT else Some b1);
  b3 ← (if flag b2 e EVLIST_ACTIVE then event_queue_remove b2 e EVLIST_ACTIVE else Some b2);
  if flag b3 e EVLIST_INSERTED then
    b4 ← event_queue_remove b3 e EVLIST_INSERTED;
    let ev := structs b4 e in
    '(r, b5) ← (if has (ev_events ev) (Z.lor EV_READ EV_WRITE)
                then evmap_io_del E b4 (ev_fd ev) e
                else evmap_signal_del E b4 (ev_fd ev) e);
    Some (if r =? 1 then 0 else r, notify_if (r =? 1) b5)
  else Some (0, b3).

Definition event_del (b : event_base) (e : evid) : option (Z * event_base) :=
  if negb (ev_base (structs b e)) then Some (-1, b) else event_del_internal b e.

(** ** Adding *)

(** The registration with the backend: result, whether the loop has to be
    woken, and the base. *)
Definition add_to_map (b : event_base) (e : evid) : option (Z * bool * event_base) :=
  let ev := structs b e in
  if has (ev_events ev) (Z.lor EV_READ (Z.lor EV_WRITE EV_SIGNAL))
     && negb (flag b e (Z.lor EVLIST_INSERTED EVLIST_ACTIVE)) then
    '(r, b1) ← (if has (ev_events ev) (Z.lor EV_READ EV_WRITE)
                then evmap_io_add E b (ev_fd ev) e
                else evmap_signal_add E b (ev_fd ev) e);
    b2 ← (if r =? -1 then Some b1 else event_queue_insert b1 e EVLIST_INSERTED);
    Some (if r =? 1 then (0, true, b2) else (r, false, b2))
  else Some (0, false, b).

(** A new timeout replaces the old one, and takes back an activation by it. *)
Definition drop_old_timeout (b : event_base) (e : evid) : option (bool * event_base) :=
  '(top, b1) ← (if flag b e EVLIST_TIMEOUT then
                  b' ← event_queue_remove b e EVLIST_TIMEOUT; Some (elt_is_top b e, b')
                else Some (false, b));
  b2 ← (if flag b1 e EVLIST_ACTIVE && has (ev_res (structs b1 e)) EV_TIMEOUT
        then b' ← abort_signal_loop b1 e; event_queue_remove b' e EVLIST_ACTIVE
        else Some b1);
  Some (top, b2).

(** The point in time of a timeout.  The clock is read in any case; its result
    is not looked at, so that a failing clock leaves [now] undefined. *)
Definition deadline (b : event_base) (tv : timeval) (tv_is_absolute : bool)
  : option (timeval * event_base) :=
  let '(now, b1) := gettime b in
  if tv_is_absolute then Some (tv, b1) else
  t ← now;
  if is_common_timeout tv b1 then
    let sum := evutil_timeradd t (mask_usec tv) in
    Some ({| tv_sec := tv_sec sum;
             tv_usec := Z.lor (tv_usec sum) (Z.land (tv_usec tv) (Z.lnot MICROSECONDS_MASK)) |},
          b1)
  else Some (evutil_timeradd t tv, b1).

Definition common_timeout_schedule
    (add : event_base -> evid -> option timeval -> bool -> option (Z * event_base))
    (b : event_base) (ctl : common_timeout_list) (hd : evid) : option event_base :=
  '(_, b') ← add b (ctl_timeout_event ctl) (Some (mask_usec (timeout_of b hd))) true;
  Some b'.

Definition add_timeout
    (add : event_base -> evid -> option timeval -> bool -> option (Z * event_base))
    (b : event_base) (e : evid) (tv : timeval) (tv_is_absolute : bool)
  : option (bool * event_base) :=
  let b1 := if (ev_closure (structs b e) =? EV_CLOSURE_PERSIST) && negb tv_is_absolute
            then upd_event e (fun ev => ev <| ev_io_timeout := tv |>) b else b in
  '(top, b2) ← drop_old_timeout b1 e;
  '(t, b3) ← deadline b2 tv tv_is_absolute;
  b4 ← event_queue_insert (set_ev_timeout e t b3) e EVLIST_TIMEOUT;
  if is_common_timeout tv b3 then
    ctl ← get_common_timeout_list b4 (timeout_of b4 e);
    b5 ← (if decide (head (ctl_events ctl) = Some e)
          then common_timeout_schedule add b4 ctl e else Some b4);
    Some (top, b5)
  else Some (top || elt_is_top b4 e, b4).

(** [depth] bounds the nesting: a common timeout schedules the event of its
    list, whose own timeout is not a common one. *)
Fixpoint event_add_nested (depth : nat) (b : event_base) (e : evid) (tv : option timeval)
    (tv_is_absolute : bool) : option (Z * event_base) :=
  match depth with
  | O => None
  | S depth' =>
    if has (ev_flags (structs b e)) (Z.lnot EVLIST_ALL) then None else
    let '(r, h) := match tv with
      | Some _ => if flag b e EVLIST_TIMEOUT then (0, timeheap b) else
                  min_heap_reserve (heap_realloc E) (timeheap b) (1 + min_heap_size (timeheap b))
      | None => (0, timeheap b)
      end in
    if r =? -1 then Some (-1, b) else
    let b1 := b <| timeheap := h |> in
    if has (ev_events (structs b1 e)) EV_SIGNAL && must_wait b1 e then None else
    '(res, notify, b2) ← add_to_map b1 e;
    '(notify', b3) ← match tv with
      | Some t => if res =? -1 then Some (notify, b2) else
                  '(top, b') ← add_timeout (event_add_nested depth') b2 e t tv_is_absolute;
                  Some (notify || top, b')
      | None => Some (notify, b2)
      end;
    Some (res, notify_if (negb (res =? -1) && notify') b3)
  end.

Definition event_add_internal : event_base -> evid -> option timeval -> bool ->
    option (Z * event_base) := event_add_nested 2.

Definition event_add (b : event_base) (e : evid) (tv : option timeval)
  : option (Z * event_base) :=
  if negb (ev_base (structs b e)) then Some (-1, b) else event_add_internal b e tv false.

(** ** Elapsed timeouts *)

(** [tv] is what [*tv_p] points to; the result is that of the function, [*tv_p]
    ([None] for NULL) with what it points to, and the base. *)
Definition timeout_next (b : event_base) (tv : timeval) : option (Z * option timeval * event_base) :=
  top ← min_heap_top (timeheap b);
  match top with
  | None => Some (0, None, b)
  | Some e =>
    match gettime b with
    | (None, b1) => Some (-1, Some tv, b1)
    | (Some now, b1) =>
      if timercmp_ge now (timeout_of b1 e) then Some (0, Some evutil_timerclear, b1) else
      let tv := evutil_timersub (timeout_of b1 e) now in
      if (tv_sec tv <? 0) || (tv_usec tv <? 0) then None else Some (0, Some tv, b1)
    end
  end.

(** One turn of the loop: an elapsed event leaves every queue and becomes
    active. *)
Fixpoint timeout_process_loop (fuel : nat) (now : timeval) (b : event_base)
  : option event_base :=
  match fuel with
  | O => None
  | S fuel' =>
    top ← min_heap_top (timeheap b);
    match top with
    | None => Some b
    | Some e =>
      if timercmp_gt (timeout_of b e) now then Some b else
      '(_, b1) ← event_del_internal b e;
      b2 ← event_active_nolock b1 e EV_TIMEOUT 1;
      timeout_process_loop fuel' now b2
    end
  end.

Definition timeout_process (b : event_base) : option event_base :=
  if min_heap_empty (timeheap b) then Some b else
  let '(now, b1) := gettime b in
  now' ← now;
  timeout_process_loop (S (min_heap_size (timeheap b1))) now' b1.

(** The same for the head of a common timeout list; [ev_timeout]s carry the
    mark of the list. *)
Fixpoint common_callback_loop (fuel : nat) (now : timeval) (i : nat) (b : event_base)
  : option (option evid * event_base) :=
  match fuel with
  | O => None
  | S fuel' =>
    ctl ← common_timeout_queues b !! i;
    match head (ctl_events ctl) with
    | None => Some (None, b)
    | Some e =>
      if timercmp_gt (mask_usec (timeout_of b e)) now then Some (Some e, b) else
      '(_, b1) ← event_del_internal b e;
      b2 ← event_active_nolock b1 e EV_TIMEOUT 1;
      common_callback_loop fuel' now i b2
    end
  end.

Definition common_timeout_callback (b : event_base) (i : nat) : option event_base :=
  let '(now, b1) := gettime b in
  now' ← now;
  ctl ← common_timeout_queues b1 !! i;
  '(ev, b2) ← common_callback_loop (S (length (ctl_events ctl))) now' i b1;
  match ev with
  | Some e => common_timeout_schedule event_add_internal b2 ctl e
  | None => Some b2
  end.

(** The clock ran backwards: every deadline moves by the difference. *)
Definition shift_timeout (off : timeval) (x : heap_event) : heap_event :=
  {| ev_timeout := evutil_timersub (ev_timeout x) off; min_heap_idx := min_heap_idx x |}.

Definition shift_common (off : timeval) (i : nat) (x : heap_event) : heap_event :=
  let t := evutil_timersub (mask_usec (ev_timeout x)) off in
  {| ev_timeout := {| tv_sec := tv_sec t;
       tv_usec := Z.lor (tv_usec t)
         (Z.lor COMMON_TIMEOUT_MAGIC (Z.shiftl (Z.of_nat i) COMMON_TIMEOUT_IDX_SHIFT)) |};
     min_heap_idx := min_heap_idx x |}.

Definition map_store (f : heap_event -> heap_event) (l : list evid) (st : event_store)
  : event_store :=
  foldl (fun st e x => if decide (x = e) then f (st x) else st x) st l.

Definition heap_events (s : min_heap) : list evid := omap id (take (n s) (p s)).

Definition timeout_correct (b : event_base) : option event_base :=
  if use_monotonic E then Some b else
  let '(now, b1) := gettime b in
  tv ← now;
  if timercmp_ge tv (event_tv b1) then Some (b1 <| event_tv := tv |>) else
  let off := evutil_timersub (event_tv b1) tv in
  let st1 := map_store (shift_timeout off) (heap_events (timeheap b1)) (timers b1) in
  let st2 := foldl (fun st '(i, ctl) => map_store (shift_common off i) (ctl_events ctl) st) st1
                   (imap pair (common_timeout_queues b1)) in
  Some (b1 <| timers := st2 |> <| event_tv := tv |>).

(** ** Setting up *)

Definition event_assign (b : event_base) (e : evid) (fd events : Z) (callback arg : nat)
  : Z * event_base :=
  let old := structs b e in
  let set_up (closure : Z) (io_timeout : timeval) (pri : Z) : event :=
    {| ev_fd := fd; ev_base := true; ev_ncalls := 0; ev_pncalls := None;
       ev_io_timeout := io_timeout; ev_events := events; ev_res := 0;
       ev_flags := EVLIST_INIT; ev_pri := pri; ev_closure := closure;
       ev_callback := callback; ev_arg := arg |} in
  let pri := Z.of_nat (length (activequeues b) / 2) in
  if has events EV_SIGNAL && has events (Z.lor EV_READ EV_WRITE) then
    (-1, upd_event e (fun _ => set_up (ev_closure old) (ev_io_timeout old) (ev_pri old)) b)
  else
  let ev := if has events EV_SIGNAL then set_up EV_CLOSURE_SIGNAL (ev_io_timeout old) pri
            else if has events EV_PERSIST then set_up EV_CLOSURE_PERSIST evutil_timerclear pri
            else set_up EV_CLOSURE_NONE (ev_io_timeout old) pri in
  let b1 := upd_event e (fun _ => ev) b in
  (0, b1 <| timers := min_heap_elem_init (timers b1) e |>).

Definition event_priority_set (b : event_base) (e : evid) (pri : Z) : Z * event_base :=
  if flag b e EVLIST_ACTIVE then (-1, b) else
  if (pri <? 0) || (zlen (activequeues b) <=? pri) then (-1, b) else
  (0, upd_event e (fun ev => ev <| ev_pri := pri |>) b).

(** The kinds of events it is waiting or active for, and its deadline. *)
Definition event_pending (b : event_base) (e : evid) (events : Z) (want_tv : bool)
  : Z * option timeval :=
  let ev := structs b e in
  if negb (ev_base ev) then (0, None) else
  let flags := Z.lor (Z.lor
    (if flag b e EVLIST_INSERTED
     then Z.land (ev_events ev) (Z.lor EV_READ (Z.lor EV_WRITE EV_SIGNAL)) else 0)
    (if flag b e EVLIST_ACTIVE then ev_res ev else 0))
    (if flag b e EVLIST_TIMEOUT then EV_TIMEOUT else 0) in
  let events' := Z.land events (Z.lor EV_TIMEOUT (Z.lor EV_READ (Z.lor EV_WRITE EV_SIGNAL))) in
  let tmp := mask_usec (timeout_of b e) in
  (Z.land flags events',
   if want_tv && has (Z.land flags events') EV_TIMEOUT
   then Some (if have_clock_gettime E then evutil_timeradd (tv_clock_diff b) tmp else tmp)
   else None).

Definition N_ACTIVE_CALLBACKS (b : event_base) : Z :=
  event_count_active b + active_count (defer_queue b).

Definition event_haveevents (b : event_base) : bool :=
  (0 <? virtual_event_count b) || (0 <? event_count b).

Definition EVENT_MAX_PRIORITIES : Z := 256.

Definition event_base_priority_init (calloc_ok : bool) (b : event_base) (npriorities : Z)
  : Z * event_base :=
  if negb (N_ACTIVE_CALLBACKS b =? 0) || (npriorities <? 1)
     || (EVENT_MAX_PRIORITIES <=? npriorities) then (-1, b) else
  if npriorities =? zlen (activequeues b) then (0, b) else
  if calloc_ok then (0, b <| activequeues := replicate (Z.to_nat npriorities) [] |>)
  else (-1, b <| activequeues := [] |>).

(** The callback number that stands for [common_timeout_callback]; its argument
    is the index of the list. *)
Definition COMMON_TIMEOUT_CALLBACK : nat := 0.

Definition normalize_duration (b : event_base) (duration : timeval) : timeval :=
  if 1000000 <? tv_usec duration then
    let tv := if is_common_timeout duration b then mask_usec duration else duration in
    {| tv_sec := tv_sec tv + tv_usec tv ÷ 1000000; tv_usec := Z.rem (tv_usec tv) 1000000 |}
  else duration.

Definition find_duration (duration : timeval) (l : list common_timeout_list)
  : option common_timeout_list :=
  head (filter (fun c => (tv_sec duration =? tv_sec (ctl_duration c))
                && (tv_usec duration =? Z.land (tv_usec (ctl_duration c)) MICROSECONDS_MASK)) l).

(** [new] is the address of the event of the new list, when it is obtained. *)
Definition event_base_init_common_timeout (b : event_base) (duration : timeval)
    (new : option evid) : option (option timeval * event_base) :=
  let d := normalize_duration b duration in
  match find_duration d (common_timeout_queues b) with
  | Some ctl => if is_common_timeout (ctl_duration ctl) b
                then Some (Some (ctl_duration ctl), b) else None
  | None =>
    let nc := n_common_timeouts b in
    if nc =? MAX_COMMON_TIMEOUTS then Some (None, b) else
    let grow := n_common_timeouts_allocated b =? nc in
    let size := if nc <? 16 then 16 else nc * 2 in
    if grow && negb (map_realloc E (size * ENTRY_SIZE)) then Some (None, b) else
    let b1 := if grow then b <| n_common_timeouts_allocated := size |> else b in
    match new with
    | None => Some (None, b1)
    | Some te =>
      let dur := {| tv_sec := tv_sec d;
                    tv_usec := Z.lor (tv_usec d) (Z.lor COMMON_TIMEOUT_MAGIC
                                 (Z.shiftl nc COMMON_TIMEOUT_IDX_SHIFT)) |} in
      let '(_, b2) := event_assign b1 te (-1) 0 COMMON_TIMEOUT_CALLBACK (Z.to_nat nc) in
      let b3 := upd_event te (fun ev =>
                  ev <| ev_flags := Z.lor (ev_flags ev) EVLIST_INTERNAL |>) b2 in
      let '(_, b4) := event_priority_set b3 te 0 in
      let b5 := b4 <| common_timeout_queues := common_timeout_queues b4 ++
                  [{| ctl_events := []; ctl_duration := dur; ctl_timeout_event := te |}] |> in
      if is_common_timeout dur b5 then Some (Some dur, b5) else None
    end
  end.

(** ** Deferred callbacks *)

Definition event_deferred_cb_schedule (b : event_base) (cb : nat) : event_base :=
  let q := defer_queue b in
  if cb_queued q cb then b else
  let b1 := b <| defer_queue :=
    {| active_count := active_count q + 1;
       deferred_cb_list := deferred_cb_list q ++ [cb];
       cb_queued := fun x => if decide (x = cb) then true else cb_queued q x |} |> in
  notify_if true b1.

Definition event_deferred_cb_cancel (b : event_base) (cb : nat) : option event_base :=
  let q := defer_queue b in
  if cb_queued q cb then
    l ← tailq_remove cb (deferred_cb_list q);
    Some (b <| defer_queue :=
      {| active_count := active_count q - 1; deferred_cb_list := l;
         cb_queued := fun x => if decide (x = cb) then false else cb_queued q x |} |>)
  else Some b.
End EventCore.
