(* ===== verification/EventLoop.v ===== *)
(** The event loop ([event.c]): running the callbacks of the active events and
    of the deferred queue, and the loop of [event_base_loop]. *)

From S2P Require Import Prelude MinHeap EventData Evmap EventCore.

(** What a callback does to the base: its address, then [fd], [res] and [arg].
    The callbacks are the program's that uses the library. *)
Definition callbacks : Type := nat -> Z -> Z -> nat -> event_base -> option event_base.

Section EventLoop.
Context (E : env) (user : callbacks).

Definition run_callback (b : event_base) (e : evid) : option event_base :=
  let ev := structs b e in
  if decide (ev_callback ev = COMMON_TIMEOUT_CALLBACK)
  then common_timeout_callback E b (ev_arg ev)
  else user (ev_callback ev) (ev_fd ev) (ev_res ev) (ev_arg ev) b.

(** ** Closures *)

(** The loop counter is the one of the running closure, which a callback can
    clear through [ev_pncalls]. *)
Fixpoint signal_closure_loop (fuel : nat) (b : event_base) (e : evid) : option event_base :=
  match fuel with
  | O => None
  | S fuel' =>
    '(f, ncalls) ← signal_closure b;
    if ncalls =? 0 then Some b else
    let ncalls' := ncalls - 1 in
    let b1 := upd_event e (fun ev =>
                let ev' := ev <| ev_ncalls := ncalls' |> in
                if ncalls' =? 0 then ev' <| ev_pncalls := None |> else ev')
              (b <| signal_closure := Some (f, ncalls') |>) in
    b2 ← run_callback b1 e;
    '(_, ncalls2) ← signal_closure b2;
    if event_break b2 then
      Some (if ncalls2 =? 0 then b2
            else upd_event e (fun ev => ev <| ev_pncalls := None |>) b2)
    else signal_closure_loop fuel' b2 e
  end.

Definition event_signal_closure (b : event_base) (e : evid) : option event_base :=
  let f := closures_run b in
  let ncalls := ev_ncalls (structs b e) in
  let b1 := b <| signal_closure := Some (f, ncalls) |> <| closures_run := S f |> in
  let b2 := if ncalls =? 0 then b1
            else upd_event e (fun ev => ev <| ev_pncalls := Some f |>) b1 in
  b3 ← signal_closure_loop (S (Z.to_nat ncalls)) b2 e;
  Some (b3 <| signal_closure := None |>).

(** The next time a persistent event with an interval runs. *)
Definition persist_run_at (b : event_base) (e : evid) (now : timeval) : timeval :=
  let ev := structs b e in
  let common := is_common_timeout (timeout_of b e) b in
  let delay := if common then mask_usec (ev_io_timeout ev) else ev_io_timeout ev in
  let usec_mask := if common
    then wrap 32 (Z.land (tv_usec (ev_io_timeout ev)) (Z.lnot MICROSECONDS_MASK)) else 0 in
  let relative_to :=
    if has (ev_res ev) EV_TIMEOUT
    then (if common then mask_usec (timeout_of b e) else timeout_of b e) else now in
  let run_at := evutil_timeradd relative_to delay in
  let run_at' := if timercmp_gt now run_at then evutil_timeradd now delay else run_at in
  {| tv_sec := tv_sec run_at'; tv_usec := Z.lor (tv_usec run_at') usec_mask |}.

Definition event_persist_closure (b : event_base) (e : evid) : option event_base :=
  let ev := structs b e in
  b' ← (if evutil_timerisset (ev_io_timeout ev) then
          if negb (is_same_common_timeout (timeout_of b e) (ev_io_timeout ev)) then None else
          let '(now, b1) := gettime E b in
          now' ← now;
          '(_, b2) ← event_add_internal E b1 e (Some (persist_run_at b1 e now')) true;
          Some b2
        else Some b);
  run_callback b' e.

Definition run_closure (b : event_base) (e : evid) : option event_base :=
  let c := ev_closure (structs b e) in
  if c =? EV_CLOSURE_SIGNAL then event_signal_closure b e else
  if c =? EV_CLOSURE_PERSIST then event_persist_closure b e else
  run_callback b e.

(** ** Active events *)

Fixpoint process_queue_loop (fuel : nat) (b : event_base) (i : nat) (count : Z)
  : option (Z * event_base) :=
  match fuel with
  | O => None
  | S fuel' =>
    q ← activequeues b !! i;
    match head q with
    | None => Some (count, b)
    | Some e =>
      b1 ← (if has (ev_events (structs b e)) EV_PERSIST
            then event_queue_remove E b e EVLIST_ACTIVE
            else snd <$> event_del_internal E b e);
      let count' := if flag b1 e EVLIST_INTERNAL then count else count + 1 in
      let b2 := b1 <| current_event := Some e |> <| current_event_waiters := 0 |> in
      b3 ← run_closure b2 e;
      let b4 := b3 <| current_event := None |> <| current_event_waiters := 0 |> in
      if event_break b4 then Some (-1, b4) else
      if event_continue b4 then Some (count', b4) else
      process_queue_loop fuel' b4 i count'
    end
  end.

Definition event_process_active_single_queue (fuel : nat) (b : event_base) (i : nat)
  : option (Z * event_base) := process_queue_loop fuel b i 0.

Definition MAX_DEFERRED : nat := 16.

(** At most [MAX_DEFERRED] callbacks run; [deferred] is what each does. *)
Fixpoint deferred_loop (deferred : nat -> event_base -> option event_base)
    (left : nat) (b : event_base) (count : Z) : option (Z * event_base) :=
  match left with
  | O => Some (count, b)
  | S left' =>
    let q := defer_queue b in
    match deferred_cb_list q with
    | [] => Some (count, b)
    | cb :: l =>
      let b1 := b <| defer_queue :=
        {| active_count := active_count q - 1; deferred_cb_list := l;
           cb_queued := fun x => if decide (x = cb) then false else cb_queued q x |} |> in
      b2 ← deferred cb b1;
      if event_break b2 then Some (-1, b2) else deferred_loop deferred left' b2 (count + 1)
    end
  end.

Definition event_process_deferred_callbacks (deferred : nat -> event_base -> option event_base)
    (b : event_base) : option (Z * event_base) := deferred_loop deferred MAX_DEFERRED b 0.

(** The queues from priority [i] on. *)
Fixpoint process_priorities (fuel : nat) (left i : nat) (b : event_base) (c : Z)
  : option (Z * event_base) :=
  match left with
  | O => Some (c, b)
  | S left' =>
    q ← activequeues b !! i;
    match q with
    | [] => process_priorities fuel left' (S i) b c
    | _ :: _ =>
      '(c', b') ← event_process_active_single_queue fuel
                    (b <| event_running_priority := Z.of_nat i |>) i;
      if c' <? 0 then Some (-1, b') else
      if 0 <? c' then Some (c', b') else
      process_priorities fuel left' (S i) b' c'
    end
  end.

Definition event_process_active (fuel : nat)
    (deferred : nat -> event_base -> option event_base) (b : event_base)
  : option (Z * event_base) :=
  '(c, b1) ← process_priorities fuel (length (activequeues b)) 0 b 0;
  if c <? 0 then Some (-1, b1 <| event_running_priority := -1 |>) else
  '(_, b2) ← event_process_deferred_callbacks deferred b1;
  Some (c, b2 <| event_running_priority := -1 |>).
End EventLoop.

(** ** The loop *)

Definition EVLOOP_ONCE : Z := 1.
Definition EVLOOP_NONBLOCK : Z := 2.

Section BaseLoop.
Context (user : callbacks) (deferred : nat -> event_base -> option event_base).

(** [evsel->dispatch]: the backend waits and marks events as active. *)
Context (dispatch : event_base -> option timeval -> option (Z * event_base)).

(** What an iteration ends with. *)
Inductive outcome := Continue (b : event_base) | Exit (retval : Z) (b : event_base).

(** The clock and the allocator answer [E] during the iteration.  [tv] holds
    the time [timeout_correct] read; with a monotonic clock it is not set, and
    a failing [timeout_next] leaves it so. *)
Definition loop_iteration (fuel : nat) (E : env) (flags : Z) (b0 : event_base) : option outcome :=
  let b := b0 <| event_continue := false |> in
  if event_gotterm b then Some (Exit 0 b) else
  if event_break b then Some (Exit 0 b) else
  b1 ← timeout_correct E b;
  '(tv_p, b2) ← (if (N_ACTIVE_CALLBACKS b1 =? 0) && negb (has flags EVLOOP_NONBLOCK)
                 then '(r, t, b') ← timeout_next E b1 (event_tv b1);
                      if (r =? -1) && use_monotonic E then None else Some (t, b')
                 else Some (Some evutil_timerclear, b1));
  if negb (event_haveevents b2) && (N_ACTIVE_CALLBACKS b2 =? 0) then Some (Exit 1 b2) else
  let '(now, b3) := gettime E b2 in
  let b4 := match now with Some t => b3 <| event_tv := t |> | None => b3 end in
  '(res, b5) ← dispatch (clear_time_cache b4) tv_p;
  if res =? -1 then Some (Exit (-1) b5) else
  b6 ← timeout_process E (update_time_cache E b5);
  if negb (N_ACTIVE_CALLBACKS b6 =? 0) then
    '(n, b7) ← event_process_active E user fuel deferred b6;
    Some (if has flags EVLOOP_ONCE && (N_ACTIVE_CALLBACKS b7 =? 0) && negb (n =? 0)
          then Exit 0 b7 else Continue b7)
  else Some (if has flags EVLOOP_NONBLOCK then Exit 0 b6 else Continue b6).

(** [envs] lists the environments of the iterations that may run. *)
Fixpoint loop_iterations (fuel : nat) (envs : list env) (flags : Z) (b : event_base)
  : option (Z * event_base) :=
  match envs with
  | [] => None
  | E :: envs' =>
    o ← loop_iteration fuel E flags b;
    match o with
    | Exit r b' => Some (r, b')
    | Continue b' => loop_iterations fuel envs' flags b'
    end
  end.

Definition event_base_loop (fuel : nat) (envs : list env) (flags : Z) (b : event_base)
  : option (Z * event_base) :=
  if running_loop b then Some (-1, b) else
  let b1 := clear_time_cache (b <| running_loop := true |>) in
  let b2 := b1 <| event_gotterm := false |> <| event_break := false |> in
  '(r, b3) ← loop_iterations fuel envs flags b2;
  Some (r, (clear_time_cache b3) <| running_loop := false |>).
End BaseLoop.

Definition event_base_loopbreak (E : env) (b : event_base) : event_base :=
  notify_if E true (b <| event_break := true |>).

(** The callback of [event_base_loopexit]. *)
Definition event_loopexit_cb (b : event_base) : event_base := b <| event_gotterm := true |>.
