(* ===== verification/EventQueue.v ===== *)
(** The queues of an event base: the invariant that ties the flags of the
    events to the queues they are on and to the counters, and its preservation
    by [event_queue_insert] and [event_queue_remove]. *)

From S2P Require Import Prelude MinHeap EventData Evmap EventCore.

(** ** Flags *)

Lemma has_lor f m q : has (Z.lor f m) q = has f q || has m q.
Proof.
  unfold has. rewrite Z.land_lor_distr_l, <- negb_andb. f_equal.
  apply eq_true_iff_eq. rewrite andb_true_iff, !Z.eqb_eq, Z.lor_eq_0_iff. done.
Qed.

Lemma has_clear_other f m q : Z.land m q = 0 -> has (Z.land f (Z.lnot m)) q = has f q.
Proof.
  intros Hq. unfold has. do 2 f_equal. rewrite <- Z.land_assoc. f_equal.
  apply Z.bits_inj'. intros i Hi. rewrite Z.land_spec, Z.lnot_spec by done.
  assert (Hb : Z.testbit (Z.land m q) i = false) by (by rewrite Hq, Z.bits_0).
  rewrite Z.land_spec in Hb. by destruct (Z.testbit m i), (Z.testbit q i).
Qed.

Lemma has_clear_same f m : has (Z.land f (Z.lnot m)) m = false.
Proof.
  unfold has. rewrite <- Z.land_assoc, (Z.land_comm (Z.lnot m)), Z.land_lnot_diag.
  by rewrite Z.land_0_r.
Qed.

Lemma has_bit f k : 0 <= k -> has f (2 ^ k) = Z.testbit f k.
Proof.
  intros Hk. unfold has. destruct (Z.eqb_spec (Z.land f (2 ^ k)) 0) as [H|H].
  - apply (f_equal (fun z => Z.testbit z k)) in H.
    by rewrite Z.land_spec, Z.bits_0, Z.pow2_bits_true, andb_true_r in H by done.
  - destruct (Z.testbit f k) eqn:Hf; [done|]. exfalso. apply H, Z.bits_inj'. intros i Hi.
    rewrite Z.land_spec, Z.bits_0, Z.pow2_bits_eqb by done.
    destruct (Z.eqb_spec k i) as [->|]; [by rewrite Hf | apply andb_false_r].
Qed.

Lemma has_lnot_bit f k : 0 <= k -> has (Z.lnot f) (2 ^ k) = negb (has f (2 ^ k)).
Proof. intros Hk. by rewrite !has_bit, Z.lnot_spec by done. Qed.

(** [a && b] of two masks is tested bit by bit. *)
Lemma has_mask_lor f m q : has f (Z.lor m q) = has f m || has f q.
Proof. unfold has. rewrite Z.land_comm, (Z.land_comm f m), (Z.land_comm f q). apply has_lor. Qed.

Lemma not_internal f : has (Z.lnot f) EVLIST_INTERNAL = negb (has f EVLIST_INTERNAL).
Proof. by apply (has_lnot_bit f 4). Qed.

(** ** Lists *)

Lemma tailq_remove_spec x q :
  x ∈ q -> exists q', tailq_remove x q = Some q' /\ q ≡ₚ x :: q' /\
    (NoDup q -> forall y, y ∈ q' <-> y ∈ q /\ y <> x) /\ sublist q' q.
Proof.
  induction q as [|y q IH]; [by intros ?%not_elem_of_nil|]. intros Hx. cbn [tailq_remove].
  destruct (decide (y = x)) as [->|Hyx].
  - exists q. split; [done|]. split; [done|]. split; [|by constructor].
    intros [Hn Hd]%list.NoDup_cons z. rewrite elem_of_cons. split; [|(tauto || intuition congruence)].
    intros Hz. split; [by right|]. by intros ->.
  - apply elem_of_cons in Hx as [->|Hx]; [done|].
    destruct (IH Hx) as (q' & -> & Hp & Hm & Hs). exists (y :: q'). split; [done|].
    split; [rewrite Hp; apply Permutation_swap|]. split; [|by constructor].
    intros [Hn Hd]%list.NoDup_cons z. rewrite !elem_of_cons, (Hm Hd). (tauto || intuition congruence).
Qed.

(** A list less one element. *)
Definition without (e : evid) (q : list evid) : list evid := filter (fun x => x <> e) q.

Lemma without_absent e q : e ∉ q -> without e q = q.
Proof.
  unfold without. induction q as [|x q IH]; [done|]. intros [Hx Hq]%not_elem_of_cons.
  rewrite filter_cons_True by done. by rewrite IH.
Qed.

Lemma tailq_remove_without e q q' : NoDup q -> tailq_remove e q = Some q' -> q' = without e q.
Proof.
  revert q'. induction q as [|x q IH]; [done|]. intros q' [Hx Hq]%list.NoDup_cons. cbn [tailq_remove].
  unfold without. destruct (decide (x = e)) as [->|Hne].
  - intros [= <-]. rewrite filter_cons_False by tauto. symmetry. by apply without_absent.
  - rewrite filter_cons_True by done. destruct (tailq_remove e q) as [r|]; [|done].
    intros [= <-]. f_equal. by apply IH.
Qed.

(** ** The events of the heap *)

Lemma elem_of_heap_events st s x : heap_core st s -> x ∈ heap_events s <-> in_heap s x.
Proof.
  intros [Ha Hn Hp _]. unfold heap_events. rewrite list_elem_of_omap. split.
  - intros (o & Ho & Hx). cbn in Hx. subst o. apply list_elem_of_lookup in Ho as [i Hi].
    apply lookup_take_Some in Hi as [Hi Hlt]. exists i. split; [done|].
    unfold slot. by rewrite Hi.
  - intros (i & Hi & Hx). exists (Some x). split; [|done].
    apply list_elem_of_lookup. exists i. apply lookup_take_Some. split; [|done].
    unfold slot in Hx. destruct (p s !! i) as [o|]; [|done]. cbn in Hx. by subst o.
Qed.

(** Every listed event knows its position in the list. *)
Lemma omap_positions st (l : list (option evid)) m :
  (forall i o, l !! i = Some o -> exists x, o = Some x /\
     min_heap_idx (st x) = Z.of_nat (m + i)) ->
  forall i x, omap id l !! i = Some x -> min_heap_idx (st x) = Z.of_nat (m + i).
Proof.
  revert m. induction l as [|o l IH]; [done|]. intros m Hm i x.
  destruct (Hm 0%nat o eq_refl) as (y & -> & Hy). cbn. destruct i as [|i]; cbn.
  - intros [= <-]. done.
  - intros Hi. rewrite (IH (S m)) with (i := i); [f_equal; lia | | done].
    intros j o Hj. destruct (Hm (S j) o Hj) as (z & -> & Hz). exists z.
    split; [done|]. rewrite Hz. f_equal. lia.
Qed.

Lemma heap_events_NoDup st s : heap_core st s -> NoDup (heap_events s).
Proof.
  intros Hc. apply NoDup_alt. unfold heap_events.
  assert (Hg := omap_positions st (take (n s) (p s)) 0). cbn [Nat.add] in Hg.
  assert (Hp : forall i o, take (n s) (p s) !! i = Some o ->
            exists x, o = Some x /\ min_heap_idx (st x) = Z.of_nat i).
  { intros k o [Hk Hlt]%lookup_take_Some.
    destruct (hi_pos _ _ Hc k Hlt) as (y & Hy & Hyi). exists y. split; [|done].
    unfold slot in Hy. rewrite Hk in Hy. by cbn in Hy. }
  intros i j x Hi Hj. apply (Hg Hp) in Hi. apply (Hg Hp) in Hj. lia.
Qed.

(** Heaps that differ by one event list the same events up to it. *)
Lemma heap_events_add st s st' s' e :
  heap_core st s -> heap_core st' s' -> ~ in_heap s e ->
  (forall x, in_heap s' x <-> x = e \/ in_heap s x) ->
  heap_events s' ≡ₚ e :: heap_events s.
Proof.
  intros H H' He Hm. apply NoDup_Permutation.
  - by eapply heap_events_NoDup.
  - constructor; [by rewrite elem_of_heap_events | by eapply heap_events_NoDup].
  - intros x. rewrite elem_of_cons, !elem_of_heap_events by done. apply Hm.
Qed.

(** ** A queue holds exactly the events with a property *)

Definition lists_exactly (q : list evid) (P : evid -> Prop) : Prop :=
  NoDup q /\ forall e, e ∈ q <-> P e.

Lemma lists_exactly_ext q P Q :
  (forall e, P e <-> Q e) -> lists_exactly q P -> lists_exactly q Q.
Proof. intros H [Hn Hq]. split; [done|]. intros e. by rewrite Hq. Qed.

Lemma lists_exactly_remove q P e :
  lists_exactly q P -> P e ->
  exists q', tailq_remove e q = Some q' /\ q ≡ₚ e :: q' /\
    lists_exactly q' (fun x => P x /\ x <> e).
Proof.
  intros [Hn Hq] He. destruct (tailq_remove_spec e q) as (q' & Hr & Hp & Hm & Hs).
  { by apply Hq. }
  exists q'. split; [done|]. split; [done|]. split.
  - rewrite Hp in Hn. by apply list.NoDup_cons in Hn as [_ Hn].
  - intros x. by rewrite Hm, Hq by done.
Qed.

Lemma lists_exactly_perm q q' P e :
  q' ≡ₚ e :: q -> lists_exactly q P -> ~ P e ->
  lists_exactly q' (fun x => P x \/ x = e).
Proof.
  intros Hp [Hn Hq] He. split.
  - rewrite Hp. apply list.NoDup_cons. by rewrite Hq.
  - intros x. rewrite Hp, elem_of_cons, Hq. tauto.
Qed.

Lemma snoc_perm {A} (q : list A) e : q ++ [e] ≡ₚ e :: q.
Proof. rewrite Permutation_app_comm. done. Qed.

(** ** The invariant *)

Definition active_all (b : event_base) : list evid := concat (activequeues b).

Definition common_all (b : event_base) : list evid :=
  concat (ctl_events <$> common_timeout_queues b).

(** Every place of every event in a queue. *)
Definition counted (b : event_base) : list evid :=
  eventqueue b ++ active_all b ++ heap_events (timeheap b) ++ common_all b.

Definition n_external (b : event_base) (l : list evid) : Z :=
  zlen (filter (fun e => internal b e = false) l).

(** The upper bits of the microseconds of a timeout on common list [i]. *)
Definition common_mark (i : nat) : Z :=
  Z.lor COMMON_TIMEOUT_MAGIC (Z.shiftl (Z.of_nat i) COMMON_TIMEOUT_IDX_SHIFT).

Definition marked (tv : timeval) : Prop :=
  Z.land (tv_usec tv) (Z.lnot MICROSECONDS_MASK) = common_mark (common_idx tv).

Definition waits_on_common (b : event_base) (i : nat) (e : evid) : Prop :=
  flag b e EVLIST_TIMEOUT = true /\ is_common_timeout (timeout_of b e) b = true /\
  common_idx (timeout_of b e) = i.

Record queue_inv (b : event_base) : Prop := {
  qi_heap : heap_core (timers b) (timeheap b);
  qi_timed : forall e, in_heap (timeheap b) e <->
    flag b e EVLIST_TIMEOUT = true /\ is_common_timeout (timeout_of b e) b = false;
  qi_common : forall i c, common_timeout_queues b !! i = Some c ->
    lists_exactly (ctl_events c) (waits_on_common b i);
  qi_inserted : lists_exactly (eventqueue b) (fun e => flag b e EVLIST_INSERTED = true);
  qi_active : forall i q, activequeues b !! i = Some q ->
    lists_exactly q (fun e => flag b e EVLIST_ACTIVE = true /\
                              ev_pri (structs b e) = Z.of_nat i);
  qi_pri : forall e, flag b e EVLIST_ACTIVE = true ->
    0 <= ev_pri (structs b e) < zlen (activequeues b);
  qi_marked : forall e, flag b e EVLIST_TIMEOUT = true ->
    is_common_timeout (timeout_of b e) b = true -> marked (timeout_of b e);
  qi_flags : forall e, flag b e (Z.lnot EVLIST_ALL) = false;
  qi_active_count : event_count_active b = zlen (active_all b);
  qi_count : event_count b = n_external b (counted b) }.

(** The part of the base that no queue operation touches. *)
Definition untouched (b : event_base) :=
  (defer_queue b, io b, sigmap b, backend_log b, signal_closure b, closures_run b,
   current_event b, running_loop b, event_running_priority b, event_continue b,
   event_break b, event_gotterm b,
   (tv_cache b, tv_clock_diff b, last_updated_clock_diff b, event_tv b, no_cache_time b,
    is_notify_pending b, th_notify_fn b, wakeups b, virtual_event_count b, n_common_timeouts_allocated b)).

Definition ctl_shape (b : event_base) : list (timeval * evid) :=
  (fun c => (ctl_duration c, ctl_timeout_event c)) <$> common_timeout_queues b.

(** What putting event [e] on a queue or taking it off leaves: its flags are
    [f], and nothing else of any event and no timeout has changed. *)
Record requeued (e : evid) (f : Z) (b b' : event_base) : Prop := {
  rq_structs : forall x, structs b' x =
    if decide (x = e) then (structs b x) <| ev_flags := f |> else structs b x;
  rq_timeouts : forall x, timeout_of b' x = timeout_of b x;
  rq_untouched : untouched b' = untouched b;
  rq_shape : ctl_shape b' = ctl_shape b;
  rq_priorities : length (activequeues b') = length (activequeues b) }.

Lemma shape_common b b' tv :
  ctl_shape b' = ctl_shape b -> is_common_timeout tv b' = is_common_timeout tv b.
Proof.
  intros H. apply (f_equal length) in H. unfold ctl_shape in H. rewrite !length_fmap in H.
  unfold is_common_timeout, n_common_timeouts, zlen. by rewrite H.
Qed.

(** ** What a queue operation keeps *)

Section Kept.
Context (b b' : event_base) (e : evid) (f : Z).
Hypotheses (Hq : queue_inv b) (Hr : requeued e f b b').

Lemma rq_flag x m : flag b' x m = if decide (x = e) then has f m else flag b x m.
Proof. unfold flag. rewrite (rq_structs _ _ _ _ Hr). by destruct (decide (x = e)). Qed.

Lemma rq_flag_ne x m : x <> e -> flag b' x m = flag b x m.
Proof. intros Hx. by rewrite rq_flag, decide_False. Qed.

Lemma rq_flag_eq m : flag b' e m = has f m.
Proof. by rewrite rq_flag, decide_True. Qed.

Lemma rq_keep m : has f m = flag b e m -> forall x, flag b' x m = flag b x m.
Proof. intros H x. rewrite rq_flag. by destruct (decide (x = e)) as [->|]. Qed.

Lemma rq_pri x : ev_pri (structs b' x) = ev_pri (structs b x).
Proof. rewrite (rq_structs _ _ _ _ Hr). by destruct (decide (x = e)). Qed.

Lemma rq_common tv : is_common_timeout tv b' = is_common_timeout tv b.
Proof. apply shape_common, Hr. Qed.

Section Timeout.
Hypothesis Ht : has f EVLIST_TIMEOUT = flag b e EVLIST_TIMEOUT.

Lemma kept_timed : timeheap b' = timeheap b -> forall x, in_heap (timeheap b') x <->
  flag b' x EVLIST_TIMEOUT = true /\ is_common_timeout (timeout_of b' x) b' = false.
Proof.
  intros -> x. rewrite (rq_keep _ Ht), rq_common, (rq_timeouts _ _ _ _ Hr). apply Hq.
Qed.

Lemma kept_waits i x : waits_on_common b' i x <-> waits_on_common b i x.
Proof.
  unfold waits_on_common. by rewrite (rq_keep _ Ht), rq_common, (rq_timeouts _ _ _ _ Hr).
Qed.

Lemma kept_common : common_timeout_queues b' = common_timeout_queues b ->
  forall i c, common_timeout_queues b' !! i = Some c ->
  lists_exactly (ctl_events c) (waits_on_common b' i).
Proof.
  intros -> i c Hc. eapply lists_exactly_ext; [|by apply Hq].
  intros x. symmetry. apply kept_waits.
Qed.

Lemma kept_marked x : flag b' x EVLIST_TIMEOUT = true ->
  is_common_timeout (timeout_of b' x) b' = true -> marked (timeout_of b' x).
Proof. rewrite (rq_keep _ Ht), rq_common, (rq_timeouts _ _ _ _ Hr). apply Hq. Qed.
End Timeout.

Lemma kept_inserted :
  has f EVLIST_INSERTED = flag b e EVLIST_INSERTED -> eventqueue b' = eventqueue b ->
  lists_exactly (eventqueue b') (fun x => flag b' x EVLIST_INSERTED = true).
Proof.
  intros Hi ->. eapply lists_exactly_ext; [|by apply Hq].
  intros x. cbn. by rewrite (rq_keep _ Hi).
Qed.

Section Active.
Hypothesis Ha : has f EVLIST_ACTIVE = flag b e EVLIST_ACTIVE.

Lemma kept_active : activequeues b' = activequeues b ->
  forall i q, activequeues b' !! i = Some q ->
  lists_exactly q (fun x => flag b' x EVLIST_ACTIVE = true /\
                            ev_pri (structs b' x) = Z.of_nat i).
Proof.
  intros -> i q Hi. eapply lists_exactly_ext; [|by apply (qi_active _ Hq)].
  intros x. cbn. by rewrite (rq_keep _ Ha), rq_pri.
Qed.

Lemma kept_pri x : flag b' x EVLIST_ACTIVE = true ->
  0 <= ev_pri (structs b' x) < zlen (activequeues b').
Proof.
  rewrite (rq_keep _ Ha), rq_pri. unfold zlen. rewrite (rq_priorities _ _ _ _ Hr).
  apply Hq.
Qed.
End Active.

Lemma kept_flags : has f (Z.lnot EVLIST_ALL) = false -> forall x, flag b' x (Z.lnot EVLIST_ALL) = false.
Proof.
  intros Hf x. rewrite rq_flag. destruct (decide (x = e)); [done|]. apply Hq.
Qed.

(** The count of the external events follows the lists. *)
Lemma count_add : has f EVLIST_INTERNAL = internal b e ->
  counted b' ≡ₚ e :: counted b ->
  n_external b' (counted b') = event_count b + (if internal b e then 0 else 1).
Proof.
  intros Hi Hp. rewrite (qi_count _ Hq). unfold n_external, zlen.
  rewrite (list_filter_iff _ (fun x => internal b x = false)).
  - rewrite Hp, filter_cons. case_decide; destruct (internal b e); cbn [length]; (done || lia).
  - intros x. unfold internal. by rewrite (rq_keep _ Hi).
Qed.

Lemma count_sub : has f EVLIST_INTERNAL = internal b e ->
  counted b ≡ₚ e :: counted b' ->
  n_external b' (counted b') = event_count b - (if internal b e then 0 else 1).
Proof.
  intros Hi Hp. rewrite (qi_count _ Hq). unfold n_external, zlen. rewrite Hp.
  rewrite (list_filter_iff _ (fun x => internal b x = false) (counted b')).
  - rewrite filter_cons. case_decide; destruct (internal b e); cbn [length]; (done || lia).
  - intros x. unfold internal. by rewrite (rq_keep _ Hi).
Qed.
End Kept.

(** ** Removing *)

Lemma uncount b e :
  (if has (Z.lnot (ev_flags (structs b e))) EVLIST_INTERNAL
   then b <| event_count := event_count b - 1 |> else b) =
  b <| event_count := event_count b - (if internal b e then 0 else 1) |>.
Proof.
  rewrite not_internal. change (has (ev_flags (structs b e)) EVLIST_INTERNAL) with (internal b e).
  destruct (internal b e); [|done]. destruct b. cbn. unfold assign. cbn. f_equal. lia.
Qed.

Lemma count_up b e :
  (if has (Z.lnot (ev_flags (structs b e))) EVLIST_INTERNAL
   then b <| event_count := event_count b + 1 |> else b) =
  b <| event_count := event_count b + (if internal b e then 0 else 1) |>.
Proof.
  rewrite not_internal. change (has (ev_flags (structs b e)) EVLIST_INTERNAL) with (internal b e).
  destruct (internal b e); [|done]. destruct b. cbn. unfold assign. cbn. f_equal. lia.
Qed.

Lemma active_swap (qs : list (list evid)) i q q' e :
  qs !! i = Some q -> q ≡ₚ e :: q' -> concat qs ≡ₚ e :: concat (<[i := q']> qs).
Proof.
  intros Hi Hp. destruct (concat_insert qs i q q' Hi) as (r & H1 & H2).
  by rewrite H1, H2, Hp.
Qed.

Definition cleared (b : event_base) (e : evid) (q : Z) : Z :=
  Z.land (ev_flags (structs b e)) (Z.lnot q).

Lemma cleared_all b e q : queue_inv b -> has (cleared b e q) (Z.lnot EVLIST_ALL) = false.
Proof.
  intros Hq. pose proof (qi_flags _ Hq e) as Hf. unfold flag, has, cleared in *.
  rewrite <- Z.land_assoc, (Z.land_comm (Z.lnot q)), Z.land_assoc.
  destruct (Z.eqb_spec (Z.land (ev_flags (structs b e)) (Z.lnot EVLIST_ALL)) 0) as [->|]; done.
Qed.

Ltac requeue :=
  split; [intros x; cbn; by destruct (decide (x = _)) as [->|] | intros; try done..].

Lemma remove_inserted E b e :
  queue_inv b -> flag b e EVLIST_INSERTED = true ->
  exists b', event_queue_remove E b e EVLIST_INSERTED = Some b' /\ queue_inv b' /\
    requeued e (cleared b e EVLIST_INSERTED) b b' /\
    timeheap b' = timeheap b /\ common_timeout_queues b' = common_timeout_queues b.
Proof.
  intros Hq He. unfold event_queue_remove. rewrite He, uncount. cbn [negb].
  rewrite Z.eqb_refl. destruct (lists_exactly_remove _ _ e (qi_inserted _ Hq) He)
    as (q & Hrm & Hp & Hl).
  cbn [eventqueue upd_event assign]. rewrite Hrm. cbn [mbind option_bind].
  eexists. split; [done|].
  match goal with |- queue_inv ?x /\ _ => set (b' := x) end.
  assert (Hr : requeued e (cleared b e EVLIST_INSERTED) b b') by requeue.
  split; [|done].
  assert (Hc : forall m, Z.land EVLIST_INSERTED m = 0 ->
            has (cleared b e EVLIST_INSERTED) m = flag b e m).
  { intros m. apply has_clear_other. }
  split; try done.
  - apply Hq.
  - by apply (kept_timed b b' e _ Hq Hr (Hc EVLIST_TIMEOUT eq_refl)).
  - by apply (kept_common b b' e _ Hq Hr (Hc EVLIST_TIMEOUT eq_refl)).
  - eapply lists_exactly_ext; [|exact Hl]. intros x. cbn.
    rewrite (rq_flag b b' e _ Hr). unfold cleared. rewrite has_clear_same.
    destruct (decide (x = e)); (tauto || intuition congruence).
  - by apply (kept_active b b' e _ Hq Hr (Hc EVLIST_ACTIVE eq_refl)).
  - apply (kept_pri b b' e _ Hq Hr (Hc EVLIST_ACTIVE eq_refl)).
  - apply (kept_marked b b' e _ Hq Hr (Hc EVLIST_TIMEOUT eq_refl)).
  - apply (kept_flags b b' e _ Hq Hr). by apply cleared_all.
  - apply Hq.
  - rewrite (count_sub b b' e _ Hq Hr (Hc EVLIST_INTERNAL eq_refl)); [done|].
    unfold counted. cbn. by rewrite Hp.
Qed.

Lemma remove_active E b e :
  queue_inv b -> flag b e EVLIST_ACTIVE = true ->
  exists b', event_queue_remove E b e EVLIST_ACTIVE = Some b' /\ queue_inv b' /\
    requeued e (cleared b e EVLIST_ACTIVE) b b' /\
    timeheap b' = timeheap b /\ common_timeout_queues b' = common_timeout_queues b.
Proof.
  intros Hq He. unfold event_queue_remove. rewrite He, uncount. cbn [negb].
  pose proof (qi_pri _ Hq e He) as Hpri. unfold zlen in Hpri.
  set (i := Z.to_nat (ev_pri (structs b e))).
  destruct (lookup_lt_is_Some_2 (activequeues b) i) as [q Hi]; [lia|].
  destruct (lists_exactly_remove _ _ e (qi_active _ Hq i q Hi)) as (q' & Hrm & Hp & Hl).
  { split; [done | lia]. }
  cbn [activequeues structs upd_event assign]. rewrite decide_True by done.
  change (ev_pri (assign _ _)) with (ev_pri (structs b e)). fold i.
  change (EVLIST_ACTIVE =? EVLIST_INSERTED) with false. rewrite Z.eqb_refl.
  rewrite Hi. cbn [mbind option_bind]. rewrite Hrm. cbn [mbind option_bind].
  eexists. split; [done|].
  match goal with |- queue_inv ?x /\ _ => set (b' := x) end.
  assert (Hr : requeued e (cleared b e EVLIST_ACTIVE) b b').
  { requeue. apply length_insert. }
  split; [|done].
  assert (Hc : forall m, Z.land EVLIST_ACTIVE m = 0 ->
            has (cleared b e EVLIST_ACTIVE) m = flag b e m).
  { intros m. apply has_clear_other. }
  assert (Hf : forall x, flag b' x EVLIST_ACTIVE = true <->
                 flag b x EVLIST_ACTIVE = true /\ x <> e).
  { intros x. rewrite (rq_flag b b' e _ Hr). unfold cleared. rewrite has_clear_same.
    destruct (decide (x = e)); (tauto || intuition congruence). }
  split; try done.
  - apply Hq.
  - by apply (kept_timed b b' e _ Hq Hr (Hc EVLIST_TIMEOUT eq_refl)).
  - by apply (kept_common b b' e _ Hq Hr (Hc EVLIST_TIMEOUT eq_refl)).
  - by apply (kept_inserted b b' e _ Hq Hr (Hc EVLIST_INSERTED eq_refl)).
  - intros j r. change (activequeues b') with (<[i := q']> (activequeues b)). intros Hj.
    apply list_lookup_insert_Some in Hj as [(<- & <- & _) | [Hij Hj]];
      (eapply lists_exactly_ext; [|first [exact Hl | exact (qi_active _ Hq j r Hj)]]);
      intros x; cbn beta; rewrite Hf, (rq_pri b b' e _ Hr); [(tauto || intuition congruence)|].
    split; [|(tauto || intuition congruence)]. intros [Ha Hx]. split; [split; [done|]|done]. intros ->. lia.
  - intros x [Hx _]%Hf. rewrite (rq_pri b b' e _ Hr). unfold zlen.
    rewrite (rq_priorities _ _ _ _ Hr). by apply Hq.
  - apply (kept_marked b b' e _ Hq Hr (Hc EVLIST_TIMEOUT eq_refl)).
  - apply (kept_flags b b' e _ Hq Hr). by apply cleared_all.
  - cbn. rewrite (qi_active_count _ Hq). unfold active_all, zlen. cbn.
    rewrite (active_swap _ i q q' e Hi Hp). cbn [length]. lia.
  - rewrite (count_sub b b' e _ Hq Hr (Hc EVLIST_INTERNAL eq_refl)); [done|].
    unfold counted, active_all. cbn. rewrite (active_swap _ i q q' e Hi Hp).
    symmetry. apply Permutation_middle.
Qed.

(** The lists after [set_common_events]. *)
Lemma common_events_set b i q :
  ctl_events <$> common_timeout_queues (set_common_events b i q) =
    <[i := q]> (ctl_events <$> common_timeout_queues b).
Proof.
  apply list_eq. intros j. cbn. rewrite list_insert_alter, list_lookup_fmap, !list_lookup_alter,
    !list_lookup_fmap. case_decide; by destruct (common_timeout_queues b !! _).
Qed.

Lemma common_shape_set b i q : ctl_shape (set_common_events b i q) = ctl_shape b.
Proof.
  unfold ctl_shape. apply list_eq. intros j. cbn. rewrite !list_lookup_fmap, list_lookup_alter.
  case_decide; subst; by destruct (common_timeout_queues b !! _).
Qed.

Lemma common_lookup_set b i q j c :
  common_timeout_queues (set_common_events b i q) !! j = Some c ->
  exists c0, common_timeout_queues b !! j = Some c0 /\ ctl_events c = (if decide (i = j) then q else ctl_events c0).
Proof.
  cbn. rewrite list_lookup_alter. case_decide; subst.
  - intros (c0 & Hc & ->)%fmap_Some. by exists c0.
  - intros Hc. by exists c.
Qed.

Lemma common_idx_nonneg tv : 0 <= COMMON_TIMEOUT_IDX tv.
Proof.
  unfold COMMON_TIMEOUT_IDX. apply Z.shiftr_nonneg, Z.land_nonneg. by right.
Qed.

Lemma common_in_range tv b :
  is_common_timeout tv b = true -> exists c, get_common_timeout_list b tv = Some c.
Proof.
  unfold is_common_timeout, get_common_timeout_list, common_idx, n_common_timeouts, zlen.
  destruct (negb _); [done|]. intros H%Z.ltb_lt. pose proof (common_idx_nonneg tv).
  apply lookup_lt_is_Some_2. lia.
Qed.

Lemma set_idx_other st e k x : ev_timeout (set_min_heap_idx st e k x) = ev_timeout (st x).
Proof. unfold set_min_heap_idx. by destruct (decide (x = e)). Qed.

(** The remaining fields, when only the timeouts change. *)
Lemma timeout_step b b' e f :
  queue_inv b -> requeued e f b b' ->
  (forall m, Z.land EVLIST_TIMEOUT m = 0 -> has f m = flag b e m) ->
  has f (Z.lnot EVLIST_ALL) = false ->
  eventqueue b' = eventqueue b -> activequeues b' = activequeues b ->
  event_count_active b' = event_count_active b ->
  heap_core (timers b') (timeheap b') ->
  (forall x, in_heap (timeheap b') x <->
    flag b' x EVLIST_TIMEOUT = true /\ is_common_timeout (timeout_of b' x) b' = false) ->
  (forall i c, common_timeout_queues b' !! i = Some c ->
    lists_exactly (ctl_events c) (waits_on_common b' i)) ->
  (forall x, flag b' x EVLIST_TIMEOUT = true ->
    is_common_timeout (timeout_of b' x) b' = true -> marked (timeout_of b' x)) ->
  event_count b' = n_external b' (counted b') -> queue_inv b'.
Proof.
  intros Hq Hr Hc Hf Hin Hact Hna Hh Ht Hcm Hm Hn. split; try done.
  - by apply (kept_inserted b b' e _ Hq Hr (Hc EVLIST_INSERTED eq_refl)).
  - by apply (kept_active b b' e _ Hq Hr (Hc EVLIST_ACTIVE eq_refl)).
  - apply (kept_pri b b' e _ Hq Hr (Hc EVLIST_ACTIVE eq_refl)).
  - apply (kept_flags b b' e _ Hq Hr Hf).
  - rewrite Hna. unfold active_all. rewrite Hact. apply Hq.
Qed.

Section RemoveTimeout.
Context (b b' : event_base) (e : evid).
Hypotheses (Hq : queue_inv b) (He : flag b e EVLIST_TIMEOUT = true).
Hypothesis Hr : requeued e (cleared b e EVLIST_TIMEOUT) b b'.
Hypotheses (Hin : eventqueue b' = eventqueue b) (Hact : activequeues b' = activequeues b).
Hypothesis Hna : event_count_active b' = event_count_active b.
Hypothesis Hn : event_count b' = event_count b - (if internal b e then 0 else 1).

Lemma cleared_other m : Z.land EVLIST_TIMEOUT m = 0 ->
  has (cleared b e EVLIST_TIMEOUT) m = flag b e m.
Proof. apply has_clear_other. Qed.

Lemma cleared_flag x :
  flag b' x EVLIST_TIMEOUT = true <-> flag b x EVLIST_TIMEOUT = true /\ x <> e.
Proof.
  rewrite (rq_flag b b' e _ Hr). unfold cleared. rewrite has_clear_same.
  destruct (decide (x = e)); (tauto || intuition congruence).
Qed.

Lemma cleared_marked x : flag b' x EVLIST_TIMEOUT = true ->
  is_common_timeout (timeout_of b' x) b' = true -> marked (timeout_of b' x).
Proof.
  intros [Hx _]%cleared_flag. rewrite (rq_common b b' e _ Hr), (rq_timeouts _ _ _ _ Hr).
  by apply Hq.
Qed.

Lemma cleared_waits i x : waits_on_common b' i x <-> waits_on_common b i x /\ x <> e.
Proof.
  unfold waits_on_common. rewrite cleared_flag, (rq_common b b' e _ Hr), (rq_timeouts _ _ _ _ Hr).
  (tauto || intuition congruence).
Qed.

Lemma remove_common_inv c q k :
  is_common_timeout (timeout_of b e) b = true ->
  get_common_timeout_list b (timeout_of b e) = Some c -> ctl_events c ≡ₚ e :: q ->
  lists_exactly q (fun x => waits_on_common b (common_idx (timeout_of b e)) x /\ x <> e) ->
  common_timeout_queues b' =
    common_timeout_queues (set_common_events b (common_idx (timeout_of b e)) q) ->
  timeheap b' = timeheap b -> timers b' = set_min_heap_idx (timers b) e k ->
  queue_inv b'.
Proof.
  intros Hcm Hc Hp Hl Hcs Hh Hst.
  assert (Hout : ~ in_heap (timeheap b) e) by (rewrite (qi_timed _ Hq), Hcm; by intros [_ ?]).
  apply (timeout_step b b' e _ Hq Hr cleared_other (cleared_all b e _ Hq) Hin Hact Hna).
  - rewrite Hst, Hh. apply forget_core; [apply Hq | done].
  - intros x. rewrite Hh, cleared_flag, (rq_common b b' e _ Hr), (rq_timeouts _ _ _ _ Hr).
    rewrite (qi_timed _ Hq). split; [|tauto]. intros [? ?].
    split; [split; [done|]|done]. intros ->. congruence.
  - intros i c'. rewrite Hcs. intros (c0 & Hc0 & ->)%common_lookup_set.
    case_decide as Hi.
    + subst i. eapply lists_exactly_ext; [|exact Hl]. intros x. by rewrite cleared_waits.
    + eapply lists_exactly_ext; [|exact (qi_common _ Hq i c0 Hc0)]. intros x.
      rewrite cleared_waits. split; [|tauto]. intros Hx. split; [done|].
      intros ->. by destruct Hx as (_ & _ & Hx).
  - apply cleared_marked.
  - rewrite (count_sub b b' e _ Hq Hr (cleared_other EVLIST_INTERNAL eq_refl)); [done|].
    unfold counted, active_all, common_all. rewrite Hin, Hact, Hh, Hcs, common_events_set.
    rewrite (active_swap (ctl_events <$> common_timeout_queues b)
      (common_idx (timeout_of b e)) (ctl_events c) q e);
      [|rewrite list_lookup_fmap; unfold get_common_timeout_list in Hc; by rewrite Hc | done].
    rewrite !(assoc_L (++)). symmetry. apply Permutation_middle.
Qed.

Lemma remove_heap_inv st h :
  is_common_timeout (timeout_of b e) b = false ->
  taken_out (timers b) (timeheap b) e st h ->
  timers b' = st -> timeheap b' = h -> common_timeout_queues b' = common_timeout_queues b ->
  queue_inv b'.
Proof.
  intros Hcm Ht Hst Hh Hcs.
  assert (Hhp : in_heap (timeheap b) e) by (by apply (qi_timed _ Hq)).
  apply (timeout_step b b' e _ Hq Hr cleared_other (cleared_all b e _ Hq) Hin Hact Hna).
  - rewrite Hst, Hh. apply Ht.
  - intros x. rewrite Hh, (to_mem _ _ _ _ _ Ht), cleared_flag, (qi_timed _ Hq).
    rewrite (rq_common b b' e _ Hr), (rq_timeouts _ _ _ _ Hr). tauto.
  - intros i c. rewrite Hcs. intros Hc. eapply lists_exactly_ext; [|exact (qi_common _ Hq i c Hc)].
    intros x. rewrite cleared_waits. split; [|tauto]. intros Hx. split; [done|].
    intros ->. destruct Hx as (_ & Hx & _). congruence.
  - apply cleared_marked.
  - rewrite (count_sub b b' e _ Hq Hr (cleared_other EVLIST_INTERNAL eq_refl)); [done|].
    unfold counted, active_all, common_all. rewrite Hin, Hact, Hh, Hcs.
    rewrite (heap_events_add st h (timers b) (timeheap b) e);
      [|apply Ht|apply Hq|rewrite (to_mem _ _ _ _ _ Ht); tauto|].
    + rewrite !(assoc_L (++) (eventqueue b)). symmetry. apply Permutation_middle.
    + intros x. rewrite (to_mem _ _ _ _ _ Ht). destruct (decide (x = e)) as [->|]; tauto.
Qed.
End RemoveTimeout.

Lemma remove_timeout E b e :
  queue_inv b -> flag b e EVLIST_TIMEOUT = true ->
  exists b', event_queue_remove E b e EVLIST_TIMEOUT = Some b' /\ queue_inv b' /\
    requeued e (cleared b e EVLIST_TIMEOUT) b b' /\
    a (timeheap b') = a (timeheap b) /\
    (is_common_timeout (timeout_of b e) b = false ->
     (n (timeheap b') < n (timeheap b))%nat) /\
    (is_common_timeout (timeout_of b e) b = true -> timeheap b' = timeheap b).
Proof.
  intros Hq He. unfold event_queue_remove. rewrite He, uncount. cbn [negb].
  change (EVLIST_TIMEOUT =? EVLIST_INSERTED) with false.
  change (EVLIST_TIMEOUT =? EVLIST_ACTIVE) with false. rewrite Z.eqb_refl.
  set (b2 := upd_event _ _ _). change (timeout_of b2 e) with (timeout_of b e).
  change (is_common_timeout (timeout_of b e) b2) with (is_common_timeout (timeout_of b e) b).
  change (get_common_timeout_list b2) with (get_common_timeout_list b).
  change (timers b2) with (timers b). change (timeheap b2) with (timeheap b).
  destruct (is_common_timeout (timeout_of b e) b) eqn:Hcm.
  - destruct (common_in_range _ _ Hcm) as [c Hc]. rewrite Hc. cbn [mbind option_bind].
    destruct (lists_exactly_remove _ _ e (qi_common _ Hq _ c Hc)) as (q & Hrm & Hp & Hl).
    { done. }
    rewrite Hrm. cbn [mbind option_bind]. eexists. split; [done|].
    match goal with |- queue_inv ?x /\ _ => set (b' := x) end.
    assert (Hr : requeued e (cleared b e EVLIST_TIMEOUT) b b').
    { requeue; [apply set_idx_other | apply (common_shape_set b)]. }
    split; [|done]. by eapply (remove_common_inv b b' e Hq Hr).
  - destruct (erase_core (timers b) (timeheap b) e) as (st & h & Her & Ht).
    { apply Hq. } { by apply (qi_timed _ Hq). }
    rewrite Her. cbn [mbind option_bind]. eexists. split; [done|].
    match goal with |- queue_inv ?x /\ _ => set (b' := x) end.
    assert (Hr : requeued e (cleared b e EVLIST_TIMEOUT) b b').
    { requeue. apply (to_time _ _ _ _ _ Ht). }
    split; [by eapply (remove_heap_inv b b' e Hq He Hr)|]. split; [done|].
    destruct (to_size _ _ _ _ _ Ht) as [Hn Ha]. split; [done|]. split; [|done].
    intros _. change (timeheap b') with h. rewrite Hn.
    destruct (proj2 (qi_timed _ Hq e)) as (i & Hi & _); [done | lia].
Qed.

(** The queues of active events after a removal. *)
Lemma queue_absent b e i q :
  queue_inv b -> activequeues b !! i = Some q ->
  flag b e EVLIST_ACTIVE = false \/ ev_pri (structs b e) <> Z.of_nat i -> e ∉ q.
Proof. intros Hq Hi Hor Hin. apply (qi_active _ Hq i q Hi) in Hin as [H1 H2]. intuition congruence. Qed.

Lemma absent_queues b e :
  queue_inv b -> flag b e EVLIST_ACTIVE = false -> without e <$> activequeues b = activequeues b.
Proof.
  intros Hq He. apply list_eq. intros i. rewrite list_lookup_fmap.
  destruct (activequeues b !! i) as [q|] eqn:Hi; [|done]. cbn. f_equal.
  apply without_absent. eapply queue_absent; eauto.
Qed.

Lemma remove_active_queues E b e b' :
  queue_inv b -> event_queue_remove E b e EVLIST_ACTIVE = Some b' ->
  activequeues b' = without e <$> activequeues b.
Proof.
  intros Hq. unfold event_queue_remove. destruct (negb _); [done|]. rewrite uncount. cbv zeta.
  change (EVLIST_ACTIVE =? EVLIST_INSERTED) with false. rewrite Z.eqb_refl.
  cbn [activequeues structs upd_event assign]. rewrite decide_True by done.
  change (ev_pri (assign _ _)) with (ev_pri (structs b e)).
  set (k := Z.to_nat (ev_pri (structs b e))).
  destruct (activequeues b !! k) as [q|] eqn:Hk; [|done]. cbn [mbind option_bind].
  destruct (tailq_remove e q) as [q'|] eqn:Hrm; [|done]. intros [= <-].
  apply tailq_remove_without in Hrm; [|apply (qi_active _ Hq k q Hk)].
  apply list_eq. intros i. cbn. rewrite list_lookup_fmap.
  destruct (decide (i = k)) as [->|Hi].
  - rewrite list_lookup_insert_eq by (by eapply lookup_lt_Some). by rewrite Hk, Hrm.
  - rewrite list_lookup_insert_ne by done.
    destruct (activequeues b !! i) as [r|] eqn:Hr; [|done]. cbn. f_equal. symmetry.
    apply without_absent. eapply queue_absent; [done..|]. right. lia.
Qed.

Lemma remove_other_queues E b e K b' :
  K = EVLIST_TIMEOUT \/ K = EVLIST_INSERTED -> event_queue_remove E b e K = Some b' ->
  activequeues b' = activequeues b.
Proof.
  unfold event_queue_remove. intros HK. destruct (negb _); [done|]. rewrite uncount. cbv zeta.
  destruct HK as [-> | ->].
  - change (EVLIST_TIMEOUT =? EVLIST_INSERTED) with false.
    change (EVLIST_TIMEOUT =? EVLIST_ACTIVE) with false. rewrite Z.eqb_refl.
    destruct (is_common_timeout _ _).
    + destruct (get_common_timeout_list _ _) as [c|]; [|done]. cbn [mbind option_bind].
      destruct (tailq_remove _ _); [|done]. cbn. by intros [= <-].
    + destruct (min_heap_erase _ _ _) as [[[r st] h]|]; [|done]. cbn. by intros [= <-].
  - rewrite Z.eqb_refl. destruct (tailq_remove _ _); [|done]. cbn. by intros [= <-].
Qed.

(** ** Inserting *)

Definition raised (b : event_base) (e : evid) (q : Z) : Z :=
  Z.lor (ev_flags (structs b e)) q.

Lemma raised_all b e q : queue_inv b -> has q (Z.lnot EVLIST_ALL) = false ->
  has (raised b e q) (Z.lnot EVLIST_ALL) = false.
Proof.
  intros Hq H. unfold raised. rewrite has_lor, H, orb_false_r. apply (qi_flags _ Hq e).
Qed.

Lemma raised_other b e q m : has q m = false -> has (raised b e q) m = flag b e m.
Proof. intros H. unfold raised. by rewrite has_lor, H, orb_false_r. Qed.

Lemma raised_same b e q : has q q = true -> has (raised b e q) q = true.
Proof. intros H. unfold raised. by rewrite has_lor, H, orb_true_r. Qed.

Lemma raised_flag b b' e q x :
  requeued e (raised b e q) b b' -> has q q = true ->
  flag b' x q = true <-> flag b x q = true \/ x = e.
Proof.
  intros Hr Hs. rewrite (rq_flag b b' e _ Hr), raised_same by done.
  destruct (decide (x = e)); intuition congruence.
Qed.

Lemma insert_inserted E b e :
  queue_inv b -> flag b e EVLIST_INSERTED = false ->
  exists b', event_queue_insert E b e EVLIST_INSERTED = Some b' /\ queue_inv b' /\
    requeued e (raised b e EVLIST_INSERTED) b b' /\
    timeheap b' = timeheap b /\ timers b' = timers b /\ common_timeout_queues b' = common_timeout_queues b.
Proof.
  intros Hq He. unfold event_queue_insert. rewrite He, count_up. rewrite Z.eqb_refl.
  eexists. split; [done|].
  match goal with |- queue_inv ?x /\ _ => set (b' := x) end.
  assert (Hr : requeued e (raised b e EVLIST_INSERTED) b b') by requeue.
  split; [|done].
  assert (Hc : forall m, has EVLIST_INSERTED m = false ->
            has (raised b e EVLIST_INSERTED) m = flag b e m).
  { intros m. apply raised_other. }
  split; try done.
  - apply Hq.
  - by apply (kept_timed b b' e _ Hq Hr (Hc EVLIST_TIMEOUT eq_refl)).
  - by apply (kept_common b b' e _ Hq Hr (Hc EVLIST_TIMEOUT eq_refl)).
  - eapply lists_exactly_ext; [|eapply (lists_exactly_perm _ _ _ e (snoc_perm _ _) (qi_inserted _ Hq))].
    + intros x. cbn beta. by rewrite (raised_flag _ _ _ _ x Hr eq_refl).
    + cbn beta. by rewrite He.
  - by apply (kept_active b b' e _ Hq Hr (Hc EVLIST_ACTIVE eq_refl)).
  - apply (kept_pri b b' e _ Hq Hr (Hc EVLIST_ACTIVE eq_refl)).
  - apply (kept_marked b b' e _ Hq Hr (Hc EVLIST_TIMEOUT eq_refl)).
  - apply (kept_flags b b' e _ Hq Hr). by apply raised_all.
  - apply Hq.
  - rewrite (count_add b b' e _ Hq Hr (Hc EVLIST_INTERNAL eq_refl)); [done|].
    unfold counted. cbn. rewrite snoc_perm. done.
Qed.

Lemma insert_active E b e :
  queue_inv b -> flag b e EVLIST_ACTIVE = false ->
  0 <= ev_pri (structs b e) < zlen (activequeues b) ->
  exists b' q, event_queue_insert E b e EVLIST_ACTIVE = Some b' /\ queue_inv b' /\
    requeued e (raised b e EVLIST_ACTIVE) b b' /\
    activequeues b !! Z.to_nat (ev_pri (structs b e)) = Some q /\
    activequeues b' = <[Z.to_nat (ev_pri (structs b e)) := q ++ [e]]> (activequeues b) /\
    eventqueue b' = eventqueue b /\
    timeheap b' = timeheap b /\ timers b' = timers b /\
    common_timeout_queues b' = common_timeout_queues b.
Proof.
  intros Hq He Hpri. unfold zlen in Hpri. unfold event_queue_insert. rewrite He, count_up.
  set (i := Z.to_nat (ev_pri (structs b e))).
  destruct (lookup_lt_is_Some_2 (activequeues b) i) as [q Hi]; [lia|].
  cbn [activequeues structs upd_event assign]. rewrite decide_True by done.
  change (ev_pri (assign _ _)) with (ev_pri (structs b e)). fold i.
  change (EVLIST_ACTIVE =? EVLIST_INSERTED) with false. rewrite Z.eqb_refl, Hi.
  cbn [mbind option_bind]. eexists. exists q. split; [done|].
  match goal with |- queue_inv ?x /\ _ => set (b' := x) end.
  assert (Hr : requeued e (raised b e EVLIST_ACTIVE) b b').
  { requeue. apply length_insert. }
  split; [|done].
  assert (Hc : forall m, has EVLIST_ACTIVE m = false ->
            has (raised b e EVLIST_ACTIVE) m = flag b e m).
  { intros m. apply raised_other. }
  assert (Hf : forall x, _) by (intros x; exact (raised_flag b b' e _ x Hr eq_refl)).
  split; try done.
  - apply Hq.
  - by apply (kept_timed b b' e _ Hq Hr (Hc EVLIST_TIMEOUT eq_refl)).
  - by apply (kept_common b b' e _ Hq Hr (Hc EVLIST_TIMEOUT eq_refl)).
  - by apply (kept_inserted b b' e _ Hq Hr (Hc EVLIST_INSERTED eq_refl)).
  - intros j r. change (activequeues b') with (<[i := q ++ [e]]> (activequeues b)). intros Hj.
    apply list_lookup_insert_Some in Hj as [(<- & <- & _) | [Hij Hj]].
    + eapply lists_exactly_ext;
        [|eapply (lists_exactly_perm _ _ _ e (snoc_perm _ _) (qi_active _ Hq i q Hi))].
      * intros x. cbn beta. rewrite Hf, (rq_pri b b' e _ Hr). split; [|tauto].
        intros [[? ?]| ->]; [tauto|]. split; [by right | lia].
      * cbn beta. rewrite He. by intros [? _].
    + eapply lists_exactly_ext; [|exact (qi_active _ Hq j r Hj)].
      intros x. cbn beta. rewrite Hf, (rq_pri b b' e _ Hr). split; [tauto|].
      intros [[?| ->] Hx]; [done | lia].
  - intros x Hx. rewrite (rq_pri b b' e _ Hr). unfold zlen. rewrite (rq_priorities _ _ _ _ Hr).
    apply Hf in Hx as [Hx| ->]; [by apply Hq | lia].
  - apply (kept_marked b b' e _ Hq Hr (Hc EVLIST_TIMEOUT eq_refl)).
  - apply (kept_flags b b' e _ Hq Hr). by apply raised_all.
  - cbn. rewrite (qi_active_count _ Hq). unfold active_all, zlen. cbn.
    destruct (concat_insert (activequeues b) i q (q ++ [e]) Hi) as (r & H1 & H2).
    rewrite H1, H2, !length_app. cbn. lia.
  - rewrite (count_add b b' e _ Hq Hr (Hc EVLIST_INTERNAL eq_refl)); [done|].
    unfold counted, active_all. cbn.
    destruct (concat_insert (activequeues b) i q (q ++ [e]) Hi) as (r & H1 & H2).
    rewrite H1, H2, snoc_perm. symmetry. apply Permutation_middle.
Qed.

Lemma marked_same t u :
  marked t -> marked u -> common_idx t = common_idx u -> is_same_common_timeout t u = true.
Proof.
  unfold marked, is_same_common_timeout. intros -> -> ->. apply Z.eqb_refl.
Qed.

Lemma insert_from_end_perm st rq e :
  (forall x, x ∈ rq -> is_same_common_timeout (ev_timeout (st x)) (ev_timeout (st e)) = true) ->
  exists r, insert_from_end st rq e = Some r /\ r ≡ₚ e :: rq.
Proof.
  induction rq as [|x rq IH]; intros Hs; cbn [insert_from_end]; [by eauto|].
  rewrite Hs by by left. cbn [negb].
  destruct (timercmp_ge _ _); [by eauto|].
  destruct IH as (r & -> & Hp); [intros y Hy; apply Hs; by right|].
  exists (x :: r). split; [done|]. rewrite Hp. apply Permutation_swap.
Qed.

Lemma insert_inorder_perm st q e :
  (forall x, x ∈ q -> is_same_common_timeout (ev_timeout (st x)) (ev_timeout (st e)) = true) ->
  exists r, insert_common_timeout_inorder st q e = Some r /\ r ≡ₚ e :: q.
Proof.
  intros Hs. unfold insert_common_timeout_inorder.
  destruct (insert_from_end_perm st (reverse q) e) as (r & -> & Hp).
  { intros x Hx. by apply Hs, elem_of_reverse. }
  exists (reverse r). split; [done|]. by rewrite !reverse_Permutation in *.
Qed.

Section InsertTimeout.
Context (b b' : event_base) (e : evid).
Hypotheses (Hq : queue_inv b) (He : flag b e EVLIST_TIMEOUT = false).
Hypothesis Hr : requeued e (raised b e EVLIST_TIMEOUT) b b'.
Hypotheses (Hin : eventqueue b' = eventqueue b) (Hact : activequeues b' = activequeues b).
Hypothesis Hna : event_count_active b' = event_count_active b.
Hypothesis Hn : event_count b' = event_count b + (if internal b e then 0 else 1).
Hypothesis Hm : is_common_timeout (timeout_of b e) b = true -> marked (timeout_of b e).

Lemma raised_timeout_other m : Z.land EVLIST_TIMEOUT m = 0 ->
  has (raised b e EVLIST_TIMEOUT) m = flag b e m.
Proof. intros H. apply raised_other. unfold has. by rewrite H. Qed.

Lemma raised_timeout x :
  flag b' x EVLIST_TIMEOUT = true <-> flag b x EVLIST_TIMEOUT = true \/ x = e.
Proof. by apply (raised_flag b b' e _ x Hr). Qed.

Lemma raised_marked x : flag b' x EVLIST_TIMEOUT = true ->
  is_common_timeout (timeout_of b' x) b' = true -> marked (timeout_of b' x).
Proof.
  rewrite raised_timeout, (rq_common b b' e _ Hr), (rq_timeouts _ _ _ _ Hr).
  intros [Hx| ->]; [by apply Hq | exact Hm].
Qed.

Lemma raised_waits i x : waits_on_common b' i x <->
  waits_on_common b i x \/
  x = e /\ is_common_timeout (timeout_of b e) b = true /\ common_idx (timeout_of b e) = i.
Proof.
  unfold waits_on_common.
  rewrite raised_timeout, (rq_common b b' e _ Hr), (rq_timeouts _ _ _ _ Hr). split.
  - intros ([?| ->] & ? & ?); auto.
  - intros [?|(-> & ?)]; tauto.
Qed.

Lemma raised_external : counted b' ≡ₚ e :: counted b ->
  event_count b' = n_external b' (counted b').
Proof.
  intros Hp. by rewrite (count_add b b' e _ Hq Hr (raised_timeout_other EVLIST_INTERNAL eq_refl)).
Qed.

Lemma insert_common_inv c q :
  is_common_timeout (timeout_of b e) b = true ->
  get_common_timeout_list b (timeout_of b e) = Some c -> q ≡ₚ e :: ctl_events c ->
  common_timeout_queues b' =
    common_timeout_queues (set_common_events b (common_idx (timeout_of b e)) q) ->
  timeheap b' = timeheap b -> timers b' = timers b ->
  queue_inv b'.
Proof.
  intros Hcm Hc Hp Hcs Hh Hst. unfold get_common_timeout_list in Hc.
  apply (timeout_step b b' e _ Hq Hr raised_timeout_other
           (raised_all b e EVLIST_TIMEOUT Hq eq_refl) Hin Hact Hna).
  - rewrite Hst, Hh. apply Hq.
  - intros x. rewrite Hh, raised_timeout, (rq_common b b' e _ Hr), (rq_timeouts _ _ _ _ Hr).
    rewrite (qi_timed _ Hq). split; [tauto|]. intros [[?| ->] ?]; [done | congruence].
  - intros i c'. rewrite Hcs. intros (c0 & Hc0 & ->)%common_lookup_set. case_decide as Hi.
    + subst i. eapply lists_exactly_ext;
        [|eapply (lists_exactly_perm _ _ _ e Hp (qi_common _ Hq _ c Hc))].
      * intros x. cbn beta. rewrite raised_waits. intuition congruence.
      * intros (Hx & _). congruence.
    + eapply lists_exactly_ext; [|exact (qi_common _ Hq i c0 Hc0)]. intros x.
      rewrite raised_waits. intuition.
  - apply raised_marked.
  - apply raised_external.
    unfold counted, active_all, common_all. rewrite Hin, Hact, Hh, Hcs, common_events_set.
    destruct (concat_insert (ctl_events <$> common_timeout_queues b)
                (common_idx (timeout_of b e)) (ctl_events c) q) as (r & H1 & H2).
    { by rewrite list_lookup_fmap, Hc. }
    rewrite H1, H2, Hp, !(assoc_L (++)). rewrite <- (assoc_L (++) _ (e :: ctl_events c)).
    rewrite <- (assoc_L (++) _ (ctl_events c)). symmetry. apply Permutation_middle.
Qed.

Lemma insert_heap_inv st h :
  is_common_timeout (timeout_of b e) b = false ->
  heap_core st h -> (forall x, in_heap h x <-> x = e \/ in_heap (timeheap b) x) ->
  timers b' = st -> timeheap b' = h -> common_timeout_queues b' = common_timeout_queues b ->
  queue_inv b'.
Proof.
  intros Hcm Hcore Hmem Hst Hh Hcs.
  assert (Hout : ~ in_heap (timeheap b) e) by (rewrite (qi_timed _ Hq), He; by intros [? _]).
  apply (timeout_step b b' e _ Hq Hr raised_timeout_other
           (raised_all b e EVLIST_TIMEOUT Hq eq_refl) Hin Hact Hna).
  - by rewrite Hst, Hh.
  - intros x. rewrite Hh, Hmem, raised_timeout, (qi_timed _ Hq).
    rewrite (rq_common b b' e _ Hr), (rq_timeouts _ _ _ _ Hr). split; [|tauto].
    intros [-> |]; tauto.
  - intros i c. rewrite Hcs. intros Hc. eapply lists_exactly_ext; [|exact (qi_common _ Hq i c Hc)].
    intros x. rewrite raised_waits. intuition congruence.
  - apply raised_marked.
  - apply raised_external. unfold counted, active_all, common_all. rewrite Hin, Hact, Hh, Hcs.
    rewrite (heap_events_add (timers b) (timeheap b) st h e); [|apply Hq | done..].
    rewrite !(assoc_L (++) (eventqueue b)). symmetry. apply Permutation_middle.
Qed.
End InsertTimeout.

Lemma insert_timeout E b e :
  queue_inv b -> flag b e EVLIST_TIMEOUT = false ->
  (is_common_timeout (timeout_of b e) b = true -> marked (timeout_of b e)) ->
  (is_common_timeout (timeout_of b e) b = false -> roomy (heap_realloc E) (timeheap b)) ->
  exists b', event_queue_insert E b e EVLIST_TIMEOUT = Some b' /\ queue_inv b' /\
    requeued e (raised b e EVLIST_TIMEOUT) b b'.
Proof.
  intros Hq He Hm Hroom. unfold event_queue_insert. rewrite He, count_up.
  change (EVLIST_TIMEOUT =? EVLIST_INSERTED) with false.
  change (EVLIST_TIMEOUT =? EVLIST_ACTIVE) with false. rewrite Z.eqb_refl.
  set (b2 := upd_event _ _ _). change (timeout_of b2 e) with (timeout_of b e).
  change (is_common_timeout (timeout_of b e) b2) with (is_common_timeout (timeout_of b e) b).
  change (get_common_timeout_list b2) with (get_common_timeout_list b).
  change (timers b2) with (timers b). change (timeheap b2) with (timeheap b).
  destruct (is_common_timeout (timeout_of b e) b) eqn:Hcm.
  - destruct (common_in_range _ _ Hcm) as [c Hc]. rewrite Hc. cbn [mbind option_bind].
    destruct (insert_inorder_perm (timers b) (ctl_events c) e) as (q & Hins & Hp).
    { intros x (Hx & Hxc & Hxi)%(qi_common _ Hq _ c Hc).
      apply marked_same; [by apply (qi_marked _ Hq) | by apply Hm | done]. }
    rewrite Hins. cbn [mbind option_bind]. eexists. split; [done|].
    match goal with |- queue_inv ?x /\ _ => set (b' := x) end.
    assert (Hr : requeued e (raised b e EVLIST_TIMEOUT) b b').
    { requeue. apply (common_shape_set b). }
    split; [|done]. eapply (insert_common_inv b b' e Hq He Hr); try done; auto.
  - assert (Hout : ~ in_heap (timeheap b) e) by (rewrite (qi_timed _ Hq), He; by intros [? _]).
    destruct (push_core (heap_realloc E) (timers b) (timeheap b) e (qi_heap _ Hq) Hout)
      as (r & st & h & Hpush & Hcore & Ht & _ & H0 & Hmem).
    rewrite Hpush. cbn [mbind option_bind]. eexists. split; [done|].
    match goal with |- queue_inv ?x /\ _ => set (b' := x) end.
    assert (Hr : requeued e (raised b e EVLIST_TIMEOUT) b b').
    { requeue. apply Ht. }
    split; [|done]. specialize (H0 (Hroom eq_refl)).
    destruct Hmem as [[_ Hmem]|[? _]]; [|lia].
    eapply (insert_heap_inv b b' e Hq He Hr); try done; congruence.
Qed.
