(* ===== verification/TokenBucket.v ===== *)
(** Token buckets ([bufferevent_ratelim.c]): how many bytes may be read and written now,
    and how the buckets fill up with every tick. *)

From S2P Require Import Prelude MinHeap EvChain EventData EventCore.

(** The code has every operation twice, for reading and for writing. *)
Inductive direction := Reading | Writing.

#[export] Instance direction_eq_dec : EqDecision direction.
Proof. solve_decision. Defined.

Record ev_token_bucket := { read_limit : Z; write_limit : Z; last_updated : Z }.

#[export] Instance settable_ev_token_bucket : Settable ev_token_bucket := fun b =>
  {| read_limit := read_limit b; write_limit := write_limit b; last_updated := last_updated b |}.

Record ev_token_bucket_cfg := {
  read_rate : Z; read_maximum : Z; write_rate : Z; write_maximum : Z; tick_timeout : timeval; msec_per_tick : Z }.

Definition limit (d : direction) (b : ev_token_bucket) : Z :=
  match d with Reading => read_limit b | Writing => write_limit b end.
Definition set_limit (d : direction) (v : Z) (b : ev_token_bucket) : ev_token_bucket :=
  match d with Reading => b <| read_limit := v |> | Writing => b <| write_limit := v |> end.
Definition rate (d : direction) (c : ev_token_bucket_cfg) : Z :=
  match d with Reading => read_rate c | Writing => write_rate c end.
Definition maximum (d : direction) (c : ev_token_bucket_cfg) : Z :=
  match d with Reading => read_maximum c | Writing => write_maximum c end.

Section bucket.
Context {A : Arch} {M : Allocator}.

(** The level is clipped to the maximum of the configuration. *)
Definition clip (d : direction) (cfg : ev_token_bucket_cfg) (b : ev_token_bucket) : ev_token_bucket :=
  if swrap 64 (maximum d cfg) <? limit d b then set_limit d (swrap size_bits (maximum d cfg)) b else b.

Definition ev_token_bucket_init (b : ev_token_bucket) (cfg : ev_token_bucket_cfg) (current_tick : Z) (reinitialize : bool)
  : ev_token_bucket :=
  if reinitialize then clip Writing cfg (clip Reading cfg b)
  else {| read_limit := swrap size_bits (read_rate cfg); write_limit := swrap size_bits (write_rate cfg);
          last_updated := current_tick |}.

(** [n_ticks] ticks worth of tokens: the comparison and the sum are unsigned. *)
Definition add_ticks (d : direction) (cfg : ev_token_bucket_cfg) (n_ticks : Z) (b : ev_token_bucket) : ev_token_bucket :=
  set_limit d
    (if wrap size_bits (maximum d cfg - limit d b) / n_ticks <? rate d cfg then swrap size_bits (maximum d cfg)
     else swrap size_bits (limit d b + n_ticks * rate d cfg)) b.

Definition ev_token_bucket_update (b : ev_token_bucket) (cfg : ev_token_bucket_cfg) (current_tick : Z) : Z * ev_token_bucket :=
  let n_ticks := wrap 32 (current_tick - last_updated b) in
  if (n_ticks =? 0) || (INT_MAX <? n_ticks) then (0, b) else
  (1, (add_ticks Writing cfg n_ticks (add_ticks Reading cfg n_ticks b)) <| last_updated := current_tick |>).

(** The division by the length of a tick is undefined for ticks below a millisecond. *)
Definition ev_token_bucket_get_tick (tv : timeval) (cfg : ev_token_bucket_cfg) : option Z :=
  let msec := wrap 64 (wrap 64 (tv_sec tv) * 1000 + Z.quot (tv_usec tv) 1000) in
  if msec_per_tick cfg =? 0 then None else Some (wrap 32 (msec / msec_per_tick cfg)).

Definition sizeof_ev_token_bucket_cfg : Z := 4 * (size_bits / 8) + (if size_bits =? 64 then 16 else 12).

(** The length of a tick in milliseconds; [long] has 32 bits, and [None] is an overflow. *)
Definition tick_msecs (tick_len : timeval) : option Z :=
  let sec := tv_sec tick_len * 1000 in
  let msec := sec + Z.land (tv_usec tick_len) MICROSECONDS_MASK / 1000 in
  if (swrap 32 sec =? sec) && (swrap 32 msec =? msec) then Some (wrap 32 msec) else None.

(** The new configuration, or NULL. *)
Definition ev_token_bucket_cfg_new (read_rate read_burst write_rate write_burst : Z) (tick_len : option timeval)
  : option (option ev_token_bucket_cfg) :=
  let tick_len := default {| tv_sec := 1; tv_usec := 0 |} tick_len in
  if (read_burst <? read_rate) || (write_burst <? write_rate) || (read_rate <? 1) || (write_rate <? 1) then Some None else
  if (EV_SSIZE_MAX <? read_rate) || (EV_SSIZE_MAX <? write_rate) || (EV_SSIZE_MAX <? read_burst)
     || (EV_SSIZE_MAX <? write_burst) then Some None else
  match mm_malloc sizeof_ev_token_bucket_cfg with
  | None => Some None
  | Some _ =>
    msec ← tick_msecs tick_len;
    Some (Some {| read_rate := read_rate; read_maximum := read_burst; write_rate := write_rate;
                  write_maximum := write_burst; tick_timeout := tick_len; msec_per_tick := msec |})
  end.

(** ** What the buckets do *)

(** A configuration as [ev_token_bucket_cfg_new] makes it, with ticks of a millisecond at
    least. *)
Record cfg_ok (cfg : ev_token_bucket_cfg) : Prop := {
  cfg_rates : forall d, 1 <= rate d cfg <= maximum d cfg /\ maximum d cfg <= EV_SSIZE_MAX;
  cfg_tick : 1 <= msec_per_tick cfg < 2 ^ 32 }.

(** A level of the bucket: no more than the maximum, and a value of [ev_ssize_t]. *)
Definition level (cfg : ev_token_bucket_cfg) (d : direction) (b : ev_token_bucket) : Prop :=
  - EV_SSIZE_MAX - 1 <= limit d b <= maximum d cfg.

Lemma limit_set d d' v b : limit d (set_limit d' v b) = if decide (d = d') then v else limit d b.
Proof. by destruct d, d'. Qed.

Lemma limit_last_updated d b t : limit d (b <| last_updated := t |>) = limit d b.
Proof. by destruct d. Qed.

Lemma last_updated_set d v b : last_updated (set_limit d v b) = last_updated b.
Proof. by destruct d. Qed.

Lemma ssize_wrap z : 0 <= z < 2 ^ size_bits -> wrap size_bits z = z.
Proof. apply wrap_small. Qed.

Lemma ssize_swrap z : - EV_SSIZE_MAX - 1 <= z <= EV_SSIZE_MAX -> swrap size_bits z = z.
Proof. unfold EV_SSIZE_MAX. intros H. apply swrap_small; [destruct size_bits_cases as [->| ->]; lia | lia]. Qed.

Lemma ssize_double : 2 ^ size_bits = 2 * (EV_SSIZE_MAX + 1).
Proof. unfold EV_SSIZE_MAX. destruct size_bits_cases as [->| ->]; lia. Qed.

Lemma add_ticks_limit d d' cfg n b : cfg_ok cfg -> 0 < n -> level cfg d b ->
  limit d (add_ticks d' cfg n b) = if decide (d = d') then Z.min (maximum d cfg) (limit d b + n * rate d cfg) else limit d b.
Proof.
  intros Hc Hn Hl. unfold add_ticks. rewrite limit_set. destruct (decide (d = d')) as [<-|]; [|done].
  destruct (cfg_rates _ Hc d) as [Hr Hm]. unfold level in Hl. pose proof ssize_double.
  rewrite ssize_wrap by lia.
  pose proof (Z.div_mod (maximum d cfg - limit d b) n ltac:(lia)). pose proof (Z.mod_pos_bound (maximum d cfg - limit d b) n Hn).
  destruct (Z.ltb_spec ((maximum d cfg - limit d b) / n) (rate d cfg)); rewrite ssize_swrap; nia.
Qed.

Lemma ev_token_bucket_update_limit cfg b tick : cfg_ok cfg -> (forall d, level cfg d b) ->
  let n := wrap 32 (tick - last_updated b) in
  let '(r, b') := ev_token_bucket_update b cfg tick in
  (0 < n <= INT_MAX -> r = 1 /\ last_updated b' = tick /\ forall d, limit d b' = Z.min (maximum d cfg) (limit d b + n * rate d cfg)) /\
  (~ 0 < n <= INT_MAX -> r = 0 /\ b' = b).
Proof.
  intros Hc Hl n. unfold ev_token_bucket_update. fold n. pose proof (wrap_range 32 (tick - last_updated b) ltac:(lia)) as Hn.
  fold n in Hn. unfold fits in Hn. destruct (Z.eqb_spec n 0), (Z.ltb_spec INT_MAX n); cbn [orb]; split; try (intros; lia); try done.
  intros Hn'. splits; [done..|]. intros d. rewrite limit_last_updated.
  assert (Hl1 : forall d, level cfg d (add_ticks Reading cfg n b)).
  { intros d'. unfold level. rewrite add_ticks_limit by (done || lia). pose proof (Hl d') as Hd. unfold level in Hd.
    destruct (cfg_rates _ Hc d') as [Hr Hm]. case_decide; nia. }
  rewrite !add_ticks_limit by (done || lia). by destruct d.
Qed.

Lemma ev_token_bucket_update_level cfg b tick d : cfg_ok cfg -> (forall d, level cfg d b) ->
  level cfg d (snd (ev_token_bucket_update b cfg tick)).
Proof.
  intros Hc Hl. pose proof (ev_token_bucket_update_limit cfg b tick Hc Hl) as H. cbv zeta in H.
  destruct (ev_token_bucket_update b cfg tick) as [r b']. destruct H as [H1 H2]. cbn [snd]. pose proof (Hl d) as Hd.
  destruct (decide (0 < wrap 32 (tick - last_updated b) <= INT_MAX)) as [Hn|Hn]; [|by destruct (H2 Hn) as [_ ->]].
  destruct (H1 Hn) as (_ & _ & Hb). unfold level in *. rewrite Hb. destruct (cfg_rates _ Hc d). nia.
Qed.

Lemma ev_token_bucket_cfg_new_ok rr rb wr wb tick cfg :
  match tick with Some t => 1000 <= tv_usec t < 1000000 /\ 0 <= tv_sec t \/ 1 <= tv_sec t /\ 0 <= tv_usec t < 1000000 | None => True end ->
  ev_token_bucket_cfg_new rr rb wr wb tick = Some (Some cfg) -> cfg_ok cfg.
Proof.
  intros Ht. unfold ev_token_bucket_cfg_new.
  destruct (_ || _ || _ || _) eqn:E1; [done|]. bool_to_prop.
  destruct (_ || _ || _ || _) eqn:E2; [done|]. bool_to_prop.
  destruct (mm_malloc _); [|done]. unfold tick_msecs. set (t := default _ tick) in *.
  assert (Hus : 0 <= tv_usec t < 1000000 /\ 0 <= tv_sec t /\ (1000 <= tv_usec t \/ 1 <= tv_sec t)) by (subst t; destruct tick; cbn in *; lia).
  destruct (_ && _) eqn:E3; cbn [mbind option_bind]; [|done]. bool_to_prop. intros [= <-].
  assert (Hland : Z.land (tv_usec t) MICROSECONDS_MASK = tv_usec t).
  { change MICROSECONDS_MASK with (Z.ones 20). rewrite Z.land_ones by lia. apply Z.mod_small. lia. }
  assert (H32 : forall z, swrap 32 z = z -> z < 2 ^ 31) by (intros z <-; pose proof (swrap_range 32 z ltac:(lia)); lia).
  rewrite Hland in *. split; [intros []; cbn; lia|]. cbn.
  match goal with H : swrap 32 (_ + _) = _ |- _ => apply H32 in H end. pose proof (Z.div_pos (tv_usec t) 1000 ltac:(lia) ltac:(lia)).
  assert (1000 <= tv_usec t -> 1 <= tv_usec t / 1000) by (intros; apply Z.div_le_lower_bound; lia).
  rewrite wrap_small; [lia|]. unfold fits. lia.
Qed.
End bucket.
