(* ===== verification/Bev.v ===== *)
(** Bufferevents ([bufferevent.c]): two byte queues with the events that fill and empty
    them, what suspends them, watermarks, the callbacks of the application, and references.

    Bufferevents, rate limit groups and bucket configurations are objects of a store; a
    pointer is a number.  Callbacks of the application are recorded in order.  There are no
    locks: every operation runs alone, so trying a lock always succeeds. *)

From stdpp Require Import gmap.
From S2P Require Import Prelude StateOp MinHeap EvChain Evbuffer EvExpand EventData TokenBucket.

Definition BEV_SUSPEND_WM : Z := 0x01.
Definition BEV_SUSPEND_BW : Z := 0x02.
Definition BEV_SUSPEND_BW_GROUP : Z := 0x04.

Definition BEV_OPT_CLOSE_ON_FREE : Z := 1.
Definition BEV_OPT_DEFER_CALLBACKS : Z := 4.
Definition BEV_OPT_UNLOCK_CALLBACKS : Z := 8.

Definition BEV_EVENT_READING : Z := 0x01.
Definition BEV_EVENT_WRITING : Z := 0x02.
Definition BEV_EVENT_EOF : Z := 0x10.
Definition BEV_EVENT_ERROR : Z := 0x20.
Definition BEV_EVENT_TIMEOUT : Z := 0x40.
Definition BEV_EVENT_CONNECTED : Z := 0x80.

(** ** Data *)

(** [ev_read] and [ev_write]: for a descriptor ([ev_io]) or a timeout only; whether the
    event is added, and its timeout. *)
Record bev_event := { ev_io : bool; ev_added : bool; ev_tv : option timeval }.

Record event_watermark := { low : Z; high : Z }.

Record bufferevent_rate_limit := {
  group : option nat;
  bucket : ev_token_bucket;
  cfg : option nat;
  refill_initialized : bool;
  refill_pending : bool }.

#[export] Instance settable_bufferevent_rate_limit : Settable bufferevent_rate_limit := fun r =>
  {| group := group r; bucket := bucket r; cfg := cfg r; refill_initialized := refill_initialized r;
     refill_pending := refill_pending r |}.

(** [struct bufferevent] and [struct bufferevent_private]. *)
Record bufferevent := {
  input : evbuffer;
  output : evbuffer;
  ev_read : bev_event;
  ev_write : bev_event;
  wm_read : event_watermark;
  wm_write : event_watermark;
  readcb : option nat;
  writecb : option nat;
  errorcb : option nat;
  timeout_read : timeval;
  timeout_write : timeval;
  enabled : Z;
  read_watermarks_cb : bool;
  readcb_pending : bool;
  writecb_pending : bool;
  eventcb_pending : Z;
  connecting : bool;
  connection_refused : bool;
  read_suspended : Z;
  write_suspended : Z;
  dns_error : Z;
  deferred_cb_queued : bool;
  options : Z;
  bev_refcnt : Z;
  rate_limiting : option bufferevent_rate_limit;
  bev_fd : Z;
  partner : option nat }.

#[export] Instance settable_bufferevent : Settable bufferevent := fun b =>
  {| input := input b; output := output b; ev_read := ev_read b; ev_write := ev_write b; wm_read := wm_read b;
     wm_write := wm_write b; readcb := readcb b; writecb := writecb b; errorcb := errorcb b; timeout_read := timeout_read b;
     timeout_write := timeout_write b; enabled := enabled b; read_watermarks_cb := read_watermarks_cb b;
     readcb_pending := readcb_pending b; writecb_pending := writecb_pending b; eventcb_pending := eventcb_pending b;
     connecting := connecting b; connection_refused := connection_refused b; read_suspended := read_suspended b;
     write_suspended := write_suspended b; dns_error := dns_error b; deferred_cb_queued := deferred_cb_queued b;
     options := options b; bev_refcnt := bev_refcnt b; rate_limiting := rate_limiting b; bev_fd := bev_fd b;
     partner := partner b |}.

Record bufferevent_rate_limit_group := {
  members : list nat;
  rate_limit : ev_token_bucket;
  rate_limit_cfg : ev_token_bucket_cfg;
  group_read_suspended : bool;
  group_write_suspended : bool;
  pending_unsuspend_read : bool;
  pending_unsuspend_write : bool;
  total_read : Z;
  total_written : Z;
  n_members : Z;
  min_share : Z;
  configured_min_share : Z }.

#[export] Instance settable_bufferevent_rate_limit_group : Settable bufferevent_rate_limit_group := fun g =>
  {| members := members g; rate_limit := rate_limit g; rate_limit_cfg := rate_limit_cfg g;
     group_read_suspended := group_read_suspended g; group_write_suspended := group_write_suspended g;
     pending_unsuspend_read := pending_unsuspend_read g; pending_unsuspend_write := pending_unsuspend_write g;
     total_read := total_read g; total_written := total_written g; n_members := n_members g; min_share := min_share g;
     configured_min_share := configured_min_share g |}.

(** A call of a callback of the application: which, for which bufferevent, and of what. *)
Inductive user_call := ReadCallback (cb b : nat) | WriteCallback (cb b : nat) | EventCallback (cb b : nat) (what : Z).

(** The store, the time that the base gives, the callbacks made, the queue of deferred
    callbacks, the descriptors closed, and how many events and random numbers were used. *)
Record world := {
  bevs : gmap nat bufferevent;
  groups : gmap nat bufferevent_rate_limit_group;
  cfgs : gmap nat ev_token_bucket_cfg;
  now : timeval;
  user_calls : list user_call;
  deferred_queue : list nat;
  closed : list Z;
  next_id : nat;
  event_calls : nat;
  rands : nat }.

#[export] Instance settable_world : Settable world := fun w =>
  {| bevs := bevs w; groups := groups w; cfgs := cfgs w; now := now w; user_calls := user_calls w;
     deferred_queue := deferred_queue w; closed := closed w; next_id := next_id w; event_calls := event_calls w; rands := rands w |}.

Inductive bev_struct := struct_bufferevent | struct_bufferevent_rate_limit | struct_bufferevent_rate_limit_group.

(** What the code around gives: the sizes of the structs, whether the backend accepts the
    n-th change of an event, the n-th random number. *)
Class BevEnv := {
  bev_sizeof : bev_struct -> Z;
  event_ok : nat -> bool;
  weakrand : nat -> Z;
  weakrand_nonneg : forall n, 0 <= weakrand n }.

Abbreviation world_op := (state_op world).

(** What the kinds of bufferevents implement ([struct bufferevent_ops]), and the callback
    that each kind puts on its output. *)
Class bufferevent_ops := {
  be_enable : nat -> Z -> world_op Z;
  be_disable : nat -> Z -> world_op Z;
  be_destruct : nat -> world_op unit;
  be_adj_timeouts : nat -> world_op Z;
  be_outbuf_cb : nat -> cb_call -> world_op unit }.

(** ** Access *)

Definition the_bev (b : nat) : world_op bufferevent := fun w => x ← bevs w !! b; Some (x, w).
Definition the_group (g : nat) : world_op bufferevent_rate_limit_group := fun w => x ← groups w !! g; Some (x, w).
Definition the_cfg (c : nat) : world_op ev_token_bucket_cfg := fun w => x ← cfgs w !! c; Some (x, w).

Definition update_bev (b : nat) (f : bufferevent -> bufferevent) : world_op unit :=
  let! x := the_bev b in modify (fun w => w <| bevs := <[b := f x]> (bevs w) |>).
Definition update_group (g : nat) (f : bufferevent_rate_limit_group -> bufferevent_rate_limit_group) : world_op unit :=
  let! x := the_group g in modify (fun w => w <| groups := <[g := f x]> (groups w) |>).

Definition new_id : world_op nat := fun w => Some (next_id w, w <| next_id := S (next_id w) |>).

Definition ev_bit (d : direction) : Z := match d with Reading => EV_READ | Writing => EV_WRITE end.
Definition suspended (d : direction) (b : bufferevent) : Z :=
  match d with Reading => read_suspended b | Writing => write_suspended b end.
Definition set_suspended (d : direction) (v : Z) (b : bufferevent) : bufferevent :=
  match d with Reading => b <| read_suspended := v |> | Writing => b <| write_suspended := v |> end.
Definition bev_ev (d : direction) (b : bufferevent) : bev_event := match d with Reading => ev_read b | Writing => ev_write b end.
Definition set_bev_ev (d : direction) (e : bev_event) (b : bufferevent) : bufferevent :=
  match d with Reading => b <| ev_read := e |> | Writing => b <| ev_write := e |> end.
Definition bev_timeout (d : direction) (b : bufferevent) : timeval :=
  match d with Reading => timeout_read b | Writing => timeout_write b end.

Section bev.
Context {A : Arch} {M : Allocator} {E : BevEnv}.

(** ** The events *)

Definition event_result : world_op Z :=
  let! n := asks event_calls in
  modify (fun w => w <| event_calls := S n |>) ;;
  ret (if event_ok n then 0 else -1).

(** [event_add] keeps the timeout of an event when it is given none. *)
Definition added (tv : option timeval) (e : bev_event) : bev_event :=
  {| ev_io := ev_io e; ev_added := ev_io e || ev_added e; ev_tv := match tv with Some _ => tv | None => ev_tv e end |}.

Definition bev_event_add (b : nat) (d : direction) (tv : option timeval) : world_op Z :=
  let! r := event_result in
  when (r =? 0) (update_bev b (fun bev => set_bev_ev d (added tv (bev_ev d bev)) bev)) ;;
  ret r.

Definition bev_event_del (b : nat) (d : direction) : world_op Z :=
  let! r := event_result in
  update_bev b (fun bev => set_bev_ev d {| ev_io := ev_io (bev_ev d bev); ev_added := false; ev_tv := None |} bev) ;;
  ret r.

Definition _bufferevent_add_event (b : nat) (d : direction) (tv : timeval) : world_op Z :=
  bev_event_add b d (if (tv_sec tv =? 0) && (tv_usec tv =? 0) then None else Some tv).

Definition BEV_RESET_GENERIC_TIMEOUT (b : nat) (d : direction) : world_op unit :=
  let! bev := the_bev b in
  when (evutil_timerisset (bev_timeout d bev)) (let! _ := bev_event_add b d (Some (bev_timeout d bev)) in ret tt).

Definition BEV_DEL_GENERIC_TIMEOUT (b : nat) (d : direction) : world_op unit :=
  let! _ := bev_event_del b d in ret tt.

(** ** The callbacks of the application *)

Definition bufferevent_incref (b : nat) : world_op unit :=
  update_bev b (fun bev => bev <| bev_refcnt := bev_refcnt bev + 1 |>).

Definition SCHEDULE_DEFERRED (b : nat) : world_op unit :=
  bufferevent_incref b ;;
  update_bev b (fun bev => bev <| deferred_cb_queued := true |>) ;;
  modify (fun w => w <| deferred_queue := deferred_queue w ++ [b] |>).

Definition user (c : user_call) : world_op unit := modify (fun w => w <| user_calls := user_calls w ++ [c] |>).

(** Either the callback is called now, or [pending] notes it and the queue will. *)
Definition run_or_defer (b : nat) (cb : option nat) (pending : bufferevent -> bufferevent) (call : nat -> user_call) : world_op unit :=
  match cb with
  | None => ret tt
  | Some cb =>
    let! bev := the_bev b in
    if has (options bev) BEV_OPT_DEFER_CALLBACKS then
      update_bev b pending ;;
      let! bev := the_bev b in
      when (negb (deferred_cb_queued bev)) (SCHEDULE_DEFERRED b)
    else user (call cb)
  end.

Definition _bufferevent_run_readcb (b : nat) : world_op unit :=
  let! bev := the_bev b in
  run_or_defer b (readcb bev) (fun bev => bev <| readcb_pending := true |>) (fun cb => ReadCallback cb b).

Definition _bufferevent_run_writecb (b : nat) : world_op unit :=
  let! bev := the_bev b in
  run_or_defer b (writecb bev) (fun bev => bev <| writecb_pending := true |>) (fun cb => WriteCallback cb b).

Definition _bufferevent_run_eventcb (b : nat) (what : Z) : world_op unit :=
  let! bev := the_bev b in
  run_or_defer b (errorcb bev) (fun bev => bev <| eventcb_pending := Z.lor (eventcb_pending bev) what |>)
    (fun cb => EventCallback cb b what).

Definition bufferevent_setcb (b : nat) (readcb' writecb' eventcb' : option nat) : world_op unit :=
  update_bev b (fun bev => bev <| readcb := readcb' |> <| writecb := writecb' |> <| errorcb := eventcb' |>).

Section generic.
Context {O : bufferevent_ops}.

(** ** Suspending *)

Definition bufferevent_suspend (d : direction) (b : nat) (what : Z) : world_op unit :=
  let! bev := the_bev b in
  when (suspended d bev =? 0) (let! _ := be_disable b (ev_bit d) in ret tt) ;;
  update_bev b (fun bev => set_suspended d (Z.lor (suspended d bev) what) bev).

Definition bufferevent_unsuspend (d : direction) (b : nat) (what : Z) : world_op unit :=
  update_bev b (fun bev => set_suspended d (Z.ldiff (suspended d bev) what) bev) ;;
  let! bev := the_bev b in
  when ((suspended d bev =? 0) && has (enabled bev) (ev_bit d)) (let! _ := be_enable b (ev_bit d) in ret tt).

Definition bufferevent_suspend_read := bufferevent_suspend Reading.
Definition bufferevent_suspend_write := bufferevent_suspend Writing.
Definition bufferevent_unsuspend_read := bufferevent_unsuspend Reading.
Definition bufferevent_unsuspend_write := bufferevent_unsuspend Writing.

(** ** The buffers and their callbacks *)

(** The names of the two callbacks on the buffers that are not the application's. *)
Definition WM_CB : nat := 0.
Definition OUTBUF_CB : nat := 1.

Definition bufferevent_inbuf_wm_cb (b : nat) : world_op unit :=
  let! bev := the_bev b in
  if high (wm_read bev) <=? evbuffer_get_length (input bev) then bufferevent_suspend_read b BEV_SUSPEND_WM
  else bufferevent_unsuspend_read b BEV_SUSPEND_WM.

Fixpoint run_input_calls (b : nat) (calls : list cb_call) : world_op unit :=
  match calls with
  | [] => ret tt
  | c :: calls' =>
    when (call_id c =? WM_CB)%nat (bufferevent_inbuf_wm_cb b) ;;
    run_input_calls b calls'
  end.

Fixpoint run_output_calls (b : nat) (calls : list cb_call) : world_op unit :=
  match calls with
  | [] => ret tt
  | c :: calls' =>
    when (call_id c =? OUTBUF_CB)%nat (be_outbuf_cb b c) ;;
    run_output_calls b calls'
  end.

(** An operation on the input or output, and the callbacks it has caused. *)
Definition on_input {T} (b : nat) (f : evbuffer -> option (T * evbuffer)) : world_op T :=
  let! bev := the_bev b in
  let! (r, buf) := lift (f (input bev)) in
  update_bev b (fun bev => bev <| input := buf |>) ;;
  run_input_calls b (drop (length (cb_calls (input bev))) (cb_calls buf)) ;;
  ret r.

Definition on_output {T} (b : nat) (f : evbuffer -> option (T * evbuffer)) : world_op T :=
  let! bev := the_bev b in
  let! (r, buf) := lift (f (output bev)) in
  update_bev b (fun bev => bev <| output := buf |>) ;;
  run_output_calls b (drop (length (cb_calls (output bev))) (cb_calls buf)) ;;
  ret r.

Definition bufferevent_write (b : nat) (data : list Z) : world_op Z :=
  let! r := on_output b (fun buf => evbuffer_add buf data) in
  ret (if r =? -1 then -1 else 0).

(** The buffer that is emptied comes back. *)
Definition bufferevent_write_buffer (b : nat) (buf : evbuffer) : world_op (Z * evbuffer) :=
  let! (r, buf') := on_output b (fun out => '(r, out', buf') ← evbuffer_add_buffer false out buf; Some ((r, buf'), out')) in
  ret (if r =? -1 then -1 else 0, buf').

Definition bufferevent_read (b : nat) (size : Z) : world_op (Z * list Z) :=
  let! (n, data) := on_input b (fun buf => '(n, data, buf') ← evbuffer_remove buf size; Some ((n, data), buf')) in
  ret (wrap size_bits n, data).

Definition bufferevent_read_buffer (b : nat) (buf : evbuffer) : world_op (Z * evbuffer) :=
  on_input b (fun inp => '(r, buf', inp') ← evbuffer_add_buffer false buf inp; Some ((r, buf'), inp')).

Definition bufferevent_enable (b : nat) (event : Z) : world_op Z :=
  let! bev := the_bev b in
  let impl_events := if negb (read_suspended bev =? 0) then Z.ldiff event EV_READ else event in
  let impl_events := if negb (write_suspended bev =? 0) then Z.ldiff impl_events EV_WRITE else impl_events in
  update_bev b (fun bev => bev <| enabled := Z.lor (enabled bev) event |>) ;;
  if impl_events =? 0 then ret 0 else
  let! r := be_enable b impl_events in
  ret (if r <? 0 then -1 else 0).

Definition bufferevent_disable (b : nat) (event : Z) : world_op Z :=
  update_bev b (fun bev => bev <| enabled := Z.ldiff (enabled bev) event |>) ;;
  let! r := be_disable b event in
  ret (if r <? 0 then -1 else 0).

Definition bufferevent_disable_hard (b : nat) (event : Z) : world_op Z :=
  update_bev b (fun bev => bev <| enabled := Z.ldiff (enabled bev) event |>) ;;
  update_bev b (fun bev => bev <| connecting := false |>) ;;
  let! r := be_disable b event in
  ret (if r <? 0 then -1 else 0).

Definition bufferevent_get_enabled (b : nat) : world_op Z := let! bev := the_bev b in ret (enabled bev).

Definition bufferevent_set_timeouts (b : nat) (tv_read tv_write : option timeval) : world_op Z :=
  update_bev b (fun bev => bev <| timeout_read := default evutil_timerclear tv_read |>) ;;
  update_bev b (fun bev => bev <| timeout_write := default evutil_timerclear tv_write |>) ;;
  be_adj_timeouts b.

Definition bufferevent_settimeout (b : nat) (secs_read secs_write : Z) : world_op unit :=
  let tv s := if s =? 0 then None else Some {| tv_sec := s; tv_usec := 0 |} in
  let! _ := bufferevent_set_timeouts b (tv secs_read) (tv secs_write) in ret tt.

(** ** Watermarks *)

Definition EVBUFFER_CB_INTERNAL_FLAGS : Z := 0xffff0000.

Definition change_cb_flags (id : nat) (f : Z -> Z) (buf : evbuffer) : evbuffer :=
  set_cbs buf (deferred_queued buf) (refcnt buf)
    (map (fun e => if (cb_id e =? id)%nat then {| cb_id := cb_id e; cb_flags := f (cb_flags e) |} else e) (callbacks buf))
    (cb_calls buf).

Definition evbuffer_cb_set_flags (id : nat) (fl : Z) (buf : evbuffer) : evbuffer :=
  change_cb_flags id (fun old => Z.lor old (Z.ldiff fl EVBUFFER_CB_INTERNAL_FLAGS)) buf.

Definition evbuffer_cb_clear_flags (id : nat) (fl : Z) (buf : evbuffer) : evbuffer :=
  change_cb_flags id (fun old => Z.ldiff old (Z.ldiff fl EVBUFFER_CB_INTERNAL_FLAGS)) buf.

Definition set_read_watermark (b : nat) (highmark : Z) : world_op unit :=
  let! bev := the_bev b in
  if negb (highmark =? 0) then
    when (negb (read_watermarks_cb bev))
      (update_bev b (fun bev => bev <| read_watermarks_cb := true |> <| input := evbuffer_add_cb (input bev) WM_CB |>)) ;;
    update_bev b (fun bev => bev <| input := evbuffer_cb_set_flags WM_CB (Z.lor EVBUFFER_CB_ENABLED EVBUFFER_CB_NODEFER) (input bev) |>) ;;
    let! bev := the_bev b in
    if highmark <? evbuffer_get_length (input bev) then bufferevent_suspend_read b BEV_SUSPEND_WM
    else if evbuffer_get_length (input bev) <? highmark then bufferevent_unsuspend_read b BEV_SUSPEND_WM
    else ret tt
  else
    when (read_watermarks_cb bev)
      (update_bev b (fun bev => bev <| input := evbuffer_cb_clear_flags WM_CB EVBUFFER_CB_ENABLED (input bev) |>)) ;;
    bufferevent_unsuspend_read b BEV_SUSPEND_WM.

Definition bufferevent_setwatermark (b : nat) (events lowmark highmark : Z) : world_op unit :=
  when (has events EV_WRITE) (update_bev b (fun bev => bev <| wm_write := {| low := lowmark; high := highmark |} |>)) ;;
  when (has events EV_READ)
    (update_bev b (fun bev => bev <| wm_read := {| low := lowmark; high := highmark |} |>) ;;
     set_read_watermark b highmark).

(** ** References *)

Definition bufferevent_remove_from_rate_limit_group_internal (b : nat) (unsuspend : bool) : world_op Z :=
  let! bev := the_bev b in
  match rate_limiting bev with
  | Some rl =>
    match group rl with
    | Some g =>
      update_bev b (fun bev => bev <| rate_limiting := Some (rl <| group := None |>) |>) ;;
      update_group g (fun gr => gr <| n_members := n_members gr - 1 |>) ;;
      let! gr := the_group g in
      let! l := lift (tailq_remove b (members gr)) in
      update_group g (fun gr => gr <| members := l |>)
    | None => ret tt
    end
  | None => ret tt
  end ;;
  when unsuspend
    (bufferevent_unsuspend_read b BEV_SUSPEND_BW_GROUP ;;
     bufferevent_unsuspend_write b BEV_SUSPEND_BW_GROUP) ;;
  ret 0.

(** 1 when the last reference is gone; nothing lies under these bufferevents. *)
Definition _bufferevent_decref_and_unlock (b : nat) : world_op Z :=
  let! bev := the_bev b in
  assert (0 <? bev_refcnt bev) ;;
  update_bev b (fun bev => bev <| bev_refcnt := bev_refcnt bev - 1 |>) ;;
  if negb (bev_refcnt bev - 1 =? 0) then ret 0 else
  be_destruct b ;;
  let! bev := the_bev b in
  match rate_limiting bev with
  | Some rl =>
    match group rl with
    | Some _ => let! _ := bufferevent_remove_from_rate_limit_group_internal b false in ret tt
    | None => ret tt
    end
  | None => ret tt
  end ;;
  modify (fun w => w <| bevs := delete b (bevs w) |>) ;;
  ret 1.

Definition bufferevent_decref := _bufferevent_decref_and_unlock.

Definition bufferevent_free (b : nat) : world_op unit :=
  bufferevent_setcb b None None None ;;
  let! _ := _bufferevent_decref_and_unlock b in ret tt.

(** ** Deferred callbacks *)

(** The callback of the queue, which has taken the entry off; with and without locks. *)
Definition bufferevent_run_deferred_callbacks_locked (b : nat) : world_op unit :=
  let! bev := the_bev b in
  match errorcb bev with
  | Some cb =>
    when (has (eventcb_pending bev) BEV_EVENT_CONNECTED)
      (update_bev b (fun bev => bev <| eventcb_pending := Z.ldiff (eventcb_pending bev) BEV_EVENT_CONNECTED |>) ;;
       user (EventCallback cb b BEV_EVENT_CONNECTED))
  | None => ret tt
  end ;;
  let! bev := the_bev b in
  match readcb bev with
  | Some cb =>
    when (readcb_pending bev)
      (update_bev b (fun bev => bev <| readcb_pending := false |>) ;; user (ReadCallback cb b))
  | None => ret tt
  end ;;
  let! bev := the_bev b in
  match writecb bev with
  | Some cb =>
    when (writecb_pending bev)
      (update_bev b (fun bev => bev <| writecb_pending := false |>) ;; user (WriteCallback cb b))
  | None => ret tt
  end ;;
  let! bev := the_bev b in
  match errorcb bev with
  | Some cb =>
    when (negb (eventcb_pending bev =? 0))
      (update_bev b (fun bev => bev <| eventcb_pending := 0 |>) ;; user (EventCallback cb b (eventcb_pending bev)))
  | None => ret tt
  end ;;
  let! _ := _bufferevent_decref_and_unlock b in ret tt.

(** The version that gives up the lock around each callback. *)
Definition bufferevent_run_deferred_callbacks_unlocked := bufferevent_run_deferred_callbacks_locked.

(** The first entry of the queue runs. *)
Definition run_deferred : world_op unit :=
  let! q := asks deferred_queue in
  match q with
  | [] => ret tt
  | b :: q' =>
    modify (fun w => w <| deferred_queue := q' |>) ;;
    update_bev b (fun bev => bev <| deferred_cb_queued := false |>) ;;
    bufferevent_run_deferred_callbacks_locked b
  end.
End generic.
End bev.
