(* ===== verification/RateLimit.v ===== *)
(** Rate limits of bufferevents and of groups of them ([bufferevent_ratelim.c]): what may be
    read and written now, what is suspended when a bucket is empty, and the timers that
    fill it again. *)

From stdpp Require Import gmap.
From S2P Require Import Prelude StateOp MinHeap EvChain Evbuffer EventData TokenBucket Bev.

Definition MAX_TO_READ_EVER : Z := 16384.
Definition MAX_TO_WRITE_EVER : Z := 16384.

Definition group_suspended (d : direction) (g : bufferevent_rate_limit_group) : bool :=
  match d with Reading => group_read_suspended g | Writing => group_write_suspended g end.
Definition set_group_suspended (d : direction) (v : bool) (g : bufferevent_rate_limit_group) : bufferevent_rate_limit_group :=
  match d with Reading => g <| group_read_suspended := v |> | Writing => g <| group_write_suspended := v |> end.
Definition pending_unsuspend (d : direction) (g : bufferevent_rate_limit_group) : bool :=
  match d with Reading => pending_unsuspend_read g | Writing => pending_unsuspend_write g end.
Definition set_pending_unsuspend (d : direction) (v : bool) (g : bufferevent_rate_limit_group) : bufferevent_rate_limit_group :=
  match d with Reading => g <| pending_unsuspend_read := v |> | Writing => g <| pending_unsuspend_write := v |> end.
Definition add_total (d : direction) (n : Z) (g : bufferevent_rate_limit_group) : bufferevent_rate_limit_group :=
  match d with
  | Reading => g <| total_read := wrap 64 (total_read g + n) |>
  | Writing => g <| total_written := wrap 64 (total_written g + n) |>
  end.

(** A limit less [n], in [ev_ssize_t]. *)
Definition take_tokens {A : Arch} (d : direction) (n : Z) (b : ev_token_bucket) : ev_token_bucket :=
  set_limit d (swrap size_bits (limit d b - n)) b.

Section ratelim.
Context {A : Arch} {M : Allocator} {E : BevEnv} {O : bufferevent_ops}.

Definition set_rlim (b : nat) (rl : bufferevent_rate_limit) : world_op unit :=
  update_bev b (fun bev => bev <| rate_limiting := Some rl |>).

(** The rate limit of a bufferevent that has one. *)
Definition the_rlim (b : nat) : world_op bufferevent_rate_limit :=
  let! bev := the_bev b in lift (rate_limiting bev).

Definition current_tick (c : ev_token_bucket_cfg) : world_op Z :=
  let! t := asks now in lift (ev_token_bucket_get_tick t c).

Definition bufferevent_update_buckets (b : nat) : world_op unit :=
  let! rl := the_rlim b in
  let! c := lift (cfg rl) in
  let! c := the_cfg c in
  let! tick := current_tick c in
  when (negb (tick =? last_updated (bucket rl)))
    (set_rlim b (rl <| bucket := snd (ev_token_bucket_update (bucket rl) c tick) |>)).

(** The timer that fills the buckets of one bufferevent. *)
Definition refill_add (b : nat) : world_op Z :=
  let! r := event_result in
  when (r =? 0) (let! rl := the_rlim b in set_rlim b (rl <| refill_pending := true |>)) ;;
  ret r.

Definition refill_del (b : nat) : world_op unit :=
  let! _ := event_result in
  let! rl := the_rlim b in set_rlim b (rl <| refill_pending := false |>).

(** The share of a member of the group; its limit is divided as a signed number. *)
Definition group_share (d : direction) (b g : nat) : world_op Z :=
  let! gr := the_group g in
  if group_suspended d gr then bufferevent_suspend d b BEV_SUSPEND_BW_GROUP ;; ret 0 else
  if n_members gr =? 0 then undefined else
  let share := Z.quot (limit d (rate_limit gr)) (n_members gr) in
  ret (if share <? min_share gr then min_share gr else share).

Definition _bufferevent_get_rlim_max (d : direction) (b : nat) : world_op Z :=
  let max_so_far := match d with Reading => MAX_TO_READ_EVER | Writing => MAX_TO_WRITE_EVER end in
  let! bev := the_bev b in
  match rate_limiting bev with
  | None => ret max_so_far
  | Some rl =>
    let! max_so_far := match cfg rl with
      | Some _ =>
        bufferevent_update_buckets b ;;
        let! rl := the_rlim b in ret (limit d (bucket rl))
      | None => ret max_so_far
      end in
    let! max_so_far := match group rl with
      | Some g => let! share := group_share d b g in ret (if share <? max_so_far then share else max_so_far)
      | None => ret max_so_far
      end in
    ret (if max_so_far <? 0 then 0 else max_so_far)
  end.

Definition _bufferevent_get_read_max := _bufferevent_get_rlim_max Reading.
Definition _bufferevent_get_write_max := _bufferevent_get_rlim_max Writing.

(** ** Groups *)

Fixpoint suspend_members (d : direction) (l : list nat) : world_op unit :=
  match l with
  | [] => ret tt
  | b :: l' => bufferevent_suspend d b BEV_SUSPEND_BW_GROUP ;; suspend_members d l'
  end.

Definition _bev_group_suspend (d : direction) (g : nat) : world_op unit :=
  update_group g (fun gr => set_pending_unsuspend d false (set_group_suspended d true gr)) ;;
  let! gr := the_group g in
  suspend_members d (members gr).

Definition _bev_group_suspend_reading := _bev_group_suspend Reading.
Definition _bev_group_suspend_writing := _bev_group_suspend Writing.

(** The place in the list of a random member. *)
Definition _bev_group_random_element (gr : bufferevent_rate_limit_group) : world_op nat :=
  if n_members gr =? 0 then ret 0%nat else
  assert (bool_decide (members gr <> [])) ;;
  let! n := asks rands in
  modify (fun w => w <| rands := S n |>) ;;
  let which := Z.to_nat (Z.rem (weakrand n) (n_members gr)) in
  assert (which <? length (members gr))%nat ;;
  ret which.

Fixpoint unsuspend_members (d : direction) (l : list nat) : world_op unit :=
  match l with
  | [] => ret tt
  | b :: l' => bufferevent_unsuspend d b BEV_SUSPEND_BW_GROUP ;; unsuspend_members d l'
  end.

(** [FOREACH_RANDOM_ORDER]: from a random member to the end, then from the start to it. *)
Definition random_order (which : nat) (l : list nat) : list nat := drop which l ++ take which l.

Definition _bev_group_unsuspend (d : direction) (g : nat) : world_op unit :=
  update_group g (set_group_suspended d false) ;;
  let! gr := the_group g in
  let! which := _bev_group_random_element gr in
  unsuspend_members d (random_order which (members gr)) ;;
  update_group g (set_pending_unsuspend d false).

Definition _bev_group_unsuspend_reading := _bev_group_unsuspend Reading.
Definition _bev_group_unsuspend_writing := _bev_group_unsuspend Writing.

Definition other (d : direction) : direction := match d with Reading => Writing | Writing => Reading end.

(** After [bytes] bytes: the buckets of the bufferevent and of its group pay for them. *)
Definition _bufferevent_decrement_buckets (d : direction) (b : nat) (bytes : Z) : world_op Z :=
  let! bev := the_bev b in
  match rate_limiting bev with
  | None => ret 0
  | Some rl =>
    let! r := match cfg rl with
      | Some _ =>
        set_rlim b (rl <| bucket := take_tokens d bytes (bucket rl) |>) ;;
        if limit d (take_tokens d bytes (bucket rl)) <=? 0 then
          bufferevent_suspend d b BEV_SUSPEND_BW ;;
          let! r := refill_add b in ret (if r <? 0 then -1 else 0)
        else if has (suspended d bev) BEV_SUSPEND_BW then
          when (negb (has (suspended (other d) bev) BEV_SUSPEND_BW)) (refill_del b) ;;
          bufferevent_unsuspend d b BEV_SUSPEND_BW ;; ret 0
        else ret 0
      | None => ret 0
      end in
    match group rl with
    | Some g =>
      update_group g (fun gr => gr <| rate_limit := take_tokens d bytes (rate_limit gr) |>) ;;
      update_group g (add_total d bytes) ;;
      let! gr := the_group g in
      if limit d (rate_limit gr) <=? 0 then _bev_group_suspend d g
      else when (group_suspended d gr) (_bev_group_unsuspend d g)
    | None => ret tt
    end ;;
    ret r
  end.

Definition _bufferevent_decrement_read_buckets := _bufferevent_decrement_buckets Reading.
Definition _bufferevent_decrement_write_buckets := _bufferevent_decrement_buckets Writing.

(** One direction of [_bev_refill_callback]; 1 when it must wait for another refill. *)
Definition refill_direction (d : direction) (b : nat) : world_op bool :=
  let! bev := the_bev b in
  let! rl := the_rlim b in
  if has (suspended d bev) BEV_SUSPEND_BW then
    if 0 <? limit d (bucket rl) then bufferevent_unsuspend d b BEV_SUSPEND_BW ;; ret false else ret true
  else ret false.

(** The timer of a bufferevent; its event is not pending any more when it runs. *)
Definition _bev_refill_callback (b : nat) : world_op unit :=
  let! bev := the_bev b in
  match rate_limiting bev with
  | None => ret tt
  | Some rl =>
    match cfg rl with
    | None => ret tt
    | Some c =>
      let! c := the_cfg c in
      let! tick := current_tick c in
      set_rlim b (rl <| bucket := snd (ev_token_bucket_update (bucket rl) c tick) |>) ;;
      let! again_read := refill_direction Reading b in
      let! again_write := refill_direction Writing b in
      when (again_read || again_write) (let! _ := refill_add b in ret tt)
    end
  end.

(** The base has taken the timer out of its heap and calls it. *)
Definition run_refill (b : nat) : world_op unit :=
  let! rl := the_rlim b in
  set_rlim b (rl <| refill_pending := false |>) ;;
  _bev_refill_callback b.

Definition refill_group_direction (d : direction) (g : nat) : world_op unit :=
  let! gr := the_group g in
  when (pending_unsuspend d gr || (group_suspended d gr && (min_share gr <=? limit d (rate_limit gr))))
    (_bev_group_unsuspend d g).

Definition _bev_group_refill_callback (g : nat) : world_op unit :=
  let! gr := the_group g in
  let! tick := current_tick (rate_limit_cfg gr) in
  update_group g (fun gr => gr <| rate_limit := snd (ev_token_bucket_update (rate_limit gr) (rate_limit_cfg gr) tick) |>) ;;
  refill_group_direction Reading g ;;
  refill_group_direction Writing g.

(** ** Setting limits *)

Definition new_rlim : bufferevent_rate_limit :=
  {| group := None; bucket := {| read_limit := 0; write_limit := 0; last_updated := 0 |}; cfg := None;
     refill_initialized := false; refill_pending := false |}.

Definition start_direction (d : direction) (b : nat) : world_op bool :=
  let! rl := the_rlim b in
  if 0 <? limit d (bucket rl) then bufferevent_unsuspend d b BEV_SUSPEND_BW ;; ret false
  else bufferevent_suspend d b BEV_SUSPEND_BW ;; ret true.

Definition remove_rate_limit (b : nat) : world_op Z :=
  let! bev := the_bev b in
  match rate_limiting bev with
  | Some rl =>
    set_rlim b (rl <| cfg := None |>) ;;
    bufferevent_unsuspend_read b BEV_SUSPEND_BW ;;
    bufferevent_unsuspend_write b BEV_SUSPEND_BW ;;
    when (refill_initialized rl) (refill_del b)
  | None => ret tt
  end ;;
  ret 0.

Definition bufferevent_set_rate_limit (b : nat) (c : option nat) : world_op Z :=
  match c with
  | None => remove_rate_limit b
  | Some c =>
    let! cf := the_cfg c in
    let! tick := current_tick cf in
    let! bev := the_bev b in
    if bool_decide (rate_limiting bev ≫= cfg = Some c) then ret 0 else
    let rlim := match rate_limiting bev with
                | Some rl => Some rl
                | None => match mm_malloc (bev_sizeof struct_bufferevent_rate_limit) with Some _ => Some new_rlim | None => None end
                end in
    match rlim with
    | None => ret (-1)
    | Some rlim =>
      let reinit := bool_decide (is_Some (cfg rlim)) in
      set_rlim b (rlim <| cfg := Some c |> <| bucket := ev_token_bucket_init (bucket rlim) cf tick reinit |>) ;;
      when reinit (assert (refill_initialized rlim) ;; refill_del b) ;;
      (let! rl := the_rlim b in set_rlim b (rl <| refill_initialized := true |>)) ;;
      let! suspended_read := start_direction Reading b in
      let! suspended_write := start_direction Writing b in
      when (suspended_read || suspended_write) (let! _ := refill_add b in ret tt) ;;
      ret 0
    end
  end.

(** [EV_SSIZE_MAX] bounds the share; the share is no more than a tick gives. *)
Definition bufferevent_rate_limit_group_set_min_share (g : nat) (share : Z) : world_op Z :=
  if EV_SSIZE_MAX <? share then ret (-1) else
  update_group g (fun gr => gr <| configured_min_share := share |>) ;;
  update_group g (fun gr =>
    let share := if read_rate (rate_limit_cfg gr) <? share then read_rate (rate_limit_cfg gr) else share in
    let share := if write_rate (rate_limit_cfg gr) <? share then write_rate (rate_limit_cfg gr) else share in
    gr <| min_share := share |>) ;;
  ret 0.

Definition bufferevent_rate_limit_group_new (c : nat) : world_op (option nat) :=
  let! cf := the_cfg c in
  let! tick := current_tick cf in
  match mm_malloc (bev_sizeof struct_bufferevent_rate_limit_group) with
  | None => ret None
  | Some _ =>
    let! g := new_id in
    let empty := {| read_limit := 0; write_limit := 0; last_updated := 0 |} in
    modify (fun w => w <| groups := <[g := {| members := []; rate_limit := ev_token_bucket_init empty cf tick false;
      rate_limit_cfg := cf; group_read_suspended := false; group_write_suspended := false; pending_unsuspend_read := false;
      pending_unsuspend_write := false; total_read := 0; total_written := 0; n_members := 0; min_share := 0;
      configured_min_share := 0 |}]> (groups w) |>) ;;
    let! _ := event_result in
    let! _ := bufferevent_rate_limit_group_set_min_share g 64 in
    ret (Some g)
  end.

Definition clip_group (d : direction) (c : ev_token_bucket_cfg) (b : ev_token_bucket) : ev_token_bucket :=
  if swrap size_bits (maximum d c) <? limit d b then set_limit d (swrap size_bits (maximum d c)) b else b.

Definition bufferevent_rate_limit_group_set_cfg (g : nat) (c : option nat) : world_op Z :=
  match c with
  | None => ret (-1)
  | Some c =>
    let! cf := the_cfg c in
    let! gr := the_group g in
    let same_tick := (tv_sec (tick_timeout (rate_limit_cfg gr)) =? tv_sec (tick_timeout cf))
                     && (tv_usec (tick_timeout (rate_limit_cfg gr)) =? tv_usec (tick_timeout cf)) in
    update_group g (fun gr => gr <| rate_limit_cfg := cf |>) ;;
    update_group g (fun gr => gr <| rate_limit := clip_group Writing cf (clip_group Reading cf (rate_limit gr)) |>) ;;
    when (negb same_tick) (let! _ := event_result in ret tt) ;;
    let! gr := the_group g in
    let! _ := bufferevent_rate_limit_group_set_min_share g (wrap size_bits (configured_min_share gr)) in
    ret 0
  end.

Definition bufferevent_rate_limit_group_free (g : nat) : world_op unit :=
  let! gr := the_group g in
  assert (n_members gr =? 0) ;;
  let! _ := event_result in
  modify (fun w => w <| groups := delete g (groups w) |>).

Definition bufferevent_remove_from_rate_limit_group (b : nat) : world_op Z :=
  bufferevent_remove_from_rate_limit_group_internal b true.

Definition bufferevent_add_to_rate_limit_group (b g : nat) : world_op Z :=
  let! bev := the_bev b in
  let rlim := match rate_limiting bev with
              | Some rl => Some rl
              | None => match mm_malloc (bev_sizeof struct_bufferevent_rate_limit) with
                        | Some _ => Some (new_rlim <| refill_initialized := true |>)
                        | None => None
                        end
              end in
  match rlim with
  | None => ret (-1)
  | Some rl =>
    set_rlim b rl ;;
    if bool_decide (group rl = Some g) then ret 0 else
    when (bool_decide (is_Some (group rl))) (let! _ := bufferevent_remove_from_rate_limit_group b in ret tt) ;;
    (let! rl := the_rlim b in set_rlim b (rl <| group := Some g |>)) ;;
    update_group g (fun gr => gr <| n_members := n_members gr + 1 |>) ;;
    update_group g (fun gr => gr <| members := members gr ++ [b] |>) ;;
    let! gr := the_group g in
    when (group_read_suspended gr) (bufferevent_suspend_read b BEV_SUSPEND_BW_GROUP) ;;
    when (group_write_suspended gr) (bufferevent_suspend_write b BEV_SUSPEND_BW_GROUP) ;;
    ret 0
  end.

(** ** For the application *)

Definition bufferevent_get_limit (d : direction) (b : nat) : world_op Z :=
  let! bev := the_bev b in
  match rate_limiting bev ≫= cfg with
  | Some _ => bufferevent_update_buckets b ;; let! rl := the_rlim b in ret (limit d (bucket rl))
  | None => ret EV_SSIZE_MAX
  end.

Definition bufferevent_get_read_limit := bufferevent_get_limit Reading.
Definition bufferevent_get_write_limit := bufferevent_get_limit Writing.
Definition bufferevent_get_max_to_read := _bufferevent_get_read_max.
Definition bufferevent_get_max_to_write := _bufferevent_get_write_max.

Definition bufferevent_rate_limit_group_get_limit (d : direction) (g : nat) : world_op Z :=
  let! gr := the_group g in ret (limit d (rate_limit gr)).
Definition bufferevent_rate_limit_group_get_read_limit := bufferevent_rate_limit_group_get_limit Reading.
Definition bufferevent_rate_limit_group_get_write_limit := bufferevent_rate_limit_group_get_limit Writing.

Definition bufferevent_decrement_limit (d : direction) (b : nat) (decr : Z) : world_op Z :=
  let! bev := the_bev b in
  let! rl := lift (rate_limiting bev) in
  assert (bool_decide (is_Some (cfg rl))) ;;
  let old_limit := limit d (bucket rl) in
  let new_limit := limit d (take_tokens d decr (bucket rl)) in
  set_rlim b (rl <| bucket := take_tokens d decr (bucket rl) |>) ;;
  if (0 <? old_limit) && (new_limit <=? 0) then
    bufferevent_suspend d b BEV_SUSPEND_BW ;;
    let! r := refill_add b in ret (if r <? 0 then -1 else 0)
  else if (old_limit <=? 0) && (0 <? new_limit) then
    when (negb (has (suspended (other d) bev) BEV_SUSPEND_BW)) (refill_del b) ;;
    bufferevent_unsuspend d b BEV_SUSPEND_BW ;; ret 0
  else ret 0.

Definition bufferevent_decrement_read_limit := bufferevent_decrement_limit Reading.
Definition bufferevent_decrement_write_limit := bufferevent_decrement_limit Writing.

Definition bufferevent_rate_limit_group_decrement (d : direction) (g : nat) (decr : Z) : world_op Z :=
  let! gr := the_group g in
  let old_limit := limit d (rate_limit gr) in
  let new_limit := limit d (take_tokens d decr (rate_limit gr)) in
  update_group g (fun gr => gr <| rate_limit := take_tokens d decr (rate_limit gr) |>) ;;
  (if (0 <? old_limit) && (new_limit <=? 0) then _bev_group_suspend d g
   else when ((old_limit <=? 0) && (0 <? new_limit)) (_bev_group_unsuspend d g)) ;;
  ret 0.

Definition bufferevent_rate_limit_group_decrement_read := bufferevent_rate_limit_group_decrement Reading.
Definition bufferevent_rate_limit_group_decrement_write := bufferevent_rate_limit_group_decrement Writing.

Definition bufferevent_rate_limit_group_get_totals (g : nat) : world_op (Z * Z) :=
  let! gr := the_group g in ret (total_read gr, total_written gr).
Definition bufferevent_rate_limit_group_reset_totals (g : nat) : world_op unit :=
  update_group g (fun gr => gr <| total_read := 0 |> <| total_written := 0 |>).
End ratelim.
