(* ===== verification/BevSocket.v ===== *)
(** Bufferevents of sockets ([bufferevent_sock.c]): reading into the input, writing from the
    output, connecting.  What the system calls give is an argument. *)

From stdpp Require Import gmap.
From S2P Require Import Prelude StateOp MinHeap EvChain Evbuffer EvExpand EvIO EventData TokenBucket Bev RateLimit.

Definition BEV_SUSPEND_LOOKUP : Z := 0x08.

Section socket.
Context {A : Arch} {M : Allocator} {E : BevEnv}.

Definition be_socket_enable (b : nat) (event : Z) : world_op Z :=
  let! bev := the_bev b in
  let! r := (if has event EV_READ then _bufferevent_add_event b Reading (timeout_read bev) else ret 0) in
  if r =? -1 then ret (-1) else
  let! r := (if has event EV_WRITE then _bufferevent_add_event b Writing (timeout_write bev) else ret 0) in
  if r =? -1 then ret (-1) else ret 0.

(** The write event stays while a connection is being made. *)
Definition be_socket_disable (b : nat) (event : Z) : world_op Z :=
  let! r := (if has event EV_READ then bev_event_del b Reading else ret 0) in
  if r =? -1 then ret (-1) else
  let! bev := the_bev b in
  let! r := (if has event EV_WRITE && negb (connecting bev) then bev_event_del b Writing else ret 0) in
  if r =? -1 then ret (-1) else ret 0.

Definition be_socket_destruct (b : nat) : world_op unit :=
  let! bev := the_bev b in
  let! _ := bev_event_del b Reading in
  let! _ := bev_event_del b Writing in
  when (has (options bev) BEV_OPT_CLOSE_ON_FREE && (0 <=? bev_fd bev))
    (modify (fun w => w <| closed := closed w ++ [bev_fd bev] |>)).

Definition be_socket_adj_timeouts (b : nat) : world_op Z :=
  let! bev := the_bev b in
  let! r1 := (if ev_added (ev_read bev) then _bufferevent_add_event b Reading (timeout_read bev) else ret 0) in
  let! r2 := (if ev_added (ev_write bev) then _bufferevent_add_event b Writing (timeout_write bev) else ret 0) in
  ret (if (r1 <? 0) || (r2 <? 0) then -1 else 0).

(** Data was added to the output: writing starts if it may. *)
Definition bufferevent_socket_outbuf_cb (b : nat) (cbinfo : cb_call) : world_op unit :=
  let! bev := the_bev b in
  when (negb (call_n_added cbinfo =? 0) && has (enabled bev) EV_WRITE && negb (ev_added (ev_write bev)) && (write_suspended bev =? 0))
    (let! _ := _bufferevent_add_event b Writing (timeout_write bev) in ret tt).

#[export] Instance bufferevent_ops_socket : bufferevent_ops := {|
  be_enable := be_socket_enable; be_disable := be_socket_disable; be_destruct := be_socket_destruct;
  be_adj_timeouts := be_socket_adj_timeouts; be_outbuf_cb := bufferevent_socket_outbuf_cb |}.

Definition be_socket_flush (b : nat) (iotype : Z) (mode : Z) : world_op Z := ret 0.

(** ** Reading *)

(** How a callback of the socket can end: the data is in, an error or end of file for the
    application, or nothing to do. *)
Inductive io_end := Reached (res : Z) | Failed (what : Z) | Nothing.

Definition freeze_input (v : bool) (b : nat) : world_op unit :=
  update_bev b (fun bev => bev <| input := set_freeze (input bev) (freeze_start (input bev)) v |>).
Definition freeze_output (v : bool) (b : nat) : world_op unit :=
  update_bev b (fun bev => bev <| output := set_freeze (output bev) v (freeze_end (output bev)) |>).

(** The amount to read: up to the high watermark and the rate limit; [None] when the
    watermark has been reached. *)
Definition read_howmuch (b : nat) : world_op (option Z) :=
  let! bev := the_bev b in
  let high := high (wm_read bev) in
  let howmuch := if negb (high =? 0) then swrap size_bits (high - evbuffer_get_length (input bev)) else -1 in
  if negb (high =? 0) && (howmuch <=? 0) then bufferevent_suspend_read b BEV_SUSPEND_WM ;; ret None else
  let! readmax := _bufferevent_get_read_max b in
  ret (Some (if (howmuch <? 0) || (readmax <? howmuch) then readmax else howmuch)).

(** [retriable] says whether the error of a failed call means to try again. *)
Definition socket_read (b : nat) (readable : Z) (recv : list Z -> recv_result) (retriable : bool) : world_op io_end :=
  let! howmuch := read_howmuch b in
  match howmuch with
  | None => ret Nothing
  | Some howmuch =>
    let! bev := the_bev b in
    if negb (read_suspended bev =? 0) then ret Nothing else
    freeze_input false b ;;
    let! res := on_input b (fun buf => evbuffer_read buf readable recv (swrap 32 howmuch)) in
    freeze_input true b ;;
    if res =? -1 then ret (if retriable then Nothing else Failed BEV_EVENT_ERROR)
    else if res =? 0 then ret (Failed BEV_EVENT_EOF)
    else ret (Reached res)
  end.

Definition bufferevent_readcb (b : nat) (event : Z) (readable : Z) (recv : list Z -> recv_result) (retriable : bool) : world_op unit :=
  bufferevent_incref b ;;
  let! r := (if event =? EV_TIMEOUT then ret (Failed BEV_EVENT_TIMEOUT) else socket_read b readable recv retriable) in
  match r with
  | Reached res =>
    let! _ := _bufferevent_decrement_read_buckets b res in
    let! bev := the_bev b in
    when (low (wm_read bev) <=? evbuffer_get_length (input bev)) (_bufferevent_run_readcb b)
  | Failed what =>
    let! _ := bufferevent_disable b EV_READ in
    _bufferevent_run_eventcb b (Z.lor BEV_EVENT_READING what)
  | Nothing => ret tt
  end ;;
  let! _ := _bufferevent_decref_and_unlock b in ret tt.

(** ** Writing *)

(** The end of connecting; [c] is what [evutil_socket_finished_connecting] gives.  The
    result says whether writing goes on, and whether a connection has just been made. *)
Definition finish_connecting (b : nat) (c : Z) : world_op (bool * bool) :=
  let! bev := the_bev b in
  if negb (connecting bev) then ret (true, false) else
  let c := if connection_refused bev then -1 else c in
  when (connection_refused bev) (update_bev b (fun bev => bev <| connection_refused := false |>)) ;;
  if c =? 0 then ret (false, false) else
  update_bev b (fun bev => bev <| connecting := false |>) ;;
  if c <? 0 then
    let! _ := bev_event_del b Writing in
    let! _ := bev_event_del b Reading in
    _bufferevent_run_eventcb b BEV_EVENT_ERROR ;; ret (false, false)
  else
    _bufferevent_run_eventcb b BEV_EVENT_CONNECTED ;;
    let! bev := the_bev b in
    if negb (has (enabled bev) EV_WRITE) || negb (write_suspended bev =? 0) then
      let! _ := bev_event_del b Writing in ret (false, true)
    else ret (true, true).

(** The end of a write: the event goes when nothing is left. *)
Definition stop_when_empty (b : nat) : world_op unit :=
  let! bev := the_bev b in
  when (evbuffer_get_length (output bev) =? 0) (let! _ := bev_event_del b Writing in ret tt).

Definition socket_write (b : nat) (send : list (list Z) -> Z) (retriable : bool) : world_op io_end :=
  let! atmost := _bufferevent_get_write_max b in
  let! bev := the_bev b in
  if negb (write_suspended bev =? 0) then ret Nothing else
  if evbuffer_get_length (output bev) =? 0 then stop_when_empty b ;; ret (Reached 0) else
  freeze_output false b ;;
  let! res := on_output b (fun buf => evbuffer_write_atmost buf send atmost) in
  freeze_output true b ;;
  if res =? -1 then (if retriable then stop_when_empty b ;; ret Nothing else ret (Failed BEV_EVENT_ERROR))
  else if res =? 0 then ret (Failed BEV_EVENT_EOF)
  else if res <=? 0 then ret (Failed 0)
  else
    let! _ := _bufferevent_decrement_write_buckets b res in
    stop_when_empty b ;;
    ret (Reached res).

Definition bufferevent_writecb (b : nat) (event : Z) (c : Z) (send : list (list Z) -> Z) (retriable : bool) : world_op unit :=
  bufferevent_incref b ;;
  let! (r, connected) := (if event =? EV_TIMEOUT then ret (Failed BEV_EVENT_TIMEOUT, false) else
      let! (go, connected) := finish_connecting b c in
      if (go : bool) then let! r := socket_write b send retriable in ret (r, connected) else ret (Nothing, connected)) in
  match r with
  | Reached res =>
    let! bev := the_bev b in
    when ((negb (res =? 0) || negb connected) && (evbuffer_get_length (output bev) <=? low (wm_write bev)))
      (_bufferevent_run_writecb b)
  | Failed what =>
    let! _ := bufferevent_disable b EV_WRITE in
    _bufferevent_run_eventcb b (Z.lor BEV_EVENT_WRITING what)
  | Nothing => ret tt
  end ;;
  let! _ := _bufferevent_decref_and_unlock b in ret tt.

(** ** Making and connecting *)

Definition no_event (io : bool) : bev_event := {| ev_io := io; ev_added := false; ev_tv := None |}.

(** [bufferevent_init_common] on a zeroed struct; [None] when the options do not fit. *)
Definition bufferevent_init_common (io : bool) (fd opts : Z) : option bufferevent :=
  if has opts BEV_OPT_UNLOCK_CALLBACKS && negb (has opts BEV_OPT_DEFER_CALLBACKS) then None else
  Some {| input := evbuffer_new; output := evbuffer_new; ev_read := no_event io; ev_write := no_event io;
          wm_read := {| low := 0; high := 0 |}; wm_write := {| low := 0; high := 0 |}; readcb := None; writecb := None;
          errorcb := None; timeout_read := evutil_timerclear; timeout_write := evutil_timerclear; enabled := EV_WRITE;
          read_watermarks_cb := false; readcb_pending := false; writecb_pending := false; eventcb_pending := 0;
          connecting := false; connection_refused := false; read_suspended := 0; write_suspended := 0; dns_error := 0;
          deferred_cb_queued := false; options := opts; bev_refcnt := 1; rate_limiting := None; bev_fd := fd; partner := None |}.

Definition bufferevent_socket_new (fd opts : Z) : world_op (option nat) :=
  match mm_malloc (bev_sizeof struct_bufferevent) with
  | None => ret None
  | Some _ =>
    match bufferevent_init_common true fd opts with
    | None => ret None
    | Some bev =>
      let! b := new_id in
      modify (fun w => w <| bevs := <[b := bev <| output := evbuffer_add_cb (output bev) OUTBUF_CB |>]> (bevs w) |>) ;;
      freeze_input true b ;;
      freeze_output true b ;;
      ret (Some b)
    end
  end.

Definition bufferevent_new (fd : Z) (rcb wcb ecb : option nat) : world_op (option nat) :=
  let! b := bufferevent_socket_new fd 0 in
  match b with
  | None => ret None
  | Some b => bufferevent_setcb b rcb wcb ecb ;; ret (Some b)
  end.

Definition be_socket_setfd (b : nat) (fd : Z) : world_op unit :=
  let! _ := bev_event_del b Reading in
  let! _ := bev_event_del b Writing in
  update_bev b (fun bev => bev <| bev_fd := fd |> <| ev_read := no_event true |> <| ev_write := no_event true |>) ;;
  when (0 <=? fd) (let! bev := the_bev b in let! _ := bufferevent_enable b (enabled bev) in ret tt).

Definition bufferevent_setfd (b : nat) (fd : Z) : world_op Z := be_socket_setfd b fd ;; ret 0.

Definition bufferevent_getfd (b : nat) : world_op Z := let! bev := the_bev b in ret (bev_fd bev).

(** [fd] is the descriptor to use, the bufferevent's own or a new one ([own]), -1 when there
    is none; [r] what [evutil_socket_connect] gives, 0 when there is no address.  That a
    connection made at once makes the write event active is left to the base. *)
Definition bufferevent_socket_connect (b : nat) (fd : Z) (own : bool) (r : Z) : world_op Z :=
  bufferevent_incref b ;;
  let! result := (if fd <? 0 then ret (-1) else
    if r <? 0 then
      _bufferevent_run_eventcb b BEV_EVENT_ERROR ;;
      when own (modify (fun w => w <| closed := closed w ++ [fd] |>)) ;; ret (-1)
    else
    let! _ := bufferevent_setfd b fd in
    if r =? 0 then
      let! ok := be_socket_enable b EV_WRITE in
      if ok =? 0 then update_bev b (fun bev => bev <| connecting := true |>) ;; ret 0 else ret (-1)
    else if r =? 1 then update_bev b (fun bev => bev <| connecting := true |>) ;; ret 0
    else update_bev b (fun bev => bev <| connection_refused := true |> <| connecting := true |>) ;; ret 0) in
  let! _ := _bufferevent_decref_and_unlock b in
  ret result.

(** The answer of the resolver: an error, or the address that was tried. *)
Definition bufferevent_connect_getaddrinfo_cb (b : nat) (result fd : Z) (own : bool) (r : Z) : world_op unit :=
  bufferevent_unsuspend_write b BEV_SUSPEND_LOOKUP ;;
  bufferevent_unsuspend_read b BEV_SUSPEND_LOOKUP ;;
  (if negb (result =? 0) then
    update_bev b (fun bev => bev <| dns_error := result |>) ;;
    _bufferevent_run_eventcb b BEV_EVENT_ERROR
  else let! _ := bufferevent_socket_connect b fd own r in ret tt) ;;
  let! _ := _bufferevent_decref_and_unlock b in ret tt.

(** [known] says that the family is one of the three; [err] is what starting the lookup gives. *)
Definition bufferevent_socket_connect_hostname (b : nat) (known : bool) (port err : Z) : world_op Z :=
  if negb known then ret (-1) else
  if (port <? 1) || (65535 <? port) then ret (-1) else
  update_bev b (fun bev => bev <| dns_error := 0 |>) ;;
  bufferevent_suspend_write b BEV_SUSPEND_LOOKUP ;;
  bufferevent_suspend_read b BEV_SUSPEND_LOOKUP ;;
  bufferevent_incref b ;;
  if err =? 0 then ret 0 else
  bufferevent_unsuspend_write b BEV_SUSPEND_LOOKUP ;;
  bufferevent_unsuspend_read b BEV_SUSPEND_LOOKUP ;;
  ret (-1).

Definition bufferevent_socket_get_dns_error (b : nat) : world_op Z := let! bev := the_bev b in ret (dns_error bev).
End socket.
