(* ===== verification/BevInv.v ===== *)
(** When bufferevents are well-formed.  First what the elementary operations do to the
    store, as functions of one bufferevent: events, suspension flags, references,
    callbacks.  Then the invariant: why each flag of suspension is set, which events are
    added, what the buffers look like, and how groups, queue and references agree. *)

From stdpp Require Import gmap.
From S2P Require Import Prelude StateOp MinHeap EvChain Evbuffer EvbufferSpec EvExpand EvIO EvSpace EvSocket EventData TokenBucket Bev RateLimit BevSocket.

(** ** Flags *)

(** The flags are single bits. *)
Definition flag_bit (f : Z) : Prop := exists k, 0 <= k /\ f = 2 ^ k.

Lemma has_testbit x k : 0 <= k -> has x (2 ^ k) = Z.testbit x k.
Proof.
  intros Hk. unfold has. rewrite <- Z.shiftl_1_l.
  destruct (Z.testbit x k) eqn:E.
  - apply negb_true_iff, Z.eqb_neq. intros H. assert (Hb : Z.testbit (Z.land x (Z.shiftl 1 k)) k = false) by (rewrite H; apply Z.bits_0).
    rewrite Z.land_spec, E, Z.shiftl_spec, Z.sub_diag in Hb by done. done.
  - apply negb_false_iff, Z.eqb_eq. apply Z.bits_inj'. intros i Hi. rewrite Z.land_spec, Z.bits_0, Z.shiftl_spec by done.
    destruct (Z.eq_dec i k) as [->|]; [by rewrite E|].
    destruct (Z.testbit x i); [|done]. cbn [andb]. destruct (Z.ltb_spec (i - k) 0); [by apply Z.testbit_neg_r|].
    assert (0 < i - k) by lia. rewrite Z.bits_above_log2; [done | lia | cbn; lia].
Qed.

Lemma has_lor_flag x f g : flag_bit f -> flag_bit g -> has (Z.lor x f) g = has x g || bool_decide (f = g).
Proof.
  intros (i & Hi & ->) (k & Hk & ->). rewrite !has_testbit, Z.lor_spec, Z.pow2_bits_eqb by done. f_equal.
  destruct (Z.eqb_spec i k) as [->|Hne]; [by rewrite bool_decide_true|]. rewrite bool_decide_false; [done|].
  intros H. apply Hne, (Z.pow_inj_r 2); lia.
Qed.

Lemma has_ldiff x f g : flag_bit f -> flag_bit g -> has (Z.ldiff x f) g = has x g && negb (bool_decide (f = g)).
Proof.
  intros (i & Hi & ->) (k & Hk & ->). rewrite !has_testbit, Z.ldiff_spec, Z.pow2_bits_eqb by done. f_equal. f_equal.
  destruct (Z.eqb_spec i k) as [->|Hne]; [by rewrite bool_decide_true|]. rewrite bool_decide_false; [done|].
  intros H. apply Hne, (Z.pow_inj_r 2); lia.
Qed.

Lemma has_lor_any x y f : flag_bit f -> has (Z.lor x y) f = has x f || has y f.
Proof. intros (k & Hk & ->). by rewrite !has_testbit, Z.lor_spec. Qed.

Lemma has_ldiff_any x y f : flag_bit f -> has (Z.ldiff x y) f = has x f && negb (has y f).
Proof. intros (k & Hk & ->). by rewrite !has_testbit, Z.ldiff_spec. Qed.

Lemma has_zero f : has 0 f = false.
Proof. unfold has. by rewrite Z.land_0_l. Qed.

Lemma flag_wm : flag_bit BEV_SUSPEND_WM. Proof. by exists 0. Qed.
Lemma flag_bw : flag_bit BEV_SUSPEND_BW. Proof. by exists 1. Qed.
Lemma flag_group : flag_bit BEV_SUSPEND_BW_GROUP. Proof. by exists 2. Qed.
Lemma flag_read : flag_bit EV_READ. Proof. by exists 1. Qed.
Lemma flag_write : flag_bit EV_WRITE. Proof. by exists 2. Qed.
#[export] Hint Resolve flag_wm flag_bw flag_group flag_read flag_write : bev.

(** ** The store *)

Lemma wp_the_bev b bev (Q : bufferevent -> world -> Prop) w : bevs w !! b = Some bev -> Q bev w -> wp (the_bev b) Q w.
Proof. intros Eb H. unfold wp, the_bev. by rewrite Eb. Qed.

Lemma wp_the_group g gr (Q : bufferevent_rate_limit_group -> world -> Prop) w : groups w !! g = Some gr -> Q gr w -> wp (the_group g) Q w.
Proof. intros Eb H. unfold wp, the_group. by rewrite Eb. Qed.

Lemma wp_the_cfg c cf (Q : ev_token_bucket_cfg -> world -> Prop) w : cfgs w !! c = Some cf -> Q cf w -> wp (the_cfg c) Q w.
Proof. intros Eb H. unfold wp, the_cfg. by rewrite Eb. Qed.

(** The world with another bufferevent in the place of [b]. *)
Definition set_bev (b : nat) (bev : bufferevent) (w : world) : world := w <| bevs := <[b := bev]> (bevs w) |>.
Definition set_group (g : nat) (gr : bufferevent_rate_limit_group) (w : world) : world := w <| groups := <[g := gr]> (groups w) |>.

Lemma set_bev_twice b x y w : set_bev b x (set_bev b y w) = set_bev b x w.
Proof. unfold set_bev. cbn. unfold assign. cbn. by rewrite insert_insert_eq. Qed.

Lemma wp_update_bev b f bev (Q : unit -> world -> Prop) w : bevs w !! b = Some bev -> Q tt (set_bev b (f bev) w) -> wp (update_bev b f) Q w.
Proof. intros Eb H. unfold update_bev. by apply wp_bind, (wp_the_bev _ bev). Qed.

Lemma wp_update_group g f gr (Q : unit -> world -> Prop) w : groups w !! g = Some gr -> Q tt (set_group g (f gr) w) -> wp (update_group g f) Q w.
Proof. intros Eb H. unfold update_group. by apply wp_bind, (wp_the_group _ gr). Qed.

(** ** Events *)

Definition bump (n : nat * nat) (w : world) : world := w <| event_calls := n.1 |> <| rands := n.2 |>.
Definition counts (w : world) : nat * nat := (event_calls w, rands w).

Lemma bump_same w : bump (counts w) w = w.
Proof. by destruct w. Qed.

(** The state after the backend and the generator of random numbers were called some times and [b] has changed. *)
Definition with_bev {T} (Q : T -> world -> Prop) (x : T) (b : nat) (w : world) (bev : bufferevent) : Prop :=
  forall n, Q x (bump n (set_bev b bev w)).

Definition add_ev (d : direction) (tv : option timeval) (bev : bufferevent) : bufferevent :=
  set_bev_ev d (added tv (bev_ev d bev)) bev.
Definition del_ev (d : direction) (bev : bufferevent) : bufferevent :=
  set_bev_ev d {| ev_io := ev_io (bev_ev d bev); ev_added := false; ev_tv := None |} bev.

(** What enabling and disabling one direction of a socket does. *)
Definition start (d : direction) (bev : bufferevent) : bufferevent :=
  let tv := bev_timeout d bev in add_ev d (if (tv_sec tv =? 0) && (tv_usec tv =? 0) then None else Some tv) bev.
Definition stop (d : direction) (bev : bufferevent) : bufferevent :=
  match d with Reading => del_ev Reading bev | Writing => if connecting bev then bev else del_ev Writing bev end.

Definition on_events (f : direction -> bufferevent -> bufferevent) (event : Z) (bev : bufferevent) : bufferevent :=
  let bev1 := if has event EV_READ then f Reading bev else bev in
  if has event EV_WRITE then f Writing bev1 else bev1.

Definition suspend_bev (d : direction) (what : Z) (bev : bufferevent) : bufferevent :=
  set_suspended d (Z.lor (suspended d bev) what) (if suspended d bev =? 0 then stop d bev else bev).
Definition unsuspend_bev (d : direction) (what : Z) (bev : bufferevent) : bufferevent :=
  let bev1 := set_suspended d (Z.ldiff (suspended d bev) what) bev in
  if (suspended d bev1 =? 0) && has (enabled bev) (ev_bit d) then start d bev1 else bev1.

(** The backend accepts every change of an event. *)
Definition events_ok `{BevEnv} : Prop := forall n, event_ok n = true.

Section events.
Context {A : Arch} {M : Allocator} {E : BevEnv} (Hev : events_ok).

Lemma wp_event_result (Q : Z -> world -> Prop) w : (forall n, Q 0 (bump n w)) -> wp event_result Q w.
Proof using Hev.
  intros H. unfold event_result. apply wp_bind, wp_asks, wp_bind, wp_modify, wp_ret. rewrite Hev.
  apply (H (S (event_calls w), rands w)).
Qed.

Lemma wp_event_add b d tv bev (Q : Z -> world -> Prop) w : bevs w !! b = Some bev ->
  with_bev Q 0 b w (add_ev d tv bev) -> wp (bev_event_add b d tv) Q w.
Proof using Hev.
  intros Eb H. unfold bev_event_add. apply wp_bind, wp_event_result. intros n. apply wp_bind, wp_when; [|done]. intros _.
  apply (wp_update_bev _ _ bev); [done|]. apply wp_ret, H.
Qed.

Lemma wp_event_del b d bev (Q : Z -> world -> Prop) w : bevs w !! b = Some bev ->
  with_bev Q 0 b w (del_ev d bev) -> wp (bev_event_del b d) Q w.
Proof using Hev.
  intros Eb H. unfold bev_event_del. apply wp_bind, wp_event_result. intros n. apply wp_bind, (wp_update_bev _ _ bev); [done|]. apply wp_ret, H.
Qed.

Lemma bevs_set b bev w n : bevs (bump n (set_bev b bev w)) !! b = Some bev.
Proof. cbn. apply lookup_insert_eq. Qed.

Lemma bevs_now b bev w : bevs (set_bev b bev w) !! b = Some bev.
Proof. cbn. apply lookup_insert_eq. Qed.

Lemma bump_set b x n m y w : bump m (set_bev b x (bump n (set_bev b y w))) = bump m (set_bev b x w).
Proof. unfold bump, set_bev, assign. cbn. by rewrite insert_insert_eq. Qed.

(** Changes of the same bufferevent one after the other. *)
Lemma with_bev_again {T} (Q : T -> world -> Prop) x b n y w bev : with_bev Q x b w bev -> with_bev Q x b (bump n (set_bev b y w)) bev.
Proof. intros H m. rewrite bump_set. apply H. Qed.

Lemma with_bev_same {T} (Q : T -> world -> Prop) x b w bev : bevs w !! b = Some bev -> with_bev Q x b w bev -> Q x w.
Proof.
  intros Eb H. specialize (H (counts w)). unfold bump, set_bev, assign in H. cbn in H. rewrite insert_id in H by done. by destruct w.
Qed.

Lemma wp_add_event b d bev (Q : Z -> world -> Prop) w : bevs w !! b = Some bev ->
  with_bev Q 0 b w (start d bev) -> wp (_bufferevent_add_event b d (bev_timeout d bev)) Q w.
Proof using Hev. intros Eb H. by apply (wp_event_add _ _ _ bev). Qed.

(** An optional step on [b] that gives 0. *)
Lemma wp_maybe (c : bool) (m : world_op Z) f b bev (Q : Z -> world -> Prop) w : bevs w !! b = Some bev ->
  (c = true -> forall Q, with_bev Q 0 b w (f bev) -> wp m Q w) -> with_bev Q 0 b w (if c then f bev else bev) ->
  wp (if c then m else ret 0) Q w.
Proof. intros Eb Hm H. destruct c; [by apply Hm|]. apply wp_ret. by apply (with_bev_same _ _ b _ bev). Qed.

Lemma socket_enable_ok b event bev (Q : Z -> world -> Prop) w : bevs w !! b = Some bev ->
  with_bev Q 0 b w (on_events start event bev) -> wp (be_socket_enable b event) Q w.
Proof using Hev.
  intros Eb H. unfold be_socket_enable. apply wp_bind, (wp_the_bev _ bev); [done|].
  apply wp_bind, (wp_maybe _ _ (start Reading) b bev); [done | intros _ Q'; apply (wp_add_event b Reading bev _ _ Eb) |].
  intros n. cbn [Z.eqb]. set (bev1 := if has event EV_READ then start Reading bev else bev).
  assert (Ht : timeout_write bev = timeout_write bev1) by (subst bev1; by destruct (has event EV_READ)).
  rewrite Ht. apply wp_bind, (wp_maybe _ _ (start Writing) b bev1); [by apply bevs_set | intros _ Q'; apply (wp_add_event b Writing bev1), bevs_set |].
  apply with_bev_again. intros m. cbn [Z.eqb]. apply wp_ret, H.
Qed.

Lemma socket_disable_ok b event bev (Q : Z -> world -> Prop) w : bevs w !! b = Some bev ->
  with_bev Q 0 b w (on_events stop event bev) -> wp (be_socket_disable b event) Q w.
Proof using Hev.
  intros Eb H. unfold be_socket_disable.
  apply wp_bind, (wp_maybe _ _ (del_ev Reading) b bev); [done | intros _ Q'; apply (wp_event_del b Reading bev _ _ Eb) |].
  intros n. cbn [Z.eqb]. set (bev1 := if has event EV_READ then del_ev Reading bev else bev).
  apply wp_bind, (wp_the_bev _ bev1); [apply bevs_set|].
  apply wp_bind, (wp_maybe _ _ (del_ev Writing) b bev1); [apply bevs_set | intros _ Q'; apply (wp_event_del b Writing bev1), bevs_set |].
  apply with_bev_again. intros m. cbn [Z.eqb]. apply wp_ret. specialize (H m). unfold on_events, stop in H. fold bev1 in H.
  by destruct (has event EV_WRITE), (connecting bev1).
Qed.

Lemma on_events_one f d bev : on_events f (ev_bit d) bev = f d bev.
Proof. by destruct d. Qed.

Lemma set_bump b x n y w : set_bev b x (bump n (set_bev b y w)) = bump n (set_bev b x w).
Proof. unfold bump, set_bev, assign. cbn. by rewrite insert_insert_eq. Qed.

Lemma with_bev_now {T} (Q : T -> world -> Prop) x b w bev : with_bev Q x b w bev -> Q x (set_bev b bev w).
Proof. intros H. specialize (H (counts w)). by destruct w. Qed.

Lemma suspended_stop d bev : suspended d (stop d bev) = suspended d bev.
Proof. destruct d; cbn; [done|]. by destruct (connecting bev). Qed.

Lemma wp_suspend d b what bev (Q : unit -> world -> Prop) w : bevs w !! b = Some bev ->
  with_bev Q tt b w (suspend_bev d what bev) -> wp (bufferevent_suspend d b what) Q w.
Proof using Hev.
  intros Eb H. unfold bufferevent_suspend. apply wp_bind, (wp_the_bev _ bev); [done|]. unfold suspend_bev in H.
  apply wp_bind, wp_when; intros Hs; rewrite Hs in H.
  - apply wp_bind, (socket_disable_ok _ _ bev); [done|]. rewrite on_events_one. intros n. apply wp_ret.
    apply (wp_update_bev _ _ (stop d bev)); [apply bevs_set|]. rewrite set_bump, suspended_stop. apply H.
  - apply (wp_update_bev _ _ bev); [done|]. by apply with_bev_now.
Qed.

Lemma wp_unsuspend d b what bev (Q : unit -> world -> Prop) w : bevs w !! b = Some bev ->
  with_bev Q tt b w (unsuspend_bev d what bev) -> wp (bufferevent_unsuspend d b what) Q w.
Proof using Hev.
  intros Eb H. unfold bufferevent_unsuspend. apply wp_bind, (wp_update_bev _ _ bev); [done|].
  set (bev1 := set_suspended d (Z.ldiff (suspended d bev) what) bev).
  apply wp_bind, (wp_the_bev _ bev1); [apply bevs_now|]. unfold unsuspend_bev in H. fold bev1 in H.
  assert (He : enabled bev1 = enabled bev) by (by destruct d). rewrite He.
  apply wp_when; intros Hs; rewrite Hs in H.
  - apply wp_bind, (socket_enable_ok _ _ bev1); [apply bevs_now|]. rewrite on_events_one. intros n. apply wp_ret.
    rewrite set_bev_twice. apply H.
  - by apply with_bev_now.
Qed.
End events.

(** ** One bufferevent *)

(** What the application and the code that runs know: how many references they hold on a
    bufferevent, and whether its connection has failed. *)
Record view := { holds : nat -> Z; broken : nat -> bool }.

Section inv.
Context {A : Arch} {M : Allocator}.

(** The input: read into from the socket only, watched when there is a high watermark. *)
Record input_shape (wm : bool) (h : Z) (buf : evbuffer) : Prop := {
  is_undeferred : deferred_cbs buf = false;
  is_callbacks : callbacks buf = if wm then [{| cb_id := WM_CB; cb_flags := if h =? 0 then 2 else 3 |}] else [];
  is_watched : wm = false -> h = 0;
  is_counts : n_add_for_cb buf = 0 /\ n_del_for_cb buf = 0 }.

Record output_shape (buf : evbuffer) : Prop := {
  os_undeferred : deferred_cbs buf = false;
  os_callbacks : callbacks buf = [{| cb_id := OUTBUF_CB; cb_flags := EVBUFFER_CB_ENABLED |}];
  os_counts : n_add_for_cb buf = 0 /\ n_del_for_cb buf = 0 }.

(** The configuration of a limit: levels that fit an [int]. *)
Record limits_ok (cf : ev_token_bucket_cfg) : Prop := {
  lo_cfg : cfg_ok cf;
  lo_int : forall d, maximum d cf <= INT_MAX }.

Definition rlim_ok (cs : gmap nat ev_token_bucket_cfg) (rl : bufferevent_rate_limit) : Prop :=
  forall c, cfg rl = Some c -> refill_initialized rl = true /\
    exists cf, cs !! c = Some cf /\ limits_ok cf /\ forall d, level cf d (bucket rl).

(** What does not depend on events and flags. *)
Record core_ok (cs : gmap nat ev_token_bucket_cfg) (bev : bufferevent) : Prop := {
  co_input : input_ok (input bev);
  co_input_freeze : freeze_start (input bev) = false /\ freeze_end (input bev) = true;
  co_input_shape : input_shape (read_watermarks_cb bev) (high (wm_read bev)) (input bev);
  co_high : 0 <= high (wm_read bev) <= EV_SSIZE_MAX;
  co_output : packed (output bev);
  co_output_freeze : freeze_start (output bev) = true /\ freeze_end (output bev) = false;
  co_output_shape : output_shape (output bev);
  co_rlim : forall rl, rate_limiting bev = Some rl -> rlim_ok cs rl }.

(** The bufferevent without its events and flags. *)
Definition core (bev : bufferevent) : bufferevent :=
  bev <| ev_read := no_event true |> <| ev_write := no_event true |> <| read_suspended := 0 |> <| write_suspended := 0 |>.

(** ** Flags *)

Definition group_of (bev : bufferevent) : option nat := rate_limiting bev ≫= group.
Definition cfg_of (bev : bufferevent) : option nat := rate_limiting bev ≫= cfg.

(** Why a flag has its value: the input has reached the high watermark; the bucket is empty
    and a timer will fill it; the group is suspended. *)
Definition flag_cond (gs : gmap nat bufferevent_rate_limit_group) (bev : bufferevent) (d : direction) (f : Z) (v : bool) : Prop :=
  (f = BEV_SUSPEND_WM -> v = true -> d = Reading /\ high (wm_read bev) <> 0 /\ high (wm_read bev) <= total_len (input bev)) /\
  (f = BEV_SUSPEND_BW ->
    if v then exists rl, rate_limiting bev = Some rl /\ is_Some (cfg rl) /\ refill_pending rl = true
    else forall rl, rate_limiting bev = Some rl -> is_Some (cfg rl) -> 0 < limit d (bucket rl)) /\
  (f = BEV_SUSPEND_BW_GROUP ->
    v = match group_of bev with Some g => match gs !! g with Some gr => group_suspended d gr | None => false end | None => false end).

Definition flag_ok gs bev d f : Prop := flag_cond gs bev d f (has (suspended d bev) f).

(** No other flags than these. *)
Definition all_flags : Z := Z.lor (Z.lor BEV_SUSPEND_WM BEV_SUSPEND_BW) (Z.lor BEV_SUSPEND_BW_GROUP BEV_SUSPEND_LOOKUP).
Definition known_flags (s : Z) : Prop := Z.ldiff s all_flags = 0.

(** ** Events *)

Definition may (d : direction) (bev : bufferevent) : bool := has (enabled bev) (ev_bit d) && (suspended d bev =? 0).

(** An event is added only for what may be done (or for a connection in the making), and,
    unless the connection has failed, for all there is to do. *)
Record events_fit (br : bool) (bev : bufferevent) : Prop := {
  ef_io : ev_io (ev_read bev) = true /\ ev_io (ev_write bev) = true;
  ef_read : ev_added (ev_read bev) = true -> may Reading bev = true;
  ef_write : ev_added (ev_write bev) = true -> connecting bev = true \/ may Writing bev = true;
  ef_reads : br = false -> may Reading bev = true -> ev_added (ev_read bev) = true;
  ef_writes : br = false -> may Writing bev = true -> 0 < total_len (output bev) -> ev_added (ev_write bev) = true }.

Record bev_ok (gs : gmap nat bufferevent_rate_limit_group) (cs : gmap nat ev_token_bucket_cfg) (br : bool) (bev : bufferevent) : Prop := {
  bo_core : core_ok cs (core bev);
  bo_events : events_fit br bev;
  bo_known : forall d, known_flags (suspended d bev);
  bo_flags : forall d f, flag_bit f -> flag_ok gs bev d f }.

(** ** The world *)

Definition members_of (bs : gmap nat bufferevent) (g : nat) (b : nat) : Prop :=
  exists bev, bs !! b = Some bev /\ group_of bev = Some g.

Record group_ok (gr : bufferevent_rate_limit_group) : Prop := {
  go_members : NoDup (members gr) /\ n_members gr = zlen (members gr);
  go_cfg : limits_ok (rate_limit_cfg gr);
  go_level : forall d, level (rate_limit_cfg gr) d (rate_limit gr);
  go_pending : forall d, pending_unsuspend d gr = false;
  go_share : 1 <= min_share gr <= INT_MAX /\ 1 <= configured_min_share gr <= EV_SSIZE_MAX;
  go_limit : forall d, group_suspended d gr = false -> 0 < limit d (rate_limit gr) }.

Record world_ok (v : view) (w : world) : Prop := {
  wo_bevs : forall b bev, bevs w !! b = Some bev -> bev_ok (groups w) (cfgs w) (broken v b) bev;
  wo_refs : forall b, 0 <= holds v b /\ (0 < holds v b -> is_Some (bevs w !! b));
  wo_refcnt : forall b bev, bevs w !! b = Some bev ->
    bev_refcnt bev = holds v b + Z.b2z (deferred_cb_queued bev) /\ 0 < bev_refcnt bev;
  wo_queue : NoDup (deferred_queue w) /\
    forall b, b ∈ deferred_queue w <-> exists bev, bevs w !! b = Some bev /\ deferred_cb_queued bev = true;
  wo_cfgs : forall c cf, cfgs w !! c = Some cf -> limits_ok cf;
  wo_groups : forall g gr, groups w !! g = Some gr -> group_ok gr;
  wo_members : forall g gr b, groups w !! g = Some gr -> (b ∈ members gr <-> members_of (bevs w) g b);
  wo_group_of : forall b bev g, bevs w !! b = Some bev -> group_of bev = Some g -> is_Some (groups w !! g);
  wo_fresh : (forall b, is_Some (bevs w !! b) -> (b < next_id w)%nat) /\ (forall g, is_Some (groups w !! g) -> (g < next_id w)%nat) }.

(** ** Changes of flags and events *)

Lemma core_set_suspended d x bev : core (set_suspended d x bev) = core bev.
Proof. by destruct d. Qed.
Lemma core_set_ev d e bev : core (set_bev_ev d e bev) = core bev.
Proof. by destruct d. Qed.
Lemma core_start d bev : core (start d bev) = core bev.
Proof. apply core_set_ev. Qed.
Lemma core_stop d bev : core (stop d bev) = core bev.
Proof. destruct d; cbn; [done|]. by destruct (connecting bev). Qed.
Lemma core_suspend d f bev : core (suspend_bev d f bev) = core bev.
Proof. unfold suspend_bev. rewrite core_set_suspended. destruct (_ =? 0); [apply core_stop | done]. Qed.
Lemma core_unsuspend d f bev : core (unsuspend_bev d f bev) = core bev.
Proof. unfold unsuspend_bev. destruct (_ && _); [rewrite core_start|]; apply core_set_suspended. Qed.

(** What depends on the core only. *)
Lemma flag_cond_core gs bev bev' d f v : core bev' = core bev -> flag_cond gs bev d f v -> flag_cond gs bev' d f v.
Proof.
  intros E. change (flag_cond gs (core bev) d f v -> flag_cond gs (core bev') d f v). by rewrite E.
Qed.

Lemma suspended_set d d' x bev : suspended d (set_suspended d' x bev) = if decide (d = d') then x else suspended d bev.
Proof. by destruct d, d'. Qed.
Lemma suspended_set_ev d d' e bev : suspended d (set_bev_ev d' e bev) = suspended d bev.
Proof. by destruct d, d'. Qed.
Lemma suspended_start d d' bev : suspended d (start d' bev) = suspended d bev.
Proof. apply suspended_set_ev. Qed.
Lemma suspended_stop_any d d' bev : suspended d (stop d' bev) = suspended d bev.
Proof. destruct d'; cbn; [by destruct d|]. destruct (connecting bev); by destruct d. Qed.

Lemma suspended_suspend d d' f bev :
  suspended d (suspend_bev d' f bev) = if decide (d = d') then Z.lor (suspended d bev) f else suspended d bev.
Proof.
  unfold suspend_bev. rewrite suspended_set. case_decide as E; [by subst|].
  destruct (_ =? 0); [apply suspended_stop_any | done].
Qed.

Lemma suspended_unsuspend d d' f bev :
  suspended d (unsuspend_bev d' f bev) = if decide (d = d') then Z.ldiff (suspended d bev) f else suspended d bev.
Proof.
  unfold unsuspend_bev. destruct (_ && _); rewrite ?suspended_start, suspended_set; by case_decide; subst.
Qed.

Lemma known_lor s f : known_flags s -> known_flags f -> known_flags (Z.lor s f).
Proof.
  unfold known_flags. intros Hs Hf. apply Z.bits_inj'. intros i Hi. rewrite Z.ldiff_spec, Z.lor_spec, Z.bits_0, andb_orb_distrib_l.
  by rewrite <- !Z.ldiff_spec, Hs, Hf, !Z.bits_0.
Qed.

Lemma known_ldiff s f : known_flags s -> known_flags (Z.ldiff s f).
Proof.
  unfold known_flags. intros Hs. apply Z.bits_inj'. intros i Hi. rewrite !Z.ldiff_spec, Z.bits_0.
  assert (H : Z.testbit (Z.ldiff s all_flags) i = false) by (by rewrite Hs, Z.bits_0). rewrite Z.ldiff_spec in H.
  destruct (Z.testbit s i), (Z.testbit f i), (Z.testbit all_flags i); done.
Qed.

(** A direction is suspended for one of the four reasons. *)
Lemma known_some s : known_flags s -> s <> 0 ->
  has s BEV_SUSPEND_WM || has s BEV_SUSPEND_BW || has s BEV_SUSPEND_BW_GROUP || has s BEV_SUSPEND_LOOKUP = true.
Proof.
  intros Hk Hs. apply not_false_iff_true. intros Hn. apply orb_false_iff in Hn as [[[H0 H1]%orb_false_iff H2]%orb_false_iff H3].
  change BEV_SUSPEND_WM with (2 ^ 0) in H0. change BEV_SUSPEND_BW with (2 ^ 1) in H1. change BEV_SUSPEND_BW_GROUP with (2 ^ 2) in H2.
  change BEV_SUSPEND_LOOKUP with (2 ^ 3) in H3. rewrite has_testbit in * by lia.
  apply Hs, Z.bits_inj'. intros i Hi. rewrite Z.bits_0. destruct (decide (i < 4)) as [Hlt|Hge].
  - assert (i = 0 \/ i = 1 \/ i = 2 \/ i = 3) as [->|[->|[->| ->]]] by lia; done.
  - assert (H : Z.testbit (Z.ldiff s all_flags) i = false) by (unfold known_flags in Hk; by rewrite Hk, Z.bits_0). rewrite Z.ldiff_spec in H.
    change all_flags with (Z.ones 4) in H. rewrite Z.ones_spec_high in H by lia. by rewrite andb_true_r in H.
Qed.

Lemma flag_lookup : flag_bit BEV_SUSPEND_LOOKUP. Proof. by exists 3. Qed.

Lemma flag_nonzero s f : flag_bit f -> Z.lor s f <> 0.
Proof. intros (k & Hk & ->) H. apply Z.lor_eq_0_iff in H as [_ H]. pose proof (Z.pow_pos_nonneg 2 k). lia. Qed.

(** ** Suspending and unsuspending *)

Lemma may_frame d bev bev' : enabled bev' = enabled bev -> suspended d bev' = suspended d bev -> may d bev' = may d bev.
Proof. unfold may. by intros -> ->. Qed.

Lemma suspend_fields d f bev : enabled (suspend_bev d f bev) = enabled bev /\ connecting (suspend_bev d f bev) = connecting bev /\
  output (suspend_bev d f bev) = output bev /\ ev_io (ev_read (suspend_bev d f bev)) = ev_io (ev_read bev) /\
  ev_io (ev_write (suspend_bev d f bev)) = ev_io (ev_write bev).
Proof. unfold suspend_bev. destruct d, (_ =? 0); cbn; try done. by destruct (connecting bev) eqn:E; cbn; rewrite ?E. Qed.

Lemma unsuspend_fields d f bev : enabled (unsuspend_bev d f bev) = enabled bev /\ connecting (unsuspend_bev d f bev) = connecting bev /\
  output (unsuspend_bev d f bev) = output bev /\ ev_io (ev_read (unsuspend_bev d f bev)) = ev_io (ev_read bev) /\
  ev_io (ev_write (unsuspend_bev d f bev)) = ev_io (ev_write bev).
Proof. unfold unsuspend_bev. by destruct d, (_ && _). Qed.

Lemma may_suspend d d' f bev : flag_bit f -> may d' (suspend_bev d f bev) = if decide (d' = d) then false else may d' bev.
Proof.
  intros Hf. unfold may. destruct (suspend_fields d f bev) as (-> & _). rewrite suspended_suspend.
  case_decide; [|done]. rewrite (proj2 (Z.eqb_neq _ _)) by (by apply flag_nonzero). apply andb_false_r.
Qed.

Lemma suspend_events br d f bev : flag_bit f -> events_fit br bev -> events_fit br (suspend_bev d f bev).
Proof.
  intros Hf [Hio Hr Hw Hrs Hws]. destruct (suspend_fields d f bev) as (_ & Hc & Ho & H1 & H2).
  assert (He : ev_added (bev_ev d (suspend_bev d f bev)) = true -> d = Writing /\ connecting bev = true).
  { unfold suspend_bev. destruct d; cbn [bev_ev].
    - destruct (Z.eqb_spec (suspended Reading bev) 0) as [|Hn]; [done|]. cbn. intros Hx. apply Hr in Hx.
      unfold may in Hx. cbn in Hn, Hx. rewrite (proj2 (Z.eqb_neq _ _) Hn) in Hx. by rewrite andb_false_r in Hx.
    - destruct (Z.eqb_spec (suspended Writing bev) 0) as [|Hn]; cbn.
      + by destruct (connecting bev).
      + intros Hx. apply Hw in Hx as [Hx|Hx]; [done|]. unfold may in Hx. cbn in Hn, Hx.
        rewrite (proj2 (Z.eqb_neq _ _) Hn) in Hx. by rewrite andb_false_r in Hx. }
  assert (Ho2 : ev_added (bev_ev (other d) (suspend_bev d f bev)) = ev_added (bev_ev (other d) bev)).
  { unfold suspend_bev. destruct d, (_ =? 0); cbn; try done. by destruct (connecting bev). }
  split; rewrite ?H1, ?H2, ?Hc, ?Ho, ?may_suspend by done; [done | | | |]; destruct d; cbn [decide bev_ev other] in *; case_decide; try done.
  - intros Hx. by destruct (He Hx).
  - by rewrite Ho2.
  - by rewrite Ho2.
  - intros Hx. left. by apply He.
  - by rewrite Ho2.
  - by rewrite Ho2.
Qed.

Lemma unsuspend_events br d f bev : events_fit br bev -> events_fit br (unsuspend_bev d f bev).
Proof.
  intros [Hio Hr Hw Hrs Hws]. destruct (unsuspend_fields d f bev) as (He & Hc & Ho & H1 & H2).
  assert (Hm : may d bev = true -> may d (unsuspend_bev d f bev) = true).
  { unfold may. rewrite He, suspended_unsuspend, decide_True by done. intros [-> Hs]%andb_true_iff. apply Z.eqb_eq in Hs. by rewrite Hs, Z.ldiff_0_l. }
  assert (Ha : ev_added (bev_ev d (unsuspend_bev d f bev)) = may d (unsuspend_bev d f bev) || ev_added (bev_ev d bev)).
  { unfold may. rewrite He, suspended_unsuspend, decide_True by done. unfold unsuspend_bev. rewrite suspended_set, decide_True by done.
    destruct Hio as [Hi1 Hi2]. rewrite andb_comm. destruct (_ && _); [|by destruct d]. destruct d; cbn; by rewrite ?Hi1, ?Hi2. }
  assert (Hmo : may (other d) (unsuspend_bev d f bev) = may (other d) bev).
  { apply may_frame; [done|]. rewrite suspended_unsuspend. by destruct d. }
  assert (Hao : ev_added (bev_ev (other d) (unsuspend_bev d f bev)) = ev_added (bev_ev (other d) bev)).
  { unfold unsuspend_bev. by destruct d, (_ && _). }
  split; rewrite ?H1, ?H2, ?Hc, ?Ho; [done | | | |]; destruct d; cbn [bev_ev other] in *; rewrite ?Ha, ?Hao, ?Hmo; try done.
  - intros [->|Hx]%orb_true_iff; [done|]. by apply Hm, Hr.
  - intros [->|Hx]%orb_true_iff; [by right|]. apply Hw in Hx as [Hx|Hx]; [by left | right; by apply Hm].
  - by intros _ ->.
  - by intros _ -> _.
Qed.

Definition known_flag (f : Z) : Prop := flag_bit f /\ known_flags f.

Lemma known_wm : known_flag BEV_SUSPEND_WM. Proof. split; [apply flag_wm | done]. Qed.
Lemma known_bw : known_flag BEV_SUSPEND_BW. Proof. split; [apply flag_bw | done]. Qed.
Lemma known_group : known_flag BEV_SUSPEND_BW_GROUP. Proof. split; [apply flag_group | done]. Qed.
Lemma known_lookup : known_flag BEV_SUSPEND_LOOKUP. Proof. split; [apply flag_lookup | done]. Qed.

(** Suspending for a reason, when everything else holds. *)
Lemma suspend_ok gs cs br d f bev : known_flag f -> core_ok cs (core bev) -> events_fit br bev -> (forall d, known_flags (suspended d bev)) ->
  (forall d' f', flag_bit f' -> ~ (d' = d /\ f' = f) -> flag_ok gs bev d' f') -> flag_cond gs bev d f true ->
  bev_ok gs cs br (suspend_bev d f bev).
Proof.
  intros [Hf Hk] Hc He Hkn Hfl Hcond. split.
  - by rewrite core_suspend.
  - by apply suspend_events.
  - intros d'. rewrite suspended_suspend. case_decide; [by apply known_lor | done].
  - intros d' f' Hf'. unfold flag_ok. rewrite suspended_suspend. apply (flag_cond_core _ bev); [apply core_suspend|].
    case_decide as Ed.
    + subst d'. rewrite has_lor_flag by done. destruct (decide (f = f')) as [<-|Hne].
      * by rewrite bool_decide_true, orb_true_r.
      * rewrite bool_decide_false, orb_false_r by done. apply Hfl; [done|]. by intros [_ ->].
    + apply Hfl; [done|]. by intros [-> _].
Qed.

Lemma unsuspend_ok gs cs br d f bev : known_flag f -> core_ok cs (core bev) -> events_fit br bev -> (forall d, known_flags (suspended d bev)) ->
  (forall d' f', flag_bit f' -> ~ (d' = d /\ f' = f) -> flag_ok gs bev d' f') -> flag_cond gs bev d f false ->
  bev_ok gs cs br (unsuspend_bev d f bev).
Proof.
  intros [Hf Hk] Hc He Hkn Hfl Hcond. split.
  - by rewrite core_unsuspend.
  - by apply unsuspend_events.
  - intros d'. rewrite suspended_unsuspend. case_decide; [by apply known_ldiff | done].
  - intros d' f' Hf'. unfold flag_ok. rewrite suspended_unsuspend. apply (flag_cond_core _ bev); [apply core_unsuspend|].
    case_decide as Ed.
    + subst d'. rewrite has_ldiff by done. destruct (decide (f = f')) as [<-|Hne].
      * by rewrite bool_decide_true, andb_false_r.
      * rewrite bool_decide_false, andb_true_r by done. apply Hfl; [done|]. by intros [_ ->].
    + apply Hfl; [done|]. by intros [-> _].
Qed.
End inv.
#[export] Hint Resolve flag_lookup known_wm known_bw known_group known_lookup : bev.
