(* ===== verification/BevWorld.v ===== *)
(** The store of bufferevents stays well-formed when one bufferevent or a group changes,
    when all members of a group are suspended or unsuspended, when the buffers change and
    their callbacks run, and when callbacks of the application are called or deferred. *)

From stdpp Require Import gmap.
From S2P Require Import Prelude StateOp MinHeap EvChain Evbuffer EvbufferSpec EvbufferProps EvExpand EvSpace EvSocket EventData EventCore EventQueue TokenBucket Bev RateLimit BevSocket BevInv.

Section world.
Context {A : Arch} {M : Allocator} {E : BevEnv} (Hev : events_ok).

Lemma world_bump v w n : world_ok v w -> world_ok v (bump n w).
Proof. intros []. by split. Qed.

(** ** One bufferevent *)

(** What ties a bufferevent to the rest: its group, the queue, the references. *)
Definition links (bev : bufferevent) : option nat * bool * Z := (group_of bev, deferred_cb_queued bev, bev_refcnt bev).

Lemma members_of_set bs b bev bev' g x : bs !! b = Some bev -> group_of bev' = group_of bev ->
  members_of (<[b := bev']> bs) g x <-> members_of bs g x.
Proof.
  intros Eb Eg. unfold members_of. destruct (decide (x = b)) as [->|Hne].
  - rewrite lookup_insert_eq, Eb. split; intros (y & [= <-] & <-); eauto.
  - by rewrite lookup_insert_ne.
Qed.

Definition set_broken (b : nat) (x : bool) (v : view) : view :=
  {| holds := holds v; broken := fun b' => if decide (b' = b) then x else broken v b' |}.

Lemma set_broken_same v b w : world_ok (set_broken b (broken v b) v) w -> world_ok v w.
Proof.
  intros Hw. split; try apply Hw. intros b' bev' H'. pose proof (wo_bevs _ _ Hw b' bev' H') as Hx. cbn in Hx. case_decide; by subst.
Qed.

(** One bufferevent, the references to it and its place in the queue have changed. *)
Lemma world_one v v' w w' b bev bev' : world_ok v w -> bevs w !! b = Some bev ->
  bevs w' = <[b := bev']> (bevs w) -> groups w' = groups w -> cfgs w' = cfgs w -> next_id w' = next_id w ->
  bev_ok (groups w) (cfgs w) (broken v' b) bev' -> group_of bev' = group_of bev ->
  (forall y, y <> b -> holds v' y = holds v y /\ broken v' y = broken v y) ->
  0 <= holds v' b -> bev_refcnt bev' = holds v' b + Z.b2z (deferred_cb_queued bev') -> 0 < bev_refcnt bev' ->
  NoDup (deferred_queue w') ->
  (forall y, y ∈ deferred_queue w' <-> if decide (y = b) then deferred_cb_queued bev' = true else y ∈ deferred_queue w) ->
  world_ok v' w'.
Proof.
  intros [Hb Hr Hc Hq Hcf Hg Hm Hgo Hf] Eb Ew Eg Ec En Hok El Hv Hh Href Hpos Hnq Hqq.
  assert (Hlk : forall y y', bevs w' !! y = Some y' -> y = b /\ y' = bev' \/ y <> b /\ bevs w !! y = Some y').
  { intros y y'. rewrite Ew. destruct (decide (y = b)) as [->|]; [rewrite lookup_insert_eq; intros [= <-]; by left | rewrite lookup_insert_ne by done; by right]. }
  assert (Hsome : forall y, is_Some (bevs w' !! y) <-> is_Some (bevs w !! y)).
  { intros y. rewrite Ew. destruct (decide (y = b)) as [->|]; [rewrite lookup_insert_eq, Eb; split; intros; by eexists | by rewrite lookup_insert_ne]. }
  split; rewrite ?Eg, ?Ec, ?En; try done.
  - intros y y' [[-> ->]|[Hne Hy]]%Hlk; [done|]. destruct (Hv y Hne) as [_ ->]. by apply Hb.
  - intros y. destruct (decide (y = b)) as [->|Hne]; [split; [done|]; intros _; apply Hsome; by exists bev|].
    destruct (Hv y Hne) as [-> _], (Hr y) as [H1 H2]. split; [done|]. intros Hp. by apply Hsome, H2.
  - intros y y' [[-> ->]|[Hne Hy]]%Hlk; [done|]. destruct (Hv y Hne) as [-> _]. by apply (Hc y y').
  - split; [done|]. intros y. rewrite Hqq. case_decide as Hy.
    + subst y. split; [intros Hd; exists bev'; by rewrite Ew, lookup_insert_eq|]. intros (z & [[_ ->]|[Hne _]]%Hlk & Hd); done.
    + rewrite (proj2 Hq). split; intros (z & Hz & Hd).
      * exists z. by rewrite Ew, lookup_insert_ne.
      * apply Hlk in Hz as [[-> _]|[_ Hz]]; [done | by exists z].
  - intros g gr y Hgr. rewrite (Hm g gr y Hgr), Ew. symmetry. by apply (members_of_set _ _ bev).
  - intros y y' g [[-> ->]|[Hne Hy]]%Hlk; [rewrite El; by apply (Hgo b bev) | by apply (Hgo y y')].
  - destruct Hf as [Hf1 Hf2]. split; [|done]. intros y Hy%Hsome. by apply Hf1.
Qed.

(** Membership in the queue, for a change that keeps it. *)
Lemma same_queue v w b bev q : world_ok v w -> bevs w !! b = Some bev -> q = deferred_cb_queued bev ->
  forall y, y ∈ deferred_queue w <-> if decide (y = b) then q = true else y ∈ deferred_queue w.
Proof.
  intros Hw Eb -> y. case_decide as Hy; [|done]. subst y. rewrite (proj2 (wo_queue _ _ Hw)). split; [|by exists bev].
  intros (z & Hz & Hd). congruence.
Qed.

Lemma world_set_broken v w b bev bev' x n : world_ok v w -> bevs w !! b = Some bev -> bev_ok (groups w) (cfgs w) x bev' ->
  links bev' = links bev -> world_ok (set_broken b x v) (bump n (set_bev b bev' w)).
Proof.
  intros Hw Eb Hok [= El1 El2 El3]. destruct (wo_refcnt _ _ Hw b bev Eb). apply (world_one v _ w _ b bev bev'); try done; cbn.
  - by rewrite decide_True.
  - intros y Hy. by rewrite decide_False.
  - apply Hw.
  - by rewrite El2, El3.
  - by rewrite El3.
  - apply Hw.
  - by apply (same_queue v w b bev).
Qed.

Lemma world_set v w b bev bev' n : world_ok v w -> bevs w !! b = Some bev -> bev_ok (groups w) (cfgs w) (broken v b) bev' ->
  links bev' = links bev -> world_ok v (bump n (set_bev b bev' w)).
Proof. intros Hw Eb Hok El. apply (set_broken_same v b). by apply (world_set_broken v w b bev). Qed.

Lemma links_suspend d f bev : links (suspend_bev d f bev) = links bev.
Proof. unfold suspend_bev. destruct d, (_ =? 0); cbn; try done. by destruct (connecting bev). Qed.
Lemma links_unsuspend d f bev : links (unsuspend_bev d f bev) = links bev.
Proof. unfold unsuspend_bev. by destruct d, (_ && _). Qed.

(** ** Several bufferevents *)

Definition upd_bevs (f : bufferevent -> bufferevent) (l : list nat) (w : world) : world :=
  w <| bevs := foldr (fun b m => alter f b m) (bevs w) l |>.

Lemma upd_bevs_lookup f l w b : NoDup l ->
  bevs (upd_bevs f l w) !! b = if decide (b ∈ l) then f <$> bevs w !! b else bevs w !! b.
Proof.
  intros Hl. unfold upd_bevs, assign. cbn. induction Hl as [|x l Hx _ IH]; cbn.
  { rewrite decide_False; [done | apply not_elem_of_nil]. }
  destruct (decide (b = x)) as [->|Hne].
  - rewrite lookup_alter_eq, IH, decide_False, decide_True by (done || apply elem_of_cons; by left). done.
  - rewrite lookup_alter_ne, IH by done. destruct (decide (b ∈ l)) as [Hb|Hb].
    + rewrite decide_True; [done | apply elem_of_cons; by right].
    + rewrite decide_False; [done|]. by intros [?|?]%elem_of_cons.
Qed.

Lemma world_eq_bevs w m m' : m = m' -> w <| bevs := m |> = w <| bevs := m' |>.
Proof. by intros ->. Qed.

Lemma upd_bevs_perm f l l' w : NoDup l -> l ≡ₚ l' -> upd_bevs f l w = upd_bevs f l' w.
Proof.
  intros Hl Hp. assert (Hl' : NoDup l') by (by rewrite <- Hp). apply world_eq_bevs, map_eq. intros b.
  pose proof (upd_bevs_lookup f l w b Hl) as H1. pose proof (upd_bevs_lookup f l' w b Hl') as H2. unfold upd_bevs, assign in H1, H2. cbn in H1, H2.
  rewrite H1, H2. destruct (decide (b ∈ l)) as [H|H]; rewrite Hp in H; [by rewrite decide_True | by rewrite decide_False].
Qed.

Lemma upd_bevs_cons f b l bev w n m : ~ b ∈ l -> bevs w !! b = Some bev ->
  bump m (upd_bevs f l (bump n (set_bev b (f bev) w))) = bump m (upd_bevs f (b :: l) w).
Proof.
  intros Hb Eb. unfold bump, upd_bevs, set_bev, assign. cbn. f_equal. apply map_eq. intros x.
  assert (Hfold : forall (m0 : gmap nat bufferevent) y, y ∉ l -> foldr (fun b m => alter f b m) m0 l !! y = m0 !! y).
  { clear. intros m0 y. induction l as [|z l IH]; [done|]. intros [Hne Hy]%not_elem_of_cons. cbn. rewrite lookup_alter_ne by done. by apply IH. }
  assert (Hsame : forall (m1 m2 : gmap nat bufferevent) y, m1 !! y = m2 !! y ->
    foldr (fun b m => alter f b m) m1 l !! y = foldr (fun b m => alter f b m) m2 l !! y).
  { clear. intros m1 m2 y Hy. induction l as [|z l IH]; [done|]. cbn. destruct (decide (z = y)) as [->|]; [by rewrite !lookup_alter_eq, IH | by rewrite !lookup_alter_ne]. }
  destruct (decide (x = b)) as [->|Hne].
  - by rewrite lookup_alter_eq, !Hfold, lookup_insert_eq, Eb.
  - rewrite lookup_alter_ne by done. apply Hsame. by rewrite lookup_insert_ne.
Qed.

Lemma wp_members (op : nat -> world_op unit) f (l : list nat) : forall (Q : unit -> world -> Prop) w,
  (forall b bev Q w, bevs w !! b = Some bev -> with_bev Q tt b w (f bev) -> wp (op b) Q w) ->
  NoDup l -> (forall b, b ∈ l -> is_Some (bevs w !! b)) -> (forall n, Q tt (bump n (upd_bevs f l w))) ->
  wp (foldr (fun b k => op b ;; k) (ret tt) l) Q w.
Proof.
  induction l as [|b l IH]; intros Q w Hop Hn Hl HQ.
  - apply wp_ret. specialize (HQ (counts w)). by destruct w.
  - apply list.NoDup_cons in Hn as [Hb Hn]. destruct (Hl b) as [bev Eb]; [apply elem_of_cons; by left|].
    apply wp_bind, (Hop b bev); [done|]. intros n. apply IH; [done..| |].
    + intros x Hx. destruct (Hl x) as [y Hy]; [apply elem_of_cons; by right|]. cbn.
      destruct (decide (x = b)) as [->|]; [rewrite lookup_insert_eq; by eexists | rewrite lookup_insert_ne by done; by eexists].
    + intros m. rewrite (upd_bevs_cons f b l bev) by done. apply HQ.
Qed.

Lemma suspend_members_eq d l : suspend_members d l = foldr (fun b k => bufferevent_suspend d b BEV_SUSPEND_BW_GROUP ;; k) (ret tt) l.
Proof. induction l as [|b l IH]; [done|]. cbn. by rewrite <- IH. Qed.
Lemma unsuspend_members_eq d l : unsuspend_members d l = foldr (fun b k => bufferevent_unsuspend d b BEV_SUSPEND_BW_GROUP ;; k) (ret tt) l.
Proof. induction l as [|b l IH]; [done|]. cbn. by rewrite <- IH. Qed.

(** ** Groups *)

(** The group of a bufferevent, by the identity of the members. *)
Lemma member_group v w g gr b bev : world_ok v w -> groups w !! g = Some gr -> bevs w !! b = Some bev ->
  b ∈ members gr <-> group_of bev = Some g.
Proof.
  intros Hw Eg Eb. rewrite (wo_members _ _ Hw g gr b Eg). split; [|intros H; by exists bev]. intros (x & Hx & Hg). by simplify_eq.
Qed.

(** Flags do not see what else changes in the groups. *)
Lemma flag_cond_groups gs gs' bev d f v :
  (f = BEV_SUSPEND_BW_GROUP -> forall g, group_of bev = Some g -> group_suspended d <$> gs' !! g = group_suspended d <$> gs !! g) ->
  flag_cond gs bev d f v -> flag_cond gs' bev d f v.
Proof.
  intros Hs (H1 & H2 & H3). split; [done|]. split; [done|]. intros Hf. rewrite (H3 Hf). destruct (group_of bev) as [g|] eqn:Eg; [|done].
  specialize (Hs Hf g eq_refl). by destruct (gs' !! g), (gs !! g); simplify_eq/=.
Qed.

Lemma world_set_group v w g gr gr' n : world_ok v w -> groups w !! g = Some gr -> group_ok gr' -> members gr' = members gr ->
  (forall d, group_suspended d gr' = group_suspended d gr) -> world_ok v (bump n (set_group g gr' w)).
Proof.
  intros Hw Eg Hok Em Es. set (w' := bump n _). assert (Hgs : groups w' = <[g := gr']> (groups w)) by done. split; try apply Hw.
  - intros b bev Hb. destruct (wo_bevs _ _ Hw b bev Hb) as [Hc He Hk Hf]. split; try done. intros d f Hfb.
    apply (flag_cond_groups (groups w)); [|by apply Hf]. intros _ g0 _. rewrite Hgs.
    destruct (decide (g0 = g)) as [->|]; [by rewrite lookup_insert_eq, Eg; cbn; rewrite Es | by rewrite lookup_insert_ne].
  - rewrite Hgs. intros g0 gr0. destruct (decide (g0 = g)) as [->|]; [rewrite lookup_insert_eq; by intros [= <-] | rewrite lookup_insert_ne by done; apply Hw].
  - rewrite Hgs. intros g0 gr0 b. destruct (decide (g0 = g)) as [->|]; [rewrite lookup_insert_eq; intros [= <-]; rewrite Em; by apply Hw | rewrite lookup_insert_ne by done; apply Hw].
  - intros b bev g0 Hb Hg. rewrite Hgs, lookup_insert_is_Some'. right. by apply (wo_group_of _ _ Hw b bev).
  - destruct (wo_fresh _ _ Hw) as [Hf1 Hf2]. split; [done|]. rewrite Hgs. intros g0 [->|Hx]%lookup_insert_is_Some'; apply Hf2; [by exists gr | done].
Qed.

Definition switch (v : bool) (d : direction) : bufferevent -> bufferevent :=
  if v then suspend_bev d BEV_SUSPEND_BW_GROUP else unsuspend_bev d BEV_SUSPEND_BW_GROUP.

Lemma links_switch v d bev : links (switch v d bev) = links bev.
Proof. destruct v; [apply links_suspend | apply links_unsuspend]. Qed.

Lemma switch_ok gs cs br v d bev : core_ok cs (core bev) -> events_fit br bev -> (forall d, known_flags (suspended d bev)) ->
  (forall d' f', flag_bit f' -> ~ (d' = d /\ f' = BEV_SUSPEND_BW_GROUP) -> flag_ok gs bev d' f') ->
  flag_cond gs bev d BEV_SUSPEND_BW_GROUP v -> bev_ok gs cs br (switch v d bev).
Proof. intros. destruct v; [apply suspend_ok | apply unsuspend_ok]; auto with bev. Qed.

(** The world with a group changed and all its members switched. *)
Lemma world_switch ve w g gr gr' d v n : world_ok ve w -> groups w !! g = Some gr -> group_ok gr' -> members gr' = members gr ->
  group_suspended d gr' = v -> group_suspended (other d) gr' = group_suspended (other d) gr ->
  world_ok ve (bump n (upd_bevs (switch v d) (members gr) (set_group g gr' w))).
Proof.
  intros Hw Eg Hok Em Ed Eo. pose proof (wo_groups _ _ Hw g gr Eg) as Hg. destruct (go_members _ Hg) as [Hn _].
  set (w' := bump n _). assert (Hlk : forall b, bevs w' !! b = if decide (b ∈ members gr) then switch v d <$> bevs w !! b else bevs w !! b).
  { intros b. by apply (upd_bevs_lookup _ _ (set_group g gr' w)). }
  assert (Hinv : forall b bev', bevs w' !! b = Some bev' -> exists bev, bevs w !! b = Some bev /\ links bev' = links bev /\
    (b ∈ members gr /\ bev' = switch v d bev \/ ~ b ∈ members gr /\ bev' = bev)).
  { intros b bev'. rewrite Hlk. case_decide as Hb; [|intros ->; exists bev'; auto]. destruct (bevs w !! b) as [bev|]; [|done].
    intros [= <-]. exists bev. rewrite links_switch. auto. }
  assert (Hsome : forall b, is_Some (bevs w' !! b) <-> is_Some (bevs w !! b)).
  { intros b. rewrite Hlk. case_decide; [by rewrite fmap_is_Some | done]. }
  assert (Hmem : forall g b, members_of (bevs w') g b <-> members_of (bevs w) g b).
  { intros g0 b. unfold members_of. split; [intros (bev' & (bev & Eb & [= El _ _] & _)%Hinv & <-); eauto|].
    intros (bev & Eb & Hgo). destruct (proj2 (Hsome b)) as [bev' Eb']; [by exists bev|]. exists bev'. split; [done|].
    apply Hinv in Eb' as (bev0 & Eb0 & [= El _ _] & _). assert (bev0 = bev) as -> by congruence. by rewrite El. }
  assert (Hgs : groups w' = <[g := gr']> (groups w)) by done.
  assert (Hcf : cfgs w' = cfgs w) by done.
  assert (Hother : forall bev d' f', (d' = d -> f' = BEV_SUSPEND_BW_GROUP -> group_of bev <> Some g) ->
    flag_ok (groups w) bev d' f' -> flag_ok (groups w') bev d' f').
  { intros bev d' f' Hx. apply flag_cond_groups. intros Hf g0 Hg0. rewrite Hgs. destruct (decide (g0 = g)) as [->|]; [|by rewrite lookup_insert_ne].
    rewrite lookup_insert_eq, Eg. cbn. f_equal. destruct (decide (d' = d)) as [Hd|Hd]; [by destruct (Hx Hd Hf)|]. by destruct d, d'. }
  split.
  - intros b bev' (bev & Eb & _ & Hc)%Hinv. pose proof (wo_bevs _ _ Hw b bev Eb) as [Hcore Hfit Hkn Hfl]. rewrite Hcf.
    pose proof (member_group _ _ g gr b bev Hw Eg Eb) as Hmg. destruct Hc as [[Hb ->]|[Hb ->]].
    + apply switch_ok; try done.
      * intros d' f' Hf' Hne. apply Hother; [|by apply Hfl]. intros -> ->. by destruct Hne.
      * split; [done|]. split; [done|]. intros _. rewrite (proj1 Hmg Hb), Hgs, lookup_insert_eq. done.
    + split; try done. intros d' f' Hf'. apply Hother; [|by apply Hfl]. intros _ _ Hx. by apply Hb, Hmg.
  - intros b. destruct (wo_refs _ _ Hw b) as [H1 H2]. split; [done|]. intros Hp. by apply Hsome, H2.
  - intros b bev' (bev & Eb & [= _ El1 El2] & _)%Hinv. rewrite El1, El2. by apply (wo_refcnt _ _ Hw).
  - destruct (wo_queue _ _ Hw) as [Hnq Hq]. split; [done|]. intros b. change (deferred_queue w') with (deferred_queue w). rewrite Hq. split.
    + intros (bev & Eb & Hd). destruct (proj2 (Hsome b)) as [bev' Eb']; [by exists bev|]. exists bev'. split; [done|].
      apply Hinv in Eb' as (bev0 & Eb0 & [= _ El _] & _). assert (bev0 = bev) as -> by congruence. by rewrite El.
    + intros (bev' & (bev & Eb & [= _ El _] & _)%Hinv & Hd). exists bev. by rewrite <- El.
  - rewrite Hcf. apply Hw.
  - rewrite Hgs. intros g0 gr0. destruct (decide (g0 = g)) as [->|]; [rewrite lookup_insert_eq; by intros [= <-] | rewrite lookup_insert_ne by done; apply Hw].
  - rewrite Hgs. intros g0 gr0 b. rewrite Hmem. destruct (decide (g0 = g)) as [->|]; [rewrite lookup_insert_eq; intros [= <-]; rewrite Em; by apply Hw | rewrite lookup_insert_ne by done; apply Hw].
  - intros b bev' g0 (bev & Eb & [= El _ _] & _)%Hinv Hg0. rewrite El in Hg0. rewrite Hgs, lookup_insert_is_Some'. right. by apply (wo_group_of _ _ Hw b bev).
  - destruct (wo_fresh _ _ Hw) as [Hf1 Hf2]. split.
    + intros b Hb%Hsome. by apply Hf1.
    + rewrite Hgs. intros g0 [->|Hx]%lookup_insert_is_Some'; apply Hf2; [by exists gr | done].
Qed.
End world.

Section io.
Context {A : Arch} {M : Allocator} {E : BevEnv} (Hev : events_ok).

(** ** Callbacks of the buffers *)

(** The calls that an operation on a buffer has added to the record. *)
Definition new_calls (buf buf' : evbuffer) : list cb_call := drop (length (cb_calls buf)) (cb_calls buf').

Lemma new_calls_same buf buf' : cb_calls buf' = cb_calls buf -> new_calls buf buf' = [].
Proof. unfold new_calls. intros ->. by apply drop_ge. Qed.

(** Data was added to a buffer, or removed from it. *)
Definition changed (buf : evbuffer) (a d : Z) (buf' : evbuffer) : Prop :=
  (a <> 0 \/ d <> 0) /\ exists cs lwd tl, buf' = evbuffer_invoke_callbacks (set_counts (set_chains buf cs lwd tl) a d).

Lemma add_count_changed buf k buf' cs lwd tl : n_add_for_cb buf = 0 /\ n_del_for_cb buf = 0 -> k <> 0 ->
  buf' = evbuffer_invoke_callbacks (add_count (set_chains buf cs lwd tl) k) -> changed buf k 0 buf'.
Proof.
  intros [Ha Hd] Hk ->. split; [by left|]. exists cs, lwd, tl. unfold add_count. by rewrite (Ha : n_add_for_cb (set_chains _ _ _ _) = 0), (Hd : n_del_for_cb (set_chains _ _ _ _) = 0).
Qed.

Lemma del_count_changed buf k buf' cs lwd tl : n_add_for_cb buf = 0 /\ n_del_for_cb buf = 0 -> k <> 0 ->
  buf' = evbuffer_invoke_callbacks (del_count (set_chains buf cs lwd tl) k) -> changed buf 0 k buf'.
Proof.
  intros [Ha Hd] Hk ->. split; [by right|]. exists cs, lwd, tl. unfold del_count. by rewrite (Ha : n_add_for_cb (set_chains _ _ _ _) = 0), (Hd : n_del_for_cb (set_chains _ _ _ _) = 0).
Qed.

Lemma counted buf a d : a <> 0 \/ d <> 0 -> (n_add_for_cb buf =? 0) && (n_del_for_cb buf =? 0) = true ->
  (a =? 0) && (d =? 0) = false.
Proof. intros [H|H] _; by rewrite (proj2 (Z.eqb_neq _ _) H), ?andb_false_r. Qed.

Lemma input_changed_shape wm h buf a d buf' : input_shape wm h buf -> changed buf a d buf' ->
  input_shape wm h buf' /\ if h =? 0 then new_calls buf buf' = [] else exists c, new_calls buf buf' = [c] /\ call_id c = WM_CB.
Proof.
  intros [Hu Hc Hw Hn] (Hne & cs & lwd & tl & ->). unfold new_calls, evbuffer_invoke_callbacks, evbuffer_run_callbacks, cb_mask.
  cbn [callbacks deferred_cbs set_counts set_chains]. rewrite Hu, Hc. destruct wm.
  - cbn [n_add_for_cb n_del_for_cb set_counts]. rewrite (counted buf a d Hne) by (destruct Hn as [-> ->]; done).
    split; [by split|]. cbn. destruct (Z.eqb_spec h 0) as [->|]; cbn.
    + by rewrite app_nil_r, drop_ge.
    + rewrite drop_app_length. by eexists.
  - rewrite (Hw eq_refl) in *. split; [by split|]. cbn. by apply drop_ge.
Qed.

Lemma output_changed_shape buf a d buf' : output_shape buf -> changed buf a d buf' ->
  output_shape buf' /\ exists c, new_calls buf buf' = [c] /\ call_id c = OUTBUF_CB /\ call_n_added c = a.
Proof.
  intros [Hu Hc Hn] (Hne & cs & lwd & tl & ->). unfold new_calls, evbuffer_invoke_callbacks, evbuffer_run_callbacks, cb_mask.
  cbn [callbacks deferred_cbs set_counts set_chains]. rewrite Hu, Hc.
  cbn [n_add_for_cb n_del_for_cb set_counts]. rewrite (counted buf a d Hne) by (destruct Hn as [-> ->]; done).
  split; [by split|]. cbn. rewrite drop_app_length. by eexists.
Qed.

(** ** The input *)

(** [bufferevent_inbuf_wm_cb], when there is a high watermark. *)
Definition wm_check (bev : bufferevent) : bufferevent :=
  if high (wm_read bev) =? 0 then bev
  else if high (wm_read bev) <=? total_len (input bev) then suspend_bev Reading BEV_SUSPEND_WM bev
  else unsuspend_bev Reading BEV_SUSPEND_WM bev.

Lemma suspend_input d f bev buf : (suspend_bev d f bev) <| input := buf |> = suspend_bev d f (bev <| input := buf |>).
Proof. unfold suspend_bev. destruct d, (_ =? 0); cbn; try done. by destruct (connecting bev). Qed.
Lemma unsuspend_input d f bev buf : (unsuspend_bev d f bev) <| input := buf |> = unsuspend_bev d f (bev <| input := buf |>).
Proof. unfold unsuspend_bev. by destruct d, (_ && _). Qed.

Lemma wm_check_input bev buf : total_len buf = total_len (input bev) -> (wm_check bev) <| input := buf |> = wm_check (bev <| input := buf |>).
Proof.
  intros Ht. unfold wm_check.
  change (wm_read (bev <| input := buf |>)) with (wm_read bev). change (input (bev <| input := buf |>)) with buf. rewrite Ht.
  destruct (_ =? 0); [done|].
  destruct (_ <=? _); [apply suspend_input | apply unsuspend_input].
Qed.

Lemma links_wm_check bev : links (wm_check bev) = links bev.
Proof. unfold wm_check. destruct (_ =? 0); [done|]. destruct (_ <=? _); [apply links_suspend | apply links_unsuspend]. Qed.

Lemma core_wm_check bev : core (wm_check bev) = core bev.
Proof. unfold wm_check. destruct (_ =? 0); [done|]. destruct (_ <=? _); [apply core_suspend | apply core_unsuspend]. Qed.

(** The flag of the watermark is right after the check. *)
Lemma wm_check_ok gs cs br bev : core_ok cs (core bev) -> events_fit br bev -> (forall d, known_flags (suspended d bev)) ->
  (forall d' f', flag_bit f' -> ~ (d' = Reading /\ f' = BEV_SUSPEND_WM) -> flag_ok gs bev d' f') ->
  (high (wm_read bev) = 0 -> has (suspended Reading bev) BEV_SUSPEND_WM = false) -> bev_ok gs cs br (wm_check bev).
Proof.
  intros Hc He Hk Hf Hz. unfold wm_check. destruct (Z.eqb_spec (high (wm_read bev)) 0) as [H0|H0].
  - split; [done..|]. intros d f Hfb. destruct (decide (d = Reading /\ f = BEV_SUSPEND_WM)) as [[-> ->]|]; [|by apply Hf].
    unfold flag_ok. rewrite (Hz H0). split; done.
  - destruct (Z.leb_spec (high (wm_read bev)) (total_len (input bev))).
    + apply suspend_ok; auto with bev. by split.
    + apply unsuspend_ok; auto with bev. by split.
Qed.

Lemma wp_inbuf_wm_cb b bev (Q : unit -> world -> Prop) w : bevs w !! b = Some bev -> high (wm_read bev) <> 0 ->
  with_bev Q tt b w (wm_check bev) -> wp (bufferevent_inbuf_wm_cb b) Q w.
Proof using Hev.
  intros Eb Hh H. unfold bufferevent_inbuf_wm_cb. apply wp_bind, (wp_the_bev _ bev); [done|].
  unfold wm_check in H. rewrite (proj2 (Z.eqb_neq _ _) Hh) in H. unfold evbuffer_get_length.
  destruct (_ <=? _); [by apply (wp_suspend Hev _ _ _ bev) | by apply (wp_unsuspend Hev _ _ _ bev)].
Qed.

(** An operation that leaves the input without a call of callbacks. *)
Lemma wp_on_input_quiet {T} b (f : evbuffer -> option (T * evbuffer)) bev r buf (Q : T -> world -> Prop) w :
  bevs w !! b = Some bev -> f (input bev) = Some (r, buf) -> cb_calls buf = cb_calls (input bev) ->
  with_bev Q r b w (bev <| input := buf |>) -> wp (on_input b f) Q w.
Proof.
  intros Eb Hf Hc H. unfold on_input. apply wp_bind, (wp_the_bev _ bev); [done|].
  apply wp_bind, (wp_lift _ (r, buf)); [done|]. apply wp_bind, (wp_update_bev _ _ bev); [done|].
  fold (new_calls (input bev) buf). rewrite new_calls_same by done. apply wp_ret. by apply with_bev_now in H.
Qed.

(** An operation that adds data to the input or removes it. *)
Lemma wp_on_input {T} b (f : evbuffer -> option (T * evbuffer)) bev r buf a d (Q : T -> world -> Prop) w :
  bevs w !! b = Some bev -> f (input bev) = Some (r, buf) ->
  input_shape (read_watermarks_cb bev) (high (wm_read bev)) (input bev) -> changed (input bev) a d buf ->
  with_bev Q r b w (wm_check (bev <| input := buf |>)) -> wp (on_input b f) Q w.
Proof using Hev.
  intros Eb Hf Hs Hch H. unfold on_input. apply wp_bind, (wp_the_bev _ bev); [done|].
  apply wp_bind, (wp_lift _ (r, buf)); [done|]. apply wp_bind, (wp_update_bev _ _ bev); [done|].
  fold (new_calls (input bev) buf). destruct (input_changed_shape _ _ _ _ _ _ Hs Hch) as [_ Hc].
  destruct (Z.eqb_spec (high (wm_read bev)) 0) as [H0|H0].
  - rewrite Hc. apply wp_bind, wp_ret. unfold wm_check in H. cbn in H. rewrite H0 in H. by apply with_bev_now in H.
  - destruct Hc as (c & -> & Hid). cbn [run_input_calls]. rewrite Hid. cbn [WM_CB Nat.eqb when]. apply wp_bind, wp_bind.
    apply (wp_inbuf_wm_cb _ (bev <| input := buf |>)); [apply bevs_now | done|].
    intros n. apply wp_ret, wp_ret. rewrite set_bev_twice. apply H.
Qed.

(** ** The output *)

(** [bufferevent_socket_outbuf_cb], after data was added. *)
Definition out_check (bev : bufferevent) : bufferevent :=
  if may Writing bev && negb (ev_added (ev_write bev)) then start Writing bev else bev.

Lemma core_out_check bev : core (out_check bev) = core bev.
Proof. unfold out_check. destruct (_ && _); [apply core_start | done]. Qed.

Lemma links_out_check bev : links (out_check bev) = links bev.
Proof. unfold out_check. by destruct (_ && _). Qed.

Lemma suspended_out_check d bev : suspended d (out_check bev) = suspended d bev.
Proof. unfold out_check. destruct (_ && _); [apply suspended_start | done]. Qed.

Lemma wp_on_output {T} b (f : evbuffer -> option (T * evbuffer)) bev r buf a d (Q : T -> world -> Prop) w :
  bevs w !! b = Some bev -> f (output bev) = Some (r, buf) -> output_shape (output bev) -> changed (output bev) a d buf ->
  with_bev Q r b w (let bev1 := bev <| output := buf |> in if a =? 0 then bev1 else out_check bev1) -> wp (on_output b f) Q w.
Proof using Hev.
  intros Eb Hf Hs Hch H. unfold on_output. apply wp_bind, (wp_the_bev _ bev); [done|].
  apply wp_bind, (wp_lift _ (r, buf)); [done|]. apply wp_bind, (wp_update_bev _ _ bev); [done|].
  fold (new_calls (output bev) buf). destruct (output_changed_shape _ _ _ _ Hs Hch) as (_ & c & -> & Hid & Ha).
  set (bev1 := bev <| output := buf |>) in *. cbn [run_output_calls]. rewrite Hid. cbn [OUTBUF_CB Nat.eqb when].
  apply wp_bind, wp_bind. cbn [be_outbuf_cb bufferevent_ops_socket]. unfold bufferevent_socket_outbuf_cb.
  apply wp_bind, (wp_the_bev _ bev1); [apply bevs_now|]. rewrite Ha. cbv zeta in H.
  destruct (Z.eqb_spec a 0) as [->|Hne]; cbn [negb andb].
  { apply wp_ret, wp_ret, wp_ret. by apply with_bev_now in H. }
  unfold out_check, may in H. rewrite <- andb_assoc, (andb_comm (negb _)), andb_assoc.
  destruct (_ && _); cbn [when].
  - apply wp_bind, (wp_add_event Hev b Writing bev1); [apply bevs_now|]. intros n.
    apply wp_ret, wp_ret, wp_ret. rewrite set_bev_twice. apply H.
  - apply wp_ret, wp_ret, wp_ret. by apply with_bev_now in H.
Qed.

Lemma wp_on_output_quiet {T} b (f : evbuffer -> option (T * evbuffer)) bev r buf (Q : T -> world -> Prop) w :
  bevs w !! b = Some bev -> f (output bev) = Some (r, buf) -> cb_calls buf = cb_calls (output bev) ->
  with_bev Q r b w (bev <| output := buf |>) -> wp (on_output b f) Q w.
Proof.
  intros Eb Hf Hc H. unfold on_output. apply wp_bind, (wp_the_bev _ bev); [done|].
  apply wp_bind, (wp_lift _ (r, buf)); [done|]. apply wp_bind, (wp_update_bev _ _ bev); [done|].
  fold (new_calls (output bev) buf). rewrite new_calls_same by done. apply wp_ret. by apply with_bev_now in H.
Qed.
End io.

Section refs.
Context {A : Arch} {M : Allocator} {E : BevEnv} (Hev : events_ok).

(** The bufferevent without what is noted for deferred callbacks, and its references. *)
Definition still (bev : bufferevent) : bufferevent :=
  bev <| readcb_pending := false |> <| writecb_pending := false |> <| eventcb_pending := 0 |>
      <| deferred_cb_queued := false |> <| bev_refcnt := 0 |>.

Lemma still_parts gs cs br bev : bev_ok gs cs br bev <-> bev_ok gs cs br (still bev).
Proof.
  split; intros [[] [] Hk Hf]; split; try (intros; first [apply (Hk d) | by apply Hf]); by split.
Qed.

Lemma bev_ok_still gs cs br bev bev' : still bev' = still bev -> bev_ok gs cs br bev -> bev_ok gs cs br bev'.
Proof. rewrite (still_parts _ _ _ bev), (still_parts _ _ _ bev'). by intros ->. Qed.

(** The world has only changed in calls, notes and references. *)
Definition calm (w w' : world) : Prop :=
  groups w' = groups w /\ (cfgs w', now w') = (cfgs w, now w) /\
  forall b bev, bevs w !! b = Some bev -> exists bev', bevs w' !! b = Some bev' /\ still bev' = still bev.

Lemma calm_refl w : calm w w.
Proof. split; [done|]. split; [done|]. eauto. Qed.

Lemma calm_trans w1 w2 w3 : calm w1 w2 -> calm w2 w3 -> calm w1 w3.
Proof.
  intros (G1 & C1 & H1) (G2 & C2 & H2). split; [congruence|]. split; [congruence|]. intros b bev Hb.
  destruct (H1 b bev Hb) as (x & Hx & E1). destruct (H2 b x Hx) as (y & Hy & E2). exists y. split; [done | congruence].
Qed.

Lemma calm_set b bev bev' w n : bevs w !! b = Some bev -> still bev' = still bev -> calm w (bump n (set_bev b bev' w)).
Proof.
  intros Eb Es. split; [done|]. split; [done|]. intros x y Hx. cbn. destruct (decide (x = b)) as [->|].
  - rewrite lookup_insert_eq. exists bev'. split; [done|]. congruence.
  - rewrite lookup_insert_ne by done. eauto.
Qed.

(** ** Deferring *)

Definition scheduled (bev : bufferevent) : bufferevent :=
  bev <| bev_refcnt := bev_refcnt bev + 1 |> <| deferred_cb_queued := true |>.

Lemma world_schedule v w b bev : world_ok v w -> bevs w !! b = Some bev -> deferred_cb_queued bev = false ->
  world_ok v ((set_bev b (scheduled bev) w) <| deferred_queue := deferred_queue w ++ [b] |>).
Proof.
  intros Hw Eb Hd. destruct (wo_refcnt _ _ Hw b bev Eb) as [H1 H2]. rewrite Hd in H1. destruct (wo_queue _ _ Hw) as [Hn Hq].
  apply (world_one v v w _ b bev (scheduled bev)); try done; cbn.
  - apply (bev_ok_still _ _ _ bev); [done | by apply (wo_bevs _ _ Hw)].
  - apply Hw.
  - cbn in H1. lia.
  - lia.
  - apply list.NoDup_app. split; [done|]. split; [|apply NoDup_singleton]. intros x Hx ->%list_elem_of_singleton.
    apply Hq in Hx as (y & Hy & Hdy). congruence.
  - intros y. rewrite elem_of_app, list_elem_of_singleton. case_decide; [subst; split; auto | by intuition].
Qed.

Lemma world_user v w c : world_ok v w -> world_ok v (w <| user_calls := user_calls w ++ [c] |>).
Proof. intros []. by split. Qed.

(** A callback is called or deferred. *)
Lemma wp_run_or_defer v b cb pending call bev w : world_ok v w -> bevs w !! b = Some bev ->
  (forall x, still (pending x) = still x /\ links (pending x) = links x) ->
  wp (run_or_defer b cb pending call) (fun _ w' => world_ok v w' /\ calm w w') w.
Proof.
  intros Hw Eb Hp. unfold run_or_defer. destruct cb as [cb|]; [|by apply wp_ret; split; [|apply calm_refl]].
  apply wp_bind, (wp_the_bev _ bev); [done|]. destruct (has _ _).
  2: { apply wp_modify. split; [by apply world_user|]. split; [done|]. split; [done|]. eauto. }
  destruct (Hp bev) as [Hst Hli]. apply wp_bind, (wp_update_bev _ _ bev); [done|].
  assert (H1 : world_ok v (set_bev b (pending bev) w)).
  { apply (world_set v w b bev (pending bev) (counts w)); try done. apply (bev_ok_still _ _ _ bev); [done | by apply (wo_bevs _ _ Hw)]. }
  assert (H2 : calm w (set_bev b (pending bev) w)) by (apply (calm_set b bev _ w (counts w)); done).
  apply wp_bind, (wp_the_bev _ (pending bev)); [apply bevs_now|].
  apply wp_when; [|done]. intros Hq. apply negb_true_iff in Hq. unfold SCHEDULE_DEFERRED, bufferevent_incref.
  apply wp_bind, (wp_update_bev _ _ (pending bev)); [apply bevs_now|].
  apply wp_bind; eapply wp_update_bev; [apply bevs_now|].
  apply wp_modify. rewrite set_bev_twice. rewrite set_bev_twice.
  pose proof (world_schedule v _ b (pending bev) H1 (bevs_now _ _ _) Hq) as H3. rewrite set_bev_twice in H3. split; [exact H3|].
  split; [done|]. split; [done|]. apply (calm_set b bev _ w (counts w)); [done | by rewrite <- Hst].
Qed.

Lemma wp_run_readcb v b w : world_ok v w -> is_Some (bevs w !! b) ->
  wp (_bufferevent_run_readcb b) (fun _ w' => world_ok v w' /\ calm w w') w.
Proof. intros Hw [bev Eb]. apply wp_bind, (wp_the_bev _ bev); [done|]. by apply (wp_run_or_defer v _ _ _ _ bev). Qed.

Lemma wp_run_writecb v b w : world_ok v w -> is_Some (bevs w !! b) ->
  wp (_bufferevent_run_writecb b) (fun _ w' => world_ok v w' /\ calm w w') w.
Proof. intros Hw [bev Eb]. apply wp_bind, (wp_the_bev _ bev); [done|]. by apply (wp_run_or_defer v _ _ _ _ bev). Qed.

Lemma wp_run_eventcb v b what w : world_ok v w -> is_Some (bevs w !! b) ->
  wp (_bufferevent_run_eventcb b what) (fun _ w' => world_ok v w' /\ calm w w') w.
Proof. intros Hw [bev Eb]. apply wp_bind, (wp_the_bev _ bev); [done|]. by apply (wp_run_or_defer v _ _ _ _ bev). Qed.

(** ** References *)

Definition hold (b : nat) (k : Z) (v : view) : view :=
  {| holds := fun b' => holds v b' + if decide (b' = b) then k else 0; broken := broken v |}.

Lemma world_hold v w b bev k n : world_ok v w -> bevs w !! b = Some bev -> 0 <= holds v b + k -> 0 < bev_refcnt bev + k ->
  world_ok (hold b k v) (bump n (set_bev b (bev <| bev_refcnt := bev_refcnt bev + k |>) w)).
Proof.
  intros Hw Eb Hh Hp. destruct (wo_refcnt _ _ Hw b bev Eb). apply (world_one v _ w _ b bev (bev <| bev_refcnt := bev_refcnt bev + k |>)); try done; cbn.
  - apply (bev_ok_still _ _ _ bev); [done | by apply (wo_bevs _ _ Hw)].
  - intros y Hy. rewrite decide_False by done. by rewrite Z.add_0_r.
  - by rewrite decide_True.
  - rewrite decide_True by done. lia.
  - apply Hw.
  - by apply (same_queue v w b bev).
Qed.
End refs.
