(* ===== verification/BevGroups.v ===== *)
(** Members of groups: leaving a group, joining one, and the end of a bufferevent. *)

From stdpp Require Import gmap.
From S2P Require Import Prelude StateOp MinHeap EvChain Evbuffer EventData EventCore EventQueue TokenBucket Bev RateLimit BevSocket BevInv BevWorld.

Section groups.
Context {A : Arch} {M : Allocator} {E : BevEnv} (Hev : events_ok).

Lemma tailq_remove_member b l : NoDup l -> b ∈ l -> tailq_remove b l = Some (without b l) /\ zlen (without b l) = zlen l - 1.
Proof.
  intros Hn Hb. destruct (tailq_remove_spec b l Hb) as (q & Hq & Hp & _). pose proof (tailq_remove_without _ _ _ Hn Hq) as ->.
  split; [done|]. apply Permutation_length in Hp. unfold zlen. rewrite Hp. cbn [length]. lia.
Qed.

Lemma without_nodup b l : NoDup l -> NoDup (without b l).
Proof. apply list.NoDup_filter. Qed.

Lemma elem_of_without x b l : x ∈ without b l <-> x ∈ l /\ x <> b.
Proof. unfold without. rewrite list_elem_of_filter. tauto. Qed.

(** ** Leaving *)

Definition left_by (b : nat) (gr : bufferevent_rate_limit_group) : bufferevent_rate_limit_group :=
  gr <| n_members := n_members gr - 1 |> <| members := without b (members gr) |>.

Definition groups_left (b : nat) (bev : bufferevent) (gs : gmap nat bufferevent_rate_limit_group) :=
  match group_of bev with Some g => alter (left_by b) g gs | None => gs end.

Lemma group_ok_left b gr : group_ok gr -> b ∈ members gr -> group_ok (left_by b gr).
Proof.
  intros [[Hn Hm] Hc Hl Hp Hs Hlim] Hb. destruct (tailq_remove_member b _ Hn Hb) as [_ Hz].
  split; try done. cbn. split; [by apply without_nodup | lia].
Qed.

Record regrouped (gs gs' : gmap nat bufferevent_rate_limit_group) (mem : nat -> nat -> Prop) : Prop := {
  rg_ok : forall g gr, gs' !! g = Some gr -> group_ok gr;
  rg_dom : forall g, is_Some (gs' !! g) <-> is_Some (gs !! g);
  rg_suspended : forall d g, group_suspended d <$> gs' !! g = group_suspended d <$> gs !! g;
  rg_members : forall g gr x, gs' !! g = Some gr -> x ∈ members gr <-> mem g x }.

Lemma groups_left_ok v w b bev : world_ok v w -> bevs w !! b = Some bev ->
  regrouped (groups w) (groups_left b bev (groups w)) (fun g x => x <> b /\ members_of (bevs w) g x).
Proof.
  intros Hw Eb. unfold groups_left. destruct (group_of bev) as [g|] eqn:Eg.
  - destruct (wo_group_of _ _ Hw b bev g Eb Eg) as [gr Egr]. pose proof (member_group v w g gr b bev Hw Egr Eb) as [_ Hb]. specialize (Hb Eg).
    assert (Hlk : forall g', alter (left_by b) g (groups w) !! g' = if decide (g' = g) then Some (left_by b gr) else groups w !! g').
    { intros g'. case_decide; [subst; by rewrite lookup_alter_eq, Egr | by rewrite lookup_alter_ne]. }
    split.
    + intros g' gr'. rewrite Hlk. case_decide; [|apply Hw]. intros [= <-]. apply group_ok_left; [by apply (wo_groups _ _ Hw g) | done].
    + intros g'. rewrite Hlk. case_decide; [subst|done]. rewrite Egr. split; intros; by eexists.
    + intros d g'. rewrite Hlk. case_decide; [subst|done]. rewrite Egr. by destruct d.
    + intros g' gr' x. rewrite Hlk. case_decide as Hg.
      * intros [= <-]. subst g'. cbn. rewrite elem_of_without, (wo_members _ _ Hw g gr x Egr). tauto.
      * intros Hgr. rewrite (wo_members _ _ Hw g' gr' x Hgr). split; [|tauto]. intros Hm. split; [|done]. intros ->.
        destruct Hm as (y & Hy & Hgy). congruence.
  - split; [apply Hw | done | done |]. intros g gr x Hgr. rewrite (wo_members _ _ Hw g gr x Hgr). split; [|tauto]. intros Hm. split; [|done].
    intros ->. destruct Hm as (y & Hy & Hgy). congruence.
Qed.

(** Others are as well-formed as before. *)
Lemma bev_ok_regrouped gs gs' mem cs br bev : regrouped gs gs' mem -> bev_ok gs cs br bev -> bev_ok gs' cs br bev.
Proof.
  intros Hr [Hc He Hk Hf]. split; [done..|]. intros d f Hfb. eapply flag_cond_groups; [|by apply Hf]. intros _ g _. apply Hr.
Qed.

(** The last reference goes: the bufferevent leaves the store and its group. *)
Lemma world_gone v w w' b bev : world_ok v w -> bevs w !! b = Some bev -> deferred_cb_queued bev = false -> holds v b = 1 ->
  bevs w' = delete b (bevs w) -> groups w' = groups_left b bev (groups w) -> cfgs w' = cfgs w -> next_id w' = next_id w ->
  deferred_queue w' = deferred_queue w -> world_ok (hold b (-1) v) w'.
Proof.
  intros Hw Eb Hd Hh Ew Eg Ec En Eq. pose proof (groups_left_ok v w b bev Hw Eb) as Hrg. rewrite <- Eg in Hrg.
  assert (Hlk : forall y y', bevs w' !! y = Some y' -> y <> b /\ bevs w !! y = Some y').
  { intros y y'. rewrite Ew. by intros [? ?]%lookup_delete_Some. }
  split; rewrite ?Ec, ?En, ?Eq.
  - intros y y' [_ Hy]%Hlk. eapply bev_ok_regrouped; [exact Hrg|]. by apply (wo_bevs _ _ Hw).
  - intros y. cbn. case_decide as Hy; [subst; lia|]. rewrite Z.add_0_r. destruct (wo_refs _ _ Hw y) as [H1 H2]. split; [done|].
    intros Hp. rewrite Ew, lookup_delete_ne by done. by apply H2.
  - intros y y' [Hne Hy]%Hlk. cbn. rewrite decide_False, Z.add_0_r by done. by apply (wo_refcnt _ _ Hw y y').
  - split; [apply Hw|]. intros y. rewrite (proj2 (wo_queue _ _ Hw)). split; intros (z & Hz & Hdz).
    + exists z. split; [|done]. rewrite Ew, lookup_delete_ne; [done|]. intros ->. congruence.
    + apply Hlk in Hz as [_ Hz]. by exists z.
  - apply Hw.
  - apply Hrg.
  - intros g gr x Hgr. rewrite (rg_members _ _ _ Hrg g gr x Hgr). unfold members_of. split.
    + intros (Hx & y & Hy & Hgy). exists y. split; [|done]. by rewrite Ew, lookup_delete_ne.
    + intros (y & [Hne Hy]%Hlk & Hgy). split; [done | by exists y].
  - intros y y' g [_ Hy]%Hlk Hg. apply Hrg. by apply (wo_group_of _ _ Hw y y').
  - destruct (wo_fresh _ _ Hw) as [Hf1 Hf2]. split.
    + intros y [y' [_ Hy]%Hlk]. apply Hf1. by exists y'.
    + intros g Hg. by apply Hf2, Hrg.
Qed.

(** A bufferevent changes its group. *)
Lemma world_moved v w w' b bev bev' gs mem : world_ok v w -> bevs w !! b = Some bev ->
  regrouped (groups w) gs mem -> (forall g x, mem g x <-> members_of (<[b := bev']> (bevs w)) g x) ->
  (forall g, group_of bev' = Some g -> is_Some (groups w !! g)) -> bev_ok gs (cfgs w) (broken v b) bev' ->
  deferred_cb_queued bev' = deferred_cb_queued bev -> bev_refcnt bev' = bev_refcnt bev ->
  bevs w' = <[b := bev']> (bevs w) -> groups w' = gs -> cfgs w' = cfgs w -> next_id w' = next_id w ->
  deferred_queue w' = deferred_queue w -> world_ok v w'.
Proof.
  intros Hw Eb Hrg Hmem Hgo Hok Ed Er Ew Eg Ec En Eq.
  assert (Hlk : forall y y', bevs w' !! y = Some y' -> y = b /\ y' = bev' \/ y <> b /\ bevs w !! y = Some y').
  { intros y y'. rewrite Ew. destruct (decide (y = b)) as [->|]; [rewrite lookup_insert_eq; intros [= <-]; by left | rewrite lookup_insert_ne by done; by right]. }
  assert (Hsome : forall y, is_Some (bevs w' !! y) <-> is_Some (bevs w !! y)).
  { intros y. rewrite Ew. destruct (decide (y = b)) as [->|]; [rewrite lookup_insert_eq, Eb; split; intros; by eexists | by rewrite lookup_insert_ne]. }
  split; rewrite ?Ec, ?En, ?Eq, ?Eg.
  - intros y y' [[-> ->]|[Hne Hy]]%Hlk; [done|]. eapply bev_ok_regrouped; [exact Hrg|]. by apply (wo_bevs _ _ Hw).
  - intros y. destruct (wo_refs _ _ Hw y) as [H1 H2]. split; [done|]. intros Hp. by apply Hsome, H2.
  - intros y y' [[-> ->]|[Hne Hy]]%Hlk; [rewrite Ed, Er; by apply (wo_refcnt _ _ Hw b bev) | by apply (wo_refcnt _ _ Hw y y')].
  - split; [apply Hw|]. intros y. rewrite (proj2 (wo_queue _ _ Hw)). split; intros (z & Hz & Hdz).
    + destruct (decide (y = b)) as [->|]; [exists bev'; rewrite Ew, lookup_insert_eq; split; [done | congruence] | exists z; by rewrite Ew, lookup_insert_ne].
    + apply Hlk in Hz as [[-> ->]|[_ Hz]]; [exists bev; split; [done | congruence] | by exists z].
  - apply Hw.
  - apply Hrg.
  - intros g gr x Hgr. by rewrite (rg_members _ _ _ Hrg g gr x Hgr), Hmem, Ew.
  - intros y y' g [[-> ->]|[Hne Hy]]%Hlk Hg; apply Hrg; [by apply Hgo | by apply (wo_group_of _ _ Hw y y')].
  - destruct (wo_fresh _ _ Hw) as [Hf1 Hf2]. split; [intros y Hy%Hsome; by apply Hf1 | intros g Hg; by apply Hf2, Hrg].
Qed.

(** ** Leaving, in the code *)

Definition ungrouped (bev : bufferevent) : bufferevent :=
  bev <| rate_limiting := (fun rl => rl <| group := None |>) <$> rate_limiting bev |>.

Definition left_world (b : nat) (bev : bufferevent) (w : world) : world :=
  (set_bev b (ungrouped bev) w) <| groups := groups_left b bev (groups w) |>.

Lemma set_bev_id b bev w : bevs w !! b = Some bev -> set_bev b bev w = w.
Proof. intros Eb. unfold set_bev, assign. cbn. rewrite insert_id by done. by destruct w. Qed.

Lemma left_world_none b bev w : bevs w !! b = Some bev -> group_of bev = None -> left_world b bev w = w.
Proof.
  intros Eb Eg. unfold left_world, groups_left. rewrite Eg. assert (ungrouped bev = bev) as ->.
  { unfold ungrouped, group_of in *. destruct bev; cbn in *. unfold assign. cbn. f_equal. destruct rate_limiting as [[]|]; cbn in *; by simplify_eq. }
  rewrite set_bev_id by done. by destruct w.
Qed.

Lemma wp_leave b u bev (Q : Z -> world -> Prop) w : bevs w !! b = Some bev ->
  (forall g, group_of bev = Some g -> exists gr, groups w !! g = Some gr /\ NoDup (members gr) /\ b ∈ members gr) ->
  wp (when u (bufferevent_unsuspend_read b BEV_SUSPEND_BW_GROUP ;; bufferevent_unsuspend_write b BEV_SUSPEND_BW_GROUP) ;; ret 0) Q (left_world b bev w) ->
  wp (bufferevent_remove_from_rate_limit_group_internal b u) Q w.
Proof.
  intros Eb Hg H. unfold bufferevent_remove_from_rate_limit_group_internal. apply wp_bind, (wp_the_bev _ bev); [done|].
  apply wp_bind. destruct (group_of bev) as [g|] eqn:Eg.
  - destruct (Hg g eq_refl) as (gr & Egr & Hn & Hb). unfold group_of in Eg. destruct (rate_limiting bev) as [rl|] eqn:El; [|done]. cbn in Eg. rewrite Eg.
    apply wp_bind, (wp_update_bev _ _ bev); [done|]. apply wp_bind, (wp_update_group _ _ gr); [done|].
    eapply wp_bind, wp_the_group; [cbn; apply lookup_insert_eq|].
    apply wp_bind, (wp_lift _ (without b (members gr))); [by apply tailq_remove_member|].
    eapply wp_update_group; [cbn; apply lookup_insert_eq|]. assert (El' : left_world b bev w = set_group g (left_by b gr) (set_group g (gr <| n_members := n_members gr - 1 |>) (set_bev b (bev <| rate_limiting := Some (rl <| group := None |>) |>) w))).
    { unfold left_world, ungrouped, groups_left, group_of. rewrite El. cbn. rewrite Eg. unfold set_group, set_bev, assign. cbn. f_equal.
      rewrite insert_insert_eq. apply map_eq. intros x. destruct (decide (x = g)) as [->|]; [by rewrite lookup_alter_eq, lookup_insert_eq, Egr | by rewrite lookup_alter_ne, lookup_insert_ne]. }
    rewrite El' in H. exact H.
  - rewrite (left_world_none b bev w Eb Eg) in H. unfold group_of in Eg. destruct (rate_limiting bev) as [rl|]; [|exact H]. cbn in Eg. rewrite Eg. exact H.
Qed.

(** ** The last reference *)

Lemma wp_event_del_both b bev (Q : unit -> world -> Prop) w (c : bool) fd : bevs w !! b = Some bev ->
  (forall n cl, Q tt (bump n (set_bev b (del_ev Writing (del_ev Reading bev)) (w <| closed := cl |>)))) ->
  wp (let! _ := bev_event_del b Reading in let! _ := bev_event_del b Writing in
      when c (modify (fun w => w <| closed := closed w ++ [fd] |>))) Q w.
Proof using Hev.
  intros Eb H. apply wp_bind, (wp_event_del Hev b Reading bev); [done|]. intros n.
  eapply wp_bind, (wp_event_del Hev b Writing); [apply bevs_set|]. intros m. rewrite bump_set. apply wp_when; intros _.
  - apply wp_modify. apply (H m (closed w ++ [fd])).
  - specialize (H m (closed w)). by destruct w.
Qed.

Lemma wp_decref v b w : world_ok v w -> 0 < holds v b ->
  wp (_bufferevent_decref_and_unlock b) (fun _ w' => world_ok (hold b (-1) v) w' /\ (1 < holds v b -> calm w w')) w.
Proof using Hev.
  intros Hw Hh. destruct (proj2 (wo_refs _ _ Hw b) Hh) as [bev Eb]. destruct (wo_refcnt _ _ Hw b bev Eb) as [Hr Hp].
  unfold _bufferevent_decref_and_unlock. apply wp_bind, (wp_the_bev _ bev); [done|]. apply wp_bind, wp_assert; [by apply Z.ltb_lt|].
  apply wp_bind, (wp_update_bev _ _ bev); [done|]. change (bev_refcnt bev - 1) with (bev_refcnt bev + -1). set (bev0 := bev <| bev_refcnt := bev_refcnt bev + -1 |>).
  destruct (Z.eqb_spec (bev_refcnt bev + -1) 0) as [Hz|Hz]; cbn [negb].
  - assert (Hd : deferred_cb_queued bev = false) by (destruct (deferred_cb_queued bev); cbn in Hr; [lia | done]).
    rewrite Hd in Hr. cbn in Hr. apply wp_bind. cbn [be_destruct bufferevent_ops_socket]. unfold be_socket_destruct.
    apply wp_bind, (wp_the_bev _ bev0); [apply bevs_now|].
    apply (wp_event_del_both b bev0); [apply bevs_now|]. intros n cl. set (bev1 := del_ev Writing (del_ev Reading bev0)).
    set (w1 := bump n _). assert (Eb1 : bevs w1 !! b = Some bev1) by (cbn; apply lookup_insert_eq).
    apply wp_bind, (wp_the_bev _ bev1); [done|].
    assert (Hend : forall w2, bevs w2 = bevs (left_world b bev1 w1) -> groups w2 = groups (left_world b bev1 w1) -> cfgs w2 = cfgs w ->
      next_id w2 = next_id w -> deferred_queue w2 = deferred_queue w -> wp (modify (fun w => w <| bevs := delete b (bevs w) |>) ;; ret 1)
        (fun _ w' => world_ok (hold b (-1) v) w' /\ (1 < holds v b -> calm w w')) w2).
    { intros w2 E1 E2 E3 E4 E5. apply wp_bind, wp_modify, wp_ret. split; [|lia].
      apply (world_gone v w _ b bev); try done; [lia|]. cbn. rewrite E1. cbn. by rewrite !delete_insert_eq. }
    apply wp_bind. destruct (group_of bev) as [g|] eqn:Eg.
    + unfold group_of in Eg. change (rate_limiting bev1) with (rate_limiting bev). destruct (rate_limiting bev) as [rl|] eqn:El; [|done]. cbn in Eg.
      rewrite Eg. apply wp_bind, (wp_leave b false bev1); [done | |].
      * intros g' Hg'. change (group_of bev1) with (group_of bev) in Hg'. destruct (wo_group_of _ _ Hw b bev g' Eb Hg') as [gr Egr]. exists gr. split; [done|].
        split; [apply (go_members _ (wo_groups _ _ Hw g' gr Egr)) | by apply (member_group v w g' gr b bev)].
      * apply wp_bind, wp_ret, wp_ret, wp_ret. by apply Hend.
    + pose proof (left_world_none b bev1 w1 Eb1 Eg) as Hl. unfold group_of in Eg. change (rate_limiting bev1) with (rate_limiting bev).
      destruct (rate_limiting bev) as [rl|] eqn:El; [cbn in Eg; rewrite Eg|]; apply wp_ret, Hend; rewrite ?Hl; done.
  - apply wp_ret. assert (Hw' : world_ok (hold b (-1) v) (set_bev b bev0 w)) by (apply (world_hold v w b bev (-1) (counts w)); (done || lia)).
    split; [done|]. intros _. by apply (calm_set b bev bev0 w (counts w)).
Qed.
End groups.
