(* ===== verification/BevLimits.v ===== *)
(** Rate limits keep the store well-formed: buckets fill up and pay for what was read or
    written, empty buckets suspend their bufferevent until a timer, and groups suspend all
    their members. *)

From stdpp Require Import gmap.
From S2P Require Import Prelude StateOp MinHeap EvChain Evbuffer EvbufferSpec EventData EventCore TokenBucket Bev RateLimit BevSocket BevInv BevWorld BevGroups.

Section limits.
Context {A : Arch} {M : Allocator} {E : BevEnv} (Hev : events_ok).

(** ** Steps on the limit of one bufferevent *)

Definition set_rl (rl : bufferevent_rate_limit) (bev : bufferevent) : bufferevent := bev <| rate_limiting := Some rl |>.

Lemma wp_set_rlim b rl bev (Q : unit -> world -> Prop) w : bevs w !! b = Some bev -> Q tt (set_bev b (set_rl rl bev) w) -> wp (set_rlim b rl) Q w.
Proof. intros Eb H. by apply (wp_update_bev _ _ bev). Qed.

Lemma wp_the_rlim b bev rl (Q : bufferevent_rate_limit -> world -> Prop) w : bevs w !! b = Some bev -> rate_limiting bev = Some rl ->
  Q rl w -> wp (the_rlim b) Q w.
Proof. intros Eb El H. apply wp_bind, (wp_the_bev _ bev); [done|]. by apply (wp_lift _ rl). Qed.

Lemma wp_current_tick c (Q : Z -> world -> Prop) w : cfg_ok c -> (forall t, ev_token_bucket_get_tick (now w) c = Some t -> Q t w) -> wp (current_tick c) Q w.
Proof.
  intros Hc H. apply wp_bind, wp_asks. unfold ev_token_bucket_get_tick in *. destruct (Z.eqb_spec (msec_per_tick c) 0) as [Hz|Hz].
  - pose proof (cfg_tick _ Hc). lia.
  - eapply wp_lift; [done|]. by apply H.
Qed.

Lemma wp_refill_add b bev rl (Q : Z -> world -> Prop) w : bevs w !! b = Some bev -> rate_limiting bev = Some rl ->
  with_bev Q 0 b w (set_rl (rl <| refill_pending := true |>) bev) -> wp (refill_add b) Q w.
Proof using Hev.
  intros Eb El H. unfold refill_add. apply wp_bind, (wp_event_result Hev). intros n. apply wp_bind. cbn [Z.eqb when].
  apply wp_bind, (wp_the_rlim _ bev rl); [done..|]. apply (wp_set_rlim _ _ bev); [done|]. apply wp_ret, H.
Qed.

Lemma wp_refill_del b bev rl (Q : unit -> world -> Prop) w : bevs w !! b = Some bev -> rate_limiting bev = Some rl ->
  with_bev Q tt b w (set_rl (rl <| refill_pending := false |>) bev) -> wp (refill_del b) Q w.
Proof using Hev.
  intros Eb El H. unfold refill_del. apply wp_bind, (wp_event_result Hev). intros n.
  apply wp_bind, (wp_the_rlim _ bev rl); [done..|]. apply (wp_set_rlim _ _ bev); [done|]. apply H.
Qed.

Lemma suspend_rl d f rl bev : set_rl rl (suspend_bev d f bev) = suspend_bev d f (set_rl rl bev).
Proof. unfold suspend_bev. destruct d, (_ =? 0); cbn; try done. by destruct (connecting bev). Qed.
Lemma unsuspend_rl d f rl bev : set_rl rl (unsuspend_bev d f bev) = unsuspend_bev d f (set_rl rl bev).
Proof. unfold unsuspend_bev. by destruct d, (_ && _). Qed.

Lemma rate_limiting_suspend d f bev : rate_limiting (suspend_bev d f bev) = rate_limiting bev.
Proof. unfold suspend_bev. destruct d, (_ =? 0); cbn; try done. by destruct (connecting bev). Qed.
Lemma rate_limiting_unsuspend d f bev : rate_limiting (unsuspend_bev d f bev) = rate_limiting bev.
Proof. unfold unsuspend_bev. by destruct d, (_ && _). Qed.

Lemma set_rl_id rl bev : rate_limiting bev = Some rl -> set_rl rl bev = bev.
Proof. intros H. unfold set_rl, assign. destruct bev. cbn in *. by rewrite H. Qed.

Lemma set_rl_twice rl rl' bev : set_rl rl (set_rl rl' bev) = set_rl rl bev.
Proof. done. Qed.

(** Everything but the flags of the bucket, with another limit. *)
Record rl_ready (gs : gmap nat bufferevent_rate_limit_group) (cs : gmap nat ev_token_bucket_cfg) (br : bool) (bev : bufferevent) : Prop := {
  rr_core : core_ok cs (core bev);
  rr_events : events_fit br bev;
  rr_known : forall d, known_flags (suspended d bev);
  rr_flags : forall d f, flag_bit f -> f <> BEV_SUSPEND_BW -> flag_ok gs bev d f }.

Lemma rl_ready_set gs cs br rl bev : bev_ok gs cs br bev -> group rl = group_of bev -> rlim_ok cs rl -> rl_ready gs cs br (set_rl rl bev).
Proof.
  intros [Hc He Hk Hf] Hg Hr. split.
  - destruct Hc. split; try done. cbn. by intros ? [= <-].
  - by destruct He.
  - intros d. specialize (Hk d). by destruct d.
  - intros d f Hfb Hne. specialize (Hf d f Hfb). destruct Hf as (H1 & _ & H3). unfold flag_ok.
    assert (suspended d (set_rl rl bev) = suspended d bev) as -> by by destruct d.
    split; [exact H1|]. split; [done|]. unfold group_of at 1. cbn. rewrite Hg. exact H3.
Qed.

Lemma bw_cond gs bev d (v : bool) : (if v then exists rl, rate_limiting bev = Some rl /\ is_Some (cfg rl) /\ refill_pending rl = true
    else forall rl, rate_limiting bev = Some rl -> is_Some (cfg rl) -> 0 < limit d (bucket rl)) -> flag_cond gs bev d BEV_SUSPEND_BW v.
Proof. intros H. by split. Qed.

Lemma rl_ready_ok gs cs br bev : rl_ready gs cs br bev ->
  (forall d, flag_cond gs bev d BEV_SUSPEND_BW (has (suspended d bev) BEV_SUSPEND_BW)) -> bev_ok gs cs br bev.
Proof. intros [] H. split; try done. intros d f Hf. destruct (decide (f = BEV_SUSPEND_BW)) as [->|]; [by apply H | auto]. Qed.

Lemma rl_ready_suspend gs cs br d bev : rl_ready gs cs br bev -> flag_cond gs bev d BEV_SUSPEND_BW true ->
  flag_cond gs bev (other d) BEV_SUSPEND_BW (has (suspended (other d) bev) BEV_SUSPEND_BW) -> bev_ok gs cs br (suspend_bev d BEV_SUSPEND_BW bev).
Proof.
  intros [] H1 H2. apply suspend_ok; auto with bev. intros d' f' Hf Hne. destruct (decide (f' = BEV_SUSPEND_BW)) as [->|]; [|auto].
  assert (d' = other d) as -> by (destruct d', d; (done || by destruct Hne)). done.
Qed.

Lemma rl_ready_unsuspend gs cs br d bev : rl_ready gs cs br bev -> flag_cond gs bev d BEV_SUSPEND_BW false ->
  flag_cond gs bev (other d) BEV_SUSPEND_BW (has (suspended (other d) bev) BEV_SUSPEND_BW) -> bev_ok gs cs br (unsuspend_bev d BEV_SUSPEND_BW bev).
Proof.
  intros [] H1 H2. apply unsuspend_ok; auto with bev. intros d' f' Hf Hne. destruct (decide (f' = BEV_SUSPEND_BW)) as [->|]; [|auto].
  assert (d' = other d) as -> by (destruct d', d; (done || by destruct Hne)). done.
Qed.

(** ** Filling the bucket *)

(** The bucket after the ticks since it was updated last. *)
Definition filled_up (cf : ev_token_bucket_cfg) (t : Z) (rl : bufferevent_rate_limit) : bufferevent_rate_limit :=
  rl <| bucket := snd (ev_token_bucket_update (bucket rl) cf t) |>.

Lemma filled_up_limit cf t rl d : cfg_ok cf -> (forall d, level cf d (bucket rl)) -> limit d (bucket rl) <= limit d (bucket (filled_up cf t rl)).
Proof.
  intros Hc Hl. pose proof (ev_token_bucket_update_limit cf (bucket rl) t Hc Hl) as H. cbv zeta in H. cbn.
  destruct (ev_token_bucket_update _ _ _) as [r b']. destruct H as [H1 H2]. cbn [snd].
  destruct (decide (0 < wrap 32 (t - last_updated (bucket rl)) <= INT_MAX)) as [Hn|Hn]; [|by destruct (H2 Hn) as [_ ->]].
  destruct (H1 Hn) as (_ & _ & ->). pose proof (Hl d) as Hd. unfold level in Hd. destruct (cfg_rates _ Hc d). nia.
Qed.

Lemma filled_up_ok cs cf c t rl : rlim_ok cs rl -> cfg rl = Some c -> cs !! c = Some cf -> rlim_ok cs (filled_up cf t rl).
Proof.
  intros Hr Hc Hcf c' Hc'. cbn in Hc'. destruct (Hr c' Hc') as (Hi & cf' & Hcf' & Hlo & Hl). split; [done|].
  exists cf'. split; [done|]. split; [done|]. intros d. assert (cf' = cf) as -> by congruence. apply ev_token_bucket_update_level; [apply Hlo | done].
Qed.

Lemma filled_up_bev gs cs br cf c t rl bev : bev_ok gs cs br bev -> rate_limiting bev = Some rl -> cfg rl = Some c -> cs !! c = Some cf ->
  bev_ok gs cs br (set_rl (filled_up cf t rl) bev).
Proof.
  intros Hb Hl Hc Hcf. pose proof (co_rlim _ _ (bo_core _ _ _ _ Hb) rl Hl) as Hr.
  destruct (Hr c Hc) as (_ & cf' & Hcf' & Hlo & Hlev). assert (cf' = cf) as -> by congruence.
  apply rl_ready_ok.
  - apply rl_ready_set; [done | unfold group_of; by rewrite Hl | by apply (filled_up_ok _ cf c)].
  - intros d. apply bw_cond. assert (suspended d (set_rl (filled_up cf t rl) bev) = suspended d bev) as -> by by destruct d.
    destruct (bo_flags _ _ _ _ Hb d BEV_SUSPEND_BW flag_bw) as (_ & H & _). specialize (H eq_refl). destruct (has _ _).
    + destruct H as (x & Hx & Hs & Hp). exists (filled_up cf t rl). split; [done|]. assert (x = rl) as -> by congruence. done.
    + intros x [= <-] Hs. specialize (H rl Hl Hs). pose proof (filled_up_limit cf t rl d (lo_cfg _ Hlo) Hlev). lia.
Qed.

(** The bucket of [b], if it has one, is brought up to date. *)
Lemma wp_update_buckets b bev rl c cf (Q : unit -> world -> Prop) w : bevs w !! b = Some bev -> rate_limiting bev = Some rl ->
  cfg rl = Some c -> cfgs w !! c = Some cf -> cfg_ok cf ->
  (forall t, ev_token_bucket_get_tick (now w) cf = Some t -> Q tt (set_bev b (set_rl (filled_up cf t rl) bev) w)) ->
  wp (bufferevent_update_buckets b) Q w.
Proof.
  intros Eb El Ec Ecf Hok H. unfold bufferevent_update_buckets. apply wp_bind, (wp_the_rlim _ bev rl); [done..|].
  apply wp_bind, (wp_lift _ c); [done|]. apply wp_bind, (wp_the_cfg _ cf); [done|].
  apply wp_bind, wp_current_tick; [done|]. intros t Ht. apply wp_when; intros Heq.
  - apply (wp_set_rlim _ _ bev); [done|]. by apply H.
  - apply negb_false_iff, Z.eqb_eq in Heq. specialize (H t Ht). assert (Hf : filled_up cf t rl = rl).
    { unfold filled_up, ev_token_bucket_update. rewrite <- Heq, Z.sub_diag. cbn. by destruct rl. }
    rewrite Hf, set_rl_id, set_bev_id in H by done. done.
Qed.

(** ** What may be read and written now *)

(** What the limits do not touch. *)
Definition io_part (bev : bufferevent) := (input bev, output bev, wm_read bev, wm_write bev, (enabled bev, connecting bev, read_watermarks_cb bev)).

Lemma io_suspend d f bev : io_part (suspend_bev d f bev) = io_part bev.
Proof. unfold suspend_bev. destruct d, (_ =? 0); cbn; try done. unfold io_part. by destruct (connecting bev) eqn:Ec; cbn; rewrite ?Ec. Qed.
Lemma io_unsuspend d f bev : io_part (unsuspend_bev d f bev) = io_part bev.
Proof. unfold unsuspend_bev. by destruct d, (_ && _). Qed.

Lemma suspend_nonzero d f bev : flag_bit f -> suspended d (suspend_bev d f bev) <> 0.
Proof. intros Hf. rewrite suspended_suspend, decide_True by done. by apply flag_nonzero. Qed.

Lemma bev_ok_suspend_group gs cs br d bev g gr : bev_ok gs cs br bev -> group_of bev = Some g -> gs !! g = Some gr -> group_suspended d gr = true ->
  bev_ok gs cs br (suspend_bev d BEV_SUSPEND_BW_GROUP bev).
Proof. intros [] Hg Hgr Hs. apply suspend_ok; auto with bev. split; [done|]. split; [done|]. intros _. by rewrite Hg, Hgr. Qed.

(** A direction that is not suspended has tokens, and so has its group. *)
Definition solvent (gs : gmap nat bufferevent_rate_limit_group) (d : direction) (bev : bufferevent) : Prop :=
  (forall rl, rate_limiting bev = Some rl -> is_Some (cfg rl) -> 0 < limit d (bucket rl)) /\
  (forall g gr, group_of bev = Some g -> gs !! g = Some gr -> group_suspended d gr = false /\ 0 < limit d (rate_limit gr)).

Lemma unsuspended_solvent v w b bev d : world_ok v w -> bevs w !! b = Some bev -> suspended d bev = 0 -> solvent (groups w) d bev.
Proof.
  intros Hw Eb Hs. pose proof (bo_flags _ _ _ _ (wo_bevs _ _ Hw b bev Eb) d) as Hf. split.
  - destruct (Hf _ flag_bw) as (_ & H & _). specialize (H eq_refl). by rewrite Hs, has_zero in H.
  - intros g gr Hg Hgr. destruct (Hf _ flag_group) as (_ & _ & H). specialize (H eq_refl). rewrite Hs, has_zero, Hg, Hgr in H.
    split; [done|]. by apply (go_limit _ (wo_groups _ _ Hw g gr Hgr)).
Qed.

(** The answer [r] of [_bufferevent_get_rlim_max], and the bufferevent after it. *)
Record rlim_max (d : direction) (w : world) (br : bool) (bev : bufferevent) (r : Z) (bev' : bufferevent) : Prop := {
  rx_ok : bev_ok (groups w) (cfgs w) br bev';
  rx_links : links bev' = links bev;
  rx_io : io_part bev' = io_part bev;
  rx_range : 0 <= r <= INT_MAX;
  rx_positive : suspended d bev' = 0 -> suspended d bev = 0 /\ 0 < r;
  rx_still : suspended d bev = 0 -> suspended d bev' = 0;
  rx_limit : match rate_limiting bev with
    | Some rl => match cfg rl with
      | Some c => exists cf t, cfgs w !! c = Some cf /\ ev_token_bucket_get_tick (now w) cf = Some t /\
          rate_limiting bev' = Some (filled_up cf t rl) /\ (suspended d bev' = 0 -> r <= limit d (bucket (filled_up cf t rl)))
      | None => rate_limiting bev' = Some rl
      end
    | None => rate_limiting bev' = None
    end }.

Lemma wp_group_share v d b bev w g gr (Q : Z -> world -> Prop) : world_ok v w -> bevs w !! b = Some bev -> group_of bev = Some g ->
  groups w !! g = Some gr ->
  (group_suspended d gr = true -> with_bev Q 0 b w (suspend_bev d BEV_SUSPEND_BW_GROUP bev)) ->
  (group_suspended d gr = false -> forall s, 1 <= s <= INT_MAX -> Q s w) -> wp (group_share d b g) Q w.
Proof using Hev.
  intros Hw Eb Eg Egr H1 H2. pose proof (wo_groups _ _ Hw g gr Egr) as Hgr. unfold group_share. apply wp_bind, (wp_the_group _ gr); [done|].
  destruct (group_suspended d gr) eqn:Es.
  - apply wp_bind, (wp_suspend Hev d b _ bev); [done|]. intros n. apply wp_ret, H1. done.
  - destruct (go_members _ Hgr) as [_ Hn]. assert (Hb : b ∈ members gr) by (by apply (member_group v w g gr b bev)).
    assert (Hpos : 0 < n_members gr) by (rewrite Hn; destruct (members gr); [by apply not_elem_of_nil in Hb | rewrite zlen_cons; pose proof (zlen_nonneg l); lia]).
    rewrite (proj2 (Z.eqb_neq _ _)) by lia. apply wp_ret, H2; [done|].
    pose proof (go_limit _ Hgr d Es) as Hlim. pose proof (go_level _ Hgr d) as Hlev. pose proof (lo_int _ (go_cfg _ Hgr) d) as Hmax. unfold level in Hlev.
    destruct (go_share _ Hgr) as [Hsh _]. pose proof (Z.quot_le_mono 0 (limit d (rate_limit gr)) (n_members gr)) as Hq0.
    assert (Z.quot (limit d (rate_limit gr)) (n_members gr) <= limit d (rate_limit gr)).
    { rewrite Z.quot_div_nonneg by lia. apply Z.div_le_upper_bound; nia. }
    destruct (Z.ltb_spec (Z.quot (limit d (rate_limit gr)) (n_members gr)) (min_share gr)); lia.
Qed.

(** The first step: the tokens of its own bucket, brought up to date. *)
Record own_max (d : direction) (w : world) (br : bool) (bev : bufferevent) (rl : bufferevent_rate_limit) (bev1 : bufferevent) (m : Z) : Prop := {
  om_range : m <= INT_MAX;
  om_ok : bev_ok (groups w) (cfgs w) br bev1;
  om_links : links bev1 = links bev;
  om_io : io_part bev1 = io_part bev;
  om_suspended : forall d, suspended d bev1 = suspended d bev;
  om_positive : suspended d bev = 0 -> 0 < m;
  om_limit : match cfg rl with
    | Some c => exists cf t, cfgs w !! c = Some cf /\ ev_token_bucket_get_tick (now w) cf = Some t /\
        rate_limiting bev1 = Some (filled_up cf t rl) /\ m = limit d (bucket (filled_up cf t rl))
    | None => rate_limiting bev1 = Some rl end }.

Lemma wp_own_max v d b bev rl m w (Q : Z -> world -> Prop) : world_ok v w -> bevs w !! b = Some bev -> rate_limiting bev = Some rl ->
  0 < m <= INT_MAX -> (forall bev1 m1, own_max d w (broken v b) bev rl bev1 m1 -> Q m1 (set_bev b bev1 w)) ->
  wp (match cfg rl with Some _ => bufferevent_update_buckets b ;; (let! rl := the_rlim b in ret (limit d (bucket rl))) | None => ret m end) Q w.
Proof.
  intros Hw Eb El Hm HQ. pose proof (wo_bevs _ _ Hw b bev Eb) as Hok. pose proof (co_rlim _ _ (bo_core _ _ _ _ Hok) rl El) as Hrl.
  destruct (cfg rl) as [c|] eqn:Ec.
  - destruct (Hrl c Ec) as (_ & cf & Ecf & Hlo & Hlev). apply wp_bind, (wp_update_buckets b bev rl c cf); try done; [apply Hlo|].
    intros t Ht. eapply wp_bind, wp_the_rlim; [apply bevs_now | done|]. apply wp_ret. pose proof (filled_up_ok _ cf c t rl Hrl Ec Ecf) as Hfo.
    destruct (Hfo c Ec) as (_ & cf' & Ecf' & _ & Hlev'). assert (cf' = cf) as -> by congruence. specialize (Hlev' d). unfold level in Hlev'.
    pose proof (lo_int _ Hlo d). apply HQ. split; try done.
    + lia.
    + by apply (filled_up_bev _ _ _ cf c).
    + unfold links, group_of. cbn. by rewrite El.
    + intros Hs. destruct (unsuspended_solvent v w b bev d Hw Eb Hs) as [Hp _]. specialize (Hp rl El ltac:(by exists c)).
      pose proof (filled_up_limit cf t rl d (lo_cfg _ Hlo) Hlev). lia.
    + rewrite Ec. by exists cf, t.
  - apply wp_ret. specialize (HQ bev m). rewrite set_bev_id in HQ by done. apply HQ. split; rewrite ?Ec; done || lia.
Qed.

Lemma clamp_nonneg x : let y := if x <? 0 then 0 else x in 0 <= y /\ (x <= INT_MAX -> y <= INT_MAX) /\ (0 < x -> y = x).
Proof. cbv zeta. unfold INT_MAX. destruct (Z.ltb_spec x 0); lia. Qed.

Lemma wp_get_rlim_max v d b bev w (Q : Z -> world -> Prop) : world_ok v w -> bevs w !! b = Some bev ->
  (forall r bev', rlim_max d w (broken v b) bev r bev' -> with_bev Q r b w bev') -> wp (_bufferevent_get_rlim_max d b) Q w.
Proof using Hev.
  intros Hw Eb H. unfold _bufferevent_get_rlim_max. set (m := match d with Reading => _ | Writing => _ end).
  assert (Hm : 0 < m <= INT_MAX) by (by destruct d). pose proof (wo_bevs _ _ Hw b bev Eb) as Hok. apply wp_bind, (wp_the_bev _ bev); [done|].
  destruct (rate_limiting bev) as [rl|] eqn:El.
  2: { apply wp_ret. apply (with_bev_same _ _ b _ bev); [done|]. apply H. split; rewrite ?El; done || lia. }
  apply wp_bind, (wp_own_max v d b bev rl m); [done..|]. intros bev1 m1 [Hm1 Hok1 Hli Hio Hsus Hpos Hlim].
  assert (Hw1 : world_ok v (set_bev b bev1 w)) by (apply (world_set v w b bev bev1 (counts w)); done).
  assert (Hg : group rl = group_of bev1) by (injection Hli as -> _; unfold group_of; by rewrite El).
  apply wp_bind. destruct (group rl) as [g|] eqn:Eg.
  - symmetry in Hg. destruct (wo_group_of _ _ Hw1 b bev1 g ltac:(apply bevs_now) Hg) as [gr Egr].
    apply wp_bind, (wp_group_share v d b bev1 _ g gr); [done | apply bevs_now | done | done | |].
    + intros Hs n. apply wp_ret, wp_ret. rewrite set_bev_twice.
      assert (Hx : (if 0 <? m1 then 0 else m1) <= 0) by (destruct (Z.ltb_spec 0 m1); lia). destruct (clamp_nonneg (if 0 <? m1 then 0 else m1)) as (Hx1 & Hx2 & _).
      apply H. split; try done.
      * by apply (bev_ok_suspend_group _ _ _ _ _ g gr).
      * by rewrite links_suspend.
      * by rewrite io_suspend.
      * split; [done|]. apply Hx2. unfold INT_MAX. lia.
      * intros Hz. by apply suspend_nonzero in Hz; [| apply flag_group].
      * intros Hz. rewrite <- Hsus in Hz. destruct (unsuspended_solvent v _ b bev1 d Hw1 ltac:(apply bevs_now) Hz) as [_ Hx4]. destruct (Hx4 g gr Hg Egr). congruence.
      * rewrite El. destruct (cfg rl); [|by rewrite rate_limiting_suspend]. destruct Hlim as (cf & t & H1 & H2 & H3 & H4).
        exists cf, t. rewrite rate_limiting_suspend. splits; try done. intros Hz. by apply suspend_nonzero in Hz; [| apply flag_group].
    + intros Hs s Hrange. apply wp_ret, wp_ret. destruct (clamp_nonneg (if s <? m1 then s else m1)) as (Hx1 & Hx2 & Hx3).
      assert (Hle : (if s <? m1 then s else m1) <= INT_MAX /\ (if s <? m1 then s else m1) <= m1) by (destruct (Z.ltb_spec s m1); lia).
      assert (Hgt : suspended d bev1 = 0 -> 0 < if s <? m1 then s else m1) by (rewrite Hsus; intros Hz%Hpos; destruct (Z.ltb_spec s m1); lia).
      eapply with_bev_now. apply H. split; try done.
      * split; [done|]. apply Hx2, Hle.
      * intros Hz. rewrite <- Hsus. split; [done|]. rewrite Hx3; by apply Hgt.
      * by rewrite Hsus.
      * rewrite El. destruct (cfg rl); [|done]. destruct Hlim as (cf & t & H1 & H2 & H3 & ->).
        exists cf, t. splits; try done. intros Hz. rewrite Hx3 by (by apply Hgt). apply Hle.
  - apply wp_ret, wp_ret. destruct (clamp_nonneg m1) as (Hx1 & Hx2 & Hx3). eapply with_bev_now. apply H. split; try done.
    + split; [done|]. by apply Hx2.
    + intros Hz. rewrite <- Hsus. split; [done|]. rewrite Hx3; apply Hpos; by rewrite <- Hsus.
    + by rewrite Hsus.
    + rewrite El. destruct (cfg rl); [|done]. destruct Hlim as (cf & t & H1 & H2 & H3 & ->).
      exists cf, t. splits; try done. intros Hz. rewrite Hx3; [done|]. apply Hpos; by rewrite <- Hsus.
Qed.
End limits.

Section pay.
Context {A : Arch} {M : Allocator} {E : BevEnv} (Hev : events_ok).

(** ** Suspending and unsuspending a group *)

Definition switched (d : direction) (v : bool) (gr : bufferevent_rate_limit_group) : bufferevent_rate_limit_group :=
  set_pending_unsuspend d false (set_group_suspended d v gr).

Definition switch_world (d : direction) (v : bool) (g : nat) (gr : bufferevent_rate_limit_group) (w : world) : world :=
  upd_bevs (switch v d) (members gr) (set_group g (switched d v gr) w).

Lemma members_switched d v gr : members (switched d v gr) = members gr.
Proof. by destruct d. Qed.

Lemma set_group_twice g x y w : set_group g x (set_group g y w) = set_group g x w.
Proof. unfold set_group, assign. cbn. by rewrite insert_insert_eq. Qed.

Lemma set_group_switch g x y f l m w : set_group g x (bump m (upd_bevs f l (set_group g y w))) = bump m (upd_bevs f l (set_group g x w)).
Proof. unfold set_group, bump, upd_bevs, assign. cbn. by rewrite insert_insert_eq. Qed.

Lemma wp_group_suspend d g gr (Q : unit -> world -> Prop) w : groups w !! g = Some gr -> NoDup (members gr) ->
  (forall b, b ∈ members gr -> is_Some (bevs w !! b)) -> (forall n, Q tt (bump n (switch_world d true g gr w))) ->
  wp (_bev_group_suspend d g) Q w.
Proof using Hev.
  intros Eg Hn Hm H. unfold _bev_group_suspend. apply wp_bind, (wp_update_group _ _ gr); [done|].
  eapply wp_bind, wp_the_group; [cbn; apply lookup_insert_eq|]. fold (switched d true gr). rewrite members_switched, suspend_members_eq.
  apply (wp_members _ (switch true d)); try done. intros. by apply (wp_suspend Hev d b _ bev).
Qed.

Lemma bump_switch m f l n w : bump m (upd_bevs f l (bump n w)) = bump m (upd_bevs f l w).
Proof. done. Qed.

Lemma random_order_perm k l : random_order k l ≡ₚ l.
Proof. unfold random_order. rewrite (Permutation_app_comm (drop k l)). by rewrite take_drop. Qed.

Lemma wp_random_element gr (Q : nat -> world -> Prop) w : n_members gr = zlen (members gr) ->
  (forall k n, Q k (bump n w)) -> wp (_bev_group_random_element gr) Q w.
Proof.
  intros Hn H. unfold _bev_group_random_element. destruct (Z.eqb_spec (n_members gr) 0) as [Hz|Hz].
  - apply wp_ret. specialize (H 0%nat (counts w)). by rewrite bump_same in H.
  - assert (Hne : members gr <> []) by (intros He; rewrite He in Hn; done). pose proof (zlen_nonneg (members gr)).
    apply wp_bind, wp_assert; [by apply bool_decide_eq_true|]. apply wp_bind, wp_asks, wp_bind, wp_modify.
    pose proof (Z.rem_bound_pos (weakrand (rands w)) (n_members gr) (weakrand_nonneg _) ltac:(lia)) as Hr.
    apply wp_bind, wp_assert; [apply Nat.ltb_lt; unfold zlen in *; lia|]. apply wp_ret.
    apply (H _ (event_calls w, S (rands w))).
Qed.

Lemma wp_group_unsuspend d g gr (Q : unit -> world -> Prop) w : groups w !! g = Some gr -> NoDup (members gr) ->
  n_members gr = zlen (members gr) -> (forall b, b ∈ members gr -> is_Some (bevs w !! b)) ->
  (forall n, Q tt (bump n (switch_world d false g gr w))) -> wp (_bev_group_unsuspend d g) Q w.
Proof using Hev.
  intros Eg Hn Hz Hm H. unfold _bev_group_unsuspend. apply wp_bind, (wp_update_group _ _ gr); [done|].
  assert (Hmem : members (set_group_suspended d false gr) = members gr) by by destruct d.
  eapply wp_bind, wp_the_group; [cbn; apply lookup_insert_eq|]. apply wp_bind, wp_random_element; [rewrite Hmem; by destruct d|]. intros k n.
  rewrite Hmem, unsuspend_members_eq. apply wp_bind, (wp_members _ (switch false d)); [| by rewrite random_order_perm | |].
  - intros. by apply (wp_unsuspend Hev d b _ bev).
  - intros b. rewrite random_order_perm. apply Hm.
  - intros m. eapply wp_update_group; [cbn; apply lookup_insert_eq|].
    rewrite (upd_bevs_perm _ _ (members gr)) by (rewrite ?random_order_perm; done).
    rewrite bump_switch, set_group_switch. apply H.
Qed.

(** ** A bufferevent pays *)

Definition paid (d : direction) (n : Z) (rl : bufferevent_rate_limit) : bufferevent_rate_limit := rl <| bucket := take_tokens d n (bucket rl) |>.

Lemma int_max_ssize : INT_MAX <= EV_SSIZE_MAX.
Proof. unfold INT_MAX, EV_SSIZE_MAX. destruct size_bits_cases as [->| ->]; lia. Qed.

Lemma limit_take d d' n bk cf : level cf d bk -> limits_ok cf -> - EV_SSIZE_MAX - 1 <= limit d bk - n <= EV_SSIZE_MAX ->
  limit d (take_tokens d' n bk) = if decide (d = d') then limit d bk - n else limit d bk.
Proof. intros Hl Hc Hn. unfold take_tokens. rewrite limit_set. case_decide; [|done]. subst. by rewrite ssize_swrap. Qed.

(** The number of bytes is one that was allowed: the level was positive. *)
Lemma level_take d n bk cf : (forall d, level cf d bk) -> limits_ok cf -> 0 <= n <= INT_MAX -> 0 < limit d bk ->
  (forall d', level cf d' (take_tokens d n bk)) /\ limit d (take_tokens d n bk) = limit d bk - n.
Proof.
  intros Hl Hc Hn Hp. pose proof int_max_ssize. pose proof (Hl d) as Hd. pose proof (lo_int _ Hc d). unfold level in *.
  assert (Hr : - EV_SSIZE_MAX - 1 <= limit d bk - n <= EV_SSIZE_MAX) by lia.
  assert (Hlim : limit d (take_tokens d n bk) = limit d bk - n) by (by rewrite (limit_take d d n bk cf), decide_True).
  split; [|done]. intros d'. destruct (decide (d' = d)) as [->|Hne]; [rewrite Hlim; lia|].
  unfold take_tokens. rewrite limit_set, decide_False by done. apply Hl.
Qed.

(** The bufferevent after it has paid. *)
Record own_paid (w : world) (br : bool) (d : direction) (n : Z) (bev bev' : bufferevent) : Prop := {
  op_ok : bev_ok (groups w) (cfgs w) br bev';
  op_links : links bev' = links bev;
  op_io : io_part bev' = io_part bev;
  op_bucket : forall rl, rate_limiting bev = Some rl -> is_Some (cfg rl) ->
    exists rl', rate_limiting bev' = Some rl' /\ bucket rl' = take_tokens d n (bucket rl) /\ cfg rl' = cfg rl }.

Lemma paid_ready gs cs br d n bev rl c p : bev_ok gs cs br bev -> rate_limiting bev = Some rl -> cfg rl = Some c ->
  0 <= n <= INT_MAX -> 0 < limit d (bucket rl) ->
  let rl' := (paid d n rl) <| refill_pending := p |> in
  rl_ready gs cs br (set_rl rl' bev) /\ limit d (bucket rl') = limit d (bucket rl) - n /\ forall d', d' <> d -> limit d' (bucket rl') = limit d' (bucket rl).
Proof.
  intros Hb El Ec Hn Hp rl'. pose proof (co_rlim _ _ (bo_core _ _ _ _ Hb) rl El) as Hr. destruct (Hr c Ec) as (Hi & cf & Hcf & Hlo & Hlev).
  destruct (level_take d n (bucket rl) cf Hlev Hlo Hn Hp) as [Hl1 Hl2]. split; [|split; [done|]].
  - apply rl_ready_set; [done | unfold group_of; by rewrite El|]. intros c' Hc'. assert (c' = c) as -> by (cbn in Hc'; congruence).
    split; [done|]. by exists cf.
  - intros d' Hne. cbn. unfold take_tokens. rewrite limit_set. by rewrite decide_False.
Qed.

(** The flag of the other direction stays right when the timer goes on, or is not needed. *)
Lemma other_bw gs cs br d bev rl rl' : bev_ok gs cs br bev -> rate_limiting bev = Some rl -> is_Some (cfg rl) -> cfg rl' = cfg rl ->
  limit d (bucket rl') = limit d (bucket rl) -> (has (suspended d bev) BEV_SUSPEND_BW = true -> refill_pending rl' = true) ->
  flag_cond gs (set_rl rl' bev) d BEV_SUSPEND_BW (has (suspended d (set_rl rl' bev)) BEV_SUSPEND_BW).
Proof.
  intros Hb El Hc Ec Hl Hp. apply bw_cond. assert (suspended d (set_rl rl' bev) = suspended d bev) as -> by by destruct d.
  destruct (bo_flags _ _ _ _ Hb d _ flag_bw) as (_ & H & _). specialize (H eq_refl). destruct (has _ _).
  - exists rl'. split; [done|]. rewrite Ec. split; [done | by apply Hp].
  - intros x [= <-] _. rewrite Hl. by apply H.
Qed.

Lemma own_paid_intro w br d n bev bev' rl rl' : rate_limiting bev = Some rl -> bev_ok (groups w) (cfgs w) br bev' -> links bev' = links bev ->
  io_part bev' = io_part bev -> rate_limiting bev' = Some rl' -> bucket rl' = take_tokens d n (bucket rl) -> cfg rl' = cfg rl -> own_paid w br d n bev bev'.
Proof. intros El ? ? ? ? ? ?. split; [done..|]. intros rl0 El0 _. assert (rl0 = rl) as -> by congruence. by exists rl'. Qed.

Lemma links_set_rl rl rl' bev : rate_limiting bev = Some rl -> group rl' = group rl -> links (set_rl rl' bev) = links bev.
Proof. intros El Eg. unfold links, group_of. cbn. by rewrite El, Eg. Qed.

Lemma has_bw_pending gs cs br d bev rl : bev_ok gs cs br bev -> rate_limiting bev = Some rl ->
  has (suspended d bev) BEV_SUSPEND_BW = true -> refill_pending rl = true.
Proof.
  intros Hb El Hs. destruct (bo_flags _ _ _ _ Hb d _ flag_bw) as (_ & H & _). specialize (H eq_refl). rewrite Hs in H.
  destruct H as (x & Hx & _ & Hp). congruence.
Qed.

Lemma wp_own_pay v d n b bev rl w (Q : Z -> world -> Prop) : world_ok v w -> bevs w !! b = Some bev -> rate_limiting bev = Some rl ->
  0 <= n <= INT_MAX -> (is_Some (cfg rl) -> 0 < limit d (bucket rl)) ->
  (forall bev', own_paid w (broken v b) d n bev bev' -> with_bev Q 0 b w bev') ->
  wp (match cfg rl with
      | Some _ =>
        set_rlim b (paid d n rl) ;;
        if limit d (take_tokens d n (bucket rl)) <=? 0 then
          bufferevent_suspend d b BEV_SUSPEND_BW ;; let! r := refill_add b in ret (if r <? 0 then -1 else 0)
        else if has (suspended d bev) BEV_SUSPEND_BW then
          when (negb (has (suspended (other d) bev) BEV_SUSPEND_BW)) (refill_del b) ;;
          bufferevent_unsuspend d b BEV_SUSPEND_BW ;; ret 0
        else ret 0
      | None => ret 0
      end) Q w.
Proof using Hev.
  intros Hw Eb El Hn Hlim HQ. pose proof (wo_bevs _ _ Hw b bev Eb) as Hb. destruct (cfg rl) as [c|] eqn:Ec.
  2: { apply wp_ret, (with_bev_same _ _ b _ bev); [done|]. apply HQ. split; try done. intros rl' El' [x Hx]. congruence. }
  assert (Hready := fun p => paid_ready (groups w) (cfgs w) (broken v b) d n bev rl c p Hb El Ec Hn (Hlim ltac:(by eexists))).
  assert (Hother : forall p, (has (suspended (other d) bev) BEV_SUSPEND_BW = true -> p = true) ->
    flag_cond (groups w) (set_rl ((paid d n rl) <| refill_pending := p |>) bev) (other d) BEV_SUSPEND_BW
      (has (suspended (other d) (set_rl ((paid d n rl) <| refill_pending := p |>) bev)) BEV_SUSPEND_BW)).
  { intros p Hp. apply (other_bw _ _ _ _ _ rl _ Hb); try done; destruct (Hready p) as (_ & _ & Hl). apply Hl. by destruct d. }
  apply wp_bind, (wp_set_rlim _ _ bev); [done|]. set (bev1 := set_rl (paid d n rl) bev).
  destruct (Z.leb_spec (limit d (take_tokens d n (bucket rl))) 0) as [Hle|Hgt].
  - apply wp_bind, (wp_suspend Hev d b _ bev1); [apply bevs_now|]. intros m.
    eapply wp_bind, (wp_refill_add Hev b); [apply bevs_set | by rewrite rate_limiting_suspend|]. intros k. apply wp_ret. cbn [Z.ltb Z.compare].
    rewrite bump_set, set_bev_twice, suspend_rl. unfold bev1. rewrite set_rl_twice. apply HQ.
    destruct (Hready true) as (Hr & _ & _). eapply own_paid_intro; [exact El | | | | by rewrite rate_limiting_suspend | done | done].
    + apply rl_ready_suspend; [done | | by apply Hother]. apply bw_cond. eexists. split; [done|]. split; [by exists c | done].
    + by rewrite links_suspend, (links_set_rl rl).
    + by rewrite io_suspend.
  - pose proof (has_bw_pending _ _ _ d bev rl Hb El) as Hp1. pose proof (has_bw_pending _ _ _ (other d) bev rl Hb El) as Hp2.
    assert (Heta : paid d n rl = (paid d n rl) <| refill_pending := refill_pending rl |>) by by destruct rl.
    destruct (has (suspended d bev) BEV_SUSPEND_BW) eqn:Hs.
    + assert (Hend : forall p k, (has (suspended (other d) bev) BEV_SUSPEND_BW = true -> p = true) ->
        wp (bufferevent_unsuspend d b BEV_SUSPEND_BW ;; ret 0) Q (bump k (set_bev b (set_rl ((paid d n rl) <| refill_pending := p |>) bev) w))).
      { intros p k Hp. eapply wp_bind, (wp_unsuspend Hev d b); [apply bevs_set|]. intros m. apply wp_ret. rewrite bump_set. apply HQ.
        destruct (Hready p) as (Hr & Hl & _). eapply own_paid_intro; [exact El | | | | by rewrite rate_limiting_unsuspend | done | done].
        - apply rl_ready_unsuspend; [done | | by apply Hother]. apply bw_cond. intros x [= <-] _. exact Hgt.
        - by rewrite links_unsuspend, (links_set_rl rl).
        - by rewrite io_unsuspend. }
      destruct (has (suspended (other d) bev) BEV_SUSPEND_BW) eqn:Hs2; cbn [negb when].
      * apply wp_bind, wp_ret. unfold bev1. rewrite Heta, Hp1 by done.
        rewrite <- (bump_same (set_bev _ _ _)). by apply Hend.
      * eapply wp_bind, (wp_refill_del Hev b); [apply bevs_now | done|]. intros m. unfold bev1. rewrite set_rl_twice, set_bev_twice.
        by apply Hend.
    + apply wp_ret. eapply with_bev_now, HQ. destruct (Hready (refill_pending rl)) as (Hr & Hl & _). rewrite <- Heta in Hr, Hl.
      eapply own_paid_intro; [exact El | | by apply (links_set_rl rl) | done | done | done | done].
      apply rl_ready_ok; [done|]. intros d'. destruct (decide (d' = d)) as [->|Hne].
      * apply bw_cond. assert (suspended d bev1 = suspended d bev) as -> by by destruct d. rewrite Hs. intros x [= <-] _. exact Hgt.
      * assert (d' = other d) as -> by by destruct d', d. unfold bev1. rewrite Heta. apply Hother. auto.
Qed.

(** ** The group pays *)

Lemma limit_add_total d n gr : rate_limit (add_total d n gr) = rate_limit gr.
Proof. by destruct d. Qed.

Definition group_paid (d : direction) (n : Z) (gr : bufferevent_rate_limit_group) : bufferevent_rate_limit_group :=
  add_total d n (gr <| rate_limit := take_tokens d n (rate_limit gr) |>).

Lemma group_paid_parts d n gr : members (group_paid d n gr) = members gr /\ n_members (group_paid d n gr) = n_members gr /\
  rate_limit_cfg (group_paid d n gr) = rate_limit_cfg gr /\ rate_limit (group_paid d n gr) = take_tokens d n (rate_limit gr) /\
  min_share (group_paid d n gr) = min_share gr /\ configured_min_share (group_paid d n gr) = configured_min_share gr /\
  forall d', group_suspended d' (group_paid d n gr) = group_suspended d' gr /\ pending_unsuspend d' (group_paid d n gr) = pending_unsuspend d' gr.
Proof. destruct d; (splits; [done..|]); by intros []. Qed.

(** A group with the same members and configuration. *)
Lemma group_ok_same gr gr' : group_ok gr -> members gr' = members gr -> n_members gr' = n_members gr -> rate_limit_cfg gr' = rate_limit_cfg gr ->
  (forall d, level (rate_limit_cfg gr) d (rate_limit gr')) -> (forall d, pending_unsuspend d gr' = false) ->
  min_share gr' = min_share gr -> configured_min_share gr' = configured_min_share gr ->
  (forall d, group_suspended d gr' = false -> 0 < limit d (rate_limit gr')) -> group_ok gr'.
Proof. intros [Hm Hc Hl Hp Hs Hlim] E1 E2 E3 Hl' Hp' E4 E5 Hlim'. split; rewrite ?E1, ?E2, ?E3, ?E4, ?E5; done. Qed.

Lemma switched_parts d v gr : n_members (switched d v gr) = n_members gr /\ rate_limit_cfg (switched d v gr) = rate_limit_cfg gr /\
  rate_limit (switched d v gr) = rate_limit gr /\ min_share (switched d v gr) = min_share gr /\
  configured_min_share (switched d v gr) = configured_min_share gr /\ group_suspended d (switched d v gr) = v /\
  group_suspended (other d) (switched d v gr) = group_suspended (other d) gr /\
  pending_unsuspend d (switched d v gr) = false /\ pending_unsuspend (other d) (switched d v gr) = pending_unsuspend (other d) gr.
Proof. by destruct d. Qed.

Lemma direction_cases (P : direction -> Prop) d : P d -> P (other d) -> forall d', P d'.
Proof. by destruct d; intros ? ? []. Qed.

(** A group whose level has changed is switched accordingly. *)
Lemma world_switched v d (x : bool) w g gr gr' n : world_ok v w -> groups w !! g = Some gr -> members gr' = members gr -> n_members gr' = n_members gr ->
  rate_limit_cfg gr' = rate_limit_cfg gr -> (forall d, level (rate_limit_cfg gr) d (rate_limit gr')) ->
  min_share gr' = min_share gr -> configured_min_share gr' = configured_min_share gr ->
  group_suspended (other d) gr' = group_suspended (other d) gr -> pending_unsuspend (other d) gr' = pending_unsuspend (other d) gr ->
  (x = false -> 0 < limit d (rate_limit gr')) -> (group_suspended (other d) gr = false -> 0 < limit (other d) (rate_limit gr')) ->
  world_ok v (bump n (switch_world d x g gr' w)).
Proof.
  intros Hw Eg E1 E2 E3 Hl E4 E5 E6 E7 H1 H2. unfold switch_world. rewrite E1. pose proof (wo_groups _ _ Hw g gr Eg) as Hok.
  destruct (switched_parts d x gr') as (F1 & F2 & F3 & F4 & F5 & F6 & F7 & F8 & F9).
  apply (world_switch v w g gr); try done; [| by rewrite members_switched | by rewrite F7].
  apply (group_ok_same gr); try done; rewrite ?members_switched; try congruence.
  - by rewrite F3.
  - intros d'; pattern d'; apply (direction_cases _ d); [done|]. rewrite F9, E7. apply Hok.
  - rewrite F3. intros d'; pattern d'; apply (direction_cases _ d); [by rewrite F6 | by rewrite F7, E6].
Qed.

Lemma switch_world_again d x g gr gr' w : switch_world d x g gr (set_group g gr' w) = switch_world d x g gr w.
Proof. unfold switch_world. by rewrite set_group_twice. Qed.

(** What has become of [b] when its group was switched. *)
Lemma switch_world_bev d x g gr w n b bev : NoDup (members gr) -> bevs w !! b = Some bev ->
  exists bev', bevs (bump n (switch_world d x g gr w)) !! b = Some bev' /\ links bev' = links bev /\ io_part bev' = io_part bev /\
    rate_limiting bev' = rate_limiting bev.
Proof.
  intros Hn Eb. pose proof (upd_bevs_lookup (switch x d) (members gr) (set_group g (switched d x gr) w) b Hn) as Hl.
  change (bevs (bump n (switch_world d x g gr w)) !! b) with (bevs (upd_bevs (switch x d) (members gr) (set_group g (switched d x gr) w)) !! b).
  rewrite Hl. change (bevs (set_group g (switched d x gr) w) !! b) with (bevs w !! b). rewrite Eb. case_decide; [|by exists bev].
  exists (switch x d bev). split; [done|]. split; [apply links_switch|].
  by destruct x; cbn; rewrite ?io_suspend, ?io_unsuspend, ?rate_limiting_suspend, ?rate_limiting_unsuspend.
Qed.

(** The bufferevent after it has paid, whatever its group did. *)
Definition has_paid (d : direction) (n : Z) (b : nat) (bev : bufferevent) (w' : world) : Prop :=
  exists bev', bevs w' !! b = Some bev' /\ links bev' = links bev /\ io_part bev' = io_part bev /\
    forall rl, rate_limiting bev = Some rl -> is_Some (cfg rl) ->
      exists rl', rate_limiting bev' = Some rl' /\ bucket rl' = take_tokens d n (bucket rl) /\ cfg rl' = cfg rl.

Lemma members_alive v w g gr b : world_ok v w -> groups w !! g = Some gr -> b ∈ members gr -> is_Some (bevs w !! b).
Proof. intros Hw Eg Hb. apply (wo_members _ _ Hw g gr b Eg) in Hb as (bev & Eb & _). by exists bev. Qed.

Lemma wp_group_pay v d n b g bev w (Q : unit -> world -> Prop) : world_ok v w -> bevs w !! b = Some bev -> group_of bev = Some g ->
  0 <= n <= INT_MAX -> (forall gr, groups w !! g = Some gr -> group_suspended d gr = false /\ 0 < limit d (rate_limit gr)) ->
  (forall w' bev', world_ok v w' -> bevs w' !! b = Some bev' -> links bev' = links bev -> io_part bev' = io_part bev ->
    rate_limiting bev' = rate_limiting bev -> Q tt w') ->
  wp (update_group g (fun gr => gr <| rate_limit := take_tokens d n (rate_limit gr) |>) ;;
      update_group g (add_total d n) ;;
      let! gr := the_group g in
      if limit d (rate_limit gr) <=? 0 then _bev_group_suspend d g
      else when (group_suspended d gr) (_bev_group_unsuspend d g)) Q w.
Proof using Hev.
  intros Hw Eb Hg Hn Hs HQ. destruct (wo_group_of _ _ Hw b bev g Eb Hg) as [gr Egr]. destruct (Hs gr Egr) as [Hsus Hpos].
  pose proof (wo_groups _ _ Hw g gr Egr) as Hok. destruct (level_take d n (rate_limit gr) _ (go_level _ Hok) (go_cfg _ Hok) Hn Hpos) as [Hlev Hlim].
  destruct (group_paid_parts d n gr) as (P1 & P2 & P3 & P4 & P5 & P6 & P7).
  assert (Hoth : limit (other d) (take_tokens d n (rate_limit gr)) = limit (other d) (rate_limit gr)) by (unfold take_tokens; by destruct d).
  apply wp_bind, (wp_update_group _ _ gr); [done|]. eapply wp_bind, wp_update_group; [cbn; apply lookup_insert_eq|].
  rewrite set_group_twice. fold (group_paid d n gr). eapply wp_bind, wp_the_group; [cbn; apply lookup_insert_eq|]. rewrite P4.
  destruct (go_members _ Hok) as [Hnd _].
  destruct (Z.leb_spec (limit d (take_tokens d n (rate_limit gr))) 0) as [Hle|Hgt].
  - eapply (wp_group_suspend d g); [cbn; apply lookup_insert_eq | by rewrite P1 | intros x Hx; rewrite P1 in Hx; by apply (members_alive v w g gr) |].
    intros m. rewrite switch_world_again. destruct (switch_world_bev d true g (group_paid d n gr) w m b bev) as (bev' & Eb' & Hl' & Hio & Hrl); [by rewrite P1 | done|].
    apply (HQ _ bev'); try done. apply (world_switched v d true w g gr); try done; try (by apply P7); rewrite ?P4; try done.
    intros Hx. rewrite Hoth. by apply (go_limit _ Hok).
  - rewrite (proj1 (P7 d)), Hsus. apply wp_ret, (HQ _ bev); try done.
    apply (world_set_group v w g gr _ (counts w)); try done; [|intros d'; apply P7].
    apply (group_ok_same gr); try done; rewrite ?P4; try done.
    + intros d'. rewrite (proj2 (P7 d')). apply Hok.
    + intros d'; pattern d'; apply (direction_cases _ d); [done|]. rewrite (proj1 (P7 _)), Hoth. apply (go_limit _ Hok).
Qed.

(** [_bufferevent_decrement_read_buckets] and its twin. *)
Lemma wp_decrement_buckets v d b bev n w : world_ok v w -> bevs w !! b = Some bev -> 0 <= n <= INT_MAX -> solvent (groups w) d bev ->
  wp (_bufferevent_decrement_buckets d b n) (fun _ w' => world_ok v w' /\ has_paid d n b bev w') w.
Proof using Hev.
  intros Hw Eb Hn [Hs1 Hs2]. unfold _bufferevent_decrement_buckets. apply wp_bind, (wp_the_bev _ bev); [done|].
  destruct (rate_limiting bev) as [rl|] eqn:El.
  2: { apply wp_ret. split; [done|]. exists bev. splits; try done. intros rl Hx. congruence. }
  apply wp_bind, (wp_own_pay v d n b bev rl); try done; [by apply Hs1|]. intros bev' [Hok' Hli Hio Hbk] m. set (w1 := bump m _).
  assert (Hw1 : world_ok v w1) by (by apply (world_set v w b bev)).
  assert (Hpaid : forall w2 bev2, bevs w2 !! b = Some bev2 -> links bev2 = links bev' -> io_part bev2 = io_part bev' -> rate_limiting bev2 = rate_limiting bev' -> has_paid d n b bev w2).
  { intros w2 bev2 E2 L2 I2 R2. exists bev2. splits; [done | congruence | congruence |]. rewrite R2. exact Hbk. }
  apply wp_bind. destruct (group rl) as [g|] eqn:Eg.
  - assert (Hg : group_of bev = Some g) by (unfold group_of; by rewrite El). assert (Hg' : group_of bev' = Some g) by (injection Hli as ->; done).
    apply (wp_group_pay v d n b g bev'); try done; [apply bevs_set | intros gr Egr; by apply (Hs2 g gr)|].
    intros w2 bev2 Hw2 E2 L2 I2 R2. apply wp_ret. split; [done|]. by apply (Hpaid _ bev2).
  - apply wp_ret, wp_ret. split; [done|]. apply (Hpaid _ bev'); try done. apply bevs_set.
Qed.
End pay.
