(* ===== verification/BevTimers.v ===== *)
(** The timer that refills the bucket of one bufferevent, and the application that sets,
    removes and changes its limit. *)

From stdpp Require Import gmap.
From S2P Require Import Prelude StateOp MinHeap EvChain Evbuffer EventData EventCore TokenBucket Bev RateLimit BevSocket BevInv BevWorld BevGroups BevLimits.

Section timers.
Context {A : Arch} {M : Allocator} {E : BevEnv} (Hev : events_ok).

(** ** Switching the flags of the bucket *)

Definition switch_bw (v : bool) (d : direction) : bufferevent -> bufferevent :=
  if v then suspend_bev d BEV_SUSPEND_BW else unsuspend_bev d BEV_SUSPEND_BW.

Lemma switch_rl v d rl bev : set_rl rl (switch_bw v d bev) = switch_bw v d (set_rl rl bev).
Proof. destruct v; [apply suspend_rl | apply unsuspend_rl]. Qed.
Lemma rate_limiting_switch v d bev : rate_limiting (switch_bw v d bev) = rate_limiting bev.
Proof. destruct v; [apply rate_limiting_suspend | apply rate_limiting_unsuspend]. Qed.
Lemma links_switch_bw v d bev : links (switch_bw v d bev) = links bev.
Proof. destruct v; [apply links_suspend | apply links_unsuspend]. Qed.

Lemma has_switch_bw v d d' f bev : flag_bit f -> has (suspended d' (switch_bw v d bev)) f =
  if decide (d' = d /\ f = BEV_SUSPEND_BW) then v else has (suspended d' bev) f.
Proof.
  intros Hf. destruct v; cbn [switch_bw]; rewrite ?suspended_suspend, ?suspended_unsuspend; destruct (decide (d' = d)) as [->|Hd].
  - rewrite has_lor_flag by auto with bev. destruct (decide (BEV_SUSPEND_BW = f)) as [<-|Hne].
    + by rewrite bool_decide_true, orb_true_r, decide_True.
    + rewrite bool_decide_false, orb_false_r, decide_False by (done || by intros [_ ->]). done.
  - rewrite decide_False; [done|]. by intros [-> _].
  - rewrite has_ldiff by auto with bev. destruct (decide (BEV_SUSPEND_BW = f)) as [<-|Hne].
    + by rewrite bool_decide_true, andb_false_r, decide_True.
    + rewrite bool_decide_false, andb_true_r, decide_False by (done || by intros [_ ->]). done.
  - rewrite decide_False; [done|]. by intros [-> _].
Qed.

Lemma core_switch_bw v d bev : core (switch_bw v d bev) = core bev.
Proof. destruct v; [apply core_suspend | apply core_unsuspend]. Qed.

Lemma rl_ready_switch gs cs br v d bev : rl_ready gs cs br bev -> rl_ready gs cs br (switch_bw v d bev).
Proof.
  intros [Hc He Hk Hf]. split.
  - by rewrite core_switch_bw.
  - destruct v; [apply suspend_events; auto with bev | by apply unsuspend_events].
  - intros d'. specialize (Hk d'). destruct v; cbn [switch_bw]; rewrite ?suspended_suspend, ?suspended_unsuspend; case_decide; try done.
    + by apply known_lor.
    + by apply known_ldiff.
  - intros d' f Hfb Hne. unfold flag_ok. rewrite has_switch_bw, decide_False by (done || by intros [_ ->]).
    apply (flag_cond_core _ bev); [apply core_switch_bw | by apply Hf].
Qed.

Lemma wp_switch_bw (v : bool) d b bev (Q : unit -> world -> Prop) w : bevs w !! b = Some bev -> with_bev Q tt b w (switch_bw v d bev) ->
  wp (if v then bufferevent_suspend d b BEV_SUSPEND_BW else bufferevent_unsuspend d b BEV_SUSPEND_BW) Q w.
Proof using Hev. intros Eb H. destruct v; [by apply (wp_suspend Hev d b _ bev) | by apply (wp_unsuspend Hev d b _ bev)]. Qed.

(** The flags agree with the levels: what is needed in the end. *)
Lemma rl_ready_done gs cs br bev rl : rl_ready gs cs br bev -> rate_limiting bev = Some rl ->
  (forall d, if has (suspended d bev) BEV_SUSPEND_BW then is_Some (cfg rl) /\ refill_pending rl = true else is_Some (cfg rl) -> 0 < limit d (bucket rl)) ->
  bev_ok gs cs br bev.
Proof.
  intros Hr El H. apply rl_ready_ok; [done|]. intros d. apply bw_cond. specialize (H d). destruct (has _ _).
  - exists rl. tauto.
  - intros x Hx. assert (x = rl) as -> by congruence. done.
Qed.

(** ** The timer of a bufferevent *)

Definition refilled (d : direction) (bev : bufferevent) : bufferevent :=
  match rate_limiting bev with
  | Some rl => if has (suspended d bev) BEV_SUSPEND_BW && (0 <? limit d (bucket rl)) then switch_bw false d bev else bev
  | None => bev
  end.
Definition still_empty (d : direction) (bev : bufferevent) (rl : bufferevent_rate_limit) : bool :=
  has (suspended d bev) BEV_SUSPEND_BW && negb (0 <? limit d (bucket rl)).

Lemma wp_refill_direction d b bev rl (Q : bool -> world -> Prop) w : bevs w !! b = Some bev -> rate_limiting bev = Some rl ->
  with_bev Q (still_empty d bev rl) b w (refilled d bev) -> wp (refill_direction d b) Q w.
Proof using Hev.
  intros Eb El H. unfold refill_direction. apply wp_bind, (wp_the_bev _ bev); [done|]. apply wp_bind, (wp_the_rlim _ bev rl); [done..|].
  unfold refilled, still_empty in H. rewrite El in H. destruct (has _ _); cbn [andb] in H.
  - destruct (0 <? _).
    + apply wp_bind, (wp_unsuspend Hev d b _ bev); [done|]. intros n. apply wp_ret, H.
    + apply wp_ret. by apply (with_bev_same _ _ b _ bev).
  - apply wp_ret. by apply (with_bev_same _ _ b _ bev).
Qed.

Lemma refilled_switch d bev rl : rate_limiting bev = Some rl ->
  refilled d bev = if has (suspended d bev) BEV_SUSPEND_BW && (0 <? limit d (bucket rl)) then switch_bw false d bev else bev.
Proof. unfold refilled. by intros ->. Qed.

(** What [refilled] does to a bufferevent that is ready. *)
Lemma refilled_parts gs cs br d bev rl : rl_ready gs cs br bev -> rate_limiting bev = Some rl ->
  rl_ready gs cs br (refilled d bev) /\ rate_limiting (refilled d bev) = Some rl /\ links (refilled d bev) = links bev /\
  (forall d', has (suspended d' (refilled d bev)) BEV_SUSPEND_BW = if decide (d' = d) then still_empty d bev rl else has (suspended d' bev) BEV_SUSPEND_BW) /\
  forall rl', limit d (bucket rl') = limit d (bucket rl) -> set_rl rl' (refilled d bev) = refilled d (set_rl rl' bev).
Proof.
  intros Hr El. assert (Hsus : forall rl', suspended d (set_rl rl' bev) = suspended d bev) by by destruct d.
  assert (Hcomm : forall rl', limit d (bucket rl') = limit d (bucket rl) -> set_rl rl' (refilled d bev) = refilled d (set_rl rl' bev)).
  { intros rl' Hl. rewrite (refilled_switch d bev rl El), (refilled_switch d (set_rl rl' bev) rl'), Hsus, Hl by done.
    destruct (_ && _); [apply switch_rl | done]. }
  unfold still_empty. rewrite (refilled_switch d bev rl El) in *. destruct (has (suspended d bev) BEV_SUSPEND_BW && (0 <? limit d (bucket rl))) eqn:Ec; cbn [negb].
  - apply andb_true_iff in Ec as [Eh El0]. rewrite El0, andb_false_r. splits; [by apply rl_ready_switch | by rewrite rate_limiting_switch | apply links_switch_bw | | done].
    intros d'. rewrite has_switch_bw by auto with bev. destruct (decide (d' = d)); [by rewrite decide_True | by rewrite decide_False by tauto].
  - splits; try done. intros d'. case_decide; [subst|done]. destruct (has _ _); [|done]. cbn in Ec. by rewrite Ec.
Qed.

(** The timer is noted as pending, or not. *)
Lemma rl_ready_pending gs cs br bev rl p : rl_ready gs cs br bev -> rate_limiting bev = Some rl ->
  rl_ready gs cs br (set_rl (rl <| refill_pending := p |>) bev).
Proof.
  intros [Hc He Hk Hf] El. split.
  - pose proof (co_rlim _ _ Hc rl El) as Hr. destruct Hc. split; try done. cbn. by intros x [= <-].
  - by destruct He.
  - intros d. specialize (Hk d). by destruct d.
  - intros d f Hfb Hne. destruct (Hf d f Hfb Hne) as (H1 & _ & H3). unfold flag_ok.
    assert (suspended d (set_rl (rl <| refill_pending := p |>) bev) = suspended d bev) as -> by by destruct d.
    split; [exact H1|]. split; [done|]. unfold group_of in *. cbn. by rewrite El in H3.
Qed.

(** The bufferevent after its buckets were filled and what is not empty was resumed. *)
Definition after_refill (cf : ev_token_bucket_cfg) (t : Z) (rl : bufferevent_rate_limit) (bev : bufferevent) : bufferevent :=
  refilled Writing (refilled Reading (set_rl ((filled_up cf t rl) <| refill_pending := false |>) bev)).

Lemma after_refill_ok gs cs br cf c t rl bev p : bev_ok gs cs br bev -> rate_limiting bev = Some rl -> cfg rl = Some c -> cs !! c = Some cf ->
  ((exists d, has (suspended d (after_refill cf t rl bev)) BEV_SUSPEND_BW = true) -> p = true) ->
  let bev' := set_rl ((filled_up cf t rl) <| refill_pending := p |>) (after_refill cf t rl bev) in
  bev_ok gs cs br bev' /\ links bev' = links bev.
Proof.
  intros Hb El Ec Ecf Hp. pose proof (co_rlim _ _ (bo_core _ _ _ _ Hb) rl El) as Hrl. destruct (Hrl c Ec) as (Hi & cf' & Ecf' & Hlo & Hlev).
  assert (cf' = cf) as -> by congruence. set (R := filled_up cf t rl) in *. set (R0 := R <| refill_pending := false |>).
  assert (HR : rl_ready gs cs br (set_rl R0 bev)).
  { apply rl_ready_set; [done | unfold group_of; by rewrite El|]. exact (filled_up_ok cs cf c t rl Hrl Ec Ecf). }
  destruct (refilled_parts _ _ _ Reading _ R0 HR eq_refl) as (Hr1 & El1 & Hli1 & Hs1 & _).
  destruct (refilled_parts _ _ _ Writing _ R0 Hr1 El1) as (Hr2 & El2 & Hli2 & Hs2 & _). unfold after_refill in *. fold R R0 in Hp |- *.
  set (bev1 := refilled Reading (set_rl R0 bev)) in *. set (bev2 := refilled Writing bev1) in *. cbv zeta. split.
  - eapply rl_ready_done; [by apply (rl_ready_pending _ _ _ _ R0) | done|]. intros d.
    assert (suspended d (set_rl (R <| refill_pending := p |>) bev2) = suspended d bev2) as -> by by destruct d.
    destruct (has (suspended d bev2) BEV_SUSPEND_BW) eqn:Ed; [split; [by exists c | apply Hp; by exists d]|]. intros _. change (0 < limit d (bucket R)).
    assert (Hse : still_empty d (set_rl R0 bev) R0 = false).
    { rewrite <- Ed, Hs2. unfold still_empty. destruct d; cbn [decide]; case_decide; try done; by rewrite Hs1. }
    unfold still_empty in Hse. change (bucket R0) with (bucket R) in Hse. destruct (Z.ltb_spec 0 (limit d (bucket R))) as [|Hle]; [done|].
    rewrite andb_true_r in Hse. assert (Hs : has (suspended d bev) BEV_SUSPEND_BW = false) by by destruct d.
    destruct (bo_flags _ _ _ _ Hb d _ flag_bw) as (_ & H & _). specialize (H eq_refl). rewrite Hs in H. specialize (H rl El ltac:(by exists c)).
    pose proof (filled_up_limit cf t rl d (lo_cfg _ Hlo) Hlev). fold R in H0. lia.
  - rewrite (links_set_rl R0), Hli2, Hli1 by done. by apply (links_set_rl rl).
Qed.

Lemma no_cfg_ok gs cs br bev rl rl' : bev_ok gs cs br bev -> rate_limiting bev = Some rl -> group rl' = group rl -> cfg rl' = None ->
  (forall d, has (suspended d bev) BEV_SUSPEND_BW = false) -> bev_ok gs cs br (set_rl rl' bev).
Proof.
  intros Hb El Eg Ec Hs. eapply rl_ready_done; [apply rl_ready_set; [done | unfold group_of; by rewrite El | intros x Hx; congruence] | done|].
  intros d. assert (suspended d (set_rl rl' bev) = suspended d bev) as -> by by destruct d. rewrite Hs, Ec. by intros [].
Qed.

Lemma no_cfg_unsuspended gs cs br bev rl d : bev_ok gs cs br bev -> rate_limiting bev = Some rl -> cfg rl = None ->
  has (suspended d bev) BEV_SUSPEND_BW = false.
Proof.
  intros Hb El Ec. destruct (bo_flags _ _ _ _ Hb d _ flag_bw) as (_ & H & _). specialize (H eq_refl). destruct (has _ _); [|done].
  destruct H as (x & Hx & [y Hy] & _). congruence.
Qed.

Lemma again_flags d bev rl : rate_limiting bev = Some rl ->
  still_empty d bev rl = has (suspended d (refilled d bev)) BEV_SUSPEND_BW.
Proof.
  intros El. rewrite (refilled_switch d bev rl El). unfold still_empty. destruct (has (suspended d bev) BEV_SUSPEND_BW) eqn:Es; cbn [andb]; [|done].
  destruct (0 <? limit d (bucket rl)); cbn [negb]; [by rewrite has_switch_bw, decide_True by auto with bev | done].
Qed.

Lemma refilled_other d bev rl : rate_limiting bev = Some rl ->
  has (suspended (other d) (refilled d bev)) BEV_SUSPEND_BW = has (suspended (other d) bev) BEV_SUSPEND_BW.
Proof.
  intros El. rewrite (refilled_switch d bev rl El). destruct (_ && _); [|done]. rewrite has_switch_bw by auto with bev. rewrite decide_False; [done|].
  by destruct d; intros [? _].
Qed.

Lemma rate_limiting_refilled d bev : rate_limiting (refilled d bev) = rate_limiting bev.
Proof. unfold refilled. destruct (rate_limiting bev) eqn:El; [|done]. destruct (_ && _); [by rewrite rate_limiting_switch | done]. Qed.

(** The timer of a bufferevent runs. *)
Lemma wp_run_refill v b bev w : world_ok v w -> bevs w !! b = Some bev -> is_Some (rate_limiting bev) ->
  wp (run_refill b) (fun _ w' => world_ok v w') w.
Proof using Hev.
  intros Hw Eb [rl El]. pose proof (wo_bevs _ _ Hw b bev Eb) as Hb. pose proof (co_rlim _ _ (bo_core _ _ _ _ Hb) rl El) as Hrl.
  unfold run_refill. apply wp_bind, (wp_the_rlim _ bev rl); [done..|]. apply wp_bind, (wp_set_rlim _ _ bev); [done|].
  set (rl0 := rl <| refill_pending := false |>). unfold _bev_refill_callback. eapply wp_bind, wp_the_bev; [apply bevs_now|].
  change (rate_limiting (set_rl rl0 bev)) with (Some rl0). cbv beta iota. assert (Hc0 : cfg rl0 = cfg rl) by done. rewrite Hc0. destruct (cfg rl) as [c|] eqn:Ec.
  2: { apply wp_ret. apply (world_set v w b bev _ (counts w)); try done; [|by apply (links_set_rl rl)].
    apply (no_cfg_ok _ _ _ _ rl); try done. intros d. by apply (no_cfg_unsuspended _ _ _ _ rl d Hb). }
  destruct (Hrl c Ec) as (Hi & cf & Ecf & Hlo & Hlev). apply wp_bind, (wp_the_cfg _ cf); [done|].
  apply wp_bind, wp_current_tick; [apply Hlo|]. intros t Ht. eapply wp_bind, wp_set_rlim; [apply bevs_now|]. rewrite set_bev_twice, set_rl_twice.
  set (R := (filled_up cf t rl) <| refill_pending := false |>). change (rl0 <| bucket := _ |>) with R.
  eapply wp_bind, (wp_refill_direction Reading b); [apply bevs_now | done|]. intros n1.
  eapply wp_bind, (wp_refill_direction Writing b); [apply bevs_set | by rewrite rate_limiting_refilled|]. intros n2. rewrite bump_set, set_bev_twice.
  change (refilled Writing _) with (after_refill cf t rl bev).
  assert (Hend : forall p, (still_empty Reading (set_rl R bev) R || still_empty Writing (refilled Reading (set_rl R bev)) R = true -> p = true) -> forall n,
    world_ok v (bump n (set_bev b (set_rl ((filled_up cf t rl) <| refill_pending := p |>) (after_refill cf t rl bev)) w))).
  { intros p Hp n. destruct (after_refill_ok _ _ _ cf c t rl bev p Hb El Ec Ecf) as [H1 H2]; [|by apply (world_set v w b bev)].
    intros [d Hd]. apply Hp. rewrite !again_flags by (by rewrite ?rate_limiting_refilled).
    unfold after_refill in Hd. fold R in Hd. destruct d; [|by rewrite Hd, orb_true_r]. rewrite (refilled_other Writing _ R) in Hd by (by rewrite rate_limiting_refilled).
    cbn [other] in Hd. by rewrite Hd. }
  assert (Elr : rate_limiting (after_refill cf t rl bev) = Some R) by (unfold after_refill; by rewrite !rate_limiting_refilled).
  apply wp_when; intros Ha.
  - eapply wp_bind, (wp_refill_add Hev b); [apply bevs_set | exact Elr|]. intros n3. apply wp_ret. rewrite bump_set. by apply Hend.
  - specialize (Hend false ltac:(by rewrite Ha) n2). rewrite set_rl_id in Hend by done. exact Hend.
Qed.
End timers.

Section set_limit.
Context {A : Arch} {M : Allocator} {E : BevEnv} (Hev : events_ok).

(** ** Both directions started *)

Lemma wp_start_direction d b bev rl (Q : bool -> world -> Prop) w : bevs w !! b = Some bev -> rate_limiting bev = Some rl ->
  with_bev Q (negb (0 <? limit d (bucket rl))) b w (switch_bw (negb (0 <? limit d (bucket rl))) d bev) -> wp (start_direction d b) Q w.
Proof using Hev.
  intros Eb El H. unfold start_direction. apply wp_bind, (wp_the_rlim _ bev rl); [done..|]. destruct (0 <? limit d (bucket rl)); cbn [negb switch_bw] in H.
  - apply wp_bind, (wp_unsuspend Hev d b _ bev); [done|]. intros n. apply wp_ret, H.
  - apply wp_bind, (wp_suspend Hev d b _ bev); [done|]. intros n. apply wp_ret, H.
Qed.

(** The flags of the bucket follow the levels. *)
Definition started (rl : bufferevent_rate_limit) (bev : bufferevent) : bufferevent :=
  switch_bw (negb (0 <? write_limit (bucket rl))) Writing (switch_bw (negb (0 <? read_limit (bucket rl))) Reading (set_rl rl bev)).

Lemma has_started d rl bev : has (suspended d (started rl bev)) BEV_SUSPEND_BW = negb (0 <? limit d (bucket rl)).
Proof. unfold started. rewrite !has_switch_bw by auto with bev. by destruct d. Qed.

Lemma started_ok gs cs br bev rl p : bev_ok gs cs br bev -> group rl = group_of bev -> rlim_ok cs rl -> is_Some (cfg rl) ->
  ((exists d, limit d (bucket rl) <= 0) -> p = true) -> bev_ok gs cs br (set_rl (rl <| refill_pending := p |>) (started rl bev)).
Proof.
  intros Hb Hg Hr Hc Hp. eapply rl_ready_done; [apply (rl_ready_pending _ _ _ _ rl) | done |].
  - by apply rl_ready_switch, rl_ready_switch, rl_ready_set.
  - unfold started. by rewrite !rate_limiting_switch.
  - intros d. assert (suspended d (set_rl (rl <| refill_pending := p |>) (started rl bev)) = suspended d (started rl bev)) as -> by by destruct d.
    rewrite has_started. change (bucket (rl <| refill_pending := p |>)) with (bucket rl). destruct (Z.ltb_spec 0 (limit d (bucket rl))); cbn [negb]; [done|].
    split; [done|]. apply Hp. by exists d.
Qed.

Lemma links_started rl bev : group rl = group_of bev -> links (started rl bev) = links bev.
Proof. intros Hg. unfold started. rewrite !links_switch_bw. unfold links, group_of in *. cbn. by rewrite Hg. Qed.

(** ** A new configuration *)

Lemma clip_level cf d b : limits_ok cf -> limit d (clip d cf b) = Z.min (maximum d cf) (limit d b) /\
  limit (other d) (clip d cf b) = limit (other d) b.
Proof.
  intros [Hc Hi]. pose proof (cfg_rates _ Hc d) as [Hr Hm]. specialize (Hi d). unfold INT_MAX in Hi. unfold clip.
  rewrite swrap_small by lia. split.
  - destruct (Z.ltb_spec (maximum d cf) (limit d b)); [|lia]. rewrite limit_set, decide_True, ssize_swrap by (done || lia). lia.
  - destruct (_ <? _); [|done]. rewrite limit_set. rewrite decide_False; [done|]. by destruct d.
Qed.

Lemma init_level cf b tick (re : bool) : limits_ok cf -> (re = true -> forall d, - EV_SSIZE_MAX - 1 <= limit d b) ->
  forall d, level cf d (ev_token_bucket_init b cf tick re).
Proof.
  intros Hc Hl d. pose proof (cfg_rates _ (lo_cfg _ Hc) d) as [Hr Hm]. unfold level, ev_token_bucket_init. destruct re.
  - specialize (Hl eq_refl d). destruct (clip_level cf Reading b Hc) as [R1 R2], (clip_level cf Writing (clip Reading cf b) Hc) as [W1 W2]. cbn [other] in *.
    destruct d; [rewrite W2, R1 | rewrite W1, R2]; lia.
  - destruct d; cbn in *; rewrite ssize_swrap; lia.
Qed.

Lemma wp_set_some v b c cf bev w : world_ok v w -> bevs w !! b = Some bev -> cfgs w !! c = Some cf ->
  wp (bufferevent_set_rate_limit b (Some c)) (fun _ w' => world_ok v w') w.
Proof using Hev.
  intros Hw Eb Ecf. pose proof (wo_bevs _ _ Hw b bev Eb) as Hb. pose proof (wo_cfgs _ _ Hw c cf Ecf) as Hlo.
  unfold bufferevent_set_rate_limit. apply wp_bind, (wp_the_cfg _ cf); [done|]. apply wp_bind, wp_current_tick; [apply Hlo|]. intros t _.
  apply wp_bind, (wp_the_bev _ bev); [done|]. case_bool_decide; [by apply wp_ret|].
  set (o := match rate_limiting bev with Some rl => Some rl | None => _ end). destruct o as [rl|] eqn:Eo; [|by apply wp_ret].
  assert (Hrl : group rl = group_of bev /\ rlim_ok (cfgs w) rl).
  { unfold o, group_of in *. destruct (rate_limiting bev) as [x|] eqn:El; [injection Eo as <-; split; [done | by apply (co_rlim _ _ (bo_core _ _ _ _ Hb))]|].
    destruct (mm_malloc _); [|done]. injection Eo as <-. split; [done|]. intros y Hy. done. }
  destruct Hrl as [Hg Hrl]. set (re := bool_decide (is_Some (cfg rl))). set (bk := ev_token_bucket_init (bucket rl) cf t re).
  apply wp_bind, (wp_set_rlim _ _ bev); [done|]. set (rl1 := rl <| cfg := Some c |> <| bucket := bk |>).
  assert (Hre : re = true -> refill_initialized rl = true /\ forall d, - EV_SSIZE_MAX - 1 <= limit d (bucket rl)).
  { intros [y Hy]%bool_decide_eq_true. destruct (Hrl y Hy) as (Hi & cf' & _ & _ & Hlev). split; [done|]. intros d. apply (Hlev d). }
  assert (Hlev : forall d, level cf d bk) by (apply init_level; [done | intros Hx; by apply Hre]).
  assert (Hok : forall p, rlim_ok (cfgs w) (rl1 <| refill_initialized := true |> <| refill_pending := p |>)).
  { intros p c' [= <-]. split; [done|]. by exists cf. }
  assert (Hrest : forall p k, wp ((let! rl := the_rlim b in set_rlim b (rl <| refill_initialized := true |>)) ;;
      let! suspended_read := start_direction Reading b in let! suspended_write := start_direction Writing b in
      when (suspended_read || suspended_write) (let! _ := refill_add b in ret tt) ;; ret 0) (fun _ w' => world_ok v w')
      (bump k (set_bev b (set_rl (rl1 <| refill_pending := p |>) bev) w))).
  { intros p k. apply wp_bind. eapply wp_bind, wp_the_rlim; [apply bevs_set | done|]. eapply wp_set_rlim; [apply bevs_set|].
    rewrite set_bump, set_rl_twice. set (rl2 := rl1 <| refill_pending := p |> <| refill_initialized := true |>).
    eapply wp_bind, (wp_start_direction Reading b); [apply bevs_set | done|]. intros n1.
    eapply wp_bind, (wp_start_direction Writing b); [apply bevs_set | by rewrite rate_limiting_switch|]. intros n2. rewrite !bump_set.
    change (switch_bw _ Writing _) with (started rl2 bev).
    assert (Hend : forall q n, ((exists d, limit d (bucket rl2) <= 0) -> q = true) -> world_ok v (bump n (set_bev b (set_rl (rl2 <| refill_pending := q |>) (started rl2 bev)) w))).
    { intros q n Hq. apply (world_set v w b bev); [done | done | |].
      - apply started_ok; try done. apply (Hok p).
      - rewrite (links_set_rl rl2) by (done || (unfold started; by rewrite !rate_limiting_switch)). by apply links_started. }
    apply wp_bind, wp_when; intros Ha.
    - eapply wp_bind, (wp_refill_add Hev b); [apply bevs_set | unfold started; by rewrite !rate_limiting_switch|]. intros n3.
      apply wp_ret, wp_ret. rewrite bump_set. by apply (Hend true).
    - apply wp_ret. apply orb_false_iff in Ha as [H1%negb_false_iff%Z.ltb_lt H2%negb_false_iff%Z.ltb_lt].
      specialize (Hend (refill_pending rl2) n2). rewrite set_rl_id in Hend by (unfold started; by rewrite !rate_limiting_switch).
      apply Hend. intros [[] Hd]; lia. }
  apply wp_bind. destruct re; cbn [when].
  - destruct (Hre eq_refl) as [Hi _]. apply wp_bind, wp_assert; [done|]. eapply (wp_refill_del Hev b); [apply bevs_now | done|].
    intros n. rewrite set_bev_twice, set_rl_twice. apply Hrest.
  - apply wp_ret. specialize (Hrest (refill_pending rl1) (counts (set_bev b (set_rl rl1 bev) w))).
    assert (Heta : rl1 <| refill_pending := refill_pending rl1 |> = rl1) by (by destruct rl1). by rewrite Heta, bump_same in Hrest.
Qed.

Lemma wp_remove_rate_limit v b bev w : world_ok v w -> bevs w !! b = Some bev ->
  wp (bufferevent_set_rate_limit b None) (fun _ w' => world_ok v w') w.
Proof using Hev.
  intros Hw Eb. pose proof (wo_bevs _ _ Hw b bev Eb) as Hb. unfold bufferevent_set_rate_limit, remove_rate_limit.
  apply wp_bind, (wp_the_bev _ bev); [done|]. apply wp_bind. destruct (rate_limiting bev) as [rl|] eqn:El; [|by apply wp_ret, wp_ret].
  apply wp_bind, (wp_set_rlim _ _ bev); [done|]. set (rl1 := rl <| cfg := None |>).
  eapply wp_bind, (wp_unsuspend Hev Reading b); [apply bevs_now|]. intros n1. eapply wp_bind, (wp_unsuspend Hev Writing b); [apply bevs_set|].
  intros n2. rewrite bump_set, set_bev_twice. set (bev2 := unsuspend_bev Writing _ _).
  assert (Hr : rl_ready (groups w) (cfgs w) (broken v b) bev2).
  { apply (rl_ready_switch _ _ _ false), (rl_ready_switch _ _ _ false), rl_ready_set; [done | unfold group_of; by rewrite El | done]. }
  assert (El2 : rate_limiting bev2 = Some rl1) by (unfold bev2; by rewrite !rate_limiting_unsuspend).
  assert (Hend : forall p n, world_ok v (bump n (set_bev b (set_rl (rl1 <| refill_pending := p |>) bev2) w))).
  { intros p n. apply (world_set v w b bev); [done | done | |].
    - eapply rl_ready_done; [by apply (rl_ready_pending _ _ _ _ rl1) | done|]. intros d.
      assert (suspended d (set_rl (rl1 <| refill_pending := p |>) bev2) = suspended d bev2) as -> by by destruct d.
      assert (has (suspended d bev2) BEV_SUSPEND_BW = false) as ->; [|by intros []].
      change bev2 with (switch_bw false Writing (switch_bw false Reading (set_rl rl1 bev))). rewrite !has_switch_bw by auto with bev. by destruct d.
    - rewrite (links_set_rl rl1) by done. unfold bev2. rewrite !links_unsuspend. by apply (links_set_rl rl). }
  apply wp_when; intros _.
  - eapply (wp_refill_del Hev b); [apply bevs_set | done|]. intros n3. apply wp_ret. rewrite bump_set. apply Hend.
  - apply wp_ret. specialize (Hend (refill_pending rl1) n2). by rewrite set_rl_id in Hend.
Qed.

(** ** The application takes tokens out, or puts some in *)

(** The number asked for keeps the level in its range. *)
Definition decr_ok (cf : ev_token_bucket_cfg) (d : direction) (decr : Z) (b : ev_token_bucket) : Prop :=
  - EV_SSIZE_MAX - 1 <= limit d b - decr <= maximum d cf.

Lemma take_level cf d decr b : limits_ok cf -> (forall d, level cf d b) -> decr_ok cf d decr b ->
  (forall d', level cf d' (take_tokens d decr b)) /\ limit (other d) (take_tokens d decr b) = limit (other d) b.
Proof.
  intros Hc Hl Hd. unfold decr_ok in Hd. pose proof (cfg_rates _ (lo_cfg _ Hc) d) as [_ Hm]. split; [|unfold take_tokens; by destruct d].
  intros d'. pose proof (Hl d') as Hl'. unfold level in *. unfold take_tokens. rewrite limit_set. case_decide; [|done]. subst. rewrite ssize_swrap; lia.
Qed.

Lemma wp_decrement_limit v d b bev rl c cf decr w : world_ok v w -> bevs w !! b = Some bev -> rate_limiting bev = Some rl ->
  cfg rl = Some c -> cfgs w !! c = Some cf -> decr_ok cf d decr (bucket rl) ->
  wp (bufferevent_decrement_limit d b decr) (fun _ w' => world_ok v w') w.
Proof using Hev.
  intros Hw Eb El Ec Ecf Hd. pose proof (wo_bevs _ _ Hw b bev Eb) as Hb. pose proof (co_rlim _ _ (bo_core _ _ _ _ Hb) rl El) as Hrl.
  destruct (Hrl c Ec) as (Hi & cf' & Ecf' & Hlo & Hlev). assert (cf' = cf) as -> by congruence.
  destruct (take_level cf d decr (bucket rl) Hlo Hlev Hd) as [Hlev' Hoth].
  unfold bufferevent_decrement_limit. apply wp_bind, (wp_the_bev _ bev); [done|]. apply wp_bind, (wp_lift _ rl); [done|].
  apply wp_bind, wp_assert; [apply bool_decide_eq_true; by exists c|]. apply wp_bind, (wp_set_rlim _ _ bev); [done|].
  set (rl1 := rl <| bucket := take_tokens d decr (bucket rl) |>). set (old := limit d (bucket rl)). set (new := limit d (take_tokens d decr (bucket rl))).
  assert (Hready : forall p, rl_ready (groups w) (cfgs w) (broken v b) (set_rl (rl1 <| refill_pending := p |>) bev)).
  { intros p. apply rl_ready_set; [done | unfold group_of; by rewrite El|]. intros c' Hc'. assert (c' = c) as -> by (cbn in Hc'; congruence).
    split; [done|]. by exists cf. }
  assert (Hother : forall p, (has (suspended (other d) bev) BEV_SUSPEND_BW = true -> p = true) ->
    flag_cond (groups w) (set_rl (rl1 <| refill_pending := p |>) bev) (other d) BEV_SUSPEND_BW
      (has (suspended (other d) (set_rl (rl1 <| refill_pending := p |>) bev)) BEV_SUSPEND_BW)).
  { intros p Hp. apply (other_bw _ _ _ _ _ rl _ Hb); try done; by exists c. }
  pose proof (has_bw_pending _ _ _ d bev rl Hb El) as Hp1. pose proof (has_bw_pending _ _ _ (other d) bev rl Hb El) as Hp2.
  assert (Heta : rl1 <| refill_pending := refill_pending rl |> = rl1) by by destruct rl.
  pose proof (bo_flags _ _ _ _ Hb d _ flag_bw) as (_ & Hflag & _). specialize (Hflag eq_refl).
  destruct ((0 <? old) && (new <=? 0)) eqn:E1.
  - apply wp_bind, (wp_suspend Hev d b _ (set_rl rl1 bev)); [apply bevs_now|]. intros m.
    eapply wp_bind, (wp_refill_add Hev b); [apply bevs_set | by rewrite rate_limiting_suspend|]. intros k. apply wp_ret.
    rewrite bump_set, set_bev_twice, suspend_rl, set_rl_twice. apply (world_set v w b bev); [done | done | |].
    + apply rl_ready_suspend; [done | | by apply Hother]. apply bw_cond. eexists. split; [done|]. split; [by exists c | done].
    + by rewrite links_suspend, (links_set_rl rl).
  - destruct ((old <=? 0) && (0 <? new)) eqn:E2.
    + apply andb_true_iff in E2 as [_ Hnew%Z.ltb_lt].
      assert (Hend : forall p k, (has (suspended (other d) bev) BEV_SUSPEND_BW = true -> p = true) ->
        wp (bufferevent_unsuspend d b BEV_SUSPEND_BW ;; ret 0) (fun _ w' => world_ok v w') (bump k (set_bev b (set_rl (rl1 <| refill_pending := p |>) bev) w))).
      { intros p k Hp. eapply wp_bind, (wp_unsuspend Hev d b); [apply bevs_set|]. intros m. apply wp_ret. rewrite bump_set.
        apply (world_set v w b bev); [done | done | |].
        - apply rl_ready_unsuspend; [done | | by apply Hother]. apply bw_cond. intros x [= <-] _. exact Hnew.
        - by rewrite links_unsuspend, (links_set_rl rl). }
      apply wp_bind, wp_when; intros Hs.
      * eapply (wp_refill_del Hev b); [apply bevs_now | done|]. intros m. rewrite set_rl_twice, set_bev_twice. apply Hend. intros Hx. by rewrite Hx in Hs.
      * apply negb_false_iff in Hs. rewrite <- Heta, Hp2, <- (bump_same (set_bev _ _ _)) by done. by apply Hend.
    + apply wp_ret. apply (world_set v w b bev _ (counts w)); [done | done | | by apply (links_set_rl rl)].
      specialize (Hready (refill_pending rl)). specialize (Hother (refill_pending rl)). rewrite Heta in Hready, Hother.
      apply rl_ready_ok; [done|]. intros d'. pattern d'. apply (direction_cases _ d); [|by apply Hother].
      apply bw_cond. assert (suspended d (set_rl rl1 bev) = suspended d bev) as -> by by destruct d. destruct (has (suspended d bev) BEV_SUSPEND_BW).
      * exists rl1. split; [done|]. split; [by exists c | by apply Hp1].
      * intros x [= <-] _. specialize (Hflag rl El ltac:(by exists c)). change (0 < new). fold old in Hflag.
        rewrite (proj2 (Z.ltb_lt 0 old) Hflag) in E1. cbn in E1. apply Z.leb_gt in E1. lia.
Qed.
End set_limit.
