(* ===== verification/BevGroupOps.v ===== *)
(** Operations on rate limit groups: their timer, their settings, joining and leaving. *)

From stdpp Require Import gmap.
From S2P Require Import Prelude StateOp MinHeap EvChain Evbuffer EventData EventCore TokenBucket Bev RateLimit BevSocket BevInv BevWorld BevGroups BevLimits BevTimers.

Section group_ops.
Context {A : Arch} {M : Allocator} {E : BevEnv} (Hev : events_ok).

(** ** The timer of a group *)

Lemma wp_resume_group v d g gr w : world_ok v w -> groups w !! g = Some gr -> 0 < limit d (rate_limit gr) ->
  wp (_bev_group_unsuspend d g) (fun _ w' => world_ok v w' /\ is_Some (groups w' !! g)) w.
Proof using Hev.
  intros Hw Eg Hl. pose proof (wo_groups _ _ Hw g gr Eg) as Hok. destruct (go_members _ Hok) as [Hn Hz].
  apply (wp_group_unsuspend Hev d g gr); try done; [intros b; by apply (members_alive v w g gr)|]. intros n. split.
  - apply (world_switched v d false w g gr); try done; [apply Hok | by apply (go_limit _ Hok)].
  - cbn. rewrite lookup_insert_eq. by eexists.
Qed.

Lemma wp_refill_group_direction v d g w : world_ok v w -> is_Some (groups w !! g) ->
  wp (refill_group_direction d g) (fun _ w' => world_ok v w' /\ is_Some (groups w' !! g)) w.
Proof using Hev.
  intros Hw [gr Eg]. pose proof (wo_groups _ _ Hw g gr Eg) as Hok. unfold refill_group_direction. apply wp_bind, (wp_the_group _ gr); [done|].
  rewrite (go_pending _ Hok). cbn [orb]. apply wp_when; [|intros _; split; [done | by exists gr]]. intros [_ Hle%Z.leb_le]%andb_true_iff.
  apply (wp_resume_group v d g gr); try done. destruct (go_share _ Hok) as [? _]. lia.
Qed.

Lemma update_raises cf b t d : cfg_ok cf -> (forall d, level cf d b) -> limit d b <= limit d (snd (ev_token_bucket_update b cf t)).
Proof. intros Hc Hl. pose (rl := new_rlim <| bucket := b |>). exact (filled_up_limit cf t rl d Hc Hl). Qed.

Lemma wp_group_refill v g w : world_ok v w -> is_Some (groups w !! g) -> wp (_bev_group_refill_callback g) (fun _ w' => world_ok v w') w.
Proof using Hev.
  intros Hw [gr Eg]. pose proof (wo_groups _ _ Hw g gr Eg) as Hok. pose proof (lo_cfg _ (go_cfg _ Hok)) as Hc.
  unfold _bev_group_refill_callback. apply wp_bind, (wp_the_group _ gr); [done|]. apply wp_bind, wp_current_tick; [done|]. intros t _.
  apply wp_bind, (wp_update_group _ _ gr); [done|]. set (gr1 := gr <| rate_limit := _ |>).
  assert (Hw1 : world_ok v (set_group g gr1 w)).
  { apply (world_set_group v w g gr _ (counts w)); try done. apply (group_ok_same gr); try done.
    - intros d. apply ev_token_bucket_update_level; [done | apply Hok].
    - apply Hok.
    - intros d Hs. pose proof (go_limit _ Hok d Hs). pose proof (update_raises _ (rate_limit gr) t d Hc (go_level _ Hok)). cbn. lia. }
  apply wp_bind. eapply wp_mono; [apply (wp_refill_group_direction v Reading g); [done | cbn; rewrite lookup_insert_eq; by eexists]|].
  intros [] w2 [Hw2 Hg2]. eapply wp_mono; [by apply (wp_refill_group_direction v Writing g)|]. by intros [] w3 [Hw3 _].
Qed.

(** ** Settings *)

Lemma wp_group_decrement v d g gr decr w : world_ok v w -> groups w !! g = Some gr -> decr_ok (rate_limit_cfg gr) d decr (rate_limit gr) ->
  wp (bufferevent_rate_limit_group_decrement d g decr) (fun _ w' => world_ok v w') w.
Proof using Hev.
  intros Hw Eg Hd. pose proof (wo_groups _ _ Hw g gr Eg) as Hok. destruct (go_members _ Hok) as [Hn Hz].
  destruct (take_level _ d decr _ (go_cfg _ Hok) (go_level _ Hok) Hd) as [Hlev Hoth].
  unfold bufferevent_rate_limit_group_decrement. apply wp_bind, (wp_the_group _ gr); [done|]. apply wp_bind, (wp_update_group _ _ gr); [done|].
  set (gr1 := gr <| rate_limit := _ |>). set (old := limit d (rate_limit gr)). set (new := limit d (take_tokens d decr (rate_limit gr))).
  assert (Hsw : forall (x : bool) n, (x = false -> 0 < new) -> world_ok v (bump n (switch_world d x g gr1 (set_group g gr1 w)))).
  { intros x n Hx. rewrite switch_world_again. apply (world_switched v d x w g gr); try done.
    change (rate_limit gr1) with (take_tokens d decr (rate_limit gr)). rewrite Hoth. by apply (go_limit _ Hok). }
  assert (Eg1 : groups (set_group g gr1 w) !! g = Some gr1) by (cbn; apply lookup_insert_eq).
  assert (Hal : forall b, b ∈ members gr1 -> is_Some (bevs (set_group g gr1 w) !! b)) by (intros b; by apply (members_alive v w g gr)).
  apply wp_bind. destruct ((0 <? old) && (new <=? 0)) eqn:E1.
  - apply (wp_group_suspend Hev d g gr1); try done. intros n. apply wp_ret. by apply Hsw.
  - apply wp_when; intros E2.
    + apply andb_true_iff in E2 as [_ Hnew%Z.ltb_lt]. apply (wp_group_unsuspend Hev d g gr1); try done. intros n. apply wp_ret. by apply Hsw.
    + apply wp_ret. apply (world_set_group v w g gr _ (counts w)); try done. apply (group_ok_same gr); try done; [apply Hok|].
      intros d' Hs. pattern d'. revert Hs. change (group_suspended d' gr1) with (group_suspended d' gr). pattern d'. apply (direction_cases _ d).
      * intros Hs. pose proof (go_limit _ Hok d Hs) as Hp. fold old in Hp. rewrite (proj2 (Z.ltb_lt 0 old) Hp) in E1. cbn in E1.
        apply Z.leb_gt in E1. exact E1.
      * intros Hs. change (rate_limit gr1) with (take_tokens d decr (rate_limit gr)). rewrite Hoth. by apply (go_limit _ Hok).
Qed.

Lemma wp_set_min_share v g gr share w : world_ok v w -> groups w !! g = Some gr -> 1 <= share ->
  wp (bufferevent_rate_limit_group_set_min_share g share) (fun _ w' => world_ok v w') w.
Proof.
  intros Hw Eg Hs. pose proof (wo_groups _ _ Hw g gr Eg) as Hok. unfold bufferevent_rate_limit_group_set_min_share.
  destruct (Z.ltb_spec EV_SSIZE_MAX share); [by apply wp_ret|]. apply wp_bind, (wp_update_group _ _ gr); [done|].
  eapply wp_bind, wp_update_group; [cbn; apply lookup_insert_eq|]. apply wp_ret. rewrite set_group_twice.
  apply (world_set_group v w g gr _ (counts w)); try done. destruct Hok as [Hm Hc Hl Hp Hsh Hlim].
  destruct (cfg_rates _ (lo_cfg _ Hc) Reading) as [R1 R2], (cfg_rates _ (lo_cfg _ Hc) Writing) as [W1 W2].
  pose proof (lo_int _ Hc Reading) as IR. pose proof (lo_int _ Hc Writing) as IW. cbn in R1, R2, W1, W2, IR, IW.
  split; try done. cbn. split; [|lia].
  destruct (Z.ltb_spec (read_rate (rate_limit_cfg gr)) share); cbn; [destruct (Z.ltb_spec (write_rate (rate_limit_cfg gr)) (read_rate (rate_limit_cfg gr))) | destruct (Z.ltb_spec (write_rate (rate_limit_cfg gr)) share)]; lia.
Qed.

Lemma clip_group_level cf d b : limits_ok cf -> limit d (clip_group d cf b) = Z.min (maximum d cf) (limit d b) /\
  limit (other d) (clip_group d cf b) = limit (other d) b.
Proof.
  intros [Hc Hi]. pose proof (cfg_rates _ Hc d) as [Hr Hm]. unfold clip_group. rewrite ssize_swrap by lia. split.
  - destruct (Z.ltb_spec (maximum d cf) (limit d b)); [|lia]. rewrite limit_set, decide_True by done. lia.
  - destruct (_ <? _); [|done]. rewrite limit_set. rewrite decide_False; [done|]. by destruct d.
Qed.

Lemma wp_group_set_cfg v g gr c w : world_ok v w -> groups w !! g = Some gr -> (forall c', c = Some c' -> is_Some (cfgs w !! c')) ->
  wp (bufferevent_rate_limit_group_set_cfg g c) (fun _ w' => world_ok v w') w.
Proof using Hev.
  intros Hw Eg Hc. pose proof (wo_groups _ _ Hw g gr Eg) as Hok. destruct c as [c|]; [|by apply wp_ret]. destruct (Hc c eq_refl) as [cf Ecf].
  pose proof (wo_cfgs _ _ Hw c cf Ecf) as Hlo. unfold bufferevent_rate_limit_group_set_cfg.
  apply wp_bind, (wp_the_cfg _ cf); [done|]. apply wp_bind, (wp_the_group _ gr); [done|]. apply wp_bind, (wp_update_group _ _ gr); [done|].
  eapply wp_bind, wp_update_group; [cbn; apply lookup_insert_eq|]. rewrite set_group_twice. set (gr1 := (gr <| rate_limit_cfg := cf |>) <| rate_limit := _ |>).
  destruct (clip_group_level cf Reading (rate_limit gr) Hlo) as [R1 R2], (clip_group_level cf Writing (clip_group Reading cf (rate_limit gr)) Hlo) as [W1 W2].
  cbn [other] in *. assert (Hlim : forall d, limit d (rate_limit gr1) = Z.min (maximum d cf) (limit d (rate_limit gr))).
  { intros []; change (rate_limit gr1) with (clip_group Writing cf (clip_group Reading cf (rate_limit gr))); [by rewrite W2, R1 | by rewrite W1, R2]. }
  assert (Hw1 : forall n, world_ok v (bump n (set_group g gr1 w))).
  { intros n. apply (world_set_group v w g gr); try done. destruct Hok as [Hm Hcf Hl Hp Hsh Hli]. split; try done.
    - intros d. pose proof (Hl d) as Hd. destruct (cfg_rates _ (lo_cfg _ Hlo) d). change (rate_limit_cfg gr1) with cf. unfold level in *. rewrite Hlim. lia.
    - intros d Hs. pose proof (Hli d Hs). destruct (cfg_rates _ (lo_cfg _ Hlo) d). rewrite Hlim. lia. }
  assert (Hend : forall n, wp (let! gr := the_group g in
      let! _ := bufferevent_rate_limit_group_set_min_share g (wrap size_bits (configured_min_share gr)) in ret 0) (fun _ w' => world_ok v w') (bump n (set_group g gr1 w))).
  { intros n. eapply wp_bind, wp_the_group; [cbn; apply lookup_insert_eq|]. apply wp_bind. destruct (go_share _ Hok) as [_ Hsh].
    change (configured_min_share gr1) with (configured_min_share gr). rewrite ssize_wrap by (rewrite ssize_double; lia).
    eapply wp_mono; [apply (wp_set_min_share v g gr1); [apply Hw1 | cbn; apply lookup_insert_eq | lia]|]. intros r w' Hw'. by apply wp_ret. }
  apply wp_bind, wp_when; intros _; [|specialize (Hend (counts w)); exact Hend].
  apply wp_bind, (wp_event_result Hev). intros n. apply wp_ret, Hend.
Qed.

Lemma world_new_group v w gr : world_ok v w -> group_ok gr -> members gr = [] ->
  world_ok v ((w <| next_id := S (next_id w) |>) <| groups := <[next_id w := gr]> (groups w) |>).
Proof.
  intros Hw Hok Hm. destruct (wo_fresh _ _ Hw) as [Hf1 Hf2].
  assert (Hnone : groups w !! next_id w = None) by (destruct (groups w !! next_id w) eqn:Eg; [specialize (Hf2 (next_id w) ltac:(by eexists)); lia | done]).
  assert (Hno : forall b bev, bevs w !! b = Some bev -> group_of bev <> Some (next_id w)).
  { intros b bev Eb Eg. destruct (wo_group_of _ _ Hw b bev _ Eb Eg) as [x Hx]. congruence. }
  split; try apply Hw; cbn.
  - intros b bev Eb. destruct (wo_bevs _ _ Hw b bev Eb) as [Hc He Hk Hf]. split; try done. intros d f Hfb.
    apply (flag_cond_groups (groups w)); [|by apply Hf]. intros _ g Hg. rewrite lookup_insert_ne; [done|]. intros <-. by apply (Hno b bev).
  - intros g gr'. destruct (decide (g = next_id w)) as [->|]; [rewrite lookup_insert_eq; by intros [= <-] | rewrite lookup_insert_ne by done; apply Hw].
  - intros g gr' b. destruct (decide (g = next_id w)) as [->|].
    + rewrite lookup_insert_eq. intros [= <-]. rewrite Hm. split; [by intros ?%not_elem_of_nil|]. intros (bev & Eb & Eg). by destruct (Hno b bev).
    + rewrite lookup_insert_ne by done. apply Hw.
  - intros b bev g Eb Eg. rewrite lookup_insert_is_Some'. right. by apply (wo_group_of _ _ Hw b bev).
  - split; [intros b Hb; specialize (Hf1 b Hb); lia|]. intros g [->|Hg]%lookup_insert_is_Some'; [lia | specialize (Hf2 g Hg); lia].
Qed.

Lemma wp_group_new v c cf w : world_ok v w -> cfgs w !! c = Some cf -> wp (bufferevent_rate_limit_group_new c) (fun _ w' => world_ok v w') w.
Proof using Hev.
  intros Hw Ecf. pose proof (wo_cfgs _ _ Hw c cf Ecf) as Hlo. unfold bufferevent_rate_limit_group_new.
  apply wp_bind, (wp_the_cfg _ cf); [done|]. apply wp_bind, wp_current_tick; [apply Hlo|]. intros t _.
  destruct (mm_malloc _); [|by apply wp_ret]. apply wp_bind. unfold new_id, wp at 1. apply wp_bind, wp_modify.
  set (gr := {| members := [] |}). assert (Hlev : forall d, level cf d (rate_limit gr)) by (apply init_level; done).
  apply wp_bind, (wp_event_result Hev). intros n. apply wp_bind. unfold bufferevent_rate_limit_group_set_min_share.
  rewrite (proj2 (Z.ltb_ge EV_SSIZE_MAX 64)) by (pose proof int_max_ssize; unfold INT_MAX in *; lia).
  eapply wp_bind, wp_update_group; [cbn; apply lookup_insert_eq|]. eapply wp_bind, wp_update_group; [cbn; apply lookup_insert_eq|].
  apply wp_ret, wp_ret. rewrite set_group_twice. set (gr2 := (gr <| configured_min_share := 64 |>) <| min_share := _ |>).
  assert (Hok : group_ok gr2).
  { destruct (cfg_rates _ (lo_cfg _ Hlo) Reading) as [R1 R2], (cfg_rates _ (lo_cfg _ Hlo) Writing) as [W1 W2]. cbn in R1, R2, W1, W2.
    pose proof int_max_ssize as Hi. unfold INT_MAX in Hi. split; try done.
    - split; [apply NoDup_nil_2 | done].
    - by intros [].
    - cbn. unfold INT_MAX. split; [|lia]. destruct (Z.ltb_spec (read_rate cf) 64); cbn; [destruct (Z.ltb_spec (write_rate cf) (read_rate cf)) | destruct (Z.ltb_spec (write_rate cf) 64)]; lia.
    - intros [] _; cbn; rewrite ssize_swrap; lia. }
  pose proof (world_bump v _ n (world_new_group v w gr2 Hw Hok eq_refl)) as Hw2.
  unfold set_group, bump, assign in *. cbn in *. by rewrite insert_insert_eq.
Qed.

Lemma wp_group_free v g gr w : world_ok v w -> groups w !! g = Some gr -> members gr = [] ->
  wp (bufferevent_rate_limit_group_free g) (fun _ w' => world_ok v w') w.
Proof using Hev.
  intros Hw Eg Hm. destruct (go_members _ (wo_groups _ _ Hw g gr Eg)) as [_ Hn]. unfold bufferevent_rate_limit_group_free.
  apply wp_bind, (wp_the_group _ gr); [done|]. apply wp_bind, wp_assert; [rewrite Hn, Hm; done|].
  apply wp_bind, (wp_event_result Hev). intros n. apply wp_modify.
  assert (Hno : forall b bev, bevs w !! b = Some bev -> group_of bev <> Some g).
  { intros b bev Eb Hg. apply (member_group v w g gr b bev Hw Eg Eb) in Hg. rewrite Hm in Hg. by apply not_elem_of_nil in Hg. }
  split; try apply Hw; cbn.
  - intros b bev Eb. destruct (wo_bevs _ _ Hw b bev Eb) as [Hc He Hk Hf]. split; try done. intros d f Hfb.
    apply (flag_cond_groups (groups w)); [|by apply Hf]. intros _ g' Hg'. rewrite lookup_delete_ne; [done|]. intros <-. by apply (Hno b bev).
  - intros g' gr' [_ Hg']%lookup_delete_Some. by apply (wo_groups _ _ Hw g').
  - intros g' gr' b [_ Hg']%lookup_delete_Some. by apply (wo_members _ _ Hw g').
  - intros b bev g' Eb Hg'. rewrite lookup_delete_ne by (intros <-; by apply (Hno b bev)). by apply (wo_group_of _ _ Hw b bev).
  - destruct (wo_fresh _ _ Hw) as [Hf1 Hf2]. split; [done|]. intros g' [x [_ Hx]%lookup_delete_Some]. apply Hf2. by exists x.
Qed.

(** ** Leaving a group *)

(** Everything but the flags of the group. *)
Lemma ungrouped_ok gs gs' cs br bev v1 v2 : bev_ok gs cs br bev -> v1 = false -> v2 = false ->
  bev_ok gs' cs br (switch v2 Writing (switch v1 Reading (ungrouped bev))).
Proof.
  intros [Hc He Hk Hf] -> ->. assert (Hcond : forall d v, v = false -> flag_cond gs' (ungrouped bev) d BEV_SUSPEND_BW_GROUP v).
  { intros d v ->. split; [done|]. split; [done|]. intros _. assert (group_of (ungrouped bev) = None) as ->; [|done].
    unfold group_of, ungrouped. cbn. by destruct (rate_limiting bev). }
  assert (Hoth : forall d f, flag_bit f -> f <> BEV_SUSPEND_BW_GROUP -> flag_ok gs' (ungrouped bev) d f).
  { intros d f Hfb Hne. destruct (Hf d f Hfb) as (H1 & H2 & _). unfold flag_ok. assert (suspended d (ungrouped bev) = suspended d bev) as -> by by destruct d.
    split; [done|]. split; [|done]. intros Hfw. specialize (H2 Hfw). unfold ungrouped. cbn. destruct (has _ _).
    - destruct H2 as (rl & -> & H2). eexists. split; [done|]. exact H2.
    - intros x Hx. destruct (rate_limiting bev) as [rl|]; [|done]. cbn in Hx. injection Hx as <-. by apply (H2 rl). }
  assert (Hcore : core_ok cs (core (ungrouped bev))).
  { pose proof (co_rlim _ _ Hc) as Hr. destruct Hc. split; try done. cbn. intros rl Hrl. cbn in Hr. destruct (rate_limiting bev) as [x|] eqn:Ex; [|done].
    cbn in Hrl. injection Hrl as <-. by apply (Hr x). }
  assert (Hev1 : events_fit br (ungrouped bev)) by (by destruct He).
  assert (Hk1 : forall d, known_flags (suspended d (ungrouped bev))) by (intros d; specialize (Hk d); by destruct d).
  set (bev1 := switch false Reading (ungrouped bev)). assert (Hs1 : forall d, suspended d bev1 = if decide (d = Reading) then Z.ldiff (suspended d (ungrouped bev)) BEV_SUSPEND_BW_GROUP else suspended d (ungrouped bev)) by (intros d; apply suspended_unsuspend).
  assert (Hc1 : core bev1 = core (ungrouped bev)) by apply core_unsuspend.
  apply switch_ok.
  - by rewrite Hc1.
  - by apply unsuspend_events.
  - intros d. rewrite Hs1. case_decide; [by apply known_ldiff | done].
  - intros d f Hfb Hne. unfold flag_ok. rewrite Hs1. apply (flag_cond_core _ (ungrouped bev)); [done|].
    destruct (decide (f = BEV_SUSPEND_BW_GROUP)) as [->|Hng].
    + destruct d; [|by destruct Hne]. cbn [decide]. case_decide; [|done]. apply Hcond. rewrite has_ldiff by auto with bev. by rewrite bool_decide_true, andb_false_r.
    + case_decide; [|by apply Hoth]. rewrite has_ldiff by auto with bev. rewrite bool_decide_false, andb_true_r by done. by apply Hoth.
  - apply (flag_cond_core _ (ungrouped bev)); [done|]. by apply Hcond.
Qed.

Lemma wp_remove_from_group v b bev w : world_ok v w -> bevs w !! b = Some bev ->
  wp (bufferevent_remove_from_rate_limit_group b) (fun _ w' => world_ok v w' /\ (forall g, is_Some (groups w !! g) -> is_Some (groups w' !! g)) /\
    exists bev', bevs w' !! b = Some bev' /\ group_of bev' = None /\ rate_limiting bev' = rate_limiting (ungrouped bev)) w.
Proof using Hev.
  intros Hw Eb. pose proof (wo_bevs _ _ Hw b bev Eb) as Hb. pose proof (groups_left_ok v w b bev Hw Eb) as Hrg.
  apply (wp_leave b true bev); [done | |].
  { intros g Hg. destruct (wo_group_of _ _ Hw b bev g Eb Hg) as [gr Egr]. exists gr. split; [done|].
    split; [apply (go_members _ (wo_groups _ _ Hw g gr Egr)) | by apply (member_group v w g gr b bev)]. }
  cbn [when]. apply wp_bind. eapply wp_bind, (wp_unsuspend Hev Reading b); [cbn; apply lookup_insert_eq|]. intros n1.
  eapply (wp_unsuspend Hev Writing b); [apply bevs_set|]. intros n2. apply wp_ret.
  set (bev' := unsuspend_bev Writing _ _). set (w' := bump n2 _).
  assert (Ew : bevs w' = <[b := bev']> (bevs w)) by (cbn; by rewrite !insert_insert_eq).
  assert (El : rate_limiting bev' = rate_limiting (ungrouped bev)) by (unfold bev'; by rewrite !rate_limiting_unsuspend).
  assert (Hgn : group_of bev' = None) by (unfold group_of; rewrite El; cbn; by destruct (rate_limiting bev)).
  assert (Hlinks : links bev' = links (ungrouped bev)) by (unfold bev'; by rewrite !links_unsuspend). injection Hlinks as _ Hl2 Hl3.
  split; [|split; [intros g Hg; by apply (rg_dom _ _ _ Hrg) | exists bev'; by rewrite Ew, lookup_insert_eq]].
  apply (world_moved v w w' b bev bev' (groups_left b bev (groups w)) (fun g x => x <> b /\ members_of (bevs w) g x)); try done.
  - intros g x. unfold members_of. destruct (decide (x = b)) as [->|Hne].
    + rewrite lookup_insert_eq. split; [by intros [? _]|]. intros (y & [= <-] & Hy). congruence.
    + rewrite lookup_insert_ne by done. tauto.
  - intros g Hg. congruence.
  - by apply (ungrouped_ok (groups w) _ _ _ _ false false).
Qed.

(** ** Joining a group *)

Definition joined_by (b : nat) (gr : bufferevent_rate_limit_group) : bufferevent_rate_limit_group :=
  gr <| n_members := n_members gr + 1 |> <| members := members gr ++ [b] |>.

Lemma groups_joined v w b bev g gr : world_ok v w -> bevs w !! b = Some bev -> group_of bev = None -> groups w !! g = Some gr ->
  regrouped (groups w) (<[g := joined_by b gr]> (groups w)) (fun g' x => x = b /\ g' = g \/ members_of (bevs w) g' x).
Proof.
  intros Hw Eb Hn Eg. pose proof (wo_groups _ _ Hw g gr Eg) as Hok.
  assert (Hb : b ∉ members gr) by (intros Hx%(member_group v w g gr b bev Hw Eg Eb); congruence).
  assert (Hlk : forall g', <[g := joined_by b gr]> (groups w) !! g' = if decide (g' = g) then Some (joined_by b gr) else groups w !! g').
  { intros g'. case_decide; [subst; by rewrite lookup_insert_eq | by rewrite lookup_insert_ne]. }
  split.
  - intros g' gr'. rewrite Hlk. case_decide; [|apply Hw]. intros [= <-]. destruct Hok as [[Hnd Hz] Hc Hl Hp Hs Hli]. split; try done.
    cbn. split; [|rewrite zlen_app; change (zlen [b]) with 1; lia]. apply list.NoDup_app. split; [done|]. split; [|apply NoDup_singleton].
    intros x Hx ->%list_elem_of_singleton. done.
  - intros g'. rewrite Hlk. case_decide; [subst; rewrite Eg; split; intros; by eexists | done].
  - intros d g'. rewrite Hlk. case_decide; [subst; rewrite Eg; by destruct d | done].
  - intros g' gr' x. rewrite Hlk. case_decide as Hg.
    + intros [= <-]. subst g'. cbn. rewrite elem_of_app, list_elem_of_singleton, (wo_members _ _ Hw g gr x Eg). intuition.
    + intros Hgr. rewrite (wo_members _ _ Hw g' gr' x Hgr). split; [by right | by intros [[_ ?]|?]].
Qed.

(** The flags of a new member follow the group. *)
Definition member_of (gr : bufferevent_rate_limit_group) (bev : bufferevent) : bufferevent :=
  let bev1 := if group_read_suspended gr then suspend_bev Reading BEV_SUSPEND_BW_GROUP bev else bev in
  if group_write_suspended gr then suspend_bev Writing BEV_SUSPEND_BW_GROUP bev1 else bev1.

Lemma member_of_ok gs gs' cs br bev g gr rl : bev_ok gs cs br bev -> rate_limiting bev = Some rl -> group rl = None -> gs' !! g = Some gr ->
  bev_ok gs' cs br (member_of gr (set_rl (rl <| group := Some g |>) bev)).
Proof.
  intros [Hc He Hk Hf] El Eg Hgr. set (bev1 := set_rl (rl <| group := Some g |>) bev).
  assert (Hgo : group_of bev1 = Some g) by done. assert (Hs1 : forall d, suspended d bev1 = suspended d bev) by by intros [].
  assert (Hfalse : forall d, has (suspended d bev) BEV_SUSPEND_BW_GROUP = false).
  { intros d. destruct (Hf d _ flag_group) as (_ & _ & H). rewrite (H eq_refl). unfold group_of. rewrite El. cbn. by rewrite Eg. }
  assert (Hcond : forall d v, v = group_suspended d gr -> flag_cond gs' bev1 d BEV_SUSPEND_BW_GROUP v).
  { intros d v ->. split; [done|]. split; [done|]. intros _. by rewrite Hgo, Hgr. }
  assert (Hoth : forall d f, flag_bit f -> f <> BEV_SUSPEND_BW_GROUP -> flag_ok gs' bev1 d f).
  { intros d f Hfb Hne. destruct (Hf d f Hfb) as (H1 & H2 & _). unfold flag_ok. rewrite Hs1.
    split; [done|]. split; [|done]. intros Hfw. specialize (H2 Hfw). destruct (has _ _).
    - destruct H2 as (x & Hx & H2). eexists. split; [done|]. assert (x = rl) as -> by congruence. exact H2.
    - intros x [= <-]. by apply (H2 rl). }
  assert (Hcore : core_ok cs (core bev1)).
  { pose proof (co_rlim _ _ Hc rl El) as Hr. destruct Hc. split; try done. cbn. by intros x [= <-]. }
  assert (Hev1 : events_fit br bev1) by (by destruct He).
  assert (Hk1 : forall d, known_flags (suspended d bev1)) by (intros d; rewrite Hs1; apply Hk).
  unfold member_of. destruct (group_read_suspended gr) eqn:ER, (group_write_suspended gr) eqn:EW.
  - set (bev2 := suspend_bev Reading _ bev1). assert (Hc2 : core bev2 = core bev1) by apply core_suspend.
    apply suspend_ok; auto with bev; [by rewrite Hc2 | apply suspend_events; auto with bev | | |].
    + intros d. unfold bev2. rewrite suspended_suspend. case_decide; [by apply known_lor | done].
    + intros d f Hfb Hne. unfold flag_ok, bev2. rewrite suspended_suspend. apply (flag_cond_core _ bev1); [done|]. destruct (decide (f = BEV_SUSPEND_BW_GROUP)) as [->|Hng].
      * destruct d; [|by destruct Hne]. cbn [decide]. case_decide; [|done]. rewrite has_lor_flag by auto with bev. rewrite bool_decide_true, orb_true_r by done. by apply Hcond.
      * case_decide; [rewrite has_lor_flag by auto with bev; rewrite bool_decide_false, orb_false_r by done|]; by apply Hoth.
    + apply (flag_cond_core _ bev1); [done|]. by apply Hcond.
  - apply suspend_ok; auto with bev. intros d f Hfb Hne. destruct (decide (f = BEV_SUSPEND_BW_GROUP)) as [->|Hng]; [|by apply Hoth].
    destruct d; [by destruct Hne|]. apply Hcond. by rewrite Hs1, Hfalse.
  - apply suspend_ok; auto with bev. intros d f Hfb Hne. destruct (decide (f = BEV_SUSPEND_BW_GROUP)) as [->|Hng]; [|by apply Hoth].
    destruct d; [|by destruct Hne]. apply Hcond. by rewrite Hs1, Hfalse.
  - split; try done. intros d f Hfb. destruct (decide (f = BEV_SUSPEND_BW_GROUP)) as [->|Hng]; [|by apply Hoth].
    apply Hcond. rewrite Hs1, Hfalse. by destruct d.
Qed.

Lemma links_member_of gr bev : links (member_of gr bev) = links bev.
Proof. unfold member_of. by destruct (group_read_suspended gr), (group_write_suspended gr); rewrite ?links_suspend. Qed.

Lemma wp_join v b bev rl g w : world_ok v w -> bevs w !! b = Some bev -> rate_limiting bev = Some rl -> group rl = None -> is_Some (groups w !! g) ->
  wp ((let! rl := the_rlim b in set_rlim b (rl <| group := Some g |>)) ;;
      update_group g (fun gr => gr <| n_members := n_members gr + 1 |>) ;;
      update_group g (fun gr => gr <| members := members gr ++ [b] |>) ;;
      let! gr := the_group g in
      when (group_read_suspended gr) (bufferevent_suspend_read b BEV_SUSPEND_BW_GROUP) ;;
      when (group_write_suspended gr) (bufferevent_suspend_write b BEV_SUSPEND_BW_GROUP) ;; ret 0) (fun _ w' => world_ok v w') w.
Proof using Hev.
  intros Hw Eb El Eg [gr Egr]. pose proof (wo_bevs _ _ Hw b bev Eb) as Hb. assert (Hno : group_of bev = None) by (unfold group_of; by rewrite El).
  pose proof (groups_joined v w b bev g gr Hw Eb Hno Egr) as Hrg.
  apply wp_bind, wp_bind, (wp_the_rlim _ bev rl); [done..|]. apply (wp_set_rlim _ _ bev); [done|].
  apply wp_bind, (wp_update_group _ _ gr); [done|]. eapply wp_bind, wp_update_group; [cbn; apply lookup_insert_eq|].
  rewrite set_group_twice. apply wp_bind, (wp_the_group g (joined_by b gr)); [cbn; apply lookup_insert_eq|].
  change (group_read_suspended (joined_by b gr)) with (group_read_suspended gr). change (group_write_suspended (joined_by b gr)) with (group_write_suspended gr).
  set (bev1 := set_rl _ bev).
  assert (Hend : forall w', (exists n, w' = bump n (set_group g (joined_by b gr) (set_bev b (member_of gr bev1) w))) -> world_ok v w').
  { intros w' [n ->]. pose proof (links_member_of gr bev1) as Hl. injection Hl as Hl1 Hl2 Hl3.
    apply (world_moved v w _ b bev (member_of gr bev1) (<[g := joined_by b gr]> (groups w)) (fun g' x => x = b /\ g' = g \/ members_of (bevs w) g' x)); try done.
    - intros g' x. unfold members_of. destruct (decide (x = b)) as [->|Hne].
      + rewrite lookup_insert_eq. split; [intros [[_ ->]|(y & Hy & Hgy)]; [by eexists | congruence]|]. intros (y & [= <-] & Hgy). left. rewrite Hl1 in Hgy. cbn in Hgy. by injection Hgy.
      + rewrite lookup_insert_ne by done. intuition.
    - intros g' Hg'. rewrite Hl1 in Hg'. cbn in Hg'. injection Hg' as <-. by exists gr.
    - assert (Hj : <[g := joined_by b gr]> (groups w) !! g = Some (joined_by b gr)) by apply lookup_insert_eq.
      pose proof (member_of_ok _ _ (cfgs w) (broken v b) bev g (joined_by b gr) rl Hb El Eg Hj) as Hm. exact Hm. }
  unfold member_of in Hend. destruct (group_read_suspended gr), (group_write_suspended gr); cbn [when].
  - eapply wp_bind, (wp_suspend Hev Reading b); [cbn; apply lookup_insert_eq|]. intros n1. eapply wp_bind, (wp_suspend Hev Writing b); [apply bevs_set|].
    intros n2. apply wp_ret, Hend. exists n2. rewrite bump_set. unfold set_group, set_bev, bump, assign. cbn. by rewrite insert_insert_eq.
  - eapply wp_bind, (wp_suspend Hev Reading b); [cbn; apply lookup_insert_eq|]. intros n1. apply wp_bind, wp_ret, wp_ret, Hend. exists n1.
    unfold set_group, set_bev, bump, assign. cbn. by rewrite insert_insert_eq.
  - apply wp_bind, wp_ret. eapply wp_bind, (wp_suspend Hev Writing b); [cbn; apply lookup_insert_eq|]. intros n1. apply wp_ret, Hend. exists n1.
    unfold set_group, set_bev, bump, assign. cbn. by rewrite insert_insert_eq.
  - apply wp_bind, wp_ret, wp_bind, wp_ret, wp_ret, Hend. by exists (counts w).
Qed.

Lemma wp_add_to_group v b bev g w : world_ok v w -> bevs w !! b = Some bev -> is_Some (groups w !! g) ->
  wp (bufferevent_add_to_rate_limit_group b g) (fun _ w' => world_ok v w') w.
Proof using Hev.
  intros Hw Eb Hg. pose proof (wo_bevs _ _ Hw b bev Eb) as Hb. unfold bufferevent_add_to_rate_limit_group. apply wp_bind, (wp_the_bev _ bev); [done|].
  set (o := match rate_limiting bev with Some rl => Some rl | None => _ end). destruct o as [rl|] eqn:Eo; [|by apply wp_ret].
  apply wp_bind, (wp_set_rlim _ _ bev); [done|]. set (w1 := set_bev b (set_rl rl bev) w).
  assert (Hw1 : world_ok v w1 /\ group rl = group_of bev).
  { unfold o in Eo. destruct (rate_limiting bev) as [x|] eqn:El.
    - injection Eo as <-. unfold w1. rewrite set_rl_id, set_bev_id by done. split; [done|]. unfold group_of. by rewrite El.
    - destruct (mm_malloc _); [|done]. injection Eo as <-. assert (Hgn : group_of bev = None) by (unfold group_of; by rewrite El).
      split; [|by rewrite Hgn]. apply (world_set v w b bev _ (counts w)); [done | done | | unfold links, group_of; cbn; by rewrite El].
      eapply rl_ready_done; [apply rl_ready_set; [done | by rewrite Hgn | done] | done|]. intros d.
      assert (suspended d (set_rl (new_rlim <| refill_initialized := true |>) bev) = suspended d bev) as -> by by destruct d.
      destruct (bo_flags _ _ _ _ Hb d _ flag_bw) as (_ & H & _). specialize (H eq_refl). destruct (has _ _); [|by intros []].
      destruct H as (x & Hx & _). congruence. }
  destruct Hw1 as [Hw1 Hgr]. case_bool_decide as Hsame; [by apply wp_ret|]. assert (Eb1 : bevs w1 !! b = Some (set_rl rl bev)) by apply bevs_now.
  apply wp_bind, wp_when; intros Hs.
  - apply wp_bind. eapply wp_mono; [by apply (wp_remove_from_group v b (set_rl rl bev))|]. intros r w2 (Hw2 & Hdom & bev2 & Eb2 & Hn2 & El2).
    apply wp_ret. apply (wp_join v b bev2 (rl <| group := None |>)); try done. by apply Hdom.
  - apply wp_ret. apply (wp_join v b (set_rl rl bev) rl); try done. apply bool_decide_eq_false in Hs. destruct (group rl); [by destruct Hs | done].
Qed.
End group_ops.
