(* ===== verification/BevActs.v ===== *)
(** What the application asks of a bufferevent: enabling and disabling, timeouts, watermarks,
    writing and reading. *)

From stdpp Require Import gmap.
From S2P Require Import Prelude StateOp MinHeap EvChain Evbuffer EvExpand EvbufferSpec EvbufferProps EvSpace EvSocket EventData EventCore TokenBucket Bev RateLimit BevSocket BevInv BevWorld BevGroups BevLimits.

Section acts.
Context {A : Arch} {M : Allocator} {E : BevEnv} (Hev : events_ok).

Lemma flag_ev d : flag_bit (ev_bit d).
Proof. destruct d; auto with bev. Qed.
#[local] Hint Resolve flag_ev : bev.

(** ** Enabling and disabling *)

Definition impl_events (event : Z) (bev : bufferevent) : Z :=
  let e := if negb (read_suspended bev =? 0) then Z.ldiff event EV_READ else event in
  if negb (write_suspended bev =? 0) then Z.ldiff e EV_WRITE else e.

Lemma has_impl event bev d : has (impl_events event bev) (ev_bit d) = has event (ev_bit d) && (suspended d bev =? 0).
Proof.
  unfold impl_events. destruct d; cbn [suspended ev_bit]; destruct (read_suspended bev =? 0), (write_suspended bev =? 0); cbn [negb];
    rewrite ?has_ldiff by auto with bev; rewrite ?andb_true_r, ?andb_false_r; try done; by destruct (has event _).
Qed.

Definition enable_bev (event : Z) (bev : bufferevent) : bufferevent :=
  on_events start (impl_events event bev) (bev <| enabled := Z.lor (enabled bev) event |>).
Definition disable_bev (event : Z) (bev : bufferevent) : bufferevent :=
  on_events stop event (bev <| enabled := Z.ldiff (enabled bev) event |>).

Lemma on_events_zero f bev : on_events f 0 bev = bev.
Proof. unfold on_events. by rewrite !has_zero. Qed.

Lemma wp_enable b event bev (Q : Z -> world -> Prop) w : bevs w !! b = Some bev -> with_bev Q 0 b w (enable_bev event bev) ->
  wp (bufferevent_enable b event) Q w.
Proof using Hev.
  intros Eb H. unfold bufferevent_enable. apply wp_bind, (wp_the_bev _ bev); [done|]. apply wp_bind, (wp_update_bev _ _ bev); [done|].
  fold (impl_events event bev). unfold enable_bev in H. destruct (Z.eqb_spec (impl_events event bev) 0) as [Hz|Hz].
  - apply wp_ret. rewrite Hz, on_events_zero in H. by apply with_bev_now in H.
  - eapply wp_bind, (socket_enable_ok Hev); [apply bevs_now|]. intros n. apply wp_ret. rewrite set_bev_twice. apply H.
Qed.

Lemma wp_disable b event bev (Q : Z -> world -> Prop) w : bevs w !! b = Some bev -> with_bev Q 0 b w (disable_bev event bev) ->
  wp (bufferevent_disable b event) Q w.
Proof using Hev.
  intros Eb H. unfold bufferevent_disable. apply wp_bind, (wp_update_bev _ _ bev); [done|].
  eapply wp_bind, (socket_disable_ok Hev); [apply bevs_now|]. intros n. apply wp_ret. rewrite set_bev_twice. apply H.
Qed.

(** The parts that enabling, disabling and timeouts leave alone. *)
Definition quiet_part (bev : bufferevent) := (io_part (bev <| enabled := 0 |>), rate_limiting bev, read_suspended bev, write_suspended bev, links bev).

Lemma quiet_links bev bev' : quiet_part bev' = quiet_part bev -> links bev' = links bev.
Proof. intros H. exact (f_equal snd H). Qed.

Lemma core_ok_quiet cs bev bev' : quiet_part bev' = quiet_part bev -> core_ok cs (core bev) -> core_ok cs (core bev').
Proof.
  intros [= H1 H2 H3 H4 H5 H6 H7 H8 H9 H10 H11] []. cbn in *. split; cbn; by rewrite ?H1, ?H2, ?H3, ?H6, ?H7.
Qed.

Lemma bev_ok_quiet gs cs br br' bev bev' : quiet_part bev' = quiet_part bev -> events_fit br' bev' -> bev_ok gs cs br bev -> bev_ok gs cs br' bev'.
Proof.
  intros Hq He [Hc _ Hk Hf]. split; [by apply (core_ok_quiet cs bev) | done | |]; injection Hq as H1 H2 H3 H4 H5 H6 H7 H8 H9 H10 H11.
  - intros d. specialize (Hk d). by destruct d; cbn in *; rewrite ?H8, ?H9.
  - intros d f Hfb. specialize (Hf d f Hfb). unfold flag_ok in *. assert (suspended d bev' = suspended d bev) as -> by (by destruct d; cbn).
    destruct Hf as (F1 & F2 & F3). split; [|split].
    + by rewrite H1, H3.
    + intros Hx. specialize (F2 Hx). by rewrite H7.
    + intros Hx. specialize (F3 Hx). rewrite F3. unfold group_of. by rewrite H7.
Qed.

Lemma quiet_set_ev d e bev : quiet_part (set_bev_ev d e bev) = quiet_part bev.
Proof. by destruct d. Qed.
Lemma quiet_start d bev : quiet_part (start d bev) = quiet_part bev.
Proof. apply quiet_set_ev. Qed.
Lemma quiet_stop d bev : quiet_part (stop d bev) = quiet_part bev.
Proof. destruct d; cbn [stop]; [done|]. by destruct (connecting bev). Qed.
Lemma quiet_enabled e bev : quiet_part (bev <| enabled := e |>) = quiet_part bev.
Proof. done. Qed.

Lemma quiet_on_events f event bev : (forall d bev, quiet_part (f d bev) = quiet_part bev) -> quiet_part (on_events f event bev) = quiet_part bev.
Proof. intros Hf. unfold on_events. destruct (has event EV_READ), (has event EV_WRITE); rewrite ?Hf; done. Qed.

Lemma quiet_enable event bev : quiet_part (enable_bev event bev) = quiet_part bev.
Proof. unfold enable_bev. rewrite quiet_on_events by apply quiet_start. done. Qed.
Lemma quiet_disable event bev : quiet_part (disable_bev event bev) = quiet_part bev.
Proof. unfold disable_bev. rewrite quiet_on_events by apply quiet_stop. done. Qed.

(** The events after starting and stopping. *)
Lemma on_start_fields impl bev : let bev' := on_events start impl bev in
  enabled bev' = enabled bev /\ connecting bev' = connecting bev /\
  (forall d, ev_io (bev_ev d bev') = ev_io (bev_ev d bev)) /\
  (forall d, ev_io (bev_ev d bev) = true -> ev_added (bev_ev d bev') = has impl (ev_bit d) || ev_added (bev_ev d bev)).
Proof.
  unfold on_events. cbv zeta. destruct (has impl EV_READ) eqn:ER, (has impl EV_WRITE) eqn:EW; (splits; [done | done | by intros []|]);
    intros []; cbn; rewrite ?ER, ?EW; intros Hio; rewrite ?Hio; done.
Qed.

Lemma enable_events br event bev : events_fit br bev -> events_fit br (enable_bev event bev).
Proof.
  intros [[Hio1 Hio2] Hr Hw Hrs Hws]. pose proof (on_start_fields (impl_events event bev) (bev <| enabled := Z.lor (enabled bev) event |>)) as Hf.
  cbv zeta in Hf. fold (enable_bev event bev) in Hf. destruct Hf as (He & Hc & Hio & Ha).
  pose proof (quiet_enable event bev) as Hq. injection Hq as _ Ho _ _ _ _ _ Hrs' Hws' _ _ _.
  assert (Hs : forall d, suspended d (enable_bev event bev) = suspended d bev) by (intros []; cbn; done).
  assert (Hm : forall d, may d (enable_bev event bev) = may d bev || has (impl_events event bev) (ev_bit d)).
  { intros d. unfold may. rewrite He, Hs, has_impl. change (enabled (bev <| enabled := _ |>)) with (Z.lor (enabled bev) event).
    rewrite has_lor_any by auto with bev. destruct (has (enabled bev) (ev_bit d)), (has event (ev_bit d)), (suspended d bev =? 0); done. }
  pose proof (Ha Reading Hio1) as HaR. pose proof (Ha Writing Hio2) as HaW. pose proof (Hm Reading) as HmR. pose proof (Hm Writing) as HmW.
  pose proof (Hio Reading) as HiR. pose proof (Hio Writing) as HiW. cbn in HaR, HaW, HmR, HmW, HiR, HiW, Hc, Ho.
  split; rewrite ?HiR, ?HiW, ?HaR, ?HaW, ?HmR, ?HmW, ?Hc, ?Ho; try done.
  - intros [->|Hx]%orb_true_iff; [by rewrite orb_true_r | by rewrite Hr].
  - intros [->|Hx]%orb_true_iff; [right; by rewrite orb_true_r|]. apply Hw in Hx as [Hx| ->]; [by left | by right].
  - intros Hbr [Hx|Hx]%orb_true_iff; [rewrite Hrs by done; by rewrite orb_true_r | by rewrite Hx].
  - intros Hbr [Hx|Hx]%orb_true_iff Hl; [rewrite Hws by done; by rewrite orb_true_r | by rewrite Hx].
Qed.

Lemma on_stop_fields ev bev : let bev' := on_events stop ev bev in
  enabled bev' = enabled bev /\ connecting bev' = connecting bev /\
  (forall d, ev_io (bev_ev d bev') = ev_io (bev_ev d bev)) /\
  (ev_added (ev_read bev') = negb (has ev EV_READ) && ev_added (ev_read bev)) /\
  (ev_added (ev_write bev') = negb (has ev EV_WRITE && negb (connecting bev)) && ev_added (ev_write bev)).
Proof.
  unfold on_events. cbv zeta. destruct (has ev EV_READ) eqn:ER, (has ev EV_WRITE) eqn:EW; cbn [negb andb stop];
    try (change (connecting (del_ev Reading bev)) with (connecting bev)); destruct (connecting bev) eqn:EC; cbn [negb andb];
    (splits; [done | done | by intros [] | done | done]).
Qed.

Lemma disable_events br event bev : events_fit br bev -> events_fit br (disable_bev event bev).
Proof.
  intros [[Hio1 Hio2] Hr Hw Hrs Hws]. pose proof (on_stop_fields event (bev <| enabled := Z.ldiff (enabled bev) event |>)) as Hf.
  cbv zeta in Hf. fold (disable_bev event bev) in Hf. destruct Hf as (He & Hc & Hio & HaR & HaW).
  pose proof (quiet_disable event bev) as Hq. injection Hq as _ Ho _ _ _ _ _ Hrs' Hws' _ _ _.
  assert (Hs : forall d, suspended d (disable_bev event bev) = suspended d bev) by (intros []; cbn; done).
  assert (Hm : forall d, may d (disable_bev event bev) = may d bev && negb (has event (ev_bit d))).
  { intros d. unfold may. rewrite He, Hs. change (enabled (bev <| enabled := _ |>)) with (Z.ldiff (enabled bev) event).
    rewrite has_ldiff_any by auto with bev. destruct (has (enabled bev) (ev_bit d)), (has event (ev_bit d)), (suspended d bev =? 0); done. }
  pose proof (Hm Reading) as HmR. pose proof (Hm Writing) as HmW. pose proof (Hio Reading) as HiR. pose proof (Hio Writing) as HiW.
  cbn in HmR, HmW, HiR, HiW, Hc, Ho, HaR, HaW.
  split; rewrite ?HiR, ?HiW, ?HaR, ?HaW, ?HmR, ?HmW, ?Hc, ?Ho; try done.
  - intros [Hx Hy]%andb_true_iff. by rewrite Hr, Hx.
  - intros [Hx Hy]%andb_true_iff. apply Hw in Hy as [Hy|Hy]; [by left|]. destruct (connecting bev); [by left|]. right. rewrite andb_true_r in Hx. by rewrite Hy, Hx.
  - intros Hbr [Hx Hy]%andb_true_iff. rewrite Hrs by done. by rewrite andb_true_r.
  - intros Hbr [Hx Hy]%andb_true_iff Hl. apply negb_true_iff in Hy. rewrite Hws, Hy by done. done.
Qed.

Lemma world_enable v w b bev event n : world_ok v w -> bevs w !! b = Some bev -> world_ok v (bump n (set_bev b (enable_bev event bev) w)).
Proof.
  intros Hw Eb. pose proof (wo_bevs _ _ Hw b bev Eb) as Hb. pose proof (quiet_enable event bev) as Hq.
  apply (world_set v w b bev); [done | done | | by apply quiet_links]. apply (bev_ok_quiet _ _ (broken v b) _ bev); [done | by apply enable_events, Hb | done].
Qed.

Lemma world_disable v w b bev event n : world_ok v w -> bevs w !! b = Some bev -> world_ok v (bump n (set_bev b (disable_bev event bev) w)).
Proof.
  intros Hw Eb. pose proof (wo_bevs _ _ Hw b bev Eb) as Hb. pose proof (quiet_disable event bev) as Hq.
  apply (world_set v w b bev); [done | done | | by apply quiet_links]. apply (bev_ok_quiet _ _ (broken v b) _ bev); [done | by apply disable_events, Hb | done].
Qed.

Lemma wp_enable_world v b event w : world_ok v w -> is_Some (bevs w !! b) -> wp (bufferevent_enable b event) (fun _ w' => world_ok v w') w.
Proof using Hev. intros Hw [bev Eb]. apply (wp_enable _ _ bev); [done|]. intros n. by apply world_enable. Qed.

Lemma wp_disable_world v b event w : world_ok v w -> is_Some (bevs w !! b) ->
  wp (bufferevent_disable b event) (fun _ w' => world_ok v w' /\ is_Some (bevs w' !! b)) w.
Proof using Hev.
  intros Hw [bev Eb]. apply (wp_disable _ _ bev); [done|]. intros n. split; [by apply world_disable|]. cbn. rewrite lookup_insert_eq. by eexists.
Qed.

(** ** Timeouts *)

Definition retime (d : direction) (bev : bufferevent) : bufferevent := if ev_added (bev_ev d bev) then start d bev else bev.

Lemma wp_retime d b bev (a : bool) (tv : timeval) (Q : Z -> world -> Prop) w : bevs w !! b = Some bev -> a = ev_added (bev_ev d bev) -> tv = bev_timeout d bev ->
  with_bev Q 0 b w (retime d bev) -> wp (if a then _bufferevent_add_event b d tv else ret 0) Q w.
Proof using Hev.
  intros Eb -> -> H. unfold retime in H. apply (wp_maybe _ _ (start d) b bev); [done | intros _ Q'; by apply (wp_add_event Hev b d bev) | done].
Qed.

Lemma retime_parts d bev : quiet_part (retime d bev) = quiet_part bev /\ enabled (retime d bev) = enabled bev /\ connecting (retime d bev) = connecting bev /\
  (forall d', ev_io (bev_ev d' (retime d bev)) = ev_io (bev_ev d' bev)) /\ (forall d', ev_added (bev_ev d' (retime d bev)) = ev_added (bev_ev d' bev)) /\
  forall d', bev_timeout d' (retime d bev) = bev_timeout d' bev.
Proof.
  unfold retime. destruct (ev_added (bev_ev d bev)) eqn:Ea; [|done]. splits; [apply quiet_start | by destruct d | by destruct d | by destruct d; intros [] | | by destruct d; intros []].
  destruct d; intros []; cbn in *; try done; rewrite Ea; apply orb_true_r.
Qed.

Lemma same_events br bev bev' : quiet_part bev' = quiet_part bev -> enabled bev' = enabled bev -> connecting bev' = connecting bev ->
  (forall d, ev_io (bev_ev d bev') = ev_io (bev_ev d bev)) -> (forall d, ev_added (bev_ev d bev') = ev_added (bev_ev d bev)) -> events_fit br bev -> events_fit br bev'.
Proof.
  intros Hq He Hc Hio Ha [H1 H2 H3 H4 H5]. injection Hq as _ Ho _ _ _ _ _ Hrs' Hws' _ _ _.
  assert (Hm : forall d, may d bev' = may d bev) by (intros d; apply may_frame; [done | by destruct d]).
  pose proof (Hio Reading) as I1. pose proof (Hio Writing) as I2. pose proof (Ha Reading) as A1. pose proof (Ha Writing) as A2. cbn in I1, I2, A1, A2.
  split; rewrite ?I1, ?I2, ?A1, ?A2, ?Hm, ?Hc, ?Ho; done.
Qed.

Lemma wp_set_timeouts v b bev tr tw w : world_ok v w -> bevs w !! b = Some bev ->
  wp (bufferevent_set_timeouts b tr tw) (fun _ w' => world_ok v w') w.
Proof using Hev.
  intros Hw Eb. pose proof (wo_bevs _ _ Hw b bev Eb) as Hb. unfold bufferevent_set_timeouts. apply wp_bind, (wp_update_bev _ _ bev); [done|].
  eapply wp_bind, wp_update_bev; [apply bevs_now|]. rewrite set_bev_twice. cbn [be_adj_timeouts bufferevent_ops_socket]. unfold be_socket_adj_timeouts.
  set (bev1 := (bev <| timeout_read := _ |>) <| timeout_write := _ |>).
  destruct (retime_parts Reading bev1) as (Q1 & E1 & C1 & I1 & A1 & T1). destruct (retime_parts Writing (retime Reading bev1)) as (Q2 & E2 & C2 & I2 & A2 & _).
  apply wp_bind, (wp_the_bev _ bev1); [apply bevs_now|].
  apply wp_bind, (wp_retime Reading b bev1); [apply bevs_now | done | done |]. intros n1. rewrite set_bev_twice.
  apply wp_bind, (wp_retime Writing b (retime Reading bev1)); [apply bevs_set | by rewrite (A1 Writing) | by rewrite (T1 Writing) |]. intros n2. rewrite bump_set.
  apply wp_ret. assert (Hq : quiet_part (retime Writing (retime Reading bev1)) = quiet_part bev) by (rewrite Q2, Q1; done).
  apply (world_set v w b bev); [done | done | | by apply quiet_links]. apply (bev_ok_quiet _ _ (broken v b) _ bev); [done | | done].
  apply (same_events _ bev); [done | by rewrite E2, E1 | by rewrite C2, C1 | intros d; by rewrite I2, I1; destruct d | intros d; by rewrite A2, A1; destruct d | apply Hb].
Qed.

(** ** Watermarks *)

(** What the application's marks do to the input's callback. *)
Lemma shape_watch wm h0 h buf : input_shape wm h0 buf -> h <> 0 ->
  input_shape true h (evbuffer_cb_set_flags WM_CB (Z.lor EVBUFFER_CB_ENABLED EVBUFFER_CB_NODEFER) (if wm then buf else evbuffer_add_cb buf WM_CB)).
Proof.
  intros [Hu Hc Hw Hn] Hh. unfold evbuffer_cb_set_flags, change_cb_flags. destruct wm; split; try done; cbn; rewrite Hc, (proj2 (Z.eqb_neq h 0)) by done; [|done].
  by destruct (h0 =? 0).
Qed.

Lemma shape_unwatch wm h0 buf : input_shape wm h0 buf ->
  input_shape wm 0 (if wm then evbuffer_cb_clear_flags WM_CB EVBUFFER_CB_ENABLED buf else buf).
Proof.
  intros [Hu Hc Hw Hn]. unfold evbuffer_cb_clear_flags, change_cb_flags. destruct wm; split; try done. cbn. rewrite Hc. cbn. by destruct (h0 =? 0).
Qed.

Definition marked (l h : Z) (bev : bufferevent) : bufferevent :=
  if h =? 0 then bev <| wm_read := {| low := l; high := h |} |>
      <| input := if read_watermarks_cb bev then evbuffer_cb_clear_flags WM_CB EVBUFFER_CB_ENABLED (input bev) else input bev |>
  else bev <| wm_read := {| low := l; high := h |} |> <| read_watermarks_cb := true |>
      <| input := evbuffer_cb_set_flags WM_CB (Z.lor EVBUFFER_CB_ENABLED EVBUFFER_CB_NODEFER)
           (if read_watermarks_cb bev then input bev else evbuffer_add_cb (input bev) WM_CB) |>.

(** Suspended or not for the new mark; nothing happens when it is reached exactly. *)
Definition remarked (l h : Z) (bev : bufferevent) : bufferevent :=
  let bev1 := marked l h bev in
  if h =? 0 then unsuspend_bev Reading BEV_SUSPEND_WM bev1
  else if h <? total_len (input bev1) then suspend_bev Reading BEV_SUSPEND_WM bev1
  else if total_len (input bev1) <? h then unsuspend_bev Reading BEV_SUSPEND_WM bev1 else bev1.

Lemma wp_set_read_watermark b bev l h (Q : unit -> world -> Prop) w : bevs w !! b = Some bev -> with_bev Q tt b w (remarked l h bev) ->
  wp (set_read_watermark b h) Q (set_bev b (bev <| wm_read := {| low := l; high := h |} |>) w).
Proof using Hev.
  intros Eb H. unfold set_read_watermark. eapply wp_bind, wp_the_bev; [apply bevs_now|]. set (bev0 := bev <| wm_read := _ |>) in *.
  unfold remarked, marked in H. change (read_watermarks_cb bev0) with (read_watermarks_cb bev). destruct (Z.eqb_spec h 0) as [Hz|Hz]; cbn [negb].
  - fold bev0 in H. set (bev1 := bev0 <| input := _ |>) in H.
    assert (Hs : forall (Q : unit -> world -> Prop), Q tt (set_bev b bev1 w) ->
      wp (when (read_watermarks_cb bev) (update_bev b (fun bev => bev <| input := evbuffer_cb_clear_flags WM_CB EVBUFFER_CB_ENABLED (input bev) |>))) Q (set_bev b bev0 w)).
    { intros Q' HQ'. subst bev1. destruct (read_watermarks_cb bev); cbn [when].
      - eapply wp_update_bev; [apply bevs_now|]. by rewrite set_bev_twice.
      - apply wp_ret. assert (bev0 <| input := input bev |> = bev0) as Hid by (by destruct bev). by rewrite Hid in HQ'. }
    apply wp_bind, Hs. eapply (wp_unsuspend Hev); [apply bevs_now|]. intros n. rewrite set_bev_twice. apply H.
  - set (bev1 := bev0 <| read_watermarks_cb := true |> <| input := evbuffer_cb_set_flags WM_CB (Z.lor EVBUFFER_CB_ENABLED EVBUFFER_CB_NODEFER)
      (if read_watermarks_cb bev then input bev else evbuffer_add_cb (input bev) WM_CB) |>).
    change (with_bev Q tt b w (if h <? total_len (input bev1) then suspend_bev Reading BEV_SUSPEND_WM bev1
      else if total_len (input bev1) <? h then unsuspend_bev Reading BEV_SUSPEND_WM bev1 else bev1)) in H.
    assert (Hs : forall (Q : unit -> world -> Prop), Q tt (set_bev b (bev0 <| read_watermarks_cb := true |> <| input := if read_watermarks_cb bev then input bev else evbuffer_add_cb (input bev) WM_CB |>) w) ->
      wp (when (negb (read_watermarks_cb bev)) (update_bev b (fun bev => bev <| read_watermarks_cb := true |> <| input := evbuffer_add_cb (input bev) WM_CB |>))) Q (set_bev b bev0 w)).
    { intros Q' HQ'. destruct (read_watermarks_cb bev) eqn:Er; cbn [negb when].
      - apply wp_ret. assert (bev0 <| read_watermarks_cb := true |> <| input := input bev |> = bev0) as Hid by (destruct bev; cbn in Er; by subst). by rewrite Hid in HQ'.
      - eapply wp_update_bev; [apply bevs_now|]. by rewrite set_bev_twice. }
    apply wp_bind, Hs. eapply wp_bind, wp_update_bev; [apply bevs_now|]. rewrite set_bev_twice. apply wp_bind, (wp_the_bev _ bev1); [apply bevs_now|].
    unfold evbuffer_get_length. destruct (h <? total_len (input bev1)).
    + eapply (wp_suspend Hev); [apply bevs_now|]. intros n. rewrite set_bev_twice. apply H.
    + destruct (_ <? h).
      * eapply (wp_unsuspend Hev); [apply bevs_now|]. intros n. rewrite set_bev_twice. apply H.
      * apply wp_ret. by apply with_bev_now in H.
Qed.

Lemma input_ok_same buf buf' : chains buf' = chains buf -> last_with_datap buf' = last_with_datap buf -> total_len buf' = total_len buf -> input_ok buf -> input_ok buf'.
Proof. intros H1 H2 H3 (full & rest & Hs). exists full, rest. by apply (spread_same buf). Qed.

Lemma marked_input l h bev : let buf := input (marked l h bev) in
  chains buf = chains (input bev) /\ last_with_datap buf = last_with_datap (input bev) /\ total_len buf = total_len (input bev) /\
  freeze_start buf = freeze_start (input bev) /\ freeze_end buf = freeze_end (input bev).
Proof. unfold marked. destruct (h =? 0), (read_watermarks_cb bev) eqn:Er; cbn; by rewrite ?Er. Qed.

Lemma remarked_ok gs cs br l h bev : bev_ok gs cs br bev -> 0 <= h <= EV_SSIZE_MAX -> bev_ok gs cs br (remarked l h bev) /\ links (remarked l h bev) = links bev.
Proof.
  intros [Hc He Hk Hf] Hh. destruct (marked_input l h bev) as (I1 & I2 & I3 & I4 & I5). pose proof (co_input_shape _ _ Hc) as Hsh.
  assert (Hwm : wm_read (marked l h bev) = {| low := l; high := h |}) by (unfold marked; by destruct (h =? 0)).
  assert (Hcore : core_ok cs (core (marked l h bev))).
  { assert (Hshape : input_shape (read_watermarks_cb (marked l h bev)) h (input (marked l h bev))).
    { unfold marked. destruct (Z.eqb_spec h 0) as [->|Hz]; [by apply (shape_unwatch _ (high (wm_read bev))) | by apply (shape_watch _ (high (wm_read bev)))]. }
    destruct Hc as [C1 C2 C3 C4 C5 C6 C7 C8]. split.
    - by apply (input_ok_same (input bev)).
    - change (freeze_start (input (marked l h bev)) = false /\ freeze_end (input (marked l h bev)) = true). by rewrite I4, I5.
    - change (wm_read (core (marked l h bev))) with (wm_read (marked l h bev)). rewrite Hwm. exact Hshape.
    - change (wm_read (core (marked l h bev))) with (wm_read (marked l h bev)). by rewrite Hwm.
    - unfold marked. by destruct (h =? 0).
    - unfold marked. by destruct (h =? 0).
    - unfold marked. by destruct (h =? 0).
    - unfold marked. by destruct (h =? 0). }
  assert (Hev1 : events_fit br (marked l h bev)) by (unfold marked; destruct (h =? 0); by destruct He).
  assert (Hs : forall d, suspended d (marked l h bev) = suspended d bev) by (intros []; unfold marked; by destruct (h =? 0)).
  assert (Hkn : forall d, known_flags (suspended d (marked l h bev))) by (intros d; rewrite Hs; apply Hk).
  assert (Hrl : rate_limiting (marked l h bev) = rate_limiting bev) by (unfold marked; by destruct (h =? 0)).
  assert (Hoth : forall d f, flag_bit f -> ~ (d = Reading /\ f = BEV_SUSPEND_WM) -> flag_ok gs (marked l h bev) d f).
  { intros d f Hfb Hne. destruct (Hf d f Hfb) as (F1 & F2 & F3). unfold flag_ok. rewrite Hs. split; [|by rewrite Hrl; unfold group_of in *; rewrite Hrl].
    intros -> Hx. specialize (F1 eq_refl Hx) as [-> _]. by destruct Hne. }
  assert (Hli : links (marked l h bev) = links bev) by (unfold marked; by destruct (h =? 0)).
  unfold remarked. destruct (Z.eqb_spec h 0) as [Hz|Hz].
  - split; [apply unsuspend_ok; auto with bev; by split | by rewrite links_unsuspend].
  - destruct (Z.ltb_spec h (total_len (input (marked l h bev)))) as [Hlt|Hge].
    + split; [apply suspend_ok; auto with bev | by rewrite links_suspend]. split; [|done]. intros _ _. rewrite Hwm. cbn. split; [done|]. lia.
    + destruct (Z.ltb_spec (total_len (input (marked l h bev))) h) as [Hlt'|Hge'].
      * split; [apply unsuspend_ok; auto with bev; by split | by rewrite links_unsuspend].
      * split; [|done]. split; try done. intros d f Hfb. destruct (decide (d = Reading /\ f = BEV_SUSPEND_WM)) as [[-> ->]|]; [|by apply Hoth].
        unfold flag_ok. split; [|done]. intros _ _. rewrite Hwm. cbn. split; [done|]. lia.
Qed.

Lemma wp_setwatermark v b bev events l h w : world_ok v w -> bevs w !! b = Some bev -> 0 <= h <= EV_SSIZE_MAX ->
  wp (bufferevent_setwatermark b events l h) (fun _ w' => world_ok v w') w.
Proof using Hev.
  intros Hw Eb Hh. unfold bufferevent_setwatermark. apply wp_bind.
  assert (Hend : forall bev w, world_ok v w -> bevs w !! b = Some bev -> wp (when (has events EV_READ)
      (update_bev b (fun bev => bev <| wm_read := {| low := l; high := h |} |>) ;; set_read_watermark b h)) (fun _ w' => world_ok v w') w).
  { clear Hw Eb bev w. intros bev w Hw Eb. apply wp_when; [|done]. intros _. apply wp_bind, (wp_update_bev _ _ bev); [done|].
    apply (wp_set_read_watermark b bev l h); [done|]. intros n. destruct (remarked_ok _ _ _ l h bev (wo_bevs _ _ Hw b bev Eb) Hh). by apply (world_set v w b bev). }
  apply wp_when; intros _; [|by apply (Hend bev)]. apply (wp_update_bev _ _ bev); [done|]. apply (Hend (bev <| wm_write := {| low := l; high := h |} |>)); [|apply bevs_now].
  apply (world_set v w b bev _ (counts w)); try done. destruct (wo_bevs _ _ Hw b bev Eb) as [Hc He Hk Hf].
  split; [by destruct Hc | by destruct He | intros d; specialize (Hk d); by destruct d |]. intros d f Hfb. specialize (Hf d f Hfb). by destruct d.
Qed.

(** ** The buffers *)

(** Another input, with the mark looked at. *)
Lemma input_set_ok gs cs br buf bev : bev_ok gs cs br bev -> input_ok buf -> freeze_start buf = false -> freeze_end buf = true ->
  input_shape (read_watermarks_cb bev) (high (wm_read bev)) buf ->
  bev_ok gs cs br (wm_check (bev <| input := buf |>)) /\ links (wm_check (bev <| input := buf |>)) = links bev.
Proof.
  intros [Hc He Hk Hf] Hi Hfs Hfe Hsh. split; [|by rewrite links_wm_check]. apply wm_check_ok.
  - destruct Hc. by split.
  - by destruct He.
  - intros d. specialize (Hk d). by destruct d.
  - intros d f Hfb Hne. destruct (Hf d f Hfb) as (F1 & F2 & F3). unfold flag_ok.
    assert (suspended d (bev <| input := buf |>) = suspended d bev) as -> by by destruct d. split; [|done].
    intros -> Hx. specialize (F1 eq_refl Hx) as [-> _]. by destruct Hne.
  - change (high (wm_read bev) = 0 -> has (suspended Reading bev) BEV_SUSPEND_WM = false). intros Hz.
    destruct (Hf Reading _ flag_wm) as (F1 & _). destruct (has _ _); [|done]. by specialize (F1 eq_refl eq_refl) as (_ & F & _).
Qed.

(** The input with the same data. *)
Lemma input_same_ok gs cs br buf bev : bev_ok gs cs br bev -> input_ok buf -> freeze_start buf = false -> freeze_end buf = true ->
  input_shape (read_watermarks_cb bev) (high (wm_read bev)) buf -> total_len buf = total_len (input bev) ->
  bev_ok gs cs br (bev <| input := buf |>).
Proof.
  intros [Hc He Hk Hf] Hi Hfs Hfe Hsh Ht. split.
  - destruct Hc. by split.
  - by destruct He.
  - intros d. specialize (Hk d). by destruct d.
  - intros d f Hfb. destruct (Hf d f Hfb) as (F1 & F2 & F3). unfold flag_ok.
    assert (suspended d (bev <| input := buf |>) = suspended d bev) as -> by by destruct d. split; [|done].
    intros Hx Hy. change (input (bev <| input := buf |>)) with buf. rewrite Ht. by apply F1.
Qed.

(** Another output: writing starts when there is something to write. *)
Lemma output_set_ok gs cs br buf bev : bev_ok gs cs br bev -> packed buf -> freeze_start buf = true -> freeze_end buf = false -> output_shape buf ->
  bev_ok gs cs br (out_check (bev <| output := buf |>)) /\ links (out_check (bev <| output := buf |>)) = links bev.
Proof.
  intros [Hc He Hk Hf] Hi Hfs Hfe Hsh. split; [|by rewrite links_out_check]. set (bev1 := bev <| output := buf |>). split.
  - rewrite core_out_check. destruct Hc. by split.
  - destruct He as [[H1 H2] H3 H4 H5 H6]. unfold out_check. assert (Hm : may Writing bev1 = may Writing bev) by done.
    destruct (may Writing bev1 && negb (ev_added (ev_write bev1))) eqn:Ec.
    + apply andb_true_iff in Ec as [Hmay _]. rewrite Hm in Hmay. split; try done; cbn; [intros _; by right | by rewrite H2].
    + split; try done. intros Hbr Hmay _. rewrite Hmay in Ec. cbn in Ec. by apply negb_false_iff in Ec.
  - intros d. rewrite suspended_out_check. specialize (Hk d). by destruct d.
  - intros d f Hfb. unfold flag_ok. rewrite suspended_out_check. apply (flag_cond_core _ bev1); [apply core_out_check|]. specialize (Hf d f Hfb). by destruct d.
Qed.

(** Another output with less in it. *)
Lemma output_less_ok gs cs br buf bev : bev_ok gs cs br bev -> packed buf -> freeze_start buf = true -> freeze_end buf = false -> output_shape buf ->
  total_len buf <= total_len (output bev) -> bev_ok gs cs br (bev <| output := buf |>).
Proof.
  intros [Hc He Hk Hf] Hi Hfs Hfe Hsh Ht. split.
  - destruct Hc. by split.
  - destruct He as [H1 H2 H3 H4 H5]. split; try done. intros Hbr Hm Hl. apply H5; try done. cbn in Hl. lia.
  - intros d. specialize (Hk d). by destruct d.
  - intros d f Hfb. specialize (Hf d f Hfb). by destruct d.
Qed.

Lemma out_check_output bev buf : output (out_check (bev <| output := buf |>)) = buf.
Proof. unfold out_check. by destruct (_ && _). Qed.

Lemma wp_write v b bev data w : mem_ok -> world_ok v w -> bevs w !! b = Some bev -> data <> [] -> small (zlen data) ->
  wp (bufferevent_write b data) (fun r w' => r = 0 /\ world_ok v w' /\
    exists bev', bevs w' !! b = Some bev' /\ contents (output bev') = contents (output bev) ++ data) w.
Proof using Hev.
  intros Hm Hw Eb Hd Hs. pose proof (wo_bevs _ _ Hw b bev Eb) as Hb. pose proof (bo_core _ _ _ _ Hb) as Hc.
  destruct (co_output_freeze _ _ Hc) as [Hf1 Hf2]. cbn in Hf1, Hf2. destruct (add_ok (output bev) data Hm (co_output _ _ Hc) Hf2 Hs Hd) as (buf & Hadd & Happ).
  destruct (appended_facts _ _ _ Happ) as (Hp & Hcon & Hfs & Hfe & Ht). pose proof (co_output_shape _ _ Hc) as Hsh.
  assert (Hlen : zlen data <> 0) by (by rewrite zlen_nil_iff).
  assert (Hch : changed (output bev) (zlen data) 0 buf) by (destruct Happ as (cs & lwd & -> & _); by apply (add_count_changed _ _ _ cs lwd (total_len (output bev) + zlen data) (os_counts _ Hsh) Hlen)).
  unfold bufferevent_write. apply wp_bind, (wp_on_output Hev b _ bev 0 buf (zlen data) 0); [done | done | exact Hsh | done|].
  rewrite (proj2 (Z.eqb_neq _ _) Hlen). intros n. apply wp_ret. split; [done|]. destruct (output_changed_shape _ _ _ _ Hsh Hch) as [Hsh' _].
  destruct (output_set_ok _ _ _ buf bev Hb Hp) as [Hok Hli]; [by rewrite Hfs | by rewrite Hfe | done|]. split; [by apply (world_set v w b bev)|].
  eexists. split; [apply bevs_set|]. by rewrite out_check_output.
Qed.

Lemma wm_check_contents bev buf : input (wm_check (bev <| input := buf |>)) = buf.
Proof.
  unfold wm_check. destruct (_ =? 0); [done|]. destruct (_ <=? _); [unfold suspend_bev; destruct (_ =? 0); done|].
  unfold unsuspend_bev. by destruct (_ && _).
Qed.

(** The buffer after data was received or taken out. *)
Lemma input_changed_frame buf a d buf' : changed buf a d buf' -> freeze_start buf' = freeze_start buf /\ freeze_end buf' = freeze_end buf.
Proof. intros (_ & cs & lwd & tl & ->). by destruct (invoke_frame (set_counts (set_chains buf cs lwd tl) a d)) as (_ & _ & _ & -> & -> & _). Qed.

Lemma wp_read v b bev n w : world_ok v w -> bevs w !! b = Some bev -> 0 <= n <= INT_MAX ->
  wp (bufferevent_read b n) (fun r w' => world_ok v w' /\ snd r = ztake n (contents (input bev)) /\ fst r = zlen (snd r) /\
    exists bev', bevs w' !! b = Some bev' /\ contents (input bev') = zdrop n (contents (input bev))) w.
Proof using Hev.
  intros Hw Eb Hn. pose proof (wo_bevs _ _ Hw b bev Eb) as Hb. pose proof (bo_core _ _ _ _ Hb) as Hc.
  pose proof (co_input _ _ Hc) as Hi. cbn in Hi. destruct (co_input_freeze _ _ Hc) as [Hf1 Hf2]. cbn in Hf1, Hf2. pose proof (co_input_shape _ _ Hc) as Hsh.
  pose proof (vd_total _ (input_valid _ Hi)) as Ht. pose proof (zlen_nonneg (contents (input bev))) as Hz. pose proof int_max_ssize as Hmax.
  assert (Hlen : zlen (ztake n (contents (input bev))) = Z.min n (total_len (input bev))).
  { unfold zlen, ztake. rewrite length_take. unfold zlen in Ht. lia. }
  assert (Hr : wrap size_bits (Z.min n (total_len (input bev))) = Z.min n (total_len (input bev))) by (apply ssize_wrap; rewrite ssize_double; lia).
  destruct (input_remove (input bev) n Hi Hf1 ltac:(lia) ltac:(lia)) as (buf & Hrm & [[-> Hzero]|[Hpos Hdr]]).
  - apply wp_bind, (wp_on_input_quiet b _ bev (Z.min n (total_len (input bev)), ztake n (contents (input bev))) (input bev)); [done | by rewrite Hrm | done|].
    intros k. apply wp_ret. assert (bev <| input := input bev |> = bev) as -> by by destruct bev. rewrite set_bev_id by done. cbn [fst snd].
    rewrite Hr, Hlen. splits; [by apply world_bump | done | done|]. exists bev. split; [done|].
    destruct (Z.min_spec n (total_len (input bev))) as [[_ Hx]|[_ Hx]]; rewrite Hx in Hzero; [by rewrite zdrop_0 by lia|].
    assert (contents (input bev) = []) as -> by (apply zlen_nil_iff; lia). by rewrite zdrop_ge by (unfold zlen; cbn; lia).
  - destruct Hdr as (Hi' & Hcon & cs & lwd & Hbuf). set (k := Z.min n (total_len (input bev))) in *.
    assert (Hch : changed (input bev) 0 k buf) by (apply (del_count_changed _ _ _ cs lwd (total_len (input bev) - k) (is_counts _ _ _ Hsh)); [lia | done]).
    destruct (input_changed_shape _ _ _ _ _ _ Hsh Hch) as [Hsh' _]. destruct (input_changed_frame _ _ _ _ Hch) as [Hfs Hfe].
    apply wp_bind, (wp_on_input Hev b _ bev (k, ztake n (contents (input bev))) buf 0 k); [done | by rewrite Hrm | done | done|].
    intros j. apply wp_ret. cbn [fst snd]. rewrite Hr, Hlen. destruct (input_set_ok _ _ _ buf bev Hb Hi') as [Hok Hli]; [by rewrite Hfs | by rewrite Hfe | done|].
    splits; [by apply (world_set v w b bev) | done | done|]. eexists. split; [apply bevs_set|]. rewrite wm_check_contents, Hcon. unfold k.
    destruct (Z.min_spec n (total_len (input bev))) as [[_ ->]|[Hle ->]]; [done|]. by rewrite !zdrop_ge by lia.
Qed.
End acts.
