(* ===== verification/BevTransfer.v ===== *)
(** The callbacks of the read and write events: how much they transfer, what becomes of the
    data, the end of connecting, and that the limits are kept. *)

From stdpp Require Import gmap.
From S2P Require Import Prelude StateOp MinHeap EvChain Evbuffer EvbufferSpec EvbufferProps EvExpand EvIO EvSpace EvSocket EventData EventCore TokenBucket Bev RateLimit BevSocket BevInv BevWorld BevGroups BevLimits BevActs.

Section reading.
Context {A : Arch} {M : Allocator} {E : BevEnv} (Hev : events_ok).

(** ** Views that agree *)

Lemma world_view v v' w : (forall b, holds v' b = holds v b) -> (forall b, broken v' b = broken v b) -> world_ok v w -> world_ok v' w.
Proof.
  intros Hh Hb Hw. split; try apply Hw.
  - intros b bev Eb. rewrite Hb. by apply (wo_bevs _ _ Hw).
  - intros b. rewrite Hh. apply Hw.
  - intros b bev Eb. rewrite Hh. by apply (wo_refcnt _ _ Hw).
Qed.

(** A handler takes a reference while it runs, and releases it in the end. *)
Definition with_ref (bev : bufferevent) : bufferevent := bev <| bev_refcnt := bev_refcnt bev + 1 |>.

Lemma wp_incref v b bev (Q : unit -> world -> Prop) w : world_ok v w -> bevs w !! b = Some bev ->
  (world_ok (hold b 1 v) (set_bev b (with_ref bev) w) -> Q tt (set_bev b (with_ref bev) w)) -> wp (bufferevent_incref b) Q w.
Proof.
  intros Hw Eb HQ. apply (wp_update_bev _ _ bev); [done|]. apply HQ.
  destruct (wo_refcnt _ _ Hw b bev Eb) as [Hr Hp], (wo_refs _ _ Hw b) as [Hn _].
  apply (world_hold v w b bev 1 (counts w)); (done || lia).
Qed.

Lemma wp_release {T} v b (x : T) (Q : T -> world -> Prop) w : world_ok (hold b 1 v) w -> 0 <= holds v b ->
  (forall w', world_ok v w' -> (0 < holds v b -> calm w w') -> Q x w') -> wp (let! _ := _bufferevent_decref_and_unlock b in ret x) Q w.
Proof using Hev.
  intros Hw Hh HQ. apply wp_bind. eapply wp_mono.
  - apply (wp_decref Hev (hold b 1 v) b); [exact Hw|]. cbn. rewrite decide_True by done. lia.
  - intros r w3 [Hw3 Hc]. apply wp_ret, HQ.
    + apply (world_view (hold b (-1) (hold b 1 v))); [|done|done]. intros b'. cbn. case_decide; lia.
    + intros Hpos. apply Hc. cbn. rewrite decide_True by done. lia.
Qed.

Lemma held_alive v b w : world_ok (hold b 1 v) w -> 0 <= holds v b -> is_Some (bevs w !! b).
Proof. intros Hw Hh. apply (wo_refs _ _ Hw b). cbn. rewrite decide_True by done. lia. Qed.

(** ** How much to read *)

Lemma ssize_small_swrap z : - EV_SSIZE_MAX - 1 <= z <= EV_SSIZE_MAX -> swrap size_bits z = z.
Proof. apply ssize_swrap. Qed.

(** The limit of a bufferevent, and a bound for it. *)
Definition limit_at_most (w : world) (d : direction) (bev bev' : bufferevent) (n : Z) : Prop :=
  forall rl c cf, rate_limiting bev = Some rl -> cfg rl = Some c -> cfgs w !! c = Some cf ->
    exists t rl', ev_token_bucket_get_tick (now w) cf = Some t /\ rate_limiting bev' = Some rl' /\ cfg rl' = cfg rl /\
      limit d (bucket rl') + n <= limit d (bucket (filled_up cf t rl)).

Lemma tick_defined v w c cf : world_ok v w -> cfgs w !! c = Some cf -> exists t, ev_token_bucket_get_tick (now w) cf = Some t.
Proof.
  intros Hw Ecf. pose proof (cfg_tick _ (lo_cfg _ (wo_cfgs _ _ Hw c cf Ecf))) as Ht. unfold ev_token_bucket_get_tick.
  destruct (Z.eqb_spec (msec_per_tick cf) 0); [lia|]. by eexists.
Qed.

Lemma limit_same v w d b bev bev' : world_ok v w -> bevs w !! b = Some bev -> rate_limiting bev' = rate_limiting bev -> limit_at_most w d bev bev' 0.
Proof.
  intros Hw Eb El rl c cf Erl Ec Ecf. destruct (tick_defined v w c cf Hw Ecf) as [t Ht]. exists t, rl. splits; try done; [congruence|].
  destruct (co_rlim _ _ (bo_core _ _ _ _ (wo_bevs _ _ Hw b bev Eb)) rl Erl c Ec) as (_ & cf' & Ecf' & Hlo & Hlev). assert (cf' = cf) as -> by congruence.
  pose proof (filled_up_limit cf t rl d (lo_cfg _ Hlo) Hlev). lia.
Qed.

Lemma rlim_max_limit d w br bev r bev' : rlim_max d w br bev r bev' -> limit_at_most w d bev bev' 0.
Proof.
  intros Hx rl c cf Erl Ec Ecf. pose proof (rx_limit _ _ _ _ _ _ Hx) as H. rewrite Erl, Ec in H. destruct H as (cf' & t & Ecf' & Ht & El & _).
  assert (cf' = cf) as -> by congruence. exists t, (filled_up cf t rl). splits; try done. lia.
Qed.

(** Reading is not suspended, and the high watermark is not reached. *)
Definition below_high (bev : bufferevent) : Prop :=
  read_suspended bev = 0 /\ (high (wm_read bev) = 0 \/ total_len (input bev) < high (wm_read bev)).

(** The answer of [read_howmuch]: nothing, for the watermark is reached, or an amount that
    respects watermark and limits. *)
Record howmuch_ok (w : world) (br : bool) (bev : bufferevent) (o : option Z) (bev' : bufferevent) : Prop := {
  hm_ok : bev_ok (groups w) (cfgs w) br bev';
  hm_links : links bev' = links bev;
  hm_io : io_part bev' = io_part bev;
  hm_limit : limit_at_most w Reading bev bev' 0;
  hm_go : below_high bev -> is_Some o /\ read_suspended bev' = 0;
  hm_amount : match o with
    | None => True
    | Some n => 0 <= n <= INT_MAX /\ (read_suspended bev' = 0 -> 0 < n) /\
        (high (wm_read bev) <> 0 -> n <= high (wm_read bev) - total_len (input bev)) /\
        (read_suspended bev' = 0 -> forall rl, rate_limiting bev' = Some rl -> is_Some (cfg rl) -> n <= limit Reading (bucket rl))
    end }.

Lemma wp_read_howmuch v b bev w (Q : option Z -> world -> Prop) : world_ok v w -> bevs w !! b = Some bev -> total_len (input bev) <= EV_SSIZE_MAX ->
  (forall o bev', howmuch_ok w (broken v b) bev o bev' -> with_bev Q o b w bev') -> wp (read_howmuch b) Q w.
Proof using Hev.
  intros Hw Eb Hlen HQ. pose proof (wo_bevs _ _ Hw b bev Eb) as Hb. pose proof (bo_core _ _ _ _ Hb) as Hc.
  pose proof (co_high _ _ Hc) as Hh. cbn in Hh. pose proof (vd_total _ (input_valid _ (co_input _ _ Hc))) as Ht. cbn in Ht. pose proof (zlen_nonneg (contents (input bev))) as Hz.
  unfold read_howmuch. apply wp_bind, (wp_the_bev _ bev); [done|]. unfold evbuffer_get_length.
  rewrite ssize_swrap by lia. set (hm := if negb (high (wm_read bev) =? 0) then high (wm_read bev) - total_len (input bev) else -1).
  destruct (negb (high (wm_read bev) =? 0) && (hm <=? 0)) eqn:Ew.
  - apply andb_true_iff in Ew as [Hnz%negb_true_iff Hle%Z.leb_le]. unfold hm in Hle. rewrite Hnz in Hle. cbn [negb] in Hle. apply Z.eqb_neq in Hnz.
    apply wp_bind, (wp_suspend Hev Reading b _ bev); [done|]. intros n. apply wp_ret, HQ. split; try done; [| by rewrite links_suspend | by rewrite io_suspend | |].
    + destruct Hb. apply suspend_ok; auto with bev. split; [|done]. intros _ _. split; [done|]. split; [done | lia].
    + apply (limit_same v w _ b); [done | done | by rewrite rate_limiting_suspend].
    + intros [_ Hbelow]. lia.
  - apply wp_bind, (wp_get_rlim_max Hev v Reading b bev); [done..|]. intros r bev' Hx n. apply wp_ret, HQ.
    destruct (rx_range _ _ _ _ _ _ Hx) as [Hr1 Hr2]. pose proof (rx_positive _ _ _ _ _ _ Hx) as Hp. cbn [suspended] in Hp.
    assert (Hn : 0 <= (if (hm <? 0) || (r <? hm) then r else hm) <= r /\ (0 < r -> 0 < (if (hm <? 0) || (r <? hm) then r else hm)) /\
      (high (wm_read bev) <> 0 -> (if (hm <? 0) || (r <? hm) then r else hm) <= high (wm_read bev) - total_len (input bev))).
    { unfold hm in *. destruct (Z.eqb_spec (high (wm_read bev)) 0); cbn [negb andb] in *; [cbn; lia|]. apply Z.leb_gt in Ew.
      rewrite (proj2 (Z.ltb_ge _ 0)) by lia. cbn [orb]. destruct (Z.ltb_spec r (high (wm_read bev) - total_len (input bev))); lia. }
    destruct Hn as (Hn1 & Hn2 & Hn3). split; [apply Hx | apply Hx | apply Hx | by apply (rlim_max_limit _ _ (broken v b) _ r)| intros [Hbs _]; split; [by eexists | by apply (rx_still _ _ _ _ _ _ Hx)] |].
    split; [lia|]. split; [intros Hs; by apply Hn2, Hp|]. split; [done|]. intros Hs rl' Hrl' Hc'.
    pose proof (rx_limit _ _ _ _ _ _ Hx) as Hlim. destruct (rate_limiting bev) as [rl|]; [|congruence]. destruct (cfg rl) as [c|] eqn:Ec.
    + destruct Hlim as (cf & t & _ & _ & El & Hle). assert (rl' = filled_up cf t rl) as -> by congruence. specialize (Hle Hs). lia.
    + assert (rl' = rl) as -> by congruence. rewrite Ec in Hc'. by destruct Hc'.
Qed.

(** ** The data arrives *)

Definition thaw (buf : evbuffer) : evbuffer := set_freeze buf (freeze_start buf) false.
Definition freeze (buf : evbuffer) : evbuffer := set_freeze buf (freeze_start buf) true.

Lemma input_ok_freeze buf x y : input_ok buf -> input_ok (set_freeze buf x y).
Proof. by apply input_ok_same. Qed.

(** The bufferevent after [socket_read] has received [d]; [go] says when it must have. *)
Record received_into (go : Prop) (recv : list Z -> recv_result) (w : world) (bev : bufferevent) (r : io_end) (d : list Z) (bev' : bufferevent) : Prop := {
  ri_heard : go -> mem_ok -> heard recv d;
  ri_contents : contents (input bev') = contents (input bev) ++ d;
  ri_high : high (wm_read bev) <> 0 -> d <> [] -> zlen (contents (input bev')) <= high (wm_read bev);
  ri_limit : limit_at_most w Reading bev bev' 0;
  ri_end : match r with
    | Reached n => n = zlen d /\ 0 < n <= EVBUFFER_MAX_READ /\
        forall rl, rate_limiting bev' = Some rl -> is_Some (cfg rl) -> n <= limit Reading (bucket rl)
    | _ => d = []
    end;
  ri_solvent : match r with Reached _ => solvent (groups w) Reading bev' | _ => True end }.

Lemma solvent_same gs d bev bev' : rate_limiting bev' = rate_limiting bev -> solvent gs d bev -> solvent gs d bev'.
Proof. unfold solvent, group_of. by intros ->. Qed.

Lemma rate_limiting_wm_check bev : rate_limiting (wm_check bev) = rate_limiting bev.
Proof. unfold wm_check. destruct (_ =? 0); [done|]. destruct (_ <=? _); [apply rate_limiting_suspend | apply rate_limiting_unsuspend]. Qed.

Lemma shape_freeze wm h buf x y : input_shape wm h buf -> input_shape wm h (set_freeze buf x y).
Proof. intros []. by split. Qed.

Lemma io_part_eq bev bev' : io_part bev' = io_part bev -> input bev' = input bev /\ output bev' = output bev /\ wm_read bev' = wm_read bev /\
  wm_write bev' = wm_write bev /\ enabled bev' = enabled bev /\ connecting bev' = connecting bev /\ read_watermarks_cb bev' = read_watermarks_cb bev.
Proof. by intros [= -> -> -> -> -> -> ->]. Qed.

Lemma wp_socket_read v b bev readable recv retriable w : world_ok v w -> bevs w !! b = Some bev -> recv_ok recv ->
  total_len (input bev) <= EV_SSIZE_MAX ->
  wp (socket_read b readable recv retriable) (fun r w' => world_ok v w' /\ groups w' = groups w /\
    exists bev' d, bevs w' !! b = Some bev' /\ received_into (below_high bev) recv w bev r d bev') w.
Proof using Hev.
  intros Hw Eb Hrecv Hlen. unfold socket_read. apply wp_bind, (wp_read_howmuch v b bev); [done..|]. intros o bev1 [Hok Hli Hio Hlim Hgo Ham] n1.
  set (w1 := bump n1 _). assert (Hw1 : world_ok v w1) by (by apply (world_set v w b bev)). assert (Eb1 : bevs w1 !! b = Some bev1) by apply bevs_set.
  destruct (io_part_eq _ _ Hio) as (I1 & _ & I3 & _ & _ & _ & I7).
  assert (Hnone : forall w2, world_ok v w2 -> groups w2 = groups w -> forall bev2, bevs w2 !! b = Some bev2 -> contents (input bev2) = contents (input bev) ->
    rate_limiting bev2 = rate_limiting bev1 -> forall r, (match r with Reached _ => False | _ => True end) -> (below_high bev -> mem_ok -> heard recv []) ->
    world_ok v w2 /\ groups w2 = groups w /\ exists bev' d, bevs w2 !! b = Some bev' /\ received_into (below_high bev) recv w bev r d bev').
  { intros w2 Hw2 Hg2 bev2 Eb2 Hcon Hrl r Hr Hheard. split; [done|]. split; [done|]. exists bev2, []. split; [done|].
    split; [done | by rewrite app_nil_r | done | unfold limit_at_most in *; by rewrite Hrl | by destruct r | by destruct r]. }
  destruct o as [howmuch|]; [|apply wp_ret; apply (Hnone w1 Hw1 eq_refl bev1); [done | by rewrite I1 | done | done | by intros [[? [=]] _]%Hgo]].
  destruct Ham as (Hm1 & Hm2 & Hm3 & Hm4). apply wp_bind, (wp_the_bev _ bev1); [done|].
  destruct (Z.eqb_spec (read_suspended bev1) 0) as [Hs|Hs]; cbn [negb]; [|apply wp_ret; apply (Hnone w1 Hw1 eq_refl bev1); [done | by rewrite I1 | done | done | by intros [_ ?]%Hgo]].
  specialize (Hm2 Hs). specialize (Hm4 Hs). pose proof (bo_core _ _ _ _ Hok) as Hc. pose proof (co_input _ _ Hc) as Hi. cbn in Hi.
  destruct (co_input_freeze _ _ Hc) as [Hf1 Hf2]. cbn in Hf1, Hf2. pose proof (co_input_shape _ _ Hc) as Hsh. cbn in Hsh.
  unfold freeze_input. apply wp_bind, (wp_update_bev _ _ bev1); [done|]. fold (thaw (input bev1)). set (bev2 := bev1 <| input := thaw (input bev1) |>).
  rewrite (swrap_small 32) by (unfold INT_MAX in *; lia).
  destruct (evbuffer_read_appends (thaw (input bev1)) readable recv howmuch (input_ok_freeze _ _ _ Hi) eq_refl Hrecv ltac:(lia)) as (r & buf & Hread & Hres).
  destruct Hres as [(Hr & (Hi' & Hcon & cs & Hbuf) & Hheard)|(d & Hheard & Hrd & Hrange & Hi' & Hcon & cs & lwd & Hbuf)].
  - assert (Hfr : freeze_start buf = false /\ cb_calls buf = cb_calls (input bev1) /\ input_shape (read_watermarks_cb bev1) (high (wm_read bev1)) (freeze buf) /\ total_len buf = total_len (input bev1)).
    { rewrite Hbuf. splits; [done | done | | done]. by destruct Hsh. }
    destruct Hfr as (F1 & F2 & F3 & F4). eapply wp_bind, wp_on_input_quiet; [apply bevs_now | exact Hread | exact F2 |]. intros n2.
    rewrite set_bev_twice. eapply wp_bind, wp_update_bev; [apply bevs_set|]. rewrite set_bump. set (bev3 := (bev2 <| input := buf |>) <| input := _ |>).
    assert (Hok3 : bev_ok (groups w) (cfgs w) (broken v b) bev3) by (apply (input_same_ok _ _ _ (freeze buf) bev1); [done | by apply input_ok_freeze | done | done | done | done]).
    assert (Hw3 : forall n, world_ok v (bump n (set_bev b bev3 w1))) by (intros n; by apply (world_set v w1 b bev1)).
    assert (Hend : forall e, (match e with Reached _ => False | _ => True end) -> wp (ret e) (fun r w' => world_ok v w' /\ groups w' = groups w /\
      exists bev' d, bevs w' !! b = Some bev' /\ received_into (below_high bev) recv w bev r d bev') (bump n2 (set_bev b bev3 w1))).
    { intros e He. apply wp_ret. apply (Hnone _ (Hw3 n2) eq_refl bev3); [apply bevs_set | | done | done | done].
      change (contents (input bev3)) with (contents buf). rewrite Hcon. change (contents (thaw (input bev1))) with (contents (input bev1)). by rewrite I1. }
    destruct Hr as [-> | ->]; cbn [Z.eqb]; [by apply Hend | destruct retriable; by apply Hend].
  - assert (Hzd : zlen d <> 0) by lia. pose proof (shape_freeze _ _ _ (freeze_start (input bev1)) false Hsh) as Hsh2. fold (thaw (input bev1)) in Hsh2.
    assert (Hch : changed (thaw (input bev1)) (zlen d) 0 buf) by (by apply (add_count_changed _ _ _ cs lwd (total_len (thaw (input bev1)) + zlen d) (is_counts _ _ _ Hsh2))).
    destruct (input_changed_shape _ _ _ _ _ _ Hsh2 Hch) as [Hsh3 _]. destruct (input_changed_frame _ _ _ _ Hch) as [Hfs Hfe].
    eapply wp_bind, (wp_on_input Hev); [apply bevs_now | exact Hread | exact Hsh2 | exact Hch |]. intros n2. rewrite set_bev_twice.
    eapply wp_bind, wp_update_bev; [apply bevs_set|]. rewrite set_bump, wm_check_contents.
    rewrite (wm_check_input (bev2 <| input := buf |>) (set_freeze buf (freeze_start buf) true)) by done. fold (freeze buf).
    change ((bev2 <| input := buf |>) <| input := freeze buf |>) with (bev1 <| input := freeze buf |>). set (bev3 := wm_check _).
    destruct (input_set_ok _ _ _ (freeze buf) bev1 Hok (input_ok_freeze _ _ _ Hi') (eq_trans Hfs Hf1) eq_refl (shape_freeze _ _ _ _ _ Hsh3)) as [Hok3 Hli3].
    rewrite (proj2 (Z.eqb_neq r (-1))), (proj2 (Z.eqb_neq r 0)) by lia. apply wp_ret.
    split; [by apply (world_set v w1 b bev1)|]. split; [done|]. exists bev3, d. split; [apply bevs_set|].
    assert (Hrl3 : rate_limiting bev3 = rate_limiting bev1) by exact (rate_limiting_wm_check (bev1 <| input := freeze buf |>)).
    pose proof (read_amount_le readable howmuch ltac:(lia)) as Hle. pose proof (read_amount_range readable howmuch ltac:(lia)) as Hle2.
    assert (Hcon3 : contents (input bev3) = contents (input bev) ++ d).
    { unfold bev3. rewrite wm_check_contents. change (contents (freeze buf)) with (contents buf). rewrite Hcon. by rewrite <- I1. }
    pose proof (vd_total _ (input_valid _ Hi)) as Ht. rewrite I1 in Ht.
    split; [done | done | | unfold limit_at_most in *; by rewrite Hrl3 | split; [done|]; split; [lia|]; rewrite Hrl3; intros rl Hrl Hcf; specialize (Hm4 rl Hrl Hcf); lia | ].
    + intros Hh _. specialize (Hm3 Hh). rewrite Hcon3, zlen_app. lia.
    + apply (solvent_same _ _ bev1); [done|]. by apply (unsuspended_solvent v w1 b).
Qed.

(** ** The whole callback *)

(** What has become of [b] when [d] has been read into it: the input, up to the high
    watermark, and the tokens that were paid. *)
Definition has_read (w : world) (b : nat) (bev : bufferevent) (d : list Z) (w' : world) : Prop :=
  exists bev', bevs w' !! b = Some bev' /\ contents (input bev') = contents (input bev) ++ d /\
    (high (wm_read bev) <> 0 -> d <> [] -> zlen (contents (input bev')) <= high (wm_read bev)) /\
    limit_at_most w Reading bev bev' (zlen d).

Lemma still_fields bev bev' : still bev' = still bev -> input bev' = input bev /\ output bev' = output bev /\ rate_limiting bev' = rate_limiting bev /\
  wm_read bev' = wm_read bev.
Proof.
  intros H. splits; [apply (f_equal input) in H | apply (f_equal output) in H | apply (f_equal rate_limiting) in H | apply (f_equal wm_read) in H]; exact H.
Qed.

Lemma has_read_calm w b bev d w1 w2 : has_read w b bev d w1 -> calm w1 w2 -> has_read w b bev d w2.
Proof.
  intros (bev' & Eb & Hc & Hh & Hl) (_ & _ & Hcalm). destruct (Hcalm b bev' Eb) as (bev2 & Eb2 & Hs). destruct (still_fields _ _ Hs) as (S1 & _ & S3 & _).
  exists bev2. unfold limit_at_most in *. by rewrite S1, S3.
Qed.

(** The tokens are taken out of the bucket. *)
Lemma paid_limit v w d b bev n rl c : world_ok v w -> bevs w !! b = Some bev -> rate_limiting bev = Some rl -> cfg rl = Some c -> 0 <= n <= INT_MAX ->
  0 < limit d (bucket rl) -> limit d (take_tokens d n (bucket rl)) = limit d (bucket rl) - n.
Proof.
  intros Hw Eb El Ec Hn Hp. destruct (co_rlim _ _ (bo_core _ _ _ _ (wo_bevs _ _ Hw b bev Eb)) rl El c Ec) as (_ & cf & _ & Hlo & Hlev).
  by apply (level_take d n (bucket rl) cf).
Qed.

Lemma wp_after_read v b go recv w1 w bev r bev1 d : world_ok v w -> bevs w !! b = Some bev1 -> groups w = groups w1 -> received_into go recv w1 bev r d bev1 ->
  wp (match r with
      | Reached res =>
        let! _ := _bufferevent_decrement_read_buckets b res in
        let! bev := the_bev b in
        when (low (wm_read bev) <=? evbuffer_get_length (input bev)) (_bufferevent_run_readcb b)
      | Failed what => let! _ := bufferevent_disable b EV_READ in _bufferevent_run_eventcb b (Z.lor BEV_EVENT_READING what)
      | Nothing => ret tt
      end) (fun _ w' => world_ok v w' /\ has_read w1 b bev d w') w.
Proof using Hev.
  intros Hw Eb Eg [_ Hc Hh Hl He Hs]. assert (Hquiet : d = [] -> forall w2 bev2, bevs w2 !! b = Some bev2 -> input bev2 = input bev1 ->
    rate_limiting bev2 = rate_limiting bev1 -> has_read w1 b bev d w2).
  { intros -> w2 bev2 Eb2 Hi Hr. exists bev2. unfold limit_at_most in *. rewrite Hi, Hr. splits; done. }
  destruct r as [n|what|].
  - destruct He as (-> & Hn & Hle). unfold EVBUFFER_MAX_READ in Hn. assert (Hn' : 0 <= zlen d <= INT_MAX) by (unfold INT_MAX; lia).
    rewrite <- Eg in Hs. apply wp_bind. eapply wp_mono; [by apply (wp_decrement_buckets Hev v Reading b bev1 (zlen d) w)|].
    intros x w2 [Hw2 (bev2 & Eb2 & Hli2 & Hio2 & Hpaid)]. destruct (io_part_eq _ _ Hio2) as (I1 & _).
    assert (Hread : has_read w1 b bev d w2).
    { exists bev2. rewrite I1. splits; [done | done | done|]. intros rl c cf Erl Ec Ecf. destruct (Hl rl c cf Erl Ec Ecf) as (t & rl1 & Ht & El1 & Ec1 & Hlim).
      assert (Hs1 : is_Some (cfg rl1)) by (rewrite Ec1; by exists c). destruct (Hpaid rl1 El1 Hs1) as (rl2 & El2 & Hb2 & Ec2).
      exists t, rl2. splits; [done | done | congruence |]. rewrite Hb2, (paid_limit v w Reading b bev1 (zlen d) rl1 c); [lia | done | done | done | congruence | done |].
      by apply (proj1 Hs). }
    apply wp_bind, (wp_the_bev _ bev2); [done|]. apply wp_when; [|done]. intros _.
    eapply wp_mono; [apply (wp_run_readcb v b); [done | by exists bev2]|]. intros y w3 [Hw3 Hcalm]. split; [done|]. by apply (has_read_calm _ _ _ _ w2).
  - apply wp_bind, (wp_disable Hev _ _ bev1); [done|]. intros k. set (w2 := bump k _). assert (Hw2 : world_ok v w2) by (by apply world_disable).
    eapply wp_mono; [apply (wp_run_eventcb v b); [done | exists (disable_bev EV_READ bev1); apply bevs_set]|]. intros y w3 [Hw3 Hcalm]. split; [done|].
    apply (has_read_calm _ _ _ _ w2); [|done]. pose proof (quiet_disable EV_READ bev1) as Hq. apply (Hquiet He _ (disable_bev EV_READ bev1)); [apply bevs_set| |].
    + exact (f_equal (fun q => q.1.1.1.1.1.1.1.1) Hq).
    + exact (f_equal (fun q => q.1.1.1.2) Hq).
  - apply wp_ret. split; [done|]. by apply (Hquiet He _ bev1).
Qed.

(** The callback of the read event: what arrives is appended to the input, within the high
    watermark, and paid for from the bucket. *)
Lemma wp_readcb v b bev event readable recv retriable w : world_ok v w -> bevs w !! b = Some bev -> recv_ok recv -> total_len (input bev) <= EV_SSIZE_MAX ->
  wp (bufferevent_readcb b event readable recv retriable)
    (fun _ w' => world_ok v w' /\ (0 < holds v b -> exists d, has_read w b bev d w' /\ (event <> EV_TIMEOUT -> below_high bev -> mem_ok -> heard recv d))) w.
Proof using Hev.
  intros Hw Eb Hrecv Hlen. destruct (wo_refs _ _ Hw b) as [Hn _]. unfold bufferevent_readcb. apply wp_bind, (wp_incref v b bev); [done..|]. intros Hw1.
  set (w1 := set_bev b (with_ref bev) w) in *. assert (Eb1 : bevs w1 !! b = Some (with_ref bev)) by apply bevs_now.
  apply wp_bind. eapply (wp_mono _ (fun r w2 => world_ok (hold b 1 v) w2 /\ groups w2 = groups w1 /\ exists bev' d, bevs w2 !! b = Some bev' /\ received_into (event <> EV_TIMEOUT /\ below_high bev) recv w1 (with_ref bev) r d bev')).
  - destruct (Z.eqb_spec event EV_TIMEOUT) as [Et|Et].
    + apply wp_ret. split; [done|]. split; [done|]. exists (with_ref bev), []. split; [done|]. split; try done; [by intros [? _] | by rewrite app_nil_r |].
      by apply (limit_same (hold b 1 v) w1 _ b (with_ref bev)).
    + eapply wp_mono; [by apply (wp_socket_read (hold b 1 v) b (with_ref bev))|]. intros r w2 (Hw2 & Hg2 & bev2 & d & Eb2 & []). splits; [done..|].
      exists bev2, d. split; [done|]. split; try done. intros [_ ?]. auto.
  - intros r w2 (Hw2 & Hg2 & bev2 & d & Eb2 & Hri). apply wp_bind. eapply wp_mono; [by apply (wp_after_read (hold b 1 v) b (event <> EV_TIMEOUT /\ below_high bev) recv w1 w2 (with_ref bev) r bev2 d)|].
    intros u w3 [Hw3 Hread]. apply (wp_release v b); [done | done|]. intros w4 Hw4 Hcalm. split; [done|]. intros Hp. exists d.
    split; [by apply (has_read_calm _ _ _ _ w3); [|apply Hcalm]|]. intros He Hb. by apply (ri_heard _ _ _ _ _ _ _ Hri).
Qed.
End reading.

Section writing.
Context {A : Arch} {M : Allocator} {E : BevEnv} (Hev : events_ok).

(** What has become of [b] when [n] bytes of its output were sent. *)
Definition has_written (w : world) (b : nat) (bev : bufferevent) (n : Z) (w' : world) : Prop :=
  exists bev', bevs w' !! b = Some bev' /\ contents (output bev') = zdrop n (contents (output bev)) /\ 0 <= n <= zlen (contents (output bev)) /\
    limit_at_most w Writing bev bev' n.

Lemma has_written_calm w b bev n w1 w2 : has_written w b bev n w1 -> calm w1 w2 -> has_written w b bev n w2.
Proof.
  intros (bev' & Eb & Hc & Hn & Hl) (_ & _ & Hcalm). destruct (Hcalm b bev' Eb) as (bev2 & Eb2 & Hs). destruct (still_fields _ _ Hs) as (_ & S2 & S3 & _).
  exists bev2. unfold limit_at_most in *. by rewrite S2, S3.
Qed.

Lemma has_written_same w b bev n w1 w2 bev1 bev2 : has_written w b bev n w1 -> bevs w1 !! b = Some bev1 -> bevs w2 !! b = Some bev2 ->
  output bev2 = output bev1 -> rate_limiting bev2 = rate_limiting bev1 -> has_written w b bev n w2.
Proof.
  intros (bev' & Eb & Hc & Hn & Hl) E1 E2 Ho Hr. assert (bev' = bev1) as -> by congruence. exists bev2. unfold limit_at_most in *. by rewrite Ho, Hr.
Qed.

(** ** Nothing left *)

Definition when_empty (bev : bufferevent) : bufferevent := if total_len (output bev) =? 0 then del_ev Writing bev else bev.

Lemma when_empty_ok gs cs br bev : bev_ok gs cs br bev -> bev_ok gs cs br (when_empty bev) /\ links (when_empty bev) = links bev.
Proof.
  intros Hb. unfold when_empty. destruct (Z.eqb_spec (total_len (output bev)) 0) as [Hz|]; [|done]. split; [|done].
  apply (bev_ok_quiet _ _ br _ bev); [done | | done]. destruct (bo_events _ _ _ _ Hb) as [H1 H2 H3 H4 H5]. split; try done.
  intros _ _ Hl. cbn in Hl. lia.
Qed.

Lemma wp_stop_when_empty v b bev w : world_ok v w -> bevs w !! b = Some bev ->
  wp (stop_when_empty b) (fun _ w' => world_ok v w' /\ bevs w' !! b = Some (when_empty bev)) w.
Proof using Hev.
  intros Hw Eb. unfold stop_when_empty. apply wp_bind, (wp_the_bev _ bev); [done|]. unfold evbuffer_get_length.
  destruct (when_empty_ok _ _ _ _ (wo_bevs _ _ Hw b bev Eb)) as [Hok Hli]. unfold when_empty in *. apply wp_when; intros Hz; rewrite Hz in *.
  - apply wp_bind, (wp_event_del Hev b Writing bev); [done|]. intros n. apply wp_ret. split; [by apply (world_set v w b bev) | apply bevs_set].
  - by split.
Qed.

Lemma when_empty_fields bev : output (when_empty bev) = output bev /\ rate_limiting (when_empty bev) = rate_limiting bev /\ input (when_empty bev) = input bev.
Proof. unfold when_empty. by destruct (_ =? 0). Qed.

(** ** Sending *)

Lemma output_frozen buf : freeze_start buf = true -> set_freeze (set_freeze buf false (freeze_end buf)) true (freeze_end buf) = buf.
Proof. destruct buf. cbn. by intros ->. Qed.

Lemma oshape_freeze buf x y : output_shape buf -> output_shape (set_freeze buf x y).
Proof. intros []. by split. Qed.

Lemma packed_freeze buf x y : packed buf -> packed (set_freeze buf x y).
Proof. intros []. by split. Qed.

(** There is something to send, and it may be sent. *)
Definition sendable (bev : bufferevent) : Prop := write_suspended bev = 0 /\ total_len (output bev) <> 0.

(** The socket was offered the front of the data and accepted [n] bytes. *)
Definition offered (send : list (list Z) -> Z) (data : list Z) (n : Z) : Prop :=
  exists vs k, vs <> [] /\ concat vs = ztake k data /\ n = Z.max 0 (send vs).

(** The result of [socket_write] for the rest of the callback; [go] says when the socket
    must have been offered the data. *)
Definition sent (go : Prop) (send : list (list Z) -> Z) (w : world) (b : nat) (bev : bufferevent) (w' : world) : Prop :=
  exists n, has_written w b bev n w' /\ (go -> offered send (contents (output bev)) n).

Lemma sent_nothing v go send w b bev w' bev' : world_ok v w -> bevs w !! b = Some bev -> bevs w' !! b = Some bev' -> output bev' = output bev ->
  limit_at_most w Writing bev bev' 0 -> (go -> offered send (contents (output bev)) 0) -> sent go send w b bev w'.
Proof.
  intros Hw Eb Eb' Ho Hl Hgo. exists 0. split; [|done]. exists bev'. rewrite Ho, zdrop_0 by done. pose proof (zlen_nonneg (contents (output bev))). splits; done || lia.
Qed.

Lemma wp_after_send v b go send w bev w2 bev1 bev2 r : world_ok v w -> bevs w !! b = Some bev -> world_ok v w2 -> bevs w2 !! b = Some bev2 ->
  groups w2 = groups w -> output bev1 = output bev -> limit_at_most w Writing bev bev2 0 ->
  contents (output bev2) = zdrop r (contents (output bev1)) -> 0 < r <= zlen (contents (output bev)) -> r <= INT_MAX ->
  solvent (groups w2) Writing bev2 -> offered send (contents (output bev)) r ->
  wp (let! _ := _bufferevent_decrement_write_buckets b r in stop_when_empty b ;; ret (Reached r))
    (fun _ w' => world_ok v w' /\ sent go send w b bev w') w2.
Proof using Hev.
  intros Hw Eb Hw2 Eb2 Hg Ho Hl Hc Hr Hmax Hsol Hoff. apply wp_bind. eapply wp_mono; [apply (wp_decrement_buckets Hev v Writing b bev2 r w2); (done || lia)|].
  intros x w3 [Hw3 (bev3 & Eb3 & Hli3 & Hio3 & Hpaid)]. destruct (io_part_eq _ _ Hio3) as (_ & I2 & _).
  apply wp_bind. eapply wp_mono; [by apply (wp_stop_when_empty v b bev3)|]. intros y w4 [Hw4 Eb4]. apply wp_ret. split; [done|].
  destruct (when_empty_fields bev3) as (F1 & F2 & _). exists r. split; [|done]. exists (when_empty bev3). rewrite F1, I2, Hc, Ho. splits; [done | done | lia | lia |].
  intros rl c cf Erl Ec Ecf. destruct (Hl rl c cf Erl Ec Ecf) as (t & rl2 & Ht & El2 & Ec2 & Hlim).
  assert (Hs2 : is_Some (cfg rl2)) by (rewrite Ec2; by exists c). destruct (Hpaid rl2 El2 Hs2) as (rl3 & El3 & Hb3 & Ec3).
  exists t, rl3. rewrite F2. splits; [done | done | congruence |]. rewrite Hb3, (paid_limit v w2 Writing b bev2 r rl2 c); [lia | done | done | done | congruence | lia |].
  by apply (proj1 Hsol).
Qed.

Lemma wp_socket_write v b bev send retriable w : world_ok v w -> bevs w !! b = Some bev -> send_ok send ->
  wp (socket_write b send retriable) (fun _ w' => world_ok v w' /\ sent (sendable bev) send w b bev w') w.
Proof using Hev.
  intros Hw Eb Hsend. unfold socket_write. apply wp_bind, (wp_get_rlim_max Hev v Writing b bev); [done..|]. intros atmost bev1 Hx n1.
  pose proof (rlim_max_limit _ _ _ _ _ _ Hx) as Hlim. destruct Hx as [Hok Hli Hio Hrange Hpos Hstill _]. cbn [suspended] in Hstill. set (w1 := bump n1 _).
  assert (Hw1 : world_ok v w1) by (by apply (world_set v w b bev)). assert (Eb1 : bevs w1 !! b = Some bev1) by apply bevs_set.
  destruct (io_part_eq _ _ Hio) as (_ & I2 & _). apply wp_bind, (wp_the_bev _ bev1); [done|]. cbn [suspended] in Hpos.
  destruct (Z.eqb_spec (write_suspended bev1) 0) as [Hs|Hs]; cbn [negb]; [|apply wp_ret; split; [done|]; apply (sent_nothing v _ _ w b bev w1 bev1); try done; by intros [?%Hstill _]].
  destruct (Hpos Hs) as [_ Hat]. unfold evbuffer_get_length. destruct (Z.eqb_spec (total_len (output bev1)) 0) as [Hz|Hz].
  { apply wp_bind. eapply wp_mono; [by apply (wp_stop_when_empty v b bev1)|]. intros x w2 [Hw2 Eb2]. apply wp_ret. split; [done|].
    destruct (when_empty_fields bev1) as (F1 & F2 & _). apply (sent_nothing v _ _ w b bev w2 (when_empty bev1)); try done; [by rewrite F1 | unfold limit_at_most in *; by rewrite F2 |].
    intros [_ Hn]. rewrite I2 in Hz. done. }
  pose proof (bo_core _ _ _ _ Hok) as Hc. pose proof (co_output _ _ Hc) as Hp. cbn in Hp. destruct (co_output_freeze _ _ Hc) as [Hf1 Hf2]. cbn in Hf1, Hf2.
  pose proof (co_output_shape _ _ Hc) as Hsh. cbn in Hsh. unfold freeze_output. apply wp_bind, (wp_update_bev _ _ bev1); [done|].
  set (thawed := set_freeze (output bev1) false (freeze_end (output bev1))). set (bev2 := bev1 <| output := thawed |>).
  destruct (evbuffer_write_atmost_sends thawed send atmost (packed_freeze _ _ _ Hp) eq_refl Hsend ltac:(lia) Hz) as (vs & k & r & buf & Hvs & Hcat & Hk & Hr & Hwr & Hres).
  assert (Hoff : offered send (contents (output bev)) (Z.max 0 r)) by (exists vs, k; rewrite <- I2, <- Hr; done).
  destruct Hres as [[Hneg ->]|[Hpos' Hdr]].
  - eapply wp_bind, wp_on_output_quiet; [apply bevs_now | exact Hwr | done |]. intros n2. rewrite set_bev_twice. eapply wp_bind, wp_update_bev; [apply bevs_set|]. rewrite set_bump.
    set (bev3 := (bev2 <| output := thawed |>) <| output := _ |>). assert (bev3 = bev1) as ->.
    { unfold bev3. change (bev1 <| output := set_freeze thawed true (freeze_end (output bev1)) |> = bev1). unfold thawed. rewrite output_frozen by done. by destruct bev1. }
    set (w3 := bump n2 _). assert (Hw3 : world_ok v w3) by (by apply (world_set v w1 b bev1)). assert (Eb3 : bevs w3 !! b = Some bev1) by apply bevs_set.
    assert (Hend : forall e : io_end, wp (ret e) (fun _ w' => world_ok v w' /\ sent (sendable bev) send w b bev w') w3).
    { intros e. apply wp_ret. split; [done|]. apply (sent_nothing v _ _ w b bev w3 bev1); try done. intros _. by rewrite Z.max_l in Hoff by lia. }
    destruct (r =? -1); [|destruct (r =? 0); [apply Hend|]; rewrite (proj2 (Z.leb_le r 0)) by done; apply Hend]. destruct retriable; [|apply Hend].
    apply wp_bind. eapply wp_mono; [by apply (wp_stop_when_empty v b bev1)|]. intros x w4 [Hw4 Eb4]. apply wp_ret. split; [done|].
    destruct (when_empty_fields bev1) as (F1 & F2 & _). apply (sent_nothing v _ _ w b bev w4 (when_empty bev1)); try done; [by rewrite F1 | unfold limit_at_most in *; by rewrite F2 |].
    intros _. by rewrite Z.max_l in Hoff by lia.
  - destruct Hdr as (Hp' & Hcon & Hfs & Hfe & cs & lwd & Hbuf). pose proof (oshape_freeze _ false (freeze_end (output bev1)) Hsh) as Hsh2. fold thawed in Hsh2.
    assert (Hch : changed thawed 0 r buf) by (apply (del_count_changed _ _ _ cs lwd (total_len thawed - r) (os_counts _ Hsh2)); [lia | done]).
    destruct (output_changed_shape _ _ _ _ Hsh2 Hch) as [Hsh3 _].
    eapply wp_bind, (wp_on_output Hev); [apply bevs_now | exact Hwr | exact Hsh2 | exact Hch |]. cbn [Z.eqb]. intros n2. rewrite set_bev_twice.
    eapply wp_bind, wp_update_bev; [apply bevs_set|]. rewrite set_bump. set (frozen := set_freeze buf true (freeze_end buf)).
    change (set_bev b _ w1) with (set_bev b (bev1 <| output := frozen |>) w1). set (bev3 := bev1 <| output := frozen |>). set (w3 := bump n2 _).
    assert (Htot : total_len frozen = zlen (contents frozen)) by (apply (pk_total _ (packed_freeze buf true (freeze_end buf) Hp'))).
    assert (Hcf : contents frozen = zdrop r (contents (output bev1))) by exact Hcon.
    assert (Ht1 : total_len (output bev1) = zlen (contents (output bev1))) by apply (pk_total _ Hp).
    assert (Hrk : r <= zlen (contents (output bev1)) /\ r <= atmost).
    { unfold write_amount in Hk. change (total_len thawed) with (total_len (output bev1)) in Hk. rewrite (proj2 (Z.ltb_ge atmost 0)) in Hk by lia.
      destruct (Z.ltb_spec (total_len (output bev1)) atmost); cbn [orb] in Hk; lia. }
    assert (Hok3 : bev_ok (groups w1) (cfgs w1) (broken v b) bev3).
    { apply output_less_ok; [done | by apply packed_freeze | done | by rewrite <- Hf2 | by apply oshape_freeze |]. rewrite Htot, Hcf, zlen_zdrop by lia. lia. }
    assert (Hw3 : world_ok v w3) by (by apply (world_set v w1 b bev1)). assert (Eb3 : bevs w3 !! b = Some bev3) by apply bevs_set.
    rewrite (proj2 (Z.eqb_neq r (-1))), (proj2 (Z.eqb_neq r 0)), (proj2 (Z.leb_gt r 0)) by lia.
    rewrite Z.max_r in Hoff by lia. apply (wp_after_send v b _ send w bev w3 bev1 bev3 r); try done; [rewrite <- I2; lia | lia |].
    apply (solvent_same _ _ bev1); [done|]. by apply (unsuspended_solvent v w1 b).
Qed.

(** ** The end of connecting *)

Lemma the_bev_eq b x w : bevs w !! b = Some x -> the_bev b w = Some (x, w).
Proof. intros Eb. unfold the_bev. by rewrite Eb. Qed.

Lemma update_bev_eq b f x w : bevs w !! b = Some x -> update_bev b f w = Some (tt, set_bev b (f x) w).
Proof. intros Eb. unfold update_bev, bind. by rewrite (the_bev_eq b x). Qed.

Lemma schedule_eq b x w : bevs w !! b = Some x ->
  SCHEDULE_DEFERRED b w = Some (tt, (set_bev b (scheduled x) w) <| deferred_queue := deferred_queue w ++ [b] |>).
Proof.
  intros Eb. unfold SCHEDULE_DEFERRED, bufferevent_incref, bind. rewrite (update_bev_eq b _ x) by done.
  rewrite (update_bev_eq b _ (x <| bev_refcnt := bev_refcnt x + 1 |>)) by apply bevs_now. by rewrite set_bev_twice.
Qed.

(** A callback does not see the write event: with and without it, the same happens. *)
Lemma run_or_defer_unwritten (P : world -> Prop) b cb pending call x w : bevs w !! b = Some x ->
  (forall y, pending (del_ev Writing y) = del_ev Writing (pending y)) ->
  wp (run_or_defer b cb pending call) (fun _ w' => P w') (set_bev b (del_ev Writing x) w) ->
  wp (run_or_defer b cb pending call) (fun _ w' => exists x', bevs w' !! b = Some x' /\ P (set_bev b (del_ev Writing x') w')) w.
Proof.
  intros Eb Hp H. unfold run_or_defer in *. destruct cb as [cb|]; [|by exists x].
  unfold wp, bind in *. rewrite (the_bev_eq b x) by done. rewrite (the_bev_eq b (del_ev Writing x)) in H by apply bevs_now.
  change (options (del_ev Writing x)) with (options x) in H. destruct (has (options x) BEV_OPT_DEFER_CALLBACKS); [|by exists x].
  rewrite (update_bev_eq b _ x) by done. rewrite (update_bev_eq b _ (del_ev Writing x)), set_bev_twice, Hp in H by apply bevs_now.
  rewrite (the_bev_eq b (pending x)) by apply bevs_now. rewrite (the_bev_eq b (del_ev Writing (pending x))) in H by apply bevs_now.
  change (deferred_cb_queued (del_ev Writing (pending x))) with (deferred_cb_queued (pending x)) in H.
  destruct (deferred_cb_queued (pending x)); cbn [negb when] in *.
  - exists (pending x). split; [apply bevs_now|]. by rewrite set_bev_twice.
  - rewrite (schedule_eq b (pending x)) by apply bevs_now. rewrite (schedule_eq b (del_ev Writing (pending x))) in H by apply bevs_now. rewrite set_bev_twice in *.
    exists (scheduled (pending x)). split; [exact (bevs_now b _ w)|]. unfold set_bev, assign in *. cbn in *. by rewrite insert_insert_eq.
Qed.

(** Has the connection failed? *)
Definition conn_failed (bev : bufferevent) (c : Z) : bool := connecting bev && ((if connection_refused bev then -1 else c) <? 0).

Definition after_connect (b : nat) (failed : bool) (v : view) : view := if failed then set_broken b true v else v.

Lemma holds_after_connect b f v b' : holds (after_connect b f v) b' = holds v b'.
Proof. by destruct f. Qed.

(** The same buffers and limits in another world. *)
Definition same_io (w : world) (b : nat) (bev : bufferevent) (w' : world) : Prop :=
  (groups w', cfgs w', now w') = (groups w, cfgs w, now w) /\
  exists bev', bevs w' !! b = Some bev' /\ output bev' = output bev /\ rate_limiting bev' = rate_limiting bev.

Lemma same_io_calm w b bev w1 w2 bev1 : (groups w1, cfgs w1, now w1) = (groups w, cfgs w, now w) -> bevs w1 !! b = Some bev1 -> output bev1 = output bev ->
  rate_limiting bev1 = rate_limiting bev -> calm w1 w2 -> same_io w b bev w2.
Proof.
  intros Hw Eb Ho Hr (G & C & H). split; [congruence|]. destruct (H b bev1 Eb) as (bev2 & Eb2 & Hs). destruct (still_fields _ _ Hs) as (_ & S2 & S3 & _).
  exists bev2. splits; congruence.
Qed.

Lemma unconnecting gs cs br br' bev x : bev_ok gs cs br bev -> events_fit br' ((bev <| connection_refused := x |>) <| connecting := false |>) ->
  bev_ok gs cs br' ((bev <| connection_refused := x |>) <| connecting := false |>).
Proof.
  intros [Hc He Hk Hf] Hev'. split; [by destruct Hc | done | intros d; specialize (Hk d); by destruct d |].
  intros d f Hfb. specialize (Hf d f Hfb). by destruct d.
Qed.

Lemma unwritten_ok gs cs br bev x : bev_ok gs cs br bev -> may Writing bev = false ->
  bev_ok gs cs br (del_ev Writing ((bev <| connection_refused := x |>) <| connecting := false |>)).
Proof.
  intros [Hc [H1 H2 H3 H4 H5] Hk Hf] Hm. split; [by destruct Hc | | intros d; specialize (Hk d); by destruct d |].
  - split; try done. intros _ Hm'. change (may Writing bev = true) in Hm'. congruence.
  - intros d f Hfb. specialize (Hf d f Hfb). by destruct d.
Qed.

Lemma broken_ok gs cs br bev x : bev_ok gs cs br bev ->
  bev_ok gs cs true (del_ev Reading (del_ev Writing ((bev <| connection_refused := x |>) <| connecting := false |>))).
Proof.
  intros [Hc [H1 H2 H3 H4 H5] Hk Hf]. split; [by destruct Hc | by split | intros d; specialize (Hk d); by destruct d |].
  intros d f Hfb. specialize (Hf d f Hfb). by destruct d.
Qed.

Lemma connected_ok gs cs br bev x : bev_ok gs cs br bev -> may Writing bev = true ->
  bev_ok gs cs br ((bev <| connection_refused := x |>) <| connecting := false |>).
Proof.
  intros Hb Hm. apply (unconnecting _ _ br); [done|]. destruct (bo_events _ _ _ _ Hb). split; try done. intros _. by right.
Qed.

(** The write event goes when writing is not allowed. *)
Lemma wp_connected v b bev x w : world_ok v w -> bevs w !! b = Some bev ->
  let bev2 := (bev <| connection_refused := x |>) <| connecting := false |> in
  wp (_bufferevent_run_eventcb b BEV_EVENT_CONNECTED ;;
      let! bev := the_bev b in
      if negb (has (enabled bev) EV_WRITE) || negb (write_suspended bev =? 0) then let! _ := bev_event_del b Writing in ret (false, true) else ret (true, true))
    (fun _ w' => world_ok v w' /\ same_io w b bev w') (set_bev b bev2 w).
Proof using Hev.
  intros Hw Eb bev2. pose proof (wo_bevs _ _ Hw b bev Eb) as Hb. set (w2 := set_bev b bev2 w). assert (Eb2 : bevs w2 !! b = Some bev2) by apply bevs_now.
  assert (Htest : forall bev', still bev' = still bev2 -> negb (has (enabled bev') EV_WRITE) || negb (write_suspended bev' =? 0) = negb (may Writing bev)).
  { intros bev' Hs. pose proof (f_equal enabled Hs) as H1. pose proof (f_equal write_suspended Hs) as H2. cbn in H1, H2. rewrite H1, H2. by rewrite <- negb_andb. }
  apply wp_bind. destruct (may Writing bev) eqn:Em.
  - assert (Hw2 : world_ok v w2) by (apply (world_set v w b bev bev2 (counts w)); try done; by apply connected_ok).
    eapply wp_mono; [apply (wp_run_eventcb v b); [done | by exists bev2]|]. intros u w3 [Hw3 Hcalm]. pose proof Hcalm as (_ & _ & Hc).
    destruct (Hc b bev2 Eb2) as (bev3 & Eb3 & Hs3). apply wp_bind, (wp_the_bev _ bev3); [done|]. rewrite (Htest bev3 Hs3). cbn [negb]. apply wp_ret.
    split; [done|]. by apply (same_io_calm _ _ _ w2 _ bev2).
  - assert (Hw3 : world_ok v (set_bev b (del_ev Writing bev2) w2)).
    { unfold w2. rewrite set_bev_twice. apply (world_set v w b bev _ (counts w)); try done. by apply unwritten_ok. }
    apply wp_bind, (wp_the_bev _ bev2); [done|]. eapply wp_mono.
    + apply (run_or_defer_unwritten (fun w' => world_ok v w' /\ calm (set_bev b (del_ev Writing bev2) w2) w') b _ _ _ bev2); [exact Eb2 | done|].
      apply (wp_run_or_defer v b _ _ _ (del_ev Writing bev2)); [done | apply bevs_now | done].
    + cbv beta. intros u w4 (bev4 & Eb4 & Hw4 & Hcalm). pose proof Hcalm as (_ & _ & Hc). destruct (Hc b (del_ev Writing bev2) (bevs_now _ _ _)) as (bev5 & Eb5 & Hs5).
      rewrite bevs_now in Eb5. injection Eb5 as <-. apply wp_bind, (wp_the_bev _ bev4); [done|].
      assert (Ht4 : negb (has (enabled bev4) EV_WRITE) || negb (write_suspended bev4 =? 0) = true).
      { pose proof (f_equal enabled Hs5) as H1. pose proof (f_equal write_suspended Hs5) as H2. cbn in H1, H2. rewrite H1, H2, <- negb_andb.
        change (negb (may Writing bev) = true). by rewrite Em. }
      rewrite Ht4. apply wp_bind, (wp_event_del Hev b Writing bev4); [done|]. intros n. apply wp_ret. split; [by apply world_bump|].
      destruct Hcalm as (G & C & Hc'). split; [cbn in *; congruence|]. destruct (still_fields _ _ Hs5) as (_ & S2 & S3 & _).
      exists (del_ev Writing bev4). split; [apply bevs_set | split; [exact S2 | exact S3]].
Qed.

Lemma wp_finish_connecting v b bev c w : world_ok v w -> bevs w !! b = Some bev ->
  wp (finish_connecting b c) (fun _ w' => world_ok (after_connect b (conn_failed bev c) v) w' /\ same_io w b bev w') w.
Proof using Hev.
  intros Hw Eb. pose proof (wo_bevs _ _ Hw b bev Eb) as Hb. unfold finish_connecting, conn_failed. apply wp_bind, (wp_the_bev _ bev); [done|].
  assert (Hsame : same_io w b bev w) by (split; [done|]; by exists bev).
  destruct (connecting bev) eqn:Ec; cbn [negb andb]; [|by apply wp_ret]. set (c' := if connection_refused bev then -1 else c).
  apply wp_bind. set (bev1 := bev <| connection_refused := false |>).
  assert (Hstep : forall Q : unit -> world -> Prop, Q tt (set_bev b bev1 w) ->
    wp (when (connection_refused bev) (update_bev b (fun bev => bev <| connection_refused := false |>))) Q w).
  { intros Q HQ. destruct (connection_refused bev) eqn:Er; cbn [when]; [by apply (wp_update_bev _ _ bev)|]. apply wp_ret.
    assert (bev1 = bev) as E1 by (subst bev1; destruct bev; cbn in Er; by subst). rewrite E1, set_bev_id in HQ by done. exact HQ. }
  apply Hstep. destruct (Z.eqb_spec c' 0) as [Hz|Hz].
  { apply wp_ret. rewrite Hz. cbn [Z.ltb Z.compare after_connect]. split.
    - apply (world_set v w b bev bev1 (counts w)); try done. destruct Hb as [Hc [] Hk Hf]. split; [by destruct Hc | by split | intros d; specialize (Hk d); by destruct d |].
      intros d f Hfb. specialize (Hf d f Hfb). by destruct d.
    - split; [done|]. exists bev1. split; [apply bevs_now | done]. }
  eapply wp_bind, wp_update_bev; [apply bevs_now|]. rewrite set_bev_twice. destruct (c' <? 0); cbn [after_connect].
  - eapply wp_bind, (wp_event_del Hev b Writing); [apply bevs_now|]. intros n1. eapply wp_bind, (wp_event_del Hev b Reading); [apply bevs_set|].
    intros n2. rewrite bump_set, set_bev_twice. set (bev3 := del_ev Reading _). set (w3 := bump n2 _).
    assert (Hw3 : world_ok (set_broken b true v) w3) by (apply (world_set_broken v w b bev bev3); try done; by apply (broken_ok _ _ (broken v b))).
    apply wp_bind. eapply wp_mono; [apply (wp_run_eventcb (set_broken b true v) b); [done | exists bev3; apply bevs_set]|]. intros u w4 [Hw4 Hcalm]. apply wp_ret. split; [done|].
    apply (same_io_calm _ _ _ w3 _ bev3); try done. apply bevs_set.
  - by apply (wp_connected v b bev false w).
Qed.

(** ** The whole callback *)

Lemma has_written_from w b bev n w1 bev1 w2 : same_io w b bev w1 -> bevs w1 !! b = Some bev1 -> has_written w1 b bev1 n w2 -> has_written w b bev n w2.
Proof.
  intros [Hw (bev' & Eb' & Ho & Hr)] Eb (bev2 & Eb2 & Hc & Hn & Hl). assert (bev' = bev1) as -> by congruence. injection Hw as Hg Hcf Hnow.
  exists bev2. unfold limit_at_most in *. by rewrite <- Ho, <- Hr, <- Hcf, <- Hnow.
Qed.

Lemma wp_unconnecting b bev c (Q : bool * bool -> world -> Prop) w : bevs w !! b = Some bev -> connecting bev = false -> Q (true, false) w ->
  wp (finish_connecting b c) Q w.
Proof. intros Eb Ec HQ. unfold finish_connecting. apply wp_bind, (wp_the_bev _ bev); [done|]. by rewrite Ec. Qed.

(** The callback of the write event: what the socket accepts leaves the front of the output
    and is paid for from the bucket. *)
Lemma wp_writecb v b bev event c send retriable w : world_ok v w -> bevs w !! b = Some bev -> send_ok send ->
  let v' := after_connect b (negb (event =? EV_TIMEOUT) && conn_failed bev c) v in
  wp (bufferevent_writecb b event c send retriable)
    (fun _ w' => world_ok v' w' /\ (0 < holds v b -> sent (event <> EV_TIMEOUT /\ connecting bev = false /\ sendable bev) send w b bev w')) w.
Proof using Hev.
  intros Hw Eb Hsend v'. destruct (wo_refs _ _ Hw b) as [Hn _]. unfold bufferevent_writecb. apply wp_bind, (wp_incref v b bev); [done..|]. intros Hw1.
  set (w1 := set_bev b (with_ref bev) w) in *. assert (Eb1 : bevs w1 !! b = Some (with_ref bev)) by apply bevs_now.
  assert (Hh' : 0 <= holds v' b) by (unfold v'; by rewrite holds_after_connect).
  assert (Hview : forall w', world_ok (after_connect b (negb (event =? EV_TIMEOUT) && conn_failed bev c) (hold b 1 v)) w' -> world_ok (hold b 1 v') w').
  { intros w'. unfold v'. by destruct (_ && _). }
  assert (Hz : forall w2 bev2, bevs w2 !! b = Some bev2 -> output bev2 = output bev -> rate_limiting bev2 = rate_limiting bev -> forall go, ~ go -> sent go send w1 b (with_ref bev) w2).
  { intros w2 bev2 Eb2 Ho Hr go Hgo. apply (sent_nothing (hold b 1 v) _ _ w1 b (with_ref bev) w2 bev2); try done. apply (limit_same (hold b 1 v) w1 _ b (with_ref bev)); done. }
  apply wp_bind. eapply (wp_mono _ (fun _ w2 => world_ok (hold b 1 v') w2 /\ sent (event <> EV_TIMEOUT /\ connecting bev = false /\ sendable bev) send w1 b (with_ref bev) w2)).
  - destruct (Z.eqb_spec event EV_TIMEOUT) as [Et|Et]; cbn [negb andb] in *.
    + apply wp_ret. split; [by apply Hview|]. apply (Hz w1 (with_ref bev)); try done. by intros [? _].
    + apply wp_bind. destruct (connecting bev) eqn:Ec.
      * eapply wp_mono; [by apply (wp_finish_connecting (hold b 1 v) b (with_ref bev) c)|]. intros [go connected] w2 [Hw2 Hio].
        change (conn_failed (with_ref bev) c) with (conn_failed bev c) in Hw2. apply Hview in Hw2. destruct Hio as [Hworld (bev2 & Eb2 & Ho & Hr)]. destruct go.
        -- apply wp_bind. eapply wp_mono; [by apply (wp_socket_write (hold b 1 v') b bev2 send retriable w2)|]. intros r w3 [Hw3 (n & Hs & _)]. apply wp_ret. split; [done|].
           exists n. split; [|by intros (_ & ? & _)]. apply (has_written_from w1 b _ n w2 bev2); [|done|done]. split; [done|]. by exists bev2.
        -- apply wp_ret. split; [done|]. apply (Hz w2 bev2); try done. by intros (_ & ? & _).
      * assert (Hw1' : world_ok (hold b 1 v') w1) by (apply Hview; unfold conn_failed; by rewrite Ec).
        apply (wp_unconnecting b (with_ref bev)); [done..|]. apply wp_bind. eapply wp_mono; [by apply (wp_socket_write (hold b 1 v') b (with_ref bev) send retriable w1)|].
        intros r w3 [Hw3 (n & Hs & Hoff)]. apply wp_ret. split; [done|]. exists n. split; [done|]. intros (_ & _ & ?). auto.
  - intros [r connected] w2 [Hw2 (n & Hs & Hoff)]. destruct (held_alive _ _ _ Hw2 Hh') as [bev2 Eb2].
    apply wp_bind. eapply (wp_mono _ (fun _ w3 => world_ok (hold b 1 v') w3 /\ has_written w1 b (with_ref bev) n w3)).
    + destruct r as [k|what|].
      * apply wp_bind, (wp_the_bev _ bev2); [done|]. apply wp_when; [|done]. intros _.
        eapply wp_mono; [apply (wp_run_writecb (hold b 1 v') b); [done | by exists bev2]|]. intros u w3 [Hw3 Hcalm]. split; [done|]. by apply (has_written_calm _ _ _ _ w2).
      * apply wp_bind, (wp_disable Hev _ _ bev2); [done|]. intros m. set (w3 := bump m _). assert (Hw3 : world_ok (hold b 1 v') w3) by (by apply world_disable).
        assert (Eb3 : bevs w3 !! b = Some (disable_bev EV_WRITE bev2)) by apply bevs_set. pose proof (quiet_disable EV_WRITE bev2) as Hq.
        eapply wp_mono; [apply (wp_run_eventcb (hold b 1 v') b); [done | by eexists]|]. intros u w4 [Hw4 Hcalm]. split; [done|].
        apply (has_written_calm _ _ _ _ w3); [|done]. apply (has_written_same _ _ _ _ w2 _ bev2 (disable_bev EV_WRITE bev2)); try done.
        -- exact (f_equal (fun q => q.1.1.1.1.1.1.1.2) Hq).
        -- exact (f_equal (fun q => q.1.1.1.2) Hq).
      * by apply wp_ret.
    + intros u w3 [Hw3 Hwr]. apply (wp_release Hev v' b); [done | done|]. intros w4 Hw4 Hcalm. split; [done|]. intros Hp. exists n. split; [|exact Hoff].
      apply (has_written_calm _ _ _ _ w3); [exact Hwr|]. apply Hcalm. unfold v'. by rewrite holds_after_connect.
Qed.
End writing.
