(* ===== verification/BevLife.v ===== *)
(** The life of a bufferevent: made, connected, given another descriptor, its deferred
    callbacks run, and freed. *)

From stdpp Require Import gmap.
From S2P Require Import Prelude StateOp MinHeap EvChain Evbuffer EvbufferSpec EvSocket EventData EventCore TokenBucket Bev RateLimit BevSocket BevInv BevWorld BevGroups BevLimits BevActs BevTransfer.

Section life.
Context {A : Arch} {M : Allocator} {E : BevEnv} (Hev : events_ok).

(** ** Making one *)

Definition fresh_bev (fd opts : Z) (bev : bufferevent) : Prop :=
  bufferevent_init_common true fd opts = Some bev.

(** What [bufferevent_socket_new] makes of it. *)
Definition socket_of (bev : bufferevent) : bufferevent :=
  (bev <| output := evbuffer_add_cb (output bev) OUTBUF_CB |>) <| input := set_freeze evbuffer_new false true |>
    <| output := set_freeze (evbuffer_add_cb evbuffer_new OUTBUF_CB) true false |>.

Lemma fresh_fields fd opts bev : fresh_bev fd opts bev -> bev = {| input := evbuffer_new; output := evbuffer_new; ev_read := no_event true; ev_write := no_event true;
    wm_read := {| low := 0; high := 0 |}; wm_write := {| low := 0; high := 0 |}; readcb := None; writecb := None;
    errorcb := None; timeout_read := evutil_timerclear; timeout_write := evutil_timerclear; enabled := EV_WRITE;
    read_watermarks_cb := false; readcb_pending := false; writecb_pending := false; eventcb_pending := 0;
    connecting := false; connection_refused := false; read_suspended := 0; write_suspended := 0; dns_error := 0;
    deferred_cb_queued := false; options := opts; bev_refcnt := 1; rate_limiting := None; bev_fd := fd; partner := None |}.
Proof. unfold fresh_bev, bufferevent_init_common. destruct (_ && _); [done|]. by intros [= <-]. Qed.

Lemma socket_of_ok gs cs br fd opts bev : fresh_bev fd opts bev -> bev_ok gs cs br (socket_of bev).
Proof.
  intros Hb%fresh_fields. assert (Hz : forall d, suspended d (socket_of bev) = 0) by (subst; by intros []). split.
  - subst. split; cbn; try done.
    + apply (input_ok_freeze _ _ _ input_ok_new).
    + unfold EV_SSIZE_MAX. destruct size_bits_cases as [->| ->]; lia.
    + apply packed_freeze. destruct packed_new. by split.
  - subst. by split.
  - intros d. by rewrite Hz.
  - intros d f (k & Hk & ->). unfold flag_ok. rewrite Hz, has_zero. subst. by split.
Qed.

Lemma world_new v w bev' : world_ok v w -> bev_ok (groups w) (cfgs w) (broken v (next_id w)) bev' -> group_of bev' = None ->
  deferred_cb_queued bev' = false -> bev_refcnt bev' = 1 ->
  world_ok (hold (next_id w) 1 v) ((w <| next_id := S (next_id w) |>) <| bevs := <[next_id w := bev']> (bevs w) |>).
Proof.
  intros Hw Hok Hg Hd Hr. destruct (wo_fresh _ _ Hw) as [Hf1 Hf2]. set (b := next_id w) in *.
  assert (Hnone : bevs w !! b = None) by (destruct (bevs w !! b) eqn:Eb; [specialize (Hf1 b ltac:(by eexists)); lia | done]).
  assert (Hz : holds v b = 0) by (destruct (wo_refs _ _ Hw b) as [H1 H2]; destruct (decide (0 < holds v b)) as [Hp|]; [destruct (H2 Hp); congruence | lia]).
  assert (Hlk : forall y y', <[b := bev']> (bevs w) !! y = Some y' -> y = b /\ y' = bev' \/ y <> b /\ bevs w !! y = Some y').
  { intros y y'. destruct (decide (y = b)) as [->|]; [rewrite lookup_insert_eq; intros [= <-]; by left | rewrite lookup_insert_ne by done; by right]. }
  split; try apply Hw; cbn.
  - intros y y' [[-> ->]|[Hne Hy]]%Hlk; [done | by apply (wo_bevs _ _ Hw)].
  - intros y. destruct (wo_refs _ _ Hw y) as [H1 H2]. case_decide as Hy.
    + subst y. split; [lia|]. intros _. rewrite lookup_insert_eq. by eexists.
    + rewrite Z.add_0_r. split; [done|]. intros Hp. rewrite lookup_insert_ne by done. by apply H2.
  - intros y y' [[-> ->]|[Hne Hy]]%Hlk; [rewrite decide_True, Hd, Hr, Hz by done; done|]. rewrite decide_False, Z.add_0_r by done. by apply (wo_refcnt _ _ Hw y y').
  - split; [apply Hw|]. intros y. rewrite (proj2 (wo_queue _ _ Hw)). split; intros (z & Hzz & Hdz).
    + exists z. split; [|done]. rewrite lookup_insert_ne; [done|]. intros <-. congruence.
    + apply Hlk in Hzz as [[-> ->]|[_ Hzz]]; [congruence | by exists z].
  - intros g gr y Hgr. rewrite (wo_members _ _ Hw g gr y Hgr). unfold members_of. destruct (decide (y = b)) as [->|Hne].
    + rewrite lookup_insert_eq, Hnone. split; [by intros (? & ? & _)|]. intros (z & [= <-] & Hgz). congruence.
    + by rewrite lookup_insert_ne.
  - intros y y' g [[-> ->]|[Hne Hy]]%Hlk Hgy; [congruence | by apply (wo_group_of _ _ Hw y y')].
  - split; [|intros g Hgg; specialize (Hf2 g Hgg); fold b; lia]. intros y [y' [[-> _]|[_ Hy]]%Hlk]; [lia|]. specialize (Hf1 y ltac:(by eexists)). lia.
Qed.

Lemma wp_socket_new v fd opts w : world_ok v w ->
  wp (bufferevent_socket_new fd opts) (fun r w' => world_ok (match r with Some b => hold b 1 v | None => v end) w') w.
Proof.
  intros Hw. unfold bufferevent_socket_new. destruct (mm_malloc _); [|by apply wp_ret]. destruct (bufferevent_init_common true fd opts) as [bev|] eqn:Ei; [|by apply wp_ret].
  apply wp_bind. unfold new_id, wp at 1. apply wp_bind, wp_modify. unfold freeze_input, freeze_output.
  eapply wp_bind, wp_update_bev; [cbn; apply lookup_insert_eq|]. eapply wp_bind, wp_update_bev; [cbn; apply lookup_insert_eq|]. apply wp_ret.
  pose proof (fresh_fields _ _ _ Ei) as Hb. pose proof (world_new v w (socket_of bev) Hw (socket_of_ok _ _ _ fd opts bev Ei)) as Hn. rewrite Hb in Hn |- *.
  specialize (Hn eq_refl eq_refl eq_refl). unfold set_bev, assign in *. cbn in *. by rewrite !insert_insert_eq.
Qed.

(** ** Callbacks *)

Lemma bev_ok_setcb gs cs br bev r wr e : bev_ok gs cs br bev -> bev_ok gs cs br (((bev <| readcb := r |>) <| writecb := wr |>) <| errorcb := e |>).
Proof.
  intros Hb. apply (bev_ok_quiet _ _ br _ bev); [done | | done]. by destruct (bo_events _ _ _ _ Hb).
Qed.

Lemma wp_setcb v b bev r wr e w : world_ok v w -> bevs w !! b = Some bev ->
  wp (bufferevent_setcb b r wr e) (fun _ w' => world_ok v w' /\ is_Some (bevs w' !! b)) w.
Proof.
  intros Hw Eb. apply (wp_update_bev _ _ bev); [done|]. split; [|rewrite bevs_now; by eexists].
  apply (world_set v w b bev _ (counts w)); try done. by apply bev_ok_setcb, (wo_bevs _ _ Hw).
Qed.

Lemma wp_free v b bev w : world_ok v w -> bevs w !! b = Some bev -> 0 < holds v b ->
  wp (bufferevent_free b) (fun _ w' => world_ok (hold b (-1) v) w') w.
Proof using Hev.
  intros Hw Eb Hh. apply wp_bind. eapply wp_mono; [by apply (wp_setcb v b bev)|]. intros x w1 [Hw1 _].
  apply wp_bind. eapply wp_mono; [by apply (wp_decref Hev v b)|]. intros r w2 [Hw2 _]. by apply wp_ret.
Qed.

(** ** Descriptors and connections *)

(** The bufferevent with a new descriptor. *)
Definition refitted (fd : Z) (bev : bufferevent) : bufferevent :=
  ((bev <| bev_fd := fd |>) <| ev_read := no_event true |>) <| ev_write := no_event true |>.

Lemma refitted_ok gs cs br fd bev : bev_ok gs cs br bev -> bev_ok gs cs true (refitted fd bev) /\ bev_ok gs cs false (enable_bev (enabled bev) (refitted fd bev)).
Proof.
  intros Hb. assert (H1 : bev_ok gs cs true (refitted fd bev)) by (apply (bev_ok_quiet _ _ br _ bev); [done | by split | done]). split; [done|].
  apply (bev_ok_quiet _ _ true _ (refitted fd bev)); [apply quiet_enable | | done].
  pose proof (on_start_fields (impl_events (enabled bev) (refitted fd bev)) ((refitted fd bev) <| enabled := Z.lor (enabled (refitted fd bev)) (enabled bev) |>)) as Hf.
  cbv zeta in Hf. fold (enable_bev (enabled bev) (refitted fd bev)) in Hf. destruct Hf as (He & Hc & Hio & Ha).
  pose proof (quiet_enable (enabled bev) (refitted fd bev)) as Hq.
  assert (Hs : forall d, suspended d (enable_bev (enabled bev) (refitted fd bev)) = suspended d bev).
  { intros []; [exact (f_equal (fun q => q.1.1.2) Hq) | exact (f_equal (fun q => q.1.2) Hq)]. }
  assert (Hm : forall d, may d (enable_bev (enabled bev) (refitted fd bev)) = has (impl_events (enabled bev) (refitted fd bev)) (ev_bit d)).
  { intros d. unfold may. rewrite He, Hs, has_impl. change (enabled ((refitted fd bev) <| enabled := Z.lor (enabled (refitted fd bev)) (enabled bev) |>)) with (Z.lor (enabled bev) (enabled bev)).
    rewrite Z.lor_diag. by destruct d. }
  pose proof (Ha Reading eq_refl) as HaR. pose proof (Ha Writing eq_refl) as HaW. pose proof (Hio Reading) as HiR. pose proof (Hio Writing) as HiW.
  cbn [bev_ev] in HaR, HaW, HiR, HiW. rewrite orb_false_r in HaR, HaW. pose proof (Hm Reading) as HmR. pose proof (Hm Writing) as HmW.
  split; rewrite ?HaR, ?HaW, ?HmR, ?HmW; try done. by right.
Qed.

Lemma links_refitted fd bev : links (refitted fd bev) = links bev.
Proof. done. Qed.

(** Another descriptor: the events are new; without one nothing is waited for. *)
Definition refit (b : nat) (fd : Z) (v : view) : view := set_broken b (negb (0 <=? fd)) v.

Lemma wp_setfd v b bev fd w : world_ok v w -> bevs w !! b = Some bev ->
  wp (bufferevent_setfd b fd) (fun _ w' => world_ok (refit b fd v) w' /\ exists bev', bevs w' !! b = Some bev' /\ broken (refit b fd v) b = negb (0 <=? fd)) w.
Proof using Hev.
  intros Hw Eb. pose proof (wo_bevs _ _ Hw b bev Eb) as Hb. destruct (refitted_ok _ _ _ fd bev Hb) as [H1 H2].
  unfold bufferevent_setfd, be_socket_setfd. apply wp_bind. apply wp_bind, (wp_event_del Hev b Reading bev); [done|]. intros n1.
  eapply wp_bind, (wp_event_del Hev b Writing); [apply bevs_set|]. intros n2. rewrite bump_set. eapply wp_bind, wp_update_bev; [apply bevs_set|]. rewrite set_bump.
  change (set_bev b _ w) with (set_bev b (refitted fd bev) w). set (w1 := bump n2 _). assert (Eb1 : bevs w1 !! b = Some (refitted fd bev)) by apply bevs_set.
  assert (Hbr : broken (refit b fd v) b = negb (0 <=? fd)) by (cbn; by rewrite decide_True).
  apply wp_when; intros Hfd.
  - apply wp_bind, (wp_the_bev _ (refitted fd bev)); [done|]. change (enabled (refitted fd bev)) with (enabled bev).
    apply wp_bind, (wp_enable Hev _ _ (refitted fd bev)); [done|]. intros n3. apply wp_ret, wp_ret. unfold w1. rewrite bump_set. split.
    + unfold refit. rewrite Hfd. apply (world_set_broken v w b bev); [done | done | done |]. by rewrite (quiet_links _ _ (quiet_enable _ _)).
    + eexists. split; [apply bevs_set | done].
  - apply wp_ret. split; [|by eexists]. unfold refit. rewrite Hfd. by apply (world_set_broken v w b bev).
Qed.

Lemma connecting_ok gs cs br bev x : bev_ok gs cs br bev -> bev_ok gs cs br ((bev <| connection_refused := x |>) <| connecting := true |>).
Proof.
  intros [Hc [H1 H2 H3 H4 H5] Hk Hf]. split; [by destruct Hc | | intros d; specialize (Hk d); by destruct d |].
  - split; try done. intros _. by left.
  - intros d f Hfb. specialize (Hf d f Hfb). by destruct d.
Qed.

Lemma world_connecting v w b bev x n : world_ok v w -> bevs w !! b = Some bev ->
  world_ok v (bump n (set_bev b ((bev <| connection_refused := x |>) <| connecting := true |>) w)).
Proof. intros Hw Eb. apply (world_set v w b bev); try done. by apply connecting_ok, (wo_bevs _ _ Hw). Qed.

(** The write event is added for the connection itself. *)
Lemma started_connecting_ok gs cs br bev : bev_ok gs cs br bev -> bev_ok gs cs br ((on_events start EV_WRITE bev) <| connecting := true |>).
Proof.
  intros Hb. pose proof (connecting_ok _ _ _ _ (connection_refused bev) Hb) as H1.
  assert (E1 : (bev <| connection_refused := connection_refused bev |>) = bev) by by destruct bev. rewrite E1 in H1.
  apply (bev_ok_quiet _ _ br _ (bev <| connecting := true |>)); [done | | done].
  destruct (bo_events _ _ _ _ H1) as [[Hi1 Hi2] K2 K3 K4 K5]. split; try done.
  - intros _. by left.
  - intros _ _ _. change (ev_io (ev_write bev) || ev_added (ev_write bev) = true). cbn in Hi2. by rewrite Hi2.
Qed.

(** What the view becomes when a connection is started. *)
Definition connect_view (b : nat) (fd r : Z) (v : view) : view := if (fd <? 0) || (r <? 0) then v else refit b fd v.

Lemma holds_connect_view b fd r v b' : holds (connect_view b fd r v) b' = holds v b'.
Proof. unfold connect_view. by destruct (_ || _). Qed.

Lemma world_closed v w cl : world_ok v w -> world_ok v (w <| closed := cl |>).
Proof. intros []. by split. Qed.

Lemma wp_socket_connect v b bev fd own r w : world_ok v w -> bevs w !! b = Some bev ->
  wp (bufferevent_socket_connect b fd own r) (fun _ w' => world_ok (connect_view b fd r v) w') w.
Proof using Hev.
  intros Hw Eb. destruct (wo_refs _ _ Hw b) as [Hn _]. set (v' := connect_view b fd r v). unfold bufferevent_socket_connect.
  apply wp_bind, (wp_incref v b bev); [done..|]. intros Hw1. set (w1 := set_bev b (with_ref bev) w) in *. assert (Eb1 : bevs w1 !! b = Some (with_ref bev)) by apply bevs_now.
  assert (Hview : forall w', world_ok (connect_view b fd r (hold b 1 v)) w' -> world_ok (hold b 1 v') w').
  { intros w'. unfold v', connect_view. by destruct (_ || _). }
  apply wp_bind. eapply (wp_mono _ (fun _ w2 => world_ok (hold b 1 v') w2)).
  2: { intros x w2 Hw2. apply (wp_release Hev v' b); [done | unfold v'; by rewrite holds_connect_view | done]. }
  unfold connect_view in Hview. destruct (fd <? 0) eqn:Efd; cbn [orb] in Hview; [apply wp_ret; by apply Hview|].
  destruct (r <? 0).
  - apply wp_bind. eapply wp_mono; [apply (wp_run_eventcb (hold b 1 v) b); [done | by eexists]|]. intros x w2 [Hw2 _]. apply wp_bind, wp_when; intros _.
    + apply wp_modify, wp_ret. apply Hview. by apply world_closed.
    + apply wp_ret. by apply Hview.
  - apply wp_bind. eapply wp_mono; [by apply (wp_setfd (hold b 1 v) b (with_ref bev) fd)|]. intros x w2 [Hw2 (bev2 & Eb2 & _)]. apply Hview in Hw2.
    pose proof (wo_bevs _ _ Hw2 b bev2 Eb2) as Hb2. assert (E2 : (bev2 <| connection_refused := connection_refused bev2 |>) = bev2) by by destruct bev2.
    destruct (r =? 0); [|destruct (r =? 1)].
    + apply wp_bind, (socket_enable_ok Hev b EV_WRITE bev2); [done|]. intros n. cbn [Z.eqb]. eapply wp_bind, wp_update_bev; [apply bevs_set|]. apply wp_ret. rewrite set_bump.
      apply (world_set (hold b 1 v') w2 b bev2); try done. by apply started_connecting_ok.
    + apply wp_bind, (wp_update_bev _ _ bev2); [done|]. apply wp_ret. rewrite <- E2 at 1. by apply (world_connecting _ w2 b bev2 _ (counts w2)).
    + apply wp_bind, (wp_update_bev _ _ bev2); [done|]. apply wp_ret. by apply (world_connecting _ w2 b bev2 _ (counts w2)).
Qed.

(** ** Lookups *)

Lemma bev_ok_suspend_lookup gs cs br d bev : bev_ok gs cs br bev -> bev_ok gs cs br (suspend_bev d BEV_SUSPEND_LOOKUP bev).
Proof. intros []. apply suspend_ok; auto with bev. by split. Qed.
Lemma bev_ok_unsuspend_lookup gs cs br d bev : bev_ok gs cs br bev -> bev_ok gs cs br (unsuspend_bev d BEV_SUSPEND_LOOKUP bev).
Proof. intros []. apply unsuspend_ok; auto with bev. by split. Qed.

Lemma wp_suspend_lookup v d b w : world_ok v w -> is_Some (bevs w !! b) ->
  wp (bufferevent_suspend d b BEV_SUSPEND_LOOKUP) (fun _ w' => world_ok v w' /\ is_Some (bevs w' !! b)) w.
Proof using Hev.
  intros Hw [bev Eb]. apply (wp_suspend Hev d b _ bev); [done|]. intros n. split; [|rewrite bevs_set; by eexists].
  apply (world_set v w b bev); [done | done | | apply links_suspend]. by apply bev_ok_suspend_lookup, (wo_bevs _ _ Hw).
Qed.

Lemma wp_unsuspend_lookup v d b w : world_ok v w -> is_Some (bevs w !! b) ->
  wp (bufferevent_unsuspend d b BEV_SUSPEND_LOOKUP) (fun _ w' => world_ok v w' /\ is_Some (bevs w' !! b)) w.
Proof using Hev.
  intros Hw [bev Eb]. apply (wp_unsuspend Hev d b _ bev); [done|]. intros n. split; [|rewrite bevs_set; by eexists].
  apply (world_set v w b bev); [done | done | | apply links_unsuspend]. by apply bev_ok_unsuspend_lookup, (wo_bevs _ _ Hw).
Qed.

Lemma world_dns_error v w b bev e : world_ok v w -> bevs w !! b = Some bev -> world_ok v (set_bev b (bev <| dns_error := e |>) w).
Proof.
  intros Hw Eb. apply (world_set v w b bev _ (counts w)); try done. pose proof (wo_bevs _ _ Hw b bev Eb) as Hb.
  apply (bev_ok_quiet _ _ (broken v b) _ bev); [done | by destruct (bo_events _ _ _ _ Hb) | done].
Qed.

(** A lookup takes a reference, which the code keeps even when it could not be started. *)
Lemma wp_connect_hostname v b bev known port err w : world_ok v w -> bevs w !! b = Some bev ->
  wp (bufferevent_socket_connect_hostname b known port err)
    (fun _ w' => world_ok (if negb known || (port <? 1) || (65535 <? port) then v else hold b 1 v) w') w.
Proof using Hev.
  intros Hw Eb. unfold bufferevent_socket_connect_hostname. destruct known; cbn [negb orb]; [|by apply wp_ret].
  destruct ((port <? 1) || (65535 <? port)); [by apply wp_ret|]. apply wp_bind, (wp_update_bev _ _ bev); [done|].
  pose proof (world_dns_error v w b bev 0 Hw Eb) as Hw0. apply wp_bind. eapply wp_mono; [apply (wp_suspend_lookup v Writing b); [done | rewrite bevs_now; by eexists]|].
  intros x1 w1 [Hw1 Hs1]. apply wp_bind. eapply wp_mono; [by apply (wp_suspend_lookup v Reading b)|]. intros x2 w2 [Hw2 [bev2 Eb2]].
  apply wp_bind, (wp_incref v b bev2); [done..|]. intros Hw3. destruct (err =? 0); [by apply wp_ret|].
  apply wp_bind. eapply wp_mono; [apply (wp_unsuspend_lookup (hold b 1 v) Writing b); [done | rewrite bevs_now; by eexists]|]. intros x4 w4 [Hw4 Hs4].
  apply wp_bind. eapply wp_mono; [by apply (wp_unsuspend_lookup (hold b 1 v) Reading b)|]. intros x5 w5 [Hw5 _]. by apply wp_ret.
Qed.

(** The answer: an error for the application, or a connection; the reference goes. *)
Definition answer_view (b : nat) (result fd r : Z) (v : view) : view := hold b (-1) (if result =? 0 then connect_view b fd r v else v).

Lemma wp_answer v b bev result fd own r w : world_ok v w -> bevs w !! b = Some bev -> 0 < holds v b ->
  wp (bufferevent_connect_getaddrinfo_cb b result fd own r) (fun _ w' => world_ok (answer_view b result fd r v) w') w.
Proof using Hev.
  intros Hw Eb Hh. unfold bufferevent_connect_getaddrinfo_cb, answer_view. apply wp_bind. eapply wp_mono; [apply (wp_unsuspend_lookup v Writing b); [done | by eexists]|].
  intros x1 w1 [Hw1 Hs1]. apply wp_bind. eapply wp_mono; [by apply (wp_unsuspend_lookup v Reading b)|]. intros x2 w2 [Hw2 [bev2 Eb2]].
  set (v' := if result =? 0 then connect_view b fd r v else v). assert (Hh' : holds v' b = holds v b) by (unfold v'; destruct (_ =? _); [apply holds_connect_view | done]).
  apply wp_bind. eapply (wp_mono _ (fun _ w3 => world_ok v' w3)).
  - unfold v'. destruct (result =? 0); cbn [negb].
    + apply wp_bind. eapply wp_mono; [by apply (wp_socket_connect v b bev2)|]. intros x3 w3 Hw3. by apply wp_ret.
    + apply wp_bind, (wp_update_bev _ _ bev2); [done|]. eapply wp_mono; [apply (wp_run_eventcb v b); [by apply world_dns_error | rewrite bevs_now; by eexists]|].
      by intros x3 w3 [Hw3 _].
  - intros x3 w3 Hw3. apply wp_bind. eapply wp_mono; [apply (wp_decref Hev v' b); [done | lia]|]. intros x4 w4 [Hw4 _]. by apply wp_ret.
Qed.

(** ** Deferred callbacks *)

(** What a deferred callback does besides calling: notes are taken back. *)
Lemma wp_noted v b bev f c w : world_ok v w -> bevs w !! b = Some bev -> still (f bev) = still bev -> links (f bev) = links bev ->
  wp (update_bev b f ;; user c) (fun _ w' => world_ok v w' /\ is_Some (bevs w' !! b)) w.
Proof.
  intros Hw Eb Hs Hl. apply wp_bind, (wp_update_bev _ _ bev); [done|]. apply wp_modify. split; [|eexists; apply bevs_now].
  apply world_user. apply (world_set v w b bev _ (counts w)); try done. apply (bev_ok_still _ _ _ bev); [done | by apply (wo_bevs _ _ Hw)].
Qed.

Lemma wp_run_locked v b w : world_ok (hold b 1 v) w -> 0 <= holds v b ->
  wp (bufferevent_run_deferred_callbacks_locked b) (fun _ w' => world_ok v w') w.
Proof using Hev.
  intros Hw Hh. unfold bufferevent_run_deferred_callbacks_locked.
  assert (Hstep : forall (m : bufferevent -> world_op unit) (k : world_op unit) w,
    (forall bev w, world_ok (hold b 1 v) w -> bevs w !! b = Some bev -> wp (m bev) (fun _ w' => world_ok (hold b 1 v) w' /\ is_Some (bevs w' !! b)) w) ->
    (forall w, world_ok (hold b 1 v) w -> wp k (fun _ w' => world_ok v w') w) -> world_ok (hold b 1 v) w ->
    wp (let! bev := the_bev b in m bev ;; k) (fun _ w' => world_ok v w') w).
  { intros m k w0 Hm Hk Hw0. destruct (held_alive v b w0 Hw0 Hh) as [bev0 Eb0]. apply wp_bind, (wp_the_bev _ bev0); [done|].
    apply wp_bind. eapply wp_mono; [by apply Hm|]. intros x w1 [Hw1 _]. by apply Hk. }
  assert (Hcall : forall (cb : option nat) (c : bool) f (call : nat -> user_call) bev w, world_ok (hold b 1 v) w -> bevs w !! b = Some bev ->
    still (f bev) = still bev -> links (f bev) = links bev ->
    wp (match cb with Some cb => when c (update_bev b f ;; user (call cb)) | None => ret tt end) (fun _ w' => world_ok (hold b 1 v) w' /\ is_Some (bevs w' !! b)) w).
  { intros cb c f call bev w0 Hw0 Eb0 Hs Hl. destruct cb as [cb|]; [|apply wp_ret; split; [done | by eexists]]. apply wp_when; intros _; [|split; [done | by eexists]].
    by apply (wp_noted _ b bev). }
  apply (Hstep (fun bev => _)); [intros bev w0 Hw0 Eb0; by apply (Hcall _ _ _ (fun cb => EventCallback cb b BEV_EVENT_CONNECTED) bev) | | done]. intros w1 Hw1.
  apply (Hstep (fun bev => _)); [intros bev w0 Hw0 Eb0; by apply (Hcall _ _ _ (fun cb => ReadCallback cb b) bev) | | done]. intros w2 Hw2.
  apply (Hstep (fun bev => _)); [intros bev w0 Hw0 Eb0; by apply (Hcall _ _ _ (fun cb => WriteCallback cb b) bev) | | done]. intros w3 Hw3.
  apply (Hstep (fun bev => _)); [intros bev w0 Hw0 Eb0; by apply (Hcall _ _ _ (fun cb => EventCallback cb b (eventcb_pending bev)) bev) | | done]. intros w4 Hw4.
  by apply (wp_release Hev v b).
Qed.

Lemma wp_run_deferred v w : world_ok v w -> wp run_deferred (fun _ w' => world_ok v w') w.
Proof using Hev.
  intros Hw. unfold run_deferred. apply wp_bind, wp_asks. destruct (deferred_queue w) as [|b q] eqn:Eq; [by apply wp_ret|].
  destruct (wo_queue _ _ Hw) as [Hn Hq]. rewrite Eq in Hn, Hq. apply list.NoDup_cons in Hn as [Hb Hn].
  destruct (proj1 (Hq b)) as (bev & Eb & Hd); [apply elem_of_cons; by left|]. destruct (wo_refcnt _ _ Hw b bev Eb) as [Hr Hp]. rewrite Hd in Hr. destruct (wo_refs _ _ Hw b) as [Hh _].
  apply wp_bind, wp_modify. apply wp_bind, (wp_update_bev _ _ bev); [done|]. apply wp_run_locked; [|done].
  apply (world_one v (hold b 1 v) w _ b bev (bev <| deferred_cb_queued := false |>)); try done; cbn.
  - apply (bev_ok_still _ _ _ bev); [done | by apply (wo_bevs _ _ Hw)].
  - intros y Hy. rewrite decide_False by done. by rewrite Z.add_0_r.
  - rewrite decide_True by done. lia.
  - rewrite decide_True by done. cbn in Hr. lia.
  - intros y. case_decide as Hy; [subst y; split; [done | by intros ?]|]. rewrite Eq, elem_of_cons. intuition.
Qed.
End life.
