(* ===== verification/BevRun.v ===== *)
(** What the application and the base can do to bufferevents, one action after the other:
    the invariant of [BevInv] holds after each. *)

From stdpp Require Import gmap.
From S2P Require Import Prelude StateOp MinHeap EvChain Evbuffer EvExpand EvbufferSpec EvbufferProps EvSpace EvSocket EvIO EventData EventCore TokenBucket Bev RateLimit BevSocket BevInv BevWorld BevGroups BevLimits BevTimers BevGroupOps BevActs BevTransfer BevLife.

(** The calls of the application, and what the base, the sockets and the resolver do:
    the clock moves, sockets become ready, timers run, lookups are answered. *)
Inductive action :=
  | AtTime (tv : timeval)
  | NewConfig (c : nat) (rr rb wr wb : Z) (tick : option timeval)
  | SocketNew (fd opts : Z)
  | SetCallbacks (b : nat) (r w e : option nat)
  | Enable (b : nat) (event : Z)
  | Disable (b : nat) (event : Z)
  | SetTimeouts (b : nat) (tr tw : option timeval)
  | SetWatermark (b : nat) (events l h : Z)
  | Write (b : nat) (data : list Z)
  | Read (b : nat) (n : Z)
  | ReadReady (b : nat) (event readable : Z) (recv : list Z -> recv_result) (retriable : bool)
  | WriteReady (b : nat) (event c : Z) (send : list (list Z) -> Z) (retriable : bool)
  | SetFd (b : nat) (fd : Z)
  | Connect (b : nat) (fd : Z) (own : bool) (r : Z)
  | Lookup (b : nat) (known : bool) (port err : Z)
  | Answered (b : nat) (result fd : Z) (own : bool) (r : Z)
  | SetRateLimit (b : nat) (c : option nat)
  | DecrementLimit (d : direction) (b : nat) (n : Z)
  | Refill (b : nat)
  | GroupNew (c : nat)
  | GroupSetCfg (g : nat) (c : option nat)
  | GroupMinShare (g : nat) (share : Z)
  | GroupDecrement (d : direction) (g : nat) (n : Z)
  | GroupRefill (g : nat)
  | GroupAdd (b g : nat)
  | GroupRemove (b : nat)
  | GroupFree (g : nat)
  | RunDeferred
  | Free (b : nat).

Section run.
Context {A : Arch} {M : Allocator} {E : BevEnv}.

(** The operation without its result, and how it changes what is held and broken. *)
Definition with_view {T} (f : view -> view) (m : world_op T) : world_op (view -> view) := let! _ := m in ret f.
Definition quietly {T} : world_op T -> world_op (view -> view) := with_view (fun v => v).

Definition act (a : action) : world_op (view -> view) :=
  match a with
  | AtTime tv => quietly (modify (fun w => w <| now := tv |>))
  | NewConfig c rr rb wr wb tick =>
    let! r := lift (ev_token_bucket_cfg_new rr rb wr wb tick) in
    quietly (modify (fun w => w <| cfgs := match r with Some cf => <[c := cf]> (cfgs w) | None => cfgs w end |>))
  | SocketNew fd opts =>
    let! r := bufferevent_socket_new fd opts in ret (match r with Some b => hold b 1 | None => fun v => v end)
  | SetCallbacks b r w e => quietly (bufferevent_setcb b r w e)
  | Enable b event => quietly (bufferevent_enable b event)
  | Disable b event => quietly (bufferevent_disable b event)
  | SetTimeouts b tr tw => quietly (bufferevent_set_timeouts b tr tw)
  | SetWatermark b events l h => quietly (bufferevent_setwatermark b events l h)
  | Write b data => quietly (bufferevent_write b data)
  | Read b n => quietly (bufferevent_read b n)
  | ReadReady b event readable recv retriable => quietly (bufferevent_readcb b event readable recv retriable)
  | WriteReady b event c send retriable =>
    let! bev := the_bev b in
    with_view (after_connect b (negb (event =? EV_TIMEOUT) && conn_failed bev c)) (bufferevent_writecb b event c send retriable)
  | SetFd b fd => with_view (refit b fd) (bufferevent_setfd b fd)
  | Connect b fd own r => with_view (connect_view b fd r) (bufferevent_socket_connect b fd own r)
  | Lookup b known port err =>
    with_view (if negb known || (port <? 1) || (65535 <? port) then fun v => v else hold b 1)
      (bufferevent_socket_connect_hostname b known port err)
  | Answered b result fd own r => with_view (answer_view b result fd r) (bufferevent_connect_getaddrinfo_cb b result fd own r)
  | SetRateLimit b c => quietly (bufferevent_set_rate_limit b c)
  | DecrementLimit d b n => quietly (bufferevent_decrement_limit d b n)
  | Refill b => quietly (run_refill b)
  | GroupNew c => quietly (bufferevent_rate_limit_group_new c)
  | GroupSetCfg g c => quietly (bufferevent_rate_limit_group_set_cfg g c)
  | GroupMinShare g share => quietly (bufferevent_rate_limit_group_set_min_share g share)
  | GroupDecrement d g n => quietly (bufferevent_rate_limit_group_decrement d g n)
  | GroupRefill g => quietly (_bev_group_refill_callback g)
  | GroupAdd b g => quietly (bufferevent_add_to_rate_limit_group b g)
  | GroupRemove b => quietly (bufferevent_remove_from_rate_limit_group b)
  | GroupFree g => quietly (bufferevent_rate_limit_group_free g)
  | RunDeferred => quietly run_deferred
  | Free b => with_view (hold b (-1)) (bufferevent_free b)
  end.

(** ** When an action is possible *)

Definition alive (w : world) (b : nat) : Prop := is_Some (bevs w !! b).

(** Ticks of a millisecond at least, and of less than the milliseconds that a [long] holds. *)
Definition tick_ok (t : timeval) : Prop :=
  0 <= tv_sec t < 2 ^ 21 /\ 0 <= tv_usec t < 1000000 /\ (1 <= tv_sec t \/ 1000 <= tv_usec t).

(** The pointers are valid, the sizes fit their types, sockets give and take no more than
    they are offered, only events that are added become active, only pending timers run. *)
Definition possible (v : view) (w : world) (a : action) : Prop :=
  match a with
  | AtTime _ | SocketNew _ _ | RunDeferred => True
  | NewConfig c rr rb wr wb tick => cfgs w !! c = None /\ rb <= INT_MAX /\ wb <= INT_MAX /\ (forall t, tick = Some t -> tick_ok t)
  | SetCallbacks b _ _ _ | Enable b _ | Disable b _ | SetTimeouts b _ _ | SetFd b _ | Connect b _ _ _ | Lookup b _ _ _
  | GroupRemove b => alive w b
  | SetWatermark b _ _ h => alive w b /\ 0 <= h <= EV_SSIZE_MAX
  | Write b data => alive w b /\ data <> [] /\ small (zlen data)
  | Read b n => alive w b /\ 0 <= n <= INT_MAX
  | ReadReady b _ _ recv _ =>
    recv_ok recv /\ exists bev, bevs w !! b = Some bev /\ ev_added (ev_read bev) = true /\ total_len (input bev) <= EV_SSIZE_MAX
  | WriteReady b _ _ send _ => send_ok send /\ exists bev, bevs w !! b = Some bev /\ ev_added (ev_write bev) = true
  | Answered b _ _ _ _ | Free b => 0 < holds v b
  | SetRateLimit b c => alive w b /\ (forall c', c = Some c' -> is_Some (cfgs w !! c'))
  | DecrementLimit d b n => exists bev rl c cf, bevs w !! b = Some bev /\ rate_limiting bev = Some rl /\ cfg rl = Some c /\
      cfgs w !! c = Some cf /\ decr_ok cf d n (bucket rl)
  | Refill b => exists bev rl, bevs w !! b = Some bev /\ rate_limiting bev = Some rl /\ refill_pending rl = true
  | GroupNew c => is_Some (cfgs w !! c)
  | GroupSetCfg g c => is_Some (groups w !! g) /\ (forall c', c = Some c' -> is_Some (cfgs w !! c'))
  | GroupMinShare g share => is_Some (groups w !! g) /\ 1 <= share
  | GroupDecrement d g n => exists gr, groups w !! g = Some gr /\ decr_ok (rate_limit_cfg gr) d n (rate_limit gr)
  | GroupRefill g => is_Some (groups w !! g)
  | GroupAdd b g => alive w b /\ is_Some (groups w !! g)
  | GroupFree g => exists gr, groups w !! g = Some gr /\ members gr = []
  end.

(** Nothing yet. *)
Definition no_view : view := {| holds := fun _ => 0; broken := fun _ => false |}.
Definition no_world : world := {| bevs := ∅; groups := ∅; cfgs := ∅; now := evutil_timerclear; user_calls := []; deferred_queue := [];
  closed := []; next_id := 0; event_calls := 0; rands := 0 |}.

(** What can come about. *)
Inductive reached : view -> world -> Prop :=
  | reached_none : reached no_view no_world
  | reached_act v w a f w' : reached v w -> possible v w a -> act a w = Some (f, w') -> reached (f v) w'.

(** ** The invariant *)

Context (Hev : events_ok) (Hmem : mem_ok).

Lemma world_now v w tv : world_ok v w -> world_ok v (w <| now := tv |>).
Proof. intros []. by split. Qed.

Lemma rlim_ok_more cs c cf rl : cs !! c = None -> rlim_ok cs rl -> rlim_ok (<[c := cf]> cs) rl.
Proof.
  intros Hc Hr c' Hc'. destruct (Hr c' Hc') as (Hi & cf' & Hcf & H). split; [done|]. exists cf'. split; [|done].
  rewrite lookup_insert_ne; [done|]. intros <-. congruence.
Qed.

Lemma bev_ok_more gs cs c cf br bev : cs !! c = None -> bev_ok gs cs br bev -> bev_ok gs (<[c := cf]> cs) br bev.
Proof.
  intros Hc [Hcore He Hk Hf]. split; [|done..]. split; try apply Hcore. intros rl Hrl. by apply rlim_ok_more, (co_rlim _ _ Hcore).
Qed.

Lemma world_config v w c cf : world_ok v w -> cfgs w !! c = None -> limits_ok cf -> world_ok v (w <| cfgs := <[c := cf]> (cfgs w) |>).
Proof.
  intros Hw Hc Hcf. split; try apply Hw; cbn.
  - intros b bev Eb. by apply bev_ok_more, (wo_bevs _ _ Hw).
  - intros c' cf' Hl. destruct (decide (c' = c)) as [->|]; [rewrite lookup_insert_eq in Hl; by injection Hl as <- |].
    rewrite lookup_insert_ne in Hl by done. by apply (wo_cfgs _ _ Hw c').
Qed.

Lemma tick_ok_msecs t : tick_ok t -> is_Some (tick_msecs t).
Proof.
  intros (Hs & Hu & _). unfold tick_msecs. assert (Hland : Z.land (tv_usec t) MICROSECONDS_MASK = tv_usec t).
  { change MICROSECONDS_MASK with (Z.ones 20). rewrite Z.land_ones by lia. apply Z.mod_small. lia. }
  rewrite Hland. pose proof (Z.div_pos (tv_usec t) 1000 ltac:(lia) ltac:(lia)). pose proof (Z.div_lt_upper_bound (tv_usec t) 1000 1000 ltac:(lia) ltac:(lia)).
  rewrite !swrap_small, !Z.eqb_refl by lia. by eexists.
Qed.

Lemma new_config_ok rr rb wr wb tick : rb <= INT_MAX -> wb <= INT_MAX -> (forall t, tick = Some t -> tick_ok t) ->
  exists r, ev_token_bucket_cfg_new rr rb wr wb tick = Some r /\ forall cf, r = Some cf -> limits_ok cf.
Proof.
  intros Hrb Hwb Ht. destruct (ev_token_bucket_cfg_new rr rb wr wb tick) as [r|] eqn:Er.
  - exists r. split; [done|]. intros cf ->. split.
    + apply (ev_token_bucket_cfg_new_ok rr rb wr wb tick); [|done]. destruct tick as [t|]; [|done]. destruct (Ht t eq_refl) as (?&?&?). lia.
    + revert Er. unfold ev_token_bucket_cfg_new. destruct (_ || _ || _ || _); [done|]. destruct (_ || _ || _ || _); [done|].
      destruct (mm_malloc _); [|done]. destruct (tick_msecs _); [|done]. intros [= <-] []; cbn; lia.
  - exfalso. revert Er. unfold ev_token_bucket_cfg_new. destruct (_ || _ || _ || _); [done|]. destruct (_ || _ || _ || _); [done|].
    destruct (mm_malloc _); [|done]. destruct (tick_ok_msecs (default {| tv_sec := 1; tv_usec := 0 |} tick)) as [m ->]; [|done].
    destruct tick as [t|]; [by apply Ht|]. unfold tick_ok. cbn. lia.
Qed.

Lemma wp_with_view {T} f (m : world_op T) (Q : T -> world -> Prop) v w : wp m Q w -> (forall x w', Q x w' -> world_ok (f v) w') ->
  wp (with_view f m) (fun f w' => world_ok (f v) w') w.
Proof. intros H HQ. apply wp_bind. eapply wp_mono; [apply H|]. intros x w' Hx. apply wp_ret. by apply (HQ x). Qed.

Lemma wp_quietly {T} (m : world_op T) v w : wp m (fun _ w' => world_ok v w') w -> wp (quietly m) (fun f w' => world_ok (f v) w') w.
Proof. intros H. by apply (wp_with_view _ _ _ _ _ H). Qed.

Lemma wp_quietly_and {T} (m : world_op T) v (P : T -> world -> Prop) w : wp m (fun x w' => world_ok v w' /\ P x w') w ->
  wp (quietly m) (fun f w' => world_ok (f v) w') w.
Proof. intros H. apply (wp_with_view _ _ _ _ _ H). by intros x w' [Hx _]. Qed.

Lemma held_is_alive v w b : world_ok v w -> 0 < holds v b -> alive w b.
Proof. intros Hw Hh. by apply (wo_refs _ _ Hw b). Qed.

(** What the application calls on one bufferevent. *)
Lemma act_app_ok v w a : world_ok v w -> possible v w a ->
  match a with
  | SetCallbacks _ _ _ _ | Enable _ _ | Disable _ _ | SetTimeouts _ _ _ | SetWatermark _ _ _ _ | Write _ _ | Read _ _ | SetFd _ _
  | Connect _ _ _ _ | Lookup _ _ _ _ | Answered _ _ _ _ _ | Free _ => wp (act a) (fun f w' => world_ok (f v) w') w
  | _ => True
  end.
Proof using Hev Hmem.
  intros Hw Hp. destruct a; cbn [possible act] in *; try done.
  - destruct Hp as [bev Eb]. eapply wp_quietly_and. by apply (wp_setcb v b bev).
  - apply wp_quietly. by apply wp_enable_world.
  - eapply wp_quietly_and. by apply wp_disable_world.
  - destruct Hp as [bev Eb]. apply wp_quietly. by apply (wp_set_timeouts Hev v b bev).
  - destruct Hp as [[bev Eb] Hh]. apply wp_quietly. by apply (wp_setwatermark Hev v b bev).
  - destruct Hp as ([bev Eb] & Hd & Hs). eapply wp_with_view; [by apply (wp_write Hev v b bev)|]. by intros x w' (_ & Hw' & _).
  - destruct Hp as ([bev Eb] & Hn). eapply wp_quietly_and. by apply (wp_read Hev v b bev).
  - destruct Hp as [bev Eb]. eapply wp_with_view; [by apply (wp_setfd Hev v b bev)|]. by intros x w' [Hw' _].
  - destruct Hp as [bev Eb]. eapply wp_with_view; [by apply (wp_socket_connect Hev v b bev)|]. by intros x w'.
  - destruct Hp as [bev Eb]. eapply wp_with_view; [by apply (wp_connect_hostname Hev v b bev)|]. intros x w'. by destruct (_ || _).
  - destruct (held_is_alive v w b Hw Hp) as [bev Eb]. eapply wp_with_view; [by apply (wp_answer Hev v b bev)|]. by intros x w'.
  - destruct (held_is_alive v w b Hw Hp) as [bev Eb]. eapply wp_with_view; [by apply (wp_free Hev v b bev)|]. by intros x w'.
Qed.

(** Limits and groups. *)
Lemma act_limit_ok v w a : world_ok v w -> possible v w a ->
  match a with
  | SetRateLimit _ _ | DecrementLimit _ _ _ | Refill _ | GroupNew _ | GroupSetCfg _ _ | GroupMinShare _ _ | GroupDecrement _ _ _ | GroupRefill _
  | GroupAdd _ _ | GroupRemove _ | GroupFree _ => wp (act a) (fun f w' => world_ok (f v) w') w
  | _ => True
  end.
Proof using Hev.
  intros Hw Hp. destruct a; cbn [possible act] in *; try done.
  - destruct Hp as [[bev Eb] Hc]. apply wp_quietly. destruct c as [c|]; [|by apply (wp_remove_rate_limit Hev v b bev)].
    destruct (Hc c eq_refl) as [cf Hcf]. by apply (wp_set_some Hev v b c cf bev).
  - destruct Hp as (bev & rl & c & cf & Eb & Hr & Hc & Hcf & Hd). apply wp_quietly. by apply (wp_decrement_limit Hev v d b bev rl c cf).
  - destruct Hp as (bev & rl & Eb & Hr & _). apply wp_quietly. apply (wp_run_refill Hev v b bev); [done..|]. by eexists.
  - destruct Hp as [cf Hcf]. apply wp_quietly. by apply (wp_group_new Hev v c cf).
  - destruct Hp as [[gr Hg] Hc]. apply wp_quietly. by apply (wp_group_set_cfg Hev v g gr).
  - destruct Hp as [[gr Hg] Hs]. apply wp_quietly. by apply (wp_set_min_share v g gr).
  - destruct Hp as (gr & Hg & Hd). apply wp_quietly. by apply (wp_group_decrement Hev v d g gr).
  - apply wp_quietly. by apply wp_group_refill.
  - destruct Hp as [[bev Eb] Hg]. apply wp_quietly. by apply (wp_add_to_group Hev v b bev).
  - destruct Hp as [bev Eb]. eapply wp_quietly_and. by apply (wp_remove_from_group Hev v b bev).
  - destruct Hp as (gr & Hg & Hm). apply wp_quietly. by apply (wp_group_free Hev v g gr).
Qed.

Lemma act_ok v w a : world_ok v w -> possible v w a -> wp (act a) (fun f w' => world_ok (f v) w') w.
Proof using Hev Hmem.
  intros Hw Hp. pose proof (act_app_ok v w a Hw Hp) as H1. pose proof (act_limit_ok v w a Hw Hp) as H2. destruct a; try assumption; clear H1 H2; cbn [possible act] in *.
  - apply wp_quietly, wp_modify. by apply world_now.
  - destruct Hp as (Hc & Hrb & Hwb & Ht). destruct (new_config_ok rr rb wr wb tick Hrb Hwb Ht) as (r & Hr & Hok).
    apply wp_bind, (wp_lift _ r); [done|]. apply wp_quietly, wp_modify. destruct r as [cf|]; [by apply world_config, Hok | by destruct Hw].
  - apply wp_bind. eapply wp_mono; [by apply (wp_socket_new v)|]. intros [b|] w' Hw'; by apply wp_ret.
  - destruct Hp as (Hr & bev & Eb & _ & Hl). eapply wp_quietly_and. by apply (wp_readcb Hev v b bev).
  - destruct Hp as (Hs & bev & Eb & _). apply wp_bind, (wp_the_bev _ bev); [done|]. eapply wp_with_view; [by apply (wp_writecb Hev v b bev)|].
    by intros x w' [Hw' _].
  - apply wp_quietly. by apply wp_run_deferred.
Qed.

Lemma no_world_ok : world_ok no_view no_world.
Proof.
  split; cbn; try done; try (split; try done; set_solver).
  - split; [constructor|]. intros b. split; [by intros ?%elem_of_nil | by intros (? & ? & _)].
  - split; by intros ? [].
Qed.

Lemma reached_ok v w : reached v w -> world_ok v w.
Proof using Hev Hmem.
  induction 1 as [|v w a f w' _ IH Hp Ha]; [apply no_world_ok|]. pose proof (act_ok v w a IH Hp) as H. unfold wp in H. by rewrite Ha in H.
Qed.
End run.
