(* ===== verification/BevProps.v ===== *)
(** The theorems about bufferevents: the invariant, that nothing stalls, that limits and
    watermarks are kept, and what the callbacks of the socket do. *)

From stdpp Require Import gmap.
From S2P Require Import Prelude StateOp MinHeap EvChain Evbuffer EvExpand EvbufferSpec EvbufferProps EvSpace EvSocket EvIO EventData EventCore TokenBucket Bev RateLimit BevSocket BevInv BevWorld BevGroups BevLimits BevTimers BevTransfer BevLife BevRun.

(** ** What a suspended direction waits for *)

Section waiting.
Context {A : Arch} {M : Allocator}.

(** The application takes data out of the input; a timer fills the bucket; the group is
    unsuspended, or the resolver answers. *)
Definition waits (w : world) (d : direction) (bev : bufferevent) : Prop :=
  (d = Reading /\ high (wm_read bev) <> 0 /\ high (wm_read bev) <= total_len (input bev)) \/
  (exists rl, rate_limiting bev = Some rl /\ is_Some (cfg rl) /\ refill_pending rl = true) \/
  (exists g gr, group_of bev = Some g /\ groups w !! g = Some gr /\ group_suspended d gr = true) \/
  has (suspended d bev) BEV_SUSPEND_LOOKUP = true.

Lemma suspended_waits v w b bev d : world_ok v w -> bevs w !! b = Some bev -> suspended d bev <> 0 -> waits w d bev.
Proof.
  intros Hw Eb Hs. destruct (wo_bevs _ _ Hw b bev Eb) as [_ _ Hk Hf]. unfold waits.
  pose proof (Hf d _ flag_wm) as (H1 & _). pose proof (Hf d _ flag_bw) as (_ & H2 & _). pose proof (Hf d _ flag_group) as (_ & _ & H3).
  specialize (H1 eq_refl). specialize (H2 eq_refl). specialize (H3 eq_refl).
  pose proof (known_some _ (Hk d) Hs) as H. repeat (apply orb_true_iff in H as [H|H]); [left | right; left | right; right; left | by right; right; right].
  - by apply H1.
  - by rewrite H in H2.
  - rewrite H in H3. destruct (group_of bev) as [g|]; [|done]. exists g. destruct (groups w !! g) as [gr|]; [|done]. by exists gr.
Qed.

(** The bucket, or that of the group, is empty. *)
Definition no_tokens (w : world) (d : direction) (bev : bufferevent) : Prop :=
  (exists rl, rate_limiting bev = Some rl /\ is_Some (cfg rl) /\ limit d (bucket rl) <= 0) \/
  (exists g gr, group_of bev = Some g /\ groups w !! g = Some gr /\ limit d (rate_limit gr) <= 0).

Lemma no_tokens_suspended v w b bev d : world_ok v w -> bevs w !! b = Some bev -> no_tokens w d bev -> suspended d bev <> 0.
Proof.
  intros Hw Eb Hn Hs. destruct (unsuspended_solvent v w b bev d Hw Eb Hs) as [H1 H2]. destruct Hn as [(rl & Hr & Hc & Hl)|(g & gr & Hg & Hgr & Hl)].
  - specialize (H1 rl Hr Hc). lia.
  - destruct (H2 g gr Hg Hgr). lia.
Qed.
End waiting.

Section claims.
Context {A : Arch} {M : Allocator} {E : BevEnv} (Hev : events_ok).



(** C16: Without tokens nothing is transferred: when its own bucket or that of its group is empty,
    a direction is suspended and its event is not added; only the write event of a connection in the
    making is. *)
Theorem no_tokens_no_io v w b bev d : mem_ok -> reached v w -> bevs w !! b = Some bev -> no_tokens w d bev ->
  suspended d bev <> 0 /\ (d = Reading \/ connecting bev = false -> ev_added (bev_ev d bev) = false).
Proof using Hev.
  intros Hmem Hr Eb Hn. pose proof (reached_ok Hev Hmem v w Hr) as Hw. pose proof (no_tokens_suspended v w b bev d Hw Eb Hn) as Hs.
  split; [done|]. intros Hd. assert (Hm : may d bev = false) by (unfold may; by rewrite (proj2 (Z.eqb_neq _ _) Hs), andb_false_r).
  pose proof (bo_events _ _ _ _ (wo_bevs _ _ Hw b bev Eb)) as He. apply not_true_iff_false. intros Ha. destruct d; cbn [bev_ev] in Ha.
  - apply (ef_read _ _ He) in Ha. congruence.
  - apply (ef_write _ _ He) in Ha as [Ha|Ha]; [|congruence]. destruct Hd; [done | congruence].
Qed.


End claims.

(** C40: Updating a bucket adds the tokens of the ticks that have passed and stops at the
    maximum, without wrapping around; when the clock stands still or goes back nothing
    changes. *)
Theorem ev_token_bucket_update_spec {A : Arch} cf b tick : cfg_ok cf -> (forall d, level cf d b) ->
  exists r b', ev_token_bucket_update b cf tick = (r, b') /\ (forall d, level cf d b') /\
    let n := wrap 32 (tick - last_updated b) in
    (0 < n <= INT_MAX -> r = 1 /\ last_updated b' = tick /\ forall d, limit d b' = Z.min (maximum d cf) (limit d b + n * rate d cf)) /\
    (~ 0 < n <= INT_MAX -> r = 0 /\ b' = b).
Proof.
  intros Hc Hl. pose proof (ev_token_bucket_update_limit cf b tick Hc Hl) as H. pose proof (fun d => ev_token_bucket_update_level cf b tick d Hc Hl) as H2.
  destruct (ev_token_bucket_update b cf tick) as [r b']. by exists r, b'.
Qed.

(** ** Witnesses *)

Section after.
Context {A : Arch} {M : Allocator} {E : BevEnv}.

Definition after (a : action) (w : world) : world := match act a w with Some (_, w') => w' | None => w end.
Definition view_after (a : action) (v : view) (w : world) : view := match act a w with Some (f, _) => f v | None => v end.

(** One action more. *)
Lemma reached_after a v w w' : reached v w -> possible v w a -> match act a w with Some _ => True | None => False end ->
  after a w = w' -> reached (view_after a v w) w'.
Proof.
  intros Hr Hp Ha <-. unfold view_after, after. destruct (act a w) as [[f w']|] eqn:Ea; [|done]. by apply (reached_act v w a).
Defined.
End after.

#[local] Existing Instance win64.
#[local] Existing Instance zero_allocator.

#[refine, local] Instance plain_env : BevEnv := {| bev_sizeof := fun _ => 8; event_ok := fun _ => true; weakrand := fun _ => 0 |}.
Proof. done. Defined.

Lemma plain_events_ok : events_ok.
Proof. done. Defined.

(** A socket with a limit of 10 bytes a second and 20 at once, enabled for both directions. *)
Definition world1 : world := Eval vm_compute in after (NewConfig 100 10 20 10 20 None) no_world.
Definition world2 : world := Eval vm_compute in after (SocketNew 3 0) world1.
Definition world3 : world := Eval vm_compute in after (Enable 0 (Z.lor EV_READ EV_WRITE)) world2.
Definition world4 : world := Eval vm_compute in after (SetRateLimit 0 (Some 100%nat)) world3.
Definition view1 : view := view_after (NewConfig 100 10 20 10 20 None) no_view no_world.
Definition view2 : view := view_after (SocketNew 3 0) view1 world1.
Definition view3 : view := view_after (Enable 0 (Z.lor EV_READ EV_WRITE)) view2 world2.
Definition view4 : view := view_after (SetRateLimit 0 (Some 100%nat)) view3 world3.

Lemma reached4 : reached view4 world4.
Proof.
  assert (H1 : reached view1 world1) by (apply reached_after; [apply reached_none | by splits | exact I | reflexivity]).
  assert (H2 : reached view2 world2) by (by apply reached_after).
  assert (H3 : reached view3 world3) by (apply reached_after; [done | by eexists | exact I | reflexivity]).
  apply reached_after; [done | | exact I | reflexivity]. split; [by eexists|]. intros c [= <-]. by eexists.
Defined.

(** Five bytes more than the bucket has are taken; then data is written. *)
Definition world5 : world := Eval vm_compute in after (DecrementLimit Reading 0 15) world4.
Definition world6 : world := Eval vm_compute in after (Write 0 [104; 101; 108; 108; 111]) world5.
Definition view5 : view := view_after (DecrementLimit Reading 0 15) view4 world4.
Definition view6 : view := view_after (Write 0 [104; 101; 108; 108; 111]) view5 world5.

Lemma reached6 : reached view6 world6.
Proof.
  assert (H5 : reached view5 world5).
  { apply reached_after; [exact reached4 | | exact I | reflexivity]. do 4 eexists. splits; try reflexivity. split; by vm_compute. }
  apply reached_after; [done | | exact I | reflexivity]. split; [by eexists|]. split; [done|]. by apply small_win64; vm_compute.
Defined.

(** A socket that delivers or accepts [data] when there is room. *)
Definition delivers (data : list Z) (lens : list Z) : recv_result := if zlen data <=? foldr Z.add 0 lens then RecvBytes data else RecvFailed.
Lemma delivers_ok data : recv_ok (delivers data).
Proof. intros lens d. unfold delivers. destruct (Z.leb_spec (zlen data) (foldr Z.add 0 lens)); [|done]. by intros [= <-]. Defined.



Lemma no_tokens_no_io_witness : exists bev, bevs world6 !! 0%nat = Some bev /\ no_tokens world6 Reading bev /\ ev_added (ev_read bev) = false.
Proof.
  destruct (bevs world6 !! 0%nat) as [bev|] eqn:Eb; [|discriminate Eb]. exists bev. split; [done|].
  assert (Hn : no_tokens world6 Reading bev) by (injection Eb as <-; left; eexists; splits; [reflexivity | by eexists | by vm_compute]). split; [done|].
  apply (no_tokens_no_io plain_events_ok view6 world6 0 bev Reading zero_mem_ok reached6 Eb Hn). by left.
Defined.

Lemma world4_ok : world_ok view4 world4.
Proof. exact (reached_ok plain_events_ok zero_mem_ok view4 world4 reached4). Defined.
Lemma world6_ok : world_ok view6 world6.
Proof. exact (reached_ok plain_events_ok zero_mem_ok view6 world6 reached6). Defined.



Lemma ev_token_bucket_update_witness : exists cf b r b', ev_token_bucket_update b cf 3 = (r, b') /\ limit Reading b' = 20.
Proof.
  set (cf := {| read_rate := 10; read_maximum := 20; write_rate := 10; write_maximum := 20; tick_timeout := {| tv_sec := 1; tv_usec := 0 |}; msec_per_tick := 1000 |}).
  set (b := {| read_limit := 5; write_limit := 5; last_updated := 1 |}).
  assert (Hc : cfg_ok cf) by (split; [intros []; (split; [split|]; by vm_compute) | split; by vm_compute]). assert (Hl : forall d, level cf d b) by (intros []; split; by vm_compute).
  destruct (ev_token_bucket_update_spec cf b 3 Hc Hl) as (r & b' & H1 & _ & H2 & _). exists cf, b, r, b'. split; [done|].
  destruct H2 as (_ & _ & H3); [by vm_compute|]. by rewrite H3.
Defined.
