(* ===== verification/EvmapSpec.v ===== *)
(** Correctness of the maps ([evmap.c]): every entry holds exactly the added
    events of its descriptor or signal, its counters count them, and the
    backend has been told exactly the union of what they wait for. *)

From S2P Require Import Prelude MinHeap EventData Evmap EventCore EventQueue.

(** ** Abstract view *)

Definition io_kind (b : event_base) (e : evid) : Prop :=
  has (ev_events (structs b e)) (Z.lor EV_READ EV_WRITE) = true.

Definition waiting (b : event_base) (mask : Z) (l : list evid) : Z :=
  zlen (filter (fun e => has (ev_events (structs b e)) mask = true) l).

(** What the successful calls of a log leave registered for a descriptor. *)
Definition registered_step (fd cur : Z) (c : backend_call * bool) : Z :=
  let '(c, ok) := c in
  if ok && negb (bc_signal c) && (bc_fd c =? fd) then
    match bc_op c with
    | BackendAdd => Z.lor cur (Z.land (bc_events c) (Z.lor EV_READ EV_WRITE))
    | BackendDel => Z.land cur (Z.lnot (bc_events c))
    end
  else cur.

Definition registered (log : list (backend_call * bool)) (fd : Z) : Z :=
  foldl (registered_step fd) 0 log.

Definition signal_step (sig : Z) (cur : bool) (c : backend_call * bool) : bool :=
  let '(c, ok) := c in
  if ok && bc_signal c && (bc_fd c =? sig) then
    match bc_op c with BackendAdd => true | BackendDel => false end
  else cur.

Definition signal_registered (log : list (backend_call * bool)) (sig : Z) : bool :=
  foldl (signal_step sig) false log.

Definition io_entry (b : event_base) (fd : Z) : evmap_io :=
  default evmap_io_init (mjoin (get_slot (io b) fd)).

Definition signal_entry (b : event_base) (sig : Z) : list evid :=
  default [] (mjoin (get_slot (sigmap b) sig)).

Record io_entry_ok (b : event_base) (I : evid -> Prop) (fd : Z) (ctx : evmap_io) : Prop := {
  ie_events : lists_exactly (io_events ctx) (fun e =>
    I e /\ io_kind b e /\ ev_fd (structs b e) = fd);
  ie_read : nread ctx = waiting b EV_READ (io_events ctx);
  ie_write : nwrite ctx = waiting b EV_WRITE (io_events ctx);
  ie_fits : nread ctx <= 65535 /\ nwrite ctx <= 65535 }.

(** The maps of [b] hold the events of [I]. *)
Record map_ok (b : event_base) (I : evid -> Prop) : Prop := {
  mo_io : forall fd, 0 <= fd -> io_entry_ok b I fd (io_entry b fd);
  mo_signal : forall sig, 0 <= sig -> lists_exactly (signal_entry b sig) (fun e =>
    I e /\ ~ io_kind b e /\ ev_fd (structs b e) = sig);
  mo_backend : forall fd, 0 <= fd ->
    registered (backend_log b) fd = old_events (io_entry b fd);
  mo_signal_backend : forall sig, 0 <= sig ->
    signal_registered (backend_log b) sig = negb (bool_decide (signal_entry b sig = [])) }.

(** Descriptors and signals small enough for the sizes of the maps. *)
Definition small_fd (fd : Z) : Prop := fd < 2 ^ 27.

(** ** Slots *)

Lemma make_space_loop_ok fuel nentries slot :
  1 <= nentries -> 0 <= slot < 2 ^ 27 -> slot < nentries * 2 ^ Z.of_nat fuel ->
  nentries <= Z.max 32 (2 * slot) ->
  exists n', make_space_loop (S fuel) nentries slot ENTRY_SIZE = Some n' /\ slot < n'.
Proof.
  revert nentries. induction fuel as [|fuel IH]; intros m Hm Hs Hf Hb.
  - cbn [make_space_loop]. rewrite (proj2 (Z.leb_gt m slot)) by (cbn in Hf; lia).
    rewrite (proj2 (Z.ltb_ge _ _)) by (unfold INT_MAX, ENTRY_SIZE; lia). exists m.
    split; [done | cbn in Hf; lia].
  - cbn [make_space_loop] in IH |- *. destruct (Z.leb_spec m slot) as [Hle|Hgt].
    + rewrite (proj2 (Z.ltb_ge _ _)) by (unfold INT_MAX; lia).
      rewrite Z.shiftl_mul_pow2 by done. apply (IH (m * 2 ^ 1)); [lia | done | | lia].
      rewrite Nat2Z.inj_succ, Z.pow_succ_r in Hf by lia. lia.
    + rewrite (proj2 (Z.ltb_ge _ _)) by (unfold INT_MAX, ENTRY_SIZE; lia). by exists m.
Qed.

Lemma get_slot_app {A} (map : list (option A)) k slot :
  mjoin (get_slot (map ++ replicate k None) slot) = mjoin (get_slot map slot).
Proof.
  unfold get_slot. destruct (slot <? 0); [done|].
  destruct (decide (Z.to_nat slot < length map)%nat).
  - by rewrite lookup_app_l by done.
  - rewrite lookup_app_r, (lookup_ge_None_2 map) by lia.
    destruct (replicate k None !! _) as [o|] eqn:Ho; [|done].
    by apply lookup_replicate in Ho as [-> _].
Qed.

(** Growing the array adds empty slots up to the one asked for. *)
Lemma make_space_ok {A} E (map : list (option A)) slot :
  0 <= slot < 2 ^ 27 ->
  exists r map', evmap_make_space E map slot ENTRY_SIZE = Some (r, map') /\
    (forall i, mjoin (get_slot map' i) = mjoin (get_slot map i)) /\
    (r = -1 \/ r = 0 /\ slot < zlen map').
Proof.
  intros Hs. unfold evmap_make_space.
  destruct (Z.leb_spec (zlen map) slot) as [Hle|Hgt]; [|by eauto 10].
  set (m := if zlen map =? 0 then 32 else zlen map).
  assert (Hm : 1 <= m /\ m <= Z.max 32 slot /\ zlen map <= m).
  { unfold m. pose proof (zlen_nonneg map). destruct (Z.eqb_spec (zlen map) 0); lia. }
  destruct (make_space_loop_ok 31 m slot) as (n' & Hn & Hlt); try lia.
  rewrite Hn. cbn [mbind option_bind]. destruct (map_realloc E _).
  - eexists _, _. split; [done|]. split; [intros i; apply get_slot_app|]. right.
    split; [done|]. unfold zlen in *. rewrite length_app, length_replicate. lia.
  - eexists _, _. split; [done|]. split; [done | by left].
Qed.

Lemma get_slot_inside {A} (map : list (option A)) slot :
  0 <= slot < zlen map -> exists x, get_slot map slot = Some x.
Proof.
  intros H. unfold get_slot, zlen in *. rewrite (proj2 (Z.ltb_ge _ _)) by lia.
  apply lookup_lt_is_Some_2. lia.
Qed.

Lemma get_put_eq {A} (map : list (option A)) slot x :
  0 <= slot < zlen map -> mjoin (get_slot (put_slot map slot x) slot) = Some x.
Proof.
  intros H. unfold get_slot, put_slot, zlen in *. rewrite (proj2 (Z.ltb_ge _ _)) by lia.
  by rewrite list_lookup_insert_eq by lia.
Qed.

Lemma get_put_ne {A} (map : list (option A)) slot i x :
  0 <= slot -> i <> slot -> get_slot (put_slot map slot x) i = get_slot map i.
Proof.
  intros H Hi. unfold get_slot, put_slot. destruct (Z.ltb_spec i 0); [done|].
  rewrite list_lookup_insert_ne by lia. done.
Qed.

Lemma zlen_put {A} (map : list (option A)) slot x : zlen (put_slot map slot x) = zlen map.
Proof. unfold zlen, put_slot. by rewrite length_insert. Qed.

(** The entry of a slot, made if need be; every other entry stays. *)
Lemma get_slot_and_ctor_ok {A} E (ctor : A) map slot :
  0 <= slot < zlen map ->
  exists x map', get_slot_and_ctor E ctor map slot = Some (x, map') /\
    zlen map' = zlen map /\
    (forall i, default ctor (mjoin (get_slot map' i)) = default ctor (mjoin (get_slot map i))) /\
    (x = None \/ x = Some (default ctor (mjoin (get_slot map slot)))).
Proof.
  intros Hs. unfold get_slot_and_ctor. destruct (get_slot_inside map slot Hs) as [x Hx].
  rewrite Hx. cbn [mbind option_bind]. destruct x as [y|]; [by eexists _, _; eauto 10|].
  destruct (map_calloc E); [|by eexists _, _; eauto 10].
  eexists _, _. split; [done|]. split; [apply zlen_put|]. split; [|by right].
  intros i. destruct (decide (i = slot)) as [->|Hi].
  - by rewrite get_put_eq, Hx.
  - by rewrite get_put_ne by lia.
Qed.

(** ** The backend's log *)

Lemma registered_snoc log c ok fd :
  registered (log ++ [(c, ok)]) fd = registered_step fd (registered log fd) (c, ok).
Proof. unfold registered. by rewrite foldl_snoc. Qed.

Lemma signal_registered_snoc log c ok sig :
  signal_registered (log ++ [(c, ok)]) sig =
    signal_step sig (signal_registered log sig) (c, ok).
Proof. unfold signal_registered. by rewrite foldl_snoc. Qed.

Definition bit (c : bool) (m : Z) : Z := if c then m else 0.

(** Adding to the counters and telling the backend what is new agree. *)
Lemma old_events_add l l' nr nw x (r w : bool) :
  0 <= nr -> 0 <= nw ->
  Z.lor (old_events {| io_events := l; nread := nr; nwrite := nw |})
    (Z.land (Z.lor (Z.land x EV_ET)
       (Z.lor (bit (r && (nr + bit r 1 =? 1)) EV_READ)
              (bit (w && (nw + bit w 1 =? 1)) EV_WRITE))) (Z.lor EV_READ EV_WRITE)) =
  old_events {| io_events := l'; nread := nr + bit r 1; nwrite := nw + bit w 1 |}.
Proof.
  intros Hr Hw. rewrite Z.land_lor_distr_l, <- Z.land_assoc.
  change (Z.land EV_ET (Z.lor EV_READ EV_WRITE)) with 0. rewrite Z.land_0_r, Z.lor_0_l.
  unfold old_events, bit. cbn [nread nwrite].
  destruct r, w; cbn [andb];
    repeat match goal with |- context [?a =? ?b] => destruct (Z.eqb_spec a b) end;
    (reflexivity || lia).
Qed.

Lemma old_events_del l l' nr nw (r w : bool) :
  bit r 1 <= nr -> bit w 1 <= nw ->
  Z.land (old_events {| io_events := l; nread := nr; nwrite := nw |})
    (Z.lnot (Z.lor (bit (r && (nr - bit r 1 =? 0)) EV_READ)
                   (bit (w && (nw - bit w 1 =? 0)) EV_WRITE))) =
  old_events {| io_events := l'; nread := nr - bit r 1; nwrite := nw - bit w 1 |}.
Proof.
  intros Hr Hw. unfold old_events, bit in *. cbn [nread nwrite].
  destruct r, w; cbn [andb];
    repeat match goal with |- context [?a =? ?b] => destruct (Z.eqb_spec a b) end;
    (reflexivity || lia).
Qed.

(** ** Frames *)

(** Only the maps and the log differ. *)
Definition maps_only (b b' : event_base) : Prop :=
  b' = b <| io := io b' |> <| sigmap := sigmap b' |> <| backend_log := backend_log b' |>.

Lemma waiting_same b b' mask l :
  (forall x, ev_events (structs b' x) = ev_events (structs b x)) ->
  waiting b' mask l = waiting b mask l.
Proof.
  intros H. unfold waiting. f_equal. apply list_filter_iff. intros x. by rewrite H.
Qed.

(** The maps are right when they hold the same and the log says the same. *)
Lemma map_ok_ext b b' I I' :
  map_ok b I -> (forall x, I x <-> I' x) ->
  (forall x, ev_events (structs b' x) = ev_events (structs b x)) ->
  (forall x, ev_fd (structs b' x) = ev_fd (structs b x)) ->
  (forall fd, 0 <= fd -> io_entry b' fd = io_entry b fd) ->
  (forall s, 0 <= s -> signal_entry b' s = signal_entry b s) ->
  (forall fd, registered (backend_log b') fd = registered (backend_log b) fd) ->
  (forall s, signal_registered (backend_log b') s = signal_registered (backend_log b) s) ->
  map_ok b' I'.
Proof.
  intros [H1 H2 H3 H4] HI Hev Hfd Hio Hsig Hr Hsr.
  assert (Hk : forall x, io_kind b' x <-> io_kind b x) by (intros x; unfold io_kind; by rewrite Hev).
  split.
  - intros fd Hf. rewrite Hio by done. destruct (H1 fd Hf) as [He Hrd Hw Hl]. split; try done.
    + eapply lists_exactly_ext; [|exact He]. intros x. cbn. by rewrite Hk, Hfd, HI.
    + by rewrite (waiting_same b).
    + by rewrite (waiting_same b).
  - intros s Hs. rewrite Hsig by done. eapply lists_exactly_ext; [|exact (H2 s Hs)].
    intros x. cbn. by rewrite Hk, Hfd, HI.
  - intros fd Hf. by rewrite Hr, Hio, H3 by done.
  - intros s Hs. by rewrite Hsr, Hsig, H4 by done.
Qed.

(** The operations on queues leave the maps, the log and the kinds alone. *)
Lemma map_ok_requeued b b' e f I :
  map_ok b I -> requeued e f b b' -> map_ok b' I.
Proof.
  intros H [Hs _ Hu _ _].
  assert (io b' = io b /\ sigmap b' = sigmap b /\ backend_log b' = backend_log b)
    as (Hio & Hsig & Hlog) by (unfold untouched in Hu; repeat split; congruence).
  apply (map_ok_ext b b' I I); try done.
  - intros x. rewrite Hs. by destruct (decide (x = e)).
  - intros x. rewrite Hs. by destruct (decide (x = e)).
  - intros fd _. unfold io_entry. by rewrite Hio.
  - intros s _. unfold signal_entry. by rewrite Hsig.
  - by rewrite Hlog.
  - by rewrite Hlog.
Qed.

(** ** File descriptors *)

Lemma waiting_snoc b mask l e :
  waiting b mask (l ++ [e]) = waiting b mask l + bit (has (ev_events (structs b e)) mask) 1.
Proof.
  unfold waiting, zlen. rewrite snoc_perm, filter_cons.
  destruct (has _ mask); cbn [bit]; case_decide; cbn [length]; (done || lia).
Qed.

Lemma waiting_perm b mask l l' e :
  l ≡ₚ e :: l' ->
  waiting b mask l' = waiting b mask l - bit (has (ev_events (structs b e)) mask) 1.
Proof.
  intros Hp. unfold waiting, zlen. rewrite Hp, filter_cons.
  destruct (has _ mask); cbn [bit]; case_decide; cbn [length]; (done || lia).
Qed.

Lemma waiting_nonneg b mask l : 0 <= waiting b mask l.
Proof. apply zlen_nonneg. Qed.

Lemma io_entry_put_eq b fd ctx :
  0 <= fd < zlen (io b) -> io_entry (b <| io := put_slot (io b) fd ctx |>) fd = ctx.
Proof. intros H. unfold io_entry. cbn [io assign]. by rewrite get_put_eq. Qed.

Lemma io_entry_put_ne b fd fd' ctx :
  0 <= fd -> fd' <> fd -> io_entry (b <| io := put_slot (io b) fd ctx |>) fd' = io_entry b fd'.
Proof. intros H Hf. unfold io_entry. cbn [io assign]. by rewrite get_put_ne. Qed.

(** An entry is replaced and the backend told so: what the other entries,
    the signals and the rest of the log need. *)
Lemma map_ok_put b b3 I I' e ctx' :
  let fd := ev_fd (structs b e) in
  map_ok b I -> 0 <= fd < zlen (io b3) -> maps_only b b3 -> io_kind b e ->
  (forall x, x <> e -> I x <-> I' x) ->
  (forall i, 0 <= i -> io_entry b3 i = io_entry b i) -> sigmap b3 = sigmap b ->
  (forall i, i <> fd -> registered (backend_log b3) i = registered (backend_log b) i) ->
  (forall s, signal_registered (backend_log b3) s = signal_registered (backend_log b) s) ->
  io_entry_ok b I' fd ctx' -> registered (backend_log b3) fd = old_events ctx' ->
  map_ok (b3 <| io := put_slot (io b3) fd ctx' |>) I'.
Proof.
  intros fd Hok Hfd Hm Hk HI Hio Hsig Hreg Hsreg Hctx Hnew.
  assert (Hs : structs b3 = structs b) by (by rewrite Hm).
  set (b4 := b3 <| io := put_slot (io b3) fd ctx' |>).
  assert (Hs4 : structs b4 = structs b) by done.
  assert (Heq : io_entry b4 fd = ctx') by (by apply io_entry_put_eq).
  assert (Hne : forall i, i <> fd -> 0 <= i -> io_entry b4 i = io_entry b i).
  { intros i Hi Hp. unfold b4. by rewrite io_entry_put_ne, Hio by lia. }
  destruct Hok as [H1 H2 H3 H4]. split.
  - intros i Hi. destruct (decide (i = fd)) as [->|Hif].
    + rewrite Heq. destruct Hctx as [He Hr Hw Hf].
      split; [|rewrite (waiting_same b); [done | by rewrite Hs4] ..|done].
      eapply lists_exactly_ext; [|exact He]. intros x. unfold io_kind. by rewrite Hs4.
    + rewrite Hne by done. destruct (H1 i Hi) as [He Hr Hw Hf].
      split; [|rewrite (waiting_same b); [done | by rewrite Hs4] ..|done].
      eapply lists_exactly_ext; [|exact He]. intros x. unfold io_kind. rewrite Hs4.
      split; intros (? & ? & ?); (split; [apply HI; [|done]; intros ->; done | done]).
  - intros s Hi. unfold signal_entry. change (sigmap b4) with (sigmap b3). rewrite Hsig.
    eapply lists_exactly_ext; [|exact (H2 s Hi)]. intros x. unfold io_kind in *. rewrite Hs4.
    split; intros (? & ? & ?); (split; [apply HI; [|done]; intros ->; done | done]).
  - intros i Hi. change (backend_log b4) with (backend_log b3).
    destruct (decide (i = fd)) as [->|Hif].
    + by rewrite Heq.
    + rewrite Hne, Hreg by done. by apply H3.
  - intros s Hi. change (backend_log b4) with (backend_log b3). rewrite Hsreg.
    unfold signal_entry. change (sigmap b4) with (sigmap b3). rewrite Hsig. by apply H4.
Qed.

(** An event without a descriptor is in no entry. *)
Lemma map_ok_outside b I I' e :
  map_ok b I -> io_kind b e -> ev_fd (structs b e) < 0 ->
  (forall x, x <> e -> I x <-> I' x) -> map_ok b I'.
Proof.
  intros [H1 H2 H3 H4] Hk Hfd HI. split; try done.
  - intros i Hi. destruct (H1 i Hi) as [He Hr Hw Hf]. split; try done.
    eapply lists_exactly_ext; [|exact He]. intros x.
    split; intros (? & ? & ?); (split; [apply HI; [|done]; intros ->; lia | done]).
  - intros s Hs. eapply lists_exactly_ext; [|exact (H2 s Hs)]. intros x.
    split; intros (? & ? & ?); (split; [apply HI; [|done]; intros ->; lia | done]).
Qed.

(** Allocation always succeeds, and so does the backend. *)
Definition generous (E : env) : Prop :=
  (forall k, map_realloc E k = true) /\ map_calloc E = true /\
  (forall l c, backend_ok E l c = true) /\ debug_mode E = false.

(** The part of [evmap_io_add] after the entry was found. *)
Definition io_add_entry (E : env) (b2 : event_base) (fd : Z) (e : evid) (ctx : evmap_io)
  : option (Z * event_base) :=
  let ev := structs b2 e in
  let nread' := nread ctx + bit (has (ev_events ev) EV_READ) 1 in
  let nwrite' := nwrite ctx + bit (has (ev_events ev) EV_WRITE) 1 in
  let res := Z.lor (bit (has (ev_events ev) EV_READ && (nread' =? 1)) EV_READ)
                   (bit (has (ev_events ev) EV_WRITE && (nwrite' =? 1)) EV_WRITE) in
  if (65535 <? nread') || (65535 <? nwrite') then Some (-1, b2) else
  let mixed := match io_events ctx with
    | [] => false
    | old_ev :: _ => negb (Z.land (ev_events (structs b2 old_ev)) EV_ET
                           =? Z.land (ev_events ev) EV_ET)
    end in
  if debug_mode E && mixed then Some (-1, b2) else
  let '(ok, b3) :=
    if res =? 0 then (true, b2) else
    backend E b2 {| bc_op := BackendAdd; bc_signal := false; bc_fd := ev_fd ev;
                    bc_old := old_events ctx;
                    bc_events := Z.lor (Z.land (ev_events ev) EV_ET) res |} in
  if negb ok then Some (-1, b3) else
  Some (if res =? 0 then 0 else 1,
        b3 <| io := put_slot (io b3) fd
                {| io_events := io_events ctx ++ [e]; nread := nread'; nwrite := nwrite' |} |>).

Definition added (b b' : event_base) (I : evid -> Prop) (e : evid) (r : Z) : Prop :=
  maps_only b b' /\
  (r = -1 /\ map_ok b' I \/ (r = 0 \/ r = 1) /\ map_ok b' (fun x => I x \/ x = e)).

(** One conditional call to the backend about a descriptor. *)
Lemma io_backend_step E b (skip : bool) c ok b3 :
  bc_signal c = false ->
  (if skip then (true, b) else backend E b c) = (ok, b3) ->
  b3 = b <| backend_log := backend_log b3 |> /\
  (forall i, ok = false \/ i <> bc_fd c ->
     registered (backend_log b3) i = registered (backend_log b) i) /\
  (forall s, signal_registered (backend_log b3) s = signal_registered (backend_log b) s) /\
  (ok = true -> registered (backend_log b3) (bc_fd c) =
     if skip then registered (backend_log b) (bc_fd c)
     else registered_step (bc_fd c) (registered (backend_log b) (bc_fd c)) (c, true)) /\
  (generous E -> ok = true).
Proof.
  intros Hc. destruct skip; [intros [= <- <-]; by destruct b|]. unfold backend. intros [= Hok <-].
  split; [by destruct b|]. cbn [backend_log assign]. rewrite Hok.
  split; [|split; [|split]].
  - intros i Hi. rewrite registered_snoc. unfold registered_step. rewrite Hc.
    destruct Hi as [->|Hi]; [done|]. rewrite (proj2 (Z.eqb_neq _ _)) by done.
    by rewrite andb_false_r.
  - intros s. rewrite signal_registered_snoc. unfold signal_step. rewrite Hc.
    by rewrite andb_false_r.
  - intros ->. apply registered_snoc.
  - intros (_ & _ & H & _). by rewrite <- Hok.
Qed.

Lemma maps_only_trans b b2 b3 : maps_only b b2 -> maps_only b2 b3 -> maps_only b b3.
Proof. unfold maps_only. intros -> ->. by destruct b. Qed.

Section IoEntry.
Context (E : env) (b b2 : event_base) (I : evid -> Prop) (e : evid).
Let fd := ev_fd (structs b e).
Let ctx := io_entry b fd.
Hypotheses (Hok : map_ok b I) (Hk : io_kind b e) (Hfd : 0 <= fd < zlen (io b2)).
Hypothesis Hb2 : maps_only b b2.
Hypotheses (Hsig : sigmap b2 = sigmap b) (Hlog : backend_log b2 = backend_log b).
Hypothesis Hent : forall i, 0 <= i -> io_entry b2 i = io_entry b i.

(** On failure nothing but the log, and the room in the map, has changed. *)
Lemma io_entry_failed b3 :
  b3 = b2 <| backend_log := backend_log b3 |> ->
  (forall i, registered (backend_log b3) i = registered (backend_log b2) i) ->
  (forall s, signal_registered (backend_log b3) s = signal_registered (backend_log b2) s) ->
  maps_only b b3 /\ map_ok b3 I.
Proof.
  intros H3 Hr Hs. rewrite Hlog in Hr, Hs.
  assert (Hm : maps_only b b3) by (rewrite H3; unfold maps_only; rewrite Hb2; by destruct b).
  split; [done|]. apply (map_ok_ext b b3 I I); try done; try (intros; by rewrite Hm).
  - intros i Hi. rewrite <- Hent by done. by rewrite H3.
  - intros s _. unfold signal_entry. rewrite H3. cbn. by rewrite Hsig.
Qed.

(** On success the entry is replaced. *)
Lemma io_entry_replaced b3 I' ctx' :
  b3 = b2 <| backend_log := backend_log b3 |> ->
  (forall i, i <> fd -> registered (backend_log b3) i = registered (backend_log b2) i) ->
  (forall s, signal_registered (backend_log b3) s = signal_registered (backend_log b2) s) ->
  (forall x, x <> e -> I x <-> I' x) ->
  io_entry_ok b I' fd ctx' -> registered (backend_log b3) fd = old_events ctx' ->
  maps_only b (b3 <| io := put_slot (io b3) fd ctx' |>) /\
  map_ok (b3 <| io := put_slot (io b3) fd ctx' |>) I'.
Proof.
  intros H3 Hr Hs HI Hctx Hnew. rewrite Hlog in Hr, Hs.
  assert (Hm : maps_only b b3) by (rewrite H3; unfold maps_only; rewrite Hb2; by destruct b).
  assert (Hio3 : io b3 = io b2) by (by rewrite H3).
  split; [unfold maps_only; rewrite Hm; by destruct b|].
  apply (map_ok_put b b3 I I' e ctx'); try done.
  - by rewrite Hio3.
  - intros i Hi. rewrite <- Hent by done. unfold io_entry. by rewrite Hio3.
  - rewrite H3. done.
Qed.
End IoEntry.

(** What an operation on the maps for [e] guarantees: on failure the maps hold
    the same events, on success they hold [I']. *)
Definition map_result (b b' : event_base) (I I' : evid -> Prop) (r : Z) : Prop :=
  maps_only b b' /\ (r = -1 /\ map_ok b' I \/ (r = 0 \/ r = 1) /\ map_ok b' I').

Definition insert_event (I : evid -> Prop) (e x : evid) : Prop := I x \/ x = e.

Definition remove_event (I : evid -> Prop) (e x : evid) : Prop := I x /\ x <> e.

Lemma io_add_entry_ok E b b2 I e :
  let fd := ev_fd (structs b e) in
  map_ok b I -> ~ I e -> io_kind b e -> 0 <= fd < zlen (io b2) ->
  maps_only b b2 -> sigmap b2 = sigmap b -> backend_log b2 = backend_log b ->
  (forall i, 0 <= i -> io_entry b2 i = io_entry b i) ->
  exists r b', io_add_entry E b2 fd e (io_entry b fd) = Some (r, b') /\
    map_result b b' I (insert_event I e) r /\
    (generous E -> nread (io_entry b fd) < 65535 -> nwrite (io_entry b fd) < 65535 -> r <> -1).
Proof.
  intros fd Hok HI Hk Hfd Hb2 Hsig Hlog Hent. set (ctx := io_entry b fd).
  assert (Hs : structs b2 = structs b) by (by rewrite Hb2).
  destruct (mo_io _ _ Hok fd (proj1 Hfd)) as [Hev Hrd Hwr Hfit].
  fold ctx in Hev, Hrd, Hwr, Hfit. unfold io_add_entry. rewrite Hs. fold fd.
  set (R := has (ev_events (structs b e)) EV_READ).
  set (W := has (ev_events (structs b e)) EV_WRITE).
  set (res := Z.lor _ _).
  assert (maps_only b b2 /\ map_ok b2 I) as [F1 F2].
  { eapply (io_entry_failed b b2 I e); try done. by destruct b2. }
  destruct (_ || _) eqn:Hbig.
  { eexists _, _. split; [done|]. split; [by split; [|left]|].
    intros _ Hr Hw. apply orb_true_iff in Hbig. rewrite !Z.ltb_lt in Hbig.
    unfold bit in Hbig. destruct R, W; lia. }
  apply orb_false_iff in Hbig as [Hbr%Z.ltb_ge Hbw%Z.ltb_ge].
  destruct (debug_mode E && _) eqn:Hdbg.
  { eexists _, _. split; [done|]. split; [by split; [|left]|].
    intros (_ & _ & _ & Hd) _ _. by rewrite Hd in Hdbg. }
  destruct (if res =? 0 then _ else _) as [ok b3] eqn:Hback.
  apply io_backend_step in Hback as (H3 & Hoth & Hsreg & Hnew & Hgen); [|done].
  cbn [bc_fd] in Hoth, Hnew. destruct ok; cbn [negb].
  2: { eexists _, _. split; [done|]. split; [|by intros Hg; specialize (Hgen Hg)].
       destruct (io_entry_failed b b2 I e Hok Hk Hfd Hb2 Hsig Hlog Hent b3 H3) as [Hm1 Hm2]; auto.
       split; auto. }
  eexists _, _. split; [done|]. split; [|by destruct (res =? 0)].
  destruct (io_entry_replaced b b2 I e Hok Hk Hfd Hb2 Hsig Hlog Hent b3 (insert_event I e)
    {| io_events := io_events ctx ++ [e]; nread := nread ctx + bit R 1;
       nwrite := nwrite ctx + bit W 1 |}) as [Hm1 Hm2]; auto.
  - intros x Hx. unfold insert_event. tauto.
  - split; cbn [io_events nread nwrite]; [|by rewrite waiting_snoc, Hrd|by rewrite waiting_snoc, Hwr|done].
    eapply lists_exactly_ext; [|eapply (lists_exactly_perm _ _ _ e (snoc_perm _ _) Hev)].
    + intros x. cbn. unfold insert_event. intuition congruence.
    + cbn. tauto.
  - fold fd. rewrite (Hnew eq_refl), Hlog, (mo_backend _ _ Hok) by lia. fold ctx.
    rewrite <- (old_events_add (io_events ctx) _ (nread ctx) (nwrite ctx)
                  (ev_events (structs b e)) R W).
    + fold res. replace (Build_evmap_io (io_events ctx) (nread ctx) (nwrite ctx)) with ctx by (by destruct ctx).
      destruct (Z.eqb_spec res 0) as [->|Hne].
      * rewrite Z.lor_0_r, <- Z.land_assoc. change (Z.land EV_ET _) with 0.
        by rewrite Z.land_0_r, Z.lor_0_r.
      * unfold registered_step. cbn [bc_signal bc_fd bc_op bc_events andb negb].
        by rewrite Z.eqb_refl.
    + rewrite Hrd. apply waiting_nonneg.
    + rewrite Hwr. apply waiting_nonneg.
  - split; [done|]. right. split; [|done]. destruct (res =? 0); auto.
Qed.

Lemma evmap_io_add_ok E b I e :
  let fd := ev_fd (structs b e) in
  map_ok b I -> ~ I e -> io_kind b e -> small_fd fd ->
  exists r b', evmap_io_add E b fd e = Some (r, b') /\
    map_result b b' I (insert_event I e) r /\
    (generous E -> nread (io_entry b fd) < 65535 -> nwrite (io_entry b fd) < 65535 -> r <> -1).
Proof.
  intros fd Hok HI Hk Hfd. unfold evmap_io_add. fold fd. rewrite Z.eqb_refl. cbn [negb].
  destruct (Z.ltb_spec fd 0) as [Hneg|Hpos].
  { eexists _, _. split; [done|]. split; [|lia]. split; [by destruct b|]. right.
    split; [by left|]. apply (map_ok_outside b I _ e Hok Hk Hneg).
    unfold insert_event. tauto. }
  destruct (make_space_ok E (io b) fd) as (r & map1 & Hsp & Hm1 & Hr); [done|].
  rewrite Hsp. cbn [mbind option_bind]. destruct Hr as [-> | [-> Hlt]].
  { eexists _, _. split; [done|]. split; [split; [by destruct b|by left]|].
    intros (Hg & _). exfalso. revert Hsp. unfold evmap_make_space.
    destruct (_ <=? _); [|done]. destruct (make_space_loop _ _ _ _); [|done]. cbn.
    by rewrite Hg. }
  destruct (get_slot_and_ctor_ok E evmap_io_init map1 fd) as (x & map2 & Hsl & Hlen & Hm2 & Hx);
    [done|].
  rewrite Hsl. cbn [mbind option_bind]. change (0 =? -1) with false. cbv beta iota.
  assert (Hent : forall i, 0 <= i -> io_entry (b <| io := map2 |>) i = io_entry b i).
  { intros i _. unfold io_entry. cbn [io assign]. by rewrite Hm2, Hm1. }
  destruct Hx as [-> | ->].
  - eexists _, _. split; [done|]. split; [split; [by destruct b|]|].
    + left. split; [done|]. by apply (map_ok_ext b _ I I).
    + intros (_ & Hg & _). exfalso. revert Hsl. unfold get_slot_and_ctor.
      destruct (get_slot map1 fd) as [[y|]|]; [done| |done]. cbn. by rewrite Hg.
  - replace (default evmap_io_init (mjoin (get_slot map1 fd))) with (io_entry b fd)
      by (unfold io_entry; by rewrite Hm1).
    pose proof (io_add_entry_ok E b (b <| io := map2 |>) I e Hok HI Hk) as Hadd.
    unfold io_add_entry, bit in Hadd. cbv zeta in Hadd.
    change (structs (b <| io := map2 |>)) with (structs b) in Hadd.
    apply Hadd; try done.
    change (io (b <| io := map2 |>)) with map2. fold fd. lia.
Qed.

Lemma waiting_member b mask l e :
  e ∈ l -> bit (has (ev_events (structs b e)) mask) 1 <= waiting b mask l.
Proof.
  intros He. unfold bit. destruct (has _ mask) eqn:Hh; [|apply waiting_nonneg].
  apply elem_of_Permutation in He as [k Hp]. pose proof (waiting_perm b mask l k e Hp) as Hw.
  rewrite Hh in Hw. cbn in Hw. pose proof (waiting_nonneg b mask k). lia.
Qed.

Lemma evmap_io_del_ok E b I e :
  let fd := ev_fd (structs b e) in
  map_ok b I -> I e -> io_kind b e ->
  exists r b', evmap_io_del E b fd e = Some (r, b') /\
    map_result b b' I (remove_event I e) r /\ (generous E -> r <> -1).
Proof.
  intros fd Hok HI Hk. unfold evmap_io_del. fold fd. rewrite Z.eqb_refl. cbn [negb].
  destruct (Z.ltb_spec fd 0) as [Hneg|Hpos].
  { eexists _, _. split; [done|]. split; [|lia]. split; [by destruct b|]. right.
    split; [by left|]. apply (map_ok_outside b I _ e Hok Hk Hneg).
    unfold remove_event. tauto. }
  destruct (mo_io _ _ Hok fd Hpos) as [Hev Hrd Hwr Hfit].
  assert (He : e ∈ io_events (io_entry b fd)) by (by apply Hev).
  assert (Hctx : mjoin (get_slot (io b) fd) = Some (io_entry b fd)).
  { unfold io_entry in *. destruct (mjoin _); [done|]. by apply not_elem_of_nil in He. }
  assert (Hin : fd < zlen (io b)).
  { unfold get_slot, zlen in *. destruct (fd <? 0); [done|].
    destruct (decide (Z.to_nat fd < length (io b))%nat) as [Hl|Hl]; [lia|].
    by rewrite lookup_ge_None_2 in Hctx by lia. }
  rewrite (proj2 (Z.leb_gt (zlen (io b)) fd) Hin), Hctx. cbn [mbind option_bind].
  set (ctx := io_entry b fd) in *.
  set (R := has (ev_events (structs b e)) EV_READ).
  set (W := has (ev_events (structs b e)) EV_WRITE).
  change (if R then 1 else 0) with (bit R 1). change (if W then 1 else 0) with (bit W 1).
  pose proof (waiting_member b EV_READ _ e He) as Hr1. fold R in Hr1. rewrite <- Hrd in Hr1.
  pose proof (waiting_member b EV_WRITE _ e He) as Hw1. fold W in Hw1. rewrite <- Hwr in Hw1.
  rewrite (proj2 (Z.ltb_ge (nread ctx - _) 0)), (proj2 (Z.ltb_ge (nwrite ctx - _) 0)) by lia.
  cbn [orb]. set (res := Z.lor _ _).
  destruct (if res =? 0 then _ else _) as [ok b3] eqn:Hback.
  apply io_backend_step in Hback as (H3 & Hoth & Hsreg & Hnew & Hgen); [|done].
  cbn [bc_fd] in Hoth, Hnew.
  assert (Hm0 : maps_only b b) by (by destruct b).
  destruct ok; cbn [negb].
  2: { eexists _, _. split; [done|]. split; [|by intros Hg; specialize (Hgen Hg)].
       destruct (io_entry_failed b b I e Hok Hk (conj Hpos Hin) Hm0 eq_refl eq_refl
                   (fun i _ => eq_refl) b3 H3) as [Hm1 Hm2]; auto.
       split; auto. }
  destruct (lists_exactly_remove _ _ e Hev) as (q & Hrm & Hp & Hl); [done|].
  rewrite Hrm. cbn [mbind option_bind].
  eexists _, _. split; [done|]. split; [|by destruct (res =? 0)].
  destruct (io_entry_replaced b b I e Hok Hk (conj Hpos Hin) Hm0 eq_refl eq_refl
    (fun i _ => eq_refl) b3 (remove_event I e)
    {| io_events := q; nread := nread ctx - bit R 1;
       nwrite := nwrite ctx - bit W 1 |}) as [Hm1 Hm2]; auto.
  - intros x Hx. unfold remove_event. tauto.
  - split; cbn [io_events nread nwrite].
    + eapply lists_exactly_ext; [|exact Hl]. intros x. cbn. unfold remove_event. tauto.
    + by rewrite (waiting_perm b EV_READ _ q e Hp), Hrd.
    + by rewrite (waiting_perm b EV_WRITE _ q e Hp), Hwr.
    + unfold bit. destruct R, W; lia.
  - fold fd. rewrite (Hnew eq_refl), (mo_backend _ _ Hok) by lia. fold ctx.
    rewrite <- (old_events_del (io_events ctx) _ (nread ctx) (nwrite ctx) R W) by done.
    match goal with |- context [Z.lor (bit ?x ?m) ?y] => change (Z.lor (bit x m) y) with res end.
    replace (Build_evmap_io (io_events ctx) (nread ctx) (nwrite ctx)) with ctx by (by destruct ctx).
    destruct (Z.eqb_spec res 0) as [Hz|Hne]; [rewrite Hz; symmetry; apply Z.land_m1_r|].
    unfold registered_step. cbn [bc_signal bc_fd bc_op bc_events andb negb].
    by rewrite Z.eqb_refl.
  - split; [done|]. right. split; [|done]. destruct (res =? 0); auto.
Qed.

(** ** Signals *)

Lemma signal_backend_step E b (skip : bool) c ok b3 :
  bc_signal c = true ->
  (if skip then (true, b) else backend E b c) = (ok, b3) ->
  b3 = b <| backend_log := backend_log b3 |> /\
  (forall i, registered (backend_log b3) i = registered (backend_log b) i) /\
  (forall s, ok = false \/ s <> bc_fd c ->
     signal_registered (backend_log b3) s = signal_registered (backend_log b) s) /\
  (ok = true -> signal_registered (backend_log b3) (bc_fd c) =
     if skip then signal_registered (backend_log b) (bc_fd c)
     else match bc_op c with BackendAdd => true | BackendDel => false end) /\
  (generous E -> ok = true).
Proof.
  intros Hc. destruct skip; [intros [= <- <-]; by destruct b|]. unfold backend. intros [= Hok <-].
  split; [by destruct b|]. cbn [backend_log assign]. rewrite Hok.
  split; [|split; [|split]].
  - intros i. rewrite registered_snoc. unfold registered_step. rewrite Hc.
    by rewrite andb_false_r.
  - intros s Hs. rewrite signal_registered_snoc. unfold signal_step. rewrite Hc.
    destruct Hs as [->|Hs]; [done|]. rewrite (proj2 (Z.eqb_neq _ _)) by done.
    by rewrite andb_false_r.
  - intros ->. rewrite signal_registered_snoc. unfold signal_step. rewrite Hc.
    by rewrite Z.eqb_refl.
  - intros (_ & _ & H & _). by rewrite <- Hok.
Qed.

Section SignalEntry.
Context (b b2 : event_base) (I : evid -> Prop) (e : evid).
Let sig := ev_fd (structs b e).
Hypotheses (Hok : map_ok b I) (Hk : ~ io_kind b e) (Hsig : 0 <= sig < zlen (sigmap b2)).
Hypothesis Hb2 : maps_only b b2.
Hypotheses (Hio : io b2 = io b) (Hlog : backend_log b2 = backend_log b).
Hypothesis Hent : forall s, 0 <= s -> signal_entry b2 s = signal_entry b s.

Lemma signal_entry_failed b3 :
  b3 = b2 <| backend_log := backend_log b3 |> ->
  (forall i, registered (backend_log b3) i = registered (backend_log b2) i) ->
  (forall s, signal_registered (backend_log b3) s = signal_registered (backend_log b2) s) ->
  maps_only b b3 /\ map_ok b3 I.
Proof.
  intros H3 Hr Hs. rewrite Hlog in Hr, Hs.
  assert (Hm : maps_only b b3) by (rewrite H3; unfold maps_only; rewrite Hb2; by destruct b).
  split; [done|]. apply (map_ok_ext b b3 I I); try done; try (intros; by rewrite Hm).
  - intros i Hi. unfold io_entry. rewrite H3. cbn. by rewrite Hio.
  - intros s Hp. rewrite <- Hent by done. by rewrite H3.
Qed.

Lemma signal_entry_replaced b3 I' ctx' :
  b3 = b2 <| backend_log := backend_log b3 |> ->
  (forall i, registered (backend_log b3) i = registered (backend_log b2) i) ->
  (forall s, s <> sig ->
     signal_registered (backend_log b3) s = signal_registered (backend_log b2) s) ->
  (forall x, x <> e -> I x <-> I' x) ->
  lists_exactly ctx' (fun x => I' x /\ ~ io_kind b x /\ ev_fd (structs b x) = sig) ->
  signal_registered (backend_log b3) sig = negb (bool_decide (ctx' = [])) ->
  maps_only b (b3 <| sigmap := put_slot (sigmap b3) sig ctx' |>) /\
  map_ok (b3 <| sigmap := put_slot (sigmap b3) sig ctx' |>) I'.
Proof.
  intros H3 Hr Hs HI Hctx Hnew. rewrite Hlog in Hr, Hs.
  assert (Hm : maps_only b b3) by (rewrite H3; unfold maps_only; rewrite Hb2; by destruct b).
  assert (Hsig3 : sigmap b3 = sigmap b2) by (by rewrite H3).
  assert (Hio3 : io b3 = io b) by (by rewrite H3).
  split; [unfold maps_only; rewrite Hm; by destruct b|].
  set (b4 := b3 <| sigmap := _ |>).
  assert (Hs4 : structs b4 = structs b) by (change (structs b4) with (structs b3); by rewrite Hm).
  assert (Heq : signal_entry b4 sig = ctx').
  { unfold signal_entry, b4. cbn [sigmap assign]. by rewrite get_put_eq by (by rewrite Hsig3). }
  assert (Hne : forall s, s <> sig -> 0 <= s -> signal_entry b4 s = signal_entry b s).
  { intros s Hn Hp. rewrite <- Hent by done. unfold signal_entry, b4. cbn [sigmap assign].
    by rewrite get_put_ne, Hsig3 by lia. }
  assert (Hiof : forall fd, io_entry b4 fd = io_entry b fd).
  { intros fd. unfold io_entry. change (io b4) with (io b3). by rewrite Hio3. }
  destruct Hok as [H1 H2 H4 H5]. split.
  - intros fd Hf. rewrite Hiof. destruct (H1 fd Hf) as [He Hrd Hw Hfit].
    split; [|rewrite (waiting_same b); [done | by rewrite Hs4] ..|done].
    eapply lists_exactly_ext; [|exact He]. intros x. unfold io_kind in *. rewrite Hs4.
    split; intros (? & ? & ?); (split; [apply HI; [|done]; intros ->; done | done]).
  - intros s Hp. unfold io_kind. rewrite Hs4. destruct (decide (s = sig)) as [->|Hn].
    + rewrite Heq. exact Hctx.
    + rewrite Hne by done. eapply lists_exactly_ext; [|exact (H2 s Hp)]. intros x.
      unfold io_kind. split; intros (? & ? & ?);
        (split; [apply HI; [|done]; intros ->; done | done]).
  - intros fd Hf. change (backend_log b4) with (backend_log b3). by rewrite Hr, Hiof, H4.
  - intros s Hp. change (backend_log b4) with (backend_log b3).
    destruct (decide (s = sig)) as [->|Hn]; [by rewrite Heq|]. by rewrite Hs, Hne, H5.
Qed.
End SignalEntry.

Lemma evmap_signal_add_ok E b I e :
  let sig := ev_fd (structs b e) in
  map_ok b I -> ~ I e -> ~ io_kind b e -> 0 <= sig -> small_fd sig ->
  exists r b', evmap_signal_add E b sig e = Some (r, b') /\
    map_result b b' I (insert_event I e) r /\ (generous E -> r <> -1).
Proof.
  intros sig Hok HI Hk Hpos Hfd. unfold evmap_signal_add. fold sig.
  destruct (make_space_ok E (sigmap b) sig) as (r & map1 & Hsp & Hm1 & Hr); [done|].
  rewrite Hsp. cbn [mbind option_bind]. destruct Hr as [-> | [-> Hlt]].
  { eexists _, _. split; [done|]. split; [split; [by destruct b|by left]|].
    intros (Hg & _). exfalso. revert Hsp. unfold evmap_make_space.
    destruct (_ <=? _); [|done]. destruct (make_space_loop _ _ _ _); [|done]. cbn.
    by rewrite Hg. }
  destruct (get_slot_and_ctor_ok E evmap_signal_init map1 sig)
    as (x & map2 & Hsl & Hlen & Hm2 & Hx); [done|].
  rewrite Hsl. cbn [mbind option_bind]. change (0 =? -1) with false. cbv beta iota.
  set (b2 := b <| sigmap := map2 |>).
  assert (Hent : forall i, 0 <= i -> signal_entry b2 i = signal_entry b i).
  { intros i _. unfold signal_entry. cbn [sigmap assign b2].
    change (default [] (mjoin (get_slot map2 i)) = default [] (mjoin (get_slot (sigmap b) i))).
    rewrite <- Hm1. apply Hm2. }
  assert (Hb2 : maps_only b b2) by (by destruct b).
  destruct Hx as [-> | ->].
  - eexists _, _. split; [done|]. split; [split; [done|]|].
    + left. split; [done|]. by apply (map_ok_ext b _ I I).
    + intros (_ & Hg & _). exfalso. revert Hsl. unfold get_slot_and_ctor.
      destruct (get_slot map1 sig) as [[y|]|]; [done| |done]. cbn. by rewrite Hg.
  - replace (default evmap_signal_init (mjoin (get_slot map1 sig))) with (signal_entry b sig)
      by (unfold signal_entry; by rewrite Hm1).
    set (ctx := signal_entry b sig).
    assert (Hl := mo_signal _ _ Hok sig Hpos). fold ctx in Hl.
    set (c := {| bc_op := BackendAdd; bc_signal := true; bc_fd := sig; bc_old := 0;
                 bc_events := EV_SIGNAL |}).
    assert (Hsplit : (match ctx with [] => backend E b2 c | _ => (true, b2) end) =
      (if negb (bool_decide (ctx = [])) then (true, b2) else backend E b2 c)).
    { by destruct ctx. }
    rewrite Hsplit. destruct (if negb _ then _ else _) as [ok b3] eqn:Hback.
    apply signal_backend_step in Hback as (H3 & Hreg & Hoth & Hnew & Hgen); [|done].
    change (bc_fd c) with sig in Hoth, Hnew.
    assert (Hin : 0 <= sig < zlen (sigmap b2)) by (change (sigmap b2) with map2; lia).
    destruct ok; cbn [negb].
    2: { eexists _, _. split; [done|]. split; [|by intros Hg; specialize (Hgen Hg)].
         destruct (signal_entry_failed b b2 I e Hok Hk Hin Hb2 eq_refl eq_refl Hent b3 H3)
           as [Hf1 Hf2]; auto. split; auto. }
    eexists _, _. split; [done|]. split; [|done].
    destruct (signal_entry_replaced b b2 I e Hok Hk Hin Hb2 eq_refl eq_refl Hent b3
      (insert_event I e) (ctx ++ [e]) H3 Hreg) as [Hf1 Hf2]; auto.
    + intros x Hx. unfold insert_event. tauto.
    + eapply lists_exactly_ext; [|eapply (lists_exactly_perm _ _ _ e (snoc_perm _ _) Hl)].
      * intros x. cbn. unfold insert_event. intuition congruence.
      * cbn. tauto.
    + fold sig. rewrite Hnew by done. rewrite (bool_decide_false (ctx ++ [e] = [])) by (by destruct ctx).
      change (backend_log b2) with (backend_log b). rewrite (mo_signal_backend _ _ Hok sig Hpos).
      fold ctx. by destruct (bool_decide (ctx = [])).
    + split; [done|]. right. split; [by right | done].
Qed.

(** [TAILQ_FIRST == TAILQ_LAST] says that the list has one element. *)
Lemma head_last_one (l q : list evid) e :
  NoDup l -> l ≡ₚ e :: q -> head l = last l <-> q = [].
Proof.
  intros Hn Hp. apply Permutation_length in Hp as Hlen. destruct l as [|x l]; [done|].
  cbn in Hlen. destruct l as [|y l _] using rev_ind.
  - split; [|done]. intros _. destruct q; [done | cbn in Hlen; lia].
  - rewrite length_app in Hlen. cbn in Hlen. split; [|intros ->; cbn in Hlen; lia].
    intros Hh. exfalso. apply list.NoDup_cons in Hn as [Hn _].
    rewrite app_comm_cons, last_snoc in Hh. injection Hh as ->. apply Hn.
    apply elem_of_app. right. by apply list_elem_of_singleton.
Qed.

Lemma evmap_signal_del_ok E b I e :
  let sig := ev_fd (structs b e) in
  map_ok b I -> I e -> ~ io_kind b e -> 0 <= sig ->
  exists r b', evmap_signal_del E b sig e = Some (r, b') /\
    map_result b b' I (remove_event I e) r /\ (generous E -> r <> -1).
Proof.
  intros sig Hok HI Hk Hpos. unfold evmap_signal_del. fold sig.
  assert (Hl := mo_signal _ _ Hok sig Hpos).
  assert (He : e ∈ signal_entry b sig) by (by apply Hl).
  assert (Hctx : mjoin (get_slot (sigmap b) sig) = Some (signal_entry b sig)).
  { unfold signal_entry in *. destruct (mjoin _); [done|]. by apply not_elem_of_nil in He. }
  assert (Hin : sig < zlen (sigmap b)).
  { unfold get_slot, zlen in *. destruct (sig <? 0); [done|].
    destruct (decide (Z.to_nat sig < length (sigmap b))%nat) as [Hl'|Hl']; [lia|].
    by rewrite lookup_ge_None_2 in Hctx by lia. }
  rewrite (proj2 (Z.leb_gt (zlen (sigmap b)) sig) Hin), Hctx. cbn [mbind option_bind].
  set (ctx := signal_entry b sig) in *.
  destruct (lists_exactly_remove _ _ e Hl) as (q & Hrm & Hp & Hlq); [done|].
  assert (Hone := head_last_one ctx q e (proj1 Hl) Hp).
  set (c := {| bc_op := BackendDel; bc_signal := true; bc_fd := sig; bc_old := 0;
               bc_events := EV_SIGNAL |}).
  assert (Hsplit : (if decide (head ctx = last ctx) then backend E b c else (true, b)) =
    (if negb (bool_decide (q = [])) then (true, b) else backend E b c)).
  { case_decide as Hd; rewrite Hone in Hd;
      [by rewrite bool_decide_true | by rewrite bool_decide_false]. }
  rewrite Hsplit. destruct (if negb _ then _ else _) as [ok b3] eqn:Hback.
  apply signal_backend_step in Hback as (H3 & Hreg & Hoth & Hnew & Hgen); [|done].
  change (bc_fd c) with sig in Hoth, Hnew.
  assert (Hm0 : maps_only b b) by (by destruct b).
  destruct ok; cbn [negb].
  2: { eexists _, _. split; [done|]. split; [|by intros Hg; specialize (Hgen Hg)].
       destruct (signal_entry_failed b b I e Hok Hk (conj Hpos Hin) Hm0 eq_refl eq_refl
                   (fun _ _ => eq_refl) b3 H3) as [Hf1 Hf2]; auto. split; auto. }
  rewrite Hrm. cbn [mbind option_bind].
  eexists _, _. split; [done|]. split; [|done].
  destruct (signal_entry_replaced b b I e Hok Hk (conj Hpos Hin) Hm0 eq_refl eq_refl
    (fun _ _ => eq_refl) b3 (remove_event I e) q H3 Hreg) as [Hf1 Hf2]; auto.
  - intros x Hx. unfold remove_event. tauto.
  - eapply lists_exactly_ext; [|exact Hlq]. intros x. cbn. unfold remove_event. tauto.
  - fold sig. rewrite Hnew by done. rewrite (mo_signal_backend _ _ Hok sig Hpos). fold ctx.
    rewrite (bool_decide_false (ctx = [])) by (intros Hc; rewrite Hc in He; by apply not_elem_of_nil in He).
    by destruct (bool_decide (q = [])).
  - split; [done|]. right. split; [by right | done].
Qed.
