(* ===== verification/EventSpec.v ===== *)
(** Correctness of the event core: the invariant of an event base and what
    adding, deleting and activating events do. *)

From S2P Require Import Prelude MinHeap EventData Evmap EventCore EventQueue EvmapSpec.

(** ** The invariant of an event base *)

(** An added event waits for a descriptor or for a signal. *)
Definition has_slot (b : event_base) (e : evid) : Prop :=
  io_kind b e \/ 0 <= ev_fd (structs b e).

Record loop_inv (b : event_base) : Prop := {
  li_queues :> queue_inv b;
  li_maps : map_ok b (fun e => flag b e EVLIST_INSERTED = true);
  li_slots : forall e, flag b e EVLIST_INSERTED = true -> has_slot b e }.

(** The part of the base the queue invariant speaks of. *)
Definition queue_part (b : event_base) :=
  (structs b, timers b, timeheap b, eventqueue b, activequeues b, common_timeout_queues b,
   event_count b, event_count_active b).

Lemma queue_inv_part b b' : queue_part b' = queue_part b -> queue_inv b -> queue_inv b'.
Proof.
  intros Hp Hq. destruct b, b'. unfold queue_part in Hp. cbn in Hp. simplify_eq.
  destruct Hq. by split.
Qed.

(** ** Frames *)

(** Nothing of any event has changed but the flags of [e], nor any timeout. *)
Record only_flags (e : evid) (b b' : event_base) : Prop := {
  of_structs : forall x, structs b' x =
    if decide (x = e) then (structs b x) <| ev_flags := ev_flags (structs b' e) |>
    else structs b x;
  of_timeouts : forall x, timeout_of b' x = timeout_of b x;
  of_shape : ctl_shape b' = ctl_shape b;
  of_priorities : length (activequeues b') = length (activequeues b);
  of_running : event_running_priority b' = event_running_priority b;
  of_current : current_event b' = current_event b;
  of_cache : tv_cache b' = tv_cache b }.

Lemma requeued_only e f b b' : requeued e f b b' -> only_flags e b b'.
Proof.
  intros [Hs Ht Hu Hc Hl]. split; try done; try (unfold untouched in Hu; congruence).
  intros x. rewrite !Hs. destruct (decide (x = e)) as [->|]; [|done].
  by rewrite decide_True.
Qed.

Lemma part_only e b b' :
  queue_part b' = queue_part b -> event_running_priority b' = event_running_priority b ->
  current_event b' = current_event b -> tv_cache b' = tv_cache b -> only_flags e b b'.
Proof.
  intros Hp Hr Hc Hv. destruct b, b'. unfold queue_part in Hp. cbn in *. simplify_eq.
  split; try done. cbn. intros x. destruct (decide (x = e)) as [->|]; [|done].
  by destruct (structs e).
Qed.

Lemma only_flags_trans e b b' b'' :
  only_flags e b b' -> only_flags e b' b'' -> only_flags e b b''.
Proof.
  intros [H1 H2 H3 H4 H5 H6 H7] [G1 G2 G3 G4 G5 G6 G7]. split; try congruence.
  - intros x. rewrite (G1 x). destruct (decide (x = e)) as [->|Hx].
    + rewrite (H1 e), decide_True by done. done.
    + rewrite (H1 x). by rewrite decide_False.
Qed.

Lemma only_flags_fields e b b' x :
  only_flags e b b' ->
  ev_events (structs b' x) = ev_events (structs b x) /\
  ev_fd (structs b' x) = ev_fd (structs b x) /\
  ev_pri (structs b' x) = ev_pri (structs b x) /\
  ev_base (structs b' x) = ev_base (structs b x).
Proof. intros H. rewrite (of_structs _ _ _ H). by destruct (decide (x = e)). Qed.

Lemma only_flags_ne e b b' x m :
  only_flags e b b' -> x <> e -> flag b' x m = flag b x m.
Proof. intros H Hx. unfold flag. rewrite (of_structs _ _ _ H). by rewrite decide_False. Qed.

Lemma only_flags_common e b b' tv :
  only_flags e b b' -> is_common_timeout tv b' = is_common_timeout tv b.
Proof. intros H. apply shape_common, H. Qed.

(** [map_ok] only reads the kinds of the events and the maps. *)
Definition map_part (b : event_base) := (io b, sigmap b, backend_log b).

Lemma map_ok_only e b b' I :
  only_flags e b b' -> map_part b' = map_part b -> map_ok b I -> map_ok b' I.
Proof.
  intros Ho Hp H. unfold map_part in Hp.
  assert (io b' = io b /\ sigmap b' = sigmap b /\ backend_log b' = backend_log b)
    as (Hio & Hsig & Hlog) by (repeat split; congruence).
  apply (map_ok_ext b b' I I); try done.
  - intros x. apply (only_flags_fields e b b' x Ho).
  - intros x. apply (only_flags_fields e b b' x Ho).
  - intros fd _. unfold io_entry. by rewrite Hio.
  - intros s _. unfold signal_entry. by rewrite Hsig.
  - by rewrite Hlog.
  - by rewrite Hlog.
Qed.

Lemma has_slot_only e b b' x : only_flags e b b' -> has_slot b' x <-> has_slot b x.
Proof.
  intros Ho. unfold has_slot, io_kind.
  destruct (only_flags_fields e b b' x Ho) as (-> & -> & _). done.
Qed.

(** ** Steps that do not touch the queues *)

Lemma maps_only_part b b' : maps_only b b' -> queue_part b' = queue_part b.
Proof. intros ->. done. Qed.

Lemma maps_only_flags e b b' : maps_only b b' -> only_flags e b b'.
Proof. intros H. apply part_only; [by apply maps_only_part | by rewrite H ..]. Qed.

Lemma notify_part E c b :
  queue_part (notify_if E c b) = queue_part b /\ map_part (notify_if E c b) = map_part b /\
  event_running_priority (notify_if E c b) = event_running_priority b /\
  current_event (notify_if E c b) = current_event b /\
  tv_cache (notify_if E c b) = tv_cache b.
Proof.
  unfold notify_if, evthread_notify_base. destruct (c && _); [|done].
  destruct (negb _); [done|]. by destruct (is_notify_pending b).
Qed.

Lemma notify_only E c b e : only_flags e b (notify_if E c b).
Proof. destruct (notify_part E c b) as (? & ? & ? & ? & ?). by apply part_only. Qed.

(** The pointer to the counter of a signal closure is good. *)
Definition signal_loop_ok (b : event_base) (e : evid) : Prop :=
  has (ev_events (structs b e)) EV_SIGNAL = true -> ev_ncalls (structs b e) <> 0 ->
  forall f, ev_pncalls (structs b e) = Some f -> exists k, signal_closure b = Some (f, k).

Lemma abort_ok b e :
  signal_loop_ok b e ->
  exists b', abort_signal_loop b e = Some b' /\
    queue_part b' = queue_part b /\ map_part b' = map_part b /\ only_flags e b b'.
Proof.
  intros H. unfold abort_signal_loop.
  assert (Hid : only_flags e b b) by by apply part_only.
  destruct (has (ev_events (structs b e)) EV_SIGNAL) eqn:Hs; [|by exists b].
  destruct (Z.eqb_spec (ev_ncalls (structs b e)) 0) as [Hn|Hn]; [by exists b|]. cbn [negb andb].
  destruct (ev_pncalls (structs b e)) as [f|] eqn:Hf; [|by exists b].
  destruct (H Hs Hn f Hf) as [k Hk]. rewrite Hk. cbn [mbind option_bind].
  rewrite decide_True by done. eexists. split; [done|]. split; [done|]. split; [done|].
  by apply part_only.
Qed.

(** ** Deleting *)

Lemma cleared_none b e K : flag b e K = false -> cleared b e K = ev_flags (structs b e).
Proof.
  unfold flag, has, cleared. intros H%negb_false_iff%Z.eqb_eq.
  apply Z.bits_inj'. intros i Hi. rewrite Z.land_spec, Z.lnot_spec by done.
  apply (f_equal (fun z => Z.testbit z i)) in H. rewrite Z.land_spec, Z.bits_0 in H.
  by destruct (Z.testbit (ev_flags (structs b e)) i), (Z.testbit K i).
Qed.

Lemma requeued_refl b e : requeued e (ev_flags (structs b e)) b b.
Proof.
  split; try done. intros x. destruct (decide (x = e)) as [->|]; [|done].
  by destruct (structs b e).
Qed.

(** Taking the event off one of its queues, if it is on it. *)
Lemma remove_if E b e K :
  queue_inv b -> K = EVLIST_TIMEOUT \/ K = EVLIST_ACTIVE \/ K = EVLIST_INSERTED ->
  exists b', (if flag b e K then event_queue_remove E b e K else Some b) = Some b' /\
    queue_inv b' /\ requeued e (cleared b e K) b b' /\
    a (timeheap b') = a (timeheap b) /\ (n (timeheap b') <= n (timeheap b))%nat /\
    activequeues b' = (if K =? EVLIST_ACTIVE then without e <$> activequeues b else activequeues b).
Proof.
  intros Hq HK. destruct (flag b e K) eqn:Hf.
  - destruct HK as [-> | [-> | ->]].
    + destruct (remove_timeout E b e Hq Hf) as (b' & H1 & H2 & H3 & H4 & H5 & H6).
      exists b'. do 4 (split; [done|]). split; [|by eapply remove_other_queues; [left|]].
      destruct (is_common_timeout (timeout_of b e) b); [by rewrite H6|].
      apply Nat.lt_le_incl, H5. done.
    + destruct (remove_active E b e Hq Hf) as (b' & H1 & H2 & H3 & H4 & _).
      exists b'. rewrite H4. do 5 (split; [done|]). by eapply remove_active_queues.
    + destruct (remove_inserted E b e Hq Hf) as (b' & H1 & H2 & H3 & H4 & _).
      exists b'. rewrite H4. do 5 (split; [done|]). by eapply remove_other_queues; [right|].
  - exists b. do 2 (split; [done|]). rewrite cleared_none by done.
    split; [apply requeued_refl|]. do 2 (split; [done|]).
    destruct (Z.eqb_spec K EVLIST_ACTIVE) as [->|]; [|done]. by rewrite absent_queues.
Qed.

Definition map_del (E : env) (b : event_base) (e : evid) : option (Z * event_base) :=
  let ev := structs b e in
  if has (ev_events ev) (Z.lor EV_READ EV_WRITE) then evmap_io_del E b (ev_fd ev) e
  else evmap_signal_del E b (ev_fd ev) e.

Lemma map_del_ok E b I e :
  map_ok b I -> I e -> has_slot b e ->
  exists r b', map_del E b e = Some (r, b') /\
    map_result b b' I (remove_event I e) r /\ (generous E -> r <> -1).
Proof.
  intros Hok HI Hs. unfold map_del.
  destruct (has (ev_events (structs b e)) (Z.lor EV_READ EV_WRITE)) eqn:Hk.
  - by apply evmap_io_del_ok.
  - apply evmap_signal_del_ok; try done.
    + unfold io_kind. congruence.
    + destruct Hs as [Hs|Hs]; [unfold io_kind in Hs; congruence | done].
Qed.

(** What [event_del_internal] leaves: the event is on no queue. *)
Record deleted (b b' : event_base) (e : evid) : Prop := {
  de_queues : queue_inv b';
  de_only : only_flags e b b';
  de_flags : forall m, Z.land m (Z.lor EVLIST_TIMEOUT (Z.lor EVLIST_ACTIVE EVLIST_INSERTED)) = 0 ->
    flag b' e m = flag b e m;
  de_timeout : flag b' e EVLIST_TIMEOUT = false;
  de_active : flag b' e EVLIST_ACTIVE = false;
  de_inserted : flag b' e EVLIST_INSERTED = false;
  de_heap : a (timeheap b') = a (timeheap b) /\ (n (timeheap b') <= n (timeheap b))%nat;
  de_active_queues : activequeues b' = without e <$> activequeues b }.

Lemma clear_three (f : Z) :
  let g := Z.land (Z.land (Z.land f (Z.lnot EVLIST_TIMEOUT)) (Z.lnot EVLIST_ACTIVE))
             (Z.lnot EVLIST_INSERTED) in
  has g EVLIST_TIMEOUT = false /\ has g EVLIST_ACTIVE = false /\
  has g EVLIST_INSERTED = false /\
  forall m, Z.land m (Z.lor EVLIST_TIMEOUT (Z.lor EVLIST_ACTIVE EVLIST_INSERTED)) = 0 ->
    has g m = has f m.
Proof.
  intros g. unfold g. split; [|split; [|split]].
  - rewrite !has_clear_other by done. apply has_clear_same.
  - rewrite has_clear_other by done. apply has_clear_same.
  - apply has_clear_same.
  - intros m Hm. rewrite !Z.land_lor_distr_r in Hm.
    apply Z.lor_eq_0_iff in Hm as [H1 Hm]. apply Z.lor_eq_0_iff in Hm as [H2 H3].
    rewrite !has_clear_other; [done | by rewrite Z.land_comm ..].
Qed.

(** The three removals of [event_del_internal], before the map is told. *)
Lemma dequeue_all b1 b2 b3 b4 e :
  requeued e (cleared b1 e EVLIST_TIMEOUT) b1 b2 ->
  requeued e (cleared b2 e EVLIST_ACTIVE) b2 b3 ->
  requeued e (cleared b3 e EVLIST_INSERTED) b3 b4 ->
  queue_inv b4 ->
  a (timeheap b4) = a (timeheap b1) -> (n (timeheap b4) <= n (timeheap b1))%nat ->
  activequeues b4 = without e <$> activequeues b1 -> deleted b1 b4 e.
Proof.
  intros H1 H2 H3 Hq Ha Hn Haq.
  assert (Hf : ev_flags (structs b4 e) =
    Z.land (Z.land (Z.land (ev_flags (structs b1 e)) (Z.lnot EVLIST_TIMEOUT))
              (Z.lnot EVLIST_ACTIVE)) (Z.lnot EVLIST_INSERTED)).
  { unfold cleared in *. rewrite (rq_structs _ _ _ _ H3), decide_True by done. cbn.
    rewrite (rq_structs _ _ _ _ H2), decide_True by done. cbn.
    rewrite (rq_structs _ _ _ _ H1), decide_True by done. done. }
  destruct (clear_three (ev_flags (structs b1 e))) as (F1 & F2 & F3 & F4).
  split; [done | | intros m Hm | .. | done | done]; unfold flag; rewrite ?Hf; auto.
  eapply only_flags_trans; [by eapply requeued_only|].
  eapply only_flags_trans; by eapply requeued_only.
Qed.

(** The event may be deleted: its base is set, no other thread runs its
    callback, and its pointer into a signal closure is good. *)
Record deletable (E : env) (b : event_base) (e : evid) : Prop := {
  dl_base : ev_base (structs b e) = true;
  dl_wait : must_wait E b e = false;
  dl_closure : signal_loop_ok b e }.

Definition inserted (b : event_base) (e : evid) : Prop := flag b e EVLIST_INSERTED = true.

Lemma map_ok_iff b I I' : map_ok b I -> (forall x, I x <-> I' x) -> map_ok b I'.
Proof. intros H HI. by apply (map_ok_ext b b I I'). Qed.

Lemma deleted_inserted b b' e x :
  deleted b b' e -> inserted b' x <-> remove_event (inserted b) e x.
Proof.
  intros Hd. unfold inserted, remove_event. destruct (decide (x = e)) as [->|Hx].
  - rewrite (de_inserted _ _ _ Hd). (tauto || intuition congruence).
  - rewrite (only_flags_ne e b b') by (try apply Hd; done). tauto.
Qed.

(** Steps around the removals. *)
Lemma deleted_before b b1 b' e :
  queue_part b1 = queue_part b -> only_flags e b b1 -> deleted b1 b' e -> deleted b b' e.
Proof.
  intros Hp Ho [Hq Ho' Hf Ht Ha Hi Hh Haq]. unfold queue_part in Hp.
  assert (structs b1 = structs b /\ timeheap b1 = timeheap b /\ activequeues b1 = activequeues b)
    as (Hs & Hth & Hbq) by (repeat split; congruence).
  split; try done.
  - by eapply only_flags_trans.
  - intros m Hm. rewrite (Hf m Hm). unfold flag. by rewrite Hs.
  - by rewrite <- Hth.
  - by rewrite <- Hbq.
Qed.

Lemma deleted_after b b1 b' e :
  deleted b b1 e -> queue_part b' = queue_part b1 -> only_flags e b1 b' -> deleted b b' e.
Proof.
  intros [Hq Ho' Hf Ht Ha Hi Hh Haq] Hp Ho.
  assert (structs b' = structs b1 /\ timeheap b' = timeheap b1 /\ activequeues b' = activequeues b1)
    as (Hs & Hth & Hbq) by (unfold queue_part in Hp; repeat split; congruence).
  split; unfold flag; rewrite ?Hs, ?Hth, ?Hbq; try done.
  - by apply (queue_inv_part b1).
  - by eapply only_flags_trans.
Qed.

(** Deletion: the event leaves every queue; on success the invariant holds
    again, and if the backend refuses, the maps still hold the event. *)
Lemma event_del_internal_ok E b e :
  loop_inv b -> deletable E b e ->
  exists r b', event_del_internal E b e = Some (r, b') /\ deleted b b' e /\
    (r = 0 /\ loop_inv b' \/ r = -1 /\ inserted b e /\ map_ok b' (inserted b)) /\
    (generous E -> r = 0).
Proof.
  intros [Hq Hmap Hslot] [Hb Hw Hc]. unfold event_del_internal. rewrite Hb, Hw.
  cbn [negb]. rewrite (qi_flags _ Hq e : has _ _ = false).
  destruct (abort_ok b e Hc) as (b1 & Hab & Hp1 & Hm1 & Ho1). rewrite Hab. cbn [mbind option_bind].
  assert (Hq1 := queue_inv_part b b1 Hp1 Hq).
  destruct (remove_if E b1 e EVLIST_TIMEOUT Hq1) as (b2 & E2 & Hq2 & R2 & A2 & N2 & Q2); [auto|].
  rewrite E2. cbn [mbind option_bind].
  destruct (remove_if E b2 e EVLIST_ACTIVE Hq2) as (b3 & E3 & Hq3 & R3 & A3 & N3 & Q3); [auto|].
  rewrite E3. cbn [mbind option_bind].
  destruct (remove_if E b3 e EVLIST_INSERTED Hq3) as (b4 & E4 & Hq4 & R4 & A4 & N4 & Q4); [auto|].
  assert (Hd : deleted b b4 e).
  { apply (deleted_before b b1); [done..|].
    apply (dequeue_all b1 b2 b3 b4 e); try (done || lia || congruence).
    cbn in Q2, Q3, Q4. congruence. }
  assert (Hins : flag b3 e EVLIST_INSERTED = flag b e EVLIST_INSERTED).
  { rewrite (rq_flag_eq b2 b3 e _ R3). unfold cleared. rewrite has_clear_other by done.
    change (has _ _) with (flag b2 e EVLIST_INSERTED).
    rewrite (rq_flag_eq b1 b2 e _ R2). unfold cleared. rewrite has_clear_other by done.
    unfold flag. unfold queue_part in Hp1. congruence. }
  assert (Hmap4 : map_ok b4 (inserted b)).
  { eapply map_ok_requeued, R4. eapply map_ok_requeued, R3. eapply map_ok_requeued, R2.
    by apply (map_ok_only e b b1). }
  rewrite Hins in *. destruct (flag b e EVLIST_INSERTED) eqn:Hfl.
  - rewrite E4. cbn [mbind option_bind]. change (if has _ _ then _ else _) with (map_del E b4 e).
    destruct (map_del_ok E b4 (inserted b) e Hmap4 Hfl) as (r & b5 & Hrun & [Hmo Hres] & Hgen).
    { apply (has_slot_only e b b4); [apply Hd | by apply Hslot]. }
    rewrite Hrun. cbn [mbind option_bind]. eexists _, _. split; [done|].
    destruct (notify_part E (r =? 1) b5) as (Np & Nm & _).
    assert (Hd' : deleted b (notify_if E (r =? 1) b5) e).
    { eapply (deleted_after b b5); [|exact Np|apply notify_only].
      eapply (deleted_after b b4); [done | by apply maps_only_part | by apply maps_only_flags]. }
    split; [done|]. split.
    + destruct Hres as [[-> Hres] | [Hr Hres]]; [right | left].
      * split; [done|]. split; [done|].
        by apply (map_ok_only e b5 _ _ (notify_only E _ b5 e) Nm).
      * split; [by destruct Hr as [-> | ->]|]. split; [apply Hd'| |].
        -- eapply map_ok_iff; [by apply (map_ok_only e b5 _ _ (notify_only E _ b5 e) Nm)|].
           intros x. symmetry. by apply (deleted_inserted b).
        -- intros x Hx. apply (has_slot_only e b _ x (de_only _ _ _ Hd')).
           by apply Hslot, (deleted_inserted b _ e x Hd').
    + intros Hg. specialize (Hgen Hg). destruct Hres as [[-> _] | [[-> | ->] _]]; done.
  - injection E4 as <-. eexists _, _. split; [done|]. split; [done|]. split; [|done]. left.
    split; [done|]. split; [apply Hd| |].
    + eapply map_ok_iff; [exact Hmap4|]. intros x. change (flag b3 x EVLIST_INSERTED = true) with (inserted b3 x).
      rewrite (deleted_inserted b b3 e x Hd). unfold remove_event. split; [|tauto].
      intros Hx. split; [done|]. intros ->. unfold inserted in Hx. congruence.
    + intros x Hx. apply (has_slot_only e b _ x (de_only _ _ _ Hd)).
      by apply Hslot, (deleted_inserted b _ e x Hd).
Qed.

(** ** Activating *)

(** Updates of fields the invariant does not read. *)
Definition inert (f : event -> event) : Prop := forall ev,
  ev_flags (f ev) = ev_flags ev /\ ev_pri (f ev) = ev_pri ev /\
  ev_events (f ev) = ev_events ev /\ ev_fd (f ev) = ev_fd ev.

Lemma upd_field {A} (g : event -> A) b e f x :
  (forall ev, g (f ev) = g ev) -> g (structs (upd_event e f b) x) = g (structs b x).
Proof. intros H. cbn. by destruct (decide (x = e)). Qed.

Lemma loop_inv_upd b e f : inert f -> loop_inv b -> loop_inv (upd_event e f b).
Proof.
  intros Hf [Hq Hmap Hslot]. set (b' := upd_event e f b).
  assert (Hfl : forall x, ev_flags (structs b' x) = ev_flags (structs b x))
    by (intros x; apply (upd_field ev_flags); apply Hf).
  assert (Hpri : forall x, ev_pri (structs b' x) = ev_pri (structs b x))
    by (intros x; apply (upd_field ev_pri); apply Hf).
  assert (Hev : forall x, ev_events (structs b' x) = ev_events (structs b x))
    by (intros x; apply (upd_field ev_events); apply Hf).
  assert (Hfd : forall x, ev_fd (structs b' x) = ev_fd (structs b x))
    by (intros x; apply (upd_field ev_fd); apply Hf).
  assert (Hflag : forall x m, flag b' x m = flag b x m) by (intros; unfold flag; by rewrite Hfl).
  split.
  - destruct Hq as [H1 H2 H3 H4 H5 H6 H7 H8 H9 H10]. split; try done.
    + intros x. rewrite Hflag. apply H2.
    + intros i c Hc. eapply lists_exactly_ext; [|exact (H3 i c Hc)].
      intros x. unfold waits_on_common. by rewrite Hflag.
    + eapply lists_exactly_ext; [|exact H4]. intros x. by rewrite Hflag.
    + intros i q Hi. eapply lists_exactly_ext; [|exact (H5 i q Hi)].
      intros x. by rewrite Hflag, Hpri.
    + intros x. rewrite Hflag, Hpri. apply H6.
    + intros x. rewrite Hflag. apply H7.
    + intros x. rewrite Hflag. apply H8.
    + change (event_count b') with (event_count b). rewrite H10. unfold n_external. f_equal.
      apply list_filter_iff. intros x. unfold internal. by rewrite Hflag.
  - apply (map_ok_ext b b' _ _ Hmap); try done. intros x. by rewrite Hflag.
  - intros x. rewrite Hflag. unfold has_slot, io_kind. rewrite Hev, Hfd. apply Hslot.
Qed.

(** Steps on the fields neither invariant reads. *)
Lemma loop_inv_part b b' :
  queue_part b' = queue_part b -> map_part b' = map_part b -> loop_inv b -> loop_inv b'.
Proof.
  intros Hp Hm [Hq Hmap Hslot].
  assert (Hs : structs b' = structs b) by (unfold queue_part in Hp; congruence).
  split; [by apply (queue_inv_part b)| |].
  - apply (map_ok_iff _ (fun x => flag b x EVLIST_INSERTED = true)).
    + unfold map_part in Hm.
      assert (io b' = io b /\ sigmap b' = sigmap b /\ backend_log b' = backend_log b)
        as (Hio & Hsig & Hlog) by (repeat split; congruence).
      apply (map_ok_ext b b' _ _ Hmap); try done; try (intros; by rewrite Hs).
      * intros fd _. unfold io_entry. by rewrite Hio.
      * intros s _. unfold signal_entry. by rewrite Hsig.
      * by rewrite Hlog.
      * by rewrite Hlog.
    + intros x. unfold flag. by rewrite Hs.
  - intros x. unfold flag, has_slot, io_kind. rewrite Hs. apply Hslot.
Qed.

(** Putting an event on a queue of active events. *)
Lemma loop_inv_insert_active E b e :
  loop_inv b -> flag b e EVLIST_ACTIVE = false ->
  0 <= ev_pri (structs b e) < zlen (activequeues b) ->
  exists b' q, event_queue_insert E b e EVLIST_ACTIVE = Some b' /\ loop_inv b' /\
    requeued e (raised b e EVLIST_ACTIVE) b b' /\
    activequeues b !! Z.to_nat (ev_pri (structs b e)) = Some q /\
    activequeues b' = <[Z.to_nat (ev_pri (structs b e)) := q ++ [e]]> (activequeues b) /\
    timeheap b' = timeheap b /\ timers b' = timers b /\
    common_timeout_queues b' = common_timeout_queues b.
Proof.
  intros [Hq Hmap Hslot] Ha Hpri.
  destruct (insert_active E b e Hq Ha Hpri) as (b' & q & H1 & H2 & H3 & H4 & H5 & _ & H6 & H7 & H8).
  exists b', q. split; [done|]. split; [|by repeat (split; [done|])].
  assert (Hi : forall x, flag b' x EVLIST_INSERTED = flag b x EVLIST_INSERTED).
  { apply (rq_keep b b' e _ H3). by apply raised_other. }
  split; [done| |].
  - eapply map_ok_iff; [by eapply map_ok_requeued|]. intros x. by rewrite Hi.
  - intros x. rewrite Hi. intros Hx. apply (has_slot_only e b b'); [by eapply requeued_only|].
    by apply Hslot.
Qed.

(** What activating an event does. *)
Record activated (b b' : event_base) (e : evid) (res : Z) : Prop := {
  ac_inv : loop_inv b';
  ac_active : flag b' e EVLIST_ACTIVE = true;
  ac_res : ev_res (structs b' e) =
    if flag b e EVLIST_ACTIVE then Z.lor (ev_res (structs b e)) res else res;
  ac_queues : activequeues b' =
    (let i := Z.to_nat (ev_pri (structs b e)) in
     if flag b e EVLIST_ACTIVE then activequeues b
     else alter (fun q => q ++ [e]) i (activequeues b));
  ac_continue : event_continue b' = event_continue b ||
    (negb (flag b e EVLIST_ACTIVE) && (ev_pri (structs b e) <? event_running_priority b));
  ac_others : forall x, x <> e -> structs b' x = structs b x;
  ac_flags : forall m, Z.land EVLIST_ACTIVE m = 0 -> flag b' e m = flag b e m;
  ac_kept : ev_pri (structs b' e) = ev_pri (structs b e) /\
    ev_base (structs b' e) = ev_base (structs b e) /\
    ev_events (structs b' e) = ev_events (structs b e);
  ac_timers : timers b' = timers b /\ timeheap b' = timeheap b /\
    common_timeout_queues b' = common_timeout_queues b /\
    event_running_priority b' = event_running_priority b /\
    current_event b' = current_event b /\ tv_cache b' = tv_cache b;
  ac_pncalls : ev_pncalls (structs b' e) = ev_pncalls (structs b e) \/
    ev_pncalls (structs b' e) = None }.

Lemma notify_fields E c b :
  structs (notify_if E c b) = structs b /\ timers (notify_if E c b) = timers b /\
  timeheap (notify_if E c b) = timeheap b /\ activequeues (notify_if E c b) = activequeues b /\
  common_timeout_queues (notify_if E c b) = common_timeout_queues b /\
  event_continue (notify_if E c b) = event_continue b.
Proof.
  unfold notify_if, evthread_notify_base. destruct (c && _); [|done].
  destruct (negb _); [done|]. by destruct (is_notify_pending b).
Qed.

(** An event that is active already collects the new result. *)
Lemma event_active_again E b e res ncalls :
  loop_inv b -> flag b e EVLIST_ACTIVE = true ->
  exists b', event_active_nolock E b e res ncalls = Some b' /\ activated b b' e res.
Proof.
  intros Hb Ha. unfold event_active_nolock. rewrite Ha. eexists. split; [done|].
  set (b' := upd_event _ _ _).
  assert (Hs : structs b' e = (structs b e) <| ev_res := Z.lor (ev_res (structs b e)) res |>)
    by (cbn; by rewrite decide_True).
  split; unfold flag; rewrite ?Hs; try done.
  - by apply loop_inv_upd.
  - change (has (ev_flags (structs b e)) EVLIST_ACTIVE) with (flag b e EVLIST_ACTIVE). by rewrite Ha.
  - change (has (ev_flags (structs b e)) EVLIST_ACTIVE) with (flag b e EVLIST_ACTIVE). by rewrite Ha.
  - change (has (ev_flags (structs b e)) EVLIST_ACTIVE) with (flag b e EVLIST_ACTIVE).
    rewrite Ha. by rewrite orb_false_r.
  - intros x Hx. cbn. by rewrite decide_False.
  - by left.
Qed.

(** The base before the event is queued: the fields of the event are set. *)
Definition prepare_active (b : event_base) (e : evid) (res ncalls : Z) : event_base :=
  let b1 := upd_event e (fun ev => ev <| ev_res := res |>) b in
  let b2 := if ev_pri (structs b1 e) <? event_running_priority b1
            then b1 <| event_continue := true |> else b1 in
  if has (ev_events (structs b1 e)) EV_SIGNAL
  then upd_event e (fun ev => ev <| ev_ncalls := ncalls |> <| ev_pncalls := None |>) b2
  else b2.

Lemma prepare_active_ok b e res ncalls :
  let b3 := prepare_active b e res ncalls in
  (loop_inv b -> loop_inv b3) /\
  (forall x, x <> e -> structs b3 x = structs b x) /\
  (ev_res (structs b3 e) = res /\ ev_flags (structs b3 e) = ev_flags (structs b e) /\
   ev_pri (structs b3 e) = ev_pri (structs b e) /\ ev_base (structs b3 e) = ev_base (structs b e) /\
   ev_events (structs b3 e) = ev_events (structs b e)) /\
  (timers b3 = timers b /\ timeheap b3 = timeheap b /\
   common_timeout_queues b3 = common_timeout_queues b /\
   event_running_priority b3 = event_running_priority b /\
   current_event b3 = current_event b /\ activequeues b3 = activequeues b /\
   tv_cache b3 = tv_cache b) /\
  event_continue b3 = event_continue b || (ev_pri (structs b e) <? event_running_priority b).
Proof.
  unfold prepare_active. set (b1 := upd_event _ _ b).
  assert (Hs : structs b1 e = (structs b e) <| ev_res := res |>)
    by (cbn; by rewrite decide_True).
  rewrite Hs. change (ev_pri (assign _ _)) with (ev_pri (structs b e)).
  change (event_running_priority b1) with (event_running_priority b).
  set (b2 := if _ <? _ then _ else _).
  assert (H2 : loop_inv b -> loop_inv b2).
  { intros H. assert (loop_inv b1) by (by apply loop_inv_upd). unfold b2.
    destruct (_ <? _); [|done]. by apply (loop_inv_part b1). }
  assert (Hs2 : structs b2 = structs b1) by (unfold b2; by destruct (_ <? _)).
  assert (Ht2 : timers b2 = timers b /\ timeheap b2 = timeheap b /\
    common_timeout_queues b2 = common_timeout_queues b /\
    event_running_priority b2 = event_running_priority b /\
    current_event b2 = current_event b /\ activequeues b2 = activequeues b /\
    tv_cache b2 = tv_cache b)
    by (unfold b2; by destruct (_ <? _)).
  assert (Hc2 : event_continue b2 =
    event_continue b || (ev_pri (structs b e) <? event_running_priority b)).
  { unfold b2. destruct (_ <? _); cbn; [by rewrite orb_true_r | by rewrite orb_false_r]. }
  assert (Hne : forall x, x <> e -> structs b1 x = structs b x)
    by (intros x Hx; cbn; by rewrite decide_False).
  destruct (has _ EV_SIGNAL).
  - split; [intros H; by apply loop_inv_upd, H2|]. split; [|split; [|split; [exact Ht2|exact Hc2]]].
    + intros x Hx. cbn. rewrite decide_False by done. rewrite Hs2. by apply Hne.
    + cbn. rewrite decide_True by done. by rewrite Hs2, Hs.
  - split; [done|]. rewrite Hs2, Hs. split; [done|]. split; [done|]. by split.
Qed.

Lemma prepare_pncalls b e res ncalls :
  let b' := prepare_active b e res ncalls in
  ev_pncalls (structs b' e) = ev_pncalls (structs b e) \/ ev_pncalls (structs b' e) = None.
Proof.
  unfold prepare_active. set (b1 := upd_event _ _ b).
  assert (H1 : ev_pncalls (structs b1 e) = ev_pncalls (structs b e)) by (cbn; by rewrite decide_True).
  destruct (has _ EV_SIGNAL); [right; cbn; by rewrite decide_True|left].
  by destruct (_ <? _).
Qed.

Lemma event_active_first E b e res ncalls :
  loop_inv b -> flag b e EVLIST_ACTIVE = false ->
  0 <= ev_pri (structs b e) < zlen (activequeues b) ->
  (has (ev_events (structs b e)) EV_SIGNAL = true -> must_wait E b e = false) ->
  exists b', event_active_nolock E b e res ncalls = Some b' /\ activated b b' e res.
Proof.
  intros Hb Ha Hpri Hw.
  destruct (prepare_active_ok b e res ncalls) as (Hi & Ho & (Hr & Hf & Hp & Hba & He) & Ht & Hc).
  set (b3 := prepare_active b e res ncalls) in *.
  assert (Hrun : event_active_nolock E b e res ncalls =
    (b4 ← event_queue_insert E b3 e EVLIST_ACTIVE; Some (notify_if E true b4))).
  { unfold event_active_nolock, b3, prepare_active. rewrite Ha.
    set (b1 := upd_event _ _ b).
    assert (Hev : ev_events (structs b1 e) = ev_events (structs b e))
      by (cbn; by rewrite decide_True).
    rewrite Hev. set (b2 := if _ <? _ then _ else _).
    assert (Hmw : must_wait E b2 e = must_wait E b e)
      by (unfold b2; by destruct (ev_pri (structs b1 e) <? event_running_priority b1)).
    rewrite Hmw. destruct (has _ EV_SIGNAL) eqn:Hs; [rewrite Hw by done|]; done. }
  destruct Ht as (T1 & T2 & T3 & T4 & T5 & T6 & T7).
  assert (Ha3 : forall m, flag b3 e m = flag b e m) by (intros m; unfold flag; by rewrite Hf).
  destruct (loop_inv_insert_active E b3 e) as (b4 & q & I1 & I2 & I3 & I4 & I5 & I6 & I7 & I8).
  { by apply Hi. } { by rewrite Ha3. } { by rewrite Hp, T6. }
  rewrite Hrun, I1. cbn [mbind option_bind]. eexists. split; [done|].
  destruct (notify_fields E true b4) as (N1 & N2 & N3 & N4 & N5 & N6).
  destruct (notify_part E true b4) as (P1 & P2 & P3 & P4 & P5).
  assert (Hse : structs b4 e = (structs b3 e) <| ev_flags := raised b3 e EVLIST_ACTIVE |>).
  { rewrite (rq_structs _ _ _ _ I3). by rewrite decide_True. }
  assert (Hu := rq_untouched _ _ _ _ I3). unfold untouched in Hu.
  split; rewrite ?N1, ?N2, ?N3, ?N4, ?N5, ?N6, ?P3, ?P4, ?Hse.
  - by apply (loop_inv_part b4).
  - unfold flag. rewrite N1, Hse. by apply (raised_same b3 e EVLIST_ACTIVE).
  - rewrite Ha. exact Hr.
  - rewrite Ha, I5, Hp, T6. rewrite Hp, T6 in I4. apply list_eq. intros j.
    rewrite list_lookup_alter, list_insert_alter, list_lookup_alter.
    case_decide as Hj; [|done]. by rewrite I4.
  - rewrite Ha. cbn [negb andb]. rewrite <- Hc. congruence.
  - intros x Hx. rewrite (rq_structs _ _ _ _ I3), decide_False by done. by apply Ho.
  - intros m Hm. unfold flag. rewrite N1, Hse.
    change (has (raised b3 e EVLIST_ACTIVE) m = flag b e m).
    rewrite raised_other by (unfold has; by rewrite Hm). apply Ha3.
  - done.
  - repeat split; congruence.
  - apply (prepare_pncalls b e res ncalls).
Qed.

Lemma event_active_nolock_ok E b e res ncalls :
  loop_inv b -> 0 <= ev_pri (structs b e) < zlen (activequeues b) ->
  (has (ev_events (structs b e)) EV_SIGNAL = true -> must_wait E b e = false) ->
  exists b', event_active_nolock E b e res ncalls = Some b' /\ activated b b' e res.
Proof.
  intros Hb Hp Hw. destruct (flag b e EVLIST_ACTIVE) eqn:Ha.
  - by apply event_active_again.
  - by apply event_active_first.
Qed.
