(* ===== verification/EventAdd.v ===== *)
(** What [event_add] does: the arithmetic of deadlines and common timeouts, and
    the preservation of the invariant by every part of the addition. *)

From S2P Require Import Prelude MinHeap EventData Evmap EventCore EventQueue EvmapSpec EventSpec.

(** ** Marked microseconds *)

Lemma land_low_high u k m : 0 <= k -> 0 <= u < 2 ^ k -> Z.land u (Z.shiftl m k) = 0.
Proof.
  intros Hk Hu. apply Z.bits_inj'. intros i Hi. rewrite Z.land_spec, Z.bits_0.
  destruct (Z.ltb_spec i k); [by rewrite Z.shiftl_spec_low, andb_false_r|].
  replace u with (u mod 2 ^ k) by (apply Z.mod_small; lia).
  by rewrite Z.mod_pow2_bits_high by lia.
Qed.

(** Microseconds that stay below the mark. *)
Definition unmarked_usec (u : Z) : Prop := 0 <= u < 2 ^ 20.

Lemma unmarked_land u m : unmarked_usec u -> Z.land u (Z.shiftl m 20) = 0.
Proof. intros H. by apply land_low_high. Qed.

Lemma unmarked_not_common tv b : unmarked_usec (tv_usec tv) -> is_common_timeout tv b = false.
Proof.
  intros H. unfold is_common_timeout. change COMMON_TIMEOUT_MASK with (Z.shiftl 3840 20).
  by rewrite unmarked_land.
Qed.

Lemma mask_unmarked tv : unmarked_usec (tv_usec (mask_usec tv)).
Proof.
  unfold unmarked_usec. cbn [tv_usec mask_usec]. change MICROSECONDS_MASK with (Z.ones 20).
  rewrite Z.land_ones by lia. by apply Z.mod_pos_bound.
Qed.

(** A time of less than a second's microseconds. *)
Definition normal (tv : timeval) : Prop := 0 <= tv_usec tv < 1000000.

Lemma normal_unmarked tv : normal tv -> unmarked_usec (tv_usec tv).
Proof. unfold normal, unmarked_usec. lia. Qed.

Lemma timeradd_normal t u : normal t -> normal u -> normal (evutil_timeradd t u).
Proof.
  unfold normal, evutil_timeradd. intros Ht Hu.
  destruct (Z.leb_spec 1000000 (tv_usec t + tv_usec u)); cbn [tv_usec]; lia.
Qed.

(** What the library accepts as a timeout: a normal time, or one made by
    [event_base_init_common_timeout]. *)
Definition proper_timeout (b : event_base) (tv : timeval) : Prop :=
  normal tv \/ is_common_timeout tv b = true /\ marked tv /\ normal (mask_usec tv).

(** Marking again with the upper bits of [tv]. *)
Definition remark (t tv : timeval) : timeval :=
  {| tv_sec := tv_sec t;
     tv_usec := Z.lor (tv_usec t) (Z.land (tv_usec tv) (Z.lnot MICROSECONDS_MASK)) |}.

Lemma remark_land t tv m :
  unmarked_usec (tv_usec t) -> Z.land (Z.shiftl m 20) (Z.lnot MICROSECONDS_MASK) = Z.shiftl m 20 ->
  Z.land (tv_usec (remark t tv)) (Z.shiftl m 20) = Z.land (tv_usec tv) (Z.shiftl m 20).
Proof.
  intros Ht Hm. cbn [tv_usec remark]. rewrite Z.land_lor_distr_l, unmarked_land, Z.lor_0_l by done.
  by rewrite <- Z.land_assoc, (Z.land_comm (Z.lnot _)), Hm.
Qed.

Lemma remark_common t tv b :
  unmarked_usec (tv_usec t) -> is_common_timeout (remark t tv) b = is_common_timeout tv b.
Proof.
  intros Ht. unfold is_common_timeout, COMMON_TIMEOUT_IDX.
  change COMMON_TIMEOUT_MASK with (Z.shiftl 3840 20).
  change COMMON_TIMEOUT_IDX_MASK with (Z.shiftl 255 20).
  by rewrite !remark_land.
Qed.

Lemma remark_idx t tv : unmarked_usec (tv_usec t) -> common_idx (remark t tv) = common_idx tv.
Proof.
  intros Ht. unfold common_idx, COMMON_TIMEOUT_IDX.
  change COMMON_TIMEOUT_IDX_MASK with (Z.shiftl 255 20). by rewrite remark_land.
Qed.

Lemma remark_marked t tv : unmarked_usec (tv_usec t) -> marked tv -> marked (remark t tv).
Proof.
  intros Ht Hm. unfold marked. rewrite remark_idx by done. rewrite <- Hm.
  change (Z.lnot MICROSECONDS_MASK) with (Z.shiftl (-1) 20). by rewrite remark_land.
Qed.

(** ** Deadlines *)

Lemma gettime_part E b :
  let b' := (gettime E b).2 in
  queue_part b' = queue_part b /\ map_part b' = map_part b /\
  event_running_priority b' = event_running_priority b /\
  current_event b' = current_event b /\ event_continue b' = event_continue b /\
  signal_closure b' = signal_closure b /\ tv_cache b' = tv_cache b.
Proof.
  unfold gettime. destruct (negb _); [done|]. destruct (_ && _); [|done].
  destruct (clock_monotonic E) as [[sec nsec]|]; [|done].
  destruct (_ <? _); [|done]. by destruct (gettimeofday E).
Qed.

Lemma mask_low tv : unmarked_usec (tv_usec tv) -> mask_usec tv = tv.
Proof.
  unfold unmarked_usec. intros H. destruct tv as [s u]. unfold mask_usec. cbn in *. f_equal.
  change MICROSECONDS_MASK with (Z.ones 20). rewrite Z.land_ones by lia. by apply Z.mod_small.
Qed.

Lemma mask_remark s tv : unmarked_usec (tv_usec s) -> mask_usec (remark s tv) = s.
Proof.
  intros H. rewrite <- (mask_low s H) at 2. unfold mask_usec, remark. cbn. f_equal.
  rewrite Z.land_lor_distr_l, <- Z.land_assoc.
  change (Z.land (Z.lnot MICROSECONDS_MASK) MICROSECONDS_MASK) with 0.
  by rewrite Z.land_0_r, Z.lor_0_r.
Qed.

(** The point in time, marked for a common timeout. *)
Definition due (b : event_base) (now tv : timeval) (tv_is_absolute : bool) : timeval :=
  if tv_is_absolute then tv else
  if is_common_timeout tv b then remark (evutil_timeradd now (mask_usec tv)) tv
  else evutil_timeradd now tv.

(** The clock can be read. *)
Definition clock_reads (E : env) (b : event_base) (now : timeval) : Prop :=
  (gettime E b).1 = Some now /\ normal now.

Lemma deadline_run E b tv abs now :
  clock_reads E b now -> deadline E b tv abs = Some (due b now tv abs, (gettime E b).2).
Proof.
  intros [Hnow _]. unfold deadline, due. destruct (gettime_part E b) as (Hp & _).
  destruct (gettime E b) as [nw b'] eqn:Hg. cbn [fst snd] in *. subst nw. cbn [mbind option_bind].
  assert (Hcm : is_common_timeout tv b' = is_common_timeout tv b).
  { apply shape_common. unfold ctl_shape. unfold queue_part in Hp. congruence. }
  rewrite Hcm. by destruct abs, (is_common_timeout tv b).
Qed.

Lemma due_ok b tv now abs :
  proper_timeout b tv -> normal now ->
  let t := due b now tv abs in
  is_common_timeout t b = is_common_timeout tv b /\ normal (mask_usec t) /\
  (is_common_timeout tv b = true -> common_idx t = common_idx tv /\ marked t) /\
  proper_timeout b t.
Proof.
  intros Htv Hn t.
  assert (Hplain : normal t -> is_common_timeout tv b = false ->
    is_common_timeout t b = is_common_timeout tv b /\ normal (mask_usec t) /\
    (is_common_timeout tv b = true -> common_idx t = common_idx tv /\ marked t) /\
    proper_timeout b t).
  { intros Ht Hc. rewrite Hc, unmarked_not_common, mask_low by (by apply normal_unmarked).
    split; [done|]. split; [done|]. split; [done | by left]. }
  destruct Htv as [Htv|(Hc & Hm & Hn')].
  - assert (Hc : is_common_timeout tv b = false) by (by apply unmarked_not_common, normal_unmarked).
    apply Hplain; [|done]. unfold t, due. rewrite Hc. destruct abs; [done | by apply timeradd_normal].
  - unfold t, due. rewrite Hc. destruct abs.
    + split; [done|]. split; [done|]. split; [done | by right].
    + set (s := evutil_timeradd now (mask_usec tv)).
      assert (Hs : normal s) by (by apply timeradd_normal).
      assert (Hu := normal_unmarked s Hs).
      rewrite remark_common, mask_remark, remark_idx by done.
      split; [done|]. split; [done|]. split; [intros _; split; [done | by apply remark_marked]|].
      right. rewrite remark_common, mask_remark by done. split; [done|].
      split; [by apply remark_marked | done].
Qed.

(** ** The parts of an addition *)

Lemma heap_core_ext st st' s :
  heap_core st s -> (forall x, in_heap s x -> st' x = st x) -> heap_core st' s.
Proof.
  intros [H1 H2 H3 H4] He. split; try done.
  - intros i Hi. destruct (H3 i Hi) as (x & Hx & Hxi). exists x. split; [done|].
    by rewrite He by (by exists i).
  - intros i x y Hi Hx Hy. pose proof (parent_lt i ltac:(lia)).
    rewrite (He x) by (exists (parent_of i); split; [lia | done]).
    rewrite (He y) by (exists i; split; [lia | done]). by apply (H4 i).
Qed.

(** A deadline can be written while the event waits for none. *)
Lemma loop_inv_set_timeout b e t :
  loop_inv b -> flag b e EVLIST_TIMEOUT = false -> loop_inv (set_ev_timeout e t b).
Proof.
  intros [Hq Hmap Hslot] He. set (b' := set_ev_timeout e t b).
  assert (Hne : forall x, x <> e -> timeout_of b' x = timeout_of b x).
  { intros x Hx. unfold timeout_of. cbn. by rewrite decide_False. }
  assert (Hw : forall x P, flag b x EVLIST_TIMEOUT = true /\ P (timeout_of b' x) <->
                         flag b x EVLIST_TIMEOUT = true /\ P (timeout_of b x)).
  { intros x P. destruct (decide (x = e)) as [->|Hx]; [|by rewrite Hne].
    rewrite He. intuition discriminate. }
  split; [|by apply (map_ok_ext b b' _ _ Hmap)|exact Hslot]. destruct Hq as [H1 H2 H3 H4 H5 H6 H7 H8 H9 H10]. split; try done.
  - apply (heap_core_ext (timers b)); [done|]. intros x Hx. cbn.
    rewrite decide_False; [done|]. intros ->. apply H2 in Hx as [Hx _]. congruence.
  - intros x. change (flag b' x EVLIST_TIMEOUT) with (flag b x EVLIST_TIMEOUT).
    rewrite (Hw x (fun tv => is_common_timeout tv b' = false)). apply H2.
  - intros i c Hc. eapply lists_exactly_ext; [|exact (H3 i c Hc)]. intros x.
    symmetry. apply (Hw x (fun tv => is_common_timeout tv b' = true /\ common_idx tv = i)).
  - intros x Hx. destruct (decide (x = e)) as [->|Hxe].
    + change (flag b' e EVLIST_TIMEOUT) with (flag b e EVLIST_TIMEOUT) in Hx. congruence.
    + rewrite (Hne x Hxe). by apply H7.
Qed.

(** A step on the queues that keeps who is added. *)
Lemma loop_inv_requeued b b' e f :
  loop_inv b -> queue_inv b' -> requeued e f b b' ->
  has f EVLIST_INSERTED = flag b e EVLIST_INSERTED -> loop_inv b'.
Proof.
  intros [Hq Hmap Hslot] Hq' Hr Hf. assert (Hi := rq_keep b b' e f Hr _ Hf). split; [done| |].
  - eapply map_ok_iff; [by eapply map_ok_requeued|]. intros x. by rewrite Hi.
  - intros x. rewrite Hi. intros Hx. apply (has_slot_only e b b'); [by eapply requeued_only|].
    by apply Hslot.
Qed.

(** What a part of the addition keeps: every other event and its deadline, the
    room of the heap, and which lists and priorities there are. *)
Record add_frame (e : evid) (b b' : event_base) : Prop := {
  af_others : forall x, x <> e -> structs b' x = structs b x /\ timeout_of b' x = timeout_of b x;
  af_shape : ctl_shape b' = ctl_shape b;
  af_priorities : length (activequeues b') = length (activequeues b);
  af_current : current_event b' = current_event b;
  af_events : ev_events (structs b' e) = ev_events (structs b e) /\
    ev_fd (structs b' e) = ev_fd (structs b e) /\ ev_pri (structs b' e) = ev_pri (structs b e) /\
    ev_base (structs b' e) = ev_base (structs b e) }.

Lemma af_refl e b : add_frame e b b.
Proof. by split. Qed.

Lemma af_trans e b b' b'' : add_frame e b b' -> add_frame e b' b'' -> add_frame e b b''.
Proof.
  intros [H1 H2 H3 H4 (H5 & H6 & H7 & H8)] [G1 G2 G3 G4 (G5 & G6 & G7 & G8)].
  split; try congruence; [|by rewrite G5, G6, G7, G8].
  intros x Hx. destruct (H1 x Hx) as [A1 A2], (G1 x Hx) as [B1 B2]. split; congruence.
Qed.

Lemma af_only e b b' : only_flags e b b' -> add_frame e b b'.
Proof.
  intros H. destruct (only_flags_fields e b b' e H) as (F1 & F2 & F3 & F4).
  destruct H as [H1 H2 H3 H4 _ H5 _]. split; try done.
  intros x Hx. split; [|done]. rewrite H1. by rewrite decide_False.
Qed.

Lemma af_part e b b' :
  queue_part b' = queue_part b -> current_event b' = current_event b -> add_frame e b b'.
Proof.
  intros Hp Hc. destruct b, b'. unfold queue_part in Hp. cbn in *. simplify_eq. by split.
Qed.

Lemma af_common e b b' tv :
  add_frame e b b' -> is_common_timeout tv b' = is_common_timeout tv b.
Proof. intros H. apply shape_common, H. Qed.

(** The flag of one queue among the others. *)
Lemma cleared_bit b e K m : Z.land K m = 0 -> has (cleared b e K) m = flag b e m.
Proof. apply has_clear_other. Qed.

Lemma loop_inv_remove_if E b e K :
  loop_inv b -> K = EVLIST_TIMEOUT \/ K = EVLIST_ACTIVE ->
  exists b', (if flag b e K then event_queue_remove E b e K else Some b) = Some b' /\
    loop_inv b' /\ requeued e (cleared b e K) b b' /\
    a (timeheap b') = a (timeheap b) /\ (n (timeheap b') <= n (timeheap b))%nat.
Proof.
  intros Hb HK. destruct (remove_if E b e K Hb) as (b' & H1 & H2 & H3 & H4 & H5 & _);
    [destruct HK; auto|].
  exists b'. split; [done|]. split; [|done].
  eapply loop_inv_requeued; [done..|]. apply cleared_bit. by destruct HK as [-> | ->].
Qed.

(** The event has no timeout any more, and a slot of the heap is free if its
    timeout was on the heap. *)
Record timeout_dropped (b b' : event_base) (e : evid) : Prop := {
  td_inv : loop_inv b';
  td_frame : add_frame e b b';
  td_timeout : flag b' e EVLIST_TIMEOUT = false;
  td_inserted : flag b' e EVLIST_INSERTED = flag b e EVLIST_INSERTED;
  td_internal : internal b' e = internal b e;
  td_active : flag b' e EVLIST_ACTIVE =
    flag b e EVLIST_ACTIVE && negb (has (ev_res (structs b e)) EV_TIMEOUT);
  td_closure : ev_closure (structs b' e) = ev_closure (structs b e) /\
    ev_io_timeout (structs b' e) = ev_io_timeout (structs b e);
  td_heap : a (timeheap b') = a (timeheap b) /\ (n (timeheap b') <= n (timeheap b))%nat;
  td_room : flag b e EVLIST_TIMEOUT = true -> is_common_timeout (timeout_of b e) b = false ->
    (n (timeheap b') < a (timeheap b'))%nat;
  td_clock : (forall E, (gettime E b').1 = (gettime E b).1) }.

Lemma gettime_untouched E b b' :
  tv_cache b' = tv_cache b -> (gettime E b').1 = (gettime E b).1.
Proof.
  intros Hc. unfold gettime. rewrite Hc. destruct (negb _); [done|]. destruct (_ && _); [|done].
  destruct (clock_monotonic E) as [[sec nsec]|]; [|done].
  destruct (_ <? _), (_ <? _); destruct (gettimeofday E); done.
Qed.

Lemma requeued_kept e f b b' :
  requeued e f b b' -> ev_res (structs b' e) = ev_res (structs b e) /\
  ev_events (structs b' e) = ev_events (structs b e) /\
  ev_ncalls (structs b' e) = ev_ncalls (structs b e) /\
  ev_pncalls (structs b' e) = ev_pncalls (structs b e) /\
  ev_closure (structs b' e) = ev_closure (structs b e) /\
  ev_io_timeout (structs b' e) = ev_io_timeout (structs b e) /\
  signal_closure b' = signal_closure b /\ tv_cache b' = tv_cache b.
Proof.
  intros H. pose proof (rq_untouched _ _ _ _ H) as Hu. unfold untouched in Hu.
  rewrite (rq_structs _ _ _ _ H), decide_True by done. repeat split; congruence.
Qed.

(** First the old timeout, if there is one. *)
Lemma drop_timeout_step E b e :
  loop_inv b ->
  exists top b1, (if flag b e EVLIST_TIMEOUT then
      b' ← event_queue_remove E b e EVLIST_TIMEOUT; Some (elt_is_top E b e, b')
    else Some (false, b)) = Some (top, b1) /\
    loop_inv b1 /\ requeued e (cleared b e EVLIST_TIMEOUT) b b1 /\
    a (timeheap b1) = a (timeheap b) /\ (n (timeheap b1) <= n (timeheap b))%nat /\
    (flag b e EVLIST_TIMEOUT = true -> is_common_timeout (timeout_of b e) b = false ->
     (n (timeheap b1) < n (timeheap b))%nat).
Proof.
  intros Hb. destruct (flag b e EVLIST_TIMEOUT) eqn:Ht.
  - destruct (remove_timeout E b e Hb Ht) as (b1 & H1 & H2 & H3 & H4 & H5 & H6).
    rewrite H1. cbn [mbind option_bind]. eexists _, b1. split; [done|].
    split; [eapply loop_inv_requeued; [done..|]; by apply cleared_bit|].
    split; [done|]. split; [done|]. split; [|auto].
    destruct (is_common_timeout (timeout_of b e) b); [by rewrite H6|].
    by apply Nat.lt_le_incl, H5.
  - eexists _, b. split; [done|]. split; [done|]. split; [|done].
    rewrite cleared_none by done. apply requeued_refl.
Qed.

Lemma drop_old_timeout_ok E b e :
  loop_inv b -> signal_loop_ok b e ->
  exists top b', drop_old_timeout E b e = Some (top, b') /\ timeout_dropped b b' e.
Proof.
  intros Hb Hsig. unfold drop_old_timeout.
  destruct (drop_timeout_step E b e Hb) as (top & b1 & E1 & I1 & R1 & A1 & N1 & Room).
  rewrite E1. cbn [mbind option_bind].
  destruct (requeued_kept _ _ _ _ R1) as (K1 & K2 & K3 & K4 & K5 & K6 & K7 & K8).
  assert (Hf1 : forall m, Z.land EVLIST_TIMEOUT m = 0 -> flag b1 e m = flag b e m).
  { intros m Hm. rewrite (rq_flag_eq b b1 e _ R1). by apply cleared_bit. }
  assert (Ht1 : flag b1 e EVLIST_TIMEOUT = false).
  { rewrite (rq_flag_eq b b1 e _ R1). apply has_clear_same. }
  assert (Hn : (n (timeheap b) <= a (timeheap b))%nat) by apply (hi_size _ _ (qi_heap _ Hb)).
  rewrite K1, (Hf1 EVLIST_ACTIVE eq_refl).
  destruct (flag b e EVLIST_ACTIVE && has (ev_res (structs b e)) EV_TIMEOUT) eqn:Hact.
  - apply andb_true_iff in Hact as [Ha Hres].
    destruct (abort_ok b1 e) as (b2 & E2 & Hp2 & Hm2 & Ho2).
    { unfold signal_loop_ok. rewrite K2, K3, K4, K7. exact Hsig. }
    rewrite E2. cbn [mbind option_bind].
    assert (I2 : loop_inv b2) by (by apply (loop_inv_part b1)).
    assert (Hs2 : structs b2 = structs b1) by (unfold queue_part in Hp2; congruence).
    assert (Hh2 : timeheap b2 = timeheap b1) by (unfold queue_part in Hp2; congruence).
    assert (Ha2 : flag b2 e EVLIST_ACTIVE = true).
    { unfold flag. rewrite Hs2. change (flag b1 e EVLIST_ACTIVE = true). by rewrite Hf1. }
    destruct (remove_active E b2 e I2 Ha2) as (b3 & E3 & Q3 & R3 & H3 & _).
    rewrite E3. cbn [mbind option_bind]. eexists _, b3. split; [done|].
    destruct (requeued_kept _ _ _ _ R3) as (L1 & L2 & L3 & L4 & L5 & L6 & L7 & L8).
    assert (Hf3 : forall m, Z.land EVLIST_ACTIVE m = 0 -> flag b3 e m = flag b1 e m).
    { intros m Hm. rewrite (rq_flag_eq b2 b3 e _ R3). rewrite cleared_bit by done.
      unfold flag. by rewrite Hs2. }
    split.
    + eapply loop_inv_requeued; [exact I2 | exact Q3 | exact R3 | by apply cleared_bit].
    + eapply af_trans; [by eapply af_only, requeued_only|].
      eapply af_trans; [by apply af_only | by eapply af_only, requeued_only].
    + by rewrite Hf3.
    + by rewrite Hf3, Hf1.
    + unfold internal. by rewrite Hf3, Hf1.
    + rewrite (rq_flag_eq b2 b3 e _ R3), Ha, Hres. apply has_clear_same.
    + rewrite L5, L6, Hs2. by rewrite K5, K6.
    + rewrite H3, Hh2. split; [done | lia].
    + rewrite H3, Hh2. intros. specialize (Room ltac:(done) ltac:(done)). lia.
    + intros E'. rewrite (gettime_untouched E' b2), (gettime_untouched E' b1); [|  | done].
      * by apply gettime_untouched.
      * revert E2. unfold abort_signal_loop. destruct (_ && _); [|by intros [= <-]].
        destruct (ev_pncalls _); [|by intros [= <-]].
        destruct (signal_closure b1) as [[g k]|]; [|done]. cbn. case_decide; [|done].
        by intros [= <-].
  - eexists _, b1. split; [done|]. split; try done.
    + by eapply af_only, requeued_only.
    + by apply Hf1.
    + by apply Hf1.
    + rewrite (Hf1 EVLIST_ACTIVE eq_refl).
      destruct (flag b e EVLIST_ACTIVE), (has (ev_res (structs b e)) EV_TIMEOUT); done.
    + intros. specialize (Room ltac:(done) ltac:(done)). lia.
    + intros E'. by apply gettime_untouched.
Qed.

(** ** Registering with the backend *)

(** Events that wait for something besides a timeout. *)
Definition waits_for_io (b : event_base) (e : evid) : bool :=
  has (ev_events (structs b e)) (Z.lor EV_READ (Z.lor EV_WRITE EV_SIGNAL)).

Record addable (E : env) (b : event_base) (e : evid) : Prop := {
  ad_wait : has (ev_events (structs b e)) EV_SIGNAL = true -> must_wait E b e = false;
  ad_closure : signal_loop_ok b e;
  ad_small : small_fd (ev_fd (structs b e));
  ad_signal : waits_for_io b e = true -> ~ io_kind b e -> 0 <= ev_fd (structs b e) }.

(** The descriptor of the event has room for one more waiting event. *)
Definition fd_has_room (b : event_base) (e : evid) : Prop :=
  nread (io_entry b (ev_fd (structs b e))) < 65535 /\
  nwrite (io_entry b (ev_fd (structs b e))) < 65535.

Definition map_add (E : env) (b : event_base) (e : evid) : option (Z * event_base) :=
  let ev := structs b e in
  if has (ev_events ev) (Z.lor EV_READ EV_WRITE) then evmap_io_add E b (ev_fd ev) e
  else evmap_signal_add E b (ev_fd ev) e.

Lemma map_add_ok E b I e :
  map_ok b I -> ~ I e -> addable E b e -> waits_for_io b e = true ->
  exists r b', map_add E b e = Some (r, b') /\ map_result b b' I (insert_event I e) r /\
    (generous E -> fd_has_room b e -> r <> -1).
Proof.
  intros Hok HI [_ _ Hsm Hsig] Hw. unfold map_add.
  destruct (has (ev_events (structs b e)) (Z.lor EV_READ EV_WRITE)) eqn:Hk.
  - destruct (evmap_io_add_ok E b I e Hok HI Hk Hsm) as (r & b' & H1 & H2 & H3).
    exists r, b'. split; [done|]. split; [done|]. intros Hg [R1 R2]. auto.
  - assert (Hnk : ~ io_kind b e) by (unfold io_kind; congruence).
    destruct (evmap_signal_add_ok E b I e Hok HI Hnk (Hsig Hw Hnk) Hsm) as (r & b' & H1 & H2 & H3).
    exists r, b'. split; [done|]. split; [done|]. auto.
Qed.

Record registered_step_ok (b b' : event_base) (e : evid) (r : Z) : Prop := {
  rs_inv : loop_inv b';
  rs_frame : add_frame e b b';
  rs_flags : forall m, Z.land EVLIST_INSERTED m = 0 -> flag b' e m = flag b e m;
  rs_inserted : flag b' e EVLIST_INSERTED =
    flag b e EVLIST_INSERTED ||
    ((r =? 0) && waits_for_io b e && negb (flag b e EVLIST_ACTIVE));
  rs_kept : ev_res (structs b' e) = ev_res (structs b e) /\
    ev_closure (structs b' e) = ev_closure (structs b e) /\
    ev_io_timeout (structs b' e) = ev_io_timeout (structs b e);
  rs_signal : signal_loop_ok b e -> signal_loop_ok b' e;
  rs_timers : timers b' = timers b /\ timeheap b' = timeheap b /\ tv_cache b' = tv_cache b;
  rs_common : common_timeout_queues b' = common_timeout_queues b;
  rs_failed : r = -1 -> structs b' = structs b }.

Lemma has_two f m q : has f (Z.lor m q) = has f m || has f q.
Proof. apply has_mask_lor. Qed.

Lemma registered_refl b e r :
  loop_inv b -> flag b e (Z.lor EVLIST_INSERTED EVLIST_ACTIVE) = true \/ waits_for_io b e = false \/
    r <> 0 ->
  registered_step_ok b b e r.
Proof.
  intros Hb Hor. split; try done. unfold flag in Hor. rewrite has_two in Hor.
  change (has _ EVLIST_INSERTED) with (flag b e EVLIST_INSERTED) in Hor.
  change (has _ EVLIST_ACTIVE) with (flag b e EVLIST_ACTIVE) in Hor.
  destruct (flag b e EVLIST_INSERTED); [done|]. cbn [orb] in *.
  destruct (Z.eqb_spec r 0); [|done].
  destruct (waits_for_io b e); [|done]. destruct (flag b e EVLIST_ACTIVE); [done|].
  intuition congruence.
Qed.

Lemma add_to_map_ok E b e :
  loop_inv b -> addable E b e ->
  exists r notify b', add_to_map E b e = Some (r, notify, b') /\
    (r = 0 \/ r = -1) /\ registered_step_ok b b' e r /\
    (generous E -> fd_has_room b e -> r = 0).
Proof.
  intros Hb Had. unfold add_to_map. change (has _ (Z.lor EV_READ (Z.lor EV_WRITE EV_SIGNAL))) with (waits_for_io b e).
  destruct (waits_for_io b e) eqn:Hw; cbn [andb].
  2: { eexists _, _, b. split; [done|]. split; [auto|]. split; [apply registered_refl; auto | done]. }
  destruct (flag b e (Z.lor EVLIST_INSERTED EVLIST_ACTIVE)) eqn:Hfl; cbn [negb].
  { eexists _, _, b. split; [done|]. split; [auto|]. split; [apply registered_refl; auto | done]. }
  change (if has _ _ then evmap_io_add E b _ e else _) with (map_add E b e).
  unfold flag in Hfl. rewrite has_two in Hfl. apply orb_false_iff in Hfl as [Hni Hna].
  change (flag b e EVLIST_INSERTED = false) in Hni. change (flag b e EVLIST_ACTIVE = false) in Hna.
  destruct (map_add_ok E b (inserted b) e) as (r & b1 & E1 & [Hmo Hres] & Hgen); try done.
  { apply Hb. } { unfold inserted. congruence. }
  rewrite E1. cbn [mbind option_bind].
  assert (Hp1 := maps_only_part b b1 Hmo).
  assert (Hs1 : structs b1 = structs b) by (unfold queue_part in Hp1; congruence).
  destruct Hres as [[-> Hmap1] | [Hr Hmap1]].
  - eexists _, _, b1. split; [done|]. split; [auto|]. split; [|by intros; exfalso; apply Hgen].
    split; rewrite ?Hs1; try done.
    + split; [apply (queue_inv_part b); [done | apply Hb]| |].
      * eapply map_ok_iff; [exact Hmap1|]. intros x. unfold inserted, flag. by rewrite Hs1.
      * intros x. unfold flag, has_slot, io_kind. rewrite Hs1. apply Hb.
    + by apply af_only, maps_only_flags.
    + intros m _. unfold flag. by rewrite Hs1.
    + rewrite orb_false_r. unfold flag. by rewrite Hs1.
    + unfold signal_loop_ok. rewrite Hs1, Hmo. intros H. exact H.
    + by rewrite Hmo.
    + by rewrite Hmo.
  - assert (Hr1 : (r =? -1) = false) by (by destruct Hr as [-> | ->]).
    assert (Hni1 : flag b1 e EVLIST_INSERTED = false) by (unfold flag; by rewrite Hs1).
    assert (Hq1 : queue_inv b1) by (apply (queue_inv_part b); [done | apply Hb]).
    rewrite Hr1. destruct (insert_inserted E b1 e Hq1 Hni1) as (b2 & E2 & Q2 & R2 & H2 & T2 & C2).
    rewrite E2. cbn [mbind option_bind].
    assert (Hok : registered_step_ok b b2 e 0).
    { destruct (requeued_kept _ _ _ _ R2) as (K1 & K2 & K3 & K4 & K5 & K6 & K7 & K8).
      assert (Hins : forall x, inserted b2 x <-> insert_event (inserted b) e x).
      { intros x. unfold inserted, insert_event.
        rewrite (raised_flag _ _ _ _ x R2 eq_refl). unfold flag. by rewrite Hs1. }
      split.
      - split; [done| |].
        + eapply map_ok_iff; [eapply map_ok_requeued; [exact Hmap1 | exact R2]|].
          intros x. by rewrite <- Hins.
        + intros x Hx. apply (has_slot_only e b1 b2); [by eapply requeued_only|].
          unfold has_slot, io_kind. rewrite Hs1. apply Hins in Hx as [Hx| ->]; [by apply Hb|].
          destruct (has (ev_events (structs b e)) (Z.lor EV_READ EV_WRITE)) eqn:Hk; [by left | right].
          apply (ad_signal _ _ _ Had); [done|]. unfold io_kind. congruence.
      - eapply af_trans; [by apply af_only, maps_only_flags | by eapply af_only, requeued_only].
      - intros m Hm. rewrite (rq_flag_eq b1 b2 e _ R2), raised_other by (unfold has; by rewrite Hm).
        unfold flag. by rewrite Hs1.
      - rewrite (rq_flag_eq b1 b2 e _ R2), raised_same by done. rewrite Hni, Hw, Hna. done.
      - rewrite K1, K5, K6. by rewrite Hs1.
      - unfold signal_loop_ok. rewrite K2, K3, K4, K7, Hs1, Hmo. intros H. exact H.
      - rewrite K8, H2, T2, Hmo. done.
      - rewrite C2, Hmo. done.
      - done. }
    destruct Hr as [-> | ->]; eexists _, _, b2; (split; [done|]); auto.
Qed.
