(* ===== verification/EventTimeout.v ===== *)
(** Timeouts of events: the deadline [event_add] computes and enters, and the
    lists of the common timeouts, which stay sorted and whose timers are never
    later than the first deadline of the list. *)

From Stdlib Require Import Sorting.Sorted.
From S2P Require Import Prelude MinHeap EventData Evmap EventCore EventQueue EvmapSpec EventSpec EventAdd.

(** ** Sorted lists *)

Lemma sublist_elem {A} (l l' : list A) x : sublist l' l -> x ∈ l' -> x ∈ l.
Proof. intros H. by apply (sublist_subseteq _ _ H). Qed.

Lemma strongly_sorted_sublist {A} (R : A -> A -> Prop) l l' :
  sublist l' l -> StronglySorted R l -> StronglySorted R l'.
Proof.
  induction 1 as [|x l1 l2 Hs IH|x l1 l2 Hs IH]; intros Hl; [constructor|..];
    apply StronglySorted_inv in Hl as [Hl Hx]; [|by apply IH].
  constructor; [by apply IH|]. apply list.Forall_forall. intros y Hy.
  rewrite list.Forall_forall in Hx. apply Hx. by apply (sublist_elem l2 l1).
Qed.

Lemma strongly_sorted_app {A} (R : A -> A -> Prop) l l' :
  StronglySorted R (l ++ l') <->
  StronglySorted R l /\ StronglySorted R l' /\ forall x y, x ∈ l -> y ∈ l' -> R x y.
Proof.
  induction l as [|z l IH]; cbn [app].
  - split; [|tauto]. intros H. split; [constructor|]. split; [done|].
    intros x y Hx. by apply not_elem_of_nil in Hx.
  - split.
    + intros [H Hz]%StronglySorted_inv. apply IH in H as (H1 & H2 & H3).
      rewrite Forall_app in Hz. destruct Hz as [Hz1 Hz2]. split; [by constructor|].
      split; [done|]. rewrite list.Forall_forall in Hz2.
      intros x y [->|Hx]%elem_of_cons Hy; auto.
    + intros ([H1 Hz]%StronglySorted_inv & H2 & H3). constructor.
      * apply IH. split; [done|]. split; [done|]. intros x y Hx. apply H3. by right.
      * apply Forall_app. split; [done|]. apply list.Forall_forall. intros y. apply H3. by left.
Qed.

Lemma strongly_sorted_ext {A} (R R' : A -> A -> Prop) l :
  (forall x y, x ∈ l -> y ∈ l -> R x y -> R' x y) -> StronglySorted R l -> StronglySorted R' l.
Proof.
  intros HR H. induction H as [|x l Hl IH Hx]; constructor.
  - apply IH. intros y z Hy Hz. apply HR; by right.
  - rewrite list.Forall_forall in *. intros y Hy. apply HR; [by left | by right | auto].
Qed.

Lemma sublist_skip_inv {A} (x : A) l l' : sublist l' (x :: l) -> x ∉ l' -> sublist l' l.
Proof. intros Hs Hx. inversion Hs; subst; [|done]. exfalso. apply Hx. by left. Qed.

(** A sublist with every element is the list. *)
Lemma sublist_all {A} (l l' : list A) :
  NoDup l -> sublist l' l -> (forall x, x ∈ l -> x ∈ l') -> l' = l.
Proof.
  intros Hn Hs. induction Hs as [|x l1 l2 Hs IH|x l1 l2 Hs IH]; intros Hin; [done|..];
    apply list.NoDup_cons in Hn as [Hx Hn].
  - f_equal. apply IH; [done|]. intros y Hy.
    destruct (proj1 (elem_of_cons _ _ _) (Hin y ltac:(by right))) as [-> |?]; done.
  - exfalso. apply Hx, (sublist_elem _ _ x Hs), Hin. by left.
Qed.

(** ** The lists of the common timeouts *)

Definition ctl_list (b : event_base) (i : nat) : list evid :=
  from_option ctl_events [] (common_timeout_queues b !! i).

(** The point in time an event waits for: its timeout without the mark. *)
Definition deadline_of (b : event_base) (e : evid) : timeval := mask_usec (timeout_of b e).

Definition sooner (b : event_base) (x y : evid) : Prop :=
  time_le (deadline_of b x) (deadline_of b y).

(** The event by which list [i] waits. *)
Definition list_timer (b : event_base) (i : nat) (te : evid) : Prop :=
  exists c, common_timeout_queues b !! i = Some c /\ ctl_timeout_event c = te.

Record common_lists (b : event_base) : Prop := {
  cm_sorted : forall i, StronglySorted (sooner b) (ctl_list b i);
  cm_normal : forall i x, x ∈ ctl_list b i -> normal (deadline_of b x);
  cm_timer : forall i te, list_timer b i te ->
    ev_events (structs b te) = 0 /\ ev_base (structs b te) = true /\
    (flag b te EVLIST_TIMEOUT = true -> is_common_timeout (timeout_of b te) b = false);
  cm_apart : forall i j te, list_timer b i te -> list_timer b j te -> i = j }.

(** Whoever waits on the list is served in time: the list's event is active, or
    its own timeout is no later than any deadline of the list. *)
Definition served (b : event_base) (i : nat) : Prop := forall te x,
  list_timer b i te -> x ∈ ctl_list b i ->
  flag b te EVLIST_ACTIVE = true \/
  flag b te EVLIST_TIMEOUT = true /\ time_le (timeout_of b te) (deadline_of b x).

Record common_inv (b : event_base) : Prop := {
  ci_lists :> common_lists b;
  ci_served : forall i, served b i }.

Lemma list_timer_shape b b' i te :
  ctl_shape b' = ctl_shape b -> list_timer b' i te <-> list_timer b i te.
Proof.
  intros H. assert (Hi : ctl_shape b' !! i = ctl_shape b !! i) by (by rewrite H).
  unfold ctl_shape in Hi. rewrite !list_lookup_fmap in Hi. unfold list_timer.
  destruct (common_timeout_queues b' !! i) as [c'|], (common_timeout_queues b !! i) as [c|];
    cbn in Hi; try discriminate Hi; split; intros (d & Hd & <-); try discriminate Hd;
    injection Hd as <-; eexists; (split; [done | congruence]).
Qed.

(** What a step leaves of the events of the lists. *)
Record lists_kept (b b' : event_base) : Prop := {
  lk_shape : ctl_shape b' = ctl_shape b;
  lk_waiting : forall i x, x ∈ ctl_list b' i -> timeout_of b' x = timeout_of b x;
  lk_timers : forall i te, list_timer b i te ->
    ev_events (structs b' te) = ev_events (structs b te) /\
    ev_base (structs b' te) = ev_base (structs b te) /\
    flag b' te EVLIST_TIMEOUT = flag b te EVLIST_TIMEOUT /\
    (flag b te EVLIST_ACTIVE = true -> flag b' te EVLIST_ACTIVE = true) /\
    (flag b te EVLIST_TIMEOUT = true -> timeout_of b' te = timeout_of b te);
  lk_lists : forall i, sublist (ctl_list b' i) (ctl_list b i) }.

Lemma common_lists_shrink b b' : lists_kept b b' -> common_lists b -> common_lists b'.
Proof.
  intros [Hsh Hw Ht Hl] [H1 H2 H3 H4]. split.
  - intros i. eapply strongly_sorted_ext; [|eapply strongly_sorted_sublist; [apply Hl | apply H1]].
    intros x y Hx Hy. unfold sooner, deadline_of. by rewrite (Hw i x), (Hw i y).
  - intros i x Hx. unfold deadline_of. rewrite (Hw i x Hx).
    by apply (H2 i), (sublist_elem _ _ x (Hl i)).
  - intros i te Hte. rewrite (list_timer_shape b b') in Hte by done.
    destruct (Ht i te Hte) as (E1 & E2 & E3 & E4 & E5), (H3 i te Hte) as (G1 & G2 & G3).
    rewrite E1, E2, E3. split; [done|]. split; [done|]. intros Hf.
    rewrite E5 by done. rewrite (shape_common b b') by done. auto.
  - intros i j te. rewrite !(list_timer_shape b b') by done. apply H4.
Qed.

Lemma served_shrink b b' i : lists_kept b b' -> served b i -> served b' i.
Proof.
  intros [Hsh Hw Ht Hl] Hs te x Hte Hx. rewrite (list_timer_shape b b') in Hte by done.
  destruct (Ht i te Hte) as (_ & _ & E3 & E4 & E5).
  destruct (Hs te x Hte) as [Ha|[Hf Hle]]; [by apply (sublist_elem _ _ x (Hl i))|auto|right].
  unfold deadline_of. rewrite E3, E5, (Hw i x Hx) by done. done.
Qed.

Lemma common_inv_shrink b b' : lists_kept b b' -> common_inv b -> common_inv b'.
Proof.
  intros Hk [Hl Hs]. split; [by eapply common_lists_shrink|].
  intros i. by eapply served_shrink.
Qed.

(** ** How each step treats the lists *)

Lemma tailq_remove_sublist x q q' : tailq_remove x q = Some q' -> sublist q' q.
Proof.
  revert q'. induction q as [|y q IH]; [done|]. intros q'. cbn.
  destruct (decide (y = x)); [intros [= <-]; by apply sublist_cons|].
  destruct (tailq_remove x q) as [q1|]; [|done]. intros [= <-]. apply sublist_skip. by apply IH.
Qed.

Lemma ctl_list_set b i q c :
  common_timeout_queues b !! i = Some c -> ctl_list (set_common_events b i q) i = q.
Proof. intros Hc. unfold ctl_list. cbn. by rewrite list_lookup_alter_eq, Hc. Qed.

Lemma ctl_list_set_ne b i j q : i <> j -> ctl_list (set_common_events b i q) j = ctl_list b j.
Proof. intros Hij. unfold ctl_list. cbn. by rewrite list_lookup_alter_ne. Qed.

Lemma same_lists b b' :
  common_timeout_queues b' = common_timeout_queues b -> forall i, ctl_list b' i = ctl_list b i.
Proof. intros H i. unfold ctl_list. by rewrite H. Qed.

Lemma sublist_set_common b c j q i :
  common_timeout_queues b !! j = Some c -> sublist q (ctl_events c) ->
  sublist (ctl_list (set_common_events b j q) i) (ctl_list b i).
Proof.
  intros Hc Hq. destruct (decide (j = i)) as [<-|Hji].
  - rewrite (ctl_list_set b j q c Hc). unfold ctl_list. by rewrite Hc.
  - by rewrite ctl_list_set_ne.
Qed.

Lemma remove_timeout_lists E b e b' i :
  event_queue_remove E b e EVLIST_TIMEOUT = Some b' -> sublist (ctl_list b' i) (ctl_list b i).
Proof.
  unfold event_queue_remove. destruct (negb _); [done|]. rewrite uncount. cbv zeta.
  change (EVLIST_TIMEOUT =? EVLIST_INSERTED) with false.
  change (EVLIST_TIMEOUT =? EVLIST_ACTIVE) with false. rewrite Z.eqb_refl.
  set (b2 := upd_event _ _ _). change (ctl_list b i) with (ctl_list b2 i).
  destruct (is_common_timeout (timeout_of b2 e) b2).
  - destruct (get_common_timeout_list b2 (timeout_of b2 e)) as [c|] eqn:Hc; [|done].
    cbn [mbind option_bind]. destruct (tailq_remove e (ctl_events c)) as [q|] eqn:Hq; [|done].
    cbn [mbind option_bind]. intros [= <-].
    apply (sublist_set_common b2 c _ q i Hc). by eapply tailq_remove_sublist.
  - destruct (min_heap_erase _ _ _) as [[[r st] h]|]; [|done]. cbn. by intros [= <-].
Qed.

Lemma remove_active_lists E b e b' :
  event_queue_remove E b e EVLIST_ACTIVE = Some b' ->
  common_timeout_queues b' = common_timeout_queues b.
Proof.
  unfold event_queue_remove. destruct (negb _); [done|]. rewrite uncount. cbv zeta.
  change (EVLIST_ACTIVE =? EVLIST_INSERTED) with false. rewrite Z.eqb_refl.
  destruct (activequeues _ !! _) as [q|]; [|done]. cbn [mbind option_bind].
  destruct (tailq_remove e q); [|done]. cbn. by intros [= <-].
Qed.

Lemma abort_lists b e b' :
  abort_signal_loop b e = Some b' -> common_timeout_queues b' = common_timeout_queues b.
Proof.
  unfold abort_signal_loop. destruct (_ && _); [|by intros [= <-]].
  destruct (ev_pncalls _) as [f|]; [|by intros [= <-]].
  destruct (signal_closure b) as [[g k]|]; [|done]. cbn. case_decide; [|done]. by intros [= <-].
Qed.

Lemma drop_old_timeout_lists E b e top b' i :
  drop_old_timeout E b e = Some (top, b') -> sublist (ctl_list b' i) (ctl_list b i).
Proof.
  unfold drop_old_timeout. intros H.
  destruct (if flag b e EVLIST_TIMEOUT then _ else _) as [[t1 b1]|] eqn:E1; [|done].
  cbn [mbind option_bind] in H.
  assert (H1 : sublist (ctl_list b1 i) (ctl_list b i)).
  { destruct (flag b e EVLIST_TIMEOUT); [|by simplify_eq].
    destruct (event_queue_remove E b e EVLIST_TIMEOUT) as [b0|] eqn:E0; [|done].
    cbn in E1. simplify_eq. by eapply remove_timeout_lists. }
  destruct (flag b1 e EVLIST_ACTIVE && _); cbn [mbind option_bind] in H; [|by simplify_eq].
  destruct (abort_signal_loop b1 e) as [b2|] eqn:E2; [|done]. cbn [mbind option_bind] in H.
  destruct (event_queue_remove E b2 e EVLIST_ACTIVE) as [b3|] eqn:E3; [|done].
  cbn in H. simplify_eq.
  rewrite (same_lists b2 b') by (by eapply remove_active_lists).
  by rewrite (same_lists b1 b2) by (by eapply abort_lists).
Qed.

(** Entering a timeout puts the event in its place on its list. *)
Lemma insert_timeout_lists E b e b' :
  event_queue_insert E b e EVLIST_TIMEOUT = Some b' ->
  if is_common_timeout (timeout_of b e) b then
    exists q, insert_common_timeout_inorder (timers b) (ctl_list b (common_idx (timeout_of b e))) e
                = Some q /\
      (forall i, ctl_list b' i = if decide (i = common_idx (timeout_of b e)) then q else ctl_list b i) /\
      timeheap b' = timeheap b
  else forall i, ctl_list b' i = ctl_list b i.
Proof.
  unfold event_queue_insert. destruct (flag b e EVLIST_TIMEOUT); [done|]. rewrite count_up. cbv zeta.
  change (EVLIST_TIMEOUT =? EVLIST_INSERTED) with false.
  change (EVLIST_TIMEOUT =? EVLIST_ACTIVE) with false. rewrite Z.eqb_refl.
  set (b2 := upd_event _ _ _). change (timeout_of b2 e) with (timeout_of b e).
  change (is_common_timeout (timeout_of b e) b2) with (is_common_timeout (timeout_of b e) b).
  change (timers b2) with (timers b). set (j := common_idx (timeout_of b e)).
  destruct (is_common_timeout (timeout_of b e) b).
  - destruct (get_common_timeout_list b2 (timeout_of b e)) as [c|] eqn:Hc; [|done].
    cbn [mbind option_bind].
    destruct (insert_common_timeout_inorder (timers b) (ctl_events c) e) as [q|] eqn:Hq; [|done].
    cbn [mbind option_bind]. intros [= <-]. exists q.
    assert (Hj : ctl_list b j = ctl_events c)
      by (unfold ctl_list; by change (common_timeout_queues b !! j)
            with (get_common_timeout_list b2 (timeout_of b e)); rewrite Hc).
    rewrite Hj. split; [done|]. split; [|done]. intros i. destruct (decide (i = j)) as [->|Hi].
    + exact (ctl_list_set b2 j q c Hc).
    + by apply (ctl_list_set_ne b2).
  - destruct (min_heap_push _ _ _ _) as [[[r st] h]|]; [|done]. cbn. by intros [= <-].
Qed.

(** ** Insertion keeps a list sorted *)

Lemma unmask_usec u :
  u = Z.land u (Z.lnot MICROSECONDS_MASK) + Z.land u MICROSECONDS_MASK.
Proof.
  rewrite <- Z.ldiff_land, Z.add_comm. symmetry. rewrite Z.add_nocarry_lxor.
  - apply Z.bits_inj'. intros i Hi. rewrite Z.lxor_spec, Z.land_spec, Z.ldiff_spec.
    by destruct (Z.testbit u i), (Z.testbit MICROSECONDS_MASK i).
  - apply Z.bits_inj'. intros i Hi. rewrite !Z.land_spec, Z.ldiff_spec, Z.bits_0.
    by destruct (Z.testbit u i), (Z.testbit MICROSECONDS_MASK i).
Qed.

Lemma mask_le t u :
  is_same_common_timeout t u = true -> time_le t u -> time_le (mask_usec t) (mask_usec u).
Proof.
  unfold is_same_common_timeout, time_le. intros Hs%Z.eqb_eq. cbn [mask_usec tv_sec tv_usec].
  pose proof (unmask_usec (tv_usec t)). pose proof (unmask_usec (tv_usec u)). lia.
Qed.

Lemma same_common_sym t u : is_same_common_timeout t u = is_same_common_timeout u t.
Proof. apply Z.eqb_sym. Qed.

Lemma insert_from_end_split st rq e r :
  insert_from_end st rq e = Some r ->
  exists r1 r2, rq = r1 ++ r2 /\ r = r1 ++ e :: r2 /\
    (forall y, y ∈ r1 -> time_le (mask_usec (ev_timeout (st e))) (mask_usec (ev_timeout (st y)))) /\
    (forall x, head r2 = Some x ->
       time_le (mask_usec (ev_timeout (st x))) (mask_usec (ev_timeout (st e)))).
Proof.
  revert r. induction rq as [|z rq IH]; intros r; cbn [insert_from_end].
  { intros [= <-]. exists [], []. do 2 (split; [done|]). split; [|done].
    intros y Hy. by apply not_elem_of_nil in Hy. }
  destruct (is_same_common_timeout (ev_timeout (st z)) (ev_timeout (st e))) eqn:Hs; [|done].
  cbn [negb]. destruct (timercmp_ge (ev_timeout (st e)) (ev_timeout (st z))) eqn:Hge.
  - intros [= <-]. exists [], (z :: rq). do 2 (split; [done|]). split.
    + intros y Hy. by apply not_elem_of_nil in Hy.
    + intros x [= <-]. apply mask_le; [done|]. unfold timercmp_ge in Hge.
      apply timercmp_gt_false. by apply negb_true_iff.
  - destruct (insert_from_end st rq e) as [r0|]; [|done]. intros [= <-].
    destruct (IH r0 eq_refl) as (r1 & r2 & -> & -> & H1 & H2).
    exists (z :: r1), r2. do 2 (split; [done|]). split; [|done].
    intros y [->|Hy]%elem_of_cons; [|auto]. apply mask_le; [by rewrite same_common_sym|].
    unfold timercmp_ge in Hge. apply timercmp_gt_true. by apply negb_false_iff.
Qed.

(** The event goes behind the last event that is not later than it. *)
Lemma insert_inorder_split st q e q' :
  insert_common_timeout_inorder st q e = Some q' ->
  StronglySorted (fun x y => time_le (mask_usec (ev_timeout (st x))) (mask_usec (ev_timeout (st y)))) q ->
  exists q1 q2, q = q1 ++ q2 /\ q' = q1 ++ e :: q2 /\
    (forall x, x ∈ q1 -> time_le (mask_usec (ev_timeout (st x))) (mask_usec (ev_timeout (st e)))) /\
    (forall y, y ∈ q2 -> time_le (mask_usec (ev_timeout (st e))) (mask_usec (ev_timeout (st y)))).
Proof.
  unfold insert_common_timeout_inorder. intros H Hs.
  destruct (insert_from_end st (reverse q) e) as [r|] eqn:Hr; [|done]. injection H as <-.
  destruct (insert_from_end_split st (reverse q) e r Hr) as (r1 & r2 & Hq & -> & H1 & H2).
  assert (Hqq : q = reverse r2 ++ reverse r1) by (by rewrite <- reverse_app, <- Hq, reverse_involutive).
  exists (reverse r2), (reverse r1). split; [done|].
  split; [by rewrite reverse_app, reverse_cons, <- app_assoc|]. split.
  - intros x Hx. destruct r2 as [|z r2]; [by apply not_elem_of_nil in Hx|].
    rewrite reverse_cons in Hx, Hqq. specialize (H2 z eq_refl).
    apply elem_of_app in Hx as [Hx|Hx%list_elem_of_singleton]; [|by subst].
    rewrite Hqq, <- app_assoc in Hs. apply strongly_sorted_app in Hs as (_ & _ & Hs).
    specialize (Hs x z Hx ltac:(by left)). cbn in Hs. unfold time_le in *. lia.
  - intros y Hy. apply H1. by apply elem_of_reverse.
Qed.

Lemma insert_inorder_sorted st q e q' :
  insert_common_timeout_inorder st q e = Some q' ->
  let R x y := time_le (mask_usec (ev_timeout (st x))) (mask_usec (ev_timeout (st y))) in
  StronglySorted R q ->
  StronglySorted R q' /\ (head q' = Some e \/ head q' = head q /\ forall h, head q = Some h -> R h e).
Proof.
  intros H R Hs. destruct (insert_inorder_split st q e q' H Hs) as (q1 & q2 & Hq & -> & H1 & H2).
  rewrite Hq in Hs. apply strongly_sorted_app in Hs as (S1 & S2 & S3). split.
  - apply strongly_sorted_app. split; [done|]. split.
    + constructor; [done|]. by apply list.Forall_forall.
    + intros x y Hx [->|Hy]%elem_of_cons; [by apply H1 | by apply S3].
  - rewrite Hq. destruct q1 as [|z q1]; [by left|right]. split; [done|].
    intros h [= <-]. apply H1. by left.
Qed.

(** ** Entering a deadline *)

Lemma on_list_waits b i x : queue_inv b -> x ∈ ctl_list b i -> waits_on_common b i x.
Proof.
  intros Hq. unfold ctl_list. destruct (common_timeout_queues b !! i) as [c|] eqn:Hc; cbn.
  - apply (qi_common _ Hq i c Hc).
  - intros Hx. by apply not_elem_of_nil in Hx.
Qed.

Lemma untimed_off_lists b e i :
  queue_inv b -> flag b e EVLIST_TIMEOUT = false -> e ∉ ctl_list b i.
Proof. intros Hq He (Hf & _)%on_list_waits; [congruence | done]. Qed.

(** The event is none of those by which the lists wait. *)
Definition user_event (b : event_base) (e : evid) : Prop := forall i te, list_timer b i te -> te <> e.

Lemma frame_lists_kept e b b' :
  add_frame e b b' -> user_event b e -> (forall i, e ∉ ctl_list b' i) ->
  (forall i, sublist (ctl_list b' i) (ctl_list b i)) -> lists_kept b b'.
Proof.
  intros Hf He Hout Hs. split; [apply Hf | | | exact Hs].
  - intros i x Hx. apply Hf. intros ->. by apply (Hout i).
  - intros i te Hte. destruct (af_others _ _ _ Hf te (He i te Hte)) as [E1 E2].
    unfold flag. by rewrite E1, E2.
Qed.

(** A slot of the heap is free for a timeout that is not a common one, or will
    be once the old timeout is dropped. *)
Definition heap_room (E : env) (b : event_base) (e : evid) : Prop :=
  roomy (heap_realloc E) (timeheap b) \/
  flag b e EVLIST_TIMEOUT = true /\ is_common_timeout (timeout_of b e) b = false.

(** The interval of a persistent event is noted for the next runs. *)
Definition note_interval (b : event_base) (e : evid) (tv : timeval) (abs : bool) : event_base :=
  if (ev_closure (structs b e) =? EV_CLOSURE_PERSIST) && negb abs
  then upd_event e (fun ev => ev <| ev_io_timeout := tv |>) b else b.

(** The event waits for time [t], and nothing else has been decided. *)
Record timed (b b' : event_base) (e : evid) (t : timeval) : Prop := {
  tm_inv : loop_inv b';
  tm_frame : add_frame e b b';
  tm_timeout : flag b' e EVLIST_TIMEOUT = true;
  tm_deadline : timeout_of b' e = t;
  tm_inserted : flag b' e EVLIST_INSERTED = flag b e EVLIST_INSERTED;
  tm_internal : internal b' e = internal b e;
  tm_active : flag b' e EVLIST_ACTIVE =
    flag b e EVLIST_ACTIVE && negb (has (ev_res (structs b e)) EV_TIMEOUT) }.

Lemma note_interval_ok b e tv abs :
  let b' := note_interval b e tv abs in
  (loop_inv b -> loop_inv b') /\ add_frame e b b' /\
  (signal_loop_ok b e -> signal_loop_ok b' e) /\
  (forall m, flag b' e m = flag b e m) /\ ev_res (structs b' e) = ev_res (structs b e) /\
  timeheap b' = timeheap b /\ common_timeout_queues b' = common_timeout_queues b /\
  timers b' = timers b /\ tv_cache b' = tv_cache b.
Proof.
  unfold note_interval. destruct (_ && _); [|by repeat (split; [done || apply af_refl|])].
  split; [by apply loop_inv_upd|]. split.
  { split; try done.
    - intros x Hx. split; [|done]. cbn. by rewrite decide_False.
    - cbn. by rewrite decide_True. }
  unfold signal_loop_ok, flag. cbn. by rewrite decide_True.
Qed.

(** Everything before the event enters the heap or a list. *)
Record ready (E : env) (b b' : event_base) (e : evid) (t : timeval) : Prop := {
  rd_inv : loop_inv b';
  rd_frame : add_frame e b b';
  rd_timeout : flag b' e EVLIST_TIMEOUT = false;
  rd_deadline : timeout_of b' e = t;
  rd_inserted : flag b' e EVLIST_INSERTED = flag b e EVLIST_INSERTED;
  rd_internal : internal b' e = internal b e;
  rd_active : flag b' e EVLIST_ACTIVE =
    flag b e EVLIST_ACTIVE && negb (has (ev_res (structs b e)) EV_TIMEOUT);
  rd_room : heap_room E b e -> roomy (heap_realloc E) (timeheap b');
  rd_lists : forall i, sublist (ctl_list b' i) (ctl_list b i);
  rd_clock : forall E', (gettime E' b').1 = (gettime E' b).1 }.

Lemma set_timeout_frame b e t : add_frame e b (set_ev_timeout e t b).
Proof.
  split; try done. intros x Hx. split; [done|]. unfold timeout_of. cbn. by rewrite decide_False.
Qed.

Lemma prepare_timeout_ok E b e tv abs now :
  loop_inv b -> signal_loop_ok b e -> proper_timeout b tv -> clock_reads E b now ->
  exists top b2, let b3 := (gettime E b2).2 in
    drop_old_timeout E (note_interval b e tv abs) e = Some (top, b2) /\
    deadline E b2 tv abs = Some (due b now tv abs, b3) /\
    is_common_timeout tv b3 = is_common_timeout tv b /\
    ready E b (set_ev_timeout e (due b now tv abs) b3) e (due b now tv abs).
Proof.
  intros Hb Hsig Htv [Hnow Hnn].
  destruct (note_interval_ok b e tv abs) as (I1 & F1 & S1 & G1 & R1 & H1 & C1 & T1 & K1).
  set (b1 := note_interval b e tv abs) in *.
  destruct (drop_old_timeout_ok E b1 e (I1 Hb) (S1 Hsig)) as (top & b2 & E2 & D2).
  exists top, b2. intros b3. split; [done|].
  assert (F2 : add_frame e b b2) by (eapply af_trans; [exact F1 | apply D2]).
  assert (Hcm : forall u, is_common_timeout u b2 = is_common_timeout u b)
    by (intros u; by apply (af_common e)).
  assert (Hdue : due b2 now tv abs = due b now tv abs) by (unfold due; by rewrite Hcm).
  assert (Hclk : clock_reads E b2 now).
  { split; [|done]. rewrite (td_clock _ _ _ D2), (gettime_untouched E b b1); done. }
  split; [rewrite <- Hdue; by apply deadline_run|].
  destruct (gettime_part E b2) as (P3 & M3 & _ & Q3 & _ & _ & V3). fold b3 in P3, M3, Q3, V3.
  assert (F3 : add_frame e b2 b3) by (by apply af_part).
  split; [rewrite (af_common e b2 b3 tv F3); apply Hcm|].
  assert (P3' : structs b3 = structs b2 /\ timeheap b3 = timeheap b2 /\
                common_timeout_queues b3 = common_timeout_queues b2 /\ timers b3 = timers b2)
    by (unfold queue_part in P3; repeat split; congruence).
  destruct P3' as (P4 & P5 & P6 & P7).
  assert (Hf : forall m, flag b3 e m = flag b2 e m) by (intros m; unfold flag; by rewrite P4).
  assert (I3 : loop_inv b3) by (apply (loop_inv_part b2); [done..|apply D2]).
  split.
  - apply loop_inv_set_timeout; [done|]. rewrite Hf. apply D2.
  - eapply af_trans; [exact F2|]. eapply af_trans; [exact F3 | apply set_timeout_frame].
  - change (flag b3 e EVLIST_TIMEOUT = false). rewrite Hf. apply D2.
  - unfold timeout_of. cbn. by rewrite decide_True.
  - change (flag b3 e EVLIST_INSERTED = flag b e EVLIST_INSERTED).
    rewrite Hf, (td_inserted _ _ _ D2). apply G1.
  - change (internal b3 e = internal b e). unfold internal. rewrite Hf.
    rewrite <- (G1 EVLIST_INTERNAL). apply (td_internal _ _ _ D2).
  - change (flag b3 e EVLIST_ACTIVE = flag b e EVLIST_ACTIVE && negb (has (ev_res (structs b e)) EV_TIMEOUT)).
    rewrite Hf, (td_active _ _ _ D2), G1, R1. done.
  - change (heap_room E b e -> roomy (heap_realloc E) (timeheap b3)). rewrite P5.
    destruct (td_heap _ _ _ D2) as [A2 N2]. rewrite H1 in A2, N2. intros [[Hr|Hr]|[Ht Hc]]; [left; lia | by right | left].
    apply (td_room _ _ _ D2); [by rewrite G1|]. unfold timeout_of. rewrite T1.
    rewrite (af_common e b b1) by done. exact Hc.
  - intros i. change (ctl_list (set_ev_timeout e _ b3) i) with (ctl_list b3 i).
    rewrite (same_lists b2 b3 P6 i).
    rewrite <- (same_lists b b1 C1 i). by eapply drop_old_timeout_lists.
  - intros E'. rewrite (gettime_untouched E' b2) by exact V3.
    rewrite (td_clock _ _ _ D2). by apply gettime_untouched.
Qed.

Lemma proper_marked b t : proper_timeout b t -> is_common_timeout t b = true -> marked t.
Proof.
  intros [Ht|(_ & Hm & _)] Hc; [|done]. by rewrite unmarked_not_common in Hc by by apply normal_unmarked.
Qed.

Lemma insert_ready E b b3 e t :
  ready E b b3 e t -> proper_timeout b t -> (is_common_timeout t b = false -> heap_room E b e) ->
  exists b4, event_queue_insert E b3 e EVLIST_TIMEOUT = Some b4 /\ timed b b4 e t /\
    requeued e (raised b3 e EVLIST_TIMEOUT) b3 b4.
Proof.
  intros [Hi Hf Ht Hd Hins Hint Hact Hroom _ _] Hp Hr.
  assert (Hcm : is_common_timeout t b3 = is_common_timeout t b) by (by apply (af_common e)).
  destruct (insert_timeout E b3 e) as (b4 & E4 & Q4 & R4); [apply Hi | done | | |].
  - rewrite Hd, Hcm. by apply proper_marked.
  - rewrite Hd, Hcm. auto.
  - exists b4. split; [done|]. split; [|done].
    assert (Hfl : forall m, Z.land EVLIST_TIMEOUT m = 0 -> flag b4 e m = flag b3 e m).
    { intros m Hm. rewrite (rq_flag_eq b3 b4 e _ R4), raised_other; [done|].
      unfold has. by rewrite Hm. }
    split.
    + eapply loop_inv_requeued; [exact Hi | exact Q4 | exact R4 | by apply raised_other].
    + eapply af_trans; [exact Hf | by eapply af_only, requeued_only].
    + rewrite (rq_flag_eq b3 b4 e _ R4). by apply raised_same.
    + by rewrite (rq_timeouts _ _ _ _ R4).
    + by rewrite Hfl.
    + unfold internal. rewrite Hfl by done. exact Hint.
    + by rewrite Hfl.
Qed.

(** The lists after the event has entered one. *)
Section EnterList.
Context (b3 b4 : event_base) (e : evid) (q : list evid).
Abbreviation j := (common_idx (timeout_of b3 e)).
Hypothesis (Hlists : common_lists b3) (Huser : user_event b3 e).
Hypothesis (Hframe : only_flags e b3 b4) (Hnormal : normal (deadline_of b3 e)).
Hypothesis (Hq : insert_common_timeout_inorder (timers b3) (ctl_list b3 j) e = Some q).
Hypothesis (Hl : forall i, ctl_list b4 i = if decide (i = j) then q else ctl_list b3 i).

Lemma enter_sorted : StronglySorted (sooner b3) q /\
  (head q = Some e \/ head q = head (ctl_list b3 j) /\
    forall h, head (ctl_list b3 j) = Some h -> sooner b3 h e).
Proof. apply (insert_inorder_sorted _ _ _ _ Hq), (cm_sorted _ Hlists). Qed.

Lemma enter_members x : x ∈ q <-> x = e \/ x ∈ ctl_list b3 j.
Proof.
  destruct (insert_inorder_split _ _ _ _ Hq (cm_sorted _ Hlists j)) as (q1 & q2 & Hqq & -> & _).
  rewrite Hqq, !elem_of_app, elem_of_cons. tauto.
Qed.

Lemma enter_deadline x : deadline_of b4 x = deadline_of b3 x.
Proof. unfold deadline_of. by rewrite (of_timeouts _ _ _ Hframe). Qed.

Lemma enter_timer i te : list_timer b4 i te <-> list_timer b3 i te.
Proof. apply list_timer_shape, Hframe. Qed.

Lemma enter_timer_same i te : list_timer b3 i te -> structs b4 te = structs b3 te.
Proof. intros H. rewrite (of_structs _ _ _ Hframe). by rewrite decide_False by by apply (Huser i). Qed.

Lemma enter_lists : common_lists b4.
Proof.
  split.
  - intros i. apply (strongly_sorted_ext (sooner b3)).
    { intros x y _ _. unfold sooner. by rewrite !enter_deadline. }
    rewrite Hl. case_decide; [apply enter_sorted | apply Hlists].
  - intros i x. rewrite Hl, enter_deadline.
    case_decide; [|apply Hlists]. intros [->|Hx]%enter_members; [done | by apply Hlists in Hx].
  - intros i te Hte. rewrite enter_timer in Hte. unfold flag.
    rewrite (enter_timer_same i te Hte), (of_timeouts _ _ _ Hframe), (only_flags_common e b3 b4) by done.
    by apply (cm_timer _ Hlists i).
  - intros i k te. rewrite !enter_timer. apply Hlists.
Qed.

Lemma enter_served i : served b3 i -> head (ctl_list b4 i) <> Some e -> served b4 i.
Proof.
  intros Hs Hh te x. rewrite enter_timer, Hl. intros Hte. unfold flag.
  rewrite (enter_timer_same i te Hte), enter_deadline, (of_timeouts _ _ _ Hframe).
  rewrite Hl in Hh. case_decide as Hij; [subst i|by apply Hs].
  destruct enter_sorted as [Hsort [He|[Hsame _]]]; [done|]. intros Hx.
  destruct q as [|h q']; [by apply not_elem_of_nil in Hx|].
  cbn in Hsame. symmetry in Hsame.
  assert (Hin : h ∈ ctl_list b3 j) by (apply head_Some_elem_of; done).
  assert (Hle : sooner b3 h x).
  { apply elem_of_cons in Hx as [->|Hx]; [unfold sooner; reflexivity|].
    apply StronglySorted_inv in Hsort as [_ Hall]. rewrite list.Forall_forall in Hall. auto. }
  destruct (Hs te h Hte Hin) as [Ha|[Hf Ht]]; [by left | right].
  split; [done|]. unfold sooner in Hle. by etrans.
Qed.
End EnterList.

(** ** Room in the heap *)

Lemma reserve_same_events ok st s m r s' :
  heap_core st s -> (n s <= m)%nat -> min_heap_reserve ok s m = (r, s') ->
  heap_events s' = heap_events s.
Proof.
  intros Hc Hm. pose proof (hi_alloc _ _ Hc). pose proof (hi_size _ _ Hc).
  unfold min_heap_reserve. destruct (a s <? m)%nat; [|by intros [= _ <-]].
  destruct (ok _); intros [= _ <-]; [|done].
  unfold heap_events. cbn. by rewrite take_app_le by lia.
Qed.

Lemma in_heap_events st st' s s' :
  heap_core st s -> heap_core st' s' -> heap_events s' = heap_events s ->
  forall x, in_heap s' x <-> in_heap s x.
Proof.
  intros H H' He x. rewrite <- (elem_of_heap_events st s), <- (elem_of_heap_events st' s') by done.
  by rewrite He.
Qed.

Lemma loop_inv_heap b h :
  loop_inv b -> heap_core (timers b) h -> heap_events h = heap_events (timeheap b) ->
  loop_inv (b <| timeheap := h |>).
Proof.
  intros [Hq Hmap Hslot] Hh He. set (b' := b <| timeheap := h |>).
  split; [|by apply (map_ok_ext b b' _ _ Hmap)|exact Hslot].
  pose proof (in_heap_events _ _ _ _ (qi_heap _ Hq) Hh He) as Hin.
  destruct Hq as [H1 H2 H3 H4 H5 H6 H7 H8 H9 H10]. split; try done.
  - intros x. change (timeheap b') with h. rewrite Hin. apply H2.
  - unfold counted. change (timeheap b') with h. rewrite He. exact H10.
Qed.

(** The room for one more timeout, made before anything else is changed. *)
Definition reserve_step (E : env) (b : event_base) (e : evid) (tv : option timeval) : Z * min_heap :=
  match tv with
  | Some _ => if flag b e EVLIST_TIMEOUT then (0, timeheap b) else
              min_heap_reserve (heap_realloc E) (timeheap b) (1 + min_heap_size (timeheap b))
  | None => (0, timeheap b)
  end.

Lemma reserve_step_ok E b e tv :
  loop_inv b ->
  exists r h, reserve_step E b e tv = (r, h) /\
    (r = -1 /\ tv <> None /\ ~ roomy (heap_realloc E) (timeheap b) \/
     r = 0 /\ loop_inv (b <| timeheap := h |>) /\
      (tv <> None -> flag b e EVLIST_TIMEOUT = false -> (n h < a h)%nat) /\
      (flag b e EVLIST_TIMEOUT = true -> h = timeheap b)).
Proof.
  intros Hb. assert (Hc := qi_heap _ Hb). unfold reserve_step.
  assert (Hsame : loop_inv (b <| timeheap := timeheap b |>)) by by apply loop_inv_heap.
  destruct tv as [t|].
  2: { eexists _, _; split; [done|]; right. do 2 (split; [done|]). split; [intros []; done | done]. }
  destruct (flag b e EVLIST_TIMEOUT).
  { eexists _, _; split; [done|]; right. do 2 (split; [done|]). split; [intros _ [=] | done]. }
  destruct (min_heap_reserve _ _ _) as [r h] eqn:Hr. exists r, h. split; [done|].
  assert (Hm : (n (timeheap b) <= 1 + min_heap_size (timeheap b))%nat) by (unfold min_heap_size; lia).
  destruct (reserve_spec _ _ _ _ _ _ Hc Hm Hr) as (H1 & H2 & _ & H4).
  unfold min_heap_size in *. destruct H4 as [[-> Ha]|[-> ->]]; [right | left].
  - split; [done|]. split; [|split; [intros _ _; lia | done]].
    apply loop_inv_heap; [done..|]. eapply reserve_same_events, Hr; [done | lia].
  - split; [done|]. split; [done|]. intros Hroom. revert Hr. unfold min_heap_reserve.
    destruct Hroom as [Hroom|Hgrow]; [by destruct (Nat.ltb_spec (a (timeheap b)) (1 + n (timeheap b))); [lia|]|].
    rewrite Hgrow. by destruct (_ <? _)%nat.
Qed.

(** ** A timeout that is not a common one *)

Lemma plain_timeout_ok E add b e tv abs now :
  loop_inv b -> signal_loop_ok b e -> proper_timeout b tv -> clock_reads E b now ->
  is_common_timeout tv b = false -> heap_room E b e ->
  exists top b', add_timeout E add b e tv abs = Some (top, b') /\
    timed b b' e (due b now tv abs) /\ forall i, sublist (ctl_list b' i) (ctl_list b i).
Proof.
  intros Hb Hsig Htv Hclk Hc Hroom.
  destruct (prepare_timeout_ok E b e tv abs now Hb Hsig Htv Hclk) as (top & b2 & E1 & E2 & Hcm & Hrd).
  set (b3 := (gettime E b2).2) in *. set (t := due b now tv abs) in *.
  destruct (due_ok b tv now abs Htv (proj2 Hclk)) as (Hct & _ & _ & Hpt). fold t in Hct, Hpt.
  destruct (insert_ready E b _ e t Hrd Hpt ltac:(auto)) as (b4 & E4 & Ht & R4).
  unfold add_timeout. change (if _ && negb abs then _ else b) with (note_interval b e tv abs).
  rewrite E1. cbn [mbind option_bind]. rewrite E2. cbn [mbind option_bind].
  rewrite E4. cbn [mbind option_bind]. fold b3. rewrite Hcm, Hc. eexists _, b4. split; [done|].
  split; [done|]. intros i. assert (Hl := insert_timeout_lists _ _ _ _ E4).
  rewrite (rd_deadline _ _ _ _ _ Hrd), (af_common e b _ _ (rd_frame _ _ _ _ _ Hrd)), Hct, Hc in Hl.
  rewrite Hl. apply (rd_lists _ _ _ _ _ Hrd).
Qed.

(** ** Scheduling the event of a list *)

Section Schedule.
Context (b b' : event_base) (i : nat) (te : evid) (t : timeval).
Hypothesis (Hlists : common_lists b) (Hte : list_timer b i te).
Hypothesis (Htm : timed b b' te t) (Hplain : is_common_timeout t b = false).
Hypothesis (Hsub : forall j, sublist (ctl_list b' j) (ctl_list b j)).

Lemma timer_off_lists j x : x ∈ ctl_list b' j -> x <> te.
Proof.
  intros (_ & Hc & _)%on_list_waits ->; [|apply Htm].
  rewrite (tm_deadline _ _ _ _ Htm), (af_common te b b') in Hc by apply Htm. congruence.
Qed.

Lemma retimed_waiting j x : x ∈ ctl_list b' j -> deadline_of b' x = deadline_of b x.
Proof.
  intros Hx. unfold deadline_of.
  by rewrite (proj2 (af_others _ _ _ (tm_frame _ _ _ _ Htm) x (timer_off_lists j x Hx))).
Qed.

Lemma retimed_timer j x : list_timer b' j x <-> list_timer b j x.
Proof. apply list_timer_shape, (tm_frame _ _ _ _ Htm). Qed.

Lemma retimed_lists : common_lists b'.
Proof.
  destruct Hlists as [H1 H2 H3 H4]. split.
  - intros j. eapply strongly_sorted_ext; [|eapply strongly_sorted_sublist; [apply Hsub | apply H1]].
    intros x y Hx Hy. unfold sooner. by rewrite (retimed_waiting j x), (retimed_waiting j y).
  - intros j x Hx. rewrite (retimed_waiting j x) by done.
    by apply (H2 j), (sublist_elem _ _ x (Hsub j)).
  - intros j x Hx. rewrite retimed_timer in Hx.
    destruct (H3 j x Hx) as (G1 & G2 & G3). destruct (tm_frame _ _ _ _ Htm) as [F1 F2 F3 F4 (F5 & F6 & F7 & F8)].
    rewrite (af_common te b b') by apply Htm. destruct (decide (x = te)) as [->|Hne].
    + rewrite F5, F8, (tm_deadline _ _ _ _ Htm). done.
    + unfold flag. by destruct (F1 x Hne) as [-> ->].
  - intros j k x. rewrite !retimed_timer. apply H4.
Qed.

Lemma retimed_served j : j <> i -> served b j -> served b' j.
Proof.
  intros Hj Hs x y Hx Hy. rewrite retimed_timer in Hx.
  assert (Hne : x <> te) by (intros ->; by apply Hj, (cm_apart _ Hlists j i te)).
  destruct (af_others _ _ _ (tm_frame _ _ _ _ Htm) x Hne) as [E1 E2].
  unfold flag. rewrite E1, E2, (retimed_waiting j y) by done.
  apply (Hs x y Hx). by apply (sublist_elem _ _ y (Hsub j)).
Qed.

Lemma retimed_same j : loop_inv b -> ctl_list b' j = ctl_list b j.
Proof.
  intros Hb. apply sublist_all; [|apply Hsub|].
  - unfold ctl_list. destruct (common_timeout_queues b !! j) as [c|] eqn:Hc; [|constructor].
    apply (qi_common _ Hb j c Hc).
  - intros x Hx. assert (Hw := on_list_waits b j x Hb Hx). destruct Hw as (W1 & W2 & W3).
    assert (Hne : x <> te).
    { intros ->. destruct (cm_timer _ Hlists i te Hte) as (_ & _ & Hp). rewrite Hp in W2; done. }
    destruct (af_others _ _ _ (tm_frame _ _ _ _ Htm) x Hne) as [E1 E2].
    assert (Hcm : forall u, is_common_timeout u b' = is_common_timeout u b)
      by (intros u; apply (af_common te), Htm).
    assert (Hw : waits_on_common b' j x).
    { split; [unfold flag; by rewrite E1|]. by rewrite E2, Hcm. }
    unfold ctl_list in Hx |- *.
    destruct (common_timeout_queues b !! j) as [c|] eqn:Hc; [|by apply not_elem_of_nil in Hx].
    assert (Hlen : (j < length (common_timeout_queues b'))%nat).
    { pose proof (f_equal length (af_shape _ _ _ (tm_frame _ _ _ _ Htm))) as Hsh.
      unfold ctl_shape in Hsh. rewrite !length_fmap in Hsh. rewrite Hsh. by eapply lookup_lt_Some. }
    destruct (lookup_lt_is_Some_2 _ _ Hlen) as [c' Hc']. rewrite Hc'. cbn.
    by apply (qi_common b' (tm_inv _ _ _ _ Htm) j c' Hc').
Qed.

(** The new timeout is that of the head of the list. *)
Lemma retimed_head e : head (ctl_list b i) = Some e -> t = deadline_of b e -> served b' i.
Proof.
  intros Hh Ht x y Hx Hy. rewrite retimed_timer in Hx. right.
  assert (x = te) as ->.
  { destruct Hx as (c & Hc & <-), Hte as (c' & Hc' & <-). congruence. }
  split; [exact (tm_timeout _ _ _ _ Htm)|]. rewrite (tm_deadline _ _ _ _ Htm), (retimed_waiting i y Hy), Ht.
  assert (Hy' := sublist_elem _ _ y (Hsub i) Hy). pose proof (cm_sorted _ Hlists i) as Hs.
  destruct (ctl_list b i) as [|h l]; [done|]. injection Hh as ->.
  apply elem_of_cons in Hy' as [->|Hy']; [reflexivity|].
  apply StronglySorted_inv in Hs as [_ Hs]. rewrite list.Forall_forall in Hs. by apply Hs.
Qed.
End Schedule.

(** ** The addition as a whole *)

(** What follows the reservation. *)
Definition add_reserved (E : env) (d : nat) (b1 : event_base) (e : evid) (tv : option timeval)
    (abs : bool) : option (Z * event_base) :=
  if has (ev_events (structs b1 e)) EV_SIGNAL && must_wait E b1 e then None else
  '(res, notify, b2) ← add_to_map E b1 e;
  '(notify', b3) ← match tv with
    | Some t => if res =? -1 then Some (notify, b2) else
                '(top, b') ← add_timeout E (event_add_nested E d) b2 e t abs;
                Some (notify || top, b')
    | None => Some (notify, b2)
    end;
  Some (res, notify_if E (negb (res =? -1) && notify') b3).

Lemma event_add_unfold E d b e tv abs :
  loop_inv b ->
  event_add_nested E (S d) b e tv abs =
    (let '(r, h) := reserve_step E b e tv in
     if r =? -1 then Some (-1, b) else add_reserved E d (b <| timeheap := h |>) e tv abs).
Proof. intros Hb. cbn [event_add_nested]. by rewrite (qi_flags _ Hb e : has _ _ = false). Qed.

(** A step that only touches what neither the invariants nor the lists read. *)
Lemma notify_if_ok E c b e :
  let b' := notify_if E c b in
  structs b' = structs b /\ timers b' = timers b /\ timeheap b' = timeheap b /\
  common_timeout_queues b' = common_timeout_queues b /\ activequeues b' = activequeues b /\
  add_frame e b b' /\ (loop_inv b -> loop_inv b') /\ (common_inv b -> common_inv b').
Proof.
  cbv zeta. destruct (notify_fields E c b) as (N1 & N2 & N3 & N4 & N5 & N6).
  destruct (notify_part E c b) as (P1 & P2 & P3 & P4 & P5).
  do 5 (split; [done|]). split; [by apply af_only, notify_only|].
  split; [by apply loop_inv_part|]. apply common_inv_shrink. split.
  - unfold ctl_shape. by rewrite N5.
  - intros i x _. unfold timeout_of. by rewrite N2.
  - intros i te _. unfold flag, timeout_of. by rewrite N1, N2.
  - intros i. by rewrite (same_lists b (notify_if E c b) N5).
Qed.

(** The timer of a list waits for its first deadline. *)
Lemma schedule_timer_ok E d b i te e now :
  loop_inv b -> common_lists b -> list_timer b i te -> head (ctl_list b i) = Some e ->
  clock_reads E b now ->
  roomy (heap_realloc E) (timeheap b) \/ flag b te EVLIST_TIMEOUT = true \/
    flag b te EVLIST_ACTIVE = true ->
  exists r b', event_add_nested E (S d) b te (Some (deadline_of b e)) true = Some (r, b') /\
    loop_inv b' /\ add_frame te b b' /\ common_lists b' /\ served b' i /\
    (forall j, j <> i -> served b j -> served b' j) /\ (forall j, ctl_list b' j = ctl_list b j).
Proof.
  intros Hb Hl Hte Hh Hclk Hroom. destruct (cm_timer _ Hl i te Hte) as (Hev & Hbase & Hplain).
  rewrite event_add_unfold by done.
  destruct (reserve_step_ok E b te (Some (deadline_of b e)) Hb) as (r & h & Hr & Hcase).
  rewrite Hr. destruct Hcase as [(-> & _ & Hno) | (-> & Hb1 & Hfree & Hkept)].
  - change (-1 =? -1) with true. exists (-1), b. split; [done|]. split; [done|].
    split; [apply af_refl|]. split; [done|]. split; [|by split].
    assert (Hf : flag b te EVLIST_TIMEOUT = false).
    { destruct (flag b te EVLIST_TIMEOUT) eqn:Hf; [|done].
      unfold reserve_step in Hr. by rewrite Hf in Hr. }
    intros x y Hx Hy. left. destruct Hx as (c & Hc & <-), Hte as (c' & Hc' & Hcc).
    assert (c = c') as -> by congruence. rewrite Hcc. intuition congruence.
  - change (0 =? -1) with false. set (b1 := b <| timeheap := h |>) in *.
    assert (Hn : normal (deadline_of b e)).
    { apply (cm_normal _ Hl i). by apply head_Some_elem_of. }
    assert (Hclk1 : clock_reads E b1 now).
    { split; [|apply Hclk]. rewrite (gettime_untouched E b b1); [apply Hclk | done]. }
    destruct (plain_timeout_ok E (event_add_nested E d) b1 te (deadline_of b e) true now)
      as (top & b2 & Hrun & Htm & Hsub); try done.
    { intros Hs. change (structs b1 te) with (structs b te) in Hs. by rewrite Hev in Hs. }
    { by left. } { by apply unmarked_not_common, normal_unmarked. }
    { destruct (flag b te EVLIST_TIMEOUT) eqn:Hf.
      - right. split; [done|]. change (is_common_timeout (timeout_of b te) b = false). auto.
      - left. left. apply Hfree; done. }
    unfold add_reserved. change (structs b1 te) with (structs b te). rewrite Hev.
    change (has 0 EV_SIGNAL && must_wait E b1 te) with false. cbv iota.
    unfold add_to_map. change (structs b1 te) with (structs b te). rewrite Hev.
    change (has 0 _ && _) with false. cbv iota. cbn [mbind option_bind].
    change (0 =? -1) with false. cbv iota. rewrite Hrun. cbn [mbind option_bind].
    eexists _, _. split; [done|].
    set (c := negb _ && _). destruct (notify_if_ok E c b2 te) as (N1 & N2 & N3 & N4 & N5 & N6 & N7 & N8).
    assert (Hc : is_common_timeout (deadline_of b e) b1 = false) by (by apply unmarked_not_common, normal_unmarked).
    assert (Hl1 : common_lists b1) by (destruct Hl; by split).
    assert (Hlk : lists_kept b2 (notify_if E c b2)).
    { split; [unfold ctl_shape; by rewrite N4 | | |].
      - intros j x _. unfold timeout_of. by rewrite N2.
      - intros j x _. unfold flag, timeout_of. by rewrite N1, N2.
      - intros j. by rewrite (same_lists b2 _ N4). }
    assert (Hte1 : list_timer b1 i te) by exact Hte.
    split; [apply N7, Htm|]. split.
    { eapply af_trans; [|exact N6]. eapply af_trans; [|apply Htm]. by split. }
    split; [eapply common_lists_shrink; [exact Hlk|]; by apply (retimed_lists b1 b2 te (deadline_of b e))|].
    split.
    + eapply served_shrink; [exact Hlk|].
      by apply (retimed_head b1 b2 i te (deadline_of b e) Hl1 Hte1 Htm Hc Hsub e).
    + split.
      * intros j Hj Hsj. eapply served_shrink; [exact Hlk|].
        by apply (retimed_served b1 b2 i te (deadline_of b e) Hl1 Hte1 Htm Hc Hsub).
      * intros j. rewrite (same_lists b2 _ N4).
        by apply (retimed_same b1 b2 i te (deadline_of b e) Hl1 Hte1 Htm Hsub).
Qed.

(** The fields the user set are the same. *)
Definition same_event (ev ev' : event) : Prop :=
  ev_events ev' = ev_events ev /\ ev_fd ev' = ev_fd ev /\ ev_pri ev' = ev_pri ev /\
  ev_base ev' = ev_base ev.

(** What a new timeout leaves: [e] waits for [t]; no event has changed but [e]
    and the events of the lists. *)
Record timeout_added (b b' : event_base) (e : evid) (t : timeval) : Prop := {
  ta_inv : loop_inv b';
  ta_others : forall x, x <> e -> (forall i, ~ list_timer b i x) ->
    structs b' x = structs b x /\ timeout_of b' x = timeout_of b x;
  ta_shape : ctl_shape b' = ctl_shape b;
  ta_timeout : flag b' e EVLIST_TIMEOUT = true;
  ta_deadline : timeout_of b' e = t;
  ta_inserted : flag b' e EVLIST_INSERTED = flag b e EVLIST_INSERTED;
  ta_active : flag b' e EVLIST_ACTIVE =
    flag b e EVLIST_ACTIVE && negb (has (ev_res (structs b e)) EV_TIMEOUT);
  ta_event : same_event (structs b e) (structs b' e);
  ta_common : common_inv b -> user_event b e -> common_inv b' }.

Lemma plain_added b b' e t :
  timed b b' e t -> is_common_timeout t b = false ->
  (forall i, sublist (ctl_list b' i) (ctl_list b i)) -> timeout_added b b' e t.
Proof.
  intros Ht Hc Hs. destruct Ht as [H1 H2 H3 H4 H5 H6 H7]. split; try done.
  - intros x Hx _. by apply H2.
  - apply H2.
  - apply H2.
  - intros Hci Hu. apply (common_inv_shrink b); [|done]. apply (frame_lists_kept e); try done.
    intros i (_ & Hcm & _)%on_list_waits; [|apply H1].
    rewrite H4, (af_common e b b') in Hcm by done. congruence.
Qed.

(** The lists when the event has entered its own, before the timer is set. *)
Lemma entered_lists E b b3 b4 e t :
  loop_inv b -> common_inv b -> user_event b e -> ready E b b3 e t ->
  is_common_timeout t b = true -> normal (mask_usec t) ->
  event_queue_insert E b3 e EVLIST_TIMEOUT = Some b4 -> only_flags e b3 b4 ->
  common_lists b4 /\ timeheap b4 = timeheap b3 /\ e ∈ ctl_list b4 (common_idx t) /\
  forall i, (i = common_idx t -> head (ctl_list b4 i) <> Some e) -> served b4 i.
Proof.
  intros Hb Hci Hu Hrd Hc Hn E4 Ho.
  assert (Hk : lists_kept b b3).
  { apply (frame_lists_kept e); [apply Hrd | done | | apply Hrd].
    intros i. apply untimed_off_lists; apply Hrd. }
  assert (Hci3 := common_inv_shrink b b3 Hk Hci). destruct Hci3 as [Hl3 Hs3].
  assert (Hu3 : user_event b3 e).
  { intros i te Hte. apply (Hu i). by apply (list_timer_shape b b3 i te (lk_shape _ _ Hk)). }
  assert (Hd := rd_deadline _ _ _ _ _ Hrd). assert (Hl := insert_timeout_lists _ _ _ _ E4).
  rewrite Hd, (af_common e b b3) in Hl by apply Hrd. rewrite Hc in Hl.
  destruct Hl as (q & Hq & Hl & Hheap). rewrite <- Hd in Hq, Hl.
  assert (Hn3 : normal (deadline_of b3 e)) by (unfold deadline_of; by rewrite Hd).
  split; [by eapply enter_lists|]. split; [done|]. split.
  - rewrite Hl, Hd, decide_True by done. apply (enter_members b3 b4 e q Hl3 Hq Hl e). by left.
  - intros i Hi. destruct (decide (i = common_idx t)) as [->|Hne].
    + eapply enter_served; try done. by apply Hi.
    + eapply enter_served; try done. rewrite Hl, Hd, decide_False by done.
      intros Hh. apply (untimed_off_lists b3 e i); [apply Hrd..|].
      by apply head_Some_elem_of.
Qed.

(** There will be a slot for the event of the list, or it waits already. *)
Definition timer_room (E : env) (b : event_base) (e : evid) (tv : timeval) : Prop :=
  heap_room E b e \/ is_common_timeout tv b = true /\ ctl_list b (common_idx tv) <> [].

Lemma common_timeout_ok E d b e tv abs now :
  loop_inv b -> signal_loop_ok b e -> proper_timeout b tv -> clock_reads E b now ->
  is_common_timeout tv b = true -> common_inv b -> user_event b e -> timer_room E b e tv ->
  exists top b', add_timeout E (event_add_nested E (S d)) b e tv abs = Some (top, b') /\
    timeout_added b b' e (due b now tv abs).
Proof.
  intros Hb Hsig Htv Hclk Hc Hci Hu Hroom.
  destruct (prepare_timeout_ok E b e tv abs now Hb Hsig Htv Hclk) as (top & b2 & E1 & E2 & Hcm & Hrd).
  set (t := due b now tv abs) in *. set (b3 := set_ev_timeout e t (gettime E b2).2) in *.
  destruct (due_ok b tv now abs Htv (proj2 Hclk)) as (Hct & Hn & Hidx & Hpt). fold t in Hct, Hn, Hidx, Hpt.
  destruct (Hidx Hc) as [Hi _]. rewrite Hc in Hct, Hcm.
  destruct (insert_ready E b b3 e t Hrd Hpt ltac:(congruence)) as (b4 & E4 & Ht & R4).
  destruct (entered_lists E b b3 b4 e t) as (Hl4 & Hheap & Hin & Hs4); try done; [by eapply requeued_only|].
  unfold add_timeout. change (if _ && negb abs then _ else b) with (note_interval b e tv abs).
  rewrite E1. cbn [mbind option_bind]. rewrite E2. cbn [mbind option_bind].
  fold b3. rewrite E4. cbn [mbind option_bind]. rewrite Hcm, (tm_deadline _ _ _ _ Ht).
  assert (Hct4 : is_common_timeout t b4 = true) by (rewrite (af_common e b b4); [done | apply Ht]).
  destruct (common_in_range t b4 Hct4) as [c Hc4]. rewrite Hc4. cbn [mbind option_bind].
  assert (Hlist : ctl_list b4 (common_idx t) = ctl_events c).
  { unfold ctl_list. change (common_timeout_queues b4 !! common_idx t) with (get_common_timeout_list b4 t). by rewrite Hc4. }
  assert (Hte4 : list_timer b4 (common_idx t) (ctl_timeout_event c)) by (by exists c).
  assert (Hsh : ctl_shape b4 = ctl_shape b) by apply Ht.
  assert (Hte : list_timer b (common_idx t) (ctl_timeout_event c)) by (by apply (list_timer_shape b b4)).
  assert (Hne := Hu _ _ Hte). rewrite <- Hlist.
  destruct (decide (head (ctl_list b4 (common_idx t)) = Some e)) as [Hh|Hh].
  - unfold common_timeout_schedule. rewrite (tm_deadline _ _ _ _ Ht).
    assert (Hclk4 : clock_reads E b4 now).
    { split; [|apply Hclk]. rewrite (gettime_untouched E b3 b4), (rd_clock _ _ _ _ _ Hrd).
      - apply Hclk.
      - apply (requeued_kept _ _ _ _ R4). }
    destruct (schedule_timer_ok E d b4 (common_idx t) (ctl_timeout_event c) e now)
      as (r & b5 & Hrun & I5 & F5 & L5 & S5 & O5 & _); try done; [apply Ht| |].
    { destruct Hroom as [Hroom|[_ Hroom]].
      - left. rewrite Hheap. by apply (rd_room _ _ _ _ _ Hrd).
      - right. destruct (af_others _ _ _ (tm_frame _ _ _ _ Ht) _ Hne) as [Hst Hto].
        unfold flag. rewrite Hst. rewrite <- Hi in Hroom.
        destruct (ctl_list b (common_idx t)) as [|y l] eqn:Hy; [done|].
        destruct (ci_served _ Hci (common_idx t) _ y Hte) as [Ha|[Hf _]];
          [rewrite Hy; by left | by right | by left]. }
    unfold deadline_of in Hrun. rewrite (tm_deadline _ _ _ _ Ht) in Hrun.
    rewrite Hrun. cbn [mbind option_bind]. eexists _, b5. split; [done|].
    destruct (af_others _ _ _ F5 e (not_eq_sym Hne)) as [G1 G2].
    split; unfold flag; rewrite ?G1, ?G2; [done | | |
      exact (tm_timeout _ _ _ _ Ht) | apply (tm_deadline _ _ _ _ Ht) |
      apply (tm_inserted _ _ _ _ Ht) | apply (tm_active _ _ _ _ Ht) | | ].
    + intros x Hx Hxt. destruct (af_others _ _ _ (tm_frame _ _ _ _ Ht) x Hx) as [X1 X2].
      destruct (af_others _ _ _ F5 x) as [Y1 Y2]; [intros ->; by apply (Hxt (common_idx t))|].
      by rewrite Y1, Y2.
    + by rewrite (af_shape _ _ _ F5).
    + apply (af_events _ _ _ (tm_frame _ _ _ _ Ht)).
    + intros _ _. split; [done|]. intros j.
      destruct (decide (j = common_idx t)) as [->|Hj]; [done|]. apply O5; [done|]. by apply Hs4.
  - eexists _, b4. split; [done|]. destruct Ht as [H1 H2 H3 H4 H5 H6 H7]. split; try done.
    + intros x Hx _. by apply H2.
    + apply H2.
    + intros _ _. split; [done|]. intros i. apply Hs4. intros ->. exact Hh.
Qed.
