(* ===== verification/EventAddSpec.v ===== *)
(** The contract of [event_add] and [event_del] on an event base: both
    invariants, what becomes of the event, and that no other event changes. *)

From S2P Require Import Prelude MinHeap EventData Evmap EventCore EventQueue EvmapSpec EventSpec EventAdd EventTimeout.

(** ** Adding *)

(** The heap can take the timeout: only an event that leaves a common list for
    the heap, or for a list that is empty, needs a slot nobody reserves. *)
Definition room_kept (E : env) (b : event_base) (e : evid) (tv : timeval) : Prop :=
  flag b e EVLIST_TIMEOUT = true -> is_common_timeout (timeout_of b e) b = true ->
  roomy (heap_realloc E) (timeheap b) \/
  is_common_timeout tv b = true /\ ctl_list b (common_idx tv) <> [].

Record timeable (E : env) (b : event_base) (e : evid) (tv now : timeval) : Prop := {
  tb_proper : proper_timeout b tv;
  tb_clock : clock_reads E b now;
  tb_room : room_kept E b e tv }.

(** The event after a successful addition. *)
Record event_added (b b' : event_base) (e : evid) (t : option timeval) : Prop := {
  ea_inv : loop_inv b';
  ea_common : common_inv b';
  ea_others : forall x, x <> e -> (forall i, ~ list_timer b i x) ->
    structs b' x = structs b x /\ timeout_of b' x = timeout_of b x;
  ea_inserted : flag b' e EVLIST_INSERTED =
    flag b e EVLIST_INSERTED || (waits_for_io b e && negb (flag b e EVLIST_ACTIVE));
  ea_timeout : match t with
    | Some u => flag b' e EVLIST_TIMEOUT = true /\ timeout_of b' e = u
    | None => flag b' e EVLIST_TIMEOUT = flag b e EVLIST_TIMEOUT /\
              timeout_of b' e = timeout_of b e
    end;
  ea_active : flag b' e EVLIST_ACTIVE =
    flag b e EVLIST_ACTIVE && negb (bool_decide (t <> None) && has (ev_res (structs b e)) EV_TIMEOUT);
  ea_event : same_event (structs b e) (structs b' e) }.

(** A refused addition leaves every event as it was. *)
Record event_refused (b b' : event_base) : Prop := {
  er_inv : loop_inv b';
  er_common : common_inv b';
  er_structs : structs b' = structs b;
  er_timers : timers b' = timers b;
  er_lists : common_timeout_queues b' = common_timeout_queues b }.

(** Steps that leave the lists and their timers alone. *)
Lemma common_inv_same b b' :
  timers b' = timers b -> common_timeout_queues b' = common_timeout_queues b ->
  (forall i te, list_timer b i te -> structs b' te = structs b te) ->
  common_inv b -> common_inv b'.
Proof.
  intros Ht Hc Hs. apply common_inv_shrink. split.
  - unfold ctl_shape. by rewrite Hc.
  - intros i x _. unfold timeout_of. by rewrite Ht.
  - intros i te Hte. unfold flag, timeout_of. by rewrite Ht, (Hs i te Hte).
  - intros i. by rewrite (same_lists b b' Hc).
Qed.

Lemma registered_common b b' e r :
  registered_step_ok b b' e r -> user_event b e -> common_inv b -> common_inv b'.
Proof.
  intros Hr Hu. destruct (rs_timers _ _ _ _ Hr) as (Ht & _).
  apply common_inv_same; [done | apply Hr|].
  intros i te Hte. apply (af_others _ _ _ (rs_frame _ _ _ _ Hr)). by apply (Hu i).
Qed.

Lemma list_timer_same b b' i te :
  common_timeout_queues b' = common_timeout_queues b -> list_timer b' i te <-> list_timer b i te.
Proof. intros H. unfold list_timer. by rewrite H. Qed.

(** The room for the timeout once the reservation is made. *)
Lemma reserved_room E b e tv h :
  room_kept E b e tv -> (flag b e EVLIST_TIMEOUT = false -> (n h < a h)%nat) ->
  (flag b e EVLIST_TIMEOUT = true -> h = timeheap b) ->
  timer_room E (b <| timeheap := h |>) e tv /\
  (is_common_timeout tv b = false -> heap_room E (b <| timeheap := h |>) e).
Proof.
  intros Hroom Hfree Hkept. set (b1 := b <| timeheap := h |>).
  destruct (flag b e EVLIST_TIMEOUT) eqn:Hf.
  - specialize (Hkept eq_refl). subst h.
    destruct (is_common_timeout (timeout_of b e) b) eqn:Hc.
    + destruct (Hroom Hf Hc) as [Hr|[Hr Hl]].
      * split; [left|intros _]; by left.
      * split; [by right|congruence].
    + split; [left|intros _]; by right.
  - specialize (Hfree eq_refl). split; [left|intros _]; by do 2 left.
Qed.

Lemma add_timeout_step E d b e tv abs now :
  loop_inv b -> common_inv b -> user_event b e -> signal_loop_ok b e ->
  proper_timeout b tv -> clock_reads E b now -> timer_room E b e tv ->
  (is_common_timeout tv b = false -> heap_room E b e) ->
  exists top b', add_timeout E (event_add_nested E (S d)) b e tv abs = Some (top, b') /\
    timeout_added b b' e (due b now tv abs).
Proof.
  intros Hb Hci Hu Hsig Htv Hclk Hroom Hheap.
  destruct (is_common_timeout tv b) eqn:Hc; [by apply common_timeout_ok|].
  destruct (plain_timeout_ok E (event_add_nested E (S d)) b e tv abs now)
    as (top & b' & Hrun & Ht & Hs); auto.
  exists top, b'. split; [done|]. apply plain_added; [done | | done].
  destruct (due_ok b tv now abs Htv (proj2 Hclk)) as (-> & _). done.
Qed.

(** The hypotheses on the timeout survive the registration. *)
Lemma registered_timeable b b' e r E tv now :
  registered_step_ok b b' e r ->
  proper_timeout b tv -> clock_reads E b now -> timer_room E b e tv ->
  (is_common_timeout tv b = false -> heap_room E b e) ->
  proper_timeout b' tv /\ clock_reads E b' now /\ timer_room E b' e tv /\
  (is_common_timeout tv b' = false -> heap_room E b' e) /\
  forall abs, due b' now tv abs = due b now tv abs.
Proof.
  intros Hr Htv Hclk Hroom Hheap.
  destruct (rs_timers _ _ _ _ Hr) as (Ht & Hh & Hv).
  assert (Hcm : forall u, is_common_timeout u b' = is_common_timeout u b)
    by (intros u; apply (af_common e), Hr).
  assert (Hhr : heap_room E b e -> heap_room E b' e).
  { unfold heap_room. rewrite Hh, (rs_flags _ _ _ _ Hr) by done.
    unfold timeout_of. by rewrite Ht, Hcm. }
  split; [unfold proper_timeout; by rewrite Hcm|].
  split; [split; [rewrite (gettime_untouched E b b' Hv) | ]; apply Hclk|].
  split; [|split; [rewrite Hcm; auto | intros abs; unfold due; by rewrite Hcm]].
  unfold timer_room. rewrite Hcm, (same_lists b b' (rs_common _ _ _ _ Hr)).
  destruct Hroom as [Hroom|Hroom]; [left; auto | by right].
Qed.

Section AddReserved.
Context (E : env) (d : nat) (b : event_base) (e : evid) (abs : bool) (now : timeval).
Hypothesis (Hb : loop_inv b) (Hci : common_inv b) (Hu : user_event b e) (Had : addable E b e).

Definition target (tv : option timeval) : option timeval :=
  (fun u => due b now u abs) <$> tv.

Lemma add_registered_ok b2 notify tv :
  registered_step_ok b b2 e 0 ->
  (forall u, tv = Some u -> proper_timeout b u /\ clock_reads E b now /\ timer_room E b e u /\
     (is_common_timeout u b = false -> heap_room E b e)) ->
  exists n' b3, match tv with
    | Some t => '(top, b') ← add_timeout E (event_add_nested E (S d)) b2 e t abs;
                Some (notify || top, b')
    | None => Some (notify, b2)
    end = Some (n', b3) /\ event_added b b3 e (target tv).
Proof.
  intros Hr Htv. assert (Hci2 := registered_common b b2 e 0 Hr Hu Hci).
  assert (Hu2 : user_event b2 e).
  { intros i te. rewrite (list_timer_same b b2 i te (rs_common _ _ _ _ Hr)). apply Hu. }
  destruct (rs_kept _ _ _ _ Hr) as (Kr & _). destruct (rs_timers _ _ _ _ Hr) as (Kt & _).
  assert (Hothers : forall x, x <> e -> structs b2 x = structs b x /\ timeout_of b2 x = timeout_of b x)
    by apply (af_others _ _ _ (rs_frame _ _ _ _ Hr)).
  assert (Hact : flag b2 e EVLIST_ACTIVE = flag b e EVLIST_ACTIVE) by (by apply Hr).
  assert (Hins := rs_inserted _ _ _ _ Hr). cbn [Z.eqb andb] in Hins.
  destruct tv as [u|]; cbn [target fmap option_fmap option_map].
  - destruct (Htv u eq_refl) as (T1 & T2 & T3 & T4).
    destruct (registered_timeable b b2 e 0 E u now Hr T1 T2 T3 T4) as (U1 & U2 & U3 & U4 & Hdue).
    destruct (add_timeout_step E d b2 e u abs now) as (top & b3 & Hrun & [A1 A2 A3 A4 A5 A6 A7 A9 A8]);
      try done; [apply Hr | apply (rs_signal _ _ _ _ Hr), Had|].
    rewrite Hrun. cbn [mbind option_bind]. eexists _, b3. split; [done|].
    assert (Hlt : forall i x, list_timer b2 i x <-> list_timer b i x)
      by (intros i x; apply list_timer_same, Hr).
    assert (Hse : same_event (structs b e) (structs b2 e)) by apply (rs_frame _ _ _ _ Hr).
    split; [done | by apply A8 | | by rewrite A6 | by rewrite A5, Hdue | |].
    + intros x Hx Hxt. destruct (A2 x Hx) as [-> ->]; [intros i; by rewrite Hlt | by apply Hothers].
    + rewrite A7, Hact, Kr. by rewrite bool_decide_true by done.
    + unfold same_event in *. intuition congruence.
  - eexists _, b2. split; [done|]. split; [apply Hr | done | | done | | | apply (rs_frame _ _ _ _ Hr)].
    + intros x Hx _. by apply Hothers.
    + split; [by apply Hr|]. unfold timeout_of. by rewrite Kt.
    + rewrite Hact. by rewrite andb_true_r.
Qed.

Lemma added_notified c b' t : event_added b b' e t -> event_added b (notify_if E c b') e t.
Proof.
  intros [H1 H2 H3 H4 H5 H6 H7].
  destruct (notify_if_ok E c b' e) as (N1 & N2 & N3 & N4 & N5 & N6 & N7 & N8).
  split; unfold flag, timeout_of in *; rewrite ?N1, ?N2; auto.
Qed.

Lemma add_reserved_ok tv :
  (forall u, tv = Some u -> proper_timeout b u /\ clock_reads E b now /\ timer_room E b e u /\
     (is_common_timeout u b = false -> heap_room E b e)) ->
  exists r b', add_reserved E (S d) b e tv abs = Some (r, b') /\
    (r = 0 /\ event_added b b' e (target tv) \/ r = -1 /\ event_refused b b') /\
    (generous E -> fd_has_room b e -> r = 0).
Proof.
  intros Htv. unfold add_reserved.
  destruct (has (ev_events (structs b e)) EV_SIGNAL && must_wait E b e) eqn:Hw.
  { apply andb_true_iff in Hw as [Hs Hw]. rewrite (ad_wait _ _ _ Had Hs) in Hw. done. }
  destruct (add_to_map_ok E b e Hb Had) as (r & notify & b2 & E2 & Hr01 & Hr & Hgen).
  rewrite E2. cbn [mbind option_bind]. destruct Hr01 as [-> | ->].
  - change (0 =? -1) with false. cbn [negb andb].
    destruct (add_registered_ok b2 notify tv Hr Htv) as (n' & b3 & -> & Hok).
    cbn [mbind option_bind]. eexists 0, _. split; [done|]. split; [|done]. left. split; [done|].
    by apply added_notified.
  - change (-1 =? -1) with true. cbn [negb andb].
    exists (-1), b2. split; [by destruct tv|]. split; [right | by auto]. split; [done|].
    destruct (rs_timers _ _ _ _ Hr) as (Kt & _).
    split; [apply Hr | by eapply registered_common | by apply Hr | done | apply Hr].
Qed.
End AddReserved.

Lemma event_add_nested_ok E d b e tv abs now :
  loop_inv b -> common_inv b -> user_event b e -> addable E b e ->
  (forall u, tv = Some u -> timeable E b e u now) ->
  exists r b', event_add_nested E (S (S d)) b e tv abs = Some (r, b') /\
    (r = 0 /\ event_added b b' e (target b abs now tv) \/ r = -1 /\ event_refused b b') /\
    (generous E -> fd_has_room b e -> (forall k, heap_realloc E k = true) -> r = 0).
Proof.
  intros Hb Hci Hu Had Htv. rewrite event_add_unfold by done.
  destruct (reserve_step_ok E b e tv Hb) as (r & h & -> & Hcase).
  destruct Hcase as [(-> & _ & Hno)|(-> & Hb1 & Hfree & Hkept)].
  - change (-1 =? -1) with true. exists (-1), b. split; [done|]. split; [by right|].
    intros _ _ Hgrow. exfalso. apply Hno. by right.
  - change (0 =? -1) with false. set (b1 := b <| timeheap := h |>) in *.
    assert (Hci1 : common_inv b1) by by apply (common_inv_same b).
    destruct (add_reserved_ok E d b1 e abs now Hb1 Hci1) with (tv := tv) as (r & b' & Hrun & Hres & Hgen).
    { exact Hu. }
    { destruct Had. by split. }
    { intros u ->. destruct (Htv u eq_refl) as [T1 [T2 T2'] T3].
      split; [exact T1|]. split.
      - split; [by rewrite (gettime_untouched E b b1)|done].
      - apply (reserved_room E b e u h T3); [by apply Hfree | done]. }
    exists r, b'. split; [exact Hrun|]. split; [|by auto].
    destruct Hres as [[-> [A1 A2 A3 A4 A5 A6 A7]]|[-> [A1 A2 A3 A4 A5]]]; [left | right]; (split; [done|]); by split.
Qed.

(** What the properties say of [event_add]. *)
Lemma event_add_ok E b e tv now :
  loop_inv b -> common_inv b -> user_event b e -> addable E b e ->
  ev_base (structs b e) = true ->
  (forall u, tv = Some u -> timeable E b e u now) ->
  exists r b', event_add E b e tv = Some (r, b') /\
    (r = 0 /\ event_added b b' e (target b false now tv) \/ r = -1 /\ event_refused b b') /\
    (generous E -> fd_has_room b e -> (forall k, heap_realloc E k = true) -> r = 0).
Proof.
  intros Hb Hci Hu Had Hbase Htv. unfold event_add. rewrite Hbase. by apply event_add_nested_ok.
Qed.

(** ** Deleting *)

Lemma maybe_backend_common E b (skip : bool) c ok b' :
  (if skip then (true, b) else backend E b c) = (ok, b') ->
  common_timeout_queues b' = common_timeout_queues b.
Proof. destruct skip; by intros [= _ <-]. Qed.

Lemma map_del_common E b e r b' :
  map_del E b e = Some (r, b') -> common_timeout_queues b' = common_timeout_queues b.
Proof.
  unfold map_del. destruct (has _ _).
  - unfold evmap_io_del. destruct (_ <? 0); [by intros [= _ <-]|].
    destruct (negb _); [done|]. destruct (_ <=? _); [by intros [= _ <-]|].
    destruct (mjoin _) as [ctx|]; [|done]. cbn [mbind option_bind].
    destruct (_ || _); [done|]. destruct (if _ =? 0 then (true, b) else _) as [ok b3] eqn:Hb.
    apply maybe_backend_common in Hb. destruct (negb ok); [by intros [= _ <-]|].
    destruct (tailq_remove _ _); [|done]. cbn. by intros [= _ <-].
  - unfold evmap_signal_del. destruct (_ <=? _); [by intros [= _ <-]|].
    destruct (mjoin _) as [ctx|]; [|done]. cbn [mbind option_bind].
    assert (Hb : common_timeout_queues (if decide (head ctx = last ctx) then
        backend E b {| bc_op := BackendDel; bc_signal := true; bc_fd := ev_fd (structs b e);
                       bc_old := 0; bc_events := EV_SIGNAL |} else (true, b)).2
      = common_timeout_queues b) by by destruct (decide _).
    destruct (if decide _ then _ else _) as [ok b3]. cbn in Hb.
    destruct (negb ok); [by intros [= _ <-]|].
    destruct (tailq_remove _ _); [|done]. cbn. by intros [= _ <-].
Qed.

Lemma remove_inserted_common E b e b' :
  event_queue_remove E b e EVLIST_INSERTED = Some b' ->
  common_timeout_queues b' = common_timeout_queues b.
Proof.
  unfold event_queue_remove. destruct (negb _); [done|]. rewrite uncount. cbv zeta.
  rewrite Z.eqb_refl. destruct (tailq_remove _ _); [|done]. cbn. by intros [= <-].
Qed.

(** Taking an event off keeps the common timeouts in order. *)
Lemma deleted_lists E b e r b' i :
  event_del_internal E b e = Some (r, b') -> sublist (ctl_list b' i) (ctl_list b i).
Proof.
  unfold event_del_internal. destruct (negb _); [by intros [= _ <-]|].
  destruct (must_wait E b e); [done|]. destruct (has _ (Z.lnot EVLIST_ALL)); [done|].
  destruct (abort_signal_loop b e) as [b1|] eqn:E1; [|done]. cbn [mbind option_bind].
  rewrite <- (same_lists b b1 (abort_lists _ _ _ E1) i).
  destruct (if flag b1 e EVLIST_TIMEOUT then _ else _) as [b2|] eqn:E2; [|done]. cbn [mbind option_bind].
  assert (H2 : sublist (ctl_list b2 i) (ctl_list b1 i)).
  { destruct (flag b1 e EVLIST_TIMEOUT); [|by simplify_eq]. by eapply remove_timeout_lists. }
  destruct (if flag b2 e EVLIST_ACTIVE then _ else _) as [b3|] eqn:E3; [|done]. cbn [mbind option_bind].
  assert (H3 : common_timeout_queues b3 = common_timeout_queues b2).
  { destruct (flag b2 e EVLIST_ACTIVE); [|by simplify_eq]. by eapply remove_active_lists. }
  rewrite <- (same_lists b2 b3 H3 i) in H2.
  destruct (flag b3 e EVLIST_INSERTED); [|by intros [= _ <-]].
  destruct (event_queue_remove E b3 e EVLIST_INSERTED) as [b4|] eqn:E4; [|done]. cbn [mbind option_bind].
  change (if has _ _ then _ else _) with (map_del E b4 e).
  destruct (map_del E b4 e) as [[r5 b5]|] eqn:E5; [|done]. cbn [mbind option_bind]. intros [= _ <-].
  destruct (notify_fields E (r5 =? 1) b5) as (_ & _ & _ & _ & N5 & _).
  rewrite (same_lists b5 _ N5 i), (same_lists b4 b5 (map_del_common _ _ _ _ _ E5) i).
  by rewrite (same_lists b3 b4 (remove_inserted_common _ _ _ _ E4) i).
Qed.

(** A deleted event is on no list, and the lists are served as before. *)
Lemma deleted_common E b e r b' :
  event_del_internal E b e = Some (r, b') -> deleted b b' e -> user_event b e ->
  common_inv b -> common_inv b'.
Proof.
  intros Hrun Hd Hu. apply common_inv_shrink. apply (frame_lists_kept e).
  - apply af_only, Hd.
  - done.
  - intros i. apply untimed_off_lists; apply Hd.
  - intros i. by eapply deleted_lists.
Qed.
