(* ===== verification/EventProcess.v ===== *)
(** Elapsed timeouts: [timeout_process] takes the events whose time has come off
    the heap in the order of their deadlines and makes exactly those active.  The callback
    of a common timeout activates the elapsed events of its list in order and schedules
    itself for the first that is left, so that every list is served again. *)

From Stdlib Require Import Sorting.Sorted.
From S2P Require Import Prelude MinHeap EventData Evmap EventCore EventQueue EvmapSpec EventSpec EventAdd EventTimeout EventAddSpec.

(** An event of the heap whose time has come. *)
Definition elapsed (b : event_base) (now : timeval) (e : evid) : bool :=
  flag b e EVLIST_TIMEOUT && negb (is_common_timeout (timeout_of b e) b)
  && negb (timercmp_gt (timeout_of b e) now).

(** Between callbacks no event points into a signal closure; the events that
    wait have a base and a priority. *)
Record loop_ready (E : env) (b : event_base) : Prop := {
  lr_thread : in_thread E = true;
  lr_backend : generous E;
  lr_pncalls : forall x, ev_pncalls (structs b x) = None;
  lr_events : forall x, flag b x EVLIST_TIMEOUT = true ->
    ev_base (structs b x) = true /\ 0 <= ev_pri (structs b x) < zlen (activequeues b) }.

Lemma elapsed_heap b now e :
  queue_inv b -> elapsed b now e = true <->
  in_heap (timeheap b) e /\ time_le (timeout_of b e) now.
Proof.
  intros Hq. unfold elapsed. rewrite !andb_true_iff, !negb_true_iff, timercmp_gt_false.
  by rewrite (qi_timed _ Hq).
Qed.

Lemma heap_top b :
  queue_inv b ->
  (n (timeheap b) = 0%nat /\ min_heap_top (timeheap b) = Some None) \/
  exists e, min_heap_top (timeheap b) = Some (Some e) /\ in_heap (timeheap b) e /\
    forall x, in_heap (timeheap b) x -> time_le (timeout_of b e) (timeout_of b x).
Proof.
  intros Hq. unfold min_heap_top. case_decide as Hn; [by left | right].
  destruct (hi_pos _ _ (qi_heap _ Hq) 0) as (e & He & _); [lia|]. exists e. rewrite He.
  split; [done|]. split; [exists 0%nat; split; [lia | done]|].
  intros x Hx. eapply heap_root_le; [apply Hq | done | done].
Qed.

Lemma must_wait_thread E b e : in_thread E = true -> must_wait E b e = false.
Proof. intros H. unfold must_wait. by rewrite H, andb_false_r. Qed.

(** One elapsed event: off every queue and active. *)
Record fired (b b' : event_base) (e : evid) : Prop := {
  fi_inv : loop_inv b';
  fi_others : forall x, x <> e -> structs b' x = structs b x;
  fi_timeouts : forall x, timeout_of b' x = timeout_of b x;
  fi_shape : ctl_shape b' = ctl_shape b;
  fi_lists : forall i, sublist (ctl_list b' i) (ctl_list b i);
  fi_state : flag b' e EVLIST_TIMEOUT = false /\ flag b' e EVLIST_INSERTED = false /\
    flag b' e EVLIST_ACTIVE = true /\ ev_res (structs b' e) = EV_TIMEOUT;
  fi_event : ev_pri (structs b' e) = ev_pri (structs b e) /\
    ev_base (structs b' e) = ev_base (structs b e) /\
    ev_events (structs b' e) = ev_events (structs b e) /\
    ev_pncalls (structs b' e) = None;
  fi_queues : activequeues b' =
    alter (fun q => q ++ [e]) (Z.to_nat (ev_pri (structs b e))) (without e <$> activequeues b);
  fi_heap : a (timeheap b') = a (timeheap b) /\ (n (timeheap b') <= n (timeheap b))%nat;
  fi_cache : tv_cache b' = tv_cache b }.

Lemma fire_ok E b e :
  loop_inv b -> loop_ready E b -> flag b e EVLIST_TIMEOUT = true ->
  exists b1 b2, event_del_internal E b e = Some (0, b1) /\
    event_active_nolock E b1 e EV_TIMEOUT 1 = Some b2 /\ fired b b2 e.
Proof.
  intros Hb [Hth Hgen Hpn Hev] Ht. destruct (Hev e Ht) as [Hbase Hpri].
  destruct (event_del_internal_ok E b e Hb) as (r & b1 & E1 & Hd & Hres & Hg).
  { split; [done | by apply must_wait_thread|]. intros _ _ f. by rewrite Hpn. }
  rewrite (Hg Hgen) in E1, Hres. destruct Hres as [[_ I1]|[? _]]; [|done].
  destruct (only_flags_fields e b b1 e (de_only _ _ _ Hd)) as (F1 & F2 & F3 & F4).
  destruct (event_active_nolock_ok E b1 e EV_TIMEOUT 1 I1) as (b2 & E2 & Ha).
  { rewrite F3. unfold zlen. rewrite (of_priorities _ _ _ (de_only _ _ _ Hd)). exact Hpri. }
  { intros _. by apply must_wait_thread. }
  exists b1, b2. split; [done|]. split; [done|].
  destruct (ac_timers _ _ _ _ Ha) as (T1 & T2 & T3 & _), (ac_kept _ _ _ _ Ha) as (K1 & K2 & K3).
  split.
  - apply Ha.
  - intros x Hx. rewrite (ac_others _ _ _ _ Ha x Hx), (of_structs _ _ _ (de_only _ _ _ Hd)).
    by rewrite decide_False.
  - intros x. unfold timeout_of. rewrite T1. apply (of_timeouts _ _ _ (de_only _ _ _ Hd)).
  - unfold ctl_shape. rewrite T3. apply (of_shape _ _ _ (de_only _ _ _ Hd)).
  - intros i. rewrite (same_lists b1 b2 T3). by eapply deleted_lists.
  - rewrite !(ac_flags _ _ _ _ Ha) by done. rewrite (ac_active _ _ _ _ Ha), (ac_res _ _ _ _ Ha).
    rewrite (de_timeout _ _ _ Hd), (de_inserted _ _ _ Hd), (de_active _ _ _ Hd). done.
  - rewrite K1, K2, K3, F1, F3, F4. do 3 (split; [done|]).
    destruct (ac_pncalls _ _ _ _ Ha) as [-> | ->]; [|done].
    rewrite (of_structs _ _ _ (de_only _ _ _ Hd)), decide_True by done. apply Hpn.
  - rewrite (ac_queues _ _ _ _ Ha), (de_active _ _ _ Hd), F3. by rewrite (de_active_queues _ _ _ Hd).
  - rewrite T2. apply Hd.
  - destruct (ac_timers _ _ _ _ Ha) as (_ & _ & _ & _ & _ & ->). apply (of_cache _ _ _ (de_only _ _ _ Hd)).
Qed.

Section Fired.
Context (E : env) (b b' : event_base) (e : evid) (now : timeval).
Hypothesis (Hb : loop_inv b) (Hr : loop_ready E b) (Hf : fired b b' e).

Lemma fired_flag x m : x <> e -> flag b' x m = flag b x m.
Proof. intros Hx. unfold flag. by rewrite (fi_others _ _ _ Hf x Hx). Qed.

Lemma fired_common tv : is_common_timeout tv b' = is_common_timeout tv b.
Proof. apply shape_common, Hf. Qed.

Lemma fired_ready : loop_ready E b'.
Proof.
  destruct Hr as [H1 H2 H3 H4]. destruct (fi_event _ _ _ Hf) as (F1 & F2 & F3 & F4).
  split; [done..| |].
  - intros x. destruct (decide (x = e)) as [->|Hx]; [done|]. by rewrite (fi_others _ _ _ Hf).
  - intros x. destruct (decide (x = e)) as [->|Hx].
    + destruct (fi_state _ _ _ Hf) as (Ht & _). congruence.
    + rewrite (fired_flag x EVLIST_TIMEOUT Hx), (fi_others _ _ _ Hf x Hx).
      unfold zlen. rewrite (fi_queues _ _ _ Hf), length_alter, length_fmap. apply H4.
Qed.

Lemma fired_in_heap x : in_heap (timeheap b') x <-> in_heap (timeheap b) x /\ x <> e.
Proof.
  rewrite (qi_timed b' (fi_inv _ _ _ Hf)), (qi_timed _ Hb), (fi_timeouts _ _ _ Hf), fired_common.
  destruct (decide (x = e)) as [->|Hx].
  - destruct (fi_state _ _ _ Hf) as (-> & _). intuition congruence.
  - rewrite fired_flag by done. tauto.
Qed.

Lemma fired_elapsed x : elapsed b' now x = (elapsed b now x && negb (bool_decide (x = e))).
Proof.
  apply eq_true_iff_eq. rewrite andb_true_iff, negb_true_iff, bool_decide_eq_false.
  rewrite (elapsed_heap b' now x (fi_inv _ _ _ Hf)), (elapsed_heap b now x Hb).
  rewrite fired_in_heap, (fi_timeouts _ _ _ Hf). tauto.
Qed.

(** The heap has one event less. *)
Lemma fired_shorter :
  in_heap (timeheap b) e ->
  (length (heap_events (timeheap b')) < length (heap_events (timeheap b)))%nat.
Proof.
  intros He. assert (Hc := qi_heap _ Hb). assert (Hc' := qi_heap b' (fi_inv _ _ _ Hf)).
  apply (Nat.lt_le_trans _ (length (e :: heap_events (timeheap b')))); [cbn; lia|].
  apply submseteq_length, NoDup_submseteq.
  - apply list.NoDup_cons. split; [|by eapply heap_events_NoDup].
    rewrite (elem_of_heap_events _ _ _ Hc'), fired_in_heap. tauto.
  - intros x [->|Hx]%elem_of_cons; rewrite (elem_of_heap_events _ _ _ Hc); [done|].
    apply (elem_of_heap_events _ _ _ Hc'), fired_in_heap in Hx. tauto.
Qed.

(** The timer of a list that fires is active, so its list stays served. *)
Lemma fired_lists : common_inv b -> common_inv b'.
Proof.
  intros [[H1 H2 H3 H4] H5].
  assert (Hlt : forall i x, list_timer b' i x <-> list_timer b i x)
    by (intros i x; apply list_timer_shape, Hf).
  assert (Hsub := fi_lists _ _ _ Hf).
  assert (Hd : forall x, deadline_of b' x = deadline_of b x)
    by (intros x; unfold deadline_of; by rewrite (fi_timeouts _ _ _ Hf)).
  split; [split|].
  - intros i. eapply strongly_sorted_ext; [|eapply strongly_sorted_sublist; [apply Hsub | apply H1]].
    intros x y _ _. unfold sooner. by rewrite !Hd.
  - intros i x Hx. rewrite Hd. by apply (H2 i), (sublist_elem _ _ x (Hsub i)).
  - intros i x. rewrite Hlt. intros Hx. destruct (H3 i x Hx) as (G1 & G2 & G3).
    rewrite (fi_timeouts _ _ _ Hf), fired_common. destruct (decide (x = e)) as [->|Hxe].
    + destruct (fi_event _ _ _ Hf) as (_ & -> & -> & _), (fi_state _ _ _ Hf) as (-> & _). done.
    + by rewrite (fired_flag x _ Hxe), (fi_others _ _ _ Hf).
  - intros i j x. rewrite !Hlt. apply H4.
  - intros i x y. rewrite Hlt, Hd. intros Hx Hy. apply (sublist_elem _ _ y (Hsub i)) in Hy.
    destruct (decide (x = e)) as [->|Hxe]; [left; apply (fi_state _ _ _ Hf)|].
    rewrite !(fired_flag x) by done. rewrite (fi_timeouts _ _ _ Hf). by apply (H5 i).
Qed.
End Fired.

(** The whole loop: exactly the elapsed events are active with the result
    [EV_TIMEOUT], and each queue lists them behind its other events, ordered by
    their deadlines. *)
Definition earlier (b : event_base) (x y : evid) : Prop := time_le (timeout_of b x) (timeout_of b y).

Definition not_elapsed (b : event_base) (now : timeval) (q : list evid) : list evid :=
  filter (fun x => elapsed b now x = false) q.

Record processed (E : env) (b b' : event_base) (now : timeval) : Prop := {
  pr_inv : loop_inv b';
  pr_ready : loop_ready E b';
  pr_common : common_inv b -> common_inv b';
  pr_elapsed : forall x, elapsed b now x = true ->
    flag b' x EVLIST_TIMEOUT = false /\ flag b' x EVLIST_INSERTED = false /\
    flag b' x EVLIST_ACTIVE = true /\ ev_res (structs b' x) = EV_TIMEOUT;
  pr_others : forall x, elapsed b now x = false -> structs b' x = structs b x;
  pr_timeouts : forall x, timeout_of b' x = timeout_of b x;
  pr_none : forall x, elapsed b' now x = false;
  pr_queues : forall i q, activequeues b !! i = Some q ->
    exists l, activequeues b' !! i = Some (not_elapsed b now q ++ l) /\
      StronglySorted (earlier b) l /\
      forall x, x ∈ l <-> elapsed b now x = true /\ ev_pri (structs b x) = Z.of_nat i }.

Lemma not_elapsed_none b now q : (forall x, elapsed b now x = false) -> not_elapsed b now q = q.
Proof.
  intros H. unfold not_elapsed. induction q as [|x q IH]; [done|].
  rewrite filter_cons_True by apply H. by rewrite IH.
Qed.

Lemma processed_nothing E b now :
  loop_inv b -> loop_ready E b -> (forall x, elapsed b now x = false) -> processed E b b now.
Proof.
  intros Hb Hr Hn. split; try done.
  - intros x. by rewrite Hn.
  - intros i q Hi. exists []. rewrite not_elapsed_none, app_nil_r by done. split; [done|].
    split; [constructor|]. intros x. rewrite Hn. split; [|by intros [? _]].
    intros Hx. by apply not_elem_of_nil in Hx.
Qed.

Section Fire.
Context (E : env) (b b1 b' : event_base) (e : evid) (now : timeval).
Hypothesis (Hb : loop_inv b) (Hf : fired b b1 e) (Hp : processed E b1 b' now).
Hypothesis (He : elapsed b now e = true).
Hypothesis (Hmin : forall x, in_heap (timeheap b) x -> earlier b e x).

Lemma fire_pri x : ev_pri (structs b1 x) = ev_pri (structs b x).
Proof.
  destruct (decide (x = e)) as [->|Hx]; [apply (fi_event _ _ _ Hf)|].
  by rewrite (fi_others _ _ _ Hf).
Qed.

Lemma fire_elapsed x : elapsed b1 now x = true <-> elapsed b now x = true /\ x <> e.
Proof.
  rewrite (fired_elapsed b b1 e now Hb Hf), andb_true_iff, negb_true_iff.
  by rewrite bool_decide_eq_false.
Qed.

Lemma fire_not_elapsed q : not_elapsed b1 now (without e q) = not_elapsed b now q.
Proof.
  unfold not_elapsed, without. rewrite list_filter_filter. apply list_filter_iff. intros x.
  rewrite (fired_elapsed b b1 e now Hb Hf). destruct (decide (x = e)) as [->|Hx].
  - rewrite He. split; [by intros [_ ?] | done].
  - rewrite bool_decide_eq_false_2 by done. rewrite andb_true_r. tauto.
Qed.

(** What was in front of the loop's next events is now the first of them. *)
Lemma fire_queue i q :
  activequeues b !! i = Some q ->
  exists l, activequeues b' !! i = Some (not_elapsed b now q ++ l) /\
    StronglySorted (earlier b) l /\
    forall x, x ∈ l <-> elapsed b now x = true /\ ev_pri (structs b x) = Z.of_nat i.
Proof.
  intros Hi. set (k := Z.to_nat (ev_pri (structs b e))).
  assert (Hk : (0 <= ev_pri (structs b e))).
  { rewrite <- fire_pri. apply (qi_pri b1 (fi_inv _ _ _ Hf)). apply (fi_state _ _ _ Hf). }
  assert (H1 : activequeues b1 !! i = Some (if decide (i = k) then without e q ++ [e] else without e q)).
  { rewrite (fi_queues _ _ _ Hf). fold k. destruct (decide (i = k)) as [->|Hik].
    - rewrite list_lookup_alter_eq, list_lookup_fmap, Hi. done.
    - rewrite list_lookup_alter_ne, list_lookup_fmap, Hi by done. done. }
  destruct (pr_queues _ _ _ _ Hp i _ H1) as (l & Hl & Hs & Hm).
  assert (Hs' : StronglySorted (earlier b) l).
  { eapply strongly_sorted_ext; [|exact Hs]. intros x y _ _. unfold earlier.
    by rewrite !(fi_timeouts _ _ _ Hf). }
  assert (Hm' : forall x, x ∈ l <-> elapsed b now x = true /\ x <> e /\ ev_pri (structs b x) = Z.of_nat i).
  { intros x. rewrite Hm, fire_elapsed, fire_pri. tauto. }
  destruct (decide (i = k)) as [Hik|Hik].
  - exists (e :: l). split; [|split].
    + rewrite Hl. f_equal. unfold not_elapsed at 1. rewrite list.filter_app.
      fold (not_elapsed b1 now (without e q)). rewrite fire_not_elapsed, <- app_assoc. f_equal.
      rewrite filter_cons_True; [done|]. rewrite (fired_elapsed b b1 e now Hb Hf).
      rewrite bool_decide_eq_true_2 by done. by rewrite andb_false_r.
    + constructor; [done|]. apply list.Forall_forall. intros x (Hx & _ & _)%Hm'.
      apply Hmin. by apply (elapsed_heap b now x Hb) in Hx as [Hx _].
    + intros x. rewrite elem_of_cons, Hm'. destruct (decide (x = e)) as [->|Hx]; [|tauto].
      split; [intros _|by left]. split; [done|]. subst k. lia.
  - exists l. rewrite Hl, fire_not_elapsed. split; [done|]. split; [done|].
    intros x. rewrite Hm'. split; [tauto|]. intros [Hx Hpx]. split; [done|]. split; [|done].
    intros ->. subst k. lia.
Qed.

Lemma fire_processed : processed E b b' now.
Proof.
  destruct Hp as [P1 P2 P3 P4 P5 P6 P7 P8]. split; try done.
  - intros Hc. by apply P3, (fired_lists b b1 e Hf).
  - intros x Hx. destruct (decide (x = e)) as [->|Hxe].
    + assert (Hn : elapsed b1 now e = false).
      { apply not_true_iff_false. rewrite fire_elapsed. tauto. }
      unfold flag. rewrite (P5 e Hn). apply (fi_state _ _ _ Hf).
    + apply P4. by apply fire_elapsed.
  - intros x Hx. assert (Hxe : x <> e) by (intros ->; congruence).
    rewrite P5; [by apply (fi_others _ _ _ Hf)|].
    apply not_true_iff_false. rewrite fire_elapsed. intros [? _]. congruence.
  - intros x. by rewrite P6, (fi_timeouts _ _ _ Hf).
  - intros i q. apply fire_queue.
Qed.
End Fire.

Lemma timeout_process_loop_ok E now fuel : forall b,
  loop_inv b -> loop_ready E b -> (length (heap_events (timeheap b)) < fuel)%nat ->
  exists b', timeout_process_loop E fuel now b = Some b' /\ processed E b b' now.
Proof.
  induction fuel as [|fuel IH]; intros b Hb Hr Hfuel; [lia|]. cbn [timeout_process_loop].
  destruct (heap_top b Hb) as [[Hn ->]|(e & -> & He & Hmin)]; cbn [mbind option_bind].
  - exists b. split; [done|]. apply processed_nothing; [done..|]. intros x.
    apply not_true_iff_false. rewrite (elapsed_heap b now x Hb). intros [(i & Hi & _) _]. lia.
  - destruct (timercmp_gt (timeout_of b e) now) eqn:Hlate.
    + exists b. split; [done|]. apply processed_nothing; [done..|]. intros x.
      apply not_true_iff_false. rewrite (elapsed_heap b now x Hb). intros [Hx Hle].
      assert (Hgt : timercmp_gt (timeout_of b e) now = false); [|congruence].
      apply timercmp_gt_false. transitivity (timeout_of b x); [by apply Hmin | done].
    + assert (Hel : elapsed b now e = true).
      { apply (elapsed_heap b now e Hb). split; [done|]. by apply timercmp_gt_false. }
      assert (Ht : flag b e EVLIST_TIMEOUT = true) by (by apply (qi_timed _ Hb)).
      destruct (fire_ok E b e Hb Hr Ht) as (b1 & b2 & E1 & E2 & Hf).
      rewrite E1. cbn [mbind option_bind]. rewrite E2. cbn [mbind option_bind].
      destruct (IH b2) as (b' & Hrun & Hp).
      { apply Hf. } { by apply (fired_ready E b b2 e). }
      { pose proof (fired_shorter b b2 e Hb Hf He). lia. }
      exists b'. split; [done|]. by apply (fire_processed E b b2 b' e now).
Qed.

Lemma heap_events_length s : (length (heap_events s) <= n s)%nat.
Proof.
  unfold heap_events. transitivity (length (take (n s) (p s))); [|rewrite length_take; lia].
  induction (take (n s) (p s)) as [|[x|] l IH]; cbn; lia.
Qed.

Lemma processed_same E b b1 b' now :
  structs b1 = structs b -> timers b1 = timers b -> activequeues b1 = activequeues b ->
  common_timeout_queues b1 = common_timeout_queues b ->
  processed E b1 b' now -> processed E b b' now.
Proof.
  intros S1 S2 S4 S5 [P1 P2 P3 P4 P5 P6 P7 P8].
  assert (Ht : forall x, timeout_of b1 x = timeout_of b x) by (intros x; unfold timeout_of; by rewrite S2).
  assert (He : forall x, elapsed b1 now x = elapsed b now x).
  { intros x. unfold elapsed, is_common_timeout, n_common_timeouts, flag. by rewrite Ht, S1, S5. }
  split; try done.
  - intros Hc. apply P3. apply (common_inv_same b); try done. intros i te _. by rewrite S1.
  - intros x. rewrite <- He. apply P4.
  - intros x. rewrite <- He, <- S1. apply P5.
  - intros x. by rewrite P6.
  - intros i q. rewrite <- S4. intros Hi. destruct (P8 i q Hi) as (l & H1 & H2 & H3).
    exists l. split; [|split].
    + rewrite H1. do 2 f_equal. apply list_filter_iff. intros x. by rewrite He.
    + eapply strongly_sorted_ext; [|exact H2]. intros x y _ _. unfold earlier. by rewrite !Ht.
    + intros x. by rewrite H3, He, S1.
Qed.

Lemma timeout_process_ok E b now :
  loop_inv b -> loop_ready E b -> clock_reads E b now ->
  exists b', timeout_process E b = Some b' /\ processed E b b' now.
Proof.
  intros Hb Hr [Hnow _]. unfold timeout_process. destruct (min_heap_empty (timeheap b)) eqn:He.
  - exists b. split; [done|]. apply processed_nothing; [done..|]. intros x.
    apply not_true_iff_false. rewrite (elapsed_heap b now x Hb). intros [(i & Hi & _) _].
    unfold min_heap_empty in He. apply Nat.eqb_eq in He. lia.
  - destruct (gettime_part E b) as (P1 & P2 & _). destruct (gettime E b) as [nw b1].
    cbn [fst snd] in *. subst nw. cbn [mbind option_bind].
    assert (Hb1 : loop_inv b1) by by apply (loop_inv_part b).
    assert (Hs : structs b1 = structs b /\ timers b1 = timers b /\ timeheap b1 = timeheap b /\
      activequeues b1 = activequeues b /\ common_timeout_queues b1 = common_timeout_queues b)
      by (unfold queue_part in P1; repeat split; congruence).
    destruct Hs as (S1 & S2 & S3 & S4 & S5).
    assert (Hr1 : loop_ready E b1).
    { destruct Hr as [R1 R2 R3 R4]. split; unfold flag; rewrite ?S1, ?S4; done. }
    destruct (timeout_process_loop_ok E now (S (min_heap_size (timeheap b1))) b1 Hb1 Hr1) as (b' & Hrun & Hp).
    { pose proof (heap_events_length (timeheap b1)). unfold min_heap_size. lia. }
    exists b'. split; [exact Hrun|]. by apply (processed_same E b b1).
Qed.

(** The events of the lists are no timers of lists. *)
Lemma waiting_user b i e :
  queue_inv b -> common_lists b -> e ∈ ctl_list b i -> user_event b e.
Proof.
  intros Hq Hl (Hf & Hc & _)%on_list_waits j te Hte; [|done]. intros ->.
  destruct (cm_timer _ Hl j e Hte) as (_ & _ & Hp). rewrite Hp in Hc; done.
Qed.

Lemma ctl_list_nodup b i : queue_inv b -> NoDup (ctl_list b i).
Proof.
  intros Hq. unfold ctl_list. destruct (common_timeout_queues b !! i) as [c|] eqn:Hc; [|constructor].
  apply (qi_common _ Hq i c Hc).
Qed.

Lemma waits_on_list b i x :
  queue_inv b -> (i < length (common_timeout_queues b))%nat -> waits_on_common b i x -> x ∈ ctl_list b i.
Proof.
  intros Hq Hi Hw. destruct (lookup_lt_is_Some_2 _ _ Hi) as [c Hc].
  unfold ctl_list. rewrite Hc. by apply (qi_common _ Hq i c Hc).
Qed.

Lemma shape_length b b' :
  ctl_shape b' = ctl_shape b -> length (common_timeout_queues b') = length (common_timeout_queues b).
Proof. intros H%(f_equal length). unfold ctl_shape in H. by rewrite !length_fmap in H. Qed.

(** The list after its first event has fired. *)
Lemma fired_tail b b' e i l :
  loop_inv b -> fired b b' e -> ctl_list b i = e :: l -> ctl_list b' i = l.
Proof.
  intros Hb Hf Hi. assert (Hn := ctl_list_nodup b i Hb). rewrite Hi in Hn.
  assert (Hs := fi_lists _ _ _ Hf i). rewrite Hi in Hs.
  assert (He : e ∉ ctl_list b' i) by (apply untimed_off_lists; apply Hf).
  apply sublist_all; [by apply list.NoDup_cons in Hn as [_ Hn] | by eapply sublist_skip_inv|].
  intros x Hx. assert (Hxi : x ∈ ctl_list b i) by (rewrite Hi; by right).
  assert (Hxe : x <> e) by (intros ->; by apply list.NoDup_cons in Hn as [Hn _]).
  destruct (on_list_waits b i x Hb Hxi) as (W1 & W2 & W3). apply waits_on_list; [apply Hf| |].
  - rewrite (shape_length b b' (fi_shape _ _ _ Hf)). apply lookup_lt_is_Some.
    unfold ctl_list in Hxi. destruct (_ !! i); [done|]. by apply not_elem_of_nil in Hxi.
  - split; [by rewrite (fired_flag b b' e Hf)|]. by rewrite (fi_timeouts _ _ _ Hf), (fired_common b b' e Hf).
Qed.

Lemma fired_lists_kept b b' e : fired b b' e -> user_event b e -> lists_kept b b'.
Proof.
  intros Hf Hu. split; [apply Hf | | | apply Hf].
  - intros i x _. apply Hf.
  - intros i te Hte. assert (Hne := Hu i te Hte). rewrite (fi_timeouts _ _ _ Hf).
    by rewrite !(fired_flag b b' e Hf), (fi_others _ _ _ Hf).
Qed.

(** What one run of the loop leaves: the events [fs] are active, in the order
    of the list, and no other event has changed. *)
Record list_fired (E : env) (b b' : event_base) (now : timeval) (i : nat) (fs : list evid) : Prop := {
  lf_inv : loop_inv b';
  lf_ready : loop_ready E b';
  lf_lists : common_lists b';
  lf_served : forall j, served b j -> served b' j;
  lf_split : ctl_list b i = fs ++ ctl_list b' i;
  lf_time : forall x, x ∈ fs -> time_le (deadline_of b x) now;
  lf_state : forall x, x ∈ fs -> flag b' x EVLIST_TIMEOUT = false /\
    flag b' x EVLIST_INSERTED = false /\ flag b' x EVLIST_ACTIVE = true /\
    ev_res (structs b' x) = EV_TIMEOUT;
  lf_others : forall x, x ∉ fs -> structs b' x = structs b x;
  lf_timeouts : forall x, timeout_of b' x = timeout_of b x;
  lf_shape : ctl_shape b' = ctl_shape b;
  lf_heap : a (timeheap b') = a (timeheap b) /\ (n (timeheap b') <= n (timeheap b))%nat;
  lf_cache : tv_cache b' = tv_cache b }.

Lemma list_fired_none E b now i :
  loop_inv b -> loop_ready E b -> common_lists b -> list_fired E b b now i [].
Proof.
  intros Hb Hr Hl. split; try done; intros x Hx; by apply not_elem_of_nil in Hx.
Qed.

Lemma list_fired_cons E b b1 b' now i e l fs :
  loop_inv b -> fired b b1 e -> ctl_list b i = e :: l -> user_event b e ->
  time_le (deadline_of b e) now -> list_fired E b1 b' now i fs ->
  list_fired E b b' now i (e :: fs).
Proof.
  intros Hb Hf Hi Hu Htime [L1 L2 L3 L4 L5 L6 L7 L8 L9 L10 L11 L12].
  assert (Hk := fired_lists_kept b b1 e Hf Hu).
  assert (He : e ∉ fs).
  { intros He. assert (Hin : e ∈ ctl_list b1 i) by (rewrite L5; apply elem_of_app; by left).
    revert Hin. apply untimed_off_lists; apply Hf. }
  split; try done.
  - intros j Hj. apply L4. by eapply served_shrink.
  - rewrite Hi. cbn. rewrite <- L5. by rewrite (fired_tail b b1 e i l).
  - intros x [->|Hx]%elem_of_cons; [done|].
    unfold deadline_of. rewrite <- (fi_timeouts _ _ _ Hf x). by apply L6.
  - intros x [->|Hx]%elem_of_cons; [|by apply L7]. unfold flag. rewrite (L8 e He). apply (fi_state _ _ _ Hf).
  - intros x [Hxe Hx]%not_elem_of_cons. rewrite (L8 x Hx). by apply (fi_others _ _ _ Hf).
  - intros x. by rewrite L9, (fi_timeouts _ _ _ Hf).
  - rewrite L10. apply Hf.
  - destruct (fi_heap _ _ _ Hf). destruct L11. split; [congruence | lia].
  - rewrite L12. apply Hf.
Qed.

Lemma common_callback_loop_ok E now i fuel : forall b,
  loop_inv b -> loop_ready E b -> common_lists b -> (i < length (common_timeout_queues b))%nat ->
  (length (ctl_list b i) < fuel)%nat ->
  exists b' fs, common_callback_loop E fuel now i b = Some (head (ctl_list b' i), b') /\
    list_fired E b b' now i fs /\
    (forall h, head (ctl_list b' i) = Some h -> timercmp_gt (deadline_of b' h) now = true).
Proof.
  induction fuel as [|fuel IH]; intros b Hb Hr Hl Hi Hfuel; [lia|]. cbn [common_callback_loop].
  destruct (lookup_lt_is_Some_2 _ _ Hi) as [c Hc]. rewrite Hc. cbn [mbind option_bind].
  assert (Hlist : ctl_list b i = ctl_events c) by (unfold ctl_list; by rewrite Hc).
  rewrite <- Hlist. destruct (ctl_list b i) as [|e l] eqn:Hel; cbn [head].
  - exists b, []. rewrite Hel. split; [done|]. split; [by apply list_fired_none | done].
  - change (mask_usec (timeout_of b e)) with (deadline_of b e).
    destruct (timercmp_gt (deadline_of b e) now) eqn:Hlate.
    { exists b, []. rewrite Hel. split; [done|]. split; [by apply list_fired_none|].
      by intros h [= <-]. }
    assert (He : e ∈ ctl_list b i) by (rewrite Hel; by left).
    destruct (on_list_waits b i e Hb He) as (Ht & _).
    destruct (fire_ok E b e Hb Hr Ht) as (b1 & b2 & E1 & E2 & Hf).
    rewrite E1. cbn [mbind option_bind]. rewrite E2. cbn [mbind option_bind].
    assert (Hu := waiting_user b i e Hb Hl He).
    assert (Htail := fired_tail b b2 e i l Hb Hf Hel).
    destruct (IH b2) as (b' & fs & Hrun & Hfs & Hend).
    { apply Hf. } { by apply (fired_ready E b b2 e). }
    { eapply common_lists_shrink; [by eapply fired_lists_kept | done]. }
    { by rewrite (shape_length b b2 (fi_shape _ _ _ Hf)). }
    { rewrite Htail. cbn in Hfuel. lia. }
    exists b', (e :: fs). split; [done|]. split; [|done].
    eapply list_fired_cons; try done. by apply timercmp_gt_false.
Qed.

(** What the callback leaves. *)
Record list_run (b b' : event_base) (now : timeval) (i : nat) (te : evid) (fs : list evid) : Prop := {
  lu_inv : loop_inv b';
  lu_common : common_inv b';
  lu_split : ctl_list b i = fs ++ ctl_list b' i;
  lu_time : forall x, x ∈ fs -> time_le (deadline_of b x) now;
  lu_left : forall x, x ∈ ctl_list b' i -> timercmp_gt (deadline_of b' x) now = true;
  lu_state : forall x, x ∈ fs -> flag b' x EVLIST_TIMEOUT = false /\
    flag b' x EVLIST_INSERTED = false /\ flag b' x EVLIST_ACTIVE = true /\
    ev_res (structs b' x) = EV_TIMEOUT;
  lu_others : forall x, x ∉ fs -> x <> te -> structs b' x = structs b x }.

Lemma later_than_head b i now :
  common_lists b -> (forall h, head (ctl_list b i) = Some h -> timercmp_gt (deadline_of b h) now = true) ->
  forall x, x ∈ ctl_list b i -> timercmp_gt (deadline_of b x) now = true.
Proof.
  intros Hl Hh x Hx. pose proof (cm_sorted _ Hl i) as Hs.
  destruct (ctl_list b i) as [|h l]; [by apply not_elem_of_nil in Hx|].
  specialize (Hh h eq_refl). apply elem_of_cons in Hx as [->|Hx]; [done|].
  apply StronglySorted_inv in Hs as [_ Hs]. rewrite list.Forall_forall in Hs. specialize (Hs x Hx).
  apply not_false_iff_true. intros Hf. apply timercmp_gt_false in Hf.
  assert (timercmp_gt (deadline_of b h) now = false); [|congruence].
  apply timercmp_gt_false. by etrans.
Qed.

Lemma common_timeout_callback_ok E b i te now :
  loop_inv b -> loop_ready E b -> common_lists b -> (forall j, j <> i -> served b j) ->
  list_timer b i te -> clock_reads E b now -> roomy (heap_realloc E) (timeheap b) ->
  exists b' fs, common_timeout_callback E b i = Some b' /\ list_run b b' now i te fs.
Proof.
  intros Hb Hr Hl Hs Hte [Hnow Hnn] Hroom. unfold common_timeout_callback.
  destruct (gettime_part E b) as (P1 & P2 & _ & _ & _ & _ & P3).
  destruct (gettime E b) as [nw b0] eqn:Hg. cbn [fst snd] in *. subst nw. cbn [mbind option_bind].
  assert (S0 : structs b0 = structs b /\ timers b0 = timers b /\ timeheap b0 = timeheap b /\
      activequeues b0 = activequeues b /\ common_timeout_queues b0 = common_timeout_queues b)
    by (unfold queue_part in P1; repeat split; congruence).
  destruct S0 as (S1 & S2 & S3 & S4 & S5).
  assert (Hb0 : loop_inv b0) by by apply (loop_inv_part b).
  assert (Hr0 : loop_ready E b0) by (destruct Hr as [R1 R2 R3 R4]; split; unfold flag; rewrite ?S1, ?S4; done).
  assert (Hk : lists_kept b b0).
  { split; [unfold ctl_shape; by rewrite S5 | | |].
    - intros j x _. unfold timeout_of. by rewrite S2.
    - intros j x _. unfold flag, timeout_of. by rewrite S1, S2.
    - intros j. by rewrite (same_lists b b0 S5). }
  assert (Hl0 := common_lists_shrink b b0 Hk Hl).
  destruct Hte as (c & Hc & Hcte). assert (Hc0 : common_timeout_queues b0 !! i = Some c) by (by rewrite S5).
  rewrite Hc0. cbn [mbind option_bind].
  assert (Hlist : ctl_list b0 i = ctl_events c) by (unfold ctl_list; by rewrite Hc0).
  destruct (common_callback_loop_ok E now i (S (length (ctl_events c))) b0)
    as (b1 & fs & Hrun & [L1 L2 L3 L4 L5 L6 L7 L8 L9 L10 L11 L12] & Hend); try done.
  { by eapply lookup_lt_Some. } { rewrite Hlist. lia. }
  rewrite Hrun. cbn [mbind option_bind].
  assert (Hsplit : ctl_list b i = fs ++ ctl_list b1 i) by (by rewrite <- (same_lists b b0 S5 i)).
  assert (Hleft := later_than_head b1 i now L3 Hend).
  assert (Hs1 : forall j, j <> i -> served b1 j).
  { intros j Hj. apply L4. eapply served_shrink; [exact Hk | by apply Hs]. }
  assert (Htime : forall x, x ∈ fs -> time_le (deadline_of b x) now).
  { intros x Hx. specialize (L6 x Hx). unfold deadline_of, timeout_of in *. by rewrite S2 in L6. }
  destruct (head (ctl_list b1 i)) as [h|] eqn:Hh.
  - assert (Hte1 : list_timer b1 i te) by (apply (list_timer_shape b0 b1); [done | by exists c]).
    destruct (schedule_timer_ok E 1 b1 i te h now) as (r & b2 & Hadd & I2 & F2 & C2 & V2 & O2 & Q2); try done.
    { split; [|done]. rewrite (gettime_untouched E b b1); [by rewrite Hg | congruence]. }
    { left. destruct L11 as [A N]. rewrite S3 in A, N.
      destruct Hroom as [Hroom|Hroom]; [left; lia | by right]. }
    unfold common_timeout_schedule. rewrite Hcte.
    change (mask_usec (timeout_of b1 h)) with (deadline_of b1 h).
    unfold event_add_internal. rewrite Hadd. cbn [mbind option_bind]. exists b2, fs. split; [done|].
    assert (Hnot : forall x, x ∈ ctl_list b i -> x <> te).
    { intros x Hx. apply not_eq_sym. apply (waiting_user b i x Hb Hl Hx i). by exists c. }
    assert (Hin : forall x, x ∈ fs -> x <> te).
    { intros x Hx. apply Hnot. rewrite Hsplit. apply elem_of_app. by left. }
    split; [done | | by rewrite Q2 | done | | |].
    + split; [done|]. intros j. destruct (decide (j = i)) as [->|Hj]; [done | by apply O2; [|apply Hs1]].
    + intros x. rewrite Q2. intros Hx.
      assert (Hxt : x <> te) by (apply Hnot; rewrite Hsplit; apply elem_of_app; by right).
      destruct (af_others _ _ _ F2 x Hxt) as [_ Ht]. unfold deadline_of. rewrite Ht. by apply Hleft.
    + intros x Hx. destruct (af_others _ _ _ F2 x (Hin x Hx)) as [Hst _]. unfold flag. rewrite Hst. by apply L7.
    + intros x Hx Hxt. destruct (af_others _ _ _ F2 x Hxt) as [Hst _]. rewrite Hst, (L8 x Hx). by rewrite S1.
  - exists b1, fs. split; [done|]. split; try done.
    + split; [done|]. intros j. destruct (decide (j = i)) as [->|Hj]; [|by apply Hs1].
      intros x y _ Hy. destruct (ctl_list b1 i); [by apply not_elem_of_nil in Hy | done].
    + intros x Hx _. by rewrite (L8 x Hx), S1.
Qed.

(** Taking any event off, the timers of the lists included. *)
Section DeletedLists.
Context (E : env) (b b' : event_base) (e : evid) (r : Z).
Hypothesis (Hb : loop_inv b) (Hrun : event_del_internal E b e = Some (r, b')) (Hd : deleted b b' e).

Lemma deleted_timer i x : list_timer b' i x <-> list_timer b i x.
Proof. apply list_timer_shape, Hd. Qed.

Lemma deleted_deadline x : deadline_of b' x = deadline_of b x.
Proof. unfold deadline_of. by rewrite (of_timeouts _ _ _ (de_only _ _ _ Hd)). Qed.

Lemma deleted_common_lists : common_lists b -> common_lists b'.
Proof.
  intros [H1 H2 H3 H4]. assert (Hsub := fun i => deleted_lists E b e r b' i Hrun). split.
  - intros i. eapply strongly_sorted_ext; [|eapply strongly_sorted_sublist; [apply Hsub | apply H1]].
    intros x y _ _. unfold sooner. by rewrite !deleted_deadline.
  - intros i x Hx. rewrite deleted_deadline. by apply (H2 i), (sublist_elem _ _ x (Hsub i)).
  - intros i x. rewrite deleted_timer. intros Hx. destruct (H3 i x Hx) as (G1 & G2 & G3).
    destruct (only_flags_fields e b b' x (de_only _ _ _ Hd)) as (-> & _ & _ & ->).
    split; [done|]. split; [done|].
    rewrite (of_timeouts _ _ _ (de_only _ _ _ Hd)), (only_flags_common e b b') by apply Hd.
    destruct (decide (x = e)) as [->|Hxe]; [by rewrite (de_timeout _ _ _ Hd)|].
    by rewrite (only_flags_ne e b b') by (apply Hd || done).
  - intros i j x. rewrite !deleted_timer. apply H4.
Qed.

Lemma deleted_served i : (forall te, list_timer b i te -> te <> e) -> served b i -> served b' i.
Proof.
  intros Hi Hs x y. rewrite deleted_timer, deleted_deadline. intros Hx Hy.
  apply (sublist_elem _ _ y (deleted_lists E b e r b' i Hrun)) in Hy.
  rewrite (of_timeouts _ _ _ (de_only _ _ _ Hd)).
  rewrite !(only_flags_ne e b b') by (apply Hd || by apply Hi). by apply Hs.
Qed.
End DeletedLists.

Lemma deleted_ready E b b' e : deleted b b' e -> loop_ready E b -> loop_ready E b'.
Proof.
  intros Hd [R1 R2 R3 R4]. split; [done..| |].
  - intros x. rewrite (of_structs _ _ _ (de_only _ _ _ Hd)). destruct (decide (x = e)); apply R3.
  - intros x. unfold zlen. rewrite (of_priorities _ _ _ (de_only _ _ _ Hd)).
    destruct (decide (x = e)) as [->|Hx]; [by rewrite (de_timeout _ _ _ Hd)|].
    rewrite (only_flags_ne e b b') by (apply Hd || done).
    rewrite (of_structs _ _ _ (de_only _ _ _ Hd)), decide_False by done. apply R4.
Qed.
