(* ===== verification/EventSample.v ===== *)
(** Bases on which nothing is added yet satisfy the invariants; concrete bases
    and events, on which the properties are applied. *)

From Stdlib Require Import Sorting.Sorted.
From S2P Require Import Prelude MinHeap EventData Evmap EventCore EventQueue EvmapSpec EventSpec EventAdd EventTimeout EventAddSpec EventProcess.

(** ** Fresh bases *)

Record fresh (b : event_base) : Prop := {
  fr_flags : forall e, Z.land (ev_flags (structs b e)) (Z.lnot (Z.lor EVLIST_INIT EVLIST_INTERNAL)) = 0;
  fr_heap : timeheap b = min_heap_ctor;
  fr_inserted : eventqueue b = [];
  fr_active : forall i q, activequeues b !! i = Some q -> q = [];
  fr_common : forall i c, common_timeout_queues b !! i = Some c -> ctl_events c = [];
  fr_maps : io b = [] /\ sigmap b = [] /\ backend_log b = [];
  fr_counts : event_count b = 0 /\ event_count_active b = 0;
  fr_timers : forall i te, list_timer b i te ->
    ev_events (structs b te) = 0 /\ ev_base (structs b te) = true;
  fr_apart : forall i j te, list_timer b i te -> list_timer b j te -> i = j }.

Lemma fresh_flag b e m :
  fresh b -> Z.land m (Z.lor EVLIST_INIT EVLIST_INTERNAL) = 0 -> flag b e m = false.
Proof.
  intros Hf Hm. unfold flag, has. apply negb_false_iff, Z.eqb_eq.
  pose proof (fr_flags _ Hf e) as He. apply Z.bits_inj'. intros i Hi. rewrite Z.land_spec, Z.bits_0.
  apply (f_equal (fun z => Z.testbit z i)) in He, Hm.
  rewrite Z.land_spec, Z.lnot_spec, Z.bits_0 in He by done. rewrite Z.land_spec, Z.bits_0 in Hm.
  by destruct (Z.testbit (ev_flags (structs b e)) i), (Z.testbit m i),
    (Z.testbit (Z.lor EVLIST_INIT EVLIST_INTERNAL) i).
Qed.

Lemma concat_nil {A} (ls : list (list A)) : (forall i q, ls !! i = Some q -> q = []) -> concat ls = [].
Proof.
  induction ls as [|q ls IH]; intros H; [done|]. cbn. rewrite (H 0%nat q eq_refl).
  apply IH. intros i. apply (H (S i)).
Qed.

Lemma lists_exactly_nil (P : evid -> Prop) : (forall x, ~ P x) -> lists_exactly [] P.
Proof.
  intros H. split; [constructor|]. intros x. split; [|by intros ?%H].
  intros Hx. by apply not_elem_of_nil in Hx.
Qed.

Lemma fresh_loop_inv b : fresh b -> loop_inv b.
Proof.
  intros Hf. destruct (Hf) as [H1 H2 H3 H4 H5 (H6 & H7 & H8) [H9 H10] _ _].
  assert (Ht : forall e, flag b e EVLIST_TIMEOUT = false) by (intros e; by apply fresh_flag).
  assert (Hi : forall e, flag b e EVLIST_INSERTED = false) by (intros e; by apply fresh_flag).
  assert (Ha : forall e, flag b e EVLIST_ACTIVE = false) by (intros e; by apply fresh_flag).
  assert (Hact : active_all b = []) by (by apply concat_nil).
  assert (Hcom : common_all b = []).
  { apply concat_nil. intros i q. rewrite list_lookup_fmap.
    destruct (common_timeout_queues b !! i) as [c|] eqn:Hc; [|done]. intros [= <-]. by apply (H5 i). }
  split; [split| |].
  - rewrite H2. by split; cbn; try lia.
  - intros e. rewrite H2, Ht. split; [|by intros [? _]]. intros (i & Hlt & _). cbn in Hlt. lia.
  - intros i c Hc. rewrite (H5 i c Hc). apply lists_exactly_nil. intros x (Hx & _). by rewrite Ht in Hx.
  - rewrite H3. apply lists_exactly_nil. intros x. by rewrite Hi.
  - intros i q Hq. rewrite (H4 i q Hq). apply lists_exactly_nil. intros x [Hx _]. by rewrite Ha in Hx.
  - intros e. by rewrite Ha.
  - intros e. by rewrite Ht.
  - intros e. by apply fresh_flag.
  - by rewrite Hact, H10.
  - unfold counted. by rewrite Hact, Hcom, H2, H3, H9.
  - assert (Hio : forall fd, io_entry b fd = evmap_io_init).
    { intros fd. unfold io_entry, get_slot. rewrite H6. by destruct (_ <? 0). }
    assert (Hsig : forall sig, signal_entry b sig = []).
    { intros sig. unfold signal_entry, get_slot. rewrite H7. by destruct (_ <? 0). }
    split; intros fd Hfd; rewrite ?Hio, ?Hsig, ?H8; try done.
    + split; [|done..|done]. apply lists_exactly_nil. intros x [Hx _]. by rewrite Hi in Hx.
    + apply lists_exactly_nil. intros x [Hx _]. by rewrite Hi in Hx.
  - intros e. by rewrite Hi.
Qed.

Lemma fresh_common_inv b : fresh b -> common_inv b.
Proof.
  intros Hf. assert (Hnil : forall i, ctl_list b i = []).
  { intros i. unfold ctl_list. destruct (common_timeout_queues b !! i) as [c|] eqn:Hc; [|done].
    by apply (fr_common _ Hf i c). }
  split; [split|].
  - intros i. rewrite Hnil. constructor.
  - intros i x. rewrite Hnil. intros Hx. by apply not_elem_of_nil in Hx.
  - intros i te Hte. destruct (fr_timers _ Hf i te Hte) as [Hev Hbase]. split; [done|]. split; [done|].
    by rewrite (fresh_flag b te EVLIST_TIMEOUT).
  - apply Hf.
  - intros i te x _. rewrite Hnil. intros Hx. by apply not_elem_of_nil in Hx.
Qed.

(** ** A base with three priorities and one common timeout *)

(** An event that is set up: 1 and 2 wait for descriptor 5, 3 is a signal, 100
    is the event of the common timeout list, and every other is a timer. *)
Definition sample_event (e : evid) : event :=
  let event fd events pri closure flags :=
    {| ev_fd := fd; ev_base := true; ev_ncalls := 0; ev_pncalls := None;
       ev_io_timeout := evutil_timerclear; ev_events := events; ev_res := 0;
       ev_flags := flags; ev_pri := pri; ev_closure := closure; ev_callback := 1; ev_arg := e |} in
  if decide (e = 1%nat) then event 5 EV_READ 1 EV_CLOSURE_NONE EVLIST_INIT else
  if decide (e = 2%nat)
  then event 5 (Z.lor EV_WRITE EV_PERSIST) 0 EV_CLOSURE_PERSIST EVLIST_INIT else
  if decide (e = 3%nat)
  then event 10 (Z.lor EV_SIGNAL EV_PERSIST) 1 EV_CLOSURE_SIGNAL EVLIST_INIT else
  if decide (e = 100%nat) then event (-1) 0 0 EV_CLOSURE_NONE (Z.lor EVLIST_INIT EVLIST_INTERNAL)
  else event (-1) 0 1 EV_CLOSURE_NONE EVLIST_INIT.

(** Five seconds, marked as the common timeout of list 0. *)
Definition sample_common : timeval := {| tv_sec := 5; tv_usec := COMMON_TIMEOUT_MAGIC |}.

Definition sample_now : timeval := {| tv_sec := 1000; tv_usec := 500000 |}.

Definition sample_base : event_base :=
  {| structs := sample_event;
     timers := fun _ => {| ev_timeout := evutil_timerclear; min_heap_idx := -1 |};
     virtual_event_count := 0; event_count := 0; event_count_active := 0;
     event_gotterm := false; event_break := false; event_continue := false;
     event_running_priority := -1; running_loop := false;
     activequeues := [[]; []; []];
     common_timeout_queues := [{| ctl_events := []; ctl_duration := sample_common;
                                  ctl_timeout_event := 100 |}];
     n_common_timeouts_allocated := 16;
     defer_queue := {| active_count := 0; deferred_cb_list := []; cb_queued := fun _ => false |};
     io := []; sigmap := []; eventqueue := []; event_tv := sample_now;
     timeheap := min_heap_ctor; tv_cache := sample_now; tv_clock_diff := evutil_timerclear;
     last_updated_clock_diff := 0; current_event := None; current_event_waiters := 0;
     no_cache_time := false; is_notify_pending := false; th_notify_fn := false; wakeups := 0;
     signal_closure := None; closures_run := 0; backend_log := [] |}.

(** Everything asked of the environment is granted. *)
Definition sample_env : env :=
  {| heap_realloc := fun _ => true; map_realloc := fun _ => true; map_calloc := true;
     have_clock_gettime := true; use_monotonic := true;
     clock_monotonic := Some (1000, 500000000); gettimeofday := Some sample_now;
     in_thread := true; debug_mode := false; ev_address := fun e => 64 * Z.of_nat e;
     backend_ok := fun _ _ => true |}.

Lemma sample_event_flags e :
  ev_flags (sample_event e) = EVLIST_INIT \/
  e = 100%nat /\ ev_flags (sample_event e) = Z.lor EVLIST_INIT EVLIST_INTERNAL.
Proof.
  unfold sample_event. repeat (case_decide; [subst; cbn; auto|]). by left.
Qed.

Lemma sample_timer i te : list_timer sample_base i te -> i = 0%nat /\ te = 100%nat.
Proof. intros (c & Hc & <-). destruct i as [|[|i]]; [by injection Hc as <-|done..]. Qed.

Lemma sample_fresh : fresh sample_base.
Proof.
  split; try done.
  - intros e. change (structs sample_base) with sample_event.
    by destruct (sample_event_flags e) as [-> | [_ ->]].
  - intros i q. destruct i as [|[|[|i]]]; cbn; intros Hq; by inversion Hq.
  - intros i c. destruct i as [|[|i]]; cbn; intros Hc; by inversion Hc.
  - intros i te [_ ->]%sample_timer. done.
  - intros i j te [-> _]%sample_timer [-> _]%sample_timer. done.
Qed.

Lemma sample_generous : generous sample_env.
Proof. by split. Qed.

Lemma sample_clock b : tv_cache b = sample_now -> clock_reads sample_env b sample_now.
Proof.
  intros Hc. split; [|done]. unfold gettime. by rewrite Hc.
Qed.

Lemma sample_user e : e <> 100%nat -> user_event sample_base e.
Proof. by intros He i te [_ ->]%sample_timer. Qed.

Lemma sample_addable E b e :
  in_thread E = true -> structs b e = sample_event e -> addable E b e.
Proof.
  intros HE Hs. split.
  - intros _. by apply must_wait_thread.
  - intros _ _ f. rewrite Hs. unfold sample_event. by repeat case_decide.
  - rewrite Hs. unfold small_fd, sample_event. by repeat case_decide.
  - unfold waits_for_io, io_kind. rewrite Hs. unfold sample_event.
    repeat case_decide; intros Hw _; (vm_compute in Hw; discriminate Hw) || (by vm_compute).
Qed.

Lemma sample_common_proper : proper_timeout sample_base sample_common.
Proof. right. split; [done|]. split; [done|]. split; by vm_compute. Qed.

Lemma sample_room e : fd_has_room sample_base e.
Proof.
  assert (Hio : forall fd, io_entry sample_base fd = evmap_io_init).
  { intros fd. unfold io_entry, get_slot. by destruct (fd <? 0). }
  unfold fd_has_room. rewrite Hio. split; exact (eq_refl : (0 ?= 65535) = Lt).
Qed.

(** The base after an event was added. *)
Definition after_add (b : event_base) (e : evid) (tv : option timeval) : event_base :=
  match event_add sample_env b e tv with Some (_, b') => b' | None => b end.

Definition after_del (b : event_base) (e : evid) : event_base :=
  match event_del sample_env b e with Some (_, b') => b' | None => b end.

Lemma sample_list_timer b i te :
  ctl_shape b = ctl_shape sample_base -> list_timer b i te -> i = 0%nat /\ te = 100%nat.
Proof. intros Hs Hte. apply sample_timer. by apply (list_timer_shape sample_base b). Qed.

(** Whatever the result, an addition keeps the invariants. *)
Lemma after_add_inv b e tv :
  loop_inv b /\ common_inv b -> ctl_shape b = ctl_shape sample_base -> e <> 100%nat ->
  structs b e = sample_event e -> flag b e EVLIST_TIMEOUT = false -> tv_cache b = sample_now ->
  (forall u, tv = Some u -> proper_timeout b u) ->
  loop_inv (after_add b e tv) /\ common_inv (after_add b e tv).
Proof.
  intros [Hb Hci] Hsh He Hs Hf Hc Htv. unfold after_add.
  destruct (event_add_ok sample_env b e tv sample_now) as (r & b' & -> & H2 & _); try done.
  - intros i te Hte. by destruct (sample_list_timer b i te Hsh Hte) as [_ ->].
  - by apply sample_addable.
  - rewrite Hs. unfold sample_event. by repeat case_decide.
  - intros u Hu. split; [by apply Htv | by apply sample_clock|]. unfold room_kept. by rewrite Hf.
  - destruct H2 as [[_ H2]|[_ H2]]; split; apply H2.
Qed.
