(* ===== verification/EventProps.v ===== *)
(** The properties of the event core and the maps, each applied to a concrete
    base. *)

From S2P Require Import Prelude MinHeap EventData Evmap EventCore EventLoop EventQueue EvmapSpec EventSpec EventAdd EventTimeout EventAddSpec EventProcess EventSample.

(** ** Adding *)


Lemma sample_timeable e tv :
  proper_timeout sample_base tv -> timeable sample_env sample_base e tv sample_now.
Proof.
  intros Htv. split; [done | by apply sample_clock|].
  intros Hf. by rewrite (fresh_flag sample_base e EVLIST_TIMEOUT sample_fresh) in Hf.
Qed.


(** A sample base with one event added. *)
Lemma after_add_ok e tv :
  e <> 100%nat -> (forall u, tv = Some u -> proper_timeout sample_base u) ->
  let b := after_add sample_base e tv in
  event_added sample_base b e (target sample_base false sample_now tv).
Proof.
  intros He Htv. unfold after_add.
  destruct (event_add_ok sample_env sample_base e tv sample_now) as (r & b' & -> & H2 & H3).
  - apply fresh_loop_inv, sample_fresh.
  - apply fresh_common_inv, sample_fresh.
  - by apply sample_user.
  - by apply sample_addable.
  - change (structs sample_base) with sample_event. unfold sample_event. by repeat case_decide.
  - intros u Hu. by apply sample_timeable, Htv.
  - destruct H2 as [[-> H2]|[-> _]]; [done|]. exfalso. by specialize (H3 sample_generous (sample_room e) (fun _ => eq_refl)).
Qed.

(** ** Deleting *)

(** C6: [event_del] of an event of the base always returns and the event is on
    no queue, in no list and not on the heap; no other event changes, and the
    common timeout lists stay consistent.  With 0 the maps no longer hold the
    event and every invariant is kept; with -1, when the backend refuses, the
    maps still hold an event that is not added any more. *)
Theorem event_del_spec E b e :
  loop_inv b -> common_inv b -> user_event b e -> deletable E b e ->
  exists r b', event_del E b e = Some (r, b') /\ deleted b b' e /\ common_inv b' /\
    (r = 0 /\ loop_inv b' \/ r = -1 /\ inserted b e /\ map_ok b' (inserted b)) /\
    (generous E -> r = 0).
Proof.
  intros Hb Hci Hu Hdel. unfold event_del. rewrite (dl_base _ _ _ Hdel). cbn [negb].
  destruct (event_del_internal_ok E b e Hb Hdel) as (r & b' & Hrun & Hd & Hres & Hg).
  exists r, b'. split; [done|]. split; [done|]. split; [by eapply deleted_common | done].
Qed.

Lemma event_del_witness :
  let b := after_add sample_base 1 (Some sample_common) in
  event_del sample_env b 1 = Some (0, after_del b 1) /\ deleted b (after_del b 1) 1 /\
  loop_inv (after_del b 1) /\
  registered (backend_log b) 5 = EV_READ /\ registered (backend_log (after_del b 1)) 5 = 0.
Proof.
  intros b. assert (Ha : event_added sample_base b 1 (target sample_base false sample_now (Some sample_common))).
  { apply after_add_ok; [done|]. intros u [= <-]. apply sample_common_proper. }
  destruct (event_del_spec sample_env b 1) as (r & b' & H1 & H2 & H3 & H4 & H5).
  - apply Ha.
  - apply Ha.
  - intros i te Hte. apply sample_list_timer in Hte as [_ ->]; [done | vm_compute; reflexivity].
  - split; [vm_compute; reflexivity | by apply must_wait_thread |].
    intros Hs. exfalso. vm_compute in Hs. discriminate Hs.
  - rewrite (H5 sample_generous) in H1, H4.
    assert (Hb' : after_del b 1 = b') by (unfold after_del; by rewrite H1).
    rewrite Hb'. split; [exact H1|]. split; [exact H2|].
    split; [destruct H4 as [[_ H4]|[He _]]; [exact H4 | discriminate He]|].
    rewrite <- Hb'. split; vm_compute; reflexivity.
Defined.

(** ** Activating *)

Lemma event_active_ok E b e res ncalls :
  loop_inv b -> ev_base (structs b e) = true ->
  0 <= ev_pri (structs b e) < zlen (activequeues b) ->
  (has (ev_events (structs b e)) EV_SIGNAL = true -> must_wait E b e = false) ->
  exists b', event_active E b e res ncalls = Some b' /\ activated b b' e res.
Proof.
  intros Hb Hbase Hpri Hw. unfold event_active. rewrite Hbase. cbn [negb].
  by apply event_active_nolock_ok.
Qed.

(** [event_active] of an event that is set up puts it at the end of the
    queue of its priority with the result given, or, when it is active already,
    adds the result to the one it has; it interrupts the run of a lower
    priority, touches no other event and keeps the invariant. *)
Theorem event_active_spec E b e res ncalls :
  loop_inv b -> ev_base (structs b e) = true ->
  0 <= ev_pri (structs b e) < zlen (activequeues b) ->
  (has (ev_events (structs b e)) EV_SIGNAL = true -> must_wait E b e = false) ->
  exists b', event_active E b e res ncalls = Some b' /\ activated b b' e res.
Proof. apply event_active_ok. Qed.

Definition after_active (b : event_base) (e : evid) (res ncalls : Z) : event_base :=
  default b (event_active sample_env b e res ncalls).

Lemma event_active_witness :
  let b := after_active sample_base 1 EV_READ 1 in
  event_active sample_env sample_base 1 EV_READ 1 = Some b /\ loop_inv b /\
  activequeues b = [[]; [1%nat]; []] /\
  event_count_active (after_active b 1 EV_TIMEOUT 1) = 1.
Proof.
  destruct (event_active_spec sample_env sample_base 1 EV_READ 1) as (b' & H1 & H2).
  - apply fresh_loop_inv, sample_fresh.
  - reflexivity.
  - vm_compute. split; [discriminate | reflexivity].
  - intros _. by apply must_wait_thread.
  - assert (Hb' : after_active sample_base 1 EV_READ 1 = b') by (unfold after_active; by rewrite H1).
    cbv zeta. rewrite Hb'. split; [exact H1|]. split; [apply H2|]. rewrite <- Hb'.
    split; vm_compute; reflexivity.
Defined.

(** ** The maps and the backend *)

(** C7: the maps of descriptors and signals refine the set [I] of the events
    that were added: adding and deleting an event returns, changes [I] by that
    event when the result is 0 or 1 and leaves it alone when it is -1, and always
    the backend has been told exactly the union of what the events of a
    descriptor wait for. *)
Theorem evmap_refines_interest E b I e :
  let fd := ev_fd (structs b e) in
  map_ok b I -> small_fd fd -> (io_kind b e \/ 0 <= fd) ->
  (~ I e -> exists r b', (if has (ev_events (structs b e)) (Z.lor EV_READ EV_WRITE)
       then evmap_io_add E b fd e else evmap_signal_add E b fd e) = Some (r, b') /\
     map_result b b' I (insert_event I e) r) /\
  (I e -> exists r b', (if has (ev_events (structs b e)) (Z.lor EV_READ EV_WRITE)
       then evmap_io_del E b fd e else evmap_signal_del E b fd e) = Some (r, b') /\
     map_result b b' I (remove_event I e) r /\ (generous E -> r <> -1)).
Proof.
  intros fd Hok Hsm Hslot. destruct (has _ _) eqn:Hk.
  - split; intros HI.
    + destruct (evmap_io_add_ok E b I e Hok HI Hk Hsm) as (r & b' & H1 & H2 & _). eauto.
    + by apply evmap_io_del_ok.
  - assert (Hnk : ~ io_kind b e) by (unfold io_kind; congruence).
    assert (Hfd : 0 <= fd) by (by destruct Hslot).
    split; intros HI.
    + destruct (evmap_signal_add_ok E b I e Hok HI Hnk Hfd Hsm) as (r & b' & H1 & H2 & _). eauto.
    + by apply evmap_signal_del_ok.
Qed.

Lemma evmap_refines_interest_witness :
  exists r b', evmap_io_add sample_env sample_base 5 1 = Some (r, b') /\
    map_result sample_base b' (inserted sample_base) (insert_event (inserted sample_base) 1) r /\
    registered (backend_log b') 5 = EV_READ.
Proof.
  destruct (evmap_refines_interest sample_env sample_base (inserted sample_base) 1) as [H _].
  - apply (fresh_loop_inv _ sample_fresh).
  - reflexivity.
  - left. reflexivity.
  - destruct H as (r & b' & H1 & H2).
    { unfold inserted. rewrite (fresh_flag sample_base 1 EVLIST_INSERTED sample_fresh); [discriminate | reflexivity]. }
    exists r, b'. split; [exact H1|]. split; [exact H2|].
    assert (Hb' : b' = default sample_base (snd <$> evmap_io_add sample_env sample_base 5 1)).
    { change (if has _ _ then _ else _) with (evmap_io_add sample_env sample_base 5 1) in H1.
      by rewrite H1. }
    rewrite Hb'. vm_compute. reflexivity.
Defined.

(** ** Elapsed timeouts *)

(** C8: [timeout_process] terminates.  The events of the heap whose deadline is
    not after the time read are exactly those it takes off every queue and makes
    active with [EV_TIMEOUT], in the order of their deadlines and behind the
    events that are active already; all other events are as before, and no event
    of the heap is late any more. *)
Theorem timeout_process_spec E b now :
  loop_inv b -> loop_ready E b -> clock_reads E b now ->
  exists b', timeout_process E b = Some b' /\ processed E b b' now.
Proof. apply timeout_process_ok. Qed.

(** The sample base when more time has passed. *)
Definition at_time (t : timeval) (b : event_base) : event_base := b <| tv_cache := t |>.

Lemma at_time_loop_inv t b : loop_inv b -> loop_inv (at_time t b).
Proof. by apply loop_inv_part. Qed.

Lemma at_time_lists t b : common_inv b -> common_lists (at_time t b).
Proof. intros [[H1 H2 H3 H4] _]. by split. Qed.

Lemma sample_ready e tv t :
  let b := at_time t (after_add sample_base e tv) in
  event_added sample_base (after_add sample_base e tv) e (target sample_base false sample_now tv) ->
  ev_pncalls (structs b e) = None -> ev_pncalls (structs b 100%nat) = None ->
  ev_base (structs b e) = true -> 0 <= ev_pri (structs b e) < zlen (activequeues b) ->
  ev_base (structs b 100%nat) = true -> 0 <= ev_pri (structs b 100%nat) < zlen (activequeues b) ->
  loop_ready sample_env b.
Proof.
  intros b Ha P1 P2 B1 R1 B2 R2.
  assert (Ho : forall x, x <> e -> x <> 100%nat -> structs b x = sample_event x).
  { intros x Hx Hx'. apply (ea_others _ _ _ _ Ha x Hx). by intros i [_ ->]%sample_timer. }
  split; [reflexivity | apply sample_generous | |].
  - intros x. destruct (decide (x = e)) as [->|Hx]; [exact P1|].
    destruct (decide (x = 100%nat)) as [->|Hx']; [exact P2|]. rewrite Ho by done.
    unfold sample_event. by repeat case_decide.
  - intros x. destruct (decide (x = e)) as [->|Hx]; [by split|].
    destruct (decide (x = 100%nat)) as [->|Hx']; [by split|]. unfold flag. rewrite Ho by done.
    intros Hf. exfalso. revert Hf. change (has (ev_flags (sample_event x)) EVLIST_TIMEOUT = true -> False).
    by destruct (sample_event_flags x) as [-> | [_ ->]].
Qed.

Lemma timeout_process_witness :
  let tv := {| tv_sec := 1; tv_usec := 250000 |} in
  let b := at_time {| tv_sec := 1002; tv_usec := 0 |} (after_add sample_base 4 (Some tv)) in
  exists b', timeout_process sample_env b = Some b' /\ loop_inv b' /\
    flag b' 4 EVLIST_ACTIVE = true /\ flag b' 4 EVLIST_TIMEOUT = false.
Proof.
  intros tv b. assert (Ha := after_add_ok 4 (Some tv) ltac:(discriminate)).
  assert (Htv : proper_timeout sample_base tv) by (left; vm_compute; split; [discriminate | reflexivity]).
  specialize (Ha ltac:(by intros u [= <-])). cbv zeta in Ha.
  destruct (timeout_process_spec sample_env b {| tv_sec := 1002; tv_usec := 0 |}) as (b' & H1 & H2).
  - apply at_time_loop_inv, Ha.
  - apply sample_ready; [exact Ha | vm_compute; reflexivity ..| | |]; vm_compute;
      (reflexivity || (split; [discriminate | reflexivity])).
  - split; [vm_compute; reflexivity|]. vm_compute. split; [discriminate | reflexivity].
  - exists b'. split; [exact H1|]. split; [apply H2|].
    assert (He : elapsed b {| tv_sec := 1002; tv_usec := 0 |} 4 = true) by (vm_compute; reflexivity).
    destruct (pr_elapsed _ _ _ _ H2 4 He) as (H3 & H4 & H5 & _). split; [exact H5 | exact H3].
Defined.

(** C24: the callback of a common timeout list terminates and serves the list:
    the events of the list whose deadline has come, and no others, become active,
    in the order of the list; those that are left are later than the time read;
    and the event of the list waits again, for the first of them at the latest. *)
Theorem common_timeout_callback_spec E b i te now :
  loop_inv b -> loop_ready E b -> common_lists b -> (forall j, j <> i -> served b j) ->
  list_timer b i te -> clock_reads E b now -> roomy (heap_realloc E) (timeheap b) ->
  exists b' fs, common_timeout_callback E b i = Some b' /\ list_run b b' now i te fs.
Proof. apply common_timeout_callback_ok. Qed.

(** Event 1 waits on the list, and its timer has just been taken off to run. *)
Definition timer_runs : event_base :=
  let b := at_time {| tv_sec := 1010; tv_usec := 0 |} (after_add sample_base 1 (Some sample_common)) in
  match event_del_internal sample_env b 100 with Some (_, b') => b' | None => b end.

Lemma timer_runs_ok :
  loop_inv timer_runs /\ common_lists timer_runs /\ ctl_shape timer_runs = ctl_shape sample_base /\
  loop_ready sample_env timer_runs.
Proof.
  set (b0 := after_add sample_base 1 (Some sample_common)).
  set (b := at_time {| tv_sec := 1010; tv_usec := 0 |} b0).
  assert (Ha := after_add_ok 1 (Some sample_common) ltac:(discriminate)).
  specialize (Ha ltac:(intros u [= <-]; apply sample_common_proper)). cbv zeta in Ha. fold b0 in Ha.
  assert (Hb : loop_inv b) by (apply at_time_loop_inv, Ha).
  assert (Hl : common_lists b) by (apply at_time_lists, Ha).
  assert (Hr : loop_ready sample_env b).
  { apply sample_ready; [exact Ha | vm_compute; reflexivity ..| | |]; vm_compute;
      (reflexivity || (split; [discriminate | reflexivity])). }
  destruct (event_del_internal_ok sample_env b 100 Hb) as (r & b' & Hrun & Hd & Hres & Hg).
  { split; [vm_compute; reflexivity | by apply must_wait_thread|]. intros Hs. exfalso. vm_compute in Hs. discriminate Hs. }
  assert (Heq : timer_runs = b') by (unfold timer_runs; fold b0; fold b; by rewrite Hrun).
  rewrite Heq. rewrite (Hg sample_generous) in Hres. split; [destruct Hres as [[_ Hres]|[He _]]; [exact Hres | discriminate He]|].
  split; [by eapply deleted_common_lists|]. split.
  { rewrite (of_shape _ _ _ (de_only _ _ _ Hd)). vm_compute. reflexivity. }
  by eapply deleted_ready.
Qed.

Lemma common_timeout_callback_witness :
  exists b' fs, common_timeout_callback sample_env timer_runs 0 = Some b' /\
    list_run timer_runs b' {| tv_sec := 1010; tv_usec := 0 |} 0 100 fs /\
    ctl_list timer_runs 0 = [1%nat] /\ ctl_list b' 0 = [].
Proof.
  destruct timer_runs_ok as (H1 & H2 & H3 & H4).
  destruct (common_timeout_callback_spec sample_env timer_runs 0 100 {| tv_sec := 1010; tv_usec := 0 |})
    as (b' & fs & Hrun & Hl).
  - exact H1.
  - exact H4.
  - exact H2.
  - intros j Hj te x Hte. destruct (sample_list_timer _ _ _ H3 Hte) as [-> _]. destruct (Hj eq_refl).
  - apply (list_timer_shape sample_base timer_runs); [exact H3|]. eexists. split; reflexivity.
  - split; [vm_compute; reflexivity|]. vm_compute. split; [discriminate | reflexivity].
  - right. reflexivity.
  - exists b', fs. split; [exact Hrun|]. split; [exact Hl|]. split; [vm_compute; reflexivity|].
    assert (Hb' : b' = default timer_runs (common_timeout_callback sample_env timer_runs 0))
      by (rewrite Hrun; reflexivity).
    rewrite Hb'. vm_compute. reflexivity.
Defined.

(** ** Asking *)

Lemma has_land f g k : 0 <= k -> has (Z.land f g) (2 ^ k) = has f (2 ^ k) && has g (2 ^ k).
Proof. intros Hk. by rewrite !has_bit, Z.land_spec by done. Qed.

Lemma has_if (c : bool) x m : has (if c then x else 0) m = c && has x m.
Proof. destruct c; [done|]. unfold has. by rewrite Z.land_0_l. Qed.

Definition on_timeout (b : event_base) (e : evid) : Prop :=
  in_heap (timeheap b) e \/ exists i, e ∈ ctl_list b i.

Lemma timeout_flag_iff b e : queue_inv b -> flag b e EVLIST_TIMEOUT = true <-> on_timeout b e.
Proof.
  intros Hq. unfold on_timeout. split.
  - intros Hf. destruct (is_common_timeout (timeout_of b e) b) eqn:Hc.
    + right. exists (common_idx (timeout_of b e)). apply waits_on_list; [done| |by split].
      destruct (common_in_range _ _ Hc) as [c Hl]. by eapply lookup_lt_Some.
    + left. by apply (qi_timed _ Hq).
  - intros [Hh|[i Hi]]; [by apply (qi_timed _ Hq) in Hh as [? _]|].
    by apply (on_list_waits b i e Hq) in Hi as [? _].
Qed.

Lemma active_flag_iff b e : queue_inv b -> flag b e EVLIST_ACTIVE = true <-> e ∈ active_all b.
Proof.
  intros Hq. unfold active_all. rewrite elem_of_concat. split.
  - intros Hf. pose proof (qi_pri _ Hq e Hf) as Hp. unfold zlen in Hp.
    destruct (lookup_lt_is_Some_2 (activequeues b) (Z.to_nat (ev_pri (structs b e)))) as [q Hi]; [lia|].
    exists (Z.to_nat (ev_pri (structs b e))), q. split; [done|].
    apply (qi_active _ Hq _ q Hi). split; [done | lia].
  - intros (i & q & Hi & He). by apply (qi_active _ Hq i q Hi) in He as [? _].
Qed.



(** the deadline that [event_pending] reports after [event_add] with a
    timeout is the time of the call plus that timeout, shown on the wall clock. *)
Theorem event_add_pending_roundtrip E b e tv now r b' :
  loop_inv b -> common_inv b -> user_event b e -> addable E b e ->
  ev_base (structs b e) = true -> timeable E b e tv now ->
  event_add E b e (Some tv) = Some (r, b') -> r = 0 ->
  let t := evutil_timeradd now (mask_usec tv) in
  event_pending E b' e EV_TIMEOUT true =
    (EV_TIMEOUT, Some (if have_clock_gettime E then evutil_timeradd (tv_clock_diff b') t else t)).
Proof.
  intros Hb Hci Hu Had Hbase Htv Hrun -> t.
  destruct (event_add_ok E b e (Some tv) now Hb Hci Hu Had Hbase) as (r & b'' & Hrun' & Hres & _);
    [by intros u [= <-]|].
  rewrite Hrun in Hrun'. injection Hrun' as <- <-. destruct Hres as [[_ Ha]|[? _]]; [|done].
  destruct (ea_timeout _ _ _ _ Ha) as [Hf Ht]. destruct (ea_event _ _ _ _ Ha) as (_ & _ & _ & Hba).
  destruct Htv as [Hp [_ Hn] _].
  unfold event_pending. rewrite Hba, Hbase, Hf, Ht. cbn [negb].
  assert (Hmask : mask_usec (due b now tv false) = t).
  { unfold due, t. destruct Hp as [Hp|(Hc & _ & Hp)].
    - assert (Hu' := normal_unmarked tv Hp). rewrite unmarked_not_common, (mask_low tv) by done.
      apply mask_low. by apply normal_unmarked, timeradd_normal.
    - rewrite Hc. apply mask_remark. by apply normal_unmarked, timeradd_normal. }
  rewrite Hmask. change (Z.land EV_TIMEOUT _) with (2 ^ 0).
  assert (Hl : forall f, Z.land (Z.lor f EV_TIMEOUT) (2 ^ 0) = EV_TIMEOUT).
  { intros f. rewrite Z.land_lor_distr_l. change (Z.land EV_TIMEOUT (2 ^ 0)) with EV_TIMEOUT.
    change (2 ^ 0) with (Z.ones 1). rewrite Z.land_ones by lia.
    pose proof (Z.mod_pos_bound f (2 ^ 1)). change EV_TIMEOUT with 1.
    assert (f mod 2 ^ 1 = 0 \/ f mod 2 ^ 1 = 1) as [-> | ->] by lia; done. }
  rewrite Hl. done.
Qed.

Lemma event_add_pending_witness :
  let tv := {| tv_sec := 2; tv_usec := 600000 |} in
  event_pending sample_env (after_add sample_base 1 (Some tv)) 1 EV_TIMEOUT true =
    (EV_TIMEOUT, Some {| tv_sec := 1003; tv_usec := 100000 |}).
Proof.
  intros tv. assert (Htv : proper_timeout sample_base tv) by (left; vm_compute; split; [discriminate | reflexivity]).
  destruct (event_add_ok sample_env sample_base 1 (Some tv) sample_now) as (r & b' & H1 & H2 & H3).
  - apply fresh_loop_inv, sample_fresh.
  - apply fresh_common_inv, sample_fresh.
  - by apply sample_user.
  - by apply sample_addable.
  - reflexivity.
  - intros u [= <-]. by apply sample_timeable.
  - assert (Hr : r = 0) by (apply H3; [apply sample_generous | apply sample_room | reflexivity]).
    assert (Hb' : after_add sample_base 1 (Some tv) = b') by (unfold after_add; rewrite H1; reflexivity).
    rewrite Hb'. rewrite (event_add_pending_roundtrip sample_env sample_base 1 tv sample_now r b').
    + rewrite <- Hb'. vm_compute. reflexivity.
    + apply fresh_loop_inv, sample_fresh.
    + apply fresh_common_inv, sample_fresh.
    + by apply sample_user.
    + by apply sample_addable.
    + reflexivity.
    + by apply sample_timeable.
    + exact H1.
    + exact Hr.
Defined.

(** ** The clock *)

(** With a monotonic clock every call of [gettime] without a cached time
    measures the difference to the wall clock anew, as long as that clock does
    not stand more than a second behind the last measurement: an interval of -1
    does not turn the measurement off. *)
Theorem gettime_always_syncs E b sec nsec wall :
  tv_sec (tv_cache b) = 0 -> have_clock_gettime E = true -> use_monotonic E = true ->
  clock_monotonic E = Some (sec, nsec) -> gettimeofday E = Some wall ->
  last_updated_clock_diff b <= sec ->
  let now := {| tv_sec := sec; tv_usec := nsec / 1000 |} in
  gettime E b = (Some now, b <| tv_clock_diff := evutil_timersub wall now |>
                             <| last_updated_clock_diff := sec |>).
Proof.
  intros Hc Hh Hm Hclk Hw Hle now. unfold gettime. rewrite Hc, Hh, Hm, Hclk, Hw. cbn [negb Z.eqb andb].
  unfold CLOCK_SYNC_INTERVAL. by rewrite (proj2 (Z.ltb_lt _ _)) by lia.
Qed.

Lemma gettime_always_syncs_witness :
  last_updated_clock_diff (gettime sample_env (at_time evutil_timerclear sample_base)).2 = 1000.
Proof.
  rewrite (gettime_always_syncs sample_env (at_time evutil_timerclear sample_base) 1000 500000000 sample_now);
    try reflexivity. vm_compute. discriminate.
Defined.

(** ** A timeout that is lost *)

(** The allocator gives nothing more. *)
Definition exhausted_env : env :=
  {| heap_realloc := fun _ => false; map_realloc := fun _ => true; map_calloc := true;
     have_clock_gettime := true; use_monotonic := true;
     clock_monotonic := Some (1000, 500000000); gettimeofday := Some sample_now;
     in_thread := true; debug_mode := false; ev_address := fun e => 64 * Z.of_nat e;
     backend_ok := fun _ _ => true |}.

(** Event 4 waits on the common list; its timer and seven others fill the heap. *)
Definition full_base : event_base :=
  foldl (fun b e => after_add b e (Some {| tv_sec := 30; tv_usec := 0 |}))
    (after_add sample_base 4 (Some sample_common)) (seq 10 7).

Lemma full_base_inv : loop_inv full_base /\ common_inv full_base.
Proof.
  unfold full_base. cbn [foldl seq].
  assert (Htv : forall b u, Some {| tv_sec := 30; tv_usec := 0 |} = Some u -> proper_timeout b u).
  { intros b u [= <-]. left. vm_compute. split; [discriminate | reflexivity]. }
  do 7 (apply after_add_inv; [|vm_compute; reflexivity|discriminate|vm_compute; reflexivity ..|apply Htv]).
  apply after_add_inv; [|reflexivity|discriminate|reflexivity..|].
  - split; [apply fresh_loop_inv, sample_fresh | apply fresh_common_inv, sample_fresh].
  - intros u [= <-]. apply sample_common_proper.
Qed.

(** When an event that waits on a common list is added again with a timeout
    of its own and the full heap cannot grow, [event_add] returns 0 and marks the
    event as waiting, but it is neither on the heap nor on any list: the result
    of [min_heap_push] is not looked at, and no slot was reserved. *)
Theorem event_add_loses_timeout :
  loop_inv full_base /\ common_inv full_base /\
  exists b', event_add exhausted_env full_base 4 (Some {| tv_sec := 1; tv_usec := 0 |}) = Some (0, b') /\
    flag b' 4 EVLIST_TIMEOUT = true /\ ~ on_timeout b' 4.
Proof.
  destruct full_base_inv as [Hb Hci]. split; [exact Hb|]. split; [exact Hci|].
  set (run := event_add exhausted_env full_base 4 (Some {| tv_sec := 1; tv_usec := 0 |})).
  assert (Hr : fst <$> run = Some 0) by (vm_compute; reflexivity).
  assert (Hf : (fun rb => flag rb.2 4 EVLIST_TIMEOUT) <$> run = Some true) by (vm_compute; reflexivity).
  assert (Hn : (fun rb => n (timeheap rb.2)) <$> run = Some 8%nat) by (vm_compute; reflexivity).
  assert (Hp : (fun rb => p (timeheap rb.2)) <$> run =
    Some [Some 100; Some 10; Some 11; Some 12; Some 13; Some 14; Some 15; Some 16]%nat)
    by (vm_compute; reflexivity).
  assert (Hq : (fun rb => ctl_events <$> common_timeout_queues rb.2) <$> run = Some [[]])
    by (vm_compute; reflexivity).
  destruct run as [[r b']|]; [|discriminate Hr]. injection Hr as ->. injection Hf as Hf.
  injection Hn as Hn. injection Hp as Hp. injection Hq as Hq.
  exists b'. split; [reflexivity|]. split; [exact Hf|]. intros [(i & Hi & Hs)|[i Hi]].
  - unfold slot in Hs. rewrite Hp in Hs. rewrite Hn in Hi.
    do 8 (destruct i as [|i]; [discriminate Hs|]). lia.
  - unfold ctl_list in Hi. destruct (common_timeout_queues b' !! i) as [c|] eqn:Hc.
    + assert (Hc' : (ctl_events <$> common_timeout_queues b') !! i = Some (ctl_events c))
        by (by rewrite list_lookup_fmap, Hc).
      rewrite Hq in Hc'. destruct i; [|discriminate Hc']. injection Hc' as Hc'. cbn in Hi. rewrite <- Hc' in Hi.
      by apply not_elem_of_nil in Hi.
    + by apply not_elem_of_nil in Hi.
Qed.

(** ** A pointer that dangles *)

(** A callback that deletes the event it was given as its argument. *)
Definition delete_me : callbacks := fun _ _ _ arg b => snd <$> event_del sample_env b arg.

(** Signal event 3 was raised twice and is active. *)
Definition signalled : event_base := after_active (after_add sample_base 3 None) 3 EV_SIGNAL 2.

Lemma signalled_inv : loop_inv signalled.
Proof.
  assert (Ha := after_add_ok 3 None ltac:(discriminate) ltac:(discriminate)). cbv zeta in Ha.
  destruct (event_active_ok sample_env (after_add sample_base 3 None) 3 EV_SIGNAL 2) as (b' & Hrun & H2).
  - apply Ha.
  - vm_compute. reflexivity.
  - vm_compute. split; [discriminate | reflexivity].
  - intros _. by apply must_wait_thread.
  - unfold signalled, after_active. rewrite Hrun. apply H2.
Qed.

(** When the callback of a signal event that was raised more than once
    deletes its own event, the run ends, but [ev_ncalls] and [ev_pncalls] stay
    set: the next [event_del] of the event (by [event_free], say) writes through
    a pointer to a variable of a function that has returned. *)
Theorem signal_delete_dangles :
  loop_inv signalled /\
  exists b', event_process_active_single_queue sample_env delete_me 5 signalled 1 = Some (1, b') /\
    ev_ncalls (structs b' 3%nat) = 1 /\ ev_pncalls (structs b' 3%nat) <> None /\
    signal_closure b' = None /\ event_del sample_env b' 3 = None.
Proof.
  split; [exact signalled_inv|].
  set (run := event_process_active_single_queue sample_env delete_me 5 signalled 1).
  assert (Hr : fst <$> run = Some 1) by (vm_compute; reflexivity).
  assert (H1 : (fun rb => ev_ncalls (structs rb.2 3%nat)) <$> run = Some 1) by (vm_compute; reflexivity).
  assert (H2 : (fun rb => ev_pncalls (structs rb.2 3%nat)) <$> run = Some (Some 0%nat)) by (vm_compute; reflexivity).
  assert (H3 : (fun rb => signal_closure rb.2) <$> run = Some None) by (vm_compute; reflexivity).
  assert (H4 : (fun rb => fst <$> event_del sample_env rb.2 3) <$> run = Some None) by (vm_compute; reflexivity).
  destruct run as [[r b']|]; [|discriminate Hr]. injection Hr as ->. injection H1 as H1.
  injection H2 as H2. injection H3 as H3. injection H4 as H4.
  exists b'. split; [reflexivity|]. split; [exact H1|]. split; [rewrite H2; discriminate|].
  split; [exact H3|]. destruct (event_del sample_env b' 3); [discriminate H4 | reflexivity].
Qed.
