(* ===== verification/Cstring.v ===== *)
(** Characters and C strings: the character classes, case tables and string
    helpers of [evutil.c] and [strlcpy.c], and the functions of the C library
    that the HTTP and address code calls ([strchr], [strsep], [strtol], [atoi],
    [sscanf] with [%d], [printf] of numbers).

    A [char] is the value of its byte.  A string is the list of the characters
    before its terminator, a pointer into a string the rest of the list from
    there; reading at the end of the list gives the terminator. *)

From S2P Require Import Prelude EvChain.

(** Character constants. *)
Notation "'ch' x" := (ltac:(let v := eval vm_compute in (List.hd 0 (bytes_of x)) in exact v))
  (at level 10, x at level 9, only parsing).

(** [s[i]]. *)
Definition at_ (s : list Z) (i : nat) : Z := default 0 (s !! i).

(** A string has bytes other than the terminator. *)
Definition is_char (c : Z) : Prop := 0 < c < 256.
Definition cstring (s : list Z) : Prop := Forall is_char s.

(** ** Character classes *)

Definition EVUTIL_ISALPHA_TABLE : list Z := [0; 0; 0x7fffffe; 0x7fffffe; 0; 0; 0; 0].
Definition EVUTIL_ISALNUM_TABLE : list Z := [0; 0x3ff0000; 0x7fffffe; 0x7fffffe; 0; 0; 0; 0].
Definition EVUTIL_ISSPACE_TABLE : list Z := [0x3e00; 0x1; 0; 0; 0; 0; 0; 0].
Definition EVUTIL_ISXDIGIT_TABLE : list Z := [0; 0x3ff0000; 0x7e; 0x7e; 0; 0; 0; 0].
Definition EVUTIL_ISDIGIT_TABLE : list Z := [0; 0x3ff0000; 0; 0; 0; 0; 0; 0].
Definition EVUTIL_ISPRINT_TABLE : list Z := [0; 0xffffffff; 0xffffffff; 0x7fffffff; 0; 0; 0; 0].
Definition EVUTIL_ISUPPER_TABLE : list Z := [0; 0; 0x7fffffe; 0; 0; 0; 0; 0].
Definition EVUTIL_ISLOWER_TABLE : list Z := [0; 0; 0; 0x7fffffe; 0; 0; 0; 0].

Definition EVUTIL_TOUPPER_TABLE : list Z :=
  [0; 1; 2; 3; 4; 5; 6; 7; 8; 9; 10; 11; 12; 13; 14; 15;
   16; 17; 18; 19; 20; 21; 22; 23; 24; 25; 26; 27; 28; 29; 30; 31;
   32; 33; 34; 35; 36; 37; 38; 39; 40; 41; 42; 43; 44; 45; 46; 47;
   48; 49; 50; 51; 52; 53; 54; 55; 56; 57; 58; 59; 60; 61; 62; 63;
   64; 65; 66; 67; 68; 69; 70; 71; 72; 73; 74; 75; 76; 77; 78; 79;
   80; 81; 82; 83; 84; 85; 86; 87; 88; 89; 90; 91; 92; 93; 94; 95;
   96; 65; 66; 67; 68; 69; 70; 71; 72; 73; 74; 75; 76; 77; 78; 79;
   80; 81; 82; 83; 84; 85; 86; 87; 88; 89; 90; 123; 124; 125; 126; 127;
   128; 129; 130; 131; 132; 133; 134; 135; 136; 137; 138; 139; 140; 141; 142; 143;
   144; 145; 146; 147; 148; 149; 150; 151; 152; 153; 154; 155; 156; 157; 158; 159;
   160; 161; 162; 163; 164; 165; 166; 167; 168; 169; 170; 171; 172; 173; 174; 175;
   176; 177; 178; 179; 180; 181; 182; 183; 184; 185; 186; 187; 188; 189; 190; 191;
   192; 193; 194; 195; 196; 197; 198; 199; 200; 201; 202; 203; 204; 205; 206; 207;
   208; 209; 210; 211; 212; 213; 214; 215; 216; 217; 218; 219; 220; 221; 222; 223;
   224; 225; 226; 227; 228; 229; 230; 231; 232; 233; 234; 235; 236; 237; 238; 239;
   240; 241; 242; 243; 244; 245; 246; 247; 248; 249; 250; 251; 252; 253; 254; 255].

Definition EVUTIL_TOLOWER_TABLE : list Z :=
  [0; 1; 2; 3; 4; 5; 6; 7; 8; 9; 10; 11; 12; 13; 14; 15;
   16; 17; 18; 19; 20; 21; 22; 23; 24; 25; 26; 27; 28; 29; 30; 31;
   32; 33; 34; 35; 36; 37; 38; 39; 40; 41; 42; 43; 44; 45; 46; 47;
   48; 49; 50; 51; 52; 53; 54; 55; 56; 57; 58; 59; 60; 61; 62; 63;
   64; 97; 98; 99; 100; 101; 102; 103; 104; 105; 106; 107; 108; 109; 110; 111;
   112; 113; 114; 115; 116; 117; 118; 119; 120; 121; 122; 91; 92; 93; 94; 95;
   96; 97; 98; 99; 100; 101; 102; 103; 104; 105; 106; 107; 108; 109; 110; 111;
   112; 113; 114; 115; 116; 117; 118; 119; 120; 121; 122; 123; 124; 125; 126; 127;
   128; 129; 130; 131; 132; 133; 134; 135; 136; 137; 138; 139; 140; 141; 142; 143;
   144; 145; 146; 147; 148; 149; 150; 151; 152; 153; 154; 155; 156; 157; 158; 159;
   160; 161; 162; 163; 164; 165; 166; 167; 168; 169; 170; 171; 172; 173; 174; 175;
   176; 177; 178; 179; 180; 181; 182; 183; 184; 185; 186; 187; 188; 189; 190; 191;
   192; 193; 194; 195; 196; 197; 198; 199; 200; 201; 202; 203; 204; 205; 206; 207;
   208; 209; 210; 211; 212; 213; 214; 215; 216; 217; 218; 219; 220; 221; 222; 223;
   224; 225; 226; 227; 228; 229; 230; 231; 232; 233; 234; 235; 236; 237; 238; 239;
   240; 241; 242; 243; 244; 245; 246; 247; 248; 249; 250; 251; 252; 253; 254; 255].

(** The functions that [IMPL_CTYPE_FN] defines. *)
Definition IMPL_CTYPE_FN (table : list Z) (c : Z) : bool :=
  let u := wrap 8 c in
  negb (Z.land (at_ table (Z.to_nat (Z.land (Z.shiftr u 5) 7))) (Z.shiftl 1 (Z.land u 31)) =? 0).

Definition EVUTIL_ISALPHA : Z -> bool := IMPL_CTYPE_FN EVUTIL_ISALPHA_TABLE.
Definition EVUTIL_ISALNUM : Z -> bool := IMPL_CTYPE_FN EVUTIL_ISALNUM_TABLE.
Definition EVUTIL_ISSPACE : Z -> bool := IMPL_CTYPE_FN EVUTIL_ISSPACE_TABLE.
Definition EVUTIL_ISDIGIT : Z -> bool := IMPL_CTYPE_FN EVUTIL_ISDIGIT_TABLE.
Definition EVUTIL_ISXDIGIT : Z -> bool := IMPL_CTYPE_FN EVUTIL_ISXDIGIT_TABLE.
Definition EVUTIL_ISPRINT : Z -> bool := IMPL_CTYPE_FN EVUTIL_ISPRINT_TABLE.
Definition EVUTIL_ISLOWER : Z -> bool := IMPL_CTYPE_FN EVUTIL_ISLOWER_TABLE.
Definition EVUTIL_ISUPPER : Z -> bool := IMPL_CTYPE_FN EVUTIL_ISUPPER_TABLE.

Definition EVUTIL_TOLOWER (c : Z) : Z := at_ EVUTIL_TOLOWER_TABLE (Z.to_nat (wrap 8 c)).
Definition EVUTIL_TOUPPER (c : Z) : Z := at_ EVUTIL_TOUPPER_TABLE (Z.to_nat (wrap 8 c)).

(** ** Comparison without case *)

(** The characters are compared as [char], which is signed. *)
Fixpoint evutil_ascii_strcasecmp (s1 s2 : list Z) : Z :=
  let c1 := swrap 8 (EVUTIL_TOLOWER (at_ s1 0)) in
  let c2 := swrap 8 (EVUTIL_TOLOWER (at_ s2 0)) in
  if c1 <? c2 then -1 else if c2 <? c1 then 1 else if c1 =? 0 then 0 else
  match s1 with
  | [] => 0
  | _ :: s1' => evutil_ascii_strcasecmp s1' (tail s2)
  end.

Fixpoint evutil_ascii_strncasecmp (s1 s2 : list Z) (n : nat) : Z :=
  match n with
  | O => 0
  | S n' =>
    let c1 := swrap 8 (EVUTIL_TOLOWER (at_ s1 0)) in
    let c2 := swrap 8 (EVUTIL_TOLOWER (at_ s2 0)) in
    if c1 <? c2 then -1 else if c2 <? c1 then 1 else if c1 =? 0 then 0 else
    evutil_ascii_strncasecmp (tail s1) (tail s2) n'
  end.

Definition evutil_hex_char_to_int (c : Z) : Z :=
  if c =? ch "0" then 0 else if c =? ch "1" then 1 else if c =? ch "2" then 2
  else if c =? ch "3" then 3 else if c =? ch "4" then 4 else if c =? ch "5" then 5
  else if c =? ch "6" then 6 else if c =? ch "7" then 7 else if c =? ch "8" then 8
  else if c =? ch "9" then 9
  else if (c =? ch "A") || (c =? ch "a") then 10
  else if (c =? ch "B") || (c =? ch "b") then 11
  else if (c =? ch "C") || (c =? ch "c") then 12
  else if (c =? ch "D") || (c =? ch "d") then 13
  else if (c =? ch "E") || (c =? ch "e") then 14
  else if (c =? ch "F") || (c =? ch "f") then 15
  else -1.

(** [_event_strlcpy]: the length of the source, and the characters stored in a
    destination of [siz] bytes before the terminator, if there is room for one. *)
Fixpoint strlcpy_loop (n : nat) (s : list Z) : list Z :=
  match n, s with
  | S n', c :: s' => c :: strlcpy_loop n' s'
  | _, _ => []
  end.

Definition _event_strlcpy (src : list Z) (siz : nat) : Z * option (list Z) :=
  (zlen src, match siz with O => None | S n => Some (strlcpy_loop n src) end).

(** ** The C library *)

(** [strchr] for a character other than the terminator: the text before the
    character found, and the string from there. *)
Fixpoint strchr (s : list Z) (c : Z) : option (list Z * list Z) :=
  match s with
  | [] => None
  | x :: s' => if x =? c then Some ([], s) else '(l, r) ← strchr s' c; Some (x :: l, r)
  end.

(** [strchr] on a set of characters, as a test; it also finds the terminator. *)
Definition strchr_set (set : list Z) (c : Z) : bool := (c =? 0) || existsb (Z.eqb c) set.

(** [strsep] with a single delimiter: the token, and what the pointer is left
    with. *)
Definition strsep (s : list Z) (del : Z) : list Z * option (list Z) :=
  match strchr s del with
  | Some (tok, _ :: r) => (tok, Some r)
  | _ => (s, None)
  end.

(** The longest prefix of characters that satisfy [P], and the rest. *)
Fixpoint span (P : Z -> bool) (s : list Z) : list Z * list Z :=
  match s with
  | c :: s' => if P c then let '(l, r) := span P s' in (c :: l, r) else ([], s)
  | [] => ([], [])
  end.

(** [isspace] of the C locale. *)
Definition isspace (c : Z) : bool := (c =? 32) || ((9 <=? c) && (c <=? 13)).

Definition is_digit_of (base : Z) (c : Z) : bool :=
  (0 <=? evutil_hex_char_to_int c) && (evutil_hex_char_to_int c <? base).

(** The value of a string of digits. *)
Definition digits_value (base : Z) (ds : list Z) : Z :=
  fold_left (fun n c => n * base + evutil_hex_char_to_int c) ds 0.

(** An optional sign. *)
Definition scan_sign (s : list Z) : bool * list Z :=
  match s with
  | c :: s' => if c =? ch "-" then (true, s') else if c =? ch "+" then (false, s') else (false, s)
  | [] => (false, [])
  end.

Definition signed (neg : bool) (z : Z) : Z := if neg then - z else z.

(** [strtol] and its relatives for a result of [bits] bits and base 10 or 16:
    the value, cut to the range of the type, and the end pointer. *)
Definition strtol (bits base : Z) (s : list Z) : Z * list Z :=
  let '(neg, s1) := scan_sign (snd (span isspace s)) in
  let s2 := if (base =? 16) && (at_ s1 0 =? ch "0") && ((at_ s1 1 =? ch "x") || (at_ s1 1 =? ch "X"))
                 && is_digit_of 16 (at_ s1 2) then drop 2 s1 else s1 in
  let '(ds, r) := span (is_digit_of base) s2 in
  match ds with
  | [] => (0, s)
  | _ => (Z.max (- 2 ^ (bits - 1)) (Z.min (2 ^ (bits - 1) - 1) (signed neg (digits_value base ds))), r)
  end.

(** [atoi] has no defined behaviour for a number that is no [int]. *)
Definition atoi (s : list Z) : option Z :=
  let '(neg, s1) := scan_sign (snd (span isspace s)) in
  let v := signed neg (digits_value 10 (fst (span (is_digit_of 10) s1))) in
  if (- INT_MAX - 1 <=? v) && (v <=? INT_MAX) then Some v else None.

(** The conversion [%d] of [sscanf]: [Some None] when nothing matches, else the
    number and the input left; a number that is no [int] is undefined. *)
Definition scan_d (s : list Z) : option (option (Z * list Z)) :=
  let '(neg, s1) := scan_sign (snd (span isspace s)) in
  let '(ds, r) := span (is_digit_of 10) s1 in
  match ds with
  | [] => Some None
  | _ => let v := signed neg (digits_value 10 ds) in
         if (- INT_MAX - 1 <=? v) && (v <=? INT_MAX) then Some (Some (v, r)) else None
  end.

(** [%u] and [%x] of [printf]. *)
Definition digit_char (d : Z) : Z := if d <? 10 then ch "0" + d else ch "a" + (d - 10).

Fixpoint print_loop (fuel : nat) (base n : Z) (acc : list Z) : list Z :=
  let acc := digit_char (n mod base) :: acc in
  match fuel with
  | O => acc
  | S fuel' => if n <? base then acc else print_loop fuel' base (n / base) acc
  end.

(** The binary length bounds the number of digits. *)
Definition print_num (base n : Z) : list Z := print_loop (Z.to_nat (Z.log2 n)) base n [].

Definition print_d (z : Z) : list Z := if z <? 0 then ch "-" :: print_num 10 (- z) else print_num 10 z.

(** [%02X] of a byte. *)
Definition hex_upper (d : Z) : Z := if d <? 10 then ch "0" + d else ch "A" + (d - 10).
Definition print_02X (b : Z) : list Z := [hex_upper (Z.shiftr b 4); hex_upper (Z.land b 15)].

(** [mm_strdup] of a string. *)
Definition mm_strdup {M : Allocator} (s : list Z) : option (list Z) :=
  match mm_malloc (zlen s + 1) with Some _ => Some s | None => None end.

(** ** Lemmas *)

Lemma at_cons_0 c s : at_ (c :: s) 0 = c.
Proof. done. Qed.

Lemma at_cons_S c s i : at_ (c :: s) (S i) = at_ s i.
Proof. done. Qed.

Lemma at_app_l l r i : (i < length l)%nat -> at_ (l ++ r) i = at_ l i.
Proof. intros. unfold at_. by rewrite lookup_app_l. Qed.

Lemma at_char s i : cstring s -> 0 <= at_ s i < 256.
Proof.
  intros H. unfold at_. destruct (s !! i) eqn:E; cbn; [|lia].
  apply (Forall_lookup_1 _ _ _ _ H) in E. unfold is_char in E. lia.
Qed.

(** What holds of all bytes can be checked one by one. *)
Lemma byte_cases (P : Z -> bool) c :
  forallb (fun i => P (Z.of_nat i)) (seq 0 256) = true -> 0 <= c < 256 -> P c = true.
Proof. intros H Hc. by apply (forall_below 256 P H). Qed.

Ltac by_bytes c H :=
  apply (proj1 (eqb_true_iff _ _));
  lazymatch goal with |- ?G = true =>
    let P := eval pattern c in G in
    lazymatch P with ?Q _ =>
      let X := fresh in
      assert (X : forallb (fun i => Q (Z.of_nat i)) (seq 0 256) = true) by (vm_compute; reflexivity);
      exact (byte_cases Q c X H) end
  end.

Lemma isdigit_spec c : 0 <= c < 256 -> EVUTIL_ISDIGIT c = ((ch "0" <=? c) && (c <=? ch "9")).
Proof. intros H. by_bytes c H. Qed.

Lemma isalpha_spec c : 0 <= c < 256 ->
  EVUTIL_ISALPHA c = ((ch "A" <=? c) && (c <=? ch "Z")) || ((ch "a" <=? c) && (c <=? ch "z")).
Proof. intros H. by_bytes c H. Qed.

Lemma isalnum_spec c : 0 <= c < 256 -> EVUTIL_ISALNUM c = EVUTIL_ISALPHA c || EVUTIL_ISDIGIT c.
Proof. intros H. by_bytes c H. Qed.

Lemma isxdigit_digit c : 0 <= c < 256 -> EVUTIL_ISXDIGIT c = is_digit_of 16 c.
Proof. intros H. by_bytes c H. Qed.

Lemma isdigit_digit c : 0 <= c < 256 -> EVUTIL_ISDIGIT c = is_digit_of 10 c.
Proof. intros H. by_bytes c H. Qed.

Lemma isspace_spec c : 0 <= c < 256 -> EVUTIL_ISSPACE c = isspace c.
Proof. intros H. by_bytes c H. Qed.

(** Lower case changes the upper-case letters only, and no two other
    characters come together. *)
Lemma tolower_spec c : 0 <= c < 256 ->
  EVUTIL_TOLOWER c = if (ch "A" <=? c) && (c <=? ch "Z") then c + 32 else c.
Proof.
  intros H. apply Z.eqb_eq. revert c H.
  apply (forall_below 256 (fun c => EVUTIL_TOLOWER c =? if (ch "A" <=? c) && (c <=? ch "Z") then c + 32 else c)).
  by vm_compute.
Qed.

Lemma tolower_range c : 0 <= c < 256 -> 0 <= EVUTIL_TOLOWER c < 256.
Proof. intros. rewrite tolower_spec by done. destruct (_ && _) eqn:E; bool_to_prop; lia. Qed.

Lemma tolower_0 c : 0 <= c < 256 -> EVUTIL_TOLOWER c = 0 -> c = 0.
Proof. intros H. rewrite tolower_spec by done. destruct (_ && _) eqn:E; bool_to_prop; lia. Qed.

Lemma swrap_byte_inj x y : 0 <= x < 256 -> 0 <= y < 256 -> swrap 8 x = swrap 8 y -> x = y.
Proof.
  intros Hx Hy. unfold swrap. change (2 ^ 8) with 256. change (2 ^ (8 - 1)) with 128. intros H.
  assert (E : (x + 128) mod 256 = (y + 128) mod 256) by lia.
  pose proof (Z.div_mod (x + 128) 256 ltac:(lia)). pose proof (Z.div_mod (y + 128) 256 ltac:(lia)).
  assert (0 <= (x + 128) / 256 <= 1 /\ 0 <= (y + 128) / 256 <= 1).
  { split; split; try (apply Z.div_pos; lia); apply Z.lt_succ_r, Z.div_lt_upper_bound; lia. }
  lia.
Qed.

(** Two strings are equal without case when their lower-case forms are. *)
Lemma strcasecmp_eq s1 : forall s2, cstring s1 -> cstring s2 ->
  evutil_ascii_strcasecmp s1 s2 = 0 <-> map EVUTIL_TOLOWER s1 = map EVUTIL_TOLOWER s2.
Proof.
  assert (Hz : swrap 8 (EVUTIL_TOLOWER 0) = 0) by (by vm_compute).
  induction s1 as [|c1 s1 IH]; intros s2 H1 H2; cbn [evutil_ascii_strcasecmp].
  - change (at_ [] 0) with 0. rewrite Hz. destruct s2 as [|c2 s2]; [by vm_compute|].
    apply Forall_cons_split in H2 as [Hc _]. unfold is_char in Hc. rewrite at_cons_0.
    pose proof (tolower_0 c2 ltac:(lia)). pose proof (tolower_range c2 ltac:(lia)).
    assert (swrap 8 (EVUTIL_TOLOWER c2) <> 0).
    { intros E. apply (swrap_byte_inj (EVUTIL_TOLOWER c2) 0) in E; lia. }
    split; [|done]. destruct (Z.ltb_spec 0 (swrap 8 (EVUTIL_TOLOWER c2))); [done|].
    destruct (Z.ltb_spec (swrap 8 (EVUTIL_TOLOWER c2)) 0); [done | lia].
  - apply Forall_cons_split in H1 as [Hc1 H1]. unfold is_char in Hc1. rewrite at_cons_0.
    pose proof (tolower_0 c1 ltac:(lia)) as Hn1. pose proof (tolower_range c1 ltac:(lia)) as Hr1.
    assert (Hnz : swrap 8 (EVUTIL_TOLOWER c1) <> 0).
    { intros E. apply (swrap_byte_inj (EVUTIL_TOLOWER c1) 0) in E; lia. }
    assert (H0 : 0 <= at_ s2 0 < 256) by by apply at_char.
    pose proof (tolower_range _ H0) as Hr2.
    destruct (Z.ltb_spec (swrap 8 (EVUTIL_TOLOWER c1)) (swrap 8 (EVUTIL_TOLOWER (at_ s2 0)))) as [Hl|Hl];
      [|destruct (Z.ltb_spec (swrap 8 (EVUTIL_TOLOWER (at_ s2 0))) (swrap 8 (EVUTIL_TOLOWER c1))) as [Hg|Hg]].
    1, 2: split; [done|]; destruct s2 as [|c2 s2]; [done|]; cbn [map]; intros [= E _];
      rewrite at_cons_0, E in *; lia.
    destruct (Z.eqb_spec (swrap 8 (EVUTIL_TOLOWER c1)) 0); [done|].
    assert (E : EVUTIL_TOLOWER c1 = EVUTIL_TOLOWER (at_ s2 0)) by (apply swrap_byte_inj; lia).
    destruct s2 as [|c2 s2]; [change (EVUTIL_TOLOWER (at_ [] 0)) with 0 in E; lia|].
    apply Forall_cons_split in H2 as [Hc2 H2]. cbn [map tail]. rewrite at_cons_0 in E. rewrite E.
    rewrite (IH s2 H1 H2). split; [by intros -> | by intros [= ->]].
Qed.

(** ** Splitting strings *)

Lemma span_eq P s : fst (span P s) ++ snd (span P s) = s.
Proof.
  induction s as [|c s IH]; cbn [span]; [done|]. destruct (P c); [|done].
  destruct (span P s). cbn in *. by rewrite IH.
Qed.

Lemma span_all P s : Forall (fun c => P c = true) (fst (span P s)).
Proof.
  induction s as [|c s IH]; cbn [span]; [constructor|]. destruct (P c) eqn:E; [|constructor].
  destruct (span P s). cbn in *. by constructor.
Qed.

Lemma span_stop P s : at_ (snd (span P s)) 0 = 0 /\ snd (span P s) = [] \/
  P (at_ (snd (span P s)) 0) = false.
Proof.
  induction s as [|c s IH]; cbn [span]; [by left|]. destruct (P c) eqn:E; [|by right].
  destruct (span P s). exact IH.
Qed.

Lemma span_app P l r :
  Forall (fun c => P c = true) l -> (r = [] \/ P (at_ r 0) = false) -> span P (l ++ r) = (l, r).
Proof.
  intros Hl Hr. induction Hl as [|c l Hc Hl IH]; cbn [app span].
  - destruct r as [|c r]; [done|]. destruct Hr as [|Hr]; [done|]. rewrite at_cons_0 in Hr. cbn [span].
    by rewrite Hr.
  - by rewrite Hc, IH.
Qed.

Lemma strchr_Some s c l r :
  strchr s c = Some (l, r) <-> exists r', r = c :: r' /\ s = l ++ r /\ c ∉ l.
Proof.
  revert l r. induction s as [|x s IH]; intros l r; cbn [strchr].
  - split; [done|]. intros (r' & -> & H & _). by destruct l.
  - destruct (Z.eqb_spec x c) as [->|Hne].
    + split.
      * intros [= <- <-]. exists s. split; [done|]. split; [done | apply not_elem_of_nil].
      * intros (r' & -> & H & Hn). destruct l as [|y l]; [by injection H as ->|].
        injection H as <- _. exfalso. apply Hn. by left.
    + split.
      * intros H. destruct (strchr s c) as [[l' r'']|] eqn:E; [|done]. cbn in H. injection H as <- <-.
        destruct (proj1 (IH l' r'') eq_refl) as (r' & -> & -> & Hn). exists r'. split; [done|]. split; [done|].
        apply not_elem_of_cons. done.
      * intros (r' & -> & H & Hn). destruct l as [|y l]; [by injection H as ->|].
        injection H as <- ->. apply not_elem_of_cons in Hn as [_ Hn].
        by rewrite (proj2 (IH l (c :: r'))) by by exists r'.
Qed.

Lemma strchr_None s c : strchr s c = None <-> c ∉ s.
Proof.
  induction s as [|x s IH]; cbn [strchr].
  - split; [intros _; apply not_elem_of_nil | done].
  - rewrite not_elem_of_cons. destruct (Z.eqb_spec x c) as [->|Hne]; [by split; [|intros []]|].
    destruct (strchr s c) as [[l r]|]; cbn; rewrite <- IH; split; try done. by intros [_ H].
Qed.

Lemma strchr_found l c r : c ∉ l -> strchr (l ++ c :: r) c = Some (l, c :: r).
Proof. intros. apply strchr_Some. by exists r. Qed.

Lemma strsep_found l c r : c ∉ l -> strsep (l ++ c :: r) c = (l, Some r).
Proof. intros. unfold strsep. by rewrite strchr_found. Qed.

Lemma strsep_none s c : c ∉ s -> strsep s c = (s, None).
Proof. intros H. unfold strsep. by apply strchr_None in H as ->. Qed.

(** ** Numbers *)

Lemma hex_range c : -1 <= evutil_hex_char_to_int c < 16.
Proof. unfold evutil_hex_char_to_int. repeat (case_match; [lia|]). lia. Qed.

Lemma digits_value_snoc base ds c :
  digits_value base (ds ++ [c]) = digits_value base ds * base + evutil_hex_char_to_int c.
Proof. unfold digits_value. by rewrite fold_left_app. Qed.

Lemma digits_value_nonneg base ds :
  0 <= base -> Forall (fun c => is_digit_of base c = true) ds -> 0 <= digits_value base ds.
Proof.
  intros Hb. induction ds as [|c ds IH] using rev_ind; [done|]. intros H.
  apply Forall_app_split in H as [H Hc]. apply Forall_cons_split in Hc as [Hc _].
  rewrite digits_value_snoc. unfold is_digit_of in Hc. bool_to_prop. specialize (IH H). nia.
Qed.

Lemma digit_char_value d : 0 <= d < 16 -> evutil_hex_char_to_int (digit_char d) = d.
Proof.
  intros H. apply Z.eqb_eq. revert d H.
  by apply (forall_below 16 (fun d => evutil_hex_char_to_int (digit_char d) =? d)).
Qed.

Lemma digit_char_ok base d : 0 <= d < base -> base <= 16 -> is_digit_of base (digit_char d) = true.
Proof. intros. unfold is_digit_of. rewrite digit_char_value by lia. lia. Qed.

(** A printed number reads back, and consists of digits. *)
Lemma print_loop_spec base fuel : 2 <= base <= 16 -> forall n acc,
  0 <= n < 2 ^ Z.of_nat (S fuel) ->
  exists ds, print_loop fuel base n acc = ds ++ acc /\ ds <> [] /\
    Forall (fun c => is_digit_of base c = true) ds /\ digits_value base ds = n /\
    (n = 0 \/ at_ ds 0 <> ch "0").
Proof.
  intros Hb. induction fuel as [|fuel IH]; intros n acc Hn; cbn [print_loop].
  all: pose proof (Z.mod_pos_bound n base ltac:(lia)) as Hm.
  2: destruct (Z.ltb_spec n base) as [Hl|Hl].
  1, 2: assert (n < base) by (try change (2 ^ Z.of_nat 1) with 2 in Hn; lia);
    rewrite Z.mod_small in * by lia; exists [digit_char n]; split; [done|]; split; [done|];
    split; [constructor; [apply digit_char_ok; lia | done]|]; split;
    [unfold digits_value; cbn [fold_left]; rewrite digit_char_value by lia; lia |
     destruct (Z.eq_dec n 0); [by left|]; right; rewrite at_cons_0; intros E;
     apply (f_equal evutil_hex_char_to_int) in E; rewrite digit_char_value in E by lia;
     change (evutil_hex_char_to_int 48) with 0 in E; lia].
  destruct (IH (n / base) (digit_char (n mod base) :: acc)) as (ds & -> & Hne & Hd & Hv & H0).
  { split; [apply Z.div_pos; lia|]. apply Z.div_lt_upper_bound; [lia|].
    rewrite Nat2Z.inj_succ, Z.pow_succ_r in Hn by lia.
    assert (0 < 2 ^ Z.of_nat (S fuel)) by (apply Z.pow_pos_nonneg; lia). nia. }
  exists (ds ++ [digit_char (n mod base)]). split; [by rewrite <- app_assoc|]. split; [by destruct ds|].
  split; [|split].
  - apply Forall_app. split; [done|]. constructor; [apply digit_char_ok; lia | done].
  - rewrite digits_value_snoc, Hv, digit_char_value by lia. pose proof (Z.div_mod n base ltac:(lia)). lia.
  - right. destruct ds as [|x ds]; [done|]. rewrite at_app_l by (cbn; lia).
    destruct H0 as [H0|H0]; [|done]. assert (1 <= n / base) by (apply Z.div_le_lower_bound; lia). lia.
Qed.

Lemma print_num_spec base n : 2 <= base <= 16 -> 0 <= n ->
  print_num base n <> [] /\ Forall (fun c => is_digit_of base c = true) (print_num base n) /\
  digits_value base (print_num base n) = n /\ (n = 0 \/ at_ (print_num base n) 0 <> ch "0").
Proof.
  intros Hb Hn. unfold print_num.
  destruct (print_loop_spec base (Z.to_nat (Z.log2 n)) Hb n []) as (ds & -> & H).
  - split; [done|]. rewrite Nat2Z.inj_succ, Z2Nat.id by apply Z.log2_nonneg.
    destruct (Z.eq_dec n 0) as [->|]; [done|]. apply Z.log2_spec. lia.
  - by rewrite app_nil_r.
Qed.

Lemma digit_is_char base c : is_digit_of base c = true -> 48 <= c <= 102.
Proof.
  unfold is_digit_of, evutil_hex_char_to_int. intros H. bool_to_prop.
  repeat match goal with
  | H : context [if ?b then _ else _] |- _ => destruct b eqn:?; [rewrite ?orb_true_iff in *; lia|]
  end. lia.
Qed.

Lemma digits_cstring base ds : Forall (fun c => is_digit_of base c = true) ds -> cstring ds.
Proof.
  intros H. eapply Forall_impl; [|exact H]. cbn. intros c Hc%digit_is_char. unfold is_char. lia.
Qed.
