(* ===== verification/Textbuf.v ===== *)
(** Buffers that text is put together in: [evbuffer_add] with any string and
    [evbuffer_add_printf] append exactly their text, and taking the whole text
    out gives it back.  The HTTP code builds URIs, escaped strings and headers
    this way. *)

From S2P Require Import Prelude EvChain Evbuffer EvExpand EvIO EvbufferSpec EvbufferProps EvSpace.

Section text.
Context {A : Arch} {M : Allocator}.

(** ** Expanding twice *)

(** The last chain [c] of a buffer cannot be made to hold [n] more bytes. *)
Definition stale (c : evbuffer_chain) (n : Z) : Prop :=
  CHAIN_SPACE_LEN c = 0 \/
  CHAIN_SPACE_LEN c < n /\ evbuffer_chain_should_realign c n = false /\
  (CHAIN_SPACE_LEN c <? buffer_len c / 8) || (MAX_TO_COPY_IN_EXPAND <? off c) = true.

Lemma stale_more c n m : n <= m -> stale c n -> stale c m.
Proof.
  intros Hnm [H|(Hs & Hr & Hc)]; [by left|]. right. split; [lia|]. split; [|done].
  unfold evbuffer_chain_should_realign in *.
  destruct (Z.leb_spec m (buffer_len c - off c)) as [Hm|Hm]; [|by rewrite ?andb_false_r].
  assert (n <=? buffer_len c - off c = true) as Hn by lia. by rewrite Hn in Hr.
Qed.

Lemma immutable_space c : has_flag c EVBUFFER_IMMUTABLE = true -> CHAIN_SPACE_LEN c = 0.
Proof. intros H. unfold CHAIN_SPACE_LEN. by rewrite H. Qed.

Lemma expand_ok_inv b i n r b1 : expand_ok b i n = Some (r, b1) -> r = Some i /\ b1 = b.
Proof.
  unfold expand_ok. intros H. apply bind_Some in H as (c & _ & H).
  destruct (n <=? CHAIN_SPACE_LEN c); [|done]. by injection H as <- <-.
Qed.

(** Space found at the end of a buffer with data is the last chain, or a new
    chain behind a last one that is of no use. *)
Lemma expand_plan b cs c n i b1 :
  packed b -> chains b = cs ++ [c] -> off c <> 0 ->
  evbuffer_expand_singlechain b n = Some (Some i, b1) ->
  stale c n /\ expand_insert_new b n = Some (Some i, b1) \/
  exists c', chains b1 !! i = Some c' /\ off c' <> 0.
Proof.
  intros Hp Hcs H0 H. pose proof (packed_last_good _ _ _ Hp Hcs) as Hg.
  unfold evbuffer_expand_singlechain, first_with_space in H. rewrite (pk_lwd _ Hp) in H.
  rewrite Hcs, length_app in H. cbn [length] in H.
  replace (length cs + 1 - 1)%nat with (length cs) in H by lia.
  assert (Hlk : (cs ++ [c]) !! length cs = Some c) by (by apply list_lookup_middle).
  assert (Hnx : (cs ++ [c]) !! S (length cs) = None).
  { apply lookup_ge_None_2. rewrite length_app. cbn. lia. }
  assert (Hsame : forall c' x, chain_data c' = x -> off c' <> 0 ->
    expand_ok (set_chains b (<[length cs := c']> (cs ++ [c])) (length cs) (total_len b)) (length cs) n
      = Some (Some i, b1) -> exists c', chains b1 !! i = Some c' /\ off c' <> 0).
  { intros c' x _ Ho He. apply expand_ok_inv in He as [[= ->] ->]. exists c'. split; [|done].
    cbn [chains set_chains]. apply list_lookup_insert_eq. rewrite length_app. cbn. lia. }
  rewrite Hlk in H.
  destruct (Z.eqb_spec (CHAIN_SPACE_LEN c) 0) as [Hz|Hz].
  { rewrite Hnx in H. left. split; [by left | done]. }
  rewrite Hlk, (packed_pinned_none b cs c Hp Hcs) in H.
  destruct (has_flag c EVBUFFER_IMMUTABLE) eqn:Him; [by rewrite immutable_space in Hz|].
  destruct (Z.leb_spec n (CHAIN_SPACE_LEN c)) as [Hf|Hf].
  { apply expand_ok_inv in H as [[= ->] ->]. right. exists c. by rewrite Hcs. }
  rewrite (proj2 (Z.eqb_neq _ _) H0) in H.
  destruct (evbuffer_chain_should_realign c n) eqn:Hre.
  { destruct (chain_align_spec c Hg Him (gc_unpinned _ Hg)) as (c' & Ha & _ & _ & _ & Ho & _).
    rewrite Ha in H. cbn [mbind option_bind] in H. right. eapply Hsame; [done | | exact H]. by rewrite Ho. }
  destruct (_ || _) eqn:Hc.
  { rewrite Hnx in H. left. split; [by right | done]. }
  apply bind_Some in H as ([tmp|] & _ & H); [|done].
  apply bind_Some in H as (d & _ & H). apply bind_Some in H as (t & Ht & H).
  right. eapply Hsame; [done | | exact H].
  unfold chain_store in Ht. apply bind_Some in Ht as (m & _ & Ht). injection Ht as <-. done.
Qed.

(** The buffer [b] with an empty chain behind its data, as [expand_insert_new]
    leaves it. *)
Definition with_spare (b : evbuffer) (c : evbuffer_chain) : evbuffer :=
  set_chains b (chains b ++ [c]) (length (chains b) - 1) (total_len b).

Lemma find_victim_spare cs c i :
  Forall (fun c => 0 < off c) cs -> (i < length cs)%nat -> off c = 0 -> CHAIN_PINNED c = false ->
  find_victim (cs ++ [c]) i = Some (length cs).
Proof.
  intros Hf. revert i. induction Hf as [|x cs Hx Hf IH]; intros i Hi Ho Hc; cbn [length app] in *; [lia|].
  assert (H0 : find_victim (cs ++ [c]) 0 = Some (length cs)).
  { destruct cs; [|apply IH; cbn; try done; lia]. cbn. by rewrite Ho, Hc. }
  cbn [find_victim]. destruct i as [|i].
  - rewrite (proj2 (Z.eqb_neq (off x) 0)) by lia. cbn [negb orb]. by rewrite H0.
  - by rewrite IH by (try done; lia).
Qed.

Lemma chain_new_off n t : evbuffer_chain_new n = Some (Some t) -> off t = 0.
Proof.
  unfold evbuffer_chain_new. intros H. apply bind_Some in H as (k & _ & H).
  destruct (mm_malloc k); [|done]. by injection H as <-.
Qed.

(** Inserting a chain behind an unused one replaces it. *)
Lemma insert_over_spare b c n :
  packed b -> Forall (fun c => 0 < off c) (chains b) -> chains b <> [] ->
  off c = 0 -> CHAIN_PINNED c = false ->
  match expand_insert_new b n with
  | Some (Some i, b1) => expand_insert_new (with_spare b c) n = Some (Some i, b1)
  | Some (None, _) => expand_insert_new (with_spare b c) n = Some (None, with_spare b c)
  | None => True
  end.
Proof.
  intros Hp Hf Hne Ho Hpin. unfold expand_insert_new, evbuffer_chain_insert_new.
  destruct (evbuffer_chain_new n) as [[t|]|] eqn:Et; cbn [mbind option_bind]; try done.
  apply chain_new_off in Et.
  assert (Hl : (length (chains b) - 1 < length (chains b))%nat) by (destruct (chains b); [done | cbn; lia]).
  unfold evbuffer_chain_insert, with_spare. cbn [chains set_chains last_with_datap total_len].
  rewrite (pk_lwd _ Hp), find_victim_spare by done. rewrite lookup_app_l by done.
  apply lookup_lt_is_Some_2 in Hl as [x Hx]. rewrite Hx, find_victim_full by done.
  rewrite drop_app_length, take_app_length, Et. cbn [evbuffer_chains_all_empty forallb]. rewrite Ho.
  cbn [Z.eqb andb negb fmap option_fmap option_map mbind option_bind]. unfold expand_ok. cbn [chains set_chains].
  by destruct ((chains b ++ [t]) !! _) as [y|]; cbn [mbind option_bind]; [destruct (n <=? CHAIN_SPACE_LEN y)|].
Qed.

(** A second call for more space finds the unused chain too small and replaces
    it. *)
Lemma expand_spare b cs l c n :
  packed b -> chains b = cs ++ [l] -> Forall (fun c => 0 < off c) (chains b) -> good_chain c ->
  off c = 0 -> has_flag c EVBUFFER_IMMUTABLE = false -> stale l n -> CHAIN_SPACE_LEN c < n ->
  evbuffer_expand_singlechain (with_spare b c) n = expand_insert_new (with_spare b c) n.
Proof.
  intros Hp Hcs Hf Hg Ho Hi Hst Hn. pose proof (packed_last_good _ _ _ Hp Hcs) as Hgl.
  unfold evbuffer_expand_singlechain, first_with_space, with_spare. cbn [chains set_chains last_with_datap].
  rewrite Hcs, length_app in *. cbn [length]. replace (length cs + 1 - 1)%nat with (length cs) by lia.
  rewrite <- app_assoc. cbn [app].
  assert (H1 : (cs ++ [l; c]) !! length cs = Some l) by (by apply list_lookup_middle).
  assert (H2 : (cs ++ [l; c]) !! S (length cs) = Some c).
  { rewrite lookup_app_r by lia. by replace (S (length cs) - length cs)%nat with 1%nat by lia. }
  assert (Hpc : has_flag c (Z.lor EVBUFFER_IMMUTABLE EVBUFFER_MEM_PINNED_ANY) = false).
  { rewrite has_flag_or, Hi. apply (gc_unpinned _ Hg). }
  rewrite H1. apply Forall_app_split in Hf as [_ Hf]. apply Forall_cons_split in Hf as [Hl _].
  destruct (Z.eqb_spec (CHAIN_SPACE_LEN l) 0) as [Hz|Hz].
  { rewrite H2, Hpc, (proj2 (Z.leb_gt _ _) Hn), Ho. done. }
  destruct Hst as [Hst|(Hsp & Hre & Hc)]; [done|].
  assert (Hpl : has_flag l (Z.lor EVBUFFER_IMMUTABLE EVBUFFER_MEM_PINNED_ANY) = false).
  { rewrite has_flag_or. pose proof (gc_unpinned _ Hgl) as Hu. unfold CHAIN_PINNED in Hu. rewrite Hu, orb_false_r.
    destruct (has_flag l EVBUFFER_IMMUTABLE) eqn:E; [|done]. by rewrite immutable_space in Hz. }
  rewrite H1, Hpl, (proj2 (Z.leb_gt _ _) Hsp), (proj2 (Z.eqb_neq (off l) 0)) by lia.
  by rewrite Hre, Hc, H2, (proj2 (Z.leb_gt _ _) Hn).
Qed.

(** ** Formatted output *)

(** The last chain, if any, can be written to. *)
Definition writable_last (b : evbuffer) : Prop :=
  forall c, last (chains b) = Some c -> has_flag c EVBUFFER_IMMUTABLE = false.

Lemma advance_counts b cs lwd k :
  advance_last_with_data (add_count (set_chains b cs lwd (total_len b + k)) k) =
  let b1 := advance_last_with_data (set_chains b cs lwd (total_len b)) in
  add_count (set_chains b1 (chains b1) (last_with_datap b1) (total_len b1 + k)) k.
Proof.
  unfold advance_last_with_data, add_count, set_counts. cbn.
  by destruct (cs !! lwd).
Qed.

(** Text that fits the space. *)
Lemma vprintf_fits fuel b b1 i d :
  packed b -> has_space b b1 i (zlen d + 1) -> d <> [] ->
  exists b', vprintf_loop (S fuel) b1 i (Some d) = Some (zlen d, b') /\ appended b b' d /\ writable_last b'.
Proof.
  intros Hp (cs & c & -> & -> & Hsp & Hi & Hgs & Hfs & Hg & Hdat) Hd. pose proof (zlen_pos d Hd).
  cbn [vprintf_loop chains set_chains].
  assert (Hlk : forall x : evbuffer_chain, (cs ++ [x]) !! length cs = Some x) by (intros; by apply list_lookup_middle).
  assert (Hin : forall x y : evbuffer_chain, <[length cs := y]> (cs ++ [x]) = cs ++ [y]).
  { intros. by rewrite insert_app_r_alt, Nat.sub_diag by lia. }
  rewrite Hlk. cbn [mbind option_bind]. rewrite (proj2 (Z.ltb_lt 0 _)) by lia.
  rewrite (ztake_ge d) by lia. rewrite (proj2 (Z.eqb_neq (CHAIN_SPACE_LEN c) 0)) by lia.
  rewrite (proj2 (Z.ltb_lt (zlen d) _)) by lia.
  destruct (write_space c d [0] Hg Hi) as (m & Hm & Hg' & Hd').
  { rewrite zlen_app, zlen_cons, zlen_nil. lia. }
  unfold vec_write, vec_at. cbn [iov_chain iov_pos chains set_chains last_with_datap total_len].
  rewrite Hlk. cbn [mbind option_bind]. rewrite Hm. cbn [mbind option_bind chains set_chains].
  rewrite Hin, Hlk. cbn [mbind option_bind chains set_chains last_with_datap total_len].
  change (set_window _ _ _) with (set_data c (misalign c) (off c + zlen d) m). rewrite Hin.
  rewrite set_chains_set_chains. eexists. split; [done|].
  pose proof (space_taken b cs c d m Hp Hgs Hfs Hdat (ck_off _ Hg) Hd Hg' Hd') as Ha.
  cbn zeta in Ha. unfold commit_okay in Ha. cbn [snd] in Ha.
  cbn [mbind option_bind chains set_chains last_with_datap total_len].
  rewrite set_chains_set_chains, (advance_counts b).
  split; [exact Ha|]. unfold writable_last. rewrite invoke_chains.
  unfold advance_last_with_data. cbn [chains set_chains last_with_datap].
  intros c' Hl. assert (last (cs ++ [set_data c (misalign c) (off c + zlen d) m]) = Some c') as Hl'.
  { by destruct ((cs ++ _) !! _). }
  rewrite last_snoc in Hl'. injection Hl' as <-. exact Hi.
Qed.

(** The attempt that does not fit leaves a cut text in the free space, and the
    data alone. *)
Lemma vprintf_scribble fuel b cs c lwd d :
  Forall good_chain cs -> good_chain c -> has_flag c EVBUFFER_IMMUTABLE = false ->
  0 < CHAIN_SPACE_LEN c <= zlen d ->
  exists c2, good_chain c2 /\ chain_data c2 = chain_data c /\ off c2 = off c /\
    has_flag c2 EVBUFFER_IMMUTABLE = false /\ CHAIN_SPACE_LEN c2 = CHAIN_SPACE_LEN c /\ buffer_len c2 = buffer_len c /\
    vprintf_loop (S fuel) (set_chains b (cs ++ [c]) lwd (total_len b)) (length cs) (Some d) =
      ('(r, b2) ← evbuffer_expand_singlechain (set_chains b (cs ++ [c2]) lwd (total_len b))
                    (wrap size_bits (zlen d + 1));
       match r with None => Some (-1, b2) | Some j => vprintf_loop fuel b2 j (Some d) end).
Proof.
  intros Hgs Hg Hi Hsp. cbn [vprintf_loop chains set_chains].
  rewrite list_lookup_middle by done. cbn [mbind option_bind]. rewrite (proj2 (Z.ltb_lt 0 _)) by lia.
  destruct (write_space c [] (ztake (CHAIN_SPACE_LEN c - 1) d ++ [0]) Hg Hi) as (m & Hm & Hg' & Hd').
  { cbn [app]. rewrite zlen_app, zlen_ztake, zlen_cons, zlen_nil by lia. lia. }
  cbn [app] in Hm. rewrite zlen_nil, Z.add_0_r in Hg', Hd'. rewrite app_nil_r in Hd'.
  unfold vec_write, vec_at. cbn [iov_chain iov_pos chains set_chains last_with_datap total_len].
  rewrite list_lookup_middle by done. cbn [mbind option_bind]. rewrite Hm. cbn [mbind option_bind].
  rewrite (proj2 (Z.eqb_neq (CHAIN_SPACE_LEN c) 0)), (proj2 (Z.ltb_ge (zlen d) _)) by lia.
  exists (set_data c (misalign c) (off c) m). splits; try done.
  by rewrite insert_app_r_alt, Nat.sub_diag by lia.
Qed.

Lemma has_space_packed b cs c lwd :
  packed b -> Forall good_chain cs -> Forall (fun c => 0 < off c) cs -> good_chain c ->
  has_flag c EVBUFFER_IMMUTABLE = false -> 0 < buffer_len c ->
  off c <> 0 \/ cs = [] -> data_of (cs ++ [c]) = contents b ->
  lwd = (if off c =? 0 then (length cs - 1)%nat else length cs) ->
  packed (set_chains b (cs ++ [c]) lwd (total_len b)).
Proof.
  intros Hp Hgs Hfs Hg Hi Hb Hor Hdat ->. destruct (gc_ok _ Hg) as [Hm Ho _ _].
  split; cbn [chains set_chains last_with_datap total_len]; unfold contents; cbn [chains set_chains].
  - apply Forall_app. split; [done|]. by constructor.
  - rewrite Hdat. apply Hp.
  - rewrite length_app. cbn [length]. destruct (Z.eqb_spec (off c) 0); [|lia].
    destruct Hor as [ | ->]; [done | done].
  - destruct (Z.eq_dec (off c) 0) as [H0|H0].
    + destruct Hor as [ | ->]; [done|]. right. by exists c.
    + left. apply Forall_app. split; [done|]. constructor; [lia | done].
Qed.

(** The buffer that gets the space for the text in the end. *)
Lemma expand_twice b b1 i (d : list Z) n c2 cs c :
  packed b -> evbuffer_expand_singlechain b n = Some (Some i, b1) -> 0 < n <= zlen d + 1 ->
  b1 = set_chains b (cs ++ [c]) (if off c =? 0 then (length cs - 1)%nat else length cs) (total_len b) ->
  i = length cs -> Forall good_chain cs -> Forall (fun c => 0 < off c) cs -> data_of (cs ++ [c]) = contents b ->
  good_chain c2 -> chain_data c2 = chain_data c -> off c2 = off c -> has_flag c2 EVBUFFER_IMMUTABLE = false ->
  0 < buffer_len c2 -> CHAIN_SPACE_LEN c2 <= zlen d -> small (total_len b + (zlen d + 1)) ->
  exists b0 r b3, packed b0 /\ contents b0 = contents b /\ freeze_start b0 = freeze_start b /\
    freeze_end b0 = freeze_end b /\
    evbuffer_expand_singlechain
      (set_chains b (cs ++ [c2]) (if off c =? 0 then (length cs - 1)%nat else length cs) (total_len b))
      (zlen d + 1) = Some (r, b3) /\
    match r with Some j => has_space b0 b3 j (zlen d + 1) | None => exists k, mm_malloc k = None end.
Proof.
  intros Hp Hex Hn -> -> Hgs Hfs Hdat Hg2 Hd2 Ho2 Hi2 Hb2 Hs2 Hsm. pose proof (zlen_nonneg d).
  assert (Hdat2 : data_of (cs ++ [c2]) = contents b) by (by rewrite <- Hdat, !data_of_app, !data_of_single, Hd2).
  destruct (decide (off c <> 0 \/ cs = [])) as [Hor|Hnor].
  { set (b0 := set_chains b (cs ++ [c2]) _ _).
    assert (Hp0 : packed b0) by (eapply has_space_packed; try done; by rewrite Ho2).
    destruct (expand_singlechain_spec b0 (zlen d + 1) Hp0 ltac:(lia) Hsm) as (r & b3 & -> & Hr).
    exists b0, r, b3. splits; try done. by destruct r; [|destruct Hr]. }
  assert (H0 : off c = 0) by (destruct (decide (off c = 0)); tauto).
  assert (Hne : cs <> []) by tauto. rewrite H0, Z.eqb_refl in *.
  destruct (chains_split b) as [Hcs|(ks & l & Hks)].
  { exfalso. apply Hne. apply (good_sum_off cs Hgs Hfs). unfold contents in Hdat. rewrite Hcs, data_of_app in Hdat.
    by apply app_eq_nil in Hdat as [? _]. }
  pose proof (packed_last_good _ _ _ Hp Hks) as Hgl.
  assert (Hfull : Forall (fun c => 0 < off c) (chains b)).
  { destruct (pk_shape _ Hp) as [|(c0 & Hc0 & Ho0 & _)]; [done|]. exfalso. apply Hne. apply (good_sum_off cs Hgs Hfs).
    assert (contents b = []) as Hc.
    { pose proof (pk_chains _ Hp) as Hg0. unfold contents. rewrite Hc0 in *. apply Forall_cons_split in Hg0 as [Hg0 _].
      apply zlen_nil_iff. by rewrite data_of_single, (chain_data_len c0 Hg0). }
    rewrite Hc, data_of_app in Hdat. by apply app_eq_nil in Hdat as [? _]. }
  assert (Hl0 : 0 < off l).
  { rewrite Hks in Hfull. apply Forall_app_split in Hfull as [_ Hf]. by apply Forall_cons_split in Hf as [Hf _]. }
  destruct (expand_plan b ks l n _ _ Hp Hks ltac:(lia) Hex) as [[Hst Hins]|(c' & Hc' & Hoc)].
  2: { exfalso. cbn [chains set_chains] in Hc'. rewrite list_lookup_middle in Hc' by done. by injection Hc' as <-. }
  assert (Hcs : cs = chains b).
  { revert Hins. unfold expand_insert_new, evbuffer_chain_insert_new.
    destruct (evbuffer_chain_new n) as [[t|]|] eqn:Et; cbn [mbind option_bind]; try done.
    apply chain_new_off in Et. unfold evbuffer_chain_insert. rewrite (pk_lwd _ Hp), Et.
    destruct (chains b !! (length (chains b) - 1)%nat) eqn:El.
    - rewrite find_victim_full by done. cbn [fmap option_fmap option_map mbind option_bind].
      intros He. apply expand_ok_inv in He as [_ He]. apply (f_equal chains) in He. cbn [chains set_chains] in He.
      by apply app_inj_2 in He as [-> _].
    - apply lookup_ge_None in El. rewrite Hks, length_app in El. cbn in El. lia. }
  subst cs. change (set_chains b (chains b ++ [c2]) _ _) with (with_spare b c2).
  rewrite (expand_spare b ks l c2) by (first [done | congruence | lia | eapply stale_more; [|exact Hst]; lia]).
  assert (Hsn : small (zlen d + 1)).
  { eapply small_le; [|exact Hsm]. rewrite (pk_total _ Hp). pose proof (zlen_nonneg (contents b)). lia. }
  pose proof (insert_over_spare b c2 (zlen d + 1) Hp Hfull Hne ltac:(congruence) (gc_unpinned _ Hg2)) as Hio.
  destruct (expand_insert_spec b (zlen d + 1) Hp ltac:(lia) Hsn) as (r & b3 & He & Hr). rewrite He in Hio.
  destruct r as [j|]; [exists b, (Some j), b3 | exists b, None, (with_spare b c2)]; splits; try done. by destruct Hr.
Qed.

(** ** Buffers of text *)

(** [b] holds the text [l] and takes more. *)
Record text_in (b : evbuffer) (l : list Z) : Prop := {
  ti_packed : packed b;
  ti_contents : contents b = l;
  ti_start : freeze_start b = false;
  ti_end : freeze_end b = false;
  ti_last : writable_last b }.

Lemma text_new : text_in evbuffer_new [].
Proof. split; try done. apply packed_new. Qed.

Lemma text_total b l : text_in b l -> total_len b = zlen l.
Proof. intros [Hp <- _ _ _]. apply Hp. Qed.

Lemma appended_text b b' l d :
  contents b = l -> freeze_start b = false -> freeze_end b = false -> appended b b' d -> writable_last b' ->
  text_in b' (l ++ d).
Proof.
  intros Hc Hs He Ha Hl. destruct (appended_facts _ _ _ Ha) as (? & Hc' & Hs' & He' & _).
  split; try done; congruence.
Qed.

Lemma insert_last b c b' : evbuffer_chain_insert b c = Some b' -> last (chains b') = Some c.
Proof.
  unfold evbuffer_chain_insert. destruct (chains b !! last_with_datap b).
  - destruct (find_victim _ _).
    + destruct (evbuffer_chains_all_empty _); [|done]. intros [= <-]. apply last_snoc.
    + intros [= <-]. apply last_snoc.
  - destruct (chains b), (last_with_datap b); try done. by intros [= <-].
Qed.

Lemma chain_new_flags n t : evbuffer_chain_new n = Some (Some t) -> flags t = 0.
Proof.
  unfold evbuffer_chain_new. intros H. apply bind_Some in H as (k & _ & H).
  destruct (mm_malloc k); [|done]. by injection H as <-.
Qed.

Lemma align_flags c c' : evbuffer_chain_align c = Some c' -> flags c' = flags c.
Proof.
  unfold evbuffer_chain_align. destruct (_ || _); [done|]. intros H.
  apply bind_Some in H as (d & _ & H). apply bind_Some in H as (m & _ & H). by injection H as <-.
Qed.

(** [evbuffer_add] writes to the last chain it leaves. *)
Lemma add_to_last_writable b cs c d b' :
  chains b = cs ++ [c] -> evbuffer_add_to_last b (length cs) c d = Some (0, b') -> writable_last b'.
Proof.
  intros Hcs H. unfold evbuffer_add_to_last in H.
  assert (Hset : forall c' k, flags c' = flags c -> has_flag c EVBUFFER_IMMUTABLE = false ->
    Some (0, evbuffer_invoke_callbacks (add_count (set_chains b (<[length cs := c']> (chains b))
            (last_with_datap b) (total_len b + k)) k)) = Some (0, b') -> writable_last b').
  { intros c' k Hf Hi [= <-] x. rewrite invoke_chains. cbn [chains add_count set_counts set_chains].
    rewrite Hcs, insert_app_r_alt, Nat.sub_diag by lia. cbn [insert list_insert]. rewrite last_snoc.
    intros [= <-]. unfold has_flag in *. by rewrite Hf. }
  destruct (negb (has_flag c EVBUFFER_IMMUTABLE) && _) eqn:Hi.
  { apply andb_prop in Hi as [Hi%negb_true_iff _]. apply bind_Some in H as (c' & Hc' & H).
    eapply Hset; [| done | exact H]. by eapply chain_store_flags. }
  destruct (negb (has_flag c EVBUFFER_IMMUTABLE) && (_ && _)) eqn:Hi2.
  { apply andb_prop in Hi2 as [Hi2%negb_true_iff _]. apply bind_Some in H as (c1 & Hc1 & H).
    apply bind_Some in H as (c' & Hc' & H). eapply Hset; [| done | exact H].
    by rewrite (chain_store_flags _ _ _ _ _ _ Hc'), (align_flags _ _ Hc1). }
  apply bind_Some in H as ([tmp|] & Ht & H); [|done].
  apply bind_Some in H as (b1 & _ & H). apply bind_Some in H as (t & Hst & H).
  apply bind_Some in H as (b2 & Hins & H). injection H as <-. intros x. rewrite invoke_chains.
  cbn [chains add_count set_counts]. rewrite (insert_last _ _ _ Hins). intros [= <-].
  unfold has_flag. by rewrite (chain_store_flags _ _ _ _ _ _ Hst), (chain_new_flags _ _ Ht), Z.land_0_l.
Qed.

Lemma add_writable b d b' : evbuffer_add b d = Some (0, b') -> writable_last b'.
Proof.
  unfold evbuffer_add. destruct (freeze_end b); [done|]. destruct (last (chains b)) as [c|] eqn:Hl.
  - apply last_Some in Hl as [cs Hcs]. rewrite Hcs, length_app. cbn [length].
    replace (length cs + 1 - 1)%nat with (length cs) by lia. by apply add_to_last_writable.
  - intros H. apply bind_Some in H as ([c|] & _ & H); [|done]. apply bind_Some in H as (b1 & Hins & H).
    apply insert_last, last_Some in Hins as [cs Hcs]. rewrite Hcs, length_app in H. cbn [length] in H.
    replace (length cs + 1 - 1)%nat with (length cs) in H by lia. by eapply add_to_last_writable.
Qed.

(** [evbuffer_add] of any string, the empty one included. *)
Lemma text_add b l d :
  mem_ok -> text_in b l -> small (zlen d) -> exists b', evbuffer_add b d = Some (0, b') /\ text_in b' (l ++ d).
Proof.
  intros Hm [Hp Hc Hs He Hw] Hsm.
  destruct (add_spec b d Hp He Hsm (or_intror Hw)) as (r & b' & Hr & [[-> Ha]|(_ & _ & _ & n & Hn)]);
    [|by destruct (Hm n)].
  exists b'. split; [done|]. eapply appended_text; try done. by eapply add_writable.
Qed.

(** [evbuffer_add_printf] of any text but the empty one. *)
Lemma text_printf b l d :
  mem_ok -> text_in b l -> small (zlen l + zlen d + 64) -> d <> [] ->
  exists b', evbuffer_add_vprintf b (Some d) = Some (zlen d, b') /\ text_in b' (l ++ d).
Proof.
  intros Hm Ht Hsm Hd. pose proof (text_total _ _ Ht) as Htl. destruct Ht as [Hp Hc Hs He Hw].
  pose proof (zlen_pos d Hd). pose proof (zlen_nonneg l).
  assert (Hs64 : small (total_len b + 64)) by (eapply small_le; [|exact Hsm]; lia).
  assert (Hsd : small (total_len b + (zlen d + 1))) by (eapply small_le; [|exact Hsm]; lia).
  unfold evbuffer_add_vprintf. rewrite He.
  destruct (expand_singlechain_spec b 64 Hp ltac:(lia) Hs64) as ([i|] & b1 & Hex & Hr); rewrite Hex;
    cbn [mbind option_bind]; [|by destruct Hr as [_ [k Hk]]; destruct (Hm k)].
  destruct Hr as (cs & c & Hb1 & Hi & Hsp & Him & Hgs & Hfs & Hg & Hdat).
  destruct (Z.lt_ge_cases (zlen d) (CHAIN_SPACE_LEN c)) as [Hf|Hf].
  { destruct (vprintf_fits 1 b b1 i d Hp) as (b' & Hv & Ha & Hw'); [|done|].
    - exists cs, c. splits; try done; lia.
    - exists b'. split; [exact Hv|]. by eapply appended_text. }
  destruct (vprintf_scribble 1 b cs c (if off c =? 0 then (length cs - 1)%nat else length cs) d Hgs Hg Him)
    as (c2 & Hg2 & Hd2 & Ho2 & Hi2 & Hsp2 & Hb2 & Hv); [lia|].
  rewrite Hb1, Hi, Hv.
  assert (Hw1 : wrap size_bits (zlen d + 1) = zlen d + 1).
  { apply wrap_small. pose proof chain_size_lt_min. unfold small in Hsm. split; [lia|].
    assert (2 ^ size_bits = 2 * 2 ^ (size_bits - 1)) by (destruct size_bits_cases as [-> | ->]; lia). lia. }
  rewrite Hw1.
  destruct (expand_twice b b1 i d 64 c2 cs c Hp Hex ltac:(lia) Hb1 Hi Hgs Hfs Hdat Hg2 Hd2 Ho2 Hi2)
    as (b0 & r & b3 & Hp0 & Hc0 & Hs0 & He0 & He2 & Hr); [|lia|done|].
  { assert (64 <= CHAIN_SPACE_LEN c2) as H64 by lia. unfold CHAIN_SPACE_LEN in H64. rewrite Hi2 in H64.
    destruct (gc_ok _ Hg2). lia. }
  rewrite He2. cbn [mbind option_bind]. destruct r as [j|]; [|by destruct Hr as [k Hk]; destruct (Hm k)].
  destruct (vprintf_fits 0 b0 b3 j d Hp0 Hr Hd) as (b' & Hv' & Ha & Hw').
  exists b'. split; [exact Hv'|]. apply (appended_text b0); try done; congruence.
Qed.

(** Taking the whole text out. *)
Lemma text_remove b l :
  text_in b l -> zlen l <= INT_MAX ->
  exists b', evbuffer_remove b (zlen l) = Some (zlen l, l, b') /\ packed b' /\ contents b' = [].
Proof.
  intros Ht Hl. pose proof (text_total _ _ Ht) as Htl. destruct Ht as [Hp Hc Hs He Hw]. pose proof (zlen_nonneg l).
  destruct (remove_ok b (zlen l) Hp Hs ltac:(lia)) as (b' & -> & Hp' & Hc' & _); [lia|].
  exists b'. rewrite Hc, Htl, Z.min_id, ztake_ge in * by lia. splits; try done. by rewrite Hc', zdrop_ge by lia.
Qed.

Lemma text_length b l : text_in b l -> evbuffer_get_length b = zlen l.
Proof. apply text_total. Qed.
End text.
