(* ===== verification/Inet.v ===== *)
(** Internet addresses as text ([evutil.c]): printing and parsing of IPv4 and
    IPv6 addresses and of socket addresses with a port, and their comparison.

    An IPv4 address is the number in host order, an IPv6 address the list of its
    sixteen bytes.  [None] is undefined behaviour: [sscanf] on a number that is
    no [int]. *)

From S2P Require Import Prelude EvChain Cstring.

(** ** Printing *)

(** [evutil_snprintf] of the text [t] into [len] bytes: the characters stored
    before the terminator, if there is room for it, and the result. *)
Definition evutil_snprintf (t : list Z) (len : Z) : option (list Z) * Z :=
  (if 0 <? len then Some (ztake (len - 1) t) else None, zlen t).

Definition byte_of (a k : Z) : Z := wrap 8 (Z.land (Z.shiftr a k) 0xff).

Definition dotted (a b c d : Z) : list Z :=
  print_d a ++ [ch "."] ++ print_d b ++ [ch "."] ++ print_d c ++ [ch "."] ++ print_d d.

(** The string left in [dst], or NULL. *)
Definition inet_ntop4 (a len : Z) : option (list Z) :=
  let '(dst, r) := evutil_snprintf (dotted (byte_of a 24) (byte_of a 16) (byte_of a 8) (byte_of a 0)) len in
  if (r <? 0) || (len <=? r) then None else dst.

(** The sixteen-bit words of an IPv6 address. *)
Fixpoint words_of (addr : list Z) : list Z :=
  match addr with
  | h :: l :: addr' => wrap 16 (Z.shiftl h 8 + l) :: words_of addr'
  | _ => []
  end.

(** The number of zero words from the front. *)
Fixpoint zero_run (ws : list Z) : nat :=
  match ws with
  | w :: ws' => if w =? 0 then S (zero_run ws') else 0
  | [] => 0
  end.

(** The search for the longest gap: the position, -1 at first, and the length. *)
Fixpoint gap_loop (fuel i : nat) (words : list Z) (longestGapPos : Z) (longestGapLen : nat) : Z * nat :=
  match fuel with
  | O => (longestGapPos, longestGapLen)
  | S fuel' =>
    if (8 <=? i)%nat then (longestGapPos, longestGapLen) else
    if at_ words i =? 0 then
      let curGapLen := zero_run (drop i words) in
      if (longestGapLen <? curGapLen)%nat
      then gap_loop fuel' (i + curGapLen) words (Z.of_nat i) curGapLen
      else gap_loop fuel' (i + curGapLen) words longestGapPos longestGapLen
    else gap_loop fuel' (S i) words longestGapPos longestGapLen
  end.

(** The loop that writes the words. *)
Fixpoint ntop6_loop (fuel i : nat) (words : list Z) (longestGapPos : Z) : list Z :=
  match fuel with
  | O => []
  | S fuel' =>
    if (8 <=? i)%nat then [] else
    if (at_ words i =? 0) && (longestGapPos =? Z.of_nat i) then
      (if (i =? 0)%nat then [ch ":"] else []) ++ [ch ":"] ++
      ntop6_loop fuel' (i + zero_run (drop i words)) words longestGapPos
    else
      print_num 16 (at_ words i) ++ (if (i =? 7)%nat then [] else [ch ":"]) ++
      ntop6_loop fuel' (S i) words longestGapPos
  end.

Definition is_v4_words (words : list Z) : bool :=
  (at_ words 0 =? 0) && (at_ words 1 =? 0) && (at_ words 2 =? 0) && (at_ words 3 =? 0) &&
  (at_ words 4 =? 0) &&
  ((at_ words 5 =? 0) && negb (at_ words 6 =? 0) && negb (at_ words 7 =? 0) || (at_ words 5 =? 0xffff)).

(** The text in [buf]. *)
Definition ntop6_text (addr : list Z) : list Z :=
  let words := words_of addr in
  if is_v4_words words then
    let v4 := dotted (at_ addr 12) (at_ addr 13) (at_ addr 14) (at_ addr 15) in
    if at_ words 5 =? 0 then [ch ":"; ch ":"] ++ v4
    else [ch ":"; ch ":"] ++ print_num 16 (at_ words 5) ++ [ch ":"] ++ v4
  else
    let '(pos, len) := gap_loop 8 0 words (-1) 0 in
    ntop6_loop 8 0 words (if (len <=? 1)%nat then -1 else pos).

Definition inet_ntop6 (addr : list Z) (len : Z) : option (list Z) :=
  let buf := ntop6_text addr in
  if len <? zlen buf then None else snd (_event_strlcpy buf (Z.to_nat len)).

(** ** Parsing *)

(** [sscanf] with [%d.%d.%d.%d%c]: the numbers converted, and the input left when
    all four were. *)
Fixpoint scan_dotted (more : nat) (s : list Z) : option (list Z * option (list Z)) :=
  o ← scan_d s;
  match o with
  | None => Some ([], None)
  | Some (v, r) =>
    match more with
    | O => Some ([v], Some r)
    | S more' =>
      if at_ r 0 =? ch "." then '(vs, r') ← scan_dotted more' (tail r); Some (v :: vs, r')
      else Some ([v], None)
    end
  end.

(** The four numbers, if [sscanf] returned 4, without a character after them, and
    they are bytes. *)
Definition scan_ipv4 (s : list Z) : option (option (list Z)) :=
  '(vs, r) ← scan_dotted 3 s;
  match r with
  | Some [] => Some (if forallb (fun v => (0 <=? v) && (v <=? 255)) vs then Some vs else None)
  | _ => Some None
  end.

(** 1 and the address, or 0. *)
Definition inet_pton4 (src : list Z) : option (Z * option Z) :=
  o ← scan_ipv4 src;
  match o with
  | Some [a; b; c; d] =>
    Some (1, Some (wrap 32 (Z.lor (Z.lor (Z.lor (Z.shiftl a 24) (Z.shiftl b 16)) (Z.shiftl c 8)) d)))
  | _ => Some (0, None)
  end.

Record pton6_state := { p6_words : list Z; p6_i : nat; p6_gapPos : Z; p6_setWords : nat }.

(** The loop over the words: [n] is [eow - src].  [None] stands for the returns
    of 0 inside the loop. *)
Fixpoint pton6_loop (fuel : nat) (src : list Z) (n : Z) (st : pton6_state) : option pton6_state :=
  match fuel with
  | O => None
  | S fuel' =>
    if n <=? 0 then Some st else
    if (7 <? p6_i st)%nat then None else
    if EVUTIL_ISXDIGIT (at_ src 0) then
      let '(r, next) := strtol 32 16 src in
      let used := zlen src - zlen next in
      if 4 <? used then None else
      if used =? 0 then None else
      if (r <? 0) || (65536 <? r) then None else
      let st' := {| p6_words := <[p6_i st := wrap 16 r]> (p6_words st); p6_i := S (p6_i st);
                    p6_gapPos := p6_gapPos st; p6_setWords := S (p6_setWords st) |} in
      if negb (at_ next 0 =? ch ":") && negb (n - used =? 0) then None else
      pton6_loop fuel' (tail next) (n - used - 1) st'
    else if (at_ src 0 =? ch ":") && (0 <? p6_i st)%nat && (p6_gapPos st =? -1) then
      pton6_loop fuel' (tail src) (n - 1)
        {| p6_words := p6_words st; p6_i := p6_i st; p6_gapPos := Z.of_nat (p6_i st); p6_setWords := p6_setWords st |}
    else if (at_ src 0 =? ch ":") && (p6_i st =? 0)%nat && (at_ src 1 =? ch ":") && (p6_gapPos st =? -1) then
      pton6_loop fuel' (tail (tail src)) (n - 2)
        {| p6_words := p6_words st; p6_i := p6_i st; p6_gapPos := Z.of_nat (p6_i st); p6_setWords := p6_setWords st |}
    else None
  end.

(** The words moved behind the gap, and the gap filled; a negative count is the
    return of -1. *)
Definition pton6_gap (dot : bool) (st : pton6_state) : option (option (list Z)) :=
  if 0 <=? p6_gapPos st then
    let nToMove := Z.of_nat (p6_setWords st) - (if dot then 2 else 0) - p6_gapPos st in
    let gapLen := 8 - Z.of_nat (p6_setWords st) in
    if nToMove <? 0 then Some None else
    moved ← mem_read (p6_words st) (p6_gapPos st) nToMove;
    w1 ← mem_write (p6_words st) (p6_gapPos st + gapLen) moved;
    w2 ← mem_write w1 (p6_gapPos st) (replicate (Z.to_nat gapLen) 0);
    Some (Some w2)
  else Some (Some (p6_words st)).

Definition bytes_of_words (ws : list Z) : list Z :=
  concat (map (fun w => [Z.shiftr w 8; Z.land w 0xff]) ws).

(** What follows the search for the dot: [n] characters of [src] are words, and
    [v4] holds the bytes of a dotted part. *)
Definition pton6_words (src : list Z) (n : Z) (v4 : option (list Z)) : option (Z * option (list Z)) :=
  let words := match v4 with
    | Some [b1; b2; b3; b4] => replicate 6 0 ++ [Z.lor (Z.shiftl b1 8) b2; Z.lor (Z.shiftl b3 8) b4]
    | _ => replicate 8 0 end in
  let dot := bool_decide (v4 <> None) in
  match pton6_loop (S (length src)) src n
          {| p6_words := words; p6_i := 0; p6_gapPos := -1; p6_setWords := if dot then 2 else 0 |} with
  | None => Some (0, None)
  | Some st =>
    if (8 <? p6_setWords st)%nat || (p6_setWords st =? 8)%nat && negb (p6_gapPos st =? -1) ||
       (p6_setWords st <? 8)%nat && (p6_gapPos st =? -1) then Some (0, None)
    else
      ws ← pton6_gap dot st;
      match ws with
      | None => Some (-1, None)
      | Some ws => Some (1, Some (bytes_of_words ws))
      end
  end.

(** The words that are not written yet when the loop starts are never read before
    they are, and count as 0 here. *)
Definition inet_pton6 (src : list Z) : option (Z * option (list Z)) :=
  match strchr src (ch ".") with
  | Some ([], _) => Some (0, None)
  | None => pton6_words src (zlen src) None
  | Some (l, r) =>
    let '(rdigits, rwords) := span EVUTIL_ISDIGIT (rev l) in
    o ← scan_ipv4 (rev rdigits ++ r);
    match o with
    | None => Some (0, None)
    | Some v4 => pton6_words src (zlen rwords) (Some v4)
    end
  end.

(** ** Socket addresses *)

(** Ports and IPv4 addresses are kept in host order. *)
Inductive sockaddr :=
| Sin (sin_port sin_addr : Z)
| Sin6 (sin6_port : Z) (sin6_addr : list Z)
| Sa_other (family : Z).

(** The address families of Windows. *)
Definition AF_INET : Z := 2.
Definition AF_INET6 : Z := 23.

Definition sa_family (sa : sockaddr) : Z :=
  match sa with Sin _ _ => AF_INET | Sin6 _ _ => AF_INET6 | Sa_other f => f end.

(** Network order, as the numbers a little-endian machine reads. *)
Definition htons (x : Z) : Z := Z.lor (Z.shiftl (byte_of x 0) 8) (byte_of x 8).
Definition htonl (x : Z) : Z :=
  Z.lor (Z.lor (Z.shiftl (byte_of x 0) 24) (Z.shiftl (byte_of x 8) 16))
        (Z.lor (Z.shiftl (byte_of x 16) 8) (byte_of x 24)).

Definition sizeof_sockaddr_in : Z := 16.
Definition sizeof_sockaddr_in6 : Z := 28.

(** The address and the port of [ip_as_string], and whether it is IPv6; [None] for
    a return of -1.  The buffer has 128 bytes. *)
Definition split_sockaddr (s : list Z) : option (bool * list Z * option (list Z)) :=
  let cp := strchr s (ch ":") in
  if at_ s 0 =? ch "[" then
    '(l, r) ← strchr s (ch "]");
    if 127 <? zlen l - 1 then None else
    Some (true, tail l, if at_ r 1 =? ch ":" then Some (drop 2 r) else None)
  else
    match cp with
    | Some (l, r) =>
      match strchr (tail r) (ch ":") with
      | Some _ => Some (true, s, None)
      | None => if 127 <? zlen l then None else Some (false, l, Some (tail r))
      end
    | None => Some (false, s, None)
    end.

(** The result, and the address stored with its length. *)
Definition evutil_parse_sockaddr_port (s : list Z) (outlen : Z) : option (Z * option (sockaddr * Z)) :=
  match split_sockaddr s with
  | None => Some (-1, None)
  | Some (is_ipv6, addr_part, port_part) =>
    port ← match port_part with None => Some (Some 0) | Some p =>
             v ← atoi p; Some (if (v <=? 0) || (65535 <? v) then None else Some v) end;
    match port with
    | None => Some (-1, None)
    | Some port =>
      if (is_ipv6 : bool) then
        '(r, a) ← inet_pton6 addr_part;
        match a with
        | Some a => if negb (r =? 1) || (outlen <? sizeof_sockaddr_in6) then Some (-1, None)
                    else Some (0, Some (Sin6 port a, sizeof_sockaddr_in6))
        | None => Some (-1, None)
        end
      else
        '(r, a) ← inet_pton4 addr_part;
        match a with
        | Some a => if negb (r =? 1) || (outlen <? sizeof_sockaddr_in) then Some (-1, None)
                    else Some (0, Some (Sin port a, sizeof_sockaddr_in))
        | None => Some (-1, None)
        end
    end
  end.

(** The string left in [out]. *)
Definition evutil_format_sockaddr_port (sa : sockaddr) (outlen : Z) : option (list Z) :=
  let other := fst (evutil_snprintf (bytes_of "<addr with socktype " ++ print_d (sa_family sa) ++ [ch ">"]) outlen) in
  match sa with
  | Sin port a =>
    match inet_ntop4 a 128 with
    | Some b => fst (evutil_snprintf (b ++ [ch ":"] ++ print_d port) outlen)
    | None => other
    end
  | Sin6 port a =>
    match inet_ntop6 a 128 with
    | Some b => fst (evutil_snprintf ([ch "["] ++ b ++ [ch "]"; ch ":"] ++ print_d port) outlen)
    | None => other
    end
  | Sa_other _ => other
  end.

(** [memcmp] gives the sign of the first difference. *)
Fixpoint memcmp (a b : list Z) : Z :=
  match a, b with
  | x :: a', y :: b' => if x <? y then -1 else if y <? x then 1 else memcmp a' b'
  | _, _ => 0
  end.

Definition evutil_sockaddr_cmp (sa1 sa2 : sockaddr) (include_port : bool) : Z :=
  let r := sa_family sa1 - sa_family sa2 in
  if negb (r =? 0) then r else
  match sa1, sa2 with
  | Sin p1 a1, Sin p2 a2 =>
    if htonl a1 <? htonl a2 then -1 else if htonl a2 <? htonl a1 then 1
    else if include_port && negb (htons p1 - htons p2 =? 0) then htons p1 - htons p2 else 0
  | Sin6 p1 a1, Sin6 p2 a2 =>
    let r := memcmp a1 a2 in
    if negb (r =? 0) then r
    else if include_port && negb (htons p1 - htons p2 =? 0) then htons p1 - htons p2 else 0
  | _, _ => 1
  end.

Definition evutil_sockaddr_is_loopback (sa : sockaddr) : bool :=
  match sa with
  | Sin _ a => Z.land a 0xff000000 =? 0x7f000000
  | Sin6 _ a => memcmp a (replicate 15 0 ++ [1]) =? 0
  | Sa_other _ => false
  end.

(** ** The characters of addresses *)

(** What [inet_pton6] may step over; the white space, the signs and the [x] come
    from [sscanf] and [strtol]. *)
Definition addr_char (c : Z) : bool :=
  is_digit_of 16 c || (c =? ch ":") || (c =? ch ".") || isspace c || (c =? ch "+") || (c =? ch "-") ||
  (c =? ch "x") || (c =? ch "X").

Definition addr_chars (s : list Z) : Prop := Forall (fun c => addr_char c = true) s.

Lemma digit_addr_char base c : base <= 16 -> is_digit_of base c = true -> addr_char c = true.
Proof.
  intros Hb H. unfold addr_char. assert (is_digit_of 16 c = true) as ->; [|done].
  unfold is_digit_of in *. bool_to_prop. lia.
Qed.

(** What a reading step consumed. *)
Definition consumed (s r : list Z) : Prop := exists u, s = u ++ r /\ addr_chars u.

Lemma consumed_refl s : consumed s s.
Proof. exists []. split; [done | constructor]. Qed.

Lemma consumed_trans s r t : consumed s r -> consumed r t -> consumed s t.
Proof.
  intros (u & -> & Hu) (v & -> & Hv). exists (u ++ v). split; [by rewrite <- app_assoc|]. by apply Forall_app.
Qed.

Lemma consumed_cons c s : addr_char c = true -> consumed (c :: s) s.
Proof. intros H. exists [c]. split; [done|]. by constructor. Qed.

Lemma consumed_span P s :
  (forall c, P c = true -> addr_char c = true) -> consumed s (snd (span P s)).
Proof.
  intros HP. exists (fst (span P s)). split; [symmetry; apply span_eq|].
  eapply Forall_impl; [|apply span_all]. exact HP.
Qed.

Lemma consumed_space s : consumed s (snd (span isspace s)).
Proof. apply consumed_span. intros c Hc. unfold addr_char. rewrite Hc. by rewrite ?orb_true_r. Qed.

Lemma consumed_sign s : consumed s (snd (scan_sign s)).
Proof.
  destruct s as [|c s]; [apply consumed_refl|]. cbn.
  destruct (Z.eqb_spec c 45) as [->|]; [by apply consumed_cons|].
  destruct (Z.eqb_spec c 43) as [->|]; [by apply consumed_cons | apply consumed_refl].
Qed.

Lemma consumed_digits base s : base <= 16 -> consumed s (snd (span (is_digit_of base) s)).
Proof. intros Hb. apply consumed_span. intros c. by apply digit_addr_char. Qed.

Lemma scan_d_consumed s v r : scan_d s = Some (Some (v, r)) -> consumed s r.
Proof.
  unfold scan_d. pose proof (consumed_space s) as H1. pose proof (consumed_sign (snd (span isspace s))) as H2.
  destruct (scan_sign (snd (span isspace s))) as [neg s1]. cbn [snd] in H2.
  pose proof (consumed_digits 10 s1 ltac:(lia)) as H3. destruct (span (is_digit_of 10) s1) as [ds r1].
  cbn [snd] in H3. destruct ds; [done|]. destruct (_ && _); [|done]. intros [= _ <-].
  eapply consumed_trans; [exact H1|]. by eapply consumed_trans.
Qed.

Lemma scan_dotted_consumed more : forall s vs r, scan_dotted more s = Some (vs, Some r) -> consumed s r.
Proof.
  induction more as [|more IH]; intros s vs r H; cbn [scan_dotted] in H;
    apply bind_Some in H as ([[v s1]|] & Hd & H); try done; apply scan_d_consumed in Hd.
  - by injection H as _ <-.
  - destruct (Z.eqb_spec (at_ s1 0) (ch ".")) as [He|]; [|done].
    apply bind_Some in H as ([vs' r'] & Hs & H). injection H as _ ->. apply IH in Hs.
    eapply consumed_trans; [exact Hd|]. eapply consumed_trans; [|exact Hs].
    destruct s1 as [|c s1]; [done|]. rewrite at_cons_0 in He. subst c. by apply consumed_cons.
Qed.

Lemma scan_ipv4_chars (s vs : list Z) : scan_ipv4 s = Some (Some vs) -> addr_chars s.
Proof.
  unfold scan_ipv4. intros H. apply bind_Some in H as ([vs' [[|]|]] & Hs & H); try done.
  apply scan_dotted_consumed in Hs as (u & -> & Hu). by rewrite app_nil_r.
Qed.

Lemma strtol_consumed bits s r next : strtol bits 16 s = (r, next) -> consumed s next.
Proof.
  unfold strtol. pose proof (consumed_space s) as H1. pose proof (consumed_sign (snd (span isspace s))) as H2.
  destruct (scan_sign (snd (span isspace s))) as [neg s1]. cbn [snd] in H2. cbn [Z.eqb Pos.eqb andb].
  match goal with |- context [if ?b then drop 2 s1 else s1] => set (s2 := if b then drop 2 s1 else s1) end.
  assert (H3 : consumed s1 s2).
  { unfold s2. destruct (_ && _) eqn:E; [|apply consumed_refl]. bool_to_prop.
    destruct s1 as [|x [|y s1]]; [apply consumed_refl | done |]. rewrite at_cons_0, at_cons_S, at_cons_0 in *.
    exists [x; y]. split; [done|]. subst x. constructor; [done|]. constructor; [|done].
    match goal with H : (_ || _) = true |- _ => apply orb_prop in H as [H|H]; apply Z.eqb_eq in H as -> end; done. }
  pose proof (consumed_digits 16 s2 ltac:(lia)) as H4. destruct (span (is_digit_of 16) s2) as [ds r1].
  cbn [snd] in H4. destruct ds; [intros [= _ <-]; apply consumed_refl|]. intros [= _ <-].
  eapply consumed_trans; [exact H1|]. eapply consumed_trans; [exact H2|]. by eapply consumed_trans.
Qed.

Lemma addr_chars_ztake k s : addr_chars s -> addr_chars (ztake k s).
Proof. apply Forall_take. Qed.

Lemma addr_chars_step n c s : addr_char c = true -> addr_chars (ztake (n - 1) s) -> addr_chars (ztake n (c :: s)).
Proof.
  intros Hc Hs. unfold ztake in *. destruct (Z.to_nat n) as [|k] eqn:E; [constructor|].
  replace (Z.to_nat (n - 1)) with k in Hs by lia. by constructor.
Qed.

(** The loop over the words steps over address characters only. *)
Lemma pton6_loop_chars fuel : forall src n st st',
  pton6_loop fuel src n st = Some st' -> addr_chars (ztake n src).
Proof.
  induction fuel as [|fuel IH]; intros src n st st' H; [done|]. cbn [pton6_loop] in H.
  destruct (Z.leb_spec n 0) as [Hn|Hn]; [rewrite ztake_0 by lia; constructor|].
  destruct (7 <? p6_i st)%nat; [done|].
  assert (Hcolon : forall s k, at_ s 0 = ch ":" -> addr_chars (ztake (k - 1) (tail s)) -> addr_chars (ztake k s)).
  { intros s k Hs Ht. destruct s as [|c s]; [done|]. rewrite at_cons_0 in Hs. subst c. by apply addr_chars_step. }
  destruct (EVUTIL_ISXDIGIT (at_ src 0)).
  - destruct (strtol 32 16 src) as [r next] eqn:Es. destruct (strtol_consumed _ _ _ _ Es) as (u & Hsrc & Hu).
    assert (Hlen : zlen src - zlen next = zlen u) by (rewrite Hsrc, zlen_app; lia). rewrite Hlen in H.
    destruct (4 <? zlen u); [done|]. destruct (zlen u =? 0); [done|]. destruct (_ || _); [done|].
    destruct (negb (at_ next 0 =? 58) && _) eqn:He; [done|]. rewrite Hsrc. apply IH in H.
    destruct (Z.le_gt_cases n (zlen u)) as [Hle|Hgt]; [rewrite ztake_app_le by lia; by apply addr_chars_ztake|].
    rewrite ztake_app_ge by lia. apply Forall_app. split; [done|]. apply andb_false_iff in He as [He|He].
    + apply negb_false_iff, Z.eqb_eq in He. by apply Hcolon.
    + apply negb_false_iff, Z.eqb_eq in He. lia.
  - destruct ((at_ src 0 =? 58) && (0 <? p6_i st)%nat && (p6_gapPos st =? -1)) eqn:E1.
    { bool_to_prop. apply IH in H. by apply Hcolon. }
    destruct (_ && _ && _ && _) eqn:E2; [|done]. bool_to_prop. apply IH in H.
    destruct src as [|c [|d src]]; try done. rewrite at_cons_S, !at_cons_0 in *. cbn [tail] in H. subst c d.
    apply addr_chars_step; [done|]. apply addr_chars_step; [done|]. by replace (n - 1 - 1) with (n - 2) by lia.
Qed.

Lemma pton6_words_chars src n v4 a : pton6_words src n v4 = Some (1, a) -> addr_chars (ztake n src).
Proof.
  unfold pton6_words. destruct (pton6_loop _ _ _ _) as [st|] eqn:E; [|done]. intros _.
  by eapply pton6_loop_chars.
Qed.

(** An accepted IPv6 address has only address characters. *)
Lemma inet_pton6_chars src a : inet_pton6 src = Some (1, a) -> addr_chars src.
Proof.
  unfold inet_pton6. destruct (strchr src 46) as [[l r]|] eqn:Ed.
  2: { intros H%pton6_words_chars. by rewrite ztake_ge in H. }
  apply strchr_Some in Ed as (r' & -> & -> & _). destruct l as [|c l]; [done|].
  pose proof (span_eq EVUTIL_ISDIGIT (rev (c :: l))) as Hs.
  destruct (span EVUTIL_ISDIGIT (rev (c :: l))) as [rd rw]. cbn [fst snd] in Hs.
  assert (Hl : c :: l = rev rw ++ rev rd) by (by rewrite <- rev_app_distr, Hs, rev_involutive).
  intros H. apply bind_Some in H as ([v4|] & Hv & H); [|done]. apply scan_ipv4_chars in Hv.
  apply pton6_words_chars in H. rewrite Hl, <- app_assoc in *.
  assert (zlen (rev rw) = zlen rw) as Hlen by (unfold zlen; by rewrite length_rev).
  rewrite ztake_exact in H by done. by apply Forall_app.
Qed.

(** ** What the parsers accept beyond RFC 4291 *)

(** After eight words a colon may follow; a word may be written with the prefix
    that [strtol] takes; [sscanf] skips white space and takes signs. *)
Lemma inet_pton6_lax :
  inet_pton6 (bytes_of "1:2:3:4:5:6:7:8:") = Some (1, Some [0; 1; 0; 2; 0; 3; 0; 4; 0; 5; 0; 6; 0; 7; 0; 8]) /\
  inet_pton6 (bytes_of "0x1f::") = Some (1, Some [0; 31; 0; 0; 0; 0; 0; 0; 0; 0; 0; 0; 0; 0; 0; 0]) /\
  inet_pton6 (bytes_of "::1. 2.3.+4") = Some (1, Some [0; 0; 0; 0; 0; 0; 0; 0; 0; 0; 0; 0; 1; 2; 3; 4]).
Proof. repeat split; vm_compute; reflexivity. Qed.

(** With room for the text but not for its terminator [inet_ntop6] does not fail:
    the last character is cut off. *)
Lemma inet_ntop6_cut :
  let addr := [0xfe; 0x80; 0; 0; 0; 0; 0; 1; 0; 0; 0; 0; 0; 10; 0; 11] in
  ntop6_text addr = bytes_of "fe80::1:0:0:a:b" /\ inet_ntop6 addr 15 = Some (bytes_of "fe80::1:0:0:a:").
Proof. split; vm_compute; reflexivity. Qed.
