(* ===== verification/Uri.v ===== *)
(** URIs ([http.c], [struct evhttp_uri]): the parser, the functions that put a URI
    together again, and the accessors.  [None] is undefined behaviour, in the
    parser the overflow of a port number and what [sscanf] does with one in an
    IPv6 address.  *)

From S2P Require Import Prelude EvChain Evbuffer EvIO Cstring Inet.

(** ** Characters *)

Definition uri_chars : list Z :=
  [0; 0; 0; 0; 0; 0; 0; 0; 0; 0; 0; 0; 0; 0; 0; 0;
   0; 0; 0; 0; 0; 0; 0; 0; 0; 0; 0; 0; 0; 0; 0; 0;
   0; 0; 0; 0; 0; 0; 0; 0; 0; 0; 0; 0; 0; 1; 1; 0;
   1; 1; 1; 1; 1; 1; 1; 1; 1; 1; 0; 0; 0; 0; 0; 0;
   0; 1; 1; 1; 1; 1; 1; 1; 1; 1; 1; 1; 1; 1; 1; 1;
   1; 1; 1; 1; 1; 1; 1; 1; 1; 1; 1; 0; 0; 0; 0; 1;
   0; 1; 1; 1; 1; 1; 1; 1; 1; 1; 1; 1; 1; 1; 1; 1;
   1; 1; 1; 1; 1; 1; 1; 1; 1; 1; 1; 0; 0; 0; 1; 0;
   0; 0; 0; 0; 0; 0; 0; 0; 0; 0; 0; 0; 0; 0; 0; 0;
   0; 0; 0; 0; 0; 0; 0; 0; 0; 0; 0; 0; 0; 0; 0; 0;
   0; 0; 0; 0; 0; 0; 0; 0; 0; 0; 0; 0; 0; 0; 0; 0;
   0; 0; 0; 0; 0; 0; 0; 0; 0; 0; 0; 0; 0; 0; 0; 0;
   0; 0; 0; 0; 0; 0; 0; 0; 0; 0; 0; 0; 0; 0; 0; 0;
   0; 0; 0; 0; 0; 0; 0; 0; 0; 0; 0; 0; 0; 0; 0; 0;
   0; 0; 0; 0; 0; 0; 0; 0; 0; 0; 0; 0; 0; 0; 0; 0;
   0; 0; 0; 0; 0; 0; 0; 0; 0; 0; 0; 0; 0; 0; 0; 0].

Definition CHAR_IS_UNRESERVED (c : Z) : bool := negb (at_ uri_chars (Z.to_nat (wrap 8 c)) =? 0).

Definition SUBDELIMS : list Z := Eval vm_compute in bytes_of "!$&'()*+,;=".

(** ** The record *)

Record evhttp_uri := {
  uri_flags : Z;
  scheme : option (list Z);
  userinfo : option (list Z);
  host : option (list Z);
  port : Z;
  path : option (list Z);
  query : option (list Z);
  fragment : option (list Z) }.

#[export] Instance settable_uri : Settable evhttp_uri := fun r =>
  {| uri_flags := uri_flags r; scheme := scheme r; userinfo := userinfo r; host := host r; port := port r;
     path := path r; query := query r; fragment := fragment r |}.

Definition EVHTTP_URI_NONCONFORMANT : Z := 0x01.

Definition empty_uri : evhttp_uri :=
  {| uri_flags := 0; scheme := None; userinfo := None; host := None; port := -1;
     path := None; query := None; fragment := None |}.

Definition evhttp_uri_set_flags (uri : evhttp_uri) (flags : Z) : evhttp_uri := uri <| uri_flags := flags |>.

(** ** The parts of a URI *)

(** A range of characters [s..eos) is the list of them. *)
Definition scheme_ok (s : list Z) : bool :=
  match s with
  | [] => false
  | c :: s' => EVUTIL_ISALPHA c &&
      forallb (fun c => EVUTIL_ISALNUM c || (c =? ch "+") || (c =? ch "-") || (c =? ch ".")) s'
  end.

Fixpoint userinfo_ok (s : list Z) : bool :=
  match s with
  | [] => true
  | c :: s1 =>
    if CHAR_IS_UNRESERVED c || strchr_set SUBDELIMS c || (c =? ch ":") then userinfo_ok s1
    else match s1 with
         | a :: b :: s3 => (c =? ch "%") && EVUTIL_ISXDIGIT a && EVUTIL_ISXDIGIT b && userinfo_ok s3
         | _ => false
         end
  end.

(** The characters after a percent sign are read without a look at the end of the
    range; [after] is the string from there. *)
Fixpoint regname_ok (s after : list Z) : bool :=
  match s with
  | [] => true
  | c :: s1 =>
    if CHAR_IS_UNRESERVED c || strchr_set SUBDELIMS c then regname_ok s1 after
    else if (c =? ch "%") && EVUTIL_ISXDIGIT (at_ (s1 ++ after) 0) && EVUTIL_ISXDIGIT (at_ (s1 ++ after) 1)
    then match s1 with _ :: _ :: s3 => regname_ok s3 after | _ => true end
    else false
  end.

(** The number may not leave the range of [int]; the test for a negative one comes
    after the overflow. *)
Fixpoint parse_port_loop (s : list Z) (portnum : Z) : option Z :=
  match s with
  | [] => Some portnum
  | c :: s' =>
    if negb (EVUTIL_ISDIGIT c) then Some (-1) else
    let n := portnum * 10 + (c - ch "0") in
    if INT_MAX <? n then None else if n <? 0 then Some (-1) else parse_port_loop s' n
  end.

Definition parse_port (s : list Z) : option Z := parse_port_loop s 0.

(** 0 for bad, 1 for IPv6, 2 for IPvFuture.  [s] is the whole range; at its end
    the closing bracket is read, which is no digit and no dot. *)
Definition bracket_addr_ok (s : list Z) : option Z :=
  if (zlen s <? 3) || negb (at_ s 0 =? ch "[") || negb (at_ s (length s - 1) =? ch "]") then Some 0 else
  if at_ s 1 =? ch "v" then
    let b := ztake (zlen s - 3) (drop 2 s) in
    if negb (EVUTIL_ISXDIGIT (at_ b 0)) then Some 0 else
    let '(hex, r) := span (fun c => negb (c =? ch ".")) b in
    if negb (forallb EVUTIL_ISXDIGIT hex) then Some 0 else
    if negb (at_ r 0 =? ch ".") then Some 0 else
    if forallb (fun c => CHAR_IS_UNRESERVED c || strchr_set SUBDELIMS c || (c =? ch ":")) (tail r)
    then Some 2 else Some 0
  else
    let n_chars := zlen s - 2 in
    if 64 <=? n_chars then Some 0 else
    '(r, _) ← inet_pton6 (ztake n_chars (tail s));
    Some (if r =? 1 then 1 else 0).

(** The characters before the [?], [#] or [/] that ends an authority, and the rest. *)
Fixpoint end_of_authority (s : list Z) : list Z * list Z :=
  match s with
  | c :: s' =>
    if (c =? ch "?") || (c =? ch "#") || (c =? ch "/") then ([], s)
    else let '(l, r) := end_of_authority s' in (c :: l, r)
  | [] => ([], [])
  end.

Inductive uri_part := PART_PATH | PART_QUERY | PART_FRAGMENT.

Definition is_path (p : uri_part) : bool := match p with PART_PATH => true | _ => false end.

(** The characters that may follow each other in a part. *)
Fixpoint end_of_path_conformant (s : list Z) (part : uri_part) : list Z * list Z :=
  match s with
  | [] => ([], [])
  | c :: s1 =>
    if CHAR_IS_UNRESERVED c || strchr_set SUBDELIMS c || (c =? ch ":") || (c =? ch "@") || (c =? ch "/")
    then let '(l, r) := end_of_path_conformant s1 part in (c :: l, r)
    else match s1 with
         | a :: b :: s3 =>
           if (c =? ch "%") && EVUTIL_ISXDIGIT a && EVUTIL_ISXDIGIT b
           then let '(l, r) := end_of_path_conformant s3 part in (c :: a :: b :: l, r)
           else if (c =? ch "?") && negb (is_path part)
           then let '(l, r) := end_of_path_conformant s1 part in (c :: l, r) else ([], s)
         | _ => if (c =? ch "?") && negb (is_path part)
                then let '(l, r) := end_of_path_conformant s1 part in (c :: l, r) else ([], s)
         end
  end.

(** The text up to the pointer returned, and the string from there. *)
Definition end_of_path (s : list Z) (part : uri_part) (flags : Z) : list Z * list Z :=
  if negb (Z.land flags EVHTTP_URI_NONCONFORMANT =? 0) then
    match part with
    | PART_PATH => span (fun c => negb (c =? ch "#") && negb (c =? ch "?")) s
    | PART_QUERY => span (fun c => negb (c =? ch "#")) s
    | PART_FRAGMENT => (s, [])
    end
  else end_of_path_conformant s part.

Fixpoint path_matches_noscheme (s : list Z) : bool :=
  match s with
  | c :: s' => if c =? ch ":" then false else if c =? ch "/" then true else path_matches_noscheme s'
  | [] => true
  end.

Section uri.
Context {A : Arch} {M : Allocator}.

(** The structure has eight words, with padding on 64 bits: [size_bits] bytes. *)
Definition evhttp_uri_new : option evhttp_uri :=
  match mm_malloc size_bits with Some _ => Some empty_uri | None => None end.

(** The part of an authority after the user: the text before the port, and the
    port if one is stored; [Some None] is the return of -1. *)
Definition split_port (cp : list Z) : option (option (list Z * option Z)) :=
  let '(rdigits, rest) := span EVUTIL_ISDIGIT (rev cp) in
  match rest with
  | c :: rhost =>
    if c =? ch ":" then
      if zlen rdigits =? 0 then Some (Some (rev rhost, Some (-1))) else
      p ← parse_port (rev rdigits);
      Some (if p <? 0 then None else Some (rev rhost, Some p))
    else Some (Some (cp, None))
  | [] => Some (Some (cp, None))
  end.

(** The authority is [s], and [after] the string from [eos]; [Some None] is -1. *)
Definition parse_authority (uri : evhttp_uri) (s after : list Z) : option (option evhttp_uri) :=
  if zlen s =? 0 then
    Some (match mm_strdup [] with Some h => Some (uri <| host := Some h |>) | None => None end)
  else
    let user := match strchr (s ++ after) (ch "@") with
                | Some (l, _) => if zlen l <? zlen s then Some l else None
                | None => None end in
    let with_user := match user with
      | Some l => if userinfo_ok l then
                    match mm_strdup l with Some u => Some (uri <| userinfo := Some u |>) | None => None end
                  else None
      | None => Some uri end in
    match with_user with
    | None => Some None
    | Some uri =>
      let cp := match user with Some l => zdrop (zlen l + 1) s | None => s end in
      sp ← split_port cp;
      match sp with
      | None => Some None
      | Some (h, p) =>
        let uri := match p with Some p => uri <| port := p |> | None => uri end in
        ok ← (if (at_ h 0 =? ch "[") && (2 <=? zlen h) && (at_ h (length h - 1) =? ch "]")
              then r ← bracket_addr_ok h; Some (negb (r =? 0))
              else Some (regname_ok h (zdrop (zlen h) cp ++ after)));
        if negb ok then Some None else
        Some (match mm_malloc (zlen h + 1) with Some _ => Some (uri <| host := Some h |>) | None => None end)
      end
    end.

(** The end of the parser: the three strings are stored when memory allows. *)
Definition store_parts (uri : evhttp_uri) (p : list Z) (q f : option (list Z)) : option evhttp_uri :=
  p ← mm_strdup p;
  q ← match q with None => Some None | Some q => Some <$> mm_strdup q end;
  f ← match f with None => Some None | Some f => Some <$> mm_strdup f end;
  Some (uri <| path := Some p |> <| query := q |> <| fragment := f |>).

(** An optional part that the character [c] introduces. *)
Definition parse_part (s : list Z) (c : Z) (part : uri_part) (flags : Z) : option (list Z) * list Z :=
  if at_ s 0 =? c then let '(l, r) := end_of_path (tail s) part flags in (Some l, r) else (None, s).

(** The structure, or NULL for text that is no URI or when memory runs out. *)
Definition evhttp_uri_parse_with_flags (source_uri : list Z) (flags : Z) : option (option evhttp_uri) :=
  match mm_malloc size_bits with
  | None => Some None
  | Some _ =>
    let uri := empty_uri <| uri_flags := flags |> in
    match mm_strdup source_uri with
    | None => Some None
    | Some readp =>
      let sch := match strchr readp (ch ":") with
                 | Some (l, r) => if scheme_ok l then Some (l, tail r) else None
                 | None => None end in
      let with_scheme := match sch with
        | Some (l, r) => match mm_strdup l with Some l => Some (uri <| scheme := Some l |>, r) | None => None end
        | None => Some (uri, readp) end in
      match with_scheme with
      | None => Some None
      | Some (uri, readp) =>
        let got_authority := (at_ readp 0 =? ch "/") && (at_ readp 1 =? ch "/") in
        with_auth ← (if got_authority then
            let '(authority, after) := end_of_authority (drop 2 readp) in
            o ← parse_authority uri authority after;
            Some (match o with Some uri => Some (uri, after) | None => None end)
          else Some (Some (uri, readp)));
        match with_auth with
        | None => Some None
        | Some (uri, readp) =>
          let '(p, readp) := end_of_path readp PART_PATH flags in
          let '(q, readp) := parse_part readp (ch "?") PART_QUERY flags in
          let '(f, readp) := parse_part readp (ch "#") PART_FRAGMENT flags in
          if negb (at_ readp 0 =? 0) then Some None else
          if negb got_authority && (at_ p 0 =? ch "/") && (at_ p 1 =? ch "/") then Some None else
          if got_authority && negb (at_ p 0 =? ch "/") && negb (at_ p 0 =? 0) then Some None else
          if bool_decide (scheme uri = None) && negb (path_matches_noscheme p) then Some None else
          Some (store_parts uri p q f)
        end
      end
    end
  end.

Definition evhttp_uri_parse (source_uri : list Z) : option (option evhttp_uri) :=
  evhttp_uri_parse_with_flags source_uri 0.

(** ** Putting a URI together *)

Definition put (b : evbuffer) (d : list Z) : option evbuffer :=
  '(_, b) ← evbuffer_add b d; Some b.

Definition put_printf (b : evbuffer) (d : list Z) : option evbuffer :=
  '(_, b) ← evbuffer_add_vprintf b (Some d); Some b.

Definition put_opt (b : evbuffer) (pre : list Z) (d : option (list Z)) : option evbuffer :=
  match d with None => Some b | Some d => b ← put b pre; put b d end.

(** What is added before the path; [Some None] is the jump to [err]. *)
Definition join_host (b : evbuffer) (uri : evhttp_uri) : option (option evbuffer) :=
  match host uri with
  | None => Some (Some b)
  | Some h =>
    b ← put b (bytes_of "//");
    b ← match userinfo uri with None => Some b | Some u => put_printf b (u ++ [ch "@"]) end;
    b ← put b h;
    b ← (if 0 <=? port uri then put_printf b (ch ":" :: print_d (port uri)) else Some b);
    Some (match path uri with
          | Some p => if negb (at_ p 0 =? ch "/") && negb (at_ p 0 =? 0) then None else Some b
          | None => Some b
          end)
  end.

(** The bytes stored in [buf], or NULL.  The buffer that [evbuffer_new] allocates
    has [sizeof_evbuffer] bytes. *)
Definition evhttp_uri_join (sizeof_evbuffer : Z) (uri : evhttp_uri) (limit : Z) : option (option (list Z)) :=
  if limit =? 0 then Some None else
  match mm_malloc sizeof_evbuffer with
  | None => Some None
  | Some _ =>
    let tmp := evbuffer_new in
    tmp ← match scheme uri with None => Some tmp | Some s => tmp ← put tmp s; put tmp [ch ":"] end;
    o ← join_host tmp uri;
    match o with
    | None => Some None
    | Some tmp =>
      tmp ← match path uri with None => Some tmp | Some p => put tmp p end;
      tmp ← put_opt tmp [ch "?"] (query uri);
      tmp ← put_opt tmp [ch "#"] (fragment uri);
      tmp ← put tmp [0];
      let joined_size := evbuffer_get_length tmp in
      if limit <? joined_size then Some None else
      '(_, buf, _) ← evbuffer_remove tmp joined_size;
      Some (Some buf)
    end
  end.

(** ** Accessors *)

Definition evhttp_uri_get_scheme (uri : evhttp_uri) : option (list Z) := scheme uri.
Definition evhttp_uri_get_userinfo (uri : evhttp_uri) : option (list Z) := userinfo uri.
Definition evhttp_uri_get_host (uri : evhttp_uri) : option (list Z) := host uri.
Definition evhttp_uri_get_port (uri : evhttp_uri) : Z := port uri.
Definition evhttp_uri_get_path (uri : evhttp_uri) : option (list Z) := path uri.
Definition evhttp_uri_get_query (uri : evhttp_uri) : option (list Z) := query uri.
Definition evhttp_uri_get_fragment (uri : evhttp_uri) : option (list Z) := fragment uri.

(** [_URI_SET_STR]: the result and the new value of the field. *)
Definition _URI_SET_STR (f : option (list Z)) : Z * option (list Z) :=
  match f with
  | None => (0, None)
  | Some s => match mm_strdup s with Some s => (0, Some s) | None => (-1, None) end
  end.

Definition evhttp_uri_set_scheme (uri : evhttp_uri) (f : option (list Z)) : Z * evhttp_uri :=
  if match f with Some s => negb (scheme_ok s) | None => false end then (-1, uri) else
  let '(r, f) := _URI_SET_STR f in (r, uri <| scheme := f |>).

Definition evhttp_uri_set_userinfo (uri : evhttp_uri) (f : option (list Z)) : Z * evhttp_uri :=
  if match f with Some s => negb (userinfo_ok s) | None => false end then (-1, uri) else
  let '(r, f) := _URI_SET_STR f in (r, uri <| userinfo := f |>).

Definition evhttp_uri_set_host (uri : evhttp_uri) (f : option (list Z)) : option (Z * evhttp_uri) :=
  ok ← match f with
       | None => Some true
       | Some h => if at_ h 0 =? ch "[" then r ← bracket_addr_ok h; Some (negb (r =? 0))
                   else Some (regname_ok h [])
       end;
  if negb ok then Some (-1, uri) else
  let '(r, f) := _URI_SET_STR f in Some (r, uri <| host := f |>).

Definition evhttp_uri_set_port (uri : evhttp_uri) (p : Z) : Z * evhttp_uri :=
  if p <? -1 then (-1, uri) else (0, uri <| port := p |>).

(** Does the whole string belong to the part? *)
Definition whole_part (f : option (list Z)) (part : uri_part) (flags : Z) : bool :=
  match f with Some s => zlen (snd (end_of_path s part flags)) =? 0 | None => true end.

Definition evhttp_uri_set_path (uri : evhttp_uri) (f : option (list Z)) : Z * evhttp_uri :=
  if negb (whole_part f PART_PATH (uri_flags uri)) then (-1, uri) else
  let '(r, f) := _URI_SET_STR f in (r, uri <| path := f |>).

Definition evhttp_uri_set_query (uri : evhttp_uri) (f : option (list Z)) : Z * evhttp_uri :=
  if negb (whole_part f PART_QUERY (uri_flags uri)) then (-1, uri) else
  let '(r, f) := _URI_SET_STR f in (r, uri <| query := f |>).

Definition evhttp_uri_set_fragment (uri : evhttp_uri) (f : option (list Z)) : Z * evhttp_uri :=
  if negb (whole_part f PART_FRAGMENT (uri_flags uri)) then (-1, uri) else
  let '(r, f) := _URI_SET_STR f in (r, uri <| fragment := f |>).
End uri.
