(* ===== verification/UriSpec.v ===== *)
(** What a URI is (RFC 3986, in the form the documentation of [http.c] refers to),
    as a relation between texts and records, and the lemmas that the parser
    follows it part by part. *)

From S2P Require Import Prelude EvChain EvbufferProps Cstring Inet Uri.

(** ** Characters *)

Definition unreserved (c : Z) : bool :=
  EVUTIL_ISALPHA c || EVUTIL_ISDIGIT c || (c =? ch "-") || (c =? ch ".") || (c =? ch "_") || (c =? ch "~").

Definition subdelim (c : Z) : bool := existsb (Z.eqb c) SUBDELIMS.

Definition userchar (c : Z) : bool := unreserved c || subdelim c || (c =? ch ":").
Definition regchar (c : Z) : bool := unreserved c || subdelim c.
Definition pchar (c : Z) : bool := unreserved c || subdelim c || (c =? ch ":") || (c =? ch "@") || (c =? ch "/").
Definition qchar (c : Z) : bool := pchar c || (c =? ch "?").

(** Strings of such characters and of percent-encoded bytes. *)
Inductive encoded (ok : Z -> bool) : list Z -> Prop :=
| enc_nil : encoded ok []
| enc_char c s : ok c = true -> encoded ok s -> encoded ok (c :: s)
| enc_pct a b s : EVUTIL_ISXDIGIT a = true -> EVUTIL_ISXDIGIT b = true ->
    encoded ok s -> encoded ok (ch "%" :: a :: b :: s).

(** ** Texts of URIs *)

(** A path, query or fragment. *)
Definition part_text (flags : Z) (part : uri_part) (s : list Z) : Prop :=
  if negb (Z.land flags EVHTTP_URI_NONCONFORMANT =? 0) then
    match part with
    | PART_PATH => ch "#" ∉ s /\ ch "?" ∉ s
    | PART_QUERY => ch "#" ∉ s
    | PART_FRAGMENT => True
    end
  else encoded (if is_path part then pchar else qchar) s.

(** A name, or an address in brackets that the address parser takes. *)
Definition host_text (h : list Z) : Prop :=
  encoded regchar h \/ exists b r, h = [ch "["] ++ b ++ [ch "]"] /\ bracket_addr_ok h = Some r /\ r <> 0.

(** A port may be left empty. *)
Definition port_text (p : Z) (s : list Z) : Prop :=
  p = -1 /\ (s = [] \/ s = [ch ":"]) \/
  exists ds, ds <> [] /\ Forall (fun c => is_digit_of 10 c = true) ds /\ s = ch ":" :: ds /\
    digits_value 10 ds = p /\ p <= INT_MAX.

Definition optional (pre : list Z) (o : option (list Z)) : list Z :=
  match o with None => [] | Some s => pre ++ s end.

(** The text before the path. *)
Definition authority_text (uri : evhttp_uri) (s : list Z) : Prop :=
  match host uri with
  | None => s = [] /\ userinfo uri = None /\ port uri = -1
  | Some h => host_text h /\ exists pt, port_text (port uri) pt /\
      match userinfo uri with
      | None => s = bytes_of "//" ++ h ++ pt
      | Some u => encoded userchar u /\ s = bytes_of "//" ++ u ++ [ch "@"] ++ h ++ pt
      end
  end.

(** The path does not make the text before it end elsewhere. *)
Definition path_fits (uri : evhttp_uri) (p : list Z) : Prop :=
  match host uri with
  | None => (at_ p 0 =? ch "/") && (at_ p 1 =? ch "/") = false
  | Some _ => p = [] \/ at_ p 0 = ch "/"
  end /\
  (scheme uri = None -> path_matches_noscheme p = true).

(** The text [s] stands for the record [uri]. *)
Definition denotes (uri : evhttp_uri) (s : list Z) : Prop :=
  exists sch auth p,
    match scheme uri with None => sch = [] | Some x => scheme_ok x = true /\ sch = x ++ [ch ":"] end /\
    authority_text uri auth /\
    path uri = Some p /\ part_text (uri_flags uri) PART_PATH p /\ path_fits uri p /\
    (forall q, query uri = Some q -> part_text (uri_flags uri) PART_QUERY q) /\
    (forall f, fragment uri = Some f -> part_text (uri_flags uri) PART_FRAGMENT f) /\
    s = sch ++ auth ++ p ++ optional [ch "?"] (query uri) ++ optional [ch "#"] (fragment uri).

(** ** The character table *)

Lemma unreserved_spec c : 0 <= c < 256 -> CHAR_IS_UNRESERVED c = unreserved c.
Proof. intros H. by_bytes c H. Qed.

Lemma strchr_set_spec c : c <> 0 -> strchr_set SUBDELIMS c = subdelim c.
Proof. intros H. unfold strchr_set, subdelim. by rewrite (proj2 (Z.eqb_neq _ _) H). Qed.

Lemma char_byte c : is_char c -> 0 <= c < 256.
Proof. unfold is_char. lia. Qed.

#[export] Hint Resolve char_byte : ev.

(** Rewrites the tests of the code to the classes of the grammar. *)
Ltac to_classes c Hc :=
  let H := fresh in assert (H : 0 <= c < 256) by (apply char_byte; exact Hc);
  rewrite ?(unreserved_spec c H), ?(strchr_set_spec c) by (unfold is_char in Hc; lia); clear H.

(** No class holds one of the delimiters around it. *)
Lemma class_excludes (ok : Z -> bool) x c : ok x = false -> ok c = true -> c <> x.
Proof. intros Hx Hc ->. congruence. Qed.

(** Characters of encoded strings. *)
Lemma encoded_not_in ok x s :
  encoded ok s -> ok x = false -> x <> ch "%" -> EVUTIL_ISXDIGIT x = false -> x ∉ s.
Proof.
  intros Hs Hx Hp Hd. induction Hs as [|c s Hc _ IH|a b s Ha Hb _ IH].
  - apply not_elem_of_nil.
  - apply not_elem_of_cons. split; [|done]. intros ->. congruence.
  - rewrite !not_elem_of_cons. splits; try done; intros ->; congruence.
Qed.

(** The loops go on by one character or by three. *)
Lemma step13_ind (P : list Z -> Prop) :
  P [] -> (forall c s, P s -> (forall a b r, s = a :: b :: r -> P r) -> P (c :: s)) -> forall s, P s.
Proof.
  intros H0 Hs. assert (forall n s, (length s <= n)%nat -> P s) as H; [|intros s; by apply (H (length s))].
  induction n as [|n IH]; intros [|c s] Hn; cbn [length] in Hn; try done; try lia.
  apply Hs; [apply IH; lia|]. intros a b r ->. apply IH. cbn in Hn. lia.
Qed.

Lemma cstring_drop2 a b s : cstring (a :: b :: s) -> cstring s.
Proof. intros [_ [_ H]%Forall_cons_split]%Forall_cons_split. exact H. Qed.

(** ** The character loops *)

Lemma userinfo_ok_spec s : cstring s -> userinfo_ok s = true <-> encoded userchar s.
Proof.
  induction s as [|c s IH1 IH3] using step13_ind; [split; [intros; constructor | done]|].
  intros [Hc Hs]%Forall_cons_split. cbn [userinfo_ok]. to_classes c Hc.
  change (unreserved c || subdelim c || (c =? 58)) with (userchar c).
  destruct (userchar c) eqn:Hu.
  - rewrite IH1 by done. split; [intros; by constructor | inversion 1; subst; [done | discriminate Hu]].
  - split.
    + destruct s as [|a [|b s]]; try done. intros H. bool_to_prop. subst c. apply enc_pct; try done.
      eapply IH3; [done | by eapply cstring_drop2 | done].
    + inversion 1 as [|? ? Hok|a b s' Ha Hb Hs']; subst; [congruence|]. rewrite Ha, Hb. cbn [andb Z.eqb Pos.eqb].
      eapply IH3; [done | by eapply cstring_drop2 | done].
Qed.

(** The string after the range starts with no hexadecimal digit. *)
Lemma regname_ok_spec s after :
  cstring s -> EVUTIL_ISXDIGIT (at_ after 0) = false -> regname_ok s after = true <-> encoded regchar s.
Proof.
  intros Hs Haft. revert Hs. induction s as [|c s IH1 IH3] using step13_ind; [split; [intros; constructor | done]|].
  intros [Hc Hs]%Forall_cons_split. cbn [regname_ok]. to_classes c Hc.
  change (unreserved c || subdelim c) with (regchar c).
  destruct (regchar c) eqn:Hu.
  - rewrite IH1 by done. split; [intros; by constructor | inversion 1; subst; [done | discriminate Hu]].
  - split.
    + destruct s as [|a [|b s]]; cbn [app]; rewrite ?at_cons_0, ?at_cons_S, ?Haft, ?andb_false_r; try done.
      cbn [app]. rewrite at_cons_0. destruct (_ && _) eqn:H; [|done]. bool_to_prop. subst c.
      intros H. apply enc_pct; try done. eapply IH3; [done | by eapply cstring_drop2 | done].
    + inversion 1 as [|? ? Hok|a b s' Ha Hb Hs']; subst; [congruence|]. cbn [app].
      rewrite at_cons_S, !at_cons_0, Ha, Hb. cbn [andb Z.eqb Pos.eqb].
      eapply IH3; [done | by eapply cstring_drop2 | done].
Qed.

(** ** The ends of the parts *)

(** The classes of the path and of the parts after it. *)
Definition part_char (part : uri_part) : Z -> bool := if is_path part then pchar else qchar.

Lemma end_of_path_sound part s l r :
  cstring s -> end_of_path_conformant s part = (l, r) -> s = l ++ r /\ encoded (part_char part) l.
Proof.
  intros Hs. revert l r Hs. induction s as [|c s IH1 IH3] using step13_ind.
  { intros l r _ [= <- <-]. split; [done | constructor]. }
  intros l r [Hc Hs]%Forall_cons_split. cbn [end_of_path_conformant]. to_classes c Hc.
  change (unreserved c || subdelim c || (c =? 58) || (c =? 64) || (c =? 47)) with (pchar c).
  assert (Hone : part_char part c = true ->
    (let '(l, r) := end_of_path_conformant s part in (c :: l, r)) = (l, r) ->
    c :: s = l ++ r /\ encoded (part_char part) l).
  { intros Hp. destruct (end_of_path_conformant s part) as [l1 r1]. intros [= <- <-].
    destruct (IH1 _ _ Hs eq_refl) as [-> ?]. split; [done|]. by constructor. }
  assert (Hstop : ([], c :: s) = (l, r) -> c :: s = l ++ r /\ encoded (part_char part) l).
  { intros [= <- <-]. split; [done | constructor]. }
  destruct (pchar c) eqn:Hp.
  { apply Hone. unfold part_char, qchar. destruct (is_path part); [done|]. by rewrite Hp. }
  assert (Hq : (if (c =? 63) && negb (is_path part)
     then let '(l, r) := end_of_path_conformant s part in (c :: l, r) else ([], c :: s)) = (l, r) ->
     c :: s = l ++ r /\ encoded (part_char part) l).
  { destruct ((c =? 63) && negb (is_path part)) eqn:E; [|done]. bool_to_prop. apply Hone. unfold part_char, qchar.
    destruct (is_path part); [done|]. subst c. by rewrite orb_true_r. }
  destruct s as [|a [|b s]]; try exact Hq.
  destruct ((c =? 37) && EVUTIL_ISXDIGIT a && EVUTIL_ISXDIGIT b) eqn:E; [|exact Hq]. bool_to_prop. subst c.
  destruct (end_of_path_conformant s part) as [l1 r1] eqn:E. intros [= <- <-].
  destruct (IH3 _ _ _ eq_refl _ _ (cstring_drop2 _ _ _ Hs) E) as [-> ?]. split; [done|]. by apply enc_pct.
Qed.

(** A part ends where its characters do. *)
Lemma end_of_path_complete part l r :
  cstring (l ++ r) -> encoded (part_char part) l ->
  r = [] \/ at_ r 0 = ch "#" \/ is_path part = true /\ at_ r 0 = ch "?" ->
  end_of_path_conformant (l ++ r) part = (l, r).
Proof.
  intros Hs Hl Hr. induction Hl as [|c l Hc _ IH|a b l Ha Hb _ IH]; cbn [app] in *.
  - destruct r as [|c r]; [done|]. rewrite at_cons_0 in Hr. cbn [end_of_path_conformant].
    destruct Hr as [Hr|[->|[Hp ->]]]; [done | |rewrite Hp]; cbn; destruct r as [|? [|? ?]]; done.
  - apply Forall_cons_split in Hs as [Hcc Hs]. cbn [end_of_path_conformant]. to_classes c Hcc.
    change (unreserved c || subdelim c || (c =? 58) || (c =? 64) || (c =? 47)) with (pchar c).
    rewrite IH by done. destruct (pchar c) eqn:Hp; [done|]. unfold part_char, qchar in Hc.
    destruct (is_path part); [congruence|]. rewrite Hp in Hc. cbn [orb] in Hc. rewrite Hc.
    apply Z.eqb_eq in Hc as ->. by destruct (l ++ r) as [|? [|? ?]].
  - cbn [end_of_path_conformant]. rewrite Ha, Hb. cbn [andb Z.eqb Pos.eqb].
    change (CHAR_IS_UNRESERVED 37 || strchr_set SUBDELIMS 37 || false || false || false) with false. cbn iota.
    rewrite IH; [done|]. apply Forall_cons_split in Hs as [_ Hs]. by eapply cstring_drop2.
Qed.

(** ** Hosts *)

(** The characters of a host, the brackets included, and the delimiters that are
    none of them. *)
Definition hostchar (c : Z) : bool :=
  addr_char c || userchar c || (c =? ch "[") || (c =? ch "]").

Definition delims : list Z := Eval vm_compute in bytes_of "/?#@".

Lemma hostchar_delims x s : x ∈ delims -> Forall (fun c => hostchar c = true) s -> x ∉ s.
Proof.
  intros Hx Hs Hin. rewrite Forall_forall in Hs. apply list_elem_of_In in Hin. specialize (Hs _ Hin). unfold delims in Hx.
  repeat (apply elem_of_cons in Hx as [-> |Hx]; [discriminate Hs|]). by apply elem_of_nil in Hx.
Qed.

Lemma encoded_delims ok x s :
  (ok = userchar \/ ok = regchar) -> x ∈ delims -> encoded ok s -> x ∉ s.
Proof.
  intros Hok Hx Hs. unfold delims in Hx.
  repeat (apply elem_of_cons in Hx as [-> |Hx]; [eapply encoded_not_in; [exact Hs | by destruct Hok as [-> | ->] | done | done]|]).
  by apply elem_of_nil in Hx.
Qed.

Lemma brackets_split h :
  3 <= zlen h -> at_ h 0 = ch "[" -> at_ h (length h - 1) = ch "]" ->
  exists b, b <> [] /\ h = ch "[" :: b ++ [ch "]"].
Proof.
  intros Hl H0 H1. destruct h as [|c h]; [by rewrite zlen_nil in Hl|]. rewrite at_cons_0 in H0. subst c.
  destruct h as [|y b _] using rev_ind; [done|]. exists b. split.
  - intros ->. cbn [app] in Hl. rewrite !zlen_cons, zlen_nil in Hl. lia.
  - cbn [length] in H1. rewrite length_app in H1. cbn [length] in H1.
    replace (S (length b + 1) - 1)%nat with (S (length b)) in H1 by lia. rewrite at_cons_S in H1.
    unfold at_ in H1. rewrite list_lookup_middle in H1 by done. cbn in H1. by subst y.
Qed.

Lemma bracket_ok_chars h r :
  cstring h -> bracket_addr_ok h = Some r -> r <> 0 -> Forall (fun c => hostchar c = true) h.
Proof.
  intros Hs H Hr. unfold bracket_addr_ok in H.
  destruct (_ || _ || _) eqn:E; [by injection H as <-|]. bool_to_prop.
  destruct (brackets_split h) as (b & Hb & ->); try done. rewrite zlen_cons, zlen_app, zlen_cons, zlen_nil in *.
  apply Forall_cons_split in Hs as [_ Hs]. apply Forall_app_split in Hs as [Hs _].
  constructor; [done|]. apply Forall_app. split; [|by constructor].
  destruct b as [|x b]; [done|]. cbn [app] in H. rewrite at_cons_S, at_cons_0 in H.
  destruct (Z.eqb_spec x 118) as [->|_].
  - apply Forall_cons_split in Hs as [_ Hs]. constructor; [done|]. cbn [skipn] in H. rewrite drop_0, zlen_cons in H.
    rewrite ztake_exact in H by lia. destruct (negb _); [by injection H as <-|].
    pose proof (span_eq (fun c => negb (c =? 46)) b) as Hsp.
    destruct (span (fun c => negb (c =? 46)) b) as [hex t]. cbn [fst snd] in Hsp. subst b.
    destruct (negb (forallb _ hex)) eqn:Eh; [by injection H as <-|].
    destruct (negb (at_ t 0 =? 46)) eqn:Et; [by injection H as <-|].
    destruct (forallb _ (tail t)) eqn:Ef; [|by injection H as <-]. bool_to_prop.
    apply Forall_app_split in Hs as [Hsh Hst]. apply Forall_app. split.
    + apply Forall_forall. intros c Hc. rewrite forallb_forall in Eh. specialize (Eh c Hc).
      rewrite Forall_forall in Hsh. specialize (Hsh c Hc). unfold hostchar, addr_char.
      by rewrite <- isxdigit_digit, Eh by (by apply char_byte).
    + destruct t as [|y t]; [done|]. rewrite at_cons_0 in Et. subst y. constructor; [done|]. cbn [tail] in Ef.
      apply Forall_cons_split in Hst as [_ Hst]. apply Forall_forall. intros c Hc.
      rewrite forallb_forall in Ef. specialize (Ef c Hc). rewrite Forall_forall in Hst. specialize (Hst c Hc).
      rewrite unreserved_spec, strchr_set_spec in Ef by (unfold is_char in Hst; lia).
      unfold hostchar, userchar. rewrite Ef. by rewrite orb_true_r.
  - destruct (64 <=? _); [by injection H as <-|]. apply bind_Some in H as ([r' a] & Hp & H).
    injection H as H. destruct (Z.eqb_spec r' 1) as [->|]; [|congruence]. cbn [tail] in Hp.
    change (x :: b ++ [93]) with ((x :: b) ++ [93]) in Hp. rewrite ztake_exact in Hp by lia. apply inet_pton6_chars in Hp.
    eapply Forall_impl; [|exact Hp]. cbn. intros c Hc. unfold hostchar. by rewrite Hc.
Qed.

(** No delimiter inside a host, and no colon before a port. *)
Lemma host_delims x h : cstring h -> host_text h -> x ∈ delims -> x ∉ h.
Proof.
  intros Hs [He|(b & r & -> & Hb & Hr)] Hx; [eapply encoded_delims; eauto|].
  by eapply hostchar_delims, bracket_ok_chars.
Qed.

Lemma host_colon h : host_text h -> ch ":" ∉ h \/ exists t, h = t ++ [ch "]"].
Proof.
  intros [He|(b & r & -> & _)]; [left | right; by exists ([ch "["] ++ b); rewrite app_assoc].
  by eapply encoded_not_in.
Qed.

(** ** Ports *)

Lemma digit10_isdigit c : is_digit_of 10 c = true -> EVUTIL_ISDIGIT c = true.
Proof. intros H. pose proof (digit_is_char 10 c H). by rewrite isdigit_digit by lia. Qed.

Lemma digit10_value c : is_digit_of 10 c = true -> c - ch "0" = evutil_hex_char_to_int c /\ 0 <= c - ch "0" <= 9.
Proof.
  intros H. pose proof (digit10_isdigit c H) as Hd. pose proof (digit_is_char 10 c H).
  rewrite isdigit_spec in Hd by lia. bool_to_prop.
  assert (E : (c - 48 =? evutil_hex_char_to_int c) || negb (is_digit_of 10 c) = true).
  { apply (byte_cases (fun c => (c - 48 =? evutil_hex_char_to_int c) || negb (is_digit_of 10 c)));
      [vm_compute; reflexivity | lia]. }
  rewrite H, orb_false_r in E. lia.
Qed.

Lemma parse_port_digits ds : forall n,
  Forall (fun c => is_digit_of 10 c = true) ds -> 0 <= n <= INT_MAX ->
  parse_port_loop ds n =
    let v := fold_left (fun n c => n * 10 + evutil_hex_char_to_int c) ds n in
    if INT_MAX <? v then None else Some v.
Proof.
  induction ds as [|c ds IH]; intros n Hd Hn; cbn [parse_port_loop fold_left].
  - cbn zeta. by rewrite (proj2 (Z.ltb_ge _ _)) by lia.
  - apply Forall_cons_split in Hd as [Hc Hd]. destruct (digit10_value c Hc) as [Hv Hr].
    rewrite digit10_isdigit by done. cbn [negb]. rewrite Hv in *.
    destruct (Z.ltb_spec INT_MAX (n * 10 + evutil_hex_char_to_int c)) as [Hov|Hov].
    + assert (Hmono : forall ds m, Forall (fun c => is_digit_of 10 c = true) ds -> INT_MAX < m ->
        INT_MAX < fold_left (fun n c => n * 10 + evutil_hex_char_to_int c) ds m).
      { clear. induction ds as [|c ds IH]; intros m Hd Hm; [done|]. apply Forall_cons_split in Hd as [Hc Hd].
        cbn [fold_left]. apply IH; [done|]. destruct (digit10_value c Hc). unfold INT_MAX in *. lia. }
      cbn zeta. by rewrite (proj2 (Z.ltb_lt _ _)) by by apply Hmono.
    + rewrite (proj2 (Z.ltb_ge _ _)) by lia. by rewrite IH by (done || lia).
Qed.

Lemma parse_port_spec ds :
  Forall (fun c => is_digit_of 10 c = true) ds ->
  parse_port ds = if INT_MAX <? digits_value 10 ds then None else Some (digits_value 10 ds).
Proof. intros H. apply (parse_port_digits ds 0 H). unfold INT_MAX. lia. Qed.

Lemma isdigit_digits s : cstring s -> Forall (fun c => EVUTIL_ISDIGIT c = true) s ->
  Forall (fun c => is_digit_of 10 c = true) s.
Proof.
  unfold cstring. intros Hs Hd. rewrite Forall_forall in *. intros c Hc. specialize (Hd c Hc). specialize (Hs c Hc).
  by rewrite <- isdigit_digit by by apply char_byte.
Qed.

Lemma split_port_sound cp h op :
  cstring cp -> split_port cp = Some (Some (h, op)) ->
  exists pt, cp = h ++ pt /\ port_text (default (-1) op) pt.
Proof.
  intros Hs H. unfold split_port in H. pose proof (span_eq EVUTIL_ISDIGIT (rev cp)) as He.
  pose proof (span_all EVUTIL_ISDIGIT (rev cp)) as Ha.
  destruct (span EVUTIL_ISDIGIT (rev cp)) as [rd rest]. cbn [fst snd] in He, Ha.
  assert (Hcp : cp = rev rest ++ rev rd) by (by rewrite <- rev_app_distr, He, rev_involutive).
  assert (Hnone : Some (Some (cp, None)) = Some (Some (h, op)) ->
    exists pt, cp = h ++ pt /\ port_text (default (-1) op) pt).
  { intros [= <- <-]. exists []. rewrite app_nil_r. split; [done|]. left. split; [done|]. by left. }
  destruct rest as [|c rh]; [by apply Hnone|]. destruct (Z.eqb_spec c 58) as [->|]; [|by apply Hnone].
  cbn [rev] in Hcp. rewrite <- app_assoc in Hcp. cbn [app] in Hcp.
  destruct (Z.eqb_spec (zlen rd) 0) as [H0|H0].
  - apply zlen_nil_iff in H0 as ->. injection H as <- <-. exists [58]. split; [done|]. left. split; [done|]. by right.
  - apply bind_Some in H as (p & Hp & H). destruct (Z.ltb_spec p 0); [done|]. injection H as <- <-.
    assert (Hd : Forall (fun c => is_digit_of 10 c = true) (rev rd)).
    { apply isdigit_digits; [rewrite Hcp in Hs; apply Forall_app_split in Hs as [_ Hs]; by apply Forall_cons_split in Hs as [_ Hs]|].
      by apply Forall_rev. }
    rewrite parse_port_spec in Hp by done. destruct (Z.ltb_spec INT_MAX (digits_value 10 (rev rd))); [done|].
    injection Hp as <-. exists (58 :: rev rd). split; [done|]. right. exists (rev rd). cbn [default].
    splits; try done. intros E. apply H0. apply (f_equal (@rev Z)) in E. rewrite rev_involutive in E. by rewrite E.
Qed.

Lemma split_port_complete h p pt :
  (ch ":" ∉ h \/ exists t, h = t ++ [ch "]"]) -> port_text p pt ->
  exists op, split_port (h ++ pt) = Some (Some (h, op)) /\ default (-1) op = p.
Proof.
  intros Hh Hpt. unfold split_port.
  destruct Hpt as [[-> [-> | ->]]|(ds & Hne & Hd & -> & Hv & Hm)].
  - rewrite app_nil_r. exists None. split; [|done]. pose proof (span_eq EVUTIL_ISDIGIT (rev h)) as He.
    destruct Hh as [Hh|[t ->]].
    + destruct (span EVUTIL_ISDIGIT (rev h)) as [rd [|c rest]]; [done|]. cbn [fst snd] in He.
      destruct (Z.eqb_spec c 58) as [->|]; [|done]. exfalso. apply Hh. apply list_elem_of_In, in_rev. rewrite <- He.
      apply in_app_iff. right. by left.
    + by rewrite rev_app_distr.
  - exists (Some (-1)). split; [|done]. rewrite rev_app_distr. cbn [rev app].
    change (span EVUTIL_ISDIGIT (58 :: rev h)) with (@nil Z, 58 :: rev h). cbn [Z.eqb Pos.eqb].
    by rewrite zlen_nil, rev_involutive.
  - exists (Some p). split; [|done]. rewrite rev_app_distr. cbn [rev]. rewrite <- app_assoc. cbn [app].
    rewrite span_app; [|apply Forall_rev; eapply Forall_impl; [|exact Hd]; apply digit10_isdigit | by right].
    rewrite Z.eqb_refl. rewrite (proj2 (Z.eqb_neq (zlen (rev ds)) 0)).
    2: { intros E%zlen_nil_iff. apply Hne. apply (f_equal (@rev Z)) in E. by rewrite rev_involutive in E. }
    rewrite !rev_involutive, parse_port_spec by done. rewrite Hv, (proj2 (Z.ltb_ge _ _)) by lia.
    cbn [mbind option_bind]. rewrite (proj2 (Z.ltb_ge p 0)); [done|].
    rewrite <- Hv. apply digits_value_nonneg; [lia | done].
Qed.

(** ** The authority *)

Definition user_text (ui : option (list Z)) (rest s : list Z) : Prop :=
  match ui with
  | None => s = rest
  | Some u => encoded userchar u /\ s = u ++ ch "@" :: rest
  end.

Definition with_authority (uri : evhttp_uri) (ui : option (list Z)) (p : Z) (h : list Z) : evhttp_uri :=
  uri <| userinfo := ui |> <| port := p |> <| host := Some h |>.

Lemma cstring_app_l l r : cstring (l ++ r) -> cstring l.
Proof. by intros [H _]%Forall_app_split. Qed.

Lemma cstring_app_r l r : cstring (l ++ r) -> cstring r.
Proof. by intros [_ H]%Forall_app_split. Qed.

Lemma port_text_stop p pt after :
  port_text p pt -> EVUTIL_ISXDIGIT (at_ after 0) = false -> EVUTIL_ISXDIGIT (at_ (pt ++ after) 0) = false.
Proof. by intros [[_ [-> | ->]]|(ds & _ & _ & -> & _)]. Qed.

Section authority.
Context {A : Arch} {M : Allocator}.

Lemma strdup_inv s x : mm_strdup s = Some x -> x = s.
Proof. unfold mm_strdup. destruct (mm_malloc _); [|done]. by intros [= <-]. Qed.

Lemma strdup_ok s : mem_ok -> mm_strdup s = Some s.
Proof. intros Hm. unfold mm_strdup. specialize (Hm (zlen s + 1)). by destruct (mm_malloc _). Qed.

(** The test of the host in the code is the one of the grammar. *)
Lemma host_check h p pt after :
  cstring h -> port_text p pt -> EVUTIL_ISXDIGIT (at_ after 0) = false ->
  (if (at_ h 0 =? ch "[") && (2 <=? zlen h) && (at_ h (length h - 1) =? ch "]")
   then r ← bracket_addr_ok h; Some (negb (r =? 0)) else Some (regname_ok h (pt ++ after))) = Some true <->
  host_text h.
Proof.
  intros Hs Hpt Haft. pose proof (port_text_stop _ _ _ Hpt Haft) as Hstop.
  destruct (_ && _ && _) eqn:E.
  - bool_to_prop. split.
    + intros Hb. apply bind_Some in Hb as (r & Hr & Hb). injection Hb as Hr0%negb_true_iff%Z.eqb_neq.
      right. assert (3 <= zlen h) as H3.
      { unfold bracket_addr_ok in Hr. destruct (Z.ltb_spec (zlen h) 3); [|done]. cbn [orb] in Hr. congruence. }
      destruct (brackets_split h) as (b & _ & Hbb); try done. exists b, r. done.
    + intros [He|(b & r & _ & -> & Hr0)]; [|cbn; by rewrite (proj2 (Z.eqb_neq _ _) Hr0)].
      exfalso. destruct h as [|c h]; [done|]. rewrite at_cons_0 in *. subst c. by inversion He.
  - split.
    + intros [= H]. left. by apply (regname_ok_spec h (pt ++ after)).
    + intros [He|(b & r & -> & _)]; [by rewrite (proj2 (regname_ok_spec h (pt ++ after) Hs Hstop) He)|].
      exfalso. revert E. cbn [app length]. rewrite at_cons_0, length_app. cbn [length].
      replace (S (length b + 1) - 1)%nat with (S (length b)) by lia. rewrite at_cons_S. unfold at_.
      rewrite list_lookup_middle by done. cbn [default]. rewrite zlen_cons, zlen_app, zlen_cons, zlen_nil.
      pose proof (zlen_nonneg b). by rewrite (proj2 (Z.leb_le 2 _)) by lia.
Qed.

(** The user is what comes before the first [@] of the authority. *)
Definition found_user (s after : list Z) : option (list Z) :=
  match strchr (s ++ after) (ch "@") with
  | Some (l, _) => if zlen l <? zlen s then Some l else None
  | None => None
  end.

Lemma found_user_split s after l : found_user s after = Some l -> exists r, s = l ++ ch "@" :: r.
Proof.
  unfold found_user. destruct (strchr (s ++ after) 64) as [[l' r]|] eqn:E; [|done].
  destruct (Z.ltb_spec (zlen l') (zlen s)) as [Hl|]; [|done]. intros [= ->].
  apply strchr_Some in E as (r' & -> & E & _). pose proof (zlen_nonneg l).
  assert (Ht : ztake (zlen l) s = l).
  { apply (f_equal (ztake (zlen l))) in E. by rewrite ztake_app_le, ztake_exact in E by lia. }
  apply (f_equal (zdrop (zlen l))) in E. rewrite zdrop_app_le, zdrop_exact in E by lia.
  destruct (zdrop (zlen l) s) as [|c t] eqn:Ed.
  - apply (f_equal zlen) in Ed. rewrite zlen_zdrop, zlen_nil in Ed by lia. lia.
  - injection E as -> _. exists t. by rewrite <- Ed, <- Ht at 1; rewrite <- (ztake_zdrop s (zlen l)) at 1.
Qed.

(** Reading the user and going on behind it. *)
Lemma user_step uri s after :
  userinfo uri = None -> cstring s ->
  match match found_user s after with
        | Some l => if userinfo_ok l then
                      match mm_strdup l with Some u => Some (uri <| userinfo := Some u |>) | None => None end
                    else None
        | None => Some uri end with
  | Some u1 => u1 = uri <| userinfo := found_user s after |> /\
      user_text (found_user s after) (match found_user s after with Some l => zdrop (zlen l + 1) s | None => s end) s
  | None => True
  end.
Proof.
  intros Hui Hs. destruct (found_user s after) as [l|] eqn:E.
  - destruct (found_user_split _ _ _ E) as [r Hr]. destruct (userinfo_ok l) eqn:Hok; [|done].
    destruct (mm_strdup l) as [x|] eqn:Ex; [|done]. apply strdup_inv in Ex as ->. split; [done|].
    rewrite Hr in Hs |- *. pose proof (zlen_nonneg l). rewrite <- zdrop_zdrop, zdrop_exact by lia.
    split; [|done]. apply userinfo_ok_spec in Hok; [done | by apply cstring_app_l in Hs].
  - split; [|done]. destruct uri. cbn in *. by subst.
Qed.

Lemma user_text_cstring ui cp s : cstring s -> user_text ui cp s -> cstring cp.
Proof.
  intros Hs Hut. destruct ui; [|by cbn in Hut; subst s]. destruct Hut as [_ ->].
  apply cstring_app_r in Hs. by apply Forall_cons_split in Hs as [_ Hs].
Qed.

Lemma authority_sound uri s after u' :
  userinfo uri = None -> port uri = -1 -> cstring (s ++ after) -> EVUTIL_ISXDIGIT (at_ after 0) = false ->
  parse_authority uri s after = Some (Some u') ->
  exists ui p h pt, u' = with_authority uri ui p h /\ host_text h /\ port_text p pt /\ user_text ui (h ++ pt) s.
Proof.
  intros Hui Hport Hs Haft H. unfold parse_authority in H. fold (found_user s after) in H.
  destruct (Z.eqb_spec (zlen s) 0) as [H0|H0].
  { apply zlen_nil_iff in H0 as ->. destruct (mm_strdup []) as [x|] eqn:E; [|done]. apply strdup_inv in E as ->.
    injection H as <-. exists None, (-1), [], []. splits; try done.
    - unfold with_authority. destruct uri. cbn in *. by subst.
    - left. constructor.
    - left. split; [done|]. by left. }
  pose proof (cstring_app_l _ _ Hs) as Hs1. pose proof (user_step uri s after Hui Hs1) as Hu. cbn zeta in H.
  destruct (match found_user s after with Some l => _ | None => _ end) as [u1|]; [|done].
  destruct Hu as [-> Hut]. set (cp := match found_user s after with Some l => _ | None => s end) in *.
  pose proof (user_text_cstring _ _ _ Hs1 Hut) as Hcs.
  apply bind_Some in H as ([[h op]|] & Hsp & H); [|done].
  destruct (split_port_sound _ _ _ Hcs Hsp) as (pt & Hcpt & Hpt).
  apply bind_Some in H as (ok & Hok & H). rewrite Hcpt, zdrop_exact in Hok by done.
  destruct ok; [|done]. rewrite Hcpt in Hcs. apply cstring_app_l in Hcs.
  apply (host_check _ _ _ _ Hcs Hpt Haft) in Hok. cbn [negb] in H.
  destruct (mm_malloc _); [|done]. injection H as <-.
  exists (found_user s after), (default (-1) op), h, pt. rewrite <- Hcpt. splits; try done.
  unfold with_authority. destruct op; [done|]. cbn [default]. destruct uri. cbn in *. by subst.
Qed.

Lemma port_delims x p pt : port_text p pt -> x ∈ delims -> x ∉ pt.
Proof.
  intros Hpt Hx. assert (Hc : x <> ch ":" /\ is_digit_of 10 x = false).
  { unfold delims in Hx. repeat (apply elem_of_cons in Hx as [-> |Hx]; [done|]). by apply elem_of_nil in Hx. }
  destruct Hc as [Hc Hd]. destruct Hpt as [[_ [-> | ->]]|(ds & _ & Hds & -> & _)].
  - apply not_elem_of_nil.
  - apply not_elem_of_cons. split; [done | apply not_elem_of_nil].
  - apply not_elem_of_cons. split; [done|]. intros Hin%list_elem_of_In. rewrite Forall_forall in Hds.
    specialize (Hds x Hin). congruence.
Qed.

Lemma delims_at : ch "@" ∈ delims.
Proof. by do 3 right; left. Qed.

Lemma found_user_complete ui h p pt s after :
  cstring h -> host_text h -> port_text p pt -> user_text ui (h ++ pt) s -> found_user s after = ui.
Proof.
  intros Hs Hh Hpt Hut. pose proof delims_at as Hat. destruct ui as [u|]; cbn in Hut.
  - destruct Hut as [Hu ->]. unfold found_user. rewrite <- app_assoc. cbn [app].
    rewrite strchr_found by (by apply (encoded_delims userchar); [left | |]). pose proof (zlen_nonneg (h ++ pt)).
    by rewrite (proj2 (Z.ltb_lt _ _)) by (rewrite zlen_app, zlen_cons; lia).
  - destruct (found_user s after) as [l|] eqn:E; [|done]. apply found_user_split in E as [r Hr].
    assert (ch "@" ∈ h ++ pt) as Hin by (rewrite <- Hut, Hr; apply elem_of_app; right; by left).
    apply elem_of_app in Hin as [Hin|Hin]; [by apply host_delims in Hin | by eapply port_delims in Hin].
Qed.

Lemma authority_complete uri s after ui p h pt :
  mem_ok -> userinfo uri = None -> port uri = -1 -> cstring (s ++ after) -> EVUTIL_ISXDIGIT (at_ after 0) = false ->
  host_text h -> port_text p pt -> user_text ui (h ++ pt) s ->
  parse_authority uri s after = Some (Some (with_authority uri ui p h)).
Proof.
  intros Hm Hui Hport Hs Haft Hh Hpt Hut. unfold parse_authority. fold (found_user s after).
  destruct (Z.eqb_spec (zlen s) 0) as [H0|H0].
  { apply zlen_nil_iff in H0 as ->. rewrite strdup_ok by done.
    destruct ui as [l|]; [by destruct Hut as [_ Hu]; destruct l|]. cbn in Hut. symmetry in Hut.
    apply app_eq_nil in Hut as [-> ->]. destruct Hpt as [[-> _]|(ds & _ & _ & ? & _)]; [|done].
    unfold with_authority. destruct uri. cbn in *. by subst. }
  pose proof (user_text_cstring _ _ _ (cstring_app_l _ _ Hs) Hut) as Hcs.
  rewrite (found_user_complete ui h p pt) by (try done; by eapply cstring_app_l).
  set (uri1 := uri <| userinfo := ui |>). cbn zeta.
  assert (match ui with
      | Some l => if userinfo_ok l then
                    match mm_strdup l with Some u => Some (uri <| userinfo := Some u |>) | None => None end
                  else None
      | None => Some uri end = Some uri1) as ->.
  { destruct ui as [u|]; cbn in Hut.
    - destruct Hut as [Hu ->]. do 2 apply cstring_app_l in Hs. apply userinfo_ok_spec in Hu; [|done].
      by rewrite strdup_ok, Hu.
    - f_equal. unfold uri1. destruct uri. cbn in *. by subst. }
  assert (match ui with Some l => zdrop (zlen l + 1) s | None => s end = h ++ pt) as ->.
  { destruct ui as [u|]; [|done]. destruct Hut as [_ ->]. pose proof (zlen_nonneg u).
    by rewrite <- zdrop_zdrop, zdrop_exact by lia. }
  destruct (split_port_complete h p pt (host_colon h Hh) Hpt) as (op & -> & Hop). cbn [mbind option_bind].
  rewrite zdrop_exact by done.
  rewrite (proj2 (host_check h p pt after (cstring_app_l _ _ Hcs) Hpt Haft) Hh). cbn [mbind option_bind negb].
  specialize (Hm (zlen h + 1)). destruct (mm_malloc _); [|done]. do 2 f_equal.
  unfold with_authority, uri1. destruct op; cbn [default] in Hop; subst p; [done|]. destruct uri. cbn in *. by subst.
Qed.
End authority.
