(* ===== verification/UriProps.v ===== *)
(** The URI parser accepts exactly the texts of URIs, and a URI that is put
    together again parses to itself. *)

From S2P Require Import Prelude EvChain Evbuffer EvbufferSpec EvbufferProps EvSpace Textbuf.
From S2P Require Import Cstring Inet Uri UriSpec.

(** ** Path, query and fragment *)

Lemma span_not_in (P : Z -> bool) c l : P c = false -> Forall (fun x => P x = true) l -> c ∉ l.
Proof.
  intros Hc Hl Hin%list_elem_of_In. rewrite Forall_forall in Hl. specialize (Hl c Hin). congruence.
Qed.

Lemma not_in_span (P : Z -> bool) l :
  (forall c, P c = false -> c ∉ l) -> Forall (fun x => P x = true) l.
Proof.
  intros H. apply Forall_forall. intros c Hc%list_elem_of_In. destruct (P c) eqn:E; [done|]. by apply H in E.
Qed.

Lemma part_sound s part flags l r :
  cstring s -> end_of_path s part flags = (l, r) -> s = l ++ r /\ part_text flags part l.
Proof.
  intros Hs H. unfold end_of_path, part_text in *. destruct (negb _).
  - assert (Hspan : forall P, span P s = (l, r) -> s = l ++ r /\ Forall (fun c => P c = true) l).
    { intros P E. pose proof (span_eq P s). pose proof (span_all P s). rewrite E in *. done. }
    destruct part.
    + apply Hspan in H as [-> Hl]. split; [done|]. split; (eapply span_not_in; [|exact Hl]; done).
    + apply Hspan in H as [-> Hl]. split; [done|]. eapply span_not_in; [|exact Hl]; done.
    + injection H as <- <-. by rewrite app_nil_r.
  - apply end_of_path_sound in H; [|done]. by destruct part.
Qed.

(** What may follow a part. *)
Definition stops (part : uri_part) (r : list Z) : Prop :=
  match part with
  | PART_PATH => r = [] \/ at_ r 0 = ch "#" \/ at_ r 0 = ch "?"
  | PART_QUERY => r = [] \/ at_ r 0 = ch "#"
  | PART_FRAGMENT => r = []
  end.

Lemma part_complete part flags l r :
  cstring (l ++ r) -> part_text flags part l -> stops part r -> end_of_path (l ++ r) part flags = (l, r).
Proof.
  intros Hs Hl Hr. unfold end_of_path, part_text in *. destruct (negb _).
  - destruct part; cbn in Hr.
    + destruct Hl as [Hh Hq]. apply span_app.
      * apply not_in_span. intros c Hc. destruct (Z.eqb_spec c 35) as [E|]; [by rewrite E|]. destruct (Z.eqb_spec c 63) as [E|]; [by rewrite E | done].
      * destruct Hr as [->|[-> | ->]]; auto.
    + apply span_app; [|destruct Hr as [->| ->]; auto].
      apply not_in_span. intros c Hc. destruct (Z.eqb_spec c 35) as [E|]; [by rewrite E | done].
    + subst r. by rewrite app_nil_r.
  - apply end_of_path_complete; [done | by destruct part |]. destruct part; cbn in *; tauto.
Qed.

(** The text behind the authority. *)
Definition tail_text (p : list Z) (q f : option (list Z)) : list Z :=
  p ++ optional [ch "?"] q ++ optional [ch "#"] f.

Definition tail_parts (flags : Z) (p : list Z) (q f : option (list Z)) : Prop :=
  part_text flags PART_PATH p /\ (forall x, q = Some x -> part_text flags PART_QUERY x) /\
  (forall x, f = Some x -> part_text flags PART_FRAGMENT x).

Definition parse_tail (s : list Z) (flags : Z) : list Z * option (list Z) * option (list Z) * list Z :=
  let '(p, s) := end_of_path s PART_PATH flags in
  let '(q, s) := parse_part s (ch "?") PART_QUERY flags in
  let '(f, s) := parse_part s (ch "#") PART_FRAGMENT flags in
  (p, q, f, s).

Lemma cstring_end s : cstring s -> at_ s 0 = 0 -> s = [].
Proof.
  intros Hs H. destruct s as [|c s]; [done|]. rewrite at_cons_0 in H. subst c.
  apply Forall_cons_split in Hs as [Hs _]. unfold is_char in Hs. lia.
Qed.

Lemma parse_part_sound s c part flags o r :
  cstring s -> c <> 0 -> parse_part s c part flags = (o, r) ->
  s = optional [c] o ++ r /\ forall x, o = Some x -> part_text flags part x.
Proof.
  intros Hs Hc H. unfold parse_part in H. destruct (Z.eqb_spec (at_ s 0) c) as [He|He].
  - destruct s as [|y s]; [by change (at_ [] 0) with 0 in He|]. rewrite at_cons_0 in He. subst y. cbn [tail] in H.
    destruct (end_of_path s part flags) as [l r'] eqn:E. injection H as <- <-.
    apply Forall_cons_split in Hs as [_ Hs]. apply part_sound in E as [-> Hl]; [|done].
    split; [done|]. by intros x [= <-].
  - by injection H as <- <-.
Qed.

Lemma parse_tail_sound s flags p q f r :
  cstring s -> parse_tail s flags = (p, q, f, r) -> at_ r 0 = 0 ->
  s = tail_text p q f /\ tail_parts flags p q f.
Proof.
  intros Hs H Hr. unfold parse_tail in H.
  destruct (end_of_path s PART_PATH flags) as [p' s1] eqn:E1. apply part_sound in E1 as [-> Hp]; [|done].
  apply cstring_app_r in Hs. destruct (parse_part s1 63 PART_QUERY flags) as [q' s2] eqn:E2.
  apply parse_part_sound in E2 as [-> Hq]; [|done|done]. apply cstring_app_r in Hs.
  destruct (parse_part s2 35 PART_FRAGMENT flags) as [f' s3] eqn:E3.
  apply parse_part_sound in E3 as [-> Hf]; [|done|done]. apply cstring_app_r in Hs.
  injection H as <- <- <- <-. apply cstring_end in Hr as ->; [|done]. unfold tail_text. by rewrite app_nil_r.
Qed.

Lemma optional_head c o r : optional [c] o ++ r = r /\ o = None \/ at_ (optional [c] o ++ r) 0 = c /\ o <> None.
Proof. destruct o; [right | left]; done. Qed.

Lemma parse_part_complete o c part flags r :
  cstring (optional [c] o ++ r) -> (forall x, o = Some x -> part_text flags part x) -> stops part r ->
  (o = None -> at_ r 0 <> c) -> parse_part (optional [c] o ++ r) c part flags = (o, r).
Proof.
  intros Hs Ho Hr Hn. unfold parse_part. destruct o as [x|]; cbn [optional app] in *.
  - rewrite at_cons_0, Z.eqb_refl. cbn [tail]. apply Forall_cons_split in Hs as [_ Hs].
    by rewrite part_complete by auto.
  - by rewrite (proj2 (Z.eqb_neq _ _)) by auto.
Qed.

Lemma tail_head p q f :
  tail_text p q f = p ++ tail_text [] q f /\ stops PART_PATH (tail_text [] q f).
Proof. split; [done|]. unfold tail_text, stops. destruct q; cbn; [tauto|]. destruct f; cbn; tauto. Qed.

Lemma parse_tail_complete flags p q f :
  cstring (tail_text p q f) -> tail_parts flags p q f -> parse_tail (tail_text p q f) flags = (p, q, f, []).
Proof.
  intros Hs (Hp & Hq & Hf). unfold parse_tail. destruct (tail_head p q f) as [-> Hst].
  rewrite part_complete; [|by destruct (tail_head p q f) as [<- _] | done | done].
  unfold tail_text in *. cbn [app] in *. apply cstring_app_r in Hs. rewrite parse_part_complete; [|done|done| |].
  - pose proof (cstring_app_r _ _ Hs) as Hs2. rewrite <- (app_nil_r (optional [35] f)) in Hs2 |- *.
    by rewrite parse_part_complete.
  - destruct f; cbn; tauto.
  - destruct f; cbn; done.
Qed.

(** ** The scheme *)

Definition split_scheme (s : list Z) : option (list Z * list Z) :=
  match strchr s (ch ":") with
  | Some (l, r) => if scheme_ok l then Some (l, tail r) else None
  | None => None
  end.

Lemma scheme_chars x c :
  cstring x -> scheme_ok x = true -> EVUTIL_ISALNUM c = false -> c <> ch "+" -> c <> ch "-" -> c <> ch "." -> c ∉ x.
Proof.
  intros Hs Hok Hc H1 H2 H3 Hin. destruct x as [|y x]; [done|]. cbn in Hok. bool_to_prop.
  apply Forall_cons_split in Hs as [Hy Hs]. apply elem_of_cons in Hin as [->|Hin].
  - rewrite isalnum_spec in Hc by by apply char_byte. by rewrite H in Hc.
  - rewrite forallb_forall in H0. apply list_elem_of_In in Hin. specialize (H0 c Hin). rewrite Hc in H0. lia.
Qed.

Lemma split_scheme_sound s l r :
  split_scheme s = Some (l, r) -> scheme_ok l = true /\ s = l ++ ch ":" :: r.
Proof.
  unfold split_scheme. destruct (strchr s 58) as [[l' r']|] eqn:E; [|done].
  apply strchr_Some in E as (r'' & -> & -> & _). destruct (scheme_ok l') eqn:Hok; [|done]. by intros [= <- <-].
Qed.

Lemma split_scheme_complete x r :
  cstring (x ++ ch ":" :: r) -> scheme_ok x = true -> split_scheme (x ++ ch ":" :: r) = Some (x, r).
Proof.
  intros Hs Hok. unfold split_scheme. rewrite strchr_found; [by rewrite Hok|].
  by apply scheme_chars; [eapply cstring_app_l|..].
Qed.

Lemma noscheme_colon l r : ch "/" ∉ l -> path_matches_noscheme (l ++ ch ":" :: r) = false.
Proof.
  induction l as [|c l IH]; intros H; [done|]. apply not_elem_of_cons in H as [Hc H]. cbn [app path_matches_noscheme].
  destruct (c =? 58); [done|]. destruct (Z.eqb_spec c 47); [by subst c|]. by apply IH.
Qed.

Lemma starts_slash auth p : (exists t, auth = ch "/" :: t) -> at_ (auth ++ p) 0 = ch "/".
Proof. by intros [t ->]. Qed.

(** Text without a scheme has none for the parser. *)
Lemma split_scheme_none auth p q f :
  cstring (auth ++ tail_text p q f) ->
  (auth = [] /\ path_matches_noscheme p = true \/ exists t, auth = ch "/" :: t) ->
  split_scheme (auth ++ tail_text p q f) = None.
Proof.
  intros Hs Hauth. destruct (split_scheme _) as [[l r]|] eqn:E; [|done].
  apply split_scheme_sound in E as [Hok Heq]. exfalso. rewrite Heq in Hs. apply cstring_app_l in Hs.
  assert (Hno : forall c, c = ch "/" \/ c = ch "?" \/ c = ch "#" -> c ∉ l).
  { intros c Hc. apply scheme_chars; try done; destruct Hc as [->|[-> | ->]]; done. }
  destruct l as [|y l]; [done|]. destruct Hauth as [[-> Hp]|[t ->]].
  2: { injection Heq as <- _. apply (Hno 47); [by left | by left]. }
  destruct (tail_head p q f) as [Htt Hst]. rewrite Htt in Heq. set (t := tail_text [] q f) in *. cbn [app] in Heq.
  change (y :: l ++ 58 :: r) with ((y :: l) ++ 58 :: r) in Heq. apply app_eq_app in Heq as (k & [[Hpk Hk]|[Hlk Hk]]).
  - destruct k as [|c k].
    + cbn [app] in Hk. rewrite <- Hk in Hst. destruct Hst as [?|[?|?]]; done.
    + injection Hk as <- Hk. rewrite Hpk in Hp. change (y :: l ++ 58 :: k) with ((y :: l) ++ 58 :: k) in Hp.
      rewrite noscheme_colon in Hp; [done|]. apply Hno. by left.
  - destruct k as [|c k].
    + rewrite Hk in Hst. destruct Hst as [?|[?|?]]; done.
    + rewrite Hk in Hst. cbn [app] in Hst. destruct Hst as [?|Hst]; [done|]. rewrite !at_cons_0 in Hst.
      apply (Hno c); [tauto|]. rewrite Hlk. apply elem_of_app. right. by left.
Qed.

(** ** The hierarchical part *)

Section parser.
Context {A : Arch} {M : Allocator}.

Implicit Types u : evhttp_uri.

(** What the parser does after the scheme. *)
Definition parse_hier (u : evhttp_uri) (readp : list Z) (flags : Z) : option (option evhttp_uri) :=
  let got_authority := (at_ readp 0 =? ch "/") && (at_ readp 1 =? ch "/") in
  with_auth ← (if got_authority then
      let '(authority, after) := end_of_authority (drop 2 readp) in
      o ← parse_authority u authority after;
      Some (match o with Some u => Some (u, after) | None => None end)
    else Some (Some (u, readp)));
  match with_auth with
  | None => Some None
  | Some (u, readp) =>
    let '(p, q, f, readp) := parse_tail readp flags in
    if negb (at_ readp 0 =? 0) then Some None else
    if negb got_authority && (at_ p 0 =? ch "/") && (at_ p 1 =? ch "/") then Some None else
    if got_authority && negb (at_ p 0 =? ch "/") && negb (at_ p 0 =? 0) then Some None else
    if bool_decide (scheme u = None) && negb (path_matches_noscheme p) then Some None else
    Some (store_parts u p q f)
  end.

Definition start_uri (flags : Z) (sch : option (list Z)) : evhttp_uri :=
  empty_uri <| uri_flags := flags |> <| scheme := sch |>.

(** The parser as scheme and rest. *)
Lemma parse_split s flags :
  match evhttp_uri_parse_with_flags s flags with
  | Some (Some u) =>
      (let '(sch, r) := match split_scheme s with Some (l, r) => (Some l, r) | None => (None, s) end in
       parse_hier (start_uri flags sch) r flags) = Some (Some u)
  | _ => True
  end /\
  (mem_ok -> evhttp_uri_parse_with_flags s flags =
      let '(sch, r) := match split_scheme s with Some (l, r) => (Some l, r) | None => (None, s) end in
      parse_hier (start_uri flags sch) r flags).
Proof.
  unfold evhttp_uri_parse_with_flags.
  assert (Htail : forall u readp,
    (let got_authority := (at_ readp 0 =? ch "/") && (at_ readp 1 =? ch "/") in
        with_auth ← (if got_authority then
            let '(authority, after) := end_of_authority (drop 2 readp) in
            o ← parse_authority u authority after;
            Some (match o with Some uri => Some (uri, after) | None => None end)
          else Some (Some (u, readp)));
        match with_auth with
        | None => Some None
        | Some (uri, readp) =>
          let '(p, readp) := end_of_path readp PART_PATH flags in
          let '(q, readp) := parse_part readp (ch "?") PART_QUERY flags in
          let '(f, readp) := parse_part readp (ch "#") PART_FRAGMENT flags in
          if negb (at_ readp 0 =? 0) then Some None else
          if negb got_authority && (at_ p 0 =? ch "/") && (at_ p 1 =? ch "/") then Some None else
          if got_authority && negb (at_ p 0 =? ch "/") && negb (at_ p 0 =? 0) then Some None else
          if bool_decide (scheme uri = None) && negb (path_matches_noscheme p) then Some None else
          Some (store_parts uri p q f)
        end) = parse_hier u readp flags).
  { intros u readp. unfold parse_hier, parse_tail. cbn zeta.
    destruct (if _ && _ then _ else _) as [[[u1 r1]|]|]; cbn [mbind option_bind]; try done.
    destruct (end_of_path r1 PART_PATH flags) as [p r2]. destruct (parse_part r2 63 PART_QUERY flags) as [q r3].
    by destruct (parse_part r3 35 PART_FRAGMENT flags) as [f r4]. }
  cbn zeta in Htail. split.
  - destruct (mm_malloc size_bits) as [blk|]; [|done]. cbn zeta. destruct (mm_strdup s) as [s'|] eqn:Es; [|done].
    apply strdup_inv in Es as ->. fold (split_scheme s). destruct (split_scheme s) as [[l r]|].
    + destruct (mm_strdup l) as [l'|] eqn:El; [|exact I]. apply strdup_inv in El as ->. rewrite Htail.
      destruct (parse_hier _ _ _) as [[]|] eqn:E; [first [exact E | reflexivity] | exact I..].
    + rewrite Htail. destruct (parse_hier _ _ _) as [[]|] eqn:E; [first [exact E | reflexivity] | exact I..].
  - intros Hm. pose proof (Hm size_bits) as Hsz. destruct (mm_malloc size_bits) as [blk|]; [|done]. cbn zeta. rewrite strdup_ok by done.
    fold (split_scheme s).
    destruct (split_scheme s) as [[l r]|]; [rewrite strdup_ok by done|]; by rewrite Htail.
Qed.

Lemma end_of_authority_sound s l r :
  end_of_authority s = (l, r) ->
  s = l ++ r /\ (r = [] \/ at_ r 0 = ch "?" \/ at_ r 0 = ch "#" \/ at_ r 0 = ch "/").
Proof.
  revert l. induction s as [|c s IH]; cbn [end_of_authority]; [intros l [= <- <-]; auto|]. intros l.
  destruct (_ || _ || _) eqn:E.
  - intros [= <- <-]. split; [done|]. right. rewrite at_cons_0.
    apply orb_prop in E as [[E|E]%orb_prop|E]; apply Z.eqb_eq in E; auto.
  - destruct (end_of_authority s) as [l' r']. intros [= <- ->]. destruct (IH l' eq_refl) as [-> ?]. done.
Qed.

Lemma end_of_authority_complete l r :
  (forall x, x ∈ delims -> x <> ch "@" -> x ∉ l) ->
  (r = [] \/ at_ r 0 = ch "?" \/ at_ r 0 = ch "#" \/ at_ r 0 = ch "/") ->
  end_of_authority (l ++ r) = (l, r).
Proof.
  intros Hl Hr. induction l as [|c l IH]; cbn [app].
  - destruct r as [|c r]; [done|]. destruct Hr as [Hr|Hr]; [done|]. rewrite at_cons_0 in Hr. cbn [end_of_authority].
    by destruct Hr as [-> |[-> | ->]].
  - cbn [end_of_authority]. rewrite IH.
    + assert (forall x, x ∈ delims -> x <> ch "@" -> c =? x = false) as Hc.
      { intros x Hx Hn. apply Z.eqb_neq. intros ->. apply (Hl x Hx Hn). by left. }
      by rewrite !Hc by (done || (apply (bool_decide_unpack _); by vm_compute)).
    + intros x Hx Hn Hin. apply (Hl x Hx Hn). by right.
Qed.

(** A record that no part but the scheme has been stored in. *)
Definition blank (u : evhttp_uri) : Prop :=
  userinfo u = None /\ host u = None /\ port u = -1 /\ path u = None /\ query u = None /\ fragment u = None.

Lemma start_blank flags sch : blank (start_uri flags sch).
Proof. done. Qed.

Lemma store_parts_inv u p q f u' :
  store_parts u p q f = Some u' -> u' = u <| path := Some p |> <| query := q |> <| fragment := f |>.
Proof.
  unfold store_parts. intros H. apply bind_Some in H as (p' & Hp & H). apply strdup_inv in Hp as ->.
  apply bind_Some in H as (q' & Hq & H). apply bind_Some in H as (f' & Hf & H). injection H as <-.
  assert (Ho : forall (o o' : option (list Z)),
    match o with None => Some None | Some x => Some <$> mm_strdup x end = Some o' -> o' = o).
  { intros [x|] o'; [|by intros [= <-]]. destruct (mm_strdup x) eqn:E; [|done]. apply strdup_inv in E as ->. by intros [= <-]. }
  by apply Ho in Hq as ->; apply Ho in Hf as ->.
Qed.

Lemma store_parts_ok u p q f :
  mem_ok -> store_parts u p q f = Some (u <| path := Some p |> <| query := q |> <| fragment := f |>).
Proof.
  intros Hm. unfold store_parts. rewrite strdup_ok by done. cbn [mbind option_bind].
  destruct q as [x|]; [rewrite strdup_ok by done|]; cbn [fmap option_fmap option_map mbind option_bind];
    (destruct f as [y|]; [rewrite strdup_ok by done|]; done).
Qed.

Lemma hier_sound u s flags u' :
  blank u -> cstring s -> parse_hier u s flags = Some (Some u') ->
  exists auth p, s = auth ++ tail_text p (query u') (fragment u') /\ path u' = Some p /\
    tail_parts flags p (query u') (fragment u') /\ authority_text u' auth /\ path_fits u' p /\
    scheme u' = scheme u /\ uri_flags u' = uri_flags u.
Proof.
  intros (Hui & Hh & Hport & _) Hs H. unfold parse_hier in H. cbn zeta in H.
  set (got := (at_ s 0 =? 47) && (at_ s 1 =? 47)) in *.
  assert (Hend : forall u1 s1, uri_flags u1 = uri_flags u -> scheme u1 = scheme u -> cstring s1 ->
    (exists auth, s = auth ++ s1 /\ authority_text u1 auth) -> got = bool_decide (host u1 <> None) ->
    (let '(p, q, f, readp) := parse_tail s1 flags in
      if negb (at_ readp 0 =? 0) then Some None else
      if negb got && (at_ p 0 =? 47) && (at_ p 1 =? 47) then Some None else
      if got && negb (at_ p 0 =? 47) && negb (at_ p 0 =? 0) then Some None else
      if bool_decide (scheme u1 = None) && negb (path_matches_noscheme p) then Some None else
      Some (store_parts u1 p q f)) = Some (Some u') ->
    exists auth p, s = auth ++ tail_text p (query u') (fragment u') /\ path u' = Some p /\
      tail_parts flags p (query u') (fragment u') /\ authority_text u' auth /\ path_fits u' p /\
      scheme u' = scheme u /\ uri_flags u' = uri_flags u).
  { intros u1 s1 Hfl Hsc Hs1 (auth & -> & Hau) Hgot H1.
    destruct (parse_tail s1 flags) as [[[p q] f] r] eqn:Et. destruct (Z.eqb_spec (at_ r 0) 0) as [Hr|]; [|done]. cbn [negb] in H1.
    destruct (parse_tail_sound _ _ _ _ _ _ Hs1 Et Hr) as [-> Hparts].
    destruct (negb got && _ && _) eqn:E1; [done|]. destruct (got && _ && _) eqn:E2; [done|].
    destruct (bool_decide _ && _) eqn:E3; [done|]. injection H1 as H1. apply store_parts_inv in H1 as ->.
    exists auth, p. splits; try done. split; cbn.
    - clear H. rewrite Hgot in *. destruct (host u1); cbn in *; [|done].
      destruct (Z.eqb_spec (at_ p 0) 47); [by right|]. cbn in E2.
      destruct (Z.eqb_spec (at_ p 0) 0) as [Hp0|]; [|done].
      apply cstring_app_l in Hs1. left. by apply cstring_end.
    - intros Hn. rewrite bool_decide_eq_true_2 in E3 by done. by apply negb_false_iff. }
  destruct got eqn:Hgot.
  - destruct (end_of_authority (drop 2 s)) as [au after] eqn:Ea. destruct (end_of_authority_sound _ _ _ Ea) as [Hd Hst].
    apply bind_Some in H as (wa & Hwa & H). apply bind_Some in Hwa as ([u1|] & Hpa & Hwa); injection Hwa as <-; [|done].
    assert (Hsd : s = bytes_of "//" ++ au ++ after).
    { rewrite <- Hd. subst got. bool_to_prop. destruct s as [|x [|y t]]; try done.
      rewrite at_cons_S, !at_cons_0 in *. by subst. }
    rewrite Hsd in Hs. apply cstring_app_r in Hs.
    destruct (authority_sound u au after u1 Hui Hport Hs) as (ui & p & h & pt & -> & Hht & Hpt & Hut); [|done|].
    { destruct Hst as [-> |[-> |[-> | ->]]]; done. }
    eapply Hend; [| | | | |exact H]; try done; [by eapply cstring_app_r|].
    exists (bytes_of "//" ++ au). split; [by rewrite Hsd, <- app_assoc|]. unfold authority_text. cbn.
    split; [done|]. exists pt. split; [done|]. destruct ui; cbn in Hut; [destruct Hut as [? ->]|subst au]; done.
  - cbn [mbind option_bind] in H. eapply Hend; [| | | | |exact H]; try done.
    + exists []. split; [done|]. unfold authority_text. by rewrite Hh.
    + by rewrite Hh.
Qed.

Lemma tail_not_slash q f k : at_ (tail_text [] q f) k = ch "/" -> k <> 0%nat.
Proof. intros H ->. revert H. unfold tail_text. by destruct q; [|destruct f]. Qed.

(** Two slashes at the front are the path's own. *)
Lemma tail_slashes p q f :
  (at_ (tail_text p q f) 0 =? ch "/") && (at_ (tail_text p q f) 1 =? ch "/") = true ->
  (at_ p 0 =? ch "/") && (at_ p 1 =? ch "/") = true.
Proof.
  destruct (tail_head p q f) as [-> _]. set (t := tail_text [] q f).
  assert (Ht : at_ t 0 <> ch "/") by (intros E; by apply tail_not_slash in E).
  destruct p as [|c [|d p]]; cbn [app]; intros H; bool_to_prop; rewrite ?at_cons_S, ?at_cons_0 in *; try done.
  by subst.
Qed.

(** The record of a text without its scheme. *)
Lemma hier_complete u auth p :
  mem_ok -> cstring (auth ++ tail_text p (query u) (fragment u)) -> path u = Some p ->
  tail_parts (uri_flags u) p (query u) (fragment u) -> authority_text u auth -> path_fits u p ->
  parse_hier (start_uri (uri_flags u) (scheme u)) (auth ++ tail_text p (query u) (fragment u)) (uri_flags u) =
    Some (Some u).
Proof.
  intros Hm Hs Hp Hparts Hau [Hpf Hns]. unfold parse_hier. cbn zeta.
  assert (Hfin : forall u1 got, u1 <| path := Some p |> <| query := query u |> <| fragment := fragment u |> = u ->
    got = bool_decide (host u <> None) -> scheme u1 = scheme u ->
    (let '(p, q, f, readp) := parse_tail (tail_text p (query u) (fragment u)) (uri_flags u) in
      if negb (at_ readp 0 =? 0) then Some None else
      if negb got && (at_ p 0 =? 47) && (at_ p 1 =? 47) then Some None else
      if got && negb (at_ p 0 =? 47) && negb (at_ p 0 =? 0) then Some None else
      if bool_decide (scheme u1 = None) && negb (path_matches_noscheme p) then Some None else
      Some (store_parts u1 p q f)) = Some (Some u)).
  { intros u1 got Hu Hgot Hsc. rewrite parse_tail_complete by (done || by eapply cstring_app_r).
    change (at_ [] 0 =? 0) with true. cbn [negb]. rewrite Hsc, store_parts_ok, Hu by done.
    assert (negb got && (at_ p 0 =? 47) && (at_ p 1 =? 47) = false) as ->.
    { rewrite Hgot. by destruct (host u); cbn; [|rewrite Hpf]. }
    assert (got && negb (at_ p 0 =? 47) && negb (at_ p 0 =? 0) = false) as ->.
    { rewrite Hgot. destruct (host u); [|done]. by destruct Hpf as [-> | ->]. }
    destruct (bool_decide (scheme u = None)) eqn:E; [|done]. apply bool_decide_eq_true in E. by rewrite Hns. }
  unfold authority_text in Hau. destruct (host u) as [h|] eqn:Eh.
  - destruct Hau as (Hh & pt & Hpt & Hut).
    assert (exists au, auth = bytes_of "//" ++ au /\ user_text (userinfo u) (h ++ pt) au) as (au & -> & Hau).
    { destruct (userinfo u) as [x|]; [destruct Hut as [Hx ->] | subst auth]; eexists; (split; [reflexivity|]); by unfold user_text. }
    set (t := tail_text p (query u) (fragment u)) in *. rewrite <- app_assoc in Hs |- *.
    change (bytes_of "//" ++ au ++ t) with (ch "/" :: ch "/" :: (au ++ t)) in *.
    rewrite at_cons_S, !at_cons_0. change ((47 =? 47) && (47 =? 47)) with true. cbn iota. cbn [skipn]. rewrite drop_0.
    pose proof (cstring_drop2 _ _ _ Hs) as Hs2.
    assert (Hst : t = [] \/ at_ t 0 = 63 \/ at_ t 0 = 35 \/ at_ t 0 = 47).
    { unfold t. destruct (tail_head p (query u) (fragment u)) as [-> Hst]. destruct Hpf as [-> |Hpf].
      - cbn [app]. destruct Hst as [?|[?|?]]; auto.
      - destruct p as [|c p']; [done|]. cbn [app]. rewrite at_cons_0 in *. auto. }
    rewrite end_of_authority_complete; [| |done].
    2: { intros x Hx Hn. pose proof (cstring_app_l _ _ Hs2) as Hsa.
         pose proof (user_text_cstring _ _ _ Hsa Hau) as Hsh. destruct (userinfo u) as [v|]; cbn in Hau.
         - destruct Hau as [Hv ->]. rewrite not_elem_of_app, not_elem_of_cons, not_elem_of_app. splits; [|done| |].
           + by apply (encoded_delims userchar); [left | |].
           + apply host_delims; [by eapply cstring_app_l | done | done].
           + by eapply port_delims.
         - subst au. rewrite not_elem_of_app. split; [apply host_delims; [by eapply cstring_app_l | done | done] | by eapply port_delims]. }
    rewrite (authority_complete _ _ _ (userinfo u) (port u) h pt); try done.
    2: { destruct Hst as [-> |[-> |[-> | ->]]]; done. }
    cbn [mbind option_bind]. apply (Hfin _ true); [|done|done].
    unfold with_authority, start_uri. destruct u. cbn in *. by subst.
  - destruct Hau as (-> & Hui & Hport). cbn [app] in *.
    assert (Hnot : (at_ (tail_text p (query u) (fragment u)) 0 =? 47) && (at_ (tail_text p (query u) (fragment u)) 1 =? 47) = false).
    { apply not_true_is_false. intros E%tail_slashes. by rewrite Hpf in E. }
    rewrite Hnot. cbn [mbind option_bind]. apply (Hfin _ false); [|done|done].
    unfold start_uri. destruct u. cbn in *. by subst.
Qed.

Lemma parse_denotes s flags u :
  cstring s -> evhttp_uri_parse_with_flags s flags = Some (Some u) -> uri_flags u = flags /\ denotes u s.
Proof.
  intros Hs H. destruct (parse_split s flags) as [Hp _]. rewrite H in Hp.
  destruct (split_scheme s) as [[l r]|] eqn:E.
  - apply split_scheme_sound in E as [Hok ->]. pose proof (cstring_app_r _ _ Hs) as Hr.
    apply Forall_cons_split in Hr as [_ Hr].
    destruct (hier_sound _ _ _ _ (start_blank _ _) Hr Hp)
      as (auth & p & -> & Hpath & Hparts & Hau & Hpf & Hsc & Hfl). cbn in Hsc, Hfl. split; [done|].
    exists (l ++ [ch ":"]), auth, p. rewrite Hsc, Hfl. destruct Hparts as (? & ? & ?). splits; try done.
    by rewrite <- !app_assoc.
  - destruct (hier_sound _ _ _ _ (start_blank _ _) Hs Hp)
      as (auth & p & -> & Hpath & Hparts & Hau & Hpf & Hsc & Hfl). cbn in Hsc, Hfl. split; [done|].
    exists [], auth, p. rewrite Hsc, Hfl. destruct Hparts as (? & ? & ?). by splits.
Qed.

Lemma denotes_parse s u :
  mem_ok -> cstring s -> denotes u s -> evhttp_uri_parse_with_flags s (uri_flags u) = Some (Some u).
Proof.
  intros Hm Hs (sch & auth & p & Hsch & Hau & Hp & Hpt & Hpf & Hq & Hf & ->).
  destruct (parse_split (sch ++ auth ++ tail_text p (query u) (fragment u)) (uri_flags u)) as [_ Hps].
  change (p ++ optional [63] (query u) ++ optional [35] (fragment u)) with (tail_text p (query u) (fragment u)) in *.
  rewrite (Hps Hm). clear Hps.
  assert (Hhier := hier_complete u auth p Hm). destruct (scheme u) as [x|] eqn:Es.
  - destruct Hsch as [Hok ->]. rewrite <- app_assoc in *. cbn [app] in *. rewrite split_scheme_complete by done.
    apply Hhier; try done. apply cstring_app_r in Hs. by apply Forall_cons_split in Hs as [_ Hs].
  - subst sch. cbn [app] in *. rewrite split_scheme_none; [by apply Hhier | done |].
    destruct Hpf as [_ Hns]. unfold authority_text in Hau. destruct (host u).
    + right. destruct Hau as (_ & pt & _ & Hut).
      destruct (userinfo u); [destruct Hut as [_ ->] | subst auth]; by eexists.
    + left. destruct Hau as (-> & _). split; [done|]. by apply Hns.
Qed.


(** ** Putting a URI together *)

(** The text [evhttp_uri_join] writes. *)
Definition join_authority (u : evhttp_uri) : list Z :=
  match host u with
  | None => []
  | Some h => bytes_of "//" ++ (match userinfo u with None => [] | Some x => x ++ [ch "@"] end) ++ h ++
      (if 0 <=? port u then ch ":" :: print_d (port u) else [])
  end.

Definition uri_text (u : evhttp_uri) : list Z :=
  match scheme u with None => [] | Some x => x ++ [ch ":"] end ++
  join_authority u ++ tail_text (default [] (path u)) (query u) (fragment u).

(** A text is kept within bounds if it is part of one that is. *)
Lemma text_put b l d k :
  mem_ok -> text_in b l -> zlen (l ++ d) <= k -> small k ->
  exists b', put b d = Some b' /\ text_in b' (l ++ d).
Proof.
  intros Hm Ht Hk Hs. rewrite zlen_app in Hk. pose proof (zlen_nonneg l).
  destruct (text_add b l d Hm Ht) as (b' & He & Ht'); [eapply small_le; [|exact Hs]; lia|].
  exists b'. unfold put. by rewrite He.
Qed.

Lemma text_put_printf b l d k :
  mem_ok -> text_in b l -> d <> [] -> zlen (l ++ d) + 64 <= k -> small k ->
  exists b', put_printf b d = Some b' /\ text_in b' (l ++ d).
Proof.
  intros Hm Ht Hd Hk Hs. rewrite zlen_app in Hk.
  destruct (text_printf b l d Hm Ht) as (b' & He & Ht'); [eapply small_le; [|exact Hs]; lia | done |].
  exists b'. unfold put_printf. by rewrite He.
Qed.

Lemma zlen_prefix {B} (l r : list B) : zlen l <= zlen (l ++ r).
Proof. rewrite zlen_app. pose proof (zlen_nonneg r). lia. Qed.

Lemma put_opt_ok b l c o k :
  mem_ok -> text_in b l -> zlen (l ++ optional [c] o) <= k -> small k ->
  exists b', put_opt b [c] o = Some b' /\ text_in b' (l ++ optional [c] o).
Proof.
  intros Hm Ht Hk Hs. destruct o as [x|]; cbn [put_opt optional] in *; [|rewrite app_nil_r; by exists b].
  rewrite app_assoc in Hk |- *.
  destruct (text_put b l [c] k Hm Ht) as (b1 & -> & H1); [pose proof (zlen_prefix (l ++ [c]) x); lia | done |].
  cbn [mbind option_bind]. by apply (text_put b1 (l ++ [c]) x k).
Qed.

Lemma join_host_ok b u l k :
  mem_ok -> text_in b l -> zlen (l ++ join_authority u) + 64 <= k -> small k ->
  (host u <> None -> forall p, path u = Some p -> at_ p 0 = ch "/" \/ at_ p 0 = 0) ->
  exists b', join_host b u = Some (Some b') /\ text_in b' (l ++ join_authority u).
Proof.
  intros Hm Ht Hk Hs Hpath. unfold join_host, join_authority in *.
  destruct (host u) as [h|]; [|rewrite app_nil_r; by exists b].
  set (us := match userinfo u with None => [] | Some x => x ++ [64] end) in *.
  set (pt := if 0 <=? port u then 58 :: print_d (port u) else []) in *.
  rewrite !app_assoc in Hk |- *.
  pose proof (zlen_prefix (((l ++ bytes_of "//") ++ us) ++ h) pt) as Zp1. pose proof (zlen_prefix ((l ++ bytes_of "//") ++ us) h) as Zp2.
  pose proof (zlen_prefix (l ++ bytes_of "//") us) as Zp3.
  destruct (text_put b l (bytes_of "//") k Hm Ht) as (b1 & -> & H1); [lia | done |]. cbn [mbind option_bind].
  assert (exists b2, match userinfo u with None => Some b1 | Some x => put_printf b1 (x ++ [64]) end = Some b2 /\
    text_in b2 ((l ++ bytes_of "//") ++ us)) as (b2 & -> & H2).
  { unfold us in *. destruct (userinfo u) as [x|]; [|rewrite app_nil_r; by exists b1].
    apply (text_put_printf _ _ _ k); try done; [by destruct x | lia]. }
  cbn [mbind option_bind].
  destruct (text_put b2 _ h k Hm H2) as (b3 & -> & H3); [lia | done |]. cbn [mbind option_bind].
  assert (exists b4, (if 0 <=? port u then put_printf b3 (58 :: print_d (port u)) else Some b3) = Some b4 /\
    text_in b4 ((((l ++ bytes_of "//") ++ us) ++ h) ++ pt)) as (b4 & -> & H4).
  { unfold pt in *. destruct (0 <=? port u); [|rewrite app_nil_r; by exists b3].
    by apply (text_put_printf _ _ _ k). }
  cbn [mbind option_bind]. exists b4. split; [|done]. destruct (path u) as [p|]; [|done].
  by destruct (Hpath ltac:(done) p eq_refl) as [-> | ->].
Qed.

(** [evhttp_uri_join] writes the whole text with its terminator, if it fits. *)
Lemma join_ok sizeof u limit :
  mem_ok -> 0 <= limit -> small (zlen (uri_text u) + 65) -> zlen (uri_text u) + 1 <= INT_MAX ->
  (host u <> None -> forall p, path u = Some p -> at_ p 0 = ch "/" \/ at_ p 0 = 0) ->
  evhttp_uri_join sizeof u limit =
    Some (if zlen (uri_text u) <? limit then Some (uri_text u ++ [0]) else None).
Proof.
  intros Hm Hlim Hs Hmax Hpath. unfold evhttp_uri_join. pose proof (zlen_nonneg (uri_text u)).
  destruct (Z.eqb_spec limit 0) as [->|Hl0]; [by rewrite (proj2 (Z.ltb_ge _ _)) by lia|].
  specialize (Hm sizeof) as Hsz. destruct (mm_malloc sizeof) as [blk|]; [|done]. clear Hsz blk. cbn zeta.
  remember (zlen (uri_text u) + 65) as k eqn:Hk. unfold uri_text in *.
  set (s1 := match scheme u with None => [] | Some x => x ++ [58] end) in *.
  unfold tail_text in *. rewrite !app_assoc in *.
  set (s2 := s1 ++ join_authority u) in *. set (s3 := s2 ++ default [] (path u)) in *.
  set (s4 := s3 ++ optional [63] (query u)) in *. set (s5 := s4 ++ optional [35] (fragment u)) in *.
  assert (zlen s1 <= zlen s2 /\ zlen s2 <= zlen s3 /\ zlen s3 <= zlen s4 /\ zlen s4 <= zlen s5) as (Z1 & Z2 & Z3 & Z4)
    by (splits; apply zlen_prefix).
  assert (exists b1, match scheme u with None => Some evbuffer_new | Some s => tmp ← put evbuffer_new s; put tmp [58] end = Some b1 /\
    text_in b1 s1) as (b1 & -> & H1).
  { unfold s1 in *. destruct (scheme u) as [x|]; [|exists evbuffer_new; split; [done | apply text_new]].
    destruct (text_put evbuffer_new [] x k Hm text_new) as (b0 & -> & H0'); [cbn [app]; pose proof (zlen_prefix x [58]); lia | done |].
    apply (text_put _ _ _ k); try done. lia. }
  cbn [mbind option_bind].
  destruct (join_host_ok b1 u s1 k Hm H1) as (b2 & -> & H2); [fold s2; lia | done | done |]. cbn [mbind option_bind].
  assert (exists b3, match path u with None => Some b2 | Some p => put b2 p end = Some b3 /\ text_in b3 s3) as (b3 & -> & H3').
  { unfold s3 in *. destruct (path u) as [p|].
    - change (default [] (Some p)) with p in *. apply (text_put _ _ _ k); try done. lia.
    - change (default [] None) with (@nil Z). rewrite app_nil_r. by exists b2. }
  cbn [mbind option_bind].
  destruct (put_opt_ok b3 s3 63 (query u) k Hm H3') as (b4 & -> & H4); [fold s4; lia | done |]. cbn [mbind option_bind].
  destruct (put_opt_ok b4 s4 35 (fragment u) k Hm H4) as (b5 & -> & H5); [fold s5; lia | done |]. cbn [mbind option_bind].
  destruct (text_put b5 s5 [0] k Hm H5) as (b6 & -> & H6); [rewrite zlen_app, zlen_cons, zlen_nil; lia | done |].
  cbn [mbind option_bind]. rewrite (text_length _ _ H6).
  assert (Hlen : zlen (s5 ++ [0]) = zlen s5 + 1) by (by rewrite zlen_app).
  destruct (text_remove b6 _ H6) as (b7 & -> & _); [lia|].
  destruct (Z.ltb_spec (zlen s5) limit) as [Hlt|Hge]; [|by rewrite (proj2 (Z.ltb_lt _ _)) by lia].
  by rewrite (proj2 (Z.ltb_ge _ _)) by lia.
Qed.

(** The text written stands for the same record as the text read. *)
Lemma print_port_text p pt : port_text p pt -> port_text p (if 0 <=? p then ch ":" :: print_d p else []).
Proof.
  intros [[-> _]|(ds & _ & Hd & _ & Hv & Hm)]; [left; cbn; auto|].
  assert (Hp : 0 <= p) by (rewrite <- Hv; apply digits_value_nonneg; [lia | done]).
  rewrite (proj2 (Z.leb_le 0 p) Hp). destruct (print_num_spec 10 p ltac:(lia) Hp) as (Hne & Hds & Hval & _).
  right. exists (print_num 10 p). unfold print_d. rewrite (proj2 (Z.ltb_ge p 0)) by lia. by splits.
Qed.

Lemma print_port_cstring p : cstring (if 0 <=? p then ch ":" :: print_d p else []).
Proof.
  destruct (Z.leb_spec 0 p) as [Hp|]; [|constructor]. constructor; [done|]. unfold print_d.
  rewrite (proj2 (Z.ltb_ge p 0)) by lia. eapply (digits_cstring 10), print_num_spec; lia.
Qed.

Lemma denotes_text u s : cstring s -> denotes u s -> denotes u (uri_text u) /\ cstring (uri_text u).
Proof.
  intros Hs (sch & auth & p & Hsch & Hau & Hp & Hpt & Hpf & Hq & Hf & ->).
  assert (Hsch' : sch = match scheme u with None => [] | Some x => x ++ [ch ":"] end).
  { destruct (scheme u); [by destruct Hsch|done]. }
  unfold uri_text. rewrite Hp. change (default [] (Some p)) with p. rewrite <- Hsch'. split.
  - exists sch, (join_authority u), p. splits; try done. unfold authority_text, join_authority in *.
    destruct (host u) as [h|]; [|by destruct Hau as (_ & ?)]. destruct Hau as (Hh & pt & Hport & Hut).
    split; [done|]. exists (if 0 <=? port u then ch ":" :: print_d (port u) else []).
    split; [by eapply print_port_text|]. destruct (userinfo u) as [x|]; [|done].
    destruct Hut as [Hx _]. split; [done|]. by rewrite <- app_assoc.
  - apply Forall_app_split in Hs as [Hs1 Hs]. apply Forall_app_split in Hs as [Hs2 Hs3].
    apply Forall_app. split; [done|]. apply Forall_app. split; [|done].
    unfold authority_text, join_authority in *. destruct (host u) as [h|]; [|constructor].
    destruct Hau as (Hh & pt & Hport & Hut). pose proof (print_port_cstring (port u)).
    assert (Hch : cstring h /\ forall x, userinfo u = Some x -> cstring (x ++ [ch "@"])).
    { destruct (userinfo u) as [x|].
      - destruct Hut as [_ ->]. apply cstring_app_r in Hs2. split; [by apply cstring_app_r, cstring_app_r, cstring_app_l in Hs2|].
        intros y [= <-]. apply Forall_app. split; [by apply cstring_app_l in Hs2 | by constructor].
      - subst auth. split; [by apply cstring_app_r, cstring_app_l in Hs2 | done]. }
    destruct Hch as [Hch Hcu]. repeat (apply Forall_app; split); try done; [by repeat constructor|].
    destruct (userinfo u); [by apply Hcu | constructor].
Qed.

(** C26: Reading, writing and reading again: for every URI that parses,
    [evhttp_uri_join] writes a text with its terminator into the buffer exactly
    when it fits, and returns NULL otherwise; the text parses to the same record
    again.  It differs from the text read at most in the port, which may have
    been left empty or have had leading zeros. *)
Theorem evhttp_uri_join_parse sizeof_evbuffer s flags u limit :
  mem_ok -> cstring s -> evhttp_uri_parse_with_flags s flags = Some (Some u) ->
  0 <= limit -> small (zlen (uri_text u) + 65) -> zlen (uri_text u) + 1 <= INT_MAX ->
  evhttp_uri_join sizeof_evbuffer u limit =
    Some (if zlen (uri_text u) <? limit then Some (uri_text u ++ [0]) else None) /\
  evhttp_uri_parse_with_flags (uri_text u) flags = Some (Some u).
Proof.
  intros Hm Hs Hp Hl Hsm Hmax. destruct (parse_denotes _ _ _ Hs Hp) as [<- Hd].
  destruct (denotes_text _ _ Hs Hd) as [Hd' Hc']. split; [|by apply denotes_parse].
  apply join_ok; try done. intros Hh p Hpath. destruct Hd as (_ & _ & p' & _ & _ & Hp' & _ & [Hpf _] & _).
  rewrite Hp' in Hpath. injection Hpath as <-. destruct (host u); [|done]. destruct Hpf as [-> | ->]; auto.
Qed.
End parser.

(** ** Witnesses *)

#[local] Existing Instance win64.
#[local] Existing Instance zero_allocator.

Definition sample_text : list Z := bytes_of "http://me@[::1]:080/a%20b?c=d#e".

Definition sample_uri : evhttp_uri :=
  {| uri_flags := 0; scheme := Some (bytes_of "http"); userinfo := Some (bytes_of "me");
     host := Some (bytes_of "[::1]"); port := 80; path := Some (bytes_of "/a%20b");
     query := Some (bytes_of "c=d"); fragment := Some (bytes_of "e") |}.

Lemma sample_cstring : cstring sample_text.
Proof. by repeat (constructor; [done|]). Qed.

Lemma sample_parses : evhttp_uri_parse_with_flags sample_text 0 = Some (Some sample_uri).
Proof. vm_compute. reflexivity. Qed.


Lemma evhttp_uri_join_parse_witness :
  evhttp_uri_join 144 sample_uri 100 = Some (Some (uri_text sample_uri ++ [0])) /\
  evhttp_uri_parse_with_flags (uri_text sample_uri) 0 = Some (Some sample_uri).
Proof.
  exact (evhttp_uri_join_parse 144 sample_text 0 sample_uri 100 zero_mem_ok sample_cstring sample_parses
    ltac:(lia) ltac:(apply small_win64; vm_compute; discriminate) ltac:(vm_compute; discriminate)).
Defined.
