(* ===== verification/HttpHeaders.v ===== *)
(** Header lists of the HTTP code ([http.c], [struct evkeyvalq]): looking up,
    adding, removing and continuing headers, and what the connection headers
    say.

    A list of headers is the list of its keys and values in order.  Allocations
    can fail; the functions then return -1 and change nothing. *)

From S2P Require Import Prelude EvChain Cstring.

Record evkeyval := { key : list Z; value : list Z }.

Section headers.
Context {A : Arch} {M : Allocator}.

(** [struct evkeyval] has four pointers. *)
Definition sizeof_evkeyval : Z := size_bits / 2.

Fixpoint evhttp_find_header (headers : list evkeyval) (k : list Z) : option (list Z) :=
  match headers with
  | [] => None
  | h :: headers' => if evutil_ascii_strcasecmp (key h) k =? 0 then Some (value h) else evhttp_find_header headers' k
  end.

Definition evhttp_clear_headers (headers : list evkeyval) : list evkeyval := [].

Fixpoint evhttp_remove_header (headers : list evkeyval) (k : list Z) : Z * list evkeyval :=
  match headers with
  | [] => (-1, [])
  | h :: headers' =>
    if evutil_ascii_strcasecmp (key h) k =? 0 then (0, headers')
    else let '(r, l) := evhttp_remove_header headers' k in (r, h :: l)
  end.

Definition is_crlf (c : Z) : bool := (c =? 13) || (c =? 10).

(** The loop of [evhttp_header_is_valid_value]. *)
Fixpoint valid_value_loop (fuel : nat) (p : list Z) : bool :=
  match fuel with
  | O => false
  | S fuel' =>
    match snd (span (fun c => negb (is_crlf c)) p) with
    | [] => true
    | q =>
      let r := snd (span is_crlf q) in
      if negb (at_ r 0 =? ch " ") && negb (at_ r 0 =? 9) then false else valid_value_loop fuel' r
    end
  end.

Definition evhttp_header_is_valid_value (v : list Z) : bool := valid_value_loop (S (length v)) v.

Definition evhttp_add_header_internal (headers : list evkeyval) (k v : list Z) : Z * list evkeyval :=
  match mm_malloc sizeof_evkeyval, mm_strdup k, mm_strdup v with
  | Some _, Some k, Some v => (0, headers ++ [{| key := k; value := v |}])
  | _, _, _ => (-1, headers)
  end.

Definition evhttp_add_header (headers : list evkeyval) (k v : list Z) : Z * list evkeyval :=
  if bool_decide (strchr k 13 <> None) || bool_decide (strchr k 10 <> None) then (-1, headers)
  else if negb (evhttp_header_is_valid_value v) then (-1, headers)
  else evhttp_add_header_internal headers k v.

(** [mm_realloc] fails like [mm_malloc]. *)
Definition evhttp_append_to_last_header (headers : list evkeyval) (line : list Z) : Z * list evkeyval :=
  match last headers with
  | None => (-1, headers)
  | Some h =>
    match mm_malloc (zlen (value h) + zlen line + 1) with
    | None => (-1, headers)
    | Some _ => (0, take (length headers - 1) headers ++ [{| key := key h; value := value h ++ line |}])
    end
  end.

Definition EVHTTP_PROXY_REQUEST : Z := 0x0002.

Definition has_bit (x m : Z) : bool := negb (Z.land x m =? 0).

Definition evhttp_is_connection_close (flags : Z) (headers : list evkeyval) : bool :=
  if has_bit flags EVHTTP_PROXY_REQUEST then
    match evhttp_find_header headers (bytes_of "Proxy-Connection") with
    | None => true
    | Some c => negb (evutil_ascii_strcasecmp c (bytes_of "keep-alive") =? 0)
    end
  else
    match evhttp_find_header headers (bytes_of "Connection") with
    | None => false
    | Some c => evutil_ascii_strcasecmp c (bytes_of "close") =? 0
    end.

Definition evhttp_is_connection_keepalive (headers : list evkeyval) : bool :=
  match evhttp_find_header headers (bytes_of "Connection") with
  | None => false
  | Some c => evutil_ascii_strncasecmp c (bytes_of "keep-alive") 10 =? 0
  end.
End headers.
