(* ===== verification/UriCoding.v ===== *)
(** Escaping and its inverse ([http.c]): HTML escapes, percent encoding and
    decoding, and the parsing of query strings.  Percent encoding is undone by decoding,
    and query strings built from keys and encoded values parse back into them. *)

From S2P Require Import Prelude EvChain Evbuffer EvbufferSpec EvbufferProps EvIO EvSpace Cstring Textbuf Uri UriSpec UriProps HttpHeaders.

(** The string a pointer to these bytes stands for. *)
Definition cstr (b : list Z) : list Z := fst (span (fun c => negb (c =? 0)) b).

Lemma cstr_cstring s : cstring s -> cstr s = s.
Proof.
  intros Hs. unfold cstr. rewrite <- (app_nil_r s) at 1. rewrite span_app; [done | | by left].
  eapply Forall_impl; [|exact Hs]. cbn. unfold is_char. intros c Hc. by rewrite (proj2 (Z.eqb_neq c 0)) by lia.
Qed.

Section coding.
Context {A : Arch} {M : Allocator}.

Definition EV_SIZE_MAX : Z := 2 ^ size_bits - 1.

(** ** HTML *)

(** The replacement, if there is one; the size is its length, or 1. *)
Definition html_replace (c : Z) : Z * option (list Z) :=
  if c =? ch "<" then (4, Some (bytes_of "&lt;"))
  else if c =? ch ">" then (4, Some (bytes_of "&gt;"))
  else if c =? 34 then (6, Some (bytes_of "&quot;"))
  else if c =? ch "'" then (6, Some (bytes_of "&#039;"))
  else if c =? ch "&" then (5, Some (bytes_of "&amp;"))
  else (1, None).

(** The size of the escaped string; [None] is the return of NULL. *)
Fixpoint escaped_size (html : list Z) (new_size : Z) : option Z :=
  match html with
  | [] => Some new_size
  | c :: html' =>
    let replace_size := fst (html_replace c) in
    if EV_SIZE_MAX - new_size <? replace_size then None
    else escaped_size html' (new_size + replace_size)
  end.

(** The loop that copies the replacements, or the character itself, to [p]. *)
Fixpoint escape_loop (html : list Z) (blk : list Z) (p : Z) : option (list Z * Z) :=
  match html with
  | [] => Some (blk, p)
  | c :: html' =>
    let '(len, replaced) := html_replace c in
    blk ← mem_write blk p (ztake len (default [c] replaced));
    escape_loop html' blk (p + len)
  end.

(** The block returned, or NULL; a write outside the block is undefined. *)
Definition evhttp_htmlescape (html : option (list Z)) : option (option (list Z)) :=
  match html with
  | None => Some None
  | Some html =>
    match escaped_size html 0 with
    | None => Some None
    | Some new_size =>
      if new_size =? EV_SIZE_MAX then Some None else
      match mm_malloc (new_size + 1) with
      | None => Some None
      | Some blk =>
        '(blk, p) ← escape_loop html blk 0;
        blk ← mem_write blk p [0];
        Some (Some blk)
      end
    end
  end.

(** ** Percent encoding *)

Fixpoint uriencode_loop (s : list Z) (space_as_plus : bool) (buf : evbuffer) : option evbuffer :=
  match s with
  | [] => Some buf
  | c :: s' =>
    buf ← (if CHAR_IS_UNRESERVED c then put buf [c]
           else if (c =? ch " ") && space_as_plus then put buf [ch "+"]
           else put_printf buf (ch "%" :: print_02X c));
    uriencode_loop s' space_as_plus buf
  end.

(** [uri] is the memory from the pointer on; reading more than there is is
    undefined.  The bytes of the block returned, or NULL. *)
Definition evhttp_uriencode (sizeof_evbuffer : Z) (uri : list Z) (len : Z) (space_as_plus : bool)
  : option (option (list Z)) :=
  match mm_malloc sizeof_evbuffer with
  | None => Some None
  | Some _ =>
    src ← (if 0 <=? len then mem_read uri 0 len else Some (cstr uri));
    buf ← uriencode_loop src space_as_plus evbuffer_new;
    buf ← put buf [0];
    match mm_malloc (evbuffer_get_length buf) with
    | None => Some None
    | Some _ =>
      '(_, result, _) ← evbuffer_remove buf (evbuffer_get_length buf);
      Some (Some result)
    end
  end.

Definition evhttp_encode_uri (sizeof_evbuffer : Z) (str : list Z) : option (option (list Z)) :=
  evhttp_uriencode sizeof_evbuffer str (-1) false.

(** The bytes written to [ret] before the terminator.  The index is an [unsigned]
    and the count an [int]: the strings are shorter than 2^31. *)
Fixpoint decode_uri_loop (s : list Z) (decode_plus_ctl : Z) (decode_plus : bool) : list Z :=
  match s with
  | [] => []
  | c :: s1 =>
    if c =? ch "?" then
      c :: decode_uri_loop s1 decode_plus_ctl (if decode_plus_ctl <? 0 then true else decode_plus)
    else if (c =? ch "+") && decode_plus then ch " " :: decode_uri_loop s1 decode_plus_ctl decode_plus
    else if (c =? ch "%") && EVUTIL_ISXDIGIT (at_ s1 0) && EVUTIL_ISXDIGIT (at_ s1 1) then
      match s1 with
      | a :: b :: s3 => wrap 8 (fst (strtol 32 16 [a; b])) :: decode_uri_loop s3 decode_plus_ctl decode_plus
      | _ => []
      end
    else c :: decode_uri_loop s1 decode_plus_ctl decode_plus
  end.

Definition evhttp_decode_uri_internal (s : list Z) (decode_plus_ctl : Z) : list Z :=
  decode_uri_loop s decode_plus_ctl (decode_plus_ctl =? 1).

(** The bytes at the pointer returned, the terminator left out. *)
Definition evhttp_decode_uri (uri : list Z) : option (list Z) :=
  match mm_malloc (zlen uri + 1) with
  | None => None
  | Some _ => Some (evhttp_decode_uri_internal uri (-1))
  end.

(** The bytes, and the count stored in [size_out]. *)
Definition evhttp_uridecode (uri : list Z) (decode_plus : bool) : option (list Z * Z) :=
  match mm_malloc (zlen uri + 1) with
  | None => None
  | Some _ => let ret := evhttp_decode_uri_internal uri (if decode_plus then 1 else 0) in Some (ret, zlen ret)
  end.

(** ** Query strings *)

(** The loop over the arguments; [p] is NULL after the last one.  A failed
    allocation of a header is not noticed. *)
Fixpoint parse_query_loop (fuel : nat) (p : option (list Z)) (headers : list evkeyval) : option (list evkeyval) :=
  match p with
  | None | Some [] => Some headers
  | Some s =>
    match fuel with
    | O => None
    | S fuel' =>
      let '(argument, p') := strsep s (ch "&") in
      let '(k, v) := strsep argument (ch "=") in
      match v with
      | None => None
      | Some v =>
        if zlen k =? 0 then None else
        match mm_malloc (zlen v + 1) with
        | None => None
        | Some _ =>
          let '(_, headers) := evhttp_add_header_internal headers k (cstr (evhttp_decode_uri_internal v 1)) in
          parse_query_loop fuel' p' headers
        end
      end
    end
  end.

(** The result and the headers, none on an error. *)
Definition evhttp_parse_query_impl (str : list Z) (is_whole_uri : bool) : option (Z * list evkeyval) :=
  query_part ← (if is_whole_uri then
      o ← evhttp_uri_parse str;
      Some (match o with None => None | Some uri => Some (evhttp_uri_get_query uri) end)
    else Some (Some (Some str)));
  match query_part with
  | None => Some (-1, evhttp_clear_headers [])
  | Some None => Some (0, [])
  | Some (Some q) =>
    if zlen q =? 0 then Some (0, []) else
    match mm_strdup q with
    | None => Some (-1, evhttp_clear_headers [])
    | Some line =>
      Some (match parse_query_loop (length line) (Some line) [] with
            | Some headers => (0, headers)
            | None => (-1, evhttp_clear_headers [])
            end)
    end
  end.

Definition evhttp_parse_query (uri : list Z) : option (Z * list evkeyval) := evhttp_parse_query_impl uri true.
Definition evhttp_parse_query_str (uri : list Z) : option (Z * list evkeyval) := evhttp_parse_query_impl uri false.
End coding.

(** The encoding of a byte and of a string. *)
Definition enc_char (plus : bool) (c : Z) : list Z :=
  if CHAR_IS_UNRESERVED c then [c] else if (c =? ch " ") && plus then [ch "+"] else ch "%" :: print_02X c.

Definition enc_text (plus : bool) (s : list Z) : list Z := concat (map (enc_char plus) s).

(** The characters of encoded text. *)
Definition enc_safe (c : Z) : bool := unreserved c || (c =? ch "%") || (c =? ch "+").

Lemma enc_char_cases plus c : is_byte c ->
  enc_char plus c = [c] /\ unreserved c = true \/
  enc_char plus c = [ch "+"] /\ c = ch " " /\ plus = true \/
  exists a b, enc_char plus c = [ch "%"; a; b] /\ EVUTIL_ISXDIGIT a = true /\ EVUTIL_ISXDIGIT b = true /\
    wrap 8 (fst (strtol 32 16 [a; b])) = c /\ is_digit_of 16 a = true /\ is_digit_of 16 b = true.
Proof.
  intros Hc. unfold enc_char. rewrite unreserved_spec by done. destruct (unreserved c); [by left|]. right.
  destruct (_ && _) eqn:E; [left; bool_to_prop; by subst|]. right. unfold print_02X.
  exists (hex_upper (Z.shiftr c 4)), (hex_upper (Z.land c 15)). split; [done|].
  assert (H : (EVUTIL_ISXDIGIT (hex_upper (Z.shiftr c 4)) && EVUTIL_ISXDIGIT (hex_upper (Z.land c 15)) &&
    (wrap 8 (fst (strtol 32 16 [hex_upper (Z.shiftr c 4); hex_upper (Z.land c 15)])) =? c) &&
    is_digit_of 16 (hex_upper (Z.shiftr c 4)) && is_digit_of 16 (hex_upper (Z.land c 15))) = true).
  { clear E. revert c Hc. intros c Hc.
    apply (byte_cases (fun c => EVUTIL_ISXDIGIT (hex_upper (Z.shiftr c 4)) && EVUTIL_ISXDIGIT (hex_upper (Z.land c 15)) &&
      (wrap 8 (fst (strtol 32 16 [hex_upper (Z.shiftr c 4); hex_upper (Z.land c 15)])) =? c) &&
      is_digit_of 16 (hex_upper (Z.shiftr c 4)) && is_digit_of 16 (hex_upper (Z.land c 15))) c); [|exact Hc].
    vm_compute. reflexivity. }
  by bool_to_prop.
Qed.

Lemma digit16_unreserved c : is_digit_of 16 c = true -> unreserved c = true.
Proof.
  intros H. pose proof (digit_is_char 16 c H). assert (E : unreserved c || negb (is_digit_of 16 c) = true).
  { apply (byte_cases (fun c => unreserved c || negb (is_digit_of 16 c))); [vm_compute; reflexivity | lia]. }
  by rewrite H, orb_false_r in E.
Qed.

Lemma enc_char_safe plus c : is_byte c -> Forall (fun x => enc_safe x = true) (enc_char plus c).
Proof.
  intros Hc. destruct (enc_char_cases plus c Hc) as [[-> Hu]|[(-> & _)|(a & b & -> & _ & _ & _ & Ha & Hb)]].
  - constructor; [|done]. unfold enc_safe. by rewrite Hu.
  - by constructor.
  - apply digit16_unreserved in Ha, Hb. constructor; [done|]. unfold enc_safe.
    constructor; [by rewrite Ha|]. constructor; [by rewrite Hb | done].
Qed.

Lemma enc_text_safe plus s : Forall is_byte s -> Forall (fun x => enc_safe x = true) (enc_text plus s).
Proof.
  induction 1 as [|c s Hc _ IH]; [constructor|]. unfold enc_text. cbn [map concat]. apply Forall_app.
  split; [by apply enc_char_safe | exact IH].
Qed.

Lemma safe_cstring s : Forall is_byte s -> Forall (fun x => enc_safe x = true) s -> cstring s.
Proof.
  intros Hb Hs. unfold cstring. rewrite Forall_forall in *. intros c Hc. specialize (Hb c Hc). specialize (Hs c Hc).
  unfold is_byte in Hb. unfold is_char. destruct (Z.eq_dec c 0) as [->|]; [done | lia].
Qed.

Lemma enc_char_bytes plus c : is_byte c -> Forall is_byte (enc_char plus c) /\ 1 <= zlen (enc_char plus c) <= 3.
Proof.
  intros Hc. destruct (enc_char_cases plus c Hc) as [[-> Hu]|[(-> & _)|(a & b & -> & _ & _ & _ & Ha & Hb)]];
    rewrite ?zlen_cons, zlen_nil; (split; [|lia]).
  - by constructor.
  - by repeat constructor.
  - apply digit_is_char in Ha, Hb. repeat constructor; unfold is_byte; lia.
Qed.

Lemma enc_text_bytes plus s : Forall is_byte s -> Forall is_byte (enc_text plus s).
Proof.
  induction 1 as [|c s Hc _ IH]; [constructor|]. unfold enc_text. cbn [map concat]. apply Forall_app.
  split; [by apply enc_char_bytes | exact IH].
Qed.

(** Decoding one encoded byte. *)
Lemma decode_enc_char plus c rest ctl dp :
  is_byte c -> (plus = true -> dp = true) ->
  decode_uri_loop (enc_char plus c ++ rest) ctl dp = c :: decode_uri_loop rest ctl dp.
Proof.
  intros Hc Hp. destruct (enc_char_cases plus c Hc) as [[-> Hu]|[(-> & -> & ->)|(a & b & -> & Ha & Hb & Hv & _)]].
  - cbn [app decode_uri_loop]. destruct (Z.eqb_spec c 63) as [E|]; [rewrite E in Hu; vm_compute in Hu; discriminate Hu|].
    destruct (Z.eqb_spec c 43) as [E|]; [rewrite E in Hu; vm_compute in Hu; discriminate Hu|].
    destruct (Z.eqb_spec c 37) as [E|]; [rewrite E in Hu; vm_compute in Hu; discriminate Hu|]. reflexivity.
  - cbn [app decode_uri_loop]. rewrite Hp by done. done.
  - cbn [app decode_uri_loop]. change (at_ (a :: b :: rest) 0) with a. change (at_ (a :: b :: rest) 1) with b.
    rewrite Ha, Hb. cbn [Z.eqb Pos.eqb andb]. by rewrite Hv.
Qed.

Lemma decode_enc_text plus s ctl dp :
  Forall is_byte s -> (plus = true -> dp = true) -> decode_uri_loop (enc_text plus s) ctl dp = s.
Proof.
  intros Hs Hp. induction Hs as [|c s Hc _ IH]; [done|]. unfold enc_text. cbn [map concat].
  rewrite decode_enc_char by done. by f_equal.
Qed.

Section coding.
Context {A : Arch} {M : Allocator}.

Lemma uriencode_loop_ok s plus k : forall b l,
  mem_ok -> Forall is_byte s -> text_in b l -> zlen (l ++ enc_text plus s) + 64 <= k -> small k ->
  exists b', uriencode_loop s plus b = Some b' /\ text_in b' (l ++ enc_text plus s).
Proof.
  induction s as [|c s IH]; intros b l Hm Hs Ht Hk Hsm.
  { exists b. split; [done|]. cbn. by rewrite app_nil_r. }
  apply Forall_cons_split in Hs as [Hc Hs].
  change (enc_text plus (c :: s)) with (enc_char plus c ++ enc_text plus s) in *.
  rewrite app_assoc in *. pose proof (zlen_prefix (l ++ enc_char plus c) (enc_text plus s)).
  assert (exists b1, (if CHAR_IS_UNRESERVED c then put b [c]
           else if (c =? 32) && plus then put b [43]
           else put_printf b (37 :: print_02X c)) = Some b1 /\ text_in b1 (l ++ enc_char plus c)) as (b1 & Hb1 & Ht1).
  { unfold enc_char in *. destruct (CHAR_IS_UNRESERVED c); [apply (text_put _ _ _ k); try done; lia|].
    destruct ((c =? 32) && plus); [apply (text_put _ _ _ k); try done; lia|].
    apply (text_put_printf _ _ _ k); try done. lia. }
  cbn [uriencode_loop]. rewrite Hb1. cbn [mbind option_bind]. by apply IH.
Qed.

(** C27: Percent encoding: [evhttp_uriencode] of any bytes, zero bytes included,
    gives a string of unreserved characters, percent signs and plus signs that
    [evhttp_uridecode] turns back into exactly these bytes and their count,
    provided plus signs are decoded when spaces were encoded as such. *)
Theorem evhttp_uriencode_decode sizeof_evbuffer uri more plus :
  mem_ok -> Forall is_byte uri -> small (3 * zlen uri + 65) -> 3 * zlen uri + 1 <= INT_MAX ->
  exists t, evhttp_uriencode sizeof_evbuffer (uri ++ more) (zlen uri) plus = Some (Some (t ++ [0])) /\
    cstring t /\ Forall (fun c => enc_safe c = true) t /\
    forall decode_plus, (plus = true -> decode_plus = true) ->
      evhttp_uridecode t decode_plus = Some (uri, zlen uri).
Proof.
  intros Hm Hb Hsm Hmax. pose proof (zlen_nonneg uri).
  assert (Hlen : zlen (enc_text plus uri) <= 3 * zlen uri).
  { clear - Hb. induction Hb as [|c s Hc _ IH]; [done|]. unfold enc_text. cbn [map concat]. rewrite zlen_app, zlen_cons.
    destruct (enc_char_bytes plus c Hc) as [_ Hl]. unfold enc_text in IH. lia. }
  exists (enc_text plus uri). splits.
  - unfold evhttp_uriencode. specialize (Hm sizeof_evbuffer) as Hsz. destruct (mm_malloc sizeof_evbuffer); [|done].
    rewrite (proj2 (Z.leb_le 0 _)) by done. rewrite mem_read_Some by (rewrite ?zlen_app; pose proof (zlen_nonneg more); lia).
    cbn [mbind option_bind]. rewrite zdrop_0, ztake_exact by lia.
    destruct (uriencode_loop_ok uri plus (3 * zlen uri + 65) evbuffer_new [] Hm Hb text_new) as (b1 & -> & H1);
      [cbn [app]; lia | done |]. cbn [mbind option_bind app] in *.
    destruct (text_put b1 _ [0] (3 * zlen uri + 65) Hm H1) as (b2 & -> & H2); [rewrite zlen_app, zlen_cons, zlen_nil; lia | done |].
    cbn [mbind option_bind]. specialize (Hm (evbuffer_get_length b2)) as Hl. destruct (mm_malloc (evbuffer_get_length b2)); [|done].
    rewrite (text_length _ _ H2). destruct (text_remove b2 _ H2) as (b3 & -> & _); [|done].
    rewrite zlen_app, zlen_cons, zlen_nil. lia.
  - apply safe_cstring; [by apply enc_text_bytes | by apply enc_text_safe].
  - by apply enc_text_safe.
  - intros dp Hdp. unfold evhttp_uridecode. specialize (Hm (zlen (enc_text plus uri) + 1)). destruct (mm_malloc _); [|done].
    unfold evhttp_decode_uri_internal. rewrite decode_enc_text; [done | done |]. intros ->. by rewrite Hdp.
Qed.

(** ** Query strings *)

(** The query with these keys and values. *)
Definition query_arg (plus : bool) (h : evkeyval) : list Z := key h ++ ch "=" :: enc_text plus (value h).

Fixpoint query_text (plus : bool) (hs : list evkeyval) : list Z :=
  match hs with
  | [] => []
  | [h] => query_arg plus h
  | h :: hs' => query_arg plus h ++ ch "&" :: query_text plus hs'
  end.

(** A key is not encoded; it must not hold the separators. *)
Definition query_pair (h : evkeyval) : Prop :=
  key h <> [] /\ ch "&" ∉ key h /\ ch "=" ∉ key h /\ cstring (value h).

Lemma cstring_bytes s : cstring s -> Forall is_byte s.
Proof. intros H. eapply Forall_impl; [|exact H]. unfold is_char, is_byte. cbn. lia. Qed.

Lemma query_arg_sep plus h : query_pair h -> ch "&" ∉ query_arg plus h.
Proof.
  intros (_ & Ha & _ & Hv). unfold query_arg. rewrite not_elem_of_app, not_elem_of_cons. splits; try done.
  intros Hin%list_elem_of_In. pose proof (enc_text_safe plus _ (cstring_bytes _ Hv)) as Hs. rewrite Forall_forall in Hs.
  by specialize (Hs _ Hin).
Qed.

(** One argument goes into the list of headers. *)
Lemma query_arg_added plus h headers :
  mem_ok -> query_pair h ->
  strsep (query_arg plus h) (ch "=") = (key h, Some (enc_text plus (value h))) /\
  evhttp_add_header_internal headers (key h) (cstr (evhttp_decode_uri_internal (enc_text plus (value h)) 1)) =
    (0, headers ++ [h]).
Proof.
  intros Hm (_ & _ & He & Hv). split; [by apply strsep_found|].
  unfold evhttp_decode_uri_internal. rewrite decode_enc_text by (done || by apply cstring_bytes). rewrite cstr_cstring by done.
  unfold evhttp_add_header_internal. rewrite !strdup_ok by done. specialize (Hm sizeof_evkeyval).
  destruct (mm_malloc _); [|done]. by destruct h.
Qed.

Lemma parse_query_loop_ok plus hs : forall fuel headers,
  mem_ok -> Forall query_pair hs -> (length hs <= fuel)%nat -> hs <> [] ->
  parse_query_loop fuel (Some (query_text plus hs)) headers = Some (headers ++ hs).
Proof.
  induction hs as [|h hs IH]; intros fuel headers Hm Hp Hf Hne; [done|].
  apply Forall_cons_split in Hp as [Hh Hp]. destruct fuel as [|fuel]; [cbn in Hf; lia|].
  destruct (query_arg_added plus h headers Hm Hh) as [Hsep Hadd]. pose proof (query_arg_sep plus h Hh) as Hamp.
  assert (Hgo : forall s p', s <> [] -> strsep s (ch "&") = (query_arg plus h, p') ->
    parse_query_loop (S fuel) (Some s) headers = parse_query_loop fuel p' (headers ++ [h])).
  { intros s p' Hs Hse. cbn [parse_query_loop]. destruct s as [|c s]; [done|]. rewrite Hse, Hsep.
    destruct Hh as (Hk & _). rewrite (proj2 (Z.eqb_neq _ _)) by (intros E; by apply zlen_nil_iff in E).
    specialize (Hm (zlen (enc_text plus (value h)) + 1)). destruct (mm_malloc _); [|done]. by rewrite Hadd. }
  assert (Hq : query_arg plus h <> []) by (unfold query_arg; by destruct (key h)).
  destruct hs as [|h2 hs].
  - cbn [query_text]. rewrite (Hgo _ None) by (done || by rewrite strsep_none). by destruct fuel.
  - change (query_text plus (h :: h2 :: hs)) with (query_arg plus h ++ ch "&" :: query_text plus (h2 :: hs)).
    rewrite (Hgo _ (Some (query_text plus (h2 :: hs)))); [|by destruct (query_arg plus h) | by apply strsep_found].
    rewrite IH by (try done; cbn [length] in *; lia). by rewrite <- app_assoc.
Qed.

Lemma query_text_long plus hs : Forall query_pair hs -> (length hs <= length (query_text plus hs))%nat.
Proof.
  induction 1 as [|h hs Hh _ IH]; [done|]. destruct hs as [|h2 hs].
  - cbn [query_text length]. unfold query_arg. rewrite length_app. cbn. lia.
  - change (query_text plus (h :: h2 :: hs)) with (query_arg plus h ++ ch "&" :: query_text plus (h2 :: hs)).
    rewrite length_app. cbn [length] in *. lia.
Qed.

(** Query strings: [evhttp_parse_query_str] of keys joined with their encoded
    values gives exactly these keys and values in order, spaces encoded either
    way. *)
Theorem evhttp_parse_query_roundtrip plus hs :
  mem_ok -> Forall query_pair hs -> evhttp_parse_query_str (query_text plus hs) = Some (0, hs).
Proof.
  intros Hm Hp. unfold evhttp_parse_query_str, evhttp_parse_query_impl. cbn [mbind option_bind].
  destruct (Z.eqb_spec (zlen (query_text plus hs)) 0) as [H0|H0].
  - apply zlen_nil_iff in H0. pose proof (query_text_long plus hs Hp) as Hl. rewrite H0 in Hl. by destruct hs; [|cbn in Hl; lia].
  - rewrite strdup_ok by done. rewrite parse_query_loop_ok; [done | done | done | by apply query_text_long |].
    intros ->. by apply H0.
Qed.
End coding.

(** ** Witnesses *)

#[local] Existing Instance win64.
#[local] Existing Instance zero_allocator.

Definition sample_bytes : list Z := Eval vm_compute in bytes_of "a b/%" ++ [0; 255].

Lemma evhttp_uriencode_decode_witness :
  exists t, evhttp_uriencode 144 sample_bytes 7 true = Some (Some (t ++ [0])) /\
    evhttp_uridecode t true = Some (sample_bytes, 7).
Proof.
  destruct (evhttp_uriencode_decode 144 sample_bytes [] true zero_mem_ok) as (t & He & _ & _ & Hd).
  - by repeat (constructor; [done|]).
  - apply small_win64. vm_compute. discriminate.
  - vm_compute. discriminate.
  - exists t. split; [exact He|]. by apply Hd.
Defined.

Definition sample_query : list evkeyval :=
  [{| key := bytes_of "q"; value := bytes_of "test" |}; {| key := bytes_of "s"; value := bytes_of "some thing&more" |}].

Lemma evhttp_parse_query_witness :
  evhttp_parse_query_str (bytes_of "q=test&s=some+thing%26more") = Some (0, sample_query).
Proof.
  refine (evhttp_parse_query_roundtrip true sample_query zero_mem_ok _).
  assert (forall h, key h <> [] -> ch "&" ∉ key h -> ch "=" ∉ key h -> cstring (value h) -> query_pair h) as Hq by done.
  constructor; [|constructor; [|constructor]]; apply Hq; try done;
    try (apply (bool_decide_unpack _); vm_compute; reflexivity); by repeat (constructor; [done|]).
Defined.
