(* ===== verification/HttpServer.v ===== *)
(** The tables of an HTTP server ([http.c], [struct evhttp]): callbacks by path,
    aliases, and the hierarchy of virtual hosts with the search for the one that
    serves a host name.

    A server is a value with its virtual hosts inside, since a host can only be
    the virtual host of one server; a callback is the number of a function and
    its argument.  The listening sockets and the connections are left out, but
    for the number of sockets, which [evhttp_add_virtual_host] asks for. *)

From S2P Require Import Prelude EvChain Cstring Uri HttpHeaders UriCoding.

Record evhttp_cb := { what : list Z; cb : nat }.

Inductive evhttp := Evhttp {
  vhost_pattern : option (list Z);
  sockets : nat;
  http_callbacks : list evhttp_cb;
  virtualhosts : list evhttp;
  aliases : list (list Z);
  http_timeout : Z;
  default_max_headers_size : Z;
  default_max_body_size : Z;
  allowed_methods : Z;
  gencb : option nat }.

#[export] Instance settable_evhttp : Settable evhttp := fun h =>
  {| vhost_pattern := vhost_pattern h; sockets := sockets h; http_callbacks := http_callbacks h;
     virtualhosts := virtualhosts h; aliases := aliases h; http_timeout := http_timeout h;
     default_max_headers_size := default_max_headers_size h; default_max_body_size := default_max_body_size h;
     allowed_methods := allowed_methods h; gencb := gencb h |}.

(** ** Methods *)

Definition EVHTTP_REQ_GET : Z := Z.shiftl 1 0.
Definition EVHTTP_REQ_POST : Z := Z.shiftl 1 1.
Definition EVHTTP_REQ_HEAD : Z := Z.shiftl 1 2.
Definition EVHTTP_REQ_PUT : Z := Z.shiftl 1 3.
Definition EVHTTP_REQ_DELETE : Z := Z.shiftl 1 4.
Definition EVHTTP_REQ_OPTIONS : Z := Z.shiftl 1 5.
Definition EVHTTP_REQ_TRACE : Z := Z.shiftl 1 6.
Definition EVHTTP_REQ_CONNECT : Z := Z.shiftl 1 7.
Definition EVHTTP_REQ_PATCH : Z := Z.shiftl 1 8.
Definition _EVHTTP_REQ_UNKNOWN : Z := Z.shiftl 1 15.

(** The switches compare with the constants one after the other. *)
Definition evhttp_method (type : Z) : option (list Z) :=
  if type =? EVHTTP_REQ_GET then Some (bytes_of "GET")
  else if type =? EVHTTP_REQ_POST then Some (bytes_of "POST")
  else if type =? EVHTTP_REQ_HEAD then Some (bytes_of "HEAD")
  else if type =? EVHTTP_REQ_PUT then Some (bytes_of "PUT")
  else if type =? EVHTTP_REQ_DELETE then Some (bytes_of "DELETE")
  else if type =? EVHTTP_REQ_OPTIONS then Some (bytes_of "OPTIONS")
  else if type =? EVHTTP_REQ_TRACE then Some (bytes_of "TRACE")
  else if type =? EVHTTP_REQ_CONNECT then Some (bytes_of "CONNECT")
  else if type =? EVHTTP_REQ_PATCH then Some (bytes_of "PATCH")
  else None.

Definition evhttp_method_may_have_body (type : Z) : bool :=
  (type =? EVHTTP_REQ_POST) || (type =? EVHTTP_REQ_PUT) || (type =? EVHTTP_REQ_PATCH).

(** ** Host names *)

(** The loop over the characters of the pattern; a star tries the rest of the
    pattern at every place before the end of the name. *)
Fixpoint prefix_suffix_match (pattern name : list Z) (ignorecase : bool) : bool :=
  match pattern with
  | [] => at_ name 0 =? 0
  | c :: pattern' =>
    if c =? ch "*" then
      (fix star (name : list Z) : bool :=
         match name with
         | [] => false
         | _ :: name' => prefix_suffix_match pattern' name ignorecase || star name'
         end) name
    else if negb (c =? at_ name 0) &&
            (negb ignorecase || negb (EVUTIL_TOLOWER c =? EVUTIL_TOLOWER (at_ name 0))) then false
    else prefix_suffix_match pattern' (tail name) ignorecase
  end.

(** The server left in [outhttp] when 1 is returned. *)
Fixpoint evhttp_find_alias (http : evhttp) (hostname : list Z) : option evhttp :=
  match http with
  | Evhttp _ _ _ vhosts als _ _ _ _ _ =>
    if existsb (fun alias => evutil_ascii_strcasecmp alias hostname =? 0) als then Some http else
    (fix each (l : list evhttp) : option evhttp :=
       match l with
       | [] => None
       | vhost :: l' => match evhttp_find_alias vhost hostname with Some h => Some h | None => each l' end
       end) vhosts
  end.

(** The descent through the virtual hosts: each time the first one that matches.
    Undefined for a virtual host without a pattern. *)
Fixpoint vhost_loop (http : evhttp) (match_found : bool) (hostname : list Z) : option (bool * evhttp) :=
  match http with
  | Evhttp _ _ _ vhosts _ _ _ _ _ _ =>
    (fix each (l : list evhttp) : option (bool * evhttp) :=
       match l with
       | [] => Some (match_found, http)
       | vhost :: l' =>
         p ← vhost_pattern vhost;
         if prefix_suffix_match p hostname true then vhost_loop vhost true hostname else each l'
       end) vhosts
  end.

Definition evhttp_find_vhost (http : evhttp) (hostname : list Z) : option (bool * evhttp) :=
  match evhttp_find_alias http hostname with
  | Some h => Some (true, h)
  | None => vhost_loop http false hostname
  end.

Section server.
Context {A : Arch} {M : Allocator}.

Definition evhttp_set_timeout (http : evhttp) (timeout_in_secs : Z) : evhttp := http <| http_timeout := timeout_in_secs |>.

Definition evhttp_set_max_headers_size (http : evhttp) (n : Z) : evhttp :=
  http <| default_max_headers_size := (if n <? 0 then EV_SIZE_MAX else n) |>.

Definition EV_UINT64_MAX : Z := 2 ^ 64 - 1.

Definition evhttp_set_max_body_size (http : evhttp) (n : Z) : evhttp :=
  http <| default_max_body_size := (if n <? 0 then EV_UINT64_MAX else n) |>.

Definition evhttp_set_allowed_methods (http : evhttp) (methods : Z) : evhttp :=
  http <| allowed_methods := wrap 16 methods |>.

(** [EV_SIZE_MAX] is passed as a signed number. *)
Definition evhttp_new_object (sizeof_evhttp : Z) : option evhttp :=
  match mm_malloc sizeof_evhttp with
  | None => None
  | Some _ =>
    let http := {| vhost_pattern := None; sockets := 0; http_callbacks := []; virtualhosts := []; aliases := [];
                   http_timeout := -1; default_max_headers_size := 0; default_max_body_size := 0;
                   allowed_methods := 0; gencb := None |} in
    let http := evhttp_set_max_headers_size http (swrap size_bits EV_SIZE_MAX) in
    let http := evhttp_set_max_body_size http (swrap size_bits EV_SIZE_MAX) in
    Some (evhttp_set_allowed_methods http
      (fold_left Z.lor [EVHTTP_REQ_POST; EVHTTP_REQ_HEAD; EVHTTP_REQ_PUT; EVHTTP_REQ_DELETE] EVHTTP_REQ_GET))
  end.

(** The result, the server and the virtual host; a server with a pattern or
    with sockets cannot become one. *)
Definition evhttp_add_virtual_host (http : evhttp) (pattern : list Z) (vhost : evhttp) : Z * evhttp * evhttp :=
  if bool_decide (vhost_pattern vhost <> None) || negb (sockets vhost =? 0)%nat then (-1, http, vhost) else
  match mm_strdup pattern with
  | None => (-1, http, vhost)
  | Some p =>
    let vhost := vhost <| vhost_pattern := Some p |> in
    (0, http <| virtualhosts := virtualhosts http ++ [vhost] |>, vhost)
  end.

(** The virtual host is the one at place [k]; a server that is no virtual host is
    at no place. *)
Definition evhttp_remove_virtual_host (http : evhttp) (k : nat) : Z * evhttp * option evhttp :=
  match virtualhosts http !! k with
  | None => (-1, http, None)
  | Some vhost =>
    match vhost_pattern vhost with
    | None => (-1, http, Some vhost)
    | Some _ => (0, http <| virtualhosts := delete k (virtualhosts http) |>, Some (vhost <| vhost_pattern := None |>))
    end
  end.

(** A list entry and pointers: [struct evhttp_server_alias] has three words,
    [struct evhttp_cb] five. *)
Definition evhttp_add_server_alias (http : evhttp) (alias : list Z) : Z * evhttp :=
  match mm_malloc (3 * (size_bits / 8)), mm_strdup alias with
  | Some _, Some a => (0, http <| aliases := aliases http ++ [a] |>)
  | _, _ => (-1, http)
  end.

Fixpoint remove_alias (l : list (list Z)) (alias : list Z) : option (list (list Z)) :=
  match l with
  | [] => None
  | a :: l' => if evutil_ascii_strcasecmp a alias =? 0 then Some l' else cons a <$> remove_alias l' alias
  end.

Definition evhttp_remove_server_alias (http : evhttp) (alias : list Z) : Z * evhttp :=
  match remove_alias (aliases http) alias with
  | Some l => (0, http <| aliases := l |>)
  | None => (-1, http)
  end.

(** ** Callbacks *)

Definition evhttp_set_cb (http : evhttp) (uri : list Z) (f : nat) : Z * evhttp :=
  if existsb (fun c => bool_decide (what c = uri)) (http_callbacks http) then (-1, http) else
  match mm_malloc (5 * (size_bits / 8)) with
  | None => (-2, http)
  | Some _ =>
    match mm_strdup uri with
    | None => (-3, http)
    | Some u => (0, http <| http_callbacks := http_callbacks http ++ [{| what := u; cb := f |}] |>)
    end
  end.

Fixpoint remove_cb (l : list evhttp_cb) (uri : list Z) : option (list evhttp_cb) :=
  match l with
  | [] => None
  | c :: l' => if bool_decide (what c = uri) then Some l' else cons c <$> remove_cb l' uri
  end.

Definition evhttp_del_cb (http : evhttp) (uri : list Z) : Z * evhttp :=
  match remove_cb (http_callbacks http) uri with
  | Some l => (0, http <| http_callbacks := l |>)
  | None => (-1, http)
  end.

Definition evhttp_set_gencb (http : evhttp) (f : nat) : evhttp := http <| gencb := Some f |>.

(** The callback whose path is the decoded path of the URI; a URI without a path
    is undefined. *)
Definition evhttp_dispatch_callback (cbs : list evhttp_cb) (uri_elems : evhttp_uri) : option (option evhttp_cb) :=
  p ← evhttp_uri_get_path uri_elems;
  match mm_malloc (zlen p + 1) with
  | None => Some None
  | Some _ =>
    let translated := cstr (evhttp_decode_uri_internal p 0) in
    Some (List.find (fun c => bool_decide (what c = translated)) cbs)
  end.
End server.

(** ** Patterns *)

(** Two characters are the same, up to case on request. *)
Definition same_char (ignorecase : bool) (c d : Z) : Prop :=
  c = d \/ ignorecase = true /\ EVUTIL_TOLOWER c = EVUTIL_TOLOWER d.

(** The names a pattern matches: a star stands for any characters, but something
    must be left for the rest of the pattern. *)
Inductive glob (ignorecase : bool) : list Z -> list Z -> Prop :=
| glob_nil : glob ignorecase [] []
| glob_char c d p n : c <> ch "*" -> same_char ignorecase c d -> glob ignorecase p n -> glob ignorecase (c :: p) (d :: n)
| glob_star p w n : n <> [] -> glob ignorecase p n -> glob ignorecase (ch "*" :: p) (w ++ n).

Lemma tolower_nonzero c : is_char c -> EVUTIL_TOLOWER c <> 0.
Proof.
  intros H E. assert (Hb : (c =? 0) || negb (EVUTIL_TOLOWER c =? 0) = true).
  { apply (byte_cases (fun c => (c =? 0) || negb (EVUTIL_TOLOWER c =? 0))); [vm_compute; reflexivity|]. unfold is_char, is_byte in *. lia. }
  rewrite E in Hb. unfold is_char in H. destruct (Z.eqb_spec c 0); [lia | done].
Qed.

Lemma same_char_dec ic c d :
  negb (c =? d) && (negb ic || negb (EVUTIL_TOLOWER c =? EVUTIL_TOLOWER d)) = false <-> same_char ic c d.
Proof.
  unfold same_char. destruct (Z.eqb_spec c d), ic, (Z.eqb_spec (EVUTIL_TOLOWER c) (EVUTIL_TOLOWER d)); cbn; naive_solver.
Qed.

Lemma prefix_suffix_match_ok ic p : forall n,
  cstring p -> cstring n -> prefix_suffix_match p n ic = true <-> glob ic p n.
Proof.
  induction p as [|c p IH]; intros n Hp Hn.
  - cbn [prefix_suffix_match]. destruct n as [|d n].
    + split; [constructor | done].
    + apply Forall_cons_split in Hn as [Hd _]. rewrite at_cons_0. unfold is_char in Hd.
      destruct (Z.eqb_spec d 0); [lia|]. split; [done | inversion 1].
  - apply Forall_cons_split in Hp as [Hc Hp]. cbn [prefix_suffix_match]. destruct (Z.eqb_spec c (ch "*")) as [->|Hs].
    + assert (Hstar : glob ic (ch "*" :: p) n <-> exists w m, n = w ++ m /\ m <> [] /\ glob ic p m).
      { split; [inversion 1; subst; [done | eauto] | intros (w & m & -> & Hm & Hg); by constructor]. }
      rewrite Hstar. clear Hstar. induction n as [|d n IHn].
      * split; [done|]. by intros (w & [|] & E & Hm & _); destruct w.
      * pose proof Hn as Hn'. apply Forall_cons_split in Hn' as [_ Hn2]. rewrite orb_true_iff, IH, IHn by done. split.
        -- intros [Hg|(w & m & -> & Hm & Hg)]; [by exists [], (d :: n) | by exists (d :: w), m].
        -- intros ([|d' w] & m & E & Hm & Hg); cbn in E; [left; by subst|]. injection E as -> ->. right. eauto.
    + destruct n as [|d n].
      * split; [|by inversion 1; subst]. change (at_ [] 0) with 0. unfold is_char in Hc. rewrite (proj2 (Z.eqb_neq c 0)) by lia.
        change (EVUTIL_TOLOWER 0) with 0. rewrite (proj2 (Z.eqb_neq _ 0)) by (by apply tolower_nonzero). by destruct ic.
      * apply Forall_cons_split in Hn as [_ Hn]. rewrite at_cons_0. cbn [tail]. pose proof (same_char_dec ic c d) as Hsc.
        destruct (_ && _).
        -- split; [done|]. intros Hg. exfalso. assert (same_char ic c d) as Hx%Hsc by (by inversion Hg). done.
        -- rewrite IH by done. assert (same_char ic c d) by (by apply Hsc). split; [by constructor|]. inversion 1; by subst.
Qed.

(** C28: Patterns of virtual hosts: [prefix_suffix_match] terminates and matches
    exactly the names of the declarative relation [glob]; in particular a
    pattern that ends in a star matches no name at all. *)
Theorem prefix_suffix_match_spec ic p n :
  cstring p -> cstring n ->
  (prefix_suffix_match p n ic = true <-> glob ic p n) /\
  prefix_suffix_match (p ++ [ch "*"]) n ic = false.
Proof.
  intros Hp Hn. split; [by apply prefix_suffix_match_ok|].
  destruct (prefix_suffix_match _ n ic) eqn:E; [|done].
  apply prefix_suffix_match_ok in E; [|apply Forall_app; split; [done | by constructor] | done].
  exfalso. clear Hp Hn. remember (p ++ [ch "*"]) as q eqn:Hq. revert p Hq.
  induction E as [|c d q n Hc _ _ IH|q w n Hn Hg IH]; intros p Hq.
  - by destruct p.
  - destruct p as [|c' p]; [by injection Hq as -> _|]. injection Hq as _ ->. by apply (IH p).
  - destruct p as [|c' p]; [|injection Hq as _ ->; by apply (IH p)]. injection Hq as ->. by inversion Hg.
Qed.

Lemma prefix_suffix_match_witness :
  (prefix_suffix_match (bytes_of "*.Example.com") (bytes_of "www.example.COM") true = true <->
   glob true (bytes_of "*.Example.com") (bytes_of "www.example.COM")) /\
  prefix_suffix_match (bytes_of "www.example.*") (bytes_of "www.example.com") true = false.
Proof.
  split.
  - apply (prefix_suffix_match_spec true (bytes_of "*.Example.com") (bytes_of "www.example.COM")); by repeat constructor.
  - apply (prefix_suffix_match_spec true (bytes_of "www.example.") (bytes_of "www.example.com")); by repeat constructor.
Defined.

(** ** Virtual hosts *)

(** One step down the hierarchy: [v] is the first virtual host of [h] that
    matches. *)
Definition first_match (h v : evhttp) (hostname : list Z) : Prop :=
  exists l r p, virtualhosts h = l ++ v :: r /\ vhost_pattern v = Some p /\
    prefix_suffix_match p hostname true = true /\
    Forall (fun u => exists q, vhost_pattern u = Some q /\ prefix_suffix_match q hostname true = false) l.

(** The server [v] that serves [hostname]: reached from [h] by taking first
    matches as long as there is one. *)
Inductive serves (hostname : list Z) : evhttp -> evhttp -> Prop :=
| serves_here h :
    Forall (fun u => exists q, vhost_pattern u = Some q /\ prefix_suffix_match q hostname true = false) (virtualhosts h) ->
    serves hostname h h
| serves_below h u v : first_match h u hostname -> serves hostname u v -> serves hostname h v.

(** Every virtual host of the hierarchy has a pattern. *)
Inductive patterned : evhttp -> Prop :=
| patterned_intro h : Forall (fun v => vhost_pattern v <> None) (virtualhosts h) -> Forall patterned (virtualhosts h) -> patterned h.

(** Induction on the hierarchy. *)
Lemma evhttp_nested_ind (P : evhttp -> Prop) :
  (forall h, Forall P (virtualhosts h) -> P h) -> forall h, P h.
Proof.
  intros H. fix IH 1. intros h. apply H. destruct h as [pat so cbs vs al t mh mb am g]. cbn [virtualhosts].
  induction vs as [|v vs IHvs]; constructor; [apply IH | exact IHvs].
Qed.

(** The search from [h], with or without a match so far. *)
Lemma vhost_loop_ok hostname h : forall found, patterned h ->
  exists m v, vhost_loop h found hostname = Some (m, v) /\ serves hostname h v /\
    (m = true <-> found = true \/ exists u, first_match h u hostname).
Proof.
  induction h as [h IH] using evhttp_nested_ind. intros found Hp.
  assert (Hvs : Forall (fun v => vhost_pattern v <> None) (virtualhosts h) /\ Forall patterned (virtualhosts h))
    by (by inversion Hp).
  destruct Hvs as [Hpat Hsub]. clear Hp.
  assert (Hrest : forall r l, virtualhosts h = l ++ r ->
    Forall (fun u => exists q, vhost_pattern u = Some q /\ prefix_suffix_match q hostname true = false) l ->
    exists m v, (fix each (l : list evhttp) : option (bool * evhttp) :=
       match l with
       | [] => Some (found, h)
       | vhost :: l' =>
         p ← vhost_pattern vhost;
         if prefix_suffix_match p hostname true then vhost_loop vhost true hostname else each l'
       end) r = Some (m, v) /\ serves hostname h v /\ (m = true <-> found = true \/ exists u, first_match h u hostname)).
  { induction r as [|u r IHr]; intros l Hl Hno.
    - rewrite app_nil_r in Hl. exists found, h. split; [done|]. split; [apply serves_here; by rewrite Hl|].
      split; [by left|]. intros [?|(u & l1 & r1 & p & Hu & Hq & Hm & _)]; [done|].
      rewrite Hl in Hu. rewrite Hu in Hno. apply Forall_app in Hno as [_ Hno].
      apply Forall_cons_split in Hno as [(q & Hq' & Hm') _]. congruence.
    - assert (Hin : u ∈ virtualhosts h) by (rewrite Hl; apply elem_of_app; right; left).
      apply list_elem_of_In in Hin. rewrite Forall_forall in IH. rewrite Forall_forall in Hpat. rewrite Forall_forall in Hsub.
      destruct (vhost_pattern u) as [q|] eqn:Eq; [|by destruct (Hpat u Hin)]. cbn [mbind option_bind].
      destruct (prefix_suffix_match q hostname true) eqn:Em.
      + destruct (IH u Hin true (Hsub u Hin)) as (m & v & Hrun & Hserv & Hm). exists m, v. split; [exact Hrun|].
        assert (Hf : first_match h u hostname) by (by exists l, r, q). split; [by eapply serves_below|].
        split; [intros _; right; by exists u | intros _; apply Hm; by left].
      + apply (IHr (l ++ [u])); [by rewrite <- app_assoc|]. apply Forall_app. split; [done|]. constructor; [by exists q | done]. }
  destruct (Hrest (virtualhosts h) [] eq_refl (Forall_nil _)) as (m & v & Hrun & Hx). exists m, v. split; [|exact Hx].
  rewrite <- Hrun. by destruct h.
Qed.

(** [evhttp_find_vhost] without aliases on the way: it terminates on every
    hierarchy and gives the host that serves the name, and whether a virtual host
    of the first level matched. *)
Lemma find_vhost_ok hostname h :
  patterned h -> evhttp_find_alias h hostname = None ->
  exists m v, evhttp_find_vhost h hostname = Some (m, v) /\ serves hostname h v /\
    (m = true <-> exists u, first_match h u hostname).
Proof.
  intros Hp Ha. destruct (vhost_loop_ok hostname h false Hp) as (m & v & Hr & Hs & Hm). exists m, v.
  unfold evhttp_find_vhost. rewrite Ha. split; [done|]. split; [done|]. rewrite Hm. naive_solver.
Qed.
