(* ===== verification/HttpMessage.v ===== *)
(** HTTP messages ([http.c], [struct evhttp_request]): first lines, header blocks
    and bodies as they are read from the input buffer of a connection, with the
    state machine that reads them.  First, lines in buffers: a line is read as
    soon as its end is there, and bytes are moved as soon as they are all there.

    What lies beyond a message (the connection failing or being done with the
    request, the events of the socket, answers of the server) is recorded as a
    list of the calls made.  The callback for chunks is an argument; it may change
    the request.  [None] is undefined behaviour, or a violated assertion. *)

From S2P Require Import Prelude EvChain Evbuffer EvbufferSpec EvbufferProps EvExpand EvIO EvSearch EvSearchSpec EvLines EvSpace Cstring Uri HttpHeaders UriCoding HttpServer.

(** ** Lines of a stream that is only partly there *)

Definition crlf : list Z := [CR; LF].

(** The characters of a line. *)
Definition line_char (c : Z) : Prop := is_char c /\ c <> CR /\ c <> LF.

Lemma eol_len_line c l : line_char c -> eol_len EVBUFFER_EOL_CRLF (c :: l) = None.
Proof.
  intros (_ & Hcr & Hlf). cbn [eol_len]. rewrite (proj2 (Z.eqb_neq LF c)) by done.
  destruct (starts_with [CR; LF] (c :: l)) eqn:E; [|done]. unfold starts_with in E. apply bool_decide_eq_true_1 in E.
  by injection E.
Qed.

Lemma first_eol_line l r : Forall line_char l -> first_eol EVBUFFER_EOL_CRLF (l ++ crlf ++ r) = Some (zlen l, 2).
Proof.
  induction 1 as [|c l Hc _ IH]; [done|]. cbn [app]. rewrite first_eol_step, IH.
  - cbn. rewrite zlen_cons. by f_equal.
  - by apply eol_len_line.
Qed.

Lemma first_eol_partial l r : Forall line_char l -> r = [] \/ r = [CR] -> first_eol EVBUFFER_EOL_CRLF (l ++ r) = None.
Proof.
  intros Hl Hr. induction Hl as [|c l Hc _ IH]; [by destruct Hr as [-> | ->]|].
  cbn [app]. rewrite first_eol_step, IH; [done|]. by apply eol_len_line.
Qed.

(** The longer of two prefixes of the same list. *)
Lemma app_longer (b future d r : list Z) :
  b ++ future = d ++ r -> zlen d <= zlen b -> exists m, b = d ++ m /\ m ++ future = r.
Proof.
  intros H Hl. apply app_eq_inv in H as [(m & -> & ->)|(m & -> & ->)]; [by exists m|].
  rewrite zlen_app in Hl. assert (m = []) as -> by (apply zlen_nil_iff; pose proof (zlen_nonneg m); lia).
  exists []. by rewrite !app_nil_r.
Qed.

(** What is there of a line and the rest: all of the line, or a part without an
    end of line. *)
Lemma split_line b future line rest :
  b ++ future = line ++ crlf ++ rest -> Forall line_char line ->
  (exists b', b = line ++ crlf ++ b' /\ b' ++ future = rest) \/
  first_eol EVBUFFER_EOL_CRLF b = None /\ future <> [].
Proof.
  intros H Hl. apply app_eq_inv in H as [(k & -> & Hk)|(k & -> & ->)].
  - apply app_eq_inv in Hk as [(m & Hm & ->)|(m & -> & Hk)].
    + destruct k as [|x [|y [|z k]]]; cbn in Hm.
      * right. split; [by apply first_eol_partial; [|left] | by rewrite <- Hm].
      * injection Hm as <- Hm. right. split; [by apply first_eol_partial; [|right] | by rewrite <- Hm].
      * injection Hm as <- <- <-. left. by exists [].
      * by injection Hm.
    + left. by exists m.
  - right. apply Forall_app in Hl as [Hl _]. split; [|by destruct k]. rewrite <- (app_nil_r b). by apply first_eol_partial; [|left].
Qed.

(** ** Buffers on the way *)

Section buffers.
Context {A : Arch} {M : Allocator}.

(** A buffer that is read from and filled. *)
Record flowing (b : evbuffer) : Prop := {
  fl_packed : packed b;
  fl_plain : plain b;
  fl_start : freeze_start b = false;
  fl_end : freeze_end b = false }.

Lemma flowing_keeps b b' : flowing b -> packed b' -> keeps b b' -> flowing b'.
Proof. intros [? Hp Hs He] ? [Hs' He' Hp']. split; [done | by apply Hp' | by rewrite Hs' | by rewrite He']. Qed.

Lemma flowing_len b : flowing b -> evbuffer_get_length b = zlen (contents b).
Proof. intros [Hp _ _ _]. apply (pk_total _ Hp). Qed.

Lemma flowing_add b d : mem_ok -> flowing b -> small (zlen d) -> d <> [] ->
  exists b', evbuffer_add b d = Some (0, b') /\ flowing b' /\ contents b' = contents b ++ d.
Proof.
  intros Hm Hf Hs Hd. destruct (add_ok b d Hm (fl_packed _ Hf) (fl_end _ Hf) Hs Hd) as (b' & Hr & Ha).
  exists b'. split; [done|]. apply appended_facts in Ha as (Hp & Hc & _). split; [|done].
  apply (flowing_keeps b); [done | done |]. by eapply add_keeps.
Qed.

(** A line is read as soon as it is there. *)
Lemma flowing_readln b future line rest :
  mem_ok -> flowing b -> zlen (contents b) <= INT_MAX -> Forall line_char line ->
  contents b ++ future = line ++ crlf ++ rest ->
  (exists b', evbuffer_readln b EVBUFFER_EOL_CRLF = Some (Some line, zlen line, b') /\ flowing b' /\
     contents b' ++ future = rest /\ zlen (contents b') < zlen (contents b)) \/
  evbuffer_readln b EVBUFFER_EOL_CRLF = Some (None, 0, b) /\ future <> [].
Proof.
  intros Hm Hf Hmax Hl Hc. pose proof (pk_total _ (fl_packed _ Hf)) as Ht.
  pose proof (readln_ok b EVBUFFER_EOL_CRLF (fl_packed _ Hf) (fl_start _ Hf) ltac:(lia)) as Hr.
  destruct (split_line _ _ _ _ Hc Hl) as [(c & Hb & Hrest)|[He Hfut]].
  - left. rewrite Hb, first_eol_line in Hr by done. specialize (Hm (zlen line + 1)). destruct (mm_malloc _); [|done].
    destruct Hr as (b' & Hr & Hp & Hc'). exists b'.
    rewrite ztake_exact in Hr by done. split; [done|].
    assert (Hc2 : contents b' = c).
    { rewrite Hc', app_assoc. apply zdrop_exact. by rewrite zlen_app. }
    split; [|split; [by rewrite Hc2 | rewrite Hc2, Hb, !zlen_app; pose proof (zlen_nonneg line); change (zlen crlf) with 2; lia]].
    apply (flowing_keeps b); [done | done |]. by eapply readln_keeps.
  - right. by rewrite He in Hr.
Qed.

(** Bytes that are all there are moved. *)
Lemma flowing_move b inb d rest :
  mem_ok -> flowing b -> packed inb -> freeze_end inb = false -> d <> [] -> small (zlen d) -> contents b = d ++ rest ->
  exists r b' inb', evbuffer_remove_buffer false b inb (zlen d) = Some (r, b', inb') /\ flowing b' /\ contents b' = rest /\
    packed inb' /\ freeze_end inb' = false /\ contents inb' = contents inb ++ d.
Proof.
  intros Hm Hf Hp He Hd Hs Hc.
  assert (0 < zlen d) by (pose proof (zlen_nonneg d); assert (zlen d <> 0) by (by intros ?%zlen_nil_iff); lia).
  destruct (remove_buffer_ok b inb (zlen d)) as (b' & inb' & Hr & Hp' & Hpi & Hc' & Hci); try done; try apply Hf.
  pose proof Hr as Hk. apply remove_buffer_keeps in Hk as (Hk & _ & Hke); [|apply Hf].
  rewrite Hc in *. rewrite zdrop_exact in Hc' by done. rewrite ztake_exact in Hci by done. eexists _, b', inb'.
  split; [exact Hr|]. split; [by apply (flowing_keeps b)|]. splits; try done. by rewrite Hke.
Qed.

(** The same when the whole line is known to be there, for any packed buffer. *)
Lemma read_text_line b line rest :
  mem_ok -> packed b -> freeze_start b = false -> zlen (contents b) <= INT_MAX -> Forall line_char line ->
  contents b = line ++ crlf ++ rest ->
  exists b', evbuffer_readln b EVBUFFER_EOL_CRLF = Some (Some line, zlen line, b') /\ packed b' /\
    freeze_start b' = false /\ contents b' = rest.
Proof.
  intros Hm Hp Hs Hmax Hl Hc. pose proof (pk_total _ Hp) as Ht.
  pose proof (readln_ok b EVBUFFER_EOL_CRLF Hp Hs ltac:(lia)) as Hr. rewrite Hc, first_eol_line in Hr by done.
  specialize (Hm (zlen line + 1)). destruct (mm_malloc _); [|done]. destruct Hr as (b' & Hr & Hp' & Hc').
  rewrite ztake_exact in Hr by done. exists b'. pose proof (kp_start _ _ (readln_keeps _ _ _ _ _ Hr)) as Hs'.
  splits; try done; [by rewrite Hs'|]. rewrite Hc', app_assoc. apply zdrop_exact. by rewrite zlen_app.
Qed.
End buffers.

Inductive message_read_status := ALL_DATA_READ | MORE_DATA_EXPECTED | DATA_CORRUPTED | REQUEST_CANCELED | DATA_TOO_LONG.

Inductive evhttp_request_kind := EVHTTP_REQUEST | EVHTTP_RESPONSE.

Inductive evhttp_connection_state :=
  EVCON_DISCONNECTED | EVCON_CONNECTING | EVCON_IDLE | EVCON_READING_FIRSTLINE | EVCON_READING_HEADERS |
  EVCON_READING_BODY | EVCON_READING_TRAILER | EVCON_WRITING.

Inductive evhttp_connection_error :=
  EVCON_HTTP_TIMEOUT | EVCON_HTTP_EOF | EVCON_HTTP_INVALID_HEADER | EVCON_HTTP_BUFFER_ERROR | EVCON_HTTP_REQUEST_CANCEL.

(** [http_server] is NULL for an outgoing connection. *)
Record evhttp_connection := {
  max_headers_size : Z;
  max_body_size : Z;
  state : evhttp_connection_state;
  http_server : option evhttp }.

#[export] Instance settable_connection : Settable evhttp_connection := fun c =>
  {| max_headers_size := max_headers_size c; max_body_size := max_body_size c; state := state c; http_server := http_server c |}.

Record evhttp_request := {
  kind : evhttp_request_kind;
  req_type : Z;
  req_flags : Z;
  input_headers : list evkeyval;
  output_headers : list evkeyval;
  headers_size : Z;
  body_size : Z;
  req_uri : option (list Z);
  uri_elems : option evhttp_uri;
  major : Z;
  minor : Z;
  response_code : Z;
  response_code_line : option (list Z);
  input_buffer : evbuffer;
  ntoread : Z;
  chunked : bool;
  userdone : bool;
  output_buffer : evbuffer;
  has_chunk_cb : bool;
  host_cache : option (list Z) }.

#[export] Instance settable_request : Settable evhttp_request := fun r =>
  {| kind := kind r; req_type := req_type r; req_flags := req_flags r; input_headers := input_headers r;
     output_headers := output_headers r; headers_size := headers_size r; body_size := body_size r;
     req_uri := req_uri r; uri_elems := uri_elems r; major := major r; minor := minor r;
     response_code := response_code r; response_code_line := response_code_line r; input_buffer := input_buffer r;
     ntoread := ntoread r; chunked := chunked r; userdone := userdone r; output_buffer := output_buffer r;
     has_chunk_cb := has_chunk_cb r; host_cache := host_cache r |}.

Definition EVHTTP_REQ_DEFER_FREE : Z := 0x0008.
Definition EVHTTP_REQ_NEEDS_FREE : Z := 0x0010.

Definition HTTP_NOCONTENT : Z := 204.
Definition HTTP_NOTMODIFIED : Z := 304.
Definition HTTP_ENTITYTOOLARGE : Z := 413.
Definition HTTP_EXPECTATIONFAILED : Z := 417.

Definition REQ_VERSION_BEFORE (req : evhttp_request) (ma mi : Z) : bool :=
  (major req <? ma) || ((major req =? ma) && (minor req <? mi)).

Definition REQ_VERSION_ATLEAST (req : evhttp_request) (ma mi : Z) : bool :=
  (ma <? major req) || ((major req =? ma) && (mi <=? minor req)).

Definition evhttp_response_needs_body (req : evhttp_request) : bool :=
  negb (response_code req =? HTTP_NOCONTENT) && negb (response_code req =? HTTP_NOTMODIFIED) &&
  ((response_code req <? 100) || (200 <=? response_code req)) && negb (req_type req =? EVHTTP_REQ_HEAD).

Section message.
Context {A : Arch} {M : Allocator}.

(** ** First lines *)

Definition evhttp_valid_response_code (code : Z) : bool := if code =? 0 then false else true.

(** The input after [HTTP/], if it starts so. *)
Definition scan_prefix (s : list Z) : option (list Z) :=
  let p := bytes_of "HTTP/" in
  if bool_decide (take (length p) s = p) then Some (drop (length p) s) else None.

(** [sscanf] with [HTTP/%d.%d%c]: the two numbers, when the result is 2. *)
Definition scan_version (s : list Z) : option (option (Z * Z)) :=
  match scan_prefix s with
  | None => Some None
  | Some s1 =>
    o ← scan_d s1;
    match o with
    | None => Some None
    | Some (ma, s2) =>
      if at_ s2 0 =? ch "." then
        o ← scan_d (tail s2);
        Some match o with Some (mi, []) => Some (ma, mi) | _ => None end
      else Some None
    end
  end.

(** The numbers are stored as [char]. *)
Definition evhttp_parse_http_version (version : list Z) (req : evhttp_request) : option (Z * evhttp_request) :=
  o ← scan_version version;
  Some match o with
  | None => (-1, req)
  | Some (ma, mi) => if 1 <? ma then (-1, req) else (0, req <| major := swrap 8 ma |> <| minor := swrap 8 mi |>)
  end.

Definition evhttp_parse_response_line (req : evhttp_request) (line : list Z) : option (Z * evhttp_request) :=
  let '(protocol, line) := strsep line (ch " ") in
  match line with
  | None => Some (-1, req)
  | Some line =>
    let '(number, line) := strsep line (ch " ") in
    let readable := match line with Some l => l | None => [] end in
    '(r, req) ← evhttp_parse_http_version protocol req;
    if r <? 0 then Some (-1, req) else
    code ← atoi number;
    let req := req <| response_code := code |> in
    if negb (evhttp_valid_response_code (response_code req)) then Some (-1, req) else
    let req := req <| response_code_line := mm_strdup readable |> in
    Some (match response_code_line req with None => -1 | Some _ => 0 end, req)
  end.

(** The methods a request line is compared with. *)
Definition request_type (method : list Z) : Z :=
  if bool_decide (method = bytes_of "GET") then EVHTTP_REQ_GET
  else if bool_decide (method = bytes_of "POST") then EVHTTP_REQ_POST
  else if bool_decide (method = bytes_of "HEAD") then EVHTTP_REQ_HEAD
  else if bool_decide (method = bytes_of "PUT") then EVHTTP_REQ_PUT
  else if bool_decide (method = bytes_of "DELETE") then EVHTTP_REQ_DELETE
  else if bool_decide (method = bytes_of "OPTIONS") then EVHTTP_REQ_OPTIONS
  else if bool_decide (method = bytes_of "TRACE") then EVHTTP_REQ_TRACE
  else if bool_decide (method = bytes_of "PATCH") then EVHTTP_REQ_PATCH
  else _EVHTTP_REQ_UNKNOWN.

(** The test for a proxy request: an absolute URI for a host that is not ours.
    It asks the server of the connection, which must be there. *)
Definition is_proxy_request (evcon : option evhttp_connection) (uri : evhttp_uri) : option bool :=
  match evhttp_uri_get_scheme uri, evhttp_uri_get_host uri with
  | Some scheme, Some hostname =>
    if (evutil_ascii_strcasecmp scheme (bytes_of "http") =? 0) || (evutil_ascii_strcasecmp scheme (bytes_of "https") =? 0)
    then con ← evcon; http ← http_server con; '(found, _) ← evhttp_find_vhost http hostname; Some (negb found)
    else Some false
  | _, _ => Some false
  end.

Definition evhttp_parse_request_line (evcon : option evhttp_connection) (req : evhttp_request) (line : list Z)
  : option (Z * evhttp_request) :=
  let '(method, line) := strsep line (ch " ") in
  match line with
  | None => Some (-1, req)
  | Some line =>
    let '(uri, line) := strsep line (ch " ") in
    match line with
    | None => Some (-1, req)
    | Some line =>
      let '(version, line) := strsep line (ch " ") in
      match line with
      | Some _ => Some (-1, req)
      | None =>
        let req := req <| req_type := request_type method |> in
        '(r, req) ← evhttp_parse_http_version version req;
        if r <? 0 then Some (-1, req) else
        let req := req <| req_uri := mm_strdup uri |> in
        match req_uri req with
        | None => Some (-1, req)
        | Some u =>
          elems ← evhttp_uri_parse_with_flags u EVHTTP_URI_NONCONFORMANT;
          let req := req <| uri_elems := elems |> in
          match elems with
          | None => Some (-1, req)
          | Some elems =>
            proxy ← is_proxy_request evcon elems;
            Some (0, if proxy : bool then req <| req_flags := Z.lor (req_flags req) EVHTTP_PROXY_REQUEST |> else req)
          end
        end
      end
    end
  end.

(** The limits hold when the request has a connection. *)
Definition over_headers (evcon : option evhttp_connection) (n : Z) : bool :=
  match evcon with Some c => max_headers_size c <? n | None => false end.

Definition evhttp_parse_firstline (evcon : option evhttp_connection) (req : evhttp_request) (buffer : evbuffer)
  : option (message_read_status * evhttp_request * evbuffer) :=
  '(line, line_length, buffer) ← evbuffer_readln buffer EVBUFFER_EOL_CRLF;
  match line with
  | None =>
    Some (if over_headers evcon (evbuffer_get_length buffer) then DATA_TOO_LONG else MORE_DATA_EXPECTED, req, buffer)
  | Some line =>
    if over_headers evcon line_length then Some (DATA_TOO_LONG, req, buffer) else
    let req := req <| headers_size := line_length |> in
    '(r, req) ← match kind req with
                | EVHTTP_REQUEST => evhttp_parse_request_line evcon req (cstr line)
                | EVHTTP_RESPONSE => evhttp_parse_response_line req (cstr line)
                end;
    Some (if r =? -1 then DATA_CORRUPTED else ALL_DATA_READ, req, buffer)
  end.

(** ** Headers *)

(** One line of the block: [Some None] is the jump to [error]. *)
Definition header_line (headers : list evkeyval) (line : list Z) : option (list evkeyval) :=
  if (at_ line 0 =? ch " ") || (at_ line 0 =? 9) then
    let '(r, headers) := evhttp_append_to_last_header headers line in
    if r =? -1 then None else Some headers
  else
    match strsep line (ch ":") with
    | (_, None) => None
    | (skey, Some svalue) =>
      let svalue := snd (span (Z.eqb (ch " ")) svalue) in
      let '(r, headers) := evhttp_add_header headers skey svalue in
      if r =? -1 then None else Some headers
    end.

(** The loop over the lines; every line takes at least a byte from the buffer. *)
Fixpoint parse_headers_loop (fuel : nat) (evcon : option evhttp_connection) (req : evhttp_request) (buffer : evbuffer)
  : option (message_read_status * evhttp_request * evbuffer) :=
  match fuel with
  | O => None
  | S fuel' =>
    '(line, line_length, buffer) ← evbuffer_readln buffer EVBUFFER_EOL_CRLF;
    match line with
    | None => Some (MORE_DATA_EXPECTED, req, buffer)
    | Some line =>
      let req := req <| headers_size := wrap size_bits (headers_size req + line_length) |> in
      if over_headers evcon (headers_size req) then Some (DATA_TOO_LONG, req, buffer) else
      let line := cstr line in
      match line with
      | [] => Some (ALL_DATA_READ, req, buffer)
      | _ =>
        match header_line (input_headers req) line with
        | None => Some (DATA_CORRUPTED, req, buffer)
        | Some headers => parse_headers_loop fuel' evcon (req <| input_headers := headers |>) buffer
        end
      end
    end
  end.

Definition evhttp_parse_headers (evcon : option evhttp_connection) (req : evhttp_request) (buffer : evbuffer)
  : option (message_read_status * evhttp_request * evbuffer) :=
  '(status, req, buffer) ← parse_headers_loop (S (Z.to_nat (total_len buffer))) evcon req buffer;
  match status with
  | MORE_DATA_EXPECTED =>
    if over_headers evcon (wrap size_bits (headers_size req + evbuffer_get_length buffer))
    then Some (DATA_TOO_LONG, req, buffer) else Some (status, req, buffer)
  | _ => Some (status, req, buffer)
  end.

(** ** Bodies *)

Definition evhttp_get_body_length (req : evhttp_request) : Z * evhttp_request :=
  match evhttp_find_header (input_headers req) (bytes_of "Content-Length"),
        evhttp_find_header (input_headers req) (bytes_of "Connection") with
  | None, None => (0, req <| ntoread := -1 |>)
  | None, Some connection =>
    if negb (evutil_ascii_strcasecmp connection (bytes_of "Close") =? 0) then (-1, req) else (0, req <| ntoread := -1 |>)
  | Some content_length, _ =>
    let '(n, endp) := strtol 64 10 content_length in
    if (at_ content_length 0 =? 0) || negb (at_ endp 0 =? 0) || (n <? 0) then (-1, req) else (0, req <| ntoread := n |>)
  end.

(** The size on the first line of a chunk; [None] is an error. *)
Definition chunk_size (p : list Z) : option Z :=
  let '(n, endp) := strtol 64 16 p in
  if (at_ p 0 =? 0) || (negb (at_ endp 0 =? 0) && negb (at_ endp 0 =? ch " ")) || (n <? 0) then None else Some n.

Context (chunk_cb : evhttp_request -> option evhttp_request).

Definition drain_all (b : evbuffer) : option evbuffer :=
  '(_, b) ← evbuffer_drain b (evbuffer_get_length b); Some b.

(** The loop of [evhttp_handle_chunked_read].  Every round but the last takes at
    least a byte from the buffer, or sets [ntoread] from 0 to -1. *)
Fixpoint chunked_loop (fuel : nat) (max_body : Z) (req : evhttp_request) (buf : evbuffer)
  : option (message_read_status * evhttp_request * evbuffer) :=
  match fuel with
  | O => None
  | S fuel' =>
    let buflen := evbuffer_get_length buf in
    if buflen =? 0 then Some (MORE_DATA_EXPECTED, req, buf) else
    if EV_SSIZE_MAX <? buflen then Some (DATA_CORRUPTED, req, buf) else
    if ntoread req <? 0 then
      '(p, _, buf) ← evbuffer_readln buf EVBUFFER_EOL_CRLF;
      match p with
      | None => Some (MORE_DATA_EXPECTED, req, buf)
      | Some p =>
        match cstr p with
        | [] => chunked_loop fuel' max_body req buf
        | p =>
          match chunk_size p with
          | None => Some (DATA_CORRUPTED, req, buf)
          | Some n =>
            if EV_SIZE_MAX - body_size req <? n then Some (DATA_CORRUPTED, req, buf) else
            if max_body <? wrap size_bits (body_size req + wrap size_bits n) then Some (DATA_TOO_LONG, req, buf) else
            let req := req <| body_size := wrap size_bits (body_size req + wrap size_bits n) |> <| ntoread := n |> in
            if ntoread req =? 0 then Some (ALL_DATA_READ, req, buf) else chunked_loop fuel' max_body req buf
          end
        end
      end
    else
      if EV_SSIZE_MAX <? ntoread req then Some (DATA_CORRUPTED, req, buf) else
      if (0 <? ntoread req) && (buflen <? ntoread req) then Some (MORE_DATA_EXPECTED, req, buf) else
      '(_, buf, inb) ← evbuffer_remove_buffer false buf (input_buffer req) (wrap size_bits (ntoread req));
      let req := req <| input_buffer := inb |> <| ntoread := -1 |> in
      if has_chunk_cb req then
        req ← chunk_cb (req <| req_flags := Z.lor (req_flags req) EVHTTP_REQ_DEFER_FREE |>);
        inb ← drain_all (input_buffer req);
        let req := req <| input_buffer := inb |> <| req_flags := Z.ldiff (req_flags req) EVHTTP_REQ_DEFER_FREE |> in
        if has_bit (req_flags req) EVHTTP_REQ_NEEDS_FREE then Some (REQUEST_CANCELED, req, buf)
        else chunked_loop fuel' max_body req buf
      else chunked_loop fuel' max_body req buf
  end.

(** The request and the buffer are there, so the check for NULL is left out. *)
Definition evhttp_handle_chunked_read (evcon : evhttp_connection) (req : evhttp_request) (buf : evbuffer)
  : option (message_read_status * evhttp_request * evbuffer) :=
  chunked_loop (2 + Z.to_nat (total_len buf)) (max_body_size evcon) req buf.

(** ** The state machine *)

(** Calls of the functions around it, in order. *)
Inductive call :=
| Connection_fail (error : evhttp_connection_error)
| Connection_done
| Connection_reset
| Enable_read
| Disable_read
| Disable_write
| Set_callbacks
| Schedule_read_more
| Cancel_read_more
| Send_continue
| Send_error (code : Z)
| Request_free.

(** The connection, the request, the input buffer and the calls made. *)
Definition outcome : Type := evhttp_connection * evhttp_request * evbuffer * list call.

Definition evhttp_start_read (evcon : evhttp_connection) (req : evhttp_request) (buf : evbuffer) : outcome :=
  (evcon <| state := EVCON_READING_FIRSTLINE |>, req, buf,
   [Disable_write; Enable_read; Set_callbacks] ++
   if evbuffer_get_length buf =? 0 then [] else [Schedule_read_more]).

Definition evhttp_read_trailer (evcon : evhttp_connection) (req : evhttp_request) (buf : evbuffer) : option outcome :=
  '(status, req, buf) ← evhttp_parse_headers (Some evcon) req buf;
  Some (evcon, req, buf,
    match status with
    | DATA_CORRUPTED | DATA_TOO_LONG => [Connection_fail EVCON_HTTP_INVALID_HEADER]
    | ALL_DATA_READ => [Disable_read; Connection_done]
    | _ => [Enable_read]
    end).

(** The end of [evhttp_read_body]: the limit, the callback, and whether the body
    is complete. *)
Definition read_body_end (evcon : evhttp_connection) (req : evhttp_request) (buf : evbuffer) : option outcome :=
  if (max_body_size evcon <? body_size req) ||
     (negb (chunked req) && (0 <=? ntoread req) && (max_body_size evcon <? wrap size_bits (ntoread req)))
  then Some (evcon, req, buf, [Connection_fail EVCON_HTTP_INVALID_HEADER]) else
  '(cancelled, req) ← (if (0 <? evbuffer_get_length (input_buffer req)) && has_chunk_cb req then
      req ← chunk_cb (req <| req_flags := Z.lor (req_flags req) EVHTTP_REQ_DEFER_FREE |>);
      let req := req <| req_flags := Z.ldiff (req_flags req) EVHTTP_REQ_DEFER_FREE |> in
      inb ← drain_all (input_buffer req);
      Some (has_bit (req_flags req) EVHTTP_REQ_NEEDS_FREE, req <| input_buffer := inb |>)
    else Some (false, req));
  if cancelled : bool then Some (evcon, req, buf, [Request_free]) else
  if ntoread req =? 0 then Some (evcon, req, buf, [Disable_read; Connection_done])
  else Some (evcon, req, buf, [Enable_read]).

Definition evhttp_read_body (evcon : evhttp_connection) (req : evhttp_request) (buf : evbuffer) : option outcome :=
  if chunked req then
    '(status, req, buf) ← evhttp_handle_chunked_read evcon req buf;
    match status with
    | ALL_DATA_READ => evhttp_read_trailer (evcon <| state := EVCON_READING_TRAILER |>) req buf
    | DATA_CORRUPTED | DATA_TOO_LONG => Some (evcon, req, buf, [Connection_fail EVCON_HTTP_INVALID_HEADER])
    | REQUEST_CANCELED => Some (evcon, req, buf, [Request_free])
    | MORE_DATA_EXPECTED => read_body_end evcon req buf
    end
  else if ntoread req <? 0 then
    let size := wrap size_bits (body_size req + evbuffer_get_length buf) in
    if size <? body_size req then Some (evcon, req, buf, [Connection_fail EVCON_HTTP_INVALID_HEADER]) else
    '(_, inb, buf) ← evbuffer_add_buffer false (input_buffer req) buf;
    read_body_end evcon (req <| body_size := size |> <| input_buffer := inb |>) buf
  else if has_chunk_cb req || (wrap size_bits (ntoread req) <=? evbuffer_get_length buf) then
    let n := Z.min (evbuffer_get_length buf) (wrap size_bits (ntoread req)) in
    '(_, buf, inb) ← evbuffer_remove_buffer false buf (input_buffer req) n;
    read_body_end evcon (req <| ntoread := swrap 64 (ntoread req - n) |>
      <| body_size := wrap size_bits (body_size req + n) |> <| input_buffer := inb |>) buf
  else read_body_end evcon req buf.

(** The calls [pre] come first. *)
Definition after (pre : list call) (o : option outcome) : option outcome :=
  '(evcon, req, buf, calls) ← o; Some (evcon, req, buf, pre ++ calls).

Definition expects_continue (req : evhttp_request) : option (list Z) :=
  match kind req with
  | EVHTTP_REQUEST =>
    if REQ_VERSION_ATLEAST req 1 1 then evhttp_find_header (input_headers req) (bytes_of "Expect") else None
  | EVHTTP_RESPONSE => None
  end.

Definition EV_INT64_MAX : Z := 2 ^ 63 - 1.

(** The answer to an [Expect] header, and the body. *)
Definition get_body_continue (evcon : evhttp_connection) (req : evhttp_request) (buf : evbuffer) : option outcome :=
  match expects_continue req with
  | None => evhttp_read_body evcon req buf
  | Some expect =>
    if evutil_ascii_strcasecmp expect (bytes_of "100-continue") =? 0 then
      if (0 <? ntoread req) && (max_body_size evcon <=? EV_INT64_MAX) && (max_body_size evcon <? ntoread req)
      then Some (evcon, req, buf, [Send_error HTTP_ENTITYTOOLARGE]) else
      after (if evbuffer_get_length buf =? 0 then [Send_continue] else []) (evhttp_read_body evcon req buf)
    else Some (evcon, req, buf, [Send_error HTTP_EXPECTATIONFAILED])
  end.

Definition is_request (req : evhttp_request) : bool := match kind req with EVHTTP_REQUEST => true | _ => false end.

Definition evhttp_get_body (evcon : evhttp_connection) (req : evhttp_request) (buf : evbuffer) : option outcome :=
  if is_request req && negb (evhttp_method_may_have_body (req_type req)) then Some (evcon, req, buf, [Connection_done]) else
  let evcon := evcon <| state := EVCON_READING_BODY |> in
  if match evhttp_find_header (input_headers req) (bytes_of "Transfer-Encoding") with
     | Some xfer_enc => evutil_ascii_strcasecmp xfer_enc (bytes_of "chunked") =? 0
     | None => false
     end
  then get_body_continue evcon (req <| chunked := true |> <| ntoread := -1 |>) buf
  else
    let '(r, req) := evhttp_get_body_length req in
    if r =? -1 then Some (evcon, req, buf, [Connection_fail EVCON_HTTP_INVALID_HEADER]) else
    if is_request req && (ntoread req <? 1) then Some (evcon, req, buf, [Connection_done])
    else get_body_continue evcon req buf.

Definition evhttp_read_header (evcon : evhttp_connection) (req : evhttp_request) (buf : evbuffer) : option outcome :=
  '(res, req, buf) ← evhttp_parse_headers (Some evcon) req buf;
  match res with
  | DATA_CORRUPTED | DATA_TOO_LONG => Some (evcon, req, buf, [Connection_fail EVCON_HTTP_INVALID_HEADER])
  | MORE_DATA_EXPECTED => Some (evcon, req, buf, [])
  | _ =>
    after [Disable_read]
      match kind req with
      | EVHTTP_REQUEST => evhttp_get_body evcon req buf
      | EVHTTP_RESPONSE =>
        if response_code req =? 100 then Some (evhttp_start_read evcon req buf)
        else if negb (evhttp_response_needs_body req) then Some (evcon, req, buf, [Connection_done])
        else evhttp_get_body evcon req buf
      end
  end.

Definition evhttp_read_firstline (evcon : evhttp_connection) (req : evhttp_request) (buf : evbuffer) : option outcome :=
  '(res, req, buf) ← evhttp_parse_firstline (Some evcon) req buf;
  match res with
  | DATA_CORRUPTED | DATA_TOO_LONG => Some (evcon, req, buf, [Connection_fail EVCON_HTTP_INVALID_HEADER])
  | MORE_DATA_EXPECTED => Some (evcon, req, buf, [])
  | _ => evhttp_read_header (evcon <| state := EVCON_READING_HEADERS |>) req buf
  end.

(** The program ends in the states that do not read. *)
Definition evhttp_read_cb (evcon : evhttp_connection) (req : evhttp_request) (buf : evbuffer) : option outcome :=
  after [Cancel_read_more]
    match state evcon with
    | EVCON_READING_FIRSTLINE => evhttp_read_firstline evcon req buf
    | EVCON_READING_HEADERS => evhttp_read_header evcon req buf
    | EVCON_READING_BODY => evhttp_read_body evcon req buf
    | EVCON_READING_TRAILER => evhttp_read_trailer evcon req buf
    | EVCON_IDLE => Some (evcon, req, buf, [Connection_reset])
    | EVCON_DISCONNECTED | EVCON_CONNECTING | EVCON_WRITING => None
    end.
End message.
