(* ===== verification/ChunkedSpec.v ===== *)
(** Chunked bodies: however the network cuts the stream, [evhttp_handle_chunked_read]
    puts the data of the chunks together and stops after the last one. *)

From S2P Require Import Prelude EvChain Evbuffer EvExpand EvIO EvSearch EvbufferSpec EvbufferProps EvSpace.
From S2P Require Import Cstring Uri HttpHeaders UriCoding HttpMessage HttpServer.

Section chunked.
Context {A : Arch} {M : Allocator}.

(** ** The stream *)

(** A chunk: the line with its size, and its data. *)
Record chunk := { size_line : list Z; data : list Z }.

Definition size_ok (line : list Z) (n : Z) : Prop := Forall line_char line /\ line <> [] /\ chunk_size line = Some n.

Definition chunk_ok (c : chunk) : Prop := size_ok (size_line c) (zlen (data c)) /\ data c <> [].

Definition datas (cs : list chunk) : list Z := concat (map data cs).

(** The chunks, the line of the last one, and whatever follows. *)
Definition stream (cs : list chunk) (last_line rest : list Z) : list Z :=
  concat (map (fun c => size_line c ++ crlf ++ data c ++ crlf) cs) ++ last_line ++ crlf ++ rest.

Lemma stream_cons c cs last_line rest :
  stream (c :: cs) last_line rest = size_line c ++ crlf ++ data c ++ crlf ++ stream cs last_line rest.
Proof. unfold stream. cbn [map concat]. by rewrite <- !app_assoc. Qed.

Lemma size_line_cstr line n : size_ok line n -> cstr line = line.
Proof. intros (Hl & _ & _). apply cstr_cstring. eapply Forall_impl; [|exact Hl]. by intros c [Hc _]. Qed.

(** ** Reading it *)

Section run.
Context (cb : evhttp_request -> option evhttp_request).
Context (last_line rest : list Z) (Hlast : size_ok last_line 0).
Context (k max_body total : Z) (Hm : mem_ok) (Hk : small k) (Hkm : k <= INT_MAX).
Context (Htot : total <= max_body) (Hts : total <= EV_SIZE_MAX).

(** The place in the stream, with the data before it in the input buffer:
    before a line, maybe the end of a chunk, or in front of the data of a chunk
    that is already counted. *)
Definition place (future target : list Z) (req : evhttp_request) (buf : evbuffer) : Prop :=
  (ntoread req = -1 /\ exists gap cs, (gap = [] \/ gap = crlf) /\ Forall chunk_ok cs /\
     contents buf ++ future = gap ++ stream cs last_line rest /\
     contents (input_buffer req) ++ datas cs = target /\ body_size req + zlen (datas cs) = total) \/
  exists d cs, ntoread req = zlen d /\ d <> [] /\ Forall chunk_ok cs /\
     contents buf ++ future = d ++ crlf ++ stream cs last_line rest /\
     contents (input_buffer req) ++ d ++ datas cs = target /\ body_size req + zlen (datas cs) = total.

(** What changes in the request. *)
Definition reads (req req' : evhttp_request) : Prop :=
  req' = req <| body_size := body_size req' |> <| ntoread := ntoread req' |> <| input_buffer := input_buffer req' |>.

Record reading (future target : list Z) (req0 req : evhttp_request) (buf : evbuffer) : Prop := {
  rd_buf : flowing buf;
  rd_in : packed (input_buffer req) /\ freeze_end (input_buffer req) = false;
  rd_cb : has_chunk_cb req = false;
  rd_size : 0 <= body_size req;
  rd_frame : reads req0 req;
  rd_len : zlen (contents buf ++ future) <= k;
  rd_place : place future target req buf }.

(** The end: all data is there, and what follows the last chunk is left. *)
Record finished (future target : list Z) (req0 req : evhttp_request) (buf : evbuffer) : Prop := {
  fin_buf : flowing buf;
  fin_frame : reads req0 req;
  fin_contents : contents (input_buffer req) = target;
  fin_size : body_size req = total;
  fin_ntoread : ntoread req = 0;
  fin_rest : contents buf ++ future = rest }.

Lemma reads_trans a b c : reads a b -> reads b c -> reads a c.
Proof. unfold reads. intros -> ->. by destruct a. Qed.

Lemma ssize_max : INT_MAX <= EV_SSIZE_MAX.
Proof. unfold EV_SSIZE_MAX, INT_MAX. destruct size_bits_cases as [-> | ->]; lia. Qed.

Lemma size_max : 0 <= EV_SIZE_MAX /\ forall n, 0 <= n <= EV_SIZE_MAX -> wrap size_bits n = n.
Proof.
  unfold EV_SIZE_MAX. split; [destruct size_bits_cases as [-> | ->]; lia|]. intros n Hn. apply wrap_small. unfold fits. lia.
Qed.

(** The line in front of the place, in the input. *)
Lemma stream_line cs : Forall chunk_ok cs -> exists line n tl,
  stream cs last_line rest = line ++ crlf ++ tl /\ size_ok line n /\
  match cs with
  | [] => n = 0 /\ tl = rest
  | c :: cs' => n = zlen (data c) /\ tl = data c ++ crlf ++ stream cs' last_line rest
  end.
Proof.
  intros [|c cs' [Hc _] _]; [by exists last_line, 0, rest|].
  eexists (size_line c), _, _. rewrite stream_cons. split; [done|]. by split.
Qed.

(** One round of the loop: it waits for data that is still to come, finishes, or
    goes on with less input. *)
Definition round (fuel : nat) (future target : list Z) (req0 req : evhttp_request) (buf : evbuffer) : Prop :=
  let r := chunked_loop cb (S fuel) max_body req buf in
  (r = Some (MORE_DATA_EXPECTED, req, buf) /\ future <> []) \/
  (exists req' buf', r = Some (ALL_DATA_READ, req', buf') /\ finished future target req0 req' buf') \/
  exists req' buf', r = chunked_loop cb fuel max_body req' buf' /\ reading future target req0 req' buf' /\
    zlen (contents buf') < zlen (contents buf).

(** The checks in front of every round. *)
Lemma round_enter future target req0 req buf :
  reading future target req0 req buf -> contents buf <> [] ->
  (evbuffer_get_length buf =? 0) = false /\ (EV_SSIZE_MAX <? evbuffer_get_length buf) = false /\
  zlen (contents buf) <= INT_MAX.
Proof.
  intros Hr Hne. rewrite flowing_len by apply Hr. pose proof (rd_len _ _ _ _ _ Hr) as Hl. rewrite zlen_app in Hl.
  pose proof (zlen_nonneg future). pose proof ssize_max. splits; [|lia|lia].
  apply Z.eqb_neq. by intros E%zlen_nil_iff.
Qed.

Lemma round_gap fuel future target req0 req buf cs :
  reading future target req0 req buf -> contents buf <> [] -> ntoread req = -1 -> Forall chunk_ok cs ->
  contents buf ++ future = crlf ++ stream cs last_line rest ->
  contents (input_buffer req) ++ datas cs = target -> body_size req + zlen (datas cs) = total ->
  round fuel future target req0 req buf.
Proof.
  intros Hr Hne Hn Hcs Hs Ht Hsz. destruct (round_enter _ _ _ _ _ Hr Hne) as (H0 & Hss & Hmax).
  unfold round. cbn [chunked_loop]. rewrite H0, Hss, Hn. cbn [Z.ltb Z.compare].
  destruct (flowing_readln buf future [] _ Hm (rd_buf _ _ _ _ _ Hr) Hmax (Forall_nil _) Hs)
    as [(b' & -> & Hf & Hc & Hlt)|[-> Hfut]]; cbn [mbind option_bind].
  - right. right. exists req, b'. split; [done|]. split; [|done]. destruct Hr as [? ? ? ? ? Hl ?]. split; try done.
    + rewrite Hc, Hs in *. rewrite zlen_app in Hl. change (zlen crlf) with 2 in Hl. lia.
    + left. split; [done|]. exists [], cs. splits; try done. by left.
  - by left.
Qed.

Lemma round_line fuel future target req0 req buf cs :
  reading future target req0 req buf -> contents buf <> [] -> ntoread req = -1 -> Forall chunk_ok cs ->
  contents buf ++ future = stream cs last_line rest ->
  contents (input_buffer req) ++ datas cs = target -> body_size req + zlen (datas cs) = total ->
  round fuel future target req0 req buf.
Proof.
  intros Hr Hne Hn Hcs Hs Ht Hsz. destruct (round_enter _ _ _ _ _ Hr Hne) as (H0 & Hss & Hmax).
  destruct (stream_line cs Hcs) as (line & n & tl & Hst & Hline & Hcase). rewrite Hst in Hs.
  assert (Hn0 : 0 <= n <= zlen (datas cs)).
  { destruct cs as [|c cs]; destruct Hcase as [-> _]; [pose proof (zlen_nonneg (datas [])); lia|].
    unfold datas. cbn [map concat]. rewrite zlen_app. pose proof (zlen_nonneg (data c)).
    pose proof (zlen_nonneg (concat (map data cs))). lia. }
  unfold round. cbn [chunked_loop]. rewrite H0, Hss, Hn. cbn [Z.ltb Z.compare].
  destruct (flowing_readln buf future line tl Hm (rd_buf _ _ _ _ _ Hr) Hmax (proj1 Hline) Hs)
    as [(b' & -> & Hf & Hc & Hlt)|[-> Hfut]]; cbn [mbind option_bind]; [|by left].
  rewrite (size_line_cstr _ _ Hline). destruct Hline as (_ & Hl0 & Hsize). destruct line as [|x line]; [done|]. rewrite Hsize.
  pose proof (rd_size _ _ _ _ _ Hr) as Hbs. destruct size_max as [Hsm Hwrap].
  rewrite (proj2 (Z.ltb_ge _ _)) by lia. rewrite !(Hwrap n) by lia. rewrite !(Hwrap (body_size req + n)) by lia.
  rewrite (proj2 (Z.ltb_ge max_body _)) by lia.
  set (req' := req <| body_size := body_size req + n |> <| ntoread := n |>).
  assert (Hfr : reads req0 req') by (eapply reads_trans; [apply (rd_frame _ _ _ _ _ Hr)|]; by destruct req).
  change (ntoread req') with n. destruct cs as [|c cs]; destruct Hcase as [-> ->].
  - right. left. exists req', b'. split; [done|]. change (datas []) with (@nil Z) in *. rewrite app_nil_r in Ht. rewrite zlen_nil in Hsz.
    by split; try done; cbn; lia.
  - apply Forall_cons_split in Hcs as [[_ Hd] Hcs]. unfold datas in Ht, Hsz. cbn [map concat] in Ht, Hsz. rewrite zlen_app in Hsz.
    rewrite (proj2 (Z.eqb_neq _ 0)) by (by intros ?%zlen_nil_iff). right. right. exists req', b'. split; [done|]. split; [|done].
    destruct Hr as [? ? ? ? ? Hlen ?]. split; try done.
    + cbn. pose proof (zlen_nonneg (data c)). lia.
    + rewrite zlen_app in *. lia.
    + right. exists (data c), cs. splits; try done. cbn. unfold datas. lia.
Qed.

Lemma round_data fuel future target req0 req buf d cs :
  reading future target req0 req buf -> contents buf <> [] -> ntoread req = zlen d -> d <> [] -> Forall chunk_ok cs ->
  contents buf ++ future = d ++ crlf ++ stream cs last_line rest ->
  contents (input_buffer req) ++ d ++ datas cs = target -> body_size req + zlen (datas cs) = total ->
  round fuel future target req0 req buf.
Proof.
  intros Hr Hne Hn Hd Hcs Hs Ht Hsz. destruct (round_enter _ _ _ _ _ Hr Hne) as (H0 & Hss & Hmax).
  pose proof (rd_len _ _ _ _ _ Hr) as Hlen. rewrite Hs, zlen_app in Hlen.
  pose proof (zlen_nonneg (crlf ++ stream cs last_line rest)). pose proof ssize_max.
  assert (0 < zlen d) by (pose proof (zlen_nonneg d); assert (zlen d <> 0) by (by intros ?%zlen_nil_iff); lia).
  unfold round. cbn [chunked_loop]. rewrite H0, Hss, Hn. rewrite (proj2 (Z.ltb_ge (zlen d) 0)) by lia.
  rewrite (proj2 (Z.ltb_ge EV_SSIZE_MAX (zlen d))) by lia. rewrite (proj2 (Z.ltb_lt 0 (zlen d))) by lia. cbn [andb].
  rewrite flowing_len by apply Hr. destruct (Z.ltb_spec (zlen (contents buf)) (zlen d)) as [Hshort|Hlong].
  { left. split; [done|]. intros ->. rewrite app_nil_r in Hs. rewrite Hs, zlen_app in Hshort. lia. }
  apply app_longer in Hs as (m & Hc & Hs); [|done].
  destruct (rd_in _ _ _ _ _ Hr) as [Hpi Hei].
  rewrite (wrap_small size_bits (zlen d)).
  2: { unfold EV_SSIZE_MAX in *. unfold fits. destruct size_bits_cases as [E|E]; rewrite E in *; lia. }
  destruct (flowing_move buf (input_buffer req) d m Hm (rd_buf _ _ _ _ _ Hr) Hpi Hei Hd) as (r & b' & inb & -> & Hf & Hc' & Hp' & He' & Hi');
    [apply (small_le _ k); [lia | done] | done |]. cbn [mbind option_bind].
  set (req' := req <| input_buffer := inb |> <| ntoread := -1 |>). change (has_chunk_cb req') with (has_chunk_cb req).
  rewrite (rd_cb _ _ _ _ _ Hr). right. right. exists req', b'. split; [done|]. split.
  - destruct Hr as [? ? ? ? Hfr ? ?]. split; try done.
    + eapply reads_trans; [exact Hfr|]. by destruct req.
    + rewrite Hc', Hs. lia.
    + left. split; [done|]. exists crlf, cs. splits; try done; [by right | by rewrite Hc' |]. cbn. by rewrite Hi', <- app_assoc.
  - rewrite Hc', Hc, zlen_app. lia.
Qed.

Lemma round_ok fuel future target req0 req buf :
  reading future target req0 req buf -> contents buf <> [] -> round fuel future target req0 req buf.
Proof.
  intros Hr Hne. destruct (rd_place _ _ _ _ _ Hr) as [(Hn & gap & cs & [-> | ->] & Hcs & Hs & Ht & Hsz)|(d & cs & Hn & Hd & Hcs & Hs & Ht & Hsz)].
  - by apply (round_line _ _ _ _ _ _ cs).
  - by apply (round_gap _ _ _ _ _ _ cs).
  - by apply (round_data _ _ _ _ _ _ d cs).
Qed.

(** Without input there is more to come. *)
Lemma reading_future future target req0 req buf : reading future target req0 req buf -> contents buf = [] -> future <> [].
Proof.
  intros Hr Hc ->. destruct Hlast as (_ & Hl & _). assert (Hst : forall gap cs, [] <> gap ++ stream cs last_line rest).
  { intros gap cs E. apply (f_equal length) in E. unfold stream in E. rewrite !length_app in E. destruct last_line; [done|]. cbn in E. lia. }
  destruct (rd_place _ _ _ _ _ Hr) as [(_ & gap & cs & _ & _ & Hs & _)|(d & cs & _ & Hd & _ & Hs & _)]; rewrite Hc in Hs; [by eapply Hst|].
  by destruct d.
Qed.

(** The whole loop. *)
Definition handled (future target : list Z) (req0 : evhttp_request)
    (o : option (message_read_status * evhttp_request * evbuffer)) : Prop :=
  (exists req buf, o = Some (MORE_DATA_EXPECTED, req, buf) /\ reading future target req0 req buf /\ future <> []) \/
  exists req buf, o = Some (ALL_DATA_READ, req, buf) /\ finished future target req0 req buf.

Lemma chunked_loop_ok future target req0 fuel : forall req buf,
  reading future target req0 req buf -> zlen (contents buf) < Z.of_nat fuel ->
  handled future target req0 (chunked_loop cb fuel max_body req buf).
Proof.
  induction fuel as [|fuel IH]; intros req buf Hr Hf; [pose proof (zlen_nonneg (contents buf)); lia|].
  destruct (decide (contents buf = [])) as [Hc|Hne].
  { left. exists req, buf. split; [|split; [done | by eapply reading_future]]. cbn [chunked_loop].
    by rewrite (flowing_len buf (rd_buf _ _ _ _ _ Hr)), Hc. }
  destruct (round_ok fuel _ _ _ _ _ Hr Hne) as [[-> Hfut]|[(req' & b' & -> & Hfin)|(req' & b' & -> & Hr' & Hlt)]].
  - left. by exists req, buf.
  - right. by exists req', b'.
  - apply IH; [done | lia].
Qed.

(** ** The stream in pieces *)

(** What a connection does with the pieces of a body as they arrive: add each to
    its input buffer and read. *)
Fixpoint feed (evcon : evhttp_connection) (req : evhttp_request) (buf : evbuffer) (pieces : list (list Z))
  : option (message_read_status * evhttp_request * evbuffer * list (list Z)) :=
  match pieces with
  | [] => Some (MORE_DATA_EXPECTED, req, buf, [])
  | d :: pieces' =>
    '(_, buf) ← evbuffer_add buf d;
    '(status, req, buf) ← evhttp_handle_chunked_read cb evcon req buf;
    match status with
    | MORE_DATA_EXPECTED => feed evcon req buf pieces'
    | _ => Some (status, req, buf, pieces')
    end
  end.

Lemma feed_ok evcon target req0 pieces : forall req buf,
  max_body_size evcon = max_body -> Forall (fun d => d <> []) pieces -> reading (concat pieces) target req0 req buf ->
  pieces <> [] ->
  exists req' buf' pieces', feed evcon req buf pieces = Some (ALL_DATA_READ, req', buf', pieces') /\
    finished (concat pieces') target req0 req' buf'.
Proof.
  induction pieces as [|d pieces IH]; intros req buf Hmax Hne Hr Hps; [done|].
  apply Forall_cons_split in Hne as [Hd Hne]. cbn [feed]. cbn [concat] in Hr. destruct Hr as [Hb Hi Hc Hs Hfr Hl Hp].
  rewrite !zlen_app in Hl. pose proof (zlen_nonneg (contents buf)). pose proof (zlen_nonneg (concat pieces)).
  destruct (flowing_add buf d Hm Hb) as (b1 & -> & Hb1 & Hc1); [apply (small_le _ k); [lia | done] | done |].
  cbn [mbind option_bind].
  assert (Hr1 : reading (concat pieces) target req0 req b1).
  { assert (Happ : contents b1 ++ concat pieces = contents buf ++ d ++ concat pieces) by (by rewrite Hc1, <- app_assoc).
    split; try done; [by rewrite Happ, !zlen_app|]. unfold place in *. by rewrite Happ. }
  unfold evhttp_handle_chunked_read. rewrite Hmax.
  destruct (chunked_loop_ok _ _ _ (2 + Z.to_nat (total_len b1)) req b1 Hr1) as [(req2 & b2 & -> & Hr2 & Hfut)|(req2 & b2 & -> & Hfin)].
  { rewrite (pk_total _ (fl_packed _ Hb1)). pose proof (zlen_nonneg (contents b1)). lia. }
  - cbn [mbind option_bind]. apply IH; try done. by intros ->.
  - cbn [mbind option_bind]. by exists req2, b2, pieces.
Qed.
End run.

(** C10: Chunked bodies: a stream of chunks, each a line with its size and that
    many bytes, ended by a chunk of size 0, is read completely however it is cut
    into pieces: [evhttp_handle_chunked_read] after each piece ends with
    [ALL_DATA_READ], the data of all chunks joined in the input buffer, their
    size counted, everything after the last size line left unread, and nothing
    else in the request changed. *)
Theorem chunked_body_read cb evcon req buf cs last_line rest pieces :
  mem_ok -> Forall chunk_ok cs -> size_ok last_line 0 -> concat pieces = stream cs last_line rest ->
  flowing buf -> contents buf = [] -> packed (input_buffer req) -> freeze_end (input_buffer req) = false ->
  ntoread req = -1 -> has_chunk_cb req = false ->
  0 <= body_size req -> body_size req + zlen (datas cs) <= Z.min (max_body_size evcon) EV_SIZE_MAX ->
  Forall (fun d => d <> []) pieces -> small (zlen (concat pieces)) -> zlen (concat pieces) <= INT_MAX ->
  exists req' buf' left, feed cb evcon req buf pieces = Some (ALL_DATA_READ, req', buf', left) /\
    contents (input_buffer req') = contents (input_buffer req) ++ datas cs /\
    body_size req' = body_size req + zlen (datas cs) /\ ntoread req' = 0 /\
    contents buf' ++ concat left = rest /\ reads req req'.
Proof.
  intros Hm Hcs Hl Hst Hb Hbe Hip Hie Hn Hcb H0 Hlim Hne Hs Hmax.
  assert (Hps : pieces <> []).
  { intros ->. destruct Hl as (_ & Hl & _). apply (f_equal length) in Hst. unfold stream in Hst. rewrite !length_app in Hst.
    destruct last_line; [done|]. cbn in Hst. lia. }
  destruct (feed_ok cb last_line rest Hl (zlen (concat pieces)) (max_body_size evcon) (body_size req + zlen (datas cs)) Hm Hs Hmax
    ltac:(lia) ltac:(lia) evcon (contents (input_buffer req) ++ datas cs) req pieces req buf eq_refl Hne) as (req' & buf' & left & Hr & Hf).
  - split; try done; [by destruct req | by rewrite Hbe|]. left. split; [done|]. exists [], cs. rewrite Hbe, Hst. splits; try done. by left.
  - done.
  - exists req', buf', left. destruct Hf as [_ Hfr Hc Hsz Hnt Hrest]. by splits.
Qed.
End chunked.

(** ** A witness *)

#[local] Existing Instance win64.
#[local] Existing Instance zero_allocator.

Definition sample_request : evhttp_request :=
  {| kind := EVHTTP_RESPONSE; req_type := EVHTTP_REQ_GET; req_flags := 0; input_headers := []; output_headers := [];
     headers_size := 0; body_size := 0; req_uri := None; uri_elems := None; major := 1; minor := 1;
     response_code := 200; response_code_line := Some []; input_buffer := evbuffer_new; ntoread := -1;
     chunked := true; userdone := false; output_buffer := evbuffer_new; has_chunk_cb := false; host_cache := None |}.

Definition sample_connection : evhttp_connection :=
  {| max_headers_size := EV_SIZE_MAX; max_body_size := EV_SIZE_MAX; state := EVCON_READING_BODY; http_server := None |}.

Definition sample_chunks : list chunk :=
  [{| size_line := bytes_of "4"; data := bytes_of "Wiki" |}; {| size_line := bytes_of "0A x"; data := bytes_of "pedia" ++ crlf ++ bytes_of "in " |}].

(** The stream, cut inside a size line, an end of line and the data. *)
Definition sample_pieces : list (list Z) :=
  [bytes_of "4" ++ [CR]; [LF] ++ bytes_of "Wi"; bytes_of "ki" ++ crlf ++ bytes_of "0"; bytes_of "A x" ++ crlf ++ bytes_of "pedia" ++ [CR];
   [LF] ++ bytes_of "in " ++ crlf ++ bytes_of "0" ++ crlf ++ [CR]; [LF]].

Lemma chunked_body_read_witness :
  exists req buf left, feed (fun req => Some req) sample_connection sample_request evbuffer_new sample_pieces =
      Some (ALL_DATA_READ, req, buf, left) /\
    contents (input_buffer req) = bytes_of "Wikipedia" ++ crlf ++ bytes_of "in " /\ body_size req = 14 /\
    contents buf ++ concat left = crlf.
Proof.
  assert (Hline : forall l n, forallb (fun c => (0 <? c) && (c <? 256) && negb (c =? CR) && negb (c =? LF)) l = true ->
    l <> [] -> chunk_size l = Some n -> size_ok l n).
  { intros l n Hl Hne Hs. split; [|by split]. apply Forall_forall. intros c Hc. rewrite forallb_forall in Hl.
    specialize (Hl c Hc). unfold line_char, is_char. bool_to_prop. lia. }
  destruct (chunked_body_read (fun req => Some req) sample_connection sample_request evbuffer_new sample_chunks (bytes_of "0") crlf sample_pieces)
    as (req & buf & left & Hr & Hc & Hs & _ & Hrest & _); try (vm_compute; reflexivity).
  - exact zero_mem_ok.
  - constructor; [|constructor; [|constructor]]; (split; [apply Hline; vm_compute; try reflexivity; discriminate | discriminate]).
  - apply Hline; vm_compute; try reflexivity; discriminate.
  - split; [apply packed_new | constructor | reflexivity | reflexivity].
  - apply packed_new.
  - vm_compute. discriminate.
  - vm_compute. discriminate.
  - repeat (constructor; [discriminate|]). constructor.
  - apply small_win64. vm_compute. discriminate.
  - vm_compute. discriminate.
  - exists req, buf, left. split; [exact Hr|]. split; [exact Hc|]. split; [exact Hs | exact Hrest].
Defined.
