(* ===== verification/HttpReply.v ===== *)
(** Messages that are written ([http.c]): status lines and phrases, the headers of
    requests and replies, whole replies and chunks of them, and what a server does
    with a request it has read.

    The output buffer of the connection is an argument.  Results of adding to it
    are ignored, as in the code.  The date is what [strftime] gave. *)

From S2P Require Import Prelude EvChain Evbuffer EvIO Cstring Uri HttpHeaders UriCoding HttpServer HttpMessage.

(** ** Phrases *)

Definition informational_phrases : list (list Z) :=
  [bytes_of "Continue"; bytes_of "Switching Protocols"].

Definition success_phrases : list (list Z) :=
  [bytes_of "OK"; bytes_of "Created"; bytes_of "Accepted"; bytes_of "Non-Authoritative Information";
   bytes_of "No Content"; bytes_of "Reset Content"; bytes_of "Partial Content"].

Definition redirection_phrases : list (list Z) :=
  [bytes_of "Multiple Choices"; bytes_of "Moved Permanently"; bytes_of "Found"; bytes_of "See Other";
   bytes_of "Not Modified"; bytes_of "Use Proxy"; bytes_of "Temporary Redirect"].

Definition client_error_phrases : list (list Z) :=
  [bytes_of "Bad Request"; bytes_of "Unauthorized"; bytes_of "Payment Required"; bytes_of "Forbidden";
   bytes_of "Not Found"; bytes_of "Method Not Allowed"; bytes_of "Not Acceptable";
   bytes_of "Proxy Authentication Required"; bytes_of "Request Time-out"; bytes_of "Conflict"; bytes_of "Gone";
   bytes_of "Length Required"; bytes_of "Precondition Failed"; bytes_of "Request Entity Too Large";
   bytes_of "Request-URI Too Large"; bytes_of "Unsupported Media Type"; bytes_of "Requested range not satisfiable";
   bytes_of "Expectation Failed"].

Definition server_error_phrases : list (list Z) :=
  [bytes_of "Internal Server Error"; bytes_of "Not Implemented"; bytes_of "Bad Gateway";
   bytes_of "Service Unavailable"; bytes_of "Gateway Time-out"; bytes_of "HTTP Version not supported"].

Record response_class := { name : list Z; responses : list (list Z) }.

Definition response_classes : list response_class :=
  [{| name := bytes_of "Informational"; responses := informational_phrases |};
   {| name := bytes_of "Success"; responses := success_phrases |};
   {| name := bytes_of "Redirection"; responses := redirection_phrases |};
   {| name := bytes_of "Client Error"; responses := client_error_phrases |};
   {| name := bytes_of "Server Error"; responses := server_error_phrases |}].

(** The divisions of C round towards zero; a negative class is unknown. *)
Definition evhttp_response_phrase_internal (code : Z) : option (list Z) :=
  let klass := Z.quot code 100 - 1 in
  let subcode := Z.rem code 100 in
  if (klass <? 0) || (Z.of_nat (length response_classes) <=? klass) then Some (bytes_of "Unknown Status Class") else
  c ← response_classes !! Z.to_nat klass;
  if Z.of_nat (length (responses c)) <=? subcode then Some (name c) else
  if subcode <? 0 then None else responses c !! Z.to_nat subcode.

Section reply.
Context {A : Arch} {M : Allocator}.

Definition evhttp_response_code (req : evhttp_request) (code : Z) (reason : option (list Z)) : option evhttp_request :=
  reason ← match reason with Some r => Some r | None => evhttp_response_phrase_internal code end;
  Some (req <| kind := EVHTTP_RESPONSE |> <| response_code := code |> <| response_code_line := mm_strdup reason |>).

(** ** Headers *)

(** The functions that add a header ignore whether that worked. *)
Definition added (headers : list evkeyval) (k v : list Z) : list evkeyval := snd (evhttp_add_header headers k v).
Definition removed (headers : list evkeyval) (k : list Z) : list evkeyval := snd (evhttp_remove_header headers k).
Definition has_header (headers : list evkeyval) (k : list Z) : bool := bool_decide (evhttp_find_header headers k <> None).

Definition version_text (req : evhttp_request) : list Z :=
  bytes_of "HTTP/" ++ print_d (major req) ++ [ch "."] ++ print_d (minor req).

Definition eol : list Z := [13; 10].

Definition evhttp_make_header_request (req : evhttp_request) (output : evbuffer) : option (evhttp_request * evbuffer) :=
  let headers := removed (output_headers req) (bytes_of "Proxy-Connection") in
  method ← evhttp_method (req_type req);
  uri ← req_uri req;
  output ← put_printf output (method ++ [ch " "] ++ uri ++ [ch " "] ++ version_text req ++ eol);
  let headers :=
    if ((req_type req =? EVHTTP_REQ_POST) || (req_type req =? EVHTTP_REQ_PUT)) &&
       negb (has_header headers (bytes_of "Content-Length"))
    then added headers (bytes_of "Content-Length") (print_num 10 (evbuffer_get_length (output_buffer req))) else headers in
  Some (req <| output_headers := headers |>, output).

Definition evhttp_maybe_add_date_header (headers : list evkeyval) (date : option (list Z)) : list evkeyval :=
  if has_header headers (bytes_of "Date") then headers else
  match date with Some d => added headers (bytes_of "Date") d | None => headers end.

Definition evhttp_maybe_add_content_length_header (headers : list evkeyval) (content_length : Z) : list evkeyval :=
  if negb (has_header headers (bytes_of "Transfer-Encoding")) && negb (has_header headers (bytes_of "Content-Length"))
  then added headers (bytes_of "Content-Length") (print_num 10 content_length) else headers.

(** The headers of a reply, in the order in which they are added. *)
Definition version1_headers (req : evhttp_request) (date : option (list Z)) (headers : list evkeyval) : list evkeyval :=
  let is_keepalive := evhttp_is_connection_keepalive (input_headers req) in
  if major req =? 1 then
    let headers := if 1 <=? minor req then evhttp_maybe_add_date_header headers date else headers in
    let headers := if (minor req =? 0) && is_keepalive
                   then added headers (bytes_of "Connection") (bytes_of "keep-alive") else headers in
    if ((1 <=? minor req) || is_keepalive) && evhttp_response_needs_body req
    then evhttp_maybe_add_content_length_header headers (evbuffer_get_length (output_buffer req)) else headers
  else headers.

Definition content_type_header (req : evhttp_request) (headers : list evkeyval) : list evkeyval :=
  if evhttp_response_needs_body req && negb (has_header headers (bytes_of "Content-Type"))
  then added headers (bytes_of "Content-Type") (bytes_of "text/html; charset=ISO-8859-1") else headers.

Definition close_headers (req : evhttp_request) (headers : list evkeyval) : list evkeyval :=
  if evhttp_is_connection_close (req_flags req) (input_headers req) then
    let headers := removed headers (bytes_of "Connection") in
    let headers := if has_bit (req_flags req) EVHTTP_PROXY_REQUEST then headers
                   else added headers (bytes_of "Connection") (bytes_of "close") in
    removed headers (bytes_of "Proxy-Connection")
  else headers.

Definition evhttp_make_header_response (date : option (list Z)) (req : evhttp_request) (output : evbuffer)
  : option (evhttp_request * evbuffer) :=
  line ← response_code_line req;
  output ← put_printf output (version_text req ++ [ch " "] ++ print_d (response_code req) ++ [ch " "] ++ line ++ eol);
  Some (req <| output_headers := close_headers req (content_type_header req (version1_headers req date (output_headers req))) |>,
        output).

Definition put_header (output : evbuffer) (h : evkeyval) : option evbuffer :=
  put_printf output (key h ++ bytes_of ": " ++ value h ++ eol).

Fixpoint put_headers (output : evbuffer) (headers : list evkeyval) : option evbuffer :=
  match headers with
  | [] => Some output
  | h :: headers' => output ← put_header output h; put_headers output headers'
  end.

Definition evhttp_make_header (date : option (list Z)) (req : evhttp_request) (output : evbuffer)
  : option (evhttp_request * evbuffer) :=
  '(req, output) ← match kind req with
                   | EVHTTP_REQUEST => evhttp_make_header_request req output
                   | EVHTTP_RESPONSE => evhttp_make_header_response date req output
                   end;
  output ← put_headers output (output_headers req);
  output ← put output eol;
  if 0 <? evbuffer_get_length (output_buffer req) then
    '(_, output, outb) ← evbuffer_add_buffer false output (output_buffer req);
    Some (req <| output_buffer := outb |>, output)
  else Some (req, output).

(** ** Replies *)

(** The calls behind a reply: the output is written, with [evhttp_send_done]
    afterwards or nothing; the request or the connection is freed. *)
Inductive reply_call :=
| Write_buffer (send_done : bool)
| Send_done
| Set_send_done
| Free_request
| Free_connection.

(** The request, the output, the buffer with the data, and the calls. *)
Definition reply : Type := evhttp_request * evbuffer * option evbuffer * list reply_call.

(** [evhttp_send]; a request whose connection is gone is freed.  The request is
    the first one of its connection. *)
Definition evhttp_send (connected : bool) (date : option (list Z)) (req : evhttp_request) (output : evbuffer)
    (databuf : option evbuffer) : option reply :=
  if negb connected then Some (req, output, databuf, [Free_request]) else
  let req := req <| userdone := true |> in
  '(outb, databuf) ← match databuf with
                     | Some d => '(_, outb, d) ← evbuffer_add_buffer false (output_buffer req) d; Some (outb, Some d)
                     | None => Some (output_buffer req, None)
                     end;
  '(req, output) ← evhttp_make_header date (req <| output_buffer := outb |>) output;
  Some (req, output, databuf, [Write_buffer true]).

Definition evhttp_send_reply (connected : bool) (date : option (list Z)) (req : evhttp_request) (code : Z)
    (reason : option (list Z)) (output : evbuffer) (databuf : option evbuffer) : option reply :=
  req ← evhttp_response_code req code reason; evhttp_send connected date req output databuf.

Definition evhttp_send_page (connected : bool) (date : option (list Z)) (req : evhttp_request) (output : evbuffer)
    (databuf : option evbuffer) : option reply :=
  let req := if (major req =? 0) || (minor req =? 0) then req <| major := 1 |> <| minor := 1 |> else req in
  req ← match kind req with
        | EVHTTP_RESPONSE => Some req
        | EVHTTP_REQUEST => evhttp_response_code req 200 (Some (bytes_of "OK"))
        end;
  let headers := added (evhttp_clear_headers (output_headers req)) (bytes_of "Content-Type") (bytes_of "text/html") in
  let headers := added headers (bytes_of "Connection") (bytes_of "close") in
  evhttp_send connected date (req <| output_headers := headers |>) output databuf.

Definition error_page (error : Z) (reason : list Z) : list Z :=
  bytes_of "<HTML><HEAD>" ++ [10] ++ bytes_of "<TITLE>" ++ print_d error ++ [ch " "] ++ reason ++ bytes_of "</TITLE>" ++ [10] ++
  bytes_of "</HEAD><BODY>" ++ [10] ++ bytes_of "<H1>" ++ reason ++ bytes_of "</H1>" ++ [10] ++ bytes_of "</BODY></HTML>" ++ [10].

(** A new buffer has [sizeof_evbuffer] bytes. *)
Definition evhttp_send_error (sizeof_evbuffer : Z) (connected : bool) (date : option (list Z)) (req : evhttp_request) (error : Z)
    (reason : option (list Z)) (output : evbuffer) : option reply :=
  match mm_malloc sizeof_evbuffer with
  | None => Some (req, output, None, [Free_connection])
  | Some _ =>
    reason ← match reason with Some r => Some r | None => evhttp_response_phrase_internal error end;
    req ← evhttp_response_code req error (Some reason);
    buf ← put_printf evbuffer_new (error_page error reason);
    evhttp_send_page connected date req output (Some buf)
  end.

(** These need the connection. *)
Definition evhttp_send_reply_start (date : option (list Z)) (req : evhttp_request) (code : Z) (reason : option (list Z))
    (output : evbuffer) : option (evhttp_request * evbuffer * list reply_call) :=
  req ← evhttp_response_code req code reason;
  let req :=
    if negb (has_header (output_headers req) (bytes_of "Content-Length")) && REQ_VERSION_ATLEAST req 1 1 &&
       evhttp_response_needs_body req
    then req <| output_headers := added (output_headers req) (bytes_of "Transfer-Encoding") (bytes_of "chunked") |>
             <| chunked := true |>
    else req <| chunked := false |> in
  '(req, output) ← evhttp_make_header date req output;
  Some (req, output, [Write_buffer false]).

Definition evhttp_send_reply_chunk (connected : bool) (req : evhttp_request) (output databuf : evbuffer)
  : option (evhttp_request * evbuffer * evbuffer * list reply_call) :=
  if negb connected then Some (req, output, databuf, []) else
  if evbuffer_get_length databuf =? 0 then Some (req, output, databuf, []) else
  if negb (evhttp_response_needs_body req) then Some (req, output, databuf, []) else
  output ← (if chunked req then put_printf output (print_num 16 (wrap 32 (evbuffer_get_length databuf)) ++ eol) else Some output);
  '(_, output, databuf) ← evbuffer_add_buffer false output databuf;
  output ← (if chunked req then put output eol else Some output);
  Some (req, output, databuf, [Write_buffer false]).

Definition evhttp_send_reply_end (connected : bool) (req : evhttp_request) (output : evbuffer)
  : option (evhttp_request * evbuffer * list reply_call) :=
  if negb connected then Some (req, output, [Free_request]) else
  let req := req <| userdone := true |> in
  if chunked req then
    output ← put output (bytes_of "0" ++ eol ++ eol);
    Some (req <| chunked := false |>, output, [Write_buffer true])
  else if evbuffer_get_length output =? 0 then Some (req, output, [Send_done])
  else Some (req, output, [Set_send_done]).

(** Whether the connection closes after [evhttp_send_done]. *)
Definition need_close (req : evhttp_request) : bool :=
  REQ_VERSION_BEFORE req 1 1 && negb (evhttp_is_connection_keepalive (input_headers req)) ||
  evhttp_is_connection_close (req_flags req) (input_headers req) ||
  evhttp_is_connection_close (req_flags req) (output_headers req).

(** ** Requests at the server *)

(** The host asked for, and the request with the host kept in it: from the URI,
    or from the header without its port. *)
Definition evhttp_request_get_host (req : evhttp_request) : option (list Z) * evhttp_request :=
  match host_cache req with
  | Some h => (Some h, req)
  | None =>
    match (match uri_elems req with Some u => evhttp_uri_get_host u | None => None end) with
    | Some h => (Some h, req)
    | None =>
      match evhttp_find_header (input_headers req) (bytes_of "Host") with
      | None => (None, req)
      | Some h =>
        let '(digits, before) := span EVUTIL_ISDIGIT (rev h) in
        match before with
        | c :: (_ :: _) as l =>
          if c =? ch ":" then
            match mm_malloc (zlen h - zlen digits) with
            | None => (None, req)
            | Some _ => (Some (rev (tail l)), req <| host_cache := Some (rev (tail l)) |>)
            end
          else (Some h, req)
        | _ => (Some h, req)
        end
      end
    end
  end.

(** The page for an unknown URL. *)
Definition not_found_page (escaped_html : list Z) : list Z :=
  bytes_of "<html><head><title>404 Not Found</title></head><body><h1>Not Found</h1><p>The requested URL " ++ escaped_html ++
  bytes_of " was not found on this server.</p></body></html>" ++ [10].

Definition send_not_found (sizeof_evbuffer : Z) (connected : bool) (date : option (list Z)) (req : evhttp_request) (uri : list Z)
    (output : evbuffer) : option reply :=
  escaped ← evhttp_htmlescape (Some uri);
  match escaped with
  | None => Some (req, output, None, [Free_connection])
  | Some escaped_html =>
    match mm_malloc sizeof_evbuffer with
    | None => Some (req, output, None, [Free_connection])
    | Some _ =>
      req ← evhttp_response_code req 404 (Some (bytes_of "Not Found"));
      buf ← put_printf evbuffer_new (not_found_page (cstr escaped_html));
      evhttp_send_page connected date req output (Some buf)
    end
  end.

(** What becomes of a request: a callback of the application is called, or a
    reply is sent. *)
Inductive handled_by :=
| Callback (f : nat)
| Replied (output : evbuffer) (calls : list reply_call).

Definition replied (o : option reply) : option (evhttp_request * handled_by) :=
  '(req, output, _, calls) ← o; Some (req, Replied output calls).

Definition evhttp_handle_request (sizeof_evbuffer : Z) (connected : bool) (date : option (list Z)) (http : evhttp)
    (req : evhttp_request) (output : evbuffer) : option (evhttp_request * handled_by) :=
  let req := req <| userdone := false |> in
  let fail code := replied (evhttp_send_error sizeof_evbuffer connected date req code None output) in
  match req_uri req with
  | None => fail 400
  | Some uri =>
    if req_type req =? 0 then fail 400 else
    if Z.land (allowed_methods http) (req_type req) =? 0 then fail 501 else
    let '(hostname, req) := evhttp_request_get_host req in
    http ← match hostname with
           | Some h => '(_, http) ← evhttp_find_vhost http h; Some http
           | None => Some http
           end;
    elems ← uri_elems req;
    c ← evhttp_dispatch_callback (http_callbacks http) elems;
    match c with
    | Some c => Some (req, Callback (cb c))
    | None =>
      match gencb http with
      | Some f => Some (req, Callback f)
      | None => replied (send_not_found sizeof_evbuffer connected date req uri output)
      end
    end
  end.
End reply.
