(* ===== verification/HttpReplyProps.v ===== *)
(** Written replies are read back: the status line, the headers and the body that
    [evhttp_make_header] writes are what the parser of the other side finds. *)

From S2P Require Import Prelude EvChain Evbuffer EvExpand EvIO EvSearch EvbufferSpec EvbufferProps EvSpace Textbuf.
From S2P Require Import Cstring Uri UriSpec UriProps HttpHeaders UriCoding HttpMessage HttpServer HttpReply.

(** ** Clean headers *)

(** A name that the parser takes for a name, and a value without line ends that
    does not start with a space. *)
Record clean_header (h : evkeyval) : Prop := {
  ch_name : key h <> [];
  ch_key : Forall line_char (key h);
  ch_colon : ch ":" ∉ key h;
  ch_first : at_ (key h) 0 <> ch " " /\ at_ (key h) 0 <> 9;
  ch_value : Forall line_char (value h);
  ch_start : at_ (value h) 0 <> ch " " }.

Definition header_text (h : evkeyval) : list Z := key h ++ bytes_of ": " ++ value h ++ eol.
Definition headers_text (hs : list evkeyval) : list Z := concat (map header_text hs).

Lemma line_char_text l : forallb (fun c => (0 <? c) && (c <? 256) && negb (c =? CR) && negb (c =? LF)) l = true -> Forall line_char l.
Proof.
  intros Hl. apply Forall_forall. intros c Hc. rewrite forallb_forall in Hl. specialize (Hl c Hc).
  unfold line_char, is_char. bool_to_prop. lia.
Qed.

Lemma digits_line base ds : Forall (fun c => is_digit_of base c = true) ds -> Forall line_char ds.
Proof.
  intros H. eapply Forall_impl; [|exact H]. cbn. intros c Hc%digit_is_char. unfold line_char, is_char, CR, LF. lia.
Qed.

Lemma line_cstring l : Forall line_char l -> cstring l.
Proof. intros H. eapply Forall_impl; [|exact H]. by intros c [Hc _]. Qed.

Lemma line_no_crlf l : Forall line_char l -> strchr l 13 = None /\ strchr l 10 = None.
Proof.
  intros H. rewrite Forall_forall in H. split; apply strchr_None; intros Hin%list_elem_of_In; by apply H in Hin as (_ & ? & ?).
Qed.

Lemma line_valid_value l : Forall line_char l -> evhttp_header_is_valid_value l = true.
Proof.
  intros H. unfold evhttp_header_is_valid_value. cbn [valid_value_loop].
  rewrite <- (app_nil_r l), span_app; [done | | by left]. eapply Forall_impl; [|exact H]. cbn. intros c (_ & Hcr & Hlf).
  unfold is_crlf. rewrite (proj2 (Z.eqb_neq c 13)) by done. by rewrite (proj2 (Z.eqb_neq c 10)) by done.
Qed.

Section reply.
Context {A : Arch} {M : Allocator}.

(** A clean header is always added. *)
Lemma add_header_ok hs h : mem_ok -> clean_header h -> evhttp_add_header hs (key h) (value h) = (0, hs ++ [h]).
Proof.
  intros Hm Hh. destruct (line_no_crlf _ (ch_key _ Hh)) as [H13 H10]. unfold evhttp_add_header.
  rewrite H13, H10. cbn [negb orb bool_decide]. rewrite !bool_decide_eq_false_2 by naive_solver. cbn [orb].
  rewrite line_valid_value by apply Hh. unfold evhttp_add_header_internal. rewrite !strdup_ok by done.
  specialize (Hm sizeof_evkeyval). destruct (mm_malloc _); [|done]. by destruct h.
Qed.

(** The line of a clean header gives the header back. *)
Lemma header_line_ok hs h : mem_ok -> clean_header h ->
  header_line hs (key h ++ bytes_of ": " ++ value h) = Some (hs ++ [h]).
Proof.
  intros Hm Hh. unfold header_line. destruct (ch_first _ Hh) as [H1 H2].
  assert (Hat : at_ (key h ++ bytes_of ": " ++ value h) 0 = at_ (key h) 0).
  { pose proof (ch_name _ Hh). by destruct (key h). }
  rewrite Hat, (proj2 (Z.eqb_neq _ _) H1), (proj2 (Z.eqb_neq _ _) H2). cbn [orb].
  change (bytes_of ": " ++ value h) with (ch ":" :: [ch " "] ++ value h). rewrite strsep_found by apply Hh.
  rewrite (span_app _ [ch " "] (value h)).
  - cbn [snd]. by rewrite add_header_ok.
  - by constructor.
  - right. rewrite Z.eqb_sym. by apply Z.eqb_neq, Hh.
Qed.

Lemma clean_added hs k v : Forall clean_header hs -> clean_header {| key := k; value := v |} -> Forall clean_header (added hs k v).
Proof.
  intros Hs Hh. unfold added, evhttp_add_header, evhttp_add_header_internal. destruct (_ || _); [done|].
  destruct (negb _); [done|]. destruct (mm_malloc _); [|done]. unfold mm_strdup. do 2 (destruct (mm_malloc _); [|done]).
  apply Forall_app. split; [done | by constructor].
Qed.

Lemma clean_removed hs k : Forall clean_header hs -> Forall clean_header (removed hs k).
Proof.
  unfold removed. induction 1 as [|h hs Hh Hs IH]; [constructor|]. cbn [evhttp_remove_header]. destruct (_ =? 0); [done|].
  destruct (evhttp_remove_header hs k). by constructor.
Qed.

(** A name and a value written out. *)
Lemma clean_constant k v :
  forallb (fun c => (0 <? c) && (c <? 256) && negb (c =? CR) && negb (c =? LF) && negb (c =? ch ":") && negb (c =? ch " ") && negb (c =? 9)) k = true ->
  k <> [] -> Forall line_char v -> at_ v 0 <> ch " " -> clean_header {| key := k; value := v |}.
Proof.
  intros Hk Hne Hv H0. rewrite forallb_forall in Hk. split; try done.
  - apply Forall_forall. intros c Hc. specialize (Hk c Hc). cbn in Hc. unfold line_char, is_char. bool_to_prop. lia.
  - intros Hin%list_elem_of_In. specialize (Hk _ Hin). vm_compute in Hk. discriminate Hk.
  - destruct k as [|c k]; [done|]. specialize (Hk c (or_introl eq_refl)). cbn [key]. rewrite at_cons_0. bool_to_prop. lia.
Qed.

(** The headers a reply gets, all clean if those given are. *)
Definition reply_headers (date : option (list Z)) (req : evhttp_request) : list evkeyval :=
  close_headers req (content_type_header req (version1_headers req date (output_headers req))).

Definition clean_date (date : option (list Z)) : Prop := forall d, date = Some d -> Forall line_char d /\ at_ d 0 <> ch " ".

Lemma clean_length n : 0 <= n -> clean_header {| key := bytes_of "Content-Length"; value := print_num 10 n |}.
Proof.
  intros Hn. destruct (print_num_spec 10 n ltac:(lia) Hn) as (Hne & Hd & _).
  apply clean_constant; [vm_compute; reflexivity | discriminate | by eapply digits_line |].
  destruct (print_num 10 n) as [|c l]; [done|]. rewrite at_cons_0. apply Forall_cons_split in Hd as [Hc%digit_is_char _]. lia.
Qed.

Lemma clean_if (b : bool) x y : Forall clean_header x -> Forall clean_header y -> Forall clean_header (if b then x else y).
Proof. by destruct b. Qed.

Lemma clean_maybe_date hs date : clean_date date -> Forall clean_header hs -> Forall clean_header (evhttp_maybe_add_date_header hs date).
Proof.
  intros Hd Hs. unfold evhttp_maybe_add_date_header. apply clean_if; [done|]. destruct date as [d|]; [|done].
  destruct (Hd d eq_refl). apply clean_added; [done|]. by apply clean_constant; [vm_compute; reflexivity | discriminate | |].
Qed.

(** Adding a header with a name and a value written out. *)
Lemma clean_add_constant hs k v :
  Forall clean_header hs ->
  forallb (fun c => (0 <? c) && (c <? 256) && negb (c =? CR) && negb (c =? LF) && negb (c =? ch ":") && negb (c =? ch " ") && negb (c =? 9)) k &&
  forallb (fun c => (0 <? c) && (c <? 256) && negb (c =? CR) && negb (c =? LF)) v && negb (at_ v 0 =? ch " ") = true ->
  k <> [] -> Forall clean_header (added hs k v).
Proof.
  intros Hs H Hne. apply andb_true_iff in H as [H H3]. apply andb_true_iff in H as [H1 H2].
  apply clean_added; [done|]. apply clean_constant; [done | done | by apply line_char_text |]. by apply Z.eqb_neq, negb_true_iff.
Qed.

Lemma clean_reply_headers date req :
  clean_date date -> Forall clean_header (output_headers req) -> 0 <= total_len (output_buffer req) ->
  Forall clean_header (reply_headers date req).
Proof.
  intros Hd Hs Hn. unfold reply_headers, close_headers, content_type_header, version1_headers, evhttp_maybe_add_content_length_header.
  cbv zeta. repeat first [ done | apply clean_maybe_date; [done|] | apply clean_if | apply clean_removed
    | apply clean_add_constant; [| vm_compute; reflexivity | discriminate] | apply clean_added; [| by apply clean_length] ].
Qed.

(** ** Writing *)

Definition reply_text (date : option (list Z)) (req : evhttp_request) (line : list Z) : list Z :=
  version_text req ++ [ch " "] ++ print_d (response_code req) ++ [ch " "] ++ line ++ eol ++
  headers_text (reply_headers date req) ++ eol.

Lemma header_text_long h : 4 <= zlen (header_text h).
Proof.
  unfold header_text. rewrite !zlen_app. pose proof (zlen_nonneg (key h)). pose proof (zlen_nonneg (value h)).
  change (zlen (bytes_of ": ")) with 2. change (zlen eol) with 2. lia.
Qed.

Lemma put_headers_ok hs k : forall b l,
  mem_ok -> text_in b l -> zlen (l ++ headers_text hs) + 64 <= k -> small k ->
  exists b', put_headers b hs = Some b' /\ text_in b' (l ++ headers_text hs).
Proof.
  induction hs as [|h hs IH]; intros b l Hm Ht Hk Hs; [exists b; by rewrite app_nil_r|].
  change (headers_text (h :: hs)) with (header_text h ++ headers_text hs) in *. rewrite app_assoc in *.
  pose proof (zlen_prefix (l ++ header_text h) (headers_text hs)). cbn [put_headers]. unfold put_header.
  change (key h ++ bytes_of ": " ++ value h ++ eol) with (header_text h).
  destruct (text_put_printf b l (header_text h) k Hm Ht) as (b1 & -> & Ht1); [| lia | done |].
  - intros E. pose proof (header_text_long h) as Hl. by rewrite E in Hl.
  - cbn [mbind option_bind]. by apply IH.
Qed.

(** [evhttp_make_header] of a reply into an empty buffer: the text and the body. *)
Lemma make_header_ok date req line :
  mem_ok -> kind req = EVHTTP_RESPONSE -> response_code_line req = Some line ->
  packed (output_buffer req) -> freeze_start (output_buffer req) = false ->
  small (zlen (reply_text date req line) + 64) ->
  exists req' out, evhttp_make_header date req evbuffer_new = Some (req', out) /\
    packed out /\ freeze_start out = false /\ output_headers req' = reply_headers date req /\
    contents out = reply_text date req line ++ contents (output_buffer req).
Proof.
  intros Hm Hk Hl Hp Hs Hsm. unfold evhttp_make_header, evhttp_make_header_response. rewrite Hk, Hl. cbn [mbind option_bind].
  set (k := zlen (reply_text date req line) + 64) in *. set (status := version_text req ++ [ch " "] ++ print_d (response_code req) ++ [ch " "] ++ line ++ eol).
  assert (Htext : reply_text date req line = (status ++ headers_text (reply_headers date req)) ++ eol).
  { unfold reply_text, status. by rewrite <- !app_assoc. }
  pose proof (zlen_prefix (status ++ headers_text (reply_headers date req)) eol) as H1. rewrite <- Htext in H1.
  pose proof (zlen_prefix status (headers_text (reply_headers date req))) as H2.
  destruct (text_put_printf evbuffer_new [] status k Hm text_new) as (b1 & -> & Ht1); [done | cbn [app]; lia | done |].
  cbn [mbind option_bind app] in *. change (output_headers (_ <| output_headers := ?x |>)) with x. fold (reply_headers date req).
  destruct (put_headers_ok (reply_headers date req) k b1 status Hm Ht1) as (b2 & -> & Ht2); [lia | done |]. cbn [mbind option_bind].
  destruct (text_put b2 _ eol k Hm Ht2) as (b3 & -> & Ht3); [rewrite <- Htext; lia | done |]. cbn [mbind option_bind].
  rewrite <- Htext in Ht3. destruct Ht3 as [Hp3 Hc3 Hs3 He3 _]. change (output_buffer (req <| output_headers := ?x |>)) with (output_buffer req).
  pose proof (pk_total _ Hp) as Htl. pose proof (zlen_nonneg (contents (output_buffer req))).
  change (evbuffer_get_length (output_buffer req)) with (total_len (output_buffer req)). destruct (Z.ltb_spec 0 (total_len (output_buffer req))) as [Hpos|Hz].
  - destruct (add_buffer_spec b3 (output_buffer req)) as (o & i & -> & Hpo & _ & Hco & _ & Hso & _); try done; [lia|].
    cbn [mbind option_bind]. eexists _, o. split; [done|]. splits; try done; [by rewrite Hso | by rewrite Hco, Hc3].
  - eexists _, b3. split; [done|]. splits; try done. rewrite Hc3. assert (contents (output_buffer req) = []) as -> by (apply zlen_nil_iff; lia).
    by rewrite app_nil_r.
Qed.

(** ** Reading *)

(** A number that was printed, followed by something else. *)
Lemma scan_d_printed n r : 0 <= n <= INT_MAX -> (r = [] \/ is_digit_of 10 (at_ r 0) = false) ->
  scan_d (print_d n ++ r) = Some (Some (n, r)).
Proof.
  intros Hn Hr. unfold print_d. rewrite (proj2 (Z.ltb_ge n 0)) by lia.
  destruct (print_num_spec 10 n ltac:(lia) ltac:(lia)) as (Hne & Hd & Hv & _). unfold scan_d.
  destruct (print_num 10 n) as [|c ds] eqn:E; [done|]. pose proof Hd as Hc. apply Forall_cons_split in Hc as [Hc _].
  apply digit_is_char in Hc. cbn [app span]. unfold isspace at 1.
  rewrite (proj2 (Z.eqb_neq c 32)) by lia. rewrite (proj2 (Z.leb_gt c 13)), andb_false_r by lia. cbn [orb snd scan_sign].
  destruct (Z.eqb_spec c (ch "-")) as [Ec|_]; [|destruct (Z.eqb_spec c (ch "+")) as [Ec|_]].
  1,2: exfalso; change (ch "-") with 45 in Ec; lia.
  change (c :: ds ++ r) with ((c :: ds) ++ r). rewrite span_app by done. rewrite Hv. cbn [signed].
  rewrite (proj2 (Z.leb_le _ n)), (proj2 (Z.leb_le n _)) by lia. done.
Qed.

Lemma atoi_printed n : 0 <= n <= INT_MAX -> atoi (print_d n) = Some n.
Proof.
  intros Hn. pose proof (scan_d_printed n [] Hn (or_introl eq_refl)) as H. rewrite app_nil_r in H.
  unfold scan_d, atoi in *. destruct (scan_sign _) as [neg s1]. destruct (span (is_digit_of 10) s1) as [ds r]. cbn [fst].
  destruct ds; [done|]. destruct (_ && _); [|done]. by injection H as -> _.
Qed.

Lemma print_d_line n : 0 <= n -> Forall line_char (print_d n) /\ ch " " ∉ print_d n.
Proof.
  intros Hn. unfold print_d. rewrite (proj2 (Z.ltb_ge n 0)) by lia.
  destruct (print_num_spec 10 n ltac:(lia) Hn) as (_ & Hd & _). split; [by eapply digits_line|].
  intros Hin%list_elem_of_In. rewrite Forall_forall in Hd. by apply Hd in Hin.
Qed.

(** The versions of messages that can be read. *)
Definition version_ok (req : evhttp_request) : Prop := 0 <= major req <= 1 /\ 0 <= minor req <= 127.

Lemma parse_version_ok req r0 : version_ok req ->
  evhttp_parse_http_version (version_text req) r0 = Some (0, r0 <| major := major req |> <| minor := minor req |>).
Proof.
  intros [Hma Hmi]. unfold evhttp_parse_http_version, scan_version, version_text.
  assert (Hpre : forall s, scan_prefix (bytes_of "HTTP/" ++ s) = Some s).
  { intros s. unfold scan_prefix. rewrite take_app_length, drop_app_length. by rewrite bool_decide_eq_true_2. }
  assert (INT_MAX = 2147483647) as Hmax by done.
  rewrite Hpre, scan_d_printed by (try lia; by right). cbn [mbind option_bind].
  change (at_ ([ch "."] ++ print_d (minor req)) 0 =? ch ".") with true. cbn [app tail].
  pose proof (scan_d_printed (minor req) [] ltac:(lia) (or_introl eq_refl)) as Hs. rewrite app_nil_r in Hs.
  rewrite Hs. cbn [mbind option_bind]. rewrite (proj2 (Z.ltb_ge 1 _)) by lia. by rewrite !swrap_small by lia.
Qed.

Definition status_line (req : evhttp_request) (line : list Z) : list Z :=
  version_text req ++ ch " " :: print_d (response_code req) ++ ch " " :: line.

Lemma version_no_space req : version_ok req -> ch " " ∉ version_text req /\ Forall line_char (version_text req).
Proof.
  intros [Hma Hmi]. destruct (print_d_line (major req) ltac:(lia)), (print_d_line (minor req) ltac:(lia)).
  unfold version_text. rewrite !not_elem_of_app, !Forall_app. splits; try done;
    first [by apply line_char_text | apply (bool_decide_unpack _); vm_compute; reflexivity].
Qed.

Lemma parse_response_line_ok req r0 line :
  mem_ok -> version_ok req -> 0 < response_code req <= INT_MAX ->
  evhttp_parse_response_line r0 (status_line req line) =
    Some (0, r0 <| major := major req |> <| minor := minor req |> <| response_code := response_code req |>
              <| response_code_line := Some line |>).
Proof.
  intros Hm Hv Hc. unfold evhttp_parse_response_line, status_line. destruct (version_no_space req Hv) as [Hns _].
  rewrite strsep_found by done. destruct (print_d_line (response_code req) ltac:(lia)) as [_ Hns2].
  rewrite strsep_found by done. rewrite parse_version_ok by done. cbn [mbind option_bind Z.ltb Z.compare].
  rewrite atoi_printed by lia. cbn [mbind option_bind].
  unfold evhttp_valid_response_code. change (response_code (_ <| response_code := ?x |>)) with x.
  rewrite (proj2 (Z.eqb_neq _ 0)) by lia. cbn [negb]. by rewrite strdup_ok.
Qed.

Section limits.
Context (evcon : option evhttp_connection) (limit : Z).
Context (Hlim : forall n, 0 <= n <= limit -> over_headers evcon n = false) (Hls : limit <= EV_SIZE_MAX) (Hm : mem_ok).

(** The header block: one header per line, then an empty line. *)
Lemma parse_headers_loop_ok hs : forall fuel req b rest,
  Forall clean_header hs -> packed b -> freeze_start b = false -> contents b = headers_text hs ++ eol ++ rest ->
  zlen (contents b) <= INT_MAX -> (length hs < fuel)%nat ->
  0 <= headers_size req -> headers_size req + zlen (headers_text hs) <= limit ->
  exists req' b', parse_headers_loop fuel evcon req b = Some (ALL_DATA_READ, req', b') /\
    req' = req <| input_headers := input_headers req ++ hs |> <| headers_size := headers_size req' |> /\ contents b' = rest.
Proof.
  induction hs as [|h hs IH]; intros fuel req b rest Hc Hp Hs Hb Hmax Hf H0 Hl; (destruct fuel as [|fuel]; [lia|]); cbn [parse_headers_loop].
  - destruct (read_text_line b [] rest Hm Hp Hs Hmax (Forall_nil _) Hb) as (b' & -> & _ & _ & Hrest). cbn [mbind option_bind].
    change (zlen []) with 0. rewrite Z.add_0_r. change (zlen (headers_text [])) with 0 in Hl.
    rewrite wrap_small by (unfold fits, EV_SIZE_MAX in *; lia). change (headers_size (_ <| headers_size := ?x |>)) with x.
    rewrite Hlim by lia. eexists _, b'. split; [done|]. split; [|done]. by rewrite app_nil_r; destruct req.
  - apply Forall_cons_split in Hc as [Hh Hc]. change (headers_text (h :: hs)) with (header_text h ++ headers_text hs) in *.
    set (line := key h ++ bytes_of ": " ++ value h). assert (Ht : header_text h = line ++ eol) by (unfold header_text, line; by rewrite <- !app_assoc).
    rewrite Ht, <- !app_assoc in Hb. rewrite Ht, !zlen_app in Hl. change (zlen eol) with 2 in Hl.
    pose proof (zlen_nonneg line). pose proof (zlen_nonneg (headers_text hs)).
    assert (Hline : Forall line_char line).
    { unfold line. rewrite !Forall_app. splits; [apply Hh | by apply line_char_text | apply Hh]. }
    destruct (read_text_line b line _ Hm Hp Hs Hmax Hline Hb) as (b' & -> & Hp' & Hs' & Hc'). cbn [mbind option_bind].
    rewrite wrap_small by (unfold fits, EV_SIZE_MAX in *; lia). change (headers_size (_ <| headers_size := ?x |>)) with x. rewrite Hlim by lia.
    rewrite cstr_cstring by (by apply line_cstring).
    assert (Hmatch : forall (T : Type) (x y : T), match line with [] => x | _ :: _ => y end = y).
    { intros. unfold line. pose proof (ch_name _ Hh). by destruct (key h). }
    rewrite Hmatch. pose proof (header_line_ok (input_headers req) h Hm Hh) as HL. fold line in HL.
    change (input_headers (_ <| headers_size := ?x |>)) with (input_headers req). rewrite HL.
    edestruct (IH fuel) as (req' & b2 & -> & Hreq & Hrest); [done | exact Hp' | exact Hs' | exact Hc' | | | | |].
    + rewrite Hb, (zlen_app line), (zlen_app eol) in Hmax. rewrite Hc'. pose proof (zlen_nonneg eol). lia.
    + cbn [length] in Hf. lia.
    + cbn. lia.
    + cbn. lia.
    + exists req', b2. split; [done|]. split; [|done]. rewrite Hreq. destruct req. cbn. by rewrite <- app_assoc.
Qed.
End limits.

Lemma headers_text_long hs : Z.of_nat (length hs) <= zlen (headers_text hs).
Proof.
  induction hs as [|h hs IH]; [done|]. change (headers_text (h :: hs)) with (header_text h ++ headers_text hs).
  rewrite zlen_app. pose proof (header_text_long h). cbn [length]. lia.
Qed.

Lemma status_line_ok req line : version_ok req -> 0 < response_code req -> Forall line_char line -> Forall line_char (status_line req line).
Proof.
  intros Hv Hc Hl. unfold status_line. destruct (version_no_space req Hv), (print_d_line (response_code req) ltac:(lia)).
  assert (line_char (ch " ")) by (split; done).
  apply Forall_app. split; [done|]. constructor; [done|]. apply Forall_app. split; [done|]. by constructor.
Qed.

(** C11: Replies: what [evhttp_make_header] writes for a reply with clean headers
    is read back by [evhttp_parse_firstline] and [evhttp_parse_headers] as the
    same version, code, phrase and headers, those that were given and those that
    were added, and the body is what is left in the buffer. *)
Theorem evhttp_reply_roundtrip date req line evcon r0 :
  mem_ok -> kind req = EVHTTP_RESPONSE -> kind r0 = EVHTTP_RESPONSE -> version_ok req -> 0 < response_code req <= INT_MAX ->
  response_code_line req = Some line -> Forall line_char line ->
  Forall clean_header (output_headers req) -> clean_date date ->
  packed (output_buffer req) -> freeze_start (output_buffer req) = false ->
  small (zlen (reply_text date req line) + 64) ->
  zlen (reply_text date req line) + total_len (output_buffer req) <= Z.min INT_MAX EV_SIZE_MAX ->
  (forall n, 0 <= n <= zlen (reply_text date req line) -> over_headers evcon n = false) ->
  exists req' out, evhttp_make_header date req evbuffer_new = Some (req', out) /\
    output_headers req' = reply_headers date req /\
    exists r1 b1, evhttp_parse_firstline evcon r0 out = Some (ALL_DATA_READ, r1, b1) /\
    exists r2 b2, evhttp_parse_headers evcon r1 b1 = Some (ALL_DATA_READ, r2, b2) /\
      major r2 = major req /\ minor r2 = minor req /\ response_code r2 = response_code req /\
      response_code_line r2 = Some line /\ input_headers r2 = input_headers r0 ++ reply_headers date req /\
      contents b2 = contents (output_buffer req).
Proof.
  intros Hm Hk Hk0 Hv Hcode Hline Hlc Hclean Hdate Hp Hs Hsm Hmax Hlim.
  destruct (make_header_ok date req line Hm Hk Hline Hp Hs Hsm) as (req' & out & Hmake & Hpo & Hso & Hh & Hc).
  exists req', out. split; [done|]. split; [done|]. pose proof (pk_total _ Hp) as Htl. pose proof (zlen_nonneg (contents (output_buffer req))).
  set (body := contents (output_buffer req)) in *. set (hs := reply_headers date req) in *.
  assert (Htext : reply_text date req line = status_line req line ++ eol ++ headers_text hs ++ eol).
  { unfold reply_text, status_line. rewrite <- !app_assoc. cbn [app]. by rewrite <- app_assoc. }
  assert (Hlens : zlen (reply_text date req line) = zlen (status_line req line) + zlen (headers_text hs) + 4).
  { rewrite Htext, !zlen_app. change (zlen eol) with 2. lia. }
  pose proof (zlen_nonneg (status_line req line)). pose proof (zlen_nonneg (headers_text hs)).
  assert (Hout : contents out = status_line req line ++ eol ++ headers_text hs ++ eol ++ body).
  { by rewrite Hc, Htext, <- !app_assoc. }
  assert (Hol : zlen (contents out) <= INT_MAX) by (rewrite Hc, zlen_app; lia).
  destruct (read_text_line out _ _ Hm Hpo Hso Hol (status_line_ok req line Hv ltac:(lia) Hlc) Hout) as (b1 & Hread & Hp1 & Hs1 & Hc1).
  set (r1 := r0 <| headers_size := zlen (status_line req line) |> <| major := major req |> <| minor := minor req |>
               <| response_code := response_code req |> <| response_code_line := Some line |>).
  exists r1, b1. split.
  { unfold evhttp_parse_firstline. rewrite Hread. cbn [mbind option_bind]. rewrite Hlim by lia.
    change (kind (_ <| headers_size := ?x |>)) with (kind r0). rewrite Hk0.
    rewrite cstr_cstring by (by apply line_cstring, status_line_ok; [| lia |]).
    by rewrite parse_response_line_ok. }
  destruct (parse_headers_loop_ok evcon (zlen (reply_text date req line)) Hlim ltac:(lia) Hm hs (S (Z.to_nat (total_len b1))) r1 b1 body)
    as (r2 & b2 & Hloop & Hr2 & Hrest); try done.
  - apply clean_reply_headers; [done | done | lia].
  - rewrite Hc1. rewrite Hout, (zlen_app (status_line _ _)), (zlen_app eol) in Hol. pose proof (zlen_nonneg eol). lia.
  - rewrite (pk_total _ Hp1), Hc1, zlen_app. pose proof (headers_text_long hs). pose proof (zlen_nonneg (eol ++ body)). lia.
  - change (headers_size r1) with (zlen (status_line req line)). lia.
  - exists r2, b2. split; [unfold evhttp_parse_headers; by rewrite Hloop|]. rewrite Hr2. by splits.
Qed.
End reply.

(** ** A witness *)

#[local] Existing Instance win64.
#[local] Existing Instance zero_allocator.

(** A reply of a server with a header of its own and a body. *)
Definition sample_reply : evhttp_request :=
  {| kind := EVHTTP_RESPONSE; req_type := EVHTTP_REQ_GET; req_flags := 0;
     input_headers := [{| key := bytes_of "Connection"; value := bytes_of "close" |}];
     output_headers := [{| key := bytes_of "X-Test"; value := bytes_of "a: b" |}];
     headers_size := 0; body_size := 0; req_uri := None; uri_elems := None; major := 1; minor := 1;
     response_code := 404; response_code_line := Some (bytes_of "Not Found"); input_buffer := evbuffer_new; ntoread := -1;
     chunked := false; userdone := false; output_buffer := sample_buffer; has_chunk_cb := false; host_cache := None |}.

Lemma evhttp_reply_roundtrip_witness :
  exists req' out, evhttp_make_header None sample_reply evbuffer_new = Some (req', out) /\
    map key (output_headers req') = [bytes_of "X-Test"; bytes_of "Content-Length"; bytes_of "Content-Type"; bytes_of "Connection"] /\
    exists r1 b1, evhttp_parse_firstline None sample_reply out = Some (ALL_DATA_READ, r1, b1) /\
    exists r2 b2, evhttp_parse_headers None r1 b1 = Some (ALL_DATA_READ, r2, b2) /\
      response_code r2 = 404 /\ contents b2 = bytes_of "hello".
Proof.
  destruct (evhttp_reply_roundtrip None sample_reply (bytes_of "Not Found") None sample_reply zero_mem_ok eq_refl eq_refl)
    as (req' & out & Hmake & Hh & r1 & b1 & H1 & r2 & b2 & H2 & _ & _ & Hc & _ & _ & Hb).
  - split; vm_compute; split; discriminate.
  - split; [reflexivity | vm_compute; discriminate].
  - reflexivity.
  - apply line_char_text. reflexivity.
  - constructor; [|constructor]. apply clean_constant; [reflexivity | discriminate | apply line_char_text; reflexivity | discriminate].
  - intros d E. discriminate E.
  - exact packed_sample.
  - reflexivity.
  - apply small_win64. vm_compute. discriminate.
  - vm_compute. discriminate.
  - intros n _. reflexivity.
  - exists req', out. split; [exact Hmake|]. rewrite Hh. split; [vm_compute; reflexivity|]. exists r1, b1. split; [exact H1|].
    exists r2, b2. split; [exact H2|]. split; [exact Hc | rewrite Hb; vm_compute; reflexivity].
Defined.
