(* ===== verification/Dns.v ===== *)
(** DNS names and queries ([evdns.c]): names as labels with compression, the parser
    of names, and the query packet.

    A packet is a block of bytes, a position an index; [None] is a read or write
    outside the block, or another undefined behaviour.  [Some None] and negative
    results are the errors of the code. *)

From S2P Require Import Prelude EvChain Cstring UriCoding.

(** One byte of a packet. *)
Definition byte_at (packet : list Z) (j : Z) : option Z := if j <? 0 then None else packet !! Z.to_nat j.

(** ** Names in packets *)

(** The loop of [name_parse]: the final [*idx] and the name, or -1. *)
Fixpoint name_parse_loop (fuel : nat) (packet : list Z) (length name_out_len j name_end ptr_count : Z) (name : list Z)
  : option (option (Z * list Z)) :=
  match fuel with
  | O => None
  | S fuel' =>
    if length <=? j then Some None else
    label_len ← byte_at packet j;
    let j := j + 1 in
    if label_len =? 0 then
      if name_out_len <=? zlen name then Some None else Some (Some (if name_end <? 0 then j else name_end, name))
    else if negb (Z.land label_len 0xc0 =? 0) then
      if length <=? j then Some None else
      ptr_low ← byte_at packet j;
      let j := j + 1 in
      let name_end := if name_end <? 0 then j else name_end in
      let j := Z.shiftl (Z.land label_len 0x3f) 8 + ptr_low in
      if (j <? 0) || (length <=? j) then Some None else
      if length <? ptr_count + 1 then Some None else
      name_parse_loop fuel' packet length name_out_len j name_end (ptr_count + 1) name
    else if 63 <? label_len then Some None else
      if bool_decide (name <> []) && (name_out_len <=? zlen name + 1) then Some None else
      let name := if bool_decide (name <> []) then name ++ [ch "."] else name in
      if name_out_len <=? zlen name + label_len then Some None else
      d ← mem_read packet j label_len;
      name_parse_loop fuel' packet length name_out_len (j + label_len) name_end ptr_count (name ++ d)
  end.

(** Every round jumps, at most [length] times, or takes a byte of the name, at most
    [name_out_len] times. *)
Definition name_parse (packet : list Z) (length idx name_out_len : Z) : option (option (Z * list Z)) :=
  name_parse_loop (Z.to_nat (Z.max 0 length) + Z.to_nat (Z.max 0 name_out_len) + 2) packet length name_out_len idx (-1) 0 [].

Section dns.
Context {A : Arch} {M : Allocator}.

(** ** Compression *)

Definition MAX_LABELS : nat := 128.

(** The table of names used so far, and where. *)
Definition dnslabel_table : Type := list (list Z * Z).

Definition dnslabel_table_init : dnslabel_table := [].
Definition dnslabel_clear (table : dnslabel_table) : dnslabel_table := [].

Fixpoint dnslabel_table_get_pos (table : dnslabel_table) (label : list Z) : Z :=
  match table with
  | [] => -1
  | (v, pos) :: table' => if bool_decide (label = v) then pos else dnslabel_table_get_pos table' label
  end.

Definition dnslabel_table_add (table : dnslabel_table) (label : list Z) (pos : Z) : Z * dnslabel_table :=
  if (length table =? MAX_LABELS)%nat then (-1, table) else
  match mm_strdup label with
  | None => (-1, table)
  | Some v => (0, table ++ [(v, pos)])
  end.

(** The table may be NULL. *)
Definition table_pos (table : option dnslabel_table) (label : list Z) : Z :=
  match table with Some t => dnslabel_table_get_pos t label | None => -1 end.
Definition table_add (table : option dnslabel_table) (label : list Z) (pos : Z) : option dnslabel_table :=
  (fun t => snd (dnslabel_table_add t label pos)) <$> table.

(** ** Appending numbers *)

Definition be16 (x : Z) : list Z := [wrap 8 (Z.shiftr x 8); wrap 8 x].
Definition be32 (x : Z) : list Z := [wrap 8 (Z.shiftr x 24); wrap 8 (Z.shiftr x 16); wrap 8 (Z.shiftr x 8); wrap 8 x].

(** [APPEND16] and [APPEND32]: the buffer and the next position; [false] is the
    jump to [overflow]. *)
Definition APPEND (buf : list Z) (buf_len j : Z) (d : list Z) : option (bool * list Z * Z) :=
  if buf_len <? j + zlen d then Some (false, buf, j) else
  buf ← mem_write buf j d; Some (true, buf, j + zlen d).
Definition APPEND16 (buf : list Z) (buf_len j x : Z) : option (bool * list Z * Z) := APPEND buf buf_len j (be16 x).
Definition APPEND32 (buf : list Z) (buf_len j x : Z) : option (bool * list Z * Z) := APPEND buf buf_len j (be32 x).

(** ** Names to labels *)

(** A label: its length and its characters. *)
Definition put_label (buf : list Z) (j : Z) (label : list Z) : option (list Z) :=
  buf ← mem_write buf j [wrap 8 (zlen label)]; mem_write buf (j + 1) label.

(** The loop of [dnsname_to_labels], the labels one after the other; at the end
    a zero is added unless the last byte is one.  The result is the next position or
    the negative error, the buffer and the table. *)
Fixpoint labels_loop (fuel : nat) (buf : list Z) (buf_len j : Z) (name : list Z) (table : option dnslabel_table)
  : option (Z * list Z * option dnslabel_table) :=
  match fuel with
  | O => None
  | S fuel' =>
    let ref := table_pos table name in
    if 0 <=? ref then
      '(ok, buf, j) ← APPEND16 buf buf_len j (Z.lor ref 0xc000);
      Some (if ok : bool then j else -2, buf, table)
    else
      let '(label, rest) := match strchr name (ch ".") with
                            | None => (name, None)
                            | Some (label, dot) => (label, Some (tail dot))
                            end in
      if 63 <? zlen label then Some (-1, buf, table) else
      if buf_len <? wrap size_bits (j + zlen label + 1) then Some (-2, buf, table) else
      let table := table_add table name j in
      buf ← put_label buf j label;
      let j := j + 1 + zlen label in
      match rest with
      | Some name => labels_loop fuel' buf buf_len j name table
      | None =>
        prev ← byte_at buf (j - 1);
        if negb (prev =? 0) then buf ← mem_write buf j [0]; Some (j + 1, buf, table) else Some (j, buf, table)
      end
  end.

Definition dnsname_to_labels (buf : list Z) (buf_len j : Z) (name : list Z) (table : option dnslabel_table)
  : option (Z * list Z * option dnslabel_table) :=
  if 255 <? zlen name then Some (-2, buf, table) else labels_loop (S (length name)) buf buf_len j name table.

(** ** Queries *)

Definition evdns_request_len (name_len : Z) : Z := wrap size_bits (96 + name_len + 2 + 4).

Definition TYPE_A : Z := 1.
Definition TYPE_CNAME : Z := 5.
Definition TYPE_SOA : Z := 6.
Definition TYPE_PTR : Z := 12.
Definition TYPE_AAAA : Z := 28.
Definition CLASS_INET : Z := 1.

(** Several numbers in a row. *)
Fixpoint append_all (buf : list Z) (buf_len j : Z) (l : list (list Z)) : option (bool * list Z * Z) :=
  match l with
  | [] => Some (true, buf, j)
  | d :: l' =>
    '(ok, buf, j) ← APPEND buf buf_len j d;
    if ok : bool then append_all buf buf_len j l' else Some (false, buf, j)
  end.

(** The length of the packet or a negative error, and the buffer. *)
Definition evdns_request_data_build (name : list Z) (trans_id type class : Z) (buf : list Z) (buf_len : Z)
  : option (Z * list Z) :=
  '(ok, buf, j) ← append_all buf buf_len 0 (map be16 [trans_id; 0x0100; 1; 0; 0; 0]);
  if negb ok then Some (-1, buf) else
  '(j, buf, _) ← dnsname_to_labels buf buf_len j name None;
  if j <? 0 then Some (j, buf) else
  '(ok, buf, j) ← append_all buf buf_len j [be16 type; be16 class];
  Some (if ok : bool then j else -1, buf).
End dns.
