(* ===== verification/DnsSpec.v ===== *)
(** What [Dns] promises about names: the labels of a name, the relation between
    a packet and the names it holds at a position, the invariant of the compression
    table, and the parser and the writer of names against them. *)

From S2P Require Import Prelude EvChain Cstring UriCoding Dns.

(** ** Names *)

(** The labels of a name, cut at the dots. *)
Fixpoint labels_of (name : list Z) : list (list Z) :=
  match name with
  | [] => [[]]
  | c :: s => if c =? ch "." then [] :: labels_of s
              else match labels_of s with l :: ls => (c :: l) :: ls | [] => [[c]] end
  end.

(** Every label has 1 to 63 characters; the last one may be missing. *)
Fixpoint labels_ok (ls : list (list Z)) : Prop :=
  match ls with
  | [] => True
  | [l] => zlen l <= 63
  | l :: ls' => 1 <= zlen l <= 63 /\ labels_ok ls'
  end.

Definition dns_name (name : list Z) : Prop := labels_ok (labels_of name).

(** The labels with characters, and the name they make. *)
Definition proper_labels (name : list Z) : list (list Z) := filter (fun l => l <> []) (labels_of name).

Fixpoint join_labels (ls : list (list Z)) : list Z :=
  match ls with
  | [] => []
  | [l] => l
  | l :: ls' => l ++ ch "." :: join_labels ls'
  end.

(** A name without the dot that may end it. *)
Definition no_final_dot (name : list Z) : list Z :=
  if bool_decide (last name = Some (ch ".")) then removelast name else name.

Lemma strchr_labels name :
  labels_of name = match strchr name (ch ".") with
                   | None => [name]
                   | Some (l, r) => l :: labels_of (tail r)
                   end.
Proof.
  induction name as [|c s IH]; [done|]. cbn [labels_of strchr].
  destruct (c =? _); [done|]. rewrite IH. destruct (strchr s _) as [[l r]|]; done.
Qed.

Lemma labels_of_nonempty name : labels_of name <> [].
Proof. destruct name as [|c s]; cbn [labels_of]; [done|]. destruct (c =? _); [done|]. by destruct (labels_of s). Qed.

Lemma join_labels_labels name : join_labels (labels_of name) = name.
Proof.
  induction name as [|c s IH]; [done|]. cbn [labels_of].
  pose proof (labels_of_nonempty s). destruct (Z.eqb_spec c (ch ".")) as [->|].
  - rewrite <- IH at 2. by destruct (labels_of s).
  - destruct (labels_of s) as [|l [|l' ls]]; [done|..]; cbn [join_labels] in *; by rewrite <- IH.
Qed.

(** ** Names in packets *)

(** The packet holds the labels [ls] at [pos]; [e] is the position after the name,
    and [k] the number of jumps.  A name ends before the pointers to it. *)
Inductive name_at (packet : list Z) : Z -> list (list Z) -> Z -> Z -> Prop :=
| at_end pos : byte_at packet pos = Some 0 -> name_at packet pos [] (pos + 1) 0
| at_label pos l ls e k :
    byte_at packet pos = Some (zlen l) -> 1 <= zlen l <= 63 ->
    mem_read packet (pos + 1) (zlen l) = Some l -> name_at packet (pos + 1 + zlen l) ls e k ->
    name_at packet pos (l :: ls) e k
| at_jump pos hi lo ls e k :
    byte_at packet pos = Some hi -> byte_at packet (pos + 1) = Some lo -> Z.land hi 0xc0 <> 0 ->
    name_at packet (Z.shiftl (Z.land hi 0x3f) 8 + lo) ls e k -> e <= pos ->
    name_at packet pos ls (pos + 2) (k + 1).

Lemma byte_at_range packet j b : byte_at packet j = Some b -> 0 <= j < zlen packet.
Proof.
  unfold byte_at. destruct (Z.ltb_spec j 0); [done|]. intros E%lookup_lt_Some. unfold zlen. lia.
Qed.

Lemma byte_at_prefix n p p' j : ztake n p = ztake n p' -> j < n -> byte_at p j = byte_at p' j.
Proof.
  intros E Hj. unfold byte_at. destruct (Z.ltb_spec j 0); [done|].
  rewrite <- (ztake_lookup p n), <- (ztake_lookup p' n) by lia. by rewrite E.
Qed.

Lemma mem_read_inv p j len d :
  mem_read p j len = Some d -> 0 <= j /\ 0 <= len /\ j + len <= zlen p /\ d = ztake len (zdrop j p).
Proof. unfold mem_read. destruct (_ && _) eqn:E; [|done]. bool_to_prop. intros [= <-]. splits; lia || done. Qed.

Lemma mem_read_prefix n p p' j len d :
  ztake n p = ztake n p' -> j + len <= n -> mem_read p j len = Some d -> mem_read p' j len = Some d.
Proof.
  intros E Hn (Hj & Hl & Hz & ->)%mem_read_inv.
  assert (Hp : n <= zlen p' \/ p' = p).
  { destruct (Z.le_gt_cases n (zlen p')); [by left|]. right.
    rewrite (ztake_ge p') in E by lia. subst p'. apply ztake_ge.
    destruct (Z.le_gt_cases n (zlen p)); [|lia]. rewrite zlen_ztake in *; lia. }
  destruct Hp as [Hp | ->]; [|by apply mem_read_Some].
  rewrite mem_read_Some by lia. f_equal. apply (f_equal (zdrop j)) in E.
  rewrite !zdrop_ztake in E by lia. apply (f_equal (ztake len)) in E. rewrite !ztake_ztake in E by lia. done.
Qed.

Lemma name_at_range p pos ls e k : name_at p pos ls e k -> 0 <= pos < e /\ e <= zlen p /\ 0 <= k < e.
Proof.
  induction 1 as [pos H|pos l ls e k H Hl Hr _ IH|pos hi lo ls e k H H' _ _ IH He].
  - apply byte_at_range in H. lia.
  - apply byte_at_range in H. lia.
  - apply byte_at_range in H, H'. lia.
Qed.

(** What follows a name does not matter. *)
Lemma name_at_prefix p p' n pos ls e k :
  name_at p pos ls e k -> e <= n -> ztake n p = ztake n p' -> name_at p' pos ls e k.
Proof.
  intros H. revert n. induction H as [pos H|pos l ls e k H Hl Hr Hn IH|pos hi lo ls e k H H' Hc Hn IH He];
    intros n Hle E.
  - apply at_end. rewrite <- H. symmetry. apply (byte_at_prefix n); [done | lia].
  - pose proof (name_at_range _ _ _ _ _ Hn). apply at_label; [| done | | by apply (IH n)].
    + rewrite <- H. symmetry. apply (byte_at_prefix n); [done | lia].
    + apply (mem_read_prefix n p); [done | lia | done].
  - eapply at_jump; [.. | exact He]; [| | exact Hc | apply (IH n); [lia | done]].
    + rewrite <- H. symmetry. apply (byte_at_prefix n); [done | lia].
    + rewrite <- H'. symmetry. apply (byte_at_prefix n); [done | lia].
Qed.

(** ** The parser reads what the packet holds *)

(** A name put together from labels, after what is there already. *)
Fixpoint name_after (acc : list Z) (ls : list (list Z)) : list Z :=
  match ls with
  | [] => acc
  | l :: ls' => name_after ((if bool_decide (acc <> []) then acc ++ [ch "."] else acc) ++ l) ls'
  end.

Lemma name_after_longer ls : forall acc, zlen acc <= zlen (name_after acc ls).
Proof.
  induction ls as [|l ls IH]; intros acc; cbn [name_after]; [lia|].
  etrans; [|apply IH]. case_bool_decide; autorewrite with ev; pose proof (zlen_nonneg l); lia.
Qed.

Lemma name_after_join_labels ls acc :
  Forall (fun l => l <> []) ls -> acc <> [] ->
  name_after acc ls = match ls with [] => acc | _ => acc ++ ch "." :: join_labels ls end.
Proof.
  revert acc. induction ls as [|l ls IH]; intros acc Hls Ha; [done|]. cbn [name_after].
  apply Forall_cons_split in Hls as [Hl Hls]. rewrite bool_decide_true by done.
  rewrite IH by (done || by destruct acc). destruct ls as [|l' ls]; cbn [join_labels]; by rewrite <- !app_assoc.
Qed.

Lemma name_after_nil ls : Forall (fun l => l <> []) ls -> name_after [] ls = join_labels ls.
Proof.
  destruct ls as [|l ls]; [done|]. intros [Hl Hls]%Forall_cons_split. cbn [name_after].
  rewrite bool_decide_false by tauto. cbn [app]. rewrite name_after_join_labels by done. by destruct ls.
Qed.

Lemma short_label n : 0 <= n <= 63 -> Z.land n 0xc0 = 0.
Proof.
  intros H. apply Z.eqb_eq. apply (forall_below 64 (fun n => Z.land n 0xc0 =? 0)); [by vm_compute | lia].
Qed.

Lemma name_parse_loop_ok p length out_len pos ls e k :
  name_at p pos ls e k -> length <= zlen p -> e <= length -> forall fuel name_end ptr_count acc,
  0 <= ptr_count -> ptr_count + k <= length -> zlen (name_after acc ls) < out_len ->
  (List.length ls + Z.to_nat k < fuel)%nat ->
  name_parse_loop fuel p length out_len pos name_end ptr_count acc =
    Some (Some (if name_end <? 0 then e else name_end, name_after acc ls)).
Proof.
  intros H Hlen. induction H as [pos H|pos l ls e k H Hl Hr Hn IH|pos hi lo ls e k H H' Hc Hn IH He];
    intros Hle [|fuel] name_end ptr_count acc Hp Hk Ho Hf; try lia; cbn [name_parse_loop name_after] in *.
  - pose proof (byte_at_range _ _ _ H). rewrite (proj2 (Z.leb_gt _ _)) by lia. rewrite H.
    cbn [mbind option_bind]. rewrite Z.eqb_refl, (proj2 (Z.leb_gt _ _)) by lia. done.
  - pose proof (name_at_range _ _ _ _ _ Hn). rewrite (proj2 (Z.leb_gt _ _)) by lia. rewrite H.
    cbn [mbind option_bind]. rewrite (proj2 (Z.eqb_neq _ _)) by lia. rewrite short_label by lia. cbn [negb Z.eqb].
    rewrite (proj2 (Z.ltb_ge _ _)) by lia.
    set (acc' := if bool_decide (acc <> []) then acc ++ [ch "."] else acc) in *.
    pose proof (name_after_longer ls (acc' ++ l)) as Hlong. rewrite zlen_app in Hlong.
    assert (bool_decide (acc <> []) && (out_len <=? zlen acc + 1) = false) as ->.
    { subst acc'. case_bool_decide; [|done]. autorewrite with ev in Hlong. apply Z.leb_gt. lia. }
    cbv zeta. rewrite (proj2 (Z.leb_gt _ _)) by lia. rewrite Hr. cbn [mbind option_bind].
    apply IH; [lia | done | lia | done | cbn [List.length] in Hf; lia].
  - pose proof (name_at_range _ _ _ _ _ Hn). pose proof (byte_at_range _ _ _ H').
    rewrite (proj2 (Z.leb_gt _ _)) by lia. rewrite H. cbn [mbind option_bind]. cbv zeta.
    assert (hi =? 0 = false) as -> by (apply Z.eqb_neq; intros ->; by apply Hc).
    rewrite (proj2 (Z.eqb_neq _ _)) by done. cbn [negb].
    rewrite (proj2 (Z.leb_gt _ _)) by lia. rewrite H'. cbn [mbind option_bind].
    rewrite (proj2 (Z.ltb_ge _ _)), (proj2 (Z.leb_gt _ _)), (proj2 (Z.ltb_ge _ _)) by lia. cbn [orb].
    rewrite IH by lia. replace (pos + 1 + 1) with (pos + 2) by lia.
    destruct (Z.ltb_spec name_end 0); [|by rewrite (proj2 (Z.ltb_ge name_end 0))].
    by rewrite (proj2 (Z.ltb_ge (pos + 2) 0)) by lia.
Qed.

Lemma name_after_count ls : forall acc, Forall (fun l => l <> []) ls ->
  zlen acc + Z.of_nat (length ls) <= zlen (name_after acc ls).
Proof.
  induction ls as [|l ls IH]; intros acc Hls; cbn [name_after length]; [lia|].
  apply Forall_cons_split in Hls as [Hl Hls]. etrans; [|by apply IH].
  assert (1 <= zlen l) by (destruct l; [done | rewrite zlen_cons; pose proof (zlen_nonneg l); lia]).
  case_bool_decide; autorewrite with ev; lia.
Qed.

Lemma name_at_proper p pos ls e k : name_at p pos ls e k -> Forall (fun l => l <> []) ls.
Proof. induction 1; try done. constructor; [|done]. intros ->. rewrite zlen_nil in *. lia. Qed.

Lemma name_parse_ok p length out_len pos ls e k :
  name_at p pos ls e k -> e <= length <= zlen p -> zlen (join_labels ls) < out_len ->
  name_parse p length pos out_len = Some (Some (e, join_labels ls)).
Proof.
  intros H Hlen Ho. pose proof (name_at_proper _ _ _ _ _ H) as Hls. pose proof (name_at_range _ _ _ _ _ H).
  rewrite <- name_after_nil in * by done. pose proof (name_after_count ls [] Hls) as Hc. rewrite zlen_nil in Hc.
  unfold name_parse. eapply (name_parse_loop_ok _ length out_len) in H; [by rewrite H | lia..].
Qed.

(** ** The writer of names *)

Section writer.
Context {A : Arch} {M : Allocator}.

Lemma mem_write_ok m pos d :
  0 <= pos -> pos + zlen d <= zlen m ->
  exists m', mem_write m pos d = Some m' /\ zlen m' = zlen m /\ ztake pos m' = ztake pos m /\
             mem_read m' pos (zlen d) = Some d.
Proof.
  intros Hp Hd. pose proof (zlen_nonneg d). pose proof (zlen_ztake m pos ltac:(lia)) as Ht.
  eexists. rewrite mem_write_Some by lia. split; [done|].
  assert (zlen (ztake pos m ++ d ++ zdrop (pos + zlen d) m) = zlen m) as Hz.
  { autorewrite with ev. rewrite Ht, zlen_zdrop by lia. lia. }
  splits; [done | by rewrite ztake_exact|].
  rewrite mem_read_Some by lia. by rewrite zdrop_exact, ztake_exact by done.
Qed.

Lemma mem_read_lookup m pos len d (i : nat) :
  mem_read m pos len = Some d -> Z.of_nat i < len -> byte_at m (pos + Z.of_nat i) = d !! i.
Proof.
  intros (Hp & _ & _ & ->)%mem_read_inv Hi. unfold byte_at. rewrite (proj2 (Z.ltb_ge _ _)) by lia.
  rewrite ztake_lookup, zdrop_lookup by done. f_equal. lia.
Qed.

Lemma mem_read_byte m pos b : mem_read m pos 1 = Some [b] -> byte_at m pos = Some b.
Proof. intros H. apply (mem_read_lookup _ _ _ _ 0) in H; [|lia]. by rewrite Z.add_0_r in H. Qed.

Lemma mem_read_bytes m pos b c :
  mem_read m pos 2 = Some [b; c] -> byte_at m pos = Some b /\ byte_at m (pos + 1) = Some c.
Proof.
  intros H. pose proof (mem_read_lookup _ _ _ _ 0 H ltac:(lia)) as H0. rewrite Z.add_0_r in H0.
  pose proof (mem_read_lookup _ _ _ _ 1 H ltac:(lia)) as H1. done.
Qed.

Lemma put_label_ok buf j l :
  0 <= j -> zlen l <= 63 -> j + 1 + zlen l <= zlen buf ->
  exists buf', put_label buf j l = Some buf' /\ zlen buf' = zlen buf /\ ztake j buf' = ztake j buf /\
               byte_at buf' j = Some (zlen l) /\ mem_read buf' (j + 1) (zlen l) = Some l.
Proof.
  intros Hj Hl Hb. pose proof (zlen_nonneg l). unfold put_label.
  rewrite wrap_small by (unfold fits; lia).
  destruct (mem_write_ok buf j [zlen l]) as (b1 & -> & Hz1 & Ht1 & Hr1); [lia | rewrite zlen_cons, zlen_nil; lia|].
  cbn [mbind option_bind]. apply mem_read_byte in Hr1.
  destruct (mem_write_ok b1 (j + 1) l) as (b2 & -> & Hz2 & Ht2 & Hr2); [lia..|].
  exists b2. splits; [done | lia | | | done].
  - rewrite <- Ht1, <- (ztake_ztake b2 j (j + 1)), Ht2, ztake_ztake by lia. done.
  - rewrite <- Hr1. apply (byte_at_prefix (j + 1)); [done | lia].
Qed.

(** A position that fits in a pointer survives. *)
Lemma pointer_bytes ref :
  0 <= ref < 16384 ->
  exists hi lo, be16 (Z.lor ref 0xc000) = [hi; lo] /\ Z.land hi 0xc0 <> 0 /\ Z.shiftl (Z.land hi 0x3f) 8 + lo = ref.
Proof.
  intros H. pose proof (Z.div_mod ref 256 ltac:(lia)). pose proof (Z.mod_pos_bound ref 256 ltac:(lia)).
  assert (Hk : 0 <= ref / 256 < Z.of_nat 64) by (split; [apply Z.div_pos | apply Z.div_lt_upper_bound]; lia).
  assert (Eor : Z.lor ref 0xc000 = (192 + ref / 256) * 256 + ref mod 256).
  { rewrite Z.lor_comm. change 0xc000 with (Z.shiftl 3 14). rewrite lor_shiftl_add; lia. }
  exists (192 + ref / 256), (ref mod 256). split.
  - unfold be16. rewrite Eor, Z.shiftr_div_pow2 by done. change (2 ^ 8) with 256. rewrite Z.div_add_l by lia.
    rewrite (Z.div_small (ref mod 256)) by done. unfold wrap. change (2 ^ 8) with 256. rewrite Z.add_0_r, Z.mod_small by lia.
    by rewrite (Z.add_comm (_ * 256)), Z_mod_plus_full, (Z.mod_small (ref mod 256)) by done.
  - pose proof (forall_below 64 (fun k => negb (Z.land (192 + k) 0xc0 =? 0) && (Z.land (192 + k) 0x3f =? k))
      ltac:(by vm_compute) _ Hk) as E. cbv beta in E. bool_to_prop. split; [done|]. rewrite H3, Z.shiftl_mul_pow2 by done. lia.
Qed.

(** ** The compression table *)

(** The entry leads to its name, which ends before [limit]. *)
Definition entry_ok (buf : list Z) (limit : Z) (x : list Z * Z) : Prop :=
  exists e k, name_at buf (snd x) (proper_labels (fst x)) e k /\ e <= limit /\ snd x < 16384.

Definition entries (table : option dnslabel_table) : dnslabel_table := default [] table.

Definition table_ok (buf : list Z) (limit : Z) (table : option dnslabel_table) : Prop :=
  forall x, x ∈ entries table -> entry_ok buf limit x.

Lemma entry_ok_mono buf limit buf' limit' x :
  entry_ok buf limit x -> limit <= limit' -> ztake limit buf = ztake limit buf' -> entry_ok buf' limit' x.
Proof.
  intros (e & k & Hn & He & Hp) Hl E. exists e, k. splits; [|lia | done]. by apply (name_at_prefix buf _ limit).
Qed.

Lemma table_ok_mono buf limit buf' limit' table :
  table_ok buf limit table -> limit <= limit' -> ztake limit buf = ztake limit buf' -> table_ok buf' limit' table.
Proof. intros H ?? x Hx. eapply entry_ok_mono; [by apply H | done..]. Qed.

Lemma table_pos_found table name :
  0 <= table_pos table name -> (name, table_pos table name) ∈ entries table.
Proof.
  destruct table as [t|]; cbn [table_pos entries default]; [|lia].
  induction t as [|[v pos] t IH]; cbn [dnslabel_table_get_pos]; [lia|].
  case_bool_decide as E; [subst; intros; left | intros; right; by apply IH].
Qed.

Lemma table_add_entries table name j x :
  x ∈ entries (table_add table name j) -> x ∈ entries table \/ x = (name, j).
Proof.
  destruct table as [t|]; cbn [table_add fmap option_fmap option_map entries default]; [|by left].
  unfold dnslabel_table_add. destruct (_ =? _)%nat; [by left|].
  destruct (mm_strdup name) as [v|] eqn:E; [|by left]. unfold mm_strdup in E. destruct (mm_malloc _); [|done].
  injection E as <-. cbn [snd]. intros [H | H%list_elem_of_singleton]%elem_of_app; [by left | by right].
Qed.

(** ** Writing a name *)

(** What the writer promises for a name at [j]. *)
Record name_written (buf : list Z) (j : Z) (name : list Z) (table : option dnslabel_table)
    (buf' : list Z) (j' : Z) (table' : option dnslabel_table) : Prop := {
  nw_size : zlen buf' = zlen buf;
  nw_prefix : ztake j buf' = ztake j buf;
  nw_range : j < j' <= j + zlen name + 2;
  nw_name : exists k, name_at buf' j (proper_labels name) j' k;
  nw_table : forall x, x ∈ entries table' -> x ∈ entries table \/ entry_ok buf' j' x }.

Lemma size_bits_32 z : 0 <= z < 2 ^ 32 -> wrap size_bits z = z.
Proof.
  intros H. apply wrap_small. unfold fits.
  destruct arch_cases as [(-> & _)|(-> & _)]; [done|].
  assert (2 ^ 32 < 2 ^ 64) by done. lia.
Qed.

Lemma ztake_le_eq {T} (l l' : list T) i k : i <= k -> ztake k l = ztake k l' -> ztake i l = ztake i l'.
Proof. intros Hi E. by rewrite <- (ztake_ztake l i k), E, ztake_ztake by lia. Qed.

(** A pointer to a name that is in the table. *)
Lemma pointer_written buf buf_len j name table :
  0 <= j -> j + zlen name + 2 <= buf_len <= zlen buf -> 0 <= table_pos table name ->
  entry_ok buf j (name, table_pos table name) ->
  exists buf', APPEND16 buf buf_len j (Z.lor (table_pos table name) 0xc000) = Some (true, buf', j + 2) /\
               name_written buf j name table buf' (j + 2) table.
Proof.
  intros Hj Hb Href (e & k & Hn & He & Hp). cbn [fst snd] in *. pose proof (zlen_nonneg name).
  destruct (pointer_bytes (table_pos table name)) as (hi & lo & Hbe & Hc & Ht); [lia|].
  unfold APPEND16, APPEND. rewrite Hbe. change (zlen [hi; lo]) with 2. rewrite (proj2 (Z.ltb_ge _ _)) by lia.
  destruct (mem_write_ok buf j [hi; lo]) as (buf' & -> & Hz & Hpre & Hr); [done | change (zlen [hi; lo]) with 2; lia|].
  apply mem_read_bytes in Hr as [H0 H1].
  exists buf'. split; [done|]. split; [done | done | lia | | by left].
  exists (k + 1). apply (at_jump _ _ hi lo _ e); [done.. | | lia].
  rewrite Ht. by apply (name_at_prefix buf _ j).
Qed.

(** The last label and the zero after it. *)
Lemma last_label_written buf buf_len j name table :
  cstring name -> strchr name (ch ".") = None -> zlen name <= 63 ->
  0 <= j < 16384 -> j + zlen name + 2 <= buf_len <= zlen buf ->
  exists buf1 b, put_label buf j name = Some buf1 /\ byte_at buf1 (j + zlen name) = Some b /\
    exists j' buf', (if negb (b =? 0) then buf ← mem_write buf1 (j + 1 + zlen name) [0]; Some (j + 1 + zlen name + 1, buf, table_add table name j)
                     else Some (j + 1 + zlen name, buf1, table_add table name j)) = Some (j', buf', table_add table name j) /\
      name_written buf j name table buf' j' (table_add table name j).
Proof.
  intros Hc Hs Hl Hj Hb. pose proof (zlen_nonneg name).
  destruct (put_label_ok buf j name) as (b1 & -> & Hz & Hp & H0 & H1); [lia..|].
  assert (Hlab : proper_labels name = if bool_decide (name <> []) then [name] else []).
  { unfold proper_labels. rewrite strchr_labels, Hs, filter_cons, filter_nil. repeat case_decide; try case_bool_decide; done || tauto. }
  assert (Hwritten : forall buf' j', zlen buf' = zlen b1 -> ztake (j + 1) buf' = ztake (j + 1) b1 ->
            j < j' <= j + zlen name + 2 -> (exists k, name_at buf' j (proper_labels name) j' k) ->
            name_written buf j name table buf' j' (table_add table name j)).
  { intros buf' j' Hz' Hp' Hj' Hn. split; [lia | | done | done|].
    - rewrite <- Hp. by apply (ztake_le_eq _ _ _ (j + 1)); [lia|].
    - intros x [Hx | ->]%table_add_entries; [by left | right]. destruct Hn as [k Hn]. exists j', k. splits; [done | lia | cbn; lia]. }
  destruct (decide (name = [])) as [-> | Hne].
  - rewrite zlen_nil in *. rewrite !Z.add_0_r. exists b1, 0. splits; [done..|].
    exists (j + 1), b1. cbn [Z.eqb negb]. split; [done|].
    apply Hwritten; [done | done | lia|]. exists 0. rewrite Hlab. by apply at_end.
  - rewrite bool_decide_true in Hlab by done.
    assert (1 <= zlen name) by (destruct name; [done | rewrite zlen_cons; pose proof (zlen_nonneg name); lia]).
    destruct (lookup_lt_is_Some_2 name (length name - 1)) as [b Hlast]; [unfold zlen in *; lia|].
    pose proof (mem_read_lookup _ _ _ _ _ H1 (ltac:(unfold zlen in *; lia) : Z.of_nat (length name - 1) < zlen name)) as Hb1.
    replace (j + 1 + Z.of_nat (length name - 1)) with (j + zlen name) in Hb1 by (unfold zlen in *; lia).
    exists b1, b. rewrite Hb1. splits; [done..|].
    pose proof (Forall_lookup_1 _ _ _ _ Hc Hlast) as Hchar. unfold is_char in Hchar.
    rewrite (proj2 (Z.eqb_neq _ _)) by lia. cbn [negb].
    destruct (mem_write_ok b1 (j + 1 + zlen name) [0]) as (b2 & -> & Hz2 & Hp2 & Hr2);
      [lia | change (zlen [0]) with 1; lia|]. cbn [mbind option_bind].
    exists (j + 1 + zlen name + 1), b2. split; [done|].
    apply Hwritten; [done | | lia|]; [by apply (ztake_le_eq _ _ _ (j + 1 + zlen name)); [lia|]|].
    exists 0. rewrite Hlab. apply at_label; [| lia | | by apply at_end, mem_read_byte].
    + rewrite <- H0. by apply (byte_at_prefix (j + 1 + zlen name)); [|lia].
    + by apply (mem_read_prefix (j + 1 + zlen name) b1); [|lia|].
Qed.

Lemma proper_cons name l r :
  strchr name (ch ".") = Some (l, r) -> l <> [] -> proper_labels name = l :: proper_labels (tail r).
Proof. intros Hs Hl. unfold proper_labels. by rewrite strchr_labels, Hs, filter_cons, decide_True by done. Qed.

(** A label, once the rest of the name is written after it. *)
Lemma label_before_rest buf j name l r table b1 b2 j2 table' :
  strchr name (ch ".") = Some (l, r) -> 1 <= zlen l <= 63 -> 0 <= j < 16384 ->
  zlen b1 = zlen buf -> ztake j b1 = ztake j buf -> byte_at b1 j = Some (zlen l) ->
  mem_read b1 (j + 1) (zlen l) = Some l ->
  name_written b1 (j + 1 + zlen l) (tail r) (table_add table name j) b2 j2 table' ->
  name_written buf j name table b2 j2 table'.
Proof.
  intros Hs Hl Hj Hz Hp H0 H1 [Hz2 Hp2 Hj2 [k Hn] Ht]. pose proof (proj1 (strchr_Some _ _ _ _) Hs) as (r' & -> & Hname & _).
  apply (f_equal zlen) in Hname. rewrite zlen_app, zlen_cons in Hname. cbn [tail] in *.
  assert (Hname2 : exists k, name_at b2 j (proper_labels name) j2 k).
  { exists k. rewrite (proper_cons _ _ _ Hs) by (intros ->; rewrite zlen_nil in *; lia).
    apply at_label; [| done | | done].
    - rewrite <- H0. by apply (byte_at_prefix (j + 1 + zlen l)); [|lia].
    - by apply (mem_read_prefix (j + 1 + zlen l) b1); [|lia|]. }
  split; [lia | | lia | done|].
  - rewrite <- Hp. by apply (ztake_le_eq _ _ _ (j + 1 + zlen l)); [lia|].
  - intros x [[Hx | ->]%table_add_entries | Hx]%Ht; [by left | right | by right].
    destruct Hname2 as [k' Hk]. exists j2, k'. splits; [done | lia | cbn; lia].
Qed.

Lemma labels_loop_ok buf_len fuel : forall buf j name table,
  cstring name -> dns_name name -> 0 <= j -> j + zlen name + 2 <= buf_len <= zlen buf -> buf_len <= 16384 ->
  (length name < fuel)%nat ->
  (forall x, x ∈ entries table -> zlen (fst x) <= zlen name -> entry_ok buf j x) ->
  exists j' buf' table', labels_loop fuel buf buf_len j name table = Some (j', buf', table') /\
                         name_written buf j name table buf' j' table'.
Proof.
  induction fuel as [|fuel IH]; intros buf j name table Hc Hd Hj Hb Hm Hf Ht; [lia|]. cbn [labels_loop].
  pose proof (zlen_nonneg name). destruct (Z.leb_spec 0 (table_pos table name)) as [Href|_].
  { pose proof (Ht _ (table_pos_found _ _ Href) ltac:(done)) as He.
    destruct (pointer_written buf buf_len j name table) as (b & -> & Hw); [done..|].
    by exists (j + 2), b, table. }
  unfold dns_name in Hd. rewrite strchr_labels in Hd.
  destruct (strchr name (ch ".")) as [[l r]|] eqn:Hs.
  - pose proof (proj1 (strchr_Some _ _ _ _) Hs) as (r' & -> & Hname & _). cbn [tail] in *.
    assert (Hl : 1 <= zlen l <= 63 /\ labels_ok (labels_of r')).
    { cbn [labels_ok] in Hd. pose proof (labels_of_nonempty r'). by destruct (labels_of r'). }
    destruct Hl as [Hl Hok]. pose proof Hc as Hc'. rewrite Hname in Hc'.
    apply Forall_app_split in Hc' as [_ [_ Hc']%Forall_cons_split].
    pose proof (f_equal zlen Hname) as Hzn. rewrite zlen_app, zlen_cons in Hzn. pose proof (zlen_nonneg r') as Hr0.
    rewrite (proj2 (Z.ltb_ge 63 _)) by lia. rewrite size_bits_32 by lia. rewrite (proj2 (Z.ltb_ge buf_len _)) by lia.
    destruct (put_label_ok buf j l) as (b1 & -> & Hz & Hp & H0 & H1); [lia..|]. cbn [mbind option_bind].
    destruct (IH b1 (j + 1 + zlen l) r' (table_add table name j)) as (j2 & b2 & t2 & -> & Hw); [done | done | lia.. | | |].
    + unfold zlen in Hzn. lia.
    + intros x [Hx | ->]%table_add_entries Hlen; [|cbn in Hlen; lia].
      apply (entry_ok_mono buf j); [apply Ht; [done | lia] | lia | done].
    + exists j2, b2, t2. split; [done|]. apply (label_before_rest _ _ _ l (ch "." :: r') _ b1); done || lia.
  - rewrite (proj2 (Z.ltb_ge 63 _)) by (cbn [labels_ok] in Hd; lia). cbn [labels_ok] in Hd.
    rewrite size_bits_32 by lia. rewrite (proj2 (Z.ltb_ge buf_len _)) by lia.
    destruct (last_label_written buf buf_len j name table) as (b1 & b & -> & Hbyte & j' & buf' & E & Hw); [done.. | lia | lia|].
    cbn [mbind option_bind]. replace (j + 1 + zlen name - 1) with (j + zlen name) by lia. rewrite Hbyte.
    cbn [mbind option_bind]. exists j', buf', (table_add table name j). done.
Qed.

Lemma dnsname_to_labels_ok buf buf_len j name table :
  cstring name -> dns_name name -> zlen name <= 255 -> 0 <= j -> j + zlen name + 2 <= buf_len <= zlen buf ->
  buf_len <= 16384 -> table_ok buf j table ->
  exists j' buf' table', dnsname_to_labels buf buf_len j name table = Some (j', buf', table') /\
    name_written buf j name table buf' j' table' /\ table_ok buf' j' table'.
Proof.
  intros Hc Hd Hl Hj Hb Hm Ht. unfold dnsname_to_labels. rewrite (proj2 (Z.ltb_ge 255 _)) by lia.
  destruct (labels_loop_ok buf_len (S (length name)) buf j name table) as (j' & buf' & t' & E & Hw);
    [done.. | lia | |].
  - intros x Hx _. by apply Ht.
  - exists j', buf', t'. splits; [done | done|]. destruct Hw as [_ Hp Hr _ He].
    intros x [Hx|Hx]%He; [|done]. by apply (entry_ok_mono buf j); [apply Ht | lia|].
Qed.

End writer.

(** ** The text of a name *)

Lemma no_final_dot_app l r : r <> [] -> no_final_dot (l ++ r) = l ++ no_final_dot r.
Proof.
  intros Hr. unfold no_final_dot. rewrite last_app. destruct (last r) as [x|] eqn:E.
  - case_bool_decide; [|done]. by apply removelast_app.
  - by apply last_None in E.
Qed.

Lemma proper_nonempty r : r <> [] -> dns_name r -> proper_labels r <> [].
Proof.
  intros Hr Hd. destruct (strchr r (ch ".")) as [[l r']|] eqn:Hs.
  - unfold dns_name in Hd. rewrite strchr_labels, Hs in Hd. rewrite (proper_cons _ _ _ Hs); [done|].
    intros ->. destruct (labels_of (tail r')) eqn:E; [by apply labels_of_nonempty in E|].
    destruct Hd as [Hd _]. rewrite zlen_nil in Hd. lia.
  - unfold proper_labels. by rewrite strchr_labels, Hs, filter_cons, decide_True.
Qed.

Lemma join_labels_proper name : dns_name name -> join_labels (proper_labels name) = no_final_dot name.
Proof.
  remember (length name) as n eqn:Hn. revert name Hn.
  induction (lt_wf n) as [n _ IH]. intros name -> Hd. destruct (strchr name (ch ".")) as [[l r]|] eqn:Hs.
  - pose proof (proj1 (strchr_Some _ _ _ _) Hs) as (r' & -> & -> & _).
    unfold dns_name in Hd. rewrite strchr_labels, Hs in Hd. cbn [tail] in Hd.
    assert (Hl : l <> [] /\ dns_name r').
    { unfold dns_name. pose proof (labels_of_nonempty r'). destruct (labels_of r') as [|l' ls]; [done|].
      destruct Hd as [Hl Hd]. split; [|done]. intros ->. rewrite zlen_nil in Hl. lia. }
    destruct Hl as [Hl Hd']. rewrite (proper_cons _ _ _ Hs) by done. cbn [tail join_labels].
    destruct (decide (r' = [])) as [-> | Hr].
    + unfold no_final_dot. rewrite last_snoc, bool_decide_true by done. by rewrite removelast_last.
    + rewrite (IH (length r')) by (rewrite ?length_app; cbn [length]; done || lia).
      rewrite no_final_dot_app by done. f_equal. change (ch "." :: r') with ([ch "."] ++ r').
      rewrite no_final_dot_app by done. pose proof (proper_nonempty r' Hr Hd'). by destruct (proper_labels r').
  - unfold proper_labels, no_final_dot. rewrite strchr_labels, Hs, filter_cons, filter_nil.
    apply strchr_None in Hs. rewrite bool_decide_false.
    + by destruct (decide (name <> [])) as [|?%dec_stable]; [|subst].
    + intros H%last_Some. destruct H as [l ->]. apply Hs. apply elem_of_app. right. by left.
Qed.

Lemma no_final_dot_short name : zlen (no_final_dot name) <= zlen name.
Proof.
  unfold no_final_dot. case_bool_decide; [|done]. destruct name as [|x l _] using rev_ind; [done|].
  rewrite removelast_last, zlen_app, zlen_cons. pose proof (zlen_nonneg (@nil Z)). lia.
Qed.

(** ** The parser on any packet *)

Lemma byte_at_some p j : 0 <= j < zlen p -> exists b, byte_at p j = Some b.
Proof.
  intros H. unfold byte_at. rewrite (proj2 (Z.ltb_ge _ _)) by lia. apply lookup_lt_is_Some_2. unfold zlen in H. lia.
Qed.

Lemma byte_at_byte p j b : Forall is_byte p -> byte_at p j = Some b -> 0 <= b < 256.
Proof. intros Hp. unfold byte_at. destruct (j <? 0); [done|]. apply (Forall_lookup_1 _ _ _ _ Hp). Qed.

Lemma name_parse_loop_safe p length out_len fuel : Forall is_byte p -> length + 63 <= zlen p ->
  forall j name_end ptr_count name,
  0 <= j -> -1 <= name_end <= length -> 0 <= ptr_count <= Z.max 0 length ->
  (Z.to_nat (Z.max 0 length - ptr_count) + Z.to_nat (out_len - zlen name) < fuel)%nat ->
  exists r, name_parse_loop fuel p length out_len j name_end ptr_count name = Some r /\
    forall e nm, r = Some (e, nm) -> zlen nm < out_len /\ (if name_end <? 0 then j < e <= length else e = name_end).
Proof.
  intros Hp Hlen. induction fuel as [|fuel IH]; intros j name_end ptr_count name Hj He Hc Hf; [lia|].
  cbn [name_parse_loop]. destruct (Z.leb_spec length j); [by exists None|].
  destruct (byte_at_some p j) as [b Hb]; [lia|]. rewrite Hb. cbn [mbind option_bind].
  pose proof (byte_at_byte _ _ _ Hp Hb) as Hr. cbv zeta.
  destruct (Z.eqb_spec b 0) as [_|Hb0].
  { destruct (Z.leb_spec out_len (zlen name)) as [?|Hshort]; [by exists None|]. eexists. split; [done|]. intros e nm [= <- <-].
    split; [done|]. destruct (name_end <? 0); [lia | done]. }
  destruct (Z.eqb_spec (Z.land b 0xc0) 0) as [_|_]; cbn [negb].
  - destruct (Z.ltb_spec 63 b); [by exists None|]. destruct (bool_decide _ && _); [by exists None|].
    set (name' := if bool_decide (name <> []) then name ++ [ch "."] else name).
    assert (zlen name <= zlen name') by (subst name'; case_bool_decide; rewrite ?zlen_app, ?zlen_cons, ?zlen_nil; lia).
    destruct (Z.leb_spec out_len (zlen name' + b)); [by exists None|].
    rewrite mem_read_Some by lia. cbn [mbind option_bind].
    destruct (IH (j + 1 + b) name_end ptr_count (name' ++ ztake b (zdrop (j + 1) p))) as (r & E & Hres); [lia..| |].
    { rewrite zlen_app, zlen_ztake by (rewrite zlen_zdrop; lia). pose proof (zlen_nonneg name). lia. }
    exists r. split; [done|]. intros e nm ->. destruct (Hres e nm eq_refl) as [? He']. split; [done|].
    destruct (name_end <? 0); lia.
  - destruct (Z.leb_spec length (j + 1)); [by exists None|].
    destruct (byte_at_some p (j + 1)) as [lo Hlo]; [lia|]. rewrite Hlo. cbn [mbind option_bind].
    set (t := Z.shiftl _ 8 + lo). destruct (_ || _) eqn:Ht; [by exists None|]. bool_to_prop.
    destruct (Z.ltb_spec length (ptr_count + 1)); [by exists None|].
    destruct (IH t (if name_end <? 0 then j + 1 + 1 else name_end) (ptr_count + 1) name) as (r & E & Hres);
      [lia | destruct (name_end <? 0); lia | lia | lia|].
    exists r. split; [done|]. intros e nm ->. destruct (Hres e nm eq_refl) as [? He']. split; [done|].
    destruct (Z.ltb_spec name_end 0); [|by rewrite (proj2 (Z.ltb_ge name_end 0)) in He' by lia].
    rewrite (proj2 (Z.ltb_ge (j + 1 + 1) 0)) in He' by lia. lia.
Qed.

Lemma name_parse_safe p length idx out_len :
  Forall is_byte p -> length + 63 <= zlen p -> 0 <= idx ->
  exists r, name_parse p length idx out_len = Some r /\
    forall e nm, r = Some (e, nm) -> zlen nm < out_len /\ idx < e <= length.
Proof.
  intros Hp Hl Hi. unfold name_parse. destruct (Z.leb_spec length idx) as [Hle|Hlt].
  - exists None. split; [|done]. destruct (_ + 2)%nat eqn:E; [lia|]. cbn [name_parse_loop].
    by rewrite (proj2 (Z.leb_le _ _)).
  - destruct (name_parse_loop_safe p length out_len (Z.to_nat (Z.max 0 length) + Z.to_nat (Z.max 0 out_len) + 2)
      Hp Hl idx (-1) 0 []) as (r & E & H); [lia | lia | lia | change (zlen []) with 0; lia |].
    exists r. done.
Qed.
