(* ===== verification/DnsPacket.v ===== *)
(** What arrives in DNS packets ([evdns.c]): the numbers in a packet, the structs of
    requests and replies, and [reply_parse], which reads the answer of a name server
    to a request.

    A parser gives [None] for undefined behaviour and [Some None] for the jump to
    [err]. *)

From S2P Require Import Prelude EvChain Cstring UriCoding Dns.

(** ** Numbers in packets *)

Notation parse T := (option (option T)).

Definition pbind {T U} (m : parse T) (k : T -> parse U) : parse U :=
  match m with None => None | Some None => Some None | Some (Some x) => k x end.

Declare Scope dns_scope.
Notation "' p <~ m ; k" := (pbind m (fun p => k)) (at level 20, p pattern, m at level 100, k at level 200,
  format "' p  <~  m ;  '/' k") : dns_scope.
#[local] Open Scope dns_scope.

Definition ok {T} (x : T) : parse T := Some (Some x).

(** The value of bytes in network order. *)
Definition be_value (d : list Z) : Z := fold_left (fun v b => v * 256 + b) d 0.

(** [GET16] and [GET32]: the value, and the position after it. *)
Definition GET (n : Z) (packet : list Z) (length j : Z) : parse (Z * Z) :=
  if length <? j + n then Some None else d ← mem_read packet j n; ok (be_value d, j + n).
Definition GET16 : list Z -> Z -> Z -> parse (Z * Z) := GET 2.
Definition GET32 : list Z -> Z -> Z -> parse (Z * Z) := GET 4.

(** The counts at the start of a packet. *)
Record dns_header := {
  h_trans_id : Z; h_flags : Z; h_questions : Z; h_answers : Z; h_authority : Z; h_additional : Z }.

Definition get_header (packet : list Z) (length : Z) : parse (dns_header * Z) :=
  '(trans_id, j) <~ GET16 packet length 0;
  '(flags, j) <~ GET16 packet length j;
  '(questions, j) <~ GET16 packet length j;
  '(answers, j) <~ GET16 packet length j;
  '(authority, j) <~ GET16 packet length j;
  '(additional, j) <~ GET16 packet length j;
  ok ({| h_trans_id := trans_id; h_flags := flags; h_questions := questions; h_answers := answers;
         h_authority := authority; h_additional := additional |}, j).

(** ** Requests and replies *)

Definition MAX_V4_ADDRS : Z := 32.
Definition MAX_V6_ADDRS : Z := 32.
Definition HOST_NAME_MAX : Z := 255.
Definition DNS_ERR_NOTEXIST : Z := 3.

(** The callback of a request with its argument: one of the application, or the one of
    a probe of a name server. *)
Inductive dns_callback := Callback (id : nat) | Probe (server : nat).

(** [struct request]: name servers and handles are numbers, the list pointers are left to
    the lists, and [timeout_event] says whether the timer runs.  [put_cname_in_ptr] holds
    what it points to. *)
Record request := {
  packet : list Z;
  request_type : Z;
  request_len : Z;
  reissue_count : Z;
  tx_count : Z;
  user_callback : dns_callback;
  ns : option nat;
  timeout_event : bool;
  trans_id : Z;
  transmit_me : bool;
  put_cname_in_ptr : option (option (list Z));
  handle : option nat }.

#[export] Instance settable_request : Settable request := fun r =>
  {| packet := packet r; request_type := request_type r; request_len := request_len r;
     reissue_count := reissue_count r; tx_count := tx_count r; user_callback := user_callback r; ns := ns r;
     timeout_event := timeout_event r; trans_id := trans_id r; transmit_me := transmit_me r; put_cname_in_ptr := put_cname_in_ptr r;
     handle := handle r |}.

(** [struct reply]; which members of the union are in use is decided by [type]. *)
Record reply := {
  type : Z;
  have_answer : bool;
  addrcount : Z;
  addresses : list Z;
  ptr_name : list Z }.

#[export] Instance settable_reply : Settable reply := fun r =>
  {| type := type r; have_answer := have_answer r; addrcount := addrcount r; addresses := addresses r;
     ptr_name := ptr_name r |}.

(** ** Replies of a name server *)

(** What the loop over the answers carries. *)
Record reply_state := {
  rs_j : Z;
  rs_ttl_r : Z;
  rs_reply : reply;
  rs_cname : option (option (list Z)) }.

#[export] Instance settable_reply_state : Settable reply_state := fun s =>
  {| rs_j := rs_j s; rs_ttl_r := rs_ttl_r s; rs_reply := rs_reply s; rs_cname := rs_cname s |}.

(** How an iteration ends. *)
Inductive flow := Continue | Break | Fail.

Section reply.
Context {M : Allocator}.

(** [TEST_NAME]: the position after the name, and whether it is the one that was asked for. *)
Definition TEST_NAME (randomize_case : bool) (req : request) (pkt : list Z) (length j : Z) : parse (Z * bool) :=
  '(j', tmp_name) <~ name_parse pkt length j 256;
  '(_, cmp_name) <~ name_parse (packet req) (request_len req) j 256;
  ok (j', if randomize_case then bool_decide (cstr tmp_name = cstr cmp_name)
          else evutil_ascii_strcasecmp (cstr tmp_name) (cstr cmp_name) =? 0).

(** The loop over the questions of the reply. *)
Fixpoint test_questions (n : nat) (randomize_case : bool) (req : request) (pkt : list Z) (length j : Z)
    (name_matches : bool) : parse (Z * bool) :=
  match n with
  | O => ok (j, name_matches)
  | S n' =>
    '(j, m) <~ TEST_NAME randomize_case req pkt length j;
    if length <? j + 4 then Some None else
    test_questions n' randomize_case req pkt length (j + 4) (name_matches || m)
  end.

(** The record of [A] and of [AAAA] answers, with addresses of [size] bytes. *)
Definition get_addresses (size max_addrs ttl datalength : Z) (pkt : list Z) (length : Z) (s : reply_state)
  : parse (flow * reply_state) :=
  let r := rs_reply s in
  if negb (Z.land datalength (size - 1) =? 0) then Some None else
  let addrtocopy := Z.min (max_addrs - addrcount r) (Z.shiftr datalength (Z.log2 size)) in
  if length <? rs_j s + size * addrtocopy then Some None else
  d ← mem_read pkt (rs_j s) (size * addrtocopy);
  let r := r <| addresses := addresses r ++ d |> <| addrcount := addrcount r + addrtocopy |>
             <| have_answer := true |> in
  ok (if addrcount r =? max_addrs then Break else Continue,
      s <| rs_ttl_r := Z.min (rs_ttl_r s) ttl |> <| rs_j := rs_j s + size * addrtocopy |> <| rs_reply := r |>).

(** One answer. *)
Definition get_answer (req : request) (pkt : list Z) (length : Z) (s : reply_state) : parse (flow * reply_state) :=
  '(j, _) <~ name_parse pkt length (rs_j s) 256;
  '(ty, j) <~ GET16 pkt length j;
  '(class, j) <~ GET16 pkt length j;
  '(ttl, j) <~ GET32 pkt length j;
  '(datalength, j) <~ GET16 pkt length j;
  let skip := ok (Continue, s <| rs_j := j + datalength |>) in
  if (ty =? TYPE_A) && (class =? CLASS_INET) then
    if negb (request_type req =? TYPE_A) then skip else
    get_addresses 4 MAX_V4_ADDRS ttl datalength pkt length (s <| rs_j := j |>)
  else if (ty =? TYPE_PTR) && (class =? CLASS_INET) then
    if negb (request_type req =? TYPE_PTR) then skip else
    '(j, name) <~ name_parse pkt length j HOST_NAME_MAX;
    ok (Break, s <| rs_j := j |> <| rs_ttl_r := Z.min (rs_ttl_r s) ttl |>
                 <| rs_reply := (rs_reply s) <| ptr_name := name |> <| have_answer := true |> |>)
  else if ty =? TYPE_CNAME then
    match rs_cname s with
    | Some None =>
      '(j, cname) <~ name_parse pkt length j HOST_NAME_MAX;
      ok (Continue, s <| rs_j := j |> <| rs_cname := Some (mm_strdup (cstr cname)) |>)
    | _ => skip
    end
  else if (ty =? TYPE_AAAA) && (class =? CLASS_INET) then
    if negb (request_type req =? TYPE_AAAA) then skip else
    get_addresses 16 MAX_V6_ADDRS ttl datalength pkt length (s <| rs_j := j |>)
  else skip.

(** The loop over the answers; a failure keeps what the answers before it left. *)
Fixpoint get_answers (n : nat) (req : request) (pkt : list Z) (length : Z) (s : reply_state)
  : option (flow * reply_state) :=
  match n with
  | O => Some (Continue, s)
  | S n' =>
    o ← get_answer req pkt length s;
    match o with
    | None => Some (Fail, s)
    | Some (Continue, s) => get_answers n' req pkt length s
    | Some (f, s) => Some (f, s)
    end
  end.

(** The loop over the authority section: the position and the time to live. *)
Fixpoint get_authority (n : nat) (pkt : list Z) (length j ttl_r : Z) : parse (Z * Z) :=
  match n with
  | O => ok (j, ttl_r)
  | S n' =>
    '(j, _) <~ name_parse pkt length j 256;
    '(ty, j) <~ GET16 pkt length j;
    '(class, j) <~ GET16 pkt length j;
    '(ttl, j) <~ GET32 pkt length j;
    '(datalength, j) <~ GET16 pkt length j;
    if (ty =? TYPE_SOA) && (class =? CLASS_INET) then
      '(j, _) <~ name_parse pkt length j 256;
      '(j, _) <~ name_parse pkt length j 256;
      '(serial, j) <~ GET32 pkt length j;
      '(refresh, j) <~ GET32 pkt length j;
      '(retry, j) <~ GET32 pkt length j;
      '(expire, j) <~ GET32 pkt length j;
      '(minimum, j) <~ GET32 pkt length j;
      get_authority n' pkt length j (Z.min (Z.min ttl_r ttl) minimum)
    else get_authority n' pkt length (j + datalength) ttl_r
  end.

(** The call of [reply_handle]. *)
Record handled_reply := { rc_request : request; rc_flags : Z; rc_ttl : Z; rc_reply : option reply }.

Definition reply_failed (req : request) (flags : Z) : Z * option handled_reply :=
  (-1, Some {| rc_request := req; rc_flags := flags; rc_ttl := 0; rc_reply := None |}).

(** What follows the check of the header: the sections of the packet. *)
Definition reply_sections (randomize_case : bool) (req : request) (h : dns_header) (pkt : list Z) (length j : Z)
  : option (Z * option handled_reply) :=
  let r := {| type := request_type req; have_answer := false; addrcount := 0; addresses := []; ptr_name := [] |} in
  q ← test_questions (Z.to_nat (h_questions h)) randomize_case req pkt length j false;
  match q with
  | Some (j, true) =>
    '(f, s) ← get_answers (Z.to_nat (h_answers h)) req pkt length
        {| rs_j := j; rs_ttl_r := UINT32_MAX; rs_reply := r; rs_cname := put_cname_in_ptr req |};
    let req := req <| put_cname_in_ptr := rs_cname s |> in
    match f with
    | Fail => Some (reply_failed req (h_flags h))
    | _ =>
      a ← (if have_answer (rs_reply s) then Some (Some (rs_j s, rs_ttl_r s))
           else get_authority (Z.to_nat (h_authority h)) pkt length (rs_j s) (rs_ttl_r s));
      match a with
      | None => Some (reply_failed req (h_flags h))
      | Some (_, ttl_r) =>
        Some (0, Some {| rc_request := req; rc_flags := h_flags h;
                         rc_ttl := if ttl_r =? UINT32_MAX then 0 else ttl_r; rc_reply := Some (rs_reply s) |})
      end
    end
  | _ => Some (reply_failed req (h_flags h))
  end.

(** The result, and the call of [reply_handle] if there is one.
    [request_find_from_trans_id] looks a request up. *)
Definition reply_parse (request_find_from_trans_id : Z -> option request) (randomize_case : bool)
    (pkt : list Z) (length : Z) : option (Z * option handled_reply) :=
  o ← get_header pkt length;
  match o with
  | None => Some (-1, None)
  | Some (h, j) =>
    match request_find_from_trans_id (h_trans_id h) with
    | None => Some (-1, None)
    | Some req =>
      if Z.land (h_flags h) 0x8000 =? 0 then Some (-1, None) else
      let e := Z.land (h_flags h) 0x020f in
      if negb (e =? 0) && negb (e =? DNS_ERR_NOTEXIST) then Some (reply_failed req (h_flags h)) else
      reply_sections randomize_case req h pkt length j
    end
  end.
End reply.
