(* ===== verification/DnsServer.v ===== *)
(** A DNS server port ([evdns.c]): requests as they are parsed and given to the
    application, the answers it adds, the response that is formatted, sent, or kept
    until the socket is writable again.

    A request belongs to the application from its callback until
    [evdns_server_request_respond] or [_drop]; after that to the list of pending
    replies of its port, or to nobody. *)

From S2P Require Import Prelude EvChain Cstring UriCoding EventData Dns DnsPacket.
#[local] Open Scope dns_scope.

Definition EVDNS_ANSWER_SECTION : Z := 0.
Definition EVDNS_AUTHORITY_SECTION : Z := 1.
Definition EVDNS_ADDITIONAL_SECTION : Z := 2.
Definition EVDNS_FLAGS_AA : Z := 0x400.
Definition EVDNS_FLAGS_RD : Z := 0x080.
Definition DNS_ERR_NOTIMPL : Z := 4.

(** ** Data *)

Record evdns_server_question := { q_type : Z; q_class : Z; q_name : list Z }.

(** [struct server_reply_item]; [i_data] is NULL or a block. *)
Record server_reply_item := {
  i_name : list Z;
  i_type : Z;
  i_class : Z;
  i_ttl : Z;
  i_is_name : bool;
  i_datalen : Z;
  i_data : option (list Z) }.

(** [struct server_request]: the linked lists are lists. *)
Record server_request := {
  sr_trans_id : Z;
  addr : list Z;
  n_answer : Z;
  n_authority : Z;
  n_additional : Z;
  answer : list server_reply_item;
  authority : list server_reply_item;
  additional : list server_reply_item;
  response : option (list Z);
  sr_flags : Z;
  questions : list evdns_server_question }.

#[export] Instance settable_server_request : Settable server_request := fun r =>
  {| sr_trans_id := sr_trans_id r; addr := addr r; n_answer := n_answer r; n_authority := n_authority r;
     n_additional := n_additional r; answer := answer r; authority := authority r; additional := additional r;
     response := response r; sr_flags := sr_flags r; questions := questions r |}.

(** [struct evdns_server_port]: [pending_replies] in the order of the circular list,
    [watching] the events last asked for, [attempts] the calls of [sendto] so far. *)
Record evdns_server_port := {
  refcnt : Z;
  choked : bool;
  closing : bool;
  pending_replies : list server_request;
  watching : Z;
  attempts : list (list Z * list Z);
  freed : bool }.

#[export] Instance settable_evdns_server_port : Settable evdns_server_port := fun p =>
  {| refcnt := refcnt p; choked := choked p; closing := closing p; pending_replies := pending_replies p;
     watching := watching p; attempts := attempts p; freed := freed p |}.

(** What a call of [sendto] does: it sends, it must be tried again, or it fails. *)
Inductive send_result := Sent | Retry | Failed.

(** The structs that are allocated; their sizes depend on the target. *)
Inductive dns_struct := struct_question | struct_server_request | struct_server_reply_item.

(** ** Requests *)

Section server.
Context {A : Arch} {M : Allocator} (sizeof : dns_struct -> Z).

(** What [request_parse] does with a request: nothing, an answer that it is not
    implemented, or the callback of the application. *)
Inductive request_outcome :=
| Dropped
| Answered (req : server_request) (err : Z)
| Called (req : server_request).

(** The loop over the questions. *)
Fixpoint get_questions (n : nat) (pkt : list Z) (length j : Z) : parse (list evdns_server_question) :=
  match n with
  | O => ok []
  | S n' =>
    '(j, tmp_name) <~ name_parse pkt length j 256;
    '(type, j) <~ GET16 pkt length j;
    '(class, j) <~ GET16 pkt length j;
    let name := cstr tmp_name in
    match mm_malloc (sizeof struct_question + zlen name) with
    | None => Some None
    | Some _ => 'qs <~ get_questions n' pkt length j;
                ok ({| q_type := type; q_class := class; q_name := name |} :: qs)
    end
  end.

Definition request_parse (pkt : list Z) (length : Z) (from : list Z) : option (Z * request_outcome) :=
  o ← get_header pkt length;
  match o with
  | None => Some (-1, Dropped)
  | Some (h, j) =>
    if negb (Z.land (h_flags h) 0x8000 =? 0) then Some (-1, Dropped) else
    let flags := Z.land (h_flags h) 0x0110 in
    match mm_malloc (sizeof struct_server_request) with
    | None => Some (-1, Dropped)
    | Some _ =>
      match mm_malloc (size_bits / 8 * h_questions h) with
      | None => Some (-1, Dropped)
      | Some _ =>
        qs ← get_questions (Z.to_nat (h_questions h)) pkt length j;
        match qs with
        | None => Some (-1, Dropped)
        | Some qs =>
          let req := {| sr_trans_id := h_trans_id h; addr := from; n_answer := 0; n_authority := 0; n_additional := 0;
                        answer := []; authority := []; additional := []; response := None; sr_flags := flags;
                        questions := qs |} in
          if negb (Z.land flags 0x7800 =? 0) then Some (-1, Answered req DNS_ERR_NOTIMPL) else Some (0, Called req)
        end
      end
    end
  end.

(** ** Answers *)

(** The item that is appended, or a failed allocation; [data] is the memory from the
    pointer on. *)
Definition reply_item (name : list Z) (type class ttl datalen : Z) (is_name : bool) (data : option (list Z))
  : parse server_reply_item :=
  match mm_malloc (sizeof struct_server_reply_item), mm_strdup name with
  | None, _ | _, None => Some None
  | Some _, Some name =>
    let item := fun datalen d => {| i_name := name; i_type := wrap 16 type; i_class := wrap 16 class;
                                    i_ttl := wrap 32 ttl; i_is_name := is_name; i_datalen := datalen; i_data := d |} in
    match data with
    | None => ok (item 0 None)
    | Some data =>
      if is_name then
        match mm_strdup (cstr data) with
        | None => Some None
        | Some d => ok (item (wrap 16 (-1)) (Some d))
        end
      else
        match mm_malloc (wrap size_bits datalen) with
        | None => Some None
        | Some _ => d ← mem_read data 0 (wrap size_bits datalen); ok (item (wrap 16 datalen) (Some d))
        end
    end
  end.

Definition evdns_server_request_add_reply (req : server_request) (section : Z) (name : list Z)
    (type class ttl datalen is_name : Z) (data : option (list Z)) : option (Z * server_request) :=
  match response req with
  | Some _ => Some (-1, req)
  | None =>
    if negb ((section =? EVDNS_ANSWER_SECTION) || (section =? EVDNS_AUTHORITY_SECTION)
             || (section =? EVDNS_ADDITIONAL_SECTION)) then Some (-1, req) else
    o ← reply_item name type class ttl datalen (negb (is_name =? 0)) data;
    Some match o with
         | None => (-1, req)
         | Some item =>
           (0, if section =? EVDNS_ANSWER_SECTION then
                 req <| answer := answer req ++ [item] |> <| n_answer := n_answer req + 1 |>
               else if section =? EVDNS_AUTHORITY_SECTION then
                 req <| authority := authority req ++ [item] |> <| n_authority := n_authority req + 1 |>
               else req <| additional := additional req ++ [item] |> <| n_additional := n_additional req + 1 |>)
         end
  end.

Definition evdns_server_request_add_a_reply (req : server_request) (name : list Z) (n : Z) (addrs : list Z) (ttl : Z)
  : option (Z * server_request) :=
  evdns_server_request_add_reply req EVDNS_ANSWER_SECTION name TYPE_A CLASS_INET ttl (n * 4) 0 (Some addrs).

Definition evdns_server_request_add_aaaa_reply (req : server_request) (name : list Z) (n : Z) (addrs : list Z) (ttl : Z)
  : option (Z * server_request) :=
  evdns_server_request_add_reply req EVDNS_ANSWER_SECTION name TYPE_AAAA CLASS_INET ttl (n * 16) 0 (Some addrs).

(** The name under which an address is looked up: its bytes, the last one first. *)
Definition in_addr_name (a : Z) : list Z :=
  print_d (Z.land a 0xff) ++ ch "." :: print_d (Z.land (Z.shiftr a 8) 0xff) ++ ch "."
    :: print_d (Z.land (Z.shiftr a 16) 0xff) ++ ch "." :: print_d (Z.land (Z.shiftr a 24) 0xff) ++ bytes_of ".in-addr.arpa".

(** [addr] holds the four bytes of the address. *)
Definition evdns_server_request_add_ptr_reply (req : server_request) (addr : option (list Z))
    (inaddr_name : option (list Z)) (hostname : list Z) (ttl : Z) : option (Z * server_request) :=
  let add := fun name => evdns_server_request_add_reply req EVDNS_ANSWER_SECTION name TYPE_PTR CLASS_INET ttl (-1) 1 (Some hostname) in
  match addr, inaddr_name with
  | Some _, Some _ | None, None => Some (-1, req)
  | Some a, None => add (in_addr_name (be_value a))
  | None, Some name => add name
  end.

Definition evdns_server_request_add_cname_reply (req : server_request) (name cname : list Z) (ttl : Z)
  : option (Z * server_request) :=
  evdns_server_request_add_reply req EVDNS_ANSWER_SECTION name TYPE_CNAME CLASS_INET ttl (-1) 1 (Some cname).

Definition evdns_server_request_set_flags (req : server_request) (flags : Z) : server_request :=
  req <| sr_flags := Z.lor (Z.ldiff (sr_flags req) (Z.lor EVDNS_FLAGS_AA EVDNS_FLAGS_RD)) flags |>.

(** ** The response *)

(** The buffer so far, the position and the table; or the jump to [overflow]; or the
    negative result that is returned. *)
Inductive formatted :=
| Written (buf : list Z) (j : Z) (table : option dnslabel_table)
| Overflow (buf : list Z)
| Refused (r : Z).

Definition RESPONSE_SIZE : Z := 1500.

Definition append_or (buf : list Z) (j : Z) (l : list (list Z)) (k : list Z -> Z -> option formatted) : option formatted :=
  '(ok, buf, j) ← append_all buf RESPONSE_SIZE j l;
  if ok : bool then k buf j else Some (Overflow buf).

(** The loop over the questions. *)
Fixpoint put_questions (qs : list evdns_server_question) (buf : list Z) (j : Z) (table : option dnslabel_table)
  : option formatted :=
  match qs with
  | [] => Some (Written buf j table)
  | q :: qs' =>
    '(j, buf, table) ← dnsname_to_labels buf RESPONSE_SIZE j (q_name q) table;
    if j <? 0 then Some (Refused j) else
    append_or buf j [be16 (q_type q); be16 (q_class q)] (fun buf j => put_questions qs' buf j table)
  end.

(** The data of an item. *)
Definition put_data (item : server_reply_item) (buf : list Z) (j : Z) (table : option dnslabel_table)
  : option formatted :=
  if i_is_name item then
    d ← i_data item;
    let name_start := j + 2 in
    '(r, buf, table) ← dnsname_to_labels buf RESPONSE_SIZE name_start d table;
    if r <? 0 then Some (Overflow buf) else
    buf ← mem_write buf j (be16 (r - name_start)); Some (Written buf r table)
  else
    append_or buf j [be16 (i_datalen item)] (fun buf j =>
      if RESPONSE_SIZE <? j + i_datalen item then Some (Overflow buf) else
      d ← mem_read (default [] (i_data item)) 0 (i_datalen item);
      buf ← mem_write buf j d; Some (Written buf (j + i_datalen item) table)).

Definition put_item (item : server_reply_item) (buf : list Z) (j : Z) (table : option dnslabel_table)
  : option formatted :=
  '(r, buf, table) ← dnsname_to_labels buf RESPONSE_SIZE j (i_name item) table;
  if r <? 0 then Some (Overflow buf) else
  append_or buf r [be16 (i_type item); be16 (i_class item); be32 (i_ttl item)]
    (fun buf j => put_data item buf j table).

(** The items of the three sections, one after the other. *)
Fixpoint put_items (items : list server_reply_item) (buf : list Z) (j : Z) (table : option dnslabel_table)
  : option formatted :=
  match items with
  | [] => Some (Written buf j table)
  | item :: items' =>
    f ← put_item item buf j table;
    match f with
    | Written buf j table => put_items items' buf j table
    | _ => Some f
    end
  end.

Definition server_request_free_answers (req : server_request) : server_request :=
  req <| answer := [] |> <| authority := [] |> <| additional := [] |>.

(** The whole packet before the check of its length. *)
Definition format_packet (req : server_request) (err : Z) (buf : list Z) : option formatted :=
  let flags := wrap 16 (Z.lor (wrap 16 (sr_flags req)) (Z.lor 0x8000 err)) in
  append_or buf 0 (map be16 [sr_trans_id req; flags; zlen (questions req);
                             n_answer req; n_authority req; n_additional req]) (fun buf j =>
    f ← put_questions (questions req) buf j (Some dnslabel_table_init);
    match f with
    | Written buf j table => put_items (answer req ++ authority req ++ additional req) buf j table
    | _ => Some f
    end).

(** A packet of more than 512 bytes, or one that does not fit in the buffer, is cut to
    512 bytes with the truncated bit. *)
Definition cut_bytes (buf : list Z) : option (list Z) :=
  b ← byte_at buf 2;
  buf ← mem_write buf 2 [Z.lor b 0x02];
  mem_read buf 0 512.

(** [stack] is the uninitialised buffer. *)
Definition evdns_server_request_format_response (req : server_request) (err : Z) (stack : list Z)
  : option (Z * server_request) :=
  if (err <? 0) || (15 <? err) then Some (-1, req) else
  f ← format_packet req err stack;
  match f with
  | Refused r => Some (r, req)
  | Written _ _ _ | Overflow _ =>
    d ← match f with
        | Written buf j _ => if 512 <? j then cut_bytes buf else mem_read buf 0 j
        | Overflow buf => cut_bytes buf
        | Refused _ => None
        end;
    match mm_malloc (zlen d) with
    | None => Some (-1, server_request_free_answers req)
    | Some _ => Some (0, server_request_free_answers (req <| response := Some d |>))
    end
  end.

(** ** The port *)

(** The result of the [n]-th call of [sendto]. *)
Context (net : nat -> send_result).

Definition evdns_add_server_port_with_base : evdns_server_port :=
  {| refcnt := 1; choked := false; closing := false; pending_replies := []; watching := Z.lor EV_READ EV_PERSIST;
     attempts := []; freed := false |}.

(** [sendto] of the response of a request. *)
Definition send_reply (port : evdns_server_port) (req : server_request) : option (send_result * evdns_server_port) :=
  d ← response req;
  Some (net (length (attempts port)), port <| attempts := attempts port ++ [(d, addr req)] |>).

(** The two assertions, and the end of the port. *)
Definition server_port_free (port : evdns_server_port) : option evdns_server_port :=
  if (refcnt port =? 0) && bool_decide (pending_replies port = [])
  then Some (port <| watching := 0 |> <| freed := true |>) else None.

(** Of a request that is the first pending one, or none of them; did the port go
    with it? *)
Definition server_request_free (first_pending : bool) (port : evdns_server_port)
  : option (bool * evdns_server_port) :=
  let port := if first_pending then port <| pending_replies := tail (pending_replies port) |> else port in
  let port := port <| refcnt := refcnt port - 1 |> in
  if refcnt port =? 0 then port ← server_port_free port; Some (true, port) else Some (false, port).

(** The loop of [server_port_flush] over the pending replies; [true] when none is
    left. *)
Fixpoint flush_loop (reqs : list server_request) (port : evdns_server_port) : option (bool * evdns_server_port) :=
  match reqs with
  | [] => Some (true, port)
  | req :: reqs' =>
    '(r, port) ← send_reply port req;
    match r with
    | Retry => Some (false, port)
    | _ =>
      '(last_one, port) ← server_request_free true port;
      if last_one : bool then Some (false, port) else flush_loop reqs' port
    end
  end.

Definition server_port_flush (port : evdns_server_port) : option evdns_server_port :=
  '(empty, port) ← flush_loop (pending_replies port) port;
  Some (if empty : bool then port <| watching := Z.lor EV_READ EV_PERSIST |> else port).

(** The result, the request if the application still owns it, and the port. *)
Definition evdns_server_request_respond (req : server_request) (err : Z) (stack : list Z) (port : evdns_server_port)
  : option (Z * option server_request * evdns_server_port) :=
  '(r, req) ← match response req with
              | Some _ => Some (0, req)
              | None => evdns_server_request_format_response req err stack
              end;
  if r <? 0 then Some (r, Some req, port) else
  '(res, port) ← send_reply port req;
  match res with
  | Sent =>
    '(last_one, port) ← server_request_free false port;
    if last_one : bool then Some (0, None, port) else
    match pending_replies port with
    | [] => Some (0, None, port)
    | _ => port ← server_port_flush port; Some (0, None, port)
    end
  | Retry => Some (-1, Some req, port)
  | Failed =>
    match pending_replies port with
    | [] =>
      Some (1, None, port <| pending_replies := [req] |> <| choked := true |>
              <| watching := Z.lor (Z.lor (if closing port then 0 else EV_READ) EV_WRITE) EV_PERSIST |>)
    | _ => Some (1, None, port <| pending_replies := pending_replies port ++ [req] |>)
    end
  end.

Definition evdns_server_request_drop (port : evdns_server_port) : option (bool * evdns_server_port) :=
  server_request_free false port.

Definition evdns_server_request_get_requesting_addr (req : server_request) (addr_len : Z) : Z * option (list Z) :=
  if addr_len <? zlen (addr req) then (-1, None) else (zlen (addr req), Some (addr req)).

Definition evdns_close_server_port (port : evdns_server_port) : option evdns_server_port :=
  let port := port <| refcnt := refcnt port - 1 |> in
  if refcnt port =? 0 then server_port_free port else Some (port <| closing := true |>).

(** ** Reading *)

(** The callback of the application, which answers requests, drops them or keeps them. *)
Context (user_callback : server_request -> evdns_server_port -> option evdns_server_port) (stack : list Z).

(** One packet: the request and the reference it takes on the port. *)
Definition server_port_packet (pkt : list Z) (length : Z) (from : list Z) (port : evdns_server_port)
  : option evdns_server_port :=
  '(_, o) ← request_parse pkt length from;
  match o with
  | Dropped => Some port
  | Answered req err =>
    '(_, _, port) ← evdns_server_request_respond req err stack (port <| refcnt := refcnt port + 1 |>); Some port
  | Called req => user_callback req (port <| refcnt := refcnt port + 1 |>)
  end.

(** The loop of [server_port_read] over what [recvfrom] gives until it fails: the
    block of 1500 bytes, the length received, the sender.  Each call reads the socket
    from the port, which must still be there. *)
Fixpoint server_port_read (received : list (list Z * Z * list Z)) (port : evdns_server_port) : option evdns_server_port :=
  if freed port then None else
  match received with
  | [] => Some port
  | (pkt, length, from) :: received' =>
    port ← server_port_packet pkt length from port; server_port_read received' port
  end.

Definition server_port_ready_callback (events : Z) (received : list (list Z * Z * list Z)) (port : evdns_server_port)
  : option evdns_server_port :=
  port ← (if negb (Z.land events EV_WRITE =? 0) then server_port_flush (port <| choked := false |>) else Some port);
  if negb (Z.land events EV_READ =? 0) then server_port_read received port else Some port.
End server.
