(* ===== verification/DnsWire.v ===== *)
(** Packets that are written and read back ([Dns], [DnsPacket], [DnsServer]): what a
    block holds at a position, the numbers and headers, names with and without
    compression, and the query of a client as the server parses it. *)

From S2P Require Import Prelude EvChain Cstring UriCoding EventData Evbuffer EvbufferSpec EvbufferProps Dns DnsPacket DnsServer DnsSpec.
#[local] Open Scope dns_scope.

(** ** Blocks *)

(** The block holds the bytes [d] at [j]. *)
Definition holds (p : list Z) (j : Z) (d : list Z) : Prop := mem_read p j (zlen d) = Some d.

Lemma holds_range p j d : holds p j d -> 0 <= j /\ j + zlen d <= zlen p.
Proof. intros (? & ? & ? & _)%mem_read_inv. lia. Qed.

Lemma holds_app p j d d' : holds p j (d ++ d') -> holds p j d /\ holds p (j + zlen d) d'.
Proof.
  unfold holds. rewrite zlen_app. intros (Hj & Hl & Hz & E)%mem_read_inv.
  pose proof (zlen_nonneg d). pose proof (zlen_nonneg d'). rewrite !mem_read_Some by lia. split; f_equal.
  - apply (f_equal (ztake (zlen d))) in E. rewrite ztake_exact in E by done. by rewrite ztake_ztake in E by lia.
  - apply (f_equal (zdrop (zlen d))) in E. rewrite zdrop_exact in E by done.
    rewrite zdrop_ztake, zdrop_zdrop in E by lia. by replace (zlen d') with (zlen d + zlen d' - zlen d) by lia.
Qed.

Lemma holds_prefix n p p' j d : ztake n p = ztake n p' -> j + zlen d <= n -> holds p j d -> holds p' j d.
Proof. apply mem_read_prefix. Qed.

Lemma holds_written m pos d :
  0 <= pos -> pos + zlen d <= zlen m ->
  exists m', mem_write m pos d = Some m' /\ zlen m' = zlen m /\ ztake pos m' = ztake pos m /\ holds m' pos d.
Proof. apply mem_write_ok. Qed.

Lemma holds_cat m j d d' : holds m j d -> holds m (j + zlen d) d' -> holds m j (d ++ d').
Proof.
  intros (Hj & Hl & Hz & E)%mem_read_inv (_ & Hl' & Hz' & E')%mem_read_inv.
  unfold holds. rewrite zlen_app, mem_read_Some by lia. f_equal.
  transitivity (ztake (zlen d) (zdrop j m) ++ ztake (zlen d') (zdrop (j + zlen d) m)); [|by rewrite <- E, <- E'].
  rewrite <- zdrop_zdrop by lia. unfold ztake. rewrite Z2Nat.inj_add by lia. symmetry. apply take_take_drop.
Qed.

(** ** Numbers *)

Lemma fold_be_app d d' v : fold_left (fun v b => v * 256 + b) (d ++ d') v =
  fold_left (fun v b => v * 256 + b) d' (fold_left (fun v b => v * 256 + b) d v).
Proof. apply fold_left_app. Qed.

Lemma be16_value x : fits 16 x -> be_value (be16 x) = x.
Proof.
  unfold fits. intros H. unfold be_value, be16, wrap. cbn [fold_left]. change (2 ^ 8) with 256.
  rewrite Z.shiftr_div_pow2 by lia. change (2 ^ 8) with 256.
  rewrite (Z.mod_small (x / 256)) by (split; [apply Z.div_pos; lia | apply Z.div_lt_upper_bound; lia]).
  pose proof (Z.div_mod x 256). lia.
Qed.

Lemma be32_value x : fits 32 x -> be_value (be32 x) = x.
Proof.
  unfold fits. intros H. unfold be_value, be32, wrap. cbn [fold_left]. change (2 ^ 8) with 256.
  rewrite !Z.shiftr_div_pow2 by lia. change (2 ^ 24) with (256 * 256 * 256). change (2 ^ 16) with (256 * 256).
  change (2 ^ 8) with 256. rewrite <- !Z.div_div by lia.
  rewrite (Z.mod_small (x / 256 / 256 / 256)) by
    (split; [repeat apply Z.div_pos; lia | repeat (apply Z.div_lt_upper_bound; [lia|]); lia]).
  pose proof (Z.div_mod x 256). pose proof (Z.div_mod (x / 256) 256). pose proof (Z.div_mod (x / 256 / 256) 256). lia.
Qed.

Lemma GET_ok n p length j d :
  holds p j d -> n = zlen d -> j + n <= length -> GET n p length j = ok (be_value d, j + n).
Proof. intros H -> Hl. unfold GET. rewrite (proj2 (Z.ltb_ge _ _)) by lia. unfold holds in H. by rewrite H. Qed.

Lemma GET16_ok p length j x :
  holds p j (be16 x) -> fits 16 x -> j + 2 <= length -> GET16 p length j = ok (x, j + 2).
Proof. intros. unfold GET16. by rewrite (GET_ok _ _ _ _ (be16 x)), be16_value. Qed.

Lemma GET32_ok p length j x :
  holds p j (be32 x) -> fits 32 x -> j + 4 <= length -> GET32 p length j = ok (x, j + 4).
Proof. intros. unfold GET32. by rewrite (GET_ok _ _ _ _ (be32 x)), be32_value. Qed.

Definition header_bytes (h : dns_header) : list Z :=
  be16 (h_trans_id h) ++ be16 (h_flags h) ++ be16 (h_questions h) ++ be16 (h_answers h)
    ++ be16 (h_authority h) ++ be16 (h_additional h).

Definition header_fits (h : dns_header) : Prop :=
  fits 16 (h_trans_id h) /\ fits 16 (h_flags h) /\ fits 16 (h_questions h) /\ fits 16 (h_answers h) /\
  fits 16 (h_authority h) /\ fits 16 (h_additional h).

Lemma get_header_ok p length h :
  holds p 0 (header_bytes h) -> header_fits h -> 12 <= length -> get_header p length = ok (h, 12).
Proof.
  intros H (? & ? & ? & ? & ? & ?) Hl. unfold header_bytes in H.
  change (zlen (be16 _)) with 2 in *.
  repeat (let R := fresh "R" in apply holds_app in H as [R H]; change (zlen (be16 _)) with 2 in H; cbn [Z.add Pos.add] in H).
  unfold get_header.
  repeat (erewrite GET16_ok by (eassumption || lia); cbn [pbind ok Z.add Pos.add]).
  by destruct h.
Qed.

(** ** Appending *)

Lemma append_all_ok buf_len l : forall buf j,
  0 <= j -> j + zlen (concat l) <= buf_len <= zlen buf ->
  exists buf', append_all buf buf_len j l = Some (true, buf', j + zlen (concat l)) /\
    zlen buf' = zlen buf /\ ztake j buf' = ztake j buf /\ holds buf' j (concat l).
Proof.
  induction l as [|d l IH]; intros buf j Hj Hb; cbn [concat append_all] in *.
  - change (zlen []) with 0 in *. exists buf. rewrite Z.add_0_r. splits; [done..|]. unfold holds.
    change (zlen []) with 0. rewrite mem_read_Some by lia. by rewrite ztake_0.
  - rewrite zlen_app in Hb. pose proof (zlen_nonneg d). pose proof (zlen_nonneg (concat l)).
    unfold APPEND. rewrite (proj2 (Z.ltb_ge _ _)) by lia.
    destruct (holds_written buf j d) as (b1 & -> & Hz1 & Hp1 & H1); [lia..|]. cbn [mbind option_bind].
    destruct (IH b1 (j + zlen d)) as (b2 & -> & Hz2 & Hp2 & H2); [lia..|].
    exists b2. rewrite zlen_app, Z.add_assoc. splits; [done | lia | |].
    + rewrite <- Hp1. by apply (ztake_le_eq _ _ _ (j + zlen d)); [lia|].
    + apply holds_cat; [|done]. by apply (holds_prefix (j + zlen d) b1); [|lia|].
Qed.

(** ** Queries *)

(** A packet with one question. *)
Record question_packet (p : list Z) (h : dns_header) (name : list Z) (type class e : Z) : Prop := {
  qp_header : holds p 0 (header_bytes h);
  qp_name : exists k, name_at p 12 (proper_labels name) e k;
  qp_class : holds p e (be16 type ++ be16 class) }.

Lemma question_packet_prefix n p p' h name type class e :
  question_packet p h name type class e -> ztake n p = ztake n p' -> e + 4 <= n -> question_packet p' h name type class e.
Proof.
  intros [Hh [k Hn] Hc] Hp He. pose proof (name_at_range _ _ _ _ _ Hn). split.
  - apply (holds_prefix n p); [done | change (zlen (header_bytes h)) with 12; lia | done].
  - exists k. apply (name_at_prefix p _ n); [done | lia | done].
  - apply (holds_prefix n p); [done | rewrite zlen_app; change (zlen (be16 _)) with 2; lia | done].
Qed.

Section query.
Context {A : Arch} {M : Allocator}.

Lemma question_name_ok p name e k length :
  cstring name -> dns_name name -> zlen name <= 255 -> name_at p 12 (proper_labels name) e k ->
  e <= length <= zlen p ->
  name_parse p length 12 256 = Some (Some (e, no_final_dot name)).
Proof.
  intros Hc Hd Hl Hn He. rewrite (name_parse_ok _ _ _ _ _ _ _ Hn), join_labels_proper by done || (rewrite ?join_labels_proper by done; pose proof (no_final_dot_short name); lia).
  done.
Qed.

Definition query_header (id : Z) : dns_header :=
  {| h_trans_id := id; h_flags := 0x0100; h_questions := 1; h_answers := 0; h_authority := 0; h_additional := 0 |}.

(** Header, name, and what follows it, in a buffer. *)
Lemma evdns_request_data_build_ok name id type class buf buf_len :
  cstring name -> dns_name name -> zlen name <= 255 -> fits 16 id -> fits 16 type -> fits 16 class ->
  zlen name + 18 <= buf_len <= zlen buf -> buf_len <= 16384 ->
  exists e buf', evdns_request_data_build name id type class buf buf_len = Some (e + 4, buf') /\
    12 < e <= zlen name + 14 /\ zlen buf' = zlen buf /\ question_packet buf' (query_header id) name type class e.
Proof.
  intros Hc Hd Hl Hid Hty Hcl Hb Hm. pose proof (zlen_nonneg name). unfold evdns_request_data_build.
  destruct (append_all_ok buf_len (map be16 [id; 0x0100; 1; 0; 0; 0]) buf 0) as (b1 & -> & Hz1 & _ & H1);
    [lia | change (zlen (concat _)) with 12; lia|].
  change (zlen (concat _)) with 12 in *. change (0 + 12) with 12. cbn [mbind option_bind negb].
  destruct (dnsname_to_labels_ok b1 buf_len 12 name None) as (e & b2 & t & -> & [Hz2 Hp2 He [k Hn] _] & _);
    [done.. | lia | lia | lia | by intros x Hx%elem_of_nil|]. cbn [mbind option_bind].
  rewrite (proj2 (Z.ltb_ge e 0)) by lia.
  destruct (append_all_ok buf_len [be16 type; be16 class] b2 e) as (b3 & -> & Hz3 & Hp3 & H3);
    [lia | change (zlen (concat _)) with 4; lia|].
  change (zlen (concat _)) with 4. cbn [mbind option_bind]. exists e, b3. splits; [done | lia | lia | lia|].
  split.
  - apply (holds_prefix 12 b1); [|done | done]. rewrite <- Hp2. symmetry. by apply (ztake_le_eq _ _ _ e); [lia|].
  - exists k. by apply (name_at_prefix b2 _ e).
  - cbn [concat] in H3. by rewrite app_nil_r in H3.
Qed.

Lemma no_final_dot_cstring name : cstring name -> cstring (no_final_dot name).
Proof.
  intros H. unfold no_final_dot. case_bool_decide; [|done].
  destruct name as [|x l _] using rev_ind; [done|]. rewrite removelast_last. by apply Forall_app_split in H as [H _].
Qed.

Definition fresh_request (id : Z) (from : list Z) (flags : Z) (qs : list evdns_server_question) : server_request :=
  {| sr_trans_id := id; addr := from; n_answer := 0; n_authority := 0; n_additional := 0;
     answer := []; authority := []; additional := []; response := None; sr_flags := flags; questions := qs |}.

Lemma request_parse_ok sizeof p h name type class e length from :
  mem_ok -> question_packet p h name type class e -> header_fits h -> h_questions h = 1 ->
  Z.land (h_flags h) 0x8000 = 0 -> cstring name -> dns_name name -> zlen name <= 255 ->
  fits 16 type -> fits 16 class -> e + 4 <= length <= zlen p ->
  request_parse sizeof p length from =
    Some (0, Called (fresh_request (h_trans_id h) from (Z.land (h_flags h) 0x0110)
      [{| q_type := type; q_class := class; q_name := no_final_dot name |}])).
Proof.
  intros Hm [Hh [k Hn] Hc] Hfit Hq Hf Hcs Hd Hl Hty Hcl Hlen. pose proof (name_at_range _ _ _ _ _ Hn).
  unfold request_parse. rewrite (get_header_ok _ _ _ Hh) by (done || lia). cbn [mbind option_bind ok]. rewrite Hf, Hq.
  cbn [Z.eqb negb]. pose proof (Hm (sizeof struct_server_request)). destruct (mm_malloc (sizeof struct_server_request)); [|done].
  pose proof (Hm (size_bits / 8 * 1)). destruct (mm_malloc (size_bits / 8 * 1)); [|done].
  change (Z.to_nat 1) with 1%nat. cbn [get_questions].
  rewrite (question_name_ok _ _ _ _ _ Hcs Hd Hl Hn) by lia. cbn [pbind].
  apply holds_app in Hc as [Hc1 Hc2]. change (zlen (be16 type)) with 2 in Hc2.
  rewrite (GET16_ok _ _ _ _ Hc1) by (done || lia). cbn [pbind ok].
  rewrite (GET16_ok _ _ _ _ Hc2) by (done || lia). cbn [pbind ok].
  rewrite cstr_cstring by by apply no_final_dot_cstring.
  pose proof (Hm (sizeof struct_question + zlen (no_final_dot name))). destruct (mm_malloc _); [|done].
  cbn [pbind mbind option_bind]. cbv zeta.
  rewrite <- Z.land_assoc. change (Z.land 272 30720) with 0. rewrite Z.land_0_r. done.
Qed.
End query.
