(* ===== verification/DnsExchange.v ===== *)
(** A whole exchange: the response that a server formats for a request with address
    records, and what the client makes of it. *)

From S2P Require Import Prelude EvChain Cstring UriCoding EventData Evbuffer EvbufferSpec EvbufferProps Dns DnsPacket DnsServer DnsSpec DnsWire.
#[local] Open Scope dns_scope.

(** ** Records in packets *)

(** What follows the name of a record. *)
Definition record_bytes (type class ttl : Z) (data : list Z) : list Z :=
  be16 type ++ be16 class ++ be32 ttl ++ be16 (zlen data) ++ data.

(** A record of [name] at [pos], which ends at [e]. *)
Definition record_at (p : list Z) (pos : Z) (name : list Z) (type class ttl : Z) (data : list Z) (e : Z) : Prop :=
  exists e1 k, name_at p pos (proper_labels name) e1 k /\ holds p e1 (record_bytes type class ttl data) /\
               e = e1 + 10 + zlen data.

(** Address records of one name: the addresses of each and its time to live. *)
Fixpoint records_at (p : list Z) (pos : Z) (name : list Z) (type : Z) (l : list (list Z * Z)) (e : Z) : Prop :=
  match l with
  | [] => e = pos
  | (data, ttl) :: l' => exists e1, record_at p pos name type CLASS_INET ttl data e1 /\ records_at p e1 name type l' e
  end.

Lemma zlen_record_bytes type class ttl data : zlen (record_bytes type class ttl data) = 10 + zlen data.
Proof. unfold record_bytes. rewrite !zlen_app. change (zlen (be16 _)) with 2. change (zlen (be32 _)) with 4. lia. Qed.

Lemma record_at_range p pos name type class ttl data e :
  record_at p pos name type class ttl data e -> 0 <= pos < e /\ e <= zlen p.
Proof.
  intros (e1 & k & Hn & Hh & ->). apply name_at_range in Hn. apply holds_range in Hh.
  rewrite zlen_record_bytes in Hh. pose proof (zlen_nonneg data). lia.
Qed.

Lemma records_at_range p name type l : forall pos e,
  0 <= pos <= zlen p -> records_at p pos name type l e -> pos <= e <= zlen p.
Proof.
  induction l as [|[data ttl] l IH]; intros pos e Hp; cbn [records_at]; [lia|].
  intros (e1 & Hr & Hl). apply record_at_range in Hr. apply IH in Hl; lia.
Qed.

Lemma record_at_prefix n p p' pos name type class ttl data e :
  record_at p pos name type class ttl data e -> ztake n p = ztake n p' -> e <= n ->
  record_at p' pos name type class ttl data e.
Proof.
  intros (e1 & k & Hn & Hh & ->) Hp He. pose proof (zlen_nonneg data). exists e1, k. splits; [| |done].
  - apply (name_at_prefix p _ n); [done | lia | done].
  - apply (holds_prefix n p); [done | rewrite zlen_record_bytes; lia | done].
Qed.

(** ** The server writes *)

Section response.
Context {A : Arch} {M : Allocator}.

(** An item with the bytes [data]. *)
Definition data_item (name : list Z) (type class ttl : Z) (data : list Z) : server_reply_item :=
  {| i_name := name; i_type := type; i_class := class; i_ttl := ttl; i_is_name := false;
     i_datalen := zlen data; i_data := Some data |}.

Lemma put_item_ok name type class ttl data buf j table :
  cstring name -> dns_name name -> zlen name <= 255 -> 0 <= j -> j + zlen name + 12 + zlen data <= RESPONSE_SIZE ->
  zlen buf = RESPONSE_SIZE -> table_ok buf j table ->
  exists buf' j' table', put_item (data_item name type class ttl data) buf j table = Some (Written buf' j' table') /\
    zlen buf' = zlen buf /\ ztake j buf' = ztake j buf /\ j < j' <= j + zlen name + 12 + zlen data /\
    table_ok buf' j' table' /\ record_at buf' j name type class ttl data j'.
Proof.
  intros Hc Hd Hl Hj Hb Hz Ht. pose proof (zlen_nonneg data). pose proof (zlen_nonneg name).
  unfold RESPONSE_SIZE in *. unfold put_item.
  destruct (dnsname_to_labels_ok buf 1500 j name table) as (e & b1 & t & E & [Hz1 Hp1 He [k Hn] _] & Ht1);
    [done.. | lia | lia | done|]. unfold RESPONSE_SIZE. cbn [i_name data_item]. rewrite E. cbn [mbind option_bind].
  rewrite (proj2 (Z.ltb_ge e 0)) by lia. unfold append_or, RESPONSE_SIZE.
  destruct (append_all_ok 1500 [be16 type; be16 class; be32 ttl] b1 e) as (b2 & E2 & Hz2 & Hp2 & H2);
    [lia | change (zlen (concat _)) with 8; lia|].
  change (zlen (concat _)) with 8 in *. cbn [i_type i_class i_ttl data_item]. rewrite E2. cbn [mbind option_bind].
  unfold put_data, append_or, RESPONSE_SIZE. cbn [i_is_name i_datalen i_data data_item default].
  destruct (append_all_ok 1500 [be16 (zlen data)] b2 (e + 8)) as (b3 & E3 & Hz3 & Hp3 & H3);
    [lia | change (zlen (concat _)) with 2; lia|].
  change (zlen (concat _)) with 2 in *. rewrite E3. cbn [mbind option_bind].
  unfold id. rewrite (proj2 (Z.ltb_ge 1500 _)) by lia. rewrite mem_read_Some by lia. rewrite zdrop_0, ztake_ge by lia.
  cbn [mbind option_bind].
  destruct (holds_written b3 (e + 8 + 2) data) as (b4 & -> & Hz4 & Hp4 & H4); [lia..|]. cbn [mbind option_bind].
  assert (Hpre : ztake e b4 = ztake e b1).
  { rewrite (ztake_le_eq b4 b3 e (e + 8 + 2)), (ztake_le_eq b3 b2 e (e + 8)) by (done || lia). done. }
  exists b4, (e + 8 + 2 + zlen data), t. splits; [done | lia | | lia | lia | |].
  - rewrite <- Hp1. by apply (ztake_le_eq _ _ _ e); [lia|].
  - by apply (table_ok_mono b1 e); [|lia|].
  - exists e, k. splits; [by apply (name_at_prefix b1 _ e)| | lia].
    assert (Heq : record_bytes type class ttl data =
      (be16 type ++ be16 class ++ be32 ttl) ++ be16 (zlen data) ++ data) by (unfold record_bytes; by rewrite <- !app_assoc).
    rewrite Heq. cbn [concat] in H2, H3. rewrite !app_nil_r in H2. rewrite app_nil_r in H3.
    apply holds_cat; [|apply holds_cat; [|done]].
    + apply (holds_prefix (e + 8) b2); [|done | done]. rewrite <- Hp3. symmetry. by apply (ztake_le_eq _ _ _ (e + 8 + 2)); [lia|].
    + by apply (holds_prefix (e + 8 + 2) b3).
Qed.

(** The room that the records of a name may take. *)
Definition records_size (name : list Z) (l : list (list Z * Z)) : Z :=
  foldr (fun x n => zlen name + 12 + zlen (fst x) + n) 0 l.

Lemma records_size_nonneg name l : 0 <= records_size name l.
Proof.
  induction l as [|[data ttl] l IH]; cbn [records_size foldr fst]; [lia|].
  unfold records_size in IH. pose proof (zlen_nonneg name). pose proof (zlen_nonneg data). lia.
Qed.

Lemma records_size_bounds name l :
  zlen l <= records_size name l /\ Forall (fun x : list Z * Z => zlen (fst x) <= records_size name l) l.
Proof.
  induction l as [|[data ttl] l [IH1 IH2]]; [done|]. pose proof (records_size_nonneg name l).
  assert (E : records_size name ((data, ttl) :: l) = zlen name + 12 + zlen data + records_size name l) by done.
  rewrite E, zlen_cons. pose proof (zlen_nonneg name). pose proof (zlen_nonneg data). split; [lia|].
  constructor; [cbn; lia|]. eapply Forall_impl; [|exact IH2]. intros x Hx. cbn in *. lia.
Qed.

Lemma put_items_ok name type l : cstring name -> dns_name name -> zlen name <= 255 -> forall buf j table,
  0 <= j -> j + records_size name l <= RESPONSE_SIZE -> zlen buf = RESPONSE_SIZE -> table_ok buf j table ->
  exists buf' j' table',
    put_items (map (fun x => data_item name type CLASS_INET (snd x) (fst x)) l) buf j table = Some (Written buf' j' table') /\
    zlen buf' = zlen buf /\ ztake j buf' = ztake j buf /\ j' <= j + records_size name l /\
    records_at buf' j name type l j'.
Proof.
  intros Hc Hd Hl. induction l as [|[data ttl] l IH]; intros buf j table Hj Hb Hz Ht; cbn [map put_items].
  - exists buf, j, table. cbn. splits; done || lia.
  - cbn [records_size foldr fst] in Hb. pose proof (records_size_nonneg name l) as Hn. unfold records_size in Hn. cbn [snd fst].
    destruct (put_item_ok name type CLASS_INET ttl data buf j table) as (b1 & j1 & t1 & -> & Hz1 & Hp1 & Hj1 & Ht1 & Hr1);
      [done.. | lia | done | done|]. cbn [mbind option_bind].
    destruct (IH b1 j1 t1) as (b2 & j2 & t2 & -> & Hz2 & Hp2 & Hj2 & Hr2); [lia | unfold records_size; lia | lia | done|].
    exists b2, j2, t2. unfold records_size in Hj2. cbn [records_size foldr fst].
    splits; [done | lia | | lia |].
    + rewrite <- Hp1. by apply (ztake_le_eq _ _ _ j1); [lia|].
    + exists j1. split; [|done]. by apply (record_at_prefix j1 b1).
Qed.

(** A request with one question, answered with address records of its name. *)
Definition answered_request (id : Z) (from : list Z) (flags : Z) (name : list Z) (type qclass : Z) (l : list (list Z * Z))
  : server_request :=
  (fresh_request id from flags [{| q_type := type; q_class := qclass; q_name := name |}])
    <| answer := map (fun x => data_item name type CLASS_INET (snd x) (fst x)) l |> <| n_answer := zlen l |>.

Definition response_header (id flags n : Z) : dns_header :=
  {| h_trans_id := id; h_flags := wrap 16 (Z.lor (wrap 16 flags) 0x8000); h_questions := 1; h_answers := n;
     h_authority := 0; h_additional := 0 |}.

Lemma format_packet_ok id from flags name type qclass l stack :
  cstring name -> dns_name name -> zlen name <= 255 -> zlen stack = RESPONSE_SIZE ->
  zlen name + 18 + records_size name l <= 512 ->
  exists buf j table e,
    format_packet (answered_request id from flags name type qclass l) 0 stack = Some (Written buf j table) /\
    zlen buf = RESPONSE_SIZE /\ 0 <= j <= 512 /\
    question_packet buf (response_header id flags (zlen l)) name type qclass e /\ e + 4 <= j /\
    records_at buf (e + 4) name type l j.
Proof.
  intros Hc Hd Hl Hz Hb. pose proof (records_size_nonneg name l). unfold format_packet, append_or, RESPONSE_SIZE in *.
  destruct (append_all_ok 1500 (map be16 [id; h_flags (response_header id flags 0); 1; zlen l; 0; 0]) stack 0)
    as (b1 & E1 & Hz1 & _ & H1); [lia | change (zlen (concat _)) with 12; lia|].
  change (zlen (concat _)) with 12 in *. change (0 + 12) with 12 in *.
  change (append_all _ _ _ _) with (append_all stack 1500 0 (map be16 [id; h_flags (response_header id flags 0); 1; zlen l; 0; 0])).
  rewrite E1. cbn [mbind option_bind questions answered_request].
  change (questions (answered_request id from flags name type qclass l)) with [{| q_type := type; q_class := qclass; q_name := name |}].
  cbn [put_questions q_name q_type q_class]. unfold append_or, RESPONSE_SIZE.
  destruct (dnsname_to_labels_ok b1 1500 12 name (Some dnslabel_table_init)) as (e & b2 & t & -> & [Hz2 Hp2 He [k Hn] _] & Ht);
    [done.. | lia | lia | lia | by intros x Hx%elem_of_nil|]. cbn [mbind option_bind].
  rewrite (proj2 (Z.ltb_ge e 0)) by lia.
  destruct (append_all_ok 1500 [be16 type; be16 qclass] b2 e) as (b3 & -> & Hz3 & Hp3 & H3);
    [lia | change (zlen (concat _)) with 4; lia|].
  change (zlen (concat _)) with 4 in *. cbn [mbind option_bind put_questions concat] in *. rewrite app_nil_r in H3.
  destruct (put_items_ok name type l Hc Hd Hl b3 (e + 4) t) as (b4 & j & t' & E4 & Hz4 & Hp4 & Hj & Hr);
    [lia | unfold RESPONSE_SIZE; lia | unfold RESPONSE_SIZE; lia | by apply (table_ok_mono b2 e); [|lia|]|].
  change (answer _ ++ authority _ ++ additional _) with (map (fun x => data_item name type CLASS_INET (snd x) (fst x)) l ++ []).
  rewrite app_nil_r, E4. exists b4, j, t', e. apply records_at_range in Hr as Hrange; [|lia].
  splits; [done | lia | lia | lia | | lia | done].
  apply (question_packet_prefix (e + 4) b3); [|done | lia]. split; [| |done].
  - apply (holds_prefix 12 b1); [|done | done].
    rewrite <- Hp2. rewrite <- (ztake_le_eq b3 b2 12 e); done || lia.
  - exists k. by apply (name_at_prefix b2 _ e).
Qed.

Lemma records_at_prefix n p p' name type l : forall pos e,
  0 <= pos <= zlen p -> records_at p pos name type l e -> ztake n p = ztake n p' -> e <= n ->
  records_at p' pos name type l e.
Proof.
  induction l as [|[data ttl] l IH]; intros pos e Hp Hr E He; [done|]. cbn [records_at] in *.
  destruct Hr as (e1 & H1 & H2). pose proof (record_at_range _ _ _ _ _ _ _ _ H1).
  pose proof (records_at_range p name type l e1 e ltac:(lia) H2). exists e1. split; [|apply IH; done || lia].
  apply (record_at_prefix n p); done || lia.
Qed.

Lemma format_response_ok id from flags name type qclass l stack :
  mem_ok -> cstring name -> dns_name name -> zlen name <= 255 -> zlen stack = RESPONSE_SIZE ->
  zlen name + 18 + records_size name l <= 512 ->
  exists req d e,
    evdns_server_request_format_response (answered_request id from flags name type qclass l) 0 stack = Some (0, req) /\
    response req = Some d /\ addr req = from /\ question_packet d (response_header id flags (zlen l)) name type qclass e /\
    e + 4 <= zlen d <= 512 /\ records_at d (e + 4) name type l (zlen d).
Proof.
  intros Hm Hc Hd Hl Hz Hb. unfold evdns_server_request_format_response. cbn [Z.ltb orb Z.compare Pos.compare Pos.compare_cont].
  destruct (format_packet_ok id from flags name type qclass l stack) as (buf & j & t & e & -> & Hzb & Hj & Hq & He & Hr); [done..|].
  cbn [mbind option_bind]. rewrite (proj2 (Z.ltb_ge 512 j)) by lia. unfold RESPONSE_SIZE in *.
  rewrite mem_read_Some by lia. rewrite zdrop_0 by lia. cbn [mbind option_bind].
  assert (Hzd : zlen (ztake j buf) = j) by (apply zlen_ztake; lia).
  pose proof (Hm (zlen (ztake j buf))) as Hmm. destruct (mm_malloc _); [|done].
  assert (Hpre : ztake j buf = ztake j (ztake j buf)) by (by rewrite ztake_ztake by lia).
  assert (0 <= e) by (destruct Hq as [_ [k Hn] _]; apply name_at_range in Hn; lia).
  do 2 eexists. exists e. split; [done|]. cbn [response addr server_request_free_answers]. split; [done|]. split; [done|].
  splits; [by apply (question_packet_prefix j buf _ _ _ _ _ _ Hq) | lia | lia|]. rewrite Hzd.
  apply (records_at_prefix j buf); done || lia.
Qed.
End response.

(** ** The client reads *)

Section client.
Context {M : Allocator}.

(** A block of addresses of [size] bytes. *)
Definition address_block (size : Z) (x : list Z * Z) : Prop :=
  (exists n, 0 < n /\ zlen (fst x) = size * n) /\ fits 32 (snd x).

Definition address_type (type size : Z) : Prop := (type = TYPE_A /\ size = 4) \/ (type = TYPE_AAAA /\ size = 16).

(** The state after some more addresses. *)
Definition with_addresses (s : reply_state) (size : Z) (x : list Z * Z) (j : Z) : reply_state :=
  s <| rs_ttl_r := Z.min (rs_ttl_r s) (snd x) |> <| rs_j := j |>
    <| rs_reply := (rs_reply s) <| addresses := addresses (rs_reply s) ++ fst x |>
                     <| addrcount := addrcount (rs_reply s) + zlen (fst x) / size |> <| have_answer := true |> |>.

Lemma get_addresses_ok size n data ttl p length s :
  (size = 4 \/ size = 16) -> 0 < n -> zlen data = size * n -> 0 <= addrcount (rs_reply s) ->
  addrcount (rs_reply s) + n <= 32 -> holds p (rs_j s) data -> rs_j s + zlen data <= length ->
  get_addresses size 32 ttl (zlen data) p length s =
    ok (if addrcount (rs_reply s) + n =? 32 then Break else Continue, with_addresses s size (data, ttl) (rs_j s + zlen data)).
Proof.
  intros Hs Hn Hz Ha Hc Hh Hl. unfold get_addresses, with_addresses. cbn [fst snd].
  assert (Hdiv : zlen data / size = n) by (rewrite Hz, Z.mul_comm; apply Z.div_mul; lia).
  assert (Hmask : Z.land (zlen data) (size - 1) = 0).
  { destruct Hs as [-> | ->].
    - change (4 - 1) with (Z.ones 2). rewrite Z.land_ones by lia. rewrite Hz, Z.mul_comm. apply Z.mod_mul. lia.
    - change (16 - 1) with (Z.ones 4). rewrite Z.land_ones by lia. rewrite Hz, Z.mul_comm. apply Z.mod_mul. lia. }
  assert (Hshift : Z.shiftr (zlen data) (Z.log2 size) = n).
  { rewrite Z.shiftr_div_pow2 by apply Z.log2_nonneg. rewrite <- Hdiv. by destruct Hs as [-> | ->]. }
  rewrite Hmask, Hshift. cbn [Z.eqb negb]. rewrite Z.min_r by lia. rewrite <- Hz.
  rewrite (proj2 (Z.ltb_ge _ _)) by lia. unfold holds in Hh. rewrite Hh. cbn [mbind option_bind]. rewrite Hdiv. done.
Qed.

Lemma get_answer_ok type size req name data ttl p length s e :
  address_type type size -> request_type req = type -> cstring name -> dns_name name -> zlen name <= 255 ->
  address_block size (data, ttl) -> zlen data < 65536 -> 0 <= addrcount (rs_reply s) ->
  addrcount (rs_reply s) + zlen data / size <= 32 ->
  record_at p (rs_j s) name type CLASS_INET ttl data e -> e <= length <= zlen p ->
  get_answer req p length s =
    ok (if addrcount (rs_reply s) + zlen data / size =? 32 then Break else Continue, with_addresses s size (data, ttl) e).
Proof.
  intros Ht Hreq Hc Hd Hl [(n & Hn & Hz) Httl] Hsmall Ha Hcount (e1 & k & Hname & Hh & ->) He. cbn [fst snd] in *.
  pose proof (name_at_range _ _ _ _ _ Hname). pose proof (zlen_nonneg data).
  assert (Hdiv : zlen data / size = n).
  { rewrite Hz, Z.mul_comm. apply Z.div_mul. destruct Ht as [[_ ->]|[_ ->]]; lia. }
  rewrite Hdiv in *. assert (Hty : fits 16 type) by (destruct Ht as [[-> _]|[-> _]]; done).
  unfold record_bytes in Hh. apply holds_app in Hh as [H1 Hh]. apply holds_app in Hh as [H2 Hh].
  apply holds_app in Hh as [H3 Hh]. apply holds_app in Hh as [H4 H5].
  change (zlen (be16 _)) with 2 in *. change (zlen (be32 _)) with 4 in *.
  unfold get_answer. rewrite (name_parse_ok _ _ _ _ _ _ _ Hname), join_labels_proper
    by (done || lia || (rewrite join_labels_proper by done; pose proof (no_final_dot_short name); lia)).
  cbn [pbind]. rewrite (GET16_ok _ _ _ _ H1) by (done || lia). cbn [pbind ok].
  rewrite (GET16_ok _ _ _ _ H2) by (done || lia). cbn [pbind ok].
  rewrite (GET32_ok _ _ _ _ H3) by (done || lia). cbn [pbind ok].
  rewrite (GET16_ok _ _ _ _ H4) by (unfold fits; lia). cbn [pbind ok]. rewrite Hreq.
  replace (e1 + 10 + zlen data) with (e1 + 2 + 2 + 4 + 2 + zlen data) by lia.
  assert (Hadd : forall s' : reply_state, rs_j s' = e1 + 2 + 2 + 4 + 2 -> rs_reply s' = rs_reply s ->
    get_addresses size 32 ttl (zlen data) p length s' =
      ok (if addrcount (rs_reply s) + n =? 32 then Break else Continue,
          with_addresses s' size (data, ttl) (e1 + 2 + 2 + 4 + 2 + zlen data))).
  { intros s' Hj Hr. rewrite (get_addresses_ok size n) by (rewrite ?Hj, ?Hr; done || lia || (destruct Ht as [[_ ->]|[_ ->]]; auto)).
    by rewrite Hj, Hr. }
  destruct Ht as [[-> ->]|[-> ->]]; cbn [Z.eqb andb negb TYPE_A TYPE_AAAA TYPE_PTR TYPE_CNAME CLASS_INET Pos.eqb];
    unfold MAX_V4_ADDRS, MAX_V6_ADDRS; by rewrite Hadd.
Qed.

(** The number of addresses in blocks, the addresses, and the least time to live. *)
Definition total (size : Z) (l : list (list Z * Z)) : Z := foldr (fun x n => zlen (fst x) / size + n) 0 l.
Definition all_addresses (l : list (list Z * Z)) : list Z := concat (map fst l).
Definition least_ttl (l : list (list Z * Z)) (t : Z) : Z := fold_left (fun t x => Z.min t (snd x)) l t.

Lemma total_positive size x l :
  (size = 4 \/ size = 16) -> Forall (address_block size) (x :: l) -> 0 < total size (x :: l) /\ 0 <= total size l.
Proof.
  intros Hs. assert (Hall : forall l, Forall (address_block size) l -> 0 <= total size l).
  { induction 1 as [|y k [(n & Hn & Hz) _] _ IH]; cbn [total foldr]; [lia|]. unfold total in IH.
    assert (0 <= zlen (fst y) / size) by (apply Z.div_pos; [apply zlen_nonneg | lia]). lia. }
  intros [[(n & Hn & Hz) _] Hl]%Forall_cons_split. specialize (Hall _ Hl). split; [|done].
  cbn [total foldr]. unfold total in Hall. rewrite Hz, Z.mul_comm, Z.div_mul by lia. lia.
Qed.

Lemma get_answers_ok type size req name p length l : address_type type size -> request_type req = type ->
  cstring name -> dns_name name -> zlen name <= 255 -> zlen p < 65536 -> length <= zlen p -> forall s e,
  Forall (address_block size) l -> 0 <= addrcount (rs_reply s) -> addrcount (rs_reply s) + total size l <= 32 ->
  0 <= rs_j s <= zlen p -> records_at p (rs_j s) name type l e -> e <= length ->
  exists f s', get_answers (List.length l) req p length s = Some (f, s') /\ f <> Fail /\
    rs_cname s' = rs_cname s /\ rs_ttl_r s' = least_ttl l (rs_ttl_r s) /\
    rs_reply s' = (rs_reply s) <| addresses := addresses (rs_reply s) ++ all_addresses l |>
                    <| addrcount := addrcount (rs_reply s) + total size l |>
                    <| have_answer := have_answer (rs_reply s) || bool_decide (l <> []) |>.
Proof.
  intros Ht Hreq Hc Hd Hl Hsmall Hlen. assert (Hsize : size = 4 \/ size = 16) by (destruct Ht as [[_ ->]|[_ ->]]; auto).
  induction l as [|[data ttl] l IH]; intros s e Hb Ha Hcount Hj Hr He; cbn [List.length get_answers].
  - exists Continue, s. splits; [done..|]. rewrite bool_decide_false by tauto. unfold all_addresses. cbn [map concat total foldr].
    rewrite app_nil_r, Z.add_0_r, orb_false_r. by destruct s as [? ? []].
  - cbn [records_at] in Hr. destruct Hr as (e1 & H1 & H2). pose proof (record_at_range _ _ _ _ _ _ _ _ H1).
    pose proof (records_at_range p name type l e1 e ltac:(lia) H2). pose proof (total_positive _ _ _ Hsize Hb) as [_ Htot].
    apply Forall_cons_split in Hb as [Hblk Hb]. cbn [total foldr fst] in Hcount. fold (total size l) in Hcount.
    assert (zlen data < 65536) by (destruct H1 as (? & ? & Hn & _ & E); apply name_at_range in Hn; lia).
    assert (0 <= zlen data / size) by (apply Z.div_pos; [apply zlen_nonneg | lia]).
    rewrite (get_answer_ok type size req name data ttl p length s e1) by (done || lia). cbn [mbind option_bind ok].
    set (s1 := with_addresses s size (data, ttl) e1).
    assert (Hgoal : forall f s', rs_cname s' = rs_cname s1 -> rs_ttl_r s' = least_ttl l (rs_ttl_r s1) ->
      rs_reply s' = (rs_reply s1) <| addresses := addresses (rs_reply s1) ++ all_addresses l |>
                    <| addrcount := addrcount (rs_reply s1) + total size l |>
                    <| have_answer := have_answer (rs_reply s1) || bool_decide (l <> []) |> ->
      f <> Fail -> forall o, o = Some (f, s') -> exists f s', o = Some (f, s') /\ f <> Fail /\
        rs_cname s' = rs_cname s /\ rs_ttl_r s' = least_ttl ((data, ttl) :: l) (rs_ttl_r s) /\
        rs_reply s' = (rs_reply s) <| addresses := addresses (rs_reply s) ++ all_addresses ((data, ttl) :: l) |>
                    <| addrcount := addrcount (rs_reply s) + total size ((data, ttl) :: l) |>
                    <| have_answer := have_answer (rs_reply s) || bool_decide ((data, ttl) :: l <> []) |>).
    { intros f s' Hcn Hti Hre Hf o ->. exists f, s'. splits; [done.. |]. rewrite Hre.
      rewrite (bool_decide_true ((data, ttl) :: l <> [])) by done. rewrite orb_true_r. unfold all_addresses.
      cbn [map concat total foldr fst]. fold (total size l). rewrite app_assoc, Z.add_assoc. done. }
    destruct (Z.eqb_spec (addrcount (rs_reply s) + zlen data / size) 32) as [E|_].
    + assert (l = []) as -> by (destruct l; [done|]; pose proof (total_positive _ _ _ Hsize Hb); lia).
      apply (Hgoal Break s1); [done.. | | done | done].
      change (bool_decide ([] <> [])) with false. change (all_addresses []) with (@nil Z). change (total size []) with 0.
      rewrite app_nil_r, Z.add_0_r, orb_false_r. by destruct (rs_reply s1).
    + destruct (IH s1 e Hb) as (f & s' & -> & Hf & Hcn & Hti & Hre).
      * change (addrcount (rs_reply s1)) with (addrcount (rs_reply s) + zlen data / size). lia.
      * change (addrcount (rs_reply s1)) with (addrcount (rs_reply s) + zlen data / size). lia.
      * change (rs_j s1) with e1. lia.
      * done.
      * done.
      * by apply (Hgoal f s').
Qed.

Lemma strcasecmp_refl s : cstring s -> evutil_ascii_strcasecmp s s = 0.
Proof. intros. by apply strcasecmp_eq. Qed.

(** The time to live that is handed on. *)
Definition reply_ttl (l : list (list Z * Z)) : Z :=
  let t := least_ttl l UINT32_MAX in if t =? UINT32_MAX then 0 else t.

Lemma TEST_NAME_ok randomize_case req h h' p name ty class ty' class' e e' length :
  question_packet p h name ty class e -> question_packet (packet req) h' name ty' class' e' ->
  cstring name -> dns_name name -> zlen name <= 255 -> e <= length <= zlen p ->
  e' <= request_len req <= zlen (packet req) ->
  TEST_NAME randomize_case req p length 12 = ok (e, true).
Proof.
  intros [_ [k Hn] _] [_ [k' Hn'] _] Hc Hd Hl He He'. unfold TEST_NAME.
  rewrite (question_name_ok _ _ _ _ _ Hc Hd Hl Hn) by lia. cbn [pbind].
  rewrite (question_name_ok _ _ _ _ _ Hc Hd Hl Hn') by lia. cbn [pbind].
  pose proof (no_final_dot_cstring _ Hc). rewrite cstr_cstring by done.
  rewrite strcasecmp_refl by done. rewrite bool_decide_true by done. by destruct randomize_case.
Qed.

Lemma reply_parse_ok find randomize_case type size req h h' name class ty' class' e e' p l :
  find (h_trans_id h) = Some req -> request_type req = type -> address_type type size ->
  question_packet p h name type class e -> question_packet (packet req) h' name ty' class' e' ->
  e' <= request_len req <= zlen (packet req) ->
  header_fits h -> h_questions h = 1 -> h_answers h = zlen l -> h_authority h = 0 ->
  Z.land (h_flags h) 0x8000 <> 0 -> Z.land (h_flags h) 0x020f = 0 ->
  cstring name -> dns_name name -> zlen name <= 255 -> zlen p < 65536 -> e + 4 <= zlen p ->
  Forall (address_block size) l -> total size l <= 32 -> records_at p (e + 4) name type l (zlen p) ->
  reply_parse find randomize_case p (zlen p) =
    Some (0, Some {| rc_request := req; rc_flags := h_flags h; rc_ttl := reply_ttl l;
      rc_reply := Some {| type := type; have_answer := bool_decide (l <> []); addrcount := total size l;
                          addresses := all_addresses l; ptr_name := [] |} |}).
Proof.
  intros Hfind Hreq Ht Hq Hq' He' Hfit Hnq Hna Hnau Hf1 Hf2 Hc Hd Hl Hsmall He Hb Htot Hr.
  pose proof Hq as [Hh [k Hn] _]. pose proof (name_at_range _ _ _ _ _ Hn).
  unfold reply_parse. rewrite (get_header_ok _ _ _ Hh) by (done || lia). cbn [mbind option_bind ok].
  rewrite Hfind. apply Z.eqb_neq in Hf1. rewrite Hf1, Hf2. cbn [Z.eqb negb andb].
  unfold reply_sections. rewrite Hnq. change (Z.to_nat 1) with 1%nat. cbn [test_questions].
  rewrite (TEST_NAME_ok _ _ _ _ _ _ _ _ _ _ _ _ _ Hq Hq') by (done || lia). cbn [pbind ok].
  rewrite (proj2 (Z.ltb_ge _ _)) by lia. cbn [orb mbind option_bind ok]. rewrite Hna.
  replace (Z.to_nat (zlen l)) with (List.length l) by (unfold zlen; lia).
  set (s0 := {| rs_j := e + 4 |}).
  destruct (get_answers_ok type size req name p (zlen p) l Ht Hreq Hc Hd Hl Hsmall ltac:(lia) s0 (zlen p))
    as (f & s & -> & Hf & Hcn & Hti & Hre); [done | cbn; lia.. | done | lia|]. subst s0.
  cbn [mbind option_bind rs_cname rs_ttl_r rs_reply] in *. rewrite Hcn, Hti, Hre, Hnau, Hreq.
  change (Z.to_nat 0) with 0%nat. cbn [get_authority].
  assert (Hsame : req <| put_cname_in_ptr := put_cname_in_ptr req |> = req) by (by destruct req).
  unfold reply_ttl. rewrite Hsame.
  destruct f; [| | done]; cbn; by case_bool_decide.
Qed.
End client.

(** ** Answers that the application adds *)

Section answers.
Context {A : Arch} {M : Allocator} (sizeof : dns_struct -> Z).

(** One call of [evdns_server_request_add_a_reply], or of its companion for [AAAA]
    records, per block of addresses. *)
Fixpoint add_addresses (v6 : bool) (req : server_request) (name : list Z) (l : list (list Z * Z)) : option server_request :=
  match l with
  | [] => Some req
  | (data, ttl) :: l' =>
    '(r, req) ← (if v6 then evdns_server_request_add_aaaa_reply sizeof req name (zlen data / 16) data ttl
                 else evdns_server_request_add_a_reply sizeof req name (zlen data / 4) data ttl);
    if r <? 0 then None else add_addresses v6 req name l'
  end.

Lemma add_reply_ok req name type ttl data :
  mem_ok -> response req = None -> fits 16 type -> fits 32 ttl -> zlen data < 65536 ->
  evdns_server_request_add_reply sizeof req EVDNS_ANSWER_SECTION name type CLASS_INET ttl (zlen data) 0 (Some data) =
    Some (0, req <| answer := answer req ++ [data_item name type CLASS_INET ttl data] |> <| n_answer := n_answer req + 1 |>).
Proof.
  intros Hm Hr Hty Httl Hs. pose proof (zlen_nonneg data). unfold evdns_server_request_add_reply. rewrite Hr.
  cbn [Z.eqb orb negb EVDNS_ANSWER_SECTION]. unfold reply_item.
  pose proof (Hm (sizeof struct_server_reply_item)). destruct (mm_malloc (sizeof struct_server_reply_item)); [|done].
  unfold mm_strdup. pose proof (Hm (zlen name + 1)). destruct (mm_malloc (zlen name + 1)); [|done].
  rewrite size_bits_32 by lia. pose proof (Hm (zlen data)). destruct (mm_malloc (zlen data)); [|done].
  rewrite mem_read_Some by lia. rewrite zdrop_0, ztake_ge by lia. cbn [mbind option_bind ok].
  rewrite !wrap_small by (done || unfold fits; lia). done.
Qed.

Lemma add_addresses_ok (v6 : bool) id from flags name qclass l : mem_ok -> forall l0,
  Forall (address_block (if v6 then 16 else 4)) l -> Forall (fun x : list Z * Z => zlen (fst x) < 65536) l ->
  add_addresses v6 (answered_request id from flags name (if v6 then TYPE_AAAA else TYPE_A) qclass l0) name l =
    Some (answered_request id from flags name (if v6 then TYPE_AAAA else TYPE_A) qclass (l0 ++ l)).
Proof.
  intros Hm. induction l as [|[data ttl] l IH]; intros l0 Hb Hs; cbn [add_addresses]; [by rewrite app_nil_r|].
  apply Forall_cons_split in Hb as [[(n & Hn & Hz) Httl] Hb]. apply Forall_cons_split in Hs as [Hsmall Hs]. cbn [fst snd] in *.
  assert (Hsnoc : (answered_request id from flags name (if v6 then TYPE_AAAA else TYPE_A) qclass l0)
      <| answer := answer (answered_request id from flags name (if v6 then TYPE_AAAA else TYPE_A) qclass l0)
                   ++ [data_item name (if v6 then TYPE_AAAA else TYPE_A) CLASS_INET ttl data] |>
      <| n_answer := n_answer (answered_request id from flags name (if v6 then TYPE_AAAA else TYPE_A) qclass l0) + 1 |>
    = answered_request id from flags name (if v6 then TYPE_AAAA else TYPE_A) qclass (l0 ++ [(data, ttl)])).
  { unfold answered_request. rewrite map_app, zlen_app. done. }
  assert (Hdiv : (if v6 then zlen data / 16 * 16 else zlen data / 4 * 4) = zlen data)
    by (destruct v6; rewrite Hz, (Z.mul_comm _ n), Z.div_mul by lia; done).
  replace (l0 ++ (data, ttl) :: l) with ((l0 ++ [(data, ttl)]) ++ l) by (by rewrite <- app_assoc).
  rewrite <- (IH _ Hb Hs), <- Hsnoc.
  destruct v6; unfold evdns_server_request_add_aaaa_reply, evdns_server_request_add_a_reply;
    rewrite Hdiv, add_reply_ok by done; done.
Qed.
End answers.
