(* ===== verification/DnsPort.v ===== *)
(** The life of a DNS server port: its references, the replies that wait, and what the
    socket callback does with them. *)

From stdpp Require Import relations.
From S2P Require Import Prelude EvChain Cstring EventData Evbuffer EvbufferSpec EvbufferProps Dns DnsPacket DnsServer.

(** A port that is in use while the application holds [k] of its requests: one reference
    for the application unless it is closing, and one for every request. *)
Record port_ok (port : evdns_server_port) (k : Z) : Prop := {
  po_live : freed port = false;
  po_held : 0 <= k;
  po_refcnt : refcnt port = (if closing port then 0 else 1) + zlen (pending_replies port) + k;
  po_positive : 0 < refcnt port;
  po_response : Forall (fun req => response req <> None) (pending_replies port) }.

(** The end of a port: nothing waits, and nothing refers to it. *)
Record port_gone (port : evdns_server_port) : Prop := {
  pg_freed : freed port = true;
  pg_pending : pending_replies port = [];
  pg_refcnt : refcnt port = 0 }.

(** The datagram of a reply. *)
Definition datagram (req : server_request) : list Z * list Z := (default [] (response req), addr req).

(** The fields that sending leaves alone. *)
Definition same_port (port port' : evdns_server_port) : Prop :=
  choked port' = choked port /\ closing port' = closing port.

Section port.
Context {A : Arch} {M : Allocator} (sizeof : dns_struct -> Z) (net : nat -> send_result).

(** Releasing a request that was the first pending one, or one the application held. *)
Lemma server_request_free_ok (first : bool) port k :
  port_ok port k -> (if first then pending_replies port <> [] else 0 < k) ->
  exists port' last_one, server_request_free first port = Some (last_one, port') /\
    pending_replies port' = (if first then tail (pending_replies port) else pending_replies port) /\
    attempts port' = attempts port /\ same_port port port' /\
    if last_one : bool then port_gone port' /\ (if first then k else k - 1) = 0
    else port_ok port' (if first then k else k - 1) /\ watching port' = watching port.
Proof.
  intros [Hf Hk Hr Hp Hresp] Hwhich. unfold server_request_free.
  set (port1 := if first then _ else _). pose proof (zlen_nonneg (pending_replies port)).
  assert (Hpend : pending_replies port1 = if first then tail (pending_replies port) else pending_replies port)
    by (by destruct first).
  assert (Hzl : zlen (pending_replies port1) = zlen (pending_replies port) - (if first then 1 else 0)).
  { rewrite Hpend. destruct first; [|lia]. destruct (pending_replies port); [done|]. rewrite zlen_cons. cbn [tail]. lia. }
  assert (Hsame : refcnt port1 = refcnt port /\ attempts port1 = attempts port /\ closing port1 = closing port /\
                  choked port1 = choked port /\ freed port1 = freed port /\ watching port1 = watching port)
    by (subst port1; by destruct first).
  destruct Hsame as (Hr1 & Ha1 & Hc1 & Hch1 & Hf1 & Hw1). pose proof (zlen_nonneg (pending_replies port1)).
  change (refcnt (port1 <| refcnt := _ |>)) with (refcnt port1 - 1). rewrite Hr1.
  assert (Hcl : 0 <= (if closing port then 0 else 1)) by (destruct (closing port); lia).
  destruct (Z.eqb_spec (refcnt port - 1) 0) as [E|E].
  - assert (Hz : zlen (pending_replies port1) = 0 /\ (if closing port then 0 else 1) = 0) by (destruct first; lia).
    destruct Hz as [Hz Hz']. apply zlen_nil_iff in Hz.
    unfold server_port_free. change (refcnt (port1 <| refcnt := _ |>)) with (refcnt port - 1). rewrite E.
    change (pending_replies (port1 <| refcnt := _ |>)) with (pending_replies port1). rewrite Hz. cbn [Z.eqb andb].
    rewrite bool_decide_true by done. cbn [mbind option_bind]. do 2 eexists. split; [done|].
    change (pending_replies (_ <| freed := true |>)) with (pending_replies port1). rewrite Hpend.
    splits; [done | exact Ha1 | by split | | destruct first; lia]. split; [done | by rewrite <- Hz | done].
  - do 2 eexists. split; [done|]. change (pending_replies (port1 <| refcnt := _ |>)) with (pending_replies port1).
    splits; [exact Hpend | exact Ha1 | by split | | exact Hw1]. split.
    + by rewrite <- Hf1 in Hf.
    + destruct first; lia.
    + change (refcnt (port1 <| refcnt := _ |>)) with (refcnt port - 1).
      change (closing (port1 <| refcnt := _ |>)) with (closing port1). rewrite Hc1.
      change (pending_replies (port1 <| refcnt := _ |>)) with (pending_replies port1). destruct first; lia.
    + change (refcnt (port1 <| refcnt := _ |>)) with (refcnt port - 1). lia.
    + change (pending_replies (port1 <| refcnt := _ |>)) with (pending_replies port1). rewrite Hpend.
      destruct first; [|done]. by destruct Hresp.
Qed.

(** What is pending when a flush stops, and what was sent. *)
Record flushed (port port' : evdns_server_port) (done_ rest : list server_request) : Prop := {
  fl_split : pending_replies port = done_ ++ rest;
  fl_pending : pending_replies port' = rest;
  fl_attempts : attempts port' = attempts port ++ map datagram done_ ++ map datagram (take 1 rest);
  fl_done : forall i, (i < length done_)%nat -> net (length (attempts port) + i) <> Retry;
  fl_rest : rest <> [] -> net (length (attempts port) + length done_) = Retry;
  fl_same : same_port port port' }.

Lemma same_port_trans p1 p2 p3 : same_port p1 p2 -> same_port p2 p3 -> same_port p1 p3.
Proof. intros [E1 E2] [E3 E4]. split; etrans; eassumption. Qed.

Lemma flushed_none port : pending_replies port = [] -> flushed port port [] [].
Proof. intros E. split; [done | done | by rewrite app_nil_r | intros i Hi; cbn in Hi; lia | done | done]. Qed.

(** One reply is sent, or lost, before the others. *)
Lemma flushed_cons port p2 p3 req reqs dn rest :
  pending_replies port = req :: reqs -> net (length (attempts port)) <> Retry -> pending_replies p2 = reqs ->
  attempts p2 = attempts port ++ [datagram req] -> same_port port p2 -> flushed p2 p3 dn rest ->
  flushed port p3 (req :: dn) rest.
Proof.
  intros Hp Hn Hp2 Ha2 Hs2 [Hs Hp3 Ha Hd Hr Hsm]. rewrite Ha2, length_app in *. cbn [length] in *. split.
  - by rewrite Hp, <- Hp2, Hs.
  - done.
  - rewrite Ha, <- !app_assoc. done.
  - intros [|i] Hi; [by rewrite Nat.add_0_r|]. specialize (Hd i ltac:(cbn in Hi; lia)).
    by replace (length (attempts port) + S i)%nat with (length (attempts port) + 1 + i)%nat by lia.
  - intros Hne. rewrite <- (Hr Hne). f_equal. cbn. lia.
  - by apply (same_port_trans _ p2).
Qed.

Lemma flush_loop_ok reqs : forall port k,
  port_ok port k -> pending_replies port = reqs ->
  exists empty port' dn rest, flush_loop net reqs port = Some (empty, port') /\ flushed port port' dn rest /\
    if empty : bool then rest = [] /\ port_ok port' k
    else (rest <> [] /\ port_ok port' k /\ watching port' = watching port) \/ (rest = [] /\ reqs <> [] /\ port_gone port' /\ k = 0).
Proof.
  induction reqs as [|req reqs IH]; intros port k Hp Hreqs; cbn [flush_loop].
  { exists true, port, [], []. splits; [done | by apply flushed_none | done | done]. }
  pose proof Hp as [_ _ _ _ Hresp]. rewrite Hreqs in Hresp. apply Forall_cons_split in Hresp as [Hr _].
  unfold send_reply. destruct (response req) as [d|] eqn:Ed; [|done]. cbn [mbind option_bind].
  assert (Hd : (d, addr req) = datagram req) by (unfold datagram; by rewrite Ed). rewrite Hd.
  set (port1 := port <| attempts := attempts port ++ [datagram req] |>).
  assert (Hp1 : port_ok port1 k) by (by destruct Hp). assert (Hpend1 : pending_replies port1 = req :: reqs) by done.
  destruct (server_request_free_ok true port1 k Hp1) as (p2 & last & Efree & Hpend & Hatt & Hsame & Hres); [by rewrite Hpend1|].
  rewrite Hpend1 in Hpend. cbn [tail] in Hpend.
  assert (Hgo : net (length (attempts port)) <> Retry ->
    exists empty port' dn rest,
      ('(last_one, port) ← server_request_free true port1; if last_one : bool then Some (false, port) else flush_loop net reqs port)
        = Some (empty, port') /\ flushed port port' dn rest /\
      if empty : bool then rest = [] /\ port_ok port' k
      else (rest <> [] /\ port_ok port' k /\ watching port' = watching port) \/ (rest = [] /\ req :: reqs <> [] /\ port_gone port' /\ k = 0)).
  { intros Hn. rewrite Efree. cbn [mbind option_bind]. destruct last.
    - pose proof Hres as [[_ Hnil _] ->]. destruct Hres as [Hgone _]. rewrite Hnil in Hpend.
      exists false, p2, [req], []. splits; [done | | by right].
      apply (flushed_cons port p2 p2 req reqs); [done | done | by rewrite Hnil | done | done | by apply flushed_none].
    - destruct Hres as [Hok Hw]. destruct (IH p2 k Hok Hpend) as (empty & p3 & dn & rest & -> & Hfl & Hres).
      exists empty, p3, (req :: dn), rest. splits; [done | by apply (flushed_cons port p2 p3 req reqs)|].
      destruct empty; [done|]. destruct Hres as [(? & ? & Hw') | (? & _ & ?)]; [left | by right].
      splits; [done | done | by rewrite Hw', Hw]. }
  destruct (net (length (attempts port))) eqn:En; [by apply Hgo| |by apply Hgo].
  exists false, port1, [], (req :: reqs). splits; [done | | by left].
  split; [done | done | done | intros i Hi; cbn in Hi; lia | intros _; by rewrite Nat.add_0_r | done].
Qed.

Lemma server_port_flush_ok port k :
  port_ok port k ->
  exists port' dn rest, server_port_flush net port = Some port' /\ flushed port port' dn rest /\
    ((rest = [] /\ port_ok port' k /\ watching port' = Z.lor EV_READ EV_PERSIST) \/
     (rest <> [] /\ port_ok port' k /\ watching port' = watching port) \/
     (rest = [] /\ pending_replies port <> [] /\ port_gone port' /\ k = 0)).
Proof.
  intros Hp. unfold server_port_flush.
  destruct (flush_loop_ok (pending_replies port) port k Hp eq_refl) as (empty & p' & dn & rest & -> & Hfl & Hres).
  cbn [mbind option_bind]. destruct empty.
  - destruct Hres as [-> [Hf Hk Hr Hpos Hresp]]. do 3 eexists. splits; [done | | left; splits; [done | by split | done]].
    destruct Hfl as [? ? ? ? ? [? ?]]. by split.
  - exists p', dn, rest. splits; [done | done | by right].
Qed.

(** ** Responding *)

Lemma put_questions_refused qs : forall buf j table r,
  put_questions qs buf j table = Some (Refused r) -> r < 0.
Proof.
  induction qs as [|q qs IH]; intros buf j table r; cbn [put_questions]; [done|].
  destruct (dnsname_to_labels _ _ _ _ _) as [[[e b] t]|]; [|done]. cbn [mbind option_bind].
  destruct (Z.ltb_spec e 0); [by intros [= <-]|]. unfold append_or.
  destruct (append_all _ _ _ _) as [[[o b'] j']|]; [|done]. cbn [mbind option_bind]. destruct o; [apply IH | done].
Qed.

Lemma append_or_not_refused buf j l kont r :
  (forall buf j, kont buf j <> Some (Refused r)) -> append_or buf j l kont <> Some (Refused r).
Proof.
  intros H. unfold append_or. destruct (append_all _ _ _ _) as [[[o b'] j']|]; [|done].
  cbn [mbind option_bind]. destruct o; [apply H | done].
Qed.

Lemma put_items_not_refused items : forall buf j table r, put_items items buf j table <> Some (Refused r).
Proof.
  induction items as [|item items IH]; intros buf j table r; cbn [put_items]; [done|].
  destruct (put_item item buf j table) as [f|] eqn:E; [|done]. cbn [mbind option_bind].
  destruct f; [apply IH | done |]. exfalso. revert E. unfold put_item.
  destruct (dnsname_to_labels _ _ _ _ _) as [[[e b] t]|]; [|done]. cbn [mbind option_bind].
  destruct (e <? 0); [done|]. apply append_or_not_refused. clear. intros buf j. unfold put_data.
  destruct (i_is_name item).
  - destruct (i_data item); [|done]. cbn [mbind option_bind].
    destruct (dnsname_to_labels _ _ _ _ _) as [[[e b] t']|]; [|done]. cbn [mbind option_bind].
    destruct (e <? 0); [done|]. by destruct (mem_write _ _ _).
  - apply append_or_not_refused. intros b j'. destruct (_ <? _); [done|].
    destruct (mem_read _ _ _); [|done]. cbn [mbind option_bind]. by destruct (mem_write _ _ _).
Qed.

(** Formatting fails with a negative result, or leaves a response. *)
Lemma format_response_result req err stack r req' :
  evdns_server_request_format_response req err stack = Some (r, req') -> r < 0 \/ (r = 0 /\ response req' <> None).
Proof.
  unfold evdns_server_request_format_response. destruct (_ || _); [intros [= <- <-]; by left|].
  destruct (format_packet req err stack) as [f|] eqn:E; [|done]. cbn [mbind option_bind].
  destruct f as [buf j t|buf|r0].
  3: { intros [= <- <-]. left. unfold format_packet, append_or in E.
    destruct (append_all _ _ _ _) as [[[o b'] j']|]; [|done]. cbn [mbind option_bind] in E. destruct o; [|done].
    destruct (put_questions _ _ _ _) as [f|] eqn:Eq; [|done]. cbn [mbind option_bind] in E.
    destruct f; [by apply put_items_not_refused in E | done |]. injection E as ->. by apply put_questions_refused in Eq. }
  all: match goal with |- (?m ≫= _) = _ -> _ => destruct m as [d|]; [|done] end; cbn [mbind option_bind];
    destruct (mm_malloc _); intros [= <- <-]; [by right | by left].
Qed.

(** The response of a request, formatted or there already. *)
Definition ready_response (req : server_request) (err : Z) (stack : list Z) : option (Z * server_request) :=
  match response req with
  | Some _ => Some (0, req)
  | None => evdns_server_request_format_response req err stack
  end.

Lemma ready_response_result req err stack r req' :
  ready_response req err stack = Some (r, req') -> r < 0 \/ (r = 0 /\ response req' <> None).
Proof.
  unfold ready_response. destruct (response req) as [d|] eqn:E; [|apply format_response_result].
  intros [= <- <-]. right. by rewrite E.
Qed.

Lemma add_attempt_ok port k d : port_ok port k -> port_ok (port <| attempts := attempts port ++ [d] |>) k.
Proof. by intros [? ? ? ? ?]. Qed.

(** A request that waits instead of being held. *)
Lemma queued_ok port port' k req :
  port_ok port k -> 0 < k -> response req <> None -> freed port' = freed port -> refcnt port' = refcnt port ->
  closing port' = closing port -> pending_replies port' = pending_replies port ++ [req] -> port_ok port' (k - 1).
Proof.
  intros [Hf Hk Hr Hp Hresp] Hk' Hn Ef Er Ec Ep. split; [by rewrite Ef | lia | | by rewrite Er |].
  - rewrite Er, Ec, Ep, zlen_app. change (zlen [req]) with 1. lia.
  - rewrite Ep. apply Forall_app. split; [done | by constructor].
Qed.

(** What [evdns_server_request_respond] does with a response that is ready. *)
Lemma respond_ok req req' err stack port k :
  port_ok port k -> 0 < k -> ready_response req err stack = Some (0, req') ->
  exists r owned port', evdns_server_request_respond net req err stack port = Some (r, owned, port') /\
    match net (length (attempts port)) with
    | Sent => r = 0 /\ owned = None /\ (port_ok port' (k - 1) \/ (port_gone port' /\ k = 1))
    | Retry => r = -1 /\ owned = Some req' /\ port_ok port' k /\ pending_replies port' = pending_replies port
    | Failed => r = 1 /\ owned = None /\ port_ok port' (k - 1) /\ pending_replies port' = pending_replies port ++ [req']
    end.
Proof.
  intros Hp Hk Hready. pose proof (ready_response_result _ _ _ _ _ Hready) as [?|[_ Hresp]]; [lia|].
  unfold evdns_server_request_respond. change (match response req with Some _ => _ | None => _ end) with (ready_response req err stack).
  rewrite Hready. cbn [mbind option_bind Z.ltb Z.compare]. unfold send_reply.
  destruct (response req') as [d|] eqn:Ed; [|done]. cbn [mbind option_bind].
  set (port1 := port <| attempts := _ |>). assert (Hp1 : port_ok port1 k) by by apply add_attempt_ok.
  destruct (net (length (attempts port))).
  - destruct (server_request_free_ok false port1 k Hp1 Hk) as (p2 & last & -> & Hpend & _ & _ & Hres). cbn [mbind option_bind].
    destruct last.
    { destruct Hres as [Hgone Hk1]. exists 0, None, p2. splits; [done.. |]. right. split; [done | lia]. }
    destruct Hres as [Hok _]. destruct (pending_replies p2) as [|q qs] eqn:Eq.
    + exists 0, None, p2. splits; [done.. |]. by left.
    + destruct (server_port_flush_ok p2 (k - 1) Hok) as (p3 & dn & rest & -> & _ & Hres). cbn [mbind option_bind].
      exists 0, None, p3. splits; [done.. |]. destruct Hres as [(_ & ? & _) | [(_ & ? & _) | (_ & _ & ? & ?)]]; [by left.. |].
      right. split; [done | lia].
  - exists (-1), (Some req'), port1. done.
  - assert (Hr : response req' <> None) by (by rewrite Ed).
    destruct (pending_replies port1) as [|q qs] eqn:Eq; do 3 eexists; (split; [done|]);
      change (pending_replies port1) with (pending_replies port) in *;
      (splits; [done | done | apply (queued_ok port _ k req'); try done; by rewrite ?Eq | by rewrite ?Eq]).
Qed.

(** A response that is refused leaves everything to the application. *)
Lemma respond_refused req req' err stack port r :
  ready_response req err stack = Some (r, req') -> r < 0 ->
  evdns_server_request_respond net req err stack port = Some (r, Some req', port).
Proof.
  intros Hready Hr. unfold evdns_server_request_respond.
  change (match response req with Some _ => _ | None => _ end) with (ready_response req err stack).
  rewrite Hready. cbn [mbind option_bind]. by rewrite (proj2 (Z.ltb_lt _ _)).
Qed.

(** ** Runs *)

(** A port and the number of requests the application holds.  The application answers
    and drops requests it holds, and closes the port once; the network brings requests
    and makes the socket writable. *)
Inductive port_step : evdns_server_port * Z -> evdns_server_port * Z -> Prop :=
| step_request port k :
    freed port = false -> port_step (port, k) (port <| refcnt := refcnt port + 1 |>, k + 1)
| step_respond port k req err stack r owned port' :
    freed port = false -> 0 < k -> evdns_server_request_respond net req err stack port = Some (r, owned, port') ->
    port_step (port, k) (port', match owned with Some _ => k | None => k - 1 end)
| step_drop port k last_one port' :
    freed port = false -> 0 < k -> evdns_server_request_drop port = Some (last_one, port') ->
    port_step (port, k) (port', k - 1)
| step_close port k port' :
    freed port = false -> closing port = false -> evdns_close_server_port port = Some port' ->
    port_step (port, k) (port', k)
| step_writable port k port' :
    freed port = false -> server_port_flush net (port <| choked := false |>) = Some port' ->
    port_step (port, k) (port', k).

Definition port_inv (x : evdns_server_port * Z) : Prop :=
  port_ok (fst x) (snd x) \/ (port_gone (fst x) /\ snd x = 0).

Lemma close_ok port k :
  port_ok port k -> closing port = false ->
  exists port', evdns_close_server_port port = Some port' /\ port_inv (port', k).
Proof.
  intros [Hf Hk Hr Hp Hresp] Hc. rewrite Hc in Hr. pose proof (zlen_nonneg (pending_replies port)).
  unfold evdns_close_server_port. change (refcnt (port <| refcnt := _ |>)) with (refcnt port - 1).
  destruct (Z.eqb_spec (refcnt port - 1) 0) as [E|E].
  - assert (Hnil : zlen (pending_replies port) = 0) by lia. apply zlen_nil_iff in Hnil.
    unfold server_port_free. change (refcnt (port <| refcnt := _ |>)) with (refcnt port - 1). rewrite E.
    change (pending_replies (port <| refcnt := _ |>)) with (pending_replies port). rewrite Hnil, bool_decide_true by done.
    eexists. split; [done|]. right. split; [by split | cbn; lia].
  - eexists. split; [done|]. left. cbn [fst snd]. split; [done | done | | | done].
    + cut (refcnt port - 1 = 0 + zlen (pending_replies port) + k); [done | lia].
    + cut (0 < refcnt port - 1); [done | lia].
Qed.

Lemma request_ok port k : port_ok port k -> port_ok (port <| refcnt := refcnt port + 1 |>) (k + 1).
Proof.
  intros [Hf Hk Hr Hp Hresp]. split; [done | lia | | | done].
  - cut (refcnt port + 1 = (if closing port then 0 else 1) + zlen (pending_replies port) + (k + 1)); [done | lia].
  - cut (0 < refcnt port + 1); [done | lia].
Qed.

Lemma port_step_inv x y : port_inv x -> port_step x y -> port_inv y.
Proof.
  intros Hx Hs. assert (Hok : freed (fst x) = false -> port_ok (fst x) (snd x)).
  { intros Hf. destruct Hx as [Hx|[Hg _]]; [done|]. by rewrite (pg_freed _ Hg) in Hf. }
  destruct Hs as [port k Hf | port k req err stack r owned port' Hf Hk E | port k last port' Hf Hk E
                 | port k port' Hf Hc E | port k port' Hf E]; cbn [fst snd] in Hok; specialize (Hok Hf).
  - left. by apply request_ok.
  - pose proof E as E'. unfold evdns_server_request_respond in E'.
    change (match response req with Some _ => _ | None => _ end) with (ready_response req err stack) in E'.
    destruct (ready_response req err stack) as [[r0 req0]|] eqn:Er; [|done]. clear E'.
    destruct (ready_response_result _ _ _ _ _ Er) as [Hneg|[-> _]].
    + rewrite (respond_refused _ _ _ _ _ _ Er Hneg) in E. injection E as <- <- <-. by left.
    + destruct (respond_ok _ _ _ _ _ _ Hok Hk Er) as (r1 & o1 & p1 & E1 & Hres). rewrite E1 in E. injection E as <- <- <-.
      destruct (net _); [destruct Hres as (_ & -> & [?|[? ->]]); [by left | by right] | | ];
        destruct Hres as (_ & -> & ? & _); by left.
  - unfold evdns_server_request_drop in E.
    destruct (server_request_free_ok false port k Hok Hk) as (p1 & l1 & E1 & _ & _ & _ & Hres). rewrite E1 in E. injection E as <- <-.
    destruct l1; [right; by destruct Hres | left; by destruct Hres].
  - destruct (close_ok port k Hok Hc) as (p1 & E1 & Hres). rewrite E1 in E. by injection E as <-.
  - destruct (server_port_flush_ok (port <| choked := false |>) k) as (p1 & dn & rest & E1 & _ & Hres); [by destruct Hok; split|].
    rewrite E1 in E. injection E as <-.
    destruct Hres as [(_ & ? & _)|[(_ & ? & _)|(_ & _ & ? & ->)]]; [by left.. | by right].
Qed.

Lemma port_run_inv x : rtc port_step (evdns_add_server_port_with_base, 0) x -> port_inv x.
Proof.
  assert (H0 : port_inv (evdns_add_server_port_with_base, 0)) by (left; by split).
  revert H0. generalize (evdns_add_server_port_with_base, 0) as y. intros y Hy Hr.
  induction Hr as [|x y z Hs _ IH]; [done|]. by apply IH, (port_step_inv x).
Qed.
End port.
