(* ===== verification/DnsProps.v ===== *)
(** The properties of DNS names and packets: names survive writing and parsing with
    compression, the parser is safe and ends, where it is not; the exchange of a query and
    its answer between this client and this server; the replies that wait at a port. *)

From stdpp Require Import relations.
From S2P Require Import Prelude EvChain Cstring UriCoding EventData Evbuffer EvbufferSpec EvbufferProps Dns DnsPacket DnsServer DnsSpec DnsWire DnsExchange DnsPort.
#[local] Open Scope dns_scope.

Section props.
Context {A : Arch} {M : Allocator}.

(** C30: A name with labels of 1 to 63 characters, written with [dnsname_to_labels] at a
    position of a packet whose compression table is correct, takes at most two bytes more
    than its text; what is before it stays, the table is correct again, and
    [name_parse] reads back the name (without the dot that may end it) and the position
    after it, in this packet and in every longer one that starts with it. *)
Theorem dnsname_to_labels_roundtrip buf buf_len j name table :
  cstring name -> dns_name name -> zlen name <= 255 -> 0 <= j -> j + zlen name + 2 <= buf_len <= zlen buf ->
  buf_len <= 16384 -> table_ok buf j table ->
  exists j' buf' table', dnsname_to_labels buf buf_len j name table = Some (j', buf', table') /\
    j < j' <= j + zlen name + 2 /\ zlen buf' = zlen buf /\ ztake j buf' = ztake j buf /\ table_ok buf' j' table' /\
    forall packet length, ztake j' packet = ztake j' buf' -> j' <= length <= zlen packet ->
      name_parse packet length j 256 = Some (Some (j', no_final_dot name)).
Proof.
  intros Hc Hd Hl Hj Hb Hm Ht.
  destruct (dnsname_to_labels_ok buf buf_len j name table) as (j' & b' & t' & E & [Hz Hp Hr [k Hn] _] & Ht'); [done..|].
  exists j', b', t'. splits; [done | lia | lia | done | done | done|]. intros packet length Hpre Hlen.
  rewrite (name_parse_ok packet length 256 j (proper_labels name) j' k); [by rewrite join_labels_proper| | |].
  - by apply (name_at_prefix b' packet j').
  - lia.
  - rewrite join_labels_proper by done. pose proof (no_final_dot_short name). lia.
Qed.

End props.

(** The parser does not check that a label ends inside the packet. *)
Lemma name_parse_past_end packet length idx n name_out_len :
  byte_at packet idx = Some n -> 0 < n <= 63 -> n < name_out_len -> idx < length -> zlen packet < idx + 1 + n ->
  name_parse packet length idx name_out_len = None.
Proof.
  intros Hb Hn Ho Hi Ha. unfold name_parse. destruct (_ + 2)%nat as [|fuel] eqn:E; [lia|]. cbn [name_parse_loop].
  rewrite (proj2 (Z.leb_gt _ _)) by lia. rewrite Hb. cbn [mbind option_bind].
  rewrite (proj2 (Z.eqb_neq n 0)), short_label, (proj2 (Z.ltb_ge 63 n)) by lia.
  cbn [Z.eqb negb]. rewrite bool_decide_false by tauto. cbn [andb]. change (zlen []) with 0.
  rewrite (proj2 (Z.leb_gt _ _)) by lia. unfold mem_read.
  assert (idx + 1 + n <=? zlen packet = false) as -> by (apply Z.leb_gt; lia). by rewrite andb_false_r.
Qed.

(** C31: Whatever bytes a packet has, [name_parse] ends, also when pointers form a loop,
    and reads at most 63 bytes past the length given; a name it accepts is shorter than
    the buffer for it, and the position moves forward within the packet.  When the memory
    ends before a label does, it reads past the end. *)
Theorem name_parse_terminates packet length idx name_out_len :
  Forall is_byte packet -> 0 <= idx ->
  (length + 63 <= zlen packet ->
   exists r, name_parse packet length idx name_out_len = Some r /\
     forall idx' name, r = Some (idx', name) -> zlen name < name_out_len /\ idx < idx' <= length) /\
  (forall n, byte_at packet idx = Some n -> 0 < n <= 63 -> n < name_out_len -> idx < length -> zlen packet < idx + 1 + n ->
   name_parse packet length idx name_out_len = None).
Proof.
  intros Hp Hi. split; [intros; by apply name_parse_safe | intros n ?????; by apply (name_parse_past_end _ _ _ n)].
Qed.

(** [dnsname_to_labels] checks the space for each label and its length byte but not
    for the zero at the end: when the last label ends exactly with the buffer, the zero
    is written after it. *)
Lemma dnsname_to_labels_overflow {A : Arch} {M : Allocator} buf j name :
  cstring name -> name <> [] -> ch "." ∉ name -> zlen name <= 63 -> 0 <= j -> j + 1 + zlen name = zlen buf ->
  zlen buf <= 16384 ->
  dnsname_to_labels buf (zlen buf) j name None = None.
Proof.
  intros Hc Hne Hdot Hl Hj Hb Hm. unfold dnsname_to_labels. rewrite (proj2 (Z.ltb_ge 255 _)) by lia.
  cbn [labels_loop table_pos table_add]. change (0 <=? -1) with false. cbv zeta.
  rewrite (proj2 (strchr_None _ _) Hdot). pose proof (zlen_nonneg name).
  rewrite (proj2 (Z.ltb_ge 63 _)), size_bits_32, (proj2 (Z.ltb_ge (zlen buf) _)) by lia.
  destruct (put_label_ok buf j name) as (b1 & -> & Hz & _ & _ & H1); [lia..|]. cbn [mbind option_bind].
  destruct name as [|c s _] using rev_ind; [done|]. apply Forall_app_split in Hc as [_ [Hx _]%Forall_cons_split].
  rewrite zlen_app, zlen_cons in *. change (zlen []) with 0 in *.
  pose proof (mem_read_lookup _ _ _ _ (length s) H1 ltac:(unfold zlen in *; lia)) as Hlast.
  rewrite lookup_app_r, Nat.sub_diag in Hlast by lia. cbn in Hlast.
  replace (j + 1 + (zlen s + (1 + 0)) - 1) with (j + 1 + Z.of_nat (length s)) by (unfold zlen; lia).
  rewrite Hlast. cbn [mbind option_bind]. unfold is_char in Hx. rewrite (proj2 (Z.eqb_neq c 0)) by lia. cbn [negb].
  unfold mem_write. change (zlen [0]) with 1.
  assert (j + 1 + (zlen s + (1 + 0)) + 1 <=? zlen b1 = false) as -> by (apply Z.leb_gt; lia).
  by rewrite andb_false_r.
Qed.


(** ** Server ports *)

(** C32: From a new port, whatever order requests arrive, are answered or dropped, the socket
    becomes writable, and the port is closed in: the port is released exactly when it was
    closed, no request is held and no reply waits; until then its count of references is
    right, every waiting request has its response, and no assertion of [server_port_free]
    fails in releasing a request, closing or flushing. *)
Theorem server_port_references {A : Arch} {M : Allocator} net port k :
  rtc (port_step net) (evdns_add_server_port_with_base, 0) (port, k) ->
  (port_gone port /\ k = 0) \/
  (port_ok port k /\ (exists port', server_port_flush net port = Some port') /\
   (0 < k -> exists r, evdns_server_request_drop port = Some r) /\
   (closing port = false -> exists port', evdns_close_server_port port = Some port')).
Proof.
  intros [Hok | Hgone]%port_run_inv; [right | by left]. cbn [fst snd] in Hok. splits; [done | | |].
  - destruct (server_port_flush_ok net port k Hok) as (p & _ & _ & E & _). by exists p.
  - intros Hk. destruct (server_request_free_ok false port k Hok Hk) as (p & l & E & _). by exists (l, p).
  - intros Hc. destruct (close_ok port k Hok Hc) as (p & E & _). by exists p.
Qed.

(** C33: [server_port_flush] sends the waiting replies in their order, each once, until the
    socket is full; the reply that did not fit and those after it keep waiting; replies
    that cannot be sent at all are given up; and when none is left the port listens for
    requests only, or is released when that was all it waited for. *)
Theorem server_port_flush_spec {A : Arch} {M : Allocator} net port k :
  port_ok port k ->
  exists port' dn rest, server_port_flush net port = Some port' /\ flushed net port port' dn rest /\
    ((rest = [] /\ port_ok port' k /\ watching port' = Z.lor EV_READ EV_PERSIST) \/
     (rest <> [] /\ port_ok port' k /\ watching port' = watching port) \/
     (rest = [] /\ pending_replies port <> [] /\ port_gone port' /\ k = 0)).
Proof. apply server_port_flush_ok. Qed.

(** When the socket is full, [evdns_server_request_respond] returns -1 and does not
    queue the reply, so nothing sends it later; when sending fails for good, the reply is
    queued.  The comment on the queue says that it is for replies that met a full socket. *)
Theorem respond_queues_on_wrong_error {A : Arch} {M : Allocator} net req req' err stack port k :
  port_ok port k -> 0 < k -> ready_response req err stack = Some (0, req') ->
  (net (length (attempts port)) = Retry ->
     exists port', evdns_server_request_respond net req err stack port = Some (-1, Some req', port') /\
                   pending_replies port' = pending_replies port) /\
  (net (length (attempts port)) = Failed ->
     exists port', evdns_server_request_respond net req err stack port = Some (1, None, port') /\
                   pending_replies port' = pending_replies port ++ [req']).
Proof.
  intros Hp Hk Hr. destruct (respond_ok net req req' err stack port k Hp Hk Hr) as (r & o & p & E & Hres).
  split; intros En; rewrite En in Hres; destruct Hres as (-> & -> & _ & Hq); by exists p.
Qed.

(** ** Concrete instances *)

#[local] Existing Instance win64.
#[local] Existing Instance zero_allocator.

Definition example_name : list Z := bytes_of "www.example.org".

Lemma example_name_ok : cstring example_name /\ dns_name example_name /\ zlen example_name = 15.
Proof. splits; [|by vm_compute; repeat split|done]. apply (bool_decide_unpack _). by vm_compute. Qed.

(** After a first name, a second one with the same end is written with a pointer. *)
Lemma dnsname_to_labels_roundtrip_witness :
  exists j' buf' table', dnsname_to_labels (replicate 64 7) 64 0 example_name (Some []) = Some (j', buf', table') /\
    name_parse buf' 64 0 256 = Some (Some (17, example_name)) /\
    exists b2 t2, dnsname_to_labels buf' 64 17 (bytes_of "mail.example.org") table' = Some (24, b2, t2) /\
                  name_parse b2 64 17 256 = Some (Some (24, bytes_of "mail.example.org")).
Proof.
  destruct example_name_ok as (Hc & Hd & Hl).
  destruct (dnsname_to_labels_roundtrip (replicate 64 7) 64 0 example_name (Some [])) as (j' & b & t & E & Hj & Hz & _ & Ht & Hp);
    [done | done | lia | done | rewrite Hl; by vm_compute | done | by intros x Hx%elem_of_nil|].
  exists j', b, t. split; [done|].
  assert (Hj' : j' = 17) by (vm_compute in E; by injection E as <- <- <-). subst j'.
  split; [apply (Hp b 64); [done | rewrite Hz; by vm_compute]|].
  vm_compute in E. injection E as <- <-. do 2 eexists. split; [vm_compute; reflexivity | vm_compute; reflexivity].
Defined.

Lemma name_parse_terminates_witness :
  (exists r, name_parse (0xc0 :: 0 :: replicate 70 0) 2 0 256 = Some r) /\
  name_parse [5; 97; 98] 3 0 256 = None.
Proof.
  split.
  - destruct (name_parse_terminates (0xc0 :: 0 :: replicate 70 0) 2 0 256) as [(r & E & _) _];
      [| done | by vm_compute | by exists r].
    apply (bool_decide_unpack _). by vm_compute.
  - apply (proj2 (name_parse_terminates [5; 97; 98] 3 0 256 ltac:(apply (bool_decide_unpack _); by vm_compute) ltac:(done)) 5);
      by vm_compute.
Defined.

Definition example_addresses : list (list Z * Z) := [([10; 0; 0; 1; 10; 0; 0; 2], 300); ([10; 0; 0; 3], 60)].


(** A request with a response that is ready, and one socket that sends a datagram and then
    is full. *)
Definition example_reply (b : Z) : server_request :=
  {| sr_trans_id := 1; addr := [b]; n_answer := 0; n_authority := 0; n_additional := 0; answer := []; authority := [];
     additional := []; response := Some [b; b]; sr_flags := 0; questions := [] |}.

Definition one_datagram (n : nat) : send_result := match n with O => Sent | _ => Retry end.

Definition example_port : evdns_server_port :=
  {| refcnt := 3; choked := true; closing := true; pending_replies := [example_reply 1; example_reply 2];
     watching := Z.lor EV_WRITE EV_PERSIST; attempts := []; freed := false |}.

Lemma example_port_ok : port_ok example_port 1.
Proof. split; [done | done | done | done|]. by repeat constructor. Qed.

Lemma server_port_references_witness :
  exists port, rtc (port_step one_datagram) (evdns_add_server_port_with_base, 0) (port, 1) /\ closing port = true /\
    exists port', server_port_flush one_datagram port = Some port'.
Proof.
  set (p1 := evdns_add_server_port_with_base <| refcnt := 2 |>). set (p2 := p1 <| refcnt := 1 |> <| closing := true |>).
  assert (Hrun : rtc (port_step one_datagram) (evdns_add_server_port_with_base, 0) (p2, 1)).
  { eapply rtc_l; [by apply (step_request one_datagram evdns_add_server_port_with_base 0)|].
    eapply rtc_l; [by apply (step_close one_datagram p1 1 p2)|]. apply rtc_refl. }
  exists p2. split; [exact Hrun|]. split; [done|].
  destruct (server_port_references one_datagram p2 1 Hrun) as [[_ Hk] | (_ & Hfl & _)]; [discriminate Hk | exact Hfl].
Defined.

Lemma server_port_flush_witness :
  exists port', server_port_flush one_datagram example_port = Some port' /\
    pending_replies port' = [example_reply 2] /\ attempts port' = [([1; 1], [1]); ([2; 2], [2])].
Proof.
  destruct (server_port_flush_spec one_datagram example_port 1 example_port_ok) as (p & dn & rest & E & _ & _).
  exists p. split; [exact E|]. vm_compute in E. injection E as <-. done.
Defined.

Lemma respond_queues_on_wrong_error_witness :
  exists port', evdns_server_request_respond (fun _ => Retry) (example_reply 3) 0 [] example_port =
                  Some (-1, Some (example_reply 3), port') /\
                pending_replies port' = [example_reply 1; example_reply 2].
Proof.
  apply (proj1 (respond_queues_on_wrong_error (fun _ => Retry) (example_reply 3) (example_reply 3) 0 [] example_port 1
    example_port_ok ltac:(done) ltac:(done))). done.
Defined.
