(* ===== verification/DnsBase.v ===== *)
(** The state of the resolver of [evdns.c]: requests in flight and waiting, the handles of
    the application, name servers, search lists, and the elementary operations on them.

    Requests, handles, name servers and search states are objects of a store; a pointer is
    a number, and a number that is not in the store is a dangling pointer.  The circular
    lists are lists that start at the head.  The operations are written in a state monad
    whose [None] is undefined behaviour or a failed assertion. *)

From stdpp Require Import gmap.
From S2P Require Import Prelude StateOp EvChain Cstring UriCoding Inet Dns DnsPacket DnsServer.

(** ** Data *)

(** [struct evdns_request], the handle of a lookup. *)
Record evdns_request := {
  current_req : option nat;
  pending_cb : bool;
  search_index : Z;
  search_state : option nat;
  search_origname : option (list Z);
  search_flags : Z }.

#[export] Instance settable_evdns_request : Settable evdns_request := fun h =>
  {| current_req := current_req h; pending_cb := pending_cb h; search_index := search_index h;
     search_state := search_state h; search_origname := search_origname h; search_flags := search_flags h |}.

(** [struct nameserver]; [probe_timer] says whether [timeout_event] runs, and how long. *)
Record nameserver := {
  address : sockaddr;
  failed_times : Z;
  timedout : Z;
  probe_timer : option (Z * Z);
  probe_request : option nat;
  up : bool;
  ns_choked : bool;
  write_waiting : bool }.

#[export] Instance settable_nameserver : Settable nameserver := fun s =>
  {| address := address s; failed_times := failed_times s; timedout := timedout s; probe_timer := probe_timer s;
     probe_request := probe_request s; up := up s; ns_choked := ns_choked s; write_waiting := write_waiting s |}.

(** [struct search_state], which is shared between the base and the handles. *)
Record search := { ss_refcount : Z; ndots : Z; num_domains : Z; domains : list (list Z) }.

#[export] Instance settable_search : Settable search := fun s =>
  {| ss_refcount := ss_refcount s; ndots := ndots s; num_domains := num_domains s; domains := domains s |}.

(** A call of [user_callback] that [reply_schedule_callback] has queued. *)
Record deferred_reply_callback := {
  d_callback : dns_callback;
  d_request_type : Z;
  d_ttl : Z;
  d_err : Z;
  d_reply : option reply;
  d_handle : option nat }.

(** [struct evdns_base]: the store, the lists, the counters, the settings; the callbacks
    that are queued, the number of random draws and of calls of [sendto] so far. *)
Record evdns_base := {
  requests : gmap nat request;
  handles : gmap nat evdns_request;
  servers : gmap nat nameserver;
  searches : gmap nat search;
  next_id : nat;
  req_heads : list (list nat);
  req_waiting_head : list nat;
  server_head : list nat;
  global_good_nameservers : Z;
  global_requests_inflight : Z;
  global_requests_waiting : Z;
  global_max_requests_inflight : Z;
  global_max_reissues : Z;
  global_max_retransmits : Z;
  global_max_nameserver_timeout : Z;
  global_randomize_case : bool;
  global_nameserver_probe_initial_timeout : Z * Z;
  global_search_state : option nat;
  deferred : list deferred_reply_callback;
  draws : nat;
  sends : nat }.

#[export] Instance settable_evdns_base : Settable evdns_base := fun b =>
  {| requests := requests b; handles := handles b; servers := servers b; searches := searches b; next_id := next_id b;
     req_heads := req_heads b; req_waiting_head := req_waiting_head b; server_head := server_head b;
     global_good_nameservers := global_good_nameservers b; global_requests_inflight := global_requests_inflight b;
     global_requests_waiting := global_requests_waiting b;
     global_max_requests_inflight := global_max_requests_inflight b; global_max_reissues := global_max_reissues b;
     global_max_retransmits := global_max_retransmits b;
     global_max_nameserver_timeout := global_max_nameserver_timeout b;
     global_randomize_case := global_randomize_case b;
     global_nameserver_probe_initial_timeout := global_nameserver_probe_initial_timeout b;
     global_search_state := global_search_state b; deferred := deferred b; draws := draws b; sends := sends b |}.

(** What the code around the resolver gives: random 16-bit numbers and bytes, the results
    of [sendto], and the sizes of the structs.  Among [rand_gap] numbers in a row there is
    one outside any set of fewer than 65535 numbers. *)
Inductive resolver_struct := struct_request | struct_evdns_request | struct_nameserver | struct_search_state
  | struct_search_domain | struct_deferred_reply_callback.

Class ResolverEnv := {
  rand16 : nat -> Z;
  randbyte : nat -> Z;
  rand_gap : nat;
  net : nat -> send_result;
  sizeof : resolver_struct -> Z;
  sizeof_range : forall s, 0 <= sizeof s < 65536;
  rand16_range : forall n, fits 16 (rand16 n);
  rand16_fair : forall n (l : list Z), zlen l < 65535 -> exists i, (i < rand_gap)%nat /\ rand16 (n + i) ∉ l }.

(** ** The monad *)

Abbreviation base_op := (state_op evdns_base).

(** Reading and writing an object through a pointer. *)
Definition the_request (r : nat) : base_op request := fun b => q ← requests b !! r; Some (q, b).
Definition the_handle (h : nat) : base_op evdns_request := fun b => q ← handles b !! h; Some (q, b).
Definition the_server (s : nat) : base_op nameserver := fun b => q ← servers b !! s; Some (q, b).
Definition the_search (s : nat) : base_op search := fun b => q ← searches b !! s; Some (q, b).

Definition update_request (r : nat) (f : request -> request) : base_op unit :=
  let! q := the_request r in modify (fun b => b <| requests := <[r := f q]> (requests b) |>).
Definition update_handle (h : nat) (f : evdns_request -> evdns_request) : base_op unit :=
  let! q := the_handle h in modify (fun b => b <| handles := <[h := f q]> (handles b) |>).
Definition update_server (s : nat) (f : nameserver -> nameserver) : base_op unit :=
  let! q := the_server s in modify (fun b => b <| servers := <[s := f q]> (servers b) |>).
Definition update_search (s : nat) (f : search -> search) : base_op unit :=
  let! q := the_search s in modify (fun b => b <| searches := <[s := f q]> (searches b) |>).

(** The number of a new object. *)
Definition new_id : base_op nat := fun b => Some (next_id b, b <| next_id := S (next_id b) |>).

(** ** Lists of requests *)

(** The head of a list: one of the lists in flight, or the waiting list. *)
Inductive list_head := Inflight (i : nat) | Waiting.

(** [&REQ_HEAD(base, id)]. *)
Definition head_index (heads : list (list nat)) (id : Z) : nat := Z.to_nat (id mod zlen heads).
Definition REQ_HEAD (id : Z) : base_op list_head := fun b => Some (Inflight (head_index (req_heads b) id), b).

Definition list_at (b : evdns_base) (h : list_head) : list nat :=
  match h with Inflight i => default [] (req_heads b !! i) | Waiting => req_waiting_head b end.

Definition set_list (h : list_head) (l : list nat) (b : evdns_base) : evdns_base :=
  match h with
  | Inflight i => b <| req_heads := <[i := l]> (req_heads b) |>
  | Waiting => b <| req_waiting_head := l |>
  end.

(** [ASSERT_VALID_REQUEST]. *)
Definition assert_valid_request (r : nat) : base_op unit :=
  let! q := the_request r in
  match handle q with
  | None => undefined
  | Some h => let! hd := the_handle h in assert (bool_decide (current_req hd = Some r))
  end.

(** Removal from a list the request is not in would break the lists. *)
Definition evdns_request_remove (r : nat) (head : list_head) : base_op unit :=
  assert_valid_request r ;;
  let! l := asks (fun b => list_at b head) in
  assert (bool_decide (r ∈ l)) ;;
  modify (set_list head (filter (fun x => x <> r) l)).

Definition evdns_request_insert (r : nat) (head : list_head) : base_op unit :=
  assert_valid_request r ;;
  let! l := asks (fun b => list_at b head) in
  modify (set_list head (l ++ [r])).

(** [request_find_from_trans_id]. *)
Fixpoint find_trans_id (rs : gmap nat request) (trans_id : Z) (l : list nat) : option nat :=
  match l with
  | [] => None
  | r :: l' => match rs !! r with
               | Some q => if DnsPacket.trans_id q =? trans_id then Some r else find_trans_id rs trans_id l'
               | None => None
               end
  end.

Definition request_find_from_trans_id (trans_id : Z) : base_op (option nat) :=
  let! head := REQ_HEAD trans_id in
  asks (fun b => find_trans_id (requests b) trans_id (list_at b head)).

(** ** Transaction ids *)

Section env.
Context {A : Arch} {M : Allocator} {E : ResolverEnv}.

(** The loop of [transaction_id_pick]; the fuel is the [rand_gap] of the generator. *)
Fixpoint pick_trans_id (fuel : nat) : base_op Z :=
  match fuel with
  | O => undefined
  | S fuel' =>
    let! id := asks (fun b => rand16 (draws b)) in
    modify (fun b => b <| draws := S (draws b) |>) ;;
    if id =? 0xffff then pick_trans_id fuel' else
    let! found := request_find_from_trans_id id in
    match found with None => ret id | Some _ => pick_trans_id fuel' end
  end.

Definition transaction_id_pick : base_op Z := pick_trans_id rand_gap.

Definition request_trans_id_set (r : nat) (trans_id : Z) : base_op unit :=
  let! q := the_request r in
  let! p := lift (mem_write (packet q) 0 (be16 trans_id)) in
  update_request r (fun q => q <| packet := p |> <| DnsPacket.trans_id := trans_id |>).

(** ** Choosing a name server *)

Definition rotate (l : list nat) : list nat := match l with [] => [] | s :: l' => l' ++ [s] end.

(** The loop over the ring; it comes back to its start only when no server is up, which
    the assertion then contradicts. *)
Fixpoint pick_up_server (fuel : nat) : base_op (option nat) :=
  match fuel with
  | O => undefined
  | S fuel' =>
    let! ring := asks server_head in
    match ring with
    | [] => undefined
    | s :: _ =>
      let! ns := the_server s in
      modify (fun b => b <| server_head := rotate (server_head b) |>) ;;
      if up ns then ret (Some s) else pick_up_server fuel'
    end
  end.

Definition nameserver_pick : base_op (option nat) :=
  let! ring := asks server_head in
  match ring with
  | [] => ret None
  | _ =>
    let! good := asks global_good_nameservers in
    if good =? 0 then
      modify (fun b => b <| server_head := rotate (server_head b) |>) ;;
      asks (fun b => head (server_head b))
    else pick_up_server (length ring)
  end.

(** ** Failed servers *)

(** Requests of a server that are not sent yet go to another one. *)
Fixpoint reassign (s : nat) (l : list nat) : base_op unit :=
  match l with
  | [] => ret tt
  | r :: l' =>
    let! q := the_request r in
    when ((tx_count q =? 0) && bool_decide (ns q = Some s))
      (let! s' := nameserver_pick in update_request r (fun q => q <| ns := s' |>)) ;;
    reassign s l'
  end.

Definition nameserver_failed (s : nat) : base_op unit :=
  let! ns := the_server s in
  if negb (up ns) then ret tt else
  modify (fun b => b <| global_good_nameservers := global_good_nameservers b - 1 |>) ;;
  let! good := asks global_good_nameservers in
  assert (0 <=? good) ;;
  let! t := asks global_nameserver_probe_initial_timeout in
  update_server s (fun ns => ns <| up := false |> <| failed_times := 1 |> <| probe_timer := Some t |>) ;;
  if good =? 0 then ret tt else
  let! heads := asks req_heads in
  reassign s (concat heads).

(** ** Sending *)

Definition nameserver_write_waiting (s : nat) (waiting : bool) : base_op unit :=
  update_server s (fun ns => ns <| write_waiting := waiting |>).

(** 0, 1 or 2 for sent, a temporary failure, another failure. *)
Definition evdns_request_transmit_to (r s : nat) : base_op Z :=
  assert_valid_request r ;;
  let! q := the_request r in
  let! _ := the_server s in
  let! res := asks (fun b => net (sends b)) in
  modify (fun b => b <| sends := S (sends b) |>) ;;
  match res with
  | Sent => ret 0
  | Retry => ret 1
  | Failed =>
    match ns q with
    | Some s' => nameserver_failed s' ;; ret 2
    | None => undefined
    end
  end.

Definition evdns_request_transmit (r : nat) : base_op Z :=
  assert_valid_request r ;;
  update_request r (fun q => q <| transmit_me := true |>) ;;
  let! q := the_request r in
  assert (negb (DnsPacket.trans_id q =? 0xffff)) ;;
  match ns q with
  | None => undefined
  | Some s =>
    let! server := the_server s in
    if ns_choked server then ret 1 else
    let! c := evdns_request_transmit_to r s in
    if c =? 1 then
      let! q := the_request r in
      match ns q with
      | None => undefined
      | Some s => update_server s (fun ns => ns <| ns_choked := true |>) ;; nameserver_write_waiting s true ;; ret 1
      end
    else
      update_request r (fun q => q <| timeout_event := true |> <| tx_count := tx_count q + 1 |> <| transmit_me := false |>) ;;
      ret (if c =? 2 then 1 else 0)
  end.

(** Sends what is marked; was there anything? *)
Fixpoint transmit_list (l : list nat) : base_op bool :=
  match l with
  | [] => ret false
  | r :: l' =>
    let! q := the_request r in
    if transmit_me q then let! _ := evdns_request_transmit r in let! _ := transmit_list l' in ret true
    else transmit_list l'
  end.

Definition evdns_transmit : base_op bool :=
  let! heads := asks req_heads in transmit_list (concat heads).
End env.
