(* ===== verification/DnsResolver.v ===== *)
(** The resolver of [evdns.c]: how requests are made, sent, repeated, answered, given up
    and cancelled, how name servers are found to be down and up again, and the search for
    a name in several domains. *)

From stdpp Require Import gmap.
From S2P Require Import Prelude StateOp EvChain Cstring UriCoding Inet EventData Dns DnsPacket DnsServer DnsBase.

Definition DNS_ERR_NONE : Z := 0.
Definition DNS_ERR_FORMAT : Z := 1.
Definition DNS_ERR_SERVERFAILED : Z := 2.
Definition DNS_ERR_REFUSED : Z := 5.
Definition DNS_ERR_TRUNCATED : Z := 65.
Definition DNS_ERR_UNKNOWN : Z := 66.
Definition DNS_ERR_TIMEOUT : Z := 67.
Definition DNS_ERR_SHUTDOWN : Z := 68.
Definition DNS_ERR_CANCEL : Z := 69.
Definition DNS_ERR_NODATA : Z := 70.
Definition DNS_QUERY_NO_SEARCH : Z := 1.

Section resolver.
Context {A : Arch} {M : Allocator} {E : ResolverEnv}.

(** ** The waiting queue and the end of requests *)

(** One round of [evdns_requests_pump_waiting_queue]. *)
Definition pump_one : base_op unit :=
  let! l := asks req_waiting_head in
  match l with
  | [] => undefined
  | r :: _ =>
    evdns_request_remove r Waiting ;;
    modify (fun b => b <| global_requests_waiting := global_requests_waiting b - 1 |>
                       <| global_requests_inflight := global_requests_inflight b + 1 |>) ;;
    let! s := nameserver_pick in
    update_request r (fun q => q <| ns := s |>) ;;
    let! id := transaction_id_pick in
    request_trans_id_set r id ;;
    let! head := REQ_HEAD id in
    evdns_request_insert r head ;;
    let! _ := evdns_request_transmit r in
    let! _ := evdns_transmit in
    ret tt
  end.

Fixpoint pump_loop (fuel : nat) : base_op unit :=
  let! go := asks (fun b => (global_requests_inflight b <? global_max_requests_inflight b)
                            && negb (global_requests_waiting b =? 0)) in
  if negb go then ret tt else
  match fuel with
  | O => undefined
  | S fuel' => pump_one ;; pump_loop fuel'
  end.

(** Every round takes one request off the waiting list. *)
Definition evdns_requests_pump_waiting_queue : base_op unit :=
  let! n := asks (fun b => length (req_waiting_head b)) in pump_loop n.

Definition search_state_decref (state : option nat) : base_op unit :=
  match state with
  | None => ret tt
  | Some s =>
    update_search s (fun st => st <| ss_refcount := ss_refcount st - 1 |>) ;;
    let! st := the_search s in
    when (ss_refcount st =? 0) (modify (fun b => b <| searches := delete s (searches b) |>))
  end.

Definition search_request_finished (h : nat) : base_op unit :=
  let! hd := the_handle h in
  search_state_decref (search_state hd) ;;
  update_handle h (fun hd => hd <| search_state := None |> <| search_origname := None |>).

Definition free_handle (h : nat) : base_op unit := modify (fun b => b <| handles := delete h (handles b) |>).

(** What becomes of the handle of a request that is finished. *)
Definition finish_handle (r h : nat) (free : bool) : base_op unit :=
  let! hd := the_handle h in
  assert (bool_decide (current_req hd = Some r)) ;;
  if free then
    search_request_finished h ;;
    update_handle h (fun hd => hd <| current_req := None |>) ;;
    let! hd := the_handle h in
    when (negb (pending_cb hd)) (free_handle h)
  else update_handle h (fun hd => hd <| current_req := None |>).

Definition request_finished (r : nat) (head : list_head) (free : bool) : base_op unit :=
  assert_valid_request r ;;
  evdns_request_remove r head ;;
  match head with
  | Inflight _ =>
    update_request r (fun q => q <| timeout_event := false |>) ;;
    modify (fun b => b <| global_requests_inflight := global_requests_inflight b - 1 |>)
  | Waiting => modify (fun b => b <| global_requests_waiting := global_requests_waiting b - 1 |>)
  end ;;
  let! q := the_request r in
  match handle q with
  | Some h => finish_handle r h free
  | None => ret tt
  end ;;
  modify (fun b => b <| requests := delete r (requests b) |>) ;;
  evdns_requests_pump_waiting_queue.

(** 0, or 1 when no other server is there to try. *)
Definition request_reissue (r : nat) : base_op Z :=
  assert_valid_request r ;;
  let! q := the_request r in
  let! s := nameserver_pick in
  update_request r (fun q => q <| ns := s |>) ;;
  if bool_decide (s = ns q) then ret 1 else
  update_request r (fun q => q <| reissue_count := reissue_count q + 1 |> <| tx_count := 0 |> <| transmit_me := true |>) ;;
  ret 0.

Definition reply_schedule_callback (r : nat) (ttl err : Z) (reply : option reply) : base_op unit :=
  match mm_malloc (sizeof struct_deferred_reply_callback) with
  | None => ret tt
  | Some _ =>
    let! q := the_request r in
    match handle q with Some h => update_handle h (fun hd => hd <| pending_cb := true |>) | None => ret tt end ;;
    modify (fun b => b <| deferred := deferred b ++
      [{| d_callback := user_callback q; d_request_type := request_type q; d_ttl := ttl; d_err := err;
          d_reply := reply; d_handle := handle q |}] |>)
  end.

(** ** New requests *)

(** The characters of a name in the case that random bits give. *)
Definition random_case (d : nat) (name : list Z) : list Z :=
  imap (fun i c =>
    if EVUTIL_ISALPHA c then
      if Z.testbit (randbyte (d + Nat.div i 8)) (Z.of_nat (Nat.modulo i 8)) then Z.lor c 0x20 else Z.ldiff c 0x20
    else c) name.

(** The new request, or NULL.  Its packet follows the struct in one block. *)
Definition request_new (h : option nat) (type : Z) (name : list Z) (callback : dns_callback) : base_op (option nat) :=
  let! issuing_now := asks (fun b => global_requests_inflight b <? global_max_requests_inflight b) in
  let name_len := zlen name in
  let request_max_len := evdns_request_len name_len in
  let! id := (if issuing_now then transaction_id_pick else ret 0xffff) in
  match mm_malloc (wrap size_bits (sizeof struct_request + request_max_len)) with
  | None => ret None
  | Some blk =>
    if 256 <=? name_len then ret None else
    let! randomize := asks global_randomize_case in
    let! d := asks draws in
    when randomize (modify (fun b => b <| draws := (draws b + Z.to_nat ((name_len + 7) / 8))%nat |>)) ;;
    let! (rlen, p) := lift (evdns_request_data_build (if randomize then random_case d name else name) id type CLASS_INET
                               (zdrop (sizeof struct_request) blk) request_max_len) in
    if rlen <? 0 then ret None else
    let! s := (if issuing_now then nameserver_pick else ret None) in
    let! r := new_id in
    modify (fun b => b <| requests := <[r := {| packet := p; request_type := wrap 8 type; request_len := rlen;
        reissue_count := 0; tx_count := 0; user_callback := callback; ns := s; timeout_event := false;
        trans_id := id; transmit_me := false; put_cname_in_ptr := None; handle := h |}]> (requests b) |>) ;;
    match h with
    | Some h => update_handle h (fun hd => hd <| current_req := Some r |>)
    | None => ret tt
    end ;;
    ret (Some r)
  end.

Definition request_submit (r : nat) : base_op unit :=
  assert_valid_request r ;;
  let! q := the_request r in
  match ns q with
  | Some _ =>
    let! head := REQ_HEAD (trans_id q) in
    evdns_request_insert r head ;;
    modify (fun b => b <| global_requests_inflight := global_requests_inflight b + 1 |>) ;;
    let! _ := evdns_request_transmit r in ret tt
  | None =>
    evdns_request_insert r Waiting ;;
    modify (fun b => b <| global_requests_waiting := global_requests_waiting b + 1 |>)
  end.

(** ** Cancelling, and servers that are up again *)

(** The list a request is in. *)
Definition finish_from_list (r : nat) : base_op unit :=
  let! q := the_request r in
  match ns q with
  | Some _ => let! head := REQ_HEAD (trans_id q) in request_finished r head true
  | None => request_finished r Waiting true
  end.

Definition evdns_cancel_request (h : nat) : base_op unit :=
  let! hd := the_handle h in
  match current_req hd with
  | None => ret tt
  | Some r =>
    if pending_cb hd then ret tt else
    assert_valid_request r ;;
    reply_schedule_callback r 0 DNS_ERR_CANCEL None ;;
    finish_from_list r
  end.

Definition nameserver_up (s : nat) : base_op unit :=
  let! server := the_server s in
  if up server then ret tt else
  update_server s (fun ns => ns <| probe_timer := None |>) ;;
  match probe_request server with
  | Some h => evdns_cancel_request h ;; update_server s (fun ns => ns <| probe_request := None |>)
  | None => ret tt
  end ;;
  update_server s (fun ns => ns <| up := true |> <| failed_times := 0 |> <| timedout := 0 |>) ;;
  modify (fun b => b <| global_good_nameservers := global_good_nameservers b + 1 |>).

(** ** Search *)

Definition string_num_dots (s : list Z) : Z := zlen (filter (fun c => c = ch ".") s).

Definition search_state_new : base_op (option nat) :=
  match mm_malloc (sizeof struct_search_state) with
  | None => ret None
  | Some _ =>
    let! s := new_id in
    modify (fun b => b <| searches := <[s := {| ss_refcount := 1; ndots := 1; num_domains := 0; domains := [] |}]> (searches b) |>) ;;
    ret (Some s)
  end.

Definition search_postfix_clear : base_op unit :=
  let! state := asks global_search_state in
  search_state_decref state ;;
  let! state := search_state_new in
  modify (fun b => b <| global_search_state := state |>).

(** The search state of the base, made when there is none. *)
Definition ensure_search_state : base_op (option nat) :=
  let! state := asks global_search_state in
  match state with
  | Some s => ret (Some s)
  | None =>
    let! state := search_state_new in
    modify (fun b => b <| global_search_state := state |>) ;;
    ret state
  end.

Definition search_postfix_add (domain : list Z) : base_op unit :=
  let domain := snd (span (Z.eqb (ch ".")) domain) in
  let! state := ensure_search_state in
  match state with
  | None => ret tt
  | Some s =>
    update_search s (fun st => st <| num_domains := num_domains st + 1 |>) ;;
    match mm_malloc (wrap size_bits (sizeof struct_search_domain + zlen domain)) with
    | None => ret tt
    | Some _ => update_search s (fun st => st <| domains := domain :: domains st |>)
    end
  end.

Definition search_reverse : base_op unit :=
  let! state := asks global_search_state in
  match state with
  | None => undefined
  | Some s => update_search s (fun st => st <| domains := rev (domains st) |>)
  end.

Definition evdns_base_search_ndots_set (n : Z) : base_op unit :=
  let! state := ensure_search_state in
  match state with
  | None => ret tt
  | Some s => update_search s (fun st => st <| ndots := n |>)
  end.

(** The name with the [n]-th domain, NULL when there is no memory.  The last character
    of an empty name is read before its start. *)
Definition search_make_new (s n : nat) (base_name : list Z) : base_op (option (list Z)) :=
  let! st := the_search s in
  let! c := lift (last base_name) in
  let! postfix := lift (domains st !! n) in
  let newname := base_name ++ (if c =? ch "." then [] else [ch "."]) ++ postfix in
  ret match mm_malloc (wrap size_bits (zlen newname + 1)) with Some _ => Some newname | None => None end.

(** The first request of a lookup: with the name as it is or with the first domain. *)
Definition search_request_new (h : nat) (type : Z) (name : list Z) (flags : Z) (callback : dns_callback)
  : base_op (option nat) :=
  assert ((type =? TYPE_A) || (type =? TYPE_AAAA)) ;;
  let! hd := the_handle h in
  assert (bool_decide (current_req hd = None)) ;;
  let! state := asks global_search_state in
  let! n := match state with Some s => let! st := the_search s in ret (num_domains st) | None => ret 0 end in
  match state with
  | Some s =>
    if (Z.land flags DNS_QUERY_NO_SEARCH =? 0) && negb (n =? 0) then
      let! st := the_search s in
      let raw := ndots st <=? string_num_dots name in
      let! first_name := (if raw then ret (Some name) else search_make_new s 0 name) in
      match first_name with
      | None => ret None
      | Some first_name =>
        let! req := request_new (Some h) type first_name callback in
        match req with
        | None => ret None
        | Some r =>
          update_handle h (fun hd => hd <| search_index := if raw then -1 else 0 |>) ;;
          let! hd := the_handle h in
          assert (bool_decide (search_origname hd = None)) ;;
          match mm_strdup name with
          | None => modify (fun b => b <| requests := delete r (requests b) |>) ;; ret None
          | Some name =>
            update_handle h (fun hd => hd <| search_origname := Some name |> <| search_state := Some s |>
                                          <| search_flags := flags |>) ;;
            update_search s (fun st => st <| ss_refcount := ss_refcount st + 1 |>) ;;
            request_submit r ;;
            ret (Some r)
          end
        end
      end
    else
      let! req := request_new (Some h) type name callback in
      match req with None => ret None | Some r => request_submit r ;; ret (Some r) end
  | None =>
    let! req := request_new (Some h) type name callback in
    match req with None => ret None | Some r => request_submit r ;; ret (Some r) end
  end.

(** The jump to [submit_next]: the old request ends, the new one takes its handle. *)
Definition submit_next (h r newreq : nat) : base_op Z :=
  let! q := the_request r in
  let! head := REQ_HEAD (trans_id q) in
  request_finished r head false ;;
  update_handle h (fun hd => hd <| current_req := Some newreq |>) ;;
  update_request newreq (fun q => q <| handle := Some h |>) ;;
  request_submit newreq ;;
  ret 0.

(** 0 when another request is on its way, 1 when there is nothing left to try. *)
Definition search_try_next (h : nat) : base_op Z :=
  let! hd := the_handle h in
  let! r := lift (current_req hd) in
  let! q := the_request r in
  match search_state hd with
  | None => ret 1
  | Some s =>
    update_handle h (fun hd => hd <| search_index := search_index hd + 1 |>) ;;
    let index := search_index hd + 1 in
    let! st := the_search s in
    let! origname := lift (search_origname hd) in
    if num_domains st <=? index then
      if string_num_dots origname <? ndots st then
        let! req := request_new None (request_type q) origname (user_callback q) in
        match req with
        | None => ret 1
        | Some newreq => search_request_finished h ;; submit_next h r newreq
        end
      else ret 1
    else
      assert (0 <=? index) ;;
      let! new_name := search_make_new s (Z.to_nat index) origname in
      match new_name with
      | None => ret 1
      | Some new_name =>
        let! req := request_new None (request_type q) new_name (user_callback q) in
        match req with
        | None => ret 1
        | Some newreq => submit_next h r newreq
        end
      end
  end.

(** ** Replies *)

Definition error_codes : list Z := [DNS_ERR_FORMAT; DNS_ERR_SERVERFAILED; DNS_ERR_NOTEXIST; DNS_ERR_NOTIMPL; DNS_ERR_REFUSED].

(** The error that a reply means. *)
Definition reply_error (flags : Z) (r : option reply) : Z :=
  if negb (Z.land flags 0x0200 =? 0) then DNS_ERR_TRUNCATED
  else if negb (Z.land flags 0x000f =? 0) then
    let error_code := Z.land flags 0x000f - 1 in
    if 4 <? error_code then DNS_ERR_UNKNOWN else default DNS_ERR_UNKNOWN (error_codes !! Z.to_nat error_code)
  else match r with
       | Some r => if negb (have_answer r) then DNS_ERR_NODATA else DNS_ERR_UNKNOWN
       | None => DNS_ERR_UNKNOWN
       end.

(** The server of a request answered: it is up, and a probe of it has done its work. *)
Definition server_answered (r : nat) : base_op unit :=
  let! q := the_request r in
  let! s := lift (ns q) in
  let! server := the_server s in
  when (bool_decide (handle q = probe_request server)) (update_server s (fun ns => ns <| probe_request := None |>)) ;;
  nameserver_up s.

(** The callback and the end of a request in flight. *)
Definition answer_request (r : nat) (ttl err : Z) (rep : option reply) : base_op unit :=
  let! q := the_request r in
  reply_schedule_callback r ttl err rep ;;
  let! head := REQ_HEAD (trans_id q) in
  request_finished r head true.

(** What an error means for the server: is the request sent again? *)
Definition error_for_server (r : nat) (error : Z) : base_op bool :=
  let! q := the_request r in
  if (error =? DNS_ERR_NOTIMPL) || (error =? DNS_ERR_REFUSED) then
    let! max := asks global_max_reissues in
    if reissue_count q <? max then
      let! s := lift (ns q) in
      nameserver_failed s ;;
      let! c := request_reissue r in
      ret (c =? 0)
    else ret false
  else if error =? DNS_ERR_SERVERFAILED then ret false
  else server_answered r ;; ret false.

Definition reply_handle (r : nat) (flags ttl : Z) (rep : option reply) : base_op unit :=
  assert_valid_request r ;;
  let answered := match rep with Some x => have_answer x | None => false end in
  if negb (Z.land flags 0x020f =? 0) || negb answered then
    let error := reply_error flags rep in
    let! again := error_for_server r error in
    if again : bool then ret tt else
    let! q := the_request r in
    let! h := lift (handle q) in
    let! hd := the_handle h in
    let! c := (match search_state hd with
               | Some _ => if negb (request_type q =? TYPE_PTR) then search_try_next h else ret 1
               | None => ret 1
               end) in
    if c =? 0 then ret tt else answer_request r ttl error None
  else
    let! q := the_request r in
    reply_schedule_callback r ttl 0 rep ;;
    server_answered r ;;
    let! head := REQ_HEAD (trans_id q) in
    request_finished r head true.

(** A packet from a name server. *)
Definition nameserver_packet (s : nat) (pkt : list Z) (length : Z) : base_op Z :=
  update_server s (fun ns => ns <| timedout := 0 |>) ;;
  let! b := asks (fun b => b) in
  let find := fun id => r ← find_trans_id (requests b) id (list_at b (Inflight (head_index (req_heads b) id)));
                        requests b !! r in
  let! (res, call) := lift (reply_parse find (global_randomize_case b) pkt length) in
  match call with
  | None => ret res
  | Some c =>
    let! r := request_find_from_trans_id (trans_id (rc_request c)) in
    let! r := lift r in
    update_request r (fun _ => rc_request c) ;;
    reply_handle r (rc_flags c) (rc_ttl c) (rc_reply c) ;;
    ret res
  end.

(** [evdns_request_timeout_callback]: the timer has run out. *)
Definition evdns_request_timeout_callback (r : nat) : base_op unit :=
  update_request r (fun q => q <| timeout_event := false |>) ;;
  let! q := the_request r in
  let! s := lift (ns q) in
  update_server s (fun ns => ns <| timedout := timedout ns + 1 |>) ;;
  let! server := the_server s in
  let! max := asks global_max_nameserver_timeout in
  when (max <? timedout server)
    (update_server s (fun ns => ns <| timedout := 0 |>) ;; nameserver_failed s) ;;
  let! retransmits := asks global_max_retransmits in
  if retransmits <=? tx_count q then answer_request r 0 DNS_ERR_TIMEOUT None else
  let! new_ns := nameserver_pick in
  match new_ns with
  | Some s => update_request r (fun q => q <| ns := Some s |>)
  | None => ret tt
  end ;;
  let! _ := evdns_request_transmit r in ret tt.

(** ** Probes *)

Definition MAX_PROBE_TIMEOUT : Z := 3600.
Definition TIMEOUT_BACKOFF_FACTOR : Z := 3.

(** The loop that lengthens the time between probes. *)
Fixpoint backoff (n : nat) (t : Z * Z) : Z * Z :=
  match n with
  | O => t
  | S n' =>
    if fst t <? MAX_PROBE_TIMEOUT then
      let sec := fst t * TIMEOUT_BACKOFF_FACTOR in
      let usec := snd t * TIMEOUT_BACKOFF_FACTOR in
      backoff n' (if 1000000 <? usec then (sec + usec / 1000000, usec mod 1000000) else (sec, usec))
    else t
  end.

Definition probe_timeout (initial : Z * Z) (failed_times : Z) : Z * Z :=
  let t := backoff (Z.to_nat failed_times) initial in
  if MAX_PROBE_TIMEOUT <? fst t then (MAX_PROBE_TIMEOUT, 0) else t.

Definition nameserver_probe_failed (s : nat) : base_op unit :=
  update_server s (fun ns => ns <| probe_timer := None |>) ;;
  let! server := the_server s in
  if up server then ret tt else
  let! initial := asks global_nameserver_probe_initial_timeout in
  update_server s (fun ns => ns <| failed_times := failed_times ns + 1 |>
                                <| probe_timer := Some (probe_timeout initial (failed_times server)) |>).

Definition nameserver_probe_callback (s : nat) (result : Z) : base_op unit :=
  if result =? DNS_ERR_CANCEL then ret tt else
  update_server s (fun ns => ns <| probe_request := None |>) ;;
  if (result =? DNS_ERR_NONE) || (result =? DNS_ERR_NOTEXIST) then nameserver_up s
  else nameserver_probe_failed s.

(** A new handle, or NULL. *)
Definition new_handle : base_op (option nat) :=
  match mm_malloc (sizeof struct_evdns_request) with
  | None => ret None
  | Some _ =>
    let! h := new_id in
    modify (fun b => b <| handles := <[h := {| current_req := None; pending_cb := false; search_index := 0;
      search_state := None; search_origname := None; search_flags := 0 |}]> (handles b) |>) ;;
    ret (Some h)
  end.

Definition nameserver_send_probe (s : nat) : base_op unit :=
  let! h := new_handle in
  match h with
  | None => ret tt
  | Some h =>
    let! req := request_new (Some h) TYPE_A (bytes_of "google.com") (Probe s) in
    match req with
    | None => free_handle h
    | Some r =>
      update_server s (fun ns => ns <| probe_request := Some h |>) ;;
      let! id := transaction_id_pick in
      request_trans_id_set r id ;;
      update_request r (fun q => q <| ns := Some s |>) ;;
      request_submit r
    end
  end.

(** [nameserver_prod_callback]: the timer of a server that is down has run out. *)
Definition nameserver_prod_callback (s : nat) : base_op unit :=
  update_server s (fun ns => ns <| probe_timer := None |>) ;; nameserver_send_probe s.

(** ** The application *)

(** A handle whose request could not be made is released. *)
Definition check_handle (h : nat) : base_op (option nat) :=
  let! hd := the_handle h in
  match current_req hd with
  | None => free_handle h ;; ret None
  | Some _ => ret (Some h)
  end.

Definition submit_new (h : nat) (type : Z) (name : list Z) (callback : dns_callback) : base_op unit :=
  let! req := request_new (Some h) type name callback in
  match req with Some r => request_submit r | None => ret tt end.

(** [evdns_base_resolve_ipv4] and [evdns_base_resolve_ipv6]. *)
Definition resolve (type : Z) (name : list Z) (flags : Z) (callback : dns_callback) : base_op (option nat) :=
  let! h := new_handle in
  match h with
  | None => ret None
  | Some h =>
    (if negb (Z.land flags DNS_QUERY_NO_SEARCH =? 0) then submit_new h type name callback
     else let! _ := search_request_new h type name flags callback in ret tt) ;;
    check_handle h
  end.

Definition evdns_base_resolve_ipv4 : list Z -> Z -> dns_callback -> base_op (option nat) := resolve TYPE_A.
Definition evdns_base_resolve_ipv6 : list Z -> Z -> dns_callback -> base_op (option nat) := resolve TYPE_AAAA.

Definition resolve_name (name : list Z) (callback : dns_callback) : base_op (option nat) :=
  let! h := new_handle in
  match h with
  | None => ret None
  | Some h => submit_new h TYPE_PTR name callback ;; check_handle h
  end.

(** The address is given by its four bytes, or by its sixteen bytes. *)
Definition evdns_base_resolve_reverse (addr : list Z) (callback : dns_callback) : base_op (option nat) :=
  resolve_name (in_addr_name (be_value addr)) callback.

Definition ip6_name (addr : list Z) : list Z :=
  concat (map (fun byte => [digit_char (Z.land byte 0x0f); ch "."; digit_char (Z.shiftr byte 4); ch "."]) (rev addr))
    ++ bytes_of "ip6.arpa".

Definition evdns_base_resolve_reverse_ipv6 (addr : list Z) (callback : dns_callback) : base_op (option nat) :=
  resolve_name (ip6_name addr) callback.

(** What a callback is called with: the result, the type and the count of addresses, the
    time to live, and the addresses or the name. *)
Record callback_args := { c_result : Z; c_type : Z; c_count : Z; c_ttl : Z; c_addresses : list Z }.

Definition DNS_IPv4_A : Z := 1.
Definition DNS_PTR : Z := 2.
Definition DNS_IPv6_AAAA : Z := 3.

Definition callback_arguments (d : deferred_reply_callback) : option callback_args :=
  let failed := {| c_result := d_err d; c_type := 0; c_count := 0; c_ttl := d_ttl d; c_addresses := [] |} in
  let good := fun type count l => {| c_result := DNS_ERR_NONE; c_type := type; c_count := count; c_ttl := d_ttl d; c_addresses := l |} in
  if d_request_type d =? TYPE_A then
    Some match d_reply d with Some r => good DNS_IPv4_A (addrcount r) (addresses r) | None => failed end
  else if d_request_type d =? TYPE_PTR then
    Some match d_reply d with Some r => good DNS_PTR 1 (cstr (ptr_name r)) | None => failed end
  else if d_request_type d =? TYPE_AAAA then
    Some match d_reply d with Some r => good DNS_IPv6_AAAA (addrcount r) (addresses r) | None => failed end
  else None.

(** [reply_run_callback] for the first queued callback: the callback of the application
    with its arguments, if it is one. *)
Definition reply_run_callback : base_op (option (nat * callback_args)) :=
  let! q := asks deferred in
  match q with
  | [] => ret None
  | d :: rest =>
    modify (fun b => b <| deferred := rest |>) ;;
    let! args := lift (callback_arguments d) in
    match d_callback d with
    | Probe s => when (negb (c_result args =? DNS_ERR_CANCEL)) (nameserver_probe_callback s (c_result args))
    | Callback _ => ret tt
    end ;;
    match d_handle d with
    | Some h => let! hd := the_handle h in when (pending_cb hd) (free_handle h)
    | None => ret tt
    end ;;
    ret match d_callback d with Callback id => Some (id, args) | Probe _ => None end
  end.

(** [nameserver_ready_callback] when the socket is writable. *)
Definition nameserver_writable (s : nat) : base_op unit :=
  update_server s (fun ns => ns <| ns_choked := false |>) ;;
  let! tried := evdns_transmit in
  when (negb tried) (nameserver_write_waiting s false).

(** ** Servers and settings *)

Definition evdns_base_count_nameservers : base_op Z := asks (fun b => zlen (server_head b)).

Fixpoint known_server (l : list nat) (addr : sockaddr) : base_op bool :=
  match l with
  | [] => ret false
  | s :: l' =>
    let! server := the_server s in
    if evutil_sockaddr_cmp (address server) addr true =? 0 then ret true else known_server l' addr
  end.

(** [_evdns_nameserver_add_impl]; [sys] is 0, or the error of the system calls around the
    socket. *)
Definition evdns_nameserver_add_impl (addr : sockaddr) (sys : Z) : base_op Z :=
  let! ring := asks server_head in
  let! known := known_server ring addr in
  if known : bool then ret 3 else
  match mm_malloc (sizeof struct_nameserver) with
  | None => ret (-1)
  | Some _ =>
    if negb (sys =? 0) then ret sys else
    let! s := new_id in
    modify (fun b => b
      <| servers := <[s := {| address := addr; failed_times := 0; timedout := 0; probe_timer := None; probe_request := None;
                              up := true; ns_choked := false; write_waiting := false |}]> (servers b) |>
      <| server_head := match server_head b with [] => [s] | x :: l => x :: s :: l end |>
      <| global_good_nameservers := global_good_nameservers b + 1 |>) ;;
    ret 0
  end.

Definition evdns_base_resume : base_op unit := evdns_requests_pump_waiting_queue.

(** The loop over the servers. *)
Fixpoint release_servers (l : list nat) : base_op unit :=
  match l with
  | [] => ret tt
  | s :: l' =>
    let! server := the_server s in
    match probe_request server with
    | Some h => evdns_cancel_request h ;; update_server s (fun ns => ns <| probe_request := None |>)
    | None => ret tt
    end ;;
    modify (fun b => b <| servers := delete s (servers b) |>) ;;
    release_servers l'
  end.

(** Requests in flight go back to the front of the waiting list, each before the last. *)
Fixpoint suspend_requests (l : list nat) : base_op unit :=
  match l with
  | [] => ret tt
  | r :: l' =>
    update_request r (fun q => q <| tx_count := 0 |> <| reissue_count := 0 |> <| ns := None |> <| timeout_event := false |>
                                 <| trans_id := 0 |> <| transmit_me := false |>) ;;
    assert_valid_request r ;;
    modify (fun b => b <| global_requests_waiting := global_requests_waiting b + 1 |>
                       <| req_waiting_head := r :: req_waiting_head b |>) ;;
    suspend_requests l'
  end.

Definition evdns_base_clear_nameservers_and_suspend : base_op Z :=
  let! ring := asks server_head in
  match ring with
  | [] => ret 0
  | _ =>
    release_servers ring ;;
    modify (fun b => b <| server_head := [] |> <| global_good_nameservers := 0 |>) ;;
    let! heads := asks req_heads in
    suspend_requests (concat heads) ;;
    modify (fun b => b <| req_heads := map (fun _ => []) (req_heads b) |> <| global_requests_inflight := 0 |>) ;;
    ret 0
  end.

(** The lists are filled again in their order. *)
Fixpoint rehash (l : list nat) (heads : list (list nat)) : base_op (list (list nat)) :=
  match l with
  | [] => ret heads
  | r :: l' =>
    assert_valid_request r ;;
    let! q := the_request r in
    let i := head_index heads (trans_id q) in
    rehash l' (<[i := default [] (heads !! i) ++ [r]]> heads)
  end.

Definition evdns_base_set_max_requests_inflight (maxinflight : Z) : base_op Z :=
  let maxinflight := if maxinflight <? 1 then 1 else maxinflight in
  let n_heads := (maxinflight + 4) / 5 in
  match mm_malloc (size_bits / 8 * n_heads) with
  | None => ret (-1)
  | Some _ =>
    let! heads := asks req_heads in
    let! new_heads := rehash (concat heads) (replicate (Z.to_nat n_heads) []) in
    modify (fun b => b <| req_heads := new_heads |> <| global_max_requests_inflight := maxinflight |>) ;;
    ret 0
  end.

(** [evdns_base_new] before the configuration is read. *)
Definition new_base : evdns_base :=
  {| requests := ∅; handles := ∅; servers := ∅; searches := ∅; next_id := 0; req_heads := replicate 13 [];
     req_waiting_head := []; server_head := []; global_good_nameservers := 0; global_requests_inflight := 0;
     global_requests_waiting := 0; global_max_requests_inflight := 64; global_max_reissues := 1;
     global_max_retransmits := 3; global_max_nameserver_timeout := 3; global_randomize_case := true;
     global_nameserver_probe_initial_timeout := (10, 0); global_search_state := None; deferred := []; draws := 0; sends := 0 |}.

(** ** The end of a base *)

Fixpoint finish_list (fuel : nat) (head : list_head) (fail_requests : bool) : base_op unit :=
  let! l := asks (fun b => list_at b head) in
  match l with
  | [] => ret tt
  | r :: _ =>
    match fuel with
    | O => undefined
    | S fuel' =>
      when fail_requests (reply_schedule_callback r 0 DNS_ERR_SHUTDOWN None) ;;
      let! q := the_request r in
      let! h := (match head with Inflight _ => REQ_HEAD (trans_id q) | Waiting => ret Waiting end) in
      request_finished r h true ;;
      finish_list fuel' head fail_requests
    end
  end.

Fixpoint finish_heads (n i : nat) (fail_requests : bool) : base_op unit :=
  match n with
  | O => ret tt
  | S n' =>
    let! fuel := asks (fun b => size (requests b)) in
    finish_list fuel (Inflight i) fail_requests ;; finish_heads n' (S i) fail_requests
  end.

(** The requests that [evdns_base_free_and_unlock] ends, before the memory of the base is
    released: the lists in flight one after the other, then the waiting list. *)
Definition evdns_base_free_requests (fail_requests : bool) : base_op unit :=
  let! n := asks (fun b => length (req_heads b)) in
  finish_heads n 0 fail_requests ;;
  let! fuel := asks (fun b => size (requests b)) in
  finish_list fuel Waiting fail_requests.
End resolver.
