(* ===== verification/DnsResolverSpec.v ===== *)
(** The structure that the resolver ([DnsBase], [DnsResolver]) keeps: what holds of a base
    after every elementary operation, and what sending and the waiting queue leave
    alone. *)

From stdpp Require Import gmap.
From S2P Require Import Prelude StateOp EvChain Cstring UriCoding Inet EventData Evbuffer EvbufferSpec EvbufferProps Dns DnsSpec DnsPacket DnsServer DnsBase DnsResolver.

(** ** Weakest preconditions *)

Lemma wp_the_request r q (Q : request -> evdns_base -> Prop) b : requests b !! r = Some q -> Q q b -> wp (the_request r) Q b.
Proof. intros E H. unfold wp, the_request. by rewrite E. Qed.

Lemma wp_the_handle h hd (Q : evdns_request -> evdns_base -> Prop) b : handles b !! h = Some hd -> Q hd b -> wp (the_handle h) Q b.
Proof. intros E H. unfold wp, the_handle. by rewrite E. Qed.

Lemma wp_the_server s n (Q : nameserver -> evdns_base -> Prop) b : servers b !! s = Some n -> Q n b -> wp (the_server s) Q b.
Proof. intros E H. unfold wp, the_server. by rewrite E. Qed.

Lemma wp_the_search s n (Q : search -> evdns_base -> Prop) b : searches b !! s = Some n -> Q n b -> wp (the_search s) Q b.
Proof. intros E H. unfold wp, the_search. by rewrite E. Qed.

Lemma wp_update_request r f q (Q : unit -> evdns_base -> Prop) b :
  requests b !! r = Some q -> Q tt (b <| requests := <[r := f q]> (requests b) |>) -> wp (update_request r f) Q b.
Proof. intros E H. unfold update_request. by apply wp_bind, (wp_the_request _ q). Qed.

Lemma wp_update_handle h f hd (Q : unit -> evdns_base -> Prop) b :
  handles b !! h = Some hd -> Q tt (b <| handles := <[h := f hd]> (handles b) |>) -> wp (update_handle h f) Q b.
Proof. intros E H. unfold update_handle. by apply wp_bind, (wp_the_handle _ hd). Qed.

Lemma wp_update_server s f n (Q : unit -> evdns_base -> Prop) b :
  servers b !! s = Some n -> Q tt (b <| servers := <[s := f n]> (servers b) |>) -> wp (update_server s f) Q b.
Proof. intros E H. unfold update_server. by apply wp_bind, (wp_the_server _ n). Qed.

Lemma wp_update_search s f n (Q : unit -> evdns_base -> Prop) b :
  searches b !! s = Some n -> Q tt (b <| searches := <[s := f n]> (searches b) |>) -> wp (update_search s f) Q b.
Proof. intros E H. unfold update_search. by apply wp_bind, (wp_the_search _ n). Qed.

(** ** The structure *)

Definition inflight (b : evdns_base) : list nat := concat (req_heads b).
Definition listed (b : evdns_base) : list nat := inflight b ++ req_waiting_head b.

(** What holds of every request of the store. *)
Record request_ok (ring : list nat) (q : request) : Prop := {
  ro_packet : 2 <= zlen (packet q);
  ro_id : fits 16 (trans_id q);
  ro_ns : forall s, ns q = Some s -> s ∈ ring /\ trans_id q <> 0xffff }.

(** The request and its handle point to each other. *)
Definition linked (b : evdns_base) (r : nat) : Prop :=
  exists q h hd, requests b !! r = Some q /\ handle q = Some h /\ handles b !! h = Some hd /\ current_req hd = Some r.

(** How many servers of a list are up. *)
Definition count_up (ss : gmap nat nameserver) (l : list nat) : Z :=
  zlen (filter (fun s => (up <$> ss !! s) = Some true) l).

Record core (b : evdns_base) : Prop := {
  co_heads : req_heads b <> [];
  co_nodup : NoDup (listed b);
  co_request : forall r q, requests b !! r = Some q -> request_ok (server_head b) q;
  co_linked : forall r, r ∈ listed b -> linked b r;
  co_inflight : forall i l r q, req_heads b !! i = Some l -> r ∈ l -> requests b !! r = Some q ->
    i = head_index (req_heads b) (trans_id q) /\ ns q <> None;
  co_waiting : forall r q, r ∈ req_waiting_head b -> requests b !! r = Some q -> ns q = None;
  co_inflight_count : global_requests_inflight b = zlen (inflight b);
  co_waiting_count : global_requests_waiting b = zlen (req_waiting_head b);
  co_ring : NoDup (server_head b);
  co_servers : forall s, is_Some (servers b !! s) <-> s ∈ server_head b;
  co_good : global_good_nameservers b = count_up (servers b) (server_head b);
  co_max : global_max_requests_inflight b <= 65000;
  co_fresh : forall n, (next_id b <= n)%nat ->
    requests b !! n = None /\ handles b !! n = None /\ servers b !! n = None /\ searches b !! n = None }.

(** ** What is left alone *)

(** The parts of a request that sending does not touch. *)
Record same_request (q q' : request) : Prop := {
  sr_packet : zlen (packet q') = zlen (packet q);
  sr_type : request_type q' = request_type q;
  sr_callback : user_callback q' = user_callback q;
  sr_handle : handle q' = handle q }.

Record same_server (n n' : nameserver) : Prop := {
  sv_address : address n' = address n;
  sv_probe : probe_request n' = probe_request n;
  sv_down : up n = false -> up n' = false }.

(** Nothing is lost: the requests and servers are the same ones, in lists of the same
    elements, and handles, search states and queued callbacks do not change.  A request in
    flight stays in flight under its id; a server that is down stays down. *)
Record kept (b b' : evdns_base) : Prop := {
  ke_handles : handles b' = handles b;
  ke_searches : searches b' = searches b;
  ke_global : global_search_state b' = global_search_state b;
  ke_deferred : deferred b' = deferred b;
  ke_next : next_id b' = next_id b;
  ke_max : global_max_requests_inflight b' = global_max_requests_inflight b;
  ke_listed : listed b' ≡ₚ listed b;
  ke_requests : forall r, option_relation same_request (fun _ => False) (fun _ => False) (requests b !! r) (requests b' !! r);
  ke_servers : forall s, option_relation same_server (fun _ => False) (fun _ => False) (servers b !! s) (servers b' !! s);
  ke_ring : server_head b' ≡ₚ server_head b;
  ke_heads : length (req_heads b') = length (req_heads b);
  ke_inflight : forall r q, r ∈ inflight b -> requests b !! r = Some q ->
    r ∈ inflight b' /\ exists q', requests b' !! r = Some q' /\ trans_id q' = trans_id q }.

#[export] Instance same_request_refl : Reflexive same_request.
Proof. by split. Qed.
#[export] Instance same_request_trans : Transitive same_request.
Proof. intros x y z [] []. split; etrans; eassumption. Qed.
#[export] Instance same_server_refl : Reflexive same_server.
Proof. by split. Qed.
#[export] Instance same_server_trans : Transitive same_server.
Proof. intros x y z [] []. split; [etrans; eassumption.. | auto]. Qed.

(** Two optional objects are both there and related, or both missing. *)
Lemma both_refl {T} (R : T -> T -> Prop) (x : option T) :
  Reflexive R -> option_relation R (fun _ => False) (fun _ => False) x x.
Proof. intros. destruct x; cbn; [reflexivity | done]. Qed.

Lemma both_trans {T} (R : T -> T -> Prop) (x y z : option T) : Transitive R ->
  option_relation R (fun _ => False) (fun _ => False) x y -> option_relation R (fun _ => False) (fun _ => False) y z ->
  option_relation R (fun _ => False) (fun _ => False) x z.
Proof. intros HR. destruct x, y, z; cbn; try done. apply HR. Qed.

Lemma both_insert {T} (R : T -> T -> Prop) (m : gmap nat T) r q q' : Reflexive R -> m !! r = Some q -> R q q' ->
  forall x, option_relation R (fun _ => False) (fun _ => False) (m !! x) (<[r := q']> m !! x).
Proof.
  intros HR E Hq x. destruct (decide (x = r)) as [-> |]; [by rewrite E, lookup_insert_eq|].
  rewrite lookup_insert_ne by done. by apply both_refl.
Qed.

#[export] Instance kept_refl : Reflexive kept.
Proof. intros b. split; try done; [intros; apply both_refl; apply _ ..|]. intros r q Hr E. split; [done | by exists q]. Qed.

#[export] Instance kept_trans : Transitive kept.
Proof.
  intros b1 b2 b3 [] []. split; try (etrans; eassumption).
  - intros r. eapply both_trans; [apply _ | done | done].
  - intros s. eapply both_trans; [apply _ | done | done].
  - intros r q Hr E. destruct (ke_inflight0 r q Hr E) as [Hr' (q' & E' & Hid)].
    destruct (ke_inflight1 r q' Hr' E') as [Hr'' (q'' & E'' & Hid')]. split; [done|]. exists q''. split; [done | by etrans].
Qed.

Lemma kept_request b b' r q : kept b b' -> requests b !! r = Some q -> exists q', requests b' !! r = Some q' /\ same_request q q'.
Proof. intros H E. pose proof (ke_requests _ _ H r) as Hr. rewrite E in Hr. destruct (requests b' !! r); [by eexists | done]. Qed.

Lemma kept_request_rev b b' r q' : kept b b' -> requests b' !! r = Some q' -> exists q, requests b !! r = Some q /\ same_request q q'.
Proof. intros H E. pose proof (ke_requests _ _ H r) as Hr. rewrite E in Hr. destruct (requests b !! r); [by eexists | done]. Qed.

Lemma kept_listed b b' r : kept b b' -> r ∈ listed b' <-> r ∈ listed b.
Proof. intros H. by rewrite (ke_listed _ _ H). Qed.

Lemma kept_server b b' s : kept b b' -> s ∈ server_head b' <-> s ∈ server_head b.
Proof. intros H. by rewrite (ke_ring _ _ H). Qed.

(** ** Changes that keep the structure *)

Lemma same_ring b : b <| server_head := server_head b |> = b.
Proof. by destruct b. Qed.

Lemma count_up_perm ss l l' : l' ≡ₚ l -> count_up ss l' = count_up ss l.
Proof. intros H. unfold count_up, zlen. by rewrite H. Qed.

Lemma core_ring b ring : core b -> ring ≡ₚ server_head b -> core (b <| server_head := ring |>) /\ kept b (b <| server_head := ring |>).
Proof.
  intros [] Hp. split.
  - split; try done.
    + intros r q E. destruct (co_request0 r q E) as [? ? Hns]. split; [done | done|]. intros s Hs.
      cbn. rewrite Hp. by apply Hns.
    + cbn. by rewrite Hp.
    + intros s. cbn. rewrite Hp. apply co_servers0.
    + change (global_good_nameservers b = count_up (servers b) ring). rewrite co_good0. by symmetry; apply count_up_perm.
  - split; try done; [intros; apply both_refl; apply _ ..|]. intros r q Hr E. split; [done | by exists q].
Qed.

Lemma core_update_request b r q q' :
  core b -> requests b !! r = Some q -> same_request q q' -> trans_id q' = trans_id q ->
  (ns q' = None <-> ns q = None) -> (forall s, ns q' = Some s -> s ∈ server_head b) ->
  core (b <| requests := <[r := q']> (requests b) |>) /\ kept b (b <| requests := <[r := q']> (requests b) |>).
Proof.
  intros [] E Hsame Hid Hns Hring. split.
  - split; try done; cbn.
    + intros r0 q0 E0. destruct (decide (r0 = r)) as [-> | Hne].
      * rewrite lookup_insert_eq in E0. injection E0 as <-. destruct (co_request0 r q E) as [? ? Hok].
        split; [by rewrite (sr_packet _ _ Hsame) | by rewrite Hid|]. intros s Hs. split; [by apply Hring|].
        rewrite Hid. destruct (ns q) as [s0|] eqn:En; [by apply (Hok s0)|]. rewrite (proj2 Hns eq_refl) in Hs. done.
      * rewrite lookup_insert_ne in E0 by done. destruct (co_request0 r0 q0 E0) as [? ? Hok]. by split.
    + intros r0 Hr0. destruct (co_linked0 r0 Hr0) as (q0 & h & hd & E0 & Hh & Hhd & Hc).
      destruct (decide (r0 = r)) as [-> | Hne].
      * rewrite E in E0. injection E0 as <-. exists q', h, hd. cbn. rewrite lookup_insert_eq.
        splits; [done | by rewrite (sr_handle _ _ Hsame) | done | done].
      * exists q0, h, hd. cbn. by rewrite lookup_insert_ne.
    + intros i l r0 q0 Hl Hr0 E0. destruct (decide (r0 = r)) as [-> | Hne].
      * rewrite lookup_insert_eq in E0. injection E0 as <-. rewrite Hid, Hns. by apply (co_inflight0 i l r q).
      * rewrite lookup_insert_ne in E0 by done. by apply (co_inflight0 i l r0 q0).
    + intros r0 q0 Hr0 E0. destruct (decide (r0 = r)) as [-> | Hne].
      * rewrite lookup_insert_eq in E0. injection E0 as <-. apply Hns. by apply (co_waiting0 r).
      * rewrite lookup_insert_ne in E0 by done. by apply (co_waiting0 r0).
    + intros n Hn. destruct (co_fresh0 n Hn) as (H1 & H2 & H3 & H4). splits; try done.
      rewrite lookup_insert_ne; [done|]. intros ->. by rewrite E in H1.
  - split; try done; [cbn; intros r0; by apply (both_insert _ _ _ q); [apply _| |] | intros; apply both_refl; apply _|].
    intros r0 q0 Hr E0. split; [done|]. cbn. destruct (decide (r0 = r)) as [-> | Hne].
    + rewrite lookup_insert_eq. exists q'. split; [done|]. rewrite E in E0. by injection E0 as <-.
    + rewrite lookup_insert_ne by done. by exists q0.
Qed.

Lemma count_up_update ss s n n' l :
  ss !! s = Some n -> up n' = up n -> count_up (<[s := n']> ss) l = count_up ss l.
Proof.
  intros E Hu. unfold count_up. f_equal. apply list_filter_iff. intros x.
  destruct (decide (x = s)) as [-> | Hne]; [|by rewrite lookup_insert_ne].
  rewrite lookup_insert_eq, E. cbn. by rewrite Hu.
Qed.

(** Any change of a server that leaves [up] alone keeps the structure. *)
Lemma core_change_server b s n n' :
  core b -> servers b !! s = Some n -> up n' = up n -> core (b <| servers := <[s := n']> (servers b) |>).
Proof.
  intros [] E Hu. split; try done; cbn.
  - intros x. rewrite <- co_servers0. destruct (decide (x = s)) as [-> | Hne]; [by rewrite lookup_insert_eq, E|].
    by rewrite lookup_insert_ne.
  - change (global_good_nameservers b = count_up (<[s := n']> (servers b)) (server_head b)).
    rewrite co_good0. symmetry. by apply (count_up_update _ _ n).
  - intros m Hm. destruct (co_fresh0 m Hm) as (H1 & H2 & H3 & H4). splits; try done.
    rewrite lookup_insert_ne; [done|]. intros ->. by rewrite E in H3.
Qed.

Lemma core_update_server b s n n' :
  core b -> servers b !! s = Some n -> same_server n n' -> up n' = up n ->
  core (b <| servers := <[s := n']> (servers b) |>) /\ kept b (b <| servers := <[s := n']> (servers b) |>).
Proof.
  intros Hb E Hsame Hu. split; [by apply (core_change_server b s n)|].
  split; try done; [intros; apply both_refl; apply _ | cbn; intros x; by apply (both_insert _ _ _ n); [apply _| |] |].
  intros r q Hr Eq. split; [done | by exists q].
Qed.

(** ** Choosing a server *)

Lemma rotate_perm l : rotate l ≡ₚ l.
Proof. destruct l as [|s l]; [done|]. cbn. by rewrite Permutation_app_comm. Qed.

(** Choosing reads the servers only, so the lists may be in a state between two operations. *)
Record ring_ok (b : evdns_base) : Prop := {
  ri_servers : forall s, s ∈ server_head b -> is_Some (servers b !! s);
  ri_good : global_good_nameservers b = count_up (servers b) (server_head b) }.

Lemma core_ring_ok b : core b -> ring_ok b.
Proof. intros Hb. split; [|apply Hb]. intros s. apply Hb. Qed.

Lemma pick_up_server_ok fuel : forall b k s n (Q : option nat -> evdns_base -> Prop),
  (forall s, s ∈ server_head b -> is_Some (servers b !! s)) ->
  server_head b !! k = Some s -> servers b !! s = Some n -> up n = true -> (k < fuel)%nat ->
  (forall s ring, s ∈ server_head b -> ring ≡ₚ server_head b -> Q (Some s) (b <| server_head := ring |>)) ->
  wp (pick_up_server fuel) Q b.
Proof.
  induction fuel as [|fuel IH]; intros b k s n Q Hb Hk Hn Hu Hf HQ; [lia|]. cbn [pick_up_server].
  apply wp_bind, wp_asks. destruct (server_head b) as [|s0 ring] eqn:Er; [done|].
  destruct (Hb s0) as [n0 E0]; [left|].
  apply wp_bind, (wp_the_server _ n0); [done|]. apply wp_bind, wp_modify. rewrite Er. cbn [rotate].
  destruct (up n0) eqn:Hu0.
  { apply wp_ret, HQ; [left | by rewrite Permutation_app_comm]. }
  destruct k as [|k]; [cbn in Hk; injection Hk as ->; rewrite E0 in Hn; injection Hn as ->; by rewrite Hu0 in Hu|].
  cbn in Hk. apply (IH _ k s n); [| | done | done | lia |].
  - cbn. intros x Hx. apply Hb. by rewrite Permutation_app_comm in Hx.
  - cbn. by apply lookup_app_l_Some.
  - cbn. intros x ring' Hx Hp. apply HQ.
    + rewrite Permutation_app_comm in Hx. done.
    + by rewrite Hp, Permutation_app_comm.
Qed.

Lemma count_up_pos ss l : count_up ss l <> 0 -> exists k s n, l !! k = Some s /\ ss !! s = Some n /\ up n = true.
Proof.
  unfold count_up. intros H. destruct (filter _ l) as [|s r] eqn:E; [done|].
  assert (Hs : s ∈ filter (fun s => (up <$> ss !! s) = Some true) l) by (rewrite E; left).
  apply list_elem_of_filter in Hs as [Hu Hs]. apply list_elem_of_lookup in Hs as [k Hk].
  destruct (ss !! s) as [n|] eqn:En; [|done]. exists k, s, n. cbn in Hu. injection Hu as Hu. done.
Qed.

Lemma nameserver_pick_ok b (Q : option nat -> evdns_base -> Prop) :
  ring_ok b ->
  (forall o ring, ring ≡ₚ server_head b -> (o = None <-> server_head b = []) -> (forall s, o = Some s -> s ∈ server_head b) ->
     Q o (b <| server_head := ring |>)) ->
  wp nameserver_pick Q b.
Proof.
  intros Hb HQ. unfold nameserver_pick. apply wp_bind, wp_asks. destruct (server_head b) as [|s ring] eqn:Er.
  { apply wp_ret. rewrite <- (same_ring b), Er. by apply HQ. }
  apply wp_bind, wp_asks. destruct (Z.eqb_spec (global_good_nameservers b) 0) as [Hg|Hg].
  - apply wp_bind, wp_modify, wp_asks. cbn [server_head]. rewrite Er. cbn [rotate].
    change (server_head (b <| server_head := ring ++ [s] |>)) with (ring ++ [s]).
    apply HQ; [by rewrite Permutation_app_comm | by destruct ring |].
    intros x Hx. destruct ring; cbn in Hx; injection Hx as <-; [left | right; left].
  - rewrite (ri_good _ Hb) in Hg. destruct (count_up_pos _ _ Hg) as (k & x & n & Hk & Hn & Hu).
    apply (pick_up_server_ok _ _ k x n); [apply Hb | done | done | done | by rewrite <- Er; apply lookup_lt_Some in Hk|].
    rewrite Er. intros y ring' Hy Hp. apply HQ; [done | done |]. by intros z [= <-].
Qed.

(** ** Sending *)

(** Nothing is lost, and the lists do not change at all. *)
Record quiet (b b' : evdns_base) : Prop := {
  qu_kept : kept b b';
  qu_heads : req_heads b' = req_heads b;
  qu_waiting : req_waiting_head b' = req_waiting_head b }.

#[export] Instance quiet_refl : Reflexive quiet.
Proof. by split. Qed.
#[export] Instance quiet_trans : Transitive quiet.
Proof. intros x y z [] []. split; etrans; eassumption. Qed.

Lemma count_up_set ss s n n' l : NoDup l -> s ∈ l -> ss !! s = Some n ->
  count_up (<[s := n']> ss) l = count_up ss l - Z.b2z (up n) + Z.b2z (up n').
Proof.
  intros Hnd Hs E. unfold count_up. induction Hnd as [|x l Hx Hnd IH]; [by apply elem_of_nil in Hs|].
  rewrite !filter_cons. destruct (decide (x = s)) as [-> | Hne].
  - assert (Hrest : filter (fun y => (up <$> <[s:=n']> ss !! y) = Some true) l = filter (fun y => (up <$> ss !! y) = Some true) l).
    { clear - Hx. induction l as [|y l IH]; [done|]. rewrite !filter_cons. apply not_elem_of_cons in Hx as [Hy Hx].
      rewrite lookup_insert_ne by done. by rewrite (IH Hx). }
    rewrite Hrest, lookup_insert_eq, E. cbn [fmap option_fmap option_map].
    destruct (up n), (up n'); repeat case_decide; try done; rewrite ?zlen_cons; cbn [Z.b2z]; lia.
  - apply elem_of_cons in Hs as [->|Hs]; [done|]. rewrite lookup_insert_ne by done. specialize (IH Hs).
    case_decide; rewrite ?zlen_cons; lia.
Qed.

Lemma core_set_up b s n n' :
  core b -> servers b !! s = Some n ->
  let b' := b <| global_good_nameservers := global_good_nameservers b - Z.b2z (up n) + Z.b2z (up n') |>
              <| servers := <[s := n']> (servers b) |> in
  core b' /\ (same_server n n' -> quiet b b').
Proof.
  intros Hb E b'. assert (Hring : s ∈ server_head b) by (apply (co_servers _ Hb); by rewrite E).
  destruct Hb. split.
  - split; try done; cbn.
    + intros x. rewrite <- co_servers0. destruct (decide (x = s)) as [-> | Hne]; [by rewrite lookup_insert_eq, E|].
      by rewrite lookup_insert_ne.
    + change (global_good_nameservers b - Z.b2z (up n) + Z.b2z (up n') = count_up (<[s := n']> (servers b)) (server_head b)).
      rewrite (count_up_set _ _ n) by done. by rewrite co_good0.
    + intros m Hm. destruct (co_fresh0 m Hm) as (H1 & H2 & H3 & H4). splits; try done.
      rewrite lookup_insert_ne; [done|]. intros ->. by rewrite E in H3.
  - intros Hsame. split; [|done..]. split; try done; [intros; apply both_refl; apply _ | cbn; intros x; by apply (both_insert _ _ _ n); [apply _| |] |].
    intros r q Hr Eq. split; [done | by exists q].
Qed.

Lemma inflight_listed b r : r ∈ inflight b -> r ∈ listed b.
Proof. intros H. apply elem_of_app. by left. Qed.

Lemma listed_request b r : core b -> r ∈ listed b -> exists q, requests b !! r = Some q.
Proof. intros Hb H. destruct (co_linked _ Hb r H) as (q & _ & _ & E & _). by exists q. Qed.

Lemma inflight_ns b r q : core b -> r ∈ inflight b -> requests b !! r = Some q -> exists s, ns q = Some s /\ s ∈ server_head b.
Proof.
  intros Hb Hr E. apply elem_of_concat in Hr as (i & l & Hl & Hr). destruct (co_inflight _ Hb i l r q Hl Hr E) as [_ Hns].
  destruct (ns q) as [s|] eqn:En; [|done]. exists s. split; [done|]. by apply (ro_ns _ _ (co_request _ Hb r q E)).
Qed.

Lemma quiet_inflight b b' r : quiet b b' -> r ∈ inflight b -> r ∈ inflight b'.
Proof. intros [_ E _]. unfold inflight. by rewrite E. Qed.

Section sending.
Context {A : Arch} {M : Allocator} {E : ResolverEnv}.

Lemma reassign_ok s l : forall b (Q : unit -> evdns_base -> Prop),
  core b -> server_head b <> [] -> (forall r, r ∈ l -> r ∈ inflight b) ->
  (forall b', core b' -> quiet b b' -> Q tt b') -> wp (reassign s l) Q b.
Proof.
  induction l as [|r l IH]; intros b Q Hb Hring Hl HQ; cbn [reassign]; [by apply wp_ret, HQ|].
  destruct (listed_request b r Hb) as [q Eq]; [apply inflight_listed, Hl; left|].
  apply wp_bind, (wp_the_request _ q); [done|]. apply wp_bind, wp_when.
  - intros _. apply wp_bind, nameserver_pick_ok; [by apply core_ring_ok|]. intros o ring Hp Hnone Hin.
    destruct (core_ring b ring Hb Hp) as [Hb1 Hk1]. apply (wp_update_request _ _ q); [done|].
    destruct (inflight_ns b r q Hb) as (s0 & Hs0 & _); [apply Hl; left | done|].
    destruct (core_update_request (b <| server_head := ring |>) r q (q <| ns := o |>)) as [Hb2 Hk2]; [done | done | by split | done | | |].
    { cbn. rewrite Hs0. split; [|done]. intros Ho. by apply Hnone in Ho. }
    { cbn. intros x Hx. rewrite Hp. by apply Hin. }
    apply IH; [done | | |].
    + cbn. intros ->. by apply Permutation_nil in Hp.
    + intros x Hx. apply Hl. by right.
    + intros b' Hb' Hq'. apply HQ; [done|]. etrans; [|exact Hq']. split; [by etrans | done..].
  - intros _. apply IH; [done | done | intros x Hx; apply Hl; by right | done].
Qed.

Lemma nameserver_failed_ok s b (Q : unit -> evdns_base -> Prop) :
  core b -> s ∈ server_head b -> (forall b', core b' -> quiet b b' -> Q tt b') -> wp (nameserver_failed s) Q b.
Proof.
  intros Hb Hs HQ. destruct (proj2 (co_servers _ Hb s) Hs) as [n En]. unfold nameserver_failed.
  apply wp_bind, (wp_the_server _ n); [done|]. destruct (up n) eqn:Hu; cbn [negb]; [|by apply wp_ret, HQ].
  apply wp_bind, wp_modify, wp_bind, wp_asks. change (global_good_nameservers (_ <| global_good_nameservers := ?x |>)) with x.
  assert (Hpos : 0 <= global_good_nameservers b - 1).
  { rewrite (co_good _ Hb). pose proof (count_up_set _ s n (n <| up := false |>) _ (co_ring _ Hb) Hs En) as Hc.
    rewrite Hu in Hc. cbn [up Z.b2z] in Hc. change (up (n <| up := false |>)) with false in Hc. cbn [Z.b2z] in Hc.
    pose proof (zlen_nonneg (filter (fun x => (up <$> (<[s:=n <| up := false |>]> (servers b)) !! x) = Some true) (server_head b))) as Hz.
    fold (count_up (<[s:=n <| up := false |>]> (servers b)) (server_head b)) in Hz. lia. }
  apply wp_bind, wp_assert; [by apply Z.leb_le|]. apply wp_bind, wp_asks, wp_bind, (wp_update_server _ _ n); [done|].
  set (n' := n <| up := false |> <| failed_times := 1 |> <| probe_timer := _ |>).
  destruct (core_set_up b s n n' Hb En) as [Hb1 Hq1]. specialize (Hq1 ltac:(by split)). rewrite Hu in Hb1, Hq1.
  change (up n') with false in Hb1, Hq1. cbn [Z.b2z] in Hb1, Hq1. rewrite Z.add_0_r in Hb1, Hq1.
  destruct (global_good_nameservers b - 1 =? 0); [by apply wp_ret, HQ|].
  apply wp_bind, wp_asks, reassign_ok; [done | cbn; intros E0; rewrite E0 in Hs; by apply elem_of_nil in Hs | done |].
  intros b' Hb' Hq'. apply HQ; [done | by etrans].
Qed.

Lemma wp_assert_valid r b (Q : unit -> evdns_base -> Prop) : linked b r -> Q tt b -> wp (assert_valid_request r) Q b.
Proof.
  intros (q & h & hd & Eq & Hh & Eh & Hc) HQ. unfold assert_valid_request. apply wp_bind, (wp_the_request _ q); [done|].
  rewrite Hh. apply wp_bind, (wp_the_handle _ hd); [done|]. apply wp_assert; [by apply bool_decide_eq_true|done].
Qed.

Lemma core_sends b n : core b -> core (b <| sends := n |>) /\ quiet b (b <| sends := n |>).
Proof.
  intros [] . split; [by split|]. split; [|done..]. split; try done; [intros; apply both_refl; apply _..|].
  intros r q Hr Eq. split; [done | by exists q].
Qed.

Lemma transmit_to_ok r s b (Q : Z -> evdns_base -> Prop) :
  core b -> r ∈ inflight b -> s ∈ server_head b ->
  (forall c b', core b' -> quiet b b' -> Q c b') -> wp (evdns_request_transmit_to r s) Q b.
Proof.
  intros Hb Hr Hs HQ. unfold evdns_request_transmit_to.
  apply wp_bind, wp_assert_valid; [by apply (co_linked _ Hb), inflight_listed|].
  destruct (listed_request b r Hb) as [q Eq]; [by apply inflight_listed|]. apply wp_bind, (wp_the_request _ q); [done|].
  destruct (proj2 (co_servers _ Hb s) Hs) as [n En]. apply wp_bind, (wp_the_server _ n); [done|].
  apply wp_bind, wp_asks, wp_bind, wp_modify. destruct (core_sends b (S (sends b)) Hb) as [Hb1 Hq1].
  destruct (net (sends b)); [by apply wp_ret, HQ..|].
  destruct (inflight_ns b r q Hb Hr Eq) as (s' & Hns & Hs'). rewrite Hns. apply wp_bind, nameserver_failed_ok; [done | done |].
  intros b' Hb' Hq'. apply wp_ret, HQ; [done | by etrans].
Qed.

Lemma transmit_ok r b (Q : Z -> evdns_base -> Prop) :
  core b -> r ∈ inflight b -> (forall c b', core b' -> quiet b b' -> Q c b') -> wp (evdns_request_transmit r) Q b.
Proof.
  intros Hb Hr HQ. unfold evdns_request_transmit. apply wp_bind, wp_assert_valid; [by apply (co_linked _ Hb), inflight_listed|].
  destruct (listed_request b r Hb) as [q Eq]; [by apply inflight_listed|]. apply wp_bind, (wp_update_request _ _ q); [done|].
  destruct (inflight_ns b r q Hb Hr Eq) as (s & Hns & Hs).
  destruct (core_update_request b r q (q <| transmit_me := true |>)) as [Hb1 Hk1];
    [done | done | by split | done | done | intros s0 H0; by apply (ro_ns _ _ (co_request _ Hb r q Eq)) |].
  assert (Hq1 : quiet b (b <| requests := <[r := q <| transmit_me := true |>]> (requests b) |>)) by by split.
  revert Hb1 Hq1. set (b1 := b <| requests := _ |>). intros Hb1 Hq1.
  apply wp_bind, (wp_the_request _ (q <| transmit_me := true |>)); [by cbn; rewrite lookup_insert_eq|].
  apply wp_bind, wp_assert. { cbn. apply negb_true_iff, Z.eqb_neq. by apply (ro_ns _ _ (co_request _ Hb r q Eq) s). }
  change (ns (q <| transmit_me := true |>)) with (ns q). rewrite Hns.
  destruct (proj2 (co_servers _ Hb s) Hs) as [n En]. apply wp_bind, (wp_the_server _ n); [done|].
  destruct (ns_choked n); [by apply wp_ret, HQ|]. apply wp_bind, transmit_to_ok; [done..|].
  intros c b2 Hb2 Hq2. assert (Hr2 : r ∈ inflight b2) by by apply (quiet_inflight b1).
  destruct (listed_request b2 r Hb2) as [q2 Eq2]; [by apply inflight_listed|].
  destruct (inflight_ns b2 r q2 Hb2 Hr2 Eq2) as (s2 & Hns2 & Hs2). destruct (c =? 1).
  - apply wp_bind, (wp_the_request _ q2); [done|]. rewrite Hns2. destruct (proj2 (co_servers _ Hb2 s2) Hs2) as [n2 En2].
    apply wp_bind, (wp_update_server _ _ n2); [done|].
    destruct (core_update_server b2 s2 n2 (n2 <| ns_choked := true |>)) as [Hb3 Hk3]; [done | done | by split | done|].
    apply wp_bind, (wp_update_server _ _ (n2 <| ns_choked := true |>)); [by cbn; rewrite lookup_insert_eq|].
    destruct (core_update_server _ s2 (n2 <| ns_choked := true |>) (n2 <| ns_choked := true |> <| write_waiting := true |>) Hb3)
      as [Hb4 Hk4]; [by cbn; rewrite lookup_insert_eq | by split | done|].
    apply wp_ret, HQ; [done|]. do 2 (etrans; [done|]). split; [by etrans | done..].
  - apply wp_bind, (wp_update_request _ _ q2); [done|].
    destruct (core_update_request b2 r q2 (q2 <| timeout_event := true |> <| tx_count := tx_count q2 + 1 |> <| transmit_me := false |>))
      as [Hb3 Hk3]; [done | done | by split | done | done | intros s0 H0; by apply (ro_ns _ _ (co_request _ Hb2 r q2 Eq2)) |].
    apply wp_ret, HQ; [done|]. do 2 (etrans; [done|]). by split.
Qed.

Lemma transmit_list_ok l : forall b (Q : bool -> evdns_base -> Prop),
  core b -> (forall r, r ∈ l -> r ∈ inflight b) -> (forall c b', core b' -> quiet b b' -> Q c b') -> wp (transmit_list l) Q b.
Proof.
  induction l as [|r l IH]; intros b Q Hb Hl HQ; cbn [transmit_list]; [by apply wp_ret, HQ|].
  assert (Hr : r ∈ inflight b) by (apply Hl; left).
  destruct (listed_request b r Hb) as [q Eq]; [by apply inflight_listed|]. apply wp_bind, (wp_the_request _ q); [done|].
  destruct (transmit_me q); [|apply IH; [done | intros; apply Hl; by right | done]].
  apply wp_bind, transmit_ok; [done | done|]. intros c b1 Hb1 Hq1. apply wp_bind, IH; [done | |].
  - intros x Hx. apply (quiet_inflight b); [done|]. apply Hl. by right.
  - intros c' b2 Hb2 Hq2. apply wp_ret, HQ; [done | by etrans].
Qed.

Lemma evdns_transmit_ok b (Q : bool -> evdns_base -> Prop) :
  core b -> (forall c b', core b' -> quiet b b' -> Q c b') -> wp evdns_transmit Q b.
Proof. intros Hb HQ. unfold evdns_transmit. by apply wp_bind, wp_asks, transmit_list_ok. Qed.
End sending.
