(* ===== verification/DnsLists.v ===== *)
(** The lists of the resolver ([DnsBase]): taking a request out of its list, putting it
    into one, and what the structure of [DnsResolverSpec] becomes; the choice of a
    transaction id; and the waiting queue, which is emptied as far as the limit allows. *)

From stdpp Require Import gmap.
From S2P Require Import Prelude StateOp EvChain Evbuffer EvbufferSpec EvbufferProps EventData Cstring Inet UriCoding Dns DnsSpec DnsPacket DnsServer DnsBase DnsResolver DnsResolverSpec.

(** ** Lists of lists *)

Lemma remove_perm (r : nat) l : NoDup l -> r ∈ l -> l ≡ₚ r :: filter (fun x => x <> r) l.
Proof.
  intros Hnd Hr. apply NoDup_Permutation; [done | |].
  - constructor; [by rewrite list_elem_of_filter; intros [H _] | by apply list.NoDup_filter].
  - intros x. rewrite elem_of_cons, list_elem_of_filter. destruct (decide (x = r)) as [->|]; tauto.
Qed.

Lemma remove_absent (r : nat) (l : list nat) : r ∉ l -> filter (fun x => x <> r) l = l.
Proof.
  induction l as [|x l IH]; [done|]. intros [Hx Hl]%not_elem_of_cons. rewrite filter_cons_True; [by rewrite IH | congruence].
Qed.

Lemma zlen_perm {T} (l l' : list T) : l ≡ₚ l' -> zlen l = zlen l'.
Proof. intros H. unfold zlen. by rewrite H. Qed.

(** ** Heads *)

Definition add_count (head : list_head) (k : Z) (b : evdns_base) : evdns_base :=
  match head with
  | Inflight _ => b <| global_requests_inflight := global_requests_inflight b + k |>
  | Waiting => b <| global_requests_waiting := global_requests_waiting b + k |>
  end.

(** The list a request belongs to. *)
Definition head_of (b : evdns_base) (q : request) : list_head :=
  match ns q with Some _ => Inflight (head_index (req_heads b) (trans_id q)) | None => Waiting end.

Definition removed (head : list_head) (r : nat) (b : evdns_base) : evdns_base :=
  add_count head (-1) (set_list head (filter (fun x => x <> r) (list_at b head)) b).

Definition put_request (head : list_head) (r : nat) (b : evdns_base) : evdns_base :=
  add_count head 1 (set_list head (list_at b head ++ [r]) b).

Lemma head_index_insert heads i l id : head_index (<[i := l]> heads) id = head_index heads id.
Proof. unfold head_index, zlen. by rewrite length_insert. Qed.

Lemma head_index_lookup heads id : heads <> [] -> exists l, heads !! head_index heads id = Some l.
Proof.
  intros H. apply lookup_lt_is_Some. unfold head_index. assert (0 < zlen heads) by (destruct heads; [done|]; rewrite zlen_cons; pose proof (zlen_nonneg heads); lia).
  pose proof (Z.mod_pos_bound id (zlen heads)). unfold zlen in *. lia.
Qed.

Lemma list_at_inflight b i r : r ∈ list_at b (Inflight i) -> exists l, req_heads b !! i = Some l /\ r ∈ l.
Proof. cbn. destruct (req_heads b !! i) as [l|]; [by exists l | by intros H%elem_of_nil]. Qed.

(** A listed request is in its list. *)
Lemma listed_head b r q : core b -> r ∈ listed b -> requests b !! r = Some q -> r ∈ list_at b (head_of b q).
Proof.
  intros Hb Hr E. unfold head_of. apply elem_of_app in Hr as [Hr|Hr].
  - apply elem_of_concat in Hr as (i & l & Hl & Hr). destruct (co_inflight _ Hb i l r q Hl Hr E) as [-> Hns].
    destruct (ns q); [|done]. cbn. by rewrite Hl.
  - by rewrite (co_waiting _ Hb r q Hr E).
Qed.

Lemma removed_lists head r b : NoDup (listed b) -> r ∈ list_at b head ->
  listed b ≡ₚ r :: listed (removed head r b) /\
  match head with
  | Inflight _ => inflight b ≡ₚ r :: inflight (removed head r b) /\ req_waiting_head (removed head r b) = req_waiting_head b
  | Waiting => inflight (removed head r b) = inflight b /\ req_waiting_head b ≡ₚ r :: req_waiting_head (removed head r b)
  end.
Proof.
  intros Hnd Hr. destruct head as [i|]; cbn in *.
  - apply list_at_inflight in Hr as (l & Hl & Hr). rewrite Hl. cbn [default].
    destruct (concat_insert _ _ _ (filter (fun x => x <> r) l) Hl) as (rest & H1 & H2).
    assert (Hin : inflight b ≡ₚ r :: concat (<[i := filter (fun x => x <> r) l]> (req_heads b))).
    { unfold inflight. rewrite H1, H2, app_comm_cons, <- remove_perm; [done | | done].
      unfold listed, inflight in Hnd. rewrite H1 in Hnd. by apply list.NoDup_app in Hnd as [Hnd _]; apply list.NoDup_app in Hnd as [Hnd _]. }
    split; [|by split]. unfold listed. rewrite Hin. done.
  - apply list.NoDup_app in Hnd as (_ & _ & Hnd). pose proof (remove_perm r _ Hnd Hr) as Hp. split; [|by split].
    unfold listed. rewrite Hp at 1. by rewrite Permutation_middle.
Qed.

Lemma removed_in_heads head r b i l x : req_heads (removed head r b) !! i = Some l -> x ∈ l ->
  exists l', req_heads b !! i = Some l' /\ x ∈ l'.
Proof.
  destruct head as [j|]; cbn; [|by exists l]. intros Hl Hx. apply list_lookup_insert_Some in Hl as [(-> & <- & Hj)|[_ Hl]]; [|by exists l].
  apply list_elem_of_filter in Hx as [_ Hx]. by apply list_at_inflight in Hx.
Qed.

Lemma core_removed b head r : core b -> r ∈ list_at b head -> core (removed head r b) /\ r ∉ listed (removed head r b).
Proof.
  intros Hb Hr. destruct (removed_lists head r b (co_nodup _ Hb) Hr) as [Hl Hc].
  assert (Hsub : forall x, x ∈ listed (removed head r b) -> x ∈ listed b) by (intros x Hx; rewrite Hl; by right).
  assert (Hnd : NoDup (r :: listed (removed head r b))) by (rewrite <- Hl; apply Hb).
  apply list.NoDup_cons in Hnd as [Hnr Hnd]. split; [|done].
  assert (Eh : forall id, head_index (req_heads (removed head r b)) id = head_index (req_heads b) id)
    by (intros; destruct head; [apply head_index_insert | done]).
  assert (Er : requests (removed head r b) = requests b) by by destruct head.
  assert (Elink : forall x, linked (removed head r b) x <-> linked b x) by by destruct head.
  split; try by (destruct head; apply Hb).
  - intros H. apply (co_heads _ Hb). destruct head; [|done]. apply length_zero_iff_nil. apply length_zero_iff_nil in H.
    cbn in H. by rewrite length_insert in H.
  - done.
  - intros x Hx. by apply Elink, (co_linked _ Hb), Hsub.
  - intros i l x q Hi Hx E. rewrite Er in E. rewrite Eh. destruct (removed_in_heads _ _ _ _ _ _ Hi Hx) as (l' & Hi' & Hx').
    by apply (co_inflight _ Hb i l' x).
  - intros x q Hx E. rewrite Er in E. apply (co_waiting _ Hb x q); [|done]. destruct head; [done|]. cbn in Hx.
    by apply list_elem_of_filter in Hx as [_ Hx].
  - destruct head as [i|]; destruct Hc as [H1 H2].
    + cbn. rewrite (co_inflight_count _ Hb), (zlen_perm _ _ H1), zlen_cons. change (concat _) with (inflight (removed (Inflight i) r b)). lia.
    + rewrite H1. apply Hb.
  - destruct head as [i|]; destruct Hc as [H1 H2].
    + rewrite H2. apply Hb.
    + cbn. rewrite (co_waiting_count _ Hb), (zlen_perm _ _ H2), zlen_cons. cbn. lia.
Qed.

Lemma put_lists head r b : (forall i, head = Inflight i -> (i < length (req_heads b))%nat) ->
  listed (put_request head r b) ≡ₚ r :: listed b /\
  match head with
  | Inflight _ => inflight (put_request head r b) ≡ₚ r :: inflight b /\ req_waiting_head (put_request head r b) = req_waiting_head b
  | Waiting => inflight (put_request head r b) = inflight b /\ req_waiting_head (put_request head r b) = req_waiting_head b ++ [r]
  end.
Proof.
  intros Hi. destruct head as [i|]; cbn.
  - destruct (lookup_lt_is_Some_2 (req_heads b) i) as [l Hl]; [by apply Hi|].
    destruct (concat_insert _ _ _ (l ++ [r]) Hl) as (rest & H1 & H2).
    assert (Hin : concat (<[i := l ++ [r]]> (req_heads b)) ≡ₚ r :: inflight b).
    { unfold inflight. rewrite H1, H2, <- app_assoc. cbn. by rewrite Permutation_middle. }
    rewrite Hl. cbn [default]. split; [|by split]. unfold listed, inflight. cbn. rewrite Hin. done.
  - split; [|by split]. unfold listed, inflight. cbn. rewrite app_assoc, Permutation_app_comm. done.
Qed.

Lemma core_put b r q : core b -> r ∉ listed b -> linked b r -> requests b !! r = Some q -> core (put_request (head_of b q) r b).
Proof.
  intros Hb Hr Hlink E. assert (Hlt : forall i, head_of b q = Inflight i -> (i < length (req_heads b))%nat).
  { unfold head_of. intros i. destruct (ns q); [|done]. intros [= <-].
    destruct (head_index_lookup (req_heads b) (trans_id q) (co_heads _ Hb)) as [l Hl]. by apply lookup_lt_Some in Hl. }
  destruct (put_lists (head_of b q) r b Hlt) as [Hl Hc]. revert Hl Hc. set (b' := put_request _ _ _). intros Hl Hc.
  assert (Eh : forall id, head_index (req_heads b') id = head_index (req_heads b) id)
    by (intros; subst b'; destruct (head_of b q); [apply head_index_insert | done]).
  assert (Er : requests b' = requests b) by by (subst b'; destruct (head_of b q)).
  assert (Elink : forall x, linked b' x <-> linked b x) by by (subst b'; destruct (head_of b q)).
  split; try by (subst b'; destruct (head_of b q); apply Hb).
  - intros H. apply (co_heads _ Hb). subst b'. destruct (head_of b q); [|done]. apply length_zero_iff_nil. apply length_zero_iff_nil in H.
    cbn in H. by rewrite length_insert in H.
  - rewrite Hl. constructor; [done | apply Hb].
  - intros x Hx. apply Elink. rewrite Hl in Hx. apply elem_of_cons in Hx as [->|Hx]; [done | by apply (co_linked _ Hb)].
  - intros i l x q0 Hi Hx E0. rewrite Er in E0. rewrite Eh. subst b'. unfold head_of in Hi. destruct (ns q) as [s|] eqn:En; cbn in Hi.
    + apply list_lookup_insert_Some in Hi as [(<- & <- & Hlen)|[_ Hi]]; [|by apply (co_inflight _ Hb i l x)].
      apply elem_of_app in Hx as [Hx|Hx].
      * apply list_at_inflight in Hx as (l' & Hl' & Hx). by apply (co_inflight _ Hb _ l' x).
      * apply list_elem_of_singleton in Hx as ->. rewrite E in E0. injection E0 as <-. split; [done | by rewrite En].
    + by apply (co_inflight _ Hb i l x).
  - intros x q0 Hx E0. rewrite Er in E0. subst b'. unfold head_of in Hc, Hx. destruct (ns q) as [s|] eqn:En; destruct Hc as [_ H2].
    + rewrite H2 in Hx. by apply (co_waiting _ Hb x).
    + rewrite H2 in Hx. apply elem_of_app in Hx as [Hx|Hx]; [by apply (co_waiting _ Hb x)|].
      apply list_elem_of_singleton in Hx as ->. rewrite E in E0. by injection E0 as <-.
  - subst b'. destruct (head_of b q); destruct Hc as [H1 H2].
    + cbn. rewrite (co_inflight_count _ Hb). change (concat _) with (inflight (put_request (Inflight i) r b)). rewrite (zlen_perm _ _ H1), zlen_cons. lia.
    + rewrite H1. apply Hb.
  - subst b'. destruct (head_of b q); destruct Hc as [H1 H2].
    + rewrite H2. apply Hb.
    + rewrite H2. rewrite zlen_app. cbn. rewrite (co_waiting_count _ Hb). done.
Qed.

(** ** Requests that are in no list *)

Lemma core_new_request b r q' : core b -> r ∉ listed b -> (r < next_id b)%nat -> request_ok (server_head b) q' ->
  core (b <| requests := <[r := q']> (requests b) |>).
Proof.
  intros Hb Hr Hlt Hq. split; try by apply Hb.
  - cbn. intros x q0 E. destruct (decide (x = r)) as [->|Hne].
    + rewrite lookup_insert_eq in E. by injection E as <-.
    + rewrite lookup_insert_ne in E by done. by apply (co_request _ Hb x).
  - intros x Hx. destruct (co_linked _ Hb x Hx) as (q0 & h & hd & E0 & Hh & Hhd & Hc). exists q0, h, hd. splits; try done.
    cbn. rewrite lookup_insert_ne; [done|]. by intros ->.
  - cbn. intros i l x q0 Hi Hx E0. rewrite lookup_insert_ne in E0; [by apply (co_inflight _ Hb i l x)|].
    intros ->. apply Hr, inflight_listed, elem_of_concat. by exists i, l.
  - cbn. intros x q0 Hx E0. rewrite lookup_insert_ne in E0; [by apply (co_waiting _ Hb x)|].
    intros ->. apply Hr, elem_of_app. by right.
  - cbn. intros n Hn. destruct (co_fresh _ Hb n Hn) as (H1 & H2 & H3 & H4). splits; try done.
    rewrite lookup_insert_ne; [done | lia].
Qed.

Lemma core_delete_request b r : core b -> r ∉ listed b -> core (b <| requests := delete r (requests b) |>).
Proof.
  intros Hb Hr. split; try by apply Hb.
  - cbn. intros x q0 E. apply lookup_delete_Some in E as [_ E]. by apply (co_request _ Hb x).
  - intros x Hx. destruct (co_linked _ Hb x Hx) as (q0 & h & hd & E0 & Hh & Hhd & Hc). exists q0, h, hd. splits; try done.
    cbn. rewrite lookup_delete_ne; [done|]. by intros ->.
  - cbn. intros i l x q0 Hi Hx E0. apply lookup_delete_Some in E0 as [_ E0]. by apply (co_inflight _ Hb i l x).
  - cbn. intros x q0 Hx E0. apply lookup_delete_Some in E0 as [_ E0]. by apply (co_waiting _ Hb x).
  - cbn. intros n Hn. destruct (co_fresh _ Hb n Hn) as (H1 & H2 & H3 & H4). splits; try done.
    rewrite lookup_delete_None. by right.
Qed.

(** Handles and search states may change as long as the handles of listed requests keep
    pointing to them. *)
Lemma core_handles b hs ss n :
  core b ->
  (forall r q h hd, r ∈ listed b -> requests b !! r = Some q -> handle q = Some h -> handles b !! h = Some hd ->
     current_req hd = Some r -> exists hd', hs !! h = Some hd' /\ current_req hd' = Some r) ->
  (next_id b <= n)%nat -> (forall m, (n <= m)%nat -> hs !! m = None /\ ss !! m = None) ->
  core (b <| handles := hs |> <| searches := ss |> <| next_id := n |>).
Proof.
  intros Hb Hkeep Hle Hfresh. split; try by apply Hb.
  - intros r Hr. destruct (co_linked _ Hb r Hr) as (q & h & hd & E & Hh & Hhd & Hc).
    destruct (Hkeep r q h hd Hr E Hh Hhd Hc) as (hd' & E' & Hc'). by exists q, h, hd'.
  - cbn. intros m Hm. destruct (co_fresh _ Hb m ltac:(lia)) as (H1 & _ & H3 & _). by destruct (Hfresh m Hm).
Qed.

Lemma same_stores b : b <| handles := handles b |> <| searches := searches b |> <| next_id := next_id b |> = b.
Proof. by destruct b. Qed.

(** ** Transaction ids *)

(** The ids of the requests in flight. *)
Definition ids (b : evdns_base) : list Z := omap (fun r => trans_id <$> requests b !! r) (inflight b).

Lemma find_trans_id_none rs id l : (forall r, r ∈ l -> is_Some (rs !! r)) -> find_trans_id rs id l = None <-> (forall r q, r ∈ l -> rs !! r = Some q -> trans_id q <> id).
Proof.
  induction l as [|r l IH]; intros Hall; cbn [find_trans_id]; [split; [by intros _ r q H%elem_of_nil | done]|].
  destruct (Hall r) as [q E]; [left|]. rewrite E. destruct (Z.eqb_spec (trans_id q) id) as [Hid|Hid].
  - split; [done|]. intros H. exfalso. apply (H r q); [left | done | done].
  - rewrite IH by (intros; apply Hall; by right). split.
    + intros H r' q' [->|Hr]%elem_of_cons E'; [rewrite E in E'; by injection E' as <- | by apply (H r')].
    + intros H r' q' Hr. apply H. by right.
Qed.

Lemma zlen_ids b : zlen (ids b) <= zlen (inflight b).
Proof.
  unfold ids, zlen. apply inj_le. induction (inflight b) as [|r l IH]; [done|]. cbn. destruct (requests b !! r); cbn in *; lia.
Qed.

Lemma elem_of_ids b id : id ∈ ids b <-> exists r q, r ∈ inflight b /\ requests b !! r = Some q /\ trans_id q = id.
Proof.
  unfold ids. rewrite list_elem_of_omap. split.
  - intros (r & Hr & E). destruct (requests b !! r) as [q|] eqn:Eq; [|done]. injection E as <-. by exists r, q.
  - intros (r & q & Hr & E & <-). exists r. by rewrite E.
Qed.

(** What the search for an id reads. *)
Record ids_ok (b : evdns_base) : Prop := {
  id_heads : req_heads b <> [];
  id_some : forall r, r ∈ inflight b -> is_Some (requests b !! r);
  id_place : forall i l r q, req_heads b !! i = Some l -> r ∈ l -> requests b !! r = Some q -> i = head_index (req_heads b) (trans_id q) }.

Lemma core_ids_ok b : core b -> ids_ok b.
Proof.
  intros Hb. split; [apply Hb | |].
  - intros r Hr. destruct (listed_request b r Hb) as [q E]; [by apply inflight_listed|]. by exists q.
  - intros i l r q Hi Hr E. by apply (co_inflight _ Hb i l r q).
Qed.

(** The list of an id has all the requests with that id. *)
Lemma find_in_head b id : ids_ok b -> find_trans_id (requests b) id (list_at b (Inflight (head_index (req_heads b) id))) = None <-> id ∉ ids b.
Proof.
  intros Hb. destruct (head_index_lookup _ id (id_heads _ Hb)) as [l Hl]. cbn [list_at]. rewrite Hl. cbn [default].
  assert (Hin : forall r, r ∈ l -> r ∈ inflight b) by (intros r Hr; apply elem_of_concat; by exists (head_index (req_heads b) id), l).
  rewrite find_trans_id_none by (intros r Hr; by apply Hb, Hin). rewrite elem_of_ids. split.
  - intros H (r & q & Hr & E & <-). apply elem_of_concat in Hr as (i & l' & Hl' & Hr).
    assert (i = head_index (req_heads b) (trans_id q)) as -> by by apply (id_place _ Hb i l' r).
    rewrite Hl in Hl'. injection Hl' as <-. by apply (H r q).
  - intros H r q Hr E Hid. apply H. exists r, q. auto.
Qed.

Section pick.
Context {A : Arch} {M : Allocator} {E : ResolverEnv}.

Lemma pick_trans_id_ok fuel : forall b (Q : Z -> evdns_base -> Prop),
  ids_ok b -> (exists i, (i < fuel)%nat /\ rand16 (draws b + i) ∉ 0xffff :: ids b) ->
  (forall id n, fits 16 id -> id <> 0xffff -> id ∉ ids b -> Q id (b <| draws := n |>)) -> wp (pick_trans_id fuel) Q b.
Proof.
  induction fuel as [|fuel IH]; intros b Q Hb (i & Hi & Hfree) HQ; [lia|]. cbn [pick_trans_id].
  apply wp_bind, wp_asks, wp_bind, wp_modify.
  assert (Hnext : rand16 (draws b) ∈ 0xffff :: ids b -> wp (pick_trans_id fuel) Q (b <| draws := S (draws b) |>)).
  { intros Hin. apply IH; [split; apply Hb | | intros id n; apply HQ]. destruct i as [|i]; [rewrite Nat.add_0_r in Hfree; done|].
    exists i. cbn. split; [lia|]. by rewrite Nat.add_succ_r in Hfree. }
  destruct (Z.eqb_spec (rand16 (draws b)) 0xffff) as [Hid|Hid]; [apply Hnext; rewrite Hid; left|]. apply wp_bind.
  unfold request_find_from_trans_id. apply wp_bind. unfold REQ_HEAD, wp at 1. apply wp_asks.
  assert (Hb' : ids_ok (b <| draws := S (draws b) |>)) by (split; apply Hb).
  pose proof (find_in_head _ (rand16 (draws b)) Hb') as Hf. destruct (find_trans_id _ _ _) as [r|] eqn:Er.
  - apply Hnext. right. destruct (decide (rand16 (draws b) ∈ ids b)) as [|Hn]; [done|]. by apply Hf in Hn.
  - apply wp_ret, HQ; [apply rand16_range | done | by apply Hf].
Qed.

(** The id is one that no request in flight has. *)
Lemma transaction_id_pick_ok b (Q : Z -> evdns_base -> Prop) :
  ids_ok b -> zlen (inflight b) <= 65000 ->
  (forall id n, fits 16 id -> id <> 0xffff -> id ∉ ids b -> Q id (b <| draws := n |>)) -> wp transaction_id_pick Q b.
Proof.
  intros Hb Hlen HQ. apply pick_trans_id_ok; [done | | done]. apply rand16_fair. rewrite zlen_cons. pose proof (zlen_ids b). lia.
Qed.
End pick.

(** ** Inserting and removing *)

Lemma wp_insert r head b (Q : unit -> evdns_base -> Prop) :
  linked b r -> Q tt (set_list head (list_at b head ++ [r]) b) -> wp (evdns_request_insert r head) Q b.
Proof. intros Hl HQ. unfold evdns_request_insert. by apply wp_bind, wp_assert_valid, wp_bind, wp_asks, wp_modify. Qed.

Lemma wp_remove r head b (Q : unit -> evdns_base -> Prop) :
  linked b r -> r ∈ list_at b head -> Q tt (set_list head (filter (fun x => x <> r) (list_at b head)) b) ->
  wp (evdns_request_remove r head) Q b.
Proof.
  intros Hl Hr HQ. unfold evdns_request_remove. apply wp_bind, wp_assert_valid, wp_bind, wp_asks, wp_bind, wp_assert; [done | | ].
  - by apply bool_decide_eq_true.
  - by apply wp_modify.
Qed.

Lemma linked_update b r q q' x : requests b !! r = Some q -> handle q' = handle q -> linked b x ->
  linked (b <| requests := <[r := q']> (requests b) |>) x.
Proof.
  intros E Hq (qx & h & hd & Ex & Hh & Hhd & Hc). destruct (decide (x = r)) as [->|Hne].
  - exists q', h, hd. cbn. rewrite lookup_insert_eq. rewrite E in Ex. injection Ex as <-. by rewrite Hq.
  - exists qx, h, hd. cbn. by rewrite lookup_insert_ne.
Qed.

Lemma ids_ok_update b r q' : ids_ok b -> r ∉ inflight b -> ids_ok (b <| requests := <[r := q']> (requests b) |>).
Proof.
  intros Hb Hr. split; [apply Hb | |]; cbn.
  - intros x Hx. rewrite lookup_insert_ne; [by apply Hb | by intros ->].
  - intros i l x q Hi Hx E. rewrite lookup_insert_ne in E; [by apply (id_place _ Hb i l x)|]. intros ->. apply Hr, elem_of_concat. by exists i, l.
Qed.

Lemma wp_trans_id_set r id q b (Q : unit -> evdns_base -> Prop) :
  requests b !! r = Some q -> 2 <= zlen (packet q) ->
  (forall p, zlen p = zlen (packet q) ->
     Q tt (b <| requests := <[r := q <| packet := p |> <| trans_id := id |>]> (requests b) |>)) ->
  wp (request_trans_id_set r id) Q b.
Proof.
  intros E Hp HQ. unfold request_trans_id_set. apply wp_bind, (wp_the_request _ q); [done|].
  destruct (mem_write_ok (packet q) 0 (be16 id)) as (p & Ep & Hz & _); [done | done|].
  by apply wp_bind, (wp_lift _ p), (wp_update_request _ _ q), HQ.
Qed.

(** ** Promotion *)

(** The first request that waits, with a server and an id, is in its list. *)
Definition promoted (b : evdns_base) (r : nat) (q : request) (ring : list nat) (n : nat) : evdns_base :=
  put_request (head_of b q) r (removed Waiting r b <| server_head := ring |> <| draws := n |> <| requests := <[r := q]> (requests b) |>).

Lemma listed_before_fresh b r : core b -> r ∈ listed b -> (r < next_id b)%nat.
Proof.
  intros Hb Hr. destruct (listed_request b r Hb Hr) as [q E]. destruct (decide (r < next_id b)%nat) as [|Hge]; [done|].
  destruct (co_fresh _ Hb r ltac:(lia)) as [E' _]. by rewrite E in E'.
Qed.

Lemma core_draws b n : core b -> core (b <| draws := n |>).
Proof. intros []. by split. Qed.

Lemma promoted_core b r w q q' ring n :
  core b -> req_waiting_head b = r :: w -> requests b !! r = Some q -> same_request q q' ->
  ring ≡ₚ server_head b -> request_ok (server_head b) q' -> ns q' <> None ->
  let b' := promoted b r q' ring n in
  core b' /\ kept b b' /\ r ∈ inflight b' /\ req_waiting_head b' = w.
Proof.
  intros Hb Hw E Hsame Hring Hq' Hns b'. revert Hb Hw E Hsame Hring Hq' Hns. subst b'.
  intros Hb Hw E Hsame Hring Hq' Hns. assert (Hrw : r ∈ list_at b Waiting) by (cbn; rewrite Hw; left).
  destruct (core_removed b Waiting r Hb Hrw) as [Hb1 Hnl].
  assert (Hrl : r ∈ listed b) by (apply elem_of_app; right; rewrite Hw; left).
  assert (Hnin : r ∉ inflight b) by (intros Hin; apply Hnl, inflight_listed, Hin).
  destruct (core_ring _ ring Hb1 Hring) as [Hb2 _]. apply (core_draws _ n) in Hb2.
  apply (core_new_request _ r q') in Hb2; [| done | by apply (listed_before_fresh b) |
    split; [apply Hq' | apply Hq' |]; cbn; intros s Hs; rewrite Hring; by apply Hq'].
  apply (core_put _ r q') in Hb2; [| done | | by cbn; rewrite lookup_insert_eq].
  2:{ apply (linked_update _ r q q'); [done | apply Hsame | by apply (co_linked _ Hb)]. }
  split; [exact Hb2|]. revert Hb2. unfold promoted. set (b0 := removed _ _ _ <| server_head := _ |> <| draws := _ |> <| requests := _ |>).
  change (head_of b q') with (head_of b0 q'). unfold head_of. destruct (ns q') as [s|]; [|done]. intros Hb2.
  destruct (put_lists (Inflight (head_index (req_heads b0) (trans_id q'))) r b0) as [Hl [Hin _]].
  { intros i [= <-]. destruct (head_index_lookup (req_heads b0) (trans_id q') (co_heads _ Hb)) as [l Hl]. by apply lookup_lt_Some in Hl. }
  destruct (removed_lists Waiting r b (co_nodup _ Hb) Hrw) as [Hl0 _].
  splits; [| by rewrite Hin; left |].
  2:{ cbn. pose proof (co_nodup _ Hb) as Hnd. apply list.NoDup_app in Hnd as (_ & _ & Hnd).
      rewrite Hw in *. apply list.NoDup_cons in Hnd as [Hnd _]. rewrite filter_cons_False by auto. by apply remove_absent. }
  split; try done.
  - rewrite Hl, Hl0. done.
  - cbn. intros x. by apply (both_insert _ _ _ q); [apply _| |].
  - intros x. apply both_refl, _.
  - cbn. by rewrite length_insert.
  - intros x qx Hx Ex. split; [rewrite Hin; by right|]. exists qx. split; [|done]. cbn. rewrite lookup_insert_ne; [done | by intros ->].
Qed.

Section pump.
Context {A : Arch} {M : Allocator} {E : ResolverEnv}.

Lemma pump_one_ok b r w (Q : unit -> evdns_base -> Prop) :
  core b -> server_head b <> [] -> req_waiting_head b = r :: w -> zlen (inflight b) <= 65000 ->
  (forall b', core b' -> kept b b' -> req_waiting_head b' = w -> Q tt b') -> wp pump_one Q b.
Proof.
  intros Hb Hring Hw Hlen HQ. unfold pump_one. apply wp_bind, wp_asks. rewrite Hw.
  assert (Hrl : r ∈ listed b) by (apply elem_of_app; right; rewrite Hw; left).
  assert (Hrw : r ∈ list_at b Waiting) by (cbn; rewrite Hw; left).
  destruct (core_removed b Waiting r Hb Hrw) as [Hb1 Hnl].
  assert (Hnin : r ∉ inflight b) by (intros Hin; apply Hnl, inflight_listed, Hin).
  destruct (listed_request b r Hb Hrl) as [q Eq]. pose proof (co_linked _ Hb r Hrl) as Hlink.
  apply wp_bind, wp_remove; [done | done|]. apply wp_bind, wp_modify.
  apply wp_bind, nameserver_pick_ok; [split; apply (core_ring_ok _ Hb)|]. intros o ring Hp Hnone Hin.
  change (ring ≡ₚ server_head b) in Hp. change (o = None <-> server_head b = []) in Hnone. change (forall s, o = Some s -> s ∈ server_head b) in Hin.
  destruct o as [s|]; [|by destruct Hring; apply Hnone]. specialize (Hin s eq_refl).
  apply wp_bind, (wp_update_request _ _ q); [done|]. apply wp_bind, transaction_id_pick_ok; [| done |].
  { destruct (ids_ok_update b r (q <| ns := Some s |>) (core_ids_ok _ Hb) Hnin). by split. }
  intros id n Hid Hid' _. destruct (co_request _ Hb r q Eq) as [Hpk _ _].
  apply wp_bind, (wp_trans_id_set _ _ (q <| ns := Some s |>)); [by cbn; rewrite lookup_insert_eq | done|]. cbn [requests]. intros p Hz.
  set (q' := q <| ns := Some s |> <| packet := p |> <| trans_id := id |>).
  destruct (promoted_core b r w q q' ring n) as (Hb2 & Hk2 & Hr2 & Hw2);
    [done | done | done | by split | done | split; [by cbn; rewrite Hz | done | by intros s0 [= <-]] | done |].
  apply wp_bind. unfold REQ_HEAD, wp at 1. apply wp_bind, wp_insert.
  { cbn. unfold linked. cbn. destruct Hlink as (q0 & h & hd & E0 & Hh & Hhd & Hc). rewrite Eq in E0. injection E0 as <-.
    exists q', h, hd. rewrite lookup_insert_eq. done. }
  match goal with |- wp _ _ ?x => replace x with (promoted b r q' ring n) end.
  2:{ unfold promoted, put_request, removed, head_of. cbn. rewrite insert_insert_eq. cbn. done. }
  apply wp_bind, transmit_ok; [done..|]. intros c b3 Hb3 Hq3. apply wp_bind, evdns_transmit_ok; [done|].
  intros c' b4 Hb4 Hq4. apply wp_ret, HQ; [done | |].
  - etrans; [exact Hk2|]. etrans; [apply Hq3 | apply Hq4].
  - by rewrite (qu_waiting _ _ Hq4), (qu_waiting _ _ Hq3).
Qed.

(** The queue is pumped until it is empty or the limit is reached. *)
Definition pumped (b : evdns_base) : Prop :=
  global_max_requests_inflight b <= global_requests_inflight b \/ req_waiting_head b = [].

Lemma kept_ring b b' : kept b b' -> server_head b <> [] -> server_head b' <> [].
Proof. intros Hk H E0. pose proof (ke_ring _ _ Hk) as Hp. rewrite E0 in Hp. by apply Permutation_nil in Hp. Qed.

Lemma pump_loop_ok fuel : forall b (Q : unit -> evdns_base -> Prop),
  core b -> server_head b <> [] -> fuel = length (req_waiting_head b) ->
  (forall b', core b' -> kept b b' -> pumped b' -> Q tt b') -> wp (pump_loop fuel) Q b.
Proof.
  induction fuel as [|fuel IH]; intros b Q Hb Hring Hfuel HQ; cbn [pump_loop]; apply wp_bind, wp_asks.
  - destruct (req_waiting_head b) as [|r w] eqn:Ew; [|done]. rewrite (co_waiting_count _ Hb), Ew. cbn. rewrite andb_false_r.
    apply wp_ret, HQ; [done | done | by right].
  - destruct (req_waiting_head b) as [|r w] eqn:Ew; [done|]. cbn in Hfuel. injection Hfuel as Hfuel.
    destruct (Z.ltb_spec (global_requests_inflight b) (global_max_requests_inflight b)) as [Hlt|Hge]; [|by apply wp_ret, HQ; [| |left]].
    replace (global_requests_waiting b =? 0) with false.
    2:{ symmetry. apply Z.eqb_neq. rewrite (co_waiting_count _ Hb), Ew, zlen_cons. pose proof (zlen_nonneg w). lia. }
    cbn [negb andb]. pose proof (co_max _ Hb). rewrite (co_inflight_count _ Hb) in Hlt.
    apply wp_bind, (pump_one_ok b r w); [done | done | done | lia |]. intros b1 Hb1 Hk1 Hw1.
    apply IH; [done | by apply (kept_ring b) | by rewrite Hw1 |]. intros b2 Hb2 Hk2 Hp2. apply HQ; [done | by etrans | done].
Qed.

Lemma pump_ok b (Q : unit -> evdns_base -> Prop) :
  core b -> server_head b <> [] -> (forall b', core b' -> kept b b' -> pumped b' -> Q tt b') ->
  wp evdns_requests_pump_waiting_queue Q b.
Proof. intros Hb Hring HQ. unfold evdns_requests_pump_waiting_queue. apply wp_bind, wp_asks. by apply pump_loop_ok. Qed.
End pump.
