(* ===== verification/DnsInv.v ===== *)
(** The invariant of the resolver: who owns a handle, which callbacks are queued, which
    search states are in use, and that every lookup has exactly one answer to come. *)

From stdpp Require Import gmap.
From S2P Require Import Prelude StateOp EvChain Cstring UriCoding Inet EventData Evbuffer EvbufferSpec EvbufferProps Dns DnsSpec DnsPacket DnsServer DnsBase DnsResolver DnsResolverSpec DnsLists.

(** ** Counting *)

(** How many elements of a list have a property. *)
Definition count {T} (P : T -> Prop) `{forall x, Decision (P x)} (l : list T) : Z := zlen (filter P l).

#[global] Arguments count : simpl never.

Section count.
Context {T : Type} (P : T -> Prop) `{forall x, Decision (P x)}.

Lemma count_nonneg l : 0 <= count P l.
Proof. apply zlen_nonneg. Qed.

Lemma count_cons x l : count P (x :: l) = Z.b2z (bool_decide (P x)) + count P l.
Proof. unfold count. rewrite filter_cons. case_bool_decide; case_decide; try done; rewrite ?zlen_cons; cbn [Z.b2z]; lia. Qed.

Lemma count_app l l' : count P (l ++ l') = count P l + count P l'.
Proof. unfold count. by rewrite list.filter_app, zlen_app. Qed.

Lemma count_perm l l' : l ≡ₚ l' -> count P l = count P l'.
Proof. intros Hp. apply zlen_perm. by rewrite Hp. Qed.

Lemma count_0 l x : count P l = 0 -> x ∈ l -> ~ P x.
Proof.
  intros H0 Hx HP. assert (Hf : x ∈ filter P l) by by apply list_elem_of_filter.
  unfold count, zlen in H0. destruct (filter P l); [by apply elem_of_nil in Hf | done].
Qed.
End count.

Lemma count_iff {T} (P P' : T -> Prop) `{forall x, Decision (P x), forall x, Decision (P' x)} l :
  (forall x, x ∈ l -> P x <-> P' x) -> count P l = count P' l.
Proof.
  induction l as [|x l IH]; intros HP; [done|]. rewrite !count_cons, IH by (intros; apply HP; by right). f_equal. f_equal.
  apply bool_decide_ext, HP. left.
Qed.

(** ** What is counted *)

#[export] Instance dns_callback_eq_dec : EqDecision dns_callback.
Proof. solve_decision. Defined.

(** The callbacks that are queued for a handle. *)
Definition queued (b : evdns_base) (h : nat) : Z := count (fun d => d_handle d = Some h) (deferred b).

(** The answers a callback still waits for: requests in the lists, and queued callbacks. *)
Definition outstanding (b : evdns_base) (c : dns_callback) : Z :=
  count (fun r => (user_callback <$> requests b !! r) = Some c) (listed b) + count (fun d => d_callback d = c) (deferred b).

(** The references of a search state. *)
Definition handle_refs (hs : gmap nat evdns_request) (s : nat) : Z :=
  count (fun p => search_state (snd p) = Some s) (map_to_list hs).
Definition refs (hs : gmap nat evdns_request) (global : option nat) (s : nat) : Z :=
  handle_refs hs s + Z.b2z (bool_decide (global = Some s)).

Lemma handle_refs_delete hs h hd s : hs !! h = Some hd ->
  handle_refs hs s = Z.b2z (bool_decide (search_state hd = Some s)) + handle_refs (delete h hs) s.
Proof. intros E. unfold handle_refs. by rewrite <- (count_perm _ _ _ (map_to_list_delete _ _ _ E)), count_cons. Qed.

Lemma handle_refs_new hs h hd s : hs !! h = None ->
  handle_refs (<[h := hd]> hs) s = Z.b2z (bool_decide (search_state hd = Some s)) + handle_refs hs s.
Proof. intros E. unfold handle_refs. by rewrite (count_perm _ _ _ (map_to_list_insert _ _ hd E)), count_cons. Qed.

Lemma handle_refs_update hs h hd hd' s : hs !! h = Some hd ->
  handle_refs (<[h := hd']> hs) s =
  handle_refs hs s - Z.b2z (bool_decide (search_state hd = Some s)) + Z.b2z (bool_decide (search_state hd' = Some s)).
Proof.
  intros E. rewrite <- insert_delete_eq, handle_refs_new by (by rewrite lookup_delete_eq).
  rewrite (handle_refs_delete hs h hd) by done. lia.
Qed.

Lemma handle_refs_pos hs h hd s : hs !! h = Some hd -> search_state hd = Some s -> 0 < handle_refs hs s.
Proof.
  intros E Es. rewrite (handle_refs_delete hs h hd) by done. rewrite bool_decide_true by done.
  pose proof (count_nonneg (fun p => search_state (snd p) = Some s) (map_to_list (delete h hs))). unfold handle_refs. cbn [Z.b2z]. lia.
Qed.

(** ** The invariant *)

(** A handle belongs to a request that is in progress, or to a queued callback. *)
Definition settled (b : evdns_base) (h : nat) (hd : evdns_request) : Prop :=
  match current_req hd with
  | Some r => pending_cb hd = false /\ queued b h = 0 /\ r ∈ listed b /\ exists q, requests b !! r = Some q /\ handle q = Some h
  | None => pending_cb hd = true /\ queued b h = 1 /\ search_state hd = None
  end.

Definition known_type (t : Z) : Prop := t = TYPE_A \/ t = TYPE_AAAA \/ t = TYPE_PTR.
Definition known_callback (b : evdns_base) (c : dns_callback) : Prop := forall s, c = Probe s -> s ∈ server_head b.

(** The handle of a probe of a server. *)
Record probe_of (b : evdns_base) (s h : nat) : Prop := {
  po_request : forall hd r q, handles b !! h = Some hd -> current_req hd = Some r -> requests b !! r = Some q -> user_callback q = Probe s;
  po_queued : forall d, d ∈ deferred b -> d_handle d = Some h -> d_callback d = Probe s /\ d_err d <> DNS_ERR_CANCEL }.

(** The search states. *)
Record search_ok (hs : gmap nat evdns_request) (ss : gmap nat search) (global : option nat) : Prop := {
  se_handle : forall h hd s, hs !! h = Some hd -> search_state hd = Some s ->
    is_Some (ss !! s) /\ (exists o, search_origname hd = Some o /\ o <> []) /\ -1 <= search_index hd;
  se_refs : forall s st, ss !! s = Some st -> ss_refcount st = refs hs global s /\ num_domains st = zlen (domains st);
  se_global : forall s, global = Some s -> is_Some (ss !! s) }.

(** The rest of the invariant: [busy] are the handles that are being worked on, [fresh] a
    request that is in no list yet, [cleared] a server whose probe is given up. *)
Record rest (busy : list nat) (fresh cleared : option nat) (b : evdns_base) : Prop := {
  re_settled : forall h hd, handles b !! h = Some hd -> h ∉ busy -> settled b h hd;
  re_request : forall r q, requests b !! r = Some q ->
    (r ∈ listed b \/ fresh = Some r) /\ known_type (request_type q) /\ known_callback b (user_callback q);
  re_deferred : forall d, d ∈ deferred b ->
    known_type (d_request_type d) /\ known_callback b (d_callback d) /\ exists h, d_handle d = Some h /\ is_Some (handles b !! h);
  re_probe : forall s n h, servers b !! s = Some n -> probe_request n = Some h -> cleared <> Some s ->
    is_Some (handles b !! h) /\ probe_of b s h;
  re_search : search_ok (handles b) (searches b) (global_search_state b) }.

Definition inv (busy : list nat) (fresh cleared : option nat) (b : evdns_base) : Prop := core b /\ rest busy fresh cleared b.

(** ** What the elementary operations leave alone *)

Lemma kept_queued b b' h : kept b b' -> queued b' h = queued b h.
Proof. intros H. unfold queued. by rewrite (ke_deferred _ _ H). Qed.

Lemma kept_known b b' c : kept b b' -> known_callback b c -> known_callback b' c.
Proof. intros H Hc s Hs. apply (kept_server b b'); [done | by apply Hc]. Qed.

Lemma kept_settled b b' h hd : kept b b' -> settled b h hd -> settled b' h hd.
Proof.
  intros H. unfold settled. rewrite (kept_queued b b' h H). destruct (current_req hd) as [r|]; [|done].
  intros (Hp & Hq & Hr & q & E & Hh). splits; [done | done | by apply (kept_listed b b')|].
  destruct (kept_request _ _ _ _ H E) as (q' & E' & Hs). exists q'. split; [done|]. by rewrite (sr_handle _ _ Hs).
Qed.

Lemma kept_probe_of b b' s h : kept b b' -> probe_of b s h -> probe_of b' s h.
Proof.
  intros H [H1 H2]. split; [|by rewrite (ke_deferred _ _ H)]. intros hd r q'. rewrite (ke_handles _ _ H). intros Eh Er E'.
  destruct (kept_request_rev _ _ _ _ H E') as (q & E & Hs). rewrite (sr_callback _ _ Hs). by apply (H1 hd r).
Qed.

Lemma kept_rest x y z b b' : kept b b' -> rest x y z b -> rest x y z b'.
Proof.
  intros H []. split.
  - intros h hd. rewrite (ke_handles _ _ H). intros E Hx. apply (kept_settled b); auto.
  - intros r q' E'. destruct (kept_request_rev _ _ _ _ H E') as (q & E & Hs). destruct (re_request0 r q E) as (Hl & Ht & Hc).
    rewrite (sr_type _ _ Hs), (sr_callback _ _ Hs), (kept_listed b b') by done. splits; [done | done | by apply (kept_known b)].
  - intros d. rewrite (ke_deferred _ _ H), (ke_handles _ _ H). intros Hd. destruct (re_deferred0 d Hd) as (Ht & Hc & Hh).
    splits; [done | by apply (kept_known b) | done].
  - intros s n' h En' Hp Hz. rewrite (ke_handles _ _ H). pose proof (ke_servers _ _ H s) as Hs. rewrite En' in Hs.
    destruct (servers b !! s) as [n|] eqn:En; [|done]. cbn in Hs. rewrite (sv_probe _ _ Hs) in Hp.
    destruct (re_probe0 s n h En Hp Hz). split; [done | by apply (kept_probe_of b)].
  - by rewrite (ke_handles _ _ H), (ke_searches _ _ H), (ke_global _ _ H).
Qed.

Lemma kept_outstanding b b' : kept b b' -> forall c, outstanding b' c = outstanding b c.
Proof.
  intros H c. unfold outstanding. rewrite (ke_deferred _ _ H). f_equal.
  rewrite (count_perm _ _ _ (ke_listed _ _ H)). apply count_iff. intros r _. pose proof (ke_requests _ _ H r) as Hr.
  destruct (requests b !! r), (requests b' !! r); try done. cbn in *. by rewrite (sr_callback _ _ Hr).
Qed.

(** What a larger operation leaves alone: requests in flight and handles, but for the
    handle [gone], and the servers. *)
Record evolves (gone : option nat) (b b' : evdns_base) : Prop := {
  ev_inflight : forall r q, r ∈ inflight b -> requests b !! r = Some q -> handle q <> gone ->
    r ∈ inflight b' /\ exists q', requests b' !! r = Some q' /\ same_request q q' /\ trans_id q' = trans_id q;
  ev_heads : length (req_heads b') = length (req_heads b);
  ev_handle : forall h, Some h <> gone -> handles b' !! h = handles b !! h /\ queued b' h = queued b h;
  ev_ring : server_head b' ≡ₚ server_head b;
  ev_probe : forall s n', servers b' !! s = Some n' ->
    exists n, servers b !! s = Some n /\ (probe_request n' = probe_request n \/ probe_request n' = None) }.

(** As many answers to come as before. *)
Definition same_answers (b b' : evdns_base) : Prop := forall c, outstanding b' c = outstanding b c.

#[export] Instance evolves_refl gone : Reflexive (evolves gone).
Proof.
  intros b. split; try done.
  - intros r q Hr E _. split; [done | by exists q].
  - intros s n E. exists n. auto.
Qed.

#[export] Instance evolves_trans gone : Transitive (evolves gone).
Proof.
  intros b1 b2 b3 [] []. split; try (etrans; eassumption).
  - intros r q Hr E Hg. destruct (ev_inflight0 r q Hr E Hg) as (Hr2 & q2 & E2 & Hs2 & Hi2).
    destruct (ev_inflight1 r q2 Hr2 E2) as (Hr3 & q3 & E3 & Hs3 & Hi3); [by rewrite (sr_handle _ _ Hs2)|].
    split; [done|]. exists q3. splits; [done | by etrans | by etrans].
  - intros h Hh. destruct (ev_handle0 h Hh), (ev_handle1 h Hh). split; by etrans.
  - intros s n3 E3. destruct (ev_probe1 s n3 E3) as (n2 & E2 & H2). destruct (ev_probe0 s n2 E2) as (n1 & E1 & H1).
    exists n1. split; [done|]. destruct H2 as [->|H2]; auto.
Qed.

Lemma kept_evolves gone b b' : kept b b' -> evolves gone b b'.
Proof.
  intros H. split.
  - intros r q Hr E _. destruct (ke_inflight _ _ H r q Hr E) as (Hr' & q' & E' & Hi). split; [done|]. exists q'.
    destruct (kept_request _ _ _ _ H E) as (q2 & E2 & Hs). rewrite E' in E2. by injection E2 as <-.
  - apply H.
  - intros h _. by rewrite (ke_handles _ _ H), (kept_queued b b' h H).
  - apply H.
  - intros s n' E'. pose proof (ke_servers _ _ H s) as Hs. rewrite E' in Hs. destruct (servers b !! s) as [n|]; [|done].
    exists n. split; [done|]. left. apply (sv_probe _ _ Hs).
Qed.

Lemma kept_inv x y z b b' : core b' -> kept b b' -> inv x y z b -> inv x y z b'.
Proof. intros Hc Hk [_ H]. split; [done | by apply (kept_rest x y z b)]. Qed.

(** No server is found to be up again. *)
Definition falls (b b' : evdns_base) : Prop :=
  forall s n n', servers b !! s = Some n -> servers b' !! s = Some n' -> up n = false -> up n' = false.

Lemma kept_falls b b' : kept b b' -> falls b b'.
Proof. intros H s n n' E E'. pose proof (ke_servers _ _ H s) as Hs. rewrite E, E' in Hs. apply Hs. Qed.
