(* ===== verification/DnsFinish.v ===== *)
(** Queueing a callback, ending a request and cancelling one keep the invariant of the
    resolver ([DnsInv]) and the number of answers to come. *)

From stdpp Require Import gmap.
From S2P Require Import Prelude StateOp EvChain Cstring UriCoding Inet EventData Evbuffer EvbufferSpec EvbufferProps Dns DnsSpec DnsPacket DnsServer DnsBase DnsResolver DnsResolverSpec DnsLists DnsInv.

(** ** Search states *)

(** The search states when a reference is gone. *)
Definition released (ss : gmap nat search) (o : option nat) : gmap nat search :=
  match o with
  | None => ss
  | Some s =>
    match ss !! s with
    | None => ss
    | Some st => if ss_refcount st - 1 =? 0 then delete s ss else <[s := st <| ss_refcount := ss_refcount st - 1 |>]> ss
    end
  end.

Lemma released_lookup ss o s st : released ss o !! s = Some st ->
  exists st0, ss !! s = Some st0 /\ num_domains st = num_domains st0 /\ domains st = domains st0 /\ ndots st = ndots st0 /\
    ss_refcount st = ss_refcount st0 - Z.b2z (bool_decide (o = Some s)).
Proof.
  destruct o as [x|]; cbn [released]; [|intros E; exists st; rewrite bool_decide_false by done; cbn [Z.b2z]; splits; done || lia].
  intros E. destruct (decide (x = s)) as [->|Hne].
  - rewrite bool_decide_true by done. destruct (ss !! s) as [st0|] eqn:E0; [|by rewrite E0 in E].
    destruct (_ =? 0); [by rewrite lookup_delete_eq in E|]. rewrite lookup_insert_eq in E. injection E as <-. by exists st0.
  - rewrite bool_decide_false by congruence. exists st. cbn [Z.b2z]. splits; [|done..|lia].
    destruct (ss !! x); [|done]. destruct (_ =? 0); [by rewrite lookup_delete_ne in E | by rewrite lookup_insert_ne in E].
Qed.

Lemma released_some ss o s : (forall st, o = Some s -> ss !! s = Some st -> ss_refcount st <> 1) ->
  is_Some (ss !! s) -> is_Some (released ss o !! s).
Proof.
  intros Hne [st E]. destruct o as [x|]; cbn [released]; [|by exists st].
  destruct (ss !! x) as [sx|] eqn:Ex; [|by exists st]. destruct (decide (x = s)) as [->|Hx].
  - rewrite E in Ex. injection Ex as <-. specialize (Hne st eq_refl E). destruct (Z.eqb_spec (ss_refcount st - 1) 0); [lia|].
    by rewrite lookup_insert_eq.
  - destruct (_ =? 0); [rewrite lookup_delete_ne by done | rewrite lookup_insert_ne by done]; by exists st.
Qed.

Lemma wp_search_state_decref o b (Q : unit -> evdns_base -> Prop) :
  (forall s, o = Some s -> is_Some (searches b !! s)) -> Q tt (b <| searches := released (searches b) o |>) ->
  wp (search_state_decref o) Q b.
Proof.
  intros Ho HQ. destruct o as [s|]; cbn [search_state_decref released] in *.
  - destruct (Ho s eq_refl) as [st E]. rewrite E in HQ. apply wp_bind, (wp_update_search _ _ st); [done|].
    apply wp_bind, (wp_the_search _ (st <| ss_refcount := ss_refcount st - 1 |>)); [by cbn; rewrite lookup_insert_eq|].
    change (ss_refcount (st <| ss_refcount := ?x |>)) with x.
    apply wp_when; intros Hz; rewrite Hz in HQ; [|done]. apply wp_modify. cbn. rewrite delete_insert_eq. done.
  - apply wp_ret. by destruct b.
Qed.

(** A handle that gives up its reference. *)
Lemma search_ok_release hs ss global h hd hd' : search_ok hs ss global -> hs !! h = Some hd -> search_state hd' = None ->
  search_ok (<[h := hd']> hs) (released ss (search_state hd)) global.
Proof.
  intros [H1 H2 H3] E Hn.
  assert (Hrefs : forall s, refs (<[h := hd']> hs) global s = refs hs global s - Z.b2z (bool_decide (search_state hd = Some s))).
  { intros s. unfold refs. rewrite (handle_refs_update hs h hd hd' s E), Hn. rewrite (bool_decide_false (None = Some s)) by done. cbn [Z.b2z]. lia. }
  split.
  - intros h0 hd0 s E0 Es. destruct (decide (h0 = h)) as [->|Hne]; [rewrite lookup_insert_eq in E0; injection E0 as <-; by rewrite Hn in Es|].
    pose proof E0 as E0'. rewrite lookup_insert_ne in E0 by done. destruct (H1 h0 hd0 s E0 Es) as (Hs & Ho). split; [|done].
    apply released_some; [|done]. intros st Ho' Est. destruct (H2 s st Est) as [-> _]. specialize (Hrefs s).
    rewrite bool_decide_true in Hrefs by done. cbn [Z.b2z] in Hrefs. pose proof (handle_refs_pos _ _ _ _ E0' Es).
    unfold refs in *. destruct (bool_decide (global = Some s)); cbn [Z.b2z] in *; lia.
  - intros s st Est. destruct (released_lookup _ _ _ _ Est) as (st0 & E0 & -> & -> & _ & ->). rewrite Hrefs.
    destruct (H2 s st0 E0) as [-> ->]. done.
  - intros s Hs. apply released_some; [|by apply H3]. intros st Ho Est. destruct (H2 s st Est) as [-> _].
    unfold refs. rewrite (bool_decide_true (global = Some s)) by done. pose proof (handle_refs_pos _ _ _ _ E Ho). cbn [Z.b2z]. lia.
Qed.

(** ** The end of a request *)

(** The base without a request, whose handle has a new content. *)
Definition dropped (head : list_head) (r h : nat) (hd' : evdns_request) (ss : gmap nat search) (b : evdns_base) : evdns_base :=
  removed head r b <| requests := delete r (requests b) |> <| handles := <[h := hd']> (handles b) |> <| searches := ss |>.

(** The request of a handle that ends. *)
Record ending (b : evdns_base) (head : list_head) (r h : nat) (q : request) (hd : evdns_request) : Prop := {
  en_request : requests b !! r = Some q;
  en_head : r ∈ list_at b head;
  en_handle : handle q = Some h;
  en_handles : handles b !! h = Some hd;
  en_current : current_req hd = Some r }.

Lemma list_at_listed b head r : r ∈ list_at b head -> r ∈ listed b.
Proof.
  intros H. apply elem_of_app. destruct head as [i|]; [left | by right].
  apply list_at_inflight in H as (l & Hl & Hr). apply elem_of_concat. by exists i, l.
Qed.

Lemma dropped_listed b head r h hd' ss : core b -> r ∈ list_at b head -> listed b ≡ₚ r :: listed (dropped head r h hd' ss b).
Proof. intros Hb Hr. destruct (removed_lists head r b (co_nodup _ Hb) Hr) as [Hl _]. by destruct head. Qed.

Lemma dropped_core b head r h q hd hd' ss : core b -> ending b head r h q hd ->
  (forall m, searches b !! m = None -> ss !! m = None) -> core (dropped head r h hd' ss b).
Proof.
  intros Hb [Eq Hr Hh Eh Hc] Hss. destruct (core_removed b head r Hb Hr) as [Hb1 Hnr].
  pose proof (core_delete_request _ r Hb1 Hnr) as Hb2.
  pose proof (core_handles _ (<[h := hd']> (handles b)) ss (next_id b) Hb2) as H.
  unfold dropped. destruct head; apply H; cbn; try lia; clear H.
  1,3: intros r0 q0 h0 hd0 Hr0 E0 Hh0 Eh0 Hc0; exists hd0; (destruct (decide (h0 = h)) as [->|Hne]; [|by rewrite lookup_insert_ne]);
    rewrite Eh in Eh0; injection Eh0 as <-; rewrite Hc in Hc0; injection Hc0 as <-; done.
  all: intros m Hm; destruct (co_fresh _ Hb m Hm) as (_ & H2 & _ & H4); split; [|by apply Hss];
    rewrite lookup_insert_ne; [done | by intros ->; rewrite H2 in Eh].
Qed.

Lemma released_none ss o m : ss !! m = None -> released ss o !! m = None.
Proof.
  intros Hn. destruct (released ss o !! m) as [st|] eqn:E; [|done]. destruct (released_lookup _ _ _ _ E) as (st0 & E0 & _). by rewrite Hn in E0.
Qed.

Lemma dropped_queued head r h hd' ss b x : queued (dropped head r h hd' ss b) x = queued b x.
Proof. by destruct head. Qed.

Lemma dropped_settled b head r h q hd hd' ss h0 hd0 : core b -> ending b head r h q hd -> h0 <> h ->
  settled b h0 hd0 -> settled (dropped head r h hd' ss b) h0 hd0.
Proof.
  intros Hb [Eq Hr Hh Eh Hc] Hne. unfold settled. rewrite dropped_queued. destruct (current_req hd0) as [r0|]; [|done].
  intros (Hp & Hq & Hl & q0 & E0 & Hh0). assert (r0 <> r) by (intros ->; congruence). splits; [done | done | |].
  - rewrite (dropped_listed b head r h hd' ss Hb Hr) in Hl. by apply elem_of_cons in Hl as [?|Hl].
  - exists q0. split; [|done]. destruct head; cbn; by rewrite lookup_delete_ne.
Qed.

Lemma dropped_outstanding b head r h q hd' ss c : core b -> requests b !! r = Some q -> r ∈ list_at b head ->
  outstanding (dropped head r h hd' ss b) c = outstanding b c - Z.b2z (bool_decide (user_callback q = c)).
Proof.
  intros Hb Eq Hr. pose proof (dropped_listed b head r h hd' ss Hb Hr) as Hl. unfold outstanding.
  rewrite (count_perm _ _ _ Hl), count_cons, Eq. cbn [fmap option_fmap option_map].
  replace (deferred (dropped head r h hd' ss b)) with (deferred b) by by destruct head.
  rewrite (count_iff (fun x => (user_callback <$> requests (dropped head r h hd' ss b) !! x) = Some c)
                     (fun x => (user_callback <$> requests b !! x) = Some c)).
  2:{ intros x Hx. replace (requests (dropped head r h hd' ss b)) with (delete r (requests b)) by by destruct head.
      rewrite lookup_delete_ne; [done|]. intros ->. pose proof (co_nodup _ Hb) as Hnd. rewrite Hl in Hnd. by apply list.NoDup_cons in Hnd as [Hnd _]. }
  rewrite (bool_decide_ext (Some (user_callback q) = Some c) (user_callback q = c)) by (split; congruence). lia.
Qed.

Lemma dropped_evolves b head r h q hd hd' ss : core b -> ending b head r h q hd -> evolves (Some h) b (dropped head r h hd' ss b).
Proof.
  intros Hb [Eq Hr Hh Eh Hc]. split; try by destruct head.
  - intros r0 q0 Hr0 E0 Hne. assert (r0 <> r) by (intros ->; congruence).
    destruct (removed_lists head r b (co_nodup _ Hb) Hr) as [_ Hl]. split.
    + replace (inflight (dropped head r h hd' ss b)) with (inflight (removed head r b)) by by destruct head. destruct head; destruct Hl as [Hl _].
      * rewrite Hl in Hr0. by apply elem_of_cons in Hr0 as [?|Hr0].
      * by rewrite Hl.
    + exists q0. splits; [|done..]. destruct head; cbn; by rewrite lookup_delete_ne.
  - destruct head; cbn; by rewrite ?length_insert.
  - intros x Hx. rewrite dropped_queued. split; [|done]. destruct head; cbn; (rewrite lookup_insert_ne; [done | congruence]).
  - intros s n Es. exists n. split; [by destruct head | by left].
Qed.

Lemma dropped_rest b head r h q hd hd' ss x y f z : core b -> ending b head r h q hd -> rest x f z b ->
  (forall k, k ∉ y -> k <> h -> k ∉ x) -> (h ∈ y \/ settled b h hd') ->
  (forall r0, current_req hd' = Some r0 -> False) ->
  search_ok (<[h := hd']> (handles b)) ss (global_search_state b) -> rest y f z (dropped head r h hd' ss b).
Proof.
  intros Hb Hen [Rs Rr Rd Rp Rse] Hx Hy Hcur Hss. pose proof (en_request _ _ _ _ _ _ Hen) as Eq. pose proof (en_head _ _ _ _ _ _ Hen) as Hr.
  assert (Eh : forall k, handles (dropped head r h hd' ss b) !! k = <[h := hd']> (handles b) !! k) by by destruct head.
  assert (Er : forall k, requests (dropped head r h hd' ss b) !! k = delete r (requests b) !! k) by by destruct head.
  assert (Hsome : forall k, is_Some (handles b !! k) -> is_Some (handles (dropped head r h hd' ss b) !! k)).
  { intros k Hk. rewrite Eh. destruct (decide (k = h)) as [->|]; [by rewrite lookup_insert_eq | by rewrite lookup_insert_ne]. }
  assert (Hring : server_head (dropped head r h hd' ss b) = server_head b) by by destruct head.
  split.
  - intros k hk Ek Hk. rewrite Eh in Ek. destruct (decide (k = h)) as [->|Hne].
    + rewrite lookup_insert_eq in Ek. injection Ek as <-. destruct Hy as [Hy|Hs]; [done|].
      unfold settled in *. rewrite dropped_queued. destruct (current_req hd') as [r0|] eqn:Ec; [by destruct (Hcur r0)|done].
    + rewrite lookup_insert_ne in Ek by done. apply (dropped_settled b head r h q hd); [done..|].
      apply Rs; [done|]. by apply Hx.
  - intros k qk Ek. rewrite Er in Ek. apply lookup_delete_Some in Ek as [Hne Ek]. destruct (Rr k qk Ek) as ([Hl|Hl] & Ht & Hc).
    + splits; [left | done | by intros s Hs; rewrite Hring; apply Hc].
      rewrite (dropped_listed b head r h hd' ss Hb Hr) in Hl. by apply elem_of_cons in Hl as [?|Hl].
    + splits; [by right | done | by intros s Hs; rewrite Hring; apply Hc].
  - intros d Hd. replace (deferred (dropped head r h hd' ss b)) with (deferred b) in Hd by by destruct head.
    destruct (Rd d Hd) as (Ht & Hc & k & Hk & Hs). splits; [done | by intros s Hs'; rewrite Hring; apply Hc|].
    exists k. split; [done | by apply Hsome].
  - intros s n k En Hp Hz. replace (servers (dropped head r h hd' ss b)) with (servers b) in En by by destruct head.
    destruct (Rp s n k En Hp Hz) as [Hs [P1 P2]]. split; [by apply Hsome|]. split; [|by destruct head].
    intros hk r0 q0 Ek Ec E0. rewrite Eh in Ek. rewrite Er in E0. apply lookup_delete_Some in E0 as [_ E0].
    destruct (decide (k = h)) as [->|Hne]; [rewrite lookup_insert_eq in Ek; injection Ek as <-; by apply Hcur in Ec|].
    rewrite lookup_insert_ne in Ek by done. by apply (P1 hk r0).
  - replace (handles (dropped head r h hd' ss b)) with (<[h := hd']> (handles b)) by by destruct head. by destruct head.
Qed.

Lemma wp_search_request_finished h hd b (Q : unit -> evdns_base -> Prop) :
  handles b !! h = Some hd -> search_ok (handles b) (searches b) (global_search_state b) ->
  Q tt (b <| searches := released (searches b) (search_state hd) |>
          <| handles := <[h := hd <| search_state := None |> <| search_origname := None |>]> (handles b) |>) ->
  wp (search_request_finished h) Q b.
Proof.
  intros E Hs HQ. unfold search_request_finished. apply wp_bind, (wp_the_handle _ hd); [done|].
  apply wp_bind, wp_search_state_decref; [intros s Es; by apply (se_handle _ _ _ Hs h hd s)|].
  by apply (wp_update_handle _ _ hd).
Qed.

Lemma ending_linked b head r h q hd : ending b head r h q hd -> linked b r.
Proof. intros [E _ Hh Eh Hc]. by exists q, h, hd. Qed.

Section finish.
Context {A : Arch} {M : Allocator} {E : ResolverEnv}.

(** [request_finished] up to the handle. *)
Lemma wp_request_finished b head r h q hd free (Q : unit -> evdns_base -> Prop) :
  core b -> ending b head r h q hd ->
  (forall q', handle q' = handle q -> wp (finish_handle r h free ;; modify (fun b => b <| requests := delete r (requests b) |>) ;; evdns_requests_pump_waiting_queue) Q
      (removed head r b <| requests := <[r := q']> (requests b) |>)) ->
  wp (request_finished r head free) Q b.
Proof.
  intros Hb Hen HQ. pose proof (ending_linked _ _ _ _ _ _ Hen) as Hl. destruct Hen as [Eq Hr Hh Eh Hc].
  unfold request_finished. apply wp_bind, wp_assert_valid; [done|]. apply wp_bind, wp_remove; [done..|].
  destruct head as [i|]; apply wp_bind.
  - apply wp_bind, (wp_update_request _ _ q); [done|]. apply wp_modify.
    apply wp_bind, (wp_the_request _ (q <| timeout_event := false |>)); [by cbn; rewrite lookup_insert_eq|].
    change (handle (q <| timeout_event := false |>)) with (handle q). rewrite Hh. by apply (HQ (q <| timeout_event := false |>)).
  - apply wp_modify. apply wp_bind, (wp_the_request _ q); [done|]. rewrite Hh. specialize (HQ q eq_refl).
    rewrite (insert_id _ _ _ Eq) in HQ. exact HQ.
Qed.

Lemma finish_ok b head r h q hd x f z (Q : unit -> evdns_base -> Prop) :
  core b -> rest (h :: x) f z b -> ending b head r h q hd -> pending_cb hd = true -> queued b h = 1 -> server_head b <> [] ->
  (forall b', inv x f z b' -> evolves (Some h) b b' -> falls b b' ->
     (forall c, outstanding b' c = outstanding b c - Z.b2z (bool_decide (user_callback q = c))) -> Q tt b') ->
  wp (request_finished r head true) Q b.
Proof.
  intros Hb Hrest Hen Hp Hq Hring HQ. apply (wp_request_finished b head r h q hd); [done..|]. intros q' Hh'.
  pose proof (re_search _ _ _ _ Hrest) as Hse. pose proof (en_handles _ _ _ _ _ _ Hen) as Eh.
  set (hd' := hd <| search_state := None |> <| search_origname := None |> <| current_req := None |>).
  set (ss := released (searches b) (search_state hd)).
  assert (Hb1 : core (dropped head r h hd' ss b)) by (apply (dropped_core b head r h q hd); [done.. | intros; by apply released_none]).
  assert (Hr1 : rest x f z (dropped head r h hd' ss b)).
  { apply (dropped_rest b head r h q hd hd' ss (h :: x)); [done.. | | by right | done | by apply search_ok_release].
    intros k Hk Hne. by apply not_elem_of_cons. }
  apply wp_bind. unfold finish_handle. apply wp_bind, (wp_the_handle _ hd); [by destruct head|].
  apply wp_bind, wp_assert; [apply bool_decide_eq_true, Hen|]. apply wp_bind, (wp_search_request_finished _ hd); [by destruct head | by destruct head|].
  apply wp_bind, (wp_update_handle _ _ (hd <| search_state := None |> <| search_origname := None |>)); [cbn; by rewrite lookup_insert_eq|].
  apply wp_bind, (wp_the_handle _ hd'); [cbn; by rewrite lookup_insert_eq|].
  change (pending_cb hd') with (pending_cb hd). rewrite Hp. apply wp_bind, wp_modify.
  match goal with |- wp _ _ ?b' => replace b' with (dropped head r h hd' ss b) end.
  2:{ unfold dropped, ss, hd'. destruct head; cbn; rewrite delete_insert_eq, insert_insert_eq; done. }
  apply pump_ok; [done | by destruct head |]. intros b2 Hb2 Hk2 _. apply HQ.
  - by apply (kept_inv _ _ _ (dropped head r h hd' ss b)).
  - etrans; [by apply (dropped_evolves b head r h q hd) | by apply kept_evolves].
  - intros s n n' En. apply (kept_falls _ _ Hk2 s n n'). by destruct head.
  - intros c. rewrite (kept_outstanding _ _ Hk2). apply (dropped_outstanding b head r h q); [done | apply Hen | apply Hen].
Qed.

(** Without the handle, which another request will take over. *)
Lemma finish_keep_ok b head r h q hd f z (Q : unit -> evdns_base -> Prop) :
  core b -> rest [] f z b -> ending b head r h q hd -> server_head b <> [] ->
  (forall b', inv [h] f z b' -> evolves (Some h) b b' -> handles b' !! h = Some (hd <| current_req := None |>) ->
     queued b' h = 0 -> pending_cb hd = false ->
     (forall c, outstanding b' c = outstanding b c - Z.b2z (bool_decide (user_callback q = c))) ->
     (forall x qx, requests b !! x = Some qx -> x <> r -> exists qx', requests b' !! x = Some qx' /\ same_request qx qx') ->
     (forall x, x ∈ listed b' -> x ∈ listed b) -> next_id b' = next_id b -> Q tt b') ->
  wp (request_finished r head false) Q b.
Proof.
  intros Hb Hrest Hen Hring HQ. apply (wp_request_finished b head r h q hd); [done..|]. intros q' Hh'.
  pose proof (re_search _ _ _ _ Hrest) as Hse. pose proof (en_handles _ _ _ _ _ _ Hen) as Eh.
  pose proof (re_settled _ _ _ _ Hrest h hd Eh (not_elem_of_nil _)) as Hset. unfold settled in Hset. rewrite (en_current _ _ _ _ _ _ Hen) in Hset.
  destruct Hset as (Hp & Hq & _). set (hd' := hd <| current_req := None |>).
  assert (Hb1 : core (dropped head r h hd' (searches b) b)) by (apply (dropped_core b head r h q hd); done).
  assert (Hss : search_ok (<[h := hd']> (handles b)) (searches b) (global_search_state b)).
  { destruct Hse as [H1 H2 H3]. split; [|intros s st Es; unfold refs; rewrite (handle_refs_update _ _ hd) by done; destruct (H2 s st Es) as [-> ->];
      unfold refs; change (search_state hd') with (search_state hd); split; [lia|done] | done].
    intros k hk s Ek. destruct (decide (k = h)) as [->|]; [rewrite lookup_insert_eq in Ek; injection Ek as <-; by apply (H1 h hd)|].
    rewrite lookup_insert_ne in Ek by done. by apply (H1 k hk). }
  assert (Hr1 : rest [h] f z (dropped head r h hd' (searches b) b)).
  { apply (dropped_rest b head r h q hd hd' (searches b) []); [done.. | by intros; apply not_elem_of_nil | left; left | done | done]. }
  apply wp_bind. unfold finish_handle. apply wp_bind, (wp_the_handle _ hd); [by destruct head|].
  apply wp_bind, wp_assert; [apply bool_decide_eq_true, Hen|]. apply (wp_update_handle _ _ hd); [by destruct head|]. apply wp_bind, wp_modify.
  match goal with |- wp _ _ ?b' => replace b' with (dropped head r h hd' (searches b) b) end.
  2:{ unfold dropped, hd'. destruct head; cbn; rewrite delete_insert_eq; done. }
  apply pump_ok; [done | by destruct head |]. intros b2 Hb2 Hk2 _.
  assert (Er : forall k, requests (dropped head r h hd' (searches b) b) !! k = delete r (requests b) !! k) by by destruct head.
  apply HQ.
  - by apply (kept_inv _ _ _ (dropped head r h hd' (searches b) b)).
  - etrans; [by apply (dropped_evolves b head r h q hd) | by apply kept_evolves].
  - rewrite (ke_handles _ _ Hk2). destruct head; cbn; by rewrite lookup_insert_eq.
  - by rewrite (kept_queued _ _ _ Hk2), dropped_queued.
  - done.
  - intros c. rewrite (kept_outstanding _ _ Hk2). apply (dropped_outstanding b head r h q); [done | apply Hen | apply Hen].
  - intros x qx Ex Hne. assert (Ex' : requests (dropped head r h hd' (searches b) b) !! x = Some qx) by (by rewrite Er, lookup_delete_ne).
    by apply (kept_request _ _ _ _ Hk2).
  - intros x Hx. rewrite (kept_listed _ _ _ Hk2) in Hx. rewrite (dropped_listed b head r h hd' (searches b) Hb (en_head _ _ _ _ _ _ Hen)). by right.
  - rewrite (ke_next _ _ Hk2). by destruct head.
Qed.
End finish.

(** ** Queueing a callback *)

Lemma core_deferred b l : core b -> core (b <| deferred := l |>).
Proof. intros []. by split. Qed.

(** The callback of a request, queued. *)
Definition answer_of (q : request) (ttl err : Z) (rep : option reply) : deferred_reply_callback :=
  {| d_callback := user_callback q; d_request_type := request_type q; d_ttl := ttl; d_err := err; d_reply := rep; d_handle := handle q |}.

Definition scheduled (b : evdns_base) (q : request) (h : nat) (hd : evdns_request) (ttl err : Z) (rep : option reply) : evdns_base :=
  b <| handles := <[h := hd <| pending_cb := true |>]> (handles b) |> <| deferred := deferred b ++ [answer_of q ttl err rep] |>.

Lemma scheduled_queued b q h hd ttl err rep x : handle q = Some h ->
  queued (scheduled b q h hd ttl err rep) x = queued b x + Z.b2z (bool_decide (x = h)).
Proof.
  intros Hh. unfold queued. cbn. rewrite count_app, count_cons. change (count _ []) with 0. cbn. rewrite Hh.
  rewrite (bool_decide_ext (Some h = Some x) (x = h)) by (split; congruence). lia.
Qed.

Lemma scheduled_outstanding b q h hd ttl err rep c :
  outstanding (scheduled b q h hd ttl err rep) c = outstanding b c + Z.b2z (bool_decide (user_callback q = c)).
Proof.
  unfold outstanding. change (deferred (scheduled b q h hd ttl err rep)) with (deferred b ++ [answer_of q ttl err rep]).
  rewrite (count_app (fun d => d_callback d = c)), (count_cons (fun d => d_callback d = c)). change (count _ []) with 0.
  change (count _ (listed (scheduled b q h hd ttl err rep))) with (count (fun r => (user_callback <$> requests b !! r) = Some c) (listed b)).
  change (d_callback (answer_of q ttl err rep)) with (user_callback q). lia.
Qed.

Lemma scheduled_core b q h hd ttl err rep : core b -> handles b !! h = Some hd -> core (scheduled b q h hd ttl err rep).
Proof.
  intros Hb Eh. unfold scheduled. apply core_deferred.
  pose proof (core_handles b (<[h := hd <| pending_cb := true |>]> (handles b)) (searches b) (next_id b) Hb) as H.
  cbn in H |- *. apply H; clear H; [| lia |].
  - intros r0 q0 h0 hd0 Hr0 E0 Hh0 Eh0 Hc0. destruct (decide (h0 = h)) as [->|Hne].
    + rewrite lookup_insert_eq. eexists. split; [done|]. rewrite Eh in Eh0. by injection Eh0 as ->.
    + rewrite lookup_insert_ne by done. by exists hd0.
  - intros m Hm. destruct (co_fresh _ Hb m Hm) as (_ & H2 & _ & H4). split; [|done].
    rewrite lookup_insert_ne; [done | by intros ->; rewrite H2 in Eh].
Qed.

Lemma search_ok_update hs ss global h hd hd' : search_ok hs ss global -> hs !! h = Some hd ->
  search_state hd' = search_state hd -> search_origname hd' = search_origname hd -> search_index hd <= search_index hd' ->
  search_ok (<[h := hd']> hs) ss global.
Proof.
  intros [H1 H2 H3] E Es Eo Ei. split; [| |done].
  - intros k hk s Ek. destruct (decide (k = h)) as [->|]; [rewrite lookup_insert_eq in Ek; injection Ek as <-|].
    + rewrite Es, Eo. intros Hs. destruct (H1 h hd s E Hs) as (? & ? & ?). splits; [done | done | lia].
    + rewrite lookup_insert_ne in Ek by done. by apply (H1 k hk).
  - intros s st Est. unfold refs. rewrite (handle_refs_update _ _ hd) by done. rewrite Es. destruct (H2 s st Est) as [-> ->].
    unfold refs. split; [lia | done].
Qed.

Lemma scheduled_rest b r q h hd ttl err rep x f z :
  rest x f z b -> requests b !! r = Some q -> handle q = Some h -> handles b !! h = Some hd -> current_req hd = Some r ->
  (forall s, user_callback q = Probe s -> err <> DNS_ERR_CANCEL \/ z = Some s) -> rest (h :: x) f z (scheduled b q h hd ttl err rep).
Proof.
  intros [Rs Rr Rd Rp Rse] E Hh Eh Hc Hz. destruct (Rr r q E) as (_ & Hty & Hcb).
  assert (Hsome : forall k, is_Some (handles b !! k) -> is_Some (handles (scheduled b q h hd ttl err rep) !! k)).
  { intros k Hk. cbn. destruct (decide (k = h)) as [->|]; [by rewrite lookup_insert_eq | by rewrite lookup_insert_ne]. }
  split.
  - intros k hk Ek [Hk Hx]%not_elem_of_cons. cbn in Ek. rewrite lookup_insert_ne in Ek by done.
    specialize (Rs k hk Ek Hx). unfold settled in *. rewrite scheduled_queued, bool_decide_false, Z.add_0_r by done. done.
  - done.
  - intros d [Hd|Hd]%elem_of_app.
    + destruct (Rd d Hd) as (? & ? & k & ? & ?). splits; [done | done|]. exists k. split; [done | by apply Hsome].
    + apply list_elem_of_singleton in Hd as ->. splits; [done | done|]. exists h. split; [done|]. apply Hsome. by rewrite Eh.
  - intros s n k En Hp Hzs. destruct (Rp s n k En Hp Hzs) as [Hs [P1 P2]]. split; [by apply Hsome|]. split.
    + cbn. intros hk r0 q0 Ek. destruct (decide (k = h)) as [->|]; [rewrite lookup_insert_eq in Ek; injection Ek as <-; by apply (P1 hd)|].
      rewrite lookup_insert_ne in Ek by done. by apply (P1 hk).
    + intros d [Hd|Hd]%elem_of_app Hk; [by apply P2|]. apply list_elem_of_singleton in Hd as ->. cbn in *.
      rewrite Hh in Hk. injection Hk as ->. specialize (P1 hd r q Eh Hc E). split; [done|]. by destruct (Hz s P1) as [?| ->].
  - cbn. by apply (search_ok_update _ _ _ h hd).
Qed.

Lemma scheduled_evolves b q h hd ttl err rep : handle q = Some h -> evolves (Some h) b (scheduled b q h hd ttl err rep).
Proof.
  intros Hh. split; try done.
  - intros r0 q0 Hr E0 _. split; [done | by exists q0].
  - intros k Hk. rewrite scheduled_queued by done. rewrite bool_decide_false by congruence. cbn. split; [|lia].
    rewrite lookup_insert_ne; [done | congruence].
  - intros s n Es. exists n. auto.
Qed.

Section answer.
Context {A : Arch} {M : Allocator} {E : ResolverEnv} (Hmem : mem_ok).

Lemma wp_schedule b r q h hd ttl err rep (Q : unit -> evdns_base -> Prop) :
  requests b !! r = Some q -> handle q = Some h -> handles b !! h = Some hd -> Q tt (scheduled b q h hd ttl err rep) ->
  wp (reply_schedule_callback r ttl err rep) Q b.
Proof.
  intros Eq Hh Eh HQ. unfold reply_schedule_callback. destruct (mm_malloc _) eqn:Em; [|by apply Hmem in Em].
  apply wp_bind, (wp_the_request _ q); [done|]. apply wp_bind. rewrite Hh. apply (wp_update_handle _ _ hd); [done|]. apply wp_modify.
  unfold scheduled, answer_of in HQ. rewrite Hh in HQ. exact HQ.
Qed.

(** The callback of a request and its end. *)
Lemma answer_ok b r q h hd x f z head ttl err rep (Q : unit -> evdns_base -> Prop) :
  inv x f z b -> h ∉ x -> requests b !! r = Some q -> r ∈ list_at b head -> handle q = Some h -> handles b !! h = Some hd ->
  current_req hd = Some r -> (forall s, user_callback q = Probe s -> err <> DNS_ERR_CANCEL \/ z = Some s) -> server_head b <> [] ->
  (forall b', inv x f z b' -> evolves (Some h) b b' -> falls b b' -> same_answers b b' -> Q tt b') ->
  wp (reply_schedule_callback r ttl err rep ;; request_finished r head true) Q b.
Proof.
  intros [Hb Hr] Hx Eq Hhead Hh Eh Hc Hz Hring HQ. apply wp_bind, (wp_schedule _ _ q h hd); [done..|].
  pose proof (re_settled _ _ _ _ Hr h hd Eh Hx) as Hset. unfold settled in Hset. rewrite Hc in Hset. destruct Hset as (Hp & Hq0 & _).
  apply (finish_ok _ head r h q (hd <| pending_cb := true |>) x f z).
  - by apply scheduled_core.
  - by apply (scheduled_rest b r).
  - split; [done | by destruct head | done | cbn; by rewrite lookup_insert_eq | done].
  - done.
  - rewrite scheduled_queued, bool_decide_true by done. cbn. lia.
  - done.
  - intros b' Hb' Hev Hf Ho. apply HQ; [done | | done |].
    + etrans; [by apply scheduled_evolves | done].
    + intros c. rewrite Ho, scheduled_outstanding. lia.
Qed.

(** A request is ended from the list it is in. *)
Lemma answer_from_list_ok b r q h hd x f z ttl err rep (Q : unit -> evdns_base -> Prop) :
  inv x f z b -> h ∉ x -> requests b !! r = Some q -> r ∈ listed b -> handle q = Some h -> handles b !! h = Some hd ->
  current_req hd = Some r -> (forall s, user_callback q = Probe s -> err <> DNS_ERR_CANCEL \/ z = Some s) -> server_head b <> [] ->
  (forall b', inv x f z b' -> evolves (Some h) b b' -> falls b b' -> same_answers b b' -> Q tt b') ->
  wp (reply_schedule_callback r ttl err rep ;; finish_from_list r) Q b.
Proof.
  intros Hi Hx Eq Hl Hh Eh Hc Hz Hring HQ. pose proof (listed_head b r q (proj1 Hi) Hl Eq) as Hhead.
  pose proof (answer_ok b r q h hd x f z (head_of b q) ttl err rep Q Hi Hx Eq Hhead Hh Eh Hc Hz Hring HQ) as H.
  unfold wp, bind in *. unfold reply_schedule_callback in *. destruct (mm_malloc _) eqn:Em; [|by apply Hmem in Em].
  unfold bind, the_request in *. rewrite Eq in *. cbn in *. rewrite Hh in *. unfold update_handle, bind, the_handle in *. rewrite Eh in *. cbn in *.
  unfold finish_from_list, bind, the_request. cbn. rewrite Eq. cbn. unfold head_of in H. by destruct (ns q).
Qed.

Lemma evdns_cancel_ok b h hd x f z (Q : unit -> evdns_base -> Prop) :
  inv x f z b -> h ∉ x -> handles b !! h = Some hd ->
  (forall r q s, current_req hd = Some r -> requests b !! r = Some q -> user_callback q = Probe s -> z = Some s) -> server_head b <> [] ->
  (forall b', inv x f z b' -> evolves (Some h) b b' -> falls b b' -> same_answers b b' -> Q tt b') -> wp (evdns_cancel_request h) Q b.
Proof.
  intros Hi Hx Eh Hz Hring HQ. unfold evdns_cancel_request. apply wp_bind, (wp_the_handle _ hd); [done|].
  destruct (current_req hd) as [r|] eqn:Hc; [|apply wp_ret, HQ; try done; by intros s n n' -> [= ->]].
  pose proof (re_settled _ _ _ _ (proj2 Hi) h hd Eh Hx) as Hset. unfold settled in Hset. rewrite Hc in Hset.
  destruct Hset as (Hp & _ & Hl & q & Eq & Hh). rewrite Hp. apply wp_bind, wp_assert_valid; [by exists q, h, hd|].
  apply (answer_from_list_ok b r q h hd x f z); [done.. | | done | done]. intros s Hs. right. by apply (Hz r q).
Qed.
End answer.
