(* ===== verification/DnsSubmit.v ===== *)
(** New requests of the resolver: the packet of a query can always be built, a request is
    made and submitted within the invariant ([DnsInv]). *)

From stdpp Require Import gmap.
From S2P Require Import Prelude StateOp EvChain Cstring UriCoding Inet EventData Evbuffer EvbufferSpec EvbufferProps Dns DnsSpec DnsPacket DnsServer DnsWire DnsBase DnsResolver DnsResolverSpec DnsLists DnsInv DnsFinish.

(** ** The packet of a query *)

Section packet.
Context {A : Arch} {M : Allocator}.

(** Any name, also one that is not valid: the result is the packet or an error, and no
    byte outside the buffer is written. *)
Lemma labels_loop_total buf_len fuel : forall buf j name,
  0 <= j -> j + zlen name + 2 <= buf_len <= zlen buf -> buf_len < 2 ^ 31 -> (length name < fuel)%nat ->
  exists j' buf' table', labels_loop fuel buf buf_len j name None = Some (j', buf', table') /\ zlen buf' = zlen buf /\
    (j' < 0 \/ j <= j' <= j + zlen name + 2).
Proof.
  induction fuel as [|fuel IH]; intros buf j name Hj Hb Hm Hf; [lia|]. cbn [labels_loop table_pos]. change (0 <=? -1) with false. cbn iota.
  destruct (strchr name (ch ".")) as [[l r]|] eqn:Hs.
  - pose proof (proj1 (strchr_Some _ _ _ _) Hs) as (r' & -> & Hname & _). cbn [tail].
    pose proof (f_equal zlen Hname) as Hzn. rewrite zlen_app, zlen_cons in Hzn. pose proof (zlen_nonneg r'). pose proof (zlen_nonneg l).
    destruct (Z.ltb_spec 63 (zlen l)); [exists (-1), buf, None; splits; [done | done | lia]|].
    rewrite size_bits_32 by lia. rewrite (proj2 (Z.ltb_ge buf_len _)) by lia.
    destruct (put_label_ok buf j l) as (b2 & -> & Hz2 & _); [lia..|]. cbn [mbind option_bind table_add fmap option_fmap option_map].
    destruct (IH b2 (j + 1 + zlen l) r') as (j' & b3 & t & -> & Hz3 & Hr); [lia.. | unfold zlen in Hzn; lia|].
    exists j', b3, t. splits; [done | lia | lia].
  - pose proof (zlen_nonneg name). destruct (Z.ltb_spec 63 (zlen name)); [exists (-1), buf, None; splits; [done | done | lia]|].
    rewrite size_bits_32 by lia. rewrite (proj2 (Z.ltb_ge buf_len _)) by lia.
    destruct (put_label_ok buf j name) as (b2 & -> & Hz2 & _); [lia..|]. cbn [mbind option_bind table_add fmap option_fmap option_map].
    destruct (byte_at_some b2 (j + 1 + zlen name - 1)) as [c ->]; [lia|]. cbn [mbind option_bind].
    destruct (negb (c =? 0)); [|exists (j + 1 + zlen name), b2, None; splits; [done | lia | lia]].
    destruct (mem_write_ok b2 (j + 1 + zlen name) [0]) as (b3 & -> & Hz3 & _); [lia | rewrite zlen_cons, zlen_nil; lia|].
    cbn [mbind option_bind]. exists (j + 1 + zlen name + 1), b3, None. splits; [done | lia | lia].
Qed.

Lemma evdns_request_data_build_total name id type class buf buf_len :
  zlen name + 18 <= buf_len <= zlen buf -> buf_len < 2 ^ 31 ->
  exists n buf', evdns_request_data_build name id type class buf buf_len = Some (n, buf') /\ zlen buf' = zlen buf.
Proof.
  intros Hb Hm. pose proof (zlen_nonneg name). unfold evdns_request_data_build.
  destruct (append_all_ok buf_len (map be16 [id; 0x0100; 1; 0; 0; 0]) buf 0) as (b1 & -> & Hz1 & _);
    [lia | change (zlen (concat _)) with 12; lia|].
  change (zlen (concat _)) with 12 in *. change (0 + 12) with 12. cbn [mbind option_bind negb].
  unfold dnsname_to_labels. destruct (Z.ltb_spec 255 (zlen name)); [cbn; by exists (-2), b1|].
  destruct (labels_loop_total buf_len (S (length name)) b1 12 name) as (j & b2 & t & -> & Hz2 & Hj); [lia..|]. cbn [mbind option_bind].
  destruct (Z.ltb_spec j 0); [exists j, b2; split; [done | lia]|].
  destruct (append_all_ok buf_len [be16 type; be16 class] b2 j) as (b3 & -> & Hz3 & _);
    [lia | change (zlen (concat _)) with 4; lia|]. cbn [mbind option_bind]. eexists _, b3. split; [done | lia].
Qed.
End packet.

Lemma random_case_length {A : Arch} {M : Allocator} {E : ResolverEnv} d name : zlen (random_case d name) = zlen name.
Proof. unfold random_case, zlen. by rewrite length_imap. Qed.

(** ** A new request *)

(** Only the ring was turned and numbers were drawn. *)
Definition shuffled (b b' : evdns_base) : Prop :=
  exists n ring, ring ≡ₚ server_head b /\ b' = b <| draws := n |> <| server_head := ring |>.

#[export] Instance shuffled_refl : Reflexive shuffled.
Proof. intros b. exists (draws b), (server_head b). split; [done|]. by destruct b. Qed.

#[export] Instance shuffled_trans : Transitive shuffled.
Proof. intros b1 b2 b3 (n & l & Hl & ->) (n' & l' & Hl' & ->). exists n', l'. split; [by rewrite Hl', <- Hl | done]. Qed.

Lemma shuffled_kept b b' : core b -> shuffled b b' -> core b' /\ kept b b'.
Proof.
  intros Hb (n & ring & Hp & ->). destruct (core_ring _ ring (core_draws b n Hb) Hp) as [Hc Hk]. split; [done|].
  etrans; [|exact Hk]. split; try done; [intros; apply both_refl; apply _..|]. intros r q Hr Eq. split; [done | by exists q].
Qed.

(** The base with a new request [r], which the handle points to. *)
Record made (hopt : option nat) (cb : dns_callback) (b : evdns_base) (r : nat) (q : request) (b' : evdns_base) : Prop := {
  mk_id : r = next_id b;
  mk_request : requests b' = <[r := q]> (requests b);
  mk_handle : handle q = hopt;
  mk_callback : user_callback q = cb;
  mk_handles : handles b' = match hopt with Some h => alter (fun hd => hd <| current_req := Some r |>) h (handles b) | None => handles b end;
  mk_next : next_id b' = S (next_id b);
  mk_heads : req_heads b' = req_heads b;
  mk_waiting : req_waiting_head b' = req_waiting_head b;
  mk_ring : server_head b' ≡ₚ server_head b;
  mk_servers : servers b' = servers b;
  mk_searches : searches b' = searches b;
  mk_global : global_search_state b' = global_search_state b;
  mk_deferred : deferred b' = deferred b }.

Lemma alter_as_insert {T} (f : T -> T) (m : gmap nat T) i x : m !! i = Some x -> alter f i m = <[i := f x]> m.
Proof.
  intros E. apply map_eq. intros j. destruct (decide (j = i)) as [->|Hne].
  - by rewrite lookup_alter_eq, lookup_insert_eq, E.
  - by rewrite lookup_alter_ne, lookup_insert_ne.
Qed.

(** The handle of a request that is not made yet. *)
Definition idle (b : evdns_base) (hopt : option nat) : Prop :=
  forall h, hopt = Some h -> exists hd, handles b !! h = Some hd /\ current_req hd = None.

Definition with_request (b : evdns_base) (q : request) : evdns_base :=
  b <| next_id := S (next_id b) |> <| requests := <[next_id b := q]> (requests b) |>.

Definition with_handle (hopt : option nat) (r : nat) (b : evdns_base) : evdns_base :=
  match hopt with
  | Some h => b <| handles := alter (fun hd => hd <| current_req := Some r |>) h (handles b) |>
  | None => b
  end.

Lemma with_request_core b q : core b -> request_ok (server_head b) q -> core (with_request b q).
Proof.
  intros Hb Hq. unfold with_request.
  pose proof (core_new_request (b <| next_id := S (next_id b) |>) (next_id b) q) as H. apply H; clear H; [| | by cbn; lia | done].
  - pose proof (core_handles b (handles b) (searches b) (S (next_id b)) Hb) as H. cbn in H |- *. apply H; clear H.
    + intros r q0 h hd _ _ _ Eh Hc. by exists hd.
    + lia.
    + intros m Hm. destruct (co_fresh _ Hb m ltac:(lia)) as (_ & H2 & _ & H4). done.
  - intros Hl. change (next_id b ∈ listed b) in Hl. apply (listed_before_fresh b) in Hl; [lia | done].
Qed.

Lemma with_handle_core hopt r b : core b -> idle b hopt -> core (with_handle hopt r b).
Proof.
  intros Hb Hidle. destruct hopt as [h|]; [|done]. destruct (Hidle h eq_refl) as (hd & Eh & Hc). cbn [with_handle].
  pose proof (core_handles b (alter (fun hd => hd <| current_req := Some r |>) h (handles b)) (searches b) (next_id b) Hb) as H.
  cbn in H |- *. apply H; clear H; [| lia |].
  - intros r0 q0 h0 hd0 _ _ _ Eh0 Hc0. destruct (decide (h0 = h)) as [->|Hne]; [congruence|]. rewrite lookup_alter_ne by done. by exists hd0.
  - intros m Hm. destruct (co_fresh _ Hb m Hm) as (_ & H2 & _ & H4). split; [|done]. rewrite lookup_alter_ne; [done | by intros ->; rewrite H2 in Eh].
Qed.

Section request_new.
Context {A : Arch} {M : Allocator} {E : ResolverEnv} (Hmem : mem_ok).

Lemma pick_if_ok b (c : bool) (Q : Z -> evdns_base -> Prop) :
  core b -> (c = true -> zlen (inflight b) <= 65000) ->
  (forall id b', shuffled b b' -> fits 16 id -> (c = true -> id <> 0xffff) -> Q id b') ->
  wp (if c then transaction_id_pick else ret 0xffff) Q b.
Proof.
  intros Hb Hlen HQ. destruct c; [|apply wp_ret, HQ; done].
  apply transaction_id_pick_ok; [by apply core_ids_ok | by apply Hlen |]. intros id n Hf Hne _. apply HQ; [|done..].
  exists n, (server_head b). split; [done|]. by destruct b.
Qed.

Lemma server_if_ok b (c : bool) (Q : option nat -> evdns_base -> Prop) :
  core b -> (forall o b', shuffled b b' -> (forall s, o = Some s -> c = true /\ s ∈ server_head b) -> Q o b') ->
  wp (if c then nameserver_pick else ret None) Q b.
Proof.
  intros Hb HQ. destruct c; [|apply wp_ret, HQ; done].
  apply nameserver_pick_ok; [by apply core_ring_ok|]. intros o ring Hp _ Hin. apply HQ.
  - exists (draws b), ring. split; [done|]. by destruct b.
  - intros s Hs. split; [done | by apply Hin].
Qed.

Lemma query_buffer (name blk : list Z) : zlen name < 256 ->
  mm_malloc (wrap size_bits (sizeof struct_request + evdns_request_len (zlen name))) = Some blk ->
  zlen name + 18 <= evdns_request_len (zlen name) <= zlen (zdrop (sizeof struct_request) blk) /\ evdns_request_len (zlen name) < 2 ^ 31.
Proof.
  intros Hn Em. pose proof (zlen_nonneg name). pose proof (sizeof_range struct_request). unfold evdns_request_len in *.
  rewrite (size_bits_32 (96 + _ + 2 + 4)) in * by lia. rewrite size_bits_32 in Em by lia.
  pose proof (mm_malloc_length _ _ Em ltac:(lia)) as Hz. rewrite zlen_zdrop by lia. rewrite Hz. lia.
Qed.

(** Making a request fails without a trace, or there is a new one in no list. *)
Lemma wp_request_new hopt type name cb b (Q : option nat -> evdns_base -> Prop) :
  core b -> idle b hopt ->
  (forall b', shuffled b b' -> Q None b') ->
  (forall r q b', made hopt cb b r q b' -> core b' -> request_type q = wrap 8 type -> Q (Some r) b') ->
  wp (request_new hopt type name cb) Q b.
Proof.
  intros Hb Hh HN HS. unfold request_new. apply wp_bind, wp_asks. apply wp_bind, pick_if_ok; [done | |].
  { intros Hlt%Z.ltb_lt. rewrite (co_inflight_count _ Hb) in Hlt. pose proof (co_max _ Hb). lia. }
  intros id b1 Hb1 Hid Hid'. destruct (shuffled_kept b b1 Hb Hb1) as [Hc1 _].
  destruct (mm_malloc _) as [blk|] eqn:Em; [|by apply Hmem in Em].
  destruct (Z.leb_spec 256 (zlen name)) as [Hlong|Hshort]; [by apply wp_ret, HN|].
  apply wp_bind, wp_asks, wp_bind, wp_asks, wp_bind.
  assert (Hdraw : forall c n (Q' : unit -> evdns_base -> Prop), (forall b2, shuffled b b2 -> core b2 -> Q' tt b2) ->
    wp (when c (modify (fun b => b <| draws := (draws b + n)%nat |>))) Q' b1).
  { intros c n Q' HQ'. apply wp_when; intros _; [apply wp_modify|]; apply HQ'; [|by apply core_draws | done..]. etrans; [done|].
    exists (draws b1 + n)%nat, (server_head b1). split; [done|]. by destruct b1. }
  apply Hdraw. intros b2 Hb2 Hc2. clear Hdraw. destruct (query_buffer name blk Hshort Em) as [Hbuf Hmax].
  set (name' := if global_randomize_case b1 then random_case (draws b1) name else name).
  assert (Hn' : zlen name' = zlen name) by (unfold name'; destruct (global_randomize_case b1); [apply random_case_length | done]).
  destruct (evdns_request_data_build_total name' id type CLASS_INET (zdrop (sizeof struct_request) blk) (evdns_request_len (zlen name)))
    as (rlen & p & Ep & Hp); [by rewrite Hn' | done|].
  apply wp_bind, (wp_lift _ (rlen, p)); [done|]. destruct (rlen <? 0); [by apply wp_ret, HN|].
  apply wp_bind, server_if_ok; [done|]. intros o b3 Hb3 Ho. destruct (shuffled_kept b2 b3 Hc2 Hb3) as [Hc3 _].
  assert (Hb03 : shuffled b b3) by by etrans.
  apply wp_bind. unfold new_id, wp at 1. apply wp_bind, wp_modify.
  change (requests (b3 <| next_id := ?x |>)) with (requests b3).
  lazymatch goal with |- context [insert _ ?x (requests b3)] => set (q := x) end.
  assert (Hq : request_ok (server_head b3) q).
  { split; [cbn; pose proof (zlen_nonneg name); lia | done|]. intros s Hs. destruct (Ho s Hs) as [Hc Hin]. split; [|by apply Hid'].
    destruct Hb3 as (n3 & l3 & Hl3 & ->). cbn. by rewrite Hl3. }
  change (_ <| requests := _ |>) with (with_request b3 q).
  assert (Hidle : idle (with_request b3 q) hopt).
  { intros h ->. destruct (Hh h eq_refl) as (hd & Eh & Hc). exists hd. split; [|done]. destruct Hb03 as (n3 & l3 & _ & ->). done. }
  assert (Hmade : made hopt cb b (next_id b3) q (with_handle hopt (next_id b3) (with_request b3 q)) ).
  { destruct Hb03 as (n3 & l3 & Hl3 & ->). destruct hopt; by split. }
  assert (Hcore : core (with_handle hopt (next_id b3) (with_request b3 q))) by by apply with_handle_core, Hidle; apply with_request_core.
  apply wp_bind. destruct hopt as [h|]; [|apply wp_ret, wp_ret, (HS _ q); done].
  destruct (Hidle h eq_refl) as (hd & Eh & Hc). unfold with_handle in *. rewrite (alter_as_insert _ _ _ hd) in * by done.
  apply (wp_update_handle _ _ hd); [done|]. by apply wp_ret, (HS _ q).
Qed.
End request_new.

(** ** The invariant with a new request *)

Lemma made_fresh hopt cb b r q b' : core b -> made hopt cb b r q b' -> requests b !! r = None /\ r ∉ listed b'.
Proof.
  intros Hb Hm. pose proof (mk_id _ _ _ _ _ _ Hm) as ->. destruct (co_fresh _ Hb (next_id b) ltac:(lia)) as [Hn _]. split; [done|].
  unfold listed, inflight. rewrite (mk_heads _ _ _ _ _ _ Hm), (mk_waiting _ _ _ _ _ _ Hm). change (next_id b ∉ listed b).
  intros Hl. apply (listed_before_fresh b) in Hl; [lia | done].
Qed.

Lemma made_listed hopt cb b r q b' : made hopt cb b r q b' -> listed b' = listed b /\ inflight b' = inflight b.
Proof. intros Hm. unfold listed, inflight. by rewrite (mk_heads _ _ _ _ _ _ Hm), (mk_waiting _ _ _ _ _ _ Hm). Qed.

Lemma made_handle hopt cb b r q b' h : made hopt cb b r q b' -> hopt <> Some h -> handles b' !! h = handles b !! h.
Proof. intros Hm Hne. rewrite (mk_handles _ _ _ _ _ _ Hm). destruct hopt as [k|]; [|done]. rewrite lookup_alter_ne; [done | congruence]. Qed.

Lemma made_handles_some hopt cb b r q b' h : made hopt cb b r q b' -> is_Some (handles b !! h) -> is_Some (handles b' !! h).
Proof.
  intros Hm [hd E]. rewrite (mk_handles _ _ _ _ _ _ Hm). destruct hopt as [k|]; [|by exists hd].
  destruct (decide (h = k)) as [->|Hne]; [rewrite lookup_alter_eq, E; by eexists | rewrite lookup_alter_ne by done; by exists hd].
Qed.

Lemma made_queued hopt cb b r q b' h : made hopt cb b r q b' -> queued b' h = queued b h.
Proof. intros Hm. unfold queued. by rewrite (mk_deferred _ _ _ _ _ _ Hm). Qed.

Lemma made_answers hopt cb b r q b' : core b -> made hopt cb b r q b' -> same_answers b b'.
Proof.
  intros Hb Hm c. destruct (made_fresh _ _ _ _ _ _ Hb Hm) as [_ Hr]. unfold outstanding. rewrite (mk_deferred _ _ _ _ _ _ Hm). f_equal.
  destruct (made_listed _ _ _ _ _ _ Hm) as [Hl _]. rewrite Hl in *. apply count_iff. intros k Hk. rewrite (mk_request _ _ _ _ _ _ Hm).
  rewrite lookup_insert_ne; [done | by intros ->].
Qed.

Lemma made_evolves hopt cb b r q b' : core b -> made hopt cb b r q b' -> evolves hopt b b'.
Proof.
  intros Hb Hm. destruct (made_fresh _ _ _ _ _ _ Hb Hm) as [Hf _]. destruct (made_listed _ _ _ _ _ _ Hm) as [_ Hin]. split.
  - intros k qk Hk Ek _. rewrite Hin. split; [done|]. exists qk. rewrite (mk_request _ _ _ _ _ _ Hm).
    rewrite lookup_insert_ne; [done|]. intros ->. by rewrite Hf in Ek.
  - by rewrite (mk_heads _ _ _ _ _ _ Hm).
  - intros h Hh. rewrite (made_queued _ _ _ _ _ _ h Hm). split; [|done]. apply (made_handle _ _ _ _ _ _ h Hm). congruence.
  - apply Hm.
  - intros s n. rewrite (mk_servers _ _ _ _ _ _ Hm). intros En. exists n. auto.
Qed.

Lemma made_search_ok hopt cb b r q b' : made hopt cb b r q b' -> idle b hopt -> search_ok (handles b) (searches b) (global_search_state b) ->
  search_ok (handles b') (searches b') (global_search_state b').
Proof.
  intros Hm Hi Hs. rewrite (mk_searches _ _ _ _ _ _ Hm), (mk_global _ _ _ _ _ _ Hm), (mk_handles _ _ _ _ _ _ Hm).
  destruct hopt as [h|]; [|done]. destruct (Hi h eq_refl) as (hd & Eh & _). rewrite (alter_as_insert _ _ _ hd) by done.
  by apply (search_ok_update _ _ _ h hd).
Qed.

(** No server takes the handle for its probe. *)
Definition no_probe (b : evdns_base) (h : nat) : Prop := forall s n, servers b !! s = Some n -> probe_request n <> Some h.

Lemma made_rest hopt cb b r q b' x z : core b -> rest x None z b -> made hopt cb b r q b' -> idle b hopt ->
  known_type (request_type q) -> known_callback b cb -> (forall h, hopt = Some h <-> h ∈ x) ->
  (forall h, hopt = Some h -> no_probe b h) -> rest x (Some r) z b'.
Proof.
  intros Hb [Rs Rr Rd Rp Rse] Hm Hi Ht Hcb Hx Hnp. destruct (made_fresh _ _ _ _ _ _ Hb Hm) as [Hf Hnl].
  destruct (made_listed _ _ _ _ _ _ Hm) as [Hl _]. pose proof (mk_request _ _ _ _ _ _ Hm) as Er.
  assert (Hcb' : forall c, known_callback b c -> known_callback b' c) by (intros c Hc s Hs; rewrite (mk_ring _ _ _ _ _ _ Hm); by apply Hc).
  assert (Hother : forall k qk, requests b !! k = Some qk -> requests b' !! k = Some qk)
    by (intros k qk Ek; rewrite Er, lookup_insert_ne; [done | intros ->; by rewrite Hf in Ek]).
  split.
  - intros h hd Eh Hh. assert (Hne : hopt <> Some h) by (by intros He%Hx).
    rewrite (made_handle _ _ _ _ _ _ h Hm Hne) in Eh. specialize (Rs h hd Eh Hh). unfold settled in *.
    rewrite (made_queued _ _ _ _ _ _ h Hm), Hl. destruct (current_req hd) as [r0|]; [|done].
    destruct Rs as (? & ? & ? & q0 & E0 & ?). splits; try done. exists q0. auto.
  - intros k qk. rewrite Er. destruct (decide (k = r)) as [->|Hne].
    + rewrite lookup_insert_eq. intros [= <-]. rewrite (mk_callback _ _ _ _ _ _ Hm). auto.
    + rewrite lookup_insert_ne by done. intros Ek. destruct (Rr k qk Ek) as ([Hk|Hk] & ? & ?); [|done]. rewrite Hl. auto.
  - intros d. rewrite (mk_deferred _ _ _ _ _ _ Hm). intros Hd. destruct (Rd d Hd) as (? & ? & h & ? & ?). splits; [done | auto|].
    exists h. split; [done|]. by apply (made_handles_some hopt cb b r q).
  - intros s n h. rewrite (mk_servers _ _ _ _ _ _ Hm). intros En Hp Hz. destruct (Rp s n h En Hp Hz) as [Hs [P1 P2]].
    split; [by apply (made_handles_some hopt cb b r q)|]. split; [|by rewrite (mk_deferred _ _ _ _ _ _ Hm)].
    assert (Hne : hopt <> Some h) by (intros He; by apply (Hnp h He s n)).
    intros hd k qk. rewrite (made_handle _ _ _ _ _ _ h Hm Hne), Er. intros Eh Hc Ek. destruct (decide (k = r)) as [->|Hk].
    + assert (Hhx : h ∉ x) by by intros He%Hx. specialize (Rs h hd Eh Hhx). unfold settled in Rs. rewrite Hc in Rs.
      destruct Rs as (_ & _ & Hk & _). by rewrite Hl in Hnl.
    + rewrite lookup_insert_ne in Ek by done. by apply (P1 hd k).
  - by apply (made_search_ok hopt cb b r q).
Qed.

(** ** Submitting *)

Lemma put_same head r b : requests (put_request head r b) = requests b /\ handles (put_request head r b) = handles b /\ deferred (put_request head r b) = deferred b /\
  servers (put_request head r b) = servers b /\ server_head (put_request head r b) = server_head b /\ length (req_heads (put_request head r b)) = length (req_heads b) /\
  searches (put_request head r b) = searches b /\ global_search_state (put_request head r b) = global_search_state b.
Proof. destruct head; cbn; by rewrite ?length_insert. Qed.

Lemma head_of_range b q : core b -> forall i, head_of b q = Inflight i -> (i < length (req_heads b))%nat.
Proof.
  intros Hb i. unfold head_of. destruct (ns q); [|done]. intros [= <-].
  destruct (head_index_lookup (req_heads b) (trans_id q) (co_heads _ Hb)) as [l Hl]. by apply lookup_lt_Some in Hl.
Qed.

(** The handle of a request that is about to be submitted. *)
Record ready (b : evdns_base) (r h : nat) (q : request) (hd : evdns_request) : Prop := {
  rd_request : requests b !! r = Some q;
  rd_unlisted : r ∉ listed b;
  rd_handle : handle q = Some h;
  rd_handles : handles b !! h = Some hd;
  rd_current : current_req hd = Some r;
  rd_pending : pending_cb hd = false;
  rd_queued : queued b h = 0 }.

Lemma put_rest b r h q hd z : core b -> ready b r h q hd -> rest [h] (Some r) z b -> rest [] None z (put_request (head_of b q) r b).
Proof.
  intros Hb [Eq Hl Hh Eh Hc Hp Hq] [Rs Rr Rd Rp Rse]. destruct (put_lists (head_of b q) r b (head_of_range b q Hb)) as [Hlist _].
  destruct (put_same (head_of b q) r b) as (Er & Ehs & Ed & Es & Ering & _ & Ess & Eg). revert Hlist Er Ehs Ed Es Ering Ess Eg.
  generalize (put_request (head_of b q) r b) as b'. intros b' Hlist Er Ehs Ed Es Ering Ess Eg.
  assert (Hcb' : forall c, known_callback b c -> known_callback b' c) by (intros c Hk s Hs; rewrite Ering; by apply Hk).
  split.
  - intros k hk Ek _. rewrite Ehs in Ek. unfold settled. unfold queued. rewrite Ed, Er. fold (queued b k). destruct (decide (k = h)) as [->|Hne].
    + rewrite Eh in Ek. injection Ek as <-. rewrite Hc, Hlist. splits; [done | done | left | by exists q].
    + specialize (Rs k hk Ek ltac:(by rewrite list_elem_of_singleton)). unfold settled in Rs.
      destruct (current_req hk); [|done]. destruct Rs as (? & ? & ? & ?). splits; try done. rewrite Hlist. by right.
  - intros k qk. rewrite Er. intros Ek. destruct (Rr k qk Ek) as ([Hk|[= ->]] & ? & ?); (splits; [left; rewrite Hlist | done | auto]); [by right | left].
  - intros d. rewrite Ed, Ehs. intros Hd. destruct (Rd d Hd) as (? & ? & ?). auto.
  - intros s n k. rewrite Es, Ehs. intros En Hpr Hz. destruct (Rp s n k En Hpr Hz) as [? [P1 P2]]. split; [done|]. split; [by rewrite Ehs, Er | by rewrite Ed].
  - by rewrite Ehs, Ess, Eg.
Qed.

Lemma put_outstanding b r q c : core b -> requests b !! r = Some q ->
  outstanding (put_request (head_of b q) r b) c = outstanding b c + Z.b2z (bool_decide (user_callback q = c)).
Proof.
  intros Hb Eq. destruct (put_lists (head_of b q) r b (head_of_range b q Hb)) as [Hl _].
  destruct (put_same (head_of b q) r b) as (Er & _ & Ed & _). unfold outstanding. rewrite Ed, (count_perm _ _ _ Hl), Er.
  rewrite (count_cons (fun r0 => (user_callback <$> requests b !! r0) = Some c)), Eq. cbn [fmap option_fmap option_map].
  rewrite (bool_decide_ext (Some (user_callback q) = Some c) (user_callback q = c)) by (split; congruence). lia.
Qed.

Lemma put_evolves gone b r q : core b -> evolves gone b (put_request (head_of b q) r b).
Proof.
  intros Hb. destruct (put_lists (head_of b q) r b (head_of_range b q Hb)) as [_ Hin].
  destruct (put_same (head_of b q) r b) as (Er & Ehs & Ed & Es & Ering & Elen & _). split; [| done | | by rewrite Ering |].
  - intros k qk Hk Ek _. split; [|exists qk; by rewrite Er]. destruct (head_of b q); destruct Hin as [Hin _]; rewrite Hin; [by right | done].
  - intros k _. unfold queued. by rewrite Ehs, Ed.
  - intros s n. rewrite Es. intros En. exists n. auto.
Qed.

Section submit.
Context {A : Arch} {M : Allocator} {E : ResolverEnv}.

Lemma request_submit_ok b r h q hd z (Q : unit -> evdns_base -> Prop) :
  inv [h] (Some r) z b -> ready b r h q hd ->
  (forall b', inv [] None z b' -> (forall gone, evolves gone b b') -> (forall c, outstanding b' c = outstanding b c + Z.b2z (bool_decide (user_callback q = c))) ->
     handles b' = handles b -> r ∈ listed b' -> Q tt b') ->
  wp (request_submit r) Q b.
Proof.
  intros [Hb Hr] Hrd HQ. pose proof (put_rest _ _ _ _ _ _ Hb Hrd Hr) as Hr1.
  assert (Hlink : linked b r) by (destruct Hrd; by exists q, h, hd).
  assert (Hb1 : core (put_request (head_of b q) r b)) by (apply core_put; [done | apply Hrd | done | apply Hrd]).
  destruct (put_lists (head_of b q) r b (head_of_range b q Hb)) as [Hl Hin].
  assert (Hdone : forall b', core b' -> kept (put_request (head_of b q) r b) b' -> Q tt b').
  { intros b' Hb' Hk'. apply HQ.
    - by apply (kept_inv _ _ _ (put_request (head_of b q) r b)).
    - intros gone. etrans; [by apply put_evolves | by apply kept_evolves].
    - intros c. rewrite (kept_outstanding _ _ Hk'). apply put_outstanding; [done | apply Hrd].
    - rewrite (ke_handles _ _ Hk'). by destruct (put_same (head_of b q) r b) as (_ & -> & _).
    - rewrite (kept_listed _ _ _ Hk'), Hl. left. }
  unfold request_submit. apply wp_bind, wp_assert_valid; [done|]. apply wp_bind, (wp_the_request _ q); [apply Hrd|].
  destruct (ns q) as [s|] eqn:En.
  - apply wp_bind. unfold REQ_HEAD, wp at 1. apply wp_bind, wp_insert; [done|]. apply wp_bind, wp_modify, wp_bind.
    assert (Eh : head_of b q = Inflight (head_index (req_heads b) (trans_id q))) by (unfold head_of; by rewrite En).
    rewrite Eh in *. apply (transmit_ok r (put_request (Inflight (head_index (req_heads b) (trans_id q))) r b)).
    + done.
    + destruct Hin as [Hin _]. rewrite Hin. left.
    + intros c b' Hb' Hq'. apply wp_ret, Hdone; [done | apply Hq'].
  - assert (Eh : head_of b q = Waiting) by (unfold head_of; by rewrite En). rewrite Eh in *.
    apply wp_bind, wp_insert; [done|]. apply wp_modify. by apply (Hdone (put_request Waiting r b)).
Qed.
End submit.
