(* ===== verification/DnsReply.v ===== *)
(** Replies, time-outs and the state of the name servers keep the invariant of the resolver
    ([DnsInv]) and the number of answers to come. *)

From stdpp Require Import gmap.
From S2P Require Import Prelude StateOp EvChain Cstring UriCoding Inet EventData Evbuffer EvbufferSpec EvbufferProps Dns DnsSpec DnsPacket DnsServer DnsWire DnsBase DnsResolver DnsResolverSpec DnsLists DnsInv DnsFinish DnsSubmit.

(** ** Changes of a server *)

Definition set_server (s : nat) (n : nameserver) (good : Z) (b : evdns_base) : evdns_base :=
  b <| servers := <[s := n]> (servers b) |> <| global_good_nameservers := good |>.

Lemma rest_set_server b s n n' good x f z z' :
  rest x f z b -> servers b !! s = Some n ->
  probe_request n' = None /\ (z' = z \/ z = Some s) \/ probe_request n' = probe_request n /\ z' = z ->
  rest x f z' (set_server s n' good b).
Proof.
  intros [Rs Rr Rd Rp Rse] En Hp. split; [done.. | | done].
  cbn. intros k nk h Ek Hh Hz. destruct (decide (k = s)) as [->|Hne].
  - rewrite lookup_insert_eq in Ek. injection Ek as <-. destruct Hp as [[Hp _]|[Hp ->]]; [congruence|].
    rewrite Hp in Hh. destruct (Rp s n h En Hh Hz) as [? [P1 P2]]. by split.
  - rewrite lookup_insert_ne in Ek by done. destruct (Rp k nk h Ek Hh) as [? [P1 P2]]; [|by split].
    destruct Hp as [[_ [->| ->]]|[_ ->]]; [done | congruence | done].
Qed.

Lemma set_server_evolves b s n n' good gone : servers b !! s = Some n ->
  probe_request n' = None \/ probe_request n' = probe_request n -> evolves gone b (set_server s n' good b).
Proof.
  intros En Hp. split; try done.
  - intros r q Hr Eq _. split; [done | by exists q].
  - cbn. intros k nk Ek. destruct (decide (k = s)) as [->|Hne].
    + rewrite lookup_insert_eq in Ek. injection Ek as <-. exists n. split; [done|]. tauto.
    + rewrite lookup_insert_ne in Ek by done. exists nk. auto.
Qed.

Lemma core_set_server b s n n' : core b -> servers b !! s = Some n ->
  core (set_server s n' (global_good_nameservers b - Z.b2z (up n) + Z.b2z (up n')) b).
Proof. intros Hb En. by destruct (core_set_up b s n n' Hb En). Qed.

Lemma core_set_same b s n n' : core b -> servers b !! s = Some n -> up n' = up n ->
  core (set_server s n' (global_good_nameservers b) b).
Proof. intros Hb En Hu. by apply (core_change_server b s n). Qed.

Lemma same_good b s n : set_server s n (global_good_nameservers b) b = b <| servers := <[s := n]> (servers b) |>.
Proof. done. Qed.

(** Updating a server without touching [up]. *)
Lemma update_server_ok b s (g : nameserver -> nameserver) x f z z' (Q : unit -> evdns_base -> Prop) :
  inv x f z b -> s ∈ server_head b -> (forall n, up (g n) = up n) ->
  (forall n, probe_request (g n) = None /\ (z' = z \/ z = Some s) \/ probe_request (g n) = probe_request n /\ z' = z) ->
  (forall n, servers b !! s = Some n ->
     let b' := set_server s (g n) (global_good_nameservers b) b in
     inv x f z' b' -> (forall gone, evolves gone b b') -> same_answers b b' -> Q tt b') ->
  wp (update_server s g) Q b.
Proof.
  intros [Hb Hr] Hs Hup Hp HQ. destruct (proj2 (co_servers _ Hb s) Hs) as [n En].
  apply (wp_update_server _ _ n); [done|]. apply (HQ n); [done | | | done].
  - split; [by apply (core_set_same b s n) | by apply (rest_set_server b s n _ _ x f z z')].
  - intros gone. apply (set_server_evolves b s n); [done|]. destruct (Hp n); tauto.
Qed.

Lemma evolves_ring gone b b' s : evolves gone b b' -> s ∈ server_head b <-> s ∈ server_head b'.
Proof. intros H. by rewrite (ev_ring _ _ _ H). Qed.

Lemma evolves_nonempty gone b b' : evolves gone b b' -> server_head b <> [] -> server_head b' <> [].
Proof. intros H Hne E0. pose proof (ev_ring _ _ _ H) as Hp. rewrite E0 in Hp. by apply Permutation_nil in Hp. Qed.

#[export] Instance same_answers_refl : Reflexive same_answers.
Proof. by intros b c. Qed.
#[export] Instance same_answers_trans : Transitive same_answers.
Proof. intros x y w H1 H2 c. by rewrite H2, H1. Qed.

Lemma rest_weaken_cleared x f s b : rest x f None b -> rest x f (Some s) b.
Proof. intros [Rs Rr Rd Rp Rse]. split; try done. intros k n h En Hp _. by apply (Rp k n). Qed.

Section servers.
Context {A : Arch} {M : Allocator} {E : ResolverEnv} (Hmem : mem_ok).

(** Sending to a failed server stops; what is queued for it may go elsewhere. *)
Lemma failed_ok b s x f z (Q : unit -> evdns_base -> Prop) :
  inv x f z b -> s ∈ server_head b ->
  (forall b', inv x f z b' -> (forall gone, evolves gone b b') -> same_answers b b' -> Q tt b') -> wp (nameserver_failed s) Q b.
Proof.
  intros [Hb Hr] Hs HQ. apply nameserver_failed_ok; [done | done |]. intros b' Hb' [Hk _ _]. apply HQ.
  - by apply (kept_inv _ _ _ b).
  - intros gone. by apply kept_evolves.
  - intros c. by apply kept_outstanding.
Qed.

(** A server is up: its probe, if there is one, is cancelled. *)
Lemma nameserver_up_ok b s n x f (Q : unit -> evdns_base -> Prop) :
  inv x f None b -> servers b !! s = Some n -> (forall hp, probe_request n = Some hp -> hp ∉ x) -> server_head b <> [] ->
  (forall b' gone, inv x f None b' -> evolves gone b b' -> same_answers b b' -> (forall h, gone = Some h -> probe_request n = Some h) -> Q tt b') ->
  wp (nameserver_up s) Q b.
Proof.
  intros Hi En Hx Hring HQ. assert (Hs : s ∈ server_head b) by (apply (co_servers _ (proj1 Hi)); by rewrite En).
  unfold nameserver_up. apply wp_bind, (wp_the_server _ n); [done|].
  destruct (up n) eqn:Hup; [by apply wp_ret, (HQ b None)|].
  apply wp_bind, (update_server_ok _ _ _ x f None None); [done | done | done | by right |]. intros n0 En0 b1 Hi1 He1 Ha1.
  rewrite En in En0. injection En0 as <-.
  assert (Hlast : forall b2 gone, inv x f None b2 -> evolves gone b b2 -> same_answers b b2 ->
    (forall n2, servers b2 !! s = Some n2 -> up n2 = false) -> (forall h, gone = Some h -> probe_request n = Some h) ->
    wp (update_server s (fun ns => ns <| up := true |> <| failed_times := 0 |> <| timedout := 0 |>) ;;
        modify (fun b => b <| global_good_nameservers := global_good_nameservers b + 1 |>)) Q b2).
  { intros b2 gone [Hb2 Hr2] He2 Ha2 Hdown Hg. destruct (proj2 (co_servers _ Hb2 s)) as [n2 En2]; [by apply (evolves_ring gone b b2)|].
    apply wp_bind, (wp_update_server _ _ n2); [done|]. apply wp_modify.
    set (n3 := n2 <| up := true |> <| failed_times := 0 |> <| timedout := 0 |>).
    pose proof (core_set_server b2 s n2 n3 Hb2 En2) as Hb3. rewrite (Hdown n2 En2) in Hb3. change (up n3) with true in Hb3. cbn [Z.b2z] in Hb3.
    rewrite Z.sub_0_r in Hb3.
    apply (HQ (set_server s n3 (global_good_nameservers b2 + 1) b2) gone); [| | done | done].
    - split; [done|]. apply (rest_set_server b2 s n2 _ _ x f None); [done | done | by right].
    - etrans; [done|]. apply (set_server_evolves b2 s n2); [done | by right]. }
  destruct (probe_request n) as [hp|] eqn:Hp; apply wp_bind.
  - assert (Es1 : servers b1 !! s = Some (n <| probe_timer := None |>)) by (cbn; by rewrite lookup_insert_eq).
    destruct (re_probe _ _ _ _ (proj2 Hi1) s _ hp Es1 Hp ltac:(done)) as [[hd Eh] [P1 _]].
    apply wp_bind, (evdns_cancel_ok Hmem b1 hp hd x f (Some s)); [| by apply Hx | done | | by apply (evolves_nonempty None b) |].
    { split; [apply Hi1 | by apply rest_weaken_cleared, Hi1]. }
    { intros r q s' Hc Eq Hcb. specialize (P1 hd r q Eh Hc Eq). congruence. }
    intros b2 Hi2 He2 Hf2 Ha2. assert (Hs2 : s ∈ server_head b2) by (rewrite <- (evolves_ring _ _ _ s He2); done).
    apply (update_server_ok _ _ _ x f (Some s) None); [done | done | done | left; by split; [|right] |].
    intros n2 En2 b3 Hi3 He3 Ha3. apply (Hlast b3 (Some hp)); [done | | | | by intros h [= ->]].
    + etrans; [apply He1|]. etrans; [done | apply He3].
    + etrans; [done|]. by etrans.
    + intros n3 En3. cbn in En3. rewrite lookup_insert_eq in En3. injection En3 as <-. cbn. apply (Hf2 s _ n2 Es1 En2). done.
  - apply wp_ret, (Hlast b1 None); [done | apply He1 | done | | done].
    intros n2 En2. cbn in En2. rewrite lookup_insert_eq in En2. by injection En2 as <-.
Qed.
End servers.

(** ** Changes of a handle's search *)

Definition set_handle (h : nat) (hd : evdns_request) (ss : gmap nat search) (b : evdns_base) : evdns_base :=
  b <| handles := <[h := hd]> (handles b) |> <| searches := ss |>.

Lemma set_handle_core b h hd hd' ss : core b -> handles b !! h = Some hd -> current_req hd' = current_req hd ->
  (forall m, searches b !! m = None -> ss !! m = None) -> core (set_handle h hd' ss b).
Proof.
  intros Hb Eh Hc Hss. pose proof (core_handles b (<[h := hd']> (handles b)) ss (next_id b) Hb) as H.
  cbn in H |- *. apply H; clear H; [| lia |].
  - intros r q k hk _ _ _ Ek Hck. destruct (decide (k = h)) as [->|Hne].
    + rewrite lookup_insert_eq. exists hd'. split; [done|]. congruence.
    + rewrite lookup_insert_ne by done. by exists hk.
  - intros m Hm. destruct (co_fresh _ Hb m Hm) as (_ & H2 & _ & H4). split; [|by apply Hss].
    rewrite lookup_insert_ne; [done | by intros ->; rewrite H2 in Eh].
Qed.

Lemma set_handle_inv b h hd hd' ss x f z : inv x f z b -> handles b !! h = Some hd ->
  current_req hd' = current_req hd -> pending_cb hd' = pending_cb hd -> (h ∈ x \/ search_state hd' = None \/ current_req hd <> None) ->
  (forall m, searches b !! m = None -> ss !! m = None) ->
  search_ok (<[h := hd']> (handles b)) ss (global_search_state b) -> inv x f z (set_handle h hd' ss b).
Proof.
  intros [Hb [Rs Rr Rd Rp Rse]] Eh Hc Hp Hs Hss Hse. split; [by apply (set_handle_core b h hd)|].
  assert (Hsome : forall k, is_Some (handles b !! k) -> is_Some (handles (set_handle h hd' ss b) !! k)).
  { intros k Hk. cbn. destruct (decide (k = h)) as [->|]; [by rewrite lookup_insert_eq | by rewrite lookup_insert_ne]. }
  split; [| done | | | done].
  - intros k hk Ek Hk. cbn in Ek. destruct (decide (k = h)) as [->|Hne].
    + rewrite lookup_insert_eq in Ek. injection Ek as <-. specialize (Rs h hd Eh Hk). unfold settled in *. rewrite Hc, Hp.
      destruct (current_req hd) as [r|]; [done|]. destruct Rs as (? & ? & ?). splits; [done | done|]. by destruct Hs as [?|[?|?]].
    + rewrite lookup_insert_ne in Ek by done. by apply (Rs k hk).
  - intros d Hd. destruct (Rd d Hd) as (? & ? & k & ? & ?). splits; [done | done|]. exists k. auto.
  - intros s n k En Hpr Hz. destruct (Rp s n k En Hpr Hz) as [? [P1 P2]]. split; [auto|]. split; [|done].
    intros hk r q Ek. cbn in Ek. destruct (decide (k = h)) as [->|Hne].
    + rewrite lookup_insert_eq in Ek. injection Ek as <-. rewrite Hc. by apply (P1 hd).
    + rewrite lookup_insert_ne in Ek by done. by apply (P1 hk).
Qed.

(** ** Transactions in flight *)

Lemma inflight_head b r q : core b -> r ∈ inflight b -> requests b !! r = Some q ->
  r ∈ list_at b (Inflight (head_index (req_heads b) (trans_id q))).
Proof.
  intros Hb Hr Eq. destruct (inflight_ns b r q Hb Hr Eq) as (s & Hs & _). pose proof (listed_head b r q Hb (inflight_listed _ _ Hr) Eq) as H.
  unfold head_of in H. by rewrite Hs in H.
Qed.

Lemma inflight_linked b r : core b -> r ∈ inflight b ->
  exists q h hd, requests b !! r = Some q /\ handle q = Some h /\ handles b !! h = Some hd /\ current_req hd = Some r.
Proof. intros Hb Hr. by apply (co_linked _ Hb), inflight_listed. Qed.

(** What is left of an operation for the ones that follow it. *)
Definition settles (b b' : evdns_base) : Prop := inv [] None None b' /\ same_answers b b' /\ server_head b' ≡ₚ server_head b.

Lemma evolves_settles gone b b' : inv [] None None b' -> evolves gone b b' -> same_answers b b' -> settles b b'.
Proof. intros H He Ha. split; [done|]. split; [done | apply He]. Qed.

Lemma settles_trans b b1 b2 : same_answers b b1 -> server_head b1 ≡ₚ server_head b -> settles b1 b2 -> settles b b2.
Proof. intros Ha Hr (Hi & Ha2 & Hr2). split; [done|]. split; by etrans. Qed.

Section replies.
Context {A : Arch} {M : Allocator} {E : ResolverEnv} (Hmem : mem_ok).

Lemma answer_request_ok b r ttl err rep (Q : unit -> evdns_base -> Prop) :
  inv [] None None b -> r ∈ inflight b -> err <> DNS_ERR_CANCEL -> server_head b <> [] ->
  (forall b', settles b b' -> Q tt b') -> wp (answer_request r ttl err rep) Q b.
Proof.
  intros Hi Hr Herr Hring HQ. destruct (inflight_linked b r (proj1 Hi) Hr) as (q & h & hd & Eq & Hh & Eh & Hc).
  unfold answer_request. apply wp_bind, (wp_the_request _ q); [done|].
  pose proof (answer_ok Hmem b r q h hd [] None None (Inflight (head_index (req_heads b) (trans_id q))) ttl err rep Q) as H.
  apply wp_bind, (wp_schedule Hmem _ _ q h hd); [done..|]. apply wp_bind. unfold REQ_HEAD, wp at 1.
  assert (Hfin : wp (reply_schedule_callback r ttl err rep ;; request_finished r (Inflight (head_index (req_heads b) (trans_id q))) true) Q b).
  { apply H; [done | by apply not_elem_of_nil | done | by apply inflight_head; [exact (proj1 Hi)| |] | done.. | auto | done |].
    intros b' Hb' He _ Ha. apply HQ. by apply (evolves_settles (Some h)). }
  unfold wp, bind in Hfin. pose proof (wp_schedule Hmem b r q h hd ttl err rep (fun _ b' => b' = scheduled b q h hd ttl err rep) Eq Hh Eh eq_refl) as Hs.
  unfold wp in Hs. destruct (reply_schedule_callback r ttl err rep b) as [[[] b1]|]; [|done]. by rewrite Hs in Hfin.
Qed.

Lemma server_answered_ok b r q h x f (Q : unit -> evdns_base -> Prop) :
  inv x f None b -> r ∈ inflight b -> requests b !! r = Some q -> handle q = Some h -> (forall k, k ∈ x -> k = h) -> server_head b <> [] ->
  (forall b' gone, inv x f None b' -> evolves gone b b' -> same_answers b b' -> gone <> Some h -> Q tt b') ->
  wp (server_answered r) Q b.
Proof.
  intros Hi Hr Eq Hh Hx Hring HQ. destruct (inflight_ns b r q (proj1 Hi) Hr Eq) as (s & Hs & Hsr).
  unfold server_answered. apply wp_bind, (wp_the_request _ q); [done|]. apply wp_bind, (wp_lift _ s); [done|].
  destruct (proj2 (co_servers _ (proj1 Hi) s) Hsr) as [n En]. apply wp_bind, (wp_the_server _ n); [done|].
  apply wp_bind, wp_when; intros Hp.
  - apply (update_server_ok _ _ _ x f None None); [done | done | done | by left; split; [|left] |].
    intros n0 En0 b1 Hi1 He1 Ha1. apply (nameserver_up_ok Hmem b1 s (n0 <| probe_request := None |>) x f);
      [done | by cbn; rewrite lookup_insert_eq | done | done |].
    intros b' gone Hi' He' Ha' Hg. apply (HQ b' gone); [done | by etrans; [apply He1|] | by etrans |]. intros ->. by specialize (Hg h eq_refl).
  - apply bool_decide_eq_false in Hp. apply (nameserver_up_ok Hmem b s n x f); [done | done | | done |].
    + intros hp Ehp Hin. apply Hp. rewrite Hh, Ehp. f_equal. symmetry. by apply Hx.
    + intros b' gone Hi' He' Ha' Hg. apply (HQ b' gone); [done..|]. intros ->. rewrite (Hg h eq_refl) in Hp. by rewrite Hh in Hp.
Qed.
End replies.
