(* ===== verification/DnsHandle.v ===== *)
(** The search for a name in several domains, and what the resolver does with a reply and
    with a time-out: a request in flight is answered, sent again or continued with another
    name; the invariant ([DnsInv]) and the number of answers to come are kept. *)

From stdpp Require Import gmap.
From S2P Require Import Prelude StateOp EvChain Evbuffer EvbufferSpec EvbufferProps EventData Cstring Inet UriCoding Dns DnsSpec DnsPacket DnsServer DnsWire DnsBase DnsResolver DnsResolverSpec DnsLists DnsInv DnsFinish DnsSubmit DnsReply.

(** ** The next request of a search *)

(** A request that is made but belongs to no handle yet. *)
Record spare (b : evdns_base) (r : nat) (q : request) : Prop := {
  sp_request : requests b !! r = Some q;
  sp_unlisted : r ∉ listed b;
  sp_handle : handle q = None }.

(** The spare request takes over the handle. *)
Definition taken (b : evdns_base) (h r : nat) (q : request) (hd : evdns_request) : evdns_base :=
  b <| handles := <[h := hd <| current_req := Some r |>]> (handles b) |> <| requests := <[r := q <| handle := Some h |>]> (requests b) |>.

Lemma taken_core b h r q hd : core b -> spare b r q -> handles b !! h = Some hd -> current_req hd = None -> (r < next_id b)%nat ->
  core (taken b h r q hd).
Proof.
  intros Hb [Eq Hl Hh] Eh Hc Hlt.
  pose proof (core_handles b (<[h := hd <| current_req := Some r |>]> (handles b)) (searches b) (next_id b) Hb) as H.
  assert (Hb1 : core (b <| handles := <[h := hd <| current_req := Some r |>]> (handles b) |>)).
  { cbn in H |- *. apply H; clear H; [| lia |].
    - intros k qk x hx _ _ _ Ex Hcx. destruct (decide (x = h)) as [->|Hne]; [congruence|]. rewrite lookup_insert_ne by done. by exists hx.
    - intros m Hm. destruct (co_fresh _ Hb m Hm) as (_ & H2 & _ & H4). split; [|done].
      rewrite lookup_insert_ne; [done | by intros ->; rewrite H2 in Eh]. }
  apply (core_new_request _ r (q <| handle := Some h |>) Hb1); [done | done|].
  destruct (co_request _ Hb r q Eq) as [H1 H2 H3]. by split.
Qed.

Lemma taken_rest b h r q hd z : rest [h] (Some r) z b -> spare b r q -> handles b !! h = Some hd -> current_req hd = None -> queued b h = 0 ->
  (forall k qk, handle qk = Some h -> requests b !! k = Some qk -> k ∈ listed b -> False) ->
  (forall s n, servers b !! s = Some n -> probe_request n = Some h -> user_callback q = Probe s) -> rest [h] (Some r) z (taken b h r q hd).
Proof.
  intros [Rs Rr Rd Rp Rse] [Eq Hl Hh] Eh Hc Hq Hother Hpr.
  assert (Hsome : forall k, is_Some (handles b !! k) -> is_Some (handles (taken b h r q hd) !! k)).
  { intros k Hk. cbn. destruct (decide (k = h)) as [->|]; [by rewrite lookup_insert_eq | by rewrite lookup_insert_ne]. }
  split.
  - intros k hk Ek Hk. rewrite list_elem_of_singleton in Hk. cbn in Ek. rewrite lookup_insert_ne in Ek by done.
    specialize (Rs k hk Ek ltac:(by rewrite list_elem_of_singleton)). unfold settled in *. destruct (current_req hk) as [r0|]; [|done].
    destruct Rs as (? & ? & ? & q0 & E0 & ?). splits; try done. exists q0. cbn. rewrite lookup_insert_ne; [done|]. intros ->. by apply Hl.
  - cbn. intros k qk Ek. destruct (decide (k = r)) as [->|Hne].
    + rewrite lookup_insert_eq in Ek. injection Ek as <-. cbn. apply (Rr r q Eq).
    + rewrite lookup_insert_ne in Ek by done. by apply (Rr k qk).
  - intros d Hd. destruct (Rd d Hd) as (? & ? & k & ? & ?). splits; [done | done|]. exists k. auto.
  - intros s n k En Hp Hz. destruct (Rp s n k En Hp Hz) as [? [P1 P2]]. split; [auto|]. split; [|done]. cbn.
    intros hk k2 q2 Ek Hck E2. destruct (decide (k2 = r)) as [->|Hne].
    + rewrite lookup_insert_eq in E2. injection E2 as <-. cbn. destruct (decide (k = h)) as [->|Hkh]; [by apply (Hpr s n)|].
      rewrite lookup_insert_ne in Ek by done. specialize (Rs k hk Ek ltac:(by rewrite list_elem_of_singleton)).
      unfold settled in Rs. rewrite Hck in Rs. destruct Rs as (_ & _ & Hk & _). by apply Hl in Hk.
    + rewrite lookup_insert_ne in E2 by done. destruct (decide (k = h)) as [->|Hkh].
      * rewrite lookup_insert_eq in Ek. injection Ek as <-. by injection Hck as ->.
      * rewrite lookup_insert_ne in Ek by done. by apply (P1 hk k2).
  - cbn. by apply (search_ok_update _ _ _ h hd).
Qed.

Lemma taken_outstanding b h r q hd c : spare b r q -> outstanding (taken b h r q hd) c = outstanding b c.
Proof.
  intros [Eq Hl Hh]. unfold outstanding. change (listed (taken b h r q hd)) with (listed b). f_equal.
  apply count_iff. intros k Hk. cbn. rewrite lookup_insert_ne; [done | by intros ->].
Qed.

Section search.
Context {A : Arch} {M : Allocator} {E : ResolverEnv} (Hmem : mem_ok).

Lemma submit_next_ok b h hd r q newreq qn (Q : Z -> evdns_base -> Prop) :
  inv [] (Some newreq) None b -> handles b !! h = Some hd -> current_req hd = Some r -> requests b !! r = Some q -> handle q = Some h ->
  r ∈ inflight b -> spare b newreq qn -> user_callback qn = user_callback q -> server_head b <> [] ->
  (forall b', settles b b' -> Q 0 b') -> wp (submit_next h r newreq) Q b.
Proof.
  intros [Hb Hr] Eh Hc Eq Hh Hin Hsp Hcb Hring HQ. unfold submit_next. apply wp_bind, (wp_the_request _ q); [done|].
  apply wp_bind. unfold REQ_HEAD, wp at 1. apply wp_bind.
  assert (Hne : newreq <> r) by (intros ->; apply (sp_unlisted _ _ _ Hsp); by apply inflight_listed).
  assert (Hlt : (newreq < next_id b)%nat).
  { destruct (decide (newreq < next_id b)%nat) as [|Hge]; [done|]. destruct (co_fresh _ Hb newreq ltac:(lia)) as [H1 _].
    by rewrite (sp_request _ _ _ Hsp) in H1. }
  apply (finish_keep_ok b _ r h q hd (Some newreq) None); [done | done | by split; [| apply inflight_head |..] | done |].
  intros b1 [Hb1 Hr1] He1 Eh1 Hq1 Hp1 Ho1 Hreq1 Hl1 Hn1.
  destruct (Hreq1 newreq qn (sp_request _ _ _ Hsp) Hne) as (qn1 & En1 & Hs1).
  assert (Hsp1 : spare b1 newreq qn1) by (split; [done | intros Hx%Hl1; by apply (sp_unlisted _ _ _ Hsp) | rewrite (sr_handle _ _ Hs1); apply Hsp]).
  apply wp_bind, (wp_update_handle _ _ (hd <| current_req := None |>)); [done|].
  apply wp_bind, (wp_update_request _ _ qn1); [done|].
  assert (Hc2 : core (taken b1 h newreq qn1 (hd <| current_req := None |>))) by by apply taken_core; [..|rewrite Hn1].
  assert (Hr2 : rest [h] (Some newreq) None (taken b1 h newreq qn1 (hd <| current_req := None |>))).
  { apply taken_rest; [done.. | |].
    - intros k qk Hhk Ek Hk. destruct (co_linked _ Hb1 k Hk) as (qk' & hk & hdk & Ek' & Hhk' & Ehk & Hck).
      rewrite Ek in Ek'. injection Ek' as <-. rewrite Hhk in Hhk'. injection Hhk' as <-. rewrite Eh1 in Ehk. by injection Ehk as <-.
    - intros s n En Hpn. destruct (ev_probe _ _ _ He1 s n En) as (n0 & En0 & [Hp0|Hp0]); [|congruence]. rewrite Hp0 in Hpn.
      destruct (re_probe _ _ _ _ Hr s n0 h En0 Hpn ltac:(done)) as [_ [P1 _]]. rewrite (sr_callback _ _ Hs1), Hcb. by apply (P1 hd r). }
  apply wp_bind, (request_submit_ok (taken b1 h newreq qn1 (hd <| current_req := None |>)) newreq h (qn1 <| handle := Some h |>)
    (hd <| current_req := None |> <| current_req := Some newreq |>) None).
  - by split.
  - split; [cbn; by rewrite lookup_insert_eq | apply Hsp1 | done | cbn; by rewrite lookup_insert_eq | done | done | done].
  - intros b2 Hi2 He2 Ho2 _ _. apply wp_ret, HQ. split; [done|]. split.
    + intros c. rewrite Ho2, taken_outstanding, Ho1 by done. cbn [user_callback]. rewrite <- Hcb, <- (sr_callback _ _ Hs1).
      change (user_callback (qn1 <| handle := Some h |>)) with (user_callback qn1). lia.
    + rewrite (ev_ring _ _ _ (He2 None)). change (server_head (taken _ _ _ _ _)) with (server_head b1). apply He1.
Qed.

(** The name with a domain can be made when there is a domain and the name is not empty. *)
Lemma wp_search_make_new s st n name b (Q : option (list Z) -> evdns_base -> Prop) :
  searches b !! s = Some st -> name <> [] -> (n < length (domains st))%nat -> (forall o, Q o b) -> wp (search_make_new s n name) Q b.
Proof.
  intros Es Hne Hn HQ. unfold search_make_new. apply wp_bind, (wp_the_search _ st); [done|].
  destruct (last name) as [c|] eqn:El; [|by apply last_None in El].
  destruct (lookup_lt_is_Some_2 (domains st) n Hn) as [d Ed].
  apply wp_bind, (wp_lift _ c); [done|]. apply wp_bind, (wp_lift _ d); [done|]. by apply wp_ret.
Qed.

Lemma known_type_byte t : known_type t -> wrap 8 t = t.
Proof. by intros [-> | [-> | ->]]. Qed.

(** A spare request is made for the next name. *)
Lemma spare_request_ok b r q name (Q : option nat -> evdns_base -> Prop) :
  inv [] None None b -> r ∈ inflight b -> requests b !! r = Some q ->
  (forall b', inv [] None None b' -> kept b b' -> Q None b') ->
  (forall newreq qn b', inv [] (Some newreq) None b' -> spare b' newreq qn -> user_callback qn = user_callback q -> handles b' = handles b ->
     searches b' = searches b -> requests b' !! r = Some q -> r ∈ inflight b' -> same_answers b b' -> server_head b' ≡ₚ server_head b ->
     Q (Some newreq) b') ->
  wp (request_new None (request_type q) name (user_callback q)) Q b.
Proof.
  intros Hi Hin Eq HN HS. pose proof Hi as [Hb Hr]. destruct (re_request _ _ _ _ Hr r q Eq) as (_ & Ht & Hcb).
  apply wp_request_new; [done | done | done | |].
  - intros b' Hsh. destruct (shuffled_kept b b' Hb Hsh) as [Hb' Hk]. apply HN; [by apply (kept_inv _ _ _ b) | done].
  - intros n qn b' Hm Hb' Hty. rewrite known_type_byte in Hty by done. destruct (made_fresh _ _ _ _ _ _ Hb Hm) as [Hf Hnl].
    destruct (made_listed _ _ _ _ _ _ Hm) as [_ Hinf]. apply (HS n qn).
    + split; [done|]. apply (made_rest None (user_callback q) b n qn b' []); [done.. | by rewrite Hty | done | | done].
      intros h. split; [done | by intros Hx%elem_of_nil].
    + split; [by rewrite (mk_request _ _ _ _ _ _ Hm), lookup_insert_eq | done | apply Hm].
    + apply Hm.
    + apply (mk_handles _ _ _ _ _ _ Hm).
    + apply Hm.
    + rewrite (mk_request _ _ _ _ _ _ Hm), lookup_insert_ne; [done|]. intros ->. by rewrite Hf in Eq.
    + by rewrite Hinf.
    + by apply (made_answers _ _ _ _ _ _ Hb Hm).
    + apply Hm.
Qed.

Lemma search_try_next_ok b h hd r q (Q : Z -> evdns_base -> Prop) :
  inv [] None None b -> r ∈ inflight b -> requests b !! r = Some q -> handle q = Some h -> handles b !! h = Some hd -> current_req hd = Some r ->
  server_head b <> [] -> (forall b', settles b b' -> Q 0 b') ->
  (forall b', settles b b' -> r ∈ inflight b' -> Q 1 b') -> wp (search_try_next h) Q b.
Proof.
  intros Hi Hin Eq Hh Eh Hc Hring H0 H1. pose proof (re_search _ _ _ _ (proj2 Hi)) as Hse. unfold search_try_next.
  apply wp_bind, (wp_the_handle _ hd); [done|]. apply wp_bind, (wp_lift _ r); [done|]. apply wp_bind, (wp_the_request _ q); [done|].
  destruct (search_state hd) as [s|] eqn:Es; [|by apply wp_ret, H1].
  destruct (se_handle _ _ _ Hse h hd s Eh Es) as ([st Est] & (o & Eo & Hne) & Hidx). destruct (se_refs _ _ _ Hse s st Est) as [_ Hnum].
  apply wp_bind, (wp_update_handle _ _ hd); [done|]. set (hd1 := hd <| search_index := search_index hd + 1 |>).
  set (b1 := set_handle h hd1 (searches b) b). change (b <| handles := _ |>) with b1.
  assert (Hse1 : search_ok (<[h := hd1]> (handles b)) (searches b) (global_search_state b)) by (apply (search_ok_update _ _ _ h hd); cbn; done || lia).
  assert (Hi1 : inv [] None None b1) by (apply (set_handle_inv b h hd); try done; right; right; congruence).
  assert (Eh1 : handles b1 !! h = Some hd1) by (cbn; by rewrite lookup_insert_eq).
  assert (Hfail : forall b', inv [] None None b' -> kept b1 b' -> Q 1 b').
  { intros b' Hi' Hk'. apply H1.
    - split; [done|]. split; [intros c; rewrite (kept_outstanding _ _ Hk'); done | apply (ke_ring _ _ Hk')].
    - by apply (ke_inflight _ _ Hk' r q). }
  assert (Hset : forall b', settles b1 b' -> Q 0 b') by (intros b' Hb'; apply H0; by apply (settles_trans b b1)).
  apply wp_bind, (wp_the_search _ st); [done|]. apply wp_bind, (wp_lift _ o); [done|].
  destruct (Z.leb_spec (num_domains st) (search_index hd + 1)) as [Hge|Hlt].
  - destruct (_ <? ndots st); [|by apply wp_ret, Hfail].
    apply wp_bind, (spare_request_ok b1 r q); [done..| |].
    + intros b' Hi' Hk'. by apply wp_ret, Hfail.
    + intros n qn b2 Hi2 Hsp Hcb Hhs2 Hss2 Er2 Hin2 Ha2 Hr2. rewrite <- Hhs2 in Eh1.
      pose proof (re_search _ _ _ _ (proj2 Hi2)) as Hse2.
      apply wp_bind, (wp_search_request_finished _ hd1); [done | done |].
      set (hd2 := hd1 <| search_state := None |> <| search_origname := None |>).
      assert (Hi3 : inv [] (Some n) None (set_handle h hd2 (released (searches b2) (search_state hd1)) b2)).
      { apply (set_handle_inv b2 h hd1); [done.. | right; by left | intros; by apply released_none | by apply search_ok_release]. }
      apply (submit_next_ok (set_handle h hd2 (released (searches b2) (search_state hd1)) b2) h hd2 r q n qn);
        [done | cbn; by rewrite lookup_insert_eq | done | done | done | done | | done | |].
      * destruct Hsp. by split.
      * intros Hnil. apply Hring. change (server_head b2 = []) in Hnil. rewrite Hnil in Hr2. by apply Permutation_nil in Hr2.
      * intros b' (Hb' & Ha' & Hr'). apply Hset. split; [done|]. split; [intros c; rewrite Ha'; apply Ha2 | rewrite Hr'; apply Hr2].
  - apply wp_bind, wp_assert; [apply Z.leb_le; lia|].
    apply wp_bind, (wp_search_make_new s st); [done | done | rewrite Hnum in Hlt; unfold zlen in Hlt; lia |]. intros [name|]; [|by apply wp_ret, Hfail].
    apply wp_bind, (spare_request_ok b1 r q); [done..| |].
    + intros b' Hi' Hk'. by apply wp_ret, Hfail.
    + intros n qn b2 Hi2 Hsp Hcb Hhs2 Hss2 Er2 Hin2 Ha2 Hr2. rewrite <- Hhs2 in Eh1.
      apply (submit_next_ok b2 h hd1 r q n qn); [done.. | |].
      * intros Hnil. apply Hring. rewrite Hnil in Hr2. by apply Permutation_nil in Hr2.
      * intros b' (Hb' & Ha' & Hr'). apply Hset. split; [done|]. split; [intros c; rewrite Ha'; apply Ha2 | rewrite Hr'; apply Hr2].
Qed.
End search.

Lemma settles_refl b : inv [] None None b -> settles b b.
Proof. intros H. by split. Qed.

Lemma kept_settles b b' : inv [] None None b -> core b' -> kept b b' -> settles b b'.
Proof.
  intros Hi Hc Hk. apply (evolves_settles None); [by apply (kept_inv _ _ _ b) | by apply kept_evolves | intros c; by apply kept_outstanding].
Qed.

Lemma settles_nonempty b b' : settles b b' -> server_head b <> [] -> server_head b' <> [].
Proof. intros (_ & _ & Hp) Hne H0. rewrite H0 in Hp. by apply Permutation_nil in Hp. Qed.

(** A request that has a server may be given another one. *)
Lemma core_change_ns b r q q' : core b -> r ∈ inflight b -> requests b !! r = Some q -> same_request q q' -> trans_id q' = trans_id q ->
  ns q' <> None -> (forall s, ns q' = Some s -> s ∈ server_head b) ->
  core (b <| requests := <[r := q']> (requests b) |>) /\ kept b (b <| requests := <[r := q']> (requests b) |>).
Proof.
  intros Hb Hr Eq Hs Hid Hne Hin. apply (core_update_request b r q q'); [done.. | | done].
  destruct (inflight_ns b r q Hb Hr Eq) as (s & Hs' & _). rewrite Hs'. by split.
Qed.

Lemma reply_error_not_cancel flags r : reply_error flags r <> DNS_ERR_CANCEL.
Proof.
  unfold reply_error. destruct (negb _); [done|]. destruct (negb _).
  - destruct (Z.ltb_spec 4 (Z.land flags 0x000f - 1)); [done|].
    destruct (Z.to_nat (Z.land flags 15 - 1)) as [|[|[|[|[|k]]]]]; by try (destruct k).
  - destruct r as [r|]; [|done]. by destruct (negb _).
Qed.

Section handle.
Context {A : Arch} {M : Allocator} {E : ResolverEnv} (Hmem : mem_ok).

Lemma request_reissue_ok b r (Q : Z -> evdns_base -> Prop) :
  core b -> r ∈ inflight b -> server_head b <> [] ->
  (forall c b', core b' -> kept b b' -> Q c b') -> wp (request_reissue r) Q b.
Proof.
  intros Hb Hr Hring HQ. destruct (inflight_linked b r Hb Hr) as (q & h & hd & Eq & Hh & Eh & Hc).
  unfold request_reissue. apply wp_bind, wp_assert_valid; [by apply (co_linked _ Hb), inflight_listed|].
  apply wp_bind, (wp_the_request _ q); [done|]. apply wp_bind, nameserver_pick_ok; [by apply core_ring_ok|]. intros o ring Hp Hnone Hin.
  destruct o as [s|]; [|by destruct Hring; apply Hnone]. specialize (Hin s eq_refl).
  destruct (core_ring b ring Hb Hp) as [Hb1 Hk1].
  destruct (core_change_ns _ r q (q <| ns := Some s |>) Hb1 Hr Eq) as [Hb2 Hk2]; [by split | done | done | cbn; by intros x [= <-]; rewrite Hp|].
  apply wp_bind, (wp_update_request _ _ q); [done|]. case_bool_decide; [apply wp_ret, HQ; [done | by etrans]|].
  set (q1 := q <| ns := Some s |>) in *.
  destruct (core_change_ns _ r q1 (q1 <| reissue_count := reissue_count q1 + 1 |> <| tx_count := 0 |> <| transmit_me := true |>) Hb2 Hr) as [Hb3 Hk3];
    [by cbn; rewrite lookup_insert_eq | by split | done | done | cbn; by intros x [= <-]; rewrite Hp |].
  apply wp_bind, (wp_update_request _ _ q1); [by cbn; rewrite lookup_insert_eq|]. apply wp_ret, HQ; [done|]. etrans; [exact Hk1|]. by etrans.
Qed.

(** The request stays in flight, whatever the error means for the server. *)
Lemma error_for_server_ok b r error (Q : bool -> evdns_base -> Prop) :
  inv [] None None b -> r ∈ inflight b -> server_head b <> [] ->
  (forall c b', settles b b' -> r ∈ inflight b' -> Q c b') -> wp (error_for_server r error) Q b.
Proof.
  intros Hi Hr Hring HQ. destruct (inflight_linked b r (proj1 Hi) Hr) as (q & h & hd & Eq & Hh & Eh & Hc).
  unfold error_for_server. apply wp_bind, (wp_the_request _ q); [done|]. destruct (_ || _).
  - apply wp_bind, wp_asks. destruct (_ <? _); [|apply wp_ret, HQ; [by apply settles_refl | done]].
    destruct (inflight_ns b r q (proj1 Hi) Hr Eq) as (s & Hs & Hsr). apply wp_bind, (wp_lift _ s); [done|].
    apply wp_bind, nameserver_failed_ok; [apply Hi | done|]. intros b1 Hb1 [Hk1 Hl1 Hw1].
    assert (Hr1 : r ∈ inflight b1) by (unfold inflight; by rewrite Hl1).
    apply wp_bind, request_reissue_ok; [done | done | by apply (kept_ring b) |]. intros c b2 Hb2 Hk2.
    apply wp_ret, HQ; [apply kept_settles; [done | done | by etrans]|].
    destruct (listed_request b1 r Hb1 (inflight_listed _ _ Hr1)) as [q1 E1]. by apply (ke_inflight _ _ Hk2 r q1).
  - destruct (_ =? _); [apply wp_ret, HQ; [by apply settles_refl | done]|].
    apply wp_bind, (server_answered_ok Hmem b r q h [] None); [done.. | by intros k Hk%elem_of_nil | done |].
    intros b1 gone Hi1 He1 Ha1 Hg. apply wp_ret, HQ; [by apply (evolves_settles gone)|]. apply (ev_inflight _ _ _ He1 r q); [done | done | congruence].
Qed.

(** The answer of a server is a callback and the end of the request. *)
Lemma reply_answered_ok b r ttl rep (Q : unit -> evdns_base -> Prop) :
  inv [] None None b -> r ∈ inflight b -> server_head b <> [] -> (forall b', settles b b' -> Q tt b') ->
  wp (let! q := the_request r in reply_schedule_callback r ttl 0 rep ;; server_answered r ;;
      let! head := REQ_HEAD (trans_id q) in request_finished r head true) Q b.
Proof.
  intros Hi Hr Hring HQ. destruct (inflight_linked b r (proj1 Hi) Hr) as (q & h & hd & Eq & Hh & Eh & Hc).
  pose proof (re_settled _ _ _ _ (proj2 Hi) h hd Eh (not_elem_of_nil _)) as Hset. unfold settled in Hset. rewrite Hc in Hset.
  destruct Hset as (Hp & Hq0 & _). apply wp_bind, (wp_the_request _ q); [done|].
  apply wp_bind, (wp_schedule Hmem _ _ q h hd); [done..|]. set (b1 := scheduled b q h hd ttl 0 rep).
  assert (Hi1 : inv [h] None None b1).
  { split; [apply scheduled_core; [apply Hi | done] | apply (scheduled_rest b r); [apply Hi | done.. | by left]]. }
  apply wp_bind, (server_answered_ok Hmem b1 r q h [h] None); [done | done | done | done | by intros k Hk%list_elem_of_singleton | done |].
  intros b2 gone Hi2 He2 Ha2 Hg. destruct (ev_inflight _ _ _ He2 r q Hr Eq ltac:(congruence)) as (Hr2 & q2 & E2 & Hs2 & Hid2).
  destruct (ev_handle _ _ _ He2 h ltac:(congruence)) as [Eh2 Hq2]. cbn in Eh2. rewrite lookup_insert_eq in Eh2.
  unfold b1 in Hq2. rewrite scheduled_queued, bool_decide_true in Hq2 by done. cbn [Z.b2z] in Hq2.
  apply wp_bind. unfold REQ_HEAD, wp at 1. rewrite <- Hid2.
  apply (finish_ok b2 _ r h q2 (hd <| pending_cb := true |>) [] None None); [apply Hi2 | apply Hi2 | | done | lia | by apply (evolves_nonempty gone b1) |].
  { split; [done | by apply inflight_head; [apply Hi2|..] | by rewrite (sr_handle _ _ Hs2) | done | done]. }
  intros b3 Hi3 He3 _ Ho3. apply HQ. split; [done|]. split.
  - intros c. rewrite Ho3, Ha2. unfold b1. rewrite scheduled_outstanding, (sr_callback _ _ Hs2). lia.
  - rewrite (ev_ring _ _ _ He3). apply (ev_ring _ _ _ He2).
Qed.

Lemma reply_handle_ok b r flags ttl rep (Q : unit -> evdns_base -> Prop) :
  inv [] None None b -> r ∈ inflight b -> server_head b <> [] -> (forall b', settles b b' -> Q tt b') ->
  wp (reply_handle r flags ttl rep) Q b.
Proof.
  intros Hi Hr Hring HQ. unfold reply_handle. apply wp_bind, wp_assert_valid; [by apply (co_linked _ (proj1 Hi)), inflight_listed|].
  destruct (_ || _); [|by apply reply_answered_ok].
  apply wp_bind, error_for_server_ok; [done..|]. intros again b1 Hs1 Hr1. destruct again; [by apply wp_ret, HQ|].
  pose proof Hs1 as (Hi1 & Ha1 & Hp1). pose proof (settles_nonempty _ _ Hs1 Hring) as Hring1.
  destruct (inflight_linked b1 r (proj1 Hi1) Hr1) as (q & h & hd & Eq & Hh & Eh & Hc).
  apply wp_bind, (wp_the_request _ q); [done|]. apply wp_bind, (wp_lift _ h); [done|]. apply wp_bind, (wp_the_handle _ hd); [done|].
  assert (Hanswer : forall b2, settles b1 b2 -> r ∈ inflight b2 -> wp (answer_request r ttl (reply_error flags rep) None) Q b2).
  { intros b2 Hs2 Hr2. apply (answer_request_ok Hmem); [apply Hs2 | done | apply reply_error_not_cancel | by apply (settles_nonempty b1) |].
    intros b3 Hs3. apply HQ. apply (settles_trans b b1); [done | done|]. by apply (settles_trans b1 b2); [apply Hs2..|]. }
  apply wp_bind. assert (Htry : wp (search_try_next h) (fun c b' => wp (if c =? 0 then ret tt else answer_request r ttl (reply_error flags rep) None) Q b') b1).
  { apply (search_try_next_ok Hmem b1 h hd r q); [done.. | |].
    - intros b2 Hs2. apply wp_ret, HQ. by apply (settles_trans b b1).
    - intros b2 Hs2 Hr2. by apply Hanswer. }
  assert (Hnot : wp (ret 1) (fun c b' => wp (if c =? 0 then ret tt else answer_request r ttl (reply_error flags rep) None) Q b') b1).
  { apply wp_ret, Hanswer; [by apply settles_refl | done]. }
  destruct (search_state hd); [|done]. by destruct (negb _).
Qed.

Lemma timeout_ok b r (Q : unit -> evdns_base -> Prop) :
  inv [] None None b -> r ∈ inflight b -> server_head b <> [] -> (forall b', settles b b' -> Q tt b') ->
  wp (evdns_request_timeout_callback r) Q b.
Proof.
  intros Hi Hr Hring HQ. destruct (inflight_linked b r (proj1 Hi) Hr) as (q0 & h & hd & E0 & Hh & Eh & Hc).
  unfold evdns_request_timeout_callback. apply wp_bind, (wp_update_request _ _ q0); [done|]. set (q := q0 <| timeout_event := false |>).
  destruct (inflight_ns b r q0 (proj1 Hi) Hr E0) as (s & Hs & Hsr).
  destruct (core_change_ns b r q0 q (proj1 Hi) Hr E0) as [Hb1 Hk1]; [by split | done | cbn; by rewrite Hs | cbn; by rewrite Hs; intros x [= <-]|].
  pose proof (kept_settles _ _ Hi Hb1 Hk1) as Hs1. revert Hs1. set (b1 := b <| requests := <[r := q]> (requests b) |>). intros Hs1.
  apply wp_bind, (wp_the_request _ q); [by cbn; rewrite lookup_insert_eq|]. apply wp_bind, (wp_lift _ s); [done|].
  apply wp_bind, (update_server_ok _ _ _ [] None None None); [apply Hs1 | done | done | by right |]. intros n0 En0 b2 Hi2 He2 Ha2.
  assert (Hs2 : settles b b2) by by apply (settles_trans b b1); [apply Hs1..|apply (evolves_settles None)].
  apply wp_bind, (wp_the_server _ (n0 <| timedout := timedout n0 + 1 |>)); [by cbn; rewrite lookup_insert_eq|].
  apply wp_bind, wp_asks. apply wp_bind.
  assert (Hlast : forall b3, settles b b3 -> r ∈ inflight b3 ->
     wp (let! retransmits := asks global_max_retransmits in
         if retransmits <=? tx_count q then answer_request r 0 DNS_ERR_TIMEOUT None else
         let! new_ns := nameserver_pick in
         match new_ns with Some s => update_request r (fun q => q <| ns := Some s |>) | None => ret tt end ;;
         let! _ := evdns_request_transmit r in ret tt) Q b3).
  { intros b3 Hs3 Hr3. apply wp_bind, wp_asks. destruct (_ <=? _).
    - apply (answer_request_ok Hmem); [apply Hs3 | done | done | by apply (settles_nonempty b) |].
      intros b4 Hs4. apply HQ. by apply (settles_trans b b3); [apply Hs3..|].
    - apply wp_bind, nameserver_pick_ok; [apply core_ring_ok, Hs3|]. intros o ring Hp _ Hin.
      destruct (core_ring b3 ring (proj1 (proj1 Hs3)) Hp) as [Hb4 Hk4]. apply wp_bind.
      assert (Hsend : forall b5, core b5 -> kept b3 b5 -> r ∈ inflight b5 -> wp (let! _ := evdns_request_transmit r in ret tt) Q b5).
      { intros b5 Hb5 Hk5 Hr5. apply wp_bind, transmit_ok; [done | done|]. intros c b6 Hb6 [Hk6 _ _]. apply wp_ret, HQ.
        apply (settles_trans b b3); [apply Hs3..|]. apply kept_settles; [apply Hs3 | done | by etrans]. }
      destruct o as [s'|]; [|by apply wp_ret, Hsend].
      destruct (listed_request b3 r (proj1 (proj1 Hs3)) (inflight_listed _ _ Hr3)) as [q3 E3].
      destruct (core_change_ns _ r q3 (q3 <| ns := Some s' |>) Hb4 Hr3 E3) as [Hb5 Hk5];
        [by split | done | done | cbn; intros x [= <-]; rewrite Hp; by apply Hin |].
      apply (wp_update_request _ _ q3); [done|]. apply Hsend; [done | by etrans | done]. }
  apply wp_when; intros _; [|by apply Hlast].
  apply wp_bind, (update_server_ok _ _ _ [] None None None); [done | done | done | by right |]. intros n2 En2 b3 Hi3 He3 Ha3.
  apply nameserver_failed_ok; [apply Hi3 | done |]. intros b4 Hb4 [Hk4 Hl4 Hw4]. apply Hlast.
  - apply (settles_trans b b2); [apply Hs2..|]. apply (settles_trans b2 b3); [done | done|]. by apply kept_settles.
  - unfold inflight. by rewrite Hl4.
Qed.
End handle.
