(* ===== verification/DnsLookup.v ===== *)
(** Lookups of the application and probes of name servers: a handle is made, its first
    request is made and submitted, or the handle is released again; the invariant
    ([DnsInv]) is kept. *)

From stdpp Require Import gmap.
From S2P Require Import Prelude StateOp EvChain Cstring UriCoding Inet EventData Evbuffer EvbufferSpec EvbufferProps Dns DnsSpec DnsPacket DnsServer DnsWire DnsBase DnsResolver DnsResolverSpec DnsLists DnsInv DnsFinish DnsSubmit DnsReply DnsHandle.

(** ** New handles *)

Definition blank : evdns_request :=
  {| current_req := None; pending_cb := false; search_index := 0; search_state := None; search_origname := None; search_flags := 0 |}.

Definition with_blank (b : evdns_base) : evdns_base :=
  b <| next_id := S (next_id b) |> <| handles := <[next_id b := blank]> (handles b) |>.

Lemma search_ok_new hs ss global h hd : search_ok hs ss global -> hs !! h = None -> search_state hd = None -> search_ok (<[h := hd]> hs) ss global.
Proof.
  intros [H1 H2 H3] Eh Hs. split; [| |done].
  - intros k hk s Ek. destruct (decide (k = h)) as [->|]; [rewrite lookup_insert_eq in Ek; injection Ek as <-; by rewrite Hs|].
    rewrite lookup_insert_ne in Ek by done. by apply (H1 k hk).
  - intros s st Est. unfold refs. rewrite handle_refs_new, Hs, bool_decide_false by done. cbn [Z.b2z].
    destruct (H2 s st Est) as [-> ->]. unfold refs. split; [lia | done].
Qed.

Lemma queued_none b h : (forall d, d ∈ deferred b -> d_handle d <> Some h) -> queued b h = 0.
Proof.
  intros H. unfold queued, count. destruct (filter _ (deferred b)) as [|d l] eqn:Ef; [done|].
  assert (Hd : d ∈ filter (fun d => d_handle d = Some h) (deferred b)) by (rewrite Ef; left).
  apply list_elem_of_filter in Hd as [Hh Hd]. by destruct (H d Hd).
Qed.

Lemma fresh_unqueued x f b h : rest x f None b -> handles b !! h = None -> queued b h = 0 /\ no_probe b h.
Proof.
  intros [Rs Rr Rd Rp Rse] Eh. split.
  - apply queued_none. intros d Hd Hh. destruct (Rd d Hd) as (_ & _ & k & Hk & [hk Ek]). rewrite Hh in Hk. injection Hk as <-.
    by rewrite Eh in Ek.
  - intros s n En Hp. destruct (Rp s n h En Hp ltac:(done)) as [[hd E] _]. by rewrite Eh in E.
Qed.

Lemma with_blank_inv b : inv [] None None b -> inv [next_id b] None None (with_blank b).
Proof.
  intros [Hb [Rs Rr Rd Rp Rse]]. destruct (co_fresh _ Hb (next_id b) ltac:(lia)) as (_ & Hn & _).
  assert (Hsome : forall k, is_Some (handles b !! k) -> is_Some (handles (with_blank b) !! k)).
  { intros k Hk. cbn. destruct (decide (k = next_id b)) as [->|]; [by rewrite lookup_insert_eq | by rewrite lookup_insert_ne]. }
  assert (Hold : forall k hk, handles (with_blank b) !! k = Some hk -> k <> next_id b -> handles b !! k = Some hk).
  { cbn. intros k hk Ek Hne. by rewrite lookup_insert_ne in Ek. }
  split.
  - pose proof (core_handles b (<[next_id b := blank]> (handles b)) (searches b) (S (next_id b)) Hb) as H.
    cbn in H |- *. apply H; clear H; [| lia |].
    + intros r q k hk _ _ _ Ek Hck. exists hk. rewrite lookup_insert_ne; [done | congruence].
    + intros m Hm. destruct (co_fresh _ Hb m ltac:(lia)) as (_ & H2 & _ & H4). split; [|done]. rewrite lookup_insert_ne; [done | lia].
  - split; [| done | | |].
    + intros k hk Ek Hk. rewrite list_elem_of_singleton in Hk. apply Rs; [by apply Hold | by apply not_elem_of_nil].
    + intros d Hd. destruct (Rd d Hd) as (? & ? & k & ? & ?). splits; [done | done|]. exists k. auto.
    + intros s n k En Hp Hz. destruct (Rp s n k En Hp Hz) as [? [P1 P2]]. split; [auto|]. split; [|done].
      intros hk r q Ek Hck. destruct (decide (k = next_id b)) as [->|Hne].
      * cbn in Ek. rewrite lookup_insert_eq in Ek. by injection Ek as <-.
      * apply Hold in Ek; [|done]. by apply (P1 hk).
    + cbn. by apply search_ok_new.
Qed.

(** ** Releasing a handle *)

Definition without_handle (h : nat) (b : evdns_base) : evdns_base := b <| handles := delete h (handles b) |>.

Lemma without_handle_inv b h hd : inv [h] None None b -> handles b !! h = Some hd -> current_req hd = None -> search_state hd = None ->
  queued b h = 0 -> no_probe b h -> inv [] None None (without_handle h b).
Proof.
  intros [Hb [Rs Rr Rd Rp Rse]] Eh Hc Hs Hq Hnp.
  assert (Hold : forall k hk, handles (without_handle h b) !! k = Some hk -> handles b !! k = Some hk /\ k <> h).
  { cbn. intros k hk Ek. apply lookup_delete_Some in Ek as [? ?]. done. }
  assert (Hkeep : forall k, k <> h -> is_Some (handles b !! k) -> is_Some (handles (without_handle h b) !! k)).
  { intros k Hne Hk. cbn. by rewrite lookup_delete_ne. }
  split.
  - pose proof (core_handles b (delete h (handles b)) (searches b) (next_id b) Hb) as H.
    cbn in H |- *. apply H; clear H; [| lia |].
    + intros r q k hk _ _ _ Ek Hck. exists hk. rewrite lookup_delete_ne; [done | congruence].
    + intros m Hm. destruct (co_fresh _ Hb m Hm) as (_ & H2 & _ & H4). split; [|done]. apply lookup_delete_None. by right.
  - split; [| done | | |].
    + intros k hk Ek _. apply Hold in Ek as [Ek Hne]. apply Rs; [done | by rewrite list_elem_of_singleton].
    + intros d Hd. destruct (Rd d Hd) as (? & ? & k & Hk & ?). splits; [done | done|]. exists k. split; [done|]. apply Hkeep; [|done].
      intros ->. by apply (count_0 _ _ d Hq).
    + intros s n k En Hp Hz. destruct (Rp s n k En Hp Hz) as [? [P1 P2]]. split; [apply Hkeep; [|done]; intros ->; by apply (Hnp s n)|].
      split; [|done]. intros hk r q Ek. apply Hold in Ek as [Ek _]. by apply (P1 hk).
    + cbn. destruct Rse as [H1 H2 H3]. split; [|intros s st Est | done].
      * intros k hk s Ek. apply lookup_delete_Some in Ek as [_ Ek]. by apply (H1 k hk).
      * destruct (H2 s st Est) as [-> ->]. split; [|done]. unfold refs. rewrite (handle_refs_delete _ h hd), Hs, bool_decide_false by done.
        cbn [Z.b2z]. lia.
Qed.

(** ** The first request of a handle *)

(** A handle without a request. *)
Record idle_handle (b : evdns_base) (h : nat) (hd : evdns_request) : Prop := {
  ih_handle : handles b !! h = Some hd;
  ih_current : current_req hd = None;
  ih_pending : pending_cb hd = false;
  ih_search : search_state hd = None;
  ih_origname : search_origname hd = None;
  ih_queued : queued b h = 0;
  ih_probe : no_probe b h }.

Lemma with_blank_idle b : inv [] None None b -> idle_handle (with_blank b) (next_id b) blank.
Proof.
  intros [Hb Hr]. destruct (co_fresh _ Hb (next_id b) ltac:(lia)) as (_ & Hn & _).
  destruct (fresh_unqueued _ _ _ _ Hr Hn) as [Hq Hp]. split; try done. cbn. by rewrite lookup_insert_eq.
Qed.

Lemma kept_no_probe b b' h : kept b b' -> no_probe b h -> no_probe b' h.
Proof.
  intros Hk Hn s n' En Hp. destruct (ev_probe _ _ _ (kept_evolves None _ _ Hk) s n' En) as (n & E & [H|H]); [|congruence].
  apply (Hn s n E). by rewrite <- H.
Qed.

Lemma kept_idle b b' h hd : kept b b' -> idle_handle b h hd -> idle_handle b' h hd.
Proof.
  intros Hk []. split; try done; [by rewrite (ke_handles _ _ Hk) | by rewrite (kept_queued _ _ _ Hk) | by apply (kept_no_probe b)].
Qed.

(** The lookup has begun: the handle is in progress, and there is one more answer to come. *)
Record started (b : evdns_base) (h : nat) (cb : dns_callback) (b' : evdns_base) : Prop := {
  st_inv : inv [] None None b';
  st_handle : exists hd r, handles b' !! h = Some hd /\ current_req hd = Some r;
  st_answers : forall c, outstanding b' c = outstanding b c + Z.b2z (bool_decide (cb = c));
  st_ring : server_head b' ≡ₚ server_head b }.

Section lookup.
Context {A : Arch} {M : Allocator} {E : ResolverEnv} (Hmem : mem_ok).

Lemma wp_new_handle b (Q : option nat -> evdns_base -> Prop) :
  Q (Some (next_id b)) (with_blank b) -> wp new_handle Q b.
Proof.
  intros HQ. unfold new_handle. destruct (mm_malloc _) eqn:Em; [|by apply Hmem in Em].
  apply wp_bind. unfold new_id, wp at 1. apply wp_bind, wp_modify. by apply wp_ret.
Qed.

Lemma new_request_ok b h hd type name cb (Q : option nat -> evdns_base -> Prop) :
  inv [h] None None b -> idle_handle b h hd -> known_type type -> known_callback b cb ->
  (forall b', inv [h] None None b' -> kept b b' -> Q None b') ->
  (forall r q b', inv [h] (Some r) None b' -> ready b' r h q (hd <| current_req := Some r |>) -> user_callback q = cb -> same_answers b b' ->
     server_head b' ≡ₚ server_head b -> no_probe b' h -> searches b' = searches b -> global_search_state b' = global_search_state b ->
     inflight b' = inflight b -> request_ok (server_head b') q -> Q (Some r) b') ->
  wp (request_new (Some h) type name cb) Q b.
Proof.
  intros [Hb Hr] Hh Ht Hcb HN HS. assert (Hidle : idle b (Some h)) by (intros k [= <-]; exists hd; split; apply Hh).
  apply wp_request_new; [done | done | done | |].
  - intros b' Hsh. destruct (shuffled_kept b b' Hb Hsh) as [Hb' Hk]. apply HN; [by apply (kept_inv _ _ _ b) | done].
  - intros r q b' Hm Hb' Hty. rewrite known_type_byte in Hty by done. destruct (made_fresh _ _ _ _ _ _ Hb Hm) as [Hf Hnl].
    apply (HS r q).
    + split; [done|]. apply (made_rest (Some h) cb b r q b' [h]); [done.. | by rewrite Hty | done | |].
      * intros k. rewrite list_elem_of_singleton. split; congruence.
      * intros k [= <-]. apply Hh.
    + split; [by rewrite (mk_request _ _ _ _ _ _ Hm), lookup_insert_eq | done | apply Hm | | done | apply Hh |].
      * rewrite (mk_handles _ _ _ _ _ _ Hm), lookup_alter_eq, (ih_handle _ _ _ Hh). done.
      * rewrite (made_queued _ _ _ _ _ _ _ Hm). apply Hh.
    + apply Hm.
    + by apply (made_answers _ _ _ _ _ _ Hb Hm).
    + apply Hm.
    + intros s n. rewrite (mk_servers _ _ _ _ _ _ Hm). apply Hh.
    + apply Hm.
    + apply Hm.
    + by destruct (made_listed _ _ _ _ _ _ Hm).
    + apply (co_request _ Hb' r). by rewrite (mk_request _ _ _ _ _ _ Hm), lookup_insert_eq.
Qed.

(** A request that is submitted starts the lookup. *)
Lemma submit_started b b1 r h q hd cb (Q : unit -> evdns_base -> Prop) :
  inv [h] (Some r) None b1 -> ready b1 r h q hd -> user_callback q = cb -> same_answers b b1 -> server_head b1 ≡ₚ server_head b ->
  (forall b', started b h cb b' -> Q tt b') -> wp (request_submit r) Q b1.
Proof.
  intros Hi Hrd Hcb Ha Hp HQ. apply (request_submit_ok b1 r h q hd None); [done | done|].
  intros b2 Hi2 He2 Ho2 Hh2 _. apply HQ. split; [done | | |].
  - rewrite Hh2. exists hd, r. split; apply Hrd.
  - intros c. by rewrite Ho2, Ha, Hcb.
  - rewrite (ev_ring _ _ _ (He2 None)). done.
Qed.

Lemma submit_new_ok b h hd type name cb (Q : unit -> evdns_base -> Prop) :
  inv [h] None None b -> idle_handle b h hd -> known_type type -> known_callback b cb ->
  (forall b', inv [h] None None b' -> kept b b' -> Q tt b') -> (forall b', started b h cb b' -> Q tt b') ->
  wp (submit_new h type name cb) Q b.
Proof.
  intros Hi Hh Ht Hcb HN HS. unfold submit_new. apply wp_bind, (new_request_ok b h hd); [done.. | |].
  - intros b' Hi' Hk'. by apply wp_ret, HN.
  - intros r q b' Hi' Hrd Hq Ha Hp _ _ _ _ _. by apply (submit_started b b' r h q (hd <| current_req := Some r |>) cb).
Qed.

(** The search state that the handle takes gets one more reference. *)
Lemma search_ok_acquire hs ss global h hd hd' s st name : search_ok hs ss global -> hs !! h = Some hd -> search_state hd = None ->
  global = Some s -> ss !! s = Some st -> search_state hd' = Some s -> search_origname hd' = Some name -> name <> [] -> -1 <= search_index hd' ->
  search_ok (<[h := hd']> hs) (<[s := st <| ss_refcount := ss_refcount st + 1 |>]> ss) global.
Proof.
  intros [H1 H2 H3] Eh Hn -> Es Hs' Ho' Hne Hi'.
  assert (Hsome : forall k, is_Some (ss !! k) -> is_Some (<[s := st <| ss_refcount := ss_refcount st + 1 |>]> ss !! k)).
  { intros k Hk. destruct (decide (k = s)) as [->|]; [by rewrite lookup_insert_eq | by rewrite lookup_insert_ne]. }
  split.
  - intros k hk x Ek Ex. destruct (decide (k = h)) as [->|Hne'].
    + rewrite lookup_insert_eq in Ek. injection Ek as <-. rewrite Hs' in Ex. injection Ex as <-.
      splits; [apply Hsome; by exists st | by exists name | done].
    + rewrite lookup_insert_ne in Ek by done. destruct (H1 k hk x Ek Ex) as (? & ? & ?). auto.
  - intros x sx Ex. unfold refs. rewrite (handle_refs_update _ _ hd), Hn, Hs' by done. rewrite (bool_decide_false (None = Some x)) by done.
    destruct (decide (x = s)) as [->|Hne'].
    + rewrite lookup_insert_eq in Ex. injection Ex as <-. destruct (H2 s st Es) as [Hr Hd]. split; [|done].
      change (ss_refcount (st <| ss_refcount := ?v |>)) with v. rewrite Hr. unfold refs. rewrite (bool_decide_true (Some s = Some s)) by done.
      cbn [Z.b2z]. lia.
    + rewrite lookup_insert_ne in Ex by done. destruct (H2 x sx Ex) as [-> ->]. split; [|done]. unfold refs.
      rewrite (bool_decide_false (Some s = Some x)) by congruence. cbn [Z.b2z]. lia.
  - intros x Hx. auto.
Qed.

(** The first request of a search, with the name in the search state. *)
Lemma search_submit_ok b b1 h hd r q cb s name (index flags : Z) (Q : option nat -> evdns_base -> Prop) :
  inv [h] (Some r) None b1 -> ready b1 r h q (hd <| current_req := Some r |>) -> user_callback q = cb -> same_answers b b1 ->
  server_head b1 ≡ₚ server_head b -> search_state hd = None -> search_origname hd = None -> global_search_state b1 = Some s ->
  name <> [] -> -1 <= index ->
  (forall b', started b h cb b' -> Q (Some r) b') ->
  wp (update_handle h (fun hd => hd <| search_index := index |>) ;;
      let! hd := the_handle h in
      assert (bool_decide (search_origname hd = None)) ;;
      match mm_strdup name with
      | None => modify (fun b => b <| requests := delete r (requests b) |>) ;; ret None
      | Some name =>
        update_handle h (fun hd => hd <| search_origname := Some name |> <| search_state := Some s |> <| search_flags := flags |>) ;;
        update_search s (fun st => st <| ss_refcount := ss_refcount st + 1 |>) ;;
        request_submit r ;;
        ret (Some r)
      end) Q b1.
Proof.
  intros Hi Hrd Hcb Ha Hp Hs Ho Hg Hne Hidx HQ. set (hd1 := hd <| current_req := Some r |>) in *.
  pose proof (re_search _ _ _ _ (proj2 Hi)) as Hse. destruct (se_global _ _ _ Hse s Hg) as [st Es].
  apply wp_bind, (wp_update_handle _ _ hd1); [apply Hrd|].
  apply wp_bind, (wp_the_handle _ (hd1 <| search_index := index |>)); [by cbn; rewrite lookup_insert_eq|].
  apply wp_bind, wp_assert; [by apply bool_decide_eq_true|].
  unfold mm_strdup. destruct (mm_malloc _) eqn:Em; [|by apply Hmem in Em].
  apply wp_bind, (wp_update_handle _ _ (hd1 <| search_index := index |>)); [by cbn; rewrite lookup_insert_eq|].
  apply wp_bind, (wp_update_search _ _ st); [done|].
  set (hd2 := hd1 <| search_index := index |> <| search_origname := Some name |> <| search_state := Some s |> <| search_flags := flags |>).
  set (ss := <[s := st <| ss_refcount := ss_refcount st + 1 |>]> (searches b1)).
  match goal with |- wp _ _ ?b' => replace b' with (set_handle h hd2 ss b1) end.
  2:{ unfold set_handle. cbn. rewrite insert_insert_eq. done. }
  assert (Hi2 : inv [h] (Some r) None (set_handle h hd2 ss b1)).
  { apply (set_handle_inv b1 h hd1); [done | apply Hrd | done | done | left; left | |].
    - intros m Hm. unfold ss. rewrite lookup_insert_ne; [done | by intros ->; rewrite Es in Hm].
    - apply (search_ok_acquire _ _ _ h hd1 hd2 s st name); try done. apply Hrd. }
  apply wp_bind, (submit_started b _ r h q hd2 cb); [done | | done | done | done |].
  - destruct Hrd. split; try done. cbn. by rewrite lookup_insert_eq.
  - intros b' Hst. by apply wp_ret, HQ.
Qed.

(** The name is not empty: [search_make_new] looks at its last character. *)
Lemma search_request_new_ok b h hd type name flags cb (Q : option nat -> evdns_base -> Prop) :
  inv [h] None None b -> idle_handle b h hd -> type = TYPE_A \/ type = TYPE_AAAA -> known_callback b cb -> name <> [] ->
  (forall o b', inv [h] None None b' -> kept b b' -> Q o b') -> (forall o b', started b h cb b' -> Q o b') ->
  wp (search_request_new h type name flags cb) Q b.
Proof.
  intros Hi Hh Ht Hcb Hname HN HS. pose proof (re_search _ _ _ _ (proj2 Hi)) as Hse.
  assert (Hkt : known_type type) by (unfold known_type; tauto).
  unfold search_request_new. apply wp_bind, wp_assert; [destruct Ht as [->| ->]; done|].
  apply wp_bind, (wp_the_handle _ hd); [apply Hh|]. apply wp_bind, wp_assert; [apply bool_decide_eq_true, Hh|].
  assert (Hplain : wp (let! req := request_new (Some h) type name cb in
                       match req with None => ret None | Some r => request_submit r ;; ret (Some r) end) Q b).
  { apply wp_bind, (new_request_ok b h hd); [done.. | |].
    - intros b' Hi' Hk'. by apply wp_ret, HN.
    - intros r q b' Hi' Hrd Hq Ha Hp _ _ _ _ _.
      apply wp_bind, (submit_started b b' r h q (hd <| current_req := Some r |>) cb); [done..|]. intros b2 Hst. by apply wp_ret, HS. }
  apply wp_bind, wp_asks. destruct (global_search_state b) as [s|] eqn:Hg.
  2:{ apply wp_bind, wp_ret. exact Hplain. }
  destruct (se_global _ _ _ Hse s eq_refl) as [st Es]. destruct (se_refs _ _ _ Hse s st Es) as [_ Hnum].
  apply wp_bind, wp_bind, (wp_the_search _ st); [done|]. apply wp_ret. destruct (_ && _) eqn:Hc; [|exact Hplain].
  apply andb_true_iff in Hc as [_ Hn]. apply negb_true_iff, Z.eqb_neq in Hn. apply wp_bind, (wp_the_search _ st); [done|].
  assert (Hgo : forall first_name, wp (let! req := request_new (Some h) type first_name cb in
     match req with
     | None => ret None
     | Some r =>
       update_handle h (fun hd => hd <| search_index := if ndots st <=? string_num_dots name then -1 else 0 |>) ;;
       let! hd := the_handle h in
       assert (bool_decide (search_origname hd = None)) ;;
       match mm_strdup name with
       | None => modify (fun b => b <| requests := delete r (requests b) |>) ;; ret None
       | Some name =>
         update_handle h (fun hd => hd <| search_origname := Some name |> <| search_state := Some s |> <| search_flags := flags |>) ;;
         update_search s (fun st => st <| ss_refcount := ss_refcount st + 1 |>) ;;
         request_submit r ;;
         ret (Some r)
       end
     end) Q b).
  { intros first_name. apply wp_bind, (new_request_ok b h hd); [done.. | |].
    - intros b' Hi' Hk'. by apply wp_ret, HN.
    - intros r q b' Hi' Hrd Hq Ha Hp _ Hss Hgs _ _.
      apply (search_submit_ok b b' h hd r q cb); [done | done | done | done | done | apply Hh | apply Hh | congruence | done | | by intros; apply HS].
      destruct (_ <=? _); lia. }
  apply wp_bind. destruct (ndots st <=? string_num_dots name); [by apply wp_ret, Hgo|].
  apply (wp_search_make_new s st); [done | done | pose proof (zlen_nonneg (domains st)); unfold zlen in *; lia |].
  intros [first|]; [by apply Hgo | by apply wp_ret, HN].
Qed.

(** ** The functions of the application *)

(** The handle of a lookup that has not begun is released. *)
Lemma check_handle_fails b h hd (Q : option nat -> evdns_base -> Prop) : inv [h] None None b -> idle_handle b h hd ->
  (inv [] None None (without_handle h b) -> Q None (without_handle h b)) -> wp (check_handle h) Q b.
Proof.
  intros Hi Hh HQ. unfold check_handle. apply wp_bind, (wp_the_handle _ hd); [apply Hh|]. rewrite (ih_current _ _ _ Hh).
  apply wp_bind, wp_modify. apply wp_ret, HQ. by apply (without_handle_inv b h hd); [| apply Hh ..].
Qed.

Lemma check_handle_ok b h hd r (Q : option nat -> evdns_base -> Prop) : handles b !! h = Some hd -> current_req hd = Some r ->
  Q (Some h) b -> wp (check_handle h) Q b.
Proof. intros Eh Hc HQ. unfold check_handle. apply wp_bind, (wp_the_handle _ hd); [done|]. rewrite Hc. by apply wp_ret. Qed.

(** What a lookup does: it fails and leaves the answers alone, or it gives a handle, and
    one more answer will come. *)
Definition looked_up (b : evdns_base) (cb : dns_callback) (o : option nat) (b' : evdns_base) : Prop :=
  inv [] None None b' /\ server_head b' ≡ₚ server_head b /\
  match o with
  | None => same_answers b b'
  | Some h => (exists hd r, handles b' !! h = Some hd /\ current_req hd = Some r) /\
              forall c, outstanding b' c = outstanding b c + Z.b2z (bool_decide (cb = c))
  end.

Lemma with_handle_lookup b cb (m : nat -> base_op unit) (Q : option nat -> evdns_base -> Prop) :
  inv [] None None b ->
  (forall h Q', idle_handle (with_blank b) h blank -> inv [h] None None (with_blank b) ->
     (forall b', inv [h] None None b' -> kept (with_blank b) b' -> Q' tt b') -> (forall b', started (with_blank b) h cb b' -> Q' tt b') ->
     wp (m h) Q' (with_blank b)) ->
  (forall o b', looked_up b cb o b' -> Q o b') ->
  wp (let! h := new_handle in match h with None => ret None | Some h => m h ;; check_handle h end) Q b.
Proof.
  intros Hi Hm HQ. apply wp_bind, wp_new_handle. pose proof (with_blank_inv b Hi) as Hi1. pose proof (with_blank_idle b Hi) as Hh1.
  apply wp_bind, Hm; [done | done | |].
  - intros b' Hi' Hk'. apply (check_handle_fails b' _ blank); [done | by apply (kept_idle (with_blank b))|]. intros Hi2. apply HQ.
    split; [done|]. split; [apply (ke_ring _ _ Hk')|]. intros c. change (outstanding (without_handle _ b') c) with (outstanding b' c).
    by rewrite (kept_outstanding _ _ Hk').
  - intros b' [Hi' (hd & r & Eh & Hc) Ho Hp]. apply (check_handle_ok b' _ hd r); [done | done|]. apply HQ. split; [done|].
    split; [done|]. split; [by exists hd, r | done].
Qed.

Lemma resolve_ok b type name flags cb (Q : option nat -> evdns_base -> Prop) :
  inv [] None None b -> type = TYPE_A \/ type = TYPE_AAAA -> known_callback b cb -> name <> [] ->
  (forall o b', looked_up b cb o b' -> Q o b') -> wp (resolve type name flags cb) Q b.
Proof.
  intros Hi Ht Hcb Hname HQ. unfold resolve.
  apply (with_handle_lookup b cb (fun h => if negb (Z.land flags DNS_QUERY_NO_SEARCH =? 0) then submit_new h type name cb
     else let! _ := search_request_new h type name flags cb in ret tt)); [done | | done].
  intros h Q' Hh1 Hi1 HN HS. assert (Hkt : known_type type) by (unfold known_type; tauto). destruct (negb _).
  - by apply (submit_new_ok _ h blank type name cb).
  - apply wp_bind, (search_request_new_ok _ h blank type name flags cb); [done.. | |]; intros; apply wp_ret; auto.
Qed.

Lemma resolve_name_ok b name cb (Q : option nat -> evdns_base -> Prop) :
  inv [] None None b -> known_callback b cb -> (forall o b', looked_up b cb o b' -> Q o b') -> wp (resolve_name name cb) Q b.
Proof.
  intros Hi Hcb HQ. unfold resolve_name. apply (with_handle_lookup b cb (fun h => submit_new h TYPE_PTR name cb)); [done | | done].
  intros h Q' Hh1 Hi1 HN HS. apply (submit_new_ok _ h blank TYPE_PTR name cb); try done. unfold known_type. tauto.
Qed.
End lookup.
