(* ===== verification/DnsConfig.v ===== *)
(** Probes of name servers that are down, the queued callbacks of the resolver, name
    servers that are added, the search list and the limit of requests in flight: all keep
    the invariant ([DnsInv]). *)

From stdpp Require Import gmap.
From S2P Require Import Prelude StateOp EvChain Evbuffer EvbufferSpec EvbufferProps EventData Cstring Inet UriCoding Dns DnsSpec DnsPacket DnsServer DnsWire DnsBase DnsResolver DnsResolverSpec DnsLists DnsInv DnsFinish DnsSubmit DnsReply DnsHandle DnsLookup.

(** ** A request in no list changes *)

Lemma unlisted_update b r h q q' hd : inv [h] (Some r) None b -> ready b r h q hd -> same_request q q' -> request_ok (server_head b) q' ->
  let b' := b <| requests := <[r := q']> (requests b) |> in
  inv [h] (Some r) None b' /\ ready b' r h q' hd /\ same_answers b b'.
Proof.
  intros [Hb [Rs Rr Rd Rp Rse]] [Eq Hl Hh Eh Hc Hp Hq] Hs Hok b'.
  assert (Hlt : (r < next_id b)%nat).
  { destruct (decide (r < next_id b)%nat) as [|Hge]; [done|]. destruct (co_fresh _ Hb r ltac:(lia)) as [H1 _]. by rewrite Eq in H1. }
  assert (Hreq : forall k, option_relation same_request (fun _ => False) (fun _ => False) (requests b !! k) (requests b' !! k))
    by (apply (both_insert _ _ _ q); [apply _| |]; done).
  splits.
  - split; [by apply core_new_request|]. split; [| | done | | done].
    + intros k hk Ek Hk. specialize (Rs k hk Ek Hk). unfold settled in *. destruct (current_req hk) as [r0|]; [|done].
      destruct Rs as (? & ? & Hr0 & q0 & E0 & ?). splits; try done. exists q0. cbn. rewrite lookup_insert_ne; [done|]. by intros ->.
    + intros k qk Ek. pose proof (Hreq k) as Hk. rewrite Ek in Hk. destruct (requests b !! k) as [q0|] eqn:E0; [|done]. cbn in Hk.
      destruct (Rr k q0 E0) as (? & ? & ?). by rewrite (sr_type _ _ Hk), (sr_callback _ _ Hk).
    + intros s n k En Hpr Hz. destruct (Rp s n k En Hpr Hz) as [? [P1 P2]]. split; [done|]. split; [|done].
      intros hk k2 q2 Ek Hck E2. pose proof (Hreq k2) as Hk2. rewrite E2 in Hk2. destruct (requests b !! k2) as [q0|] eqn:E0; [|done].
      cbn in Hk2. rewrite (sr_callback _ _ Hk2). by apply (P1 hk k2).
  - split; try done; [by cbn; rewrite lookup_insert_eq | by rewrite (sr_handle _ _ Hs)].
  - intros c. unfold outstanding. f_equal. apply count_iff. intros k Hk. cbn. rewrite lookup_insert_ne; [done|]. by intros ->.
Qed.

(** A server takes a handle for its probe. *)
Lemma take_probe b r h q hd s n : inv [h] (Some r) None b -> ready b r h q hd -> user_callback q = Probe s -> servers b !! s = Some n ->
  let b' := set_server s (n <| probe_request := Some h |>) (global_good_nameservers b) b in
  inv [h] (Some r) None b' /\ ready b' r h q hd /\ same_answers b b'.
Proof.
  intros [Hb [Rs Rr Rd Rp Rse]] [Eq Hl Hh Eh Hc Hp Hq] Hcb En b'. splits; [| by split | done].
  split; [by apply (core_set_same b s n)|]. split; [done.. | | done].
  cbn. intros k nk x Ek Hx Hz. destruct (decide (k = s)) as [->|Hne].
  - rewrite lookup_insert_eq in Ek. injection Ek as <-. cbn in Hx. injection Hx as <-. split; [by exists hd|]. split.
    + intros hk r0 q0 Ek Hck E0. change (handles b !! h = Some hk) in Ek. rewrite Eh in Ek. injection Ek as <-. rewrite Hc in Hck. injection Hck as <-.
      change (requests b !! r = Some q0) in E0. rewrite Eq in E0. by injection E0 as <-.
    + intros d Hd Hdh. by destruct (count_0 _ _ d Hq Hd).
  - rewrite lookup_insert_ne in Ek by done. destruct (Rp k nk x Ek Hx Hz) as [? [P1 P2]]. by split.
Qed.

Section probes.
Context {A : Arch} {M : Allocator} {E : ResolverEnv} (Hmem : mem_ok).

(** As many answers for the application. *)
Definition same_app_answers (b b' : evdns_base) : Prop := forall id, outstanding b' (Callback id) = outstanding b (Callback id).

Lemma same_answers_app b b' : same_answers b b' -> same_app_answers b b'.
Proof. intros H id. apply H. Qed.

(** What a step that is not a lookup leaves behind. *)
Definition works (b b' : evdns_base) : Prop := inv [] None None b' /\ same_app_answers b b' /\ server_head b' ≡ₚ server_head b.

Lemma settles_works b b' : settles b b' -> works b b'.
Proof. intros (? & ? & ?). split; [done|]. split; [by apply same_answers_app | done]. Qed.

Lemma send_probe_ok b s (Q : unit -> evdns_base -> Prop) :
  inv [] None None b -> s ∈ server_head b -> zlen (inflight b) <= 65000 -> (forall b', works b b' -> Q tt b') -> wp (nameserver_send_probe s) Q b.
Proof.
  intros Hi Hs Hlen HQ. unfold nameserver_send_probe. apply wp_bind, (wp_new_handle Hmem).
  pose proof (with_blank_inv b Hi) as Hi1. pose proof (with_blank_idle b Hi) as Hh1. set (h := next_id b) in *.
  apply wp_bind, (new_request_ok Hmem (with_blank b) h blank); [done | done | by left | by intros x [= <-] | |].
  - intros b' Hi' Hk'. apply wp_modify. pose proof (kept_idle _ _ _ _ Hk' Hh1) as Hh'. apply (HQ (without_handle h b')).
    split; [by apply (without_handle_inv b' h blank); [| apply Hh' ..]|]. split; [|apply (ke_ring _ _ Hk')].
    intros id. change (outstanding (without_handle h b') (Callback id)) with (outstanding b' (Callback id)).
    by rewrite (kept_outstanding _ _ Hk').
  - intros r q b1 Hi2 Hrd Hcb Ha Hp _ _ _ Hin Hok.
    assert (Hs1 : s ∈ server_head b1) by (rewrite Hp; done). destruct (proj2 (co_servers _ (proj1 Hi2) s) Hs1) as [n En].
    destruct (take_probe b1 r h q _ s n Hi2 Hrd Hcb En) as (Hi3 & Hrd3 & Ha3).
    apply wp_bind, (wp_update_server _ _ n); [done|].
    set (b3 := set_server s (n <| probe_request := Some h |>) (global_good_nameservers b1) b1) in *.
    apply (wp_bind _ _ _ b3). apply transaction_id_pick_ok; [apply core_ids_ok, Hi3 | by change (inflight b3) with (inflight b1); rewrite Hin|].
    intros id d Hid Hne _.
    assert (Hi4 : inv [h] (Some r) None (b3 <| draws := d |>) /\ ready (b3 <| draws := d |>) r h q (blank <| current_req := Some r |>)).
    { split; [|by destruct Hrd3]. apply (kept_inv _ _ _ b3); [apply core_draws, Hi3 | | done]. split; try done; [intros; apply both_refl; apply _..|].
      intros x qx Hx Ex. split; [done | by exists qx]. }
    destruct Hi4 as [Hi4 Hrd4]. apply wp_bind, (wp_trans_id_set _ _ q); [apply Hrd4 | apply Hok |]. intros p Hpz.
    assert (Hfinal : forall q', same_request q q' -> request_ok (server_head b1) q' ->
      wp (request_submit r) Q (b3 <| draws := d |> <| requests := <[r := q']> (requests b3) |>)).
    { intros q' Hsq Hok'. destruct (unlisted_update _ r h q q' _ Hi4 Hrd4 Hsq Hok') as (Hi5 & Hrd5 & Ha5).
      apply (request_submit_ok _ r h q' _ None _ Hi5 Hrd5). intros b6 Hi6 He6 Ho6 _ _. apply HQ. split; [done|]. split.
      - intros i. rewrite Ho6, Ha5. rewrite (sr_callback _ _ Hsq), Hcb, bool_decide_false by done.
        change (outstanding (b3 <| draws := d |>) (Callback i)) with (outstanding b3 (Callback i)). rewrite Ha3, Ha. cbn. 
        change (outstanding (with_blank b) (Callback i)) with (outstanding b (Callback i)). lia.
      - rewrite (ev_ring _ _ _ (He6 None)). apply Hp. }
    set (q1 := q <| packet := p |> <| trans_id := id |>).
    apply wp_bind, (wp_update_request _ _ q1); [by cbn; rewrite lookup_insert_eq|].
    cbn [requests]. match goal with |- wp _ _ ?b' => replace b' with (b3 <| draws := d |> <| requests := <[r := q1 <| ns := Some s |>]> (requests b3) |>) end.
    2:{ cbn. rewrite insert_insert_eq. done. }
    apply Hfinal; [by split|]. split; [cbn; rewrite Hpz; apply Hok | done | cbn; by intros x [= <-]].
Qed.

(** The timer of a server that is down runs out. *)
Lemma prod_ok b s (Q : unit -> evdns_base -> Prop) :
  inv [] None None b -> s ∈ server_head b -> zlen (inflight b) <= 65000 -> (forall b', works b b' -> Q tt b') -> wp (nameserver_prod_callback s) Q b.
Proof.
  intros Hi Hs Hlen HQ. unfold nameserver_prod_callback.
  apply wp_bind, (update_server_ok _ _ _ [] None None None); [done | done | done | by right |]. intros n En b1 Hi1 He1 Ha1.
  apply send_probe_ok; [done | done | done |]. intros b2 (Hi2 & Ha2 & Hp2). apply HQ. split; [done|]. split; [|done].
  intros id. by rewrite Ha2.
Qed.

(** The result of a probe: the server has no probe any more. *)
Lemma probe_callback_ok b s h result (Q : unit -> evdns_base -> Prop) :
  inv [h] None None b -> s ∈ server_head b -> result <> DNS_ERR_CANCEL -> server_head b <> [] ->
  (forall b', inv [h] None None b' -> evolves None b b' -> same_answers b b' ->
     (forall n, servers b' !! s = Some n -> probe_request n = None) -> Q tt b') ->
  wp (nameserver_probe_callback s result) Q b.
Proof.
  intros Hi Hs Hres Hring HQ. unfold nameserver_probe_callback. rewrite (proj2 (Z.eqb_neq _ _)) by done.
  apply wp_bind, (update_server_ok _ _ _ [h] None None None); [done | done | done | by left; split; [|left] |]. intros n En b1 Hi1 He1 Ha1.
  assert (En1 : servers b1 !! s = Some (n <| probe_request := None |>)) by (cbn; by rewrite lookup_insert_eq).
  assert (Hnone : forall b', evolves None b1 b' -> forall n', servers b' !! s = Some n' -> probe_request n' = None).
  { intros b' He n' En'. destruct (ev_probe _ _ _ He s n' En') as (n0 & En0 & [H|H]); [|done]. rewrite En1 in En0. by injection En0 as <-. }
  destruct (_ || _).
  - apply (nameserver_up_ok Hmem b1 s (n <| probe_request := None |>) [h] None); [done | done | done | done |].
    intros b2 gone Hi2 He2 Ha2 Hg. assert (gone = None) as -> by (destruct gone as [g|]; [by specialize (Hg g eq_refl) | done]).
    apply HQ; [done | by etrans; [apply He1|] | by etrans | by apply Hnone].
  - unfold nameserver_probe_failed.
    apply wp_bind, (update_server_ok _ _ _ [h] None None None); [done | done | done | by right |]. intros n1 En1' b2 Hi2 He2 Ha2.
    apply wp_bind, (wp_the_server _ (n1 <| probe_timer := None |>)); [by cbn; rewrite lookup_insert_eq|].
    destruct (up _); [apply wp_ret, HQ; [done | by etrans; [apply He1|] | by etrans | by apply Hnone]|].
    apply wp_bind, wp_asks. apply (update_server_ok _ _ _ [h] None None None); [done | done | done | by right |].
    intros n2 En2 b3 Hi3 He3 Ha3. apply HQ; [done | | etrans; [done|]; by etrans | apply Hnone; by etrans; [apply He2|]].
    etrans; [apply He1|]. etrans; [apply He2 | apply He3].
Qed.

(** ** Queued callbacks *)

(** The first callback leaves the queue; its handle is still there. *)
Lemma dequeued_inv b d rest h hd : inv [] None None b -> deferred b = d :: rest -> d_handle d = Some h -> handles b !! h = Some hd ->
  let b' := b <| deferred := rest |> in
  inv [h] None None b' /\ queued b' h = 0 /\ current_req hd = None /\ pending_cb hd = true /\ search_state hd = None /\
  forall c, outstanding b' c = outstanding b c - Z.b2z (bool_decide (d_callback d = c)).
Proof.
  intros [Hb [Rs Rr Rd Rp Rse]] Ed Hd Eh b'.
  assert (Hq : forall k, queued b k = Z.b2z (bool_decide (k = h)) + queued b' k).
  { intros k. unfold queued. rewrite Ed, (count_cons (fun x => d_handle x = Some k)), Hd. f_equal. f_equal. apply bool_decide_ext. split; congruence. }
  pose proof (Rs h hd Eh (not_elem_of_nil _)) as Hset. unfold settled in Hset.
  pose proof (Hq h) as Hqh. rewrite bool_decide_true in Hqh by done. cbn [Z.b2z] in Hqh.
  pose proof (count_nonneg (fun x => d_handle x = Some h) rest) as Hnn. change (count (fun x => d_handle x = Some h) rest) with (queued b' h) in Hnn.
  destruct (current_req hd) as [r|] eqn:Hc; [destruct Hset as (_ & H0 & _); lia|]. destruct Hset as (Hp & H1 & Hs).
  assert (Hin : forall x, x ∈ rest -> x ∈ deferred b) by (intros x Hx; rewrite Ed; by right).
  splits; [| lia | done..|].
  - split; [by apply core_deferred|]. split; [| done | | | done].
    + intros k hk Ek Hk. rewrite list_elem_of_singleton in Hk. specialize (Rs k hk Ek (not_elem_of_nil _)). specialize (Hq k).
      rewrite bool_decide_false in Hq by done. cbn [Z.b2z] in Hq. unfold settled in *. replace (queued b' k) with (queued b k) by lia. done.
    + intros x Hx. by apply Rd, Hin.
    + intros s n k En Hpr Hz. destruct (Rp s n k En Hpr Hz) as [? [P1 P2]]. split; [done|]. split; [done|]. intros x Hx. by apply P2, Hin.
  - intros c. unfold outstanding. rewrite Ed, (count_cons (fun x => d_callback x = c)).
    change (count _ (listed b')) with (count (fun r => (user_callback <$> requests b !! r) = Some c) (listed b)).
    change (deferred b') with rest. lia.
Qed.

Lemma callback_arguments_some d : known_type (d_request_type d) -> exists args, callback_arguments d = Some args /\
  (c_result args = DNS_ERR_CANCEL -> d_err d = DNS_ERR_CANCEL).
Proof.
  intros Ht. unfold callback_arguments. destruct Ht as [->|[->| ->]]; cbn; destruct (d_reply d); eexists; split; try done.
Qed.

(** The callback is run, and its handle is released. *)
Lemma run_callback_ok b (Q : option (nat * callback_args) -> evdns_base -> Prop) :
  inv [] None None b -> server_head b <> [] ->
  (deferred b = [] -> Q None b) ->
  (forall d rest b', deferred b = d :: rest -> inv [] None None b' -> server_head b' ≡ₚ server_head b ->
     (forall c, outstanding b' c = outstanding b c - Z.b2z (bool_decide (d_callback d = c))) ->
     forall args, callback_arguments d = Some args ->
     Q (match d_callback d with Callback id => Some (id, args) | Probe _ => None end) b') ->
  wp reply_run_callback Q b.
Proof.
  intros Hi Hring HN HQ. unfold reply_run_callback. apply wp_bind, wp_asks. destruct (deferred b) as [|d rest] eqn:Ed; [by apply wp_ret, HN|].
  assert (Hd : d ∈ deferred b) by (rewrite Ed; left). destruct (re_deferred _ _ _ _ (proj2 Hi) d Hd) as (Ht & Hcb & h & Hh & [hd Eh]).
  destruct (dequeued_inv b d rest h hd Hi Ed Hh Eh) as (Hi1 & Hq1 & Hc & Hp & Hs & Ho1). set (b1 := b <| deferred := rest |>) in *.
  destruct (callback_arguments_some d Ht) as (args & Ea & Hcan).
  apply wp_bind, wp_modify, wp_bind, (wp_lift _ args); [done|]. fold b1.
  assert (Hprobe : forall s n, servers b !! s = Some n -> probe_request n = Some h -> d_callback d = Probe s /\ d_err d <> DNS_ERR_CANCEL).
  { intros s n En Hpr. destruct (re_probe _ _ _ _ (proj2 Hi) s n h En Hpr ltac:(done)) as [_ [_ P2]]. by apply P2. }
  assert (Hlast : forall b2, inv [h] None None b2 -> evolves None b1 b2 -> same_answers b1 b2 -> no_probe b2 h ->
    wp (match d_handle d with
        | Some h => let! hd := the_handle h in when (pending_cb hd) (free_handle h)
        | None => ret tt
        end ;; ret match d_callback d with Callback id => Some (id, args) | Probe _ => None end) Q b2).
  { intros b2 Hi2 He2 Ha2 Hn2. destruct (ev_handle _ _ _ He2 h ltac:(done)) as [Eh2 Hq2]. change (handles b1 !! h) with (handles b !! h) in Eh2.
    rewrite Eh in Eh2. rewrite Hh. apply wp_bind, wp_bind, (wp_the_handle _ hd); [done|]. rewrite Hp. apply wp_modify, wp_ret.
    apply (HQ d rest (without_handle h b2)); [done | | apply (ev_ring _ _ _ He2) | | done].
    - apply (without_handle_inv b2 h hd); try done. by rewrite Hq2.
    - intros c. change (outstanding (without_handle h b2) c) with (outstanding b2 c). by rewrite Ha2, Ho1. }
  destruct (d_callback d) as [id|s] eqn:Hdc; apply wp_bind.
  - apply wp_ret, Hlast; [done | done | done|]. intros s n En Hpr. by destruct (Hprobe s n En Hpr).
  - apply wp_when; intros Hcanc.
    + apply negb_true_iff, Z.eqb_neq in Hcanc.
      apply (probe_callback_ok b1 s h); [done | by apply Hcb | done | done|]. intros b2 Hi2 He2 Ha2 Hnone. apply Hlast; [done..|].
      intros s' n' En' Hpr'. destruct (ev_probe _ _ _ He2 s' n' En') as (n & En & [H|H]); [|congruence]. rewrite H in Hpr'.
      destruct (Hprobe s' n En Hpr') as [[= ->] _]. specialize (Hnone n' En'). congruence.
    + apply negb_false_iff, Z.eqb_eq in Hcanc. apply wp_ret, Hlast; [done | done | done|]. intros s' n En Hpr.
      destruct (Hprobe s' n En Hpr) as [_ Hne]. by apply Hne, Hcan.
Qed.
End probes.

(** ** A new name server *)

Lemma core_new_server b n ring : core b -> up n = true -> (ring ≡ₚ next_id b :: server_head b) ->
  core (b <| next_id := S (next_id b) |> <| servers := <[next_id b := n]> (servers b) |> <| server_head := ring |>
          <| global_good_nameservers := global_good_nameservers b + 1 |>).
Proof.
  intros Hb Hu Hp. destruct (co_fresh _ Hb (next_id b) ltac:(lia)) as (_ & _ & Hn & _).
  assert (Hnew : next_id b ∉ server_head b) by (intros Hin%(co_servers _ Hb); rewrite Hn in Hin; by destruct Hin).
  split; try by apply Hb.
  - cbn. intros r q Eq. destruct (co_request _ Hb r q Eq) as [H1 H2 H3]. split; [done | done|]. intros s Hs. destruct (H3 s Hs).
    split; [|done]. rewrite Hp. by right.
  - cbn. rewrite Hp. constructor; [done | apply Hb].
  - cbn. intros s. rewrite Hp, elem_of_cons. destruct (decide (s = next_id b)) as [->|Hne]; [rewrite lookup_insert_eq; split; [by left | done]|].
    rewrite lookup_insert_ne by done. rewrite (co_servers _ Hb). split; [by right | by intros [?|?]].
  - change (global_good_nameservers b + 1 = count_up (<[next_id b := n]> (servers b)) ring).
    rewrite (count_up_perm _ _ _ Hp). unfold count_up. rewrite filter_cons, lookup_insert_eq. cbn [fmap option_fmap option_map]. rewrite Hu.
    rewrite decide_True by done. rewrite zlen_cons, (co_good _ Hb). unfold count_up. rewrite Z.add_comm. f_equal. f_equal.
    clear - Hnew. induction (server_head b) as [|s l IH]; [done|]. apply not_elem_of_cons in Hnew as [Hne Hl].
    rewrite !filter_cons, lookup_insert_ne by done. by rewrite (IH Hl).
  - cbn. intros m Hm. destruct (co_fresh _ Hb m ltac:(lia)) as (H1 & H2 & H3 & H4). splits; try done. rewrite lookup_insert_ne; [done | lia].
Qed.

Lemma rest_new_server x f z b n ring : core b -> rest x f z b -> probe_request n = None -> (ring ≡ₚ next_id b :: server_head b) ->
  rest x f z (b <| next_id := S (next_id b) |> <| servers := <[next_id b := n]> (servers b) |> <| server_head := ring |>
                <| global_good_nameservers := global_good_nameservers b + 1 |>).
Proof.
  intros Hb [Rs Rr Rd Rp Rse] Hn Hp.
  assert (Hcb : forall c, known_callback b c -> forall s, c = Probe s -> s ∈ ring) by (intros c Hc s Hs; rewrite Hp; right; by apply Hc).
  split; [done | | | | done].
  - intros r q Eq. destruct (Rr r q Eq) as (? & ? & Hc). splits; [done | done|]. exact (Hcb _ Hc).
  - intros d Hd. destruct (Rd d Hd) as (? & Hc & ?). splits; [done | | done]. exact (Hcb _ Hc).
  - cbn. intros s ns h En Hpr Hz. destruct (decide (s = next_id b)) as [->|Hne].
    + rewrite lookup_insert_eq in En. injection En as <-. congruence.
    + rewrite lookup_insert_ne in En by done. destruct (Rp s ns h En Hpr Hz) as [? [P1 P2]]. by split.
Qed.

Section config.
Context {A : Arch} {M : Allocator} {E : ResolverEnv} (Hmem : mem_ok).

(** What a step leaves behind that may add servers. *)
Definition configured (b b' : evdns_base) : Prop :=
  inv [] None None b' /\ same_app_answers b b' /\ (server_head b <> [] -> server_head b' <> []).

Lemma works_configured b b' : works b b' -> configured b b'.
Proof. intros (Hi & Ha & Hp). split; [done|]. split; [done|]. intros Hne H0. rewrite H0 in Hp. by apply Permutation_nil in Hp. Qed.

Lemma wp_known_server l addr b (Q : bool -> evdns_base -> Prop) : (forall s, s ∈ l -> is_Some (servers b !! s)) -> (forall k, Q k b) ->
  wp (known_server l addr) Q b.
Proof.
  intros Hl HQ. induction l as [|s l IH]; cbn [known_server]; [by apply wp_ret|]. destruct (Hl s) as [n En]; [left|].
  apply wp_bind, (wp_the_server _ n); [done|]. destruct (_ =? 0); [by apply wp_ret|]. apply IH. intros x Hx. apply Hl. by right.
Qed.

Lemma add_server_ok b addr sys (Q : Z -> evdns_base -> Prop) :
  inv [] None None b -> (forall c b', configured b b' -> Q c b') -> wp (evdns_nameserver_add_impl addr sys) Q b.
Proof.
  intros Hi HQ. assert (Hsame : configured b b) by done.
  unfold evdns_nameserver_add_impl. apply wp_bind, wp_asks, wp_bind, wp_known_server; [intros s Hs; by apply (co_servers _ (proj1 Hi))|].
  intros known. destruct known; [by apply wp_ret, HQ|]. destruct (mm_malloc _); [|by apply wp_ret, HQ]. destruct (negb _); [by apply wp_ret, HQ|].
  apply wp_bind. unfold new_id, wp at 1. apply wp_bind, wp_modify, wp_ret, HQ.
  set (n := {| address := addr; up := true |}). set (ring := match server_head b with [] => [next_id b] | x :: l => x :: next_id b :: l end).
  assert (Hp : ring ≡ₚ next_id b :: server_head b) by (subst ring; destruct (server_head b); [done | constructor]).
  split; [|split; [done|]].
  - split; [by apply (core_new_server b n ring (proj1 Hi)) | by apply (rest_new_server [] None None b n ring (proj1 Hi) (proj2 Hi))].
  - intros _ H0. change (ring = []) in H0. rewrite H0 in Hp. by apply Permutation_nil in Hp.
Qed.

(** A socket that is writable again: what is marked is sent. *)
Lemma writable_ok b s (Q : unit -> evdns_base -> Prop) :
  inv [] None None b -> s ∈ server_head b -> (forall b', settles b b' -> Q tt b') -> wp (nameserver_writable s) Q b.
Proof.
  intros Hi Hs HQ. unfold nameserver_writable.
  apply wp_bind, (update_server_ok _ _ _ [] None None None); [done | done | done | by right |]. intros n En b1 Hi1 He1 Ha1.
  apply wp_bind, evdns_transmit_ok; [apply Hi1|]. intros tried b2 Hb2 [Hk2 _ _].
  assert (Hs2 : settles b b2) by (apply (settles_trans b b1); [done | done | by apply kept_settles]).
  apply wp_when; intros _; [|by apply HQ].
  apply (update_server_ok _ _ _ [] None None None); [apply Hs2 | by apply (kept_server b1 b2) | done | by right |]. intros n2 En2 b3 Hi3 He3 Ha3.
  apply HQ. apply (settles_trans b b2); [apply Hs2..|]. by apply (evolves_settles None).
Qed.

Lemma resume_ok b (Q : unit -> evdns_base -> Prop) :
  inv [] None None b -> server_head b <> [] -> (forall b', settles b b' -> Q tt b') -> wp evdns_base_resume Q b.
Proof. intros Hi Hring HQ. apply pump_ok; [apply Hi | done|]. intros b' Hb' Hk' _. by apply HQ, kept_settles. Qed.

(** ** The search list *)

Definition set_searches (ss : gmap nat search) (global : option nat) (n : nat) (b : evdns_base) : evdns_base :=
  b <| searches := ss |> <| global_search_state := global |> <| next_id := n |>.

Lemma set_searches_works b ss global n : inv [] None None b -> (next_id b <= n)%nat -> (forall m, (n <= m)%nat -> ss !! m = None) ->
  search_ok (handles b) ss global -> works b (set_searches ss global n b).
Proof.
  intros [Hb [Rs Rr Rd Rp Rse]] Hle Hss Hse. split; [|done]. split.
  - pose proof (core_handles b (handles b) ss n Hb) as H. unfold set_searches.
    assert (Hc : core (b <| handles := handles b |> <| searches := ss |> <| next_id := n |>)).
    { apply H; [|done|]; [intros r q h hd _ _ _ Eh Hc; by exists hd|]. intros m Hm. split; [|by apply Hss]. by apply (co_fresh _ Hb m ltac:(lia)). }
    clear H. destruct Hc. by split.
  - split; try done. intros s k h En Hp Hz. destruct (Rp s k h En Hp Hz) as [? [P1 P2]]. by split.
Qed.

Lemma search_ok_change hs ss global s st st' : search_ok hs ss global -> ss !! s = Some st -> ss_refcount st' = ss_refcount st ->
  num_domains st' = zlen (domains st') -> search_ok hs (<[s := st']> ss) global.
Proof.
  intros [H1 H2 H3] Es Hr Hn.
  assert (Hsome : forall k, is_Some (ss !! k) -> is_Some (<[s := st']> ss !! k)).
  { intros k Hk. destruct (decide (k = s)) as [->|]; [by rewrite lookup_insert_eq | by rewrite lookup_insert_ne]. }
  split; [| | auto].
  - intros h hd x Eh Ex. destruct (H1 h hd x Eh Ex) as (? & ? & ?). auto.
  - intros x sx Ex. destruct (decide (x = s)) as [->|Hne]; [rewrite lookup_insert_eq in Ex; injection Ex as <-; rewrite Hr; by destruct (H2 s st Es)|].
    rewrite lookup_insert_ne in Ex by done. by apply H2.
Qed.

(** A search state for the base; no handle has a reference to it yet. *)
Lemma search_ok_fresh hs ss s nd : search_ok hs ss None -> ss !! s = None ->
  search_ok hs (<[s := {| ss_refcount := 1; ndots := nd; num_domains := 0; domains := [] |}]> ss) (Some s).
Proof.
  intros [H1 H2 H3] Es. split.
  - intros h hd x Eh Ex. destruct (H1 h hd x Eh Ex) as ([st Est] & ? & ?). splits; [|done..]. rewrite lookup_insert_ne; [by exists st|]. congruence.
  - intros x sx Ex. unfold refs. destruct (decide (x = s)) as [->|Hne].
    + rewrite lookup_insert_eq in Ex. injection Ex as <-. rewrite bool_decide_true by done. split; [|done].
      replace (handle_refs hs s) with 0; [done|]. symmetry. unfold handle_refs, count.
      destruct (filter _ (map_to_list hs)) as [|[h hd] l] eqn:Ef; [done|].
      assert (Hin : (h, hd) ∈ filter (fun p => search_state (snd p) = Some s) (map_to_list hs)) by (rewrite Ef; left).
      apply list_elem_of_filter in Hin as [Hs Hin]. apply elem_of_map_to_list in Hin. destruct (H1 h hd s Hin Hs) as ([st Est] & _). congruence.
    + rewrite lookup_insert_ne in Ex by done. rewrite bool_decide_false by congruence. destruct (H2 x sx Ex) as [-> ->]. unfold refs.
      by rewrite bool_decide_false.
  - intros x [= <-]. by rewrite lookup_insert_eq.
Qed.

(** The base gives up its reference. *)
Lemma search_ok_drop hs ss global : search_ok hs ss global -> search_ok hs (released ss global) None.
Proof.
  intros [H1 H2 H3]. split; [| |done].
  - intros h hd x Eh Ex. destruct (H1 h hd x Eh Ex) as (Hs & ? & ?). splits; [|done..]. apply released_some; [|done].
    intros st -> Est. destruct (H2 x st Est) as [-> _]. unfold refs. rewrite bool_decide_true by done.
    pose proof (handle_refs_pos _ _ _ _ Eh Ex). cbn [Z.b2z]. lia.
  - intros x sx Ex. destruct (released_lookup _ _ _ _ Ex) as (st0 & E0 & -> & -> & _ & ->). destruct (H2 x st0 E0) as [-> ->].
    split; [|done]. unfold refs. rewrite (bool_decide_false (None = Some x)) by done. cbn [Z.b2z]. lia.
Qed.

Definition fresh_search : search := {| ss_refcount := 1; ndots := 1; num_domains := 0; domains := [] |}.

Lemma wp_search_state_new b (Q : option nat -> evdns_base -> Prop) :
  Q (Some (next_id b)) (b <| next_id := S (next_id b) |> <| searches := <[next_id b := fresh_search]> (searches b) |>) -> wp search_state_new Q b.
Proof.
  intros HQ. unfold search_state_new. destruct (mm_malloc _) eqn:Em; [|by apply Hmem in Em].
  apply wp_bind. unfold new_id, wp at 1. apply wp_bind, wp_modify. by apply wp_ret.
Qed.

Lemma search_clear_ok b (Q : unit -> evdns_base -> Prop) :
  inv [] None None b -> (forall b', works b b' -> Q tt b') -> wp search_postfix_clear Q b.
Proof.
  intros Hi HQ. pose proof Hi as [Hb Hr]. pose proof (re_search _ _ _ _ Hr) as Hse.
  assert (Hnone : forall m, (next_id b <= m)%nat -> released (searches b) (global_search_state b) !! m = None)
    by (intros m Hm; apply released_none, (co_fresh _ Hb m Hm)).
  unfold search_postfix_clear. apply wp_bind, wp_asks, wp_bind, wp_search_state_decref; [apply Hse|].
  apply wp_bind, wp_search_state_new. apply wp_modify.
  apply (HQ (set_searches (<[next_id b := fresh_search]> (released (searches b) (global_search_state b))) (Some (next_id b)) (S (next_id b)) b)).
  apply set_searches_works; [done | lia | |].
  - intros m Hm. rewrite lookup_insert_ne by lia. apply Hnone. lia.
  - apply search_ok_fresh; [by apply search_ok_drop | by apply Hnone].
Qed.

(** The base has a search state then. *)
Lemma ensure_search_ok b (Q : option nat -> evdns_base -> Prop) :
  inv [] None None b -> (forall s b', works b b' -> global_search_state b' = Some s -> Q (Some s) b') -> wp ensure_search_state Q b.
Proof.
  intros Hi HQ. pose proof Hi as [Hb Hr]. pose proof (re_search _ _ _ _ Hr) as Hse.
  unfold ensure_search_state. apply wp_bind, wp_asks. destruct (global_search_state b) as [s|] eqn:Hg; [by apply wp_ret, HQ|].
  apply wp_bind, wp_search_state_new. apply wp_bind, wp_modify, wp_ret.
  apply (HQ _ (set_searches (<[next_id b := fresh_search]> (searches b)) (Some (next_id b)) (S (next_id b)) b)); [|done].
  apply set_searches_works; [done | lia | |].
  - intros m Hm. rewrite lookup_insert_ne by lia. apply (co_fresh _ Hb). lia.
  - apply search_ok_fresh; [done | by apply (co_fresh _ Hb)].
Qed.

Lemma works_trans b b1 b2 : works b b1 -> works b1 b2 -> works b b2.
Proof. intros (_ & Ha & Hp) (Hi2 & Ha2 & Hp2). split; [done|]. split; [intros id; by rewrite Ha2 | by rewrite Hp2]. Qed.

(** A search state of the base that keeps its references. *)
Lemma change_search_works b s st st' : inv [] None None b -> searches b !! s = Some st -> ss_refcount st' = ss_refcount st ->
  num_domains st' = zlen (domains st') -> works b (b <| searches := <[s := st']> (searches b) |>).
Proof.
  intros Hi Es Hrc Hn. change (works b (set_searches (<[s := st']> (searches b)) (global_search_state b) (next_id b) b)).
  apply (set_searches_works b (<[s := st']> (searches b)) (global_search_state b) (next_id b) Hi); [done | |].
  - intros m Hm. rewrite lookup_insert_ne; [by apply (co_fresh _ (proj1 Hi))|]. intros ->.
    destruct (co_fresh _ (proj1 Hi) m Hm) as (_ & _ & _ & H4). by rewrite H4 in Es.
  - by apply (search_ok_change _ _ _ s st), Hn; [apply Hi | |].
Qed.

Lemma search_add_ok b domain (Q : unit -> evdns_base -> Prop) :
  inv [] None None b -> (forall b', works b b' -> Q tt b') -> wp (search_postfix_add domain) Q b.
Proof.
  intros Hi HQ. unfold search_postfix_add. apply wp_bind, ensure_search_ok; [done|]. intros s b1 Hw1 Hg1. pose proof Hw1 as [Hi1 _].
  pose proof (re_search _ _ _ _ (proj2 Hi1)) as Hse. destruct (se_global _ _ _ Hse s Hg1) as [st Es]. destruct (se_refs _ _ _ Hse s st Es) as [_ Hn].
  apply wp_bind, (wp_update_search _ _ st); [done|]. destruct (mm_malloc _) eqn:Em; [|by apply Hmem in Em].
  set (st1 := st <| num_domains := num_domains st + 1 |>).
  apply (wp_update_search _ _ st1); [by cbn; rewrite lookup_insert_eq|].
  set (st2 := st1 <| domains := _ |>). match goal with |- Q tt ?b' => replace b' with (b1 <| searches := <[s := st2]> (searches b1) |>) end.
  2:{ cbn. rewrite insert_insert_eq. done. }
  apply HQ, (works_trans b b1); [done|]. apply (change_search_works b1 s st); [done | done | done|]. cbn. rewrite zlen_cons. lia.
Qed.

Lemma search_ndots_ok b n (Q : unit -> evdns_base -> Prop) :
  inv [] None None b -> (forall b', works b b' -> Q tt b') -> wp (evdns_base_search_ndots_set n) Q b.
Proof.
  intros Hi HQ. unfold evdns_base_search_ndots_set. apply wp_bind, ensure_search_ok; [done|]. intros s b1 Hw1 Hg1. pose proof Hw1 as [Hi1 _].
  pose proof (re_search _ _ _ _ (proj2 Hi1)) as Hse. destruct (se_global _ _ _ Hse s Hg1) as [st Es]. destruct (se_refs _ _ _ Hse s st Es) as [_ Hn].
  apply (wp_update_search _ _ st); [done|]. apply HQ, (works_trans b b1); [done|]. by apply (change_search_works b1 s st).
Qed.

(** ** The limit of requests in flight *)

Lemma concat_replicate_nil (n : nat) : concat (replicate n (@nil nat)) = [].
Proof. induction n as [|n IH]; [done|]. exact IH. Qed.

(** Every request is put into the list of its id. *)
Lemma rehash_ok b l : forall heads (Q : list (list nat) -> evdns_base -> Prop), core b -> (forall r, r ∈ l -> r ∈ inflight b) -> heads <> [] ->
  (forall i x r q, heads !! i = Some x -> r ∈ x -> requests b !! r = Some q -> i = head_index heads (trans_id q)) ->
  (forall heads', length heads' = length heads -> concat heads' ≡ₚ l ++ concat heads ->
     (forall i x r q, heads' !! i = Some x -> r ∈ x -> requests b !! r = Some q -> i = head_index heads' (trans_id q)) -> Q heads' b) ->
  wp (rehash l heads) Q b.
Proof.
  induction l as [|r l IH]; intros heads Q Hb Hl Hne Hplace HQ; cbn [rehash]; [by apply wp_ret, HQ|].
  assert (Hr : r ∈ inflight b) by (apply Hl; left). destruct (inflight_linked b r Hb Hr) as (q & h & hd & Eq & _).
  apply wp_bind, wp_assert_valid; [by apply (co_linked _ Hb), inflight_listed|]. apply wp_bind, (wp_the_request _ q); [done|].
  destruct (head_index_lookup heads (trans_id q) Hne) as [x Ex]. rewrite Ex. cbn [default].
  set (i := head_index heads (trans_id q)) in *. destruct (concat_insert heads i x (x ++ [r]) Ex) as (rest & H1 & H2).
  apply IH; [done | intros k Hk; apply Hl; by right | | |].
  - intros H0. apply Hne. apply length_zero_iff_nil. apply length_zero_iff_nil in H0. by rewrite length_insert in H0.
  - intros j y k qk Ey Hk Ek. rewrite head_index_insert. apply list_lookup_insert_Some in Ey as [(<- & <- & _)|[_ Ey]]; [|by apply (Hplace j y k)].
    apply elem_of_app in Hk as [Hk|Hk]; [by apply (Hplace _ x k)|]. apply list_elem_of_singleton in Hk as ->. rewrite Eq in Ek. by injection Ek as <-.
  - intros heads' Hlen Hp Hplace'. rewrite length_insert in Hlen. apply HQ; [done | | done].
    rewrite Hp, H2, H1, <- app_assoc. cbn. rewrite !Permutation_middle. done.
Qed.

Lemma core_new_heads b heads max : core b -> heads <> [] -> concat heads ≡ₚ inflight b -> max <= 65000 ->
  (forall i x r q, heads !! i = Some x -> r ∈ x -> requests b !! r = Some q -> i = head_index heads (trans_id q)) ->
  core (b <| req_heads := heads |> <| global_max_requests_inflight := max |>).
Proof.
  intros Hb Hne Hp Hmax Hplace.
  assert (Hl : listed (b <| req_heads := heads |> <| global_max_requests_inflight := max |>) ≡ₚ listed b) by (unfold listed, inflight; cbn; by rewrite Hp).
  split; try by apply Hb.
  - done.
  - rewrite Hl. apply Hb.
  - intros r Hr. rewrite Hl in Hr. by apply (co_linked _ Hb).
  - cbn. intros i x r q Ex Hr Eq. split; [by apply (Hplace i x r)|].
    assert (Hin : r ∈ inflight b) by (rewrite <- Hp; apply elem_of_concat; by exists i, x).
    destruct (inflight_ns b r q Hb Hin Eq) as (s & -> & _). done.
  - cbn. rewrite (co_inflight_count _ Hb). by rewrite (zlen_perm _ _ Hp).
  - done.
Qed.

Lemma max_inflight_ok b n (Q : Z -> evdns_base -> Prop) :
  inv [] None None b -> n <= 65000 -> (forall c b', works b b' -> Q c b') -> wp (evdns_base_set_max_requests_inflight n) Q b.
Proof.
  intros [Hb Hr] Hn HQ. unfold evdns_base_set_max_requests_inflight. set (max := if n <? 1 then 1 else n).
  assert (Hmax : 1 <= max <= 65000) by (subst max; destruct (Z.ltb_spec n 1); lia).
  destruct (mm_malloc _); [|by apply wp_ret, HQ]. apply wp_bind, wp_asks. set (k := Z.to_nat ((max + 4) / 5)).
  assert (Hk : (0 < k)%nat) by (assert (1 <= (max + 4) / 5) by (apply Z.div_le_lower_bound; lia); subst k; lia).
  apply wp_bind, rehash_ok; [done | done | | |].
  - destruct k; [lia | done].
  - intros i x r q Ex Hx. apply lookup_replicate in Ex as [-> _]. by apply elem_of_nil in Hx.
  - intros heads Hlen Hp Hplace. apply wp_bind, wp_modify, wp_ret, HQ. rewrite length_replicate in Hlen.
    rewrite concat_replicate_nil, app_nil_r in Hp. change (concat (req_heads b)) with (inflight b) in Hp.
    assert (Hc : core (b <| req_heads := heads |> <| global_max_requests_inflight := max |>)).
    { apply core_new_heads; [done | | done | lia | done]. intros ->. cbn in Hlen. lia. }
    assert (Hl : listed (b <| req_heads := heads |> <| global_max_requests_inflight := max |>) ≡ₚ listed b) by (unfold listed, inflight; cbn; by rewrite Hp).
    split; [split; [done|]|split; [|done]].
    + destruct Hr as [Rs Rr Rd Rp Rse]. split; try done.
      * intros h hd Eh Hh. specialize (Rs h hd Eh Hh). unfold settled in *. destruct (current_req hd); [|done].
        destruct Rs as (? & ? & ? & ?). splits; try done. by rewrite Hl.
      * intros r q Eq. destruct (Rr r q Eq) as ([Hx|Hx] & ? & ?); [|done]. splits; [left; by rewrite Hl | done | done].
      * intros s ns h En Hpr Hz. destruct (Rp s ns h En Hpr Hz) as [? [P1 P2]]. by split.
    + intros id. unfold outstanding. f_equal. by rewrite (count_perm _ _ _ Hl).
Qed.
End config.
