(* ===== verification/DnsEvents.v ===== *)
(** What can happen to a resolver, and runs of it: the invariant ([DnsInv]) holds at every
    point of a run, and the answers are counted. *)

From stdpp Require Import gmap.
From S2P Require Import Prelude StateOp EvChain Cstring UriCoding Inet EventData Evbuffer EvbufferSpec EvbufferProps Dns DnsSpec DnsPacket DnsServer DnsWire DnsBase DnsResolver DnsResolverSpec DnsLists DnsInv DnsFinish DnsSubmit DnsReply DnsHandle DnsLookup DnsConfig.

(** ** Packets *)

Lemma find_trans_id_some rs id l r : find_trans_id rs id l = Some r -> r ∈ l /\ exists q, rs !! r = Some q /\ trans_id q = id.
Proof.
  induction l as [|x l IH]; cbn [find_trans_id]; [done|]. destruct (rs !! x) as [q|] eqn:Ex; [|done].
  destruct (Z.eqb_spec (trans_id q) id).
  - intros [= <-]. split; [left | by exists q].
  - intros H. destruct (IH H). split; [by right | done].
Qed.

Section packet.
Context {M : Allocator}.

(** The parser hands over the request it found, with another alias at most. *)
Lemma reply_parse_request find rc pkt len res c : reply_parse find rc pkt len = Some (res, Some c) ->
  exists id q cname, find id = Some q /\ rc_request c = q <| put_cname_in_ptr := cname |>.
Proof.
  unfold reply_parse. destruct (get_header pkt len) as [[[h j]|]|]; cbn [mbind option_bind]; [|done..].
  destruct (find (h_trans_id h)) as [q|] eqn:Ef; [|done]. destruct (_ =? 0); [done|].
  assert (Hsame : q = q <| put_cname_in_ptr := put_cname_in_ptr q |>) by by destruct q.
  destruct (_ && _); [intros [= _ <-]; by exists (h_trans_id h), q, (put_cname_in_ptr q)|].
  unfold reply_sections. destruct (test_questions _ _ _ _ _ _ _) as [[[j' [|]]|]|]; cbn [mbind option_bind]; [| | |done].
  2,3: intros [= _ <-]; by exists (h_trans_id h), q, (put_cname_in_ptr q).
  destruct (get_answers _ _ _ _ _) as [[f s]|]; cbn [mbind option_bind]; [|done].
  destruct f; [| |intros [= _ <-]; by exists (h_trans_id h), q, (rs_cname s)].
  all: destruct (have_answer (rs_reply s)); [|destruct (get_authority _ _ _ _ _) as [[[j2 t]|]|]]; cbn [mbind option_bind]; try done.
  all: intros [= _ <-]; by exists (h_trans_id h), q, (rs_cname s).
Qed.
End packet.

(** The request a packet is looked up with. *)
Definition find_request (b : evdns_base) (id : Z) : option request :=
  r ← find_trans_id (requests b) id (list_at b (Inflight (head_index (req_heads b) id))); requests b !! r.

Section events.
Context {A : Arch} {M : Allocator} {E : ResolverEnv} (Hmem : mem_ok).

Lemma packet_ok b s pkt len (Q : Z -> evdns_base -> Prop) :
  inv [] None None b -> s ∈ server_head b -> server_head b <> [] -> reply_parse (find_request b) (global_randomize_case b) pkt len <> None ->
  (forall c b', settles b b' -> Q c b') -> wp (nameserver_packet s pkt len) Q b.
Proof.
  intros Hi Hs Hring Hparse HQ. unfold nameserver_packet.
  apply wp_bind, (update_server_ok _ _ _ [] None None None); [done | done | done | by right |]. intros n En b1 Hi1 He1 Ha1.
  assert (Hs1 : settles b b1) by (apply (evolves_settles None); done). apply wp_bind, wp_asks.
  change (global_randomize_case b1) with (global_randomize_case b).
  change (fun id => r ← find_trans_id (requests b1) id (list_at b1 (Inflight (head_index (req_heads b1) id))); requests b1 !! r) with (find_request b).
  destruct (reply_parse (find_request b) (global_randomize_case b) pkt len) as [[res o]|] eqn:Ep; [|done].
  apply wp_bind, (wp_lift _ (res, o)); [done|]. destruct o as [c|]; [|by apply wp_ret, HQ].
  destruct (reply_parse_request _ _ _ _ _ _ Ep) as (id & q & cname & Hf & Hq).
  unfold find_request in Hf. destruct (find_trans_id _ _ _) as [r|] eqn:Er; [|done]. cbn [mbind option_bind] in Hf.
  destruct (find_trans_id_some _ _ _ _ Er) as (Hin & q' & Eq & Hid). rewrite Hf in Eq. injection Eq as <-.
  assert (Hr : r ∈ inflight b1).
  { apply list_at_inflight in Hin as (l & El & Hin). apply elem_of_concat. by exists (head_index (req_heads b) id), l. }
  apply wp_bind. unfold request_find_from_trans_id. apply wp_bind. unfold REQ_HEAD, wp at 1. apply wp_asks.
  rewrite Hq. change (trans_id (q <| put_cname_in_ptr := cname |>)) with (trans_id q). rewrite Hid.
  change (find_trans_id (requests b1) id (list_at b1 (Inflight (head_index (req_heads b1) id))))
    with (find_trans_id (requests b) id (list_at b (Inflight (head_index (req_heads b) id)))). rewrite Er.
  apply wp_bind, (wp_lift _ r); [done|]. apply wp_bind, (wp_update_request _ _ q); [done|].
  destruct (inflight_ns b1 r q (proj1 Hi1) Hr Hf) as (sq & Hsq & Hsr).
  destruct (core_change_ns b1 r q (q <| put_cname_in_ptr := cname |>) (proj1 Hi1) Hr Hf) as [Hc2 Hk2];
    [by split | done | cbn; by rewrite Hsq | cbn; rewrite Hsq; by intros x [= <-]|].
  pose proof (kept_settles _ _ Hi1 Hc2 Hk2) as Hs2.
  apply wp_bind, (reply_handle_ok Hmem); [apply Hs2 | done | done|]. intros b3 Hs3. apply wp_ret, HQ.
  apply (settles_trans b b1); [apply Hs1..|]. by eapply settles_trans; [apply Hs2 | apply Hs2 |].
Qed.

(** ** Events *)

(** A call of the application, or of the event loop. *)
Inductive resolver_event :=
  | Resolve (type : Z) (name : list Z) (flags : Z) (id : nat)
  | Reverse (name : list Z) (id : nat)
  | Cancel (h : nat)
  | Packet (s : nat) (pkt : list Z) (len : Z)
  | TimedOut (r : nat)
  | Prod (s : nat)
  | RunCallback
  | Writable (s : nat)
  | AddServer (addr : sockaddr) (sys : Z)
  | Resume
  | SearchClear
  | SearchAdd (domain : list Z)
  | SearchNdots (n : Z)
  | MaxInflight (n : Z).

(** What the application sees: a lookup that has begun, a callback that is called. *)
Inductive observation := Begun (id : nat) | Called (id : nat) (args : callback_args) | Nothing.

Definition run_event (e : resolver_event) : base_op observation :=
  match e with
  | Resolve type name flags id => let! o := resolve type name flags (Callback id) in ret match o with Some _ => Begun id | None => Nothing end
  | Reverse name id => let! o := resolve_name name (Callback id) in ret match o with Some _ => Begun id | None => Nothing end
  | Cancel h => evdns_cancel_request h ;; ret Nothing
  | Packet s pkt len => let! _ := nameserver_packet s pkt len in ret Nothing
  | TimedOut r => evdns_request_timeout_callback r ;; ret Nothing
  | Prod s => nameserver_prod_callback s ;; ret Nothing
  | RunCallback => let! o := reply_run_callback in ret match o with Some (id, args) => Called id args | None => Nothing end
  | Writable s => nameserver_writable s ;; ret Nothing
  | AddServer addr sys => let! _ := evdns_nameserver_add_impl addr sys in ret Nothing
  | Resume => evdns_base_resume ;; ret Nothing
  | SearchClear => search_postfix_clear ;; ret Nothing
  | SearchAdd domain => search_postfix_add domain ;; ret Nothing
  | SearchNdots n => evdns_base_search_ndots_set n ;; ret Nothing
  | MaxInflight n => let! _ := evdns_base_set_max_requests_inflight n in ret Nothing
  end.

(** The handle of a lookup of the application. *)
Definition app_handle (b : evdns_base) (h : nat) : Prop :=
  exists hd, handles b !! h = Some hd /\
    forall r q s, current_req hd = Some r -> requests b !! r = Some q -> user_callback q <> Probe s.

(** When an event can happen: an empty name is not looked up with a search list, a handle
    that is cancelled is one that the application got and has not lost, timers belong to
    requests in flight and to servers, a packet is one that the parser can read. *)
Definition possible (b : evdns_base) (e : resolver_event) : Prop :=
  match e with
  | Resolve type name _ _ => (type = TYPE_A \/ type = TYPE_AAAA) /\ name <> []
  | Cancel h => app_handle b h
  | Packet s pkt len => s ∈ server_head b /\ reply_parse (find_request b) (global_randomize_case b) pkt len <> None
  | TimedOut r => r ∈ inflight b
  | Prod s => s ∈ server_head b /\ zlen (inflight b) <= 65000
  | Writable s => s ∈ server_head b
  | MaxInflight n => n <= 65000
  | _ => True
  end.

Definition begun (o : observation) (id : nat) : Z := match o with Begun i => Z.b2z (bool_decide (i = id)) | _ => 0 end.
Definition called (o : observation) (id : nat) : Z := match o with Called i _ => Z.b2z (bool_decide (i = id)) | _ => 0 end.

(** The resolver has a server, and its invariant holds. *)
Definition good (b : evdns_base) : Prop := inv [] None None b /\ server_head b <> [].

(** The event leaves the base good, and counts the answers. *)
Definition accounted (b : evdns_base) (o : observation) (b' : evdns_base) : Prop :=
  good b' /\ forall id, outstanding b' (Callback id) = outstanding b (Callback id) + begun o id - called o id.

Lemma configured_accounted b b' : good b -> configured b b' -> accounted b Nothing b'.
Proof. intros [_ Hr] (Hi & Ha & Hp). split; [split; auto|]. intros id. rewrite Ha. cbn. lia. Qed.

Lemma settles_accounted b b' : good b -> settles b b' -> accounted b Nothing b'.
Proof. intros Hg Hs. by apply configured_accounted, works_configured, settles_works. Qed.

Lemma works_accounted b b' : good b -> works b b' -> accounted b Nothing b'.
Proof. intros Hg Hs. by apply configured_accounted, works_configured. Qed.

Lemma looked_up_accounted b o id b' : good b -> looked_up b (Callback id) o b' ->
  accounted b match o with Some _ => Begun id | None => Nothing end b'.
Proof.
  intros [_ Hr] (Hi & Hp & Ho). split; [split; [done|]; intros H0; rewrite H0 in Hp; by apply Permutation_nil in Hp|].
  intros k. destruct o as [h|]; [|rewrite Ho; cbn; lia]. destruct Ho as [_ Ho]. rewrite Ho. cbn.
  rewrite (bool_decide_ext (Callback id = Callback k) (id = k)) by (split; congruence). lia.
Qed.

Lemma run_event_ok b e (Q : observation -> evdns_base -> Prop) :
  good b -> possible b e -> (forall o b', accounted b o b' -> Q o b') -> wp (run_event e) Q b.
Proof.
  intros Hg He HQ. pose proof Hg as [Hi Hring]. destruct e; cbn [run_event possible] in *; apply wp_bind.
  - destruct He. apply (resolve_ok Hmem b type name flags (Callback id)); [done | done | done | done|]. intros o b' Hw. apply wp_ret, HQ. by apply looked_up_accounted.
  - apply (resolve_name_ok Hmem b name (Callback id)); [done | done|]. intros o b' Hw. apply wp_ret, HQ. by apply looked_up_accounted.
  - destruct He as (hd & Eh & Hp). apply (evdns_cancel_ok Hmem b h hd [] None None); [done | apply not_elem_of_nil | done | | done |].
    + intros r q s Hc Eq Hcb. by destruct (Hp r q s).
    + intros b' Hi' He' _ Ha'. apply wp_ret, HQ, settles_accounted; [done|]. by apply (evolves_settles (Some h)).
  - destruct He. apply packet_ok; [done..|]. intros c b' Hw. by apply wp_ret, HQ, settles_accounted.
  - apply (timeout_ok Hmem); [done..|]. intros b' Hw. by apply wp_ret, HQ, settles_accounted.
  - destruct He. apply (prod_ok Hmem); [done..|]. intros b' Hw. by apply wp_ret, HQ, works_accounted.
  - apply (run_callback_ok Hmem); [done | done | |].
    + intros _. apply wp_ret, HQ. split; [done|]. intros id. cbn. lia.
    + intros d rest b' Ed Hi' Hp' Ho args Ea. apply wp_ret, HQ. split.
      * split; [done|]. intros H0. rewrite H0 in Hp'. by apply Permutation_nil in Hp'.
      * intros id. rewrite Ho. destruct (d_callback d) as [i|s]; cbn; [|rewrite bool_decide_false by done; cbn; lia].
        rewrite (bool_decide_ext (Callback i = Callback id) (i = id)) by (split; congruence). lia.
  - apply writable_ok; [done..|]. intros b' Hw. by apply wp_ret, HQ, settles_accounted.
  - apply add_server_ok; [done|]. intros c b' Hw. by apply wp_ret, HQ, configured_accounted.
  - apply resume_ok; [done..|]. intros b' Hw. by apply wp_ret, HQ, settles_accounted.
  - apply (search_clear_ok Hmem); [done|]. intros b' Hw. by apply wp_ret, HQ, works_accounted.
  - apply (search_add_ok Hmem); [done|]. intros b' Hw. by apply wp_ret, HQ, works_accounted.
  - apply (search_ndots_ok Hmem); [done|]. intros b' Hw. by apply wp_ret, HQ, works_accounted.
  - apply max_inflight_ok; [done..|]. intros c b' Hw. by apply wp_ret, HQ, works_accounted.
Qed.

(** ** Runs *)

Fixpoint run_events (l : list resolver_event) : base_op (list observation) :=
  match l with
  | [] => ret []
  | e :: l' => let! o := run_event e in let! os := run_events l' in ret (o :: os)
  end.

(** Every event of the run can happen when it is its turn. *)
Fixpoint all_possible (b : evdns_base) (l : list resolver_event) : Prop :=
  match l with
  | [] => True
  | e :: l' => possible b e /\ forall o b', run_event e b = Some (o, b') -> all_possible b' l'
  end.

Definition total (f : observation -> nat -> Z) (os : list observation) (id : nat) : Z := foldr (fun o n => f o id + n) 0 os.

Lemma run_events_ok l : forall b, good b -> all_possible b l ->
  exists os b', run_events l b = Some (os, b') /\ good b' /\
    forall id, outstanding b' (Callback id) = outstanding b (Callback id) + total begun os id - total called os id.
Proof.
  induction l as [|e l IH]; intros b Hg Hl; cbn [run_events all_possible] in *.
  - exists [], b. splits; [done | done|]. intros id. cbn. lia.
  - destruct Hl as [He Hl]. pose proof (run_event_ok b e (accounted b) Hg He ltac:(done)) as Hw.
    unfold wp in Hw. unfold bind. destruct (run_event e b) as [[o b1]|] eqn:Ee; [|done]. destruct Hw as [Hg1 Ho1].
    destruct (IH b1 Hg1 (Hl o b1 eq_refl)) as (os & b2 & -> & Hg2 & Ho2). exists (o :: os), b2. splits; [done | done|].
    intros id. rewrite Ho2, Ho1. change (total begun (o :: os) id) with (begun o id + total begun os id).
    change (total called (o :: os) id) with (called o id + total called os id). lia.
Qed.
End events.
