(* ===== verification/DnsResolverProps.v ===== *)
(** The properties of the resolver of [evdns.c]: every event keeps its invariant, every
    lookup is answered once, ids are unused, servers take turns, the waiting queue moves
    on, and probes become rarer up to a limit. *)

From stdpp Require Import gmap.
From S2P Require Import Prelude StateOp EvChain Cstring UriCoding Inet EventData Evbuffer EvbufferSpec EvbufferProps Dns DnsSpec DnsPacket DnsServer DnsWire DnsBase DnsResolver DnsResolverSpec DnsLists DnsInv DnsFinish DnsSubmit DnsReply DnsHandle DnsLookup DnsConfig DnsEvents.

Section props.
Context {A : Arch} {M : Allocator} {E : ResolverEnv}.

(** C12: When memory lasts, every call and every event that can happen to a resolver with
    at least one server is defined (no dangling pointer, no broken list, no failed
    assertion) and leaves the resolver well-formed: requests are in the list of their id
    and linked with their handles, counters are the lengths of the lists, a handle belongs
    to one request in progress or to one queued callback, search states are counted, and
    the number of good servers is right. *)
Theorem resolver_event_safe b e : mem_ok -> good b -> possible b e ->
  exists o b', run_event e b = Some (o, b') /\ good b'.
Proof.
  intros Hm Hg He. pose proof (run_event_ok Hm b e (accounted b) Hg He ltac:(done)) as Hw. unfold wp in Hw.
  destruct (run_event e b) as [[o b']|]; [|done]. exists o, b'. split; [done | apply Hw].
Qed.

(** C13: In every run of a resolver each lookup that has begun is answered exactly once:
    the lookups begun under a callback are those whose callback was called and those whose
    answer is still to come, as a request in a list or as a queued callback. *)
Theorem lookups_answered_once b l : mem_ok -> good b -> all_possible b l ->
  exists os b', run_events l b = Some (os, b') /\ good b' /\
    forall id, outstanding b (Callback id) + total begun os id = total called os id + outstanding b' (Callback id).
Proof.
  intros Hm Hg Hl. destruct (run_events_ok Hm l b Hg Hl) as (os & b' & Er & Hg' & Ho). exists os, b'. splits; [done | done|].
  intros id. specialize (Ho id). lia.
Qed.


(** ** Choosing a server *)

Definition server_up (b : evdns_base) (s : nat) : Prop := exists n, servers b !! s = Some n /\ up n = true.
Definition server_down (b : evdns_base) (s : nat) : Prop := exists n, servers b !! s = Some n /\ up n = false.

Lemma pick_up_server_turn b down s rest : Forall (server_down b) down -> server_up b s ->
  forall fuel tail, (length down < fuel)%nat ->
  pick_up_server fuel (b <| server_head := down ++ s :: rest ++ tail |>) = Some (Some s, b <| server_head := rest ++ tail ++ down ++ [s] |>).
Proof.
  intros Hd (n & En & Hu). induction Hd as [|x down (nx & Ex & Hx) Hd IH]; intros fuel tail Hf; (destruct fuel as [|fuel]; [cbn in Hf; lia|]).
  - cbn [pick_up_server app]. unfold bind, asks, the_server, modify. cbn. rewrite En. cbn. rewrite Hu. cbn. by rewrite <- app_assoc.
  - cbn [pick_up_server app]. unfold bind, asks, the_server, modify. cbn. rewrite Ex. cbn. rewrite Hx.
    specialize (IH fuel (tail ++ [x]) ltac:(cbn in Hf; lia)). rewrite <- !app_assoc in IH. cbn in IH |- *.
    replace ((down ++ s :: rest ++ tail) ++ [x]) with (down ++ s :: rest ++ tail ++ [x]) by (by rewrite <- app_assoc, <- app_comm_cons, <- app_assoc). exact IH.
Qed.

Lemma first_up b l : (forall s, s ∈ l -> is_Some (servers b !! s)) ->
  Forall (server_down b) l \/ exists down s rest, l = down ++ s :: rest /\ Forall (server_down b) down /\ server_up b s.
Proof.
  induction l as [|s l IH]; intros Hl; [by left|]. destruct (Hl s) as [n En]; [left|].
  destruct (up n) eqn:Hu; [right; exists [], s, l; splits; [done | done | by exists n]|].
  destruct IH as [Hd|(down & x & rest & -> & Hd & Hx)]; [intros; apply Hl; by right | left; constructor; [by exists n | done]|].
  right. exists (s :: down), x, rest. splits; [done | | done]. constructor; [by exists n | done].
Qed.

Lemma count_up_zero b l : Forall (server_down b) l -> count_up (servers b) l = 0.
Proof.
  unfold count_up. induction 1 as [|s l (n & En & Hu) Hd IH]; [done|]. rewrite filter_cons, En. cbn. rewrite Hu. case_decide; [congruence|done].
Qed.

(** C35: [nameserver_pick] gives the first server of the ring that is up, and the ring then
    starts behind it, so that the servers take turns; if none is up it gives the next server
    of the ring; without servers it gives NULL.  Nothing else changes. *)
Theorem nameserver_pick_spec b : core b ->
  exists o ring, nameserver_pick b = Some (o, b <| server_head := ring |>) /\
    ((exists down s rest, server_head b = down ++ s :: rest /\ Forall (server_down b) down /\ server_up b s /\
        o = Some s /\ ring = rest ++ down ++ [s]) \/
     Forall (server_down b) (server_head b) /\ ring = rotate (server_head b) /\ o = head ring).
Proof.
  intros Hb. pose proof (co_good _ Hb) as Hg. unfold nameserver_pick, bind, asks.
  destruct (first_up b (server_head b)) as [Hd|(down & s & rest & Er & Hd & Hu)]; [intros s; apply Hb | |].
  - rewrite (count_up_zero _ _ Hd) in Hg. destruct (server_head b) as [|s l] eqn:Er.
    + exists None, []. split; [|right; by split]. cbn. rewrite <- Er. by rewrite same_ring.
    + rewrite Hg. cbn. unfold modify. rewrite Er. cbn. eexists _, _. split; [reflexivity|]. right. by split.
  - assert (Hg' : global_good_nameservers b <> 0).
    { rewrite Hg, Er. unfold count_up. destruct Hu as (n & En & Hn). rewrite list.filter_app, filter_cons, En. cbn. rewrite Hn, decide_True by done.
      rewrite zlen_app, zlen_cons. pose proof (zlen_nonneg (filter (fun s => (up <$> servers b !! s) = Some true) down)).
      pose proof (zlen_nonneg (filter (fun s => (up <$> servers b !! s) = Some true) rest)). lia. }
    pose proof (pick_up_server_turn b down s rest Hd Hu (length (server_head b)) []) as Ht. rewrite app_nil_r in Ht. rewrite <- Er in Ht.
    rewrite same_ring in Ht. exists (Some s), (rest ++ down ++ [s]). split.
    + destruct (server_head b) as [|s0 l] eqn:Es; [by destruct down|]. rewrite (proj2 (Z.eqb_neq _ _)) by done.
      apply Ht. rewrite Er, length_app. cbn. lia.
    + left. exists down, s, rest. splits; done.
Qed.

End props.

(** ** The time between probes *)

Definition usecs (t : Z * Z) : Z := fst t * 1000000 + snd t.
Definition valid_time (t : Z * Z) : Prop := 0 <= fst t /\ 0 <= snd t < 1000000.

Lemma backoff_spec n : forall t, valid_time t -> valid_time (backoff n t) /\
  (usecs t * 3 ^ Z.of_nat n < 3600 * 1000000 -> usecs (backoff n t) = usecs t * 3 ^ Z.of_nat n) /\
  (3600 * 1000000 <= usecs t * 3 ^ Z.of_nat n -> 3600 * 1000000 <= usecs (backoff n t)).
Proof.
  induction n as [|n IH]; intros [s u] [Hs Hu]; cbn [backoff fst snd] in *.
  { change (3 ^ Z.of_nat 0) with 1. splits; [done | lia | lia]. }
  rewrite Nat2Z.inj_succ, Z.pow_succ_r by lia. pose proof (Z.pow_pos_nonneg 3 (Z.of_nat n) ltac:(lia) ltac:(lia)) as Hpow.
  destruct (Z.ltb_spec s MAX_PROBE_TIMEOUT) as [Hlt|Hge]; unfold MAX_PROBE_TIMEOUT, TIMEOUT_BACKOFF_FACTOR in *.
  - assert (Ht : forall t', valid_time t' -> usecs t' = 3 * usecs (s, u) ->
      valid_time (backoff n t') /\ (usecs (s, u) * (3 * 3 ^ Z.of_nat n) < 3600000000 -> usecs (backoff n t') = usecs (s, u) * (3 * 3 ^ Z.of_nat n)) /\
      (3600000000 <= usecs (s, u) * (3 * 3 ^ Z.of_nat n) -> 3600000000 <= usecs (backoff n t'))).
    { intros t' Hv He. destruct (IH t' Hv) as (Hv' & H1 & H2). rewrite He in H1, H2. splits; [done | lia | lia]. }
    destruct (Z.ltb_spec 1000000 (u * 3)); apply Ht; unfold valid_time, usecs; cbn [fst snd]; try lia.
    + pose proof (Z.mod_pos_bound (u * 3) 1000000 ltac:(lia)). pose proof (Z.div_pos (u * 3) 1000000 ltac:(lia) ltac:(lia)). lia.
    + pose proof (Z.div_mod (u * 3) 1000000 ltac:(lia)). lia.
  - splits; [done | |]; unfold usecs; cbn [fst snd]; nia.
Qed.

(** C37: After [n] failures the time to the next probe is the initial time multiplied by
    [3 ^ n] as long as that is less than an hour, and then stays between an hour and an
    hour and a second; it is always a valid [struct timeval]. *)
Theorem probe_timeout_spec initial n : valid_time initial -> 0 <= n ->
  let t := probe_timeout initial n in
  valid_time t /\
  (usecs initial * 3 ^ n < 3600 * 1000000 -> usecs t = usecs initial * 3 ^ n) /\
  (3600 * 1000000 <= usecs initial * 3 ^ n -> 3600 * 1000000 <= usecs t < 3601 * 1000000).
Proof.
  intros Hv Hn t. destruct (backoff_spec (Z.to_nat n) initial Hv) as ([H1 H2] & H3 & H4). rewrite Z2Nat.id in H3, H4 by done.
  subst t. unfold probe_timeout, MAX_PROBE_TIMEOUT. revert H1 H2 H3 H4. generalize (backoff (Z.to_nat n) initial) as t. intros t H1 H2 H3 H4.
  destruct (Z.ltb_spec 3600 (fst t)); unfold valid_time, usecs in *; cbn [fst snd] in *; (split; [lia | split; [intros Hx | lia]]).
  - specialize (H3 Hx). lia.
  - by apply H3.
Qed.

(** ** A resolver to try *)

(** A generator that counts: 65536 numbers in a row are all different. *)
Definition count16 (n : nat) : Z := Z.of_nat n mod 65536.

Lemma count16_fair n (l : list Z) : zlen l < 65535 -> exists i, (i < Z.to_nat 65536)%nat /\ count16 (n + i) ∉ l.
Proof.
  intros Hl. set (gap := Z.to_nat 65536). assert (Hgap : Z.of_nat gap = 65536) by (subst gap; by rewrite Z2Nat.id).
  clearbody gap. destruct (decide (Exists (fun i => count16 (n + i) ∉ l) (seq 0 gap))) as [Hex|Hno].
  - apply Exists_exists in Hex as (i & Hi%list_elem_of_In & Hn). apply elem_of_seq in Hi. exists i. split; [lia | done].
  - exfalso. apply not_Exists_Forall in Hno; [|apply _]. set (vs := (fun i => count16 (n + i)) <$> seq 0 gap).
    assert (Hnd : NoDup vs).
    { apply NoDup_fmap_2_strong; [|apply NoDup_ListNoDup, seq_NoDup]. intros x y Hx Hy Hxy. apply elem_of_seq in Hx, Hy. unfold count16 in Hxy.
      pose proof (Z.div_mod (Z.of_nat (n + x)) 65536 ltac:(lia)). pose proof (Z.div_mod (Z.of_nat (n + y)) 65536 ltac:(lia)).
      rewrite Hxy in *. lia. }
    assert (Hsub : vs ⊆+ l).
    { apply NoDup_submseteq; [done|]. intros v (i & -> & Hi)%list_elem_of_fmap. rewrite Forall_forall in Hno. specialize (Hno i (proj1 (list_elem_of_In _ _) Hi)).
      by apply dec_stable. }
    apply submseteq_length in Hsub. unfold vs in Hsub. rewrite length_fmap, length_seq in Hsub. unfold zlen in Hl. lia.
Qed.

#[refine] Definition example_env : ResolverEnv := {|
  rand16 := count16; randbyte := fun _ => 0; rand_gap := Z.to_nat 65536; net := fun _ => Sent; sizeof := fun _ => 64 |}.
Proof.
  - intros _. lia.
  - intros n. unfold fits, count16. apply Z.mod_pos_bound. lia.
  - exact count16_fair.
Defined.

#[local] Existing Instance win64.
#[local] Existing Instance zero_allocator.
#[local] Existing Instance example_env.

Lemma new_base_inv : inv [] None None new_base.
Proof.
  split; split; try done.
  - constructor.
  - intros r Hr. by apply elem_of_nil in Hr.
  - constructor.
  - intros s. split; [by intros [n En] | by intros Hs%elem_of_nil].
  - intros d Hd. by apply elem_of_nil in Hd.
Qed.

Definition example_base : evdns_base :=
  match run_event (AddServer (Sin 53 0x0a000001) 0) new_base with Some (_, b) => b | None => new_base end.

Lemma example_base_good : good example_base.
Proof.
  split; [|by vm_compute]. unfold example_base. cbn [run_event].
  assert (Hw : wp (let! _ := evdns_nameserver_add_impl (Sin 53 0x0a000001) 0 in ret Nothing) (fun _ b => inv [] None None b) new_base).
  { apply wp_bind, add_server_ok; [exact new_base_inv|]. intros c b' (Hi & _). by apply wp_ret. }
  unfold wp in Hw. by destruct (bind _ _ new_base) as [[o b]|].
Qed.

(** A lookup that is cancelled, and the callback that tells so. *)
Definition example_run : list resolver_event := [Resolve TYPE_A (bytes_of "www.example.org") DNS_QUERY_NO_SEARCH 7; Cancel 1; RunCallback].

Lemma example_run_possible : all_possible example_base example_run.
Proof.
  cbn [example_run all_possible]. split; [by split; [left|]|]. intros o b1 E1. vm_compute in E1. injection E1 as _ <-. split.
  - eexists. split; [vm_compute; reflexivity|]. intros r q s [= <-] Eq. vm_compute in Eq. injection Eq as <-. done.
  - intros o2 b2 E2. vm_compute in E2. injection E2 as _ <-. done.
Qed.

Lemma resolver_event_safe_witness :
  exists o b', run_event (Resolve TYPE_A (bytes_of "www.example.org") DNS_QUERY_NO_SEARCH 7) example_base = Some (o, b') /\
    good b' /\ o = Begun 7.
Proof.
  destruct (resolver_event_safe example_base (Resolve TYPE_A (bytes_of "www.example.org") DNS_QUERY_NO_SEARCH 7)) as (o & b' & E1 & Hg);
    [exact zero_mem_ok | exact example_base_good | by split; [left|]|].
  exists o, b'. split; [exact E1|]. split; [exact Hg|]. vm_compute in E1. by injection E1 as <- _.
Defined.

Lemma lookups_answered_once_witness :
  exists os b', run_events example_run example_base = Some (os, b') /\ total begun os 7 = 1 /\ total called os 7 = 1 /\
    outstanding b' (Callback 7) = 0.
Proof.
  destruct (lookups_answered_once example_base example_run) as (os & b' & Er & _ & Ho);
    [exact zero_mem_ok | exact example_base_good | exact example_run_possible|].
  specialize (Ho 7%nat). exists os, b'. split; [exact Er|].
  assert (Hb : total begun os 7 = 1 /\ total called os 7 = 1) by (vm_compute in Er; injection Er as <- _; split; reflexivity).
  destruct Hb as [H1 H2]. rewrite H1, H2 in *. splits; [done | done|].
  assert (H0 : outstanding example_base (Callback 7) = 0) by (vm_compute; reflexivity). lia.
Defined.


Lemma nameserver_pick_spec_witness :
  exists ring, nameserver_pick example_base = Some (Some 0%nat, example_base <| server_head := ring |>).
Proof.
  destruct (nameserver_pick_spec example_base (proj1 (proj1 example_base_good))) as (o & ring & E1 & _).
  exists ring. rewrite E1. vm_compute in E1. injection E1 as <- _. reflexivity.
Defined.

(** A base whose only lookup waits, because no request may be in flight yet. *)
Definition waiting_base : evdns_base :=
  match run_event (Resolve TYPE_A (bytes_of "www.example.org") DNS_QUERY_NO_SEARCH 7) (example_base <| global_max_requests_inflight := 0 |>) with
  | Some (_, b) => b <| global_max_requests_inflight := 64 |>
  | None => example_base
  end.

Lemma set_max_good b m : good b -> m <= 65000 -> good (b <| global_max_requests_inflight := m |>).
Proof.
  intros [[[] [Rs Rr Rd Rp Rse]] Hring] Hm. split; [|done]. split; [by split|]. split; try done.
  intros s n h En Hp Hz. destruct (Rp s n h En Hp Hz) as [? [P1 P2]]. by split.
Qed.

Lemma waiting_base_core : core waiting_base.
Proof.
  pose proof (set_max_good example_base 0 example_base_good ltac:(lia)) as Hg.
  pose proof (run_event_ok zero_mem_ok _ (Resolve TYPE_A (bytes_of "www.example.org") DNS_QUERY_NO_SEARCH 7) (fun _ b => good b) Hg) as Hw.
  unfold wp in Hw. unfold waiting_base. destruct (run_event _ _) as [[o b]|].
  - apply (set_max_good b 64); [|lia]. apply Hw; [by split; [left|] | by intros o' b' [Hb _]].
  - destruct Hw; [by split; [left|] | by intros o' b' [Hb _]].
Qed.


Lemma probe_timeout_witness : valid_time (10, 0) /\ usecs (probe_timeout (10, 0) 2) = 90 * 1000000 /\ fst (probe_timeout (10, 0) 6) = 3600.
Proof.
  destruct (probe_timeout_spec (10, 0) 2) as (_ & H & _); [unfold valid_time; cbn; lia | lia|].
  split; [unfold valid_time; cbn; lia|]. split; [rewrite H; [done | by vm_compute] | by vm_compute].
Defined.
